(* ===== verification/_CoqProject ===== *)
-Q . S2P
Prelude.v
Pmm.v
PmmInv.v
PmmHole.v
PmmFree.v
PmmAlloc.v
PmmRanges.v
PmmInit.v
PmmBoot.v
PmmSpec.v
PageAlloc.v
PmmIface.v
PmmProps.v
Vmm.v
VmmInv.v
VmmMap.v
VmmSpec.v
VmmProps.v
Kmem.v
Heap.v
Rtc.v
Spinlock.v
Entropy.v
Ring.v
Ps2Kbd.v
Loops.v
Codec.v
Totfs.v
TotfsDisk.v
TotfsInode.v
TotfsFile.v
TotfsWrite.v
TotfsProps.v
Part.v
Elf.v
ElfLoad.v
Aes.v
Sha1.v
Ccmp.v
Wpa2.v
Wpa2Props.v
Net.v
NetSum.v
NetRecv.v
NetTcp.v
NetStream.v
NetDhcp.v
NetArp.v
NetDns.v
Sched.v
SchedQueue.v
SchedInv.v
SchedOps.v
SchedProc.v
SchedTick.v
SchedProps.v
SchedMain.v
Fat32.v
FatVol.v
FatRead.v
FatWrite.v
FatEntry.v
FatName.v
FatCreate.v
FatTrunc.v
FatTotal.v
FatMain.v
Vfs.v
VfsInv.v
VfsFat.v
VfsCalls.v
VfsMain.v
VmRegion.v
VmTable.v
VmSpace.v
VmInvariant.v
VmUnmap.v
VmProtect.v
VmMachine.v
VmMain.v
