(* ===== verification/Prelude.v ===== *)
(** * TaterTOS64 kernel core: a verification development

    TaterTOS64 is an x86-64 operating system in C.  This library models the
    parts of its kernel that carry the core logic, as executable definitions
    translated from the sources, and proves what those parts promise.

    ** The modelled parts

    - Physical memory manager ([src/src/kernel/mm/pmm.c]).  [Pmm] is the code:
      the record [pmm] holds the static variables, with the three metadata
      arrays as maps; one definition per function, from [normalize_ranges] to
      [pmm_init], [alloc_pages_range_locked] and [pmm_free_pages].  [PmmInv],
      [PmmHole], [PmmFree], [PmmAlloc], [PmmRanges], [PmmInit] and [PmmBoot] hold the invariant and the lemma of each
      function; [PmmSpec] the abstract allocator; [PmmProps] the claims.
    - Virtual memory manager ([mm/vmm.c]).  [Vmm] is the code over any page
      allocator; [PageAlloc] is the interface it needs of one, and [PmmIface]
      shows that the buddy allocator provides it.  [VmmInv], [VmmMap] and
      [VmmSpec] treat page-table trees; [VmmProps] has the claims.
    - Memory mappings of processes (the region code of [proc/syscall.c] and
      the calls [mmap], [munmap] and [mprotect]).  [VmRegion] is the code over
      the interface [UserSpace] to page tables, frames and heap; [VmTable] has
      the table as a map of pages, [VmSpace] the laws of the interface with the
      loops over pages and shared objects, [VmInvariant] the invariant and
      mapping, [VmUnmap] and [VmProtect] the other calls and the end of a
      process; [VmMachine] shows that the virtual memory manager provides the
      interface; [VmMain] has the claims.
    - Memory primitives and the kernel heap ([kmem.c], [mm/heap.c]): [Kmem],
      [Heap].
    - Clock ([src/src/drivers/timer/rtc.c]), spinlocks
      ([drivers/smp/spinlock.c]) and the entropy pool ([kernel/entropy]):
      [Rtc], [Spinlock], [Entropy].
    - Keyboard ([drivers/input/ps2_kbd.c]): [Ps2Kbd], on the ring buffers of
      [Ring].
    - The ToTFS file system ([kernel/fs/totfs.c]).  [Totfs] is the code over
      the block-device interface of [Codec]; [TotfsDisk], [TotfsInode], [TotfsFile] and [TotfsWrite] hold the lemmas; [TotfsProps]
      the claims.  [Codec] also has the packed structures, and [Loops] the loops
      of fallible programs.
    - The FAT32 file system ([kernel/fs/fat32.c]).  [Fat32] is the code over
      the same block-device interface; [FatVol] (the table as an
      array, chains and allocation), [FatRead], [FatWrite] and [FatEntry]
      (the bytes of files and their directory entries), [FatName] and [FatCreate] (names, a directory walk as a scan
      of entries, creation), [FatTrunc] (truncation, reading any image) and
      [FatTotal] (changing any image) hold the lemmas; [FatMain] the claims, with a small volume.
    - The virtual file system ([kernel/fs/vfs.c]).  [Vfs] is the code over any
      tables of operations: the mount list, references, the pool of open files
      and the calls; [VfsFat] the FAT32 adapters.  [VfsInv] has the invariant
      of the references and states what a table promises (the class [Lawful]),
      which FAT32 keeps on any image; [VfsCalls] the lemma of each call
      and a file from open to close; [VfsMain] the claims.
    - GPT partitions ([kernel/fs/part.c]): [Part].
    - The program loader ([kernel/proc/elf.c]): [Elf] is the code over an
      address-space interface, [ElfLoad] the theorem about loading.
    - The scheduler and the process table ([kernel/proc/sched.c], part of
      [process.c]): [Sched] is the code, with linked run queues, blocking,
      futexes, the tick and start-up; [SchedQueue] relates linked queues to
      lists, [SchedInv] has the invariant, [SchedOps], [SchedProc]
      and [SchedTick] the lemma of each call, [SchedProps] the
      step relation over all calls, [SchedMain] the claims.
    - WPA2 ([src/src/drivers/net/iwl_crypto.c], [iwl_wpa2.c], and the EAPOL
      answer of [wifi_9260.c]): [Aes], [Sha1] and [Ccmp] are the cryptography,
      [Wpa2] the handshake and the data frames, [Wpa2Props] the claims.
    - The network stack ([drivers/net/netcore.c]): [Net] is the code, from
      Ethernet frames to [tcp_send], [dhcp_discover] and [dns_resolve], over
      one network interface; [NetSum] (byte order, checksum,
      transmission), [NetRecv] (reception, UDP), [NetTcp] and [NetStream]
      (TCP), [NetDhcp], [NetArp] and [NetDns] hold the lemmas and claims of
      the protocols.

    ** How code is modelled

    A C integer of width N is a [Z] reduced modulo 2^N wherever the C
    expression can leave the range.  Stateful code is a program of the state
    monad [M], in which [None] is undefined behaviour or an exhausted iteration
    bound; code with an error exit is a program of [ME].  [wp] and [wpe] state
    total correctness, so every theorem about a program also says that it
    terminates and stays inside its arrays.  Hardware that is read (ports,
    clock registers, random instructions) is a stream indexed by the number of
    reads; the theorems hold for every stream.

    Loops are [while] with an explicit bound or [for_] over a range.  The bound
    of a [while] is a power of two that no execution reaches (2^64 where the
    code counts a 64-bit variable, the array length otherwise); bounds are
    binary numbers, so they cost nothing to evaluate, and [wp] proves that they
    are never exhausted.

    ** What the theorems show

    - Memory: the buddy allocator refines a set of free pages and a set of live
      blocks; boot hands out exactly the usable memory; page tables are trees
      in which mapping, unmapping and protecting change one page of one address
      space; heap blocks are disjoint; [memmove] is right for all overlaps.
    - Mappings: every sequence of [mmap] (without a file), [munmap] and
      [mprotect] calls, on the virtual memory manager in the process's own
      address space, refines operations on a map from addresses to pages: new
      pages get zeroed frames of their own, exactly the frames of removed pages
      are given back, failed calls change nothing, no page is writable and
      executable, and merging regions changes no page.
    - Storage: ToTFS reads back what was written, at the level of bytes, with
      bitmaps and inodes on disk in step; FAT32 files read back through their
      names what was written, chains grow and shrink by exactly the clusters
      of the file while other files keep theirs, and no image, however corrupt,
      makes an operation fault or loop; partition lookup agrees with the table
      on disk.  Behind the virtual file system no mount goes while a file is
      open on it and none stays after the last one, in any order of calls; a
      path goes to the longest mount point; and the round trip of a FAT32 file
      holds from the calls of the interface down to the sectors.
    - Devices: the keyboard driver refines two bounded queues; the clock agrees
      with the calendar; the spinlock excludes and makes progress; pool mixing
      loses nothing.
    - Loader: loading maps exactly the segments and the stack of a program and
      copies exactly their file parts; the CRC equals its bit-serial definition
      and detects one-byte changes.
    - Scheduler: no sequence of calls from start-up breaks the run queues or
      faults; ticks serve a queue in order and never leave a blocked task
      running; a futex wake wakes exactly the first matching waiters.
    - WPA2: AES, SHA-1 and what is built on them equal their definitions;
      CCMP decryption accepts exactly what encryption produces; the handshake
      installs the access point's keys and only authentic messages change keys;
      accepted packet numbers increase.
    - Network: datagrams and byte streams arrive as they were sent, composed
      through every layer of two hosts; the TCP receiver refines an in-order
      stream for every arrival order; DHCP moves only along its exchange; the
      DNS question and answer follow the message format; the checksum is that
      of RFC 1071; the address cache has one entry per address.

    ** Not modelled

    Console and trace output, and delays; locks inside single operations (each
    operation is atomic; the spinlock is modelled on its own); of the virtual
    file system the search for boot and secondary volumes; NTFS, the packed
    ramdisk and synthetic file systems; the mapping of files and memory files
    (a parameter of [sys_mmap]), [madvise] and the Linux variants of the mapping
    calls; the other system calls, which dispatch over the parts above; freeing
    of processes
    with their descriptors, and registers and vector state at a context switch;
    ACPI, PCI, storage, network, graphics, audio and USB drivers, which program
    devices whose behaviour is not in the repository; the boot loader; user
    space and the vendored libraries. *)

From stdpp Require Export prelude gmap list.
From Stdlib Require Export ZArith Lia.

#[global] Open Scope Z_scope.

(** ** Machine integers

    A C [uintN_t] is a [Z] in [0, 2^N); every C operation that can leave that
    range is followed by the reduction of the type it is stored in. *)

Definition u8 (x : Z) : Z := x mod 2 ^ 8.
Definition u16 (x : Z) : Z := x mod 2 ^ 16.
Definition u32 (x : Z) : Z := x mod 2 ^ 32.
Definition u64 (x : Z) : Z := x mod 2 ^ 64.

(** Conversion of an unsigned 64-bit value to [int64_t] and of a value to
    [int] (two's complement). *)
Definition s64 (x : Z) : Z :=
  let y := u64 x in if y <? 2 ^ 63 then y else y - 2 ^ 64.
Definition s32 (x : Z) : Z :=
  let y := u32 x in if y <? 2 ^ 31 then y else y - 2 ^ 32.

Definition UINT64_MAX : Z := 2 ^ 64 - 1.
Definition PAGE_SIZE : Z := 4096.

(** [(v + a - 1) & ~(a - 1)] and [v & ~(a - 1)] on [uint64_t]. *)
Definition align_up (v a : Z) : Z :=
  Z.land (u64 (v + a - 1)) (u64 (Z.lnot (a - 1))).
Definition align_down (v a : Z) : Z := Z.land v (u64 (Z.lnot (a - 1))).

(** ** A state monad with undefined behaviour

    [None] is undefined behaviour (an access outside an array) or an
    iteration bound exceeded; a theorem that a program reaches a
    postcondition ([wp]) therefore also shows that neither happens. *)

Definition M (S A : Type) : Type := S → option (A * S).

#[global] Instance M_ret {S} : MRet (M S) := λ A a s, Some (a, s).
#[global] Instance M_bind {S} : MBind (M S) := λ A B f m s,
  match m s with Some (a, s') => f a s' | None => None end.

Definition fault {S A} : M S A := λ _, None.
Definition gets {S A} (f : S → A) : M S A := λ s, Some (f s, s).
Definition modify {S} (f : S → S) : M S unit := λ s, Some (tt, f s).
Definition lift_opt {S A} (f : S → option A) : M S A := λ s,
  match f s with Some a => Some (a, s) | None => None end.
Definition update_opt {S} (f : S → option S) : M S unit := λ s,
  match f s with Some s' => Some (tt, s') | None => None end.

(** Weakest precondition: [m] run from [s] is defined and its result and
    final state satisfy [Q]. *)
Definition wp {S A} (m : M S A) (Q : A → S → Prop) (s : S) : Prop :=
  match m s with Some (a, s') => Q a s' | None => False end.

(** ** Loops

    [loop_pos p body a] runs [body] at most [p] times, until it returns
    [inr].  The bound is a binary number, so that a generous bound costs
    nothing when the loop exits early. *)
Fixpoint loop_pos {S A R} (p : positive) (body : A → M S (A + R)) (a : A)
    : M S (A + R) :=
  match p with
  | xH => body a
  | xO q =>
      λ s, match loop_pos q body a s with
           | Some (inl a', s') => loop_pos q body a' s'
           | r => r
           end
  | xI q =>
      λ s, match body a s with
           | Some (inl a', s') =>
               match loop_pos q body a' s' with
               | Some (inl a'', s'') => loop_pos q body a'' s''
               | r => r
               end
           | r => r
           end
  end.

Definition while {S A R} (fuel : Z) (body : A → M S (A + R)) (a : A) : M S R :=
  λ s, match fuel with
       | Zpos p =>
           match loop_pos p body a s with
           | Some (inr r, s') => Some (r, s')
           | _ => None
           end
       | _ => None
       end.

(** [for (i = lo; i < hi; i++) body], where [body] returns [Some r] for a
    [return r] (or [break]) in the C loop. *)
Definition for_ {S R} (lo hi : Z) (body : Z → M S (option R)) : M S (option R) :=
  while (Z.max 0 (hi - lo) + 1)
    (λ i, if i <? hi then
            r ← body i;
            mret (match r with Some x => inr (Some x) | None => inl (i + 1) end)
          else mret (inr None)) lo.

(** ** Programs that may stop the machine

    The kernel halts the processor on some errors.  [ME S A] is a program
    whose result [None] means that it halted. *)

Definition ME (S A : Type) : Type := M S (option A).

#[global] Instance ME_ret {S} : MRet (ME S) := λ A a s, Some (Some a, s).
#[global] Instance ME_bind {S} : MBind (ME S) := λ A B f m s,
  match m s with
  | Some (Some a, s') => f a s'
  | Some (None, s') => Some (None, s')
  | None => None
  end.

Definition halt {S A} : ME S A := λ s, Some (None, s).
Definition run {S A} (m : M S A) : ME S A := λ s,
  match m s with Some (a, s') => Some (Some a, s') | None => None end.

(** [for (i = lo; i < hi; i++) body] where [body] may halt. *)
Definition for_e {S} (lo hi : Z) (body : Z → ME S unit) : ME S unit := λ s,
  match for_ (R := unit) lo hi (λ i s, match body i s with
      | Some (Some _, s') => Some (None, s')
      | Some (None, s') => Some (Some tt, s')
      | None => None
      end) s with
  | Some (None, s') => Some (Some tt, s')
  | Some (Some _, s') => Some (None, s')
  | None => None
  end.

(** Weakest precondition with a postcondition [H] for halting. *)
Definition wpe {S A} (m : ME S A) (Q : A → S → Prop) (H : S → Prop) (s : S) : Prop :=
  wp (m : M S (option A)) (λ r s', match r with Some a => Q a s' | None => H s' end) s.

(** ** Rules of [wp] *)

Section wp_rules.
Context {S : Type}.
Implicit Types s : S.

Lemma wp_ret {A} (a : A) (Q : A → S → Prop) s : Q a s → wp (mret a) Q s.
Proof. done. Qed.

Lemma wp_bind {A B} (m : M S A) (f : A → M S B) Q s :
  wp m (λ a s', wp (f a) Q s') s → wp (m ≫= f) Q s.
Proof. unfold wp, mbind, M_bind. by destruct (m s) as [[a s']|]. Qed.

Lemma wp_gets {A} (f : S → A) (Q : A → S → Prop) s :
  Q (f s) s → wp (gets f) Q s.
Proof. done. Qed.

Lemma wp_modify (f : S → S) (Q : unit → S → Prop) s :
  Q tt (f s) → wp (modify f) Q s.
Proof. done. Qed.

Lemma wp_lift_opt {A} (f : S → option A) (Q : A → S → Prop) s a :
  f s = Some a → Q a s → wp (lift_opt f) Q s.
Proof. unfold wp, lift_opt. by intros ->. Qed.

Lemma wp_update_opt (f : S → option S) (Q : unit → S → Prop) s s' :
  f s = Some s' → Q tt s' → wp (update_opt f) Q s.
Proof. unfold wp, update_opt. by intros ->. Qed.

Lemma wp_mono {A} (m : M S A) (P Q : A → S → Prop) s :
  wp m P s → (∀ a s', P a s' → Q a s') → wp m Q s.
Proof. unfold wp. destruct (m s) as [[a s']|]; eauto. Qed.

(** A computed result selects the case of a postcondition. *)
Lemma wp_result {A} (m : M S A) (Q : A → S → Prop) s r :
  wp m Q s → fst <$> m s = Some r → ∃ s', Q r s'.
Proof.
  unfold wp. destruct (m s) as [[a s']|]; [|done]. intros HQ [= <-]. by exists s'.
Qed.

(** A program whose result is determined. *)
Lemma wp_value {A} (m : M S A) s r : wp m (λ a _, a = r) s → fst <$> m s = Some r.
Proof. unfold wp. destruct (m s) as [[a s']|]; [|done]. by intros ->. Qed.

(** A program whose result and final state are determined, and its use. *)
Lemma wp_exact {A} (m : M S A) s r t : wp m (λ a s', a = r ∧ s' = t) s → m s = Some (r, t).
Proof. unfold wp. destruct (m s) as [[a s']|]; [|done]. by intros [-> ->]. Qed.
Lemma wp_known {A} (m : M S A) (Q : A → S → Prop) s r t : m s = Some (r, t) → Q r t → wp m Q s.
Proof. unfold wp. by intros ->. Qed.

Lemma wp_run {A} (m : M S A) Q s :
  wp m Q s ↔ ∃ a s', m s = Some (a, s') ∧ Q a s'.
Proof.
  unfold wp. destruct (m s) as [[a s']|]; split; try naive_solver.
Qed.

Lemma wp_loop_pos {A R} p (body : A → M S (A + R)) (I : Z → A → S → Prop)
    (Q : R → S → Prop) :
  (∀ v a s, I v a s → wp (body a) (λ r s',
     match r with inl a' => ∃ v', 0 ≤ v' < v ∧ I v' a' s' | inr x => Q x s' end) s) →
  ∀ v a s, I v a s → wp (loop_pos p body a) (λ r s',
     match r with
     | inl a' => ∃ v', 0 ≤ v' ≤ v - Zpos p ∧ I v' a' s'
     | inr x => Q x s'
     end) s.
Proof.
  intros Hb. induction p as [q IH|q IH|]; intros v a s HI; cbn [loop_pos].
  - pose proof (Hb v a s HI) as H0. unfold wp in H0 |- *.
    destruct (body a s) as [[[a1|r1] s1]|]; try done.
    destruct H0 as (v1 & Hv1 & HI1). pose proof (IH v1 a1 s1 HI1) as H1. unfold wp in H1.
    destruct (loop_pos q body a1 s1) as [[[a2|r2] s2]|]; try done.
    destruct H1 as (v2 & Hv2 & HI2). pose proof (IH v2 a2 s2 HI2) as H2. unfold wp in H2.
    destruct (loop_pos q body a2 s2) as [[[a3|r3] s3]|]; try done.
    destruct H2 as (v3 & Hv3 & HI3). exists v3. split; [lia|done].
  - pose proof (IH v a s HI) as H1. unfold wp in H1 |- *.
    destruct (loop_pos q body a s) as [[[a2|r2] s2]|]; try done.
    destruct H1 as (v2 & Hv2 & HI2). pose proof (IH v2 a2 s2 HI2) as H2. unfold wp in H2.
    destruct (loop_pos q body a2 s2) as [[[a3|r3] s3]|]; try done.
    destruct H2 as (v3 & Hv3 & HI3). exists v3. split; [lia|done].
  - eapply wp_mono; [by apply Hb|]. intros [a'|r] s'; [|done].
    intros (v' & ? & ?). exists v'. split; [lia|done].
Qed.

(** Total correctness of a loop: an invariant indexed by a variant that
    decreases and starts below the bound. *)
Lemma wp_while_idx {A R} fuel (body : A → M S (A + R)) (I : Z → A → S → Prop)
    (Q : R → S → Prop) v a s :
  I v a s → 0 ≤ v < fuel →
  (∀ v a s, I v a s → wp (body a) (λ r s',
     match r with inl a' => ∃ v', 0 ≤ v' < v ∧ I v' a' s' | inr x => Q x s' end) s) →
  wp (while fuel body a) Q s.
Proof.
  intros HI HV Hb. destruct fuel as [|p|p]; [lia| |lia].
  pose proof (wp_loop_pos p body I Q Hb v a s HI) as H. unfold while.
  unfold wp in H |- *. destruct (loop_pos p body a s) as [[[a'|r] s']|]; try done.
  destruct H as (? & ? & ?). lia.
Qed.

(** The same with the variant a function of the loop variables. *)
Lemma wp_while {A R} fuel (body : A → M S (A + R)) (I : A → S → Prop)
    (V : A → S → Z) (Q : R → S → Prop) a s :
  I a s → 0 ≤ V a s < fuel →
  (∀ a s, I a s → wp (body a) (λ r s',
     match r with inl a' => I a' s' ∧ 0 ≤ V a' s' < V a s | inr x => Q x s' end) s) →
  wp (while fuel body a) Q s.
Proof.
  intros HI HV Hb.
  apply (wp_while_idx _ _ (λ v a s, v = V a s ∧ I a s) _ (V a s)); [done..|].
  intros v a1 s1 [-> HI1]. eapply wp_mono; [by apply Hb|].
  intros [a'|r] s'; [|done]. intros [? ?]. eauto.
Qed.

(** Rule for a counted loop: the invariant at each index, the effect of an
    early exit, and the invariant at the end. *)
Lemma wp_for {R} lo hi (body : Z → M S (option R)) (I : Z → S → Prop)
    (Q : option R → S → Prop) s :
  lo ≤ hi → I lo s →
  (∀ i s, lo ≤ i < hi → I i s → wp (body i) (λ r s',
     match r with Some x => Q (Some x) s' | None => I (i + 1) s' end) s) →
  (∀ s, I hi s → Q None s) →
  wp (for_ lo hi body) Q s.
Proof.
  intros Hle HI Hbody Hend. unfold for_.
  apply (wp_while _ _ (λ i s, lo ≤ i ≤ hi ∧ I i s) (λ i _, hi - i)).
  - split; [lia|done].
  - lia.
  - intros i s' [Hi HIi]. destruct (Z.ltb_spec i hi) as [Hlt|Hge].
    + apply wp_bind. eapply wp_mono; [apply Hbody; [lia|done]|].
      intros [x|] s'' H; apply wp_ret; [done|]. split; [split; [lia|done]|lia].
    + apply wp_ret. apply Hend. by replace hi with i by lia.
Qed.

Lemma wpe_ret {A} (a : A) (Q : A → S → Prop) H s : Q a s → wpe (mret a) Q H s.
Proof. done. Qed.

Lemma wpe_bind {A B} (m : ME S A) (f : A → ME S B) Q (H : S → Prop) s :
  wpe m (λ a s', wpe (f a) Q H s') H s → wpe (m ≫= f) Q H s.
Proof. unfold wpe, wp, mbind, ME_bind. by destruct (m s) as [[[a|] s']|]. Qed.

Lemma wpe_halt {A} (Q : A → S → Prop) (H : S → Prop) s : H s → wpe halt Q H s.
Proof. done. Qed.

Lemma wpe_run {A} (m : M S A) Q (H : S → Prop) s : wp m Q s → wpe (run m) Q H s.
Proof. unfold wpe, wp, run. by destruct (m s) as [[a s']|]. Qed.

Lemma wpe_mono {A} (m : ME S A) (P Q : A → S → Prop) (H H' : S → Prop) s :
  wpe m P H s → (∀ a s', P a s' → Q a s') → (∀ s', H s' → H' s') → wpe m Q H' s.
Proof. unfold wpe, wp. destruct (m s) as [[[a|] s']|]; eauto. Qed.

Lemma wpe_for lo hi (body : Z → ME S unit) (I : Z → S → Prop) (Q : unit → S → Prop)
    (H : S → Prop) s :
  lo ≤ hi → I lo s →
  (∀ i s, lo ≤ i < hi → I i s → wpe (body i) (λ _, I (i + 1)) H s) →
  (∀ s, I hi s → Q tt s) →
  wpe (for_e lo hi body) Q H s.
Proof.
  intros Hle HI Hb HQ. unfold wpe, wp, for_e.
  match goal with |- context [for_ lo hi ?b s] =>
    assert (wp (for_ lo hi b) (λ r s', match r with None => I hi s' | Some _ => H s' end) s) as Hw end.
  { apply (wp_for _ _ _ I); [done|done| |done]. intros i s' Hi HIi.
    pose proof (Hb i s' Hi HIi) as Hw. unfold wpe, wp in *.
    by destruct (body i s') as [[[?|] ?]|]. }
  unfold wp in Hw. destruct (for_ lo hi _ s) as [[[?|] s']|]; try done. by apply HQ.
Qed.
End wp_rules.

(** ** Tactics *)

(** One step of symbolic execution of a monadic program. *)
Ltac wp_step :=
  cbv beta;
  lazymatch goal with
  | |- wp (mret _) _ _ => apply wp_ret
  | |- wp (_ ≫= _) _ _ => apply wp_bind
  | |- wp (gets _) _ _ => apply wp_gets
  | |- wp (modify _) _ _ => apply wp_modify
  end; cbv beta.
Ltac wp_steps := repeat wp_step.

(** The same for programs that may halt. *)
Ltac wpe_step :=
  cbv beta;
  lazymatch goal with
  | |- wpe (mret _) _ _ _ => apply wpe_ret
  | |- wpe (_ ≫= _) _ _ _ => apply wpe_bind
  | |- wpe halt _ _ _ => apply wpe_halt
  | |- wpe (run _) _ _ _ => apply wpe_run
  | |- wp _ _ _ => wp_step
  end; cbv beta.
Ltac wpe_steps := repeat wpe_step.

(** Split boolean guards in the goal and turn them into arithmetic facts. *)
Ltac bool_cases :=
  repeat match goal with
  | |- context [Z.ltb ?a ?b] => destruct (Z.ltb_spec a b)
  | |- context [Z.leb ?a ?b] => destruct (Z.leb_spec a b)
  | |- context [Z.eqb ?a ?b] => destruct (Z.eqb_spec a b)
  end.

Ltac b2p :=
  repeat match goal with
  | H : (_ && _)%bool = true |- _ => apply andb_true_iff in H as [? ?]
  | H : (_ && _)%bool = false |- _ => apply andb_false_iff in H
  | H : (_ || _)%bool = true |- _ => apply orb_true_iff in H
  | H : (_ || _)%bool = false |- _ => apply orb_false_iff in H as [? ?]
  | H : negb _ = true |- _ => apply negb_true_iff in H
  | H : negb _ = false |- _ => apply negb_false_iff in H
  | H : Z.ltb _ _ = true |- _ => apply Z.ltb_lt in H
  | H : Z.ltb _ _ = false |- _ => apply Z.ltb_ge in H
  | H : Z.leb _ _ = true |- _ => apply Z.leb_le in H
  | H : Z.leb _ _ = false |- _ => apply Z.leb_gt in H
  | H : Z.eqb _ _ = true |- _ => apply Z.eqb_eq in H
  | H : Z.eqb _ _ = false |- _ => apply Z.eqb_neq in H
  end.

(** ** Arithmetic of machine integers *)

Lemma u64_small x : 0 ≤ x < 2 ^ 64 → u64 x = x.
Proof. apply Z.mod_small. Qed.
Lemma u32_small x : 0 ≤ x < 2 ^ 32 → u32 x = x.
Proof. apply Z.mod_small. Qed.
Lemma u16_small x : 0 ≤ x < 2 ^ 16 → u16 x = x.
Proof. apply Z.mod_small. Qed.
Lemma u8_small x : 0 ≤ x < 2 ^ 8 → u8 x = x.
Proof. apply Z.mod_small. Qed.
Lemma u64_range x : 0 ≤ u64 x < 2 ^ 64.
Proof. by apply Z.mod_pos_bound. Qed.
Lemma u32_range x : 0 ≤ u32 x < 2 ^ 32.
Proof. by apply Z.mod_pos_bound. Qed.
Lemma u8_range x : 0 ≤ u8 x < 2 ^ 8.
Proof. by apply Z.mod_pos_bound. Qed.

Lemma pow2_pos k : 0 ≤ k → 0 < 2 ^ k.
Proof. intros. by apply Z.pow_pos_nonneg. Qed.

Lemma pow2_le j k : 0 ≤ j ≤ k → 2 ^ j ≤ 2 ^ k.
Proof. intros. apply Z.pow_le_mono_r; lia. Qed.

Lemma pow2_S k : 0 ≤ k → 2 ^ (k + 1) = 2 * 2 ^ k.
Proof. intros. rewrite Z.pow_add_r by lia. lia. Qed.

Lemma pow2_divide j k : 0 ≤ j ≤ k → (2 ^ j | 2 ^ k).
Proof. intros. exists (2 ^ (k - j)). rewrite <-Z.pow_add_r by lia. f_equal. lia. Qed.

(** Clearing the low [k] bits with the mask [~(2^k - 1)]. *)
Lemma land_clear_low v k :
  0 ≤ v < 2 ^ 64 → 0 ≤ k < 64 →
  Z.land v (u64 (Z.lnot (2 ^ k - 1))) = v / 2 ^ k * 2 ^ k.
Proof.
  intros Hv Hk.
  rewrite <-Z.shiftr_div_pow2, <-Z.shiftl_mul_pow2, <-Z.ldiff_ones_r by lia.
  replace (2 ^ k - 1) with (Z.ones k) by (rewrite Z.ones_equiv; lia).
  apply Z.bits_inj'. intros i Hi. unfold u64.
  rewrite Z.land_spec, Z.ldiff_spec. destruct (decide (i < 64)).
  - rewrite Z.mod_pow2_bits_low, Z.lnot_spec by lia. done.
  - assert (Z.testbit v i = false) as ->; [|done].
    rewrite <-(Z.mod_small v (2 ^ 64)) by lia. apply Z.mod_pow2_bits_high. lia.
Qed.

(** Or-ing into bits that are clear is addition. *)
Lemma lor_shiftl_add a k b : 0 ≤ k → 0 ≤ b < 2 ^ k → Z.lor (Z.shiftl a k) b = a * 2 ^ k + b.
Proof.
  intros Hk Hb.
  assert (Z.land (Z.shiftl a k) b = 0) as Hz.
  { apply Z.bits_inj'. intros n Hn. rewrite Z.land_spec, Z.bits_0.
    destruct (decide (n < k)); [by rewrite Z.shiftl_spec_low by lia|].
    rewrite <-(Z.mod_small b (2 ^ k)) by lia. rewrite Z.mod_pow2_bits_high by lia.
    apply andb_false_r. }
  rewrite <-Z.lxor_lor, <-Z.add_nocarry_lxor by done. by rewrite Z.shiftl_mul_pow2.
Qed.

Lemma align_down_pow2 v k :
  0 ≤ v < 2 ^ 64 → 0 ≤ k < 64 → align_down v (2 ^ k) = v / 2 ^ k * 2 ^ k.
Proof. intros. by apply land_clear_low. Qed.

Lemma align_up_pow2 v k :
  0 ≤ v → v + 2 ^ k - 1 < 2 ^ 64 → 0 ≤ k < 64 →
  align_up v (2 ^ k) = (v + 2 ^ k - 1) / 2 ^ k * 2 ^ k.
Proof.
  intros. unfold align_up. pose proof (pow2_pos k).
  rewrite u64_small by lia. apply land_clear_low; lia.
Qed.

(** The value of [align_up]: the least multiple of [2^k] that is [>= v]. *)
Lemma align_up_bounds v k :
  0 ≤ v → v + 2 ^ k - 1 < 2 ^ 64 → 0 ≤ k < 64 →
  v ≤ align_up v (2 ^ k) < v + 2 ^ k ∧ (2 ^ k | align_up v (2 ^ k)).
Proof.
  intros. rewrite align_up_pow2 by lia. pose proof (pow2_pos k ltac:(lia)).
  pose proof (Z.div_mod (v + 2 ^ k - 1) (2 ^ k) ltac:(lia)).
  pose proof (Z.mod_pos_bound (v + 2 ^ k - 1) (2 ^ k) ltac:(lia)).
  split; [nia|]. by exists ((v + 2 ^ k - 1) / 2 ^ k).
Qed.

Lemma align_up_least v k w :
  0 ≤ v → v + 2 ^ k - 1 < 2 ^ 64 → 0 ≤ k < 64 → v ≤ w → (2 ^ k | w) →
  align_up v (2 ^ k) ≤ w.
Proof.
  intros ? ? ? ? [q ->]. pose proof (align_up_bounds v k) as [? [r Hr]]; [lia..|].
  pose proof (pow2_pos k ltac:(lia)). rewrite Hr in *.
  apply Z.mul_le_mono_nonneg_r; [lia|]. nia.
Qed.

(** A finite range of integers can be checked by computation. *)
Lemma forall_range (n : Z) (P : Z → bool) :
  forallb P (seqZ 0 n) = true → ∀ i, 0 ≤ i < n → P i = true.
Proof.
  intros H i Hi. rewrite forallb_forall in H. apply H.
  apply list_elem_of_In, elem_of_seqZ. lia.
Qed.

(** ** Lists *)

(** An update by a function of an element that is there. *)
Lemma alter_insert {A} (f : A → A) (l : list A) i x : l !! i = Some x → alter f i l = <[i := f x]> l.
Proof.
  revert i. induction l as [|y l IH]; intros [|i] H; simplify_eq/=; [done..|]. f_equal. by apply IH.
Qed.

Lemma NoDup_range_length (l : list Z) (T : Z) :
  NoDup l → (∀ x, x ∈ l → 0 ≤ x < T) → Z.of_nat (length l) ≤ Z.max 0 T.
Proof.
  intros Hnd Hin.
  assert (l ⊆+ seqZ 0 T) as Hs%submseteq_length.
  { apply NoDup_submseteq; [done|]. intros x Hx%Hin. apply elem_of_seqZ. lia. }
  rewrite length_seqZ in Hs. lia.
Qed.

Lemma last_snoc_default {A} (d : A) l x : default d (last (l ++ [x])) = x.
Proof. by rewrite last_snoc. Qed.

(** Exclusive or with an aligned power of two moves to the buddy. *)
Lemma lxor_1_nonneg q :
  0 ≤ q → Z.lxor q 1 = if Z.even q then q + 1 else q - 1.
Proof. intros. destruct q as [|[p|p|]|p]; try reflexivity; lia. Qed.

Lemma lxor_buddy x o :
  0 ≤ o → 0 ≤ x → (2 ^ o | x) →
  Z.lxor x (2 ^ o) = if Z.even (x / 2 ^ o) then x + 2 ^ o else x - 2 ^ o.
Proof.
  intros Ho Hx [q ->]. pose proof (pow2_pos o Ho).
  assert (0 ≤ q) by nia. rewrite Z.div_mul by lia.
  rewrite <-Z.shiftl_mul_pow2 by lia.
  replace (Z.lxor (Z.shiftl q o) (2 ^ o))
    with (Z.lxor (Z.shiftl q o) (Z.shiftl 1 o)) by (by rewrite Z.shiftl_1_l).
  rewrite <-Z.shiftl_lxor, lxor_1_nonneg by done.
  rewrite !Z.shiftl_mul_pow2 by lia. destruct (Z.even q); lia.
Qed.

Lemma divide_even_S x o :
  0 ≤ o → (2 ^ o | x) → Z.even (x / 2 ^ o) = true → (2 ^ (o + 1) | x).
Proof.
  intros Ho [q ->]. pose proof (pow2_pos o Ho). rewrite Z.div_mul by lia.
  intros He. apply Z.even_spec in He as [r ->]. exists r. rewrite pow2_S by lia. lia.
Qed.

Lemma divide_odd_S x o :
  0 ≤ o → (2 ^ o | x) → Z.even (x / 2 ^ o) = false → (2 ^ (o + 1) | x - 2 ^ o).
Proof.
  intros Ho [q ->]. pose proof (pow2_pos o Ho). rewrite Z.div_mul by lia.
  intros He. rewrite <-Z.negb_odd in He. apply negb_false_iff in He.
  apply Z.odd_spec in He as [r ->]. exists r. rewrite pow2_S by lia. lia.
Qed.

(** Rounding to pages. *)
Lemma align_up_page v :
  0 ≤ v → v + PAGE_SIZE ≤ 2 ^ 64 →
  v ≤ align_up v PAGE_SIZE < v + PAGE_SIZE ∧ (PAGE_SIZE | align_up v PAGE_SIZE).
Proof. change PAGE_SIZE with (2 ^ 12). intros. apply align_up_bounds; lia. Qed.

Lemma align_down_page v :
  0 ≤ v < 2 ^ 64 →
  v - PAGE_SIZE < align_down v PAGE_SIZE ≤ v ∧ (PAGE_SIZE | align_down v PAGE_SIZE).
Proof.
  change PAGE_SIZE with (2 ^ 12). intros. rewrite align_down_pow2 by lia.
  pose proof (Z.div_mod v (2 ^ 12) ltac:(lia)).
  pose proof (Z.mod_pos_bound v (2 ^ 12) ltac:(lia)).
  split; [lia|]. by apply Z.divide_factor_r.
Qed.

(** An array of [n] cells, all holding [v]. *)
Lemma lookup_const_map (n v i : Z) :
  (list_to_map ((λ i, (i, v)) <$> seqZ 0 n) : gmap Z Z) !! i =
  if decide (0 ≤ i < n) then Some v else None.
Proof.
  case_decide as Hi.
  - apply elem_of_list_to_map_1.
    + rewrite <-list_fmap_compose.
      change (fst ∘ (λ i, (i, v))) with (λ i : Z, i). rewrite list_fmap_id.
      apply NoDup_seqZ.
    + apply list_elem_of_fmap. exists i. split; [done|]. apply elem_of_seqZ. lia.
  - apply not_elem_of_list_to_map_1. rewrite <-list_fmap_compose.
    change (fst ∘ (λ i, (i, v))) with (λ i : Z, i). rewrite list_fmap_id.
    rewrite elem_of_seqZ. lia.
Qed.
