(* ===== verification/Pmm.v ===== *)
(** * Physical memory manager: data and operations

    Translation of [src/src/kernel/mm/pmm.c], a buddy allocator over 4 KiB
    page frames.  The three metadata arrays are maps from an index to its
    content; reading or writing an index outside the array is undefined
    behaviour ([None] of the monad [M]).  Each operation holds [g_pmm_lock]
    for its whole body, so it is one atomic transformation of the state;
    the console output of [pmm_init] is not modelled. *)

From S2P Require Import Prelude.

Definition EFI_CONVENTIONAL_MEMORY : Z := 7.
Definition EARLY_PHYS_LIMIT : Z := 0x100000000.
Definition EARLY_POOL_MIN : Z := 0x00200000.
Definition EARLY_POOL_SIZE : Z := 16 * 1024 * 1024.
Definition SMP_TRAMPOLINE_PHYS : Z := 0x00008000.

Definition PMM_META_ORDER_MASK : Z := 0x3F.
Definition PMM_META_KIND_MASK : Z := 0xC0.
Definition PMM_META_FREE_BASE : Z := 0x00.
Definition PMM_META_USED_BASE : Z := 0x40.
Definition PMM_META_RESERVED_BASE : Z := 0x80.
Definition PMM_META_TAIL : Z := 0xFF.
Definition PMM_INVALID_PAGE : Z := UINT64_MAX.

Record phys_range := PhysRange { pr_start : Z; pr_end : Z }.

#[global] Instance phys_range_eq_dec : EqDecision phys_range.
Proof. solve_decision. Defined.
#[global] Instance phys_range_inhabited : Inhabited phys_range :=
  populate (PhysRange 0 0).

(** The static variables of the file.  [pmm_page_meta], [pmm_free_next] and
    [pmm_free_heads] are the contents of the arrays; the [_ptr] fields are
    the addresses [bind_metadata] gives them. *)
Record pmm := Pmm {
  pmm_page_meta : gmap Z Z;
  pmm_free_next : gmap Z Z;
  pmm_free_heads : gmap Z Z;
  pmm_page_meta_ptr : Z;
  pmm_free_next_ptr : Z;
  pmm_free_heads_ptr : Z;
  pmm_metadata_bytes : Z;
  pmm_metadata_phys : Z;
  pmm_total_pages : Z;
  pmm_used_pages : Z;
  early_alloc_limit : Z;
  early_pool_start : Z;
  early_pool_end : Z;
  early_pool_next : Z;
  pmm_max_order : Z
}.

Definition set_meta_arr (m : gmap Z Z) (s : pmm) : pmm :=
  Pmm m (pmm_free_next s) (pmm_free_heads s) (pmm_page_meta_ptr s)
    (pmm_free_next_ptr s) (pmm_free_heads_ptr s) (pmm_metadata_bytes s)
    (pmm_metadata_phys s) (pmm_total_pages s) (pmm_used_pages s)
    (early_alloc_limit s) (early_pool_start s) (early_pool_end s)
    (early_pool_next s) (pmm_max_order s).
Definition set_next_arr (m : gmap Z Z) (s : pmm) : pmm :=
  Pmm (pmm_page_meta s) m (pmm_free_heads s) (pmm_page_meta_ptr s)
    (pmm_free_next_ptr s) (pmm_free_heads_ptr s) (pmm_metadata_bytes s)
    (pmm_metadata_phys s) (pmm_total_pages s) (pmm_used_pages s)
    (early_alloc_limit s) (early_pool_start s) (early_pool_end s)
    (early_pool_next s) (pmm_max_order s).
Definition set_heads_arr (m : gmap Z Z) (s : pmm) : pmm :=
  Pmm (pmm_page_meta s) (pmm_free_next s) m (pmm_page_meta_ptr s)
    (pmm_free_next_ptr s) (pmm_free_heads_ptr s) (pmm_metadata_bytes s)
    (pmm_metadata_phys s) (pmm_total_pages s) (pmm_used_pages s)
    (early_alloc_limit s) (early_pool_start s) (early_pool_end s)
    (early_pool_next s) (pmm_max_order s).
Definition set_used (u : Z) (s : pmm) : pmm :=
  Pmm (pmm_page_meta s) (pmm_free_next s) (pmm_free_heads s)
    (pmm_page_meta_ptr s) (pmm_free_next_ptr s) (pmm_free_heads_ptr s)
    (pmm_metadata_bytes s) (pmm_metadata_phys s) (pmm_total_pages s) u
    (early_alloc_limit s) (early_pool_start s) (early_pool_end s)
    (early_pool_next s) (pmm_max_order s).
Definition set_ptrs (p n h : Z) (s : pmm) : pmm :=
  Pmm (pmm_page_meta s) (pmm_free_next s) (pmm_free_heads s) p n h
    (pmm_metadata_bytes s) (pmm_metadata_phys s) (pmm_total_pages s)
    (pmm_used_pages s) (early_alloc_limit s) (early_pool_start s)
    (early_pool_end s) (early_pool_next s) (pmm_max_order s).
Definition set_pool (st en nx : Z) (s : pmm) : pmm :=
  Pmm (pmm_page_meta s) (pmm_free_next s) (pmm_free_heads s)
    (pmm_page_meta_ptr s) (pmm_free_next_ptr s) (pmm_free_heads_ptr s)
    (pmm_metadata_bytes s) (pmm_metadata_phys s) (pmm_total_pages s)
    (pmm_used_pages s) (early_alloc_limit s) st en nx (pmm_max_order s).

(** ** Array accesses *)

Definition wr_arr (get : pmm → gmap Z Z) (set : gmap Z Z → pmm → pmm)
    (i v : Z) : M pmm unit :=
  update_opt (λ s, match get s !! i with
                   | Some _ => Some (set (<[i := v]> (get s)) s)
                   | None => None
                   end).

Definition rd_meta (i : Z) : M pmm Z := lift_opt (λ s, pmm_page_meta s !! i).
Definition rd_next (i : Z) : M pmm Z := lift_opt (λ s, pmm_free_next s !! i).
Definition rd_head (o : Z) : M pmm Z := lift_opt (λ s, pmm_free_heads s !! o).
Definition wr_meta : Z → Z → M pmm unit := wr_arr pmm_page_meta set_meta_arr.
Definition wr_next : Z → Z → M pmm unit := wr_arr pmm_free_next set_next_arr.
Definition wr_head : Z → Z → M pmm unit := wr_arr pmm_free_heads set_heads_arr.

(** ** Metadata bytes and orders *)

Definition clamp_early_alloc_limit (limit : Z) : Z :=
  let limit := if (limit =? 0) || (EARLY_PHYS_LIMIT <? limit)
               then EARLY_PHYS_LIMIT else limit in
  align_down limit PAGE_SIZE.

Definition meta_make_free (order : Z) : Z := u8 (Z.lor PMM_META_FREE_BASE order).
Definition meta_make_used (order : Z) : Z := u8 (Z.lor PMM_META_USED_BASE order).
Definition meta_make_reserved (order : Z) : Z :=
  u8 (Z.lor PMM_META_RESERVED_BASE order).

Definition meta_is_tail (meta : Z) : bool := meta =? PMM_META_TAIL.
Definition meta_is_free (meta : Z) : bool :=
  negb (meta =? PMM_META_TAIL) &&
  (Z.land meta PMM_META_KIND_MASK =? PMM_META_FREE_BASE).
Definition meta_is_used (meta : Z) : bool :=
  negb (meta =? PMM_META_TAIL) &&
  (Z.land meta PMM_META_KIND_MASK =? PMM_META_USED_BASE).
Definition meta_order (meta : Z) : Z := u8 (Z.land meta PMM_META_ORDER_MASK).

Definition order_pages (order : Z) : Z := u64 (Z.shiftl 1 order).

(** [while (order < 63)]: at most 63 iterations. *)
Fixpoint compute_max_order_loop (fuel : nat) (order pages : Z) : Z :=
  match fuel with
  | O => order
  | S f =>
      if order <? 63 then
        let next_pages := u64 (Z.shiftl 1 (order + 1)) in
        if (next_pages =? 0) || (pages <? next_pages) then order
        else compute_max_order_loop f (u8 (order + 1)) pages
      else order
  end.
Definition compute_max_order (pages : Z) : Z := compute_max_order_loop 63 0 pages.

(** [while (pages < count && order < pmm_max_order)]: at most
    [pmm_max_order] iterations. *)
Fixpoint order_for_pages_loop (fuel : nat) (max_order order pages count : Z)
    : Z * Z :=
  match fuel with
  | O => (order, pages)
  | S f =>
      if (pages <? count) && (order <? max_order) then
        order_for_pages_loop f max_order (u8 (order + 1)) (u64 (Z.shiftl pages 1)) count
      else (order, pages)
  end.
Definition order_for_pages (max_order count : Z) : Z :=
  let '(order, pages) :=
    order_for_pages_loop (Z.to_nat max_order) max_order 0 1 count in
  if pages <? count then 0xFF else order.

Definition metadata_size_bytes (pages max_order : Z) : Z :=
  let size := u64 (0 + pages * 1) in
  let size := align_up size 8 in
  let size := u64 (size + u64 (pages * 8)) in
  let size := align_up size 8 in
  let size := u64 (size + u64 ((max_order + 1) * 8)) in
  align_up size PAGE_SIZE.

Definition bind_metadata (base : Z) : M pmm unit :=
  modify (λ s,
    let off := 0 in
    let meta := u64 (base + off) in
    let off := u64 (off + u64 (pmm_total_pages s * 1)) in
    let off := align_up off 8 in
    let next := u64 (base + off) in
    let off := u64 (off + u64 (pmm_total_pages s * 8)) in
    let off := align_up off 8 in
    let heads := u64 (base + off) in
    set_ptrs meta next heads s).

Definition is_usable_type (type : Z) : bool := type =? EFI_CONVENTIONAL_MEMORY.

(** ** Physical ranges *)

(** The inner and outer loop of the exchange sort, in place. *)
Definition sort_swap (i : nat) (ranges : list phys_range) (j : nat)
    : list phys_range :=
  let ri := ranges !!! i in
  let rj := ranges !!! j in
  if pr_start rj <? pr_start ri then <[j := ri]> (<[i := rj]> ranges) else ranges.
Definition sort_pass (count : nat) (ranges : list phys_range) (i : nat)
    : list phys_range :=
  foldl (sort_swap i) ranges (seq (i + 1) (count - (i + 1))).
Definition sort_ranges (ranges : list phys_range) (count : nat) : list phys_range :=
  foldl (sort_pass count) ranges (seq 0 count).

(** One iteration of the compaction loop of [normalize_ranges]. *)
Definition normalize_step (st : list phys_range * nat) (i : nat)
    : list phys_range * nat :=
  let '(ranges, out) := st in
  let ri := ranges !!! i in
  if pr_end ri <=? pr_start ri then (ranges, out)
  else if (out =? 0)%nat || (pr_end (ranges !!! (out - 1)%nat) <? pr_start ri)
  then (<[out := ri]> ranges, S out)
  else
    let last := ranges !!! (out - 1)%nat in
    if pr_end last <? pr_end ri
    then (<[(out - 1)%nat := PhysRange (pr_start last) (pr_end ri)]> ranges, out)
    else (ranges, out).
Definition normalize_ranges (ranges : list phys_range) (count : nat)
    : list phys_range * nat :=
  foldl normalize_step (sort_ranges ranges count, O) (seq 0 count).

(** The guard loop of [find_region_base]; [None] is [return 0]. *)
Fixpoint find_region_loop (guards : list phys_range) (cursor end_ size : Z)
    : option Z :=
  match guards with
  | [] => if u64 (cursor + size) <=? end_ then Some cursor else None
  | g :: gs =>
      if pr_end g <=? cursor then find_region_loop gs cursor end_ size
      else if end_ <=? pr_start g
      then (if u64 (cursor + size) <=? end_ then Some cursor else None)
      else if u64 (cursor + size) <=? pr_start g then Some cursor
      else if cursor <? pr_end g then
        let cursor := align_up (pr_end g) PAGE_SIZE in
        if (end_ <=? cursor) || (u64 (end_ - cursor) <? size) then None
        else find_region_loop gs cursor end_ size
      else find_region_loop gs cursor end_ size
  end.
Definition find_region_base (start end_ : Z) (guards : list phys_range) (size : Z)
    : option Z :=
  if size =? 0 then None
  else
    let cursor := align_up start PAGE_SIZE in
    let end_ := align_down end_ PAGE_SIZE in
    if (end_ <=? cursor) || (u64 (end_ - cursor) <? size) then None
    else find_region_loop guards cursor end_ size.

(** ** Free lists *)

Definition set_block_meta (start_page order head_meta : Z) : M pmm unit :=
  wr_meta start_page head_meta;;
  for_ (R := unit) 1 (order_pages order)
    (λ i, wr_meta (u64 (start_page + i)) PMM_META_TAIL;; mret None);;
  mret tt.

Definition insert_free_block (start_page order : Z) : M pmm unit :=
  set_block_meta start_page order (meta_make_free order);;
  h ← rd_head order;
  wr_next start_page h;;
  wr_head order start_page.

(** Unlink [cur], whose predecessor in the list of [order] is [prev]. *)
Definition unlink_block (order prev cur next : Z) : M pmm unit :=
  (if prev =? PMM_INVALID_PAGE then wr_head order next else wr_next prev next);;
  wr_next cur PMM_INVALID_PAGE.

(** A free list has no more than [pmm_total_pages] elements. *)
Definition remove_free_block (start_page order : Z) : M pmm bool :=
  h ← rd_head order;
  total ← gets pmm_total_pages;
  while (total + 1)
    (λ '(prev, cur),
      if cur =? PMM_INVALID_PAGE then mret (inr false)
      else if cur =? start_page then
        next ← rd_next cur;
        unlink_block order prev cur next;;
        mret (inr true)
      else
        next ← rd_next cur;
        mret (inl (cur, next)))
    (PMM_INVALID_PAGE, h).

(** The coalescing loop merges at most [pmm_max_order] times. *)
Definition free_block (start_page order : Z) : M pmm unit :=
  modify (λ s, set_used (u64 (pmm_used_pages s - order_pages order)) s);;
  max_order ← gets pmm_max_order;
  total ← gets pmm_total_pages;
  r ← while (max_order + 2)
    (λ '(start_page, order),
      if order <? max_order then
        let buddy := Z.lxor start_page (order_pages order) in
        if total <=? buddy then mret (inr (start_page, order))
        else
          buddy_meta ← rd_meta buddy;
          if negb (meta_is_free buddy_meta) || negb (meta_order buddy_meta =? order)
          then mret (inr (start_page, order))
          else
            removed ← remove_free_block buddy order;
            if negb removed then mret (inr (start_page, order))
            else
              let start_page := if buddy <? start_page then buddy else start_page in
              mret (inl (start_page, u8 (order + 1)))
      else mret (inr (start_page, order)))
    (start_page, order);
  insert_free_block r.1 r.2.

Definition release_block (start_page order : Z) : M pmm unit :=
  set_block_meta start_page order (meta_make_used order);;
  free_block start_page order.

(** [while (order > 0)] of [release_range_pages]; [order] only decreases. *)
Fixpoint release_order (fuel : nat) (order start_page end_page : Z) : Z :=
  match fuel with
  | O => order
  | S f =>
      if 0 <? order then
        let pages := order_pages order in
        if (Z.land start_page (u64 (pages - 1)) =? 0) &&
           (u64 (start_page + pages) <=? end_page)
        then order
        else release_order f (u8 (order - 1)) start_page end_page
      else order
  end.

Definition release_range_pages (start_page end_page : Z) : M pmm unit :=
  max_order ← gets pmm_max_order;
  while (Z.max 0 (end_page - start_page) + 1)
    (λ start_page,
      if start_page <? end_page then
        let order := release_order (Z.to_nat max_order) max_order start_page end_page in
        release_block start_page order;;
        mret (inl (u64 (start_page + order_pages order)))
      else mret (inr tt))
    start_page.

Fixpoint release_guards (guards : list phys_range) (cursor end_ : Z) (freed_any : bool)
    : M pmm (Z * bool) :=
  match guards with
  | [] => mret (cursor, freed_any)
  | g :: gs =>
      if negb (cursor <? end_) then mret (cursor, freed_any)
      else if pr_end g <=? cursor then release_guards gs cursor end_ freed_any
      else if end_ <=? pr_start g then mret (cursor, freed_any)
      else
        freed ← (if cursor <? pr_start g then
                   release_range_pages (cursor / PAGE_SIZE) (pr_start g / PAGE_SIZE);;
                   mret true
                 else mret freed_any);
        let cursor := if cursor <? pr_end g then pr_end g else cursor in
        release_guards gs cursor end_ freed
  end.

Definition release_descriptor_usable (start end_ : Z) (guards : list phys_range)
    (freed_any : bool) : M pmm bool :=
  let cursor := align_up start PAGE_SIZE in
  let end_ := align_down end_ PAGE_SIZE in
  if end_ <=? cursor then mret freed_any
  else
    r ← release_guards guards cursor end_ freed_any;
    if r.1 <? end_ then
      release_range_pages (r.1 / PAGE_SIZE) (end_ / PAGE_SIZE);;
      mret true
    else mret r.2.

(** ** Allocation *)

Definition block_can_satisfy
    (start_page block_order target_order min_page max_page : Z) : bool :=
  let block_pages := order_pages block_order in
  let target_pages := order_pages target_order in
  let block_end := u64 (start_page + block_pages) in
  let range_start := if start_page <? min_page then min_page else start_page in
  let range_end := if max_page <? block_end then max_page else block_end in
  if (range_end <=? range_start) || (u64 (range_end - range_start) <? target_pages)
  then false
  else
    let candidate := align_up range_start target_pages in
    u64 (candidate + target_pages) <=? range_end.

(** [while (split_order > target_order)]; [inr (Some 0)] is the [return 0]
    that puts the block back. *)
Definition split_loop (order target_order min_page max_page cur : Z)
    : M pmm (option Z) :=
  while (order - target_order + 1)
    (λ '(block, split_order),
      if target_order <? split_order then
        let split_order := u8 (split_order - 1) in
        let half_pages := order_pages split_order in
        let left := block in
        let right := u64 (block + half_pages) in
        let left_ok := block_can_satisfy left split_order target_order min_page max_page in
        let right_ok := block_can_satisfy right split_order target_order min_page max_page in
        if negb left_ok && negb right_ok then
          insert_free_block block order;;
          mret (inr None)
        else if left_ok then
          set_block_meta left split_order (meta_make_free split_order);;
          insert_free_block right split_order;;
          mret (inl (left, split_order))
        else
          set_block_meta right split_order (meta_make_free split_order);;
          insert_free_block left split_order;;
          mret (inl (right, split_order))
      else mret (inr (Some block)))
    (cur, order).

(** Body for a block that satisfies the request: unlink, split, mark used. *)
Definition take_block (order target_order min_page max_page prev cur next : Z)
    : M pmm Z :=
  unlink_block order prev cur next;;
  r ← split_loop order target_order min_page max_page cur;
  match r with
  | None => mret 0
  | Some block =>
      set_block_meta block target_order (meta_make_used target_order);;
      modify (λ s, set_used (u64 (pmm_used_pages s + order_pages target_order)) s);;
      mret (u64 (block * PAGE_SIZE))
  end.

(** The walk of one free list; [Some phys] is a [return]. *)
Definition scan_order (target_order min_page max_page order : Z)
    : M pmm (option Z) :=
  h ← rd_head order;
  total ← gets pmm_total_pages;
  while (total + 1)
    (λ '(prev, cur),
      if cur =? PMM_INVALID_PAGE then mret (inr None)
      else
        next ← rd_next cur;
        if negb (block_can_satisfy cur order target_order min_page max_page)
        then mret (inl (cur, next))
        else
          phys ← take_block order target_order min_page max_page prev cur next;
          mret (inr (Some phys)))
    (PMM_INVALID_PAGE, h).

Definition alloc_pages_range_locked (count min_phys max_phys : Z) : M pmm Z :=
  total ← gets pmm_total_pages;
  max_order ← gets pmm_max_order;
  if (count =? 0) || (total =? 0) then mret 0
  else
    let min_page := align_up min_phys PAGE_SIZE / PAGE_SIZE in
    let max_page := max_phys / PAGE_SIZE in
    let min_page := if min_page <? 1 then 1 else min_page in
    let max_page := if total <? max_page then total else max_page in
    if max_page <=? min_page then mret 0
    else
      let target_order := order_for_pages max_order count in
      if target_order =? 0xFF then mret 0
      else
        r ← for_ target_order (max_order + 1)
              (scan_order target_order min_page max_page);
        mret (match r with Some phys => phys | None => 0 end).

(** The pool sizes 16 MiB, 8 MiB, ..., one page: 13 attempts. *)
Definition reserve_early_pool : M pmm unit :=
  modify (set_pool 0 0 0);;
  limit ← gets early_alloc_limit;
  let pool_limit := clamp_early_alloc_limit limit in
  if pool_limit <=? EARLY_POOL_MIN then mret tt
  else
    while 13
      (λ pool_size,
        let pool_pages := pool_size / PAGE_SIZE in
        phys ← alloc_pages_range_locked pool_pages EARLY_POOL_MIN pool_limit;
        if negb (phys =? 0) then
          modify (set_pool phys (u64 (phys + pool_size)) phys);;
          mret (inr tt)
        else if pool_size =? PAGE_SIZE then mret (inr tt)
        else mret (inl (Z.shiftr pool_size 1)))
      EARLY_POOL_SIZE.

Definition count_free_pages_below (max_phys : Z) : M pmm Z :=
  total ← gets pmm_total_pages;
  let max_page := max_phys / PAGE_SIZE in
  let max_page := if total <? max_page then total else max_page in
  while (Z.max 0 max_page + 1)
    (λ '(page, free_pages),
      if page <? max_page then
        meta ← rd_meta page;
        if meta_is_tail meta then mret (inl (u64 (page + 1), free_pages))
        else
          let block_pages := order_pages (meta_order meta) in
          let visible_pages :=
            if max_page <? u64 (page + block_pages) then u64 (max_page - page)
            else block_pages in
          let free_pages :=
            if meta_is_free meta then u64 (free_pages + visible_pages) else free_pages in
          mret (inl (u64 (page + block_pages), free_pages))
      else mret (inr free_pages))
    (0, 0).

(** ** Initialisation *)

Record efi_memory_descriptor := EfiDesc {
  d_Type : Z; d_PhysicalStart : Z; d_NumberOfPages : Z
}.

(** The fields of [struct fry_handoff] read here; [hf_desc off] is the
    descriptor stored at [mmap_base + off]. *)
Record fry_handoff := Handoff {
  hf_mmap_base : Z;
  hf_mmap_size : Z;
  hf_mmap_desc_size : Z;
  hf_boot_identity_limit : Z;
  hf_desc : Z → efi_memory_descriptor
}.

(** The addresses of the linker symbols [__kernel_lma_start], ... *)
Record linker_syms := LinkerSyms {
  kernel_lma_start : Z; kernel_lma_end : Z; boot_lma_start : Z; boot_lma_end : Z
}.

(** The descriptors visited by
    [for (off = 0; off < mmap_size; off += mmap_desc_size)]. *)
Definition handoff_descs (h : fry_handoff) : list efi_memory_descriptor :=
  (λ k, hf_desc h (k * hf_mmap_desc_size h)) <$>
    seqZ 0 ((hf_mmap_size h + hf_mmap_desc_size h - 1) / hf_mmap_desc_size h).

Definition desc_end (d : efi_memory_descriptor) : Z :=
  u64 (d_PhysicalStart d + u64 (d_NumberOfPages d * PAGE_SIZE)).

(** First loop of [pmm_init]: the highest usable physical address. *)
Definition init_max_phys (descs : list efi_memory_descriptor) : Z :=
  foldl (λ max_phys d,
    if negb (is_usable_type (d_Type d)) then max_phys
    else if (d_NumberOfPages d =? 0) || (UINT64_MAX / PAGE_SIZE <? d_NumberOfPages d)
    then max_phys
    else if max_phys <? desc_end d then desc_end d else max_phys) 0 descs.

(** Second loop: the placement of the metadata; [(best_base, best_size)]. *)
Definition init_best_step (guards : list phys_range) (bytes : Z)
    (best : Z * Z) (d : efi_memory_descriptor) : Z * Z :=
  if negb (is_usable_type (d_Type d)) then best
  else
    let start := d_PhysicalStart d in
    let end_ := desc_end d in
    if EARLY_PHYS_LIMIT <=? start then best
    else
      let end_ := if EARLY_PHYS_LIMIT <? end_ then EARLY_PHYS_LIMIT else end_ in
      if end_ <=? start then best
      else
        match find_region_base start end_ guards bytes with
        | None => best
        | Some candidate =>
            let size := u64 (end_ - start) in
            if best.2 <? size then (candidate, size) else best
        end.

Definition fixed_guards (l : linker_syms) : list phys_range :=
  [PhysRange 0 PAGE_SIZE;
   PhysRange SMP_TRAMPOLINE_PHYS (SMP_TRAMPOLINE_PHYS + PAGE_SIZE);
   PhysRange (align_down (boot_lma_start l) PAGE_SIZE) (align_up (boot_lma_end l) PAGE_SIZE);
   PhysRange (align_down (kernel_lma_start l) PAGE_SIZE) (align_up (kernel_lma_end l) PAGE_SIZE)].

Definition normalized (ranges : list phys_range) : list phys_range :=
  let '(rs, out) := normalize_ranges ranges (length ranges) in take out rs.

(** The loops that set every page reserved and every free list empty. *)
Definition init_arrays (total max_order : Z) (s : pmm) : pmm :=
  set_used total
    (set_heads_arr (list_to_map ((λ o, (o, PMM_INVALID_PAGE)) <$> seqZ 0 (max_order + 1)))
      (set_next_arr (list_to_map ((λ i, (i, PMM_INVALID_PAGE)) <$> seqZ 0 total))
        (set_meta_arr (list_to_map ((λ i, (i, meta_make_reserved 0)) <$> seqZ 0 total)) s))).

(** Third loop: release the usable memory outside the guards. *)
Fixpoint init_release (guards : list phys_range) (descs : list efi_memory_descriptor)
    (freed_any : bool) : M pmm bool :=
  match descs with
  | [] => mret freed_any
  | d :: ds =>
      if negb (is_usable_type (d_Type d)) || (d_NumberOfPages d =? 0)
      then init_release guards ds freed_any
      else
        freed ← release_descriptor_usable (d_PhysicalStart d) (desc_end d) guards freed_any;
        init_release guards ds freed
  end.

Definition pmm_zero : pmm :=
  Pmm ∅ ∅ ∅ 0 0 0 0 0 0 0 EARLY_PHYS_LIMIT 0 0 0 0.

Definition init_sized (limit total : Z) : pmm :=
  let max_order := compute_max_order total in
  Pmm ∅ ∅ ∅ 0 0 0 (metadata_size_bytes total max_order) 0 total 0 limit 0 0 0 max_order.

(** [best_base] at the end of the second loop. *)
Definition init_base (l : linker_syms) (bytes : Z) (descs : list efi_memory_descriptor) : Z :=
  (foldl (init_best_step (normalized (fixed_guards l)) bytes) (0, 0) descs).1.

(** The rest of [pmm_init] once the metadata has a place. *)
Definition init_place (l : linker_syms) (descs : list efi_memory_descriptor)
    (limit total bytes max_order base : Z) : M pmm (option bool) :=
  modify (λ s, Pmm ∅ ∅ ∅ 0 0 0 bytes base total 0 limit 0 0 0 max_order);;
  bind_metadata base;;
  modify (init_arrays total max_order);;
  let guards := normalized (fixed_guards l ++ [PhysRange base (u64 (base + bytes))]) in
  freed_any ← init_release guards descs false;
  reserve_early_pool;;
  count_free_pages_below 0x100000000;;
  mret (Some freed_any).

(** The result is [freed_any], or [None] when an early [return] was taken. *)
Definition pmm_init (handoff : option fry_handoff) (l : linker_syms)
    : M pmm (option bool) :=
  modify (λ _, pmm_zero);;
  match handoff with
  | None => mret None
  | Some h =>
      if (hf_mmap_base h =? 0) || (hf_mmap_size h =? 0) || (hf_mmap_desc_size h =? 0)
      then mret None
      else
        let limit :=
          if negb (hf_boot_identity_limit h =? 0)
          then clamp_early_alloc_limit (hf_boot_identity_limit h)
          else EARLY_PHYS_LIMIT in
        let descs := handoff_descs h in
        let total := u64 (init_max_phys descs + PAGE_SIZE - 1) / PAGE_SIZE in
        if total =? 0 then
          modify (λ _, Pmm ∅ ∅ ∅ 0 0 0 0 0 0 0 limit 0 0 0 0);;
          mret None
        else
          modify (λ _, init_sized limit total);;
          bytes ← gets pmm_metadata_bytes;
          max_order ← gets pmm_max_order;
          let base := init_base l bytes descs in
          if base =? 0 then mret None
          else init_place l descs limit total bytes max_order base
  end.

Definition pmm_relocate_bitmap (phys_to_virt : Z → Z) : M pmm unit :=
  phys ← gets pmm_metadata_phys;
  if phys =? 0 then mret tt else bind_metadata (phys_to_virt phys).

(** ** Entry points *)

Definition pmm_alloc_page : M pmm Z :=
  alloc_pages_range_locked 1 PAGE_SIZE UINT64_MAX.

Definition pmm_alloc_early_low : M pmm Z :=
  start ← gets early_pool_start;
  next ← gets early_pool_next;
  end_ ← gets early_pool_end;
  if negb (start =? 0) && (next <? end_) then
    modify (set_pool start end_ (u64 (next + PAGE_SIZE)));;
    mret next
  else
    limit ← gets early_alloc_limit;
    let pool_limit := clamp_early_alloc_limit limit in
    if pool_limit <=? EARLY_POOL_MIN then mret 0
    else alloc_pages_range_locked 1 EARLY_POOL_MIN pool_limit.

Definition pmm_alloc_page_below (max_phys : Z) : M pmm Z :=
  alloc_pages_range_locked 1 PAGE_SIZE max_phys.

Definition pmm_alloc_pages (count : Z) : M pmm Z :=
  if count =? 0 then mret 0
  else alloc_pages_range_locked count PAGE_SIZE UINT64_MAX.

Definition pmm_alloc_pages_range (count min_phys max_phys : Z) : M pmm Z :=
  if (count =? 0) || (max_phys <=? min_phys) then mret 0
  else alloc_pages_range_locked count min_phys max_phys.

Definition pmm_alloc_pages_below (count max_phys : Z) : M pmm Z :=
  if count =? 0 then mret 0
  else alloc_pages_range_locked count PAGE_SIZE max_phys.

Definition pmm_free_pages (phys count : Z) : M pmm unit :=
  if phys =? 0 then mret tt
  else
    total ← gets pmm_total_pages;
    let start_page := phys / PAGE_SIZE in
    if total <=? start_page then mret tt
    else
      meta ← rd_meta start_page;
      if negb (meta_is_used meta) then mret tt
      else free_block start_page (meta_order meta).

Definition pmm_free_page (phys : Z) : M pmm unit := pmm_free_pages phys 1.

Definition pmm_get_total_pages : M pmm Z := gets pmm_total_pages.
Definition pmm_get_used_pages : M pmm Z := gets pmm_used_pages.
