(* ===== verification/PmmInv.v ===== *)
(** * Physical memory manager: invariant and elementary operations

    The buddy-allocator invariant with a {i hole}: a range of pages that an
    operation in progress has taken out of the structure.  An operation opens
    a hole (unlinks a free block, or starts to free a used one), works inside
    it, and closes it; each elementary operation has one lemma saying how it
    changes the hole. *)

From S2P Require Import Prelude Pmm.

(** ** Values of the metadata byte *)

Definition META_RESERVED : Z := meta_make_reserved 0.

Lemma order_pages_pow2 o : 0 ≤ o < 64 → order_pages o = 2 ^ o.
Proof.
  intros. unfold order_pages. rewrite Z.shiftl_1_l. apply u64_small.
  split; [by apply Z.pow_nonneg|apply Z.pow_lt_mono_r; lia].
Qed.

Definition meta_table_ok (o : Z) : bool :=
  (meta_make_free o =? o) && (meta_make_used o =? 64 + o) &&
  meta_is_free o && negb (meta_is_used o) && (meta_order o =? o) &&
  negb (meta_is_free (64 + o)) && meta_is_used (64 + o) &&
  (meta_order (64 + o) =? o) && negb (meta_is_tail o) && negb (meta_is_tail (64 + o)).

Lemma meta_table o : 0 ≤ o < 63 → meta_table_ok o = true.
Proof. apply (forall_range 63). by vm_compute. Qed.

Lemma meta_facts o : 0 ≤ o < 63 →
  meta_make_free o = o ∧ meta_make_used o = 64 + o ∧
  meta_is_free o = true ∧ meta_is_used o = false ∧ meta_order o = o ∧
  meta_is_free (64 + o) = false ∧ meta_is_used (64 + o) = true ∧
  meta_order (64 + o) = o ∧ meta_is_tail o = false ∧ meta_is_tail (64 + o) = false.
Proof.
  intros H. pose proof (meta_table o H) as Ht. unfold meta_table_ok in Ht. b2p.
  done.
Qed.

(** ** Free lists as chains through [pmm_free_next] *)

Inductive chain (nx : gmap Z Z) : Z → list Z → Prop :=
| chain_nil : chain nx PMM_INVALID_PAGE []
| chain_cons x n l :
    x ≠ PMM_INVALID_PAGE → nx !! x = Some n → chain nx n l → chain nx x (x :: l).

#[export] Hint Constructors chain : core.

Section chain_lemmas.
Implicit Types (nx : gmap Z Z) (l : list Z).

Lemma chain_insert nx h l y v : chain nx h l → y ∉ l → chain (<[y := v]> nx) h l.
Proof.
  induction 1 as [|x n l Hx Hn _ IH]; intros Hy; [done|].
  apply not_elem_of_cons in Hy as [Hyx Hyl].
  econstructor; [done| |by apply IH]. by rewrite lookup_insert_ne.
Qed.

Lemma chain_push nx h l x :
  chain nx h l → x ∉ l → x ≠ PMM_INVALID_PAGE → chain (<[x := h]> nx) x (x :: l).
Proof.
  intros. econstructor; [done|by rewrite lookup_insert_eq|by apply chain_insert].
Qed.

Lemma chain_head_nil nx l : chain nx PMM_INVALID_PAGE l → l = [].
Proof. by inversion 1. Qed.

Lemma chain_head_cons nx x l :
  chain nx x l → x ≠ PMM_INVALID_PAGE →
  ∃ l' n, l = x :: l' ∧ nx !! x = Some n ∧ chain nx n l'.
Proof. inversion 1; [done|]. eauto. Qed.

(** Redirecting the last element of the prefix unlinks what follows it. *)
Lemma chain_splice nx h l1 p x l2 n n' :
  chain nx h (l1 ++ p :: x :: l2) → NoDup (l1 ++ p :: x :: l2) →
  nx !! x = Some n → chain nx n l2 → n' = n →
  chain (<[p := n']> nx) h (l1 ++ p :: l2).
Proof.
  intros Hc Hnd Hx Hl2 ->. revert h Hc. induction l1 as [|y l1 IH]; intros h Hc; simpl in *.
  - inversion Hc as [|? ? ? Hp Hpn Hrest]; subst.
    econstructor; [done|by rewrite lookup_insert_eq|].
    apply chain_insert; [done|]. apply NoDup_cons in Hnd as [Hnd _]. set_solver.
  - inversion Hc as [|? ? ? Hp Hpn Hrest]; subst.
    apply NoDup_cons in Hnd as [Hnin Hnd].
    econstructor; [done| |by apply IH].
    rewrite lookup_insert_ne; [done|]. set_solver.
Qed.
End chain_lemmas.

(** ** The invariant *)

Definition upd (fl : Z → list Z) (o : Z) (l : list Z) : Z → list Z :=
  λ o', if decide (o' = o) then l else fl o'.

(** Pages in the free lists of order at most [mo]. *)
Definition free_sum (mo : Z) (fl : Z → list Z) : Z :=
  foldr (λ o acc, 2 ^ o * Z.of_nat (length (fl o)) + acc) 0 (seqZ 0 (mo + 1)).

Definition inh (a n p : Z) : Prop := a ≤ p < a + n.

(** Geometry of a block of order [o] at page [x]. *)
Record block_at (s : pmm) (x o : Z) : Prop := {
  ba_order : 0 ≤ o ≤ pmm_max_order s;
  ba_align : (2 ^ o | x);
  ba_range : 0 ≤ x ∧ x + 2 ^ o ≤ pmm_total_pages s;
  ba_tail : ∀ i, x < i < x + 2 ^ o → pmm_page_meta s !! i = Some PMM_META_TAIL
}.

(** The allocator structure, except for the hole of [n] pages at [a], which
    is accounted as free. *)
Record inv_hole (s : pmm) (fl : Z → list Z) (a n : Z) : Prop := {
  ih_total : 0 < pmm_total_pages s < 2 ^ 52;
  ih_order : 0 ≤ pmm_max_order s < 63 ∧ 2 ^ pmm_max_order s ≤ pmm_total_pages s;
  ih_range : 0 ≤ a ∧ 0 ≤ n ∧ a + n ≤ pmm_total_pages s;
  ih_meta_dom : ∀ i, is_Some (pmm_page_meta s !! i) ↔ 0 ≤ i < pmm_total_pages s;
  ih_next_dom : ∀ i, 0 ≤ i < pmm_total_pages s → is_Some (pmm_free_next s !! i);
  ih_heads : ∀ o, 0 ≤ o ≤ pmm_max_order s →
    ∃ h, pmm_free_heads s !! o = Some h ∧ chain (pmm_free_next s) h (fl o);
  ih_nodup : ∀ o, 0 ≤ o ≤ pmm_max_order s → NoDup (fl o);
  ih_free : ∀ o x, 0 ≤ o ≤ pmm_max_order s →
    x ∈ fl o ↔ pmm_page_meta s !! x = Some o ∧ ¬ inh a n x;
  ih_shape : ∀ x m, pmm_page_meta s !! x = Some m → ¬ inh a n x →
    m = PMM_META_TAIL ∨ m = META_RESERVED ∨
    ∃ o, (m = o ∨ m = 64 + o) ∧ block_at s x o ∧ (∀ p, inh x (2 ^ o) p → ¬ inh a n p);
  ih_used : pmm_used_pages s = pmm_total_pages s - free_sum (pmm_max_order s) fl - n
}.

(** The invariant between operations: no hole. *)
Definition pmm_inv (s : pmm) : Prop := ∃ fl, inv_hole s fl 0 0.

(** ** Abstract view *)

(** A block handed out by the allocator and not yet freed. *)
Definition used_block (s : pmm) (x o : Z) : Prop :=
  0 ≤ o ≤ pmm_max_order s ∧ pmm_page_meta s !! x = Some (meta_make_used o).

(** A page covered by a block of some free list. *)
Definition covered (mo : Z) (fl : Z → list Z) (p : Z) : Prop :=
  ∃ o x, 0 ≤ o ≤ mo ∧ x ∈ fl o ∧ inh x (2 ^ o) p.

Definition free_page (s : pmm) (p : Z) : Prop :=
  ∃ o x, 0 ≤ o ≤ pmm_max_order s ∧
    pmm_page_meta s !! x = Some (meta_make_free o) ∧ inh x (2 ^ o) p.

(** The fields no allocator operation changes. *)
Definition config (s : pmm) :=
  (pmm_total_pages s, pmm_max_order s, (pmm_metadata_phys s, pmm_metadata_bytes s),
   early_alloc_limit s, (early_pool_start s, early_pool_end s, early_pool_next s)).

(** Neither the configuration nor the page counter changes. *)
Definition stable (s s' : pmm) : Prop :=
  config s' = config s ∧ pmm_used_pages s' = pmm_used_pages s.

(** ** Sums over free lists *)

Lemma upd_eq fl o l : upd fl o l o = l.
Proof. unfold upd. by rewrite decide_True. Qed.
Lemma upd_ne fl o l o' : o' ≠ o → upd fl o l o' = fl o'.
Proof. intros. unfold upd. by rewrite decide_False. Qed.

Lemma free_sum_upd mo fl o l :
  0 ≤ o ≤ mo →
  free_sum mo (upd fl o l) =
  free_sum mo fl + 2 ^ o * (Z.of_nat (length l) - Z.of_nat (length (fl o))).
Proof.
  intros Ho. unfold free_sum.
  assert (o ∈ seqZ 0 (mo + 1)) as Hin by (apply elem_of_seqZ; lia).
  pose proof (NoDup_seqZ 0 (mo + 1)) as Hnd.
  induction (seqZ 0 (mo + 1)) as [|o' os IH]; [by apply not_elem_of_nil in Hin|].
  apply NoDup_cons in Hnd as [Hni Hnd]. simpl.
  destruct (decide (o' = o)) as [->|Hne].
  - rewrite upd_eq.
    assert (foldr (λ o0 acc, 2 ^ o0 * Z.of_nat (length (upd fl o l o0)) + acc) 0 os =
            foldr (λ o0 acc, 2 ^ o0 * Z.of_nat (length (fl o0)) + acc) 0 os) as ->.
    { clear IH Hnd Hin. induction os as [|o'' os IH']; [done|]. simpl.
      apply not_elem_of_cons in Hni as [? ?]. rewrite upd_ne by done.
      by rewrite IH'. }
    lia.
  - rewrite upd_ne by done. rewrite IH; [lia|set_solver|done].
Qed.

(** ** Basic consequences of the invariant *)

Section inv_facts.
Context {s : pmm} {fl : Z → list Z} {a n : Z} (H : inv_hole s fl a n).

Lemma inv_block_free o x :
  0 ≤ o ≤ pmm_max_order s → x ∈ fl o →
  block_at s x o ∧ pmm_page_meta s !! x = Some o ∧
  (∀ p, inh x (2 ^ o) p → ¬ inh a n p).
Proof.
  intros Ho Hx. apply (ih_free _ _ _ _ H) in Hx as [Hm Hnh]; [|done].
  pose proof (ih_order _ _ _ _ H).
  destruct (ih_shape _ _ _ _ H _ _ Hm Hnh) as [E|[E|(o' & [E|E] & Hb & Hd)]].
  - unfold PMM_META_TAIL in E. lia.
  - change META_RESERVED with 128 in E. lia.
  - subst. done.
  - pose proof (ba_order _ _ _ Hb). lia.
Qed.

Lemma inv_free_range o x :
  0 ≤ o ≤ pmm_max_order s → x ∈ fl o → 0 ≤ x < pmm_total_pages s.
Proof.
  intros Ho Hx. destruct (inv_block_free o x Ho Hx) as (Hb & _).
  destruct Hb as [? ? [? ?] ?]. pose proof (pow2_pos o ltac:(lia)). lia.
Qed.

Lemma inv_free_valid o x :
  0 ≤ o ≤ pmm_max_order s → x ∈ fl o → x ≠ PMM_INVALID_PAGE.
Proof.
  intros Ho Hx. pose proof (inv_free_range o x Ho Hx).
  pose proof (ih_total _ _ _ _ H). unfold PMM_INVALID_PAGE, UINT64_MAX. lia.
Qed.

Lemma inv_list_length o :
  0 ≤ o ≤ pmm_max_order s → Z.of_nat (length (fl o)) ≤ pmm_total_pages s.
Proof.
  intros Ho. pose proof (ih_total _ _ _ _ H).
  pose proof (NoDup_range_length (fl o) (pmm_total_pages s) (ih_nodup _ _ _ _ H o Ho)
    (λ x, inv_free_range o x Ho)). lia.
Qed.

(** Two heads outside the hole delimit disjoint blocks. *)
Lemma inv_heads_disjoint x o y p :
  block_at s x o → block_at s y p → x ≠ y →
  pmm_page_meta s !! x ≠ Some PMM_META_TAIL →
  pmm_page_meta s !! y ≠ Some PMM_META_TAIL →
  x + 2 ^ o ≤ y ∨ y + 2 ^ p ≤ x.
Proof.
  intros Hx Hy Hne Hmx Hmy.
  destruct (decide (x + 2 ^ o ≤ y)); [by left|]. right.
  destruct (decide (y + 2 ^ p ≤ x)); [done|exfalso].
  destruct (decide (x < y)).
  - apply Hmy. apply (ba_tail _ _ _ Hx). lia.
  - apply Hmx. apply (ba_tail _ _ _ Hy). lia.
Qed.
End inv_facts.

(** ** Elementary operations *)

Section elementary.
Implicit Types (s : pmm) (fl : Z → list Z) (Q : unit → pmm → Prop).

Lemma wp_rd_meta s i v (Q : Z → pmm → Prop) :
  pmm_page_meta s !! i = Some v → Q v s → wp (rd_meta i) Q s.
Proof. intros. by eapply wp_lift_opt. Qed.
Lemma wp_rd_next s i v (Q : Z → pmm → Prop) :
  pmm_free_next s !! i = Some v → Q v s → wp (rd_next i) Q s.
Proof. intros. by eapply wp_lift_opt. Qed.
Lemma wp_rd_head s i v (Q : Z → pmm → Prop) :
  pmm_free_heads s !! i = Some v → Q v s → wp (rd_head i) Q s.
Proof. intros. by eapply wp_lift_opt. Qed.

Lemma wp_wr_meta s i v Q :
  is_Some (pmm_page_meta s !! i) →
  Q tt (set_meta_arr (<[i := v]> (pmm_page_meta s)) s) → wp (wr_meta i v) Q s.
Proof. intros [w Hw] HQ. eapply wp_update_opt; [|done]. simpl. by rewrite Hw. Qed.
Lemma wp_wr_next s i v Q :
  is_Some (pmm_free_next s !! i) →
  Q tt (set_next_arr (<[i := v]> (pmm_free_next s)) s) → wp (wr_next i v) Q s.
Proof. intros [w Hw] HQ. eapply wp_update_opt; [|done]. simpl. by rewrite Hw. Qed.
Lemma wp_wr_head s i v Q :
  is_Some (pmm_free_heads s !! i) →
  Q tt (set_heads_arr (<[i := v]> (pmm_free_heads s)) s) → wp (wr_head i v) Q s.
Proof. intros [w Hw] HQ. eapply wp_update_opt; [|done]. simpl. by rewrite Hw. Qed.

(** The metadata array after [set_block_meta x o hm]. *)
Definition filled (m m' : gmap Z Z) (x len hm : Z) : Prop :=
  ∀ i, m' !! i = if decide (i = x) then Some hm
                 else if decide (x < i < x + len) then Some PMM_META_TAIL
                 else m !! i.

Lemma wp_set_block_meta s x o hm Q :
  0 ≤ o < 63 → 0 ≤ x → x + 2 ^ o < 2 ^ 64 →
  (∀ i, inh x (2 ^ o) i → is_Some (pmm_page_meta s !! i)) →
  (∀ m', filled (pmm_page_meta s) m' x (2 ^ o) hm → Q tt (set_meta_arr m' s)) →
  wp (set_block_meta x o hm) Q s.
Proof.
  intros Ho Hx Hlim Hdom HQ. unfold set_block_meta. pose proof (pow2_pos o ltac:(lia)).
  apply wp_bind, wp_wr_meta; [apply Hdom; unfold inh; lia|].
  rewrite order_pages_pow2 by lia. apply wp_bind.
  apply (wp_for _ _ _ (λ i s', ∃ m', s' = set_meta_arr m' s ∧
    filled (pmm_page_meta s) m' x i hm)).
  - lia.
  - eexists. split; [done|]. intros i.
    destruct (decide (i = x)) as [->|]; [by rewrite lookup_insert_eq|].
    rewrite lookup_insert_ne by done. rewrite decide_False by lia. done.
  - intros i s' Hi (m' & -> & Hm'). apply wp_bind. rewrite u64_small by lia.
    apply wp_wr_meta.
    { simpl. rewrite Hm'. repeat case_decide; try done. apply Hdom. unfold inh. lia. }
    apply wp_ret. eexists. split; [reflexivity|]. intros j. simpl.
    destruct (decide (j = x + i)) as [->|].
    + rewrite lookup_insert_eq, decide_False, decide_True by lia. done.
    + rewrite lookup_insert_ne, Hm' by done.
      destruct (decide (j = x)); [done|]. repeat case_decide; try done; lia.
  - intros s' (m' & -> & Hm'). apply wp_ret. by apply HQ.
Qed.

(** Writing metadata inside the hole keeps the invariant. *)
Lemma block_at_meta s m' x o :
  block_at s x o →
  (∀ p, inh x (2 ^ o) p → m' !! p = pmm_page_meta s !! p) →
  block_at (set_meta_arr m' s) x o.
Proof.
  intros [? ? ? Htail] Hm'. split; try done. simpl. intros i Hi.
  rewrite Hm' by (unfold inh; lia). by apply Htail.
Qed.

Lemma inv_hole_meta s fl a n m' :
  inv_hole s fl a n →
  (∀ i, ¬ inh a n i → m' !! i = pmm_page_meta s !! i) →
  (∀ i, inh a n i → is_Some (m' !! i)) →
  inv_hole (set_meta_arr m' s) fl a n.
Proof.
  intros H Hout Hin. destruct H as [HT Ho Hr Hmd Hnd Hh Hdup Hf Hs Hu].
  split; simpl; try done.
  - intros i. destruct (decide (a ≤ i ∧ i < a + n)) as [Hi|Hi].
    + split; [lia|]. intros _. by apply Hin.
    + rewrite Hout by done. apply Hmd.
  - intros o x Hox. rewrite (Hf o x Hox). split; intros [E Hnh]; (split; [|done]).
    + by rewrite Hout.
    + by rewrite <-Hout.
  - intros x m Hm Hnh. rewrite Hout in Hm by done.
    destruct (Hs x m Hm Hnh) as [?|[?|(o & E & Hb & Hd)]]; [by left|by right; left|].
    right; right. exists o. split_and!; [done| |done].
    apply block_at_meta; [done|]. intros p Hp. apply Hout. by apply Hd.
Qed.

Lemma filled_outside m m' x len hm i : 0 < len → filled m m' x len hm → ¬ inh x len i → m' !! i = m !! i.
Proof.
  intros Hl Hf Hi. rewrite (Hf i). unfold inh in Hi.
  rewrite !decide_False by lia. done.
Qed.
Lemma filled_inside m m' x len hm i : filled m m' x len hm → inh x len i → is_Some (m' !! i).
Proof.
  intros Hf Hi. rewrite (Hf i). destruct (decide (i = x)); [done|].
  unfold inh in Hi. rewrite decide_True by lia. done.
Qed.
End elementary.
