(* ===== verification/PmmHole.v ===== *)
(** * Physical memory manager: closing and opening holes

    How [insert_free_block], [unlink_block] and the marking of a used block
    change the hole of the invariant of [PmmInv]. *)

From S2P Require Import Prelude Pmm PmmInv.

Section hole_ops.
Implicit Types (s : pmm) (fl : Z → list Z) (Q : unit → pmm → Prop).

(** A block outside the hole stays a block, outside the new hole, when only
    pages of the old hole are rewritten. *)
Lemma shape_frame s s' x o a n a' n' :
  block_at s x o → (∀ p, inh x (2 ^ o) p → ¬ inh a n p) →
  pmm_total_pages s' = pmm_total_pages s → pmm_max_order s' = pmm_max_order s →
  (∀ p, ¬ inh a n p → pmm_page_meta s' !! p = pmm_page_meta s !! p) →
  (∀ p, inh a' n' p → inh a n p) →
  block_at s' x o ∧ (∀ p, inh x (2 ^ o) p → ¬ inh a' n' p).
Proof.
  intros [Ho Hal Hr Ht] Hd ET EO Hm Hsub. split.
  - split; rewrite ?ET, ?EO; try done. intros i Hi.
    rewrite Hm; [by apply Ht|]. apply Hd. unfold inh. lia.
  - intros p Hp Hp'. by apply (Hd p Hp), Hsub.
Qed.

(** Filling part of the hole with a block of the given head byte. *)
Lemma inv_hole_fill s fl a n x o hm m' a' n' :
  inv_hole s fl a n → 0 ≤ o ≤ pmm_max_order s → (2 ^ o | x) →
  (∀ p, inh x (2 ^ o) p → inh a n p) →
  (∀ p, inh a' n' p ↔ inh a n p ∧ ¬ inh x (2 ^ o) p) →
  filled (pmm_page_meta s) m' x (2 ^ o) hm → hm = o ∨ hm = 64 + o →
  ∀ y m, m' !! y = Some m → ¬ inh a' n' y →
    m = PMM_META_TAIL ∨ m = META_RESERVED ∨
    ∃ o', (m = o' ∨ m = 64 + o') ∧ block_at (set_meta_arr m' s) y o' ∧
      (∀ p, inh y (2 ^ o') p → ¬ inh a' n' p).
Proof.
  intros H Ho Hal Hsub Hiff Hfill Hhm y m Hm Hny.
  pose proof (pow2_pos o ltac:(lia)) as Hpos.
  pose proof (ih_range _ _ _ _ H) as Hr.
  assert (inh a n x) as Hx by (apply Hsub; unfold inh; lia).
  assert (inh a n (x + 2 ^ o - 1)) as Hx' by (apply Hsub; unfold inh; lia).
  rewrite (Hfill y) in Hm. destruct (decide (y = x)) as [->|Hyx].
  { right; right. injection Hm as <-. exists o. split_and!; [done| |].
    - split; simpl; [done|done|unfold inh in *; lia|]. intros i Hi.
      rewrite (Hfill i), decide_False, decide_True by lia. done.
    - intros p Hp [_ Hp']%Hiff. done. }
  destruct (decide (x < y < x + 2 ^ o)) as [Hin|Hout]; [left; congruence|].
  assert (¬ inh a n y) as Hna.
  { intros Hin. apply Hny, Hiff. split; [done|]. unfold inh. lia. }
  destruct (ih_shape _ _ _ _ H y m Hm Hna) as [->|[->|(o' & E & Hb & Hd)]]; [by auto..|].
  right; right. exists o'. split; [done|].
  eapply shape_frame; [done|done|done|done| |by intros p [? _]%Hiff].
  intros p Hp. simpl. eapply filled_outside; [done|done|]. intros Hi. by apply Hp, Hsub.
Qed.

(** A page head [x] of the hole is in no free list. *)
Lemma hole_not_free s fl a n x o :
  inv_hole s fl a n → inh a n x → 0 ≤ o ≤ pmm_max_order s → x ∉ fl o.
Proof. intros H Hx Ho [_ Hn]%(ih_free _ _ _ _ H); done. Qed.

Lemma wp_insert_free_block s fl a n x o a' n' Q :
  inv_hole s fl a n → 0 ≤ o ≤ pmm_max_order s → (2 ^ o | x) →
  (∀ p, inh x (2 ^ o) p → inh a n p) →
  (∀ p, inh a' n' p ↔ inh a n p ∧ ¬ inh x (2 ^ o) p) →
  n' = n - 2 ^ o → 0 ≤ a' ∧ 0 ≤ n' ∧ a' + n' ≤ pmm_total_pages s →
  (∀ s', inv_hole s' (upd fl o (x :: fl o)) a' n' → stable s s' →
     (∀ p, ¬ inh x (2 ^ o) p → pmm_page_meta s' !! p = pmm_page_meta s !! p) →
     Q tt s') →
  wp (insert_free_block x o) Q s.
Proof.
  intros H Ho Hal Hsub Hiff Hn' Hr' HQ.
  pose proof (ih_total _ _ _ _ H) as HT. pose proof (ih_order _ _ _ _ H) as HO.
  pose proof (ih_range _ _ _ _ H) as Hr. pose proof (pow2_pos o ltac:(lia)) as Hpos.
  assert (inh a n x) as Hx by (apply Hsub; unfold inh; lia).
  assert (inh a n (x + 2 ^ o - 1)) as Hx' by (apply Hsub; unfold inh; lia).
  destruct (meta_facts o ltac:(lia)) as (Emf & _). unfold insert_free_block.
  assert (0 ≤ x ∧ x + 2 ^ o ≤ pmm_total_pages s) as Hxr by (unfold inh in *; lia).
  apply wp_bind, wp_set_block_meta; [lia..| |].
  { intros i Hi. apply (ih_meta_dom _ _ _ _ H). unfold inh in Hi. lia. }
  intros m' Hm'. rewrite Emf in Hm'.
  destruct (ih_heads _ _ _ _ H o Ho) as (h & Hh & Hch).
  assert (x ∉ fl o) as Hxo by (by eapply hole_not_free).
  apply wp_bind. eapply wp_rd_head; [exact Hh|].
  apply wp_bind, wp_wr_next; [apply (ih_next_dom _ _ _ _ H); lia|].
  apply wp_wr_head; [by simpl; rewrite Hh|]. apply HQ; [|done|].
  2:{ intros p Hp. simpl. by eapply filled_outside. }
  split; simpl; try done.
  - intros i. rewrite (Hm' i). pose proof (ih_meta_dom _ _ _ _ H i) as Hd.
    repeat case_decide; subst; split; intros; try done; try lia; by apply Hd.
  - intros i Hi. destruct (decide (i = x)) as [->|].
    + by rewrite lookup_insert_eq.
    + rewrite lookup_insert_ne by done. by apply (ih_next_dom _ _ _ _ H).
  - intros o' Ho'. destruct (decide (o' = o)) as [->|Hne].
    + exists x. rewrite lookup_insert_eq, upd_eq. split; [done|].
      apply chain_push; [done..|]. unfold PMM_INVALID_PAGE, UINT64_MAX. lia.
    + rewrite lookup_insert_ne, upd_ne by done.
      destruct (ih_heads _ _ _ _ H o' Ho') as (h' & Hh' & Hch').
      exists h'. split; [done|]. apply chain_insert; [done|]. by eapply hole_not_free.
  - intros o' Ho'. destruct (decide (o' = o)) as [->|Hne].
    + rewrite upd_eq. apply NoDup_cons. split; [done|]. by apply (ih_nodup _ _ _ _ H).
    + rewrite upd_ne by done. by apply (ih_nodup _ _ _ _ H).
  - intros o' y Ho'. destruct (decide (y = x)) as [->|Hyx].
    + rewrite (Hm' x), decide_True by done. split.
      * destruct (decide (o' = o)) as [->|Hne]; [|rewrite upd_ne by done].
        -- intros _. split; [done|]. rewrite Hiff. unfold inh. lia.
        -- intros Hin. by destruct (hole_not_free _ _ _ _ _ _ H Hx Ho').
      * intros [[= <-] _]. rewrite upd_eq. set_solver.
    + assert (y ∈ upd fl o (x :: fl o) o' ↔ y ∈ fl o') as ->.
      { destruct (decide (o' = o)) as [->|]; [rewrite upd_eq; set_solver|by rewrite upd_ne]. }
      rewrite (ih_free _ _ _ _ H o' y Ho'), (Hm' y), decide_False, Hiff by done.
      pose proof (Hsub y) as Hsy. unfold inh in *. case_decide as Hc; [|naive_solver lia].
      split; [lia|]. intros [[= E] _]. unfold PMM_META_TAIL in E. lia.
  - intros y m Hm Hy.
    destruct (inv_hole_fill s fl a n x o o m' a' n' H Ho Hal Hsub Hiff Hm' (or_introl eq_refl) y m Hm Hy)
      as [?|[?|(o' & E & [? ? ? ?] & Hd)]]; [by auto..|].
    right; right. exists o'. split_and!; [done| |done]. by split.
  - rewrite (ih_used _ _ _ _ H), free_sum_upd by done. simpl length. lia.
Qed.

(** Marking the whole hole as one used block closes it. *)
Lemma inv_hole_mark_used s fl x o m' :
  inv_hole s fl x (2 ^ o) → 0 ≤ o ≤ pmm_max_order s → (2 ^ o | x) →
  filled (pmm_page_meta s) m' x (2 ^ o) (meta_make_used o) →
  inv_hole (set_used (pmm_used_pages s + 2 ^ o) (set_meta_arr m' s)) fl 0 0.
Proof.
  intros H Ho Hal Hm'. pose proof (ih_order _ _ _ _ H) as HO.
  pose proof (pow2_pos o ltac:(lia)) as Hpos. pose proof (ih_range _ _ _ _ H) as Hr.
  destruct (meta_facts o ltac:(lia)) as (_ & Emu & _). rewrite Emu in Hm'.
  assert (∀ p, inh 0 0 p ↔ inh x (2 ^ o) p ∧ ¬ inh x (2 ^ o) p) as Hiff
    by (unfold inh; intros; lia).
  pose proof (ih_total _ _ _ _ H). split; simpl; try done; try lia.
  - intros i. rewrite (Hm' i). pose proof (ih_meta_dom _ _ _ _ H i) as Hd.
    repeat case_decide; subst; split; intros; try done; try lia; by apply Hd.
  - apply (ih_next_dom _ _ _ _ H).
  - apply (ih_heads _ _ _ _ H).
  - apply (ih_nodup _ _ _ _ H).
  - intros o' y Ho'. rewrite (ih_free _ _ _ _ H o' y Ho'), (Hm' y). unfold inh.
    repeat case_decide; [|unfold PMM_META_TAIL|]; subst; naive_solver lia.
  - intros y m Hm Hy.
    destruct (inv_hole_fill s fl x (2 ^ o) x o (64 + o) m' 0 0 H Ho Hal ltac:(done) Hiff Hm'
      (or_intror eq_refl) y m Hm Hy) as [?|[?|(o' & E & [? ? ? ?] & Hd)]]; [by auto..|].
    right; right. exists o'. split_and!; [done| |done]. by split.
  - rewrite (ih_used _ _ _ _ H). lia.
Qed.

(** Distinct free lists share no page. *)
Lemma free_lists_disjoint s fl a n o o' x :
  inv_hole s fl a n → 0 ≤ o ≤ pmm_max_order s → 0 ≤ o' ≤ pmm_max_order s →
  x ∈ fl o → x ∈ fl o' → o = o'.
Proof.
  intros H Ho Ho' [E _]%(ih_free _ _ _ _ H) [E' _]%(ih_free _ _ _ _ H); congruence.
Qed.

(** The list of order [o] after its element [x] is unlinked. *)
Lemma chain_unlink (nx : gmap Z Z) h l1 x l2 n :
  chain nx h (l1 ++ x :: l2) → NoDup (l1 ++ x :: l2) →
  nx !! x = Some n → chain nx n l2 →
  chain (<[x := PMM_INVALID_PAGE]>
           (match last l1 with Some p => <[p := n]> nx | None => nx end))
        (match last l1 with Some _ => h | None => n end) (l1 ++ l2).
Proof.
  intros Hc Hnd Hx Hl2.
  assert (x ∉ l1 ++ l2) as Hxn.
  { apply NoDup_app in Hnd as (_ & Hd & Hn2). apply NoDup_cons in Hn2 as [? _].
    rewrite elem_of_app. intros [Hin|?]; [|done]. apply (Hd x Hin). set_solver. }
  apply chain_insert; [|done]. destruct l1 as [|p l1' _] using rev_ind; [done|].
  rewrite last_snoc. rewrite <-app_assoc in *. simpl in *.
  by eapply chain_splice.
Qed.

(** Taking the block [x] out of its free list adds its pages to the hole. *)
Lemma inv_hole_unlink s s' fl a n o l1 x l2 a' n' :
  inv_hole s fl a n → 0 ≤ o ≤ pmm_max_order s → fl o = l1 ++ x :: l2 →
  (∀ p, inh a' n' p ↔ inh a n p ∨ inh x (2 ^ o) p) →
  n' = n + 2 ^ o → 0 ≤ a' ∧ 0 ≤ n' ∧ a' + n' ≤ pmm_total_pages s →
  config s' = config s → pmm_page_meta s' = pmm_page_meta s →
  pmm_used_pages s' = pmm_used_pages s →
  (∀ i, 0 ≤ i < pmm_total_pages s → is_Some (pmm_free_next s' !! i)) →
  (∃ h, pmm_free_heads s' !! o = Some h ∧ chain (pmm_free_next s') h (l1 ++ l2)) →
  (∀ o', 0 ≤ o' ≤ pmm_max_order s → o' ≠ o →
    ∃ h, pmm_free_heads s' !! o' = Some h ∧ chain (pmm_free_next s') h (fl o')) →
  inv_hole s' (upd fl o (l1 ++ l2)) a' n'.
Proof.
  intros H Ho Hfl Hiff Hn' Hr' Hcfg Hmeta Hused Hnext Hho Hho'.
  injection Hcfg as ET EO EP EB EL E1 E2 E3.
  pose proof (ih_nodup _ _ _ _ H o Ho) as Hnd. rewrite Hfl in Hnd.
  assert (x ∈ fl o) as Hx by (rewrite Hfl; set_solver).
  destruct (inv_block_free H o x Ho Hx) as (Hbx & Hmx & Hdx).
  assert (∀ y o', block_at s y o' → pmm_page_meta s !! y ≠ Some PMM_META_TAIL → y ≠ x →
    ∀ p, inh y (2 ^ o') p → ¬ inh x (2 ^ o) p) as Hdisj.
  { intros y o' Hby Hmy Hyx p Hp Hpx. pose proof (ih_order _ _ _ _ H).
    destruct (inv_heads_disjoint y o' x o Hby Hbx Hyx Hmy); [|unfold inh in *; lia..].
    rewrite Hmx. intros [= E]. unfold PMM_META_TAIL in E. lia. }
  assert (∀ p, inh x (2 ^ o) p → inh a' n' p) as Hxin by (intros p; rewrite Hiff; auto).
  assert (inh x (2 ^ o) x) as Hxx by (unfold inh; pose proof (pow2_pos o); lia).
  split; rewrite ?ET, ?EO, ?Hmeta, ?Hused; try apply H; try done.
  - intros o' Ho'. destruct (decide (o' = o)) as [->|]; [by rewrite upd_eq|].
    rewrite upd_ne by done. by apply Hho'.
  - intros o' Ho'. destruct (decide (o' = o)) as [->|].
    + rewrite upd_eq. apply NoDup_app in Hnd as (Hn1 & Hd & Hn2).
      apply NoDup_cons in Hn2 as [_ Hn2]. apply NoDup_app. split_and!; [done| |done].
      intros y Hy ?. apply (Hd y Hy). set_solver.
    + rewrite upd_ne by done. by apply (ih_nodup _ _ _ _ H).
  - intros o' y Ho'.
    assert (y ∈ upd fl o (l1 ++ l2) o' ↔ y ∈ fl o' ∧ y ≠ x) as ->.
    { destruct (decide (o' = o)) as [->|Hne].
      - rewrite upd_eq, Hfl. apply NoDup_app in Hnd as (_ & Hd & Hn2).
        apply NoDup_cons in Hn2 as [? _]. specialize (Hd x). set_solver.
      - rewrite upd_ne by done. split; [|naive_solver]. intros Hy. split; [done|].
        intros ->. apply Hne. by eapply free_lists_disjoint. }
    rewrite (ih_free _ _ _ _ H o' y Ho'), Hiff. split.
    + intros [[E Hn] Hyx]. split; [done|]. intros [?|Hp]; [done|].
      destruct (inv_block_free H o' y Ho') as (Hby & Hmy & _).
      { by apply (ih_free _ _ _ _ H). }
      assert (pmm_page_meta s !! y ≠ Some PMM_META_TAIL) as Hnt.
      { rewrite Hmy. intros [= E']. pose proof (ih_order _ _ _ _ H).
        unfold PMM_META_TAIL in E'. lia. }
      apply (Hdisj y o' Hby Hnt Hyx y); [|done]. unfold inh. pose proof (pow2_pos o'); lia.
    + intros [E Hn]. split; [split; [done|tauto]|]. intros ->. tauto.
  - intros y m Hm Hy. rewrite Hiff in Hy.
    destruct (ih_shape _ _ _ _ H y m Hm) as [?|[?|(o' & E & Hb & Hd)]]; [tauto|by auto..|].
    right; right. exists o'. split; [done|]. split.
    + destruct Hb. split; rewrite ?ET, ?EO, ?Hmeta; done.
    + intros p Hp. rewrite Hiff. intros [?|Hp']; [by eapply Hd|].
      pose proof (ih_order _ _ _ _ H). pose proof (ba_order _ _ _ Hb).
      assert (pmm_page_meta s !! y ≠ Some PMM_META_TAIL) as Hnt.
      { rewrite Hm. intros [= E']. unfold PMM_META_TAIL in E'. lia. }
      apply (Hdisj y o' Hb Hnt) in Hp'; [done|..|done]. intros ->. tauto.
  - rewrite (ih_used _ _ _ _ H), free_sum_upd by done.
    rewrite Hfl, !length_app. simpl. lia.
Qed.

Lemma wp_unlink_block s fl a n o l1 x l2 nx a' n' Q :
  inv_hole s fl a n → 0 ≤ o ≤ pmm_max_order s → fl o = l1 ++ x :: l2 →
  pmm_free_next s !! x = Some nx → chain (pmm_free_next s) nx l2 →
  (∀ p, inh a' n' p ↔ inh a n p ∨ inh x (2 ^ o) p) →
  n' = n + 2 ^ o → 0 ≤ a' ∧ 0 ≤ n' ∧ a' + n' ≤ pmm_total_pages s →
  (∀ s', inv_hole s' (upd fl o (l1 ++ l2)) a' n' → stable s s' →
     pmm_page_meta s' = pmm_page_meta s → Q tt s') →
  wp (unlink_block o (default PMM_INVALID_PAGE (last l1)) x nx) Q s.
Proof.
  intros H Ho Hfl Hnx Hch Hiff Hn' Hr' HQ.
  pose proof (ih_nodup _ _ _ _ H o Ho) as Hnd. rewrite Hfl in Hnd.
  destruct (ih_heads _ _ _ _ H o Ho) as (h & Hh & Hchain). rewrite Hfl in Hchain.
  assert (∀ y, y ∈ l1 ++ [x] → y ∈ fl o) as Hin by (rewrite Hfl; set_solver).
  assert (∀ y, y ∈ l1 ++ [x] → 0 ≤ y < pmm_total_pages s) as Hrange.
  { intros y Hy%Hin. by apply (inv_free_range H o). }
  pose proof (chain_unlink _ _ _ _ _ _ Hchain Hnd Hnx Hch) as Hchain'.
  assert (∀ o' h', 0 ≤ o' ≤ pmm_max_order s → o' ≠ o → chain (pmm_free_next s) h' (fl o') →
    chain (<[x := PMM_INVALID_PAGE]> (match last l1 with
      Some p => <[p := nx]> (pmm_free_next s) | None => pmm_free_next s end)) h' (fl o')) as Hoth.
  { intros o' h' Ho' Hne Hc.
    assert (∀ y, y ∈ l1 ++ [x] → y ∉ fl o') as Hni.
    { intros y Hy%Hin Hy'. apply Hne. by eapply free_lists_disjoint. }
    apply chain_insert; [|apply Hni; set_solver].
    destruct l1 as [|p l1' _] using rev_ind; [done|]. rewrite last_snoc.
    apply chain_insert; [done|]. apply Hni. set_solver. }
  unfold unlink_block. apply wp_bind.
  assert (∀ i, 0 ≤ i < pmm_total_pages s → is_Some (pmm_free_next s !! i)) as Hdom
    by apply (ih_next_dom _ _ _ _ H).
  assert (∀ (m : gmap Z Z) y v, (∀ i, 0 ≤ i < pmm_total_pages s → is_Some (m !! i)) →
    ∀ i, 0 ≤ i < pmm_total_pages s → is_Some (<[y := v]> m !! i)) as Hdi.
  { intros m y v Hm i Hi. rewrite lookup_insert. case_decide; [done|by apply Hm]. }
  destruct l1 as [|p l1' _] using rev_ind.
  - simpl. apply wp_wr_head; [by rewrite Hh|].
    apply wp_wr_next; [apply Hdom, Hrange; set_solver|].
    apply HQ; [|done..]. eapply (inv_hole_unlink s _ fl a n o [] x l2); try done; simpl.
    + by apply Hdi.
    + exists nx. rewrite lookup_insert_eq. done.
    + intros o' Ho' Hne. rewrite lookup_insert_ne by done.
      destruct (ih_heads _ _ _ _ H o' Ho') as (h' & Hh' & Hc'). eauto.
  - rewrite last_snoc in *. simpl.
    assert (0 ≤ p < pmm_total_pages s) as Hp by (apply Hrange; set_solver).
    pose proof (ih_total _ _ _ _ H).
    rewrite (proj2 (Z.eqb_neq p PMM_INVALID_PAGE)) by (unfold PMM_INVALID_PAGE, UINT64_MAX; lia).
    apply wp_wr_next; [by apply Hdom|].
    apply wp_wr_next; [simpl; apply Hdi; [done|]; apply Hrange; set_solver|].
    apply HQ; [|done..]. eapply (inv_hole_unlink s _ fl a n o (l1' ++ [p]) x l2); try done; simpl.
    + by do 2 apply Hdi.
    + eauto.
    + intros o' Ho' Hne. destruct (ih_heads _ _ _ _ H o' Ho') as (h' & Hh' & Hc'). eauto.
Qed.
End hole_ops.

(** * Physical memory manager: freeing and allocating blocks

    Correctness of [remove_free_block], [free_block], [split_loop],
    [scan_order] and [alloc_pages_range_locked] with respect to the
    invariant. *)

Section pmm_ops.
Implicit Types (s : pmm) (fl : Z → list Z).

(** Position of a walk in the free list of order [o]: [l2] is left. *)
Definition at_pos s fl (o prev cur : Z) (l1 l2 : list Z) : Prop :=
  fl o = l1 ++ l2 ∧ chain (pmm_free_next s) cur l2 ∧
  prev = default PMM_INVALID_PAGE (last l1).

Lemma at_pos_next s fl o prev cur l1 l2 :
  at_pos s fl o prev cur l1 l2 → cur ≠ PMM_INVALID_PAGE →
  ∃ l2' next, l2 = cur :: l2' ∧ pmm_free_next s !! cur = Some next ∧
    chain (pmm_free_next s) next l2' ∧ at_pos s fl o cur next (l1 ++ [cur]) l2'.
Proof.
  intros (Hfl & Hc & ->) Hcur.
  destruct (chain_head_cons _ _ _ Hc Hcur) as (l2' & next & -> & Hn & Hc').
  exists l2', next. split_and!; try done. split_and!; [|done|by rewrite last_snoc].
  by rewrite <-app_assoc.
Qed.

Lemma wp_remove_free_block s fl a n x o a' n' (Q : bool → pmm → Prop) :
  inv_hole s fl a n → 0 ≤ o ≤ pmm_max_order s → x ∈ fl o →
  (∀ p, inh a' n' p ↔ inh a n p ∨ inh x (2 ^ o) p) →
  n' = n + 2 ^ o → 0 ≤ a' ∧ 0 ≤ n' ∧ a' + n' ≤ pmm_total_pages s →
  (∀ s' l', inv_hole s' (upd fl o l') a' n' → (∀ y, y ∈ l' ↔ y ∈ fl o ∧ y ≠ x) →
     stable s s' → pmm_page_meta s' = pmm_page_meta s → Q true s') →
  wp (remove_free_block x o) Q s.
Proof.
  intros H Ho Hx Hiff Hn' Hr' HQ. unfold remove_free_block.
  destruct (ih_heads _ _ _ _ H o Ho) as (h & Hh & Hc).
  pose proof (inv_list_length H o Ho) as Hlen.
  apply wp_bind. eapply wp_rd_head; [exact Hh|]. wp_steps.
  apply (wp_while_idx _ _ (λ v '(prev, cur) s1, s1 = s ∧ ∃ l1 l2,
    v = Z.of_nat (length l2) ∧ at_pos s fl o prev cur l1 l2 ∧ x ∉ l1) _
    (Z.of_nat (length (fl o)))); [|lia|].
  { split; [done|]. exists [], (fl o). split_and!; try done. set_solver. }
  intros v [prev cur] s1 (-> & l1 & l2 & -> & Hp & Hxl).
  destruct (Z.eqb_spec cur PMM_INVALID_PAGE) as [->|Hcur].
  { destruct Hp as (Hfl & Hc2 & _). apply chain_head_nil in Hc2 as ->.
    rewrite app_nil_r in Hfl. congruence. }
  destruct (at_pos_next _ _ _ _ _ _ _ Hp Hcur) as (l2' & next & -> & Hnext & Hc' & Hp').
  destruct Hp as (Hfl & _ & ->).
  destruct (Z.eqb_spec cur x) as [->|Hne].
  - apply wp_bind. eapply wp_rd_next; [done|]. apply wp_bind.
    eapply wp_unlink_block; [done|done|done|done|done|done|done|done|].
    intros s' Hinv Hcfg Hmeta. apply wp_ret.
    eapply HQ; [done| |done|done]. intros y. rewrite Hfl.
    pose proof (ih_nodup _ _ _ _ H o Ho) as Hnd. rewrite Hfl in Hnd.
    apply NoDup_app in Hnd as (_ & Hd & Hn2). apply NoDup_cons in Hn2 as [? _].
    specialize (Hd x). set_solver.
  - apply wp_bind. eapply wp_rd_next; [done|]. apply wp_ret.
    exists (Z.of_nat (length l2')). split; [simpl; lia|]. split; [done|].
    exists (l1 ++ [cur]), l2'. split_and!; try done. set_solver.
Qed.

(** ** Covered pages *)

Lemma covered_cons s fl o x p :
  0 ≤ o ≤ pmm_max_order s →
  covered (pmm_max_order s) (upd fl o (x :: fl o)) p ↔
  covered (pmm_max_order s) fl p ∨ inh x (2 ^ o) p.
Proof.
  intros Ho. split.
  - intros (o' & y & Ho' & Hy & Hp). destruct (decide (o' = o)) as [->|].
    + rewrite upd_eq in Hy. apply elem_of_cons in Hy as [->|Hy]; [by right|].
      left. by exists o, y.
    + rewrite upd_ne in Hy by done. left. by exists o', y.
  - intros [(o' & y & Ho' & Hy & Hp)|Hp].
    + exists o', y. split; [done|]. split; [|done]. destruct (decide (o' = o)) as [->|].
      * rewrite upd_eq. set_solver.
      * by rewrite upd_ne.
    + exists o, x. split; [done|]. split; [|done]. rewrite upd_eq. set_solver.
Qed.

Lemma covered_remove s fl a n o x l' p :
  inv_hole s fl a n → 0 ≤ o ≤ pmm_max_order s → x ∈ fl o →
  (∀ y, y ∈ l' ↔ y ∈ fl o ∧ y ≠ x) →
  covered (pmm_max_order s) (upd fl o l') p ↔
  covered (pmm_max_order s) fl p ∧ ¬ inh x (2 ^ o) p.
Proof.
  intros H Ho Hx Hl'. destruct (inv_block_free H o x Ho Hx) as (Hbx & Hmx & _).
  pose proof (ih_order _ _ _ _ H) as HO.
  assert (∀ o' y, 0 ≤ o' ≤ pmm_max_order s → y ∈ fl o' →
    block_at s y o' ∧ pmm_page_meta s !! y ≠ Some PMM_META_TAIL) as Hfb.
  { intros o' y Ho' Hy. destruct (inv_block_free H o' y Ho' Hy) as (? & Hm & _).
    split; [done|]. rewrite Hm. intros [= E]. unfold PMM_META_TAIL in E. lia. }
  split.
  - intros (o' & y & Ho' & Hy & Hp).
    assert (y ∈ fl o' ∧ y ≠ x) as [Hyf Hyx].
    { destruct (decide (o' = o)) as [->|Hne].
      - rewrite upd_eq in Hy. by apply Hl'.
      - rewrite upd_ne in Hy by done. split; [done|]. intros ->. apply Hne.
        by eapply free_lists_disjoint. }
    split; [by exists o', y|]. intros Hpx.
    destruct (Hfb o' y Ho' Hyf) as [Hby Hty]. destruct (Hfb o x Ho Hx) as [_ Htx].
    destruct (inv_heads_disjoint y o' x o Hby Hbx Hyx Hty Htx); unfold inh in *; lia.
  - intros [(o' & y & Ho' & Hy & Hp) Hpx]. exists o', y. split; [done|]. split; [|done].
    destruct (decide (o' = o)) as [->|]; [|by rewrite upd_ne].
    rewrite upd_eq. apply Hl'. split; [done|]. by intros ->.
Qed.

(** The pages of the free lists are the free pages of the metadata. *)
Lemma covered_free_page s fl p :
  inv_hole s fl 0 0 → covered (pmm_max_order s) fl p ↔ free_page s p.
Proof.
  intros H. pose proof (ih_order _ _ _ _ H). unfold covered, free_page.
  split; intros (o & x & Ho & Hx & Hp); exists o, x; (split; [done|split; [|done]]).
  - apply (ih_free _ _ _ _ H) in Hx as [E _]; [|done].
    by destruct (meta_facts o ltac:(lia)) as (-> & _).
  - destruct (meta_facts o ltac:(lia)) as (E & _). rewrite E in Hx.
    apply (ih_free _ _ _ _ H); [done|]. split; [done|]. unfold inh. lia.
Qed.

(** ** Counting pages *)

Lemma length_blocks (f : Z → list Z) os :
  (∀ o, o ∈ os → 0 ≤ o) →
  Z.of_nat (length (os ≫= λ o, f o ≫= λ x, seqZ x (2 ^ o))) =
  foldr (λ o acc, 2 ^ o * Z.of_nat (length (f o)) + acc) 0 os.
Proof.
  assert (∀ o l, 0 ≤ o → Z.of_nat (length (l ≫= λ x, seqZ x (2 ^ o))) =
    2 ^ o * Z.of_nat (length l)) as Hin.
  { intros o l Ho. induction l as [|x l IH]; [simpl; lia|].
    rewrite bind_cons, length_app, Nat2Z.inj_add, IH, length_seqZ.
    pose proof (pow2_pos o Ho). simpl length. lia. }
  induction os as [|o os IH]; intros Hos; [done|].
  rewrite bind_cons, length_app, Nat2Z.inj_add, Hin, IH by set_solver. done.
Qed.

(** The pages of the free blocks, listed without repetition. *)
Lemma free_pages_list s fl a n :
  inv_hole s fl a n →
  ∃ F, NoDup F ∧ Z.of_nat (length F) = free_sum (pmm_max_order s) fl ∧
    ∀ p, p ∈ F ↔ covered (pmm_max_order s) fl p.
Proof.
  intros H. pose proof (ih_order _ _ _ _ H) as HO.
  exists (seqZ 0 (pmm_max_order s + 1) ≫= λ o, fl o ≫= λ x, seqZ x (2 ^ o)).
  assert (∀ o1 o2 y1 y2 p, 0 ≤ o1 ≤ pmm_max_order s → 0 ≤ o2 ≤ pmm_max_order s →
    y1 ∈ fl o1 → y2 ∈ fl o2 → p ∈ seqZ y1 (2 ^ o1) → p ∈ seqZ y2 (2 ^ o2) → y1 = y2) as Hinj.
  { intros o1 o2 y1 y2 p Ho1 Ho2 H1 H2 Hp1%elem_of_seqZ Hp2%elem_of_seqZ.
    destruct (inv_block_free H o1 y1 Ho1 H1) as (Hb1 & Hm1 & _).
    destruct (inv_block_free H o2 y2 Ho2 H2) as (Hb2 & Hm2 & _).
    destruct (decide (y1 = y2)); [done|].
    destruct (inv_heads_disjoint y1 o1 y2 o2 Hb1 Hb2); [done| | |lia|lia];
      rewrite ?Hm1, ?Hm2; intros [= E]; unfold PMM_META_TAIL in E; lia. }
  split; [|split].
  - apply NoDup_bind; [| |apply NoDup_seqZ].
    + intros o1 o2 p Ho1%elem_of_seqZ Ho2%elem_of_seqZ.
      intros (y1 & Hp1 & H1)%list_elem_of_bind (y2 & Hp2 & H2)%list_elem_of_bind.
      assert (y1 = y2) as -> by (eapply (Hinj o1 o2); eauto; lia).
      eapply free_lists_disjoint; eauto; lia.
    + intros o Ho%elem_of_seqZ. apply NoDup_bind.
      * intros y1 y2 p H1 H2 Hp1 Hp2. eapply (Hinj o o); eauto; lia.
      * intros. apply NoDup_seqZ.
      * apply (ih_nodup _ _ _ _ H). lia.
  - apply length_blocks. intros o Ho%elem_of_seqZ. lia.
  - intros p. unfold covered. rewrite list_elem_of_bind. split.
    + intros (o & (y & Hp & Hy)%list_elem_of_bind & Ho%elem_of_seqZ).
      apply elem_of_seqZ in Hp. exists o, y. unfold inh. split; [lia|]. done.
    + intros (o & y & Ho & Hy & Hp). exists o. rewrite elem_of_seqZ. split; [|lia].
      apply list_elem_of_bind. exists y. rewrite elem_of_seqZ. done.
Qed.

(** A region disjoint from the hole and from the free blocks still fits. *)
Lemma inv_count s fl a n x len :
  inv_hole s fl a n → 0 ≤ len → 0 ≤ x → x + len ≤ pmm_total_pages s →
  (∀ p, inh x len p → ¬ inh a n p) →
  (∀ p, inh x len p → ¬ covered (pmm_max_order s) fl p) →
  free_sum (pmm_max_order s) fl + n + len ≤ pmm_total_pages s.
Proof.
  intros H Hlen Hx Hxt Hdh Hdf. pose proof (ih_range _ _ _ _ H) as Hr.
  destruct (free_pages_list s fl a n H) as (F & HnF & HF & HFc).
  assert (NoDup (F ++ seqZ a n ++ seqZ x len)) as Hall.
  { apply NoDup_app. split_and!; [done| |].
    - intros p Hp%HFc Hp'. apply elem_of_app in Hp' as [Hp'%elem_of_seqZ|Hp'%elem_of_seqZ].
      + destruct Hp as (o & y & Ho & Hy & Hp).
        destruct (inv_block_free H o y Ho Hy) as (_ & _ & Hd). by apply (Hd p Hp).
      + by apply (Hdf p).
    - apply NoDup_app. split_and!; [apply NoDup_seqZ| |apply NoDup_seqZ].
      intros p Hp%elem_of_seqZ Hp'%elem_of_seqZ. by apply (Hdh p). }
  pose proof (NoDup_range_length _ (pmm_total_pages s) Hall) as Hle.
  rewrite !length_app, !Nat2Z.inj_add, HF, !length_seqZ in Hle.
  pose proof (ih_total _ _ _ _ H).
  rewrite (Z.max_r 0 (pmm_total_pages s)) in Hle by lia.
  rewrite !Z2Nat.id in Hle by lia. rewrite <-Z.add_assoc. apply Hle.
  intros p Hp. apply elem_of_app in Hp as [(o & y & Ho & Hy & Hp)%HFc|Hp].
  - destruct (inv_block_free H o y Ho Hy) as ([? ? ? ?] & _). unfold inh in Hp. lia.
  - apply elem_of_app in Hp as [Hp%elem_of_seqZ|Hp%elem_of_seqZ]; lia.
Qed.
End pmm_ops.
