(* ===== verification/PmmFree.v ===== *)
(** * Physical memory manager: freeing

    [free_block] coalesces a block with its free buddies; [release_block] and
    [pmm_free_pages] are its callers. *)

From S2P Require Import Prelude Pmm PmmInv PmmHole.

(** Metadata of reserved pages and of used blocks, with the exception of
    the head pages in [P], is the same in both states. *)
Definition keeps_except (s s' : pmm) (P : Z → Prop) : Prop :=
  ∀ y m, 64 ≤ m < 255 →
    pmm_page_meta s' !! y = Some m ↔ pmm_page_meta s !! y = Some m ∧ ¬ P y.

Section free_section.
Implicit Types (s : pmm) (fl : Z → list Z).

(** A region that meets no block can be turned into a hole. *)
Lemma inv_open s fl x len :
  inv_hole s fl 0 0 → 0 ≤ len → 0 ≤ x → x + len ≤ pmm_total_pages s →
  (∀ y m, pmm_page_meta s !! y = Some m → ¬ inh x len y →
     ∀ o, m = o ∨ m = 64 + o → block_at s y o → ∀ p, inh y (2 ^ o) p → ¬ inh x len p) →
  (∀ y, inh x len y → ∀ o, 0 ≤ o ≤ pmm_max_order s → pmm_page_meta s !! y ≠ Some o) →
  inv_hole (set_used (pmm_used_pages s - len) s) fl x len ∧ len ≤ pmm_used_pages s.
Proof.
  intros H Hlen Hx Hxt Hout Hin.
  assert (∀ o y, 0 ≤ o ≤ pmm_max_order s → y ∈ fl o → ¬ inh x len y ∧
    ∀ p, inh y (2 ^ o) p → ¬ inh x len p) as Hfree.
  { intros o y Ho Hy. destruct (inv_block_free H o y Ho Hy) as (Hb & Hm & _).
    assert (¬ inh x len y) as Hn by (intros Hi; by apply (Hin y Hi o Ho)).
    split; [done|]. by apply (Hout y o Hm Hn o (or_introl eq_refl) Hb). }
  assert (free_sum (pmm_max_order s) fl + 0 + len ≤ pmm_total_pages s) as Hc.
  { apply (inv_count s fl 0 0 x len); try done.
    - unfold inh. lia.
    - intros p Hp (o & y & Ho & Hy & Hp').
      destruct (Hfree o y Ho Hy) as [_ Hd]. by apply (Hd p). }
  pose proof (ih_used _ _ _ _ H) as Hu. split; [|lia].
  destruct H as [HT HO Hr Hmd Hnd Hh Hdup Hf Hs _]. split; simpl; try done.
  - intros o y Ho. rewrite (Hf o y Ho). unfold inh at 1. split; [|naive_solver lia].
    intros [Hm _]. split; [done|]. intros Hi. by apply (Hin y Hi o Ho).
  - intros y m Hm Hy. destruct (Hs y m Hm) as [?|[?|(o & E & Hb & _)]];
      [unfold inh; lia|by auto..|].
    right; right. exists o. split_and!; [done|by destruct Hb|].
    by apply (Hout y m Hm Hy o).
  - lia.
Qed.

Lemma inv_open_used s fl x o :
  inv_hole s fl 0 0 → used_block s x o →
  inv_hole (set_used (pmm_used_pages s - 2 ^ o) s) fl x (2 ^ o) ∧
  2 ^ o ≤ pmm_used_pages s ∧ block_at s x o.
Proof.
  intros H [Ho Hm]. pose proof (ih_order _ _ _ _ H) as HO.
  destruct (meta_facts o ltac:(lia)) as (_ & E & _). rewrite E in Hm.
  assert (block_at s x o) as Hb.
  { destruct (ih_shape _ _ _ _ H _ _ Hm) as [E'|[E'|(o' & E' & Hb & _)]].
    - unfold inh. lia.
    - unfold PMM_META_TAIL in E'. lia.
    - change META_RESERVED with 128 in E'. lia.
    - pose proof (ba_order _ _ _ Hb). assert (o' = o) as -> by lia. done. }
  pose proof (pow2_pos o ltac:(lia)). destruct (ba_range _ _ _ Hb).
  assert (pmm_page_meta s !! x ≠ Some PMM_META_TAIL) as Htx.
  { rewrite Hm. unfold PMM_META_TAIL. intros [= ?]. lia. }
  destruct (inv_open s fl x (2 ^ o) H) as [Hh Hle]; [lia..| | |done].
  - intros y m Hmy Hy o' Em Hby p Hp Hp'. pose proof (ba_order _ _ _ Hby).
    destruct (inv_heads_disjoint y o' x o Hby Hb) as [?|?]; unfold inh in *; try done; try lia.
    rewrite Hmy. unfold PMM_META_TAIL. intros [= ?]. lia.
  - intros y Hy o' Ho' Hmy. destruct (decide (y = x)) as [->|].
    + rewrite Hm in Hmy. injection Hmy as ?. lia.
    + rewrite (ba_tail _ _ _ Hb) in Hmy by (unfold inh in Hy; lia).
      unfold PMM_META_TAIL in Hmy. injection Hmy as ?. lia.
Qed.

(** The hole of a freed block contains no other used block and no reserved
    page. *)
Lemma hole_no_used s fl x o y m :
  inv_hole s fl 0 0 → used_block s x o → 64 ≤ m < 255 →
  pmm_page_meta s !! y = Some m → y ≠ x →
  ¬ (covered (pmm_max_order s) fl y ∨ inh x (2 ^ o) y).
Proof.
  intros H Hub Hmr Hm Hyx [(o' & z & Ho' & Hz & Hy)|Hy].
  - pose proof (ih_order _ _ _ _ H).
    destruct (inv_block_free H o' z Ho' Hz) as (Hb & Hmz & _).
    destruct (decide (y = z)) as [->|].
    + rewrite Hm in Hmz. injection Hmz as ->. lia.
    + rewrite (ba_tail _ _ _ Hb) in Hm by (unfold inh in Hy; lia).
      unfold PMM_META_TAIL in Hm. injection Hm as ?. lia.
  - destruct (inv_open_used s fl x o H Hub) as (_ & _ & Hb).
    rewrite (ba_tail _ _ _ Hb) in Hm by (unfold inh in Hy; lia).
    unfold PMM_META_TAIL in Hm. injection Hm as ?. lia.
Qed.

(** State of the coalescing loop: the hole is the block built so far. *)
Definition coalesce s0 fl0 x0 o0 s (st k : Z) : Prop :=
  ∃ fl, inv_hole s fl st (2 ^ k) ∧ 0 ≤ k ≤ pmm_max_order s ∧ (2 ^ k | st) ∧
    stable s0 s ∧ pmm_page_meta s = pmm_page_meta s0 ∧
    (∀ p, covered (pmm_max_order s) fl p ∨ inh st (2 ^ k) p ↔
          covered (pmm_max_order s0) fl0 p ∨ inh x0 (2 ^ o0) p).

Lemma stable_orders s s' :
  stable s s' → pmm_max_order s' = pmm_max_order s ∧
                pmm_total_pages s' = pmm_total_pages s.
Proof. intros [[= ? ?] _]. done. Qed.

(** The buddy of the block in the hole. *)
Lemma buddy_geometry st k T :
  0 ≤ k → 0 ≤ st → (2 ^ k | st) → st + 2 ^ k ≤ T → Z.lxor st (2 ^ k) < T →
  let b := Z.lxor st (2 ^ k) in
  0 ≤ b ∧ ¬ inh st (2 ^ k) b ∧ (2 ^ (k + 1) | Z.min b st) ∧
  (∀ p, inh (Z.min b st) (2 ^ (k + 1)) p ↔ inh st (2 ^ k) p ∨ inh b (2 ^ k) p).
Proof.
  intros Hk Hst Hal HT Hlt b. pose proof (pow2_pos k Hk) as Hp.
  assert (b = Z.lxor st (2 ^ k)) as Eb by done. clearbody b.
  rewrite lxor_buddy in Eb, Hlt by done. rewrite pow2_S by done.
  destruct (Z.even (st / 2 ^ k)) eqn:Ev.
  - rewrite Z.min_r by lia. split_and!; [lia|unfold inh; lia| |].
    + rewrite <-pow2_S by done. by apply divide_even_S.
    + intros p. unfold inh. lia.
  - assert (2 ^ k ≤ st).
    { destruct Hal as [q ->]. rewrite Z.div_mul in Ev by lia.
      assert (q ≠ 0) by (intros ->; done). nia. }
    rewrite Z.min_l by lia. split_and!; [lia|unfold inh; lia| |].
    + subst b. rewrite <-pow2_S by done. by apply divide_odd_S.
    + intros p. unfold inh. lia.
Qed.

Lemma free_meta_shape s fl a n b m k :
  inv_hole s fl a n → pmm_page_meta s !! b = Some m → ¬ inh a n b →
  meta_is_free m = true → meta_order m = k → m = k ∧ 0 ≤ k ≤ pmm_max_order s.
Proof.
  intros H Hm Hn Hf Ho. pose proof (ih_order _ _ _ _ H).
  destruct (ih_shape _ _ _ _ H _ _ Hm Hn) as [->|[->|(o & [->| ->] & Hb & _)]]; [done..| |].
  - pose proof (ba_order _ _ _ Hb).
    destruct (meta_facts o ltac:(lia)) as (_ & _ & _ & _ & E & _). lia.
  - pose proof (ba_order _ _ _ Hb).
    destruct (meta_facts o ltac:(lia)) as (_ & _ & _ & _ & _ & E & _). congruence.
Qed.

(** One merge: the hole grows to the block of the next order. *)
Lemma coalesce_merge s0 fl0 x0 o0 s st k (Q : bool → pmm → Prop) m :
  coalesce s0 fl0 x0 o0 s st k → k < pmm_max_order s →
  let b := Z.lxor st (2 ^ k) in
  b < pmm_total_pages s → pmm_page_meta s !! b = Some m →
  meta_is_free m = true → meta_order m = k →
  (∀ s', coalesce s0 fl0 x0 o0 s' (Z.min b st) (k + 1) → Q true s') →
  wp (remove_free_block b k) Q s.
Proof.
  intros (fl & H & Hk & Hal & Hst & Hmeta & Hcov) Hlt b Hb Hm Hf Hord HQ.
  pose proof (ih_range _ _ _ _ H) as Hr.
  destruct (buddy_geometry st k (pmm_total_pages s)) as (Hb0 & Hnb & Hal' & Hiff);
    [lia|lia|done|lia|done|].
  fold b in Hb0, Hnb, Hal', Hiff.
  destruct (free_meta_shape _ _ _ _ _ _ _ H Hm Hnb Hf Hord) as [-> _].
  assert (b ∈ fl k) as Hbf by (by apply (ih_free _ _ _ _ H)).
  destruct (inv_block_free H k b Hk Hbf) as ([_ _ Hbr _] & _).
  eapply (wp_remove_free_block s fl st (2 ^ k) b k (Z.min b st) (2 ^ (k + 1))); try done.
  - rewrite pow2_S by lia. lia.
  - pose proof (pow2_pos (k + 1)).
    assert (inh (Z.min b st) (2 ^ (k + 1)) (Z.min b st + 2 ^ (k + 1) - 1)) as [Hi|Hi]%Hiff
      by (unfold inh; lia); unfold inh in Hi; lia.
  - intros s' l' H' Hl' Hstab Hm'. apply HQ.
    destruct (stable_orders _ _ Hstab) as [EO ET].
    exists (upd fl k l'). rewrite EO. split_and!; try done; try lia.
    + destruct Hst as [E1 E2], Hstab as [E3 E4]. split; congruence.
    + congruence.
    + intros p. rewrite (covered_remove s fl st (2 ^ k) k b l' p H Hk Hbf Hl'), Hiff.
      rewrite <-Hcov.
      assert (inh b (2 ^ k) p → covered (pmm_max_order s) fl p) by (intros ?; by exists k, b).
      split; [tauto|]. intros [Hc|Hp]; [|tauto].
      destruct (decide (b ≤ p ∧ p < b + 2 ^ k)) as [Hp|Hp]; [unfold inh; tauto|].
      left. split; [done|]. unfold inh. tauto.
Qed.

(** Inserting the coalesced block closes the hole. *)
Lemma wp_coalesce_insert s0 fl0 x0 o0 s st k (Q : unit → pmm → Prop) :
  coalesce s0 fl0 x0 o0 s st k →
  (∀ s' fl', inv_hole s' fl' 0 0 → stable s0 s' →
     (∀ p, covered (pmm_max_order s0) fl' p ↔
           covered (pmm_max_order s0) fl0 p ∨ inh x0 (2 ^ o0) p) →
     (∀ y, ¬ (covered (pmm_max_order s0) fl0 y ∨ inh x0 (2 ^ o0) y) →
        pmm_page_meta s' !! y = pmm_page_meta s0 !! y) → Q tt s') →
  wp (insert_free_block st k) Q s.
Proof.
  intros (fl & H & Hk & Hal & Hst & Hmeta & Hcov) HQ.
  pose proof (ih_total _ _ _ _ H).
  destruct (stable_orders _ _ Hst) as [EO ET].
  eapply (wp_insert_free_block s fl st (2 ^ k) st k 0 0); try done; try lia.
  - unfold inh. lia.
  - intros s' H' Hst' Hm'. eapply HQ; [done| | |].
    + destruct Hst as [E1 E2], Hst' as [E3 E4]. split; congruence.
    + intros p. rewrite <-EO, (covered_cons s), Hcov by done. by rewrite EO.
    + intros y Hy. rewrite <-Hmeta. apply Hm'. intros Hi. apply Hy, Hcov. by right.
Qed.

(** A page of a free block is neither reserved nor the head of a used block. *)
Lemma covered_meta s fl a n p m :
  inv_hole s fl a n → covered (pmm_max_order s) fl p →
  pmm_page_meta s !! p = Some m → ¬ (64 ≤ m < 255).
Proof.
  intros H (o & z & Ho & Hz & Hp) Hm. pose proof (ih_order _ _ _ _ H).
  destruct (inv_block_free H o z Ho Hz) as (Hb & Hmz & _).
  destruct (decide (p = z)) as [->|].
  - rewrite Hm in Hmz. injection Hmz as ->. lia.
  - rewrite (ba_tail _ _ _ Hb) in Hm by (unfold inh in Hp; lia).
    unfold PMM_META_TAIL in Hm. injection Hm as ?. lia.
Qed.

Lemma keeps_except_free s s' fl fl' x o :
  inv_hole s fl 0 0 → used_block s x o → inv_hole s' fl' 0 0 → config s' = config s →
  (∀ p, covered (pmm_max_order s) fl' p ↔
        covered (pmm_max_order s) fl p ∨ inh x (2 ^ o) p) →
  (∀ y, ¬ (covered (pmm_max_order s) fl y ∨ inh x (2 ^ o) y) →
     pmm_page_meta s' !! y = pmm_page_meta s !! y) →
  keeps_except s s' (λ y, y = x).
Proof.
  intros H Hub H' [= ET EO _ _ _ _ _ _] Hcov Hfr y m Hm.
  assert (0 ≤ o) as Ho by (destruct Hub; lia). pose proof (pow2_pos o Ho). split.
  - intros Hy. assert (¬ covered (pmm_max_order s) fl' y) as Hn.
    { intros Hc. rewrite <-EO in Hc. by apply (covered_meta _ _ _ _ _ _ H' Hc Hy). }
    rewrite Hcov in Hn. rewrite <-Hfr by done. split; [done|].
    intros ->. apply Hn. right. unfold inh. lia.
  - intros [Hy Hyx]. rewrite Hfr; [done|]. by eapply hole_no_used.
Qed.

Lemma used_le_total s fl a n :
  inv_hole s fl a n → pmm_used_pages s ≤ pmm_total_pages s - n.
Proof.
  intros H. rewrite (ih_used _ _ _ _ H).
  assert (0 ≤ free_sum (pmm_max_order s) fl); [|lia]. unfold free_sum.
  induction (seqZ 0 (pmm_max_order s + 1)) as [|i l IH]; simpl; [lia|].
  pose proof (Z.pow_nonneg 2 i). lia.
Qed.

Lemma wp_free_block s fl x o (Q : unit → pmm → Prop) :
  inv_hole s fl 0 0 → used_block s x o →
  (∀ s' fl', inv_hole s' fl' 0 0 → config s' = config s →
     pmm_used_pages s' = pmm_used_pages s - 2 ^ o →
     (∀ p, covered (pmm_max_order s) fl' p ↔
           covered (pmm_max_order s) fl p ∨ inh x (2 ^ o) p) →
     keeps_except s s' (λ y, y = x) → Q tt s') →
  wp (free_block x o) Q s.
Proof.
  intros H Hub HQ. pose proof (ih_order _ _ _ _ H) as HO. pose proof (ih_total _ _ _ _ H) as HT.
  destruct (inv_open_used s fl x o H Hub) as (Hh & Hle & Hb).
  pose proof (ba_order _ _ _ Hb) as Ho. pose proof (pow2_pos o ltac:(lia)).
  pose proof (used_le_total _ _ _ _ H).
  unfold free_block. apply wp_bind, wp_modify.
  rewrite order_pages_pow2, u64_small by lia. wp_steps.
  set (s1 := set_used (pmm_used_pages s - 2 ^ o) s) in *.
  apply (wp_while_idx _ _ (λ v '(st, k) s', v = pmm_max_order s - k ∧
    coalesce s1 fl x o s' st k) _ (pmm_max_order s - o)).
  { split; [done|]. exists fl. split; [done|]. split; [simpl; lia|].
    split; [by destruct Hb|]. done. }
  { simpl. lia. }
  intros v [st k] s' [-> Hc].
  assert (pmm_max_order s' = pmm_max_order s ∧ pmm_total_pages s' = pmm_total_pages s) as [EO ET].
  { destruct Hc as (? & _ & _ & _ & Hs & _). by destruct (stable_orders _ _ Hs). }
  assert (0 ≤ k ≤ pmm_max_order s) as Hk.
  { destruct Hc as (? & _ & Hk & _). by rewrite EO in Hk. }
  assert (wp (insert_free_block st k) Q s') as Hdone.
  { eapply wp_coalesce_insert; [done|]. intros s2 fl2 H2 [Hcfg Hu] Hcov Hfr.
    apply (HQ s2 fl2); try done. by eapply keeps_except_free. }
  simpl pmm_max_order. simpl pmm_total_pages.
  destruct (Z.ltb_spec k (pmm_max_order s)) as [Hlt|_]; [|by apply wp_ret].
  rewrite order_pages_pow2 by lia.
  destruct (Z.leb_spec (pmm_total_pages s) (Z.lxor st (2 ^ k))) as [_|Hbud]; [by apply wp_ret|].
  assert (is_Some (pmm_page_meta s' !! Z.lxor st (2 ^ k))) as [m Hm].
  { destruct Hc as (fl1 & Hi & _ & Hal & _). apply (ih_meta_dom _ _ _ _ Hi).
    pose proof (ih_range _ _ _ _ Hi). rewrite ET.
    split; [|done]. rewrite <-ET in Hbud.
    apply (buddy_geometry st k (pmm_total_pages s')); try done; lia. }
  apply wp_bind. eapply wp_rd_meta; [exact Hm|].
  destruct (negb (meta_is_free m) || negb (meta_order m =? k)) eqn:E; [by apply wp_ret|].
  b2p. apply wp_bind. eapply coalesce_merge; try done; try lia.
  intros s2 Hc2. simpl. apply wp_ret. exists (pmm_max_order s - (k + 1)).
  rewrite u8_small by lia. split; [lia|]. split; [done|].
  replace (if Z.lxor st (2 ^ k) <? st then Z.lxor st (2 ^ k) else st)
    with (Z.min (Z.lxor st (2 ^ k)) st) by (bool_cases; lia). done.
Qed.
End free_section.
