(* ===== verification/PmmAlloc.v ===== *)
(** * Physical memory manager: allocating

    [block_can_satisfy], the splitting loop and [alloc_pages_range_locked]. *)

From S2P Require Import Prelude Pmm PmmInv PmmHole PmmFree.

(** ** The order of a request *)

Lemma order_for_pages_loop_spec fuel mo o pages count :
  0 ≤ o ≤ mo → mo < 63 → pages = 2 ^ o → (Z.to_nat (mo - o) ≤ fuel)%nat →
  (o = 0 ∨ 2 ^ (o - 1) < count) →
  let '(o', pages') := order_for_pages_loop fuel mo o pages count in
  o ≤ o' ≤ mo ∧ pages' = 2 ^ o' ∧ (pages' < count → o' = mo) ∧
  (o' = 0 ∨ 2 ^ (o' - 1) < count).
Proof.
  revert o pages. induction fuel as [|f IH]; intros o pages Ho Hmo -> Hf Hprev; simpl.
  - split; [lia|]. split; [done|]. split; [lia|done].
  - destruct ((2 ^ o <? count) && (o <? mo)) eqn:E; b2p.
    + assert (u64 (Z.shiftl (2 ^ o) 1) = 2 ^ (o + 1)) as E2.
      { rewrite Z.shiftl_mul_pow2, pow2_S by lia. rewrite u64_small; [lia|].
        assert (2 ^ o ≤ 2 ^ 62) by (apply pow2_le; lia).
        pose proof (pow2_pos o ltac:(lia)). lia. }
      rewrite E2, u8_small by lia.
      pose proof (IH (o + 1) (2 ^ (o + 1)) ltac:(lia) Hmo eq_refl ltac:(lia)) as IH'.
      replace (o + 1 - 1) with o in IH' by lia.
      destruct (order_for_pages_loop f mo (o + 1) (2 ^ (o + 1)) count).
      destruct IH' as (? & ? & ? & ?); [by right|]. split; [lia|done].
    + split; [lia|]. split; [done|]. split; [|done]. destruct E; b2p; lia.
Qed.

(** [order_for_pages] is the least order whose block holds [count] pages, or
    [0xFF] when no order up to the maximum does. *)
Lemma order_for_pages_spec mo count :
  0 ≤ mo < 63 → 1 ≤ count →
  (order_for_pages mo count = 0xFF ∧ 2 ^ mo < count) ∨
  (0 ≤ order_for_pages mo count ≤ mo ∧ count ≤ 2 ^ order_for_pages mo count ∧
   ∀ o, 0 ≤ o < order_for_pages mo count → 2 ^ o < count).
Proof.
  intros Hmo Hc. unfold order_for_pages.
  pose proof (order_for_pages_loop_spec (Z.to_nat mo) mo 0 1 count) as H.
  destruct (order_for_pages_loop (Z.to_nat mo) mo 0 1 count) as [o pages].
  destruct H as (Ho & -> & Hlt & Hprev); [lia|lia|done|lia|by left|].
  destruct (Z.ltb_spec (2 ^ o) count).
  - left. split; [done|]. by rewrite <-Hlt.
  - right. split; [lia|]. split; [done|]. intros o' Ho'.
    destruct Hprev as [->|Hprev]; [lia|].
    assert (2 ^ o' ≤ 2 ^ (o - 1)) by (apply pow2_le; lia). lia.
Qed.

(** ** Which blocks satisfy a request *)

Lemma can_satisfy_spec x b t lo hi :
  0 ≤ t ≤ b → b < 63 → 0 ≤ x → x + 2 ^ b ≤ 2 ^ 52 → 0 ≤ lo → 0 ≤ hi ≤ 2 ^ 52 →
  block_can_satisfy x b t lo hi = true ↔
  ∃ c, (2 ^ t | c) ∧ Z.max x lo ≤ c ∧ c + 2 ^ t ≤ Z.min (x + 2 ^ b) hi.
Proof.
  intros Ht Hb Hx Hx2 Hlo Hhi. unfold block_can_satisfy.
  rewrite !order_pages_pow2 by lia.
  pose proof (pow2_pos b ltac:(lia)). pose proof (pow2_pos t ltac:(lia)).
  assert (2 ^ t ≤ 2 ^ b) by (apply pow2_le; lia).
  rewrite (u64_small (x + 2 ^ b)) by lia.
  replace (if x <? lo then lo else x) with (Z.max x lo) by (bool_cases; lia).
  replace (if hi <? x + 2 ^ b then hi else x + 2 ^ b) with (Z.min (x + 2 ^ b) hi)
    by (bool_cases; lia).
  set (rs := Z.max x lo). set (re := Z.min (x + 2 ^ b) hi).
  assert (0 ≤ rs) by lia. assert (re ≤ 2 ^ 52) by lia.
  destruct (Z.leb_spec re rs) as [Hre|Hre]; simpl.
  { split; [done|]. intros (c & _ & ? & ?). lia. }
  rewrite (u64_small (re - rs)) by lia.
  destruct (Z.ltb_spec (re - rs) (2 ^ t)).
  { split; [done|]. intros (c & _ & ? & ?). lia. }
  assert (rs + 2 ^ t - 1 < 2 ^ 64) by lia.
  destruct (align_up_bounds rs t) as [? ?]; [lia..|].
  rewrite u64_small, Z.leb_le by lia. split.
  - intros. exists (align_up rs (2 ^ t)). split; [done|]. lia.
  - intros (c & Hc & ? & ?). assert (align_up rs (2 ^ t) ≤ c); [|lia].
    apply align_up_least; try done; lia.
Qed.

(** If a block can satisfy the request then one of its halves can: the
    [return 0] inside the splitting loop is unreachable. *)
Lemma can_satisfy_split x k t lo hi :
  0 ≤ t ≤ k → k + 1 < 63 → 0 ≤ x → (2 ^ (k + 1) | x) → x + 2 ^ (k + 1) ≤ 2 ^ 52 →
  0 ≤ lo → 0 ≤ hi ≤ 2 ^ 52 →
  block_can_satisfy x (k + 1) t lo hi = true →
  block_can_satisfy x k t lo hi = true ∨
  block_can_satisfy (x + 2 ^ k) k t lo hi = true.
Proof.
  intros Ht Hk Hx Hal Hx2 Hlo Hhi. rewrite pow2_S in * by lia.
  pose proof (pow2_pos k ltac:(lia)).
  rewrite can_satisfy_spec, pow2_S by (rewrite ?pow2_S; lia). intros (c & Hc & Hc1 & Hc2).
  rewrite !can_satisfy_spec by lia.
  destruct (decide (x + 2 ^ k ≤ c)); [right; exists c; split; [done|lia]|].
  left. exists c. split; [done|]. split; [lia|].
  assert (2 ^ t | x + 2 ^ k - c) as [q Hq].
  { apply Z.divide_sub_r; [|done]. apply Z.divide_add_r; [|by apply pow2_divide].
    etrans; [apply (pow2_divide t k); lia|]. etrans; [|done]. by apply Z.divide_factor_r. }
  pose proof (pow2_pos t ltac:(lia)). assert (1 ≤ q) by nia. nia.
Qed.

Lemma can_satisfy_exact x t lo hi :
  0 ≤ t < 63 → 0 ≤ x → x + 2 ^ t ≤ 2 ^ 52 → 0 ≤ lo → 0 ≤ hi ≤ 2 ^ 52 →
  block_can_satisfy x t t lo hi = true → lo ≤ x ∧ x + 2 ^ t ≤ hi.
Proof.
  intros ? ? ? ? ? (c & _ & ? & ?)%can_satisfy_spec; lia.
Qed.

Section alloc_section.
Implicit Types (s : pmm) (fl : Z → list Z).

(** State of the splitting loop: the hole is the part of the unlinked block
    [x0] (of order [o0]) that is still being split. *)
Definition carve s0 fl0 (x0 o0 : Z) s (b k : Z) : Prop :=
  ∃ fl, inv_hole s fl b (2 ^ k) ∧ 0 ≤ k ≤ o0 ∧ (2 ^ k | b) ∧ stable s0 s ∧
    (∀ p, inh b (2 ^ k) p → inh x0 (2 ^ o0) p) ∧
    (∀ p, covered (pmm_max_order s) fl p ∨ inh b (2 ^ k) p ↔
          covered (pmm_max_order s0) fl0 p) ∧
    (∀ y, ¬ inh x0 (2 ^ o0) y → pmm_page_meta s !! y = pmm_page_meta s0 !! y).

Lemma stable_trans s1 s2 s3 : stable s1 s2 → stable s2 s3 → stable s1 s3.
Proof. intros [? ?] [? ?]. split; congruence. Qed.

(** Writing metadata inside the hole. *)
Lemma carve_fill s0 fl0 x0 o0 s b k x j hm (Q : unit → pmm → Prop) :
  carve s0 fl0 x0 o0 s b k → 0 ≤ j ≤ k → o0 < 63 →
  (∀ p, inh x (2 ^ j) p → inh b (2 ^ k) p) →
  (∀ s', carve s0 fl0 x0 o0 s' b k → Q tt s') →
  wp (set_block_meta x j hm) Q s.
Proof.
  intros (fl & H & Hk & Hal & Hst & Hsub & Hcov & Hfr) Hj Ho0 Hx HQ.
  pose proof (ih_range _ _ _ _ H). pose proof (ih_total _ _ _ _ H).
  pose proof (pow2_pos j ltac:(lia)).
  assert (inh b (2 ^ k) x) by (apply Hx; unfold inh; lia).
  assert (inh b (2 ^ k) (x + 2 ^ j - 1)) by (apply Hx; unfold inh; lia).
  apply wp_set_block_meta; [lia|unfold inh in *; lia..| |].
  { intros i Hi%Hx. apply (ih_meta_dom _ _ _ _ H). unfold inh in Hi. lia. }
  intros m' Hm'. apply HQ. exists fl. split.
  { apply inv_hole_meta; [done|..].
    - intros i Hi. eapply filled_outside; [done|done|]. intros ?. by apply Hi, Hx.
    - intros i Hi. rewrite (Hm' i). repeat case_decide; try done.
      apply (ih_meta_dom _ _ _ _ H). unfold inh in Hi. lia. }
  split; [done|]. split; [done|]. split; [done|]. split; [done|]. split; [done|].
  intros y Hy. rewrite <-Hfr by done. simpl. eapply filled_outside; [done|done|].
  intros ?. by apply Hy, Hsub, Hx.
Qed.

(** Giving one half of the hole back to a free list. *)
Lemma carve_half s0 fl0 x0 o0 s b k x b' (Q : unit → pmm → Prop) :
  carve s0 fl0 x0 o0 s b (k + 1) → 0 ≤ k → o0 < 63 → o0 ≤ pmm_max_order s0 →
  (x = b + 2 ^ k ∧ b' = b) ∨ (x = b ∧ b' = b + 2 ^ k) →
  (∀ s', carve s0 fl0 x0 o0 s' b' k → Q tt s') →
  wp (insert_free_block x k) Q s.
Proof.
  intros (fl & H & Hk & Hal & Hst & Hsub & Hcov & Hfr) Hk0 Ho0 Hmo Hx HQ.
  destruct (stable_orders _ _ Hst) as [EO ET]. pose proof (pow2_pos k Hk0).
  pose proof (ih_range _ _ _ _ H) as Hr. rewrite pow2_S in * by lia.
  assert (2 ^ k | b) as Hb.
  { etrans; [|done]. apply Z.divide_factor_r. }
  assert ((2 ^ k | x) ∧ (2 ^ k | b')) as [Hxa Hba].
  { destruct Hx as [[-> ->]|[-> ->]]; split; try done;
      (apply Z.divide_add_r; [done|by apply Z.divide_refl]). }
  eapply (wp_insert_free_block s fl b (2 * 2 ^ k) x k b' (2 ^ k)); try done; try lia.
  - intros p. unfold inh. lia.
  - intros p. unfold inh. lia.
  - intros s' H' Hst' Hm'. apply HQ. exists (upd fl k (x :: fl k)).
    destruct (stable_orders _ _ Hst') as [EO' _].
    split; [done|]. split; [lia|]. split; [done|].
    split; [by eapply stable_trans|]. split.
    { intros p Hp. apply Hsub. unfold inh in *. lia. }
    split.
    + intros p. rewrite EO', (covered_cons s) by lia. rewrite <-Hcov. unfold inh.
      split; [|tauto || (intros [?|?]; [tauto|])]; [intros [[?|?]|?]; [tauto|right; lia|right; lia]|].
      destruct (decide (x ≤ p ∧ p < x + 2 ^ k)); [tauto|right; lia].
    + intros y Hy. rewrite <-Hfr by done. apply Hm'. intros Hi. apply Hy, Hsub.
      unfold inh in *. lia.
Qed.

Lemma wp_split_loop s0 fl0 x0 o0 t lo hi s (Q : option Z → pmm → Prop) :
  carve s0 fl0 x0 o0 s x0 o0 → 0 ≤ t ≤ o0 → o0 ≤ pmm_max_order s0 →
  0 ≤ lo → 0 ≤ hi ≤ pmm_total_pages s0 →
  block_can_satisfy x0 o0 t lo hi = true →
  (∀ s' b, carve s0 fl0 x0 o0 s' b t → block_can_satisfy b t t lo hi = true →
     Q (Some b) s') →
  wp (split_loop o0 t lo hi x0) Q s.
Proof.
  intros Hc Ht Hmo Hlo Hhi Hsat HQ. unfold split_loop.
  assert (o0 < 63 ∧ pmm_total_pages s0 < 2 ^ 52) as [Ho63 HT].
  { destruct Hc as (fl & H & _ & _ & Hst & _). destruct (stable_orders _ _ Hst) as [EO ET].
    pose proof (ih_order _ _ _ _ H). pose proof (ih_total _ _ _ _ H). lia. }
  apply (wp_while_idx _ _ (λ v '(b, k) s', v = k - t ∧ t ≤ k ≤ o0 ∧
    carve s0 fl0 x0 o0 s' b k ∧ block_can_satisfy b k t lo hi = true) _ (o0 - t));
    [split; [done|split; [lia|done]]|lia|].
  intros v [b k] s' (-> & Hk & Hcb & Hsb).
  destruct (Z.ltb_spec t k) as [Hlt|]; [|apply wp_ret].
  2:{ assert (k = t) as -> by lia. by apply HQ. }
  assert (0 ≤ b ∧ b + 2 ^ k ≤ pmm_total_pages s0 ∧ (2 ^ k | b)) as (Hb0 & HbT & Hal).
  { destruct Hcb as (fl & H & _ & Hal & Hst & _). destruct (stable_orders _ _ Hst) as [_ ET].
    pose proof (ih_range _ _ _ _ H). split; [lia|]. split; [lia|done]. }
  rewrite (u8_small (k - 1)) by lia.
  replace k with (k - 1 + 1) in Hcb, Hsb, Hal, HbT by lia.
  set (j := k - 1) in *. assert (0 ≤ j < 62) by lia.
  rewrite order_pages_pow2 by lia. pose proof (pow2_pos j ltac:(lia)).
  rewrite pow2_S in HbT by lia. rewrite u64_small by lia.
  pose proof (can_satisfy_split b j t lo hi) as Hsplit.
  rewrite pow2_S in Hsplit by lia. rewrite pow2_S in Hal by lia.
  destruct (block_can_satisfy b j t lo hi) eqn:El; simpl.
  - apply wp_bind. eapply (carve_fill _ _ _ _ _ b (j + 1) b j); [done|lia|lia| |].
    { rewrite pow2_S by lia. unfold inh. lia. }
    intros s1 Hc1. apply wp_bind.
    eapply (carve_half _ _ _ _ _ b j (b + 2 ^ j) b); [done|lia|lia|done|by left|].
    intros s2 Hc2. apply wp_ret. exists (j - t). split; [lia|]. split; [done|]. split; [lia|done].
  - destruct (block_can_satisfy (b + 2 ^ j) j t lo hi) eqn:Er; simpl.
    2:{ destruct Hsplit; try done; lia. }
    apply wp_bind. eapply (carve_fill _ _ _ _ _ b (j + 1) (b + 2 ^ j) j); [done|lia|lia| |].
    { rewrite pow2_S by lia. unfold inh. lia. }
    intros s1 Hc1. apply wp_bind.
    eapply (carve_half _ _ _ _ _ b j b (b + 2 ^ j)); [done|lia|lia|done|by right|].
    intros s2 Hc2. apply wp_ret. exists (j - t). split; [lia|]. split; [done|]. split; [lia|done].
Qed.

(** The effect of allocating the block [b] of order [t]. *)
Record alloc_ok s fl s' fl' (b t : Z) : Prop := {
  ao_inv : inv_hole s' fl' 0 0;
  ao_config : config s' = config s;
  ao_used : pmm_used_pages s' = pmm_used_pages s + 2 ^ t;
  ao_order : 0 ≤ t ≤ pmm_max_order s;
  ao_align : (2 ^ t | b);
  ao_was_free : ∀ p, inh b (2 ^ t) p → covered (pmm_max_order s) fl p;
  ao_covered : ∀ p, covered (pmm_max_order s) fl' p ↔
                    covered (pmm_max_order s) fl p ∧ ¬ inh b (2 ^ t) p;
  ao_meta : ∀ y m, 64 ≤ m < 255 →
    pmm_page_meta s' !! y = Some m ↔
    pmm_page_meta s !! y = Some m ∨ (y = b ∧ m = 64 + t)
}.

(** Marking the carved block used completes the allocation. *)
Lemma carve_done s fl x o s1 b t m' :
  inv_hole s fl 0 0 → x ∈ fl o → 0 ≤ o ≤ pmm_max_order s →
  carve s fl x o s1 b t → 0 ≤ t →
  filled (pmm_page_meta s1) m' b (2 ^ t) (meta_make_used t) →
  ∃ fl', alloc_ok s fl (set_used (pmm_used_pages s1 + 2 ^ t) (set_meta_arr m' s1)) fl' b t.
Proof.
  intros H Hx Ho (fl' & H1 & Ht & Hal & Hst & Hsub & Hcov & Hfr) Ht0 Hm'.
  destruct (stable_orders _ _ Hst) as [EO ET]. pose proof (pow2_pos t Ht0) as Hpos.
  pose proof (ih_order _ _ _ _ H) as HO. rewrite EO in Hcov.
  assert (0 ≤ t ≤ pmm_max_order s1) as Ht1 by lia.
  pose proof (inv_hole_mark_used s1 fl' b t m' H1 Ht1 Hal Hm') as H2.
  exists fl'. destruct (meta_facts t ltac:(lia)) as (_ & Emu & _).
  assert (∀ p, inh x (2 ^ o) p → covered (pmm_max_order s) fl p) as Hxc
    by (intros p Hp; by exists o, x).
  split; try done; try lia.
  - by destruct Hst.
  - simpl. by destruct Hst as [_ ->].
  - intros p Hp. apply Hcov. by right.
  - intros p. rewrite <-Hcov. split; [|tauto]. intros Hc. split; [by left|]. intros Hp.
    destruct Hc as (o' & z & Ho' & Hz & Hpz). rewrite <-EO in Ho'.
    destruct (inv_block_free H1 o' z Ho' Hz) as (_ & _ & Hd). by apply (Hd p).
  - intros y m Hm. simpl. destruct (decide (b ≤ y ∧ y < b + 2 ^ t)) as [Hy|Hy].
    + split.
      * rewrite (Hm' y), Emu. case_decide; [naive_solver|].
        rewrite decide_True by lia. unfold PMM_META_TAIL. intros [= <-]. lia.
      * intros [Hs|[-> ->]]; [|by rewrite (Hm' b), decide_True, Emu].
        exfalso. by apply (covered_meta _ _ _ _ _ _ H (Hxc y (Hsub y Hy)) Hs).
    + rewrite (filled_outside _ _ _ _ _ _ Hpos Hm' Hy).
      destruct (decide (x ≤ y ∧ y < x + 2 ^ o)) as [Hyx|Hyx].
      * split; [intros Hs; exfalso|].
        -- destruct (proj2 (Hcov y) (Hxc y Hyx)) as [Hc|?]; [|done]. rewrite <-EO in Hc.
           by apply (covered_meta _ _ _ _ _ _ H1 Hc Hs).
        -- intros [Hs|[-> _]]; [|exfalso; lia].
           exfalso. by apply (covered_meta _ _ _ _ _ _ H (Hxc y Hyx) Hs).
      * rewrite Hfr by done. split; [by left|]. intros [?|[-> _]]; [done|lia].
Qed.

Lemma wp_take_block s fl o t lo hi l1 x l2 next (Q : Z → pmm → Prop) :
  inv_hole s fl 0 0 → 0 ≤ t ≤ o → o ≤ pmm_max_order s → fl o = l1 ++ x :: l2 →
  pmm_free_next s !! x = Some next → chain (pmm_free_next s) next l2 →
  1 ≤ lo → 0 ≤ hi ≤ pmm_total_pages s → block_can_satisfy x o t lo hi = true →
  (∀ s' fl' b, alloc_ok s fl s' fl' b t → lo ≤ b → b + 2 ^ t ≤ hi →
     Q (b * PAGE_SIZE) s') →
  wp (take_block o t lo hi (default PMM_INVALID_PAGE (last l1)) x next) Q s.
Proof.
  intros H Ht Ho Hfl Hnext Hch Hlo Hhi Hsat HQ. unfold take_block.
  assert (x ∈ fl o) as Hx by (rewrite Hfl; set_solver).
  destruct (inv_block_free H o x) as (Hbx & Hmx & _); [lia|done|].
  pose proof (ba_range _ _ _ Hbx) as Hbr. pose proof (ba_align _ _ _ Hbx) as Hba.
  pose proof (ih_order _ _ _ _ H) as HO. pose proof (ih_total _ _ _ _ H) as HT.
  pose proof (pow2_pos o ltac:(lia)) as Hpo. pose proof (pow2_pos t ltac:(lia)) as Hpt.
  apply wp_bind. eapply (wp_unlink_block s fl 0 0 o l1 x l2 next x (2 ^ o)); try done; try lia.
  { intros p. unfold inh. lia. }
  intros s1 H1 Hst1 Hm1. destruct (stable_orders _ _ Hst1) as [EO1 ET1].
  assert (carve s fl x o s1 x o) as Hc.
  { exists (upd fl o (l1 ++ l2)). split; [done|]. split; [lia|]. split; [done|].
    split; [done|]. split; [done|]. split; [|by rewrite Hm1].
    intros p. rewrite EO1, (covered_remove s fl 0 0 o x); try done; try lia.
    - split; [|intros Hp]; [intros [[? _]|?]; [done|by exists o, x; (split; [lia|done])]|].
      destruct (decide (x ≤ p ∧ p < x + 2 ^ o)); [by right|by left].
    - intros y. rewrite Hfl. pose proof (ih_nodup _ _ _ _ H o ltac:(lia)) as Hnd.
      rewrite Hfl in Hnd. apply NoDup_app in Hnd as (_ & Hd & Hn2).
      apply NoDup_cons in Hn2 as [? _]. specialize (Hd x). set_solver. }
  apply wp_bind. eapply wp_split_loop; try done; try lia.
  intros s2 b Hc2 Hsb.
  assert (0 ≤ b ∧ b + 2 ^ t ≤ pmm_total_pages s ∧
    (∀ i, inh b (2 ^ t) i → is_Some (pmm_page_meta s2 !! i)) ∧
    0 ≤ pmm_used_pages s2 ∧ pmm_used_pages s2 ≤ pmm_total_pages s) as (Hb0 & HbT & Hdom & Hu0 & Hu).
  { destruct Hc2 as (fl2 & H2 & _ & _ & Hst2 & _). destruct (stable_orders _ _ Hst2) as [EO2 ET2].
    pose proof (ih_range _ _ _ _ H2). split; [lia|]. split; [lia|]. split.
    - intros i Hi. apply (ih_meta_dom _ _ _ _ H2). unfold inh in Hi. lia.
    - pose proof (used_le_total _ _ _ _ H2). rewrite (ih_used _ _ _ _ H2) in *.
      assert (free_sum (pmm_max_order s2) fl2 + 2 ^ t + 0 ≤ pmm_total_pages s2) by
        (apply (inv_count s2 fl2 b (2 ^ t) 0 0 H2); unfold inh; lia). lia. }
  destruct (can_satisfy_exact b t lo hi) as [Hbl Hbh]; [lia..|done|].
  apply wp_bind, wp_set_block_meta; [lia|lia|lia|done|]. intros m' Hm'.
  wp_steps. simpl. rewrite order_pages_pow2, !u64_small by (unfold PAGE_SIZE; lia).
  destruct (carve_done s fl x o s2 b t m' H Hx ltac:(lia) Hc2 ltac:(lia) Hm') as [fl' Hok].
  by eapply HQ.
Qed.

Lemma wp_scan_order s fl t lo hi o (Q : option Z → pmm → Prop) :
  inv_hole s fl 0 0 → 0 ≤ t ≤ o → o ≤ pmm_max_order s →
  1 ≤ lo → 0 ≤ hi ≤ pmm_total_pages s →
  (∀ s' fl' b, alloc_ok s fl s' fl' b t → lo ≤ b → b + 2 ^ t ≤ hi →
     Q (Some (b * PAGE_SIZE)) s') →
  ((∀ x, x ∈ fl o → block_can_satisfy x o t lo hi = false) → Q None s) →
  wp (scan_order t lo hi o) Q s.
Proof.
  intros H Ht Ho Hlo Hhi Hsome Hnone. unfold scan_order.
  destruct (ih_heads _ _ _ _ H o) as (h & Hh & Hc); [lia|].
  pose proof (inv_list_length H o ltac:(lia)) as Hlen.
  apply wp_bind. eapply wp_rd_head; [exact Hh|]. wp_steps.
  apply (wp_while_idx _ _ (λ v '(prev, cur) s1, s1 = s ∧ ∃ l1 l2,
    v = Z.of_nat (length l2) ∧ at_pos s fl o prev cur l1 l2 ∧
    (∀ x, x ∈ l1 → block_can_satisfy x o t lo hi = false)) _
    (Z.of_nat (length (fl o)))); [|lia|].
  { split; [done|]. exists [], (fl o). split; [done|]. split; [done|]. set_solver. }
  intros v [prev cur] s1 (-> & l1 & l2 & -> & Hp & Hno).
  destruct (Z.eqb_spec cur PMM_INVALID_PAGE) as [->|Hcur].
  { apply wp_ret, Hnone. destruct Hp as (Hfl & Hc2 & _).
    apply chain_head_nil in Hc2 as ->. by rewrite Hfl, app_nil_r. }
  destruct (at_pos_next _ _ _ _ _ _ _ Hp Hcur) as (l2' & next & -> & Hnext & Hc' & Hp').
  destruct Hp as (Hfl & _ & ->). apply wp_bind. eapply wp_rd_next; [done|].
  destruct (block_can_satisfy cur o t lo hi) eqn:Hsat; simpl.
  - apply wp_bind. eapply (wp_take_block s fl o t lo hi l1 cur l2' next); done.
  - apply wp_ret. exists (Z.of_nat (length l2')). split; [simpl; lia|]. split; [done|].
    exists (l1 ++ [cur]), l2'. split; [done|]. split; [done|].
    intros x Hx. apply elem_of_app in Hx as [Hx|Hx]; [by apply Hno|].
    apply list_elem_of_singleton in Hx as ->. done.
Qed.

(** The page bounds computed from the physical bounds of the request. *)
Definition req_min (min_phys : Z) : Z :=
  Z.max 1 (align_up min_phys PAGE_SIZE / PAGE_SIZE).
Definition req_max s (max_phys : Z) : Z :=
  Z.min (pmm_total_pages s) (max_phys / PAGE_SIZE).

(** No free block of any order can serve the request. *)
Definition no_candidate s fl (t min_phys max_phys : Z) : Prop :=
  ∀ o x, t ≤ o ≤ pmm_max_order s → x ∈ fl o →
    block_can_satisfy x o t (req_min min_phys) (req_max s max_phys) = false.

(** Outcome of [alloc_pages_range_locked]: a block of the least sufficient
    order inside the page bounds, or 0, with the state unchanged, because the
    request is empty, too large, or has no candidate block. *)
Definition alloc_outcome s fl (count min_phys max_phys : Z) (phys : Z) s' : Prop :=
  let t := order_for_pages (pmm_max_order s) count in
  (∃ fl' b, phys = b * PAGE_SIZE ∧ alloc_ok s fl s' fl' b t ∧ count ≤ 2 ^ t ∧
     req_min min_phys ≤ b ∧ b + 2 ^ t ≤ req_max s max_phys) ∨
  (phys = 0 ∧ s' = s ∧
     (count = 0 ∨ req_max s max_phys ≤ req_min min_phys ∨
      2 ^ pmm_max_order s < count ∨ no_candidate s fl t min_phys max_phys)).

Lemma wp_alloc s fl count min_phys max_phys (Q : Z → pmm → Prop) :
  inv_hole s fl 0 0 → 0 ≤ count → 0 ≤ min_phys → 0 ≤ max_phys →
  (∀ phys s', alloc_outcome s fl count min_phys max_phys phys s' → Q phys s') →
  wp (alloc_pages_range_locked count min_phys max_phys) Q s.
Proof.
  intros H Hc Hmin Hmax HQ. unfold alloc_pages_range_locked.
  pose proof (ih_order _ _ _ _ H) as HO. pose proof (ih_total _ _ _ _ H) as HT. wp_steps.
  destruct (Z.eqb_spec count 0) as [->|Hc0]; simpl.
  { apply wp_ret, HQ. right. split; [done|]. split; [done|]. auto. }
  rewrite (proj2 (Z.eqb_neq (pmm_total_pages s) 0)) by lia.
  replace (if align_up min_phys PAGE_SIZE / PAGE_SIZE <? 1 then 1
           else align_up min_phys PAGE_SIZE / PAGE_SIZE) with (req_min min_phys)
    by (unfold req_min; bool_cases; lia).
  replace (if pmm_total_pages s <? max_phys / PAGE_SIZE then pmm_total_pages s
           else max_phys / PAGE_SIZE) with (req_max s max_phys)
    by (unfold req_max; bool_cases; lia).
  assert (1 ≤ req_min min_phys) as Hlo by (unfold req_min; lia).
  assert (0 ≤ req_max s max_phys ≤ pmm_total_pages s) as Hhi.
  { unfold req_max. assert (0 ≤ max_phys / PAGE_SIZE) by (apply Z.div_pos; unfold PAGE_SIZE; lia). lia. }
  destruct (Z.leb_spec (req_max s max_phys) (req_min min_phys)).
  { apply wp_ret, HQ. right. split; [done|]. split; [done|]. auto. }
  destruct (order_for_pages_spec (pmm_max_order s) count) as [[E Hbig]|(Ht & Hct & _)]; [lia..| |].
  { rewrite E, Z.eqb_refl. apply wp_ret, HQ. right. split; [done|]. split; [done|]. auto. }
  rewrite (proj2 (Z.eqb_neq (order_for_pages _ _) 0xFF)) by lia.
  set (t := order_for_pages (pmm_max_order s) count) in *. apply wp_bind.
  apply (wp_for _ _ _ (λ o s', s' = s ∧ ∀ o' x, t ≤ o' < o → x ∈ fl o' →
    block_can_satisfy x o' t (req_min min_phys) (req_max s max_phys) = false)).
  - lia.
  - split; [done|]. intros. lia.
  - intros o s' Ho [-> Hno]. eapply wp_scan_order; [done|lia|lia|lia|lia| |].
    + intros s' fl' b Hok Hb1 Hb2. apply wp_ret, HQ. left. exists fl', b. auto.
    + intros Hnone. split; [done|]. intros o' x Ho' Hx.
      destruct (decide (o' = o)) as [->|]; [by apply Hnone|]. apply Hno; [lia|done].
  - intros s' [-> Hno]. apply wp_ret, HQ. right. split; [done|]. split; [done|].
    do 3 right. intros o x Ho Hx. apply Hno; [lia|done].
Qed.
End alloc_section.
