(* ===== verification/PmmRanges.v ===== *)
(** * Physical memory manager: ranges of physical memory

    [sort_ranges], [normalize_ranges] and [find_region_base] on arrays of
    [struct phys_range]. *)

From S2P Require Import Prelude Pmm PmmInv PmmHole PmmFree.

Implicit Types (r g : phys_range) (rs gs : list phys_range).

(** The addresses of a range, and of an array of ranges. *)
Definition in_range r (x : Z) : Prop := pr_start r ≤ x < pr_end r.
Definition in_ranges rs (x : Z) : Prop := ∃ r, r ∈ rs ∧ in_range r x.

(** Nonempty ranges in increasing order with a gap between neighbours. *)
Fixpoint separated (lo : Z) rs : Prop :=
  match rs with
  | [] => True
  | r :: rs' => lo < pr_start r ∧ pr_start r < pr_end r ∧ separated (pr_end r) rs'
  end.

Section sorting.
Local Open Scope nat_scope.

(** Sorted up to index [i]: every element before [i] is below all later ones. *)
Definition sorted_to (i : nat) rs : Prop :=
  ∀ a b, a < i → a ≤ b < length rs →
    (pr_start (rs !!! a) ≤ pr_start (rs !!! b))%Z.

Lemma lookup_total_insert_cases rs i x k :
  i < length rs → <[i := x]> rs !!! k = if decide (k = i) then x else rs !!! k.
Proof.
  intros Hi. destruct (decide (k = i)) as [->|Hne].
  - by rewrite list_lookup_total_insert_eq.
  - by rewrite list_lookup_total_insert_ne.
Qed.

Lemma sort_swap_length i rs j : length (sort_swap i rs j) = length rs.
Proof. unfold sort_swap. case_match; by rewrite ?length_insert. Qed.

Lemma sort_swap_lookup i rs j k :
  i < length rs → j < length rs → i ≠ j →
  sort_swap i rs j !!! k =
    if (pr_start (rs !!! j) <? pr_start (rs !!! i))%Z then
      if decide (k = j) then rs !!! i else if decide (k = i) then rs !!! j else rs !!! k
    else rs !!! k.
Proof.
  intros Hi Hj Hne. unfold sort_swap. case_match; [|done].
  rewrite lookup_total_insert_cases by (by rewrite length_insert).
  case_decide; [done|]. by rewrite lookup_total_insert_cases.
Qed.

Lemma sort_swap_elem i rs j r :
  i < length rs → j < length rs → i ≠ j → r ∈ sort_swap i rs j ↔ r ∈ rs.
Proof.
  intros Hi Hj Hne.
  assert (∀ (l : list phys_range) x, x ∈ l ↔ ∃ k, k < length l ∧ l !!! k = x) as Hel.
  { intros l x. rewrite list_elem_of_lookup. split.
    - intros [k Hk]. exists k. split; [by eapply lookup_lt_Some|].
      by apply list_lookup_total_correct.
    - intros (k & Hk & <-). exists k. by apply list_lookup_lookup_total_lt. }
  rewrite !Hel, sort_swap_length. split; intros (k & Hk & <-).
  - rewrite sort_swap_lookup by done. repeat case_match; eauto.
  - destruct (decide (pr_start (rs !!! j) < pr_start (rs !!! i)))%Z as [Hlt|Hge].
    + exists (if decide (k = i) then j else if decide (k = j) then i else k).
      assert ((pr_start (rs !!! j) <? pr_start (rs !!! i))%Z = true) as E by lia.
      split; [repeat case_decide; done|]. rewrite sort_swap_lookup, E by done.
      repeat case_decide; by subst.
    + exists k. split; [done|]. rewrite sort_swap_lookup by done.
      by rewrite (proj2 (Z.ltb_ge _ _)) by lia.
Qed.

(** One pass puts the minimum of the rest at index [i]. *)
Lemma sort_pass_spec i rs m :
  i + 1 + m ≤ length rs → sorted_to i rs →
  let rs' := foldl (sort_swap i) rs (seq (i + 1) m) in
  length rs' = length rs ∧ (∀ r, r ∈ rs' ↔ r ∈ rs) ∧ sorted_to i rs' ∧
  (∀ b, i ≤ b < i + 1 + m → (pr_start (rs' !!! i) ≤ pr_start (rs' !!! b))%Z).
Proof.
  intros Hm Hs. induction m as [|m IH].
  - simpl. split_and!; try done. intros b Hb. by replace b with i by lia.
  - rewrite seq_S, foldl_app. destruct IH as (Hl & He & Hs' & Hmin); [lia|].
    set (l := foldl (sort_swap i) rs (seq (i + 1) m)) in *. cbn [foldl].
    assert (i < length l ∧ i + 1 + m < length l ∧ i ≠ i + 1 + m) as (Hil & Hjl & Hij) by lia.
    split; [by rewrite sort_swap_length|].
    split; [intros r; rewrite sort_swap_elem by done; apply He|].
    split.
    + intros a b Ha Hb. rewrite sort_swap_length in Hb. rewrite !sort_swap_lookup by done.
      case_match; [|by apply Hs']. rewrite (decide_False (P := a = i + 1 + m)) by lia.
      rewrite (decide_False (P := a = i)) by lia.
      repeat case_decide; apply Hs'; lia.
    + intros b Hb. rewrite !sort_swap_lookup by done.
      destruct (Z.ltb_spec (pr_start (l !!! (i + 1 + m))) (pr_start (l !!! i))).
      * rewrite (decide_False (P := i = i + 1 + m)), (decide_True (P := i = i)) by lia.
        repeat case_decide; [lia|lia|]. pose proof (Hmin b ltac:(lia)). lia.
      * destruct (decide (b = i + 1 + m)) as [->|]; [done|]. apply Hmin. lia.
Qed.

Lemma sort_ranges_spec rs :
  let rs' := sort_ranges rs (length rs) in
  length rs' = length rs ∧ (∀ r, r ∈ rs' ↔ r ∈ rs) ∧ sorted_to (length rs) rs'.
Proof.
  unfold sort_ranges. set (n := length rs).
  assert (∀ i, i ≤ n → let l := foldl (sort_pass n) rs (seq 0 i) in
    length l = n ∧ (∀ r, r ∈ l ↔ r ∈ rs) ∧ sorted_to i l) as H; [|by apply H].
  induction i as [|i IH]; intros Hi.
  - simpl. split_and!; try done. intros a b Ha. lia.
  - rewrite seq_S, foldl_app. destruct IH as (Hl & He & Hs); [lia|].
    set (l := foldl (sort_pass n) rs (seq 0 i)) in *. cbn [foldl].
    unfold sort_pass. simpl plus.
    destruct (sort_pass_spec i l (n - (i + 1))) as (Hl' & He' & Hs' & Hmin); [lia|done|].
    set (l' := foldl (sort_swap i) l (seq (i + 1) (n - (i + 1)))) in *.
    split; [lia|]. split; [intros r; by rewrite He', He|].
    intros a b Ha Hb. destruct (decide (a = i)) as [->|].
    + apply Hmin. lia.
    + apply Hs'; lia.
Qed.
End sorting.

Section normalizing.

Definition last_end (lo : Z) rs : Z := default lo (pr_end <$> last rs).

Lemma separated_snoc lo rs r :
  separated lo (rs ++ [r]) ↔
  separated lo rs ∧ last_end lo rs < pr_start r ∧ pr_start r < pr_end r.
Proof.
  revert lo. induction rs as [|r0 rs IH]; intros lo; simpl; [tauto|].
  rewrite IH. unfold last_end. destruct rs; simpl; [tauto|].
  destruct (last (p :: rs)) eqn:E; [tauto|]. by apply last_None in E.
Qed.

Lemma in_ranges_snoc rs r x : in_ranges (rs ++ [r]) x ↔ in_ranges rs x ∨ in_range r x.
Proof. unfold in_ranges. set_solver. Qed.

(** State of the compaction loop after the first [i] sorted ranges [ss]. *)
Record normalizing (lo : Z) (ss : list phys_range) (i : nat) (l : list phys_range) (out : nat)
    : Prop := {
  nz_len : length l = length ss;
  nz_out : (out ≤ i)%nat;
  nz_rest : ∀ k, (i ≤ k < length ss)%nat → l !!! k = ss !!! k;
  nz_sep : separated lo (take out l);
  nz_cov : ∀ x, in_ranges (take out l) x ↔ ∃ k, (k < i)%nat ∧ in_range (ss !!! k) x;
  nz_last : ∀ k r, (i ≤ k < length ss)%nat → last (take out l) = Some r →
    pr_start r ≤ pr_start (ss !!! k)
}.

Lemma take_out_split (l : list phys_range) out :
  (0 < out ≤ length l)%nat →
  take out l = take (out - 1) l ++ [l !!! (out - 1)%nat].
Proof.
  intros H. replace out with (S (out - 1)) at 1 by lia.
  apply take_S_r. apply list_lookup_lookup_total_lt. lia.
Qed.

Lemma covered_S (ss : list phys_range) i x :
  (∃ k, (k < S i)%nat ∧ in_range (ss !!! k) x) ↔
  (∃ k, (k < i)%nat ∧ in_range (ss !!! k) x) ∨ in_range (ss !!! i) x.
Proof.
  split.
  - intros (k & Hk & Hx). destruct (decide (k = i)) as [->|]; [by right|].
    left. exists k. split; [lia|done].
  - intros [(k & Hk & Hx)|Hx]; [exists k|exists i]; (split; [lia|done]).
Qed.

Lemma normalize_step_spec lo ss i l out :
  (i < length ss)%nat → sorted_to (length ss) ss → (∀ r, r ∈ ss → lo < pr_start r) →
  normalizing lo ss i l out →
  let '(l', out') := normalize_step (l, out) i in normalizing lo ss (S i) l' out'.
Proof.
  intros Hi Hs Hlo [Hlen Hout Hrest Hsep Hcov Hlast]. unfold normalize_step.
  set (ri := ss !!! i). rewrite (Hrest i) by lia. fold ri.
  assert (∀ k, (S i ≤ k < length ss)%nat → pr_start ri ≤ pr_start (ss !!! k)) as Hnext.
  { intros k Hk. apply (Hs i k); lia. }
  destruct (Z.leb_spec (pr_end ri) (pr_start ri)) as [He|He].
  { split; try done; try lia; [intros; apply Hrest; lia| |intros k r Hk; apply Hlast; lia].
    intros x. rewrite Hcov, covered_S. fold ri. unfold in_range. naive_solver lia. }
  assert (lo < pr_start ri) as Hri.
  { apply Hlo, list_elem_of_lookup. exists i. by apply list_lookup_lookup_total_lt. }
  destruct ((out =? 0)%nat || (pr_end (l !!! (out - 1)%nat) <? pr_start ri)) eqn:E.
  - assert (take (S out) (<[out := ri]> l) = take out l ++ [ri]) as Et.
    { rewrite (take_S_r _ _ ri) by (apply list_lookup_insert_eq; lia).
      by rewrite take_insert_ge by lia. }
    split; rewrite ?length_insert, ?Et; try done; try lia.
    + intros k Hk. rewrite lookup_total_insert_cases, decide_False by lia. apply Hrest. lia.
    + apply separated_snoc. split; [done|]. split; [|done]. unfold last_end.
      destruct (decide (out = 0%nat)) as [->|Hne]; [done|].
      rewrite take_out_split, last_snoc by lia. simpl.
      apply orb_true_iff in E as [E|E]; [by apply Nat.eqb_eq in E|by apply Z.ltb_lt].
    + intros x. rewrite in_ranges_snoc, Hcov, covered_S. done.
    + intros k r Hk [= <-]%(eq_trans (eq_sym (last_snoc _ _))). by apply Hnext.
  - apply orb_false_iff in E as [E0 E1]. apply Nat.eqb_neq in E0. apply Z.ltb_ge in E1.
    set (la := l !!! (out - 1)%nat) in *.
    assert (take out l = take (out - 1) l ++ [la]) as Et0 by (apply take_out_split; lia).
    assert (pr_start la ≤ pr_start ri) as Hla.
    { apply (Hlast i); [lia|]. by rewrite Et0, last_snoc. }
    rewrite Et0 in Hsep. apply separated_snoc in Hsep as (Hs1 & Hs2 & Hs3).
    destruct (Z.ltb_spec (pr_end la) (pr_end ri)) as [Hext|Hin].
    + set (m := PhysRange (pr_start la) (pr_end ri)).
      assert (take out (<[(out - 1)%nat := m]> l) = take (out - 1) l ++ [m]) as Et.
      { rewrite take_out_split by (rewrite length_insert; lia).
        by rewrite take_insert_ge, list_lookup_total_insert_eq by lia. }
      split; rewrite ?length_insert, ?Et; try done; try lia.
      * intros k Hk. rewrite lookup_total_insert_cases, decide_False by lia. apply Hrest. lia.
      * apply separated_snoc. split; [done|]. split; [done|]. simpl. lia.
      * intros x. specialize (Hcov x). rewrite Et0, in_ranges_snoc in Hcov.
        rewrite in_ranges_snoc, covered_S, <-Hcov. fold ri. unfold in_range. simpl.
        split; [|naive_solver lia]. intros [?|?]; [tauto|].
        destruct (decide (x < pr_end la)); [left; right; lia|right; lia].
      * intros k r Hk. rewrite last_snoc. intros [= <-]. simpl. specialize (Hnext k Hk). lia.
    + split; rewrite ?Et0; try done; try lia.
      * intros k Hk. apply Hrest. lia.
      * by apply separated_snoc.
      * intros x. specialize (Hcov x). rewrite Et0, in_ranges_snoc in Hcov.
        rewrite in_ranges_snoc, covered_S, <-Hcov. fold ri. unfold in_range. naive_solver lia.
      * intros k r Hk. rewrite last_snoc. intros [= <-]. specialize (Hnext k Hk). lia.
Qed.

(** The normalised array is separated and covers the same addresses. *)
Lemma normalized_spec lo rs :
  (∀ r, r ∈ rs → lo < pr_start r) →
  separated lo (normalized rs) ∧ (∀ x, in_ranges (normalized rs) x ↔ in_ranges rs x).
Proof.
  intros Hlo. destruct (sort_ranges_spec rs) as (Hl & He & Hs).
  set (ss := sort_ranges rs (length rs)) in *.
  assert (∀ i, (i ≤ length rs)%nat →
    let '(l, out) := foldl normalize_step (ss, O) (seq 0 i) in normalizing lo ss i l out) as H.
  { induction i as [|i IH]; intros Hi.
    - split; try done. intros x. unfold in_ranges. simpl. split.
      + intros (r & Hr%not_elem_of_nil & _). done.
      + intros (k & Hk & _). lia.
    - rewrite seq_S, foldl_app. specialize (IH ltac:(lia)).
      destruct (foldl normalize_step (ss, O) (seq 0 i)) as [l out]. cbn [foldl].
      apply normalize_step_spec; [lia|by rewrite Hl|by intros r Hr%He; apply Hlo|done]. }
  specialize (H (length rs) ltac:(lia)). unfold normalized, normalize_ranges. fold ss.
  destruct (foldl normalize_step (ss, O) (seq 0 (length rs))) as [l out].
  destruct H as [? ? ? Hsep Hcov ?]. split; [done|]. intros x. rewrite Hcov. split.
  - intros (k & Hk & Hx). exists (ss !!! k). split; [|done]. apply He, list_elem_of_lookup.
    exists k. apply list_lookup_lookup_total_lt. lia.
  - intros (r & Hr%He & Hx). apply list_elem_of_lookup in Hr as [k Hk]. exists k.
    split; [apply lookup_lt_Some in Hk; lia|]. by rewrite (list_lookup_total_correct _ _ _ Hk).
Qed.
End normalizing.

(** * Physical memory manager: releasing reserved ranges

    [release_block], [release_range_pages] and [release_descriptor_usable],
    which [pmm_init] uses to hand the usable memory to the free lists. *)

(** From [s] to [s'] exactly the pages [R] became free; every other reserved
    page and every used block is unchanged. *)
Definition released (s : pmm) (fl : Z → list Z) (s' : pmm) (fl' : Z → list Z)
    (R : Z → Prop) : Prop :=
  inv_hole s' fl' 0 0 ∧ config s' = config s ∧
  (∀ p, covered (pmm_max_order s) fl' p ↔ covered (pmm_max_order s) fl p ∨ R p) ∧
  keeps_except s s' R.

Definition reserved (s : pmm) (p : Z) : Prop :=
  pmm_page_meta s !! p = Some META_RESERVED.

Section release.
Implicit Types (s : pmm) (fl : Z → list Z) (R : Z → Prop).

Lemma released_orders s fl s' fl' R :
  released s fl s' fl' R →
  pmm_max_order s' = pmm_max_order s ∧ pmm_total_pages s' = pmm_total_pages s.
Proof. by intros (_ & [= ? ?] & _). Qed.

Lemma released_refl s fl R :
  inv_hole s fl 0 0 → (∀ p, ¬ R p) → released s fl s fl R.
Proof.
  intros H HR. split; [done|]. split; [done|]. split; [naive_solver|].
  intros y m _. naive_solver.
Qed.

Lemma released_trans s1 fl1 s2 fl2 s3 fl3 R1 R2 R :
  released s1 fl1 s2 fl2 R1 → released s2 fl2 s3 fl3 R2 →
  (∀ p, R p ↔ R1 p ∨ R2 p) → released s1 fl1 s3 fl3 R.
Proof.
  intros H1 H2 HR. destruct (released_orders _ _ _ _ _ H1) as [EO _].
  destruct H1 as (_ & E1 & C1 & K1), H2 as (H & E2 & C2 & K2). rewrite EO in C2.
  split; [done|]. split; [congruence|]. split.
  - intros p. rewrite C2, C1, HR. tauto.
  - intros y m Hm. rewrite (K2 y m Hm), (K1 y m Hm), HR. tauto.
Qed.

Lemma released_reserved s fl s' fl' R p :
  released s fl s' fl' R → reserved s p → ¬ R p → reserved s' p.
Proof.
  intros (_ & _ & _ & K) Hr HR. unfold reserved.
  rewrite (K p META_RESERVED) by done. done.
Qed.

Lemma wp_release_block s fl x o (Q : unit → pmm → Prop) :
  inv_hole s fl 0 0 → 0 ≤ o ≤ pmm_max_order s → (2 ^ o | x) →
  0 ≤ x → x + 2 ^ o ≤ pmm_total_pages s →
  (∀ p, inh x (2 ^ o) p → reserved s p) →
  (∀ s' fl', released s fl s' fl' (inh x (2 ^ o)) → Q tt s') →
  wp (release_block x o) Q s.
Proof.
  intros H Ho Hal Hx HxT Hres HQ. pose proof (ih_order _ _ _ _ H) as HO.
  pose proof (ih_total _ _ _ _ H) as HT. pose proof (pow2_pos o ltac:(lia)) as Hp.
  unfold release_block. apply wp_bind, wp_set_block_meta; [lia..| |].
  { intros i Hi. by rewrite (Hres i Hi). }
  intros m' Hm'.
  assert (∀ i, ¬ inh x (2 ^ o) i → m' !! i = pmm_page_meta s !! i) as Hout
    by (intros i; by eapply filled_outside).
  destruct (inv_open s fl x (2 ^ o) H) as [Hh Hle]; [lia..| | |].
  { intros y m Hm Hy o' Em Hb p Hpy Hpx. pose proof (ba_order _ _ _ Hb).
    assert (reserved s p) as Hr by (by apply Hres). unfold reserved in Hr.
    destruct (decide (p = y)) as [->|]; [done|].
    rewrite (ba_tail _ _ _ Hb) in Hr by (unfold inh in Hpy; lia). done. }
  { intros y Hy o' Ho' E. rewrite (Hres y Hy) in E. change META_RESERVED with 128 in E.
    injection E. lia. }
  pose proof (inv_hole_mark_used _ fl x o m' Hh Ho Hal Hm') as H1. simpl in H1.
  replace (pmm_used_pages s - 2 ^ o + 2 ^ o) with (pmm_used_pages s) in H1 by lia.
  change (set_used _ _) with (set_meta_arr m' s) in H1.
  assert (used_block (set_meta_arr m' s) x o) as Hub.
  { split; [done|]. simpl. by rewrite (Hm' x), decide_True. }
  eapply wp_free_block; [done|done|]. intros s' fl' H' Hcfg Hu Hcov Hk.
  apply (HQ s' fl'). split; [done|]. split; [done|]. split; [done|].
  intros y m Hm. rewrite (Hk y m Hm). simpl. destruct (meta_facts o ltac:(lia)) as (_ & E & _).
  destruct (decide (x ≤ y ∧ y < x + 2 ^ o)) as [Hy|Hy]; [|rewrite Hout by done].
  - split; [|intros [_ Hn]; by destruct Hn]. intros [Hmy Hyx]. exfalso. rewrite (Hm' y), decide_False, decide_True in Hmy by lia.
    unfold PMM_META_TAIL in Hmy. injection Hmy. lia.
  - unfold inh. split; [tauto|]. intros [? _]. split; [done|]. lia.
Qed.

(** The order chosen by [release_range_pages] is aligned and fits. *)
Lemma release_order_spec f o st en :
  (Z.to_nat o ≤ f)%nat → 0 ≤ o < 63 → 0 ≤ st < en → en < 2 ^ 52 →
  let o' := release_order f o st en in
  0 ≤ o' ≤ o ∧ (2 ^ o' | st) ∧ st + 2 ^ o' ≤ en.
Proof.
  revert o. induction f as [|f IH]; intros o Hf Ho Hst Hen; simpl.
  - assert (o = 0) as -> by lia. split; [lia|]. split; [apply Z.divide_1_l|lia].
  - destruct (Z.ltb_spec 0 o); [|assert (o = 0) as -> by lia;
      split; [lia|]; split; [apply Z.divide_1_l|lia]].
    rewrite order_pages_pow2 by lia. pose proof (pow2_pos o ltac:(lia)) as Hp.
    assert (2 ^ o ≤ 2 ^ 62) by (apply pow2_le; lia).
    rewrite !u64_small by lia.
    destruct ((Z.land st (2 ^ o - 1) =? 0) && (st + 2 ^ o <=? en)) eqn:E.
    + b2p. split; [lia|]. split; [|done]. apply Z.mod_divide; [lia|].
      rewrite <-Z.land_ones by lia. by rewrite Z.ones_equiv, <-Z.sub_1_r.
    + rewrite u8_small by lia. destruct (IH (o - 1)) as (? & ? & ?); [lia..|].
      split; [lia|done].
Qed.

Lemma wp_release_range s fl st en (Q : unit → pmm → Prop) :
  inv_hole s fl 0 0 → 0 ≤ st ≤ en → en ≤ pmm_total_pages s →
  (∀ p, st ≤ p < en → reserved s p) →
  (∀ s' fl', released s fl s' fl' (λ p, st ≤ p < en) → Q tt s') →
  wp (release_range_pages st en) Q s.
Proof.
  intros H Hst Hen Hres HQ. unfold release_range_pages. wp_steps.
  pose proof (ih_order _ _ _ _ H) as HO. pose proof (ih_total _ _ _ _ H) as HT.
  apply (wp_while_idx _ _ (λ v c s', v = en - c ∧ st ≤ c ≤ en ∧
    ∃ fl', released s fl s' fl' (λ p, st ≤ p < c)) _ (en - st)).
  - split; [done|]. split; [lia|]. exists fl. apply released_refl; [done|]. intros. lia.
  - lia.
  - intros v c s' (-> & Hc & fl' & Hrel).
    destruct (Z.ltb_spec c en) as [Hlt|].
    2:{ apply wp_ret. assert (c = en) as -> by lia. by eapply HQ. }
    destruct (released_orders _ _ _ _ _ Hrel) as [EO ET].
    destruct (release_order_spec (Z.to_nat (pmm_max_order s)) (pmm_max_order s) c en)
      as (Ho & Hal & Hfit); [lia..|].
    set (o := release_order (Z.to_nat (pmm_max_order s)) (pmm_max_order s) c en) in *.
    pose proof (pow2_pos o ltac:(lia)). apply wp_bind.
    eapply wp_release_block; [by destruct Hrel|lia|done|lia|lia| |].
    { intros p Hp. unfold inh in Hp. eapply released_reserved; [done| |cbv beta; lia].
      apply Hres. lia. }
    intros s2 fl2 Hrel2. apply wp_ret. rewrite order_pages_pow2, u64_small by lia.
    exists (en - (c + 2 ^ o)). split; [lia|]. split; [done|]. split; [lia|].
    exists fl2. eapply released_trans; [done|done|]. intros p. unfold inh. lia.
Qed.

(** A page [p] is given by its address [p * 4096]. *)
Definition page_free_of (gs : list phys_range) (cursor end_ p : Z) : Prop :=
  cursor ≤ p * PAGE_SIZE < end_ ∧ ¬ in_ranges gs (p * PAGE_SIZE).

Definition aligned_ranges (gs : list phys_range) : Prop :=
  ∀ g, g ∈ gs → (PAGE_SIZE | pr_start g) ∧ (PAGE_SIZE | pr_end g).

Lemma separated_after lo gs g :
  separated lo gs → g ∈ gs → lo < pr_start g ∧ pr_start g < pr_end g.
Proof.
  revert lo. induction gs as [|g0 gs IH]; intros lo Hs Hg; [by apply not_elem_of_nil in Hg|].
  destruct Hs as (H1 & H2 & Hs). apply elem_of_cons in Hg as [->|Hg]; [done|].
  destruct (IH _ Hs Hg). lia.
Qed.

Lemma in_ranges_cons g gs x : in_ranges (g :: gs) x ↔ in_range g x ∨ in_ranges gs x.
Proof. unfold in_ranges. set_solver. Qed.

Lemma page_div a p : (PAGE_SIZE | a) → a / PAGE_SIZE ≤ p ↔ a ≤ p * PAGE_SIZE.
Proof. intros [q ->]. rewrite Z.div_mul by done. unfold PAGE_SIZE. lia. Qed.

Lemma wp_release_pages s fl a b (Q : unit → pmm → Prop) :
  inv_hole s fl 0 0 → (PAGE_SIZE | a) → (PAGE_SIZE | b) → 0 ≤ a ≤ b →
  b ≤ pmm_total_pages s * PAGE_SIZE →
  (∀ p, a ≤ p * PAGE_SIZE < b → reserved s p) →
  (∀ s' fl', released s fl s' fl' (λ p, a ≤ p * PAGE_SIZE < b) → Q tt s') →
  wp (release_range_pages (a / PAGE_SIZE) (b / PAGE_SIZE)) Q s.
Proof.
  intros H Ha Hb Hab HbT Hres HQ. destruct Ha as [qa ->], Hb as [qb ->].
  rewrite !Z.div_mul by done. unfold PAGE_SIZE in *.
  eapply wp_release_range; [done|lia|lia|intros; apply Hres; lia|].
  intros s' fl' (H1 & H2 & H3 & H4). apply (HQ s' fl'). split; [done|]. split; [done|]. split.
  - intros p. rewrite H3. assert (qa <= p < qb ↔ qa * 4096 <= p * 4096 < qb * 4096) by lia. tauto.
  - intros y m Hm. rewrite (H4 y m Hm).
    assert (qa <= y < qb ↔ qa * 4096 <= y * 4096 < qb * 4096) by lia. tauto.
Qed.

Lemma wp_release_guards gs lo s fl cursor end_ b (Q : Z * bool → pmm → Prop) :
  inv_hole s fl 0 0 → separated lo gs → aligned_ranges gs →
  (PAGE_SIZE | cursor) → (PAGE_SIZE | end_) → 0 ≤ cursor →
  end_ ≤ pmm_total_pages s * PAGE_SIZE →
  (∀ p, page_free_of gs cursor end_ p → reserved s p) →
  (∀ c b' s' fl', released s fl s' fl' (page_free_of gs cursor (Z.min c end_)) →
     (PAGE_SIZE | c) → cursor ≤ c →
     (∀ p, c ≤ p * PAGE_SIZE < end_ → ¬ in_ranges gs (p * PAGE_SIZE)) → Q (c, b') s') →
  wp (release_guards gs cursor end_ b) Q s.
Proof.
  revert lo s fl cursor b Q. induction gs as [|g gs IH];
    intros lo s fl cursor b Q H Hsep Hal Hca Hea Hc0 HeT Hres HQ; simpl.
  { apply wp_ret, (HQ _ _ _ fl); [|done|lia|].
    - apply released_refl; [done|]. unfold page_free_of. lia.
    - intros p _ (? & Hg%not_elem_of_nil & _). done. }
  destruct Hsep as (Hlo & Hne & Hsep).
  assert (aligned_ranges gs) as Hal' by (intros g' Hg'; apply Hal; set_solver).
  destruct (Hal g) as [Hga Hgb]; [set_solver|].
  assert (∀ x, in_ranges gs x → pr_end g < x) as Hafter.
  { intros x (g' & Hg' & Hx). destruct (separated_after _ _ _ Hsep Hg'). unfold in_range in Hx. lia. }
  destruct (Z.ltb_spec cursor end_) as [Hlt|Hge]; simpl.
  2:{ apply wp_ret, (HQ _ _ _ fl); [|done|lia|intros; lia].
      apply released_refl; [done|]. unfold page_free_of. lia. }
  destruct (Z.leb_spec (pr_end g) cursor) as [Hskip|Hover].
  { assert (∀ e p, page_free_of (g :: gs) cursor e p ↔ page_free_of gs cursor e p) as Heq.
    { intros e p. unfold page_free_of. rewrite in_ranges_cons. unfold in_range.
      split; intros [Hp Hn]; (split; [done|]); [tauto|]. intros [?|?]; [lia|done]. }
    eapply (IH (pr_end g)); try done.
    - intros p Hp%Heq. by apply Hres.
    - intros c b' s' fl' Hrel Hc Hcc Hno. eapply HQ; [|done|done|].
      + eapply released_trans; [by apply (released_refl s fl (λ _, False)); auto|done|].
        intros p. rewrite Heq. tauto.
      + intros p Hp. rewrite in_ranges_cons. intros [Hg|?]; [|by apply (Hno p)].
        unfold in_range in Hg. lia. }
  destruct (Z.leb_spec end_ (pr_start g)) as [Hbeyond|Hin].
  { apply wp_ret, (HQ _ _ _ fl); [|done|lia|].
    - apply released_refl; [done|]. unfold page_free_of. lia.
    - intros p Hp. rewrite in_ranges_cons. intros [Hg|Hg%Hafter]; [unfold in_range in Hg|]; lia. }
  rewrite (proj2 (Z.ltb_lt cursor (pr_end g))) by done.
  assert (∀ s1 fl1 b1, released s fl s1 fl1
      (λ p, cursor ≤ p * PAGE_SIZE < pr_start g) →
      wp (release_guards gs (pr_end g) end_ b1) Q s1) as Hrest.
  { intros s1 fl1 b1 Hrel1. destruct (released_orders _ _ _ _ _ Hrel1) as [EO ET].
    eapply (IH (pr_end g)); try done; [by destruct Hrel1|lia|by rewrite ET| |].
    - intros p [Hp Hnp]. eapply released_reserved; [done| |cbv beta; lia].
      apply Hres. split; [lia|]. rewrite in_ranges_cons. unfold in_range. intros [?|?]; [lia|done].
    - intros c b' s' fl' Hrel Hc Hcc Hno. eapply HQ; [|done|lia|].
      + eapply released_trans; [done|done|]. intros p. unfold page_free_of.
        rewrite in_ranges_cons. pose proof (Hafter (p * PAGE_SIZE)) as Ha. unfold in_range. 
        split.
        * intros [Hp Hn]. destruct (decide (p * PAGE_SIZE < pr_start g)); [left; lia|].
          right. split; [lia|tauto].
        * intros [Hp|[Hp Hn]]; (split; [lia|]); intros [?|Hi]; [lia| |lia|done].
          apply Ha in Hi. lia.
      + intros p Hp. rewrite in_ranges_cons. intros [Hg|?]; [|by apply (Hno p)].
        unfold in_range in Hg. lia. }
  apply wp_bind. destruct (Z.ltb_spec cursor (pr_start g)) as [Hgap|Hnogap].
  - apply wp_bind. eapply wp_release_pages; [done|done|done|lia|lia| |].
    + intros p Hp. apply Hres. split; [lia|]. rewrite in_ranges_cons. unfold in_range.
      intros [?|Hg%Hafter]; lia.
    + intros s1 fl1 Hrel. apply wp_ret. by eapply Hrest.
  - apply wp_ret. apply (Hrest s fl). apply released_refl; [done|]. intros. lia.
Qed.

Lemma wp_release_descriptor gs lo s fl start end_ b (Q : bool → pmm → Prop) :
  inv_hole s fl 0 0 → separated lo gs → aligned_ranges gs →
  0 ≤ start → start + PAGE_SIZE ≤ 2 ^ 64 → 0 ≤ end_ < 2 ^ 64 →
  end_ ≤ pmm_total_pages s * PAGE_SIZE →
  let R := page_free_of gs (align_up start PAGE_SIZE) (align_down end_ PAGE_SIZE) in
  (∀ p, R p → reserved s p) →
  (∀ b' s' fl', released s fl s' fl' R → Q b' s') →
  wp (release_descriptor_usable start end_ gs b) Q s.
Proof.
  intros H Hsep Hal Hst Hst2 Hen HeT R Hres HQ. unfold release_descriptor_usable, R in *.
  destruct (align_up_page start) as [Hau Hal2]; [lia..|].
  destruct (align_down_page end_) as [Hed Hea]; [lia|].
  set (c := align_up start PAGE_SIZE) in *. set (e := align_down end_ PAGE_SIZE) in *.
  destruct (Z.leb_spec e c).
  { apply wp_ret, (HQ _ _ fl). apply released_refl; [done|]. unfold page_free_of. lia. }
  apply wp_bind. eapply (wp_release_guards gs lo); try done; try lia.
  intros c' b' s1 fl1 Hrel Hc' Hcc Hno. simpl.
  destruct (Z.ltb_spec c' e) as [Hlt|Hge].
  - destruct (released_orders _ _ _ _ _ Hrel) as [EO ET]. rewrite Z.min_l in Hrel by lia.
    apply wp_bind. eapply wp_release_pages; [by destruct Hrel|done|done|lia|rewrite ET; lia| |].
    + intros p Hp. eapply released_reserved; [done| |unfold page_free_of; lia].
      apply Hres. split; [lia|by apply Hno].
    + intros s2 fl2 Hrel2. apply wp_ret, (HQ _ _ fl2). eapply released_trans; [done|done|].
      intros p. unfold page_free_of. specialize (Hno p). split.
      * intros [? ?]. destruct (decide (p * PAGE_SIZE < c')); [left; split; [lia|done]|right; lia].
      * intros [[? ?]|?]; (split; [lia|]); [done|]. by apply Hno.
  - apply wp_ret, (HQ _ _ fl1). by rewrite Z.min_r in Hrel by lia.
Qed.
End release.
