(* ===== verification/PmmInit.v ===== *)
(** * Physical memory manager: initialisation

    The metadata layout, the placement of the metadata, the initial arrays,
    the early pool and [pmm_init]. *)

From S2P Require Import Prelude Pmm PmmInv PmmHole PmmFree PmmAlloc PmmRanges.

(** ** Orders and metadata layout *)

Lemma compute_max_order_spec pages :
  1 ≤ pages < 2 ^ 63 →
  let mo := compute_max_order pages in 0 ≤ mo < 63 ∧ 2 ^ mo ≤ pages < 2 ^ (mo + 1).
Proof.
  intros Hp. unfold compute_max_order.
  assert (∀ f o, 0 ≤ o → o + Z.of_nat f = 63 → 2 ^ o ≤ pages →
    let mo := compute_max_order_loop f o pages in
    0 ≤ mo < 63 ∧ 2 ^ mo ≤ pages < 2 ^ (mo + 1)) as H.
  { induction f as [|f IH]; intros o Ho Hf Hle; simpl.
    - assert (o = 63) as -> by lia. lia.
    - rewrite (proj2 (Z.ltb_lt o 63)) by lia.
      assert (u64 (Z.shiftl 1 (o + 1)) = 2 ^ (o + 1)) as ->.
      { rewrite Z.shiftl_1_l. apply u64_small. split; [by apply Z.pow_nonneg|].
        apply Z.pow_lt_mono_r; lia. }
      pose proof (pow2_pos (o + 1) ltac:(lia)).
      rewrite (proj2 (Z.eqb_neq (2 ^ (o + 1)) 0)) by lia. simpl.
      destruct (Z.ltb_spec pages (2 ^ (o + 1))) as [Hlt|Hge]; [lia|].
      rewrite u8_small by lia. apply IH; lia. }
  apply H; lia.
Qed.

(** The three arrays bound by [bind_metadata] lie one after the other inside
    [metadata_size_bytes] bytes, the 64-bit arrays 8-byte aligned. *)
Lemma bind_metadata_layout (s : pmm) base :
  0 < pmm_total_pages s < 2 ^ 52 → 0 ≤ pmm_max_order s < 63 →
  0 ≤ base → (8 | base) →
  base + metadata_size_bytes (pmm_total_pages s) (pmm_max_order s) < 2 ^ 64 →
  wp (bind_metadata base) (λ _ s',
    base = pmm_page_meta_ptr s' ∧
    pmm_page_meta_ptr s' + pmm_total_pages s ≤ pmm_free_next_ptr s' ∧
    pmm_free_next_ptr s' + 8 * pmm_total_pages s ≤ pmm_free_heads_ptr s' ∧
    pmm_free_heads_ptr s' + 8 * (pmm_max_order s + 1) ≤
      base + metadata_size_bytes (pmm_total_pages s) (pmm_max_order s) ∧
    (8 | pmm_free_next_ptr s') ∧ (8 | pmm_free_heads_ptr s')) s.
Proof.
  intros HT Hmo Hb Hb8. unfold metadata_size_bytes, bind_metadata.
  set (T := pmm_total_pages s) in *. set (mo := pmm_max_order s) in *.
  rewrite (u64_small (0 + T * 1)), (u64_small (T * 8)), (u64_small ((mo + 1) * 8)) by lia.
  change 8 with (2 ^ 3).
  destruct (align_up_bounds (0 + T * 1) 3) as [H1 D1]; [lia..|].
  set (a1 := align_up (0 + T * 1) (2 ^ 3)) in *. rewrite (u64_small (a1 + T * 2 ^ 3)) by lia.
  destruct (align_up_bounds (a1 + T * 2 ^ 3) 3) as [H2 D2]; [lia..|].
  set (a2 := align_up (a1 + T * 2 ^ 3) (2 ^ 3)) in *.
  rewrite (u64_small (a2 + (mo + 1) * 2 ^ 3)) by lia.
  destruct (align_up_page (a2 + (mo + 1) * 2 ^ 3)) as [H3 _]; [unfold PAGE_SIZE; lia..|].
  set (a3 := align_up (a2 + (mo + 1) * 2 ^ 3) PAGE_SIZE) in *. unfold PAGE_SIZE in *.
  intros Hlim. wp_steps. simpl pmm_page_meta_ptr. simpl pmm_free_next_ptr. simpl pmm_free_heads_ptr.
  fold T. rewrite (u64_small (T * 1)), (u64_small (0 + T * 1)), (u64_small (T * 2 ^ 3)) by lia.
  fold a1. rewrite (u64_small (a1 + T * 2 ^ 3)) by lia. fold a2.
  rewrite !u64_small by lia. split; [lia|]. split; [lia|]. split; [lia|]. split; [lia|].
  split; by apply Z.divide_add_r.
Qed.

(** ** Placement of the metadata *)

Lemma find_region_loop_spec gs lo cursor end_ size b :
  separated lo gs → (∀ g, g ∈ gs → 0 ≤ pr_start g ∧ pr_end g ≤ 2 ^ 53) →
  (PAGE_SIZE | cursor) → 0 ≤ cursor < end_ → 0 < size ≤ end_ - cursor → end_ ≤ 2 ^ 53 →
  find_region_loop gs cursor end_ size = Some b →
  cursor ≤ b ∧ (PAGE_SIZE | b) ∧ b + size ≤ end_ ∧
  (∀ x, b ≤ x < b + size → ¬ in_ranges gs x).
Proof.
  revert lo cursor. induction gs as [|g gs IH];
    intros lo cursor Hsep Hb Hal Hc Hs He Hf; simpl in Hf; rewrite ?u64_small in Hf by lia.
  { destruct (Z.leb_spec (cursor + size) end_); [|done]. injection Hf as <-.
    split; [lia|]. split; [done|]. split; [done|]. intros x _ (? & Hg%not_elem_of_nil & _). done. }
  destruct Hsep as (Hlo & Hne & Hsep).
  assert (∀ x, in_ranges (g :: gs) x → in_range g x ∨ (in_ranges gs x ∧ pr_end g < x)) as Hcase.
  { intros x [?|Hx]%in_ranges_cons; [by left|]. right. split; [done|].
    destruct Hx as (g' & Hg' & Hx). destruct (separated_after _ _ _ Hsep Hg').
    unfold in_range in Hx. lia. }
  assert (∀ g', g' ∈ gs → 0 ≤ pr_start g' ∧ pr_end g' ≤ 2 ^ 53) as Hb' by (intros; apply Hb; set_solver).
  assert (cursor + size ≤ pr_start g → b = cursor →
    cursor ≤ b ∧ (PAGE_SIZE | b) ∧ b + size ≤ end_ ∧
    (∀ x, b ≤ x < b + size → ¬ in_ranges (g :: gs) x)) as Hbefore.
  { intros Hlt ->. split; [lia|]. split; [done|]. split; [lia|].
    intros x Hx [Hi|[_ Hi]]%Hcase; [unfold in_range in Hi|]; lia. }
  destruct (Z.leb_spec (pr_end g) cursor) as [Hskip|Hover].
  { destruct (IH (pr_end g) cursor) as (? & ? & ? & Hno); try done.
    split; [done|]. split; [done|]. split; [done|].
    intros x Hx [Hi|[Hi _]]%Hcase; [unfold in_range in Hi; lia|by apply (Hno x)]. }
  destruct (Z.leb_spec end_ (pr_start g)) as [Hbeyond|Hin].
  { destruct (Z.leb_spec (cursor + size) end_); [|done]. injection Hf as <-.
    apply Hbefore; [lia|done]. }
  destruct (Z.leb_spec (cursor + size) (pr_start g)); [injection Hf as <-; by apply Hbefore|].
  rewrite (proj2 (Z.ltb_lt cursor (pr_end g))) in Hf by done.
  destruct (Hb g) as [Hg0 Hg1]; [set_solver|].
  destruct (align_up_page (pr_end g)) as [Hau Hd]; [unfold PAGE_SIZE; lia..|].
  destruct (Z.leb_spec end_ (align_up (pr_end g) PAGE_SIZE)); [done|]. simpl in Hf.
  rewrite u64_small in Hf by lia.
  destruct (Z.ltb_spec (end_ - align_up (pr_end g) PAGE_SIZE) size); [done|].
  destruct (IH (pr_end g) (align_up (pr_end g) PAGE_SIZE)) as (? & ? & ? & Hno); try done; [lia..|].
  split; [lia|]. split; [done|]. split; [done|].
  intros x Hx [Hi|[Hi _]]%Hcase; [unfold in_range in Hi; lia|by apply (Hno x)].
Qed.

(** The region found is page aligned, inside the bounds and outside every
    guard. *)
Lemma find_region_base_spec gs lo start end_ size b :
  separated lo gs → (∀ g, g ∈ gs → 0 ≤ pr_start g ∧ pr_end g ≤ 2 ^ 53) →
  0 ≤ start → start + PAGE_SIZE ≤ 2 ^ 64 → 0 ≤ end_ ≤ 2 ^ 53 → 0 ≤ size →
  find_region_base start end_ gs size = Some b →
  start ≤ b ∧ (PAGE_SIZE | b) ∧ b + size ≤ end_ ∧
  (∀ x, b ≤ x < b + size → ¬ in_ranges gs x).
Proof.
  intros Hsep Hb Hst Hst2 Hen Hsz. unfold find_region_base.
  destruct (align_up_page start) as [Hau Hd]; [lia..|].
  destruct (align_down_page end_) as [Hed _]; [lia|].
  destruct (Z.eqb_spec size 0); [done|].
  destruct (Z.leb_spec (align_down end_ PAGE_SIZE) (align_up start PAGE_SIZE)); [done|]. simpl.
  rewrite u64_small by lia.
  destruct (Z.ltb_spec (align_down end_ PAGE_SIZE - align_up start PAGE_SIZE) size); [done|].
  intros Hf. destruct (find_region_loop_spec gs lo (align_up start PAGE_SIZE)
    (align_down end_ PAGE_SIZE) size b Hsep Hb Hd) as (? & ? & ? & ?); [lia|lia|lia|done|]. split; [lia|]. split; [done|]. split; [lia|done].
Qed.

(** Normalisation only uses endpoints of the given ranges. *)
Lemma sort_swap_Forall (P : phys_range → Prop) i rs j :
  P inhabitant → Forall P rs → Forall P (sort_swap i rs j).
Proof.
  intros H0 Hr. assert (∀ k, P (rs !!! k)) as Hk.
  { intros k. destruct (decide (k < length rs)%nat).
    - eapply Forall_lookup_1; [done|]. by apply list_lookup_lookup_total_lt.
    - rewrite list_lookup_total_alt, lookup_ge_None_2 by lia. done. }
  unfold sort_swap. case_match; [|done]. by do 2 (apply Forall_insert; [|done]).
Qed.

Definition good_ends (P : Z → Prop) (r : phys_range) : Prop := P (pr_start r) ∧ P (pr_end r).

Lemma normalized_ends (P : Z → Prop) rs :
  P 0 → Forall (good_ends P) rs → Forall (good_ends P) (normalized rs).
Proof.
  intros H0 Hr. assert (good_ends P inhabitant) as Hin by done.
  assert (∀ l : list phys_range, Forall (good_ends P) l → ∀ k, good_ends P (l !!! k)) as Hk.
  { intros l Hl k. destruct (decide (k < length l)%nat).
    - eapply Forall_lookup_1; [done|]. by apply list_lookup_lookup_total_lt.
    - rewrite list_lookup_total_alt, lookup_ge_None_2 by lia. done. }
  assert (Forall (good_ends P) (sort_ranges rs (length rs))) as Hs.
  { unfold sort_ranges. revert Hr. generalize (seq 0 (length rs)). intros l.
    generalize (length rs). intros n. revert rs. induction l as [|i l IH]; intros rs Hr; simpl; [done|].
    apply IH. unfold sort_pass. revert Hr. generalize (seq (i + 1) (n - (i + 1))).
    clear IH. intros js. revert rs. induction js as [|j js IHj]; intros rs Hr; simpl; [done|].
    apply IHj. by apply sort_swap_Forall. }
  unfold normalized, normalize_ranges. revert Hs.
  generalize (sort_ranges rs (length rs)). intros l. generalize 0%nat at 1. intros out.
  generalize (seq 0 (length rs)). intros ks. revert l out. induction ks as [|i ks IH]; intros l out Hl.
  { by apply Forall_take. }
  cbn [foldl]. destruct (normalize_step (l, out) i) as [l' out'] eqn:E. apply IH.
  unfold normalize_step in E. destruct (Hk l Hl i) as [Hs He].
  destruct (Hk l Hl (out - 1)%nat) as [Hs' He'].
  repeat case_match; simplify_eq; try done; by apply Forall_insert.
Qed.

(** ** The initial arrays *)

Lemma inv_init_arrays s total max_order :
  0 < total < 2 ^ 52 → 0 ≤ max_order < 63 → 2 ^ max_order ≤ total →
  pmm_total_pages s = total → pmm_max_order s = max_order →
  inv_hole (init_arrays total max_order s) (λ _, []) 0 0 ∧
  (∀ p, reserved (init_arrays total max_order s) p ↔ 0 ≤ p < total).
Proof.
  intros HT Hmo Hpow ET EO. split.
  - split; simpl; rewrite ?ET, ?EO; try done; try lia.
    + intros i. rewrite lookup_const_map. case_decide; split; intros Hs; done.
    + intros i Hi. rewrite lookup_const_map, decide_True by done. done.
    + intros o Ho. exists PMM_INVALID_PAGE. rewrite lookup_const_map, decide_True by lia. done.
    + intros; apply NoDup_nil_2.
    + intros o x Ho. rewrite lookup_const_map. split; [by intros ?%not_elem_of_nil|].
      case_decide; intros [E _]; [|done]. injection E as E.
      change (meta_make_reserved 0) with 128 in E. lia.
    + intros x m Hm _. rewrite lookup_const_map in Hm. case_decide; [|done].
      injection Hm as <-. by right; left.
    + assert (free_sum max_order (λ _, []) = 0) as ->; [|lia]. unfold free_sum.
      induction (seqZ 0 (max_order + 1)) as [|o l IH]; simpl in *; lia.
  - intros p. unfold reserved. simpl. rewrite lookup_const_map.
    case_decide; split; intros; try done; lia.
Qed.

(** ** Releasing the descriptors *)

Definition desc_usable (d : efi_memory_descriptor) : bool :=
  is_usable_type (d_Type d) && negb (d_NumberOfPages d =? 0).

(** The pages [release_descriptor_usable] frees for one descriptor. *)
Definition desc_pages (gs : list phys_range) (d : efi_memory_descriptor) (p : Z) : Prop :=
  desc_usable d = true ∧
  page_free_of gs (align_up (d_PhysicalStart d) PAGE_SIZE) (align_down (desc_end d) PAGE_SIZE) p.

(** Physical addresses fit in the 52 bits of the architecture. *)
Definition desc_ok (d : efi_memory_descriptor) : Prop :=
  0 ≤ d_PhysicalStart d ∧ 0 ≤ d_NumberOfPages d ∧
  d_PhysicalStart d + d_NumberOfPages d * PAGE_SIZE ≤ 2 ^ 52.

Lemma desc_end_ok d :
  desc_ok d → desc_end d = d_PhysicalStart d + d_NumberOfPages d * PAGE_SIZE ∧
  0 ≤ d_PhysicalStart d ≤ desc_end d ∧ desc_end d ≤ 2 ^ 52.
Proof.
  intros (? & ? & ?). unfold desc_end, PAGE_SIZE in *.
  rewrite (u64_small (d_NumberOfPages d * 4096)), u64_small by lia. lia.
Qed.

Lemma wp_init_release gs lo s fl ds b (Q : bool → pmm → Prop) :
  inv_hole s fl 0 0 → separated lo gs → aligned_ranges gs → Forall desc_ok ds →
  ForallOrdPairs (λ d1 d2, ∀ p, desc_pages gs d1 p → ¬ desc_pages gs d2 p) ds →
  Forall (λ d, desc_usable d = true → desc_end d ≤ pmm_total_pages s * PAGE_SIZE) ds →
  (∀ d p, d ∈ ds → desc_pages gs d p → reserved s p) →
  (∀ b' s' fl', released s fl s' fl' (λ p, ∃ d, d ∈ ds ∧ desc_pages gs d p) → Q b' s') →
  wp (init_release gs ds b) Q s.
Proof.
  intros H Hsep Hal. revert s fl b H. induction ds as [|d ds IH];
    intros s fl b H Hok Hdis HT Hres HQ; simpl.
  { apply wp_ret, (HQ _ _ fl). apply released_refl; [done|]. intros p (? & ?%not_elem_of_nil & _). done. }
  apply Forall_cons in Hok as [Hd Hok]. apply Forall_cons in HT as [HTd HT].
  inversion Hdis as [|? ? Hdd Hdis']; subst. rewrite Stdlib.Lists.List.Forall_forall in Hdd.
  assert (negb (is_usable_type (d_Type d)) || (d_NumberOfPages d =? 0) = negb (desc_usable d)) as ->.
  { unfold desc_usable. by rewrite negb_andb, negb_involutive. }
  assert (∀ p, (∃ d', d' ∈ d :: ds ∧ desc_pages gs d' p) ↔
    desc_pages gs d p ∨ ∃ d', d' ∈ ds ∧ desc_pages gs d' p) as Hcons by set_solver.
  destruct (desc_usable d) eqn:Hu; simpl.
  - destruct (desc_end_ok d Hd) as (_ & ? & ?). apply wp_bind.
    eapply (wp_release_descriptor gs lo); try done; [lia|unfold PAGE_SIZE; lia|lia|by apply HTd| |].
    { intros p Hp. apply (Hres d); [set_solver|]. done. }
    intros b1 s1 fl1 Hrel. destruct (released_orders _ _ _ _ _ Hrel) as [_ ET].
    apply (IH s1 fl1); try done; [by destruct Hrel|by rewrite ET| |].
    + intros d' p Hd' Hp. eapply released_reserved; [done|by apply (Hres d'); [set_solver|]|].
      intros Hp'. apply (Hdd d') with p; [by apply list_elem_of_In|done|done].
    + intros b2 s2 fl2 Hrel2. apply (HQ b2 s2 fl2). eapply released_trans; [done|done|].
      intros p. rewrite Hcons. unfold desc_pages at 1. by rewrite Hu; naive_solver.
  - apply (IH s fl); try done.
    + intros d' p Hd'. apply Hres. set_solver.
    + intros b2 s2 fl2 Hrel2. apply (HQ b2 s2 fl2).
      eapply released_trans; [by apply (released_refl s fl (λ _, False)); auto|done|].
      intros p. rewrite Hcons. unfold desc_pages at 1. rewrite Hu. naive_solver.
Qed.

(** ** The early pool *)

Lemma inv_hole_pool s fl a n x y z :
  inv_hole s fl a n → inv_hole (set_pool x y z s) fl a n.
Proof.
  intros [HT HO Hr Hmd Hnd Hh Hdup Hf Hs Hu]. split; simpl; try done.
  intros p m Hm Hn. destruct (Hs p m Hm Hn) as [?|[?|(o & E & Hb & Hd)]]; [by auto..|].
  right; right. exists o. split; [done|]. split; [by destruct Hb|done].
Qed.

Lemma order_for_pow2 mo k t :
  0 ≤ mo < 63 → 0 ≤ k → t = order_for_pages mo (2 ^ k) → 2 ^ k ≤ 2 ^ t → 0 ≤ t → t ≤ mo → t = k.
Proof.
  intros Hmo Hk -> Hle Ht0 Htm. pose proof (pow2_pos k Hk).
  destruct (order_for_pages_spec mo (2 ^ k)) as [[E _]|(_ & _ & Hleast)]; [lia..|].
  assert (k ≤ order_for_pages mo (2 ^ k)) by (apply Z.pow_le_mono_r_iff with 2; lia).
  destruct (decide (k < order_for_pages mo (2 ^ k))); [|lia].
  pose proof (Hleast k ltac:(lia)). lia.
Qed.

(** The page [p] belongs to the early pool of [s]. *)
Definition in_pool (s : pmm) (p : Z) : Prop :=
  early_pool_start s ≤ p * PAGE_SIZE < early_pool_end s.

Definition pool_limit_of (s : pmm) : Z := clamp_early_alloc_limit (early_alloc_limit s).

(** The pool is absent, or a used block with [k] of its pages handed out. *)
Definition pool_ok (s : pmm) : Prop :=
  (early_pool_start s = 0 ∧ early_pool_end s = 0 ∧ early_pool_next s = 0) ∨
  ∃ b t k, 0 < b ∧ used_block s b t ∧ 0 ≤ k ≤ 2 ^ t ∧
    early_pool_start s = b * PAGE_SIZE ∧ early_pool_end s = (b + 2 ^ t) * PAGE_SIZE ∧
    early_pool_next s = (b + k) * PAGE_SIZE ∧ early_pool_end s ≤ pool_limit_of s.

(** What [reserve_early_pool] does: the pool is a block of formerly free
    pages, or empty. *)
Lemma wp_reserve_early_pool s fl (Q : unit → pmm → Prop) :
  inv_hole s fl 0 0 → 0 ≤ pool_limit_of s →
  (∀ s' fl', inv_hole s' fl' 0 0 →
     (∀ p, in_pool s' p → covered (pmm_max_order s) fl p) →
     (∀ p, covered (pmm_max_order s) fl' p ↔
           covered (pmm_max_order s) fl p ∧ ¬ in_pool s' p) →
     early_pool_next s' = early_pool_start s' ∧ pool_ok s' ∧
     early_pool_end s' ≤ pmm_total_pages s * PAGE_SIZE ∧
     pmm_total_pages s' = pmm_total_pages s ∧ pmm_max_order s' = pmm_max_order s ∧
     pmm_metadata_phys s' = pmm_metadata_phys s ∧
     pmm_metadata_bytes s' = pmm_metadata_bytes s ∧
     early_alloc_limit s' = early_alloc_limit s → Q tt s') →
  wp reserve_early_pool Q s.
Proof.
  intros H Hlim HQ. unfold reserve_early_pool. wp_steps. simpl early_alloc_limit.
  fold (pool_limit_of s). set (s0 := set_pool 0 0 0 s).
  assert (inv_hole s0 fl 0 0) as H0 by (by apply inv_hole_pool).
  pose proof (ih_total _ _ _ _ H) as HT. pose proof (ih_order _ _ _ _ H) as HO.
  assert (Q tt s0) as Hempty.
  { apply (HQ s0 fl); [done| | |].
    - unfold in_pool, PAGE_SIZE. simpl. intros; lia.
    - unfold in_pool, PAGE_SIZE. simpl. intros p. split; [intros; split; [done|lia]|tauto].
    - simpl. unfold PAGE_SIZE. split; [done|]. split; [by left|]. split; [lia|done]. }
  destruct (Z.leb_spec (pool_limit_of s) EARLY_POOL_MIN); [by apply wp_ret|].
  apply (wp_while_idx _ _ (λ v sz s', s' = s0 ∧ sz = 2 ^ v * PAGE_SIZE ∧ 0 ≤ v ≤ 12) _ 12);
    [done|lia|].
  intros v sz s' (-> & -> & Hv). pose proof (pow2_pos v ltac:(lia)) as Hp.
  assert (2 ^ v ≤ 2 ^ 12) as Hp12 by (apply pow2_le; lia).
  rewrite Z.div_mul by done. apply wp_bind.
  eapply (wp_alloc s0 fl); [done|lia|unfold EARLY_POOL_MIN; lia|done|].
  intros phys s1 [(fl' & b & -> & Hok & Hct & Hlo & Hhi)|(-> & -> & _)].
  - set (t := order_for_pages (pmm_max_order s0) (2 ^ v)) in *.
    pose proof (ao_order _ _ _ _ _ _ Hok) as Ht.
    change (pmm_max_order s0) with (pmm_max_order s) in Ht.
    assert (t = v) as Etv by (apply (order_for_pow2 (pmm_max_order s)); [lia..|done|done|lia|lia]).
    rewrite Etv in *. assert (1 ≤ b) as Hb1 by (unfold req_min in Hlo; lia).
    assert (b + 2 ^ v ≤ pmm_total_pages s) as Hbt by (unfold req_max in Hhi; simpl in Hhi; lia).
    rewrite (proj2 (Z.eqb_neq (b * PAGE_SIZE) 0)) by (unfold PAGE_SIZE; lia). simpl negb.
    wp_steps. rewrite u64_small by (unfold PAGE_SIZE; lia).
    pose proof (ao_config _ _ _ _ _ _ Hok) as [= E1 E2 E3 E4 E5 E6 E7 E8].
    assert (∀ p, in_pool (set_pool (b * PAGE_SIZE) (b * PAGE_SIZE + 2 ^ v * PAGE_SIZE)
      (b * PAGE_SIZE) s1) p ↔ inh b (2 ^ v) p) as Hin.
    { intros p. unfold in_pool, inh, PAGE_SIZE. simpl. lia. }
    apply (HQ _ fl').
    + apply inv_hole_pool, Hok.
    + intros p Hpp%Hin. by apply (ao_was_free _ _ _ _ _ _ Hok).
    + intros p. rewrite Hin. exact (ao_covered _ _ _ _ _ _ Hok p).
    + simpl. split; [done|]. split; [|split; [unfold PAGE_SIZE; lia|done]].
      right. exists b, v, 0. split; [lia|].
      assert (b * PAGE_SIZE + 2 ^ v * PAGE_SIZE ≤ pool_limit_of s) as Hpl.
      { assert (b + 2 ^ v ≤ pool_limit_of s / PAGE_SIZE) as Hd by (unfold req_max in Hhi; lia).
        pose proof (Z.mul_div_le (pool_limit_of s) PAGE_SIZE ltac:(done)). unfold PAGE_SIZE in *. lia. }
      split; [|simpl; unfold pool_limit_of at 1; simpl; rewrite E5; fold (pool_limit_of s); lia].
      split; [cbn [set_pool pmm_max_order]; rewrite E2; exact Ht|]. simpl. destruct (meta_facts v ltac:(lia)) as (_ & -> & _).
      { apply (ao_meta _ _ _ _ _ _ Hok); [lia|]. by right. }
  - simpl negb. cbn iota. destruct (Z.eqb_spec (2 ^ v * PAGE_SIZE) PAGE_SIZE) as [|Hne].
    { by apply wp_ret. }
    assert (v ≠ 0) by (intros ->; done). apply wp_ret. exists (v - 1). split; [lia|].
    split; [done|]. split; [|lia]. rewrite Z.shiftr_div_pow2 by lia.
    replace v with (v - 1 + 1) at 1 by lia. rewrite pow2_S by lia.
    replace (2 * 2 ^ (v - 1) * PAGE_SIZE) with (2 ^ (v - 1) * PAGE_SIZE * 2 ^ 1) by lia.
    by rewrite Z.div_mul.
Qed.

(** ** Counting free pages *)

(** Executable test: the page lies in a free block. *)
Definition free_pageb (s : pmm) (p : Z) : bool :=
  existsb (λ o, bool_decide (pmm_page_meta s !! (p / 2 ^ o * 2 ^ o) = Some (meta_make_free o)))
    (seqZ 0 (pmm_max_order s + 1)).

Lemma free_pageb_spec s fl p :
  inv_hole s fl 0 0 → 0 ≤ p → free_pageb s p = true ↔ free_page s p.
Proof.
  intros H Hp. pose proof (ih_order _ _ _ _ H) as HO. unfold free_pageb, free_page.
  rewrite existsb_exists. split.
  - intros (o & Ho%list_elem_of_In%elem_of_seqZ & Hm%bool_decide_eq_true).
    exists o, (p / 2 ^ o * 2 ^ o). pose proof (pow2_pos o ltac:(lia)).
    split; [lia|]. split; [done|]. unfold inh.
    pose proof (Z.div_mod p (2 ^ o)). pose proof (Z.mod_pos_bound p (2 ^ o)). lia.
  - intros (o & x & Ho & Hm & Hx). exists o.
    split; [apply list_elem_of_In, elem_of_seqZ; lia|]. apply bool_decide_eq_true.
    assert (x ∈ fl o) as Hxf.
    { apply (ih_free _ _ _ _ H); [done|]. destruct (meta_facts o ltac:(lia)) as (E & _).
      rewrite E in Hm. split; [done|]. unfold inh. lia. }
    destruct (inv_block_free H o x Ho Hxf) as ([_ [q ->] _ _] & _).
    pose proof (pow2_pos o ltac:(lia)). unfold inh in Hx.
    assert (p / 2 ^ o = q) as -> by (symmetry; apply (Z.div_unique_pos _ _ q (p - q * 2 ^ o)); lia).
    done.
Qed.

(** Free pages among the first [n]. *)
Definition free_count (s : pmm) (n : Z) : Z :=
  Z.of_nat (length (filter (λ p, free_pageb s p = true) (seqZ 0 n))).

Lemma free_count_add s n k v :
  0 ≤ n → 0 ≤ k → (∀ p, n ≤ p < n + k → free_pageb s p = v) →
  free_count s (n + k) = free_count s n + (if v then k else 0).
Proof.
  intros Hn Hk Hv. unfold free_count. rewrite seqZ_app, filter_app, length_app by lia.
  replace (0 + n) with n by lia.
  assert (length (filter (λ p, free_pageb s p = true) (seqZ n k)) =
    if v then Z.to_nat k else 0%nat) as ->; [|destruct v; lia].
  rewrite <-(length_seqZ n k).
  assert (∀ l, (∀ p, p ∈ l → free_pageb s p = v) →
    length (filter (λ p, free_pageb s p = true) l) = if v then length l else 0%nat) as Hl.
  { induction l as [|p l IH]; intros Hl; [by destruct v|]. rewrite filter_cons.
    rewrite (Hl p) by set_solver. destruct v; simpl; rewrite IH; try done; set_solver. }
  apply Hl. intros p Hp%elem_of_seqZ. by apply Hv.
Qed.
