(* ===== verification/PmmBoot.v ===== *)
(** * Physical memory manager: boot

    [count_free_pages_below] counts the free pages, and [pmm_init] leaves
    exactly the usable memory outside the guards, the metadata and the early
    pool free. *)

From S2P Require Import Prelude Pmm PmmInv PmmHole PmmFree PmmAlloc PmmRanges PmmInit.

(** ** Counting *)

Section count.
Context {s : pmm} {fl : Z → list Z} (H : inv_hole s fl 0 0).

(** Page [p] is not strictly inside a free block. *)
Definition at_head (p : Z) : Prop :=
  ∀ o x, 0 ≤ o ≤ pmm_max_order s → x ∈ fl o → x < p → x + 2 ^ o ≤ p.

Lemma free_pageb_covered p :
  0 ≤ p → free_pageb s p = true ↔ covered (pmm_max_order s) fl p.
Proof. intros. by rewrite (free_pageb_spec s fl), (covered_free_page s fl). Qed.

(** The [k] pages from [p] on, none of which is the head of a free block. *)
Lemma skip_not_free p k :
  0 ≤ p → 0 ≤ k → at_head p →
  (∀ q m, p ≤ q < p + k → pmm_page_meta s !! q = Some m → 64 ≤ m) →
  at_head (p + k) ∧ ∀ q, p ≤ q < p + k → free_pageb s q = false.
Proof.
  intros Hp Hk Hat Hm.
  assert (∀ o x, 0 ≤ o ≤ pmm_max_order s → x ∈ fl o → x < p + k → x < p) as Hx.
  { intros o x Ho Hx Hlt. destruct (decide (x < p)); [done|exfalso].
    destruct (inv_block_free H o x Ho Hx) as (_ & Hmx & _).
    pose proof (Hm x o ltac:(lia) Hmx). pose proof (ih_order _ _ _ _ H). lia. }
  split.
  - intros o x Ho Hxf Hlt. pose proof (Hx o x Ho Hxf Hlt).
    pose proof (Hat o x Ho Hxf ltac:(lia)). lia.
  - intros q Hq. apply not_true_iff_false. rewrite free_pageb_covered by lia.
    intros (o & x & Ho & Hxf & Hi). unfold inh in Hi.
    pose proof (Hx o x Ho Hxf ltac:(lia)). pose proof (Hat o x Ho Hxf ltac:(lia)). lia.
Qed.

(** One non-tail page: its whole block is free, or none of it is. *)
Lemma count_block p m :
  at_head p → pmm_page_meta s !! p = Some m → meta_is_tail m = false →
  0 ≤ meta_order m < 63 ∧ 2 ^ meta_order m ≤ 2 ^ 62 ∧
  at_head (p + 2 ^ meta_order m) ∧
  ∀ q, p ≤ q < p + 2 ^ meta_order m → free_pageb s q = meta_is_free m.
Proof.
  intros Hat Hm Ht. pose proof (ih_order _ _ _ _ H) as HO.
  assert (0 ≤ p) as Hp by (apply (ih_meta_dom _ _ _ _ H p); by rewrite Hm).
  destruct (ih_shape _ _ _ _ H p m Hm) as [->|[->|(o & Ho & Hb & _)]];
    [unfold inh; lia|done| |].
  { change (meta_order META_RESERVED) with 0. split; [lia|]. split; [lia|].
    apply skip_not_free; [lia|lia|done|]. intros q m' Hq Hm'.
    assert (q = p) as -> by lia. rewrite Hm in Hm'. injection Hm' as <-.
    by change META_RESERVED with 128. }
  pose proof (ba_order _ _ _ Hb). destruct (meta_facts o ltac:(lia)) as
    (Emf & _ & Ef & _ & Eof & Efu & _ & Eou & _).
  assert (2 ^ o ≤ 2 ^ 62) by (apply pow2_le; lia).
  destruct Ho as [->| ->].
  - rewrite Eof, Ef. split; [lia|]. split; [done|].
    assert (p ∈ fl o) as Hpf by (apply (ih_free _ _ _ _ H); [done|unfold inh; split; [done|lia]]).
    split.
    + intros o' x Ho' Hx Hlt. destruct (decide (x = p)) as [->|].
      { assert (o' = o) as ->; [|lia]. by eapply (free_lists_disjoint s fl 0 0 o' o p). }
      destruct (inv_block_free H o' x Ho' Hx) as (Hbx & Hmx & _).
      destruct (inv_heads_disjoint x o' p o Hbx Hb); [done| | |lia|lia].
      * rewrite Hmx. intros [= E]. unfold PMM_META_TAIL in E. lia.
      * rewrite Hm. intros [= E]. unfold PMM_META_TAIL in E. lia.
    + intros q Hq. apply free_pageb_covered; [lia|]. by exists o, p.
  - rewrite Eou, Efu. split; [lia|]. split; [done|]. apply skip_not_free; [lia|lia|done|].
    intros q m' Hq Hm'. destruct (decide (q = p)) as [->|].
    + rewrite Hm in Hm'. injection Hm' as <-. lia.
    + rewrite (ba_tail _ _ _ Hb) in Hm' by lia. injection Hm' as <-. unfold PMM_META_TAIL. lia.
Qed.

Lemma wp_count_free max_phys (Q : Z → pmm → Prop) :
  0 ≤ max_phys →
  Q (free_count s (Z.min (pmm_total_pages s) (max_phys / PAGE_SIZE))) s →
  wp (count_free_pages_below max_phys) Q s.
Proof.
  intros Hmp HQ. unfold count_free_pages_below. wp_steps.
  pose proof (ih_total _ _ _ _ H) as HT.
  assert (0 ≤ max_phys / PAGE_SIZE) by (apply Z.div_pos; unfold PAGE_SIZE; lia).
  replace (if pmm_total_pages s <? max_phys / PAGE_SIZE then pmm_total_pages s
           else max_phys / PAGE_SIZE)
    with (Z.min (pmm_total_pages s) (max_phys / PAGE_SIZE)) by (bool_cases; lia).
  set (n := Z.min (pmm_total_pages s) (max_phys / PAGE_SIZE)) in *.
  assert (0 ≤ n ≤ pmm_total_pages s) as Hn by lia.
  apply (wp_while_idx _ _ (λ v '(page, cnt) s', s' = s ∧ 0 ≤ page ∧ at_head page ∧
    cnt = free_count s (Z.min page n) ∧ v = Z.max 0 (n - page) ∧ 0 ≤ cnt ≤ Z.min page n) _ n); [|lia|].
  { split; [done|]. split; [lia|]. split.
    { intros o x Ho Hx. pose proof (inv_free_range H o x Ho Hx). lia. }
    rewrite Z.min_l by lia. split; [done|lia]. }
  intros v [page cnt] s' (-> & Hp & Hat & Ec & -> & Hcb).
  destruct (Z.ltb_spec page n) as [Hlt|Hge]; [|by apply wp_ret; rewrite Ec, Z.min_r].
  rewrite Z.min_l in Ec by lia.
  assert (is_Some (pmm_page_meta s !! page)) as [m Hm] by (apply (ih_meta_dom _ _ _ _ H); lia).
  apply wp_bind. eapply wp_rd_meta; [exact Hm|]. destruct (meta_is_tail m) eqn:Et.
  - apply Z.eqb_eq in Et. destruct (skip_not_free page 1 Hp ltac:(lia) Hat) as [Hat' Hf].
    { intros q m' Hq. assert (q = page) as -> by lia. rewrite Hm. intros [= <-].
      by rewrite Et. }
    apply wp_ret. rewrite u64_small by lia. exists (Z.max 0 (n - (page + 1))).
    split; [lia|]. split; [done|]. split; [lia|]. split; [done|].
    rewrite Z.min_l by lia. split; [|lia].
    rewrite (free_count_add s page 1 false) by (first [lia|done]). lia.
  - destruct (count_block page m Hat Hm Et) as (Ho & Hpo & Hat' & Hf).
    pose proof (pow2_pos (meta_order m) ltac:(lia)) as Hpos.
    apply wp_ret. rewrite order_pages_pow2, (u64_small (page + _)) by lia.
    exists (Z.max 0 (n - (page + 2 ^ meta_order m))).
    split; [lia|]. split; [done|]. split; [lia|]. split; [done|].
    set (k := Z.min (2 ^ meta_order m) (n - page)).
    assert ((if n <? page + 2 ^ meta_order m then u64 (n - page) else 2 ^ meta_order m) = k) as ->.
    { destruct (Z.ltb_spec n (page + 2 ^ meta_order m)); rewrite ?u64_small by lia; lia. }
    replace (Z.min (page + 2 ^ meta_order m) n) with (page + k) by lia.
    rewrite (free_count_add s page k (meta_is_free m)) by (first [lia|intros; apply Hf; lia]).
    destruct (meta_is_free m); rewrite ?u64_small by lia; lia.
Qed.

(** Every page is counted exactly once: as used or as free. *)
Lemma used_free_total : pmm_used_pages s + free_count s (pmm_total_pages s) = pmm_total_pages s.
Proof.
  destruct (free_pages_list s fl 0 0 H) as (F & HnF & HF & HFc).
  rewrite (ih_used _ _ _ _ H). unfold free_count.
  assert (filter (λ p, free_pageb s p = true) (seqZ 0 (pmm_total_pages s)) ≡ₚ F) as ->; [|lia].
  apply NoDup_Permutation; [apply NoDup_filter, NoDup_seqZ|done|].
  intros p. rewrite list_elem_of_filter, elem_of_seqZ, HFc. split.
  - intros [Hf Hp]. by apply free_pageb_covered; [lia|].
  - intros Hc. assert (0 ≤ p < pmm_total_pages s) as Hp.
    { destruct Hc as (o & x & Ho & Hx & Hi). destruct (inv_block_free H o x Ho Hx) as ([_ _ ? _] & _).
      unfold inh in Hi. lia. }
    split; [|lia]. apply free_pageb_covered; [lia|done].
Qed.
End count.

(** ** The steps of [pmm_init] *)

Lemma metadata_size_ok T mo :
  0 < T ≤ 2 ^ 40 → 0 ≤ mo < 63 →
  0 < metadata_size_bytes T mo ≤ 2 ^ 45 ∧ (PAGE_SIZE | metadata_size_bytes T mo).
Proof.
  intros HT Hmo. unfold metadata_size_bytes.
  rewrite (u64_small (0 + T * 1)), (u64_small (T * 8)), (u64_small ((mo + 1) * 8)) by lia.
  change 8 with (2 ^ 3).
  destruct (align_up_bounds (0 + T * 1) 3) as [H1 _]; [lia..|].
  set (a1 := align_up (0 + T * 1) (2 ^ 3)) in *. rewrite (u64_small (a1 + T * 2 ^ 3)) by lia.
  destruct (align_up_bounds (a1 + T * 2 ^ 3) 3) as [H2 _]; [lia..|].
  set (a2 := align_up (a1 + T * 2 ^ 3) (2 ^ 3)) in *.
  rewrite (u64_small (a2 + (mo + 1) * 2 ^ 3)) by lia.
  destruct (align_up_page (a2 + (mo + 1) * 2 ^ 3)) as [H3 ?]; [unfold PAGE_SIZE; lia..|].
  split; [|done]. unfold PAGE_SIZE in *. lia.
Qed.

Lemma desc_usable_split d :
  desc_ok d → desc_usable d = true ↔ is_usable_type (d_Type d) = true ∧ d_PhysicalStart d < desc_end d.
Proof.
  intros Hd. destruct (desc_end_ok d Hd) as (-> & _). destruct Hd as (_ & Hn & _).
  unfold desc_usable. rewrite andb_true_iff, negb_true_iff, Z.eqb_neq.
  unfold PAGE_SIZE. split; intros [? ?]; (split; [done|]); lia.
Qed.

Lemma init_max_phys_spec ds :
  Forall desc_ok ds →
  0 ≤ init_max_phys ds ≤ 2 ^ 52 ∧
  ∀ d, d ∈ ds → desc_usable d = true → desc_end d ≤ init_max_phys ds.
Proof.
  intros Hok. unfold init_max_phys.
  set (f := λ max_phys d, _ : Z).
  assert (∀ m, 0 ≤ m ≤ 2 ^ 52 → m ≤ foldl f m ds ∧ foldl f m ds ≤ 2 ^ 52 ∧
    ∀ d, d ∈ ds → desc_usable d = true → desc_end d ≤ foldl f m ds) as H.
  { induction Hok as [|d ds Hd Hok IH]; intros m Hm; cbn [foldl].
    { split; [lia|]. split; [lia|]. intros d Hd%not_elem_of_nil. done. }
    destruct (desc_end_ok d Hd) as (_ & ? & ?).
    assert (m ≤ f m d ≤ 2 ^ 52 ∧ (desc_usable d = true → desc_end d ≤ f m d)) as [Hf Hfd].
    { unfold f, desc_usable. destruct Hd as (Hs & Hn & He). unfold PAGE_SIZE, UINT64_MAX in *.
      destruct (is_usable_type (d_Type d)); simpl; [|split; [lia|done]].
      destruct (Z.eqb_spec (d_NumberOfPages d) 0); simpl; [split; [lia|done]|].
      destruct (Z.ltb_spec ((2 ^ 64 - 1) / 4096) (d_NumberOfPages d)) as [Hbig|_].
      { change ((2 ^ 64 - 1) / 4096) with (2 ^ 52 - 1) in Hbig. lia. }
      destruct (Z.ltb_spec m (desc_end d)); split; intros; lia. }
    destruct (IH (f m d)) as (H1 & H2 & H3); [lia|]. split; [lia|]. split; [done|].
    intros d' [->|Hd']%elem_of_cons Hu; [specialize (Hfd Hu); lia|by apply H3]. }
  destruct (H 0) as (? & ? & ?); [lia|]. split; [lia|done].
Qed.

(** What the placement loop guarantees of the base it chooses. *)
Definition good_base (gs : list phys_range) (bytes : Z) (ds : list efi_memory_descriptor)
    (base : Z) : Prop :=
  0 < base ∧ (PAGE_SIZE | base) ∧ base + bytes ≤ EARLY_PHYS_LIMIT ∧
  (∃ d, d ∈ ds ∧ desc_usable d = true ∧ d_PhysicalStart d ≤ base ∧ base + bytes ≤ desc_end d) ∧
  (∀ x, base ≤ x < base + bytes → ¬ in_ranges gs x).

Lemma init_best_spec gs lo bytes ds :
  Forall desc_ok ds → separated lo gs → (∀ g, g ∈ gs → 0 ≤ pr_start g ∧ pr_end g ≤ 2 ^ 53) →
  0 < bytes →
  let best := foldl (init_best_step gs bytes) (0, 0) ds in
  best.1 = 0 ∨ good_base gs bytes ds best.1.
Proof.
  intros Hok Hsep Hb Hby. simpl. rewrite Forall_forall in Hok.
  assert (∀ l best, (∀ d, d ∈ l → d ∈ ds) → best.1 = 0 ∨ good_base gs bytes ds best.1 →
    let best' := foldl (init_best_step gs bytes) best l in
    best'.1 = 0 ∨ good_base gs bytes ds best'.1) as H; [|by apply H; [|left]].
  induction l as [|d l IH]; intros best Hl Hbest; [done|]. cbn [foldl].
  apply IH; [intros; apply Hl; set_solver|]. assert (d ∈ ds) as Hd by (apply Hl; set_solver).
  destruct (desc_end_ok d (Hok d Hd)) as (_ & Hse & Hle). unfold init_best_step.
  destruct (is_usable_type (d_Type d)) eqn:Hty; simpl; [|done].
  destruct (Z.leb_spec EARLY_PHYS_LIMIT (d_PhysicalStart d)); [done|].
  set (e := if EARLY_PHYS_LIMIT <? desc_end d then EARLY_PHYS_LIMIT else desc_end d).
  assert (e ≤ EARLY_PHYS_LIMIT ∧ e ≤ desc_end d) as [He1 He2] by (unfold e; bool_cases; lia).
  destruct (Z.leb_spec e (d_PhysicalStart d)); [done|].
  destruct (find_region_base (d_PhysicalStart d) e gs bytes) as [c|] eqn:Hf; [|done].
  case_match; [|done]. simpl.
  destruct (find_region_base_spec gs lo (d_PhysicalStart d) e bytes c) as (Hc1 & Hc2 & Hc3 & Hc4);
    [done|done|lia|unfold PAGE_SIZE; lia|lia|lia|done|].
  destruct (decide (c = 0)) as [->|]; [by left|right]. split; [lia|]. split; [done|].
  split; [lia|]. split; [|done]. exists d. split; [done|]. split; [|lia].
  apply desc_usable_split; [by apply Hok|]. split; [done|lia].
Qed.

(** ** [pmm_init] *)

(** Addresses of guards: page aligned and small. *)
Definition guard_addr (x : Z) : Prop := 0 ≤ x ≤ 2 ^ 53 ∧ (PAGE_SIZE | x).

Lemma normalized_guards rs :
  Forall (good_ends guard_addr) rs →
  separated (-1) (normalized rs) ∧ aligned_ranges (normalized rs) ∧
  (∀ g, g ∈ normalized rs → 0 ≤ pr_start g ∧ pr_end g ≤ 2 ^ 53) ∧
  (∀ x, in_ranges (normalized rs) x ↔ in_ranges rs x).
Proof.
  intros Hr. assert (guard_addr 0) as H0 by (split; [lia|apply Z.divide_0_r]).
  pose proof (normalized_ends guard_addr rs H0 Hr) as Hn. rewrite Forall_forall in Hn, Hr.
  destruct (normalized_spec (-1) rs) as [Hs Hi].
  { intros r [[? _] _]%Hr. lia. }
  split; [done|]. split; [|split; [|done]]; intros g [[? ?] [? ?]]%Hn; [done|lia].
Qed.

(** The symbols of the linker script delimit images in the first 4 PiB. *)
Definition linker_ok (l : linker_syms) : Prop :=
  0 ≤ kernel_lma_start l ≤ 2 ^ 52 ∧ 0 ≤ kernel_lma_end l ≤ 2 ^ 52 ∧
  0 ≤ boot_lma_start l ≤ 2 ^ 52 ∧ 0 ≤ boot_lma_end l ≤ 2 ^ 52.

Lemma fixed_guards_ok l : linker_ok l → Forall (good_ends guard_addr) (fixed_guards l).
Proof.
  intros (? & ? & ? & ?).
  assert (∀ v, 0 ≤ v ≤ 2 ^ 52 → guard_addr (align_up v PAGE_SIZE)) as Hup.
  { intros v ?. destruct (align_up_page v); [unfold PAGE_SIZE; lia..|].
    split; [unfold PAGE_SIZE in *; lia|done]. }
  assert (∀ v, 0 ≤ v ≤ 2 ^ 52 → guard_addr (align_down v PAGE_SIZE)) as Hdown.
  { intros v ?. destruct (align_down_page v) as [? [q E]]; [lia|].
    split; [unfold PAGE_SIZE in *; lia|by exists q]. }
  assert (∀ q, 0 ≤ q ≤ 9 → guard_addr (q * PAGE_SIZE)) as Hq.
  { intros q ?. split; [unfold PAGE_SIZE; lia|by exists q]. }
  apply Forall_cons_2; [by split; [apply (Hq 0)|apply (Hq 1)]|].
  apply Forall_cons_2; [by split; [apply (Hq 8)|apply (Hq 9)]|].
  apply Forall_cons_2; [by split; [apply Hdown|apply Hup]|].
  apply Forall_cons_2; [by split; [apply Hdown|apply Hup]|]. apply Forall_nil_2.
Qed.

Record boot_ok (h : fry_handoff) (l : linker_syms) : Prop := {
  bo_map : hf_mmap_base h ≠ 0 ∧ hf_mmap_size h ≠ 0 ∧ hf_mmap_desc_size h ≠ 0;
  bo_descs : Forall desc_ok (handoff_descs h);
  bo_disjoint : ForallOrdPairs (λ d1 d2, desc_usable d1 = true → desc_usable d2 = true →
    desc_end d1 ≤ d_PhysicalStart d2 ∨ desc_end d2 ≤ d_PhysicalStart d1) (handoff_descs h);
  bo_usable : ∃ d, d ∈ handoff_descs h ∧ desc_usable d = true;
  bo_limit : 0 ≤ hf_boot_identity_limit h < 2 ^ 64;
  bo_syms : linker_ok l
}.

(** The page lies inside a usable descriptor. *)
Definition usable_page (h : fry_handoff) (p : Z) : Prop :=
  ∃ d, d ∈ handoff_descs h ∧ desc_usable d = true ∧
    d_PhysicalStart d ≤ p * PAGE_SIZE ∧ (p + 1) * PAGE_SIZE ≤ desc_end d.

(** The pages the allocator may own: usable, outside the fixed guards and
    outside the metadata. *)
Definition boot_page (h : fry_handoff) (l : linker_syms) (base bytes p : Z) : Prop :=
  usable_page h p ∧ ¬ in_ranges (fixed_guards l) (p * PAGE_SIZE) ∧
  ¬ (base ≤ p * PAGE_SIZE < base + bytes).

Lemma desc_pages_usable gs d p :
  desc_ok d → desc_pages gs d p ↔
  desc_usable d = true ∧ d_PhysicalStart d ≤ p * PAGE_SIZE ∧
  (p + 1) * PAGE_SIZE ≤ desc_end d ∧ ¬ in_ranges gs (p * PAGE_SIZE).
Proof.
  intros Hd. destruct (desc_end_ok d Hd) as (_ & ? & ?). unfold desc_pages, page_free_of.
  destruct (align_up_page (d_PhysicalStart d)) as [Hu [q Eq]]; [unfold PAGE_SIZE; lia..|].
  destruct (align_down_page (desc_end d)) as [Hw [r Er]]; [lia|].
  rewrite Eq, Er in *. unfold PAGE_SIZE in *.
  split; [intros (? & ? & ?)|intros (? & ? & ? & ?)]; repeat split; try done; lia.
Qed.

Lemma boot_page_descs h l base bytes gs p :
  Forall desc_ok (handoff_descs h) →
  (∀ x, in_ranges gs x ↔ in_ranges (fixed_guards l ++ [PhysRange base (base + bytes)]) x) →
  (∃ d, d ∈ handoff_descs h ∧ desc_pages gs d p) ↔ boot_page h l base bytes p.
Proof.
  intros Hok Hg. rewrite Forall_forall in Hok. unfold boot_page, usable_page.
  assert (in_ranges gs (p * PAGE_SIZE) ↔ in_ranges (fixed_guards l) (p * PAGE_SIZE) ∨
    base ≤ p * PAGE_SIZE < base + bytes) as Hg'.
  { rewrite Hg, in_ranges_snoc. done. }
  split.
  - intros (d & Hd & Hp). apply desc_pages_usable in Hp as (? & ? & ? & Hn); [|by apply Hok].
    rewrite Hg' in Hn. split; [by exists d|]. tauto.
  - intros ((d & Hd & ? & ? & ?) & ? & ?). exists d. split; [done|].
    apply desc_pages_usable; [by apply Hok|]. split; [done|]. rewrite Hg'. tauto.
Qed.

Lemma ForallOrdPairs_impl_in {A} (R R' : A → A → Prop) l :
  (∀ x y, x ∈ l → y ∈ l → R x y → R' x y) → ForallOrdPairs R l → ForallOrdPairs R' l.
Proof.
  intros Himp HR. induction HR as [|x l Hx HR IH]; constructor.
  - rewrite Stdlib.Lists.List.Forall_forall in *. intros y Hy. apply Himp; [set_solver| |by apply Hx].
    apply elem_of_cons. right. by apply list_elem_of_In.
  - apply IH. intros; apply Himp; set_solver.
Qed.

(** The allocator after a successful [pmm_init]: the invariant holds and the
    free pages are the pages it may own, less the early pool. *)
Record booted (h : fry_handoff) (l : linker_syms) (s : pmm) : Prop := {
  bt_inv : pmm_inv s;
  bt_total : ∀ d, d ∈ handoff_descs h → desc_usable d = true →
    desc_end d ≤ pmm_total_pages s * PAGE_SIZE;
  bt_base : good_base (fixed_guards l) (pmm_metadata_bytes s) (handoff_descs h) (pmm_metadata_phys s);
  bt_bytes : pmm_metadata_bytes s = metadata_size_bytes (pmm_total_pages s) (pmm_max_order s);
  bt_pool : ∀ p, in_pool s p → boot_page h l (pmm_metadata_phys s) (pmm_metadata_bytes s) p;
  bt_next : early_pool_next s = early_pool_start s;
  bt_pool_ok : pool_ok s ∧ 0 ≤ early_alloc_limit s < 2 ^ 64;
  bt_free : ∀ p, free_page s p ↔
    boot_page h l (pmm_metadata_phys s) (pmm_metadata_bytes s) p ∧ ¬ in_pool s p
}.

Lemma clamp_limit_range v : 0 ≤ v < 2 ^ 64 → 0 ≤ clamp_early_alloc_limit v ≤ EARLY_PHYS_LIMIT.
Proof.
  intros Hv. unfold clamp_early_alloc_limit.
  set (w := if (v =? 0) || (EARLY_PHYS_LIMIT <? v) then EARLY_PHYS_LIMIT else v).
  assert (0 ≤ w ≤ EARLY_PHYS_LIMIT) as Hw by (unfold w, EARLY_PHYS_LIMIT in *; bool_cases; simpl; lia).
  destruct (align_down_page w) as [? [q ?]]; [unfold EARLY_PHYS_LIMIT in *; lia|].
  unfold PAGE_SIZE in *. lia.
Qed.

Section init.
Context {h : fry_handoff} {l : linker_syms} (Hbo : boot_ok h l).

(** The part of [pmm_init] that follows the placement of the metadata. *)
Lemma wp_init_place s0 limit total bytes mo base (Q : option bool → pmm → Prop) :
  0 < total ≤ 2 ^ 40 → mo = compute_max_order total →
  bytes = metadata_size_bytes total mo → 0 ≤ limit < 2 ^ 64 →
  (∀ d, d ∈ handoff_descs h → desc_usable d = true → desc_end d ≤ total * PAGE_SIZE) →
  good_base (normalized (fixed_guards l)) bytes (handoff_descs h) base →
  (∀ b s', booted h l s' → Q (Some b) s') →
  wp (init_place l (handoff_descs h) limit total bytes mo base) Q s0.
Proof.
  intros HT EO EB Hlim HTd Hbase HQ. unfold init_place. apply wp_bind, wp_modify.
  match goal with |- wp ?m _ _ => cut (∀ s, pmm_total_pages s = total → pmm_max_order s = mo →
    pmm_metadata_bytes s = bytes → pmm_metadata_phys s = base → early_alloc_limit s = limit →
    wp m Q s) end.
  { intros Hs. apply Hs; reflexivity. }
  intros s <- <- <- EP EL.
  pose proof (bo_descs _ _ Hbo) as Hok.
  destruct (compute_max_order_spec (pmm_total_pages s)) as [Hmo Hpow]; [lia|]. rewrite <-EO in Hmo, Hpow.
  destruct (metadata_size_ok (pmm_total_pages s) (pmm_max_order s)) as [Hby Hbd]; [lia..|].
  rewrite <-EB in Hby, Hbd. destruct Hbase as (Hb0 & Hba & Hb4 & Hbd2 & Hbg).
  pose proof (fixed_guards_ok l (bo_syms _ _ Hbo)) as Hfg.
  destruct (normalized_guards _ Hfg) as (_ & _ & _ & Hni).
  unfold EARLY_PHYS_LIMIT in Hb4. rewrite u64_small by lia.
  set (gs := fixed_guards l ++ [PhysRange base (base + pmm_metadata_bytes s)]).
  assert (Forall (good_ends guard_addr) gs) as Hgs.
  { apply Forall_app. split; [done|]. apply Forall_singleton.
    split; (split; [simpl; lia|]); [done|by apply Z.divide_add_r]. }
  destruct (normalized_guards _ Hgs) as (Hsep & Hal & _ & Hgi).
  apply wp_bind. unfold bind_metadata. wp_steps.
  match goal with |- wp _ _ (init_arrays _ _ ?s1) => set (s2 := s1) end.
  destruct (inv_init_arrays s2 (pmm_total_pages s) (pmm_max_order s)) as [Hinv Hres]; [lia..|done|done|].
  set (s3 := init_arrays (pmm_total_pages s) (pmm_max_order s) s2) in *.
  eapply (wp_init_release (normalized gs) (-1) s3 (λ _, []));
    [exact Hinv|exact Hsep|exact Hal|exact Hok|..].
  - apply (ForallOrdPairs_impl_in _ _ _) with (2 := bo_disjoint _ _ Hbo).
    rewrite Forall_forall in Hok. intros d1 d2 H1 H2 HR p Hp1 Hp2.
    apply desc_pages_usable in Hp1 as (Hu1 & ? & ? & _), Hp2 as (Hu2 & ? & ? & _); [|by apply Hok..].
    unfold PAGE_SIZE in *. destruct (HR Hu1 Hu2); lia.
  - apply Forall_forall. intros d Hd. by apply HTd.
  - intros d p Hd Hp. rewrite Forall_forall in Hok.
    apply desc_pages_usable in Hp as (Hu & ? & ? & _); [|by apply Hok].
    apply Hres. destruct (desc_end_ok d (Hok d Hd)) as (_ & ? & _).
    pose proof (HTd d Hd Hu). unfold PAGE_SIZE in *. lia.
  - intros b s4 fl4 (Hinv4 & Hcfg & Hcov & _). injection Hcfg as E1 E2 E3 E4 E5 E6 E7 E8.
    apply wp_bind. eapply (wp_reserve_early_pool s4 fl4); [done| |].
    { unfold pool_limit_of. rewrite E5. apply clamp_limit_range.
      change (0 ≤ early_alloc_limit s < 2 ^ 64). rewrite EL. exact Hlim. }
    intros s5 fl5 Hinv5 Hpool Hcov5 (En & Hpok & Hpe & ET5 & EO5 & EP5 & EB5 & EL5).
    apply wp_bind. eapply (wp_count_free Hinv5); [lia|]. wp_steps. apply HQ.
    assert (pmm_metadata_phys s5 = base) as Eb by (rewrite EP5, E3; exact EP).
    assert (pmm_metadata_bytes s5 = pmm_metadata_bytes s) as Eby by (rewrite EB5, E4; done).
    assert (∀ p, covered (pmm_max_order s4) fl4 p ↔ boot_page h l base (pmm_metadata_bytes s) p) as Hbp.
    { intros p. rewrite E2, <-(boot_page_descs h l base _ (normalized gs)) by done.
      etrans; [exact (Hcov p)|].
      split; [|by right]. intros [(? & ? & _ & Hnil & _)|Hd]; [|exact Hd].
      destruct (not_elem_of_nil _ Hnil). }
    split; rewrite ?Eb, ?Eby.
    + exists fl5. exact Hinv5.
    + intros d Hd Hu. rewrite ET5, E1. by apply HTd.
    + split; [exact Hb0|]. split; [exact Hba|]. split; [exact Hb4|]. split; [exact Hbd2|].
      intros x Hx. rewrite <-Hni. by apply Hbg.
    + rewrite EB, ET5, EO5, E1, E2. reflexivity.
    + intros p Hp. apply Hbp, Hpool, Hp.
    + exact En.
    + split; [exact Hpok|]. rewrite EL5, E5. change (0 ≤ early_alloc_limit s < 2 ^ 64).
      rewrite EL. exact Hlim.
    + intros p. rewrite <-(covered_free_page s5 fl5) by exact Hinv5.
      rewrite EO5, Hcov5, Hbp. reflexivity.
Qed.

Lemma wp_pmm_init_ok s :
  wp (pmm_init (Some h) l) (λ r s', match r with
    | Some _ => booted h l s'
    | None => init_base l (pmm_metadata_bytes s') (handoff_descs h) = 0 ∧
              pmm_page_meta s' = ∅ ∧ 0 < pmm_total_pages s'
    end) s.
Proof.
  unfold pmm_init. wp_steps. destruct (bo_map _ _ Hbo) as (Hm1 & Hm2 & Hm3).
  rewrite (proj2 (Z.eqb_neq _ _) Hm1), (proj2 (Z.eqb_neq _ _) Hm2), (proj2 (Z.eqb_neq _ _) Hm3).
  cbn [orb]. pose proof (bo_descs _ _ Hbo) as Hok.
  destruct (init_max_phys_spec _ Hok) as [Hmp Hmd].
  rewrite (u64_small (init_max_phys _ + _ - _)) by (unfold PAGE_SIZE; lia).
  set (limit := if negb (hf_boot_identity_limit h =? 0) then _ else _).
  set (T := (init_max_phys (handoff_descs h) + PAGE_SIZE - 1) / PAGE_SIZE).
  assert (0 ≤ limit < 2 ^ 64) as Hlim.
  { unfold limit. pose proof (clamp_limit_range _ (bo_limit _ _ Hbo)).
    assert (0 ≤ EARLY_PHYS_LIMIT < 2 ^ 64) by (unfold EARLY_PHYS_LIMIT; lia). case_match; lia. }
  assert (0 < T ≤ 2 ^ 40 ∧ init_max_phys (handoff_descs h) ≤ T * PAGE_SIZE) as [HT HTm].
  { destruct (bo_usable _ _ Hbo) as (d & Hd & Hu). pose proof (Hmd d Hd Hu).
    rewrite Forall_forall in Hok. apply (desc_usable_split d (Hok d Hd)) in Hu as [_ Hu].
    destruct (desc_end_ok d (Hok d Hd)) as (_ & ? & _). unfold T, PAGE_SIZE.
    Z.to_euclidean_division_equations. lia. }
  rewrite (proj2 (Z.eqb_neq T 0)) by lia. wp_steps.
  destruct (metadata_size_ok T (compute_max_order T)) as [Hby _];
    [lia|destruct (compute_max_order_spec T); lia|].
  destruct (normalized_guards _ (fixed_guards_ok l (bo_syms _ _ Hbo))) as (Hsep & _ & Hgb & _).
  pose proof (init_best_spec _ (-1) (metadata_size_bytes T (compute_max_order T)) _
    Hok Hsep Hgb ltac:(lia)) as Hbest.
  change (let base := init_base l (metadata_size_bytes T (compute_max_order T)) (handoff_descs h) in
    base = 0 ∨ good_base (normalized (fixed_guards l)) (metadata_size_bytes T (compute_max_order T))
      (handoff_descs h) base) in Hbest.
  cbn [init_sized pmm_metadata_bytes pmm_max_order]. cbv zeta in Hbest.
  destruct (Z.eqb_spec (init_base l (metadata_size_bytes T (compute_max_order T)) (handoff_descs h)) 0)
    as [E0|Hb0].
  { apply wp_ret. split; [exact E0|]. split; [reflexivity|apply HT]. }
  destruct Hbest as [Hz|Hbest]; [destruct (Hb0 Hz)|].
  apply wp_init_place; [exact HT|reflexivity|reflexivity|exact Hlim| |exact Hbest|].
  - intros d Hd Hu. pose proof (Hmd d Hd Hu). lia.
  - intros b s' Hs'. exact Hs'.
Qed.
End init.
