(* ===== verification/PmmSpec.v ===== *)
(** * Physical memory manager: specification

    The abstract allocator (a set of free pages and a set of live blocks), the
    proof that the operations of [pmm.c] implement it, and the properties of
    the allocator as a whole. *)

From S2P Require Import Prelude Pmm PmmInv PmmHole PmmFree PmmAlloc PmmRanges PmmInit PmmBoot.

(** ** The abstract allocator *)

Record aview := AView { v_free : Z → Prop; v_live : Z → Z → Prop }.

Definition view (s : pmm) : aview := AView (free_page s) (used_block s).

(** Two views that agree on every page and block. *)
Definition same_view (v v' : aview) : Prop :=
  (∀ p, v_free v' p ↔ v_free v p) ∧ (∀ x o, v_live v' x o ↔ v_live v x o).

(** Block [b] of order [t] serves a request for [count] pages in the page
    range from [lo] to [hi]. *)
Definition serves (v : aview) (count lo hi b t : Z) : Prop :=
  0 ≤ t ∧ count ≤ 2 ^ t ∧ (∀ k, 0 ≤ k < t → 2 ^ k < count) ∧ (2 ^ t | b) ∧
  lo ≤ b ∧ b + 2 ^ t ≤ hi ∧ (∀ p, inh b (2 ^ t) p → v_free v p).

Inductive aop := AAlloc (count lo hi : Z) | AFree (page : Z).

(** The steps of the abstract allocator, with their result. *)
Inductive astep (v : aview) : aop → Z → aview → Prop :=
| astep_alloc count lo hi b t v' :
    serves v count lo hi b t →
    (∀ p, v_free v' p ↔ v_free v p ∧ ¬ inh b (2 ^ t) p) →
    (∀ x o, v_live v' x o ↔ v_live v x o ∨ (x = b ∧ o = t)) →
    astep v (AAlloc count lo hi) (b * PAGE_SIZE) v'
| astep_alloc_fail count lo hi v' :
    same_view v v' → astep v (AAlloc count lo hi) 0 v'
| astep_free b t v' :
    v_live v b t →
    (∀ p, v_free v' p ↔ v_free v p ∨ inh b (2 ^ t) p) →
    (∀ x o, v_live v' x o ↔ v_live v x o ∧ x ≠ b) →
    astep v (AFree b) 0 v'
| astep_free_other b v' :
    (∀ t, ¬ v_live v b t) → same_view v v' → astep v (AFree b) 0 v'.

(** The operations of the code, as data, and their abstract counterpart. *)
Inductive pmm_op :=
| OpAlloc (count min_phys max_phys : Z)
| OpFree (phys count : Z).

Definition run_op (op : pmm_op) : M pmm Z :=
  match op with
  | OpAlloc count lo hi => pmm_alloc_pages_range count lo hi
  | OpFree phys count => pmm_free_pages phys count;; mret 0
  end.

Definition op_ok (op : pmm_op) : Prop :=
  match op with
  | OpAlloc count lo hi => 0 ≤ count ∧ 0 ≤ lo ∧ 0 ≤ hi
  | OpFree phys count => 0 < phys
  end.

Definition abs_op (s : pmm) (op : pmm_op) : aop :=
  match op with
  | OpAlloc count lo hi => AAlloc count (req_min lo) (req_max s hi)
  | OpFree phys _ => AFree (phys / PAGE_SIZE)
  end.

Fixpoint run_ops (ops : list pmm_op) : M pmm (list Z) :=
  match ops with
  | [] => mret []
  | op :: ops => r ← run_op op; rs ← run_ops ops; mret (r :: rs)
  end.

(** Abstract executions. *)
Inductive atrace : aview → list (aop * Z) → aview → Prop :=
| atrace_nil v v' : same_view v v' → atrace v [] v'
| atrace_cons v op r v1 tr v2 :
    astep v op r v1 → atrace v1 tr v2 → atrace v ((op, r) :: tr) v2.

(** ** From the concrete lemmas to views *)

Lemma used_block_meta s x o :
  0 ≤ pmm_max_order s < 63 →
  used_block s x o ↔ 0 ≤ o ≤ pmm_max_order s ∧ pmm_page_meta s !! x = Some (64 + o).
Proof.
  intros HO. unfold used_block. split; intros [Ho Hm]; (split; [done|]);
    destruct (meta_facts o ltac:(lia)) as (_ & E & _); by rewrite E in *.
Qed.

Lemma config_orders s s' :
  config s' = config s → pmm_max_order s' = pmm_max_order s ∧ pmm_total_pages s' = pmm_total_pages s.
Proof. by intros [= ? ?]. Qed.

Lemma alloc_ok_view s fl s' fl' b t :
  inv_hole s fl 0 0 → alloc_ok s fl s' fl' b t →
  (∀ p, inh b (2 ^ t) p → free_page s p) ∧
  (∀ p, free_page s' p ↔ free_page s p ∧ ¬ inh b (2 ^ t) p) ∧
  (∀ x o, used_block s' x o ↔ used_block s x o ∨ (x = b ∧ o = t)).
Proof.
  intros H Hok. pose proof (ih_order _ _ _ _ H) as HO. destruct (config_orders _ _ (ao_config _ _ _ _ _ _ Hok)) as [EO ET].
  pose proof (ao_order _ _ _ _ _ _ Hok) as Ht. split; [|split].
  - intros p Hp. rewrite <-(covered_free_page s fl) by done. by apply (ao_was_free _ _ _ _ _ _ Hok).
  - intros p. rewrite <-(covered_free_page s fl), <-(covered_free_page s' fl') by (first [done|apply Hok]).
    rewrite EO. apply (ao_covered _ _ _ _ _ _ Hok).
  - intros x o. rewrite !used_block_meta by lia. rewrite EO. split.
    + intros [Ho Hm]. apply (ao_meta _ _ _ _ _ _ Hok) in Hm as [?|[-> ?]]; [by left|right; lia|lia].
    + intros [[Ho Hm]|[-> ->]]; (split; [done|]); apply (ao_meta _ _ _ _ _ _ Hok); [lia|by left|lia|by right].
Qed.

Lemma wp_alloc_view s count min_phys max_phys (Q : Z → pmm → Prop) :
  pmm_inv s → 0 ≤ count → 0 ≤ min_phys → 0 ≤ max_phys →
  (∀ s' b t, pmm_inv s' → config s' = config s → pmm_used_pages s' = pmm_used_pages s + 2 ^ t →
     serves (view s) count (req_min min_phys) (req_max s max_phys) b t →
     (∀ p, free_page s' p ↔ free_page s p ∧ ¬ inh b (2 ^ t) p) →
     (∀ x o, used_block s' x o ↔ used_block s x o ∨ (x = b ∧ o = t)) →
     Q (b * PAGE_SIZE) s') →
  ((count = 0 ∨ req_max s max_phys ≤ req_min min_phys ∨ 2 ^ pmm_max_order s < count ∨
    ∀ o x b t, 0 ≤ o ≤ pmm_max_order s → pmm_page_meta s !! x = Some (meta_make_free o) →
      inh x (2 ^ o) b → b + 2 ^ t ≤ x + 2 ^ o →
      ¬ serves (view s) count (req_min min_phys) (req_max s max_phys) b t) → Q 0 s) →
  wp (alloc_pages_range_locked count min_phys max_phys) Q s.
Proof.
  intros [fl H] Hc Hmin Hmax Hsome Hnone. pose proof (ih_order _ _ _ _ H) as HO.
  pose proof (ih_total _ _ _ _ H) as HT.
  eapply wp_alloc; [done..|]. intros phys s' [(fl' & b & -> & Hok & Hct & Hlo & Hhi)|(-> & -> & Hwhy)].
  - destruct (alloc_ok_view s fl s' fl' b _ H Hok) as (Hwas & Hfree & Hlive).
    pose proof (ao_order _ _ _ _ _ _ Hok) as Ht.
    eapply Hsome; [by exists fl'; apply Hok|apply Hok|apply Hok| |done|done].
    split; [lia|]. split; [done|]. split; [|split; [apply Hok|done]].
    intros k Hk. destruct (decide (1 ≤ count)) as [Hc1|].
    + destruct (order_for_pages_spec (pmm_max_order s) count) as [[E _]|(_ & _ & Hl)]; [lia|lia| |by apply Hl].
      rewrite E in Ht. lia.
    + assert (count = 0) as -> by lia.
      assert (order_for_pages (pmm_max_order s) 0 = 0) as E0.
      { unfold order_for_pages. by destruct (Z.to_nat (pmm_max_order s)). }
      rewrite E0 in Hk. lia.
  - apply Hnone. destruct Hwhy as [?|[?|[?|Hno]]]; [by auto..|].
    destruct (decide (count = 0)) as [?|Hc0]; [by left|].
    destruct (decide (2 ^ pmm_max_order s < count)); [by auto|]. do 3 right.
    intros o x b t Ho Hx Hb Hbt (Ht & Hct & Hlt & Hal & Hblo & Hbhi & _).
    destruct (order_for_pages_spec (pmm_max_order s) count) as [[_ ?]|(Htm & Hct' & Hlt')]; [lia..|].
    set (t' := order_for_pages (pmm_max_order s) count) in *.
    assert (t' = t) as Et.
    { destruct (Z.lt_trichotomy t' t) as [Hl|[?|Hl]]; [|done|].
      - pose proof (Hlt t' ltac:(lia)). lia.
      - pose proof (Hlt' t ltac:(lia)). lia. }
    destruct (meta_facts o ltac:(lia)) as (E & _). rewrite E in Hx.
    assert (x ∈ fl o) as Hxf by (apply (ih_free _ _ _ _ H); [done|split; [done|unfold inh; lia]]).
    destruct (inv_block_free H o x Ho Hxf) as ([_ _ Hr _] & _). unfold inh in Hb.
    assert (2 ^ t ≤ 2 ^ o) as Hto by lia.
    assert (t ≤ o) by (apply (Z.pow_le_mono_r_iff 2); lia).
    specialize (Hno o x ltac:(lia) Hxf). rewrite <-not_true_iff_false in Hno. apply Hno.
    assert (0 ≤ req_max s max_phys ≤ pmm_total_pages s).
    { unfold req_max. assert (0 ≤ max_phys / PAGE_SIZE) by (apply Z.div_pos; unfold PAGE_SIZE; lia). lia. }
    rewrite Et. apply can_satisfy_spec; try lia; [unfold req_min; lia|].
    exists b. split; [done|]. lia.
Qed.

Lemma used_block_order s x o o' : used_block s x o → used_block s x o' → pmm_inv s → o' = o.
Proof.
  intros Hu Hu' [fl H]. pose proof (ih_order _ _ _ _ H).
  apply used_block_meta in Hu as [_ E], Hu' as [_ E']; [|lia..].
  rewrite E in E'. injection E'. lia.
Qed.

Lemma free_block_view s fl s' fl' x o :
  inv_hole s fl 0 0 → inv_hole s' fl' 0 0 → config s' = config s → used_block s x o →
  (∀ p, covered (pmm_max_order s) fl' p ↔ covered (pmm_max_order s) fl p ∨ inh x (2 ^ o) p) →
  keeps_except s s' (λ y, y = x) →
  (∀ p, free_page s' p ↔ free_page s p ∨ inh x (2 ^ o) p) ∧
  (∀ y k, used_block s' y k ↔ used_block s y k ∧ y ≠ x).
Proof.
  intros H H' Hcfg Hu Hcov Hk. pose proof (ih_order _ _ _ _ H).
  destruct (config_orders _ _ Hcfg) as [EO ET]. split.
  - intros p. rewrite <-(covered_free_page s fl), <-(covered_free_page s' fl') by done.
    by rewrite EO.
  - intros y k. rewrite !used_block_meta by lia. rewrite EO. split.
    + intros [? Hm]. apply Hk in Hm as [? ?]; [done|lia].
    + intros [[? Hm] ?]. split; [done|]. apply Hk; [lia|done].
Qed.

Lemma wp_free_view s phys count (Q : unit → pmm → Prop) :
  pmm_inv s → 0 ≤ phys →
  (∀ s' t, phys ≠ 0 → used_block s (phys / PAGE_SIZE) t → pmm_inv s' → config s' = config s →
     pmm_used_pages s' = pmm_used_pages s - 2 ^ t →
     (∀ p, free_page s' p ↔ free_page s p ∨ inh (phys / PAGE_SIZE) (2 ^ t) p) →
     (∀ x o, used_block s' x o ↔ used_block s x o ∧ x ≠ phys / PAGE_SIZE) → Q tt s') →
  ((phys = 0 ∨ ∀ t, ¬ used_block s (phys / PAGE_SIZE) t) → Q tt s) →
  wp (pmm_free_pages phys count) Q s.
Proof.
  intros [fl H] Hp Hsome Hnone. unfold pmm_free_pages.
  pose proof (ih_order _ _ _ _ H) as HO.
  destruct (Z.eqb_spec phys 0) as [->|Hp0]; [apply wp_ret, Hnone; by left|]. wp_steps.
  assert (0 ≤ phys / PAGE_SIZE) as Hq by (apply Z.div_pos; unfold PAGE_SIZE; lia).
  assert (∀ t, used_block s (phys / PAGE_SIZE) t → phys / PAGE_SIZE < pmm_total_pages s) as Hlt.
  { intros t [_ Hm]. apply (ih_meta_dom _ _ _ _ H). by rewrite Hm. }
  destruct (Z.leb_spec (pmm_total_pages s) (phys / PAGE_SIZE)).
  { apply wp_ret, Hnone. right. intros t Hu%Hlt. lia. }
  assert (is_Some (pmm_page_meta s !! (phys / PAGE_SIZE))) as [m Hm]
    by (apply (ih_meta_dom _ _ _ _ H); lia).
  apply wp_bind. eapply wp_rd_meta; [exact Hm|].
  destruct (meta_is_used m) eqn:Hmu; simpl.
  - assert (used_block s (phys / PAGE_SIZE) (meta_order m)) as Hu.
    { destruct (ih_shape _ _ _ _ H _ _ Hm) as [->|[->|(o & Ho & Hb & _)]];
        [unfold inh; lia|done|done|]. pose proof (ba_order _ _ _ Hb).
      destruct (meta_facts o ltac:(lia)) as (_ & _ & _ & E1 & _ & _ & _ & E2 & _).
      destruct Ho as [->| ->]; [congruence|]. rewrite E2. apply used_block_meta; [lia|done]. }
    eapply wp_free_block; [done|done|]. intros s' fl' H' Hcfg Hup Hcov Hk.
    destruct (free_block_view s fl s' fl' _ _ H H' Hcfg Hu Hcov Hk). eapply Hsome; try done. by exists fl'.
  - apply wp_ret, Hnone. right. intros t [Ht Hm']%used_block_meta; [|lia].
    rewrite Hm in Hm'. injection Hm' as ->.
    destruct (meta_facts t ltac:(lia)) as (_ & _ & _ & _ & _ & _ & E & _). congruence.
Qed.

Lemma same_view_refl v : same_view v v.
Proof. by split. Qed.
#[export] Hint Resolve same_view_refl : core.

(** Each operation implements a step of the abstract allocator. *)
Lemma wp_run_op s op :
  pmm_inv s → op_ok op →
  wp (run_op op) (λ r s', pmm_inv s' ∧ config s' = config s ∧
    astep (view s) (abs_op s op) r (view s')) s.
Proof.
  intros Hinv Hop. destruct op as [count lo hi|phys count]; simpl in *.
  - unfold pmm_alloc_pages_range. destruct Hop as (Hc & Hlo & Hhi).
    destruct ((count =? 0) || (hi <=? lo)); [apply wp_ret; split; [done|split; [done|by constructor]]|].
    apply wp_alloc_view; try done.
    + intros s' b t Hi Hcfg _ Hs Hf Hl. split; [done|]. split; [done|]. by econstructor.
    + intros _. split; [done|split; [done|by constructor]].
  - apply wp_bind, wp_free_view; [done|lia| |].
    + intros s' t Hp Hu Hi Hcfg _ Hf Hl. apply wp_ret. split; [done|]. split; [done|]. by eapply astep_free.
    + intros [?|Hno]; [lia|]. apply wp_ret. split; [done|]. split; [done|]. by apply astep_free_other.
Qed.

Lemma abs_op_config s s' op : config s' = config s → abs_op s' op = abs_op s op.
Proof.
  intros [_ ET]%config_orders. destruct op; [|done]. simpl. unfold req_max. by rewrite ET.
Qed.

(** Live blocks are inside the managed memory, do not overlap each other and
    contain no free page. *)
Lemma live_disjoint s x o y k :
  pmm_inv s → used_block s x o → used_block s y k → x ≠ y →
  ∀ p, inh x (2 ^ o) p → ¬ inh y (2 ^ k) p.
Proof.
  intros [fl H] Hx Hy Hne p Hp1 Hp2. pose proof (ih_order _ _ _ _ H) as HO.
  destruct (inv_open_used s fl x o H Hx) as (_ & _ & Hbx).
  destruct (inv_open_used s fl y k H Hy) as (_ & _ & Hby).
  apply used_block_meta in Hx as [? Hmx], Hy as [? Hmy]; [|lia..].
  destruct (inv_heads_disjoint x o y k Hbx Hby Hne); rewrite ?Hmx, ?Hmy;
    try (intros [= E]; unfold PMM_META_TAIL in E; lia); unfold inh in *; lia.
Qed.

Lemma live_not_free s x o :
  pmm_inv s → used_block s x o →
  0 ≤ x ∧ x + 2 ^ o ≤ pmm_total_pages s ∧ (2 ^ o | x) ∧
  ∀ p, inh x (2 ^ o) p → ¬ free_page s p.
Proof.
  intros [fl H] Hx. pose proof (ih_order _ _ _ _ H) as HO.
  destruct (inv_open_used s fl x o H Hx) as (_ & _ & Hbx).
  destruct (ba_range _ _ _ Hbx). split; [done|]. split; [done|]. split; [apply Hbx|].
  intros p Hp1. rewrite <-(covered_free_page s fl) by done. intros (k & y & Hk & Hy & Hp2).
  destruct (inv_block_free H k y Hk Hy) as (Hby & Hmy & _).
  apply used_block_meta in Hx as [? Hmx]; [|lia].
  assert (x ≠ y) as Hne by (intros ->; rewrite Hmx in Hmy; injection Hmy; lia).
  destruct (inv_heads_disjoint x o y k Hbx Hby Hne); rewrite ?Hmx, ?Hmy;
    try (intros [= E]; unfold PMM_META_TAIL in E; lia); unfold inh in *; lia.
Qed.
