(* ===== verification/PageAlloc.v ===== *)
(** * The page-allocator interface

    What the virtual memory manager relies on of the physical memory
    manager: the operations it calls and their contract.  The client is
    verified against this class; [PmmIface] shows that the buddy allocator of
    [pmm.c] is an instance. *)

From S2P Require Import Prelude.

Class PageAllocator (P : Type) := {
  pa_alloc_page_below : Z → M P Z;
  pa_alloc_early_low : M P Z;
  pa_free_pages : Z → Z → M P unit
}.

(** [pa_held s p]: page number [p] is in the hands of a client;
    [pa_single s p]: it was obtained as a single page and may be freed;
    [pa_pages s]: the number of pages of the machine. *)
Class PageAllocatorLaws (P : Type) `{!PageAllocator P} := {
  pa_inv : P → Prop;
  pa_held : P → Z → Prop;
  pa_single : P → Z → Prop;
  pa_early_limit : P → Z;
  pa_pages : P → Z;
  pa_pages_ok s : pa_inv s → pa_pages s ≤ 2 ^ 52;
  pa_single_held s p : pa_single s p → pa_held s p;
  pa_alloc_below_ok s max_phys (Q : Z → P → Prop) :
    pa_inv s → 0 ≤ max_phys →
    Q 0 s →
    (∀ p s', 1 ≤ p < pa_pages s → (p + 1) * PAGE_SIZE ≤ max_phys → ¬ pa_held s p →
       pa_inv s' → pa_early_limit s' = pa_early_limit s ∧ pa_pages s' = pa_pages s →
       (∀ q, pa_held s' q ↔ pa_held s q ∨ q = p) →
       (∀ q, pa_single s' q ↔ pa_single s q ∨ q = p) → Q (p * PAGE_SIZE) s') →
    wp (pa_alloc_page_below max_phys) Q s;
  pa_early_low_ok s (Q : Z → P → Prop) :
    pa_inv s →
    Q 0 s →
    (∀ p s', 1 ≤ p < pa_pages s → (p + 1) * PAGE_SIZE ≤ pa_early_limit s → ¬ pa_held s p →
       pa_inv s' → pa_early_limit s' = pa_early_limit s ∧ pa_pages s' = pa_pages s →
       (∀ q, pa_held s' q ↔ pa_held s q ∨ q = p) →
       (∀ q, pa_single s q → pa_single s' q) → Q (p * PAGE_SIZE) s') →
    wp pa_alloc_early_low Q s;
  pa_free_ok s p n (Q : unit → P → Prop) :
    pa_inv s → pa_single s p →
    (∀ s', pa_inv s' → pa_early_limit s' = pa_early_limit s ∧ pa_pages s' = pa_pages s →
       (∀ q, pa_held s' q ↔ pa_held s q ∧ q ≠ p) →
       (∀ q, pa_single s' q ↔ pa_single s q ∧ q ≠ p) → Q tt s') →
    wp (pa_free_pages (p * PAGE_SIZE) n) Q s
}.
