(* ===== verification/PmmIface.v ===== *)
(** * The buddy allocator as a page allocator *)

From S2P Require Import Prelude PageAlloc Pmm PmmInv PmmAlloc PmmInit PmmBoot PmmSpec.

#[export] Instance pmm_page_allocator : PageAllocator pmm := {
  pa_alloc_page_below := pmm_alloc_page_below;
  pa_alloc_early_low := pmm_alloc_early_low;
  pa_free_pages := pmm_free_pages
}.

Definition pmm_ready (s : pmm) : Prop :=
  pmm_inv s ∧ pool_ok s ∧ 0 ≤ early_alloc_limit s < 2 ^ 64.

(** A single page given out by [alloc_pages_range_locked]. *)
Definition pmm_single (s : pmm) (p : Z) : Prop :=
  1 ≤ p ∧ used_block s p 0 ∧ ¬ in_pool s p.

(** A page given out: a single page, or the used part of the early pool. *)
Definition pmm_held (s : pmm) (p : Z) : Prop :=
  pmm_single s p ∨ early_pool_start s ≤ p * PAGE_SIZE < early_pool_next s.

Lemma pool_config s s' :
  config s' = config s →
  early_pool_start s' = early_pool_start s ∧ early_pool_end s' = early_pool_end s ∧
  early_pool_next s' = early_pool_next s ∧ early_alloc_limit s' = early_alloc_limit s.
Proof. by intros [= _ _ _ _ -> -> -> ->]. Qed.
Lemma total_config s s' : config s' = config s → pmm_total_pages s' = pmm_total_pages s.
Proof. by intros [= -> _]. Qed.

Lemma pool_not_free s p : pmm_ready s → in_pool s p → ¬ free_page s p.
Proof.
  intros (Hi & [Hz|(b & t & k & Hb & Hu & Hk & E1 & E2 & _)] & _) Hp; unfold in_pool in Hp.
  - lia.
  - rewrite E1, E2 in Hp. apply (live_not_free s b t Hi Hu). unfold inh, PAGE_SIZE in *. lia.
Qed.

Lemma pool_handed s p :
  pmm_ready s → early_pool_start s ≤ p * PAGE_SIZE < early_pool_next s → in_pool s p.
Proof.
  intros (_ & [(? & ? & ?)|(b & t & k & Hb & Hu & Hk & E1 & E2 & E3 & _)] & _) Hp;
    unfold in_pool, PAGE_SIZE in *; lia.
Qed.

Lemma free_not_held s p : pmm_ready s → free_page s p → ¬ pmm_held s p.
Proof.
  intros Hr Hf [(_ & Hu & _)|Hp].
  - destruct Hr as [Hi _]. apply (live_not_free s p 0 Hi Hu) in Hf; [done|]. unfold inh. lia.
  - apply (pool_not_free s p); [done|by apply pool_handed|done].
Qed.

(** Blocks other than the pool keep the pool intact. *)
Lemma pool_ok_kept s s' :
  pool_ok s → config s' = config s →
  (∀ b t, used_block s b t → in_pool s b → used_block s' b t) → pool_ok s'.
Proof.
  intros [Hz|(b & t & k & Hb & Hu & Hk & E1 & E2 & E3 & E4)] Hcfg Hkeep;
    destruct (pool_config _ _ Hcfg) as (P1 & P2 & P3 & P4).
  - left. by rewrite P1, P2, P3.
  - right. exists b, t, k. unfold pool_limit_of in *. rewrite P1, P2, P3, P4. split; [done|].
    split; [|done]. apply Hkeep; [done|]. unfold in_pool. rewrite E1, E2.
    destruct Hu as [? _]. pose proof (pow2_pos t ltac:(lia)). unfold PAGE_SIZE. lia.
Qed.

(** One page from [alloc_pages_range_locked]. *)
Lemma wp_alloc_single s lo hi (Q : Z → pmm → Prop) :
  pmm_ready s → 0 ≤ lo → 0 ≤ hi → Q 0 s →
  (∀ p s', 1 ≤ p < pmm_total_pages s → (p + 1) * PAGE_SIZE ≤ hi → ¬ pmm_held s p → pmm_ready s' →
     early_alloc_limit s' = early_alloc_limit s ∧ pmm_total_pages s' = pmm_total_pages s →
     (∀ q, pmm_held s' q ↔ pmm_held s q ∨ q = p) →
     (∀ q, pmm_single s' q ↔ pmm_single s q ∨ q = p) → Q (p * PAGE_SIZE) s') →
  wp (alloc_pages_range_locked 1 lo hi) Q s.
Proof.
  intros Hr Hlo Hhi H0 HQ. pose proof Hr as (Hi & Hpool & Hlim).
  apply wp_alloc_view; [done|lia|done|done| |by intros _].
  intros s' b t Hi' Hcfg _ (Ht & _ & Hleast & _ & Hb1 & Hb2 & Hfree) Hf Hl.
  destruct (pool_config _ _ Hcfg) as (P1 & P2 & P3 & P4).
  assert (t = 0) as ->.
  { destruct (decide (t = 0)); [done|]. specialize (Hleast 0 ltac:(lia)). lia. }
  assert (free_page s b) as Hbf by (apply Hfree; unfold inh; lia).
  assert (1 ≤ b) by (unfold req_min in Hb1; lia).
  assert (b < pmm_total_pages s) by (unfold req_max in Hb2; lia).
  assert ((b + 1) * PAGE_SIZE ≤ hi).
  { assert (b + 1 ≤ hi / PAGE_SIZE) by (unfold req_max in Hb2; lia).
    pose proof (Z.mul_div_le hi PAGE_SIZE ltac:(done)). unfold PAGE_SIZE in *. lia. }
  assert (¬ in_pool s b) as Hbp by (intros Hp; by apply (pool_not_free s b)).
  assert (∀ q, pmm_single s' q ↔ pmm_single s q ∨ q = b) as Hsing.
  { intros q. unfold pmm_single, in_pool. rewrite Hl, P1, P2. unfold in_pool in Hbp.
    split; [naive_solver|]. intros [(? & ? & ?)| ->]; (split; [lia|]); tauto. }
  pose proof (total_config _ _ Hcfg).
  apply HQ; [lia|done|by apply free_not_held| |done| |done].
  - split; [done|]. split; [|by rewrite P4]. apply (pool_ok_kept s s' Hpool Hcfg).
    intros x t Hx _. apply Hl. by left.
  - intros q. unfold pmm_held. rewrite Hsing, P1, P3. tauto.
Qed.

Lemma wp_early_low s (Q : Z → pmm → Prop) :
  pmm_ready s → Q 0 s →
  (∀ p s', 1 ≤ p < pmm_total_pages s → (p + 1) * PAGE_SIZE ≤ pool_limit_of s → ¬ pmm_held s p → pmm_ready s' →
     early_alloc_limit s' = early_alloc_limit s ∧ pmm_total_pages s' = pmm_total_pages s →
     (∀ q, pmm_held s' q ↔ pmm_held s q ∨ q = p) →
     (∀ q, pmm_single s q → pmm_single s' q) → Q (p * PAGE_SIZE) s') →
  wp pmm_alloc_early_low Q s.
Proof.
  intros Hr H0 HQ. unfold pmm_alloc_early_low. wp_steps.
  destruct (negb (early_pool_start s =? 0) && (early_pool_next s <? early_pool_end s)) eqn:E.
  - b2p. destruct Hr as (Hi & [Hz|(b & t & k & Hb & Hu & Hk & E1 & E2 & E3 & E4)] & Hlim); [lia|].
    assert (k < 2 ^ t) by (unfold PAGE_SIZE in *; lia).
    assert (b + 2 ^ t ≤ pmm_total_pages s < 2 ^ 52) as [? ?].
    { destruct (live_not_free s b t Hi Hu) as (_ & ? & _). destruct Hi as [fl Hh].
      pose proof (ih_total _ _ _ _ Hh). lia. }
    wp_steps. rewrite E3, u64_small by (unfold PAGE_SIZE in *; lia).
    apply HQ; [lia|unfold PAGE_SIZE in *; lia| | |done| |].
    + intros [(_ & _ & Hn)|Hp]; [|unfold PAGE_SIZE in *; lia].
      apply Hn. unfold in_pool, PAGE_SIZE in *. lia.
    + split; [by destruct Hi as [fl Hh]; exists fl; apply inv_hole_pool|]. split; [|done].
      right. exists b, t, (k + 1). simpl. unfold PAGE_SIZE in *.
      split; [done|]. split; [done|]. split; [lia|]. split; [done|]. split; [done|]. split; [lia|done].
    + intros q. unfold pmm_held, pmm_single, in_pool. simpl. rewrite E1, E3. unfold PAGE_SIZE.
      split.
      * intros [Hq|Hq]; [left; left; exact Hq|].
        destruct (decide (q = b + k)); [by right|left; right; lia].
      * intros [[Hq|Hq]|Hq]; [left; exact Hq|right; lia|right; lia].
    + intros q Hq. exact Hq.
  - wp_steps. fold (pool_limit_of s). destruct (Z.leb_spec (pool_limit_of s) EARLY_POOL_MIN); [by apply wp_ret|].
    apply wp_alloc_single; try done; [unfold EARLY_POOL_MIN in *; lia|].
    intros p s' Hp Hlim Hh Hr' El Hheld Hsing. apply HQ; try done. intros q Hq. apply Hsing. by left.
Qed.

Lemma wp_free_single s p n (Q : unit → pmm → Prop) :
  pmm_ready s → pmm_single s p →
  (∀ s', pmm_ready s' → early_alloc_limit s' = early_alloc_limit s ∧ pmm_total_pages s' = pmm_total_pages s →
     (∀ q, pmm_held s' q ↔ pmm_held s q ∧ q ≠ p) →
     (∀ q, pmm_single s' q ↔ pmm_single s q ∧ q ≠ p) → Q tt s') →
  wp (pmm_free_pages (p * PAGE_SIZE) n) Q s.
Proof.
  intros Hr (Hp & Hu & Hnp) HQ. pose proof Hr as (Hi & Hpool & Hlim).
  assert (p * PAGE_SIZE / PAGE_SIZE = p) as Ep by (by apply Z.div_mul).
  apply wp_free_view; [done|unfold PAGE_SIZE; lia| |]; rewrite Ep.
  2: { intros [?|Hn]; [unfold PAGE_SIZE in *; lia|by destruct (Hn 0)]. }
  intros s' t _ Hut Hi' Hcfg _ Hf Hl. destruct (pool_config _ _ Hcfg) as (P1 & P2 & P3 & P4).
  assert (∀ q, pmm_single s' q ↔ pmm_single s q ∧ q ≠ p) as Hsing.
  { intros q. unfold pmm_single, in_pool. rewrite Hl, P1, P2. tauto. }
  pose proof (total_config _ _ Hcfg).
  apply HQ; [|done| |done].
  - split; [done|]. split; [|by rewrite P4]. apply (pool_ok_kept s s' Hpool Hcfg).
    intros b k Hb Hbp. apply Hl. split; [done|]. by intros ->.
  - intros q. unfold pmm_held. rewrite Hsing, P1, P3. split; [|tauto].
    intros [?|Hq]; [tauto|]. split; [by right|]. intros ->. by apply Hnp, pool_handed.
Qed.

#[export, refine] Instance pmm_page_allocator_laws : PageAllocatorLaws pmm := {
  pa_inv := pmm_ready;
  pa_held := pmm_held;
  pa_single := pmm_single;
  pa_early_limit := pool_limit_of;
  pa_pages := pmm_total_pages
}.
Proof.
  - intros s ([fl Hh] & _). pose proof (ih_total _ _ _ _ Hh). lia.
  - intros s p Hp. by left.
  - intros s hi Q Hr Hhi H0 HQ. apply wp_alloc_single; try done.
    intros p s' ? ? ? ? [El Ep] ? ?. apply HQ; try done. unfold pool_limit_of. by rewrite El.
  - intros s Q Hr H0 HQ. apply wp_early_low; try done.
    intros p s' ? ? ? ? [El Ep] ? ?. apply HQ; try done. unfold pool_limit_of. by rewrite El.
  - intros s p n Q Hr Hs HQ. apply wp_free_single; try done.
    intros s' ? [El Ep] ? ?. apply HQ; try done. unfold pool_limit_of. by rewrite El.
Defined.
