(* ===== verification/PmmProps.v ===== *)
(** * Physical memory manager: properties

    The claims about [pmm.c], with a machine of 768 pages booted by the model
    on which they are instantiated. *)

From S2P Require Import Prelude Pmm PmmInv PmmHole PmmAlloc PmmRanges PmmInit PmmBoot PmmSpec PageAlloc PmmIface.

(** ** A booted machine *)

(** 2 MiB of conventional memory at 1 MiB, after a reserved descriptor. *)
Definition demo_handoff : fry_handoff :=
  Handoff 0x5000 96 48 0x300000
    (λ off, if off =? 0 then EfiDesc 0 0 256 else EfiDesc 7 0x100000 512).
Definition demo_syms : linker_syms := LinkerSyms 0x110000 0x120400 0x100000 0x102000.

Definition demo_boot : option (option bool * pmm) :=
  pmm_init (Some demo_handoff) demo_syms pmm_zero.
Definition demo : pmm := match demo_boot with Some (_, s) => s | None => pmm_zero end.

Lemma demo_boot_ok : boot_ok demo_handoff demo_syms.
Proof.
  split; [done|..].
  - repeat constructor; try done; unfold desc_ok; simpl; unfold PAGE_SIZE; lia.
  - repeat constructor; try done; simpl; intros; by right.
  - exists (EfiDesc 7 0x100000 512). split; [|done]. by apply list_elem_of_In; right; left.
  - done.
  - repeat split; done.
Qed.

Lemma demo_boot_result : fst <$> demo_boot = Some (Some true).
Proof. vm_compute. reflexivity. Qed.

(** A run is its result and its final state, which is never computed in full. *)
Lemma run_state (m : option (option bool * pmm)) b :
  fst <$> m = Some (Some b) →
  m = Some (Some b, match m with Some (_, s) => s | None => pmm_zero end).
Proof. destruct m as [[r s]|]; intros E; [|discriminate E]. by injection E as ->. Qed.

Lemma demo_run : demo_boot = Some (Some true, demo).
Proof. exact (run_state demo_boot true demo_boot_result). Qed.

Lemma demo_boot_eq : demo_boot = pmm_init (Some demo_handoff) demo_syms pmm_zero.
Proof. unfold demo_boot. reflexivity. Qed.
#[global] Opaque demo demo_boot.

Lemma booted_of_run h l b s :
  boot_ok h l → pmm_init (Some h) l pmm_zero = Some (Some b, s) → booted h l s.
Proof.
  intros Hbo E. pose proof (wp_pmm_init_ok Hbo pmm_zero) as H. unfold wp in H.
  rewrite E in H. exact H.
Qed.

Lemma demo_booted : booted demo_handoff demo_syms demo.
Proof. exact (booted_of_run _ _ true demo demo_boot_ok (eq_trans (eq_sym demo_boot_eq) demo_run)). Qed.

Lemma demo_inv : pmm_inv demo.
Proof. apply (bt_inv _ _ _ demo_booted). Qed.

(** ** Properties *)

(** C2: [pmm_init] on a well-formed memory map either finds no place for its
    metadata and returns early, or leaves the allocator in its invariant with
    exactly these pages free: those that lie inside a usable descriptor and
    outside page 0, the SMP trampoline, the boot and kernel images, the
    metadata and the early pool.  It never accesses an array out of range. *)
Theorem pmm_init_correct h l s :
  boot_ok h l →
  wp (pmm_init (Some h) l) (λ r s', match r with
    | Some _ => booted h l s'
    | None => init_base l (pmm_metadata_bytes s') (handoff_descs h) = 0 ∧
              pmm_page_meta s' = ∅ ∧ 0 < pmm_total_pages s'
    end) s.
Proof. intros Hbo. by apply wp_pmm_init_ok. Qed.

Lemma pmm_init_correct_witness :
  boot_ok demo_handoff demo_syms ∧
  wp (pmm_init (Some demo_handoff) demo_syms) (λ r s', match r with
    | Some _ => booted demo_handoff demo_syms s'
    | None => init_base demo_syms (pmm_metadata_bytes s') (handoff_descs demo_handoff) = 0 ∧
              pmm_page_meta s' = ∅ ∧ 0 < pmm_total_pages s'
    end) pmm_zero.
Proof.
  split; [exact demo_boot_ok|].
  exact (pmm_init_correct demo_handoff demo_syms pmm_zero demo_boot_ok).
Defined.

(** C1: Every sequence of allocations and frees runs without a fault, keeps
    the invariant, and produces the results of an execution of the abstract
    allocator: the buddy allocator refines a set of free pages and a set of
    live blocks. *)
Theorem pmm_refines_abstract s ops :
  pmm_inv s → Forall op_ok ops →
  wp (run_ops ops) (λ rs s', pmm_inv s' ∧ length rs = length ops ∧
    atrace (view s) (zip (abs_op s <$> ops) rs) (view s')) s.
Proof.
  intros Hi Hok. revert s Hi. induction Hok as [|op ops Hop _ IH]; intros s Hi; cbn [run_ops].
  { apply wp_ret. split; [done|]. split; [done|]. by constructor. }
  apply wp_bind. eapply wp_mono; [by apply wp_run_op|]. intros r s1 (Hi1 & Hcfg & Hstep).
  apply wp_bind. eapply wp_mono; [by apply IH|]. intros rs s2 (Hi2 & Hlen & Htr).
  apply wp_ret. split; [done|]. split; [simpl; lia|]. rewrite fmap_cons. cbn [zip_with]. econstructor; [done|].
  rewrite (list_fmap_ext (abs_op s) (abs_op s1) ops) by (intros; symmetry; by apply abs_op_config).
  done.
Qed.

Lemma pmm_refines_abstract_witness :
  let ops := [OpAlloc 3 0 0x300000; OpAlloc 1 0 0x300000; OpFree 0x120000 3] in
  wp (run_ops ops) (λ rs s', pmm_inv s' ∧ length rs = length ops ∧
    atrace (view demo) (zip (abs_op demo <$> ops) rs) (view s')) demo.
Proof.
  apply (pmm_refines_abstract demo); [exact demo_inv|].
  repeat constructor; done.
Defined.

(** C37: Allocation.  The result is an aligned block of the least sufficient
    power of two of pages, inside the requested physical range, all of whose
    pages were free; it becomes live, its pages are no longer free, nothing
    else changes and the counter of used pages grows by the block size.  The
    result is 0, with the state unchanged, only when the request is empty, the
    range is empty, the request exceeds the largest block, or no free block
    contains a suitable aligned block. *)
Theorem pmm_alloc_spec s count min_phys max_phys :
  pmm_inv s → 0 ≤ count → 0 ≤ min_phys → 0 ≤ max_phys →
  wp (alloc_pages_range_locked count min_phys max_phys) (λ phys s',
    (∃ b t, phys = b * PAGE_SIZE ∧ pmm_inv s' ∧ config s' = config s ∧
       pmm_used_pages s' = pmm_used_pages s + 2 ^ t ∧
       serves (view s) count (req_min min_phys) (req_max s max_phys) b t ∧
       (∀ p, free_page s' p ↔ free_page s p ∧ ¬ inh b (2 ^ t) p) ∧
       (∀ x o, used_block s' x o ↔ used_block s x o ∨ (x = b ∧ o = t))) ∨
    (phys = 0 ∧ s' = s ∧
      (count = 0 ∨ req_max s max_phys ≤ req_min min_phys ∨ 2 ^ pmm_max_order s < count ∨
       ∀ o x b t, 0 ≤ o ≤ pmm_max_order s → pmm_page_meta s !! x = Some (meta_make_free o) →
         inh x (2 ^ o) b → b + 2 ^ t ≤ x + 2 ^ o →
         ¬ serves (view s) count (req_min min_phys) (req_max s max_phys) b t))) s.
Proof.
  intros Hi Hc Hmin Hmax. apply wp_alloc_view; [done..| |].
  - intros s' b t ? ? ? ? ? ?. left. exists b, t. done.
  - intros Hwhy. right. done.
Qed.

Lemma pmm_alloc_spec_witness :
  wp (alloc_pages_range_locked 3 0 0x300000) (λ phys s', phys ≠ 0 →
    pmm_used_pages s' = pmm_used_pages demo + 4) demo.
Proof.
  eapply wp_mono; [apply (pmm_alloc_spec demo 3 0 0x300000); [exact demo_inv|done|done|done]|].
  intros phys s' [(b & t & -> & _ & _ & -> & (Ht & Hc & Hl & _) & _)|(-> & _)]; [|done].
  intros _. assert (t = 2) as ->; [|done].
  destruct (decide (t < 2)) as [H|H].
  - assert (t = 0 ∨ t = 1) as [->| ->] by lia; vm_compute in Hc; congruence.
  - destruct (decide (t = 2)); [done|]. pose proof (Hl 2 ltac:(lia)) as Hbad. vm_compute in Hbad. congruence.
Defined.

(** Freeing.  [pmm_free_pages] at the address of a live block makes
    exactly that block's pages free, removes exactly that block from the live
    blocks, and lowers the counter of used pages by the size the allocator
    recorded for the block; the page count passed by the caller is ignored. *)
Theorem pmm_free_spec s phys count t :
  pmm_inv s → 0 < phys → used_block s (phys / PAGE_SIZE) t →
  wp (pmm_free_pages phys count) (λ _ s', pmm_inv s' ∧ config s' = config s ∧
    pmm_used_pages s' = pmm_used_pages s - 2 ^ t ∧
    (∀ p, free_page s' p ↔ free_page s p ∨ inh (phys / PAGE_SIZE) (2 ^ t) p) ∧
    (∀ x o, used_block s' x o ↔ used_block s x o ∧ x ≠ phys / PAGE_SIZE)) s.
Proof.
  intros Hi Hp Hu. apply wp_free_view; [done|lia| |].
  - intros s' t' _ Hu' ? ? ? ? ?. rewrite (used_block_order s _ t t' Hu Hu' Hi) in *. done.
  - intros [?|Hn]; [lia|]. by destruct (Hn t).
Qed.

(** Freeing an address that is not the start of a live block (null, a
    page inside a block, a free or reserved page, or the same block a second
    time) changes nothing. *)
Theorem pmm_free_invalid_noop s phys count :
  pmm_inv s → 0 ≤ phys → phys = 0 ∨ (∀ t, ¬ used_block s (phys / PAGE_SIZE) t) →
  pmm_free_pages phys count s = Some (tt, s).
Proof.
  intros Hi Hp Hno.
  assert (wp (pmm_free_pages phys count) (λ _ s', s' = s) s) as H.
  { apply wp_free_view; [done..| |done]. intros s' t Hp0 Hu.
    destruct Hno as [?|Hno]; [done|]. by destruct (Hno t). }
  apply wp_run in H as ([] & s' & E & ->). done.
Qed.

(** Allocation followed by a free of the result restores the set of free
    pages, the set of live blocks and the counter of used pages. *)
Theorem pmm_alloc_free_roundtrip s count min_phys max_phys :
  pmm_inv s → 0 ≤ count → 0 ≤ min_phys → 0 ≤ max_phys →
  wp (phys ← alloc_pages_range_locked count min_phys max_phys;
      pmm_free_pages phys count)
    (λ _ s', pmm_inv s' ∧ same_view (view s) (view s') ∧
             pmm_used_pages s' = pmm_used_pages s) s.
Proof.
  intros Hi Hc Hmin Hmax. apply wp_bind, wp_alloc_view; [done..| |].
  - intros s1 b t Hi1 Hcfg Hu1 (Ht & _ & _ & _ & Hb & _ & Hfree) Hf1 Hl1.
    assert (1 ≤ b) by (unfold req_min in Hb; lia).
    assert (b * PAGE_SIZE / PAGE_SIZE = b) as Eb by (by apply Z.div_mul).
    assert (used_block s1 b t) as Hub by (apply Hl1; by right).
    apply wp_free_view; [done|unfold PAGE_SIZE; lia| |]; rewrite Eb.
    + intros s2 t2 _ Hub2 Hi2 _ Hu2 Hf2 Hl2.
      rewrite (used_block_order s1 b t t2 Hub Hub2 Hi1) in *.
      split; [done|]. split; [|lia]. split; simpl.
      * intros p. rewrite Hf2, Hf1. specialize (Hfree p). simpl in Hfree. unfold inh in *.
        destruct (decide (b ≤ p ∧ p < b + 2 ^ t)); tauto.
      * intros x o. rewrite Hl2, Hl1. split; [intros [[?|[? ?]] ?]; done|].
        intros Hx. split; [by left|]. intros ->.
        destruct (live_not_free s b o Hi Hx) as (_ & _ & _ & Hn).
        pose proof (pow2_pos t Ht). assert (0 ≤ o) by (by destruct Hx as [[? _] _]).
        pose proof (pow2_pos o ltac:(done)).
        apply (Hn b); [unfold inh; lia|]. apply Hfree. unfold inh. lia.
    + intros [?|Hn]; [unfold PAGE_SIZE in *; lia|]. by destruct (Hn t).
  - intros _. apply wp_free_view; [done|done|by intros|]. intros _. done.
Qed.

Lemma pmm_alloc_free_roundtrip_witness :
  wp (phys ← alloc_pages_range_locked 5 0x100000 0x200000; pmm_free_pages phys 5)
    (λ _ s', pmm_inv s' ∧ same_view (view demo) (view s') ∧
             pmm_used_pages s' = pmm_used_pages demo) demo.
Proof. apply (pmm_alloc_free_roundtrip demo); [exact demo_inv|done|done|done]. Defined.

(** Live blocks lie in the managed memory, are aligned to their size,
    contain no free page and do not overlap each other: no page is handed out
    twice. *)
Theorem pmm_live_blocks_separate s x o y k :
  pmm_inv s → used_block s x o → used_block s y k →
  (0 ≤ x ∧ x + 2 ^ o ≤ pmm_total_pages s ∧ (2 ^ o | x)) ∧
  (∀ p, inh x (2 ^ o) p → ¬ free_page s p) ∧
  (x = y ∨ ∀ p, inh x (2 ^ o) p → ¬ inh y (2 ^ k) p).
Proof.
  intros Hi Hx Hy. destruct (live_not_free s x o Hi Hx) as (? & ? & ? & ?).
  split; [done|]. split; [done|]. destruct (decide (x = y)); [by left|right].
  by apply (live_disjoint s x o y k).
Qed.

(** The page counter is exact: [pmm_used_pages] plus the number of free
    pages is the number of managed pages, and [count_free_pages_below] at an
    address counts the free pages below it. *)
Theorem pmm_accounting s max_phys :
  pmm_inv s → 0 ≤ max_phys →
  pmm_used_pages s + free_count s (pmm_total_pages s) = pmm_total_pages s ∧
  count_free_pages_below max_phys s =
    Some (free_count s (Z.min (pmm_total_pages s) (max_phys / PAGE_SIZE)), s).
Proof.
  intros [fl H] Hm. split; [exact (used_free_total H)|].
  assert (wp (count_free_pages_below max_phys) (λ r s', s' = s ∧
    r = free_count s (Z.min (pmm_total_pages s) (max_phys / PAGE_SIZE))) s) as Hw
    by (by apply (wp_count_free H)).
  apply wp_run in Hw as (r & s' & E & -> & ->). done.
Qed.

Lemma pmm_accounting_witness :
  pmm_used_pages demo + free_count demo (pmm_total_pages demo) = pmm_total_pages demo.
Proof. apply (pmm_accounting demo 0 demo_inv). done. Defined.

(** [normalize_ranges] returns nonempty ranges in increasing order, with
    a gap between neighbours, that cover exactly the addresses of its input. *)
Theorem normalize_ranges_correct rs lo :
  (∀ r, r ∈ rs → lo < pr_start r) →
  let res := normalize_ranges rs (length rs) in
  separated lo (take res.2 res.1) ∧ (∀ x, in_ranges (take res.2 res.1) x ↔ in_ranges rs x).
Proof.
  intros H. pose proof (normalized_spec lo rs H) as Hn. unfold normalized in Hn.
  cbv zeta. by destruct (normalize_ranges rs (length rs)).
Qed.

Definition demo_ranges : list phys_range :=
  [PhysRange 30 40; PhysRange 5 12; PhysRange 50 50; PhysRange 10 20].

Lemma normalize_ranges_correct_witness :
  let res := normalize_ranges demo_ranges (length demo_ranges) in
  separated 0 (take res.2 res.1) ∧ (∀ x, in_ranges (take res.2 res.1) x ↔ in_ranges demo_ranges x).
Proof.
  apply (normalize_ranges_correct demo_ranges 0).
  intros r Hr. repeat (apply elem_of_cons in Hr as [->|Hr]; [reflexivity|]).
  by apply not_elem_of_nil in Hr.
Defined.

(** The three metadata arrays that [bind_metadata] lays out do not
    overlap, are aligned for their element type, and fit in the number of
    bytes that [metadata_size_bytes] reserves. *)
Theorem pmm_metadata_layout (s : pmm) base :
  0 < pmm_total_pages s < 2 ^ 52 → 0 ≤ pmm_max_order s < 63 →
  0 ≤ base → (8 | base) →
  base + metadata_size_bytes (pmm_total_pages s) (pmm_max_order s) < 2 ^ 64 →
  wp (bind_metadata base) (λ _ s',
    base = pmm_page_meta_ptr s' ∧
    pmm_page_meta_ptr s' + pmm_total_pages s ≤ pmm_free_next_ptr s' ∧
    pmm_free_next_ptr s' + 8 * pmm_total_pages s ≤ pmm_free_heads_ptr s' ∧
    pmm_free_heads_ptr s' + 8 * (pmm_max_order s + 1) ≤
      base + metadata_size_bytes (pmm_total_pages s) (pmm_max_order s) ∧
    (8 | pmm_free_next_ptr s') ∧ (8 | pmm_free_heads_ptr s')) s.
Proof. apply bind_metadata_layout. Qed.

(** The early pool hands out each of its pages once: a page returned by
    [pmm_alloc_early_low] is not held by anyone before, lies below the early
    limit, and is the only page whose ownership changes. *)
Theorem pmm_early_low_fresh s :
  pmm_ready s →
  wp pmm_alloc_early_low (λ phys s', (phys = 0 ∧ s' = s) ∨
    ∃ p, phys = p * PAGE_SIZE ∧ (p + 1) * PAGE_SIZE ≤ pool_limit_of s ∧ ¬ pmm_held s p ∧
      pmm_ready s' ∧ ∀ q, pmm_held s' q ↔ pmm_held s q ∨ q = p) s.
Proof.
  intros Hr. apply wp_early_low; [done|by left|].
  intros p s' ? ? ? ? ? ? ?. right. by exists p.
Qed.

(** ** Further instances on the booted machine *)

Lemma demo_pool : used_block demo 512 8.
Proof. split; vm_compute; [split; discriminate|reflexivity]. Qed.

Lemma demo_ready : pmm_ready demo.
Proof.
  split; [exact demo_inv|]. apply (bt_pool_ok _ _ _ demo_booted).
Qed.

Lemma pmm_free_spec_witness :
  wp (pmm_free_pages 0x200000 1) (λ _ s', pmm_inv s' ∧
    pmm_used_pages s' = pmm_used_pages demo - 2 ^ 8 ∧ ¬ used_block s' 512 8) demo.
Proof.
  eapply wp_mono; [apply (pmm_free_spec demo 0x200000 1 8);
    [exact demo_inv|reflexivity|exact demo_pool]|].
  intros _ s' (? & _ & ? & _ & Hl). split; [assumption|]. split; [assumption|].
  rewrite Hl. intros [_ Hne]. apply Hne. reflexivity.
Defined.

Lemma demo_orders : pmm_max_order demo = 9 ∧ pmm_page_meta demo !! 513 = Some 255.
Proof. split; vm_compute; reflexivity. Qed.

Lemma pmm_free_invalid_noop_witness :
  pmm_free_pages 0x201000 1 demo = Some (tt, demo).
Proof.
  apply (pmm_free_invalid_noop demo 0x201000 1); [exact demo_inv|discriminate|right].
  destruct demo_orders as [Eo Em]. change (0x201000 / PAGE_SIZE) with 513.
  intros t [Ht E]%used_block_meta; rewrite Eo in *; [|lia].
  rewrite Em in E. injection E. lia.
Defined.

Lemma pmm_live_blocks_separate_witness :
  0 ≤ 512 ∧ (2 ^ 8 | 512) ∧ ¬ free_page demo 600.
Proof.
  destruct (pmm_live_blocks_separate demo 512 8 512 8 demo_inv demo_pool demo_pool)
    as ((H1 & _ & H2) & H3 & _).
  split; [exact H1|]. split; [exact H2|]. apply H3. split; [lia|]. reflexivity.
Defined.

Lemma pmm_metadata_layout_witness :
  wp (bind_metadata 0x200000) (λ _ s',
    0x200000 = pmm_page_meta_ptr s' ∧
    pmm_page_meta_ptr s' + 1000 ≤ pmm_free_next_ptr s' ∧
    pmm_free_next_ptr s' + 8 * 1000 ≤ pmm_free_heads_ptr s' ∧
    pmm_free_heads_ptr s' + 8 * (9 + 1) ≤ 0x200000 + metadata_size_bytes 1000 9 ∧
    (8 | pmm_free_next_ptr s') ∧ (8 | pmm_free_heads_ptr s'))
    (init_sized EARLY_PHYS_LIMIT 1000).
Proof.
  apply (pmm_metadata_layout (init_sized EARLY_PHYS_LIMIT 1000) 0x200000);
    [vm_compute; split; reflexivity|vm_compute; split; [discriminate|reflexivity]|discriminate| |
     vm_compute; reflexivity].
  exists 0x40000. reflexivity.
Defined.

Lemma pmm_early_low_fresh_witness :
  wp pmm_alloc_early_low (λ phys s', (phys = 0 ∧ s' = demo) ∨
    ∃ p, phys = p * PAGE_SIZE ∧ (p + 1) * PAGE_SIZE ≤ pool_limit_of demo ∧ ¬ pmm_held demo p ∧
      pmm_ready s' ∧ ∀ q, pmm_held s' q ↔ pmm_held demo q ∨ q = p) demo.
Proof. exact (pmm_early_low_fresh demo demo_ready). Defined.
