(* ===== verification/Vmm.v ===== *)
(** * Virtual memory manager: data and operations

    Translation of [src/src/kernel/mm/vmm.c] (four-level x86-64 paging), over
    any page allocator ([PageAllocator]).  Pointers to page tables are
    virtual addresses as in the code; [ptr_phys] gives the physical address a
    pointer designates under the active mapping, and the words of the tables
    are stored by physical address.  A dereference of an unmapped pointer, or
    of a word that belongs to no table, is a fault.  The endless [hlt] loop
    of [alloc_table] is the halting outcome of [ME].  The trace output, the
    PAT and the EFER and CR0 bits have no effect on the tables. *)

From S2P Require Import Prelude PageAlloc Pmm.

Definition PAGE_SIZE_2M : Z := 2 * 1024 * 1024.
Definition PAGE_SIZE_1G : Z := 1024 * 1024 * 1024.
Definition EARLY_TABLE_POOL_PAGES : Z := 128.

Definition VMM_FLAG_PRESENT : Z := 0x001.
Definition VMM_FLAG_WRITE : Z := 0x002.
Definition VMM_FLAG_USER : Z := 0x004.
Definition VMM_FLAG_WRITE_THROUGH : Z := 0x008.
Definition VMM_FLAG_CACHE_DISABLE : Z := 0x010.
Definition VMM_FLAG_LARGE : Z := 0x080.
Definition VMM_FLAG_NOFREE : Z := 0x200.
Definition VMM_FLAG_WC : Z := 0x400.
Definition VMM_FLAG_NO_EXECUTE : Z := 0x8000000000000000.
Definition VMM_PTE_FLAG_MASK : Z := Z.lor 0xFFF VMM_FLAG_NO_EXECUTE.
Definition ADDR_MASK : Z := 0x000FFFFFFFFFF000.

Definition USER_VA_TOP : Z := 0x0000800000000000.
Definition KERNEL_VMA_BASE : Z := 0xFFFFFFFF80000000.
Definition VMM_FB_BASE : Z := 0xFFFFFFFFB0000000.
Definition VMM_PHYSMAP_BASE : Z := 0xFFFF800000000000.
Definition VMM_MMIO_BASE : Z := 0xFFFFFFFFC0000000.

(** Addresses fixed by the linker script, and of the static table pool. *)
Record kernel_syms := KernelSyms {
  ks_kernel_start : Z; ks_kernel_lma_start : Z;
  ks_text_start : Z; ks_text_end : Z; ks_text_lma_start : Z;
  ks_rodata_start : Z; ks_rodata_end : Z; ks_rodata_lma_start : Z;
  ks_data_start : Z; ks_bss_end : Z; ks_data_lma_start : Z;
  ks_stack_base : Z; ks_stack_top : Z; ks_stack_lma_start : Z; ks_stack_lma_end : Z;
  ks_ist_start : Z; ks_ist_end : Z; ks_ist_lma_start : Z;
  ks_early_table_pool : Z
}.

(** The fields of the handoff that [vmm_init] reads. *)
Record vmm_handoff := VmmHandoff {
  vh_mem : fry_handoff;
  vh_fb_base : Z; vh_fb_width : Z; vh_fb_height : Z; vh_fb_stride : Z
}.

(** The static variables, the table memory, CR3, and the addresses given to
    [invlpg], most recent first.  [kernel_pml4] and [mmio_pd] are pointers. *)
Record vmm (P : Type) := Vmm {
  vm_mem : gmap Z Z;
  vm_pmm : P;
  kernel_pml4 : Z;
  kernel_pml4_phys : Z;
  vmm_ready : bool;
  early_identity_limit : Z;
  physmap_max : Z;
  mmio_pd : Z;
  early_table_pool_used : Z;
  cr3 : Z;
  vm_invlpg : list Z
}.
Arguments Vmm {P} _ _ _ _ _ _ _ _ _ _ _.
Arguments vm_mem {P} _.
Arguments vm_pmm {P} _.
Arguments kernel_pml4 {P} _.
Arguments kernel_pml4_phys {P} _.
Arguments vmm_ready {P} _.
Arguments early_identity_limit {P} _.
Arguments physmap_max {P} _.
Arguments mmio_pd {P} _.
Arguments early_table_pool_used {P} _.
Arguments cr3 {P} _.
Arguments vm_invlpg {P} _.

Section setters.
Context {P : Type}.
Implicit Types s : vmm P.

Definition set_mem (m : gmap Z Z) s : vmm P :=
  Vmm m (vm_pmm s) (kernel_pml4 s) (kernel_pml4_phys s) (vmm_ready s)
    (early_identity_limit s) (physmap_max s) (mmio_pd s) (early_table_pool_used s)
    (cr3 s) (vm_invlpg s).
Definition set_vpmm (p : P) s : vmm P :=
  Vmm (vm_mem s) p (kernel_pml4 s) (kernel_pml4_phys s) (vmm_ready s)
    (early_identity_limit s) (physmap_max s) (mmio_pd s) (early_table_pool_used s)
    (cr3 s) (vm_invlpg s).
Definition set_pool_used (u : Z) s : vmm P :=
  Vmm (vm_mem s) (vm_pmm s) (kernel_pml4 s) (kernel_pml4_phys s) (vmm_ready s)
    (early_identity_limit s) (physmap_max s) (mmio_pd s) u (cr3 s) (vm_invlpg s).
Definition set_kernel_pml4 (ptr phys : Z) s : vmm P :=
  Vmm (vm_mem s) (vm_pmm s) ptr phys (vmm_ready s)
    (early_identity_limit s) (physmap_max s) (mmio_pd s) (early_table_pool_used s)
    (cr3 s) (vm_invlpg s).
Definition set_ready (r : bool) s : vmm P :=
  Vmm (vm_mem s) (vm_pmm s) (kernel_pml4 s) (kernel_pml4_phys s) r
    (early_identity_limit s) (physmap_max s) (mmio_pd s) (early_table_pool_used s)
    (cr3 s) (vm_invlpg s).
Definition set_ident_limit (l : Z) s : vmm P :=
  Vmm (vm_mem s) (vm_pmm s) (kernel_pml4 s) (kernel_pml4_phys s) (vmm_ready s)
    l (physmap_max s) (mmio_pd s) (early_table_pool_used s) (cr3 s) (vm_invlpg s).
Definition set_physmap_max (x : Z) s : vmm P :=
  Vmm (vm_mem s) (vm_pmm s) (kernel_pml4 s) (kernel_pml4_phys s) (vmm_ready s)
    (early_identity_limit s) x (mmio_pd s) (early_table_pool_used s) (cr3 s) (vm_invlpg s).
Definition set_mmio_pd (x : Z) s : vmm P :=
  Vmm (vm_mem s) (vm_pmm s) (kernel_pml4 s) (kernel_pml4_phys s) (vmm_ready s)
    (early_identity_limit s) (physmap_max s) x (early_table_pool_used s) (cr3 s) (vm_invlpg s).
Definition set_cr3 (x : Z) s : vmm P :=
  Vmm (vm_mem s) (vm_pmm s) (kernel_pml4 s) (kernel_pml4_phys s) (vmm_ready s)
    (early_identity_limit s) (physmap_max s) (mmio_pd s) (early_table_pool_used s) x (vm_invlpg s).
Definition set_invlpg (l : list Z) s : vmm P :=
  Vmm (vm_mem s) (vm_pmm s) (kernel_pml4 s) (kernel_pml4_phys s) (vmm_ready s)
    (early_identity_limit s) (physmap_max s) (mmio_pd s) (early_table_pool_used s) (cr3 s) l.
End setters.

(** [x & f] as a condition. *)
Definition has (x f : Z) : bool := negb (Z.land x f =? 0).

Definition pml4_index (virt : Z) : Z := Z.land (Z.shiftr virt 39) 0x1FF.
Definition pdpt_index (virt : Z) : Z := Z.land (Z.shiftr virt 30) 0x1FF.
Definition pd_index (virt : Z) : Z := Z.land (Z.shiftr virt 21) 0x1FF.
Definition pt_index (virt : Z) : Z := Z.land (Z.shiftr virt 12) 0x1FF.

Definition vmm_phys_to_virt (phys : Z) : Z := u64 (VMM_PHYSMAP_BASE + phys).

Definition is_physmap_bootstrap_type (type : Z) : bool :=
  (type =? 1) || (type =? 2) || (type =? 3) || (type =? 4) || (type =? 5) ||
  (type =? 6) || (type =? 7) || (type =? 9) || (type =? 10) || (type =? 14).

Section vmm_ops.
Context {P : Type} `{!PageAllocator P} (ks : kernel_syms).

Definition kernel_virt_to_phys (virt : Z) : Z :=
  if ks_kernel_start ks <=? virt
  then u64 (ks_kernel_lma_start ks + (virt - ks_kernel_start ks)) else virt.

Definition phys_to_virt (s : vmm P) (phys : Z) : Z :=
  if negb (vmm_ready s) && (phys <? early_identity_limit s) then phys
  else vmm_phys_to_virt phys.

(** The physical address behind a pointer: the kernel image; the physmap,
    once CR3 has been loaded; the identity map of low memory, which exists
    at boot and in the kernel's own address space. *)
Definition ptr_phys (s : vmm P) (ptr : Z) : option Z :=
  if ks_kernel_start ks <=? ptr then Some (kernel_virt_to_phys ptr)
  else if VMM_PHYSMAP_BASE <=? ptr then
    (if vmm_ready s then Some (ptr - VMM_PHYSMAP_BASE) else None)
  else if (ptr <? early_identity_limit s) &&
          (negb (vmm_ready s) || (cr3 s =? kernel_pml4_phys s))
  then Some ptr else None.

(** [tbl[i]] and [tbl[i] = v]. *)
Definition rd_entry (tbl i : Z) : M (vmm P) Z :=
  lift_opt (λ s, ptr_phys s tbl ≫= λ p, vm_mem s !! (p + 8 * i)).
Definition wr_entry (tbl i v : Z) : M (vmm P) unit :=
  update_opt (λ s,
    p ← ptr_phys s tbl;
    match vm_mem s !! (p + 8 * i) with
    | Some _ => Some (set_mem (<[p + 8 * i := v]> (vm_mem s)) s)
    | None => None
    end).

(** [for (i = 0; i < 512; i++) tbl[i] = 0]: the page becomes a table. *)
Definition zero_words (p : Z) (m : gmap Z Z) : gmap Z Z :=
  foldr (λ i m, <[p + 8 * i := 0]> m) m (seqZ 0 512).
Definition zero_table (tbl : Z) : M (vmm P) unit :=
  update_opt (λ s, p ← ptr_phys s tbl; Some (set_mem (zero_words p (vm_mem s)) s)).

Definition with_pmm {A} (m : M P A) : M (vmm P) A := λ s,
  match m (vm_pmm s) with Some (a, p) => Some (a, set_vpmm p s) | None => None end.

Definition invlpg (virt : Z) : M (vmm P) unit :=
  modify (λ s, set_invlpg (virt :: vm_invlpg s) s).

(** ** Page tables *)

Definition alloc_early_table_pool : M (vmm P) (Z * Z) :=
  used ← gets early_table_pool_used;
  if EARLY_TABLE_POOL_PAGES <=? used then mret (0, 0)
  else
    let tbl := u64 (ks_early_table_pool ks + used * PAGE_SIZE) in
    modify (set_pool_used (used + 1));;
    zero_table tbl;;
    mret (kernel_virt_to_phys tbl, tbl).

Definition alloc_table : ME (vmm P) Z :=
  ready ← run (gets vmm_ready);
  r ← run (if ready : bool then
             phys ← with_pmm (pa_alloc_page_below 0x100000000); mret (phys, 0)
           else
             r ← alloc_early_table_pool;
             if r.1 =? 0 then
               phys ← with_pmm pa_alloc_early_low; mret (phys, r.2)
             else mret r);
  let '(phys, tbl) := r in
  if phys =? 0 then halt
  else if tbl =? 0 then
    tbl ← run (gets (λ s, phys_to_virt s phys));
    run (zero_table tbl);;
    mret phys
  else mret phys.

Definition get_or_alloc_table (parent idx flags : Z) : ME (vmm P) Z :=
  e ← run (rd_entry parent idx);
  (if negb (has e VMM_FLAG_PRESENT) then
     phys ← alloc_table;
     run (wr_entry parent idx
       (Z.lor (Z.lor (Z.lor phys VMM_FLAG_PRESENT) VMM_FLAG_WRITE) (Z.land flags VMM_FLAG_USER)))
   else mret tt);;
  e ← run (rd_entry parent idx);
  run (gets (λ s, phys_to_virt s (Z.land e ADDR_MASK))).

(** The descent shared by [vmm_map] and [vmm_map_user]; a null table pointer
    is a [return]. *)
Definition get_table3 (pml4 virt flags : Z) : ME (vmm P) (option Z) :=
  pdpt ← get_or_alloc_table pml4 (pml4_index virt) flags;
  if pdpt =? 0 then mret None
  else
    pd ← get_or_alloc_table pdpt (pdpt_index virt) flags;
    if pd =? 0 then mret None
    else
      pt ← get_or_alloc_table pd (pd_index virt) flags;
      mret (if pt =? 0 then None else Some pt).

(** [&pt[pt_i]] is given as the table and the index; [None] is null. *)
Definition vmm_lookup_user_pte (pml4_phys virt : Z) : M (vmm P) (option (Z * Z)) :=
  if (pml4_phys =? 0) || (USER_VA_TOP <=? virt) then mret None
  else
    pml4 ← gets (λ s, phys_to_virt s pml4_phys);
    e4 ← rd_entry pml4 (pml4_index virt);
    if negb (has e4 VMM_FLAG_PRESENT) then mret None
    else
      pdpt ← gets (λ s, phys_to_virt s (Z.land e4 ADDR_MASK));
      pdpe ← rd_entry pdpt (pdpt_index virt);
      if negb (has pdpe VMM_FLAG_PRESENT) then mret None
      else if has pdpe VMM_FLAG_LARGE then mret None
      else
        pd ← gets (λ s, phys_to_virt s (Z.land pdpe ADDR_MASK));
        pde ← rd_entry pd (pd_index virt);
        if negb (has pde VMM_FLAG_PRESENT) then mret None
        else if has pde VMM_FLAG_LARGE then mret None
        else
          pt ← gets (λ s, phys_to_virt s (Z.land pde ADDR_MASK));
          pte ← rd_entry pt (pt_index virt);
          mret (if negb (has pte VMM_FLAG_PRESENT) then None else Some (pt, pt_index virt)).

(** [pte_flags] of [vmm_map]: [VMM_FLAG_WC] becomes the PAT bit. *)
Definition kernel_pte_flags (flags : Z) : Z :=
  let f := Z.lor (Z.land flags VMM_PTE_FLAG_MASK) VMM_FLAG_PRESENT in
  if has flags VMM_FLAG_WC then
    let f := Z.land f (u64 (Z.lnot VMM_FLAG_WC)) in
    let f := Z.lor f 0x080 in
    let f := Z.land f (u64 (Z.lnot VMM_FLAG_WRITE_THROUGH)) in
    Z.land f (u64 (Z.lnot VMM_FLAG_CACHE_DISABLE))
  else f.

Definition vmm_map (virt phys flags : Z) : ME (vmm P) unit :=
  pml4 ← run (gets kernel_pml4);
  pt ← get_table3 pml4 virt flags;
  match pt with
  | None => mret tt
  | Some pt =>
      run (wr_entry pt (pt_index virt)
        (Z.lor (Z.land phys ADDR_MASK) (kernel_pte_flags flags)))
  end.

Definition vmm_map_range (virt phys pages flags : Z) : ME (vmm P) unit :=
  for_e 0 pages (λ i,
    vmm_map (u64 (virt + i * PAGE_SIZE)) (u64 (phys + i * PAGE_SIZE)) flags).

Definition map_kernel_region (virt phys size flags : Z) : ME (vmm P) unit :=
  if size =? 0 then mret tt
  else vmm_map_range virt phys (u64 (size + PAGE_SIZE - 1) / PAGE_SIZE) flags.

Definition vmm_map_2m (virt phys flags : Z) : ME (vmm P) unit :=
  pml4 ← run (gets kernel_pml4);
  pdpt ← get_or_alloc_table pml4 (pml4_index virt) flags;
  if pdpt =? 0 then mret tt
  else
    pd ← get_or_alloc_table pdpt (pdpt_index virt) flags;
    if pd =? 0 then mret tt
    else
      run (wr_entry pd (pd_index virt)
        (Z.lor (Z.lor (Z.lor (Z.land phys ADDR_MASK) (Z.land flags VMM_PTE_FLAG_MASK))
          VMM_FLAG_PRESENT) VMM_FLAG_LARGE)).

Definition map_range_2m (virt phys bytes flags : Z) : ME (vmm P) unit :=
  for_e 0 (u64 (bytes + (PAGE_SIZE_2M - 1)) / PAGE_SIZE_2M) (λ i,
    vmm_map_2m (u64 (virt + i * PAGE_SIZE_2M)) (u64 (phys + i * PAGE_SIZE_2M)) flags).

(** ** Address spaces *)

Definition vmm_create_address_space : ME (vmm P) Z :=
  new_pml4_phys ← alloc_table;
  new_pml4 ← run (gets (λ s, phys_to_virt s new_pml4_phys));
  for_e 256 512 (λ i,
    k ← run (gets kernel_pml4);
    e ← run (rd_entry k i);
    run (wr_entry new_pml4 i e));;
  mret new_pml4_phys.

Definition vmm_map_user (pml4_phys virt phys flags : Z) : ME (vmm P) unit :=
  if USER_VA_TOP <=? virt then mret tt
  else
    pml4 ← run (gets (λ s, phys_to_virt s pml4_phys));
    pt ← get_table3 pml4 virt flags;
    match pt with
    | None => mret tt
    | Some pt =>
        run (wr_entry pt (pt_index virt)
          (Z.lor (Z.lor (Z.land phys ADDR_MASK) (Z.land flags VMM_PTE_FLAG_MASK))
            VMM_FLAG_PRESENT))
    end.

(** The walk shared by [vmm_virt_to_phys_user] and [vmm_virt_to_phys]. *)
Definition walk_to_phys (pml4 virt : Z) : M (vmm P) Z :=
  e4 ← rd_entry pml4 (pml4_index virt);
  if negb (has e4 VMM_FLAG_PRESENT) then mret 0
  else
    pdpt ← gets (λ s, phys_to_virt s (Z.land e4 ADDR_MASK));
    pdpe ← rd_entry pdpt (pdpt_index virt);
    if negb (has pdpe VMM_FLAG_PRESENT) then mret 0
    else if has pdpe VMM_FLAG_LARGE
    then mret (u64 (Z.land pdpe ADDR_MASK + Z.land virt 0x3FFFFFFF))
    else
      pd ← gets (λ s, phys_to_virt s (Z.land pdpe ADDR_MASK));
      pde ← rd_entry pd (pd_index virt);
      if negb (has pde VMM_FLAG_PRESENT) then mret 0
      else if has pde VMM_FLAG_LARGE
      then mret (u64 (Z.land pde ADDR_MASK + Z.land virt 0x1FFFFF))
      else
        pt ← gets (λ s, phys_to_virt s (Z.land pde ADDR_MASK));
        pte ← rd_entry pt (pt_index virt);
        if negb (has pte VMM_FLAG_PRESENT) then mret 0
        else mret (u64 (Z.land pte ADDR_MASK + Z.land virt 0xFFF)).

Definition vmm_virt_to_phys_user (pml4_phys virt : Z) : M (vmm P) Z :=
  if pml4_phys =? 0 then mret 0
  else if USER_VA_TOP <=? virt then mret 0
  else
    pml4 ← gets (λ s, phys_to_virt s pml4_phys);
    walk_to_phys pml4 virt.

Definition vmm_query_user_flags (pml4_phys virt : Z) : M (vmm P) Z :=
  pte ← vmm_lookup_user_pte pml4_phys virt;
  match pte with
  | None => mret 0
  | Some (t, i) => e ← rd_entry t i; mret (Z.land e VMM_PTE_FLAG_MASK)
  end.

(** [if (cr3 == pml4_phys) invlpg] *)
Definition flush_if_current (pml4_phys virt : Z) : M (vmm P) unit :=
  c ← gets cr3;
  if Z.land c ADDR_MASK =? Z.land pml4_phys ADDR_MASK then invlpg virt else mret tt.

Definition vmm_unmap_user (pml4_phys virt : Z) : M (vmm P) unit :=
  if pml4_phys =? 0 then mret tt
  else if USER_VA_TOP <=? virt then mret tt
  else
    pml4 ← gets (λ s, phys_to_virt s pml4_phys);
    e4 ← rd_entry pml4 (pml4_index virt);
    if negb (has e4 VMM_FLAG_PRESENT) then mret tt
    else
      pdpt ← gets (λ s, phys_to_virt s (Z.land e4 ADDR_MASK));
      pdpe ← rd_entry pdpt (pdpt_index virt);
      if negb (has pdpe VMM_FLAG_PRESENT) then mret tt
      else
        pd ← gets (λ s, phys_to_virt s (Z.land pdpe ADDR_MASK));
        pde ← rd_entry pd (pd_index virt);
        if negb (has pde VMM_FLAG_PRESENT) then mret tt
        else if has pde VMM_FLAG_LARGE then mret tt
        else
          pt ← gets (λ s, phys_to_virt s (Z.land pde ADDR_MASK));
          pte ← rd_entry pt (pt_index virt);
          if negb (has pte VMM_FLAG_PRESENT) then mret tt
          else
            wr_entry pt (pt_index virt) 0;;
            flush_if_current pml4_phys virt.

Definition PROT_BITS : Z := Z.lor (Z.lor VMM_FLAG_USER VMM_FLAG_WRITE) VMM_FLAG_NO_EXECUTE.

Definition vmm_protect_user (pml4_phys virt flags : Z) : M (vmm P) Z :=
  pte ← vmm_lookup_user_pte pml4_phys virt;
  match pte with
  | None => mret (-1)
  | Some (t, i) =>
      entry ← rd_entry t i;
      let entry := Z.land entry (u64 (Z.lnot PROT_BITS)) in
      let entry := Z.lor entry VMM_FLAG_PRESENT in
      let entry := Z.lor entry (Z.land flags PROT_BITS) in
      wr_entry t i entry;;
      flush_if_current pml4_phys virt;;
      mret 0
  end.

Definition vmm_unmap (virt : Z) : M (vmm P) unit :=
  pml4 ← gets kernel_pml4;
  e4 ← rd_entry pml4 (pml4_index virt);
  if negb (has e4 VMM_FLAG_PRESENT) then mret tt
  else
    pdpt ← gets (λ s, phys_to_virt s (Z.land e4 ADDR_MASK));
    pdpe ← rd_entry pdpt (pdpt_index virt);
    if negb (has pdpe VMM_FLAG_PRESENT) then mret tt
    else
      pd ← gets (λ s, phys_to_virt s (Z.land pdpe ADDR_MASK));
      pde ← rd_entry pd (pd_index virt);
      if negb (has pde VMM_FLAG_PRESENT) then mret tt
      else
        pt ← gets (λ s, phys_to_virt s (Z.land pde ADDR_MASK));
        pte ← rd_entry pt (pt_index virt);
        if negb (has pte VMM_FLAG_PRESENT) then mret tt
        else wr_entry pt (pt_index virt) 0;; invlpg virt.

Definition vmm_virt_to_phys (virt : Z) : M (vmm P) Z :=
  if (VMM_PHYSMAP_BASE <=? virt) && (virt <? KERNEL_VMA_BASE)
  then mret (virt - VMM_PHYSMAP_BASE)
  else
    pml4 ← gets kernel_pml4;
    walk_to_phys pml4 virt.

(** ** Initialisation *)

Definition RWNX : Z := Z.lor VMM_FLAG_WRITE VMM_FLAG_NO_EXECUTE.
Definition RWNX_UC : Z :=
  Z.lor (Z.lor RWNX VMM_FLAG_CACHE_DISABLE) VMM_FLAG_WRITE_THROUGH.

(** One descriptor of the physmap loop; the result is [mapped_max]. *)
Definition physmap_step (d : efi_memory_descriptor) (mapped_max : Z) : ME (vmm P) Z :=
  if negb (is_physmap_bootstrap_type (d_Type d)) then mret mapped_max
  else if (d_NumberOfPages d =? 0) || (UINT64_MAX / PAGE_SIZE <? d_NumberOfPages d)
  then mret mapped_max
  else
    let start := d_PhysicalStart d in
    let end_ := desc_end d in
    if end_ <=? start then mret mapped_max
    else
      let map_start := align_down start PAGE_SIZE_2M in
      let map_end := align_up end_ PAGE_SIZE_2M in
      if map_end <=? map_start then mret mapped_max
      else
        map_range_2m (u64 (VMM_PHYSMAP_BASE + map_start)) map_start
          (u64 (map_end - map_start)) RWNX;;
        mret (if mapped_max <? map_end then map_end else mapped_max).

Fixpoint physmap_loop (ds : list efi_memory_descriptor) (mapped_max : Z) : ME (vmm P) Z :=
  match ds with
  | [] => mret mapped_max
  | d :: ds => m ← physmap_step d mapped_max; physmap_loop ds m
  end.

(** The kernel sections, each with its own permissions. *)
Definition map_sections : ME (vmm P) unit :=
  map_kernel_region (ks_text_start ks) (ks_text_lma_start ks)
    (u64 (ks_text_end ks - ks_text_start ks)) 0;;
  map_kernel_region (ks_rodata_start ks) (ks_rodata_lma_start ks)
    (u64 (ks_rodata_end ks - ks_rodata_start ks)) VMM_FLAG_NO_EXECUTE;;
  map_kernel_region (ks_data_start ks) (ks_data_lma_start ks)
    (u64 (ks_bss_end ks - ks_data_start ks)) RWNX.

(** The kernel stack, less its guard page, and the interrupt stacks. *)
Definition map_stacks : ME (vmm P) unit :=
  let s_size := u64 (ks_stack_top ks - ks_stack_base ks) in
  (if (PAGE_SIZE <=? s_size) && (s_size <=? u64 (ks_stack_lma_end ks - ks_stack_lma_start ks))
   then
     let map_size := u64 (s_size - PAGE_SIZE) in
     vmm_map_range (u64 (ks_stack_base ks + PAGE_SIZE)) (u64 (ks_stack_lma_start ks + PAGE_SIZE))
       (u64 (map_size + PAGE_SIZE - 1) / PAGE_SIZE) RWNX
   else mret tt);;
  (if ks_ist_start ks <? ks_ist_end ks then
     map_kernel_region (ks_ist_start ks) (ks_ist_lma_start ks)
       (u64 (ks_ist_end ks - ks_ist_start ks)) RWNX
   else mret tt).

Definition map_framebuffer (h : vmm_handoff) : ME (vmm P) unit :=
  if (vh_fb_base h =? 0) || (vh_fb_width h =? 0) || (vh_fb_height h =? 0) then mret tt
  else
    let fb_size := u64 (u64 (vh_fb_stride h * vh_fb_height h) * 4) in
    vmm_map_range VMM_FB_BASE (vh_fb_base h) (u64 (fb_size + PAGE_SIZE - 1) / PAGE_SIZE)
      (Z.lor RWNX VMM_FLAG_WC).

Definition map_mmio_window : ME (vmm P) unit :=
  k ← run (gets kernel_pml4);
  mmio_pdpt ← get_or_alloc_table k (pml4_index VMM_MMIO_BASE) VMM_FLAG_WRITE;
  if mmio_pdpt =? 0 then mret tt
  else
    pd ← get_or_alloc_table mmio_pdpt (pdpt_index VMM_MMIO_BASE) VMM_FLAG_WRITE;
    run (modify (set_mmio_pd pd)).

Definition handoff_map_descs (handoff : option vmm_handoff) : list efi_memory_descriptor :=
  match handoff with
  | None => []
  | Some vh =>
      let h := vh_mem vh in
      if (hf_mmap_base h =? 0) || (hf_mmap_size h =? 0) || (hf_mmap_desc_size h =? 0)
      then [] else handoff_descs h
  end.

Definition vmm_init (handoff : option vmm_handoff) : ME (vmm P) unit :=
  run (modify (set_ready false));;
  run (modify (set_pool_used 0));;
  (match handoff with
   | Some vh =>
       if negb (hf_boot_identity_limit (vh_mem vh) =? 0)
       then run (modify (set_ident_limit (hf_boot_identity_limit (vh_mem vh))))
       else mret tt
   | None => mret tt
   end);;
  root ← alloc_table;
  run (modify (λ s, set_kernel_pml4 (phys_to_virt s root) root s));;
  limit ← run (gets early_identity_limit);
  map_range_2m 0 0 limit VMM_FLAG_WRITE;;
  mapped_max ← physmap_loop (handoff_map_descs handoff) 0;
  mapped_max ← (if mapped_max =? 0 then
                  map_range_2m VMM_PHYSMAP_BASE 0 limit RWNX;; mret limit
                else mret mapped_max);
  run (modify (set_physmap_max mapped_max));;
  map_sections;;
  map_stacks;;
  (match handoff with Some vh => map_framebuffer vh | None => mret tt end);;
  map_mmio_window;;
  run (modify (set_cr3 root));;
  run (modify (set_ready true));;
  run (modify (λ s, set_kernel_pml4 (vmm_phys_to_virt root) root s)).

(** ** Later mappings *)

Definition vmm_ensure_physmap (phys_end : Z) : ME (vmm P) unit :=
  if phys_end =? 0 then mret tt
  else
    let start := align_down (phys_end - 1) PAGE_SIZE_2M in
    let end_ := u64 (start + 0x200000) in
    map_range_2m (u64 (VMM_PHYSMAP_BASE + start)) start (u64 (end_ - start)) RWNX;;
    run (modify (λ s, if physmap_max s <? end_ then set_physmap_max end_ s else s)).

Definition vmm_ensure_physmap_uc (phys_end : Z) : ME (vmm P) unit :=
  if phys_end =? 0 then mret tt
  else
    let start := align_down (phys_end - 1) PAGE_SIZE_2M in
    let end_ := u64 (start + 0x200000) in
    map_range_2m (u64 (VMM_PHYSMAP_BASE + start)) start (u64 (end_ - start)) RWNX_UC.

Definition vmm_map_mmio_2m (phys : Z) : ME (vmm P) Z :=
  let base := align_down phys PAGE_SIZE_2M in
  let off := phys - base in
  pd ← run (gets mmio_pd);
  (if negb (pd =? 0) then
     run (wr_entry pd (pd_index VMM_MMIO_BASE)
       (Z.lor (Z.land base ADDR_MASK)
         (Z.lor (Z.lor RWNX_UC VMM_FLAG_PRESENT) VMM_FLAG_LARGE)));;
     run (invlpg VMM_MMIO_BASE)
   else vmm_map_2m VMM_MMIO_BASE base RWNX_UC);;
  mret (u64 (VMM_MMIO_BASE + off)).

(** ** Destruction of an address space *)

Definition vmm_free_leaf_entry (entry pages : Z) : M (vmm P) unit :=
  if negb (has entry VMM_FLAG_PRESENT) || has entry VMM_FLAG_NOFREE then mret tt
  else
    let phys := Z.land entry ADDR_MASK in
    if phys =? 0 then mret tt else with_pmm (pa_free_pages phys pages).

Definition free_page_of (phys : Z) : M (vmm P) unit := with_pmm (pa_free_pages phys 1).

(** [for (i = 0; i < n; i++) { e = tbl[i]; ... }] *)
Definition for_entries (tbl n : Z) (f : Z → M (vmm P) unit) : M (vmm P) unit :=
  for_ (R := unit) 0 n (λ i, e ← rd_entry tbl i; f e;; mret None);; mret tt.

Definition vmm_destroy_pt (pt_phys : Z) : M (vmm P) unit :=
  if pt_phys =? 0 then mret tt
  else
    for_entries (vmm_phys_to_virt pt_phys) 512 (λ e, vmm_free_leaf_entry e 1);;
    free_page_of pt_phys.

Definition vmm_destroy_pd (pd_phys : Z) : M (vmm P) unit :=
  if pd_phys =? 0 then mret tt
  else
    for_entries (vmm_phys_to_virt pd_phys) 512 (λ e,
      if negb (has e VMM_FLAG_PRESENT) then mret tt
      else if has e VMM_FLAG_LARGE then vmm_free_leaf_entry e (PAGE_SIZE_2M / PAGE_SIZE)
      else vmm_destroy_pt (Z.land e ADDR_MASK));;
    free_page_of pd_phys.

Definition vmm_destroy_pdpt (pdpt_phys : Z) : M (vmm P) unit :=
  if pdpt_phys =? 0 then mret tt
  else
    for_entries (vmm_phys_to_virt pdpt_phys) 512 (λ e,
      if negb (has e VMM_FLAG_PRESENT) then mret tt
      else if has e VMM_FLAG_LARGE then vmm_free_leaf_entry e (PAGE_SIZE_1G / PAGE_SIZE)
      else vmm_destroy_pd (Z.land e ADDR_MASK));;
    free_page_of pdpt_phys.

Definition vmm_destroy_address_space (pml4_phys : Z) : M (vmm P) unit :=
  if pml4_phys =? 0 then mret tt
  else
    for_entries (vmm_phys_to_virt pml4_phys) 256 (λ e,
      if negb (has e VMM_FLAG_PRESENT) then mret tt
      else if has e VMM_FLAG_LARGE then mret tt
      else vmm_destroy_pdpt (Z.land e ADDR_MASK));;
    free_page_of pml4_phys.
End vmm_ops.
