(* ===== verification/VmmInv.v ===== *)
(** * Virtual memory manager: page-table trees

    The translation function computed by a table walk, and the invariant that
    makes it meaningful: every table page belongs to one position of one
    tree. *)

From S2P Require Import Prelude PageAlloc Vmm.

(** ** Bits of entries *)

Lemma land_page_low p c : 0 ≤ c < 4096 → Z.land (p * PAGE_SIZE) c = 0.
Proof.
  intros Hc. apply Z.bits_inj'. intros n Hn. rewrite Z.land_spec, Z.bits_0.
  change PAGE_SIZE with (2 ^ 12). destruct (decide (n < 12)).
  - by rewrite Z.mul_pow2_bits_low.
  - rewrite (Z.bits_above_log2 c n), andb_false_r; [done|lia|].
    destruct (decide (c = 0)) as [->|]; [simpl; lia|].
    assert (Z.log2 c < 12) by (apply Z.log2_lt_pow2; lia). lia.
Qed.

Lemma land_page_addr p : 0 ≤ p < 2 ^ 40 → Z.land (p * PAGE_SIZE) ADDR_MASK = p * PAGE_SIZE.
Proof.
  intros Hp. change ADDR_MASK with (Z.shiftl (Z.ones 40) 12). change PAGE_SIZE with (2 ^ 12).
  rewrite <-Z.shiftl_mul_pow2, <-Z.shiftl_land, Z.land_ones, Z.mod_small by lia. done.
Qed.

Lemma land_addr phys :
  0 ≤ phys < 2 ^ 52 → Z.land phys ADDR_MASK = phys / PAGE_SIZE * PAGE_SIZE.
Proof.
  intros Hp. rewrite <-(land_page_addr (phys / PAGE_SIZE)).
  2: { unfold PAGE_SIZE. Z.to_euclidean_division_equations. lia. }
  pose proof (Z.div_mod phys PAGE_SIZE ltac:(done)) as E. rewrite Z.mul_comm in E.
  assert (0 ≤ phys mod PAGE_SIZE < 4096) as Hm by (by apply Z.mod_pos_bound).
  rewrite E at 1. rewrite Z.add_nocarry_lxor, Z.lxor_lor by (by apply land_page_low).
  rewrite Z.land_lor_distr_l, (Z.land_comm (phys mod PAGE_SIZE)).
  rewrite (land_page_low 0xFFFFFFFFFF (phys mod PAGE_SIZE) Hm : Z.land ADDR_MASK _ = 0).
  by rewrite Z.lor_0_r.
Qed.

(** The flag bits do not meet the address bits. *)
Lemma land_lor_mask a b M : Z.land (Z.lor a b) M = Z.lor (Z.land a M) (Z.land b M).
Proof. by rewrite Z.land_lor_distr_l. Qed.

Lemma land_const_mask x c M d : Z.land c M = d → Z.land (Z.land x c) M = Z.land x d.
Proof. intros <-. by rewrite Z.land_assoc. Qed.

(** The entry [get_or_alloc_table] writes for a new table. *)
Lemma table_entry p flags :
  0 ≤ p < 2 ^ 40 →
  let e := Z.lor (Z.lor (Z.lor (p * PAGE_SIZE) VMM_FLAG_PRESENT) VMM_FLAG_WRITE)
             (Z.land flags VMM_FLAG_USER) in
  Z.land e ADDR_MASK = p * PAGE_SIZE ∧ has e VMM_FLAG_PRESENT = true ∧
  has e VMM_FLAG_LARGE = false.
Proof.
  intros Hp. unfold has.
  rewrite !land_lor_mask, land_page_addr, !land_page_low by (unfold VMM_FLAG_PRESENT, VMM_FLAG_LARGE; lia).
  rewrite (land_const_mask _ _ ADDR_MASK 0), (land_const_mask _ _ VMM_FLAG_PRESENT 0),
    (land_const_mask _ _ VMM_FLAG_LARGE 0) by done.
  rewrite Z.land_0_r. change (Z.land VMM_FLAG_PRESENT ADDR_MASK) with 0.
  change (Z.land VMM_FLAG_WRITE ADDR_MASK) with 0. rewrite !Z.lor_0_r.
  split; [done|]. split; done.
Qed.

(** ** Translation *)

(** [Leaf e mask]: the entry that maps the address, and the mask of the
    offset inside the page it maps. *)
Inductive xlat := NotMapped | Leaf (e mask : Z).

Definition leaf_mask (rest : nat) : Z :=
  match rest with O => 0xFFF | S O => 0x1FFFFF | _ => 0x3FFFFFFF end.

(** The walk from table [t] along the indices [ix]; the top level has no
    large pages. *)
Fixpoint walk (m : gmap Z Z) (t : Z) (ix : list Z) : option xlat :=
  match ix with
  | [] => None
  | i :: rest =>
      e ← m !! (t + 8 * i);
      if negb (has e VMM_FLAG_PRESENT) then Some NotMapped
      else if (length rest =? 0)%nat || (has e VMM_FLAG_LARGE && (length rest <? 3)%nat)
      then Some (Leaf e (leaf_mask (length rest)))
      else walk m (Z.land e ADDR_MASK) rest
  end.

Definition indices (virt : Z) : list Z :=
  [pml4_index virt; pdpt_index virt; pd_index virt; pt_index virt].

(** How the tree of root [r] translates [virt]. *)
Definition translate {P} (s : vmm P) (r virt : Z) : option xlat :=
  walk (vm_mem s) r (indices virt).

Lemma index_range v k : 0 ≤ Z.land (Z.shiftr v k) 0x1FF < 512.
Proof. change 0x1FF with (Z.ones 9). rewrite Z.land_ones by lia. by apply Z.mod_pos_bound. Qed.

Definition good_indices (ix : list Z) : Prop := Forall (λ i, 0 ≤ i < 512) ix.

Lemma indices_good virt : good_indices (indices virt).
Proof. repeat constructor; apply index_range. Qed.

(** ** The invariant *)

(** [own !! t = Some (r, pre)]: the page at physical address [t] is the table
    reached from the root [r] by the indices [pre]. *)
Abbreviation owners := (gmap Z (Z * list Z)).

Section inv.
Context {P : Type} `{!PageAllocator P, !PageAllocatorLaws P}.
Implicit Types (s : vmm P) (own : owners).

(** The kernel's tree has 512 top-level entries; the upper half of the
    others is a copy of the kernel's. *)
Definition own_index s (r : Z) (pre : list Z) (i : Z) : Prop :=
  0 ≤ i < 512 ∧ (pre = [] → i < 256 ∨ r = kernel_pml4_phys s).

Record pt_inv s own : Prop := {
  pi_ready : vmm_ready s = true;
  pi_pmm : pa_inv (vm_pmm s);
  pi_range : ∀ t r pre, own !! t = Some (r, pre) →
    ∃ p, t = p * PAGE_SIZE ∧ 1 ≤ p ∧ (p + 1) * PAGE_SIZE ≤ 2 ^ 32 ∧
         pa_held (vm_pmm s) p ∧ (length pre ≤ 3)%nat;
  pi_words : ∀ t r pre i, own !! t = Some (r, pre) → 0 ≤ i < 512 →
    is_Some (vm_mem s !! (t + 8 * i));
  pi_child : ∀ t r pre i e, own !! t = Some (r, pre) → own_index s r pre i →
    (length pre < 3)%nat → vm_mem s !! (t + 8 * i) = Some e →
    has e VMM_FLAG_PRESENT = true → pre = [] ∨ has e VMM_FLAG_LARGE = false →
    own !! Z.land e ADDR_MASK = Some (r, pre ++ [i])
}.

(** A root of a tree. *)
Definition is_root own (r : Z) : Prop := own !! r = Some (r, []).

(** Indices whose walk stays inside the tree. *)
Definition tree_indices s (r : Z) (ix : list Z) : Prop :=
  good_indices ix ∧ length ix = 4%nat ∧ (default 0 (head ix) < 256 ∨ r = kernel_pml4_phys s).

(** Words of distinct tables, or distinct words, have distinct addresses. *)
Lemma word_inj s own t1 o1 t2 o2 i1 i2 :
  pt_inv s own → own !! t1 = Some o1 → own !! t2 = Some o2 →
  0 ≤ i1 < 512 → 0 ≤ i2 < 512 → t1 + 8 * i1 = t2 + 8 * i2 → t1 = t2 ∧ i1 = i2.
Proof.
  intros H H1 H2 Hi1 Hi2 E. destruct o1 as [r1 pre1], o2 as [r2 pre2].
  destruct (pi_range _ _ H _ _ _ H1) as (p1 & -> & _), (pi_range _ _ H _ _ _ H2) as (p2 & -> & _).
  unfold PAGE_SIZE in *. lia.
Qed.

(** Writing a word that a walk does not read does not change the walk. *)
Lemma walk_write_other s own t r pre ix t' r' pre' i' v :
  pt_inv s own → own !! t = Some (r, pre) → own !! t' = Some (r', pre') → 0 ≤ i' < 512 →
  (length pre + length ix = 4)%nat → good_indices ix →
  (pre = [] → default 0 (head ix) < 256 ∨ r = kernel_pml4_phys s) →
  (r = r' → ¬ (pre' ++ [i']) `prefix_of` (pre ++ ix)) →
  walk (<[t' + 8 * i' := v]> (vm_mem s)) t ix = walk (vm_mem s) t ix.
Proof.
  intros H Ht Ht' Hi' Hlen Hgood Htop Hne. revert t pre Ht Hlen Htop Hne.
  induction ix as [|i ix IH]; intros t pre Ht Hlen Htop Hne; [done|]. simpl.
  apply Forall_cons in Hgood as [Hi Hgood]. simpl in Htop, Hlen.
  assert (t' + 8 * i' ≠ t + 8 * i) as Hword.
  { intros E. destruct (word_inj s own t' _ t _ i' i H Ht' Ht Hi' Hi E) as [-> ->].
    rewrite Ht in Ht'. injection Ht' as <- <-. apply Hne; [done|].
    apply prefix_app. by exists ix. }
  rewrite lookup_insert_ne by done.
  destruct (vm_mem s !! (t + 8 * i)) as [e|] eqn:He; simpl; [|done].
  destruct (has e VMM_FLAG_PRESENT) eqn:Hp; simpl; [|done].
  destruct ((length ix =? 0)%nat || (has e VMM_FLAG_LARGE && (length ix <? 3)%nat)) eqn:Hl; [done|].
  apply orb_false_iff in Hl as [Hl0 Hl]. apply Nat.eqb_neq in Hl0.
  apply (IH Hgood _ (pre ++ [i])).
  - eapply (pi_child _ _ H t); [done|split; [done|]|lia|done|done|].
    + by intros Hpre; apply Htop.
    + apply andb_false_iff in Hl as [Hl|Hl%Nat.ltb_ge]; [by right|left].
      destruct pre; [done|]. simpl in Hlen. lia.
  - rewrite length_app. simpl. lia.
  - intros E. by destruct pre.
  - intros Er Hpre. apply (Hne Er). by rewrite <-app_assoc in Hpre.
Qed.

Lemma zero_words_in p m i : 0 ≤ i < 512 → zero_words p m !! (p + 8 * i) = Some 0.
Proof.
  intros Hi. unfold zero_words.
  assert (∀ l, i ∈ l → foldr (λ i m, <[p + 8 * i := 0]> m) m l !! (p + 8 * i) = Some 0) as H.
  { induction l as [|j l IH]; [by intros ?%not_elem_of_nil|]. simpl. intros Hl.
    destruct (decide (i = j)) as [->|]; [by rewrite lookup_insert_eq|].
    rewrite lookup_insert_ne by lia. apply IH. set_solver. }
  apply H, elem_of_seqZ. lia.
Qed.

Lemma zero_words_out p m a :
  (∀ i, 0 ≤ i < 512 → a ≠ p + 8 * i) → zero_words p m !! a = m !! a.
Proof.
  intros Ha. unfold zero_words.
  assert (∀ l, (∀ i, i ∈ l → a ≠ p + 8 * i) →
    foldr (λ i m, <[p + 8 * i := 0]> m) m l !! a = m !! a) as H.
  { induction l as [|j l IH]; [done|]. simpl. intros Hl.
    rewrite lookup_insert_ne, IH; [done| |]; [set_solver|]. symmetry. apply Hl. set_solver. }
  apply H. intros i Hi%elem_of_seqZ. apply Ha. lia.
Qed.
End inv.

(** * Virtual memory manager: allocating tables

    [get_or_alloc_table] extends a tree without changing any translation. *)

Section tables.
Context {P : Type} `{!PageAllocator P, !PageAllocatorLaws P} (ks : kernel_syms).
Implicit Types (s : vmm P) (own : owners).

(** The kernel image is mapped above the physmap. *)
Context (Hks : KERNEL_VMA_BASE ≤ ks_kernel_start ks).

(** The variables that building tables does not change. *)
Definition vcfg s :=
  (kernel_pml4 s, kernel_pml4_phys s, vmm_ready s, early_identity_limit s, physmap_max s,
   mmio_pd s, early_table_pool_used s, cr3 s, vm_invlpg s).

Lemma ptr_phys_table s t :
  vmm_ready s = true → 0 ≤ t < 2 ^ 32 → ptr_phys ks s (phys_to_virt s t) = Some t.
Proof using Hks.
  intros Hr Ht. unfold phys_to_virt, ptr_phys, vmm_phys_to_virt. rewrite Hr. simpl.
  rewrite u64_small by (unfold VMM_PHYSMAP_BASE; lia).
  unfold KERNEL_VMA_BASE, VMM_PHYSMAP_BASE in *.
  rewrite (proj2 (Z.leb_gt _ _)) by lia. rewrite (proj2 (Z.leb_le _ _)) by lia.
  f_equal. lia.
Qed.

Lemma own_phys s own t o : pt_inv s own → own !! t = Some o → 0 < t < 2 ^ 32.
Proof using.
  intros H Ht. destruct o. destruct (pi_range _ _ H _ _ _ Ht) as (p & -> & ? & ? & _).
  unfold PAGE_SIZE in *. lia.
Qed.

Lemma wp_rd_entry s own t o i e (Q : Z → vmm P → Prop) :
  pt_inv s own → own !! t = Some o → vm_mem s !! (t + 8 * i) = Some e → Q e s →
  wp (rd_entry ks (phys_to_virt s t) i) Q s.
Proof using Hks.
  intros H Ht He HQ. eapply wp_lift_opt; [|exact HQ].
  rewrite ptr_phys_table; [done|apply H|pose proof (own_phys s own t o H Ht); lia].
Qed.

Lemma wp_wr_entry s own t o i v (Q : unit → vmm P → Prop) :
  pt_inv s own → own !! t = Some o → 0 ≤ i < 512 →
  Q tt (set_mem (<[t + 8 * i := v]> (vm_mem s)) s) →
  wp (wr_entry ks (phys_to_virt s t) i v) Q s.
Proof using Hks.
  intros H Ht Hi HQ. eapply wp_update_opt; [|exact HQ]. destruct o as [r pre].
  rewrite ptr_phys_table; [simpl|apply H|pose proof (own_phys s own t _ H Ht); lia].
  by destruct (pi_words _ _ H t r pre i Ht Hi) as [e ->].
Qed.

Lemma set_vpmm_id s : set_vpmm (vm_pmm s) s = s.
Proof using. by destruct s. Qed.

Lemma wp_with_pmm {A} (m : M P A) (Q : A → vmm P → Prop) s :
  wp m (λ a pm, Q a (set_vpmm pm s)) (vm_pmm s) → wp (with_pmm m) Q s.
Proof using. unfold wp, with_pmm. by destruct (m (vm_pmm s)) as [[a pm]|]. Qed.

Lemma wpe_alloc_table s (Q : Z → vmm P → Prop) (H : vmm P → Prop) :
  vmm_ready s = true → pa_inv (vm_pmm s) → H s →
  (∀ p pm, 1 ≤ p → (p + 1) * PAGE_SIZE ≤ 2 ^ 32 → ¬ pa_held (vm_pmm s) p → pa_inv pm →
     (∀ q, pa_held pm q ↔ pa_held (vm_pmm s) q ∨ q = p) →
     (∀ q, pa_single pm q ↔ pa_single (vm_pmm s) q ∨ q = p) → pa_pages pm = pa_pages (vm_pmm s) →
     Q (p * PAGE_SIZE) (set_mem (zero_words (p * PAGE_SIZE) (vm_mem s)) (set_vpmm pm s))) →
  wpe (alloc_table ks) Q H s.
Proof using Hks.
  intros Hr Hi HH HQ. unfold alloc_table. apply wpe_bind, wpe_run, wp_gets. rewrite Hr.
  apply wpe_bind, wpe_run, wp_bind, wp_with_pmm, pa_alloc_below_ok; [done|lia| |].
  - apply wp_ret. simpl. apply wpe_halt. by rewrite set_vpmm_id.
  - intros p pm' Hp Hlim Hnh Hi' [_ Hpg] Hh Hs. apply wp_ret.
    rewrite (proj2 (Z.eqb_neq (p * PAGE_SIZE) 0)) by (unfold PAGE_SIZE; lia). simpl.
    apply wpe_bind, wpe_run, wp_gets. apply wpe_bind, wpe_run.
    eapply wp_update_opt; [|apply wpe_ret, HQ; try done; lia].
    rewrite ptr_phys_table; [done|done|unfold PAGE_SIZE in *; lia].
Qed.

(** ** Growing a tree *)

(** The tables of [s] are kept; a page that a client holds stays his and does
    not become a table. *)
Definition extends s own s' own' : Prop :=
  own ⊆ own' ∧ (∀ q, pa_single (vm_pmm s) q → pa_single (vm_pmm s') q) ∧
  (∀ q, pa_held (vm_pmm s) q → own !! (q * PAGE_SIZE) = None → own' !! (q * PAGE_SIZE) = None) ∧
  pa_pages (vm_pmm s') = pa_pages (vm_pmm s).

(** The tables of [s] are kept and no translation changes. *)
Record grows s own s' own' : Prop := {
  gr_inv : pt_inv s' own';
  gr_ext : extends s own s' own';
  gr_present : ∀ t o i e, own !! t = Some o → 0 ≤ i < 512 →
    vm_mem s !! (t + 8 * i) = Some e → has e VMM_FLAG_PRESENT = true →
    vm_mem s' !! (t + 8 * i) = Some e;
  gr_walk : ∀ r ix, is_root own r → tree_indices s r ix →
    walk (vm_mem s') r ix = walk (vm_mem s) r ix;
  gr_cfg : vcfg s' = vcfg s;
  gr_held : ∀ q, pa_held (vm_pmm s) q → pa_held (vm_pmm s') q
}.

Lemma vcfg_root s s' : vcfg s' = vcfg s →
  kernel_pml4_phys s' = kernel_pml4_phys s ∧ vmm_ready s' = vmm_ready s ∧
  kernel_pml4 s' = kernel_pml4 s.
Proof using. by intros [= -> -> -> _ _ _ _ _ _]. Qed.

Lemma gr_own s own s' own' : grows s own s' own' → own ⊆ own'.
Proof using. intros Hg. apply Hg. Qed.

Lemma grows_refl s own : pt_inv s own → grows s own s own.
Proof using. by split. Qed.

Lemma grows_trans s1 o1 s2 o2 s3 o3 : grows s1 o1 s2 o2 → grows s2 o2 s3 o3 → grows s1 o1 s3 o3.
Proof using.
  intros [Hi1 (Ho1 & Hs1 & Hn1 & Hg1) Hp1 Hw1 Hc1 Hh1] [Hi2 (Ho2 & Hs2 & Hn2 & Hg2) Hp2 Hw2 Hc2 Hh2].
  split; [done|split_and!; [by etrans|by eauto|by eauto|by etrans]| | |by etrans|by eauto].
  - intros t o i e Ht Hi He Hp. apply (Hp2 t o); try done; [by eapply lookup_weaken|]. by eapply Hp1.
  - intros r ix Hr Hx. destruct (vcfg_root _ _ Hc1) as (E & _).
    rewrite Hw2, Hw1; [done..| |]; [by eapply lookup_weaken|].
    unfold tree_indices in *. by rewrite E.
Qed.

(** Linking the fresh zeroed page [p] at index [i] of the table [t]. *)
Section link.
Context (s : vmm P) (own : owners) (t r : Z) (pre : list Z) (i e p : Z) (pm : P).
Context (H : pt_inv s own) (Ht : own !! t = Some (r, pre)) (Hi : own_index s r pre i).
Context (Hlen : (length pre < 3)%nat).
Context (Hold : ∃ e0, vm_mem s !! (t + 8 * i) = Some e0 ∧ has e0 VMM_FLAG_PRESENT = false).
Context (Hp : 1 ≤ p) (Hp2 : (p + 1) * PAGE_SIZE ≤ 2 ^ 32) (Hfresh : ¬ pa_held (vm_pmm s) p).
Context (Hpm : pa_inv pm) (Hheld : ∀ q, pa_held pm q ↔ pa_held (vm_pmm s) q ∨ q = p)
  (Hsing : ∀ q, pa_single pm q ↔ pa_single (vm_pmm s) q ∨ q = p)
  (Hpages : pa_pages pm = pa_pages (vm_pmm s)).
Context (He : Z.land e ADDR_MASK = p * PAGE_SIZE) (Hep : has e VMM_FLAG_PRESENT = true)
  (Hel : has e VMM_FLAG_LARGE = false).

Let m' := <[t + 8 * i := e]> (zero_words (p * PAGE_SIZE) (vm_mem s)).
Let s' := set_mem m' (set_vpmm pm s).
Let own' := <[p * PAGE_SIZE := (r, pre ++ [i])]> own.

Lemma fresh_not_own : own !! (p * PAGE_SIZE) = None.
Proof using All.
  destruct (own !! (p * PAGE_SIZE)) as [[r0 pre0]|] eqn:E; [|done]. exfalso.
  destruct (pi_range _ _ H _ _ _ E) as (q & Eq & _ & _ & Hq & _).
  assert (q = p) as -> by (unfold PAGE_SIZE in Eq; lia). done.
Qed.

Lemma own_not_fresh t0 o0 i0 j :
  own !! t0 = Some o0 → 0 ≤ i0 < 512 → 0 ≤ j < 512 → t0 + 8 * i0 ≠ p * PAGE_SIZE + 8 * j.
Proof using All.
  intros H0 Hi0 Hj E. destruct o0 as [r0 pre0].
  destruct (pi_range _ _ H _ _ _ H0) as (q & -> & _ & _ & Hq & _).
  assert (q = p) as -> by (unfold PAGE_SIZE in E; lia). done.
Qed.

(** A word of an old table, after the link. *)
Lemma link_old t0 o0 i0 :
  own !! t0 = Some o0 → 0 ≤ i0 < 512 →
  m' !! (t0 + 8 * i0) = if decide (t0 = t ∧ i0 = i) then Some e else vm_mem s !! (t0 + 8 * i0).
Proof using All.
  intros H0 Hi0. unfold m'. case_decide as Hd; [destruct Hd as [-> ->]; by rewrite lookup_insert_eq|].
  rewrite lookup_insert_ne.
  - apply zero_words_out. intros j Hj. by eapply own_not_fresh.
  - intros E. apply Hd. destruct Hi as [Hi' _].
    destruct (word_inj s own t _ t0 _ i i0 H Ht H0 Hi' Hi0 E) as [-> ->]. done.
Qed.

Lemma link_new j : 0 ≤ j < 512 → m' !! (p * PAGE_SIZE + 8 * j) = Some 0.
Proof using All.
  intros Hj. unfold m'. rewrite lookup_insert_ne; [by apply zero_words_in|].
  destruct Hi as [Hi' _]. by eapply own_not_fresh.
Qed.

Lemma link_inv : pt_inv s' own'.
Proof using All.
  assert (∀ t0 o0, own' !! t0 = Some o0 →
    (t0 = p * PAGE_SIZE ∧ o0 = (r, pre ++ [i])) ∨ (t0 ≠ p * PAGE_SIZE ∧ own !! t0 = Some o0)) as Hcase.
  { intros t0 o0. unfold own'. intros [[<- <-]|[? ?]]%lookup_insert_Some; auto. }
  split; simpl.
  - apply H.
  - done.
  - intros t0 r0 pre0 [[-> E]|[_ H0]]%Hcase.
    + injection E as -> ->. exists p. split; [done|]. split; [done|]. split; [done|].
      split; [apply Hheld; by right|]. rewrite length_app. simpl. lia.
    + destruct (pi_range _ _ H _ _ _ H0) as (q & ? & ? & ? & ? & ?). exists q.
      split; [done|]. split; [done|]. split; [done|]. split; [apply Hheld; by left|done].
  - intros t0 r0 pre0 j [[-> E]|[_ H0]]%Hcase Hj; [by rewrite link_new|].
    rewrite (link_old _ _ _ H0 Hj). case_decide; [done|]. by eapply (pi_words _ _ H).
  - intros t0 r0 pre0 j e0 [[-> E]|[_ H0]]%Hcase Hj Hl Hm Hpres Hlarge.
    + rewrite link_new in Hm by apply Hj. injection Hm as <-. done.
    + rewrite (link_old _ _ _ H0) in Hm by apply Hj. case_decide as Hd.
      * destruct Hd as [-> ->]. injection Hm as <-. rewrite Ht in H0. injection H0 as <- <-.
        rewrite He. unfold own'. apply lookup_insert_eq.
      * unfold own'. etrans; [apply lookup_insert_ne|by eapply (pi_child _ _ H)].
        intros E. pose proof (pi_child _ _ H _ _ _ _ _ H0 Hj Hl Hm Hpres Hlarge) as Hc.
        rewrite <-E, fresh_not_own in Hc. done.
Qed.

Lemma link_walk t0 r0 pre0 ix :
  own !! t0 = Some (r0, pre0) → (length pre0 + length ix = 4)%nat → good_indices ix →
  (pre0 = [] → default 0 (head ix) < 256 ∨ r0 = kernel_pml4_phys s) →
  walk m' t0 ix = walk (vm_mem s) t0 ix.
Proof using All.
  intros H0 Hl Hg Htop. revert t0 pre0 H0 Hl Htop.
  induction ix as [|j ix IH]; intros t0 pre0 H0 Hl Htop; [done|]. cbn [walk].
  apply Forall_cons in Hg as [Hj Hg]. simpl in Htop, Hl.
  rewrite (link_old _ _ _ H0 Hj). case_decide as Hd.
  - destruct Hd as [-> ->]. rewrite Ht in H0. injection H0 as <- <-.
    destruct Hold as (e0 & -> & Hn). cbn [mbind option_bind]. rewrite Hep, Hn, Hel.
    cbn [negb andb]. rewrite orb_false_r. destruct ix as [|j ix]; [simpl in Hl; lia|].
    cbn [length Nat.eqb walk]. apply Forall_cons in Hg as [Hj2 _]. rewrite He, link_new by done.
    reflexivity.
  - destruct (vm_mem s !! (t0 + 8 * j)) as [e0|] eqn:Em; [|done]. cbn [mbind option_bind].
    destruct (has e0 VMM_FLAG_PRESENT) eqn:Hpr; cbn [negb]; [|done].
    destruct ((length ix =? 0)%nat || (has e0 VMM_FLAG_LARGE && (length ix <? 3)%nat)) eqn:Hlg; [done|].
    apply orb_false_iff in Hlg as [Hl0 Hlg]. apply Nat.eqb_neq in Hl0.
    apply (IH Hg _ (pre0 ++ [j])).
    + eapply (pi_child _ _ H t0); [done|split; [done|]|lia|done|done|].
      * by intros ->; apply Htop.
      * apply andb_false_iff in Hlg as [?|Hlg%Nat.ltb_ge]; [by right|left].
        destruct pre0; [done|]. simpl in Hl. lia.
    + rewrite length_app. simpl. lia.
    + intros E. by destruct pre0.
Qed.

Lemma link_grows : grows s own s' own'.
Proof using All.
  split.
  - exact link_inv.
  - split; [apply insert_subseteq, fresh_not_own|]. split; [intros q Hq; apply Hsing; by left|].
    split; [|done]. intros q Hq Hn. apply lookup_insert_None. split; [done|]. intros E.
    assert (p = q) as -> by (unfold PAGE_SIZE in E; lia). done.
  - intros t0 o0 j e0 H0 Hj Hm Hpr. simpl. rewrite (link_old _ _ _ H0 Hj).
    case_decide as Hd; [|done]. destruct Hd as [-> ->]. destruct Hold as (e1 & E & Hn).
    rewrite E in Hm. injection Hm as <-. congruence.
  - intros r0 ix H0 (Hg & Hl & Htop). by apply (link_walk _ r0 []).
  - done.
  - intros q Hq. apply Hheld. by left.
Qed.
End link.

(** ** [get_or_alloc_table] and the descent *)

(** The entry [i] of the table [t] leads to the table [t']. *)
Definition leads s (t i t' : Z) : Prop :=
  ∃ e, vm_mem s !! (t + 8 * i) = Some e ∧ has e VMM_FLAG_PRESENT = true ∧
    Z.land e ADDR_MASK = t'.

(** The entry is not a large page. *)
Definition not_large s (t i : Z) : Prop :=
  ∀ e, vm_mem s !! (t + 8 * i) = Some e → has e VMM_FLAG_PRESENT = true →
    has e VMM_FLAG_LARGE = false.

Lemma wpe_get_or_alloc s own t r pre i flags (Q : Z → vmm P → Prop) (H : vmm P → Prop) :
  pt_inv s own → own !! t = Some (r, pre) → own_index s r pre i → (length pre < 3)%nat →
  (pre = [] ∨ not_large s t i) → H s →
  (∀ s' own' t', grows s own s' own' → own' !! t' = Some (r, pre ++ [i]) → leads s' t i t' →
     (pre = [] ∨ not_large s' t i) →
     (t' = 0 → False) → Q (phys_to_virt s' t') s') →
  wpe (get_or_alloc_table ks (phys_to_virt s t) i flags) Q H s.
Proof using Hks.
  intros Hinv Ht Hi Hlen Hnl HH HQ. unfold get_or_alloc_table.
  destruct (pi_words _ _ Hinv t r pre i Ht (proj1 Hi)) as [e He].
  apply wpe_bind, wpe_run. eapply wp_rd_entry; [done..|].
  destruct (has e VMM_FLAG_PRESENT) eqn:Hp; cbn [negb].
  - apply wpe_bind, wpe_ret. apply wpe_bind, wpe_run. eapply wp_rd_entry; [done..|].
    apply wpe_run, wp_gets.
    assert (own !! Z.land e ADDR_MASK = Some (r, pre ++ [i])) as Hc.
    { eapply (pi_child _ _ Hinv); try done. destruct Hnl as [?|Hnl]; [by left|right; by apply Hnl]. }
    apply (HQ s own); [by apply grows_refl|done|by exists e|done|].
    pose proof (own_phys s own _ _ Hinv Hc). lia.
  - apply wpe_bind, wpe_bind, wpe_alloc_table; [apply Hinv|apply Hinv|done|].
    intros p pm Hp1 Hp2 Hnh Hpm Hheld Hsing Hpg.
    destruct (table_entry p flags) as (Ha & Hpr & Hlg); [unfold PAGE_SIZE in *; lia|].
    set (e' := Z.lor _ _) in *.
    pose proof (link_grows s own t r pre i e' p pm Hinv Ht Hi Hlen
      ltac:(by exists e) Hp1 Hp2 Hnh Hpm Hheld Hsing Hpg Ha Hpr Hlg) as Hg.
    set (s1 := set_mem (zero_words (p * PAGE_SIZE) (vm_mem s)) (set_vpmm pm s)).
    set (own' := <[p * PAGE_SIZE := (r, pre ++ [i])]> own) in *.
    set (s2 := set_mem _ (set_vpmm pm s)) in Hg.
    change (phys_to_virt s t) with (phys_to_virt s1 t).
    assert (own' !! t = Some (r, pre)) as Ht' by (eapply lookup_weaken; [done|apply Hg]).
    assert (own' !! (p * PAGE_SIZE) = Some (r, pre ++ [i])) as Hnew by apply lookup_insert_eq.
    assert (0 ≤ t < 2 ^ 32) as Htr by (pose proof (own_phys s own t _ Hinv Ht); lia).
    apply wpe_run. eapply wp_update_opt.
    { rewrite (ptr_phys_table s1) by (first [apply Hinv|done]). cbn [mbind option_bind].
      assert (is_Some (vm_mem s1 !! (t + 8 * i))) as [e1 ->]; [|reflexivity].
      exists e. simpl vm_mem. rewrite zero_words_out; [done|]. intros j Hj.
      by apply (own_not_fresh s own t r pre i e' p pm Hinv Ht Hi Hlen
        ltac:(by exists e) Hp1 Hp2 Hnh Hpm Hheld Hsing Hpg Ha Hpr Hlg t _ i j Ht (proj1 Hi) Hj). }
    change (set_mem (<[t + 8 * i := e']> (vm_mem s1)) s1) with s2.
    assert (vm_mem s2 !! (t + 8 * i) = Some e') as He' by apply lookup_insert_eq.
    change (phys_to_virt s1 t) with (phys_to_virt s2 t).
    apply wpe_bind, wpe_run. eapply (wp_rd_entry s2 own'); [apply Hg|done|done|].
    apply wpe_run, wp_gets. rewrite Ha.
    apply (HQ s2 own'); [done|done|by exists e'| |].
    + right. intros e2 E2 _. rewrite He' in E2. by injection E2 as <-.
    + unfold PAGE_SIZE. lia.
Qed.
End tables.
