(* ===== verification/VmmMap.v ===== *)
(** * Virtual memory manager: mapping operations

    The descent to a page table, the effect of writing an entry on every
    translation, and the specifications of the operations on user address
    spaces. *)

From S2P Require Import Prelude PageAlloc Vmm VmmInv.

Section mapping.
Context {P : Type} `{!PageAllocator P, !PageAllocatorLaws P} (ks : kernel_syms).
Context (Hks : KERNEL_VMA_BASE ≤ ks_kernel_start ks).
Implicit Types (s : vmm P) (own : owners).

Lemma phys_to_virt_nonzero s t : vmm_ready s = true → 0 ≤ t < 2 ^ 32 → (phys_to_virt s t =? 0) = false.
Proof using.
  intros Hr Ht. unfold phys_to_virt, vmm_phys_to_virt. rewrite Hr. simpl.
  rewrite u64_small by (unfold VMM_PHYSMAP_BASE; lia). apply Z.eqb_neq. unfold VMM_PHYSMAP_BASE. lia.
Qed.

(** A walk through an entry that leads to a table. *)
Lemma walk_leads s t i t' j rest :
  leads s t i t' → length rest = 2%nat ∨ not_large s t i →
  walk (vm_mem s) t (i :: j :: rest) = walk (vm_mem s) t' (j :: rest).
Proof using.
  intros (e & He & Hp & <-) Hnl. cbn [walk]. rewrite He. cbn [mbind option_bind]. rewrite Hp. cbn [negb].
  assert ((length (j :: rest) =? 0)%nat || (has e VMM_FLAG_LARGE && (length (j :: rest) <? 3)%nat) = false) as ->;
    [|done].
  simpl length. destruct Hnl as [->|Hnl]; [by rewrite andb_false_r|].
  by rewrite (Hnl e He Hp).
Qed.

(** The table reached by descending along [ix]. *)
Fixpoint table_of (m : gmap Z Z) (t : Z) (ix : list Z) : option Z :=
  match ix with
  | [] => Some t
  | i :: rest =>
      e ← m !! (t + 8 * i);
      if has e VMM_FLAG_PRESENT && negb (has e VMM_FLAG_LARGE && (length rest <? 2)%nat)
      then table_of m (Z.land e ADDR_MASK) rest else None
  end.

Definition top3 (virt : Z) : list Z := [pml4_index virt; pdpt_index virt; pd_index virt].

Lemma table_of_leads s t i t' rest :
  leads s t i t' → length rest = 2%nat ∨ not_large s t i →
  table_of (vm_mem s) t (i :: rest) = table_of (vm_mem s) t' rest.
Proof using.
  intros (e & He & Hp & <-) Hnl. cbn [table_of]. rewrite He. cbn [mbind option_bind].
  rewrite Hp. destruct Hnl as [->|Hnl]; [by rewrite andb_false_r|]. by rewrite (Hnl e He Hp).
Qed.

(** What a walk returns once it is at the last level. *)
Definition leaf_of (m : gmap Z Z) (t i : Z) : option xlat :=
  e ← m !! (t + 8 * i);
  Some (if has e VMM_FLAG_PRESENT then Leaf e 0xFFF else NotMapped).

Lemma walk_table_of m t ix j t1 :
  (length ix ≤ 3)%nat → table_of m t ix = Some t1 → walk m t (ix ++ [j]) = leaf_of m t1 j.
Proof using.
  revert t. induction ix as [|i ix IH]; intros t Hl Ht.
  - injection Ht as <-. unfold leaf_of. cbn [walk app]. destruct (m !! _); [|done].
    cbn [mbind option_bind length Nat.eqb orb leaf_mask]. by destruct (has _ _).
  - cbn [table_of] in Ht. cbn [walk app]. destruct (m !! (t + 8 * i)) as [e|]; [|done].
    cbn [mbind option_bind] in *. simpl length in *.
    destruct (has e VMM_FLAG_PRESENT) eqn:Hp; [|done]. cbn [negb andb] in *.
    rewrite length_app. simpl length.
    assert (has e VMM_FLAG_LARGE && (length ix <? 2)%nat = false) as Hlg
      by (destruct (has e VMM_FLAG_LARGE && (length ix <? 2)%nat); done).
    rewrite Hlg in Ht. cbn [negb] in Ht.
    assert ((length ix + 1 =? 0)%nat || (has e VMM_FLAG_LARGE && (length ix + 1 <? 3)%nat) = false) as ->;
      [|apply IH; [lia|done]].
    apply orb_false_iff. split; [apply Nat.eqb_neq; lia|].
    apply andb_false_iff in Hlg as [->|Hlg%Nat.ltb_ge]; [done|].
    rewrite (proj2 (Nat.ltb_ge _ 3)), andb_false_r by lia. done.
Qed.

Lemma table_of_own s own t r pre ix t1 :
  pt_inv s own → own !! t = Some (r, pre) → (length pre + length ix = 3)%nat → good_indices ix →
  (pre = [] → default 0 (head ix) < 256 ∨ r = kernel_pml4_phys s) →
  table_of (vm_mem s) t ix = Some t1 → own !! t1 = Some (r, pre ++ ix).
Proof using.
  intros H. revert t pre. induction ix as [|i ix IH]; intros t pre Ht Hl Hg Htop Hto.
  { injection Hto as <-. by rewrite app_nil_r. }
  cbn [table_of] in Hto. destruct (vm_mem s !! (t + 8 * i)) as [e|] eqn:He; [|done].
  cbn [mbind option_bind] in Hto. apply Forall_cons in Hg as [Hi Hg]. simpl in Hl, Htop.
  destruct (has e VMM_FLAG_PRESENT) eqn:Hp; [|done]. cbn [andb] in Hto.
  destruct (has e VMM_FLAG_LARGE && (length ix <? 2)%nat) eqn:Hlg; [done|]. cbn [negb] in Hto.
  assert (own !! Z.land e ADDR_MASK = Some (r, pre ++ [i])) as Hc.
  { eapply (pi_child _ _ H t); [done|split; [done|]|lia|done|done|].
    - intros ->. by apply Htop.
    - apply andb_false_iff in Hlg as [?|Hlg%Nat.ltb_ge]; [by right|left].
      destruct pre; [done|]. simpl in Hl. lia. }
  apply IH with (pre := pre ++ [i]) in Hto; [by rewrite <-app_assoc in Hto|done| |done|].
  - rewrite length_app. simpl. lia.
  - intros E. by destruct pre.
Qed.

(** Descending reads no word of a last-level table. *)
Lemma table_of_write s own t r pre ix t' o' i' v :
  pt_inv s own → own !! t = Some (r, pre) → own !! t' = Some o' → length o'.2 = 3%nat →
  0 ≤ i' < 512 → (length pre + length ix = 3)%nat → good_indices ix →
  (pre = [] → default 0 (head ix) < 256 ∨ r = kernel_pml4_phys s) →
  table_of (<[t' + 8 * i' := v]> (vm_mem s)) t ix = table_of (vm_mem s) t ix.
Proof using.
  intros H Ht Ht' Ho Hi' Hl Hg Htop. revert t pre Ht Hl Htop.
  induction ix as [|i ix IH]; intros t pre Ht Hl Htop; [done|]. cbn [table_of].
  apply Forall_cons in Hg as [Hi Hg]. simpl in Hl, Htop.
  rewrite lookup_insert_ne.
  2: { intros E. destruct (word_inj s own t' _ t _ i' i H Ht' Ht Hi' Hi E) as [-> _].
       rewrite Ht in Ht'. injection Ht' as <-. simpl in Ho. lia. }
  destruct (vm_mem s !! (t + 8 * i)) as [e|] eqn:He; [|done]. cbn [mbind option_bind].
  destruct (has e VMM_FLAG_PRESENT) eqn:Hp; [|done]. cbn [andb].
  destruct (has e VMM_FLAG_LARGE && (length ix <? 2)%nat) eqn:Hlg; [done|]. cbn [negb].
  apply (IH Hg _ (pre ++ [i])).
  - eapply (pi_child _ _ H t); [done|split; [done|]|lia|done|done|].
    + intros ->. by apply Htop.
    + apply andb_false_iff in Hlg as [?|Hlg%Nat.ltb_ge]; [by right|left].
      destruct pre; [done|]. simpl in Hl. lia.
  - rewrite length_app. simpl. lia.
  - intros E. by destruct pre.
Qed.

(** No large page on the way to [virt]. *)
Definition small_path s (r virt : Z) : Prop :=
  ∀ e m, translate s r virt = Some (Leaf e m) → m = 0xFFF.

Lemma walk_not_large s t i j rest :
  (length (j :: rest) < 3)%nat →
  (∀ e m, walk (vm_mem s) t (i :: j :: rest) = Some (Leaf e m) → m = 0xFFF) → not_large s t i.
Proof using.
  intros Hl H e He Hp. destruct (has e VMM_FLAG_LARGE) eqn:El; [|done]. exfalso.
  cbn [walk] in H. rewrite He in H. cbn [mbind option_bind] in H. rewrite Hp, El in H. cbn [negb] in H.
  rewrite (proj2 (Nat.ltb_lt _ 3) Hl) in H. simpl in H. specialize (H e _ eq_refl).
  destruct rest as [|? [|? ?]]; simpl in *; [congruence|congruence|lia].
Qed.

(** The root's own part of the address space. *)
Definition user_or_kernel s (r virt : Z) : Prop :=
  pml4_index virt < 256 ∨ r = kernel_pml4_phys s.

Lemma tree_indices_of s r virt : user_or_kernel s r virt → tree_indices s r (indices virt).
Proof using. intros Hu. split; [apply indices_good|]. split; [done|exact Hu]. Qed.

Lemma wpe_get_table3 s own r virt flags (Q : option Z → vmm P → Prop) (H : vmm P → Prop) :
  pt_inv s own → is_root own r → user_or_kernel s r virt → small_path s r virt →
  (∀ s1 own1, grows s own s1 own1 → H s1) →
  (∀ s' own' t, grows s own s' own' →
     table_of (vm_mem s') r (top3 virt) = Some t →
     Q (Some (phys_to_virt s' t)) s') →
  wpe (get_table3 ks (phys_to_virt s r) virt flags) Q H s.
Proof using Hks.
  intros Hi Hr Hu Hsm HH HQ. unfold get_table3.
  set (i4 := pml4_index virt) in *. set (i3 := pdpt_index virt) in *.
  set (i2 := pd_index virt) in *. set (i1 := pt_index virt) in *.
  assert (∀ s' own', grows s own s' own' →
    walk (vm_mem s') r [i4; i3; i2; i1] = translate s r virt ∧ is_root own' r ∧
    vmm_ready s' = true) as Hsame.
  { intros s' own' Hg. split; [|split; [by eapply lookup_weaken; [|apply Hg]|apply Hg]].
    apply (gr_walk _ _ _ _ Hg r); [done|]. by apply tree_indices_of. }
  apply wpe_bind. eapply wpe_get_or_alloc; [done|done|exact Hr| |simpl; lia|by left| |].
  { split; [apply index_range|]. by intros _. }
  { apply (HH s own). by apply grows_refl. }
  intros s1 own1 t3 Hg1 Ht3 Hl1 _ _. destruct (Hsame s1 own1 Hg1) as (Ew1 & Hr1 & Hrd1).
  pose proof (gr_inv _ _ _ _ Hg1) as Hi1.
  rewrite phys_to_virt_nonzero by (first [done|pose proof (own_phys s1 own1 _ _ Hi1 Ht3); lia]).
  assert (walk (vm_mem s1) t3 [i3; i2; i1] = translate s r virt) as Ew3.
  { rewrite <-Ew1. symmetry. apply walk_leads; [done|by left]. }
  apply wpe_bind. eapply wpe_get_or_alloc; [done|exact Hi1|exact Ht3| |simpl; lia| | |].
  { split; [apply index_range|done]. }
  { right. apply (walk_not_large s1 t3 i3 i2 [i1]); [simpl; lia|]. rewrite Ew3. exact Hsm. }
  { by apply (HH s1 own1). }
  intros s2 own2 t2 Hg2 Ht2 Hl2 Hnl2 _. pose proof (grows_trans _ _ _ _ _ _ Hg1 Hg2) as Hg12.
  destruct (Hsame s2 own2 Hg12) as (Ew2 & Hr2 & Hrd2). pose proof (gr_inv _ _ _ _ Hg2) as Hi2.
  rewrite phys_to_virt_nonzero by (first [done|pose proof (own_phys s2 own2 _ _ Hi2 Ht2); lia]).
  assert (leads s2 r i4 t3) as Hl1'.
  { destruct Hl1 as (e & He & Hp & Ea). exists e. split; [|done].
    eapply (gr_present _ _ _ _ Hg2); [exact Hr1|apply index_range|done|done]. }
  assert (walk (vm_mem s2) t2 [i2; i1] = translate s r virt) as Ew22.
  { rewrite <-Ew2, (walk_leads s2 r i4 t3) by (first [done|by left]).
    symmetry. apply walk_leads; [done|]. destruct Hnl2 as [?|?]; [done|by right]. }
  apply wpe_bind. eapply wpe_get_or_alloc; [done|exact Hi2|exact Ht2| |simpl; lia| | |].
  { split; [apply index_range|done]. }
  { right. apply (walk_not_large s2 t2 i2 i1 []); [simpl; lia|]. rewrite Ew22. exact Hsm. }
  { by apply (HH s2 own2). }
  intros s3 own3 t1 Hg3 Ht1 Hl3 Hnl3 _. pose proof (grows_trans _ _ _ _ _ _ Hg12 Hg3) as Hg.
  destruct (Hsame s3 own3 Hg) as (Ew3' & Hr3 & Hrd3). pose proof (gr_inv _ _ _ _ Hg3) as Hi3.
  rewrite phys_to_virt_nonzero by (first [done|pose proof (own_phys s3 own3 _ _ Hi3 Ht1); lia]).
  apply wpe_ret, (HQ s3 own3); [done|]. unfold top3. fold i4 i3 i2.
  assert (∀ t o i t', own2 !! t = Some o → 0 ≤ i < 512 → leads s2 t i t' → leads s3 t i t') as Hkeep.
  { intros t o i t' Ht Hii (e & He & Hp & Ea). exists e. split; [|done].
    by eapply (gr_present _ _ _ _ Hg3). }
  rewrite (table_of_leads s3 r i4 t3); [|eapply Hkeep; [exact Hr2|apply index_range|done]|by left].
  assert (own2 !! t3 = Some (r, [i4])) as Ht3' by (eapply lookup_weaken; [exact Ht3|apply Hg2]).
  assert (not_large s3 t3 i3) as Hnl3'.
  { destruct Hnl2 as [?|Hnl2]; [done|]. destruct Hl2 as (e & He & Hp & Ea).
    intros e' He' Hp'. pose proof (gr_present _ _ _ _ Hg3 t3 _ i3 e Ht3' (index_range _ _) He Hp) as E.
    rewrite E in He'. injection He' as <-. by apply Hnl2. }
  rewrite (table_of_leads s3 t3 i3 t2); [|eapply Hkeep; [exact Ht3'|apply index_range|done]|by right].
  rewrite (table_of_leads s3 t2 i2 t1); [done|done|]. destruct Hnl3 as [?|?]; [done|by right].
Qed.

(** ** Writing a last-level entry *)

Definition leaf_or_none (v : Z) : xlat := if has v VMM_FLAG_PRESENT then Leaf v 0xFFF else NotMapped.

Lemma pte_own s own r virt t :
  pt_inv s own → is_root own r → user_or_kernel s r virt →
  table_of (vm_mem s) r (top3 virt) = Some t → own !! t = Some (r, top3 virt).
Proof using.
  intros H Hr Hu Ht. apply (table_of_own s own r r [] (top3 virt) t H Hr); try done.
  repeat constructor; apply index_range.
Qed.

Lemma pte_write s own r virt t v :
  pt_inv s own → is_root own r → user_or_kernel s r virt →
  table_of (vm_mem s) r (top3 virt) = Some t →
  let s' := set_mem (<[t + 8 * pt_index virt := v]> (vm_mem s)) s in
  pt_inv s' own ∧ translate s' r virt = Some (leaf_or_none v) ∧
  ∀ r' virt', is_root own r' → user_or_kernel s r' virt' →
    (r' = r → indices virt' ≠ indices virt) → translate s' r' virt' = translate s r' virt'.
Proof using.
  intros H Hr Hu Hto s'. pose proof (pte_own s own r virt t H Hr Hu Hto) as Ht.
  assert (0 ≤ pt_index virt < 512) as Hix by apply index_range. split; [|split].
  - pose proof H as [H1 H2 H3 H4 H5]. split; simpl; try done.
    + intros t0 r0 pre0 i0 H0 Hi0. destruct (decide (t + 8 * pt_index virt = t0 + 8 * i0)) as [<-|].
      * by rewrite lookup_insert_eq.
      * rewrite lookup_insert_ne by done. by eapply H4.
    + intros t0 r0 pre0 i0 e0 H0 Hi0 Hl0. rewrite lookup_insert_ne; [by eapply H5|].
      intros E. destruct (word_inj s own t _ t0 _ _ i0 H Ht H0 Hix (proj1 Hi0) E) as [-> _].
      rewrite Ht in H0. injection H0 as <- <-. simpl in Hl0. lia.
  - unfold translate. change (indices virt) with (top3 virt ++ [pt_index virt]).
    rewrite (walk_table_of _ _ _ _ t); [|simpl; lia|].
    + unfold leaf_of. simpl vm_mem. rewrite lookup_insert_eq. done.
    + simpl vm_mem. rewrite (table_of_write s own r r []) with (1 := H) (3 := Ht); try done.
      repeat constructor; apply index_range.
  - intros r' virt' Hr' Hu' Hne. unfold translate. simpl vm_mem.
    apply (walk_write_other s own r' r' [] _ t r (top3 virt)); try done.
    + apply indices_good.
    + intros Er Hpre. apply (Hne Er). symmetry.
      change (top3 virt ++ [pt_index virt]) with (indices virt) in Hpre. simpl in Hpre.
      destruct Hpre as [k E]. apply (f_equal length) in E as El.
      destruct k; [by rewrite app_nil_r in E|]. simpl in El. lia.
Qed.

(** ** Reading *)

(** The physical address of [virt] under a translation. *)
Definition xlat_phys (x : xlat) (virt : Z) : Z :=
  match x with NotMapped => 0 | Leaf e m => u64 (Z.land e ADDR_MASK + Z.land virt m) end.

(** One level of a walk: the table [t] at position [pre] has entry [e] at
    index [i]. *)
Definition level s own (r : Z) (pre : list Z) (t i e : Z) : Prop :=
  own !! t = Some (r, pre) ∧ vm_mem s !! (t + 8 * i) = Some e.

(** The ways a walk can end, with the entries it reads. *)
Inductive descent s own (r virt : Z) : xlat → Prop :=
| descent4 e4 : level s own r [] r (pml4_index virt) e4 →
    has e4 VMM_FLAG_PRESENT = false → descent s own r virt NotMapped
| descent3 e4 e3 x : level s own r [] r (pml4_index virt) e4 → has e4 VMM_FLAG_PRESENT = true →
    level s own r [pml4_index virt] (Z.land e4 ADDR_MASK) (pdpt_index virt) e3 →
    (has e3 VMM_FLAG_PRESENT = false ∧ x = NotMapped ∨
     has e3 VMM_FLAG_PRESENT = true ∧ has e3 VMM_FLAG_LARGE = true ∧ x = Leaf e3 0x3FFFFFFF) →
    descent s own r virt x
| descent2 e4 e3 e2 x : level s own r [] r (pml4_index virt) e4 → has e4 VMM_FLAG_PRESENT = true →
    level s own r [pml4_index virt] (Z.land e4 ADDR_MASK) (pdpt_index virt) e3 →
    has e3 VMM_FLAG_PRESENT = true → has e3 VMM_FLAG_LARGE = false →
    level s own r [pml4_index virt; pdpt_index virt] (Z.land e3 ADDR_MASK) (pd_index virt) e2 →
    (has e2 VMM_FLAG_PRESENT = false ∧ x = NotMapped ∨
     has e2 VMM_FLAG_PRESENT = true ∧ has e2 VMM_FLAG_LARGE = true ∧ x = Leaf e2 0x1FFFFF) →
    descent s own r virt x
| descent1 e4 e3 e2 e1 : level s own r [] r (pml4_index virt) e4 → has e4 VMM_FLAG_PRESENT = true →
    level s own r [pml4_index virt] (Z.land e4 ADDR_MASK) (pdpt_index virt) e3 →
    has e3 VMM_FLAG_PRESENT = true → has e3 VMM_FLAG_LARGE = false →
    level s own r [pml4_index virt; pdpt_index virt] (Z.land e3 ADDR_MASK) (pd_index virt) e2 →
    has e2 VMM_FLAG_PRESENT = true → has e2 VMM_FLAG_LARGE = false →
    level s own r (top3 virt) (Z.land e2 ADDR_MASK) (pt_index virt) e1 →
    table_of (vm_mem s) r (top3 virt) = Some (Z.land e2 ADDR_MASK) →
    descent s own r virt (leaf_or_none e1).

Lemma level_next s own r pre t i e i' :
  pt_inv s own → level s own r pre t i e → own_index s r pre i → (length pre < 3)%nat →
  has e VMM_FLAG_PRESENT = true → pre = [] ∨ has e VMM_FLAG_LARGE = false → 0 ≤ i' < 512 →
  ∃ e', level s own r (pre ++ [i]) (Z.land e ADDR_MASK) i' e'.
Proof using.
  intros H [Ht He] Hi Hl Hp Hg Hi'.
  pose proof (pi_child _ _ H _ _ _ _ _ Ht Hi Hl He Hp Hg) as Hc.
  destruct (pi_words _ _ H _ _ _ i' Hc Hi') as [e' He']. by exists e'.
Qed.

Lemma descent_total s own r virt :
  pt_inv s own → is_root own r → user_or_kernel s r virt →
  ∃ x, translate s r virt = Some x ∧ descent s own r virt x.
Proof using.
  intros H Hr Hu. unfold translate, indices.
  assert (∀ k, 0 ≤ Z.land (Z.shiftr virt k) 0x1FF < 512) as Hix by (intros; apply index_range).
  destruct (pi_words _ _ H r r [] _ Hr (Hix 39)) as [e4 He4].
  assert (level s own r [] r (pml4_index virt) e4) as L4 by done.
  cbn [walk]. rewrite (proj2 L4 : vm_mem s !! (r + 8 * pml4_index virt) = _).
  cbn [mbind option_bind length Nat.eqb Nat.ltb Nat.leb orb andb leaf_mask].
  destruct (has e4 VMM_FLAG_PRESENT) eqn:P4; cbn [negb];
    [|exists NotMapped; split; [done|by eapply descent4]].
  rewrite andb_false_r.
  destruct (level_next s own r [] r _ e4 (pdpt_index virt) H L4) as [e3 L3];
    [split; [apply Hix|by intros _]|simpl; lia|done|by left|apply Hix|].
  rewrite (proj2 L3). cbn [mbind option_bind].
  destruct (has e3 VMM_FLAG_PRESENT) eqn:P3; cbn [negb];
    [|exists NotMapped; split; [done|eapply descent3; try done; by left]].
  destruct (has e3 VMM_FLAG_LARGE) eqn:G3; cbn [orb andb];
    [eexists; split; [done|eapply descent3; try done; by right]|].
  destruct (level_next s own r _ _ _ e3 (pd_index virt) H L3) as [e2 L2];
    [split; [apply Hix|done]|simpl; lia|done|by right|apply Hix|].
  rewrite (proj2 L2). cbn [mbind option_bind].
  destruct (has e2 VMM_FLAG_PRESENT) eqn:P2; cbn [negb];
    [|exists NotMapped; split; [done|eapply descent2; try done; by left]].
  destruct (has e2 VMM_FLAG_LARGE) eqn:G2; cbn [orb andb];
    [eexists; split; [done|eapply descent2; try done; by right]|].
  destruct (level_next s own r _ _ _ e2 (pt_index virt) H L2) as [e1 L1];
    [split; [apply Hix|done]|simpl; lia|done|by right|apply Hix|].
  rewrite (proj2 L1). cbn [mbind option_bind]. exists (leaf_or_none e1).
  split; [unfold leaf_or_none; by destruct (has e1 VMM_FLAG_PRESENT)|].
  eapply descent1; try done. unfold top3. cbn [table_of].
  rewrite (proj2 L4). cbn [mbind option_bind]. rewrite P4.
  cbn [length Nat.ltb Nat.leb andb]. rewrite andb_false_r. cbn [negb].
  rewrite (proj2 L3). cbn [mbind option_bind]. rewrite P3, G3. cbn [andb negb].
  rewrite (proj2 L2). cbn [mbind option_bind]. by rewrite P2, G2.
Qed.

Lemma wp_rd_level s own r pre t i e (Q : Z → vmm P → Prop) :
  pt_inv s own → level s own r pre t i e → Q e s → wp (rd_entry ks (phys_to_virt s t) i) Q s.
Proof using Hks. intros H [Ht He] HQ. by eapply wp_rd_entry. Qed.
End mapping.

(** Execute the reads of a walk whose levels are known, and the tests on the
    entries read. *)
Ltac walk_step :=
  cbv beta;
  match goal with
  | |- wp (gets _ ≫= _) _ _ => apply wp_bind, wp_gets
  | |- wp (rd_entry _ (phys_to_virt ?s _) _ ≫= _) _ ?s =>
      apply wp_bind; eapply wp_rd_level; [eassumption..|]
  | H : has ?e ?f = ?b |- context [has ?e ?f] => rewrite H
  | |- wp (if negb true then _ else _) _ _ => cbn [negb]
  | |- wp (if negb false then _ else _) _ _ => cbn [negb]
  | |- wp (mret _) _ _ => apply wp_ret
  end.
Ltac walk_steps := repeat walk_step.

Section reading.
Context {P : Type} `{!PageAllocator P, !PageAllocatorLaws P} (ks : kernel_syms).
Context (Hks : KERNEL_VMA_BASE ≤ ks_kernel_start ks).
Implicit Types (s : vmm P) (own : owners).

Lemma wp_walk_to_phys s own r virt x (Q : Z → vmm P → Prop) :
  pt_inv s own → descent s own r virt x → Q (xlat_phys x virt) s →
  wp (walk_to_phys ks (phys_to_virt s r) virt) Q s.
Proof using Hks.
  intros H Hd HQ. unfold walk_to_phys.
  destruct Hd as [e4 ? ?|e4 e3 x ? ? ? [[? ->]|(? & ? & ->)]
    |e4 e3 e2 x ? ? ? ? ? ? [[? ->]|(? & ? & ->)]|e4 e3 e2 e1 ? ? ? ? ? ? ? ? ? ?]; walk_steps; try done.
  unfold leaf_or_none in HQ. destruct (has e1 VMM_FLAG_PRESENT); by walk_steps.
Qed.

Lemma wp_lookup_pte s own r virt x (Q : option (Z * Z) → vmm P → Prop) :
  pt_inv s own → descent s own r virt x → r ≠ 0 → virt < USER_VA_TOP →
  (∀ t e, x = Leaf e 0xFFF → has e VMM_FLAG_PRESENT = true →
     table_of (vm_mem s) r (top3 virt) = Some t → level s own r (top3 virt) t (pt_index virt) e →
     Q (Some (phys_to_virt s t, pt_index virt)) s) →
  ((∀ e, x ≠ Leaf e 0xFFF) → Q None s) →
  wp (vmm_lookup_user_pte ks r virt) Q s.
Proof using Hks.
  intros H Hd Hr Hv Hsome Hnone. unfold vmm_lookup_user_pte.
  rewrite (proj2 (Z.eqb_neq r 0)), (proj2 (Z.leb_gt USER_VA_TOP virt)) by done. cbn [orb].
  destruct Hd as [e4 ? ?|e4 e3 x ? ? ? [[? ->]|(? & ? & ->)]
    |e4 e3 e2 x ? ? ? ? ? ? [[? ->]|(? & ? & ->)]|e4 e3 e2 e1 ? ? ? ? ? ? ? ? ? ?];
    walk_steps; try (apply Hnone; done).
  unfold leaf_or_none in *. destruct (has e1 VMM_FLAG_PRESENT) eqn:P1; cbn [negb];
    [by eapply Hsome|by apply Hnone].
Qed.
End reading.
