(* ===== verification/VmmSpec.v ===== *)
(** * Virtual memory manager: specification of the operations

    Each operation on an address space, as an update of the translation
    function: mapping, unmapping and protecting a page change the translation
    of that page only, in that address space only. *)

From S2P Require Import Prelude PageAlloc Vmm VmmInv VmmMap.

(** ** Indices and pages *)

Lemma index_div v k : 0 ≤ k → Z.land (Z.shiftr v k) 0x1FF = v / 2 ^ k mod 512.
Proof.
  intros. change 0x1FF with (Z.ones 9). rewrite Z.land_ones, Z.shiftr_div_pow2 by lia. done.
Qed.

Lemma indices_page v w :
  0 ≤ v < 2 ^ 48 → 0 ≤ w < 2 ^ 48 → indices v = indices w ↔ v / PAGE_SIZE = w / PAGE_SIZE.
Proof.
  intros Hv Hw. unfold indices, pml4_index, pdpt_index, pd_index, pt_index.
  rewrite !index_div by lia. change PAGE_SIZE with (2 ^ 12).
  assert (∀ x k, 0 ≤ k → x / 2 ^ (12 + k) = x / 2 ^ 12 / 2 ^ k) as Hd.
  { intros x k Hk. rewrite Z.pow_add_r, Z.div_div by lia. done. }
  rewrite !(Hd _ 9 ltac:(lia) : _ / 2 ^ 21 = _), !(Hd _ 18 ltac:(lia) : _ / 2 ^ 30 = _),
    !(Hd _ 27 ltac:(lia) : _ / 2 ^ 39 = _).
  set (a := v / 2 ^ 12). set (b := w / 2 ^ 12).
  assert (0 ≤ a < 2 ^ 36 ∧ 0 ≤ b < 2 ^ 36) as [? ?].
  { unfold a, b. Z.to_euclidean_division_equations. lia. }
  split; [|by intros ->]. intros [= E1 E2 E3 E4]. Z.to_euclidean_division_equations. lia.
Qed.

Lemma user_index v : 0 ≤ v < USER_VA_TOP → pml4_index v < 256.
Proof.
  intros Hv. unfold pml4_index. rewrite index_div by lia. unfold USER_VA_TOP in Hv.
  Z.to_euclidean_division_equations. lia.
Qed.

(** The entry [vmm_map_user] writes. *)
Definition user_pte (phys flags : Z) : Z :=
  Z.lor (Z.lor (Z.land phys ADDR_MASK) (Z.land flags VMM_PTE_FLAG_MASK)) VMM_FLAG_PRESENT.

Lemma has_present_lor x : has (Z.lor x VMM_FLAG_PRESENT) VMM_FLAG_PRESENT = true.
Proof.
  unfold has. rewrite land_lor_mask. change (Z.land VMM_FLAG_PRESENT VMM_FLAG_PRESENT) with 1.
  apply negb_true_iff, Z.eqb_neq. intros E.
  apply (f_equal (λ z, Z.testbit z 0)) in E. rewrite Z.lor_spec in E. simpl in E.
  by rewrite orb_true_r in E.
Qed.

Lemma user_pte_bits phys flags :
  has (user_pte phys flags) VMM_FLAG_PRESENT = true ∧
  Z.land (user_pte phys flags) ADDR_MASK = Z.land phys ADDR_MASK ∧
  Z.land (user_pte phys flags) VMM_PTE_FLAG_MASK =
    Z.lor (Z.land flags VMM_PTE_FLAG_MASK) VMM_FLAG_PRESENT.
Proof.
  split; [apply has_present_lor|]. unfold user_pte. rewrite !land_lor_mask. split.
  - rewrite (land_const_mask phys _ ADDR_MASK ADDR_MASK),
      (land_const_mask flags _ ADDR_MASK 0) by done.
    rewrite Z.land_0_r. change (Z.land VMM_FLAG_PRESENT ADDR_MASK) with 0. by rewrite !Z.lor_0_r.
  - rewrite (land_const_mask phys _ VMM_PTE_FLAG_MASK 0),
      (land_const_mask flags _ VMM_PTE_FLAG_MASK VMM_PTE_FLAG_MASK) by done.
    by rewrite Z.land_0_r, Z.lor_0_l.
Qed.

Section spec.
Context {P : Type} `{!PageAllocator P, !PageAllocatorLaws P} (ks : kernel_syms).
Context (Hks : KERNEL_VMA_BASE ≤ ks_kernel_start ks).
Implicit Types (s : vmm P) (own : owners).

(** A user address space: a root whose lower half has no large pages. *)
Definition user_space s own (r : Z) : Prop :=
  is_root own r ∧ ∀ v, 0 ≤ v < USER_VA_TOP → small_path s r v.

(** Between [s] and [s'] only the page of [virt] in the space [r] changed its
    translation, which is now [x]; no table was lost. *)
Definition remapped s own s' own' (r virt : Z) (x : xlat) : Prop :=
  pt_inv s' own' ∧ extends s own s' own' ∧ translate s' r virt = Some x ∧
  kernel_pml4_phys s' = kernel_pml4_phys s ∧ cr3 s' = cr3 s ∧
  ∀ r' v', is_root own r' → 0 ≤ v' < USER_VA_TOP →
    (r' = r → v' / PAGE_SIZE ≠ virt / PAGE_SIZE) → translate s' r' v' = translate s r' v'.

Lemma remapped_space s own s' own' r virt e :
  remapped s own s' own' r virt (Leaf e 0xFFF) ∨ remapped s own s' own' r virt NotMapped →
  user_space s own r → 0 ≤ virt < USER_VA_TOP → user_space s' own' r.
Proof using.
  intros Hre [Hr Hsm] Hv.
  assert (∃ x, remapped s own s' own' r virt x ∧ ∀ e' m, x = Leaf e' m → m = 0xFFF) as (x & Hx & Hm).
  { destruct Hre as [?|?]; [by eexists; split; [done|]; intros ? ? [= _ <-]|by exists NotMapped]. }
  destruct Hx as (_ & [Ho _] & Ht & _ & _ & Hoth). split; [by eapply lookup_weaken|].
  intros v Hvr e' m' Et. destruct (decide (v / PAGE_SIZE = virt / PAGE_SIZE)) as [E|Hne].
  - assert (indices v = indices virt) as Ei.
    { apply indices_page; unfold USER_VA_TOP in *; [lia..|done]. }
    unfold translate in *. rewrite Ei, Ht in Et. injection Et as Et. by apply (Hm e').
  - rewrite (Hoth r v) in Et by done. by apply (Hsm v Hvr e').
Qed.

Lemma pte_written s0 own0 s own r virt t v :
  grows s0 own0 s own → is_root own0 r → 0 ≤ virt < USER_VA_TOP →
  table_of (vm_mem s) r (top3 virt) = Some t →
  remapped s0 own0 (set_mem (<[t + 8 * pt_index virt := v]> (vm_mem s)) s) own r virt
    (leaf_or_none v).
Proof using.
  intros Hg Hr0 Hv Ht. pose proof (gr_inv _ _ _ _ Hg) as Hi.
  assert (is_root own r) as Hr by (eapply lookup_weaken; [exact Hr0|apply Hg]).
  pose proof (gr_cfg _ _ _ _ Hg) as Hcfg. injection Hcfg as E1 E2 E3 E4 E5 E6 E7 E8 E9.
  destruct (pte_write s own r virt t v Hi Hr (or_introl (user_index virt Hv)) Ht) as (Hi' & Htr & Hoth).
  split; [done|]. split; [apply Hg|]. split; [done|]. split; [done|]. split; [done|].
  intros r' v' Hr' Hv' Hne. rewrite Hoth.
  - apply (gr_walk _ _ _ _ Hg); [done|]. apply tree_indices_of. left. by apply user_index.
  - eapply lookup_weaken; [exact Hr'|apply Hg].
  - left. by apply user_index.
  - intros Er. rewrite indices_page by (unfold USER_VA_TOP in *; lia). by apply Hne.
Qed.

Lemma wpe_map_user s own r virt phys flags (Q : unit → vmm P → Prop) (H : vmm P → Prop) :
  pt_inv s own → user_space s own r → 0 ≤ virt < USER_VA_TOP →
  (∀ s1 own1, grows s own s1 own1 → H s1) →
  (∀ s' own', remapped s own s' own' r virt (Leaf (user_pte phys flags) 0xFFF) → Q tt s') →
  wpe (vmm_map_user ks r virt phys flags) Q H s.
Proof using Hks.
  intros Hi [Hr Hsm] Hv HH HQ. unfold vmm_map_user.
  rewrite (proj2 (Z.leb_gt USER_VA_TOP virt)) by lia.
  apply wpe_bind, wpe_run, wp_gets. apply wpe_bind.
  eapply wpe_get_table3; [done|done|done|left; by apply user_index|by apply Hsm|done|].
  intros s' own' t Hg Ht. apply wpe_run.
  assert (is_root own' r) as Hr' by (eapply lookup_weaken; [exact Hr|apply Hg]).
  assert (own' !! t = Some (r, top3 virt)) as Hto.
  { eapply (pte_own s'); [apply Hg|done| |done]. left. by apply user_index. }
  eapply wp_wr_entry; [done|apply Hg|done|apply index_range|].
  apply (HQ _ own'). fold (user_pte phys flags).
  pose proof (pte_written s own s' own' r virt t (user_pte phys flags) Hg Hr Hv Ht) as Hre.
  unfold leaf_or_none in Hre. by rewrite (proj1 (user_pte_bits phys flags)) in Hre.
Qed.

(** The result of reading a translation. *)
Lemma wp_virt_to_phys_user s own r virt (Q : Z → vmm P → Prop) :
  pt_inv s own → is_root own r → 0 ≤ virt < USER_VA_TOP →
  (∀ x, translate s r virt = Some x → Q (xlat_phys x virt) s) →
  wp (vmm_virt_to_phys_user ks r virt) Q s.
Proof using Hks.
  intros H Hr Hv HQ. unfold vmm_virt_to_phys_user.
  rewrite (proj2 (Z.eqb_neq r 0)) by (pose proof (own_phys s own r _ H Hr); lia).
  rewrite (proj2 (Z.leb_gt USER_VA_TOP virt)) by lia. apply wp_bind, wp_gets.
  destruct (descent_total s own r virt H Hr (or_introl (user_index virt Hv))) as (x & Ex & Hd).
  eapply wp_walk_to_phys; [done|done|done|]. by apply HQ.
Qed.

Lemma set_invlpg_inv s own l : pt_inv s own → pt_inv (set_invlpg l s) own.
Proof using. by intros []. Qed.

(** [invlpg] is issued exactly when the address space is the current one. *)
Definition flushed s s' (r virt : Z) : Prop :=
  vm_invlpg s' = if Z.land (cr3 s) ADDR_MASK =? Z.land r ADDR_MASK
                 then virt :: vm_invlpg s else vm_invlpg s.

Lemma wp_write_flush s own r virt t v (Q : unit → vmm P → Prop) :
  pt_inv s own → is_root own r → 0 ≤ virt < USER_VA_TOP →
  table_of (vm_mem s) r (top3 virt) = Some t →
  (∀ s', remapped s own s' own r virt (leaf_or_none v) → flushed s s' r virt → Q tt s') →
  wp (wr_entry ks (phys_to_virt s t) (pt_index virt) v)
    (λ _ s1, wp (flush_if_current r virt) Q s1) s.
Proof using Hks.
  intros H Hr Hv Ht HQ.
  assert (own !! t = Some (r, top3 virt)) as Hto.
  { eapply (pte_own s); [done|done| |done]. left. by apply user_index. }
  eapply wp_wr_entry; [done|done|done|apply index_range|].
  pose proof (pte_written s own s own r virt t v (grows_refl s own H) Hr Hv Ht) as Hre.
  set (s1 := set_mem _ s) in *. unfold flush_if_current. apply wp_bind, wp_gets.
  change (cr3 s1) with (cr3 s).
  destruct (Z.land (cr3 s) ADDR_MASK =? Z.land r ADDR_MASK) eqn:Ec.
  - unfold invlpg. apply wp_modify, HQ.
    + destruct Hre as (? & ? & ? & ? & ? & ?). split; [by apply set_invlpg_inv|done].
    + unfold flushed. by rewrite Ec.
  - apply wp_ret, HQ; [done|]. unfold flushed. by rewrite Ec.
Qed.

Lemma wp_unmap_user s own r virt (Q : unit → vmm P → Prop) :
  pt_inv s own → user_space s own r → 0 ≤ virt < USER_VA_TOP →
  (∀ s' e, translate s r virt = Some (Leaf e 0xFFF) →
     remapped s own s' own r virt NotMapped → flushed s s' r virt → Q tt s') →
  (translate s r virt = Some NotMapped → Q tt s) →
  wp (vmm_unmap_user ks r virt) Q s.
Proof using Hks.
  intros H [Hr Hsm] Hv Hsome Hnone. unfold vmm_unmap_user.
  rewrite (proj2 (Z.eqb_neq r 0)) by (pose proof (own_phys s own r _ H Hr); lia).
  rewrite (proj2 (Z.leb_gt USER_VA_TOP virt)) by lia.
  destruct (descent_total s own r virt H Hr (or_introl (user_index virt Hv))) as (x & Ex & Hd).
  specialize (Hsm virt Hv).
  destruct Hd as [e4 ? ?|e4 e3 x ? ? ? [[? ->]|(? & ? & ->)]
    |e4 e3 e2 x ? ? ? ? ? ? [[? ->]|(? & ? & ->)]|e4 e3 e2 e1 ? ? ? ? ? ? ? ? ? Ht].
  - walk_steps. by apply Hnone.
  - walk_steps. by apply Hnone.
  - specialize (Hsm _ _ Ex). discriminate.
  - walk_steps. by apply Hnone.
  - specialize (Hsm _ _ Ex). discriminate.
  - unfold leaf_or_none in Ex. destruct (has e1 VMM_FLAG_PRESENT) eqn:P1; walk_steps; [|by apply Hnone].
    apply wp_bind. eapply wp_write_flush; [done..|]. intros s' Hre Hf. by eapply Hsome.
Qed.

(** The entry after [vmm_protect_user]. *)
Definition protect_pte (e flags : Z) : Z :=
  Z.lor (Z.lor (Z.land e (u64 (Z.lnot PROT_BITS))) VMM_FLAG_PRESENT) (Z.land flags PROT_BITS).

Lemma protect_pte_present e flags : has (protect_pte e flags) VMM_FLAG_PRESENT = true.
Proof using.
  unfold protect_pte. rewrite <-Z.lor_assoc, (Z.lor_comm VMM_FLAG_PRESENT), Z.lor_assoc.
  apply has_present_lor.
Qed.

Lemma wp_protect_user s own r virt flags (Q : Z → vmm P → Prop) :
  pt_inv s own → is_root own r → 0 ≤ virt < USER_VA_TOP →
  (∀ s' e, translate s r virt = Some (Leaf e 0xFFF) →
     remapped s own s' own r virt (Leaf (protect_pte e flags) 0xFFF) →
     flushed s s' r virt → Q 0 s') →
  ((∀ e, translate s r virt ≠ Some (Leaf e 0xFFF)) → Q (-1) s) →
  wp (vmm_protect_user ks r virt flags) Q s.
Proof using Hks.
  intros H Hr Hv Hsome Hnone. unfold vmm_protect_user.
  destruct (descent_total s own r virt H Hr (or_introl (user_index virt Hv))) as (x & Ex & Hd).
  apply wp_bind. eapply wp_lookup_pte; [done|done|done| |lia| |].
  - pose proof (own_phys s own r _ H Hr). lia.
  - intros t e -> Hp Ht Hl. apply wp_bind. eapply wp_rd_level; [done|done|done|].
    fold (protect_pte e flags).
    apply wp_bind. eapply wp_mono.
    + apply (wp_write_flush s own r virt t (protect_pte e flags) (λ _ s', Q 0 s')); [done..|].
      unfold leaf_or_none. rewrite protect_pte_present. intros s' Hre Hf. by eapply Hsome.
    + intros u s1 Hs1. by apply wp_bind.
  - intros Hn. apply wp_ret, Hnone. intros e E. rewrite Ex in E. injection E as ->. by apply (Hn e).
Qed.
End spec.

(** * Virtual memory manager: creating address spaces, and the kernel's own

    [vmm_create_address_space], and [vmm_map] with [vmm_virt_to_phys] on the
    kernel's tree. *)

Section space.
Context {P : Type} `{!PageAllocator P, !PageAllocatorLaws P} (ks : kernel_syms).
Context (Hks : KERNEL_VMA_BASE ≤ ks_kernel_start ks).
Implicit Types (s : vmm P) (own : owners).

(** A walk only reads words of tables of the tree. *)
Lemma walk_agree s own t r pre ix m' :
  pt_inv s own → own !! t = Some (r, pre) → (length pre + length ix = 4)%nat → good_indices ix →
  (pre = [] → default 0 (head ix) < 256 ∨ r = kernel_pml4_phys s) →
  (∀ t0 r0 pre0 i, own !! t0 = Some (r0, pre0) → own_index s r0 pre0 i →
     m' !! (t0 + 8 * i) = vm_mem s !! (t0 + 8 * i)) →
  walk m' t ix = walk (vm_mem s) t ix.
Proof using.
  intros H Ht Hl Hg Htop Hag. revert t pre Ht Hl Htop.
  induction ix as [|i ix IH]; intros t pre Ht Hl Htop; [done|]. cbn [walk].
  apply Forall_cons in Hg as [Hi Hg]. simpl in Htop, Hl.
  assert (own_index s r pre i) as Hoi by (split; [done|]; by intros E; apply Htop).
  rewrite (Hag t r pre i Ht Hoi).
  destruct (vm_mem s !! (t + 8 * i)) as [e|] eqn:He; [|done]. cbn [mbind option_bind].
  destruct (has e VMM_FLAG_PRESENT) eqn:Hp; cbn [negb]; [|done].
  destruct ((length ix =? 0)%nat || (has e VMM_FLAG_LARGE && (length ix <? 3)%nat)) eqn:Hlg; [done|].
  apply orb_false_iff in Hlg as [Hl0 Hlg]. apply Nat.eqb_neq in Hl0.
  apply (IH Hg _ (pre ++ [i])).
  - eapply (pi_child _ _ H t); [done|done|lia|done|done|].
    apply andb_false_iff in Hlg as [?|Hlg%Nat.ltb_ge]; [by right|left].
    destruct pre; [done|]. simpl in Hl. lia.
  - rewrite length_app. simpl. lia.
  - intros E. by destruct pre.
Qed.

(** ** A fresh root *)

Section fresh.
Context (s : vmm P) (own : owners) (p : Z) (pm : P).
Context (H : pt_inv s own) (Hp : 1 ≤ p) (Hp2 : (p + 1) * PAGE_SIZE ≤ 2 ^ 32)
  (Hfresh : ¬ pa_held (vm_pmm s) p) (Hpm : pa_inv pm)
  (Hheld : ∀ q, pa_held pm q ↔ pa_held (vm_pmm s) q ∨ q = p).

Let r := p * PAGE_SIZE.
Let s' := set_mem (zero_words r (vm_mem s)) (set_vpmm pm s).
Let own' := <[r := (r, [])]> own.

Lemma fresh_root_old t0 o0 i0 :
  own !! t0 = Some o0 → 0 ≤ i0 < 512 → vm_mem s' !! (t0 + 8 * i0) = vm_mem s !! (t0 + 8 * i0).
Proof using H Hp Hp2 Hfresh Hpm Hheld.
  intros H0 Hi0. apply zero_words_out. intros j Hj E. destruct o0 as [r0 pre0].
  destruct (pi_range _ _ H _ _ _ H0) as (q & -> & _ & _ & Hq & _).
  assert (q = p) as -> by (unfold r, PAGE_SIZE in E; lia). done.
Qed.

Lemma fresh_root_not_own : own !! r = None.
Proof using H Hp Hp2 Hfresh Hpm Hheld.
  destruct (own !! r) as [[r0 pre0]|] eqn:E; [|done]. exfalso.
  destruct (pi_range _ _ H _ _ _ E) as (q & Eq & _ & _ & Hq & _).
  assert (q = p) as -> by (unfold r, PAGE_SIZE in Eq; lia). done.
Qed.

Lemma fresh_root_inv : pt_inv s' own'.
Proof using H Hp Hp2 Hfresh Hpm Hheld.
  assert (∀ t0 o0, own' !! t0 = Some o0 →
    (t0 = r ∧ o0 = (r, [])) ∨ (t0 ≠ r ∧ own !! t0 = Some o0)) as Hcase.
  { intros t0 o0. unfold own'. intros [[<- <-]|[? ?]]%lookup_insert_Some; auto. }
  split.
  - apply H.
  - done.
  - intros t0 r0 pre0 [[-> E]|[_ H0]]%Hcase.
    + injection E as -> ->. exists p. split; [done|]. split; [done|]. split; [done|].
      split; [apply Hheld; by right|simpl; lia].
    + destruct (pi_range _ _ H _ _ _ H0) as (q & ? & ? & ? & ? & ?). exists q.
      split; [done|]. split; [done|]. split; [done|]. split; [apply Hheld; by left|done].
  - intros t0 r0 pre0 j [[-> E]|[_ H0]]%Hcase Hj.
    + exists 0. by apply zero_words_in.
    + rewrite (fresh_root_old _ _ _ H0 Hj). by eapply (pi_words _ _ H).
  - intros t0 r0 pre0 j e0 [[-> E]|[_ H0]]%Hcase Hj Hl Hm Hpres Hlarge.
    + assert (vm_mem s' !! (r + 8 * j) = Some 0) as E0 by (apply zero_words_in, Hj).
      rewrite E0 in Hm. injection Hm as <-. done.
    + rewrite (fresh_root_old _ _ _ H0) in Hm by apply Hj.
      unfold own'. etrans; [apply lookup_insert_ne|by eapply (pi_child _ _ H)].
      intros E. pose proof (pi_child _ _ H _ _ _ _ _ H0 Hj Hl Hm Hpres Hlarge) as Hc.
      rewrite <-E, fresh_root_not_own in Hc. done.
Qed.

Lemma fresh_root_grows :
  (∀ q, pa_single pm q ↔ pa_single (vm_pmm s) q ∨ q = p) → pa_pages pm = pa_pages (vm_pmm s) →
  grows s own s' own'.
Proof using H Hp Hp2 Hfresh Hpm Hheld.
  intros Hsing Hpg. split.
  - exact fresh_root_inv.
  - split; [apply insert_subseteq, fresh_root_not_own|]. split; [intros q Hq; apply Hsing; by left|].
    split; [|done]. intros q Hq Hn. apply lookup_insert_None. split; [done|]. intros E.
    assert (p = q) as -> by (unfold r, PAGE_SIZE in E; lia). done.
  - intros t0 o0 j e0 H0 Hj Hm Hpr. by rewrite (fresh_root_old _ _ _ H0 Hj).
  - intros r0 ix H0 (Hg & Hl & Htop). apply (walk_agree s own r0 r0 []); try done.
    intros t1 r1 pre1 i H1 Hi. apply (fresh_root_old _ _ _ H1), Hi.
  - done.
  - intros q Hq. apply Hheld. by left.
Qed.

Lemma fresh_root_empty virt : translate s' r virt = Some NotMapped.
Proof using H Hp Hp2 Hfresh Hpm Hheld.
  unfold translate, indices. cbn [walk].
  assert (vm_mem s' !! (r + 8 * pml4_index virt) = Some 0) as -> by (apply zero_words_in, index_range).
  done.
Qed.
End fresh.

(** ** [vmm_create_address_space] *)

(** The upper half of a user root is not part of its tree. *)
Lemma write_upper s own r i v :
  pt_inv s own → is_root own r → r ≠ kernel_pml4_phys s → 256 ≤ i < 512 →
  pt_inv (set_mem (<[r + 8 * i := v]> (vm_mem s)) s) own.
Proof using.
  intros H Hr Hk Hi. pose proof H as [H1 H2 H3 H4 H5]. split; simpl; try done.
  - intros t0 r0 pre0 i0 H0 Hi0. destruct (decide (r + 8 * i = t0 + 8 * i0)) as [<-|].
    + by rewrite lookup_insert_eq.
    + rewrite lookup_insert_ne by done. by eapply H4.
  - intros t0 r0 pre0 i0 e0 H0 Hi0 Hl0. rewrite lookup_insert_ne; [by eapply H5|].
    intros E. destruct (word_inj s own r _ t0 _ i i0 H Hr H0 ltac:(lia) (proj1 Hi0) E) as [-> ->].
    rewrite Hr in H0. injection H0 as <- <-. destruct Hi0 as [_ Hi0].
    destruct (Hi0 eq_refl); [lia|done].
Qed.

(** The copy loop after [i] iterations. *)
Record copying s1 own (r i : Z) s : Prop := {
  cp_inv : pt_inv s own;
  cp_cfg : vcfg s = vcfg s1;
  cp_pmm : vm_pmm s = vm_pmm s1;
  cp_done : ∀ j, 256 ≤ j < i → vm_mem s !! (r + 8 * j) = vm_mem s1 !! (kernel_pml4_phys s1 + 8 * j);
  cp_rest : ∀ a, (∀ j, 256 ≤ j < i → a ≠ r + 8 * j) → vm_mem s !! a = vm_mem s1 !! a
}.

Lemma copying_step s1 own r i s :
  copying s1 own r i s → is_root own r → is_root own (kernel_pml4_phys s1) →
  r ≠ kernel_pml4_phys s1 → 256 ≤ i < 512 →
  ∃ e, vm_mem s !! (kernel_pml4_phys s1 + 8 * i) = Some e ∧
    copying s1 own r (i + 1) (set_mem (<[r + 8 * i := e]> (vm_mem s)) s).
Proof using.
  intros [H Hc Hpm Hd Hr0] Hr Hk Hne Hi. destruct (vcfg_root _ _ Hc) as (Ek & _ & _).
  set (k := kernel_pml4_phys s1) in *.
  destruct (pi_words _ _ H k k [] i Hk ltac:(lia)) as [e He]. exists e. split; [done|].
  assert (∀ j, 256 ≤ j < 512 → k + 8 * i ≠ r + 8 * j) as Hkr.
  { intros j Hj E. destruct (word_inj s own k _ r _ i j H Hk Hr ltac:(lia) ltac:(lia) E). done. }
  split; simpl; try done.
  - apply write_upper; try done. by rewrite Ek.
  - intros j Hj. destruct (decide (j = i)) as [->|].
    + rewrite lookup_insert_eq, <-He. apply Hr0. intros j Hj2. apply Hkr. lia.
    + rewrite lookup_insert_ne by lia. apply Hd. lia.
  - intros a Ha. rewrite lookup_insert_ne; [|by apply not_eq_sym, Ha; lia].
    apply Hr0. intros j Hj. apply Ha. lia.
Qed.

(** The result of creating an address space. *)
Definition created s own s' own' (r : Z) : Prop :=
  grows s own s' own' ∧ user_space s' own' r ∧ own !! r = None ∧
  (∀ virt, 0 ≤ virt < USER_VA_TOP → translate s' r virt = Some NotMapped) ∧
  (∀ j, 256 ≤ j < 512 → vm_mem s' !! (r + 8 * j) = vm_mem s' !! (kernel_pml4_phys s + 8 * j)).

Lemma copying_created s own p pm s' :
  pt_inv s own → is_root own (kernel_pml4_phys s) → 1 ≤ p → (p + 1) * PAGE_SIZE ≤ 2 ^ 32 →
  ¬ pa_held (vm_pmm s) p → pa_inv pm → (∀ q, pa_held pm q ↔ pa_held (vm_pmm s) q ∨ q = p) →
  (∀ q, pa_single pm q ↔ pa_single (vm_pmm s) q ∨ q = p) → pa_pages pm = pa_pages (vm_pmm s) →
  let r := p * PAGE_SIZE in
  let s1 := set_mem (zero_words r (vm_mem s)) (set_vpmm pm s) in
  let own1 := <[r := (r, [])]> own in
  copying s1 own1 r 512 s' → created s own s' own1 r.
Proof using.
  intros H Hk Hp Hp2 Hfr Hpm Hheld Hsing Hpg r s1 own1 [Hi Hc Epm Hd Hrest].
  pose proof (fresh_root_grows s own p pm H Hp Hp2 Hfr Hpm Hheld Hsing Hpg) as Hg.
  fold r in Hg. fold s1 in Hg. fold own1 in Hg.
  pose proof (gr_inv _ _ _ _ Hg) as Hi1.
  assert (is_root own1 r) as Hr by apply lookup_insert_eq.
  assert (own !! r = None) as Hno by (apply (fresh_root_not_own s own p pm); done).
  assert (∀ t0 r0 pre0 i, own1 !! t0 = Some (r0, pre0) → own_index s1 r0 pre0 i →
    r0 = kernel_pml4_phys s1 ∨ pre0 ≠ [] ∨ i < 256 → vm_mem s' !! (t0 + 8 * i) = vm_mem s1 !! (t0 + 8 * i)) as Hag.
  { intros t0 r0 pre0 i H0 [Hix _] Hc0. apply Hrest. intros j Hj E.
    destruct (word_inj s1 own1 t0 _ r _ i j Hi1 H0 Hr Hix ltac:(lia) E) as [-> ->].
    unfold is_root in Hr. rewrite Hr in H0. injection H0 as <- <-. destruct Hc0 as [Hc0|[?|?]]; [|done|lia].
    unfold is_root in Hk. change (kernel_pml4_phys s1) with (kernel_pml4_phys s) in Hc0.
    rewrite <-Hc0 in Hk. congruence. }
  assert (∀ r0 ix, is_root own1 r0 → tree_indices s1 r0 ix → walk (vm_mem s') r0 ix = walk (vm_mem s1) r0 ix) as Hw.
  { intros r0 ix H0 (Hgi & Hl & Htop). apply (walk_agree s1 own1 r0 r0 []); try done.
    intros t1 r1 pre1 i H1 Hix. apply (Hag t1 r1 pre1 i H1 Hix).
    destruct pre1; [|by right; left]. destruct Hix as [_ Hix]. destruct (Hix eq_refl); auto. }
  assert (∀ virt, 0 ≤ virt < USER_VA_TOP → translate s' r virt = Some NotMapped) as Hem.
  { intros virt Hv. unfold translate. rewrite Hw; [|done|apply tree_indices_of; left; by apply user_index].
    apply (fresh_root_empty s own p pm); done. }
  split; [|split; [split; [done|]|split; [done|split; [done|]]]].
  - apply (grows_trans _ _ s1 own1); [done|]. split; try done.
    + split_and!; [done|intros q; by rewrite Epm|done|by rewrite Epm].
    + intros t o i e Ht Hix He Hpr. destruct (decide (t = r)) as [->|Hne].
      * assert (vm_mem s1 !! (r + 8 * i) = Some 0) as E0 by (by apply zero_words_in).
        rewrite E0 in He. injection He as <-. done.
      * rewrite Hrest; [done|]. intros j Hj E.
        destruct (word_inj s1 own1 t _ r _ i j Hi1 Ht Hr Hix ltac:(lia) E). done.
    + intros q. by rewrite Epm.
  - intros v Hv e m E. rewrite Hem in E by done. discriminate E.
  - intros j Hj. rewrite Hd by done. symmetry. apply Hrest. intros j' Hj' E.
    assert (is_root own1 (kernel_pml4_phys s)) as Hk1 by (eapply lookup_weaken; [exact Hk|apply Hg]).
    destruct (word_inj s1 own1 _ _ r _ j j' Hi1 Hk1 Hr ltac:(lia) ltac:(lia) E) as [Ek _].
    unfold is_root in Hk. rewrite Ek in Hk. congruence.
Qed.

(** The kernel's own tree. *)
Definition kernel_tree s own : Prop :=
  is_root own (kernel_pml4_phys s) ∧ kernel_pml4 s = phys_to_virt s (kernel_pml4_phys s).

Lemma wpe_create s own (Q : Z → vmm P → Prop) (H : vmm P → Prop) :
  pt_inv s own → kernel_tree s own → H s →
  (∀ s' own' r, created s own s' own' r → Q r s') →
  wpe (vmm_create_address_space ks) Q H s.
Proof using Hks.
  intros Hi [Hk Ekp] HH HQ. unfold vmm_create_address_space.
  apply wpe_bind, wpe_alloc_table; [done|apply Hi|apply Hi|done|].
  intros p pm Hp Hp2 Hfr Hpm Hheld Hsing Hpg. apply wpe_bind, wpe_run, wp_gets.
  set (r := p * PAGE_SIZE). set (s1 := set_mem (zero_words r (vm_mem s)) (set_vpmm pm s)).
  set (own1 := <[r := (r, [])]> own).
  pose proof (fresh_root_inv s own p pm Hi Hp Hp2 Hfr Hpm Hheld) as Hi1.
  fold r in Hi1. fold s1 in Hi1. fold own1 in Hi1.
  assert (own !! r = None) as Hno by (apply (fresh_root_not_own s own p pm); done).
  assert (is_root own1 r) as Hr by apply lookup_insert_eq.
  assert (r ≠ kernel_pml4_phys s1) as Hne.
  { intros E. unfold is_root in Hk. change (kernel_pml4_phys s1) with (kernel_pml4_phys s) in E.
    rewrite <-E in Hk. congruence. }
  assert (is_root own1 (kernel_pml4_phys s1)) as Hk1.
  { unfold is_root, own1. etrans; [by apply lookup_insert_ne|exact Hk]. }
  apply wpe_bind. apply (wpe_for _ _ _ (λ i s', copying s1 own1 r i s')); [lia| | |].
  - split; try done; intros; lia.
  - intros i s' Hix Hcp. pose proof (cp_inv _ _ _ _ _ Hcp) as Hi'.
    destruct (vcfg_root _ _ (cp_cfg _ _ _ _ _ Hcp)) as (Ek & Er & Ep).
    destruct (copying_step s1 own1 r i s' Hcp Hr Hk1 Hne Hix) as (e & He & Hcp').
    apply wpe_bind, wpe_run, wp_gets. apply wpe_bind, wpe_run.
    assert (∀ t, phys_to_virt s1 t = phys_to_virt s' t) as Ept.
    { intros t. unfold phys_to_virt. rewrite Er. by rewrite (pi_ready _ _ Hi1). }
    assert (kernel_pml4 s' = phys_to_virt s' (kernel_pml4_phys s1)) as ->.
    { rewrite Ep, <-Ept. exact Ekp. }
    eapply wp_rd_entry; [done|done|exact Hk1|done|]. apply wpe_run. rewrite Ept.
    eapply wp_wr_entry; [done|done|exact Hr|lia|done].
  - intros s' Hcp. apply wpe_ret, (HQ s' own1). by apply (copying_created s own p pm).
Qed.

(** ** The kernel's mappings *)

Definition kernel_pte (phys flags : Z) : Z :=
  Z.lor (Z.land phys ADDR_MASK) (kernel_pte_flags flags).

Lemma wpe_map_kernel s own virt phys flags (Q : unit → vmm P → Prop) (H : vmm P → Prop) :
  pt_inv s own → kernel_tree s own → small_path s (kernel_pml4_phys s) virt →
  (∀ s1 own1, grows s own s1 own1 → H s1) →
  (∀ s' own', pt_inv s' own' → own ⊆ own' → kernel_tree s' own' →
     translate s' (kernel_pml4_phys s) virt = Some (leaf_or_none (kernel_pte phys flags)) →
     (∀ r' v', is_root own r' → user_or_kernel s r' v' →
        (r' = kernel_pml4_phys s → indices v' ≠ indices virt) →
        translate s' r' v' = translate s r' v') → Q tt s') →
  wpe (vmm_map ks virt phys flags) Q H s.
Proof using Hks.
  intros Hi [Hk Ekp] Hsm HH HQ. unfold vmm_map. apply wpe_bind, wpe_run, wp_gets. rewrite Ekp.
  apply wpe_bind. eapply wpe_get_table3; [done|done|done|by right|done|done|].
  intros s' own' t Hg Ht. apply wpe_run. pose proof (gr_inv _ _ _ _ Hg) as Hi'.
  destruct (vcfg_root _ _ (gr_cfg _ _ _ _ Hg)) as (Ek & Er & Ep).
  assert (is_root own' (kernel_pml4_phys s)) as Hk' by (eapply lookup_weaken; [exact Hk|apply Hg]).
  assert (own' !! t = Some (kernel_pml4_phys s, top3 virt)) as Hto
    by (eapply (pte_own s'); [done|done|by right|done]).
  eapply wp_wr_entry; [done|done|done|apply index_range|].
  destruct (pte_write s' own' _ virt t (kernel_pte phys flags) Hi' Hk' ltac:(by right) Ht) as (Hi2 & Htr & Hoth).
  apply (HQ _ own'); [done|apply Hg| |done|].
  - split; simpl; [by rewrite Ek|]. rewrite Ep, Ekp, Ek. unfold phys_to_virt. simpl.
    rewrite Er. by rewrite (pi_ready _ _ Hi).
  - intros r' v' Hr' Hu' Hne. rewrite Hoth; [|by eapply lookup_weaken; [|apply Hg]| |done].
    + apply (gr_walk _ _ _ _ Hg); [done|]. by apply tree_indices_of.
    + unfold user_or_kernel in *. by rewrite Ek.
Qed.
End space.
