(* ===== verification/VmmProps.v ===== *)
(** * Virtual memory manager: properties

    The claims about [vmm.c], proved over the page-allocator interface and
    instantiated with the buddy allocator booted in [PmmProps]. *)

From S2P Require Import Prelude PageAlloc Pmm PmmIface PmmProps Vmm VmmInv VmmMap VmmSpec.

(** ** A machine with one kernel table *)

Definition demo_ks : kernel_syms :=
  KernelSyms 0xFFFFFFFF80000000 0x110000 0xFFFFFFFF80000000 0xFFFFFFFF80004000 0x110000
    0xFFFFFFFF80004000 0xFFFFFFFF80006000 0x114000 0xFFFFFFFF80006000 0xFFFFFFFF80010000 0x116000
    0xFFFFFFFF80010000 0xFFFFFFFF80014000 0x120000 0x124000
    0xFFFFFFFF80014000 0xFFFFFFFF80016000 0x124000 0xFFFFFFFF80008000.

(** Installing a fresh zeroed page as the kernel's root. *)
Lemma first_root {P} `{!PageAllocator P, !PageAllocatorLaws P} (s : vmm P) p pm :
  pt_inv s ∅ → 1 ≤ p → (p + 1) * PAGE_SIZE ≤ 2 ^ 32 → ¬ pa_held (vm_pmm s) p → pa_inv pm →
  (∀ q, pa_held pm q ↔ pa_held (vm_pmm s) q ∨ q = p) →
  let r := p * PAGE_SIZE in
  let s1 := set_mem (zero_words r (vm_mem s)) (set_vpmm pm s) in
  let s2 := set_kernel_pml4 (phys_to_virt s1 r) r s1 in
  pt_inv s2 {[r := (r, [])]} ∧ kernel_tree s2 {[r := (r, [])]} ∧
  ∀ v, translate s2 r v = Some NotMapped.
Proof.
  intros H Hp Hp2 Hfr Hpm Hheld r s1 s2.
  pose proof (fresh_root_inv s ∅ p pm H Hp Hp2 Hfr Hpm Hheld) as [H1 H2 H3 H4 H5].
  split; [|split; [split; [apply lookup_singleton_eq|done]|]].
  - split; [exact H1|exact H2|exact H3|exact H4|]. intros t r' pre i e Ht Hi Hl Hm Hpr Hlg.
    apply lookup_singleton_Some in Ht as [<- [= <- <-]]. exfalso.
    assert (vm_mem s2 !! (r + 8 * i) = Some 0) as E by (apply zero_words_in, Hi).
    rewrite E in Hm. injection Hm as <-. done.
  - exact (fresh_root_empty s ∅ p pm H Hp Hp2 Hfr Hpm Hheld).
Qed.

Definition vm_base : vmm pmm := Vmm ∅ demo 0 0 true 0x300000 0 0 0 0 [].

Lemma demo_ks_ok : KERNEL_VMA_BASE ≤ ks_kernel_start demo_ks.
Proof. done. Qed.

Lemma vm_base_inv : pt_inv vm_base ∅.
Proof.
  split; [done|exact demo_ready|..]; intros *; rewrite lookup_empty; discriminate.
Qed.

(** Any machine state obtained by giving the kernel an empty root. *)
Definition kernel_started (s : vmm pmm) : Prop :=
  ∃ own, pt_inv s own ∧ kernel_tree s own.

Definition start_kernel : ME (vmm pmm) unit :=
  root ← alloc_table demo_ks;
  run (modify (λ s, set_kernel_pml4 (phys_to_virt s root) root s)).

Lemma start_kernel_ok : wpe start_kernel (λ _ s, kernel_started s) (λ s, s = vm_base) vm_base.
Proof.
  unfold start_kernel. apply wpe_bind, wpe_alloc_table; [exact demo_ks_ok|done|exact demo_ready|done|].
  intros p pm Hp Hp2 Hfr Hpm Hheld _ _. apply wpe_run, wp_modify.
  destruct (first_root vm_base p pm vm_base_inv Hp Hp2 Hfr Hpm Hheld) as (Hi & Hk & _).
  exists {[p * PAGE_SIZE := (p * PAGE_SIZE, [])]}. split; [exact Hi|exact Hk].
Qed.

Definition kernel_run : option (option unit * vmm pmm) := start_kernel vm_base.
Definition demo_vmm : vmm pmm := match kernel_run with Some (_, s) => s | None => vm_base end.

Lemma kernel_run_ok : match kernel_run with Some (Some _, _) => true | _ => false end = true.
Proof. vm_compute. reflexivity. Qed.

Lemma demo_vmm_started : kernel_started demo_vmm.
Proof.
  assert (∀ o : option (option unit * vmm pmm), match o with Some (Some _, _) => true | _ => false end = true →
    (match o with
     | Some (r, s) => match r with Some _ => kernel_started s | None => s = vm_base end
     | None => False end) →
    kernel_started (match o with Some (_, s) => s | None => vm_base end)) as H.
  { by intros [[[[]|] s]|]. }
  exact (H kernel_run kernel_run_ok start_kernel_ok).
Qed.
#[global] Opaque demo_vmm kernel_run.

Section claims.
Context {P : Type} `{!PageAllocator P, !PageAllocatorLaws P} (ks : kernel_syms).
Implicit Types (s : vmm P) (own : owners).

(** C19: [vmm_map_user] maps exactly one page.  In a well-formed machine it
    never dereferences an invalid table; when it returns, the page of [virt]
    in the given address space translates to the frame of [phys] with the
    requested flags, every other page of every address space translates as
    before, and the tables are again well formed.  It stops the machine only
    in states where no translation has changed. *)
Theorem vmm_map_user_correct s own r virt phys flags :
  KERNEL_VMA_BASE ≤ ks_kernel_start ks →
  pt_inv s own → user_space s own r → 0 ≤ virt < USER_VA_TOP →
  wpe (vmm_map_user ks r virt phys flags)
    (λ _ s', ∃ own', remapped s own s' own' r virt (Leaf (user_pte phys flags) 0xFFF) ∧
       user_space s' own' r)
    (λ s1, ∃ own1, grows s own s1 own1) s.
Proof.
  intros Hks Hi Hu Hv. eapply wpe_map_user; [done..| |].
  - intros s1 own1 Hg. by exists own1.
  - intros s' own' Hre. exists own'. split; [done|]. eapply remapped_space; [by left|done|done].
Qed.

(** Reading a mapping back: after [vmm_map_user] returns,
    [vmm_virt_to_phys_user] gives the frame address plus the page offset and
    [vmm_query_user_flags] gives the requested flags with the present bit. *)
Theorem vmm_map_translate_roundtrip s own r virt phys flags :
  KERNEL_VMA_BASE ≤ ks_kernel_start ks →
  pt_inv s own → user_space s own r → 0 ≤ virt < USER_VA_TOP → 0 ≤ phys < 2 ^ 52 →
  wpe (vmm_map_user ks r virt phys flags;;
       a ← run (vmm_virt_to_phys_user ks r virt);
       f ← run (vmm_query_user_flags ks r virt);
       mret (a, f))
    (λ res _, res = (phys / PAGE_SIZE * PAGE_SIZE + virt mod PAGE_SIZE,
                     Z.lor (Z.land flags VMM_PTE_FLAG_MASK) VMM_FLAG_PRESENT))
    (λ _, True) s.
Proof.
  intros Hks Hi Hu Hv Hp. apply wpe_bind. eapply wpe_map_user; [done..|].
  intros s' own' (Hi' & [Ho _] & Htr & _). destruct Hu as [Hr _].
  assert (is_root own' r) as Hr' by (by eapply lookup_weaken).
  destruct (user_pte_bits phys flags) as (Hpr & Ha & Hf).
  apply wpe_bind, wpe_run. eapply wp_virt_to_phys_user; [done..|].
  intros x Ex. rewrite Htr in Ex. injection Ex as <-. apply wpe_bind, wpe_run.
  unfold vmm_query_user_flags. apply wp_bind.
  destruct (descent_total s' own' r virt Hi' Hr' (or_introl (user_index virt Hv))) as (x & Ex & Hd).
  rewrite Htr in Ex. injection Ex as <-.
  eapply wp_lookup_pte; [done|done|done| |lia| |intros Hn; by destruct (Hn (user_pte phys flags))].
  { pose proof (own_phys s' own' r _ Hi' Hr'). lia. }
  intros t e [= <-] _ Ht Hl. apply wp_bind. eapply wp_rd_level; [done..|].
  apply wp_ret, wpe_ret. rewrite Hf. f_equal. simpl. rewrite Ha.
  rewrite land_addr by done.
  replace (Z.land virt 0xFFF) with (virt mod PAGE_SIZE)
    by (change 0xFFF with (Z.ones 12); by rewrite Z.land_ones).
  apply u64_small. unfold PAGE_SIZE. Z.to_euclidean_division_equations. lia.
Qed.

(** [vmm_unmap_user] removes exactly one page: the page of [virt] becomes
    unmapped, every other page of every address space translates as before,
    and the TLB entry is flushed when the address space is the current one.
    Unmapping a page that is not mapped changes nothing. *)
Theorem vmm_unmap_user_correct s own r virt :
  KERNEL_VMA_BASE ≤ ks_kernel_start ks →
  pt_inv s own → user_space s own r → 0 ≤ virt < USER_VA_TOP →
  wp (vmm_unmap_user ks r virt) (λ _ s',
    (translate s r virt = Some NotMapped ∧ s' = s) ∨
    (∃ e, translate s r virt = Some (Leaf e 0xFFF) ∧
       remapped s own s' own r virt NotMapped ∧ flushed s s' r virt)) s.
Proof.
  intros Hks Hi Hu Hv. eapply wp_unmap_user; [done..| |].
  - intros s' e E Hre Hf. right. by exists e.
  - intros E. by left.
Qed.

(** [vmm_protect_user] on a mapped page replaces the user, write and
    no-execute bits of its entry by those given, keeps its frame and its other
    bits, flushes the TLB when needed and returns 0; otherwise it returns -1
    and changes nothing.  No other page is affected. *)
Theorem vmm_protect_user_correct s own r virt flags :
  KERNEL_VMA_BASE ≤ ks_kernel_start ks →
  pt_inv s own → is_root own r → 0 ≤ virt < USER_VA_TOP →
  wp (vmm_protect_user ks r virt flags) (λ res s',
    (res = -1 ∧ s' = s ∧ ∀ e, translate s r virt ≠ Some (Leaf e 0xFFF)) ∨
    (∃ e, res = 0 ∧ translate s r virt = Some (Leaf e 0xFFF) ∧
       remapped s own s' own r virt (Leaf (protect_pte e flags) 0xFFF) ∧
       Z.land (protect_pte e flags) ADDR_MASK = Z.land e ADDR_MASK ∧
       Z.land (protect_pte e flags) PROT_BITS = Z.land flags PROT_BITS ∧
       flushed s s' r virt)) s.
Proof.
  intros Hks Hi Hr Hv. eapply wp_protect_user; [done..| |].
  - intros s' e E Hre Hf. right. exists e. split; [done|]. split; [done|]. split; [done|].
    unfold protect_pte. rewrite !land_lor_mask.
    rewrite (land_const_mask e _ ADDR_MASK ADDR_MASK), (land_const_mask e _ PROT_BITS 0),
      (land_const_mask flags _ ADDR_MASK 0), (land_const_mask flags _ PROT_BITS PROT_BITS) by done.
    rewrite !Z.land_0_r. change (Z.land VMM_FLAG_PRESENT ADDR_MASK) with 0.
    change (Z.land VMM_FLAG_PRESENT PROT_BITS) with 0. rewrite !Z.lor_0_r, !Z.lor_0_l. done.
  - intros Hn. by left.
Qed.

(** [vmm_create_address_space] returns a root that belonged to no address
    space, in which no user page is mapped and whose upper half is the
    kernel's; no existing translation changes. *)
Theorem vmm_create_correct s own :
  KERNEL_VMA_BASE ≤ ks_kernel_start ks →
  pt_inv s own → kernel_tree s own →
  wpe (vmm_create_address_space ks) (λ r s', ∃ own', created s own s' own' r) (λ s1, s1 = s) s.
Proof.
  intros Hks Hi Hk. eapply wpe_create; [done..|]. intros s' own' r Hc. by exists own'.
Qed.

(** [vmm_map] maps one 4 KiB page of the kernel's address space: the page
    of [virt] gets the entry built from [phys] and the flags, and no other
    page of any address space changes. *)
Theorem vmm_map_correct s own virt phys flags :
  KERNEL_VMA_BASE ≤ ks_kernel_start ks →
  pt_inv s own → kernel_tree s own → small_path s (kernel_pml4_phys s) virt →
  wpe (vmm_map ks virt phys flags)
    (λ _ s', ∃ own', pt_inv s' own' ∧ own ⊆ own' ∧ kernel_tree s' own' ∧
       translate s' (kernel_pml4_phys s) virt = Some (leaf_or_none (kernel_pte phys flags)) ∧
       ∀ r' v', is_root own r' → user_or_kernel s r' v' →
         (r' = kernel_pml4_phys s → indices v' ≠ indices virt) →
         translate s' r' v' = translate s r' v')
    (λ s1, ∃ own1, grows s own s1 own1) s.
Proof.
  intros Hks Hi Hk Hsm. eapply wpe_map_kernel; [done..| |].
  - intros s1 own1 Hg. by exists own1.
  - intros s' own' ? ? ? ? ?. by exists own'.
Qed.
End claims.

(** ** Instances: a user address space on the booted machine *)

Definition CODE_VA : Z := 0x400000.

Lemma vmm_map_user_correct_witness :
  wpe (r ← vmm_create_address_space demo_ks; vmm_map_user demo_ks r CODE_VA 0x205000 5)
    (λ _ s', ∃ r own', translate s' r CODE_VA = Some (Leaf (user_pte 0x205000 5) 0xFFF) ∧
       user_space s' own' r) (λ _, True) demo_vmm.
Proof.
  destruct demo_vmm_started as (own & Hi & Hk).
  apply wpe_bind. eapply wpe_create; [exact demo_ks_ok|exact Hi|exact Hk|exact I|].
  intros s1 own1 r (Hg & Hu & _). eapply wpe_mono.
  - apply (vmm_map_user_correct demo_ks s1 own1 r CODE_VA 0x205000 5 demo_ks_ok (gr_inv _ _ _ _ Hg) Hu).
    split; [discriminate|reflexivity].
  - intros u s' (own' & (_ & _ & Ht & _) & Hu'). exists r, own'. split; assumption.
  - intros; exact I.
Defined.

Lemma vmm_map_translate_roundtrip_witness :
  wpe (r ← vmm_create_address_space demo_ks;
       vmm_map_user demo_ks r (CODE_VA + 0x123) 0x205000 5;;
       a ← run (vmm_virt_to_phys_user demo_ks r (CODE_VA + 0x123));
       f ← run (vmm_query_user_flags demo_ks r (CODE_VA + 0x123));
       mret (a, f))
    (λ res _, res = (0x205123, 5)) (λ _, True) demo_vmm.
Proof.
  destruct demo_vmm_started as (own & Hi & Hk).
  apply wpe_bind. eapply wpe_create; [exact demo_ks_ok|exact Hi|exact Hk|exact I|].
  intros s1 own1 r (Hg & Hu & _).
  apply (vmm_map_translate_roundtrip demo_ks s1 own1 r (CODE_VA + 0x123) 0x205000 5 demo_ks_ok
    (gr_inv _ _ _ _ Hg) Hu); (split; [discriminate|reflexivity]).
Defined.

Lemma vmm_unmap_user_correct_witness :
  wpe (r ← vmm_create_address_space demo_ks; run (vmm_unmap_user demo_ks r CODE_VA))
    (λ _ s', ∃ r, translate s' r CODE_VA = Some NotMapped) (λ _, True) demo_vmm.
Proof.
  destruct demo_vmm_started as (own & Hi & Hk).
  apply wpe_bind. eapply wpe_create; [exact demo_ks_ok|exact Hi|exact Hk|exact I|].
  intros s1 own1 r (Hg & Hu & _). apply wpe_run. eapply wp_mono.
  - apply (vmm_unmap_user_correct demo_ks s1 own1 r CODE_VA demo_ks_ok (gr_inv _ _ _ _ Hg) Hu).
    split; [discriminate|reflexivity].
  - intros u s' [[E ->]|(e & _ & (_ & _ & E & _) & _)]; exists r; exact E.
Defined.

Lemma vmm_protect_user_correct_witness :
  wpe (r ← vmm_create_address_space demo_ks; run (vmm_protect_user demo_ks r CODE_VA 4))
    (λ res _, res = -1 ∨ res = 0) (λ _, True) demo_vmm.
Proof.
  destruct demo_vmm_started as (own & Hi & Hk).
  apply wpe_bind. eapply wpe_create; [exact demo_ks_ok|exact Hi|exact Hk|exact I|].
  intros s1 own1 r (Hg & [Hr _] & _). apply wpe_run. eapply wp_mono.
  - apply (vmm_protect_user_correct demo_ks s1 own1 r CODE_VA 4 demo_ks_ok (gr_inv _ _ _ _ Hg) Hr).
    split; [discriminate|reflexivity].
  - intros res s' [(-> & _)|(e & -> & _)]; [left|right]; reflexivity.
Defined.

Lemma vmm_create_correct_witness :
  wpe (vmm_create_address_space demo_ks) (λ r s', translate s' r CODE_VA = Some NotMapped)
    (λ _, True) demo_vmm.
Proof.
  destruct demo_vmm_started as (own & Hi & Hk). eapply wpe_mono.
  - apply (vmm_create_correct demo_ks demo_vmm own demo_ks_ok Hi Hk).
  - intros r s' (own' & _ & _ & _ & E & _). apply E. split; [discriminate|reflexivity].
  - intros; exact I.
Defined.

Lemma vmm_map_correct_witness :
  wpe start_kernel (λ _ s, wpe (vmm_map demo_ks 0xFFFFFFFF80000000 0x110000 0)
      (λ _ s', ∃ e, translate s' (kernel_pml4_phys s) 0xFFFFFFFF80000000 = Some (Leaf e 0xFFF))
      (λ _, True) s) (λ _, True) vm_base.
Proof.
  unfold start_kernel. apply wpe_bind, wpe_alloc_table; [exact demo_ks_ok|reflexivity|exact demo_ready|exact I|].
  intros p pm Hp Hp2 Hfr Hpm Hheld _ _. apply wpe_run, wp_modify.
  destruct (first_root vm_base p pm vm_base_inv Hp Hp2 Hfr Hpm Hheld) as (Hi & Hk & He).
  eapply wpe_mono.
  - apply (vmm_map_correct demo_ks _ _ 0xFFFFFFFF80000000 0x110000 0 demo_ks_ok Hi Hk).
    intros e m E. cbn [kernel_pml4_phys set_kernel_pml4] in E. rewrite He in E. discriminate E.
  - intros u s' (own' & _ & _ & _ & E & _). exists (kernel_pte 0x110000 0). exact E.
  - intros; exact I.
Defined.
