(* ===== verification/Kmem.v ===== *)
(** * Kernel memory primitives

    Translation of [src/src/kernel/kmem.c] over a byte-addressed memory:
    [memcpy], [memset], [memmove] and [memcmp].  Accessing an address that is
    not in the memory is a fault. *)

From S2P Require Import Prelude.

Abbreviation memory := (gmap Z Z).

Definition rd8 (a : Z) : M memory Z := lift_opt (λ m, m !! a).
Definition wr8 (a v : Z) : M memory unit :=
  update_opt (λ m, match m !! a with Some _ => Some (<[a := v]> m) | None => None end).

(** The loop [for (i = 0; i < n; i++) d[i] = s[i]]. *)
Definition copy_up (d s n : Z) : M memory unit :=
  for_ (R := unit) 0 n (λ i, v ← rd8 (s + i); wr8 (d + i) v;; mret None);; mret tt.

Definition memcpy (dst src n : Z) : M memory Z := copy_up dst src n;; mret dst.

Definition memset (dst c n : Z) : M memory Z :=
  for_ (R := unit) 0 n (λ i, wr8 (dst + i) (u8 c);; mret None);; mret dst.

(** The descending loop [for (i = n; i != 0; i--) d[i - 1] = s[i - 1]], as
    [n] iterations counted upwards. *)
Definition copy_down (d s n : Z) : M memory unit :=
  for_ (R := unit) 0 n (λ k,
    let i := n - k in
    v ← rd8 (s + (i - 1)); wr8 (d + (i - 1)) v;; mret None);; mret tt.

Definition memmove (dst src n : Z) : M memory Z :=
  if (dst =? src) || (n =? 0) then mret dst
  else if dst <? src then copy_up dst src n;; mret dst
  else copy_down dst src n;; mret dst.

Definition memcmp (a b n : Z) : M memory Z :=
  r ← for_ 0 n (λ i,
    x ← rd8 (a + i);
    y ← rd8 (b + i);
    mret (if negb (x =? y) then Some (x - y) else None));
  mret (default 0 r).

(** ** Specification *)

(** [n] bytes from [a] on can be accessed. *)
Definition mapped (m : memory) (a n : Z) : Prop := ∀ i, 0 ≤ i < n → is_Some (m !! (a + i)).

(** [m'] is [m] with the [n] bytes at [d] replaced by the bytes [f]. *)
Definition stored (m m' : memory) (d n : Z) (f : Z → option Z) : Prop :=
  (∀ i, 0 ≤ i < n → m' !! (d + i) = f i) ∧
  (∀ a, ¬ (d ≤ a < d + n) → m' !! a = m !! a).

(** Overwriting keeps the set of mapped addresses. *)
Lemma insert_mapped (m : memory) a v b :
  is_Some (m !! a) → is_Some (<[a := v]> m !! b) ↔ is_Some (m !! b).
Proof.
  intros Ha. rewrite lookup_insert_is_Some'. split; [intros [<-|?]; done|auto].
Qed.

Section kmem.
Implicit Types m : memory.

Lemma wp_rd8 m a v (Q : Z → memory → Prop) : m !! a = Some v → Q v m → wp (rd8 a) Q m.
Proof. intros. by eapply wp_lift_opt. Qed.

Lemma wp_wr8 m a v (Q : unit → memory → Prop) :
  is_Some (m !! a) → Q tt (<[a := v]> m) → wp (wr8 a v) Q m.
Proof. intros [x Hx] HQ. eapply wp_update_opt; [by rewrite Hx|done]. Qed.

(** Copying upwards is correct unless it overwrites a source byte it has
    still to read. *)
Lemma wp_copy_up m d s n (Q : unit → memory → Prop) :
  0 ≤ n → mapped m d n → mapped m s n → d ≤ s ∨ s + n ≤ d →
  (∀ m', stored m m' d n (λ i, m !! (s + i)) → Q tt m') →
  wp (copy_up d s n) Q m.
Proof.
  intros Hn Hd Hs Hov HQ. unfold copy_up. apply wp_bind.
  apply (wp_for _ _ _ (λ i m', stored m m' d i (λ i, m !! (s + i)))); [done| | |].
  - split; [intros; lia|done].
  - intros i m' Hi [Hin Hout]. destruct (Hs i ltac:(lia)) as [v Hv].
    assert (m' !! (s + i) = Some v) as Hv' by (rewrite Hout by lia; done).
    apply wp_bind. eapply wp_rd8; [done|]. apply wp_bind, wp_wr8.
    { rewrite Hout by lia. apply Hd. lia. }
    apply wp_ret. split.
    + intros j Hj. destruct (decide (j = i)) as [->|]; [by rewrite lookup_insert_eq|].
      rewrite lookup_insert_ne by lia. apply Hin. lia.
    + intros a Ha. rewrite lookup_insert_ne by lia. apply Hout. lia.
  - intros m' Hst. apply wp_ret. by apply HQ.
Qed.

Lemma wp_copy_down m d s n (Q : unit → memory → Prop) :
  0 ≤ n → mapped m d n → mapped m s n → s ≤ d →
  (∀ m', stored m m' d n (λ i, m !! (s + i)) → Q tt m') →
  wp (copy_down d s n) Q m.
Proof.
  intros Hn Hd Hs Hov HQ. unfold copy_down. apply wp_bind.
  apply (wp_for _ _ _ (λ k m', (∀ i, n - k ≤ i < n → m' !! (d + i) = m !! (s + i)) ∧
    (∀ a, ¬ (d + (n - k) ≤ a < d + n) → m' !! a = m !! a))); [done| | |].
  - split; [intros; lia|done].
  - intros k m' Hk [Hin Hout]. destruct (Hs (n - k - 1) ltac:(lia)) as [v Hv].
    assert (m' !! (s + (n - k - 1)) = Some v) as Hv' by (rewrite Hout by lia; done).
    apply wp_bind. eapply wp_rd8; [done|]. apply wp_bind, wp_wr8.
    { rewrite Hout by lia. apply Hd. lia. }
    apply wp_ret. split.
    + intros j Hj. destruct (decide (j = n - k - 1)) as [->|]; [by rewrite lookup_insert_eq|].
      rewrite lookup_insert_ne by lia. apply Hin. lia.
    + intros a Ha. rewrite lookup_insert_ne by lia. apply Hout. lia.
  - intros m' [Hin Hout]. apply wp_ret, HQ. split; [intros; apply Hin; lia|].
    intros a Ha. apply Hout. lia.
Qed.

Lemma wp_memset m d c n (Q : Z → memory → Prop) :
  0 ≤ n → mapped m d n → (∀ m', stored m m' d n (λ _, Some (u8 c)) → Q d m') →
  wp (memset d c n) Q m.
Proof.
  intros Hn Hd HQ. unfold memset. apply wp_bind.
  apply (wp_for _ _ _ (λ i m', stored m m' d i (λ _, Some (u8 c)))); [done| | |].
  - split; [intros; lia|done].
  - intros i m' Hi [Hin Hout]. apply wp_bind, wp_wr8.
    { rewrite Hout by lia. apply Hd. lia. }
    apply wp_ret. split.
    + intros j Hj. destruct (decide (j = i)) as [->|]; [by rewrite lookup_insert_eq|].
      rewrite lookup_insert_ne by lia. apply Hin. lia.
    + intros a Ha. rewrite lookup_insert_ne by lia. apply Hout. lia.
  - intros m' Hst. apply wp_ret. by apply HQ.
Qed.

(** [memmove] copies correctly for every overlap of the two regions:
    afterwards the destination holds the bytes the source held before the
    call, and no byte outside the destination has changed. *)
Theorem memmove_correct m dst src n :
  0 ≤ n → mapped m dst n → mapped m src n →
  wp (memmove dst src n) (λ r m', r = dst ∧ stored m m' dst n (λ i, m !! (src + i))) m.
Proof.
  intros Hn Hd Hs. unfold memmove.
  destruct (Z.eqb_spec dst src) as [->|Hne]; [apply wp_ret; split; done|]. simpl.
  destruct (Z.eqb_spec n 0) as [->|Hn0]; [apply wp_ret; split; [done|split; [intros; lia|done]]|].
  destruct (Z.ltb_spec dst src); apply wp_bind.
  - apply wp_copy_up; [done..|by left; lia|]. intros m' Hst. by apply wp_ret.
  - apply wp_copy_down; [done..|lia|]. intros m' Hst. by apply wp_ret.
Qed.

(** [memcmp] returns 0 exactly when the two regions are equal, and
    otherwise the difference of the first pair of bytes that differ. *)
Theorem memcmp_correct m a b n :
  0 ≤ n → mapped m a n → mapped m b n →
  wp (memcmp a b n) (λ r m', m' = m ∧
    ((r = 0 ∧ ∀ i, 0 ≤ i < n → m !! (a + i) = m !! (b + i)) ∨
     ∃ i x y, 0 ≤ i < n ∧ m !! (a + i) = Some x ∧ m !! (b + i) = Some y ∧ x ≠ y ∧ r = x - y ∧
       ∀ j, 0 ≤ j < i → m !! (a + j) = m !! (b + j))) m.
Proof.
  intros Hn Ha Hb. unfold memcmp. apply wp_bind.
  apply (wp_for _ _ _ (λ i m', m' = m ∧ ∀ j, 0 ≤ j < i → m !! (a + j) = m !! (b + j))); [done| | |].
  - split; [done|intros; lia].
  - intros i m' Hi [-> Heq]. destruct (Ha i Hi) as [x Hx], (Hb i Hi) as [y Hy].
    apply wp_bind. eapply wp_rd8; [done|]. apply wp_bind. eapply wp_rd8; [done|]. apply wp_ret.
    destruct (Z.eqb_spec x y) as [->|Hne]; simpl.
    + split; [done|]. intros j Hj. destruct (decide (j = i)) as [->|]; [congruence|]. apply Heq. lia.
    + apply wp_ret. split; [done|]. right. by exists i, x, y.
  - intros m' [-> Heq]. apply wp_ret. split; [done|]. left. split; [done|]. done.
Qed.
End kmem.

(** ** Instances on a memory of 16 bytes *)

Definition demo_mem : memory := list_to_map ((λ i, (i, u8 (i * i))) <$> seqZ 0 16).

Definition demo_byte (j : Z) : bool :=
  match demo_mem !! j with Some _ => true | None => false end.

Lemma demo_bytes : forallb demo_byte (seqZ 0 16) = true.
Proof. vm_compute. reflexivity. Qed.

Lemma demo_mapped a n : 0 ≤ a → a + n ≤ 16 → mapped demo_mem a n.
Proof.
  intros Ha Hn i Hi. pose proof (forall_range 16 demo_byte demo_bytes (a + i) ltac:(lia)) as Hj.
  unfold demo_byte in Hj. destruct (demo_mem !! (a + i)); [eauto|discriminate Hj].
Qed.

Lemma memmove_correct_witness :
  wp (memmove 3 1 8) (λ r m', r = 3 ∧ m' !! 9 = Some 49) demo_mem.
Proof.
  eapply wp_mono; [apply (memmove_correct demo_mem 3 1 8);
    [discriminate|apply demo_mapped; discriminate|apply demo_mapped; discriminate]|].
  intros r m' (-> & Hin & _). split; [reflexivity|].
  change 9 with (3 + 6). rewrite (Hin 6) by (split; [discriminate|reflexivity]). vm_compute. reflexivity.
Defined.

Lemma memcmp_correct_witness :
  wp (memcmp 1 0 4) (λ r m', m' = demo_mem) demo_mem.
Proof.
  eapply wp_mono; [apply (memcmp_correct demo_mem 1 0 4);
    [discriminate|apply demo_mapped; discriminate|apply demo_mapped; discriminate]|].
  intros r m' (-> & _). reflexivity.
Defined.
