(* ===== verification/Heap.v ===== *)
(** * Kernel heap

    Translation of [src/src/kernel/mm/heap.c]: a bump allocator with an
    8-byte header before each block, on a region taken from the physical
    memory manager.  The bytes of the machine are addressed by virtual
    address. *)

From S2P Require Import Prelude Kmem Pmm PmmInv Vmm.

Definition HEAP_MAGIC : Z := 0xC0FFEE42.

Record heap := Heap {
  heap_start : Z;
  heap_end : Z;
  heap_curr : Z;
  hp_mem : memory;
  hp_pmm : pmm
}.

Definition set_region (st en cu : Z) (h : heap) : heap :=
  Heap st en cu (hp_mem h) (hp_pmm h).
Definition set_curr (cu : Z) (h : heap) : heap :=
  Heap (heap_start h) (heap_end h) cu (hp_mem h) (hp_pmm h).

(** Programs on the bytes and on the page allocator, inside the heap's state. *)
Definition on_mem {A} (m : M memory A) : M heap A := λ h,
  match m (hp_mem h) with
  | Some (a, m') => Some (a, Heap (heap_start h) (heap_end h) (heap_curr h) m' (hp_pmm h))
  | None => None
  end.
Definition on_pmm {A} (m : M pmm A) : M heap A := λ h,
  match m (hp_pmm h) with
  | Some (a, p) => Some (a, Heap (heap_start h) (heap_end h) (heap_curr h) (hp_mem h) p)
  | None => None
  end.

(** A 32-bit little-endian word. *)
Definition wr32 (a v : Z) : M memory unit :=
  wr8 a (u8 v);; wr8 (a + 1) (u8 (Z.shiftr v 8));;
  wr8 (a + 2) (u8 (Z.shiftr v 16));; wr8 (a + 3) (u8 (Z.shiftr v 24)).
Definition rd32 (a : Z) : M memory Z :=
  b0 ← rd8 a; b1 ← rd8 (a + 1); b2 ← rd8 (a + 2); b3 ← rd8 (a + 3);
  mret (b0 + 2 ^ 8 * b1 + 2 ^ 16 * b2 + 2 ^ 24 * b3).

(** The loop over [sizes]: the first allocation that succeeds. *)
Fixpoint heap_try (sizes : list Z) : M heap (Z * Z) :=
  match sizes with
  | [] => mret (0, 0)
  | n :: sizes =>
      phys ← on_pmm (pmm_alloc_pages n);
      if negb (phys =? 0) then mret (vmm_phys_to_virt phys, n) else heap_try sizes
  end.

Definition heap_init : M heap unit :=
  modify (set_region 0 0 0);;
  r ← heap_try [256; 128; 64; 32; 16; 8; 4; 2; 1];
  let '(start, pages) := r in
  if (start =? 0) || (pages =? 0) then modify (set_region start 0 0)
  else modify (set_region start (u64 (start + pages * PAGE_SIZE)) start).

Definition kmalloc (size : Z) : M heap Z :=
  if size =? 0 then mret 0
  else
    let total := u64 (8 + size) in
    let aligned := align_up total 16 in
    curr ← gets heap_curr;
    end_ ← gets heap_end;
    if end_ <? u64 (curr + aligned) then mret 0
    else
      on_mem (wr32 curr HEAP_MAGIC);;
      on_mem (wr32 (curr + 4) (u32 size));;
      modify (set_curr (u64 (curr + aligned)));;
      mret (u64 (curr + 8)).

Definition kfree (ptr : Z) : M heap unit := mret tt.

Definition krealloc (ptr new_size : Z) : M heap Z :=
  if ptr =? 0 then kmalloc new_size
  else if new_size =? 0 then mret 0
  else
    magic ← on_mem (rd32 (ptr - 8));
    old_size ← (if magic =? HEAP_MAGIC then on_mem (rd32 (ptr - 4)) else mret 0);
    new_ptr ← kmalloc new_size;
    if new_ptr =? 0 then mret 0
    else
      let copy := if old_size <? new_size then old_size else new_size in
      (if negb (copy =? 0) then on_mem (memcpy new_ptr ptr copy);; mret tt else mret tt);;
      mret new_ptr.

(** ** Invariant *)

(** The region is accessible, and far from the end of the address space. *)
Record heap_inv (h : heap) : Prop := {
  hi_order : 0 < heap_start h ∧ heap_start h ≤ heap_curr h ∧ heap_curr h ≤ heap_end h;
  hi_top : heap_end h + 2 ^ 34 ≤ 2 ^ 64;
  hi_align : (16 | heap_curr h);
  hi_mapped : mapped (hp_mem h) (heap_start h) (heap_end h - heap_start h)
}.

(** The header of the block at [p] records the size [n]. *)
Definition hdr_bytes (m : memory) (p n : Z) : Prop :=
  rd32 (p - 8) m = Some (HEAP_MAGIC, m) ∧ rd32 (p - 4) m = Some (n, m).

Lemma rd32_bytes m a b0 b1 b2 b3 :
  m !! a = Some b0 → m !! (a + 1) = Some b1 → m !! (a + 2) = Some b2 → m !! (a + 3) = Some b3 →
  rd32 a m = Some (b0 + 2 ^ 8 * b1 + 2 ^ 16 * b2 + 2 ^ 24 * b3, m).
Proof.
  intros H0 H1 H2 H3. unfold rd32, rd8, lift_opt, mbind, M_bind. by rewrite H0, H1, H2, H3.
Qed.

(** The four bytes of a 32-bit value. *)
Lemma le32 v : 0 ≤ v < 2 ^ 32 →
  u8 v + 2 ^ 8 * u8 (Z.shiftr v 8) + 2 ^ 16 * u8 (Z.shiftr v 16) + 2 ^ 24 * u8 (Z.shiftr v 24) = v.
Proof.
  intros Hv. unfold u8. rewrite !Z.shiftr_div_pow2 by lia.
  Z.to_euclidean_division_equations. lia.
Qed.

Lemma wp_wr32 m a v (Q : unit → memory → Prop) :
  0 ≤ v < 2 ^ 32 → mapped m a 4 →
  (∀ m', rd32 a m' = Some (v, m') → (∀ b, ¬ (a ≤ b < a + 4) → m' !! b = m !! b) →
     (∀ b, is_Some (m' !! b) ↔ is_Some (m !! b)) → Q tt m') →
  wp (wr32 a v) Q m.
Proof.
  intros Hv Hm HQ. unfold wr32.
  assert (is_Some (m !! a)) as S0 by (replace a with (a + 0) by lia; apply Hm; lia).
  assert (is_Some (m !! (a + 1)) ∧ is_Some (m !! (a + 2)) ∧ is_Some (m !! (a + 3))) as (S1 & S2 & S3)
    by (repeat split; apply Hm; lia).
  set (w1 := u8 v). set (w2 := u8 (Z.shiftr v 8)). set (w3 := u8 (Z.shiftr v 16)). set (w4 := u8 (Z.shiftr v 24)).
  apply wp_bind, wp_wr8; [done|]. apply wp_bind, wp_wr8; [by rewrite lookup_insert_ne by lia|].
  apply wp_bind, wp_wr8; [by rewrite !lookup_insert_ne by lia|].
  apply wp_wr8; [by rewrite !lookup_insert_ne by lia|]. apply HQ.
  - pose proof (le32 v Hv) as Ele. fold w1 w2 w3 w4 in Ele.
    erewrite (rd32_bytes _ a w1 w2 w3 w4); [by rewrite Ele|..];
      rewrite ?lookup_insert_ne by lia; by rewrite lookup_insert_eq.
  - intros b Hb. by rewrite !lookup_insert_ne by lia.
  - intros b. rewrite !insert_mapped; rewrite ?lookup_insert_ne by lia; done.
Qed.

Lemma wp_on_mem {A} (m : M memory A) (Q : A → heap → Prop) h :
  wp m (λ a m', Q a (Heap (heap_start h) (heap_end h) (heap_curr h) m' (hp_pmm h))) (hp_mem h) →
  wp (on_mem m) Q h.
Proof. unfold wp, on_mem. by destruct (m (hp_mem h)) as [[a m']|]. Qed.

Lemma rd32_frame m m' a v :
  rd32 a m = Some (v, m) → (∀ b, a ≤ b < a + 4 → m' !! b = m !! b) → rd32 a m' = Some (v, m').
Proof.
  intros H Hf. unfold rd32, rd8, lift_opt, mbind, M_bind in H.
  destruct (m !! a) as [b0|] eqn:E0; [|done]. destruct (m !! (a + 1)) as [b1|] eqn:E1; [|done].
  destruct (m !! (a + 2)) as [b2|] eqn:E2; [|done]. destruct (m !! (a + 3)) as [b3|] eqn:E3; [|done].
  injection H as <-. apply rd32_bytes; by rewrite Hf by lia.
Qed.

(** ** [kmalloc] *)

Definition block_size (n : Z) : Z := align_up (u64 (8 + n)) 16.

Lemma block_size_bounds n :
  0 < n < 2 ^ 32 → 8 + n ≤ block_size n < n + 24 ∧ (16 | block_size n).
Proof.
  intros Hn. unfold block_size. rewrite u64_small by lia.
  destruct (align_up_bounds (8 + n) 4) as [? ?]; [lia..|]. change (2 ^ 4) with 16 in *.
  split; [lia|done].
Qed.

(** The effect of allocating the block at [p] of [n] bytes: it lies between
    the old and the new end of the used part, its header records its size, and
    the used part below is untouched. *)
Record allocated (h h' : heap) (p n : Z) : Prop := {
  al_inv : heap_inv h';
  al_ptr : p = heap_curr h + 8;
  al_curr : heap_curr h' = heap_curr h + block_size n;
  al_room : p + n ≤ heap_curr h' ∧ heap_curr h' ≤ heap_end h';
  al_region : heap_start h' = heap_start h ∧ heap_end h' = heap_end h;
  al_hdr : hdr_bytes (hp_mem h') p n;
  al_frame : ∀ a, ¬ (heap_curr h ≤ a < p) → hp_mem h' !! a = hp_mem h !! a
}.

Lemma wp_kmalloc h n (Q : Z → heap → Prop) :
  heap_inv h → 0 < n < 2 ^ 32 →
  (heap_end h < heap_curr h + block_size n → Q 0 h) →
  (∀ h' p, allocated h h' p n → Q p h') →
  wp (kmalloc n) Q h.
Proof.
  intros [Ho Ht Ha Hm] Hn H0 HQ. unfold kmalloc. fold (block_size n).
  destruct (block_size_bounds n Hn) as [Hb Hb16].
  rewrite (proj2 (Z.eqb_neq n 0)) by lia. wp_steps.
  rewrite (u64_small (heap_curr h + block_size n)), (u64_small (heap_curr h + 8)) by lia.
  destruct (Z.ltb_spec (heap_end h) (heap_curr h + block_size n)); [by apply wp_ret, H0|].
  assert (∀ a, heap_start h ≤ a < heap_end h → is_Some (hp_mem h !! a)) as Hmp.
  { intros a Har. replace a with (heap_start h + (a - heap_start h)) by lia. apply Hm. lia. }
  apply wp_bind, wp_on_mem, wp_wr32; [unfold HEAP_MAGIC; lia|intros i Hi; apply Hmp; lia|].
  intros m1 Hr1 Hf1 Hd1. apply wp_bind, wp_on_mem. simpl. rewrite (u32_small n) by lia.
  apply wp_wr32; [lia|intros i Hi; apply Hd1, Hmp; lia|]. intros m2 Hr2 Hf2 Hd2.
  wp_steps. apply HQ. split; simpl; try done; try lia.
  - split; simpl; [lia|done|by apply Z.divide_add_r|]. intros i Hi. by apply Hd2, Hd1, Hm.
  - split.
    + replace (heap_curr h + 8 - 8) with (heap_curr h) by lia.
      apply (rd32_frame m1); [done|]. intros b Hbb. apply Hf2. lia.
    + by replace (heap_curr h + 8 - 4) with (heap_curr h + 4) by lia.
  - intros a Har. rewrite Hf2, Hf1 by lia. done.
Qed.

(** A run of allocations. *)
Fixpoint kmallocs (ns : list Z) : M heap (list (Z * Z)) :=
  match ns with
  | [] => mret []
  | n :: ns => p ← kmalloc n; ps ← kmallocs ns; mret ((p, n) :: ps)
  end.

(** ** Properties *)


(** The blocks returned by any sequence of [kmalloc] calls lie inside the
    heap and, headers included, do not overlap. *)
Theorem kmalloc_blocks_disjoint h ns :
  heap_inv h → Forall (λ n, 0 < n < 2 ^ 32) ns →
  wp (kmallocs ns) (λ ps h', heap_inv h' ∧
    Forall (λ '(p, n), p = 0 ∨ heap_curr h + 8 ≤ p ∧ p + n ≤ heap_end h) ps ∧
    ForallOrdPairs (λ '(p, n) '(q, k), p = 0 ∨ q = 0 ∨ p + n ≤ q - 8) ps) h.
Proof.
  intros Hi Hn. revert h Hi. induction Hn as [|n ns Hn _ IH]; intros h Hi; cbn [kmallocs].
  { apply wp_ret. split; [done|]. split; constructor. }
  assert (∀ h' p, heap_inv h' → heap_end h' = heap_end h → heap_curr h ≤ heap_curr h' →
    (p = 0 ∨ heap_curr h + 8 ≤ p ∧ p + n ≤ heap_curr h' ∧ heap_curr h' ≤ heap_end h) →
    wp (ps ← kmallocs ns; mret ((p, n) :: ps)) (λ ps h', heap_inv h' ∧
      Forall (λ '(p, n), p = 0 ∨ heap_curr h + 8 ≤ p ∧ p + n ≤ heap_end h) ps ∧
      ForallOrdPairs (λ '(p, n) '(q, k), p = 0 ∨ q = 0 ∨ p + n ≤ q - 8) ps) h') as Hrest.
  { intros h' p Hi' He Hc Hp. apply wp_bind. eapply wp_mono; [by apply IH|].
    intros ps h2 (Hi2 & Hps & Hord). rewrite He in Hps. apply wp_ret. split; [done|]. split.
    - constructor; [lia|]. eapply Forall_impl; [exact Hps|]. intros [q k]. lia.
    - constructor; [|done]. rewrite Stdlib.Lists.List.Forall_forall.
      intros [q k] Hq%list_elem_of_In. rewrite Forall_forall in Hps. specialize (Hps _ Hq). simpl in Hps. lia. }
  apply wp_bind, wp_kmalloc; [done..| |].
  - intros _. apply Hrest; [done|done|lia|by left].
  - intros h' p [Hi' -> Hc [Hr1 Hr2] [Hs He] _ _]. destruct (block_size_bounds n Hn).
    apply Hrest; [done|done|lia|]. right. lia.
Qed.

(** [krealloc] of a live block either returns null and leaves the heap
    as it was, or returns a new block of the new size whose first bytes, up to
    the smaller of the two sizes, are those of the old block. *)
Theorem krealloc_correct h p n k :
  heap_inv h → 0 < k < 2 ^ 32 → 0 ≤ n < 2 ^ 32 →
  heap_start h + 8 ≤ p → p + n ≤ heap_curr h → hdr_bytes (hp_mem h) p n →
  wp (krealloc p k) (λ q h',
    (q = 0 ∧ h' = h) ∨
    (q = heap_curr h + 8 ∧ heap_inv h' ∧ q + k ≤ heap_curr h' ∧ heap_curr h' ≤ heap_end h ∧
     (∀ i, 0 ≤ i < Z.min n k → hp_mem h' !! (q + i) = hp_mem h !! (p + i)) ∧
     (∀ a, ¬ (heap_curr h ≤ a < heap_curr h') → hp_mem h' !! a = hp_mem h !! a))) h.
Proof.
  intros Hi Hk Hn Hp Hpn [Hm Hs]. pose proof Hi as [Ho Ht Ha Hmp]. unfold krealloc.
  rewrite (proj2 (Z.eqb_neq p 0)), (proj2 (Z.eqb_neq k 0)) by lia.
  assert (∀ a v, rd32 a (hp_mem h) = Some (v, hp_mem h) → ∀ Q : Z → heap → Prop, Q v h → wp (on_mem (rd32 a)) Q h) as Hrd.
  { intros a v E Q HQ. apply wp_on_mem. unfold wp. rewrite E. by destruct h. }
  apply wp_bind. eapply Hrd; [done|]. rewrite Z.eqb_refl. apply wp_bind. eapply Hrd; [done|].
  apply wp_bind, wp_kmalloc; [done..|intros _; apply wp_ret; by left|].
  intros h1 q [Hi1 -> Hc [Hr1 Hr2] [Hst Hen] _ Hf].
  rewrite (proj2 (Z.eqb_neq (heap_curr h + 8) 0)) by lia.
  replace (if n <? k then n else k) with (Z.min n k) by (bool_cases; lia).
  destruct (Z.eqb_spec (Z.min n k) 0) as [E|Hne]; simpl.
  - wp_steps. right. split; [done|]. split; [done|]. split; [lia|]. split; [lia|].
    split; [intros; lia|]. intros a Haa. apply Hf. destruct (block_size_bounds k Hk). lia.
  - destruct Hi1 as [Ho1 Ht1 Ha1 Hm1]. destruct (block_size_bounds k Hk).
    assert (∀ a l, heap_start h ≤ a → a + l ≤ heap_end h → mapped (hp_mem h1) a l) as Hsub.
    { intros a l Hal Hah i Hii. replace (a + i) with (heap_start h1 + (a + i - heap_start h1)) by lia.
      apply Hm1. lia. }
    apply wp_bind, wp_bind, wp_on_mem, wp_bind. apply wp_copy_up; [lia|apply Hsub; lia|apply Hsub; lia|right; lia|].
    intros m' [Hin Hout]. wp_steps. right. simpl.
    split; [done|]. split.
    { split; simpl; [lia|lia|done|]. intros i Hii.
      destruct (decide (heap_curr h + 8 ≤ heap_start h1 + i < heap_curr h + 8 + Z.min n k)) as [Hd|Hd].
      - replace (heap_start h1 + i) with (heap_curr h + 8 + (heap_start h1 + i - (heap_curr h + 8))) by lia.
        rewrite Hin by lia. apply (Hsub p n); lia.
      - rewrite Hout by done. by apply Hm1. }
    split; [lia|]. split; [lia|]. split.
    + intros i Hii. rewrite Hin by done. apply Hf. lia.
    + intros a Haa. rewrite Hout by lia. apply Hf. lia.
Qed.

(** The size computation of [kmalloc] wraps around: a request for
    2{^64} - 8 bytes succeeds without reserving a single byte. *)
Theorem kmalloc_size_wraps h :
  heap_inv h → 8 ≤ heap_end h - heap_curr h →
  wp (kmalloc (2 ^ 64 - 8)) (λ p h', p = heap_curr h + 8 ∧ heap_curr h' = heap_curr h) h.
Proof.
  intros [Ho Ht Ha Hm] Hroom. unfold kmalloc. cbv zeta.
  assert (align_up (u64 (8 + (2 ^ 64 - 8))) 16 = 0) as -> by reflexivity.
  assert ((2 ^ 64 - 8 =? 0) = false) as -> by reflexivity. wp_steps. rewrite Z.add_0_r, (u64_small (heap_curr h)), (u64_small (heap_curr h + 8)) by lia.
  rewrite (proj2 (Z.ltb_ge (heap_end h) (heap_curr h))) by lia.
  assert (∀ a, heap_start h ≤ a < heap_end h → is_Some (hp_mem h !! a)) as Hmp.
  { intros a Har. replace a with (heap_start h + (a - heap_start h)) by lia. apply Hm. lia. }
  apply wp_bind, wp_on_mem, wp_wr32; [unfold HEAP_MAGIC; lia|intros i Hi; apply Hmp; lia|].
  intros m1 _ _ Hd1. apply wp_bind, wp_on_mem, wp_wr32; [apply u32_range|intros i Hi; apply Hd1, Hmp; lia|].
  intros m2 _ _ _. wp_steps. done.
Qed.

(** ** Instances on a heap of 256 bytes *)

Definition demo_heap : heap :=
  Heap 0x1000 0x1100 0x1000 (list_to_map ((λ i, (0x1000 + i, 0)) <$> seqZ 0 256)) pmm_zero.

Definition demo_heap_byte (j : Z) : bool :=
  match hp_mem demo_heap !! (0x1000 + j) with Some _ => true | None => false end.

Lemma demo_heap_bytes : forallb demo_heap_byte (seqZ 0 256) = true.
Proof. vm_compute. reflexivity. Qed.

Lemma demo_heap_inv : heap_inv demo_heap.
Proof.
  split; [done|done|by exists 256|]. intros i Hi.
  pose proof (forall_range 256 demo_heap_byte demo_heap_bytes i Hi) as Hj. unfold demo_heap_byte in Hj.
  change (heap_start demo_heap) with 0x1000.
  destruct (hp_mem demo_heap !! (0x1000 + i)); [eauto|discriminate Hj].
Qed.


Lemma kmalloc_blocks_disjoint_witness :
  wp (kmallocs [20; 100; 60; 90]) (λ ps h', heap_inv h' ∧
    Forall (λ '(p, n), p = 0 ∨ 0x1008 ≤ p ∧ p + n ≤ 0x1100) ps ∧
    ForallOrdPairs (λ '(p, n) '(q, k), p = 0 ∨ q = 0 ∨ p + n ≤ q - 8) ps) demo_heap.
Proof.
  apply (kmalloc_blocks_disjoint demo_heap [20; 100; 60; 90] demo_heap_inv).
  repeat (constructor; [lia|]). constructor.
Defined.

Lemma krealloc_correct_witness :
  wp (p ← kmalloc 20; krealloc p 40) (λ q h', q = 0x1028 ∨ q = 0) demo_heap.
Proof.
  apply wp_bind. apply wp_kmalloc; [exact demo_heap_inv|lia| |].
  - intros Hbad. vm_compute in Hbad. discriminate Hbad.
  - intros h1 p [Hi -> Hc [H1 H2] [Hs He] Hh _]. eapply wp_mono.
    + apply (krealloc_correct h1 (heap_curr demo_heap + 8) 20 40 Hi);
        [lia|lia|rewrite Hs; reflexivity|exact H1|exact Hh].
    + intros q h2 [[-> _]|(-> & _)]; [right; reflexivity|left]. rewrite Hc. vm_compute. reflexivity.
Defined.

Lemma kmalloc_size_wraps_witness :
  wp (kmalloc (2 ^ 64 - 8)) (λ p h', p = 0x1008 ∧ heap_curr h' = 0x1000) demo_heap.
Proof. apply (kmalloc_size_wraps demo_heap demo_heap_inv). vm_compute. discriminate. Defined.
