(* ===== verification/Rtc.v ===== *)
(** * Real-time clock

    Translation of [src/src/drivers/timer/rtc.c].  The CMOS is a parameter of
    the state: [cmos k reg] is what register [reg] holds at the [k]-th read,
    so that an update may happen between any two reads.  The NMI-disable bit
    that [cmos_read] preserves on port 0x70 does not select a register. *)

From S2P Require Import Prelude.

Definition RTC_SEC : Z := 0x00.
Definition RTC_MIN : Z := 0x02.
Definition RTC_HOUR : Z := 0x04.
Definition RTC_DAY : Z := 0x07.
Definition RTC_MONTH : Z := 0x08.
Definition RTC_YEAR : Z := 0x09.
Definition RTC_CENTURY : Z := 0x32.
Definition RTC_STATUS_A : Z := 0x0A.
Definition RTC_STATUS_B : Z := 0x0B.

Record rtc_time := RtcTime {
  t_year : Z; t_month : Z; t_day : Z; t_hour : Z; t_minute : Z; t_second : Z
}.

Record rtc_hw := RtcHw { cmos : nat → Z → Z; cmos_reads : nat; g_boot_epoch_sec : Z }.

Definition cmos_read (reg : Z) : M rtc_hw Z := λ h,
  Some (u8 (cmos h (cmos_reads h) (Z.land reg 0x7F)),
        RtcHw (cmos h) (S (cmos_reads h)) (g_boot_epoch_sec h)).

Definition bcd_to_bin (bcd : Z) : Z := u8 (Z.shiftr bcd 4 * 10 + Z.land bcd 0x0F).

Definition rtc_updating : M rtc_hw bool :=
  a ← cmos_read RTC_STATUS_A; mret (negb (Z.land a 0x80 =? 0)).

(** [while (rtc_updating() && --timeout > 0)] *)
Definition rtc_wait : M rtc_hw unit :=
  while 10001 (λ timeout,
    busy ← rtc_updating;
    if busy : bool then
      let timeout := timeout - 1 in
      if 0 <? timeout then mret (inl timeout) else mret (inr tt)
    else mret (inr tt)) 10000.

Record rtc_raw := RtcRaw { r_sec : Z; r_min : Z; r_hour : Z; r_day : Z; r_month : Z; r_year : Z }.

Definition read_fields : M rtc_hw rtc_raw :=
  sec ← cmos_read RTC_SEC;
  min ← cmos_read RTC_MIN;
  hour ← cmos_read RTC_HOUR;
  day ← cmos_read RTC_DAY;
  month ← cmos_read RTC_MONTH;
  year ← cmos_read RTC_YEAR;
  mret (RtcRaw sec min hour day month year).

Definition raw_differ (a b : rtc_raw) : bool :=
  negb (r_sec a =? r_sec b) || negb (r_min a =? r_min b) || negb (r_hour a =? r_hour b) ||
  negb (r_day a =? r_day b) || negb (r_month a =? r_month b) || negb (r_year a =? r_year b).

Definition decode_fields (bcd : bool) (r : rtc_raw) : rtc_raw :=
  if bcd then
    RtcRaw (bcd_to_bin (r_sec r)) (bcd_to_bin (r_min r)) (bcd_to_bin (Z.land (r_hour r) 0x7F))
      (bcd_to_bin (r_day r)) (bcd_to_bin (r_month r)) (bcd_to_bin (r_year r))
  else
    RtcRaw (r_sec r) (r_min r) (Z.land (r_hour r) 0x7F) (r_day r) (r_month r) (r_year r).

(** [rtc_read] with a non-null argument, which returns 0. *)
Definition rtc_read : M rtc_hw rtc_time :=
  rtc_wait;;
  r1 ← read_fields;
  r2 ← read_fields;
  r ← (if raw_differ r1 r2 then read_fields else mret r1);
  status_b ← cmos_read RTC_STATUS_B;
  let bcd := Z.land status_b 0x04 =? 0 in
  let h24 := negb (Z.land status_b 0x02 =? 0) in
  let r := decode_fields bcd r in
  hour ← (if negb h24 then
            h ← cmos_read RTC_HOUR;
            mret (if negb (Z.land h 0x80 =? 0) then Z.rem (r_hour r) 12 + 12 else r_hour r)
          else mret (r_hour r));
  century_raw ← cmos_read RTC_CENTURY;
  let century := if (0x19 <=? century_raw) && (century_raw <=? 0x21)
                 then (if bcd then bcd_to_bin century_raw else century_raw) else 20 in
  mret (RtcTime (u16 (century * 100 + r_year r)) (r_month r) (r_day r) (u8 hour)
          (r_min r) (r_sec r)).

(** [int64_t] arithmetic; C division truncates. *)
Definition rtc_to_epoch (t : rtc_time) : Z :=
  let y := t_year t in
  let m := t_month t in
  let d := t_day t in
  let '(y, m) := if m <=? 2 then (y - 1, m + 12) else (y, m) in
  let era_days := 365 * y + Z.quot y 4 - Z.quot y 100 + Z.quot y 400 in
  let month_days := Z.quot (153 * (m - 3) + 2) 5 + d in
  let total_days := era_days + month_days - 719469 in
  total_days * 86400 + t_hour t * 3600 + t_minute t * 60 + t_second t.

Definition rtc_init : M rtc_hw unit :=
  t ← rtc_read;
  modify (λ h, RtcHw (cmos h) (cmos_reads h) (rtc_to_epoch t)).

Definition rtc_boot_epoch_sec : M rtc_hw Z := gets g_boot_epoch_sec.

(** ** The Gregorian calendar *)

Definition leap (y : Z) : bool :=
  (y mod 4 =? 0) && (negb (y mod 100 =? 0) || (y mod 400 =? 0)).

Definition days_in_month (y m : Z) : Z :=
  if m =? 2 then (if leap y then 29 else 28)
  else if (m =? 4) || (m =? 6) || (m =? 9) || (m =? 11) then 30 else 31.

(** Days from 1 January 1970 to 1 January of the year [1970 + k]. *)
Fixpoint days_to_year (k : nat) : Z :=
  match k with
  | O => 0
  | S k => days_to_year k + (if leap (1970 + Z.of_nat k) then 366 else 365)
  end.

(** Days from the start of the year to the start of month [k + 1]. *)
Fixpoint days_to_month (y : Z) (k : nat) : Z :=
  match k with
  | O => 0
  | S k => days_to_month y k + days_in_month y (Z.of_nat k + 1)
  end.

(** Seconds since the epoch, by counting days. *)
Definition calendar_epoch (t : rtc_time) : Z :=
  (days_to_year (Z.to_nat (t_year t - 1970)) +
   days_to_month (t_year t) (Z.to_nat (t_month t - 1)) + (t_day t - 1)) * 86400 +
  t_hour t * 3600 + t_minute t * 60 + t_second t.

(** Leap-year terms of the day count. *)
Definition leaps (y : Z) : Z := y / 4 - y / 100 + y / 400.

Lemma leaps_step y : leaps y = leaps (y - 1) + if leap y then 1 else 0.
Proof.
  unfold leaps, leap.
  assert (∀ n, 0 < n → y / n = (y - 1) / n + if y mod n =? 0 then 1 else 0) as H.
  { intros n Hn. destruct (Z.eqb_spec (y mod n) 0).
    - Z.to_euclidean_division_equations. nia.
    - pose proof (Z.div_mod y n ltac:(lia)). pose proof (Z.mod_pos_bound y n Hn).
      rewrite <-(Z.div_unique_pos (y - 1) n (y / n) (y mod n - 1)); lia. }
  rewrite (H 4), (H 100), (H 400) by lia.
  destruct (Z.eqb_spec (y mod 4) 0), (Z.eqb_spec (y mod 100) 0), (Z.eqb_spec (y mod 400) 0); simpl;
    try lia; exfalso; Z.to_euclidean_division_equations; lia.
Qed.

Lemma days_to_year_formula k :
  days_to_year k = 365 * Z.of_nat k + leaps (1969 + Z.of_nat k) - leaps 1969.
Proof.
  induction k as [|k IH]; [done|]. cbn [days_to_year].
  rewrite (leaps_step (1969 + Z.of_nat (S k))).
  replace (1969 + Z.of_nat (S k)) with (1970 + Z.of_nat k) by lia.
  replace (1970 + Z.of_nat k - 1) with (1969 + Z.of_nat k) by lia.
  destruct (leap _); lia.
Qed.

(** Evaluate the closed parts of a day count. *)
Ltac eval_consts :=
  repeat match goal with
  | |- context [Z.to_nat ?a] => let v := eval vm_compute in (Z.to_nat a) in change (Z.to_nat a) with v
  | |- context [Z.leb ?a ?b] => let v := eval vm_compute in (Z.leb a b) in change (Z.leb a b) with v
  end;
  cbv beta iota; cbn [days_to_month]; unfold days_in_month;
  repeat match goal with
  | |- context [Z.eqb ?a ?b] => let v := eval vm_compute in (Z.eqb a b) in change (Z.eqb a b) with v
  | |- context [Z.quot ?a ?b] => let v := eval vm_compute in (Z.quot a b) in change (Z.quot a b) with v
  end; cbn [orb]; cbv iota.

(** ** Properties *)

(** C39: [rtc_to_epoch] agrees with the Gregorian calendar: for every date
    from 1970 on it is the number of seconds obtained by counting the days of
    the years and months since 1 January 1970. *)
Theorem rtc_to_epoch_calendar t :
  1970 ≤ t_year t → 1 ≤ t_month t ≤ 12 → rtc_to_epoch t = calendar_epoch t.
Proof.
  intros Hy Hm. unfold rtc_to_epoch, calendar_epoch. rewrite days_to_year_formula.
  rewrite Z2Nat.id by lia. replace (1969 + (t_year t - 1970)) with (t_year t - 1) by lia.
  set (y := t_year t) in *. change (leaps 1969) with 477.
  assert (∃ c, (let '(y', m') := if t_month t <=? 2 then (y - 1, t_month t + 12) else (y, t_month t) in
      365 * y' + leaps y' + Z.quot (153 * (m' - 3) + 2) 5) =
    365 * (y - 1970) + leaps (y - 1) + days_to_month y (Z.to_nat (t_month t - 1)) + c ∧ c = 718991) as (c & Hc & ->).
  { exists 718991. split; [|done]. pose proof (leaps_step y) as Hl.
    assert (t_month t = 1 ∨ t_month t = 2 ∨ t_month t = 3 ∨ t_month t = 4 ∨ t_month t = 5 ∨
      t_month t = 6 ∨ t_month t = 7 ∨ t_month t = 8 ∨ t_month t = 9 ∨ t_month t = 10 ∨
      t_month t = 11 ∨ t_month t = 12) as Hcases by lia.
    destruct_or! Hcases; rewrite Hcases; eval_consts; destruct (leap y); lia. }
  revert Hc. destruct (Z.leb_spec (t_month t) 2); intros Hc; unfold leaps in *; rewrite !Z.quot_div_nonneg in * by lia; lia.
Qed.

(** A CMOS that does not change while it is read. *)
Definition steady (h : rtc_hw) (reg : Z → Z) : Prop := ∀ k r, cmos h k r = reg r.

(** The BCD digits of a value below 100. *)
Definition to_bcd (v : Z) : Z := v / 10 * 16 + v mod 10.

Definition bcd_ok (v : Z) : bool := (bcd_to_bin (to_bcd v) =? v) && (u8 (to_bcd v) =? to_bcd v) &&
  (Z.land (to_bcd v) 0x7F =? (to_bcd v) mod 128).

Lemma bcd_roundtrip v : 0 ≤ v < 100 → bcd_to_bin (to_bcd v) = v ∧ u8 (to_bcd v) = to_bcd v.
Proof.
  intros Hv. assert (bcd_ok v = true) as H by (apply (forall_range 100 bcd_ok); [by vm_compute|done]).
  unfold bcd_ok in H. b2p. done.
Qed.

Lemma steady_next h reg :
  steady h reg → steady (RtcHw (cmos h) (S (cmos_reads h)) (g_boot_epoch_sec h)) reg.
Proof. done. Qed.

Lemma wp_cmos h reg r (Q : Z → rtc_hw → Prop) :
  steady h reg → 0 ≤ r < 128 → (∀ h', steady h' reg → Q (u8 (reg r)) h') → wp (cmos_read r) Q h.
Proof.
  intros Hs Hr HQ. unfold wp, cmos_read. rewrite Hs.
  replace (Z.land r 0x7F) with r by (change 0x7F with (Z.ones 7); rewrite Z.land_ones, Z.mod_small by lia; done).
  by apply HQ.
Qed.

Lemma wp_wait h reg (Q : unit → rtc_hw → Prop) :
  steady h reg → (∀ h', steady h' reg → Q tt h') → wp rtc_wait Q h.
Proof.
  intros Hs HQ. unfold rtc_wait.
  apply (wp_while_idx _ _ (λ v t h', steady h' reg ∧ t = v ∧ 0 < v) _ 10000); [split; [done|lia]|lia|].
  intros v t h' (Hs' & -> & Hv). unfold rtc_updating. apply wp_bind, wp_bind.
  eapply wp_cmos; [done|done|]. intros h2 Hs2. apply wp_ret. case_match; [|by apply wp_ret, HQ].
  destruct (Z.ltb_spec 0 (v - 1)); apply wp_ret; [|by apply HQ].
  exists (v - 1). split; [lia|]. split; [done|]. split; [done|lia].
Qed.

Lemma wp_read_fields h reg (Q : rtc_raw → rtc_hw → Prop) :
  steady h reg →
  (∀ h', steady h' reg → Q (RtcRaw (u8 (reg RTC_SEC)) (u8 (reg RTC_MIN)) (u8 (reg RTC_HOUR))
     (u8 (reg RTC_DAY)) (u8 (reg RTC_MONTH)) (u8 (reg RTC_YEAR))) h') → wp read_fields Q h.
Proof.
  intros Hs HQ. unfold read_fields.
  do 6 (apply wp_bind; eapply wp_cmos; [done|done|]; clear dependent h; intros h Hs).
  by apply wp_ret, HQ.
Qed.

(** The registers of a clock in BCD, 24-hour mode that shows [t]. *)
Definition shows (reg : Z → Z) (t : rtc_time) : Prop :=
  reg RTC_SEC = to_bcd (t_second t) ∧ reg RTC_MIN = to_bcd (t_minute t) ∧
  reg RTC_HOUR = to_bcd (t_hour t) ∧ reg RTC_DAY = to_bcd (t_day t) ∧
  reg RTC_MONTH = to_bcd (t_month t) ∧ reg RTC_YEAR = to_bcd (t_year t mod 100) ∧
  reg RTC_CENTURY = to_bcd (t_year t / 100) ∧ reg RTC_STATUS_B = 0x02.

Definition time_ok (t : rtc_time) : Prop :=
  1900 ≤ t_year t < 2200 ∧ 1 ≤ t_month t ≤ 12 ∧ 1 ≤ t_day t ≤ 31 ∧
  0 ≤ t_hour t < 24 ∧ 0 ≤ t_minute t < 60 ∧ 0 ≤ t_second t < 60.

Lemma hour_mask v : 0 ≤ v < 24 → Z.land (to_bcd v) 0x7F = to_bcd v.
Proof.
  intros Hv. apply Z.eqb_eq. apply (forall_range 24 (λ v, Z.land (to_bcd v) 0x7F =? to_bcd v)); [by vm_compute|done].
Qed.

(** Reading a steady clock in BCD, 24-hour mode returns exactly the date
    and time it shows, for every year from 1900 to 2199, and terminates even
    when the update flag never clears. *)
Theorem rtc_read_bcd24 h reg t :
  steady h reg → shows reg t → time_ok t →
  wp rtc_read (λ r _, r = t) h.
Proof.
  intros Hs (E1 & E2 & E3 & E4 & E5 & E6 & E7 & E8) (Hy & Hm & Hd & Hh & Hmi & Hsec).
  assert (0 ≤ t_year t mod 100 < 100) as Hy1 by (by apply Z.mod_pos_bound).
  assert (19 ≤ t_year t / 100 ≤ 21) as Hy2 by (Z.to_euclidean_division_equations; lia).
  destruct (bcd_roundtrip (t_second t)), (bcd_roundtrip (t_minute t)), (bcd_roundtrip (t_hour t)),
    (bcd_roundtrip (t_day t)), (bcd_roundtrip (t_month t)), (bcd_roundtrip (t_year t mod 100)),
    (bcd_roundtrip (t_year t / 100)); [lia..|].
  unfold rtc_read. apply wp_bind. eapply wp_wait; [done|]. clear dependent h. intros h Hs.
  apply wp_bind. eapply wp_read_fields; [done|]. clear dependent h. intros h Hs.
  apply wp_bind. eapply wp_read_fields; [done|]. clear dependent h. intros h Hs.
  unfold raw_differ. cbn [r_sec r_min r_hour r_day r_month r_year]. rewrite !Z.eqb_refl. cbn [negb orb].
  apply wp_bind, wp_ret. apply wp_bind. eapply wp_cmos; [done|done|]. clear dependent h. intros h Hs.
  rewrite E8. change (Z.land (u8 2) 4 =? 0) with true. change (negb (Z.land (u8 2) 2 =? 0)) with true.
  cbn [negb]. apply wp_bind, wp_ret. apply wp_bind. eapply wp_cmos; [done|done|]. clear dependent h. intros h Hs.
  apply wp_ret. cbn [decode_fields r_sec r_min r_hour r_day r_month r_year].
  rewrite E1, E2, E3, E4, E5, E6, E7.
  repeat match goal with H : u8 (to_bcd ?x) = to_bcd ?x |- _ => rewrite H; clear H end.
  rewrite (hour_mask (t_hour t)) by done.
  repeat match goal with H : bcd_to_bin (to_bcd ?x) = ?x |- _ => rewrite H; clear H end.
  assert ((25 <=? to_bcd (t_year t / 100)) && (to_bcd (t_year t / 100) <=? 33) = true) as ->.
  { unfold to_bcd. assert (t_year t / 100 = 19 ∨ t_year t / 100 = 20 ∨ t_year t / 100 = 21) as [->|[->| ->]] by lia;
      reflexivity. }
  rewrite u8_small, u16_small by (Z.to_euclidean_division_equations; lia).
  destruct t as [y mo d ho mi se]; simpl in *. f_equal. Z.to_euclidean_division_equations. lia.
Qed.

(** In 12-hour mode the code only converts afternoon hours: a clock that
    shows 12:00 AM (midnight) is read as hour 12, not hour 0. *)
Theorem rtc_read_midnight_12h h :
  steady h (λ r, if r =? RTC_HOUR then 0x12 else if r =? RTC_STATUS_B then 0x00 else 0x01) →
  wp rtc_read (λ r _, t_hour r = 12) h.
Proof.
  intros Hs. unfold rtc_read. apply wp_bind. eapply wp_wait; [done|]. clear dependent h. intros h Hs.
  apply wp_bind. eapply wp_read_fields; [done|]. clear dependent h. intros h Hs.
  apply wp_bind. eapply wp_read_fields; [done|]. clear dependent h. intros h Hs.
  apply wp_bind, wp_ret. apply wp_bind. eapply wp_cmos; [done|done|]. clear dependent h. intros h Hs.
  apply wp_bind. cbn [negb]. apply wp_bind. eapply wp_cmos; [done|done|]. clear dependent h. intros h Hs.
  apply wp_ret, wp_bind. eapply wp_cmos; [done|done|]. clear dependent h. intros h Hs.
  apply wp_ret. reflexivity.
Qed.

(** ** Instances *)

Definition demo_time : rtc_time := RtcTime 2024 2 29 23 59 58.

Lemma rtc_to_epoch_calendar_witness :
  rtc_to_epoch demo_time = 1709251198 ∧ rtc_to_epoch demo_time = calendar_epoch demo_time.
Proof.
  split; [reflexivity|]. apply (rtc_to_epoch_calendar demo_time); [discriminate|split; discriminate].
Defined.

Definition demo_regs (r : Z) : Z :=
  if r =? RTC_SEC then 0x58 else if r =? RTC_MIN then 0x59 else if r =? RTC_HOUR then 0x23
  else if r =? RTC_DAY then 0x29 else if r =? RTC_MONTH then 0x02 else if r =? RTC_YEAR then 0x24
  else if r =? RTC_CENTURY then 0x20 else if r =? RTC_STATUS_B then 0x02 else 0x80.

Lemma rtc_read_bcd24_witness : wp rtc_read (λ r _, r = demo_time) (RtcHw (λ _, demo_regs) 0 0).
Proof.
  apply (rtc_read_bcd24 (RtcHw (λ _, demo_regs) 0 0) demo_regs demo_time); [intros k r; reflexivity| |].
  - repeat split.
  - repeat split; try reflexivity; discriminate.
Defined.

Lemma rtc_read_midnight_12h_witness :
  wp rtc_read (λ r _, t_hour r = 12)
    (RtcHw (λ _ r, if r =? RTC_HOUR then 0x12 else if r =? RTC_STATUS_B then 0x00 else 0x01) 0 0).
Proof. apply (rtc_read_midnight_12h _). intros k r. reflexivity. Defined.
