(* ===== verification/Spinlock.v ===== *)
(** * Spinlock

    Translation of [src/src/drivers/smp/spinlock.c] as a step relation: any
    number of processors run [spin_lock] / [spin_unlock] or their
    interrupt-saving variants on one lock word, interleaved at the atomic
    accesses to that word and to the interrupt flag of each processor. *)

From S2P Require Import Prelude.

(** Where a processor is.  The argument is what it will restore: [None] for
    [spin_lock], [Some f] for [spin_lock_irqsave] with saved flag [f]. *)
Inductive pc :=
| Outside                          (* not using the lock *)
| TestAndSet (sv : option bool)    (* before [__sync_lock_test_and_set] *)
| Spin (sv : option bool)          (* in the inner loop, reading [l->lock] *)
| Critical (sv : option bool)      (* between lock and unlock *)
| Restore (f : bool).              (* after [spin_unlock], before [popfq] *)

Record spin_state := SpinState {
  lock : Z;                        (* [l->lock] *)
  pcs : nat → pc;
  iflag : nat → bool               (* RFLAGS.IF of each processor *)
}.

Definition fupd {A} (f : nat → A) (i : nat) (a : A) : nat → A :=
  λ j, if decide (j = i) then a else f j.

Inductive step : spin_state → spin_state → Prop :=
| step_spin_lock i s : pcs s i = Outside →
    step s (SpinState (lock s) (fupd (pcs s) i (TestAndSet None)) (iflag s))
| step_irq_save i s : pcs s i = Outside →          (* pushfq; popq; cli *)
    step s (SpinState (lock s) (fupd (pcs s) i (TestAndSet (Some (iflag s i))))
              (fupd (iflag s) i false))
| step_acquire i s sv : pcs s i = TestAndSet sv → lock s = 0 →
    step s (SpinState 1 (fupd (pcs s) i (Critical sv)) (iflag s))
| step_contend i s sv : pcs s i = TestAndSet sv → lock s ≠ 0 →
    step s (SpinState 1 (fupd (pcs s) i (Spin sv)) (iflag s))
| step_wait i s sv : pcs s i = Spin sv → lock s ≠ 0 →
    step s s
| step_retry i s sv : pcs s i = Spin sv → lock s = 0 →
    step s (SpinState (lock s) (fupd (pcs s) i (TestAndSet sv)) (iflag s))
| step_unlock i s : pcs s i = Critical None →
    step s (SpinState 0 (fupd (pcs s) i Outside) (iflag s))
| step_unlock_irq i s f : pcs s i = Critical (Some f) →
    step s (SpinState 0 (fupd (pcs s) i (Restore f)) (iflag s))
| step_irq_restore i s f : pcs s i = Restore f →
    step s (SpinState (lock s) (fupd (pcs s) i Outside) (fupd (iflag s) i f)).

(** [spinlock_init]: the lock is free and nobody uses it. *)
Definition init_state (fl : nat → bool) : spin_state := SpinState 0 (λ _, Outside) fl.

Inductive reachable (fl : nat → bool) : spin_state → Prop :=
| reach_init : reachable fl (init_state fl)
| reach_step s s' : reachable fl s → step s s' → reachable fl s'.

Definition in_critical (s : spin_state) (i : nat) : Prop := ∃ sv, pcs s i = Critical sv.

(** The invariant: the word is 1 exactly when some processor is inside, at
    most one is, and a processor that saved its flag has interrupts off. *)
Record spin_inv (fl : nat → bool) (s : spin_state) : Prop := {
  si_word : lock s = 0 ∨ lock s = 1;
  si_held : lock s = 1 ↔ ∃ i, in_critical s i;
  si_one : ∀ i j, in_critical s i → in_critical s j → i = j;
  si_flag : ∀ i, match pcs s i with
    | Outside | TestAndSet None | Spin None | Critical None => iflag s i = fl i
    | TestAndSet (Some f) | Spin (Some f) | Critical (Some f) | Restore f =>
        f = fl i ∧ iflag s i = false
    end
}.

Lemma fupd_eq {A} (f : nat → A) i a : fupd f i a i = a.
Proof. unfold fupd. by rewrite decide_True. Qed.
Lemma fupd_ne {A} (f : nat → A) i j a : j ≠ i → fupd f i a j = f j.
Proof. intros. unfold fupd. by rewrite decide_False. Qed.

(** A step of processor [i] that is outside before and after it does not
    change who is in the critical section. *)
Lemma critical_other s i p fl' w :
  ¬ in_critical s i → (∀ sv, p ≠ Critical sv) →
  ∀ j, in_critical (SpinState w (fupd (pcs s) i p) fl') j ↔ in_critical s j.
Proof.
  intros Hi Hp j. unfold in_critical. simpl. destruct (decide (j = i)) as [->|].
  - rewrite fupd_eq. split; [intros [sv E]; by destruct (Hp sv)|]. intros Hc. by destruct Hi.
  - by rewrite fupd_ne.
Qed.

Lemma not_critical s i : (∀ sv, pcs s i ≠ Critical sv) → ¬ in_critical s i.
Proof. intros H [sv E]. by apply (H sv). Qed.

Lemma inv_quiet fl s i p w fl' :
  spin_inv fl s → (∀ sv, pcs s i ≠ Critical sv) → (∀ sv, p ≠ Critical sv) → w = lock s →
  (∀ j, j ≠ i → fl' j = iflag s j) →
  match p with
  | Outside | TestAndSet None | Spin None | Critical None => fl' i = fl i
  | TestAndSet (Some f) | Spin (Some f) | Critical (Some f) | Restore f => f = fl i ∧ fl' i = false
  end → spin_inv fl (SpinState w (fupd (pcs s) i p) fl').
Proof.
  intros [Hw Hh H1 Hf] Hi Hp -> Hoth Hfl.
  pose proof (critical_other s i p fl' (lock s) (not_critical s i Hi) Hp) as Hc. split; simpl.
  - done.
  - rewrite Hh. split; intros [j Hj]; exists j; by apply Hc.
  - intros j k Hj%Hc Hk%Hc. by apply H1.
  - intros j. destruct (decide (j = i)) as [->|Hne]; [by rewrite fupd_eq|].
    rewrite fupd_ne, Hoth by done. apply Hf.
Qed.

Lemma inv_release fl s i p sv :
  spin_inv fl s → pcs s i = Critical sv → (∀ sv, p ≠ Critical sv) →
  match p with
  | Outside | TestAndSet None | Spin None | Critical None => iflag s i = fl i
  | TestAndSet (Some f) | Spin (Some f) | Critical (Some f) | Restore f => f = fl i ∧ iflag s i = false
  end → spin_inv fl (SpinState 0 (fupd (pcs s) i p) (iflag s)).
Proof.
  intros [Hw Hh H1 Hf] Hi Hp Hfl.
  assert (∀ j, ¬ in_critical (SpinState 0 (fupd (pcs s) i p) (iflag s)) j) as Hn.
  { intros j [sv' E]. simpl in E. destruct (decide (j = i)) as [->|Hne].
    - rewrite fupd_eq in E. by destruct (Hp sv').
    - rewrite fupd_ne in E by done. apply Hne. apply H1; [by exists sv'|by exists sv]. }
  split; simpl.
  - by left.
  - split; [done|]. intros [j Hj]. by destruct (Hn j).
  - intros j k Hj. by destruct (Hn j).
  - intros j. destruct (decide (j = i)) as [->|Hne]; [by rewrite fupd_eq|]. rewrite fupd_ne by done. apply Hf.
Qed.

Lemma spin_inv_step fl s s' : spin_inv fl s → step s s' → spin_inv fl s'.
Proof.
  intros Hinv Hst. pose proof (si_flag _ _ Hinv) as Hf. destruct Hst as
    [i s E|i s E|i s sv E El|i s sv E El|i s sv E El|i s sv E El|i s E|i s f E|i s f E];
    specialize (Hf i) as Hi; rewrite E in Hi.
  - apply inv_quiet; try done; intros; by rewrite E.
  - apply inv_quiet; try done; [intros; by rewrite E|intros; by apply fupd_ne|].
    rewrite fupd_eq. by rewrite Hi.
  - destruct Hinv as [Hw Hh H1 _].
    assert (∀ j, ¬ in_critical s j) as Hn by (intros j Hj; assert (lock s = 1) by (apply Hh; eauto); lia).
    split; simpl.
    + by right.
    + split; [|done]. intros _. exists i, sv. simpl. apply fupd_eq.
    + assert (∀ j, in_critical (SpinState 1 (fupd (pcs s) i (Critical sv)) (iflag s)) j → j = i) as Ho.
      { intros j [sv' Ej]. simpl in Ej. destruct (decide (j = i)); [done|].
        rewrite fupd_ne in Ej by done. destruct (Hn j). by exists sv'. }
      intros j k Hj%Ho Hk%Ho. congruence.
    + intros j. destruct (decide (j = i)) as [->|]; [rewrite fupd_eq; by destruct sv|].
      rewrite fupd_ne by done. apply Hf.
  - apply inv_quiet; try done; [intros; by rewrite E|destruct (si_word _ _ Hinv); congruence].
  - done.
  - apply inv_quiet; try done. intros; by rewrite E.
  - eapply inv_release; done.
  - eapply inv_release; done.
  - destruct Hi as [-> Hi]. apply inv_quiet; try done; [intros; by rewrite E|intros; by apply fupd_ne|].
    by rewrite fupd_eq.
Qed.

Lemma reachable_inv fl s : reachable fl s → spin_inv fl s.
Proof.
  induction 1 as [|s s' _ IH Hst]; [|by eapply spin_inv_step].
  split; simpl; [by left| |intros i j [sv E]; done|done].
  split; [done|]. intros [i [sv E]]. done.
Qed.

(** ** Properties *)

(** C21: Mutual exclusion: in every reachable state at most one processor is
    between lock and unlock, and the lock word is 1 exactly then. *)
Theorem spinlock_mutual_exclusion fl s :
  reachable fl s →
  (∀ i j, in_critical s i → in_critical s j → i = j) ∧ (lock s = 1 ↔ ∃ i, in_critical s i).
Proof. intros [_ Hh H1 _]%reachable_inv. done. Qed.

(** The interrupt-saving lock keeps interrupts off from the moment the
    flag is saved until it is restored, and leaves the processor with the
    flag it had before. *)
Theorem spinlock_irq_discipline fl s i :
  reachable fl s →
  match pcs s i with
  | Outside => iflag s i = fl i
  | TestAndSet (Some f) | Spin (Some f) | Critical (Some f) | Restore f =>
      f = fl i ∧ iflag s i = false
  | _ => True
  end.
Proof.
  intros [_ _ _ Hf]%reachable_inv. specialize (Hf i). by destruct (pcs s i) as [|[]|[]|[]|].
Qed.

(** No deadlock: from every reachable state in which a processor wants
    the lock, some processor that wants it can be inside after at most three
    steps (the release by the holder, the inner read, the test-and-set). *)
Theorem spinlock_progress fl s i :
  reachable fl s → (∃ sv, pcs s i = TestAndSet sv ∨ pcs s i = Spin sv) →
  ∃ s1 s2 s3, (s = s1 ∨ step s s1) ∧ (s1 = s2 ∨ step s1 s2) ∧ (s2 = s3 ∨ step s2 s3) ∧ in_critical s3 i.
Proof.
  intros Hr [sv Hi]. pose proof (reachable_inv fl s Hr) as [Hw Hh _ _].
  assert (∃ s1, (s = s1 ∨ step s s1) ∧ lock s1 = 0 ∧ (pcs s1 i = TestAndSet sv ∨ pcs s1 i = Spin sv)) as (s1 & Hs1 & El & Hi1).
  { destruct Hw as [E|E]; [by exists s; auto|]. apply Hh in E as [j [sv' Ej]].
    assert (i ≠ j) as Hne by (intros ->; rewrite Ej in Hi; destruct Hi; done).
    destruct sv' as [f|]; eexists; (split; [right; by econstructor|]); simpl;
      by rewrite fupd_ne. }
  assert (∃ s2, (s1 = s2 ∨ step s1 s2) ∧ lock s2 = 0 ∧ pcs s2 i = TestAndSet sv) as (s2 & Hs2 & El2 & Hi2).
  { destruct Hi1 as [E|E]; [by exists s1; auto|]. eexists. split; [right; by eapply step_retry|].
    simpl. split; [done|]. apply fupd_eq. }
  eexists s1, s2, _. split; [done|]. split; [done|].
  split; [right; by eapply step_acquire|]. exists sv. simpl. apply fupd_eq.
Qed.

(** ** Instances: processor 0 inside, processor 1 waiting *)

Definition demo_spin : spin_state :=
  SpinState 1 (fupd (fupd (fupd (fupd (λ _, Outside) 0 (TestAndSet None)) 1 (TestAndSet (Some true)))
    0 (Critical None)) 1 (Spin (Some true))) (fupd (λ _, true) 1 false).

Lemma demo_reachable : reachable (λ _, true) demo_spin.
Proof.
  eapply reach_step; [|by eapply (step_contend 1 (SpinState 1 _ _) (Some true))].
  eapply reach_step; [|by eapply (step_acquire 0 (SpinState 0 _ _) None)].
  eapply reach_step; [|by apply (step_irq_save 1 (SpinState 0 _ (λ _, true)))].
  eapply reach_step; [apply reach_init|by apply (step_spin_lock 0)].
Qed.

Lemma spinlock_mutual_exclusion_witness :
  reachable (λ _, true) demo_spin ∧ ¬ in_critical demo_spin 1.
Proof.
  split; [exact demo_reachable|]. intros H1.
  pose proof (proj1 (spinlock_mutual_exclusion (λ _, true) demo_spin demo_reachable) 0%nat 1%nat
    ltac:(exists None; reflexivity) H1) as E. discriminate E.
Defined.

Lemma spinlock_irq_discipline_witness : iflag demo_spin 1 = false.
Proof. apply (spinlock_irq_discipline (λ _, true) demo_spin 1 demo_reachable). Defined.

Lemma spinlock_progress_witness :
  ∃ s1 s2 s3, (demo_spin = s1 ∨ step demo_spin s1) ∧ (s1 = s2 ∨ step s1 s2) ∧ (s2 = s3 ∨ step s2 s3) ∧ in_critical s3 1.
Proof.
  apply (spinlock_progress (λ _, true) demo_spin 1 demo_reachable). exists (Some true).
  right. reflexivity.
Defined.
