(* ===== verification/Entropy.v ===== *)
(** * Entropy pool

    Translation of [src/src/kernel/entropy/entropy.c].  The processor's
    random instructions, time stamp counter and feature bits are part of the
    state: [hw_rdrand k] is the outcome of the [k]-th RDRAND (carry clear is
    [None]).  [entropy_getbytes] holds the pool lock for its whole effect, so
    it is one atomic operation. *)

From S2P Require Import Prelude.

Definition EAGAIN : Z := 11.

Record pool_t := Pool { pool0 : Z; pool1 : Z; pool2 : Z; pool3 : Z }.

Record entropy := Entropy {
  pool : pool_t;
  pool_counter : Z;
  g_has_rdrand : bool;
  g_has_rdseed : bool;
  g_seeded : bool;
  hw_rdrand : nat → option Z;
  hw_rdseed : nat → option Z;
  hw_tsc : nat → Z;
  hw_cpuid1_ecx : Z;
  hw_cpuid7_ebx : Z;
  n_rdrand : nat; n_rdseed : nat; n_tsc : nat
}.

Definition set_pool_state (p : pool_t) (c : Z) (s : entropy) : entropy :=
  Entropy p c (g_has_rdrand s) (g_has_rdseed s) (g_seeded s) (hw_rdrand s) (hw_rdseed s)
    (hw_tsc s) (hw_cpuid1_ecx s) (hw_cpuid7_ebx s) (n_rdrand s) (n_rdseed s) (n_tsc s).
Definition set_features (rr rs : bool) (s : entropy) : entropy :=
  Entropy (pool s) (pool_counter s) rr rs (g_seeded s) (hw_rdrand s) (hw_rdseed s)
    (hw_tsc s) (hw_cpuid1_ecx s) (hw_cpuid7_ebx s) (n_rdrand s) (n_rdseed s) (n_tsc s).
Definition set_seeded (b : bool) (s : entropy) : entropy :=
  Entropy (pool s) (pool_counter s) (g_has_rdrand s) (g_has_rdseed s) b (hw_rdrand s)
    (hw_rdseed s) (hw_tsc s) (hw_cpuid1_ecx s) (hw_cpuid7_ebx s) (n_rdrand s) (n_rdseed s) (n_tsc s).
Definition set_uses (a b c : nat) (s : entropy) : entropy :=
  Entropy (pool s) (pool_counter s) (g_has_rdrand s) (g_has_rdseed s) (g_seeded s) (hw_rdrand s)
    (hw_rdseed s) (hw_tsc s) (hw_cpuid1_ecx s) (hw_cpuid7_ebx s) a b c.

(** ** Hardware *)

Fixpoint rdrand_tries (n : nat) : M entropy (option Z) :=
  match n with
  | O => mret None
  | S n =>
      v ← gets (λ s, hw_rdrand s (n_rdrand s));
      modify (λ s, set_uses (S (n_rdrand s)) (n_rdseed s) (n_tsc s) s);;
      match v with Some x => mret (Some (u64 x)) | None => rdrand_tries n end
  end.
Definition rdrand64 : M entropy (option Z) := rdrand_tries 10.

Fixpoint rdseed_tries (n : nat) : M entropy (option Z) :=
  match n with
  | O => mret None
  | S n =>
      v ← gets (λ s, hw_rdseed s (n_rdseed s));
      modify (λ s, set_uses (n_rdrand s) (S (n_rdseed s)) (n_tsc s) s);;
      match v with Some x => mret (Some (u64 x)) | None => rdseed_tries n end
  end.
Definition rdseed64 : M entropy (option Z) := rdseed_tries 32.

Definition rdtsc : M entropy Z :=
  v ← gets (λ s, u64 (hw_tsc s (n_tsc s)));
  modify (λ s, set_uses (n_rdrand s) (n_rdseed s) (S (n_tsc s)) s);;
  mret v.

(** ** The pool *)

Definition rotl64 (x k : Z) : Z := Z.lor (u64 (Z.shiftl x k)) (Z.shiftr x (64 - k)).

Definition pool_mix_f (p : pool_t) : pool_t :=
  let '(Pool p0 p1 p2 p3) := p in
  let p0 := u64 (p0 + p1) in let p2 := u64 (p2 + p3) in
  let p1 := Z.lxor (rotl64 p1 13) p0 in
  let p3 := Z.lxor (rotl64 p3 16) p2 in
  let p0 := rotl64 p0 32 in
  let p0 := u64 (p0 + p3) in let p2 := u64 (p2 + p1) in
  let p1 := Z.lxor (rotl64 p1 17) p0 in
  let p3 := Z.lxor (rotl64 p3 21) p2 in
  let p0 := rotl64 p0 32 in
  Pool p0 p1 p2 p3.

Definition pool_mix : M entropy unit :=
  modify (λ s, set_pool_state (pool_mix_f (pool s)) (pool_counter s) s).

(** [pool[i] ^= v] *)
Definition pool_xor (i v : Z) (p : pool_t) : pool_t :=
  if i =? 0 then Pool (Z.lxor (pool0 p) v) (pool1 p) (pool2 p) (pool3 p)
  else if i =? 1 then Pool (pool0 p) (Z.lxor (pool1 p) v) (pool2 p) (pool3 p)
  else if i =? 2 then Pool (pool0 p) (pool1 p) (Z.lxor (pool2 p) v) (pool3 p)
  else Pool (pool0 p) (pool1 p) (pool2 p) (Z.lxor (pool3 p) v).

Definition pool_inject (val : Z) : M entropy unit :=
  modify (λ s,
    let c := u64 (pool_counter s + 1) in
    set_pool_state (pool_xor (Z.land c 3) val (pool s)) c s);;
  pool_mix.

Definition pool_out (p : pool_t) : Z :=
  Z.lxor (Z.lxor (Z.lxor (pool0 p) (pool1 p)) (pool2 p)) (pool3 p).

Definition pool_extract : M entropy Z :=
  modify (λ s, set_pool_state (pool s) (u64 (pool_counter s + 1)) s);;
  pool_mix;;
  gets (λ s, pool_out (pool s)).

(** ** Seeding *)

Fixpoint repeat_m {S} (n : nat) (m : M S unit) : M S unit :=
  match n with O => mret tt | S n => m;; repeat_m n m end.

Definition inject_if (r : option Z) : M entropy unit :=
  match r with Some v => pool_inject v | None => mret tt end.

Definition seed_pool : M entropy unit :=
  has_rdseed ← gets g_has_rdseed;
  (if has_rdseed : bool then repeat_m 8 (r ← rdseed64; inject_if r) else mret tt);;
  has_rdrand ← gets g_has_rdrand;
  (if has_rdrand : bool then repeat_m 8 (r ← rdrand64; inject_if r) else mret tt);;
  t ← rdtsc; pool_inject t;;
  t ← rdtsc; pool_inject (Z.lxor t 0xA5A5A5A5A5A5A5A5);;
  t ← rdtsc; pool_inject t;;
  repeat_m 20 pool_mix.

Definition pool_start : pool_t :=
  Pool 0x6A09E667F3BCC908 0xBB67AE8584CAA73B 0x3C6EF372FE94F82B 0xA54FF53A5F1D36F1.

Definition entropy_init : M entropy unit :=
  modify (λ s, set_features (negb (Z.land (Z.shiftr (hw_cpuid1_ecx s) 30) 1 =? 0))
                 (negb (Z.land (Z.shiftr (hw_cpuid7_ebx s) 18) 1 =? 0)) s);;
  modify (set_pool_state pool_start 0);;
  seed_pool;;
  modify (set_seeded true).

Definition entropy_has_rdrand : M entropy bool := gets g_has_rdrand.
Definition entropy_has_rdseed : M entropy bool := gets g_has_rdseed.
Definition entropy_ready : M entropy bool := gets g_seeded.

(** The bytes [(uint8_t)(val >> (i * 8))] for [i < chunk]. *)
Definition chunk_bytes (val chunk : Z) : list Z :=
  (λ i, u8 (Z.shiftr val (i * 8))) <$> seqZ 0 chunk.

(** [while (pos < len)]: the bytes written from [pos] on.  Each round writes
    at least one byte. *)
Definition fill_loop (len : Z) : M entropy (list Z) :=
  while (len + 1) (λ out,
    let pos := Z.of_nat (length out) in
    if pos <? len then
      val ← pool_extract;
      let chunk := if 8 <? len - pos then 8 else len - pos in
      mret (inl (out ++ chunk_bytes val chunk))
    else mret (inr out)) [].

(** The result and the bytes stored in the buffer; a null buffer is
    [buf_null]. *)
Definition entropy_getbytes (buf_null : bool) (len : Z) : M entropy (Z * list Z) :=
  if buf_null || (len =? 0) then mret (0, [])
  else
    seeded ← gets g_seeded;
    if negb seeded then mret (- EAGAIN, [])
    else
      has_rdrand ← gets g_has_rdrand;
      (if has_rdrand : bool then r ← rdrand64; inject_if r else mret tt);;
      t ← rdtsc;
      pool_inject t;;
      out ← fill_loop len;
      mret (0, out).

(** ** Rotation *)

Definition w64 (x : Z) : Prop := 0 ≤ x < 2 ^ 64.

Lemma w64_bits x i : w64 x → 64 ≤ i → Z.testbit x i = false.
Proof. intros Hx Hi. rewrite <-(Z.mod_small x (2 ^ 64)) by apply Hx. by apply Z.mod_pow2_bits_high. Qed.

Lemma w64_of_bits x : 0 ≤ x → (∀ i, 64 ≤ i → Z.testbit x i = false) → w64 x.
Proof.
  intros Hx Hb. split; [done|]. destruct (decide (x = 0)) as [->|]; [done|].
  apply Z.log2_lt_pow2; [lia|]. destruct (decide (Z.log2 x < 64)); [done|].
  pose proof (Z.bit_log2 x ltac:(lia)) as Hl. rewrite Hb in Hl by lia. done.
Qed.

Lemma lxor_w64 x y : w64 x → w64 y → w64 (Z.lxor x y).
Proof.
  intros Hx Hy. apply w64_of_bits.
  - apply Z.lxor_nonneg. destruct Hx, Hy. tauto.
  - intros i Hi. by rewrite Z.lxor_spec, !w64_bits.
Qed.

Lemma rotl_bit x k i :
  w64 x → 0 < k < 64 → 0 ≤ i < 64 →
  Z.testbit (rotl64 x k) i = Z.testbit x (if i <? k then i + 64 - k else i - k).
Proof.
  intros Hx Hk Hi. unfold rotl64, u64. rewrite Z.lor_spec, Z.mod_pow2_bits_low, Z.shiftl_spec,
    Z.shiftr_spec by lia. replace (i + (64 - k)) with (i + 64 - k) by lia.
  destruct (Z.ltb_spec i k).
  - by rewrite Z.testbit_neg_r by lia.
  - by rewrite (w64_bits x (i + 64 - k)), orb_false_r by (done || lia).
Qed.

Lemma rotl_w64 x k : w64 x → 0 < k < 64 → w64 (rotl64 x k).
Proof.
  intros Hx Hk. apply w64_of_bits.
  - unfold rotl64. apply Z.lor_nonneg. split; [apply u64_range|]. apply Z.shiftr_nonneg, Hx.
  - intros i Hi. unfold rotl64, u64. rewrite Z.lor_spec, Z.mod_pow2_bits_high, Z.shiftr_spec by lia.
    apply w64_bits; [done|lia].
Qed.

Lemma rotl_inverse x k : w64 x → 0 < k < 64 → rotl64 (rotl64 x k) (64 - k) = x.
Proof.
  intros Hx Hk. apply Z.bits_inj'. intros i Hi.
  pose proof (rotl_w64 x k Hx Hk) as Hy. pose proof (rotl_w64 _ (64 - k) Hy ltac:(lia)) as Hz.
  destruct (decide (i < 64)); [|by rewrite !w64_bits by (done || lia)].
  rewrite rotl_bit by (done || lia).
  destruct (Z.ltb_spec i (64 - k)); rewrite rotl_bit by (done || lia).
  - destruct (Z.ltb_spec (i + 64 - (64 - k)) k); f_equal; lia.
  - destruct (Z.ltb_spec (i - (64 - k)) k); f_equal; lia.
Qed.

(** ** The mixing step can be undone *)

Definition words_ok (p : pool_t) : Prop := w64 (pool0 p) ∧ w64 (pool1 p) ∧ w64 (pool2 p) ∧ w64 (pool3 p).

Definition pool_unmix (p : pool_t) : pool_t :=
  let '(Pool p0 p1 p2 p3) := p in
  let p0 := rotl64 p0 32 in
  let p3 := rotl64 (Z.lxor p3 p2) 43 in
  let p1 := rotl64 (Z.lxor p1 p0) 47 in
  let p2 := u64 (p2 - p1) in let p0 := u64 (p0 - p3) in
  let p0 := rotl64 p0 32 in
  let p3 := rotl64 (Z.lxor p3 p2) 48 in
  let p1 := rotl64 (Z.lxor p1 p0) 51 in
  let p2 := u64 (p2 - p3) in let p0 := u64 (p0 - p1) in
  Pool p0 p1 p2 p3.

Lemma u64_w64 x : w64 (u64 x).
Proof. apply u64_range. Qed.
Create HintDb entropy.
#[export] Hint Resolve u64_w64 lxor_w64 rotl_w64 : entropy.

Lemma lxor_cancel x y : Z.lxor (Z.lxor x y) y = x.
Proof. by rewrite Z.lxor_assoc, Z.lxor_nilpotent, Z.lxor_0_r. Qed.

Lemma add_cancel x y : w64 x → u64 (u64 (x + y) - y) = x.
Proof. intros Hx. unfold u64. rewrite Zminus_mod_idemp_l. rewrite Z.add_simpl_r. by apply Z.mod_small. Qed.

Lemma pool_mix_ok p : words_ok p → words_ok (pool_mix_f p).
Proof.
  destruct p as [p0 p1 p2 p3]. intros (? & ? & ? & ?). simpl in *.
  unfold pool_mix_f, words_ok. cbn [pool0 pool1 pool2 pool3].
  assert (0 < 13 < 64 ∧ 0 < 16 < 64 ∧ 0 < 32 < 64 ∧ 0 < 17 < 64 ∧ 0 < 21 < 64) as (? & ? & ? & ? & ?) by lia.
  split; [|split; [|split]]; auto 10 with entropy.
Qed.

Lemma pool_unmix_mix p : words_ok p → pool_unmix (pool_mix_f p) = p.
Proof.
  destruct p as [p0 p1 p2 p3]. intros (H0 & H1 & H2 & H3). simpl in *. unfold pool_mix_f, pool_unmix.
  set (a0 := u64 (p0 + p1)). set (a2 := u64 (p2 + p3)).
  set (a1 := Z.lxor (rotl64 p1 13) a0). set (a3 := Z.lxor (rotl64 p3 16) a2).
  assert (w64 a0 ∧ w64 a2) as [W0 W2] by (split; apply u64_w64).
  assert (w64 a1 ∧ w64 a3) as [W1 W3] by (split; apply lxor_w64; try done; by apply rotl_w64).
  set (b0 := u64 (rotl64 a0 32 + a3)). set (b2 := u64 (a2 + a1)).
  assert (w64 b0 ∧ w64 b2) as [V0 V2] by (split; apply u64_w64).
  rewrite (rotl_inverse b0 32 V0 ltac:(lia) : rotl64 (rotl64 b0 32) 32 = b0).
  rewrite !lxor_cancel.
  rewrite (rotl_inverse a3 21 W3 ltac:(lia) : rotl64 (rotl64 a3 21) 43 = a3).
  rewrite (rotl_inverse a1 17 W1 ltac:(lia) : rotl64 (rotl64 a1 17) 47 = a1).
  assert (u64 (b2 - a1) = a2) as -> by (by apply add_cancel).
  assert (u64 (b0 - a3) = rotl64 a0 32) as -> by (apply add_cancel; by apply rotl_w64).
  rewrite (rotl_inverse a0 32 W0 ltac:(lia) : rotl64 (rotl64 a0 32) 32 = a0).
  assert (Z.lxor a1 a0 = rotl64 p1 13) as -> by apply lxor_cancel.
  assert (Z.lxor a3 a2 = rotl64 p3 16) as -> by apply lxor_cancel.
  rewrite (rotl_inverse p3 16 H3 ltac:(lia) : rotl64 (rotl64 p3 16) 48 = p3).
  rewrite (rotl_inverse p1 13 H1 ltac:(lia) : rotl64 (rotl64 p1 13) 51 = p1).
  unfold a2, a0. by rewrite !add_cancel.
Qed.

Lemma pool_xor_ok i v p : words_ok p → w64 v → words_ok (pool_xor i v p).
Proof.
  destruct p as [p0 p1 p2 p3]. intros (? & ? & ? & ?) Hv. simpl in *. unfold pool_xor.
  repeat case_match; (split; [|split; [|split]]; simpl; auto with entropy).
Qed.

(** ** Extraction *)

(** [n] successive outputs of the pool [p]. *)
Fixpoint outputs (p : pool_t) (n : nat) : list Z :=
  match n with O => [] | S n => pool_out (pool_mix_f p) :: outputs (pool_mix_f p) n end.

(** The stream of bytes of [n] outputs, least significant byte first. *)
Definition out_bytes (p : pool_t) (n : nat) : list Z := outputs p n ≫= λ v, chunk_bytes v 8.

Lemma chunk_length v k : 0 ≤ k → Z.of_nat (length (chunk_bytes v k)) = k.
Proof. intros. unfold chunk_bytes. rewrite length_fmap, length_seqZ. lia. Qed.

Lemma chunk_take v k : 0 ≤ k ≤ 8 → chunk_bytes v k = take (Z.to_nat k) (chunk_bytes v 8).
Proof.
  intros Hk. unfold chunk_bytes. rewrite <-fmap_take. f_equal.
  replace 8 with (k + (8 - k)) by lia. rewrite seqZ_app by lia.
  rewrite take_app_length'; [done|]. rewrite length_seqZ. lia.
Qed.

Lemma outputs_snoc p n :
  outputs p (S n) = outputs p n ++ [pool_out (Nat.iter (S n) pool_mix_f p)].
Proof.
  revert p. induction n as [|n IH]; intros p; [done|].
  change (outputs p (S (S n))) with (pool_out (pool_mix_f p) :: outputs (pool_mix_f p) (S n)).
  rewrite IH, Nat.iter_swap. done.
Qed.

Lemma out_bytes_snoc p n :
  out_bytes p (S n) = out_bytes p n ++ chunk_bytes (pool_out (Nat.iter (S n) pool_mix_f p)) 8.
Proof. unfold out_bytes. rewrite outputs_snoc, bind_app, bind_singleton. done. Qed.

Lemma out_bytes_length p n : Z.of_nat (length (out_bytes p n)) = 8 * Z.of_nat n.
Proof.
  induction n as [|n IH]; [done|]. rewrite out_bytes_snoc, length_app, Nat2Z.inj_add, IH, chunk_length; lia.
Qed.

Lemma wp_fill s len (Q : list Z → entropy → Prop) :
  0 ≤ len →
  (∀ n s', len ≤ 8 * Z.of_nat n → pool s' = Nat.iter n pool_mix_f (pool s) →
     Q (take (Z.to_nat len) (out_bytes (pool s) n)) s') →
  wp (fill_loop len) Q s.
Proof.
  intros Hl HQ. unfold fill_loop.
  apply (wp_while_idx _ _ (λ v out s', ∃ n, v = Z.max 0 (len - 8 * Z.of_nat n) ∧
    out = take (Z.to_nat len) (out_bytes (pool s) n) ∧ pool s' = Nat.iter n pool_mix_f (pool s)) _ len).
  - exists 0%nat. split; [lia|]. split; [|done]. by destruct (Z.to_nat len).
  - lia.
  - intros v out s' (n & -> & -> & Ep).
    pose proof (out_bytes_length (pool s) n) as Hlen. rewrite length_take.
    destruct (Z.ltb_spec (Z.of_nat (Z.to_nat len `min` length (out_bytes (pool s) n))) len) as [Hlt|Hge].
    + assert (8 * Z.of_nat n < len) as Hn by lia.
      unfold pool_extract, pool_mix. wp_steps. exists (Z.max 0 (len - 8 * Z.of_nat (S n))). split; [lia|]. exists (S n). split; [done|].
      simpl. rewrite Ep. split; [|done].
      rewrite (out_bytes_snoc (pool s) n), take_app. 
      rewrite (take_ge (out_bytes (pool s) n)) by lia. f_equal.
      replace (Z.of_nat (Z.to_nat len `min` length (out_bytes (pool s) n))) with (8 * Z.of_nat n) by lia.
      replace (if 8 <? len - 8 * Z.of_nat n then 8 else len - 8 * Z.of_nat n)
        with (Z.min 8 (len - 8 * Z.of_nat n)) by (bool_cases; lia).
      rewrite chunk_take by lia. simpl Nat.iter.
      pose proof (chunk_length (pool_out (pool_mix_f (Nat.iter n pool_mix_f (pool s)))) 8 ltac:(lia)).
      destruct (decide (8 ≤ len - 8 * Z.of_nat n)).
      * rewrite !take_ge by lia. done.
      * f_equal. lia.
    + apply wp_ret, HQ; [lia|done].
Qed.

(** ** Properties *)

(** The mixing step loses no entropy: it maps pools of four 64-bit words
    to such pools and is undone by an explicit inverse, so that distinct pools
    stay distinct. *)
Theorem pool_mix_invertible p :
  words_ok p → words_ok (pool_mix_f p) ∧ pool_unmix (pool_mix_f p) = p.
Proof. intros Hp. split; [by apply pool_mix_ok|by apply pool_unmix_mix]. Qed.

(** Every sample injected into the pool matters: from the same state, two
    different 64-bit samples lead to different pools. *)
Theorem pool_inject_injective s v1 v2 s1 s2 :
  words_ok (pool s) → w64 v1 → w64 v2 →
  pool_inject v1 s = Some (tt, s1) → pool_inject v2 s = Some (tt, s2) →
  pool s1 = pool s2 → v1 = v2.
Proof.
  intros Hp H1 H2 E1 E2 E. unfold pool_inject, pool_mix, modify, mbind, M_bind in E1, E2.
  injection E1 as <-. injection E2 as <-. simpl in E. set (c := u64 _) in E.
  assert (pool_xor (Z.land c 3) v1 (pool s) = pool_xor (Z.land c 3) v2 (pool s)) as Ex.
  { rewrite <-(pool_unmix_mix (pool_xor _ v1 _)), <-(pool_unmix_mix (pool_xor _ v2 _))
      by (by apply pool_xor_ok). by rewrite E. }
  assert (∀ a, Z.lxor a v1 = Z.lxor a v2 → v1 = v2) as Hx.
  { intros a Ea. apply (f_equal (Z.lxor a)) in Ea. 
    by rewrite <-!Z.lxor_assoc, Z.lxor_nilpotent, !Z.lxor_0_l in Ea. }
  unfold pool_xor in Ex. repeat case_match; injection Ex as Ea; by eapply Hx.
Qed.


(** ** Instances *)

Definition demo_entropy : entropy :=
  Entropy pool_start 0 true false true (λ k, if (k <? 3)%nat then None else Some 0x1234) (λ _, None)
    (λ k, 1000 + Z.of_nat k) 0x40000000 0 0 0 0.

Lemma pool_start_ok : words_ok pool_start.
Proof. split; [|split; [|split]]; split; (discriminate || reflexivity). Qed.

Lemma pool_mix_invertible_witness : pool_unmix (pool_mix_f pool_start) = pool_start.
Proof. apply (pool_mix_invertible pool_start pool_start_ok). Defined.

Lemma pool_inject_injective_witness :
  ∀ s1, pool_inject 5 demo_entropy = Some (tt, s1) → ∀ s2, pool_inject 9 demo_entropy = Some (tt, s2) →
  pool s1 ≠ pool s2.
Proof.
  intros s1 E1 s2 E2 E. assert (5 = 9) as Hbad; [|discriminate Hbad].
  apply (pool_inject_injective demo_entropy 5 9 s1 s2); try assumption;
    [exact pool_start_ok|split; (discriminate || reflexivity)..].
Defined.

