(* ===== verification/Ring.v ===== *)
(** * Ring buffers

    The drivers keep their queues as fixed arrays with a head (next slot to
    write) and a tail (next slot to read), one slot always unused.
    [ring_inv] relates such an array to the list of its elements in order of
    arrival; the lemmas below are what an enqueue and a dequeue do to that
    list. *)

From S2P Require Import Prelude.

(** [arr[i]] and [arr[i] = v] on an array; out of range is undefined. *)
Definition arr_get {A} (l : list A) (i : Z) : option A :=
  if 0 <=? i then l !! Z.to_nat i else None.
Definition arr_set {A} (l : list A) (i : Z) (v : A) : option (list A) :=
  if (0 <=? i) && (i <? Z.of_nat (length l)) then Some (<[Z.to_nat i := v]> l) else None.

Lemma mod_wrap n a : 0 ≤ a < 2 * n → a mod n = if a <? n then a else a - n.
Proof.
  intros. destruct (Z.ltb_spec a n); [apply Z.mod_small; lia|].
  replace a with (a - n + 1 * n) at 1 by lia. rewrite Z.mod_add by lia. apply Z.mod_small. lia.
Qed.

Section ring.
Context {A : Type}.
Implicit Types (buf q : list A) (n head tail : Z).

Record ring_inv n buf head tail q : Prop := {
  ri_size : Z.of_nat (length buf) = n;
  ri_tail : 0 ≤ tail < n;
  ri_count : Z.of_nat (length q) < n;
  ri_head : head = (tail + Z.of_nat (length q)) mod n;
  ri_slots i x : q !! i = Some x → arr_get buf ((tail + Z.of_nat i) mod n) = Some x
}.

Lemma ring_head_range n buf head tail q : ring_inv n buf head tail q → 0 ≤ head < n.
Proof. intros H. rewrite (ri_head _ _ _ _ _ H). apply Z.mod_pos_bound. destruct H. lia. Qed.

Lemma ring_start n buf i :
  Z.of_nat (length buf) = n → 0 ≤ i < n → ring_inv n buf i i [].
Proof.
  intros. split; [done|done|simpl; lia| |done].
  simpl. rewrite Z.add_0_r, Z.mod_small; lia.
Qed.

Lemma ring_is_empty n buf head tail q :
  ring_inv n buf head tail q → (tail =? head) = bool_decide (q = []).
Proof.
  intros [? ? ? -> _]. destruct q as [|x q]; simpl in *.
  - rewrite Z.add_0_r, Z.mod_small, Z.eqb_refl by lia. done.
  - apply Z.eqb_neq. rewrite mod_wrap by lia. bool_cases; lia.
Qed.

Lemma ring_is_full n buf head tail q :
  ring_inv n buf head tail q →
  ((head + 1) mod n =? tail) = (Z.of_nat (length q) =? n - 1).
Proof.
  intros [? ? ? -> _]. rewrite Z.add_mod_idemp_l by lia.
  destruct (Z.eqb_spec (Z.of_nat (length q)) (n - 1)) as [Hq|Hq].
  - apply Z.eqb_eq. replace (tail + Z.of_nat (length q) + 1) with (tail + 1 * n) by lia.
    rewrite Z.mod_add, Z.mod_small; lia.
  - apply Z.eqb_neq. rewrite mod_wrap by lia. bool_cases; lia.
Qed.

Lemma arr_get_insert buf i j x :
  0 ≤ i → 0 ≤ j < Z.of_nat (length buf) →
  arr_get (<[Z.to_nat j := x]> buf) i = if decide (i = j) then Some x else arr_get buf i.
Proof.
  intros Hi Hj. unfold arr_get. destruct (Z.leb_spec 0 i); [|lia].
  case_decide as Hd; [subst; apply list_lookup_insert_eq; lia|].
  apply list_lookup_insert_ne. lia.
Qed.

(** Writing the head slot and advancing the head enqueues. *)
Lemma ring_put n buf head tail q x :
  ring_inv n buf head tail q → Z.of_nat (length q) < n - 1 →
  ∃ buf', arr_set buf head x = Some buf' ∧
    ring_inv n buf' ((head + 1) mod n) tail (q ++ [x]).
Proof.
  intros Hr Hq. pose proof (ring_head_range _ _ _ _ _ Hr) as Hh.
  destruct Hr as [Hn Ht Hc Hhd Hs]. unfold arr_set.
  destruct (Z.leb_spec 0 head); [|lia].
  destruct (Z.ltb_spec head (Z.of_nat (length buf))); [|lia]. simpl.
  eexists. split; [done|]. split.
  - by rewrite length_insert.
  - done.
  - rewrite length_app. simpl. lia.
  - rewrite length_app, Hhd, Z.add_mod_idemp_l by lia. simpl. f_equal. lia.
  - intros i y Hi.
    assert (i < length (q ++ [x]))%nat as Hlt by (eapply lookup_lt_Some; eauto).
    rewrite length_app in Hlt. simpl in Hlt.
    rewrite arr_get_insert; [|apply Z.mod_pos_bound; lia|lia].
    destruct (decide (i = length q)) as [->|Hne].
    + rewrite lookup_app_r, Nat.sub_diag in Hi by lia. simplify_eq/=.
      by rewrite decide_True.
    + rewrite lookup_app_l in Hi by lia. rewrite decide_False; [by apply Hs|].
      subst head. rewrite !mod_wrap by lia. bool_cases; lia.
Qed.

(** Reading the tail slot and advancing the tail dequeues. *)
Lemma ring_get n buf head tail x q :
  ring_inv n buf head tail (x :: q) →
  arr_get buf tail = Some x ∧ ring_inv n buf head ((tail + 1) mod n) q.
Proof.
  intros [Hn Ht Hc Hhd Hs]. simpl in *. split.
  - pose proof (Hs O x eq_refl) as H. simpl in H.
    by rewrite Z.add_0_r, Z.mod_small in H by lia.
  - split; [done|apply Z.mod_pos_bound; lia|lia| |].
    + rewrite Hhd, Z.add_mod_idemp_l by lia. f_equal. lia.
    + intros i y Hi. rewrite Z.add_mod_idemp_l by lia.
      rewrite <-(Hs (S i) y Hi). do 2 f_equal. lia.
Qed.
End ring.
