(* ===== verification/Ps2Kbd.v ===== *)
(** * PS/2 keyboard driver

    Translation of [src/src/drivers/input/ps2_kbd.c] (key codes and modifier
    bits from [src/src/include/fry_input.h]).  The port reads of [inb] are a
    stream: [hw_in k port] is the value of the [k]-th port read.  Each
    operation runs to completion (the driver takes no lock; the interrupt
    handler and the readers are interleaved operation by operation).  The
    [kprint] messages are not modelled. *)

From S2P Require Import Prelude Ring.

Definition FRY_MOD_LSHIFT : Z := 0x01.
Definition FRY_MOD_RSHIFT : Z := 0x02.
Definition FRY_MOD_SHIFT : Z := Z.lor FRY_MOD_LSHIFT FRY_MOD_RSHIFT.
Definition FRY_MOD_LCTRL : Z := 0x04.
Definition FRY_MOD_RCTRL : Z := 0x08.
Definition FRY_MOD_LALT : Z := 0x10.
Definition FRY_MOD_RALT : Z := 0x20.
Definition FRY_MOD_CAPSLOCK : Z := 0x40.
Definition FRY_MOD_NUMLOCK : Z := 0x80.

Definition FRY_VK_ESCAPE : Z := 0x100.
Definition FRY_VK_F (k : Z) : Z := 0x100 + k.
Definition FRY_VK_UP : Z := 0x110.
Definition FRY_VK_DOWN : Z := 0x111.
Definition FRY_VK_LEFT : Z := 0x112.
Definition FRY_VK_RIGHT : Z := 0x113.
Definition FRY_VK_HOME : Z := 0x114.
Definition FRY_VK_END : Z := 0x115.
Definition FRY_VK_PGUP : Z := 0x116.
Definition FRY_VK_PGDN : Z := 0x117.
Definition FRY_VK_INSERT : Z := 0x118.
Definition FRY_VK_DELETE : Z := 0x119.
Definition FRY_VK_LSHIFT : Z := 0x120.
Definition FRY_VK_RSHIFT : Z := 0x121.
Definition FRY_VK_LCTRL : Z := 0x122.
Definition FRY_VK_RCTRL : Z := 0x123.
Definition FRY_VK_LALT : Z := 0x124.
Definition FRY_VK_RALT : Z := 0x125.
Definition FRY_VK_CAPSLOCK : Z := 0x126.
Definition FRY_VK_NUMLOCK : Z := 0x127.
Definition FRY_VK_SCROLLLOCK : Z := 0x128.
Definition FRY_VK_KP (k : Z) : Z := 0x140 + k.
Definition FRY_VK_KP_ENTER : Z := 0x14A.
Definition FRY_VK_KP_DOT : Z := 0x14B.
Definition FRY_VK_KP_PLUS : Z := 0x14C.
Definition FRY_VK_KP_MINUS : Z := 0x14D.
Definition FRY_VK_KP_SLASH : Z := 0x14F.

Definition FRY_KEY_PRESSED : Z := 0.
Definition FRY_KEY_RELEASED : Z := 1.
Definition KBD_EVT_RING_SIZE : Z := 64.

Record fry_key_event := KeyEvent {
  ev_scancode : Z; ev_vk : Z; ev_mods : Z; ev_flags : Z; ev_ascii : Z; ev_pad : Z
}.

(** ** Tables *)

(** The rows of [scancode_map]; the C array is padded with zeros to 128. *)
Definition scancode_map_rows : list Z :=
  [0; 27; 49;50;51;52;53;54;55;56;57;48;45;61; 8;
   9;113;119;101;114;116;121;117;105;111;112;91;93;10;
   0; 97;115;100;102;103;104;106;107;108;59;39;96;
   0; 92;122;120;99;118;98;110;109;44;46;47; 0;
   42; 0; 32; 0].
Definition scancode_map_shift_rows : list Z :=
  [0; 27; 33;64;35;36;37;94;38;42;40;41;95;43; 8;
   9;81;87;69;82;84;89;85;73;79;80;123;125;10;
   0; 65;83;68;70;71;72;74;75;76;58;34;126;
   0; 124;90;88;67;86;66;78;77;60;62;63; 0;
   42; 0; 32; 0].
Definition scancode_map (sc : Z) : Z := default 0 (arr_get scancode_map_rows sc).
Definition scancode_map_shift (sc : Z) : Z := default 0 (arr_get scancode_map_shift_rows sc).

Definition scancode_to_vk (sc : Z) : Z :=
  match sc with
  | 0x01 => FRY_VK_ESCAPE | 0x0E => 8 | 0x0F => 9 | 0x1C => 10
  | 0x1D => FRY_VK_LCTRL | 0x2A => FRY_VK_LSHIFT | 0x36 => FRY_VK_RSHIFT
  | 0x38 => FRY_VK_LALT | 0x3A => FRY_VK_CAPSLOCK
  | 0x3B => FRY_VK_F 1 | 0x3C => FRY_VK_F 2 | 0x3D => FRY_VK_F 3 | 0x3E => FRY_VK_F 4
  | 0x3F => FRY_VK_F 5 | 0x40 => FRY_VK_F 6 | 0x41 => FRY_VK_F 7 | 0x42 => FRY_VK_F 8
  | 0x43 => FRY_VK_F 9 | 0x44 => FRY_VK_F 10
  | 0x45 => FRY_VK_NUMLOCK | 0x46 => FRY_VK_SCROLLLOCK
  | 0x47 => FRY_VK_KP 7 | 0x48 => FRY_VK_KP 8 | 0x49 => FRY_VK_KP 9
  | 0x4A => FRY_VK_KP_MINUS
  | 0x4B => FRY_VK_KP 4 | 0x4C => FRY_VK_KP 5 | 0x4D => FRY_VK_KP 6
  | 0x4E => FRY_VK_KP_PLUS
  | 0x4F => FRY_VK_KP 1 | 0x50 => FRY_VK_KP 2 | 0x51 => FRY_VK_KP 3
  | 0x52 => FRY_VK_KP 0 | 0x53 => FRY_VK_KP_DOT
  | 0x57 => FRY_VK_F 11 | 0x58 => FRY_VK_F 12
  | _ => 0
  end.

Definition extended_to_vk (sc : Z) : Z :=
  match sc with
  | 0x1C => FRY_VK_KP_ENTER | 0x1D => FRY_VK_RCTRL | 0x35 => FRY_VK_KP_SLASH
  | 0x38 => FRY_VK_RALT | 0x47 => FRY_VK_HOME | 0x48 => FRY_VK_UP | 0x49 => FRY_VK_PGUP
  | 0x4B => FRY_VK_LEFT | 0x4D => FRY_VK_RIGHT | 0x4F => FRY_VK_END | 0x50 => FRY_VK_DOWN
  | 0x51 => FRY_VK_PGDN | 0x52 => FRY_VK_INSERT | 0x53 => FRY_VK_DELETE
  | _ => 0
  end.

(** ** State *)

Record kbd := Kbd {
  keybuf : list Z; key_head : Z; key_tail : Z; key_seen : Z;
  evt_ring : list fry_key_event; evt_head : Z; evt_tail : Z;
  g_mods : Z; g_extended : Z;
  irq_registered : bool;
  hw_in : nat → Z → Z; n_in : nat
}.

Definition set_keybuf (b : list Z) (h t : Z) (s : kbd) : kbd :=
  Kbd b h t (key_seen s) (evt_ring s) (evt_head s) (evt_tail s) (g_mods s) (g_extended s)
    (irq_registered s) (hw_in s) (n_in s).
Definition set_key_seen (v : Z) (s : kbd) : kbd :=
  Kbd (keybuf s) (key_head s) (key_tail s) v (evt_ring s) (evt_head s) (evt_tail s)
    (g_mods s) (g_extended s) (irq_registered s) (hw_in s) (n_in s).
Definition set_evt_ring (b : list fry_key_event) (h t : Z) (s : kbd) : kbd :=
  Kbd (keybuf s) (key_head s) (key_tail s) (key_seen s) b h t (g_mods s) (g_extended s)
    (irq_registered s) (hw_in s) (n_in s).
Definition set_mods (m e : Z) (s : kbd) : kbd :=
  Kbd (keybuf s) (key_head s) (key_tail s) (key_seen s) (evt_ring s) (evt_head s) (evt_tail s)
    m e (irq_registered s) (hw_in s) (n_in s).
Definition set_kbd_irq (b : bool) (s : kbd) : kbd :=
  Kbd (keybuf s) (key_head s) (key_tail s) (key_seen s) (evt_ring s) (evt_head s) (evt_tail s)
    (g_mods s) (g_extended s) b (hw_in s) (n_in s).
Definition set_n_in (n : nat) (s : kbd) : kbd :=
  Kbd (keybuf s) (key_head s) (key_tail s) (key_seen s) (evt_ring s) (evt_head s) (evt_tail s)
    (g_mods s) (g_extended s) (irq_registered s) (hw_in s) n.

Definition inb (port : Z) : M kbd Z :=
  v ← gets (λ s, u8 (hw_in s (n_in s) port));
  modify (λ s, set_n_in (S (n_in s)) s);;
  mret v.

(** ** Queues *)

Definition keybuf_put (c : Z) : M kbd unit :=
  next ← gets (λ s, Z.land (u32 (key_head s + 1)) 0xFF);
  tail ← gets key_tail;
  if next =? tail then mret tt
  else update_opt (λ s,
    b ← arr_set (keybuf s) (key_head s) c; Some (set_keybuf b next (key_tail s) s)).

Definition evt_put (e : fry_key_event) : M kbd unit :=
  next ← gets (λ s, u32 (evt_head s + 1) mod KBD_EVT_RING_SIZE);
  tail ← gets evt_tail;
  if next =? tail then mret tt
  else update_opt (λ s,
    b ← arr_set (evt_ring s) (evt_head s) e; Some (set_evt_ring b next (evt_tail s) s)).

(** ** Scancodes *)

Definition apply_capslock (c mods : Z) : Z :=
  if Z.land mods FRY_MOD_CAPSLOCK =? 0 then c
  else if (97 <=? c) && (c <=? 122) then c - 32
  else if (65 <=? c) && (c <=? 90) then c + 32
  else c.

(** The virtual key of a scancode: the tables, then the ASCII value. *)
Definition vk_of (is_ext : bool) (base_sc : Z) : Z :=
  let vk := if is_ext then extended_to_vk base_sc else scancode_to_vk base_sc in
  if (vk =? 0) && negb is_ext && (base_sc <? 128) then
    let c := scancode_map base_sc in if negb (c =? 0) then u16 (u8 c) else vk
  else vk.

(** The two [switch]es on modifier keys; [g_mods] is a [uint8_t]. *)
Definition mods_after (release : bool) (vk m : Z) : Z :=
  if negb release then
    match vk with
    | 0x120 => Z.lor m FRY_MOD_LSHIFT
    | 0x121 => Z.lor m FRY_MOD_RSHIFT
    | 0x122 => Z.lor m FRY_MOD_LCTRL
    | 0x123 => Z.lor m FRY_MOD_RCTRL
    | 0x124 => Z.lor m FRY_MOD_LALT
    | 0x125 => Z.lor m FRY_MOD_RALT
    | 0x126 => Z.lxor m FRY_MOD_CAPSLOCK
    | 0x127 => Z.lxor m FRY_MOD_NUMLOCK
    | _ => m
    end
  else
    match vk with
    | 0x120 => u8 (Z.land m (Z.lnot FRY_MOD_LSHIFT))
    | 0x121 => u8 (Z.land m (Z.lnot FRY_MOD_RSHIFT))
    | 0x122 => u8 (Z.land m (Z.lnot FRY_MOD_LCTRL))
    | 0x123 => u8 (Z.land m (Z.lnot FRY_MOD_RCTRL))
    | 0x124 => u8 (Z.land m (Z.lnot FRY_MOD_LALT))
    | 0x125 => u8 (Z.land m (Z.lnot FRY_MOD_RALT))
    | _ => m
    end.

(** The character of a key press, 0 for none. *)
Definition ascii_of (release is_ext : bool) (base_sc vk mods : Z) : Z :=
  if negb release && negb is_ext && (base_sc <? 128) then
    let c := if negb (Z.land mods FRY_MOD_SHIFT =? 0) then scancode_map_shift base_sc
             else scancode_map base_sc in
    apply_capslock c mods
  else if negb release && is_ext then
    if vk =? FRY_VK_KP_ENTER then 10 else if vk =? FRY_VK_DELETE then 127 else 0
  else 0.

Definition process_scancode (sc : Z) : M kbd unit :=
  if sc =? 0xE0 then modify (λ s, set_mods (g_mods s) 1 s)
  else
    let release := negb (Z.land sc 0x80 =? 0) in
    let base_sc := Z.land sc 0x7F in
    is_ext ← gets (λ s, negb (g_extended s =? 0));
    modify (λ s, set_mods (g_mods s) 0 s);;
    let scancode := if is_ext : bool then u16 (Z.lor 0xE000 base_sc) else u16 base_sc in
    let flags := if release then FRY_KEY_RELEASED else FRY_KEY_PRESSED in
    let vk := vk_of is_ext base_sc in
    modify (λ s, set_mods (mods_after release vk (g_mods s)) (g_extended s) s);;
    mods ← gets g_mods;
    let c := ascii_of release is_ext base_sc vk mods in
    (if negb (c =? 0) then keybuf_put c else mret tt);;
    evt_put (KeyEvent scancode vk mods flags (u8 c) 0);;
    seen ← gets key_seen;
    if (seen =? 0) && negb release then modify (set_key_seen 1) else mret tt.

(** ** Entry points *)

(** [buf[n++] = keybuf[key_tail]; key_tail = (key_tail + 1) & 0xFF] *)
Definition keybuf_get : M kbd Z :=
  c ← lift_opt (λ s, arr_get (keybuf s) (key_tail s));
  modify (λ s, set_keybuf (keybuf s) (key_head s) (Z.land (u32 (key_tail s + 1)) 0xFF) s);;
  mret c.

Definition key_ready : M kbd bool := gets (λ s, negb (key_tail s =? key_head s)).

(** The bytes stored in [buf], in order; the C result is their number. *)
Definition ps2_kbd_read (len : Z) : M kbd (list Z) :=
  buf ← while (len + 1) (λ buf,
    ready ← key_ready;
    if (Z.of_nat (length buf) <? len) && ready then
      c ← keybuf_get; mret (inl (buf ++ [c]))
    else mret (inr buf)) [];
  if (Z.of_nat (length buf) =? 0) && (0 <? len) then
    r ← for_ 0 8 (λ _,
      st ← inb 0x64;
      if Z.land st 0x01 =? 0 then mret None
      else if negb (Z.land st 0x20 =? 0) then mret None
      else
        sc ← inb 0x60;
        process_scancode sc;;
        ready ← key_ready;
        if ready : bool then c ← keybuf_get; mret (Some [c]) else mret None);
    mret (default [] r)
  else mret buf.

Definition ps2_kbd_read_event : M kbd (option fry_key_event) :=
  empty ← gets (λ s, evt_tail s =? evt_head s);
  if empty : bool then mret None
  else
    e ← lift_opt (λ s, arr_get (evt_ring s) (evt_tail s));
    modify (λ s, set_evt_ring (evt_ring s) (evt_head s)
                   (u32 (evt_tail s + 1) mod KBD_EVT_RING_SIZE) s);;
    mret (Some e).

Definition ps2_kbd_get_mods : M kbd Z := gets g_mods.

Definition ps2_kbd_irq : M kbd unit := sc ← inb 0x60; process_scancode sc.

(** [irq_ok] is whether [request_irq] accepted the handler. *)
Definition ps2_kbd_init (irq_ok : bool) : M kbd unit :=
  modify (λ s, set_keybuf (keybuf s) 0 0 s);;
  modify (λ s, set_evt_ring (evt_ring s) 0 0 s);;
  modify (set_key_seen 0);;
  modify (set_mods 0 0);;
  modify (set_kbd_irq irq_ok).

(** ** Specification: two bounded queues and the decoded keys *)

(** What an interrupt or a call does, and what it returns. *)
Inductive kbd_op := KIrq | KRead (len : Z) | KReadEvent | KMods.
Inductive kbd_out :=
  | ONone | OBytes (l : list Z) | OEvent (e : option fry_key_event) | OMods (m : Z).

Definition kbd_do (o : kbd_op) : M kbd kbd_out :=
  match o with
  | KIrq => ps2_kbd_irq;; mret ONone
  | KRead len => l ← ps2_kbd_read len; mret (OBytes l)
  | KReadEvent => e ← ps2_kbd_read_event; mret (OEvent e)
  | KMods => m ← ps2_kbd_get_mods; mret (OMods m)
  end.

Fixpoint kbd_run (ops : list kbd_op) : M kbd (list kbd_out) :=
  match ops with
  | [] => mret []
  | o :: ops => r ← kbd_do o; rs ← kbd_run ops; mret (r :: rs)
  end.

Record akbd := AKbd {
  a_chars : list Z; a_events : list fry_key_event; a_mods : Z; a_ext : bool
}.

(** A bounded queue drops the newest element when it is full. *)
Definition push {A} (cap : Z) (x : A) (q : list A) : list A :=
  if Z.of_nat (length q) <? cap then q ++ [x] else q.

(** A decoded key: extended prefix, base scancode, release. *)
Record key := Key { k_ext : bool; k_base : Z; k_release : bool }.

Definition key_of (ext : bool) (sc : Z) : key := Key ext (sc mod 128) (128 <=? sc).
Definition key_vk (k : key) : Z := vk_of (k_ext k) (k_base k).
Definition key_mods (k : key) (m : Z) : Z := mods_after (k_release k) (key_vk k) m.
Definition key_char (k : key) (m : Z) : Z :=
  ascii_of (k_release k) (k_ext k) (k_base k) (key_vk k) m.
Definition key_event (k : key) (m : Z) : fry_key_event :=
  KeyEvent ((if k_ext k then 0xE000 else 0) + k_base k) (key_vk k) m
    (if k_release k then FRY_KEY_RELEASED else FRY_KEY_PRESSED) (key_char k m) 0.

Definition a_key (k : key) (a : akbd) : akbd :=
  let m := key_mods k (a_mods a) in
  AKbd (if key_char k m =? 0 then a_chars a else push 255 (key_char k m) (a_chars a))
    (push 63 (key_event k m) (a_events a)) m false.

Definition a_scan (sc : Z) (a : akbd) : akbd :=
  if sc =? 0xE0 then AKbd (a_chars a) (a_events a) (a_mods a) true
  else a_key (key_of (a_ext a) sc) a.

Section abstract.
Context (hw : nat → Z → Z).

(** The fallback poll: at most [k] status reads, until a character arrives. *)
Fixpoint a_poll (k n : nat) (a : akbd) : list Z * akbd * nat :=
  match k with
  | O => ([], a, n)
  | S k =>
      let st := u8 (hw n 0x64) in
      if Z.testbit st 0 && negb (Z.testbit st 5) then
        let a' := a_scan (u8 (hw (S n) 0x60)) a in
        match a_chars a' with
        | c :: q => ([c], AKbd q (a_events a') (a_mods a') (a_ext a'), S (S n))
        | [] => a_poll k (S (S n)) a'
        end
      else a_poll k (S n) a
  end.

Definition a_read (len : Z) (n : nat) (a : akbd) : list Z * akbd * nat :=
  match a_chars a with
  | [] => if 0 <? len then a_poll 8 n a else ([], a, n)
  | q => (take (Z.to_nat len) q,
          AKbd (drop (Z.to_nat len) q) (a_events a) (a_mods a) (a_ext a), n)
  end.

Definition a_do (o : kbd_op) (n : nat) (a : akbd) : kbd_out * akbd * nat :=
  match o with
  | KIrq => (ONone, a_scan (u8 (hw n 0x60)) a, S n)
  | KRead len => let '(l, a', n') := a_read len n a in (OBytes l, a', n')
  | KReadEvent =>
      match a_events a with
      | [] => (OEvent None, a, n)
      | e :: q => (OEvent (Some e), AKbd (a_chars a) q (a_mods a) (a_ext a), n)
      end
  | KMods => (OMods (a_mods a), a, n)
  end.

Fixpoint a_run (ops : list kbd_op) (n : nat) (a : akbd) : list kbd_out * akbd * nat :=
  match ops with
  | [] => ([], a, n)
  | o :: ops =>
      let '(r, a', n') := a_do o n a in
      let '(rs, a'', n'') := a_run ops n' a' in (r :: rs, a'', n'')
  end.
End abstract.

Definition a_start : akbd := AKbd [] [] 0 false.

(** The keys of a stream of scancodes. *)
Fixpoint keys (ext : bool) (scs : list Z) : list key :=
  match scs with
  | [] => []
  | sc :: scs => if sc =? 0xE0 then keys true scs else key_of ext sc :: keys false scs
  end.

(** Modifier bit [i] after a sequence of keys: shift, control and alt follow
    the last press or release of their key; the lock bits count presses. *)
Definition last_held (vk : Z) (ks : list key) : bool :=
  match last (filter (λ k, key_vk k = vk) ks) with
  | Some k => negb (k_release k)
  | None => false
  end.
Definition odd_presses (vk : Z) (ks : list key) : bool :=
  Nat.odd (length (filter (λ k, key_vk k = vk ∧ k_release k = false) ks)).
Definition modifier (i : Z) (ks : list key) : bool :=
  if i <? 6 then last_held (FRY_VK_LSHIFT + i) ks else odd_presses (FRY_VK_LSHIFT + i) ks.

Fixpoint feed (scs : list Z) : M kbd unit :=
  match scs with [] => mret tt | sc :: scs => process_scancode sc;; feed scs end.

(** The arrays have their declared sizes. *)
Definition kbd_arrays (s : kbd) : Prop :=
  length (keybuf s) = 256%nat ∧ length (evt_ring s) = 64%nat.

Record kbd_rel (s : kbd) (a : akbd) : Prop := {
  kr_chars : ring_inv 256 (keybuf s) (key_head s) (key_tail s) (a_chars a);
  kr_events : ring_inv 64 (evt_ring s) (evt_head s) (evt_tail s) (a_events a);
  kr_mods : g_mods s = a_mods a;
  kr_ext : negb (g_extended s =? 0) = a_ext a;
  kr_range : 0 ≤ a_mods a < 256
}.

(** Operations that do not touch the ports. *)
Definition same_hw (s s' : kbd) : Prop := hw_in s' = hw_in s ∧ n_in s' = n_in s.

(** ** Lemmas *)

Lemma land_255 x : Z.land x 0xFF = x mod 256.
Proof. change 0xFF with (Z.ones 8). by rewrite Z.land_ones. Qed.

Lemma ring_next n x : 0 ≤ x < n → n ≤ 256 → u32 (x + 1) = x + 1.
Proof. intros. apply u32_small. lia. Qed.

Lemma wp_keybuf_put c s a :
  kbd_rel s a →
  wp (keybuf_put c) (λ _ s', same_hw s s' ∧ key_seen s' = key_seen s ∧
    kbd_rel s' (AKbd (push 255 c (a_chars a)) (a_events a) (a_mods a) (a_ext a))) s.
Proof.
  intros [Hc He Hm Hx Hr]. unfold keybuf_put. wp_steps.
  pose proof (ring_head_range _ _ _ _ _ Hc). rewrite land_255, (ring_next 256) by lia.
  rewrite (ring_is_full _ _ _ _ _ Hc). unfold push. destruct Hc.
  destruct (Z.eqb_spec (Z.of_nat (length (a_chars a))) (256 - 1)).
  - wp_steps. destruct (Z.ltb_spec (Z.of_nat (length (a_chars a))) 255); [lia|].
    by repeat (split; [done|]).
  - destruct (Z.ltb_spec (Z.of_nat (length (a_chars a))) 255); [|lia].
    destruct (ring_put 256 (keybuf s) (key_head s) (key_tail s) (a_chars a) c)
      as (b & Hb & Hi); [done|lia|].
    eapply wp_update_opt; [by rewrite Hb|]. split_and!; [done..|]. by constructor.
Qed.

Lemma wp_evt_put e s a :
  kbd_rel s a →
  wp (evt_put e) (λ _ s', same_hw s s' ∧
    kbd_rel s' (AKbd (a_chars a) (push 63 e (a_events a)) (a_mods a) (a_ext a))) s.
Proof.
  intros [Hc He Hm Hx Hr]. unfold evt_put, KBD_EVT_RING_SIZE. wp_steps.
  pose proof (ring_head_range _ _ _ _ _ He). rewrite (ring_next 64) by lia.
  rewrite (ring_is_full _ _ _ _ _ He). unfold push. destruct He.
  destruct (Z.eqb_spec (Z.of_nat (length (a_events a))) (64 - 1)).
  - wp_steps. destruct (Z.ltb_spec (Z.of_nat (length (a_events a))) 63); [lia|].
    by repeat (split; [done|]).
  - destruct (Z.ltb_spec (Z.of_nat (length (a_events a))) 63); [|lia].
    destruct (ring_put 64 (evt_ring s) (evt_head s) (evt_tail s) (a_events a) e)
      as (b & Hb & Hi); [done|lia|].
    eapply wp_update_opt; [by rewrite Hb|]. split_and!; [done..|]. by constructor.
Qed.

(** The modifier switch on every key and every modifier byte. *)
Definition bit_after (release : bool) (vk i : Z) (b : bool) : bool :=
  if vk =? FRY_VK_LSHIFT + i then
    if i <? 6 then negb release else if release then b else negb b
  else b.

Definition mods_table_ok : bool :=
  forallb (λ m, forallb (λ r, forallb (λ j,
    let m' := mods_after r (FRY_VK_LSHIFT + j) m in
    (0 <=? m') && (m' <? 256) &&
    forallb (λ i, eqb (Z.testbit m' i)
                      (bit_after r (FRY_VK_LSHIFT + j) i (Z.testbit m i))) (seqZ 0 8))
    (seqZ 0 8)) [true; false]) (seqZ 0 256).

Lemma mods_table : mods_table_ok = true.
Proof. vm_compute. reflexivity. Qed.

Lemma mods_after_other r vk m :
  ¬ (FRY_VK_LSHIFT ≤ vk < FRY_VK_LSHIFT + 8) → mods_after r vk m = m.
Proof.
  unfold FRY_VK_LSHIFT. intros Hvk. unfold mods_after.
  destruct r; simpl negb; cbv iota;
    repeat match goal with |- match ?x with _ => _ end = _ => destruct x; try done; try lia end.
Qed.

Lemma mods_after_spec r vk m :
  0 ≤ m < 256 → 0 ≤ mods_after r vk m < 256 ∧
  ∀ i, 0 ≤ i < 8 → Z.testbit (mods_after r vk m) i = bit_after r vk i (Z.testbit m i).
Proof.
  intros Hm. destruct (decide (FRY_VK_LSHIFT ≤ vk < FRY_VK_LSHIFT + 8)) as [Hvk|Hvk].
  - pose proof (forall_range _ _ mods_table m Hm) as H.
    rewrite forallb_forall in H. specialize (H r).
    assert (In r [true; false]) as Hin by (destruct r; simpl; auto).
    specialize (H Hin). pose proof (forall_range _ _ H (vk - FRY_VK_LSHIFT) ltac:(lia)) as H1.
    cbv beta zeta in H1. replace (FRY_VK_LSHIFT + (vk - FRY_VK_LSHIFT)) with vk in H1 by lia.
    apply andb_true_iff in H1 as [H1 H2]. b2p. split; [lia|]. intros i Hi.
    apply eqb_prop, (forall_range _ _ H2 i Hi).
  - rewrite mods_after_other by done. split; [done|]. intros i Hi. unfold bit_after.
    destruct (Z.eqb_spec vk (FRY_VK_LSHIFT + i)); [lia|done].
Qed.

Lemma scancode_bits sc :
  0 ≤ sc < 256 →
  negb (Z.land sc 0x80 =? 0) = (128 <=? sc) ∧ Z.land sc 0x7F = sc mod 128 ∧
  u16 (Z.lor 0xE000 (sc mod 128)) = 0xE000 + sc mod 128 ∧ u16 (sc mod 128) = sc mod 128.
Proof.
  intros Hsc.
  assert (forallb (λ sc, eqb (negb (Z.land sc 0x80 =? 0)) (128 <=? sc) &&
    (u16 (Z.lor 0xE000 (sc mod 128)) =? 0xE000 + sc mod 128)) (seqZ 0 256) = true) as H
    by (vm_compute; reflexivity).
  pose proof (forall_range _ _ H sc Hsc) as H1. cbv beta in H1.
  apply andb_true_iff in H1 as [H1%eqb_prop H2%Z.eqb_eq]. split_and!; [done| |done|].
  - change 0x7F with (Z.ones 7). by rewrite Z.land_ones.
  - pose proof (Z.mod_pos_bound sc 128 ltac:(lia)). apply u16_small. lia.
Qed.

Lemma map_range b : 0 ≤ scancode_map b < 128 ∧ 0 ≤ scancode_map_shift b < 128.
Proof.
  assert (∀ l, Forall (λ x, 0 ≤ x < 128) l → 0 ≤ default 0 (arr_get l b) < 128) as Hd.
  { intros l Hl. unfold arr_get. destruct (0 <=? b); [|simpl; lia].
    destruct (l !! Z.to_nat b) eqn:E; [|simpl; lia].
    exact (proj1 (Forall_lookup _ _) Hl _ _ E). }
  split; apply Hd; repeat (constructor; [lia|]); constructor.
Qed.

Lemma ascii_range r e b vk m : 0 ≤ ascii_of r e b vk m < 256.
Proof.
  pose proof (map_range b). unfold ascii_of, apply_capslock.
  repeat case_match; b2p; lia.
Qed.

(** A scancode does to the driver what the decoded key does to the queues. *)
Lemma wp_process_scancode sc s a :
  0 ≤ sc < 256 → kbd_rel s a →
  wp (process_scancode sc) (λ _ s', same_hw s s' ∧ kbd_rel s' (a_scan sc a)) s.
Proof.
  intros Hsc HR. unfold process_scancode, a_scan.
  destruct (Z.eqb_spec sc 0xE0); [wp_steps; destruct HR; by repeat (split; try done)|].
  destruct (scancode_bits sc Hsc) as (Hrel & Hbase & Hext & Hplain).
  rewrite Hrel, Hbase, Hext, Hplain. wp_steps. cbv zeta. wp_steps.
  rewrite (kr_ext _ _ HR).
  set (k := key_of (a_ext a) sc). set (m := key_mods k (a_mods a)).
  change (vk_of (a_ext a) (sc mod 128)) with (key_vk k).
  pose proof (kr_range _ _ HR) as Hr.
  pose proof (mods_after_spec (k_release k) (key_vk k) (a_mods a) Hr) as [Hm _].
  match goal with |- wp _ _ ?st => set (s1 := st) end.
  assert (same_hw s s1 ∧ kbd_rel s1 (AKbd (a_chars a) (a_events a) m false)) as [Hh1 HR1].
  { split; [done|]. destruct HR as [? ? Hmods ? ?]. split; try done. simpl.
    unfold m, key_mods. by rewrite Hmods. }
  replace (g_mods s1) with m by (symmetry; apply HR1).
  change (ascii_of _ _ _ _ m) with (key_char k m).
  apply (wp_mono _ (λ _ s', same_hw s s' ∧ kbd_rel s' (AKbd
    (if key_char k m =? 0 then a_chars a else push 255 (key_char k m) (a_chars a))
    (a_events a) m false))).
  { destruct (key_char k m =? 0); simpl negb; cbv iota; [by wp_steps|].
    eapply wp_mono; [by apply wp_keybuf_put|]. intros [] s2 ([? ?] & _ & ?).
    destruct Hh1. split; [split; congruence|done]. }
  intros [] s2 [Hh2 HR2]. wp_steps. eapply wp_mono; [by apply wp_evt_put|].
  intros [] s3 [Hh3 HR3]. wp_steps.
  rewrite u8_small in HR3 by apply ascii_range.
  assert (same_hw s s3) as Hh by (destruct Hh1, Hh2, Hh3; split; congruence).
  replace (if a_ext a then 0xE000 + sc mod 128 else sc mod 128)
    with ((if k_ext k then 0xE000 else 0) + k_base k) in HR3
    by (simpl; destruct (a_ext a); lia).
  destruct (_ && _); wp_steps; (split; [exact Hh|]); [|exact HR3].
  destruct HR3. by split.
Qed.

(** ** Readers *)

(** The driver is related to [a] and has made [n] port reads of [hw]. *)
Definition at_port (hw : nat → Z → Z) (s : kbd) (n : nat) (a : akbd) : Prop :=
  kbd_rel s a ∧ hw_in s = hw ∧ n_in s = n.

Lemma wp_inb hw port s n a :
  at_port hw s n a →
  wp (inb port) (λ v s', v = u8 (hw n port) ∧ at_port hw s' (S n) a) s.
Proof.
  intros (HR & <- & <-). unfold inb. wp_steps. split; [done|].
  destruct HR. by repeat (split; try done).
Qed.

Lemma wp_scan hw sc s n a :
  0 ≤ sc < 256 → at_port hw s n a →
  wp (process_scancode sc) (λ _ s', at_port hw s' n (a_scan sc a)) s.
Proof.
  intros Hsc (HR & Hhw & Hn). eapply wp_mono; [by apply wp_process_scancode|].
  intros [] s' [[? ?] ?]. by rewrite <-Hhw, <-Hn.
Qed.

Lemma key_ready_spec hw s n a :
  at_port hw s n a →
  wp key_ready (λ b s', s' = s ∧ b = negb (bool_decide (a_chars a = []))) s.
Proof.
  intros (HR & _). unfold key_ready. wp_steps.
  by rewrite (ring_is_empty _ _ _ _ _ (kr_chars _ _ HR)).
Qed.

Lemma wp_keybuf_get hw s n a c q :
  at_port hw s n a → a_chars a = c :: q →
  wp keybuf_get (λ r s', r = c ∧
    at_port hw s' n (AKbd q (a_events a) (a_mods a) (a_ext a))) s.
Proof.
  intros (HR & Hhw & Hn) Hq. destruct HR as [Hc He Hm Hx Hr]. rewrite Hq in Hc.
  apply ring_get in Hc as Hg. destruct Hg as [Hg Hc']. unfold keybuf_get. wp_steps.
  eapply wp_lift_opt; [exact Hg|]. wp_steps. split; [done|].
  pose proof (ri_tail _ _ _ _ _ Hc).
  rewrite land_255, (ring_next 256) by lia. by repeat (split; try done).
Qed.

Lemma status_bits v :
  (Z.land (u8 v) 0x01 =? 0) = negb (Z.testbit (u8 v) 0) ∧
  (Z.land (u8 v) 0x20 =? 0) = negb (Z.testbit (u8 v) 5).
Proof.
  assert (forallb (λ v, eqb (Z.land v 0x01 =? 0) (negb (Z.testbit v 0)) &&
    eqb (Z.land v 0x20 =? 0) (negb (Z.testbit v 5))) (seqZ 0 256) = true) as H
    by (vm_compute; reflexivity).
  pose proof (forall_range _ _ H (u8 v) (u8_range v)) as H1. cbv beta in H1.
  apply andb_true_iff in H1 as [H1%eqb_prop H2%eqb_prop]. done.
Qed.

(** The draining loop takes the first [len] characters. *)
Lemma wp_drain hw len s n a :
  0 ≤ len → at_port hw s n a →
  wp (while (len + 1) (λ buf,
    ready ← key_ready;
    if (Z.of_nat (length buf) <? len) && ready then
      c ← keybuf_get; mret (inl (buf ++ [c]))
    else mret (inr buf)) [])
  (λ buf s', buf = take (Z.to_nat len) (a_chars a) ∧
    at_port hw s' n (AKbd (drop (Z.to_nat len) (a_chars a)) (a_events a) (a_mods a) (a_ext a))) s.
Proof.
  intros Hlen Hat.
  apply (wp_while _ _ (λ buf s', ∃ q, a_chars a = buf ++ q ∧ Z.of_nat (length buf) ≤ len ∧
      at_port hw s' n (AKbd q (a_events a) (a_mods a) (a_ext a)))
    (λ buf _, len - Z.of_nat (length buf))); [|simpl; lia|].
  { exists (a_chars a). split; [done|]. split; [simpl; lia|]. by destruct a. }
  intros buf s' (q & Hq & Hl & Hat'). wp_steps.
  eapply wp_mono; [by eapply key_ready_spec|]. intros b s1 [-> ->]. simpl a_chars.
  destruct (Z.ltb_spec (Z.of_nat (length buf)) len) as [Hlt|Hge]; simpl.
  - destruct q as [|c q]; simpl.
    + wp_steps. rewrite Hq, app_nil_r, take_ge, drop_ge by lia. done.
    + wp_steps. eapply wp_mono; [by eapply wp_keybuf_get|].
      intros c' s2 [-> Hat2]. wp_steps. rewrite length_app. simpl. split; [|lia].
      exists q. rewrite <-app_assoc. split; [done|]. split; [lia|done].
  - wp_steps. assert (Z.to_nat len = length buf) as -> by lia.
    rewrite Hq, take_app_length, drop_app_length. done.
Qed.

Lemma a_poll_S hw k n a :
  a_poll hw (S k) n a =
  if Z.testbit (u8 (hw n 0x64)) 0 && negb (Z.testbit (u8 (hw n 0x64)) 5) then
    match a_chars (a_scan (u8 (hw (S n) 0x60)) a) with
    | c :: q =>
        ([c], AKbd q (a_events (a_scan (u8 (hw (S n) 0x60)) a))
           (a_mods (a_scan (u8 (hw (S n) 0x60)) a)) (a_ext (a_scan (u8 (hw (S n) 0x60)) a)),
         S (S n))
    | [] => a_poll hw k (S (S n)) (a_scan (u8 (hw (S n) 0x60)) a)
    end
  else a_poll hw k (S n) a.
Proof. reflexivity. Qed.

(** The fallback poll. *)
Lemma wp_poll hw s n a :
  at_port hw s n a → a_chars a = [] →
  wp (for_ 0 8 (λ _,
      st ← inb 0x64;
      if Z.land st 0x01 =? 0 then mret None
      else if negb (Z.land st 0x20 =? 0) then mret None
      else
        sc ← inb 0x60;
        process_scancode sc;;
        ready ← key_ready;
        if ready : bool then c ← keybuf_get; mret (Some [c]) else mret None))
  (λ r s', let '(l, a', n') := a_poll hw 8 n a in default [] r = l ∧ at_port hw s' n' a') s.
Proof.
  intros Hat Hemp. destruct (a_poll hw 8 n a) as [[l0 a0] n0] eqn:E0.
  apply (wp_for _ _ _ (λ i s', ∃ n' a', at_port hw s' n' a' ∧ a_chars a' = [] ∧
    a_poll hw (Z.to_nat (8 - i)) n' a' = (l0, a0, n0))); [lia|by exists n, a| |].
  - intros i s' Hi (n' & a' & Hat' & Hemp' & Heq). wp_steps.
    replace (Z.to_nat (8 - i)) with (S (Z.to_nat (8 - (i + 1)))) in Heq by lia.
    rewrite a_poll_S in Heq.
    eapply wp_mono; [by apply wp_inb|]. intros st s1 [-> Hat1].
    destruct (status_bits (hw n' 0x64)) as [-> ->].
    destruct (Z.testbit (u8 (hw n' 0x64)) 0); cbn [negb andb] in *; [|wp_steps; eauto 10].
    destruct (Z.testbit (u8 (hw n' 0x64)) 5); cbn [negb andb] in *; [wp_steps; eauto 10|].
    wp_steps. eapply wp_mono; [by apply wp_inb|]. intros sc s2 [-> Hat2]. wp_steps.
    eapply wp_mono; [eapply (wp_scan hw); [apply u8_range|done]|]. intros [] s3 Hat3. wp_steps.
    eapply wp_mono; [by eapply key_ready_spec|]. intros b s4 [-> ->].
    destruct (a_chars (a_scan (u8 (hw (S n') 0x60)) a')) as [|c q] eqn:Eq.
    + rewrite bool_decide_true by done. cbn [negb]. wp_steps. eauto 10.
    + rewrite bool_decide_false by done. cbn [negb]. wp_steps.
      eapply wp_mono; [by eapply wp_keybuf_get|]. intros c' s5 [-> Hat5].
      wp_steps. by simplify_eq.
  - intros s' (n' & a' & Hat' & Hemp' & Heq). cbv beta. change (Z.to_nat (8 - 8)) with O in Heq. simpl in Heq. injection Heq as <- <- <-. split; [done|exact Hat'].
Qed.

Lemma wp_read hw len s n a :
  0 ≤ len → at_port hw s n a →
  wp (ps2_kbd_read len) (λ l s',
    let '(l', a', n') := a_read hw len n a in l = l' ∧ at_port hw s' n' a') s.
Proof.
  intros Hlen Hat. unfold ps2_kbd_read. wp_steps.
  eapply wp_mono; [by eapply wp_drain|]. intros buf s1 [-> Hat1]. unfold a_read.
  destruct (a_chars a) as [|c q] eqn:Eq.
  - rewrite take_nil, drop_nil in *.
    change (Z.of_nat (length (@nil Z)) =? 0) with true. rewrite andb_true_l.
    assert (AKbd [] (a_events a) (a_mods a) (a_ext a) = a) as Ha by (destruct a; simpl in *; congruence).
    rewrite Ha in Hat1. destruct (Z.ltb_spec 0 len); wp_steps; [|done].
    eapply wp_mono; [by apply (wp_poll hw _ n a)|]. intros r s2.
    destruct (a_poll hw 8 n a) as [[l a'] n']. intros [Hl Hat2]. wp_steps. done.
  - destruct (Z.eqb_spec (Z.of_nat (length (take (Z.to_nat len) (c :: q)))) 0) as [H0|H0].
    + rewrite length_take in H0. simpl in H0.
      destruct (Z.ltb_spec 0 len); [lia|]. by wp_steps.
    + by wp_steps.
Qed.

Lemma wp_do hw o s n a :
  match o with KRead len => 0 ≤ len | _ => True end → at_port hw s n a →
  wp (kbd_do o) (λ r s',
    let '(r', a', n') := a_do hw o n a in r = r' ∧ at_port hw s' n' a') s.
Proof.
  intros Ho Hat. destruct o as [|len| |]; cbn [kbd_do a_do]; wp_steps.
  - unfold ps2_kbd_irq. wp_steps. eapply wp_mono; [by apply wp_inb|].
    intros sc s1 [-> Hat1]. eapply wp_mono; [eapply (wp_scan hw); [apply u8_range|done]|].
    intros [] s2 Hat2. by wp_steps.
  - eapply wp_mono; [by apply wp_read|]. intros l s1.
    destruct (a_read hw len n a) as [[l' a'] n']. intros [-> ?]. by wp_steps.
  - destruct Hat as (HR & Hhw & Hn). destruct HR as [Hc He Hm Hx Hr].
    unfold ps2_kbd_read_event. wp_steps. rewrite (ring_is_empty _ _ _ _ _ He).
    destruct (a_events a) as [|e q] eqn:Eq; simpl; wp_steps; [by repeat (split; try (done || by rewrite Eq))|].
    destruct (ring_get _ _ _ _ _ _ He) as [Hg He'].
    eapply wp_lift_opt; [exact Hg|]. wp_steps. split; [done|].
    pose proof (ri_tail _ _ _ _ _ He). rewrite (ring_next 64) by lia.
    by repeat (split; try done).
  - unfold ps2_kbd_get_mods. wp_steps. split; [|done]. f_equal. apply Hat.
Qed.

Definition op_ok (o : kbd_op) : Prop :=
  match o with KRead len => 0 ≤ len < 2 ^ 32 | _ => True end.

Lemma wp_kbd_run hw ops s n a :
  Forall op_ok ops → at_port hw s n a →
  wp (kbd_run ops) (λ rs s',
    let '(rs', a', n') := a_run hw ops n a in rs = rs' ∧ at_port hw s' n' a') s.
Proof.
  intros Hops. revert s n a. induction Hops as [|o ops Ho _ IH]; intros s n a Hat;
    cbn [kbd_run a_run]; wp_steps; [done|].
  eapply wp_mono; [apply (wp_do hw o s n a); [by destruct o; simpl in *; try lia|done]|].
  intros r s1. destruct (a_do hw o n a) as [[r' a1] n1]. intros [-> Hat1]. wp_steps.
  eapply wp_mono; [by apply IH|]. intros rs s2.
  destruct (a_run hw ops n1 a1) as [[rs' a2] n2]. intros [-> Hat2]. by wp_steps.
Qed.

Lemma wp_ps2_kbd_init ok s :
  kbd_arrays s →
  wp (ps2_kbd_init ok) (λ _ s', at_port (hw_in s) s' (n_in s) a_start) s.
Proof.
  intros [Hk He]. unfold ps2_kbd_init. wp_steps. split; [|done].
  split; simpl; try done; apply ring_start; lia.
Qed.

(** ** Modifiers *)

Lemma modifier_snoc i ks k :
  0 ≤ i < 8 →
  modifier i (ks ++ [k]) = bit_after (k_release k) (key_vk k) i (modifier i ks).
Proof.
  intros Hi. unfold modifier, bit_after, last_held, odd_presses.
  rewrite !filter_app. destruct (Z.ltb_spec i 6).
  - destruct (Z.eqb_spec (key_vk k) (FRY_VK_LSHIFT + i)) as [Hv|Hv].
    + rewrite (filter_cons_True _ k) by done. by rewrite filter_nil, last_snoc.
    + rewrite (filter_cons_False _ k) by done. by rewrite filter_nil, app_nil_r.
  - rewrite length_app. destruct (Z.eqb_spec (key_vk k) (FRY_VK_LSHIFT + i)) as [Hv|Hv].
    + destruct (k_release k) eqn:Er.
      * rewrite (filter_cons_False _ k) by (intros [? ?]; congruence). rewrite filter_nil. by rewrite Nat.add_0_r.
      * rewrite (filter_cons_True _ k) by (split; congruence). rewrite filter_nil. simpl.
        by rewrite Nat.add_1_r, Nat.odd_succ, <-Nat.negb_odd.
    + rewrite (filter_cons_False _ k) by (intros [? ?]; congruence). rewrite filter_nil. by rewrite Nat.add_0_r.
Qed.

Lemma wp_feed scs s a ks :
  Forall (λ sc, 0 ≤ sc < 256) scs → kbd_rel s a →
  (∀ i, 0 ≤ i < 8 → Z.testbit (a_mods a) i = modifier i ks) →
  wp (feed scs) (λ _ s', ∀ i, 0 ≤ i < 8 →
    Z.testbit (g_mods s') i = modifier i (ks ++ keys (a_ext a) scs)) s.
Proof.
  intros Hscs. revert s a ks. induction Hscs as [|sc scs Hsc _ IH]; intros s a ks HR Hm;
    cbn [feed keys]; wp_steps.
  { intros i Hi. rewrite app_nil_r, (kr_mods _ _ HR). by apply Hm. }
  eapply wp_mono; [by apply wp_process_scancode|]. intros [] s1 [_ HR1].
  unfold a_scan in HR1. destruct (Z.eqb_spec sc 0xE0).
  - eapply wp_mono; [apply (IH _ _ ks HR1); done|]. done.
  - rewrite (cons_middle _ ks), (app_assoc ks).
    eapply wp_mono; [apply (IH _ _ (ks ++ [key_of (a_ext a) sc]) HR1)|done].
    intros i Hi. rewrite modifier_snoc by done. simpl a_mods. unfold key_mods.
    pose proof (mods_after_spec (k_release (key_of (a_ext a) sc))
      (key_vk (key_of (a_ext a) sc)) (a_mods a) (kr_range _ _ HR)) as [_ H1].
    by rewrite H1, Hm.
Qed.

(** ** Claims *)


(** After any stream of scancodes, each shift, control and alt bit of the
    modifier byte says whether the last event of that key (as decoded with
    its 0xE0 prefix) was a press, and the caps-lock and num-lock bits are the
    parity of the number of presses. *)
Theorem kbd_modifiers_correct (s : kbd) (ok : bool) (scs : list Z) :
  kbd_arrays s → Forall (λ sc, 0 ≤ sc < 256) scs →
  wp (ps2_kbd_init ok;; feed scs;; ps2_kbd_get_mods) (λ m _,
    ∀ i, 0 ≤ i < 8 → Z.testbit m i = modifier i (keys false scs)) s.
Proof.
  intros Ha Hscs. wp_steps. eapply wp_mono; [by apply wp_ps2_kbd_init|].
  intros [] s1 [HR _]. wp_steps.
  eapply wp_mono; [apply (wp_feed scs s1 a_start [] Hscs HR)|].
  - intros i Hi. simpl. rewrite Z.bits_0. unfold modifier. by case_match.
  - intros [] s2 Hm. unfold ps2_kbd_get_mods. by wp_steps.
Qed.

(** A keyboard on which every port read returns 0x1E, the key [a] with the
    status bit 0 clear. *)
Definition demo_kbd : kbd :=
  Kbd (replicate 256 0) 7 7 1 (replicate 64 (KeyEvent 0 0 0 0 0 0)) 0 0 3 0 false
    (λ _ _, 0x1E) 0.


(** Left shift down, extended right alt down, caps lock pressed, shift up. *)
Lemma kbd_modifiers_correct_witness :
  kbd_arrays demo_kbd ∧
  wp (ps2_kbd_init true;; feed [0x2A; 0xE0; 0x38; 0x3A; 0xBA; 0xAA];; ps2_kbd_get_mods)
    (λ m _, Z.testbit m 0 = false ∧ Z.testbit m 5 = true ∧ Z.testbit m 6 = true) demo_kbd.
Proof.
  assert (kbd_arrays demo_kbd) as Ha by (split; reflexivity).
  split; [exact Ha|].
  eapply wp_mono.
  - apply (kbd_modifiers_correct demo_kbd true [0x2A; 0xE0; 0x38; 0x3A; 0xBA; 0xAA] Ha).
    repeat constructor; lia.
  - intros m s' Hm. rewrite !Hm by lia. vm_compute. auto.
Defined.
