(* ===== verification/Loops.v ===== *)
(** * Loops of fallible programs

    [ME S A] of the prelude, read as a C function that may return an error:
    [halt] is [return -1].  This file adds loops whose body may fail, the
    handling of an ignored error, and their rules. *)

From S2P Require Import Prelude.

Definition fail {S A} : ME S A := halt.

(** A call whose error the caller inspects ([None]) instead of returning. *)
Definition attempt {S A} (m : ME S A) : ME S (option A) := run (m : M S (option A)).
(** A call whose result is ignored. *)
Definition ignore {S A} (m : ME S A) : ME S unit := λ s,
  match m s with Some (_, s') => Some (Some tt, s') | None => None end.
(** The value of a total access; out of range is undefined. *)
Definition need {S A} (o : option A) : ME S A := λ s,
  match o with Some a => Some (Some a, s) | None => None end.
Definition state {S A} (f : S → A) : ME S A := run (gets f).
Definition change {S} (f : S → S) : ME S unit := run (modify f).

Definition while_e {S A R} (fuel : Z) (body : A → ME S (A + R)) (a : A) : ME S R :=
  while (S := S) (R := option R) fuel (λ a s,
    match body a s with
    | Some (Some (inl a'), s') => Some (inl a', s')
    | Some (Some (inr r), s') => Some (inr (Some r), s')
    | Some (None, s') => Some (inr None, s')
    | None => None
    end) a.

(** [for (i = lo; i < hi; i++) body]; [Some r] leaves the loop. *)
Definition for_er {S R} (lo hi : Z) (body : Z → ME S (option R)) : ME S (option R) :=
  while_e (Z.max 0 (hi - lo) + 1)
    (λ i, if i <? hi then
            r ← body i;
            mret (match r with Some x => inr (Some x) | None => inl (i + 1) end)
          else mret (inr None)) lo.

Section rules.
Context {S : Type}.
Implicit Types s : S.

Lemma wpe_attempt {A} (m : ME S A) (Q : option A → S → Prop) (H : S → Prop) s :
  wpe m (λ a, Q (Some a)) (Q None) s → wpe (attempt m) Q H s.
Proof. unfold wpe, wp, attempt, run. by destruct (m s) as [[[a|] s']|]. Qed.

Lemma wpe_ignore {A} (m : ME S A) (Q : unit → S → Prop) (H : S → Prop) s :
  wpe m (λ _, Q tt) (Q tt) s → wpe (ignore m) Q H s.
Proof. unfold wpe, wp, ignore. by destruct (m s) as [[[a|] s']|]. Qed.

Lemma wpe_need {A} (o : option A) a (Q : A → S → Prop) (H : S → Prop) s :
  o = Some a → Q a s → wpe (need o) Q H s.
Proof. by intros ->. Qed.

Lemma wpe_state {A} (f : S → A) (Q : A → S → Prop) (H : S → Prop) s :
  Q (f s) s → wpe (state f) Q H s.
Proof. done. Qed.

Lemma wpe_change (f : S → S) (Q : unit → S → Prop) (H : S → Prop) s :
  Q tt (f s) → wpe (change f) Q H s.
Proof. done. Qed.

Lemma wpe_while {A R} fuel (body : A → ME S (A + R)) (I : A → S → Prop) (V : A → S → Z)
    (Q : R → S → Prop) (H : S → Prop) a s :
  I a s → 0 ≤ V a s < fuel →
  (∀ a s, I a s → wpe (body a) (λ r s',
     match r with inl a' => I a' s' ∧ 0 ≤ V a' s' < V a s | inr x => Q x s' end) H s) →
  wpe (while_e fuel body a) Q H s.
Proof.
  intros HI HV Hb. unfold wpe, while_e. apply (wp_while _ _ I V); [done..|].
  intros a1 s1 HI1. pose proof (Hb a1 s1 HI1) as Hw. unfold wpe, wp in *.
  by destruct (body a1 s1) as [[[[a'|r]|] s']|].
Qed.

Lemma wpe_for_er {R} lo hi (body : Z → ME S (option R)) (I : Z → S → Prop)
    (Q : option R → S → Prop) (H : S → Prop) s :
  lo ≤ hi → I lo s →
  (∀ i s, lo ≤ i < hi → I i s → wpe (body i) (λ r s',
     match r with Some x => Q (Some x) s' | None => I (i + 1) s' end) H s) →
  (∀ s, I hi s → Q None s) →
  wpe (for_er lo hi body) Q H s.
Proof.
  intros Hle HI Hb Hend. unfold for_er.
  apply (wpe_while _ _ (λ i s, lo ≤ i ≤ hi ∧ I i s) (λ i _, hi - i)); [by split; [lia|]|lia|].
  intros i s' [Hi HIi]. destruct (Z.ltb_spec i hi).
  - apply wpe_bind. eapply wpe_mono; [apply Hb; [lia|done]| |done].
    intros [x|] s'' Hx; apply wpe_ret; [done|]. split; [split; [lia|done]|lia].
  - apply wpe_ret. apply Hend. by replace hi with i by lia.
Qed.

Lemma wpe_run_eq {A} (m : ME S A) Q (H : S → Prop) s :
  wpe m Q H s ↔ ∃ r s', m s = Some (r, s') ∧ match r with Some a => Q a s' | None => H s' end.
Proof. unfold wpe, wp. destruct (m s) as [[r s']|]; split; naive_solver. Qed.
End rules.

(** Symbolic execution of a fallible program. *)
Ltac we_step :=
  cbv beta;
  lazymatch goal with
  | |- wpe (mret _) _ _ _ => apply wpe_ret
  | |- wpe (_ ≫= _) _ _ _ => apply wpe_bind
  | |- wpe halt _ _ _ => apply wpe_halt
  | |- wpe fail _ _ _ => apply wpe_halt
  | |- wpe (state _) _ _ _ => apply wpe_state
  | |- wpe (change _) _ _ _ => apply wpe_change
  | |- wpe (attempt _) _ _ _ => apply wpe_attempt
  | |- wpe (ignore _) _ _ _ => apply wpe_ignore
  end; cbv beta.
Ltac we_steps := repeat we_step.

(** ** Loops of pure programs *)

(** A loop whose state is its variables. *)
Definition while_opt {A R} (fuel : Z) (body : A → option (A + R)) (a : A) : option R :=
  fst <$> while (S := unit) fuel (λ a s, r ← body a; Some (r, s)) a tt.

Lemma while_opt_rule {A R} fuel (body : A → option (A + R)) (I : A → Prop) (V : A → Z)
    (Q : R → Prop) a :
  I a → 0 ≤ V a < fuel →
  (∀ a, I a → match body a with
     | Some (inl a') => I a' ∧ 0 ≤ V a' < V a
     | Some (inr r) => Q r
     | None => False
     end) →
  ∃ r, while_opt fuel body a = Some r ∧ Q r.
Proof.
  intros HI HV Hb.
  assert (wp (while (S := unit) fuel (λ a s, r ← body a; Some (r, s)) a) (λ r _, Q r) tt) as Hw.
  { apply (wp_while _ _ (λ a _, I a) (λ a _, V a)); [done..|]. intros a1 s1 H1. unfold wp.
    specialize (Hb a1 H1). by destruct (body a1) as [[a2|r]|]. }
  unfold wp in Hw. unfold while_opt. destruct (while _ _ _ _) as [[r s]|]; [|done]. by exists r.
Qed.

Lemma while_opt_eq {A R} fuel (body : A → option (A + R)) (I : A → Prop) (V : A → Z) (v : R) a :
  I a → 0 ≤ V a < fuel →
  (∀ a, I a → match body a with
     | Some (inl a') => I a' ∧ 0 ≤ V a' < V a
     | Some (inr r) => r = v
     | None => False
     end) →
  while_opt fuel body a = Some v.
Proof.
  intros HI HV Hb. by destruct (while_opt_rule fuel body I V (λ r, r = v) a HI HV Hb) as (r & -> & ->).
Qed.

Lemma bind_Some {A B} (o : option A) (f : A → option B) a b :
  o = Some a → f a = Some b → o ≫= f = Some b.
Proof. by intros -> ?. Qed.

(** A loop that never leaves has no result, whatever its bound. *)
Lemma while_opt_diverges {A R} fuel (body : A → option (A + R)) (I : A → Prop) a :
  I a → (∀ a, I a → ∃ a', body a = Some (inl a') ∧ I a') → while_opt fuel body a = None.
Proof.
  intros HI Hb. unfold while_opt, while. destruct fuel as [|p|p]; [done| |done].
  assert (∀ p a, I a → ∃ a', I a' ∧
    loop_pos (S := unit) p (λ a s, r ← body a; Some (r, s)) a tt = Some (inl a', tt)) as Hl.
  { clear p a HI. intros p. induction p as [p IH|p IH|]; intros a Ha; simpl.
    - destruct (Hb a Ha) as (a1 & -> & H1). simpl. destruct (IH a1 H1) as (a2 & H2 & ->).
      destruct (IH a2 H2) as (a3 & H3 & ->). by exists a3.
    - destruct (IH a Ha) as (a2 & H2 & ->). destruct (IH a2 H2) as (a3 & H3 & ->). by exists a3.
    - destruct (Hb a Ha) as (a1 & -> & H1). by exists a1. }
  destruct (Hl p a HI) as (a' & _ & ->). done.
Qed.
