(* ===== verification/Codec.v ===== *)
(** * Little-endian packed structures

    The on-disk structures of the kernel are packed C structures that it
    copies byte by byte.  A structure is described by the widths of its
    fields; [decode_fields] and [encode_fields] are the two directions of
    such a copy. *)

From S2P Require Import Prelude.

Definition is_byte (b : Z) : Prop := 0 ≤ b < 256.
Definition bytes (l : list Z) : Prop := Forall is_byte l.
(** The characters of a C string, without its end. *)
Definition c_str (l : list Z) : Prop := Forall (λ c, 0 < c < 256) l.

Fixpoint le_val (l : list Z) : Z :=
  match l with [] => 0 | b :: l => b + 256 * le_val l end.
Fixpoint le_bytes (n : nat) (v : Z) : list Z :=
  match n with O => [] | S n => v mod 256 :: le_bytes n (v / 256) end.

Definition slice {A} (l : list A) (off n : nat) : list A := take n (drop off l).
Definition splice {A} (l : list A) (off : nat) (d : list A) : list A :=
  take off l ++ d ++ drop (off + length d) l.

(** The [8 * w]-bit little-endian value at offset [off] of [l]. *)
Definition get_le (w : nat) (l : list Z) (off : Z) : option Z :=
  if (0 <=? off) && (off + Z.of_nat w <=? Z.of_nat (length l))
  then Some (le_val (slice l (Z.to_nat off) w)) else None.
Definition put_bytes (l : list Z) (off : Z) (d : list Z) : option (list Z) :=
  if (0 <=? off) && (off + Z.of_nat (length d) <=? Z.of_nat (length l))
  then Some (splice l (Z.to_nat off) d) else None.
Definition put_le (w : nat) (l : list Z) (off v : Z) : option (list Z) :=
  put_bytes l off (le_bytes w v).

Fixpoint decode_fields (ws : list nat) (l : list Z) : list Z :=
  match ws with [] => [] | w :: ws => le_val (take w l) :: decode_fields ws (drop w l) end.
Fixpoint encode_fields (ws : list nat) (vs : list Z) : list Z :=
  match ws, vs with w :: ws, v :: vs => le_bytes w v ++ encode_fields ws vs | _, _ => [] end.

(** Every value fits its field. *)
Definition fits (ws : list nat) (vs : list Z) : Prop :=
  Forall2 (λ w v, 0 ≤ v < 2 ^ (8 * Z.of_nat w)) ws vs.

(** ** Lemmas *)

Lemma length_le_bytes n v : length (le_bytes n v) = n.
Proof. revert v. induction n as [|n IH]; intros v; simpl; [done|]. by rewrite IH. Qed.

Lemma bytes_le_bytes n v : bytes (le_bytes n v).
Proof.
  revert v. induction n as [|n IH]; intros v; simpl; constructor; [|apply IH].
  by apply Z.mod_pos_bound.
Qed.

Lemma le_val_bytes n v : 0 ≤ v < 2 ^ (8 * Z.of_nat n) → le_val (le_bytes n v) = v.
Proof.
  revert v. induction n as [|n IH]; intros v Hv; simpl le_bytes; simpl le_val.
  - change (2 ^ (8 * Z.of_nat 0)) with 1 in Hv. lia.
  - rewrite IH; [pose proof (Z.div_mod v 256); lia|].
    replace (8 * Z.of_nat (S n)) with (8 * Z.of_nat n + 8) in Hv by lia.
    rewrite Z.pow_add_r in Hv by lia. change (2 ^ 8) with 256 in Hv.
    split; [apply Z.div_pos; lia|]. apply Z.div_lt_upper_bound; lia.
Qed.

Lemma le_bytes_val l : bytes l → le_bytes (length l) (le_val l) = l.
Proof.
  intros Hl. induction Hl as [|b l [Hb1 Hb2] _ IH]; simpl; [done|].
  rewrite (Z.mul_comm 256), Z.mod_add, Z.div_add, Z.mod_small, Z.div_small by lia.
  by rewrite Z.add_0_l, IH.
Qed.

Lemma le_val_range l : bytes l → 0 ≤ le_val l < 2 ^ (8 * Z.of_nat (length l)).
Proof.
  intros Hl. induction Hl as [|b l [Hb1 Hb2] _ IH]; simpl length; simpl le_val.
  - done.
  - replace (8 * Z.of_nat (S (length l))) with (8 * Z.of_nat (length l) + 8) by lia.
    rewrite Z.pow_add_r by lia. change (2 ^ 8) with 256. lia.
Qed.

Lemma bytes_take n l : bytes l → bytes (take n l).
Proof. apply Forall_take. Qed.
Lemma bytes_drop n l : bytes l → bytes (drop n l).
Proof. apply Forall_drop. Qed.
Lemma bytes_app l k : bytes l → bytes k → bytes (l ++ k).
Proof. intros. by apply Forall_app. Qed.
Lemma bytes_zero n : bytes (replicate n 0).
Proof. apply Forall_replicate. unfold is_byte. lia. Qed.

Lemma length_encode_fields ws vs :
  length ws = length vs → length (encode_fields ws vs) = sum_list ws.
Proof.
  revert vs. induction ws as [|w ws IH]; intros [|v vs] H; simpl in *; try done.
  rewrite length_app, length_le_bytes, IH; lia.
Qed.

Lemma bytes_encode_fields ws vs : bytes (encode_fields ws vs).
Proof.
  revert vs. induction ws as [|w ws IH]; intros [|v vs]; simpl; try by constructor.
  apply bytes_app; [apply bytes_le_bytes|apply IH].
Qed.

Lemma length_decode_fields ws l : length (decode_fields ws l) = length ws.
Proof. revert l. induction ws as [|w ws IH]; intros l; simpl; [done|]. by rewrite IH. Qed.

Lemma decode_encode_fields ws vs l :
  fits ws vs → decode_fields ws (encode_fields ws vs ++ l) = vs.
Proof.
  intros Hf. revert l. induction Hf as [|w v ws vs Hv _ IH]; intros l; simpl; [done|].
  rewrite <-app_assoc, take_app_le, take_ge by (rewrite length_le_bytes; lia).
  rewrite le_val_bytes by done. f_equal.
  rewrite drop_app_ge, length_le_bytes, Nat.sub_diag by (rewrite length_le_bytes; lia).
  by rewrite drop_0.
Qed.

Lemma encode_decode_fields ws l :
  bytes l → (sum_list ws ≤ length l)%nat →
  encode_fields ws (decode_fields ws l) = take (sum_list ws) l.
Proof.
  revert l. induction ws as [|w ws IH]; intros l Hb Hl; simpl in *; [done|].
  rewrite IH; [|by apply bytes_drop|rewrite length_drop; lia].
  replace w with (length (take w l)) at 1 by (rewrite length_take; lia).
  rewrite le_bytes_val by by apply bytes_take.
  by rewrite take_take_drop.
Qed.

Lemma fits_decode_fields ws l :
  bytes l → (sum_list ws ≤ length l)%nat → fits ws (decode_fields ws l).
Proof.
  revert l. induction ws as [|w ws IH]; intros l Hb Hl; simpl in *; [constructor|].
  constructor; [|apply IH; [by apply bytes_drop|rewrite length_drop; lia]].
  pose proof (le_val_range (take w l) (bytes_take _ _ Hb)) as Hr.
  by rewrite length_take, Nat.min_l in Hr by lia.
Qed.

Lemma length_splice {A} (l d : list A) off :
  (off + length d ≤ length l)%nat → length (splice l off d) = length l.
Proof.
  intros. unfold splice. rewrite !length_app, length_take, length_drop. lia.
Qed.

Lemma bytes_splice l off d : bytes l → bytes d → bytes (splice l off d).
Proof.
  intros. unfold splice. apply bytes_app; [by apply bytes_take|].
  apply bytes_app; [done|by apply bytes_drop].
Qed.

Lemma lookup_splice {A} (l d : list A) off i :
  (off + length d ≤ length l)%nat →
  splice l off d !! i =
  if decide (off ≤ i < off + length d)%nat then d !! (i - off)%nat else l !! i.
Proof.
  intros Hl. unfold splice. destruct (decide (i < off)%nat) as [Hi|Hi].
  - rewrite lookup_app_l by (rewrite length_take; lia).
    rewrite lookup_take_lt by lia. rewrite decide_False by lia. done.
  - rewrite lookup_app_r by (rewrite length_take; lia).
    rewrite length_take, Nat.min_l by lia. case_decide.
    + by rewrite lookup_app_l by lia.
    + rewrite lookup_app_r by lia. rewrite lookup_drop. f_equal. lia.
Qed.

Lemma lookup_slice {A} (l : list A) off n i :
  slice l off n !! i = if decide (i < n)%nat then l !! (off + i)%nat else None.
Proof.
  unfold slice. case_decide.
  - by rewrite lookup_take_lt, lookup_drop by lia.
  - by rewrite lookup_take_ge by lia.
Qed.

Lemma slice_splice_eq {A} (l d : list A) off :
  (off + length d ≤ length l)%nat → slice (splice l off d) off (length d) = d.
Proof.
  intros Hl. apply list_eq. intros i. rewrite lookup_slice, lookup_splice by done.
  repeat case_decide; try lia.
  - f_equal. lia.
  - symmetry. apply lookup_ge_None. lia.
Qed.

Lemma slice_mid {A} (l a b c : list A) o n :
  l = a ++ b ++ c → length a = o → length b = n → slice l o n = b.
Proof. intros -> Ha Hb. unfold slice. by rewrite drop_app_length', take_app_length'. Qed.

Lemma slice_splice_ne {A} (l d : list A) o o' n :
  (o + length d ≤ length l)%nat → (o' + n ≤ o ∨ o + length d ≤ o')%nat →
  slice (splice l o d) o' n = slice l o' n.
Proof.
  intros Hl Ho. apply list_eq. intros j. rewrite !lookup_slice. case_decide; [|done].
  rewrite lookup_splice by done. by rewrite decide_False by lia.
Qed.

(** Bytes can be checked by computation. *)
Definition bytesb (l : list Z) : bool := forallb (λ b, (0 <=? b) && (b <? 256)) l.
Lemma bytesb_bytes l : bytesb l = true → bytes l.
Proof.
  intros Hl. apply Forall_forall. intros b Hb. unfold bytesb in Hl.
  rewrite forallb_forall in Hl. specialize (Hl b ltac:(by apply list_elem_of_In)).
  b2p. unfold is_byte. lia.
Qed.

(** * Block devices

    [struct block_device] of [src/src/kernel/fs/vfs.h] is a table of callbacks
    that a storage driver fills in; file systems and the partition parser see
    only the table.  [BlockDevice] is that table for one-sector transfers,
    [BlockDeviceLaws] what the clients rely on, and [ramdisk] a device that
    has it. *)

Class BlockDevice (D : Type) := {
  bd_sector_size : D → Z;
  bd_total_sectors : D → Z;
  (** [read(ctx, lba, buf, 1)]: the sector, or an error. *)
  bd_read : Z → D → option (list Z);
  (** [write(ctx, lba, buf, 1)]: whether it succeeded, and the device. *)
  bd_write : Z → list Z → D → bool * D
}.

(** [bd_good d lba]: sector [lba] exists and can be read and written. *)
Class BlockDeviceLaws (D : Type) `{BlockDevice D} := {
  bd_good : D → Z → Prop;
  bd_read_good d lba :
    bd_good d lba → ∃ l, bd_read lba d = Some l ∧
      Z.of_nat (length l) = bd_sector_size d ∧ bytes l;
  bd_write_good d lba l :
    bd_good d lba → Z.of_nat (length l) = bd_sector_size d → bytes l →
    ∃ d', bd_write lba l d = (true, d') ∧ bd_read lba d' = Some l ∧
      (∀ k, k ≠ lba → bd_read k d' = bd_read k d) ∧
      (∀ k, bd_good d' k ↔ bd_good d k) ∧
      bd_sector_size d' = bd_sector_size d ∧ bd_total_sectors d' = bd_total_sectors d
}.

(** [bd_ok d]: whatever the device answers, an error included, a sector that
    is read has its size, and this stays so when whole sectors are written. *)
Class BlockDeviceSafe (D : Type) `{BlockDevice D} := {
  bd_ok : D → Prop;
  bd_ok_read d k l : bd_ok d → bd_read k d = Some l → Z.of_nat (length l) = bd_sector_size d ∧ bytes l;
  bd_ok_write d k l : bd_ok d → Z.of_nat (length l) = bd_sector_size d → bytes l →
    bd_ok (bd_write k l d).2 ∧ bd_sector_size (bd_write k l d).2 = bd_sector_size d
}.

(** [block_device_read(bd, lba, buf, 1)] on a device that is not NULL. *)
Definition block_device_read `{BlockDevice D} (lba : Z) (d : D) : option (list Z) := bd_read lba d.

(** ** A disk in memory *)

Record ramdisk := Ramdisk {
  rd_sector_size : nat; rd_count : Z; rd_sectors : gmap Z (list Z)
}.

Definition rd_read (lba : Z) (d : ramdisk) : option (list Z) :=
  if (0 <=? lba) && (lba <? rd_count d)
  then Some (default (replicate (rd_sector_size d) 0) (rd_sectors d !! lba)) else None.

Definition rd_write (lba : Z) (l : list Z) (d : ramdisk) : bool * ramdisk :=
  if (0 <=? lba) && (lba <? rd_count d)
  then (true, Ramdisk (rd_sector_size d) (rd_count d) (<[lba := l]> (rd_sectors d)))
  else (false, d).

#[global] Instance ramdisk_device : BlockDevice ramdisk := {|
  bd_sector_size d := Z.of_nat (rd_sector_size d);
  bd_total_sectors := rd_count;
  bd_read := rd_read;
  bd_write := rd_write
|}.

Definition rd_good (d : ramdisk) (lba : Z) : Prop :=
  0 ≤ lba < rd_count d ∧
  match rd_sectors d !! lba with
  | Some l => length l = rd_sector_size d ∧ bytes l
  | None => True
  end.

#[global] Instance ramdisk_laws : BlockDeviceLaws ramdisk.
Proof.
  refine {| bd_good := rd_good |}.
  - intros d lba [Hr Hs]. simpl. unfold rd_read.
    destruct (Z.leb_spec 0 lba); [|lia]. destruct (Z.ltb_spec lba (rd_count d)); [|lia].
    simpl. eexists. split; [done|]. destruct (rd_sectors d !! lba) as [l|]; simpl.
    + destruct Hs as [-> ?]. done.
    + rewrite length_replicate. split; [done|apply bytes_zero].
  - intros d lba l [Hr Hs] Hl Hb. simpl in *. unfold rd_write, rd_read.
    destruct (Z.leb_spec 0 lba); [|lia]. destruct (Z.ltb_spec lba (rd_count d)); [|lia].
    simpl. eexists. split; [done|]. simpl.
    destruct (Z.leb_spec 0 lba); [|lia]. destruct (Z.ltb_spec lba (rd_count d)); [|lia].
    simpl. rewrite lookup_insert_eq. split; [done|]. split_and!; [| |done..].
    + intros k Hk. by rewrite lookup_insert_ne by done.
    + intros k. unfold rd_good. simpl. destruct (decide (k = lba)) as [->|Hk].
      * rewrite lookup_insert_eq. split; intros [? _]; (split; [done|]); [done|].
        split; [lia|done].
      * by rewrite lookup_insert_ne.
Defined.

(** The sectors that are stored have the size of the disk. *)
Definition rd_ok (d : ramdisk) : Prop :=
  ∀ k l, rd_sectors d !! k = Some l → length l = rd_sector_size d ∧ bytes l.

#[global] Instance ramdisk_safe : BlockDeviceSafe ramdisk.
Proof.
  refine {| bd_ok := rd_ok |}.
  - intros d k l Hok. simpl. unfold rd_read. destruct (_ && _); [|done]. intros [= <-].
    destruct (rd_sectors d !! k) as [l|] eqn:E; simpl.
    + destruct (Hok k l E) as [-> ?]. done.
    + rewrite length_replicate. split; [done|apply bytes_zero].
  - intros d k l Hok Hl Hb. simpl in *. unfold rd_write. destruct (_ && _); simpl; [|done]. split; [|done].
    intros k' l'. simpl. intros [[<- <-]|[_ ?]]%lookup_insert_Some; [split; [lia|done]|by eapply Hok].
Defined.
