(* ===== verification/Totfs.v ===== *)
(** * ToTFS file system

    Translation of [src/src/kernel/fs/totfs.c] and [totfs.h]: block and inode
    input and output, the bitmap allocators, directories, path resolution,
    extent-based files and the operations the VFS calls.

    The block device is a parameter ([BlockDevice]).  A C function that returns 0
    or -1 is a program of [ME]: [fail] is [return -1].  A C string is the list
    of its bytes before the terminator.  The contents of a local buffer after
    a failed read are not modelled: no caller looks at them. *)

From S2P Require Import Prelude Loops Codec Ring.

Definition TOTFS_MAGIC : Z := 0x544F5446.
Definition TOTFS_VERSION : Z := 1.
Definition TOTFS_BLOCK_SIZE : Z := 4096.
Definition TOTFS_TYPE_FILE : Z := 1.
Definition TOTFS_TYPE_DIR : Z := 2.
Definition TOTFS_NUM_EXTENTS : Z := 10.
Definition TOTFS_INODE_SIZE : Z := 256.
Definition TOTFS_ROOT_INODE : Z := 1.
Definition slash : Z := 47.
Definition dot : Z := 46.

(** ** On-disk structures *)

Record totfs_superblock := Superblock {
  sb_magic : Z; sb_version : Z; sb_block_size : Z; sb_log2_block_size : Z;
  sb_total_blocks : Z; sb_total_inodes : Z; sb_free_blocks : Z; sb_free_inodes : Z;
  sb_inode_bitmap_start : Z; sb_inode_bitmap_blocks : Z;
  sb_block_bitmap_start : Z; sb_block_bitmap_blocks : Z;
  sb_inode_table_start : Z; sb_inode_table_blocks : Z; sb_data_start : Z;
  sb_root_inode : Z; sb_inode_size : Z;
  sb_rest : list Z  (* [volume_label] and [reserved] *)
}.

Definition sb_layout : list nat := [4; 4; 4; 4; 8; 8; 8; 8; 8; 8; 8; 8; 8; 8; 8; 4; 4]%nat.

Definition sb_of_values (vs rest : list Z) : totfs_superblock :=
  match vs with
  | [a; b; c; d; e; f; g; h; i; j; k; l; m; n; o; p; q] =>
      Superblock a b c d e f g h i j k l m n o p q rest
  | _ => Superblock 0 0 0 0 0 0 0 0 0 0 0 0 0 0 0 0 0 rest
  end.
Definition sb_values (s : totfs_superblock) : list Z :=
  [sb_magic s; sb_version s; sb_block_size s; sb_log2_block_size s; sb_total_blocks s;
   sb_total_inodes s; sb_free_blocks s; sb_free_inodes s; sb_inode_bitmap_start s;
   sb_inode_bitmap_blocks s; sb_block_bitmap_start s; sb_block_bitmap_blocks s;
   sb_inode_table_start s; sb_inode_table_blocks s; sb_data_start s; sb_root_inode s;
   sb_inode_size s].

Definition decode_sb (l : list Z) : totfs_superblock :=
  sb_of_values (decode_fields sb_layout l) (slice l 112 144).
Definition encode_sb (s : totfs_superblock) : list Z :=
  encode_fields sb_layout (sb_values s) ++ sb_rest s.

Definition set_free_counts (blocks inodes : Z) (s : totfs_superblock) : totfs_superblock :=
  Superblock (sb_magic s) (sb_version s) (sb_block_size s) (sb_log2_block_size s)
    (sb_total_blocks s) (sb_total_inodes s) blocks inodes (sb_inode_bitmap_start s)
    (sb_inode_bitmap_blocks s) (sb_block_bitmap_start s) (sb_block_bitmap_blocks s)
    (sb_inode_table_start s) (sb_inode_table_blocks s) (sb_data_start s) (sb_root_inode s)
    (sb_inode_size s) (sb_rest s).

Record totfs_extent := Extent { x_start_block : Z; x_block_count : Z; x_file_block : Z }.
Definition extent_layout : list nat := [8; 4; 4]%nat.
Definition decode_extent (l : list Z) : totfs_extent :=
  match decode_fields extent_layout l with
  | [a; b; c] => Extent a b c
  | _ => Extent 0 0 0
  end.
Definition encode_extent (x : totfs_extent) : list Z :=
  encode_fields extent_layout [x_start_block x; x_block_count x; x_file_block x].

Record totfs_inode := Inode {
  i_type : Z; i_permissions : Z; i_link_count : Z; i_size : Z; i_blocks_used : Z;
  i_ctime : Z; i_mtime : Z; i_uid : Z; i_gid : Z; i_extent_count : Z; i_flags : Z;
  i_indirect_block : Z;
  i_extents : list totfs_extent;
  i_reserved : list Z
}.

Definition inode_layout : list nat := [2; 2; 4; 8; 8; 8; 8; 4; 4; 4; 4; 8]%nat.

Definition inode_of_values (vs : list Z) (xs : list totfs_extent) (rest : list Z) : totfs_inode :=
  match vs with
  | [a; b; c; d; e; f; g; h; i; j; k; l] => Inode a b c d e f g h i j k l xs rest
  | _ => Inode 0 0 0 0 0 0 0 0 0 0 0 0 xs rest
  end.
Definition inode_values (i : totfs_inode) : list Z :=
  [i_type i; i_permissions i; i_link_count i; i_size i; i_blocks_used i; i_ctime i; i_mtime i;
   i_uid i; i_gid i; i_extent_count i; i_flags i; i_indirect_block i].

Fixpoint decode_extents (n : nat) (l : list Z) : list totfs_extent :=
  match n with O => [] | S n => decode_extent l :: decode_extents n (drop 16 l) end.
Definition encode_extents (xs : list totfs_extent) : list Z := mjoin (encode_extent <$> xs).

Definition decode_inode (l : list Z) : totfs_inode :=
  inode_of_values (decode_fields inode_layout l) (decode_extents 10 (drop 64 l)) (slice l 224 32).
Definition encode_inode (i : totfs_inode) : list Z :=
  encode_fields inode_layout (inode_values i) ++ encode_extents (i_extents i) ++ i_reserved i.

Definition set_size (n : Z) (i : totfs_inode) : totfs_inode :=
  Inode (i_type i) (i_permissions i) (i_link_count i) n (i_blocks_used i) (i_ctime i) (i_mtime i)
    (i_uid i) (i_gid i) (i_extent_count i) (i_flags i) (i_indirect_block i) (i_extents i)
    (i_reserved i).
Definition set_extents (count used : Z) (xs : list totfs_extent) (i : totfs_inode) : totfs_inode :=
  Inode (i_type i) (i_permissions i) (i_link_count i) (i_size i) used (i_ctime i) (i_mtime i)
    (i_uid i) (i_gid i) count (i_flags i) (i_indirect_block i) xs (i_reserved i).

Definition zero_extent : totfs_extent := Extent 0 0 0.

(** ** Directory entries *)

Record dirent := Dirent { de_inode : Z; de_rec_len : Z; de_name_len : Z; de_file_type : Z }.

Definition dirent_at (blk : list Z) (off : Z) : option dirent :=
  i ← get_le 4 blk off;
  r ← get_le 2 blk (off + 4);
  n ← get_le 1 blk (off + 6);
  t ← get_le 1 blk (off + 7);
  Some (Dirent i r n t).

Definition upcase (c : Z) : Z := if (97 <=? c) && (c <=? 122) then c - 32 else c.

(** Compares [alen] bytes of [a] at [pos] with the bytes of [b]. *)
Fixpoint name_eq_loop (n : nat) (a : list Z) (pos : Z) (b : list Z) : option bool :=
  match n, b with
  | O, _ => Some true
  | S n, cb :: b =>
      ca ← arr_get a pos;
      if negb (upcase ca =? upcase cb) then Some false else name_eq_loop n a (pos + 1) b
  | S _, [] => None
  end.
Definition totfs_name_eq (a : list Z) (pos alen : Z) (b : list Z) : option bool :=
  if negb (alen =? Z.of_nat (length b)) then Some false
  else name_eq_loop (Z.to_nat alen) a pos b.

(** ** Walking a directory *)

(** The extents a loop [for (e = 0; e < extent_count && e < 10; e++)] visits. *)
Definition used_extents (i : totfs_inode) : list totfs_extent :=
  take (Z.to_nat (Z.min (i_extent_count i) TOTFS_NUM_EXTENTS)) (i_extents i).

(** The loops over the blocks of the extents. *)
Fixpoint for_blocks {S R} (xs : list totfs_extent) (body : Z → ME S (option R))
    : ME S (option R) :=
  match xs with
  | [] => mret None
  | x :: xs =>
      r ← for_er 0 (x_block_count x) (λ b, body (u64 (x_start_block x + b)));
      match r with Some a => mret (Some a) | None => for_blocks xs body end
  end.

(** [while (off + 8 <= TOTFS_BLOCK_SIZE)] over the entries of a block. *)
Definition for_dirents {S R} (blk : list Z) (body : Z → dirent → ME S (option R))
    : ME S (option R) :=
  while_e (TOTFS_BLOCK_SIZE + 1) (λ off,
    if off + 8 <=? TOTFS_BLOCK_SIZE then
      de ← need (dirent_at blk off);
      if de_rec_len de =? 0 then mret (inr None)
      else
        r ← body off de;
        mret (match r with Some a => inr (Some a) | None => inl (off + de_rec_len de) end)
    else mret (inr None)) 0.

(** ** State *)

Record totfs_fs (D : Type) := TotfsFs {
  fs_bd : D;
  part_lba : Z;
  sectors_per_block : Z;
  sb : totfs_superblock;
  inode_bitmap : list Z;
  block_bitmap : list Z
}.
#[global] Arguments TotfsFs {D}.
#[global] Arguments fs_bd {D}.
#[global] Arguments part_lba {D}.
#[global] Arguments sectors_per_block {D}.
#[global] Arguments sb {D}.
#[global] Arguments inode_bitmap {D}.
#[global] Arguments block_bitmap {D}.

(** The fields of an open file ([struct totfs_file_private] and the size kept
    in [struct vfs_file]). *)
Record totfs_file := TotfsFile {
  f_size : Z;
  p_inode_num : Z; p_type : Z; p_size : Z; p_pos : Z; p_extent_count : Z; p_flags : Z;
  p_extents : list totfs_extent
}.

Section totfs.
Context {D : Type} `{BlockDevice D}.

Abbreviation E := (ME (totfs_fs D)).

Definition set_bd (d : D) (f : totfs_fs D) : totfs_fs D :=
  TotfsFs d (part_lba f) (sectors_per_block f) (sb f) (inode_bitmap f) (block_bitmap f).
Definition set_sb (s : totfs_superblock) (f : totfs_fs D) : totfs_fs D :=
  TotfsFs (fs_bd f) (part_lba f) (sectors_per_block f) s (inode_bitmap f) (block_bitmap f).
Definition set_inode_bitmap (l : list Z) (f : totfs_fs D) : totfs_fs D :=
  TotfsFs (fs_bd f) (part_lba f) (sectors_per_block f) (sb f) l (block_bitmap f).
Definition set_block_bitmap (l : list Z) (f : totfs_fs D) : totfs_fs D :=
  TotfsFs (fs_bd f) (part_lba f) (sectors_per_block f) (sb f) (inode_bitmap f) l.

(** ** Block I/O *)

Definition block_lba (f : totfs_fs D) (block_num : Z) : Z :=
  u64 (part_lba f + u64 (block_num * sectors_per_block f)).

(** The loop over the sectors of a block. *)
Fixpoint read_sectors (idxs : list Z) (lba : Z) : E (list Z) :=
  match idxs with
  | [] => mret []
  | i :: idxs =>
      r ← state (λ f, bd_read (u64 (lba + i)) (fs_bd f));
      match r with
      | None => fail
      | Some l => rest ← read_sectors idxs lba; mret (l ++ rest)
      end
  end.

Definition totfs_read_block (block_num : Z) : E (list Z) :=
  lba ← state (λ f, block_lba f block_num);
  n ← state sectors_per_block;
  read_sectors (seqZ 0 n) lba.

Fixpoint write_sectors (idxs : list Z) (lba : Z) (buf : list Z) : E unit :=
  match idxs with
  | [] => mret tt
  | i :: idxs =>
      ss ← state (λ f, bd_sector_size (fs_bd f));
      r ← state (λ f, bd_write (u64 (lba + i))
                        (slice buf (Z.to_nat (i * ss)) (Z.to_nat ss)) (fs_bd f));
      change (set_bd r.2);;
      if negb r.1 then fail else write_sectors idxs lba buf
  end.

Definition totfs_write_block (block_num : Z) (buf : list Z) : E unit :=
  lba ← state (λ f, block_lba f block_num);
  n ← state sectors_per_block;
  write_sectors (seqZ 0 n) lba buf.

(** ** Probe and mount *)

Definition totfs_probe (bd : option D) (lba : Z) : bool :=
  match bd with
  | None => false
  | Some d =>
      if bd_sector_size d =? 0 then false
      else if negb (TOTFS_BLOCK_SIZE mod bd_sector_size d =? 0) then false
      else match bd_read lba d with
           | None => false
           | Some sector => le_val (take 4 sector) =? TOTFS_MAGIC
           end
  end.

(** A NULL device is dereferenced by the error message. *)
Definition totfs_mount (bd : option D) (lba : Z) : E unit :=
  d ← need bd;
  change (λ f, TotfsFs d lba (sectors_per_block f) (sb f) (inode_bitmap f) (block_bitmap f));;
  if (bd_sector_size d =? 0) || negb (TOTFS_BLOCK_SIZE mod bd_sector_size d =? 0) then fail
  else
    change (λ f, TotfsFs (fs_bd f) (part_lba f) (TOTFS_BLOCK_SIZE / u32 (bd_sector_size d)) (sb f)
                   (inode_bitmap f) (block_bitmap f));;
    blk ← totfs_read_block 0;
    change (set_sb (decode_sb blk));;
    s ← state sb;
    if negb (sb_magic s =? TOTFS_MAGIC) then fail
    else if negb (sb_version s =? TOTFS_VERSION) then fail
    else
      ib ← totfs_read_block (sb_inode_bitmap_start s);
      change (set_inode_bitmap ib);;
      bb ← totfs_read_block (sb_block_bitmap_start s);
      change (set_block_bitmap bb).

(** ** Inode I/O *)

Definition totfs_read_inode (inum : Z) : E totfs_inode :=
  s ← state sb;
  if sb_total_inodes s <=? inum then fail
  else
    let inodes_per_block := TOTFS_BLOCK_SIZE / TOTFS_INODE_SIZE in
    let blk_idx := inum / inodes_per_block in
    let off_in := inum mod inodes_per_block * TOTFS_INODE_SIZE in
    blk ← totfs_read_block (u64 (sb_inode_table_start s + blk_idx));
    mret (decode_inode (slice blk (Z.to_nat off_in) 256)).

Definition totfs_write_inode (inum : Z) (inode : totfs_inode) : E unit :=
  s ← state sb;
  if sb_total_inodes s <=? inum then fail
  else
    let inodes_per_block := TOTFS_BLOCK_SIZE / TOTFS_INODE_SIZE in
    let blk_idx := inum / inodes_per_block in
    let off_in := inum mod inodes_per_block * TOTFS_INODE_SIZE in
    blk ← totfs_read_block (u64 (sb_inode_table_start s + blk_idx));
    totfs_write_block (u64 (sb_inode_table_start s + blk_idx))
      (splice blk (Z.to_nat off_in) (encode_inode inode)).

(** ** Directory lookup *)

Definition totfs_dir_lookup (dir : totfs_inode) (name : list Z) : E Z :=
  r ← for_blocks (used_extents dir) (λ bnum,
    blk ← totfs_read_block bnum;
    for_dirents blk (λ off de,
      if negb (de_inode de =? 0) then
        eq ← need (totfs_name_eq blk (off + 8) (de_name_len de) name);
        mret (if eq : bool then Some (de_inode de) else None)
      else mret None));
  match r with Some inum => mret inum | None => fail end.

(** ** Paths *)

Fixpoint skip_slashes (path : list Z) : list Z :=
  match path with c :: p => if c =? slash then skip_slashes p else path | [] => [] end.

(** The characters up to the next slash or the end, and the rest. *)
Fixpoint take_component (path : list Z) : list Z * list Z :=
  match path with
  | [] => ([], [])
  | c :: p => if c =? slash then ([], path)
              else let '(n, rest) := take_component p in (c :: n, rest)
  end.

Definition resolve_loop (path : list Z) : E Z :=
  while_e (Z.of_nat (length path) + 1) (λ '(path, cur_inum),
    match path with
    | [] => mret (inr cur_inum)
    | _ =>
        let '(comp, rest) := take_component path in
        dir ← totfs_read_inode cur_inum;
        if negb (i_type dir =? TOTFS_TYPE_DIR) then fail
        else
          cur_inum ← totfs_dir_lookup dir comp;
          mret (inl (skip_slashes rest, cur_inum))
    end) (path, TOTFS_ROOT_INODE).

Definition totfs_resolve_path (path : list Z) : E Z := resolve_loop (skip_slashes path).

(** ** Bitmaps and allocation *)

Definition bitmap_test (bmp : list Z) (bit : Z) : option bool :=
  b ← arr_get bmp (bit / 8);
  Some (negb (Z.land (Z.shiftr b (bit mod 8)) 1 =? 0)).
Definition bitmap_set (bmp : list Z) (bit : Z) : option (list Z) :=
  b ← arr_get bmp (bit / 8);
  arr_set bmp (bit / 8) (Z.lor b (u8 (Z.shiftl 1 (bit mod 8)))).
Definition bitmap_clear (bmp : list Z) (bit : Z) : option (list Z) :=
  b ← arr_get bmp (bit / 8);
  arr_set bmp (bit / 8) (Z.land b (u8 (Z.lnot (Z.shiftl 1 (bit mod 8))))).

Definition sb_block (s : totfs_superblock) : list Z :=
  encode_sb s ++ replicate (Z.to_nat (TOTFS_BLOCK_SIZE - 256)) 0.

Definition totfs_alloc_block : E Z :=
  s ← state sb;
  let max := if TOTFS_BLOCK_SIZE * 8 <? sb_total_blocks s then TOTFS_BLOCK_SIZE * 8
             else sb_total_blocks s in
  r ← for_er (sb_data_start s) max (λ i,
    bmp ← state block_bitmap;
    used ← need (bitmap_test bmp (u32 i));
    if used : bool then mret None
    else
      bmp' ← need (bitmap_set bmp (u32 i));
      change (set_block_bitmap bmp');;
      change (λ f, set_sb (set_free_counts (u64 (sb_free_blocks (sb f) - 1))
                             (sb_free_inodes (sb f)) (sb f)) f);;
      ignore (totfs_write_block (sb_block_bitmap_start s) bmp');;
      s' ← state sb;
      ignore (totfs_write_block 0 (sb_block s'));;
      mret (Some i));
  match r with Some i => mret i | None => fail end.

Definition totfs_free_block (block : Z) : E unit :=
  s ← state sb;
  if (sb_total_blocks s <=? block) || (TOTFS_BLOCK_SIZE * 8 <=? block) then fail
  else
    bmp ← state block_bitmap;
    bmp' ← need (bitmap_clear bmp (u32 block));
    change (set_block_bitmap bmp');;
    change (λ f, set_sb (set_free_counts (u64 (sb_free_blocks (sb f) + 1))
                           (sb_free_inodes (sb f)) (sb f)) f);;
    ignore (totfs_write_block (sb_block_bitmap_start s) bmp').

Definition totfs_alloc_inode : E Z :=
  s ← state sb;
  let max := u32 (sb_total_inodes s) in
  let max := if TOTFS_BLOCK_SIZE * 8 <? max then TOTFS_BLOCK_SIZE * 8 else max in
  r ← for_er 2 max (λ i,
    bmp ← state inode_bitmap;
    used ← need (bitmap_test bmp i);
    if used : bool then mret None
    else
      bmp' ← need (bitmap_set bmp i);
      change (set_inode_bitmap bmp');;
      change (λ f, set_sb (set_free_counts (sb_free_blocks (sb f))
                             (u64 (sb_free_inodes (sb f) - 1)) (sb f)) f);;
      ignore (totfs_write_block (sb_inode_bitmap_start s) bmp');;
      s' ← state sb;
      ignore (totfs_write_block 0 (sb_block s'));;
      mret (Some i));
  match r with Some i => mret i | None => fail end.

Definition totfs_free_inode (inum : Z) : E unit :=
  s ← state sb;
  if (sb_total_inodes s <=? inum) || (TOTFS_BLOCK_SIZE * 8 <=? inum) then fail
  else
    bmp ← state inode_bitmap;
    bmp' ← need (bitmap_clear bmp inum);
    change (set_inode_bitmap bmp');;
    change (λ f, set_sb (set_free_counts (sb_free_blocks (sb f))
                           (u64 (sb_free_inodes (sb f) + 1)) (sb f)) f);;
    ignore (totfs_write_block (sb_inode_bitmap_start s) bmp').

(** ** File data *)

Fixpoint find_extent (xs : list totfs_extent) (logical_block : Z) : option Z :=
  match xs with
  | [] => None
  | x :: xs =>
      let estart := x_file_block x in
      let eend := u32 (estart + x_block_count x) in
      if (estart <=? logical_block) && (logical_block <? eend)
      then Some (u64 (x_start_block x + (logical_block - estart)))
      else find_extent xs logical_block
  end.
Definition totfs_find_phys_block (inode : totfs_inode) (logical_block : Z) : option Z :=
  find_extent (used_extents inode) logical_block.

(** The bytes stored in the buffer; the C result is their number. *)
Definition totfs_read_file_data (inode : totfs_inode) (offset len : Z) : E (list Z) :=
  if i_size inode <=? offset then mret []
  else
    let len := if i_size inode <? u64 (offset + len) then i_size inode - offset else len in
    if len =? 0 then mret []
    else
      while_e (len + 1) (λ out,
        let total_read := Z.of_nat (length out) in
        if total_read <? len then
          let cur_off := u64 (offset + total_read) in
          let logical_blk := u32 (cur_off / TOTFS_BLOCK_SIZE) in
          let blk_off := cur_off mod TOTFS_BLOCK_SIZE in
          match totfs_find_phys_block inode logical_blk with
          | None => mret (inr out)
          | Some phys =>
              r ← attempt (totfs_read_block phys);
              match r with
              | None => mret (inr out)
              | Some blk =>
                  let chunk := TOTFS_BLOCK_SIZE - blk_off in
                  let chunk := if len - total_read <? chunk then len - total_read else chunk in
                  mret (inl (out ++ slice blk (Z.to_nat blk_off) (Z.to_nat chunk)))
              end
          end
        else mret (inr out)) [].

(** A new extent for [logical_blk]; [None] when there is none left. *)
Definition add_extent (inode : totfs_inode) (logical_blk new_blk : Z)
    : option (option totfs_inode) :=
  let n := i_extent_count inode in
  if TOTFS_NUM_EXTENTS <=? n then Some None
  else
    xs' ← arr_set (i_extents inode) n (Extent new_blk 1 logical_blk);
    Some (Some (set_extents (n + 1) (u64 (i_blocks_used inode + 1)) xs' inode)).

(** The inode with [new_blk] as the block of [logical_blk]: the last extent is
    extended when that is contiguous, else an extent is added.  An extent
    count over 10 indexes out of the array. *)
Definition attach_block (inode : totfs_inode) (logical_blk new_blk : Z)
    : option (option totfs_inode) :=
  let n := i_extent_count inode in
  let xs := i_extents inode in
  if 0 <? n then
    last ← arr_get xs (n - 1);
    let last_end_file := u32 (x_file_block last + x_block_count last) in
    let last_end_phys := u64 (x_start_block last + x_block_count last) in
    if (logical_blk =? last_end_file) && (new_blk =? last_end_phys) then
      xs' ← arr_set xs (n - 1)
              (Extent (x_start_block last) (u32 (x_block_count last + 1)) (x_file_block last));
      Some (Some (set_extents n (u64 (i_blocks_used inode + 1)) xs' inode))
    else add_extent inode logical_blk new_blk
  else add_extent inode logical_blk new_blk.

Definition zero_block : list Z := replicate (Z.to_nat TOTFS_BLOCK_SIZE) 0.

(** The block to write to: the mapped one or a new one; [None] is [break]. *)
Definition get_block (inode : totfs_inode) (logical_blk : Z) : E (option (Z * totfs_inode)) :=
  match totfs_find_phys_block inode logical_blk with
  | Some phys => mret (Some (phys, inode))
  | None =>
      r ← attempt totfs_alloc_block;
      match r with
      | None => mret None
      | Some new_blk =>
          ignore (totfs_write_block new_blk zero_block);;
          a ← need (attach_block inode logical_blk new_blk);
          match a with
          | None => ignore (totfs_free_block new_blk);; mret None
          | Some inode' => mret (Some (new_blk, inode'))
          end
      end
  end.

(** One iteration: the number of bytes written and the inode; [inr] is
    [break].  When the block is not read first, the chunk covers all of it and
    what the buffer held before does not matter. *)
Definition write_step (offset : Z) (data : list Z) (st : Z * totfs_inode)
    : E ((Z * totfs_inode) + (Z * totfs_inode)) :=
  let '(total_written, inode) := st in
  let len := Z.of_nat (length data) in
  if total_written <? len then
    let cur_off := u64 (offset + total_written) in
    let logical_blk := u32 (cur_off / TOTFS_BLOCK_SIZE) in
    let blk_off := cur_off mod TOTFS_BLOCK_SIZE in
    b ← get_block inode logical_blk;
    match b with
    | None => mret (inr (total_written, inode))
    | Some (phys, inode) =>
        r ← (if negb (blk_off =? 0) || (len - total_written <? TOTFS_BLOCK_SIZE)
             then attempt (totfs_read_block phys) else mret (Some zero_block));
        match r with
        | None => mret (inr (total_written, inode))
        | Some blk =>
            let chunk := TOTFS_BLOCK_SIZE - blk_off in
            let chunk := if len - total_written <? chunk then len - total_written else chunk in
            let blk := splice blk (Z.to_nat blk_off)
                         (slice data (Z.to_nat total_written) (Z.to_nat chunk)) in
            w ← attempt (totfs_write_block phys blk);
            match w with
            | None => mret (inr (total_written, inode))
            | Some _ => mret (inl (total_written + chunk, inode))
            end
        end
    end
  else mret (inr (total_written, inode)).

(** The number of bytes written, and [*inode] afterwards. *)
Definition totfs_write_file_data (inode : totfs_inode) (inum offset : Z) (data : list Z)
    : E (Z * totfs_inode) :=
  if Z.of_nat (length data) =? 0 then mret (0, inode)
  else
    r ← while_e (Z.of_nat (length data) + 1) (write_step offset data) (0, inode);
    let '(total_written, inode) := r in
    let inode := if i_size inode <? u64 (offset + total_written)
                 then set_size (u64 (offset + total_written)) inode else inode in
    ignore (totfs_write_inode inum inode);;
    mret (total_written, inode).

(** ** Open files *)

Definition totfs_open_vfs (path : list Z) : E totfs_file :=
  inum ← totfs_resolve_path path;
  inode ← totfs_read_inode inum;
  let n := if 5 <? i_extent_count inode then 5 else i_extent_count inode in
  mret (TotfsFile (i_size inode) inum (i_type inode) (i_size inode) 0 (i_extent_count inode) 0
          (take (Z.to_nat n) (i_extents inode) ++ replicate (5 - Z.to_nat n) zero_extent)).

Definition set_pos (pos : Z) (f : totfs_file) : totfs_file :=
  TotfsFile (f_size f) (p_inode_num f) (p_type f) (p_size f) pos (p_extent_count f) (p_flags f)
    (p_extents f).
Definition set_file_size (vsize psize : Z) (f : totfs_file) : totfs_file :=
  TotfsFile vsize (p_inode_num f) (p_type f) psize (p_pos f) (p_extent_count f) (p_flags f)
    (p_extents f).

(** The C result [n], the bytes stored, and the file. *)
Definition totfs_read_vfs (f : totfs_file) (len : Z) : E (Z * list Z * totfs_file) :=
  inode ← totfs_read_inode (p_inode_num f);
  out ← totfs_read_file_data inode (p_pos f) len;
  let n := s32 (Z.of_nat (length out)) in
  mret (n, out, if 0 <? n then set_pos (u64 (p_pos f + n)) f else f).

Definition totfs_write_vfs (f : totfs_file) (data : list Z) : E (Z * totfs_file) :=
  inode ← totfs_read_inode (p_inode_num f);
  '(total, inode) ← totfs_write_file_data inode (p_inode_num f) (p_pos f) data;
  let n := s32 total in
  mret (n, if 0 <? n
           then set_file_size (i_size inode) (i_size inode) (set_pos (u64 (p_pos f + n)) f)
           else f).

Definition totfs_close_vfs (f : totfs_file) : E Z := mret 0.

Definition totfs_seek_vfs (f : totfs_file) (offset whence : Z) : E (Z * totfs_file) :=
  let rel (base : Z) :=
    if (offset <? 0) && (base <? u64 (- offset)) then fail
    else mret (if 0 <=? offset then u64 (base + offset) else u64 (base - u64 (- offset))) in
  new_pos ←
    (match whence with
     | 0 => if offset <? 0 then fail else mret offset
     | 1 => rel (p_pos f)
     | 2 => rel (p_size f)
     | _ => fail
     end : E Z);
  mret (s64 new_pos, set_pos new_pos f).

(** ** Reading a directory and file status *)

(** The entries "." and "..", by length and first characters. *)
Definition is_dot_name (blk : list Z) (off : Z) (de : dirent) : option bool :=
  if de_name_len de =? 1 then c ← arr_get blk (off + 8); Some (c =? dot)
  else if de_name_len de =? 2 then
    c ← arr_get blk (off + 8);
    if c =? dot then c' ← arr_get blk (off + 9); Some (c' =? dot) else Some false
  else Some false.

Definition dirent_name (blk : list Z) (off : Z) (de : dirent) : option (list Z) :=
  if off + 8 + de_name_len de <=? Z.of_nat (length blk)
  then Some (slice blk (Z.to_nat (off + 8)) (Z.to_nat (de_name_len de))) else None.

(** A program on the file system, beside the context of a callback. *)
Definition on_fs {C A} (m : E A) : ME (totfs_fs D * C) A := λ '(f, c),
  match m f with Some (r, f') => Some (r, (f', c)) | None => None end.

(** The inode an entry refers to, for its size and attribute. *)
Definition entry_info (inum : Z) : E (Z * Z) :=
  r ← attempt (totfs_read_inode inum);
  mret (match r with
        | Some i => (i_size i, if i_type i =? TOTFS_TYPE_DIR then 0x10 else 0x20)
        | None => (0, 0x20)
        end).

(** [cb] is the callback on its context: the result says whether to stop. *)
Definition totfs_readdir_vfs {C} (path : list Z) (cb : C → list Z → Z → Z → bool * C)
    : ME (totfs_fs D * C) unit :=
  inum ← on_fs (match path with [] => mret TOTFS_ROOT_INODE | _ => totfs_resolve_path path end);
  dir ← on_fs (totfs_read_inode inum);
  if negb (i_type dir =? TOTFS_TYPE_DIR) then fail
  else
    for_blocks (used_extents dir) (λ bnum,
      blk ← on_fs (totfs_read_block bnum);
      for_dirents blk (λ off de,
        if negb (de_inode de =? 0) then
          dots ← need (is_dot_name blk off de);
          if negb dots then
            name ← need (dirent_name blk off de);
            '(sz, attr) ← on_fs (entry_info (de_inode de));
            r ← state (λ '(_, c), cb c name sz attr);
            change (λ '(f, _), (f, r.2));;
            mret (if r.1 : bool then Some tt else None)
          else mret None
        else mret None));;
    mret tt.

Definition totfs_stat_vfs (path : list Z) : E (Z * Z) :=
  inum ← (match path with [] => mret TOTFS_ROOT_INODE | _ => totfs_resolve_path path end);
  inode ← totfs_read_inode inum;
  mret (i_size inode, if i_type inode =? TOTFS_TYPE_DIR then 0x10 else 0x20).

(** ** Creation and removal *)

(** The part before the last slash ([None] without one) and after it. *)
Fixpoint split_last (path : list Z) : option (list Z) * list Z :=
  match path with
  | [] => (None, [])
  | c :: p =>
      match split_last p with
      | (Some d, b) => (Some (c :: d), b)
      | (None, b) => if c =? slash then (Some [], b) else (None, c :: b)
      end
  end.

(** [parent] is a buffer of [pmax] bytes. *)
Definition totfs_split_path (path : list Z) (pmax : Z) : option (list Z * list Z) :=
  let path := skip_slashes path in
  match path with
  | [] => None
  | _ =>
      match split_last path with
      | (None, base) => Some ([slash], base)
      | (Some dir, base) =>
          let plen := Z.of_nat (length dir) in
          let plen := if pmax <? plen + 2 then pmax - 2 else plen in
          Some (slash :: take (Z.to_nat plen) dir, base)
      end
  end.

Definition round4 (n : Z) : Z := u16 (Z.land (u32 (n + 3)) (u32 (Z.lnot 3))).

(** An entry's header and name at [off]. *)
Definition put_dirent (blk : list Z) (off inum rec_len name_len file_type : Z) (name : list Z)
    : option (list Z) :=
  put_bytes blk off
    (le_bytes 4 inum ++ le_bytes 2 rec_len ++ le_bytes 1 name_len ++ le_bytes 1 file_type ++ name).

(** What an existing entry offers: its place if it is free and large enough,
    or the slack after it. *)
Definition place_dirent (blk : list Z) (off : Z) (de : dirent) (needed child_inum : Z)
    (name : list Z) (file_type : Z) : option (option (list Z)) :=
  let namelen := Z.of_nat (length name) in
  if (de_inode de =? 0) && (needed <=? de_rec_len de) then
    blk' ← put_dirent blk off child_inum (de_rec_len de) (u8 namelen) file_type name;
    Some (Some blk')
  else
    let actual := round4 (8 + de_name_len de) in
    let slack := u16 (de_rec_len de - actual) in
    if needed <=? slack then
      blk' ← put_le 2 blk (off + 4) actual;
      blk'' ← put_dirent blk' (off + actual) child_inum slack (u8 namelen) file_type name;
      Some (Some blk'')
    else Some None.

Definition totfs_add_dirent (dir_inum child_inum : Z) (name : list Z) (file_type : Z) : E unit :=
  dir ← totfs_read_inode dir_inum;
  let needed := round4 (8 + Z.of_nat (length name)) in
  r ← for_blocks (used_extents dir) (λ bnum,
    blk ← totfs_read_block bnum;
    for_dirents blk (λ off de,
      p ← need (place_dirent blk off de needed child_inum name file_type);
      match p with
      | Some blk' => totfs_write_block bnum blk';; mret (Some tt)
      | None => mret None
      end));
  match r with
  | Some _ => mret tt
  | None =>
      if TOTFS_NUM_EXTENTS <=? i_extent_count dir then fail
      else
        new_blk ← totfs_alloc_block;
        blk ← need (put_dirent zero_block 0 child_inum TOTFS_BLOCK_SIZE
                      (u8 (Z.of_nat (length name))) file_type name);
        totfs_write_block new_blk blk;;
        xs ← need (arr_set (i_extents dir) (i_extent_count dir)
                     (Extent new_blk 1 (u32 (i_size dir / TOTFS_BLOCK_SIZE))));
        totfs_write_inode dir_inum
          (set_size (u64 (i_size dir + TOTFS_BLOCK_SIZE))
            (set_extents (i_extent_count dir + 1) (u64 (i_blocks_used dir + 1)) xs dir))
  end.

Definition fresh_inode (type : Z) : totfs_inode :=
  Inode type (if type =? TOTFS_TYPE_DIR then 493 else 420) 1 0 0 0 0 0 0 0 0 0
    (replicate 10 zero_extent) (replicate 32 0).

(** A new directory's block: "." with a record of 12 bytes, ".." with the
    rest. *)
Definition dot_block (new_inum parent_inum : Z) : option (list Z) :=
  blk ← put_dirent zero_block 0 new_inum 12 1 TOTFS_TYPE_DIR [dot];
  put_dirent blk 12 parent_inum (TOTFS_BLOCK_SIZE - 12) 2 TOTFS_TYPE_DIR [dot; dot].

Definition dir_inode (dir_blk : Z) : totfs_inode :=
  Inode TOTFS_TYPE_DIR 493 2 TOTFS_BLOCK_SIZE 1 0 0 0 0 1 0 0
    (Extent dir_blk 1 0 :: replicate 9 zero_extent) (replicate 32 0).

Definition totfs_create_vfs (path : list Z) (type : Z) : E unit :=
  match totfs_split_path path 128 with
  | None => fail
  | Some (parent, basename) =>
      if Z.of_nat (length basename) =? 0 then fail
      else
        parent_inum ← totfs_resolve_path parent;
        parent_dir ← totfs_read_inode parent_inum;
        if negb (i_type parent_dir =? TOTFS_TYPE_DIR) then fail
        else
          existing ← attempt (totfs_dir_lookup parent_dir basename);
          match existing with
          | Some _ => fail
          | None =>
              new_inum ← totfs_alloc_inode;
              inode ←
                (if type =? TOTFS_TYPE_DIR then
                   b ← attempt totfs_alloc_block;
                   match b with
                   | None => ignore (totfs_free_inode new_inum);; fail
                   | Some dir_blk =>
                       dbuf ← need (dot_block new_inum parent_inum);
                       ignore (totfs_write_block dir_blk dbuf);;
                       mret (dir_inode dir_blk)
                   end
                 else mret (fresh_inode type));
              totfs_write_inode new_inum inode;;
              totfs_add_dirent parent_inum new_inum basename (u8 type)
          end
  end.

Definition totfs_mkdir_vfs (path : list Z) : E unit := totfs_create_vfs path TOTFS_TYPE_DIR.

(** The check that a directory has no entry but "." and "..". *)
Definition check_empty (target : totfs_inode) : E unit :=
  r ← for_blocks (used_extents target) (λ bnum,
    blk ← totfs_read_block bnum;
    for_dirents blk (λ off de,
      if negb (de_inode de =? 0) then
        dots ← need (is_dot_name blk off de);
        if negb dots then fail else mret None
      else mret (None : option unit)));
  mret tt.

(** Free the data blocks of an inode, ignoring errors. *)
Definition free_extents (target : totfs_inode) : E unit :=
  for_blocks (R := unit) (used_extents target) (λ bnum,
    ignore (totfs_free_block bnum);; mret None);;
  mret tt.

(** Clear the inode number of the entry; a block that cannot be read is
    skipped. *)
Definition clear_dirent (parent_dir : totfs_inode) (target_inum : Z) (basename : list Z) : E unit :=
  for_blocks (R := unit) (used_extents parent_dir) (λ bnum,
    b ← attempt (totfs_read_block bnum);
    match b with
    | None => mret None
    | Some blk =>
        for_dirents blk (λ off de,
          if de_inode de =? target_inum then
            eq ← need (totfs_name_eq blk (off + 8) (de_name_len de) basename);
            if eq : bool then
              blk' ← need (put_le 4 blk off 0);
              ignore (totfs_write_block bnum blk');;
              mret (Some tt)
            else mret None
          else mret None)
    end);;
  mret tt.

Definition totfs_unlink_vfs (path : list Z) : E unit :=
  match totfs_split_path path 128 with
  | None => fail
  | Some (parent, basename) =>
      if Z.of_nat (length basename) =? 0 then fail
      else
        parent_inum ← totfs_resolve_path parent;
        parent_dir ← totfs_read_inode parent_inum;
        if negb (i_type parent_dir =? TOTFS_TYPE_DIR) then fail
        else
          target_inum ← totfs_dir_lookup parent_dir basename;
          target ← totfs_read_inode target_inum;
          (if i_type target =? TOTFS_TYPE_DIR then check_empty target else mret tt);;
          free_extents target;;
          ignore (totfs_free_inode target_inum);;
          clear_dirent parent_dir target_inum basename
  end.

(** ** Truncate and rename *)

(** The loop that writes zeros; the comparison of the number of bytes written
    with 0 is the code's. *)
Definition extend_loop (inum length : Z) (inode : totfs_inode) (old_size : Z) : E totfs_inode :=
  while_e (length + 1) (λ '(pos, inode),
    if pos <? length then
      let chunk := if length - pos <? TOTFS_BLOCK_SIZE then length - pos else TOTFS_BLOCK_SIZE in
      '(n, inode) ← totfs_write_file_data inode inum pos (replicate (Z.to_nat chunk) 0);
      if negb (s32 n =? 0) then fail
      else mret (inl (u64 (pos + chunk), inode))
    else mret (inr inode)) (old_size, inode).

(** The C result and the file, which is updated before the inode is written. *)
Definition totfs_truncate_vfs (f : totfs_file) (length : Z) : E (Z * totfs_file) :=
  inode ← totfs_read_inode (p_inode_num f);
  inode ←
    (if i_size inode <? length
     then extend_loop (p_inode_num f) length (set_size length inode) (i_size inode)
     else mret (set_size length inode));
  let f' := TotfsFile (f_size f) (p_inode_num f) (p_type f) length
              (if length <? p_pos f then length else p_pos f) (p_extent_count f) (p_flags f)
              (p_extents f) in
  w ← attempt (totfs_write_inode (p_inode_num f) inode);
  mret (match w with Some _ => 0 | None => -1 end, f').

(** The extents of the old inode over those of the new one. *)
Definition copy_extents (old new : totfs_inode) : totfs_inode :=
  let n := Z.to_nat (Z.min (i_extent_count old) TOTFS_NUM_EXTENTS) in
  set_size (i_size old)
    (set_extents (i_extent_count old) (i_blocks_used old)
      (take n (i_extents old) ++ drop n (i_extents new)) new).

Definition totfs_rename_vfs (old_path new_path : list Z) : E unit :=
  old_inum ← totfs_resolve_path old_path;
  old_inode ← totfs_read_inode old_inum;
  totfs_create_vfs new_path (i_type old_inode);;
  new_inum ← totfs_resolve_path new_path;
  new_inode ← totfs_read_inode new_inum;
  let new_inode := copy_extents old_inode new_inode in
  r ← attempt (totfs_unlink_vfs old_path);
  match r with
  | None => ignore (totfs_unlink_vfs new_path);; fail
  | Some _ => totfs_write_inode new_inum new_inode
  end.
End totfs.
