(* ===== verification/TotfsDisk.v ===== *)
(** * ToTFS: the volume as an array of blocks

    A lawful device and a sector size that divides the block size make
    [totfs_read_block] and [totfs_write_block] the read and write of an array
    of 4096-byte blocks. *)

From S2P Require Import Prelude Ring Loops Codec Totfs.

Section disk.
Context {D : Type} `{BlockDeviceLaws D}.
Implicit Types f : totfs_fs D.

(** Blocks [0 .. n) of the volume lie on working sectors. *)
Record vol_ok (n : Z) f : Prop := {
  vo_sector : 0 < bd_sector_size (fs_bd f);
  vo_block : bd_sector_size (fs_bd f) * sectors_per_block f = TOTFS_BLOCK_SIZE;
  vo_lba : 0 ≤ part_lba f;
  vo_end : part_lba f + n * sectors_per_block f ≤ 2 ^ 64;
  vo_good k : part_lba f ≤ k < part_lba f + n * sectors_per_block f → bd_good (fs_bd f) k
}.

Definition sectors_at (d : D) (lba : Z) (idxs : list Z) : list Z :=
  mjoin ((λ i, default [] (bd_read (lba + i) d)) <$> idxs).

(** The contents of block [n]. *)
Definition blk f (n : Z) : list Z :=
  sectors_at (fs_bd f) (part_lba f + n * sectors_per_block f) (seqZ 0 (sectors_per_block f)).

Lemma wpe_read_sectors idxs lba f Q H' :
  (∀ i, i ∈ idxs → 0 ≤ lba + i < 2 ^ 64 ∧ bd_good (fs_bd f) (lba + i)) →
  Q (sectors_at (fs_bd f) lba idxs) f →
  wpe (read_sectors idxs lba) Q H' f.
Proof.
  revert Q. induction idxs as [|i idxs IH]; intros Q Hg HQ; cbn [read_sectors]; we_steps; [done|].
  destruct (Hg i) as [Hr Hi]; [set_solver|]. rewrite u64_small by lia.
  destruct (bd_read_good _ _ Hi) as (l & Hl & _). rewrite Hl. we_steps.
  apply IH; [intros j Hj; apply Hg; set_solver|]. we_steps.
  unfold sectors_at in HQ. cbn in HQ. by rewrite Hl in HQ.
Qed.

Lemma sectors_at_bytes d lba idxs :
  (∀ i, i ∈ idxs → bd_good d (lba + i)) →
  Z.of_nat (length (sectors_at d lba idxs)) = bd_sector_size d * Z.of_nat (length idxs) ∧
  bytes (sectors_at d lba idxs).
Proof.
  induction idxs as [|i idxs IH]; intros Hg.
  - split; [cbn; lia|constructor].
  - destruct IH as [IH1 IH2]; [intros j Hj; apply Hg; set_solver|].
    destruct (bd_read_good d (lba + i)) as (l & Hl & Hlen & Hb); [apply Hg; set_solver|].
    replace (sectors_at d lba (i :: idxs)) with (l ++ sectors_at d lba idxs)
      by (unfold sectors_at; cbn; by rewrite Hl).
    rewrite length_app. simpl length. split; [|by apply bytes_app].
    rewrite Nat2Z.inj_add, Nat2Z.inj_succ, Z.mul_succ_r. lia.
Qed.

(** The sectors of a block. *)
Lemma vol_sector n f b i :
  vol_ok n f → 0 ≤ b < n → i ∈ seqZ 0 (sectors_per_block f) →
  0 ≤ part_lba f + b * sectors_per_block f + i < 2 ^ 64 ∧
  bd_good (fs_bd f) (part_lba f + b * sectors_per_block f + i).
Proof.
  intros [] Hb Hi%elem_of_seqZ.
  assert (b * sectors_per_block f + i < n * sectors_per_block f) by nia.
  split; [nia|]. apply vo_good0. nia.
Qed.

Lemma block_lba_eq n f b :
  vol_ok n f → 0 ≤ b < n → block_lba f b = part_lba f + b * sectors_per_block f.
Proof.
  intros [] Hb. unfold block_lba. unfold TOTFS_BLOCK_SIZE in *.
  assert (0 < sectors_per_block f) by nia.
  assert (b * sectors_per_block f < n * sectors_per_block f) by nia.
  assert (0 ≤ b * sectors_per_block f) by nia.
  rewrite (u64_small (b * sectors_per_block f)) by lia. apply u64_small. lia.
Qed.

Lemma blk_bytes n f b :
  vol_ok n f → 0 ≤ b < n → length (blk f b) = 4096%nat ∧ bytes (blk f b).
Proof.
  intros Hv Hb.
  destruct (sectors_at_bytes (fs_bd f) (part_lba f + b * sectors_per_block f)
    (seqZ 0 (sectors_per_block f))) as [Hl Hbs].
  - intros i Hi. by eapply vol_sector.
  - split; [|done]. destruct Hv. unfold TOTFS_BLOCK_SIZE in *.
    rewrite length_seqZ in Hl. unfold blk. nia.
Qed.

Lemma wpe_read_block n f b Q H' :
  vol_ok n f → 0 ≤ b < n → Q (blk f b) f → wpe (totfs_read_block b) Q H' f.
Proof.
  intros Hv Hb HQ. unfold totfs_read_block. we_steps. rewrite (block_lba_eq n) by done.
  apply wpe_read_sectors; [|done]. intros i Hi. by eapply vol_sector.
Qed.

(** What a loop of sector writes does to the device. *)
Record sectors_written (d d' : D) (lba : Z) (idxs : list Z) (buf : list Z) : Prop := {
  sw_in i : i ∈ idxs → bd_read (lba + i) d' =
    Some (slice buf (Z.to_nat (i * bd_sector_size d)) (Z.to_nat (bd_sector_size d)));
  sw_out k : (∀ i, i ∈ idxs → k ≠ lba + i) → bd_read k d' = bd_read k d;
  sw_good k : bd_good d' k ↔ bd_good d k;
  sw_size : bd_sector_size d' = bd_sector_size d
}.

Lemma slice_sector (buf : list Z) i ss k :
  Z.of_nat (length buf) = ss * k → 0 ≤ i < k → 0 < ss →
  Z.of_nat (length (slice buf (Z.to_nat (i * ss)) (Z.to_nat ss))) = ss.
Proof.
  intros. unfold slice. rewrite length_take, length_drop.
  assert (i * ss + ss ≤ ss * k) by nia. assert (0 ≤ i * ss) by nia. lia.
Qed.

Lemma wpe_write_sectors idxs lba buf k f Q H' :
  NoDup idxs → bytes buf → 0 < bd_sector_size (fs_bd f) →
  Z.of_nat (length buf) = bd_sector_size (fs_bd f) * k →
  (∀ i, i ∈ idxs → 0 ≤ i < k ∧ 0 ≤ lba + i < 2 ^ 64 ∧ bd_good (fs_bd f) (lba + i)) →
  (∀ d', sectors_written (fs_bd f) d' lba idxs buf → Q tt (set_bd d' f)) →
  wpe (write_sectors idxs lba buf) Q H' f.
Proof.
  intros Hnd Hb. revert f Q.
  induction Hnd as [|i idxs Hi Hnd IH]; intros f Q Hss Hlen Hg HQ; cbn [write_sectors]; we_steps.
  { destruct f as [d ? ? ? ? ?]. apply (HQ d). split; [set_solver|done..]. }
  destruct (Hg i) as (Hik & Hr & Hgi); [set_solver|]. rewrite u64_small by lia.
  set (ss := bd_sector_size (fs_bd f)) in *.
  set (sec := slice buf (Z.to_nat (i * ss)) (Z.to_nat ss)).
  destruct (bd_write_good (fs_bd f) (lba + i) sec) as (d1 & Hw & Hrd & Ho & Hgd & Hsz & _).
  { done. } { by eapply slice_sector. } { by apply bytes_take, bytes_drop. }
  rewrite Hw. cbn [fst snd negb]. cbv iota.
  apply IH; simpl fs_bd; fold ss; rewrite ?Hsz; [done|done| |].
  { intros j Hj. destruct (Hg j) as (? & ? & ?); [set_solver|]. by rewrite Hgd. }
  intros d' [Win Wout Wgood Wsize]. simpl in *. fold ss in Hsz. rewrite Hsz in *.
  apply (HQ d'). split.
  - intros j Hj. fold ss. destruct (decide (j = i)) as [->|Hji].
    + rewrite Wout; [done|]. intros j' Hj' ?. assert (i = j') as -> by lia. done.
    + apply Win. set_solver.
  - intros k' Hk'. rewrite Wout by set_solver. apply Ho, Hk'. set_solver.
  - intros k'. by rewrite Wgood.
  - done.
Qed.

Lemma mjoin_slices (buf : list Z) (ss n : nat) :
  (n * ss ≤ length buf)%nat →
  mjoin ((λ i, slice buf (Z.to_nat (i * Z.of_nat ss)) ss) <$> seqZ 0 (Z.of_nat n)) =
  take (n * ss) buf.
Proof.
  induction n as [|n IH]; intros Hn; [done|].
  rewrite Nat2Z.inj_succ, <-Z.add_1_r, seqZ_app by lia.
  rewrite fmap_app, join_app, IH by lia. simpl. rewrite app_nil_r.
  replace (ss + n * ss)%nat with (n * ss + ss)%nat by lia.
  unfold slice. rewrite <-take_take_drop. do 3 f_equal. lia.
Qed.

(** [f'] is [f] after block [b] was overwritten with [buf]. *)
Definition block_written (n : Z) f f' (b : Z) (buf : list Z) : Prop :=
  vol_ok n f' ∧ (∃ d', f' = set_bd d' f) ∧
  ∀ k, 0 ≤ k < n → blk f' k = if decide (k = b) then buf else blk f k.

Lemma sectors_at_ext d d' lba lba' idxs :
  (∀ i, i ∈ idxs → bd_read (lba' + i) d' = bd_read (lba + i) d) →
  sectors_at d' lba' idxs = sectors_at d lba idxs.
Proof.
  intros Hr. unfold sectors_at. f_equal. apply list_fmap_ext.
  intros _ i Hi%list_elem_of_lookup_2. by rewrite Hr.
Qed.

Lemma wpe_write_block n f b buf Q H' :
  vol_ok n f → 0 ≤ b < n → length buf = 4096%nat → bytes buf →
  (∀ f', block_written n f f' b buf → Q tt f') →
  wpe (totfs_write_block b buf) Q H' f.
Proof.
  intros Hv Hb Hl Hbs HQ. unfold totfs_write_block. we_steps. rewrite (block_lba_eq n) by done.
  pose proof Hv as [Hss Hblk Hlba Hend Hgood]. unfold TOTFS_BLOCK_SIZE in Hblk.
  assert (0 < sectors_per_block f) as Hspb by nia.
  apply (wpe_write_sectors _ _ _ (sectors_per_block f)); [apply NoDup_seqZ|done|done|lia| |].
  { intros i Hi. split; [by apply elem_of_seqZ in Hi|]. by eapply vol_sector. }
  intros d' [Win Wout Wgood Wsize]. apply HQ. split_and!; [|eauto|].
  - split; simpl; rewrite ?Wsize; try done. intros k Hk. by apply Wgood, Hgood.
  - intros k Hk. unfold blk. simpl. case_decide as Hkb.
    + subst k. rewrite <-(firstn_all buf), Hl.
      replace 4096%nat with
        (Z.to_nat (sectors_per_block f) * Z.to_nat (bd_sector_size (fs_bd f)))%nat by nia.
      rewrite <-mjoin_slices by nia. rewrite !Z2Nat.id by lia. unfold sectors_at. f_equal.
      apply list_fmap_ext. intros _ i Hi%list_elem_of_lookup_2. by rewrite Win.
    + apply sectors_at_ext. intros i Hi%elem_of_seqZ. apply Wout.
      intros j Hj%elem_of_seqZ. nia.
Qed.
End disk.

(** * ToTFS: bitmaps and the block allocator

    The bitmap operations on bits, the well-formed file systems and what
    [totfs_alloc_block] and [totfs_free_block] do to them. *)

(** Bit [i] of a bitmap. *)
Definition bit (bmp : list Z) (i : Z) : bool :=
  Z.testbit (default 0 (bmp !! Z.to_nat (i / 8))) (i mod 8).

Definition bitmap_ok (bmp : list Z) : Prop := length bmp = 4096%nat ∧ bytes bmp.

(** ** Bits *)

Lemma land_1_testbit b k : 0 ≤ k → negb (Z.land (Z.shiftr b k) 1 =? 0) = Z.testbit b k.
Proof.
  intros Hk. change 1 with (Z.ones 1). rewrite Z.land_ones by lia.
  change (2 ^ 1) with 2. rewrite Z.testbit_odd, Zmod_odd. by destruct (Z.odd _).
Qed.

Lemma byte_at bmp i :
  bitmap_ok bmp → 0 ≤ i < 32768 →
  ∃ b, bmp !! Z.to_nat (i / 8) = Some b ∧ 0 ≤ b < 256 ∧ arr_get bmp (i / 8) = Some b.
Proof.
  intros [Hl Hb] Hi. assert (0 ≤ i / 8 < 4096) as H8.
  { split; [apply Z.div_pos; lia|apply Z.div_lt_upper_bound; lia]. }
  destruct (lookup_lt_is_Some_2 bmp (Z.to_nat (i / 8))) as [b E]; [lia|].
  exists b. split; [done|]. split; [exact (proj1 (Forall_lookup _ _) Hb _ _ E)|].
  unfold arr_get. destruct (Z.leb_spec 0 (i / 8)); [done|lia].
Qed.

Lemma bitmap_test_spec bmp i :
  bitmap_ok bmp → 0 ≤ i < 32768 → bitmap_test bmp i = Some (bit bmp i).
Proof.
  intros Hok Hi. destruct (byte_at bmp i Hok Hi) as (b & Hb & _ & Hg).
  unfold bitmap_test, bit. rewrite Hg, Hb. cbn.
  by rewrite land_1_testbit by (apply Z.mod_pos_bound; lia).
Qed.

Lemma bitmap_update bmp i (v : Z → Z) (g : bool → bool) :
  bitmap_ok bmp → 0 ≤ i < 32768 →
  (∀ b k, 0 ≤ b < 256 → 0 ≤ k < 8 → 0 ≤ v b < 256 ∧
     Z.testbit (v b) k = if decide (k = i mod 8) then g (Z.testbit b k) else Z.testbit b k) →
  ∃ bmp', (b ← arr_get bmp (i / 8); arr_set bmp (i / 8) (v b)) = Some bmp' ∧ bitmap_ok bmp' ∧
    ∀ j, 0 ≤ j → bit bmp' j = if decide (j = i) then g (bit bmp i) else bit bmp j.
Proof.
  intros Hok Hi Hv. destruct (byte_at bmp i Hok Hi) as (b & Hb & Hbr & Hg).
  destruct Hok as [Hl Hbs]. rewrite Hg. cbn. unfold arr_set.
  assert (0 ≤ i / 8 < 4096) as H8.
  { split; [apply Z.div_pos; lia|apply Z.div_lt_upper_bound; lia]. }
  rewrite Hl. destruct (Z.leb_spec 0 (i / 8)); [|lia].
  destruct (Z.ltb_spec (i / 8) (Z.of_nat 4096)); [|lia]. simpl.
  eexists. split; [done|]. split.
  { split; [by rewrite length_insert|]. apply Forall_insert; [done|].
    destruct (Hv b 0) as [? _]; [lia..|done]. }
  intros j Hj. unfold bit. pose proof (Z.mod_pos_bound j 8 ltac:(lia)).
  pose proof (Z.div_mod j 8 ltac:(lia)) as Ej. pose proof (Z.div_mod i 8 ltac:(lia)) as Ei.
  assert (0 ≤ j / 8) by (apply Z.div_pos; lia).
  destruct (decide (j / 8 = i / 8)) as [Hq|Hq].
  - rewrite Hq, list_lookup_insert_eq by lia. rewrite Hb. cbn.
    destruct (Hv b (j mod 8)) as [_ ->]; [done|lia|].
    destruct (decide (j = i)) as [->|Hji]; [by rewrite decide_True|].
    rewrite decide_False by lia. done.
  - rewrite list_lookup_insert_ne by lia. rewrite decide_False by congruence. done.
Qed.

Lemma bitmap_set_spec bmp i :
  bitmap_ok bmp → 0 ≤ i < 32768 →
  ∃ bmp', bitmap_set bmp i = Some bmp' ∧ bitmap_ok bmp' ∧
    ∀ j, 0 ≤ j → bit bmp' j = if decide (j = i) then true else bit bmp j.
Proof.
  intros Hok Hi.
  apply (bitmap_update bmp i (λ b, Z.lor b (u8 (Z.shiftl 1 (i mod 8)))) (λ _, true) Hok Hi).
  assert (forallb (λ b, forallb (λ m, forallb (λ k,
      let v := Z.lor b (u8 (Z.shiftl 1 m)) in
      (0 <=? v) && (v <? 256) && eqb (Z.testbit v k) (if k =? m then true else Z.testbit b k))
      (seqZ 0 8)) (seqZ 0 8)) (seqZ 0 256) = true) as H by (vm_compute; reflexivity).
  intros b k Hb Hk. pose proof (forall_range _ _ H b Hb) as H1.
  pose proof (forall_range _ _ H1 (i mod 8) ltac:(apply Z.mod_pos_bound; lia)) as H2.
  pose proof (forall_range _ _ H2 k Hk) as H3. cbv beta zeta in H3.
  apply andb_true_iff in H3 as [H3 ->%eqb_prop]. b2p. split; [lia|].
  destruct (Z.eqb_spec k (i mod 8)); [by rewrite decide_True|by rewrite decide_False].
Qed.

Lemma bitmap_clear_spec bmp i :
  bitmap_ok bmp → 0 ≤ i < 32768 →
  ∃ bmp', bitmap_clear bmp i = Some bmp' ∧ bitmap_ok bmp' ∧
    ∀ j, 0 ≤ j → bit bmp' j = if decide (j = i) then false else bit bmp j.
Proof.
  intros Hok Hi.
  apply (bitmap_update bmp i (λ b, Z.land b (u8 (Z.lnot (Z.shiftl 1 (i mod 8))))) (λ _, false) Hok Hi).
  assert (forallb (λ b, forallb (λ m, forallb (λ k,
      let v := Z.land b (u8 (Z.lnot (Z.shiftl 1 m))) in
      (0 <=? v) && (v <? 256) && eqb (Z.testbit v k) (if k =? m then false else Z.testbit b k))
      (seqZ 0 8)) (seqZ 0 8)) (seqZ 0 256) = true) as H by (vm_compute; reflexivity).
  intros b k Hb Hk. pose proof (forall_range _ _ H b Hb) as H1.
  pose proof (forall_range _ _ H1 (i mod 8) ltac:(apply Z.mod_pos_bound; lia)) as H2.
  pose proof (forall_range _ _ H2 k Hk) as H3. cbv beta zeta in H3.
  apply andb_true_iff in H3 as [H3 ->%eqb_prop]. b2p. split; [lia|].
  destruct (Z.eqb_spec k (i mod 8)); [by rewrite decide_True|by rewrite decide_False].
Qed.

(** ** The superblock's bytes *)

Record sb_fits (s : totfs_superblock) : Prop := {
  sf_values : fits sb_layout (sb_values s);
  sf_rest : length (sb_rest s) = 144%nat;
  sf_bytes : bytes (sb_rest s)
}.

Lemma length_encode_sb s : sb_fits s → length (encode_sb s) = 256%nat.
Proof.
  intros [Hv Hr _]. unfold encode_sb. rewrite length_app, length_encode_fields; [|done].
  rewrite Hr. done.
Qed.

Lemma sb_block_bytes s : sb_fits s → length (sb_block s) = 4096%nat ∧ bytes (sb_block s).
Proof.
  intros Hs. unfold sb_block. rewrite length_app, length_encode_sb, length_replicate by done.
  split; [done|]. apply bytes_app; [|apply bytes_zero].
  apply bytes_app; [apply bytes_encode_fields|by destruct Hs].
Qed.

Lemma decode_encode_sb s l : sb_fits s → decode_sb (encode_sb s ++ l) = s.
Proof.
  intros [Hv Hr Hb]. unfold decode_sb, encode_sb. rewrite <-app_assoc.
  rewrite decode_encode_fields by done.
  unfold slice. rewrite drop_app_ge; rewrite length_encode_fields by done; [|done].
  rewrite Nat.sub_diag, drop_0, take_app_le, take_ge by (rewrite Hr; done).
  by destruct s.
Qed.

Lemma sb_fits_free s a b :
  sb_fits s → 0 ≤ a < 2 ^ 64 → 0 ≤ b < 2 ^ 64 → sb_fits (set_free_counts a b s).
Proof.
  intros [Hv Hr Hb] Ha Hb'. split; [|done..]. unfold fits, sb_layout, sb_values in *.
  repeat match goal with
  | H : Forall2 _ (_ :: _) (_ :: _) |- _ => apply Forall2_cons in H as [? H]
  end.
  repeat (constructor; [done|]). constructor.
Qed.

(** ** Well-formed file systems *)

Section alloc.
Context {D : Type} `{BlockDeviceLaws D}.
Implicit Types f : totfs_fs D.

(** The blocks the bitmap can hand out end here. *)
Definition max_block f : Z := Z.min (sb_total_blocks (sb f)) (TOTFS_BLOCK_SIZE * 8).

Definition block_used f (b : Z) : bool := bit (block_bitmap f) b.

(** The layout of the volume: superblock, bitmaps, inode table, data. *)
Record wf_fs f : Prop := {
  wf_vol : vol_ok (sb_total_blocks (sb f)) f;
  wf_bitmap : bitmap_ok (block_bitmap f);
  wf_sb : sb_fits (sb f);
  wf_bbm : 0 < sb_block_bitmap_start (sb f) < sb_inode_table_start (sb f);
  wf_table : sb_inode_table_start (sb f) + (sb_total_inodes (sb f) + 15) / 16
               ≤ sb_data_start (sb f);
  wf_inodes : 0 ≤ sb_total_inodes (sb f) < 2 ^ 32;
  wf_data : sb_data_start (sb f) ≤ max_block f
}.

Lemma wf_fs_bounds f : wf_fs f →
  0 < sb_data_start (sb f) ≤ max_block f ∧ max_block f ≤ sb_total_blocks (sb f) ∧
  max_block f ≤ 32768 ∧ 0 < sb_block_bitmap_start (sb f) < sb_data_start (sb f).
Proof.
  intros []. unfold max_block, TOTFS_BLOCK_SIZE in *.
  assert (0 ≤ (sb_total_inodes (sb f) + 15) / 16) by (apply Z.div_pos; lia). lia.
Qed.

(** Writing a block keeps the file system well formed. *)
Lemma wf_fs_written f f' b buf :
  wf_fs f → block_written (sb_total_blocks (sb f)) f f' b buf → wf_fs f'.
Proof. intros [] (Hv & [d' ->] & _). by split. Qed.

(** [f'] is [f] with the allocation state of block [b] set to [v]. *)
Record marked f f' (b : Z) (v : bool) : Prop := {
  mk_wf : wf_fs f';
  mk_bits j : 0 ≤ j → block_used f' j = if decide (j = b) then v else block_used f j;
  mk_sb : ∃ c, 0 ≤ c < 2 ^ 64 ∧ sb f' = set_free_counts c (sb_free_inodes (sb f)) (sb f);
  mk_inodes : inode_bitmap f' = inode_bitmap f;
  mk_place : part_lba f' = part_lba f ∧ sectors_per_block f' = sectors_per_block f;
  mk_disk k : 0 < k < sb_total_blocks (sb f) → k ≠ sb_block_bitmap_start (sb f) →
    blk f' k = blk f k
}.

(** The bitmap in memory is on the disk. *)
Definition bitmap_synced f : Prop := blk f (sb_block_bitmap_start (sb f)) = block_bitmap f.

Definition set_alloc (bmp : list Z) (c : Z) f : totfs_fs D :=
  set_sb (set_free_counts c (sb_free_inodes (sb f)) (sb f)) (set_block_bitmap bmp f).

Lemma wf_set_alloc f bmp c :
  wf_fs f → bitmap_ok bmp → 0 ≤ c < 2 ^ 64 → wf_fs (set_alloc bmp c f).
Proof.
  intros [] Hb Hc. split; simpl; try done.
  - destruct wf_vol0. by split.
  - apply sb_fits_free; [done..|].
    destruct wf_sb0 as [Hv _ _]. unfold fits, sb_layout, sb_values in Hv.
    by repeat match goal with
    | H : Forall2 _ (_ :: _) (_ :: _) |- _ => apply Forall2_cons in H as [? H]
    end.
Qed.

Lemma wpe_alloc_block f (Q : Z → totfs_fs D → Prop) (H' : totfs_fs D → Prop) :
  wf_fs f →
  (∀ i f', sb_data_start (sb f) ≤ i < max_block f → block_used f i = false →
     (∀ j, sb_data_start (sb f) ≤ j < i → block_used f j = true) →
     marked f f' i true → bitmap_synced f' →
     sb_free_blocks (sb f') = u64 (sb_free_blocks (sb f) - 1) →
     Q i f') →
  ((∀ j, sb_data_start (sb f) ≤ j < max_block f → block_used f j = true) → H' f) →
  wpe totfs_alloc_block Q H' f.
Proof.
  intros Hwf HQ HH. pose proof (wf_fs_bounds f Hwf) as (Hds & Hmt & Hm & Hbb).
  unfold totfs_alloc_block. we_steps.
  replace (if _ <? sb_total_blocks (sb f) then _ else _) with (max_block f)
    by (unfold max_block; destruct (Z.ltb_spec (TOTFS_BLOCK_SIZE * 8) (sb_total_blocks (sb f))); lia).
  apply (wpe_for_er _ _ _ (λ i f', f' = f ∧
    ∀ j, sb_data_start (sb f) ≤ j < i → block_used f j = true)).
  - apply Hwf.
  - split; [done|lia].
  - intros i f1 Hi [-> Hlow]. we_steps. rewrite u32_small by lia.
    eapply wpe_need; [apply bitmap_test_spec; [apply Hwf|lia]|]. fold (block_used f i).
    destruct (block_used f i) eqn:Eu; we_steps.
    { split; [done|]. intros j Hj. destruct (decide (j = i)) as [->|]; [done|]. apply Hlow. lia. }
    destruct (bitmap_set_spec (block_bitmap f) i) as (bmp' & Hset & Hok & Hbits);
      [apply Hwf|lia|].
    eapply wpe_need; [exact Hset|]. we_steps. cbn [sb set_block_bitmap].
    change (set_sb _ _) with (set_alloc bmp' (u64 (sb_free_blocks (sb f) - 1)) f).
    pose proof (wf_set_alloc f bmp' _ Hwf Hok (u64_range (sb_free_blocks (sb f) - 1))) as Hwf1.
    set (f1 := set_alloc bmp' _ f) in *.
    apply (wpe_write_block (sb_total_blocks (sb f))); [apply Hwf1|lia|apply Hok|apply Hok|].
    intros f2 Hw2. pose proof (wf_fs_written f1 f2 _ _ Hwf1 Hw2) as Hwf2.
    destruct Hw2 as (_ & [d2 ->] & Hb2). we_steps.
    destruct (sb_block_bytes (sb f1) (wf_sb _ Hwf1)) as [Hsl Hsb].
    apply (wpe_write_block (sb_total_blocks (sb f))); [apply Hwf2|lia|exact Hsl|exact Hsb|].
    intros f3 Hw3. pose proof (wf_fs_written _ f3 _ _ Hwf2 Hw3) as Hwf3.
    destruct Hw3 as (_ & [d3 ->] & Hb3). we_steps. apply HQ; [done..| | |reflexivity].
    + split; [done| | |done|done|].
      * intros j Hj. by apply Hbits.
      * eexists. split; [apply u64_range|]. reflexivity.
      * intros k Hk Hne. rewrite Hb3, Hb2 by lia. rewrite !decide_False by lia. reflexivity.
    + unfold bitmap_synced. change (sb_block_bitmap_start (sb _)) with (sb_block_bitmap_start (sb f)).
      rewrite Hb3, decide_False, Hb2, decide_True by lia. reflexivity.
  - intros f1 [-> Hall]. we_steps. by apply HH.
Qed.

Lemma wpe_free_block f b (Q : unit → totfs_fs D → Prop) (H' : totfs_fs D → Prop) :
  wf_fs f → 0 < b < max_block f →
  (∀ f', marked f f' b false → bitmap_synced f' →
     sb_free_blocks (sb f') = u64 (sb_free_blocks (sb f) + 1) → Q tt f') →
  wpe (totfs_free_block b) Q H' f.
Proof.
  intros Hwf Hb HQ. pose proof (wf_fs_bounds f Hwf) as (Hds & Hmt & Hm & Hbb).
  unfold totfs_free_block. we_steps. unfold TOTFS_BLOCK_SIZE.
  destruct (Z.leb_spec (sb_total_blocks (sb f)) b); [lia|].
  destruct (Z.leb_spec (4096 * 8) b); [lia|]. cbn [orb]. cbv iota. we_steps.
  rewrite u32_small by lia.
  destruct (bitmap_clear_spec (block_bitmap f) b) as (bmp' & Hset & Hok & Hbits);
    [apply Hwf|lia|].
  eapply wpe_need; [exact Hset|]. we_steps. cbn [sb set_block_bitmap].
  change (set_sb _ _) with (set_alloc bmp' (u64 (sb_free_blocks (sb f) + 1)) f).
  pose proof (wf_set_alloc f bmp' _ Hwf Hok (u64_range (sb_free_blocks (sb f) + 1))) as Hwf1.
  set (f1 := set_alloc bmp' _ f) in *.
  apply (wpe_write_block (sb_total_blocks (sb f))); [apply Hwf1|lia|apply Hok|apply Hok|].
  intros f2 Hw2. pose proof (wf_fs_written f1 f2 _ _ Hwf1 Hw2) as Hwf2.
  destruct Hw2 as (_ & [d2 ->] & Hb2). apply HQ; [| |reflexivity].
  - split; [done| | |done|done|].
    + intros j Hj. by apply Hbits.
    + eexists. split; [apply u64_range|]. reflexivity.
    + intros k Hk Hne. rewrite Hb2 by lia. by rewrite !decide_False by lia.
  - unfold bitmap_synced. change (sb_block_bitmap_start (sb _)) with (sb_block_bitmap_start (sb f)).
    rewrite Hb2, decide_True by lia. reflexivity.
Qed.
End alloc.
