(* ===== verification/TotfsInode.v ===== *)
(** * ToTFS: inodes

    The byte layout of an inode, the inode table, and the map from the blocks
    of a file to the blocks of the volume that an inode's extents define. *)

From S2P Require Import Prelude Loops Codec Ring Totfs TotfsDisk.

(** ** Layout *)

Definition extent_fits (x : totfs_extent) : Prop :=
  0 ≤ x_start_block x < 2 ^ 64 ∧ 0 ≤ x_block_count x < 2 ^ 32 ∧ 0 ≤ x_file_block x < 2 ^ 32.

Record inode_fits (i : totfs_inode) : Prop := {
  if_values : fits inode_layout (inode_values i);
  if_extents : length (i_extents i) = 10%nat;
  if_each : Forall extent_fits (i_extents i);
  if_reserved : length (i_reserved i) = 32%nat;
  if_bytes : bytes (i_reserved i)
}.

Lemma length_encode_extent x : length (encode_extent x) = 16%nat.
Proof. unfold encode_extent. by rewrite length_encode_fields. Qed.

Lemma decode_encode_extent x l : extent_fits x → decode_extent (encode_extent x ++ l) = x.
Proof.
  intros (? & ? & ?). unfold decode_extent, encode_extent. rewrite decode_encode_fields.
  - by destruct x.
  - repeat (constructor; [done|]). constructor.
Qed.

Lemma encode_extents_cons x xs :
  encode_extents (x :: xs) = encode_extent x ++ encode_extents xs.
Proof. reflexivity. Qed.

Lemma decode_encode_extents xs l :
  Forall extent_fits xs → decode_extents (length xs) (encode_extents xs ++ l) = xs.
Proof.
  intros Hxs. induction Hxs as [|x xs Hx _ IH]; [done|].
  cbn [length decode_extents]. rewrite encode_extents_cons, <-app_assoc. rewrite decode_encode_extent by done. f_equal.
  rewrite drop_app_ge; rewrite length_encode_extent; [|done].
  by rewrite Nat.sub_diag, drop_0.
Qed.

Lemma length_encode_extents xs : length (encode_extents xs) = (16 * length xs)%nat.
Proof.
  induction xs as [|x xs IH]; [done|]. rewrite encode_extents_cons. cbn [length].
  rewrite length_app, length_encode_extent, IH. lia.
Qed.

Lemma bytes_encode_extents xs : bytes (encode_extents xs).
Proof.
  induction xs as [|x xs IH]; [constructor|]. rewrite encode_extents_cons.
  apply bytes_app; [apply bytes_encode_fields|done].
Qed.

Lemma encode_inode_bytes i :
  inode_fits i → length (encode_inode i) = 256%nat ∧ bytes (encode_inode i).
Proof.
  intros []. unfold encode_inode.
  rewrite !length_app, length_encode_fields, length_encode_extents by done.
  split; [rewrite if_extents0, if_reserved0; done|].
  apply bytes_app; [apply bytes_encode_fields|]. by apply bytes_app; [apply bytes_encode_extents|].
Qed.

Lemma decode_encode_inode i l : inode_fits i → decode_inode (encode_inode i ++ l) = i.
Proof.
  intros []. unfold decode_inode, encode_inode. rewrite <-!app_assoc.
  rewrite decode_encode_fields by done.
  rewrite drop_app_ge; rewrite length_encode_fields by done; [|done].
  change (64 - sum_list inode_layout)%nat with O. rewrite drop_0.
  rewrite <-if_extents0, decode_encode_extents by done.
  unfold slice. rewrite drop_app_ge; rewrite length_encode_fields by done; [|cbn; lia].
  rewrite drop_app_ge; rewrite length_encode_extents, if_extents0; [|cbn; lia].
  change (224 - sum_list inode_layout - 16 * 10)%nat with O. rewrite drop_0.
  rewrite take_app_le, take_ge by lia. by destruct i.
Qed.

(** ** The map from file blocks to volume blocks *)

Abbreviation phys := totfs_find_phys_block.

(** The extents stay below the end of the volume and of the 32-bit block
    numbers. *)
Definition extent_ok (lo hi : Z) (x : totfs_extent) : Prop :=
  lo ≤ x_start_block x ∧ 0 ≤ x_block_count x ∧ x_start_block x + x_block_count x ≤ hi ∧
  0 ≤ x_file_block x ∧ x_file_block x + x_block_count x < 2 ^ 32.

Definition covers (x : totfs_extent) (lb : Z) : Prop :=
  x_file_block x ≤ lb < x_file_block x + x_block_count x.
#[global] Instance covers_dec x lb : Decision (covers x lb).
Proof. unfold covers. apply _. Defined.

Lemma find_extent_cons lo hi x xs lb :
  extent_ok lo hi x → 0 ≤ lo → hi ≤ 32768 →
  find_extent (x :: xs) lb =
  if decide (covers x lb) then Some (x_start_block x + (lb - x_file_block x))
  else find_extent xs lb.
Proof.
  intros (H1 & H2 & H3 & H4 & H5) Hlo Hhi. cbn. rewrite u32_small by lia.
  unfold covers.
  destruct (Z.leb_spec (x_file_block x) lb); simpl; [|by rewrite decide_False by lia].
  destruct (Z.ltb_spec lb (x_file_block x + x_block_count x)); simpl.
  - rewrite decide_True by lia. rewrite u64_small by lia. done.
  - by rewrite decide_False by lia.
Qed.

Lemma find_extent_range lo hi xs lb p :
  Forall (extent_ok lo hi) xs → 0 ≤ lo → hi ≤ 32768 →
  find_extent xs lb = Some p → lo ≤ p < hi.
Proof.
  intros Hxs Hlo Hhi. induction Hxs as [|x xs Hx _ IH]; [done|].
  rewrite (find_extent_cons lo hi) by done. case_decide as Hc; [|done].
  intros ?. simplify_eq. destruct Hx as (? & ? & ? & ? & ?). unfold covers in Hc. lia.
Qed.

(** Adding an extent at the end. *)
Lemma find_extent_snoc lo hi xs x lb :
  Forall (extent_ok lo hi) xs → extent_ok lo hi x → 0 ≤ lo → hi ≤ 32768 →
  find_extent (xs ++ [x]) lb =
  match find_extent xs lb with
  | Some p => Some p
  | None => if decide (covers x lb) then Some (x_start_block x + (lb - x_file_block x)) else None
  end.
Proof.
  intros Hxs Hx Hlo Hhi. induction Hxs as [|y ys Hy _ IH]; simpl app.
  - rewrite (find_extent_cons lo hi) by done. done.
  - rewrite !(find_extent_cons lo hi y) by done.
    destruct (decide (covers y lb)); [reflexivity|apply IH].
Qed.

(** ** The inode of a file on a volume *)

Record inode_shape (lo hi : Z) (i : totfs_inode) : Prop := {
  is_count : 0 ≤ i_extent_count i ≤ 10;
  is_fits : inode_fits i;
  is_ok : Forall (extent_ok lo hi) (used_extents i)
}.

Lemma used_extents_take i :
  0 ≤ i_extent_count i ≤ 10 →
  used_extents i = take (Z.to_nat (i_extent_count i)) (i_extents i).
Proof. intros. unfold used_extents, TOTFS_NUM_EXTENTS. by rewrite Z.min_l by lia. Qed.

Lemma fits_set_extents i n u xs :
  inode_fits i → 0 ≤ n < 2 ^ 32 → 0 ≤ u < 2 ^ 64 → length xs = 10%nat → Forall extent_fits xs →
  inode_fits (set_extents n u xs i).
Proof.
  intros [] Hn Hu Hl Hxs. split; try done. unfold fits, inode_layout, inode_values in *.
  repeat match goal with
  | H : Forall2 _ (_ :: _) (_ :: _) |- _ => apply Forall2_cons in H as [? H]
  end.
  repeat (constructor; [done|]). constructor.
Qed.

Lemma fits_set_size i n : inode_fits i → 0 ≤ n < 2 ^ 64 → inode_fits (set_size n i).
Proof.
  intros [] Hn. split; try done. unfold fits, inode_layout, inode_values in *.
  repeat match goal with
  | H : Forall2 _ (_ :: _) (_ :: _) |- _ => apply Forall2_cons in H as [? H]
  end.
  repeat (constructor; [done|]). constructor.
Qed.

(** [i'] maps [lb] to [p] and is [i] on every other block. *)
Record block_added (i i' : totfs_inode) (lb p : Z) : Prop := {
  ba_find k : totfs_find_phys_block i' k =
    if decide (k = lb) then Some p else totfs_find_phys_block i k;
  ba_size : i_size i' = i_size i;
  ba_type : i_type i' = i_type i
}.

(** Replacing or adding the extent at the end of the used ones. *)
Lemma used_extents_set i n u x xs' :
  inode_fits i → 0 ≤ n < 10 → arr_set (i_extents i) n x = Some xs' →
  used_extents (set_extents (n + 1) u xs' i) = take (Z.to_nat n) (i_extents i) ++ [x].
Proof.
  intros [] Hn Hset. unfold arr_set in Hset.
  destruct (Z.leb_spec 0 n); [|lia]. rewrite if_extents0 in Hset.
  destruct (Z.ltb_spec n (Z.of_nat 10)); [|lia]. simplify_eq/=.
  rewrite used_extents_take by (simpl; lia). simpl.
  replace (Z.to_nat (n + 1)) with (S (Z.to_nat n)) by lia.
  rewrite (take_S_r _ _ x) by (apply list_lookup_insert_eq; lia).
  by rewrite take_insert_ge by lia.
Qed.

Lemma fits_arr_set xs n x xs' :
  arr_set xs n x = Some xs' → length xs = 10%nat → Forall extent_fits xs → extent_fits x →
  length xs' = 10%nat ∧ Forall extent_fits xs'.
Proof.
  unfold arr_set. intros Hs Hl Hxs Hx. case_match; simplify_eq.
  rewrite length_insert. split; [done|]. by apply Forall_insert.
Qed.

Lemma arr_set_some {A} (xs : list A) n x :
  0 ≤ n < Z.of_nat (length xs) → ∃ xs', arr_set xs n x = Some xs'.
Proof.
  intros Hn. unfold arr_set. destruct (Z.leb_spec 0 n); [|lia].
  destruct (Z.ltb_spec n (Z.of_nat (length xs))); [|lia]. eauto.
Qed.

Section attach.
Context (lo hi : Z) (Hlo : 0 ≤ lo) (Hhi : hi ≤ 32768).

(** [r] is the inode [i] with block [lb] mapped to [p], or the failure that
    all ten extents are in use. *)
Definition attached (i : totfs_inode) (lb p : Z) (r : option (option totfs_inode)) : Prop :=
  (r = Some None ∧ i_extent_count i = 10) ∨
  ∃ i', r = Some (Some i') ∧ inode_shape lo hi i' ∧ block_added i i' lb p.

(** The inode after its last used extents became [pre ++ [x]]. *)
Lemma attach_shape i n x xs' :
  inode_shape lo hi i → 0 ≤ n < 10 → arr_set (i_extents i) n x = Some xs' →
  Forall (extent_ok lo hi) (take (Z.to_nat n) (i_extents i)) → extent_ok lo hi x →
  inode_shape lo hi (set_extents (n + 1) (u64 (i_blocks_used i + 1)) xs' i) ∧
  used_extents (set_extents (n + 1) (u64 (i_blocks_used i + 1)) xs' i) =
    take (Z.to_nat n) (i_extents i) ++ [x].
Proof.
  intros [Hc Hf Hok] Hn Hs Hpre Hx.
  pose proof (used_extents_set i n (u64 (i_blocks_used i + 1)) _ _ Hf Hn Hs) as Hu.
  pose proof Hx as (? & ? & ? & ? & ?).
  destruct (fits_arr_set _ _ _ _ Hs) as [? ?];
    [apply Hf|apply Hf|unfold extent_fits; lia|].
  split; [|done]. split; [simpl; lia|apply fits_set_extents; [done|lia|apply u64_range|done..]|].
  rewrite Hu. apply Forall_app. split; [done|]. by constructor.
Qed.

Lemma add_extent_spec i lb p :
  inode_shape lo hi i → lo ≤ p < hi → 0 ≤ lb < 2 ^ 32 - 1 →
  totfs_find_phys_block i lb = None → attached i lb p (add_extent i lb p).
Proof.
  intros Hi Hp Hlb Hnone. pose proof Hi as [Hc Hf Hok]. unfold add_extent, TOTFS_NUM_EXTENTS.
  destruct (Z.leb_spec 10 (i_extent_count i)); [left; split; [done|lia]|]. right.
  pose proof (if_extents _ Hf) as Hl10.
  destruct (arr_set_some (i_extents i) (i_extent_count i) (Extent p 1 lb)) as [xs' Hs]; [lia|].
  rewrite Hs. cbn. eexists. split; [done|].
  assert (extent_ok lo hi (Extent p 1 lb)) as Hx by (unfold extent_ok; simpl; lia).
  unfold totfs_find_phys_block in Hnone. rewrite used_extents_take in Hok, Hnone by done.
  destruct (attach_shape i (i_extent_count i) _ _ Hi ltac:(lia) Hs Hok Hx) as [Hshape Hu].
  split; [done|]. split; [|done..]. intros k. unfold totfs_find_phys_block.
  rewrite Hu, (used_extents_take i), (find_extent_snoc lo hi) by done. unfold covers. simpl.
  destruct (decide (k = lb)) as [->|Hk].
  - rewrite Hnone, decide_True by lia. f_equal. lia.
  - case_match; [done|]. by rewrite decide_False by lia.
Qed.

(** The last used extent. *)
Lemma last_extent i :
  0 < i_extent_count i ≤ 10 → inode_fits i →
  ∃ x, arr_get (i_extents i) (i_extent_count i - 1) = Some x ∧
    used_extents i = take (Z.to_nat (i_extent_count i - 1)) (i_extents i) ++ [x].
Proof.
  intros Hc Hf. pose proof (if_extents _ Hf).
  destruct (lookup_lt_is_Some_2 (i_extents i) (Z.to_nat (i_extent_count i - 1))) as [x Hx]; [lia|].
  exists x. split.
  - unfold arr_get. destruct (Z.leb_spec 0 (i_extent_count i - 1)); [done|lia].
  - rewrite used_extents_take by lia.
    replace (Z.to_nat (i_extent_count i)) with (S (Z.to_nat (i_extent_count i - 1))) by lia.
    by apply take_S_r.
Qed.

(** What [attach_block] does for an unmapped block. *)
Lemma attach_block_spec i lb p :
  inode_shape lo hi i → lo ≤ p < hi → 0 ≤ lb < 2 ^ 32 - 1 →
  totfs_find_phys_block i lb = None → attached i lb p (attach_block i lb p).
Proof.
  intros Hi Hp Hlb Hnone. pose proof Hi as [Hc Hf Hok]. unfold attach_block. cbv zeta.
  destruct (Z.ltb_spec 0 (i_extent_count i)); [|by apply add_extent_spec].
  destruct (last_extent i) as (last & -> & Hu); [lia|done|]. cbn.
  pose proof Hnone as Hfind. unfold totfs_find_phys_block in Hfind. rewrite Hu in Hok, Hfind.
  apply Forall_app in Hok as [Hok1 Hok2]. apply Forall_cons in Hok2 as [Hok2 _].
  pose proof Hok2 as Hk. unfold extent_ok in Hk. rewrite u32_small, u64_small by lia.
  destruct (Z.eqb_spec lb (x_file_block last + x_block_count last)) as [Elb|];
    [|by apply add_extent_spec].
  destruct (Z.eqb_spec p (x_start_block last + x_block_count last)) as [Ep|];
    [|by apply add_extent_spec].
  cbn [andb]. cbv iota. right. rewrite u32_small by lia.
  set (x' := Extent (x_start_block last) (x_block_count last + 1) (x_file_block last)).
  pose proof (if_extents _ Hf).
  destruct (arr_set_some (i_extents i) (i_extent_count i - 1) x') as [xs' Hs]; [lia|].
  rewrite Hs. cbn. eexists. split; [done|].
  assert (extent_ok lo hi x') as Hx by (unfold extent_ok; simpl; lia).
  destruct (attach_shape i (i_extent_count i - 1) _ _ Hi ltac:(lia) Hs Hok1 Hx) as [Hshape Hu'].
  replace (i_extent_count i - 1 + 1) with (i_extent_count i) in Hshape, Hu' by lia.
  split; [done|]. split; [|done..]. intros k. unfold totfs_find_phys_block.
  rewrite Hu', Hu. rewrite !(find_extent_snoc lo hi) in * by done. unfold covers in *. simpl.
  destruct (decide (k = lb)) as [->|Hkl].
  - destruct (find_extent (take _ _) lb); [done|]. rewrite decide_True by lia. f_equal. lia.
  - case_match; [done|]. destruct (decide (_ ≤ k < x_file_block last + x_block_count last)).
    + by rewrite decide_True by lia.
    + by rewrite decide_False by lia.
Qed.
End attach.
