(* ===== verification/TotfsFile.v ===== *)
(** * ToTFS: files

    The inode table, the bytes of a file, and how reading, block allocation
    and writing act on them. *)

From S2P Require Import Prelude Loops Codec Ring Totfs TotfsDisk TotfsInode.

Section files.
Context {D : Type} `{BlockDeviceLaws D}.
Implicit Types (f : totfs_fs D) (i : totfs_inode).

(** ** The inode table *)

Definition inode_block f (inum : Z) : Z := sb_inode_table_start (sb f) + inum / 16.

(** The inode stored at [inum]. *)
Definition inode_at f (inum : Z) : totfs_inode :=
  decode_inode (slice (blk f (inode_block f inum)) (Z.to_nat (inum mod 16 * 256)) 256).

Lemma inode_block_range f inum :
  wf_fs f → 0 ≤ inum < sb_total_inodes (sb f) →
  0 < inode_block f inum < sb_data_start (sb f) ∧
  inode_block f inum ≠ sb_block_bitmap_start (sb f) ∧
  u64 (sb_inode_table_start (sb f) + inum / 16) = inode_block f inum.
Proof.
  intros Hwf Hi. pose proof (wf_fs_bounds f Hwf). destruct Hwf. unfold inode_block.
  assert (0 ≤ inum / 16) by (apply Z.div_pos; lia).
  assert (inum / 16 < (sb_total_inodes (sb f) + 15) / 16).
  { apply Z.div_lt_upper_bound; [lia|].
    pose proof (Z.div_mod (sb_total_inodes (sb f) + 15) 16 ltac:(lia)).
    pose proof (Z.mod_pos_bound (sb_total_inodes (sb f) + 15) 16 ltac:(lia)). lia. }
  split_and!; [lia..|]. apply u64_small. lia.
Qed.

Lemma wpe_read_inode f inum Q H' :
  wf_fs f → 0 ≤ inum < sb_total_inodes (sb f) → Q (inode_at f inum) f →
  wpe (totfs_read_inode inum) Q H' f.
Proof.
  intros Hwf Hi HQ. unfold totfs_read_inode. we_steps.
  destruct (Z.leb_spec (sb_total_inodes (sb f)) inum); [lia|]. cbv zeta.
  change (TOTFS_BLOCK_SIZE / TOTFS_INODE_SIZE) with 16.
  destruct (inode_block_range f inum Hwf Hi) as (Hr & _ & ->).
  pose proof (wf_fs_bounds f Hwf). we_steps.
  apply (wpe_read_block (sb_total_blocks (sb f))); [apply Hwf|lia|]. by we_steps.
Qed.

(** [f'] is [f] with inode [inum] set to [i]. *)
Record inode_stored f f' (inum : Z) i : Prop := {
  st_wf : wf_fs f';
  st_disk : ∃ d', f' = set_bd d' f;
  st_same : inode_at f' inum = i;
  st_other k : 0 ≤ k < sb_total_inodes (sb f) → k ≠ inum → inode_at f' k = inode_at f k;
  st_blocks b : 0 ≤ b < sb_total_blocks (sb f) → b ≠ inode_block f inum → blk f' b = blk f b
}.

Lemma wpe_write_inode f inum i Q H' :
  wf_fs f → 0 ≤ inum < sb_total_inodes (sb f) → inode_fits i →
  (∀ f', inode_stored f f' inum i → Q tt f') →
  wpe (totfs_write_inode inum i) Q H' f.
Proof.
  intros Hwf Hi Hfit HQ. unfold totfs_write_inode. we_steps.
  destruct (Z.leb_spec (sb_total_inodes (sb f)) inum); [lia|]. cbv zeta.
  change (TOTFS_BLOCK_SIZE / TOTFS_INODE_SIZE) with 16.
  change TOTFS_INODE_SIZE with 256.
  destruct (inode_block_range f inum Hwf Hi) as (Hr & _ & ->).
  pose proof (wf_fs_bounds f Hwf). we_steps.
  apply (wpe_read_block (sb_total_blocks (sb f))); [apply Hwf|lia|]. we_steps.
  destruct (blk_bytes (sb_total_blocks (sb f)) f (inode_block f inum)) as [Hbl Hbb];
    [apply Hwf|lia|].
  destruct (encode_inode_bytes i Hfit) as [Hel Heb].
  pose proof (Z.mod_pos_bound inum 16 ltac:(lia)) as Hmod.
  assert (Z.to_nat (inum mod 16 * 256) + length (encode_inode i) ≤ 4096)%nat as Hfitb
    by (rewrite Hel; lia).
  apply (wpe_write_block (sb_total_blocks (sb f)));
    [apply Hwf|lia|by rewrite length_splice by lia|by apply bytes_splice|].
  intros f' Hw. apply HQ. pose proof (wf_fs_written _ _ _ _ Hwf Hw) as Hwf'.
  destruct Hw as (_ & [d' ->] & Hblk). split; [done|eauto| | |].
  - unfold inode_at. change (inode_block (set_bd d' f) inum) with (inode_block f inum).
    rewrite Hblk, decide_True by lia. rewrite <-Hel, slice_splice_eq by lia.
    rewrite <-(app_nil_r (encode_inode i)). by apply decode_encode_inode.
  - intros k Hk Hne. unfold inode_at.
    change (inode_block (set_bd d' f) k) with (inode_block f k).
    destruct (inode_block_range f k Hwf Hk) as (Hkr & _ & _). rewrite Hblk by lia.
    case_decide as Heq; [|done]. rewrite slice_splice_ne; [by rewrite Heq|lia|].
    pose proof (Z.mod_pos_bound k 16 ltac:(lia)). rewrite Hel.
    unfold inode_block in Heq.
    assert (k mod 16 ≠ inum mod 16).
    { intros Hm. apply Hne. rewrite (Z.div_mod k 16), (Z.div_mod inum 16) by lia. lia. }
    lia.
  - intros b Hb Hne. rewrite Hblk by lia. by rewrite decide_False.
Qed.

(** ** The bytes of a file *)



(** Byte [k] of the file, if its block is mapped. *)
Definition file_byte f i (k : Z) : option Z :=
  match phys i (k / 4096) with
  | Some p => blk f p !! Z.to_nat (k mod 4096)
  | None => None
  end.

(** An inode whose blocks are allocated data blocks, each used once. *)
Record file_ok f i : Prop := {
  fo_wf : wf_fs f;
  fo_shape : inode_shape (sb_data_start (sb f)) (max_block f) i;
  fo_used lb p : phys i lb = Some p → block_used f p = true;
  fo_inj lb lb' p : phys i lb = Some p → phys i lb' = Some p → lb = lb'
}.

Lemma phys_range f i lb p :
  file_ok f i → phys i lb = Some p →
  sb_data_start (sb f) ≤ p < max_block f ∧ 0 < p < sb_total_blocks (sb f) ∧
  p ≠ sb_block_bitmap_start (sb f).
Proof.
  intros [Hwf Hs _ _] Hp. pose proof (wf_fs_bounds f Hwf) as (? & ? & ? & ?).
  assert (sb_data_start (sb f) ≤ p < max_block f); [|lia].
  apply (find_extent_range _ _ (used_extents i) lb); [apply Hs|lia|lia|done].
Qed.

Lemma file_byte_some f i k lb p :
  file_ok f i → phys i lb = Some p → k / 4096 = lb →
  ∃ b, file_byte f i k = Some b ∧ blk f p !! Z.to_nat (k mod 4096) = Some b.
Proof.
  intros Hok Hp <-. unfold file_byte. rewrite Hp.
  destruct (phys_range f i _ p Hok Hp) as (? & ? & _).
  destruct (blk_bytes (sb_total_blocks (sb f)) f p) as [Hl _]; [apply Hok|lia|].
  pose proof (Z.mod_pos_bound k 4096 ltac:(lia)).
  destruct (lookup_lt_is_Some_2 (blk f p) (Z.to_nat (k mod 4096))) as [b Hb]; [lia|].
  eauto.
Qed.

(** ** Growing a file by unmapped blocks *)

(** The same volume, up to the free counts. *)
Definition same_volume f f' : Prop :=
  (∃ a b, sb f' = set_free_counts a b (sb f)) ∧
  part_lba f' = part_lba f ∧ sectors_per_block f' = sectors_per_block f ∧
  inode_bitmap f' = inode_bitmap f.

Lemma same_volume_refl f : same_volume f f.
Proof. split; [|done]. exists (sb_free_blocks (sb f)), (sb_free_inodes (sb f)). by destruct (sb f). Qed.

Lemma same_volume_trans f f1 f2 : same_volume f f1 → same_volume f1 f2 → same_volume f f2.
Proof.
  intros ((a & b & E1) & ? & ? & ?) ((a' & b' & E2) & ? & ? & ?).
  split; [|split_and!; congruence]. exists a', b'. by rewrite E2, E1.
Qed.

Lemma same_volume_disk d' f : same_volume f (set_bd d' f).
Proof. apply (same_volume_refl f). Qed.

Lemma same_volume_marked f f' b v : marked f f' b v → same_volume f f'.
Proof. intros [_ _ (c & _ & E) ? [? ?] _]. split; [rewrite E; eauto|done]. Qed.

(** The fields of the superblock that the layout uses do not change. *)
Lemma same_volume_layout f f' :
  same_volume f f' →
  sb_data_start (sb f') = sb_data_start (sb f) ∧ max_block f' = max_block f ∧
  sb_total_blocks (sb f') = sb_total_blocks (sb f) ∧
  sb_block_bitmap_start (sb f') = sb_block_bitmap_start (sb f) ∧
  sb_total_inodes (sb f') = sb_total_inodes (sb f) ∧
  sb_inode_table_start (sb f') = sb_inode_table_start (sb f).
Proof. intros ((a & b & E) & _). unfold max_block. rewrite E. done. Qed.

(** [(f', i')] is [(f, i)] with some unmapped blocks mapped to zero blocks. *)
Record extends f i f' i' : Prop := {
  ex_ok : file_ok f' i';
  ex_vol : same_volume f f';
  ex_find lb p : phys i lb = Some p → phys i' lb = Some p;
  ex_bits b : 0 ≤ b → block_used f b = true → block_used f' b = true;
  ex_blocks b : 0 < b < sb_total_blocks (sb f) → b ≠ sb_block_bitmap_start (sb f) →
    b < sb_data_start (sb f) ∨ block_used f b = true → blk f' b = blk f b;
  ex_new lb p : phys i' lb = Some p → phys i lb = None → blk f' p = zero_block;
  ex_free lb p : phys i' lb = Some p → phys i lb = None → block_used f p = false;
  ex_size : i_size i' = i_size i;
  ex_type : i_type i' = i_type i
}.

Lemma extends_refl f i : file_ok f i → extends f i f i.
Proof. intros Hok. split; try done; [apply same_volume_refl|congruence..]. Qed.

Lemma extends_keep f i f' i' k b :
  file_ok f i → extends f i f' i' → file_byte f i k = Some b → file_byte f' i' k = Some b.
Proof.
  intros Hok [] Hk. unfold file_byte in *. destruct (phys i (k / 4096)) as [p|] eqn:Ep; [|done].
  rewrite (ex_find0 _ _ Ep). destruct (phys_range f i _ p Hok Ep) as (? & ? & ?).
  rewrite ex_blocks0; [done|done|done|]. right. by eapply fo_used.
Qed.

Lemma extends_fresh f i f' i' k :
  file_ok f i → extends f i f' i' → file_byte f i k = None →
  file_byte f' i' k = None ∨ file_byte f' i' k = Some 0.
Proof.
  intros Hok Hex Hk. destruct (phys i (k / 4096)) as [p|] eqn:Ep.
  { destruct (file_byte_some f i k _ p Hok Ep eq_refl) as (b & ? & _). congruence. }
  unfold file_byte. destruct (phys i' (k / 4096)) as [p|] eqn:Ep'; [|by left].
  right. rewrite (ex_new _ _ _ _ Hex _ _ Ep' Ep). unfold zero_block.
  apply lookup_replicate_2. pose proof (Z.mod_pos_bound k 4096 ltac:(lia)).
  unfold TOTFS_BLOCK_SIZE. lia.
Qed.

(** No block is free, or all extents are in use. *)
Definition exhausted f i : Prop :=
  (∀ b, sb_data_start (sb f) ≤ b < max_block f → block_used f b = true) ∨ i_extent_count i = 10.

(** A fresh block attached to the file. *)
Lemma extends_added f i f1 f2 lb p i' :
  file_ok f i → sb_data_start (sb f) ≤ p < max_block f → block_used f p = false →
  marked f f1 p true → block_written (sb_total_blocks (sb f)) f1 f2 p zero_block →
  inode_shape (sb_data_start (sb f)) (max_block f) i' → phys i lb = None →
  block_added i i' lb p → extends f i f2 i'.
Proof.
  intros Hok Hp Hfree Hm Hw Hshape Hnone [Hfind Hsize Htype].
  pose proof (same_volume_marked _ _ _ _ Hm) as Hv1.
  pose proof (same_volume_layout _ _ Hv1) as (L1 & L2 & L3 & L4 & L5 & L6).
  rewrite <-L3 in Hw.
  pose proof (wf_fs_written _ _ _ _ (mk_wf _ _ _ _ Hm) Hw) as Hwf2.
  destruct Hw as (_ & [d2 ->] & Hblk). destruct Hm as [_ Hbits _ _ _ Hdisk].
  assert (∀ j, 0 ≤ j → block_used (set_bd d2 f1) j = if decide (j = p) then true else block_used f j)
    as Hb by exact Hbits.
  assert (∀ k q, phys i k = Some q → q ≠ p) as Hnp.
  { intros k q Hq ->. pose proof (fo_used _ _ Hok _ _ Hq). congruence. }
  pose proof (wf_fs_bounds f (fo_wf _ _ Hok)) as (B1 & B2 & B3 & B4).
  split; try done.
  - split; [done|simpl; by rewrite L1; unfold max_block; simpl; fold (max_block f1); rewrite L2| |].
    + intros k q. rewrite Hfind. case_decide; intros Hq.
      * simplify_eq. rewrite Hb by lia. by rewrite decide_True.
      * destruct (phys_range f i k q Hok Hq) as (? & ? & ?). rewrite Hb by lia.
        case_decide; [done|]. by eapply fo_used.
    + intros k k' q. rewrite !Hfind. repeat case_decide; intros Hq Hq'; simplify_eq; try done.
      * by destruct (Hnp _ _ Hq').
      * by destruct (Hnp _ _ Hq).
      * by eapply fo_inj.
  - intros k q Hq. rewrite Hfind. case_decide; [congruence|done].
  - intros b Hb0 Hu. rewrite Hb by done. by case_decide.
  - intros b Hbr Hne Hu. rewrite Hblk by lia. case_decide as Hbp.
    + subst b. destruct Hu as [?|?]; [lia|congruence].
    + by apply Hdisk.
  - intros k q. rewrite Hfind. case_decide; [|congruence]. intros Hq _. simplify_eq.
    rewrite Hblk by lia. by rewrite decide_True.
  - intros k q. rewrite Hfind. case_decide; [|congruence]. intros Hq _. by simplify_eq.
Qed.

(** A fresh block that could not be attached and was freed again. *)
Lemma extends_undone f i f1 f2 f3 p :
  file_ok f i → sb_data_start (sb f) ≤ p < max_block f → block_used f p = false →
  marked f f1 p true → block_written (sb_total_blocks (sb f)) f1 f2 p zero_block →
  marked f2 f3 p false → extends f i f3 i.
Proof.
  intros Hok Hp Hfree Hm Hw Hm3.
  pose proof (same_volume_marked _ _ _ _ Hm) as Hv1.
  pose proof (same_volume_layout _ _ Hv1) as (L1 & L2 & L3 & L4 & L5 & L6).
  rewrite <-L3 in Hw. destruct Hw as (_ & [d2 ->] & Hblk).
  pose proof (same_volume_trans _ _ _ Hv1 (same_volume_disk d2 f1)) as Hv2.
  pose proof (same_volume_trans _ _ _ Hv2 (same_volume_marked _ _ _ _ Hm3)) as Hv3.
  pose proof (same_volume_layout _ _ Hv3) as (M1 & M2 & M3 & M4 & M5 & M6).
  pose proof (wf_fs_bounds f (fo_wf _ _ Hok)) as (B1 & B2 & B3 & B4).
  assert (∀ b, 0 ≤ b → block_used f3 b = block_used f b) as Hb.
  { intros b Hb0. rewrite (mk_bits _ _ _ _ Hm3) by done. case_decide; [congruence|].
    change (block_used (set_bd d2 f1) b) with (block_used f1 b).
    rewrite (mk_bits _ _ _ _ Hm) by done. by rewrite decide_False. }
  split; try done.
  - destruct Hok as [? ? Hu ?]. split; [apply Hm3|by rewrite M1, M2| |done].
    intros k q Hq. assert (0 ≤ q) as Hq0; [|rewrite Hb by done; by eapply Hu].
    destruct (phys_range f i k q) as (? & ? & ?); [by split|done|lia].
  - intros b Hb0. by rewrite Hb.
  - intros b Hbr Hne Hu. rewrite (mk_disk _ _ _ _ Hm3) by (simpl; lia).
    rewrite Hblk by lia. case_decide as Hbp.
    + subst b. destruct Hu as [?|?]; [lia|congruence].
    + by apply (mk_disk _ _ _ _ Hm).
  - congruence.
  - congruence.
Qed.

Lemma zero_block_bytes : length zero_block = 4096%nat ∧ bytes zero_block.
Proof. unfold zero_block. rewrite length_replicate. split; [done|apply bytes_zero]. Qed.

Lemma wpe_get_block f i lb (Q : option (Z * totfs_inode) → totfs_fs D → Prop) H' :
  file_ok f i → 0 ≤ lb < 2 ^ 32 - 1 →
  (∀ p i' f', extends f i f' i' → phys i' lb = Some p → Q (Some (p, i')) f') →
  (∀ f', extends f i f' i → exhausted f' i → Q None f') →
  wpe (get_block i lb) Q H' f.
Proof.
  intros Hok Hlb HS HN. unfold get_block. destruct (phys i lb) as [p|] eqn:Ep.
  { we_steps. apply HS; [by apply extends_refl|done]. }
  pose proof (wf_fs_bounds f (fo_wf _ _ Hok)) as (B1 & B2 & B3 & B4).
  we_steps. apply wpe_alloc_block; [apply Hok| |].
  - intros p f1 Hp Hfree _ Hm _ _. we_steps.
    pose proof (same_volume_layout _ _ (same_volume_marked _ _ _ _ Hm)) as (L1 & L2 & L3 & _).
    destruct zero_block_bytes as [Hzl Hzb].
    apply (wpe_write_block (sb_total_blocks (sb f)));
      [rewrite <-L3; apply Hm|lia|done|done|]. intros f2 Hw. we_steps.
    destruct (attach_block_spec (sb_data_start (sb f)) (max_block f) ltac:(lia) ltac:(lia)
      i lb p (fo_shape _ _ Hok) Hp ltac:(lia) Ep) as [[Ha Hc]|(i' & Ha & Hs & Hadd)];
      (eapply wpe_need; [exact Ha|]); cbv iota.
    + we_steps. pose proof Hw as Hw'. rewrite <-L3 in Hw'.
      pose proof (wf_fs_written _ _ _ _ (mk_wf _ _ _ _ Hm) Hw') as Hwf2.
      apply wpe_free_block; [done| |].
      { destruct Hw as (_ & [d2 ->] & _). change (max_block (set_bd d2 f1)) with (max_block f1). lia. }
      intros f3 Hm3 _ _. we_steps. apply HN; [|by right]. by eapply extends_undone.
    + we_steps. apply HS; [by eapply extends_added|].
      rewrite (ba_find _ _ _ _ Hadd). by rewrite decide_True.
  - intros Hfull. we_steps. apply HN; [by apply extends_refl|by left].
Qed.
End files.
