(* ===== verification/TotfsWrite.v ===== *)
(** * ToTFS: reading and writing file data

    The loops of [totfs_read_file_data] and [totfs_write_file_data] against
    the bytes of the file. *)

From S2P Require Import Prelude Loops Codec Ring Totfs TotfsDisk TotfsInode TotfsFile.

Section data.
Context {D : Type} `{BlockDeviceLaws D}.
Implicit Types (f : totfs_fs D) (i : totfs_inode).


(** ** Position arithmetic *)

(** The part of a transfer of [len] bytes that lies in the block of [cur],
    when [done] bytes are already transferred. *)
Definition chunk_of (cur rest : Z) : Z :=
  if rest <? 4096 - cur mod 4096 then rest else 4096 - cur mod 4096.

Lemma chunk_range cur rest :
  0 < rest → 0 < chunk_of cur rest ≤ rest ∧ cur mod 4096 + chunk_of cur rest ≤ 4096.
Proof.
  intros. unfold chunk_of. pose proof (Z.mod_pos_bound cur 4096 ltac:(lia)).
  destruct (Z.ltb_spec rest (4096 - cur mod 4096)); lia.
Qed.

(** A byte of the block of [cur], relative to the chunk. *)
Lemma same_block cur k n :
  cur mod 4096 + n ≤ 4096 → cur ≤ k < cur + n →
  k / 4096 = cur / 4096 ∧ k mod 4096 = cur mod 4096 + (k - cur).
Proof.
  intros Hn Hk. pose proof (Z.mod_pos_bound cur 4096 ltac:(lia)).
  pose proof (Z.div_mod cur 4096 ltac:(lia)) as Ec.
  assert (k = 4096 * (cur / 4096) + (cur mod 4096 + (k - cur))) as Ek by lia.
  split.
  - symmetry. apply (Z.div_unique k 4096 _ (cur mod 4096 + (k - cur))); [lia|exact Ek].
  - symmetry. apply (Z.mod_unique k 4096 (cur / 4096)); [lia|exact Ek].
Qed.

Lemma block_position cur k n :
  cur mod 4096 + n ≤ 4096 → k / 4096 = cur / 4096 →
  cur mod 4096 ≤ k mod 4096 < cur mod 4096 + n → cur ≤ k < cur + n.
Proof.
  intros. pose proof (Z.div_mod cur 4096 ltac:(lia)). pose proof (Z.div_mod k 4096 ltac:(lia)). lia.
Qed.

(** ** One block of a write *)

(** Writing bytes into a mapped block of the file. *)
Lemma file_write_chunk f f' i cur p (base d : list Z) :
  file_ok f i → 0 ≤ cur → phys i (cur / 4096) = Some p →
  cur mod 4096 + Z.of_nat (length d) ≤ 4096 → length base = 4096%nat →
  base = blk f p ∨ length d = 4096%nat →
  block_written (sb_total_blocks (sb f)) f f' p (splice base (Z.to_nat (cur mod 4096)) d) →
  file_ok f' i ∧ same_volume f f' ∧
  (∀ b, block_used f' b = block_used f b) ∧
  (∀ b, 0 ≤ b < sb_total_blocks (sb f) → b ≠ p → blk f' b = blk f b) ∧
  (∀ k, 0 ≤ k → file_byte f' i k =
     if decide (cur ≤ k < cur + Z.of_nat (length d)) then d !! Z.to_nat (k - cur)
     else file_byte f i k).
Proof.
  intros Hok Hcur Hp Hfit Hl Hbase Hw.
  pose proof (wf_fs_written _ _ _ _ (fo_wf _ _ Hok) Hw) as Hwf'.
  destruct Hw as (_ & [d' ->] & Hblk).
  destruct (phys_range f i _ p Hok Hp) as (Hr & Ht & _).
  pose proof (Z.mod_pos_bound cur 4096 ltac:(lia)) as Hm.
  split; [by destruct Hok; split|]. split; [apply same_volume_disk|]. split; [done|].
  split; [intros b Hb Hne; rewrite Hblk by done; by rewrite decide_False|].
  intros k Hk. pose proof (Z.mod_pos_bound k 4096 ltac:(lia)) as Hkm. unfold file_byte.
  destruct (phys i (k / 4096)) as [q|] eqn:Eq.
  - destruct (phys_range f i _ q Hok Eq) as (Hqr & Hqt & _). rewrite Hblk by lia.
    destruct (decide (q = p)) as [->|Hqp].
    + assert (k / 4096 = cur / 4096) as Hkc by by eapply (fo_inj _ _ Hok).
      rewrite lookup_splice by lia. case_decide as Hin.
      * assert (cur ≤ k < cur + Z.of_nat (length d)) as Hrange.
        { apply block_position; [lia|done|lia]. }
        rewrite decide_True by done. f_equal.
        destruct (same_block cur k (Z.of_nat (length d))) as [_ ->]; [lia|done|lia].
      * assert (¬ (cur ≤ k < cur + Z.of_nat (length d))) as Hnr.
        { intros Hr'. apply Hin.
          destruct (same_block cur k (Z.of_nat (length d))) as [_ E]; [lia|done|]. lia. }
        rewrite decide_False by done. destruct Hbase as [->|Hd]; [done|]. lia.
    + rewrite decide_False; [done|]. intros Hr'.
      destruct (same_block cur k (Z.of_nat (length d))) as [E _]; [lia|done|]. congruence.
  - rewrite decide_False; [done|]. intros Hr'.
    destruct (same_block cur k (Z.of_nat (length d))) as [E _]; [lia|done|]. congruence.
Qed.

(** ** The write loop *)

(** [(f, i)] is [(f0, i0)] after [t] bytes of [data] were written at [off]. *)
Record wrote f0 i0 (off : Z) (data : list Z) (t : Z) f i : Prop := {
  w_ok : file_ok f i;
  w_count : 0 ≤ t ≤ Z.of_nat (length data);
  w_vol : same_volume f0 f;
  w_size : i_size i = i_size i0;
  w_type : i_type i = i_type i0;
  w_find lb p : phys i0 lb = Some p → phys i lb = Some p;
  w_bits b : 0 ≤ b → block_used f0 b = true → block_used f b = true;
  w_new lb p : phys i lb = Some p → phys i0 lb = None → block_used f0 p = false;
  w_data k : off ≤ k < off + t → file_byte f i k = data !! Z.to_nat (k - off);
  w_keep k b : 0 ≤ k → ¬ (off ≤ k < off + t) → file_byte f0 i0 k = Some b →
    file_byte f i k = Some b;
  w_fresh k : 0 ≤ k → ¬ (off ≤ k < off + t) → file_byte f0 i0 k = None →
    file_byte f i k = None ∨ file_byte f i k = Some 0;
  w_frame b : 0 < b < sb_total_blocks (sb f0) → b ≠ sb_block_bitmap_start (sb f0) →
    b < sb_data_start (sb f0) ∨ block_used f0 b = true → (∀ lb, phys i0 lb ≠ Some b) →
    blk f b = blk f0 b
}.

Lemma wrote_start f i off data : file_ok f i → wrote f i off data 0 f i.
Proof. intros Hok. split; try done; [lia|apply same_volume_refl|congruence|lia|auto]. Qed.

(** Mapping more blocks does not disturb what was written. *)
Lemma wrote_extends f0 i0 off data t f i f' i' :
  0 ≤ off → file_ok f0 i0 → wrote f0 i0 off data t f i → extends f i f' i' →
  wrote f0 i0 off data t f' i'.
Proof.
  intros Hoff Hok0 [] Hex. pose proof Hex as [].
  pose proof (same_volume_layout _ _ w_vol0) as (L1 & L2 & L3 & L4 & _ & _).
  split; try done; try congruence; eauto using same_volume_trans.
  - intros lb p Hp Hn. destruct (phys i lb) as [q|] eqn:Eq.
    + assert (q = p) as -> by (apply ex_find in Eq; congruence). by apply (w_new0 lb).
    + pose proof (ex_free lb p Hp Eq) as Hfr.
      destruct (phys_range f' i' lb p ex_ok Hp) as (_ & ? & _).
      destruct (block_used f0 p) eqn:Eu; [|done]. rewrite w_bits0 in Hfr by (done || lia). done.
  - intros k Hk. assert (is_Some (data !! Z.to_nat (k - off))) as [b Hb].
    { apply lookup_lt_is_Some_2. lia. }
    rewrite Hb. apply (extends_keep f i); [done..|]. by rewrite w_data0.
  - intros k b Hk Hn Hb. apply (extends_keep f i); [done..|]. eauto.
  - intros k Hk Hn Hb. destruct (w_fresh0 k Hk Hn Hb) as [E|E].
    + by apply (extends_fresh f i).
    + right. by apply (extends_keep f i).
  - intros b Hb Hne Hu Hno. rewrite ex_blocks; [by apply w_frame0|lia|lia|].
    rewrite L1. destruct Hu; [by left|right]. apply w_bits0; [lia|done].
Qed.

(** One more chunk. *)
Lemma wrote_chunk f0 i0 off data t f i f' p base n :
  0 ≤ off → wrote f0 i0 off data t f i → t < Z.of_nat (length data) →
  n = chunk_of (off + t) (Z.of_nat (length data) - t) →
  phys i ((off + t) / 4096) = Some p → length base = 4096%nat → base = blk f p ∨ n = 4096 →
  block_written (sb_total_blocks (sb f)) f f' p
    (splice base (Z.to_nat ((off + t) mod 4096)) (slice data (Z.to_nat t) (Z.to_nat n))) →
  wrote f0 i0 off data (t + n) f' i.
Proof.
  intros Hoff Hwr Ht -> Hp Hbl Hbase Hw. set (n := chunk_of _ _) in *.
  set (d := slice data _ _) in *. pose proof Hwr as [].
  destruct (chunk_range (off + t) (Z.of_nat (length data) - t)) as [Hn Hfit]; [lia|]. fold n in Hn, Hfit.
  assert (Z.of_nat (length d) = n) as Hd.
  { unfold d, slice. rewrite length_take, length_drop. lia. }
  destruct (file_write_chunk f f' i (off + t) p base d) as (Hok' & Hv & Hbits & Hother & Hbytes);
    [done|lia|done|lia|done|destruct Hbase; [by left|right; lia]|done|].
  rewrite Hd in Hbytes.
  pose proof (same_volume_layout _ _ w_vol0) as (L1 & L2 & L3 & L4 & _ & _).
  split; [done|lia|by eapply same_volume_trans|done|done|done| |done| | | |].
  - intros b Hb Hu. rewrite Hbits. by apply w_bits0.
  - intros k Hk. rewrite Hbytes by lia. case_decide as Hin.
    + unfold d. rewrite lookup_slice, decide_True by lia. f_equal. lia.
    + apply w_data0. lia.
  - intros k b Hk Hnin Hb. rewrite Hbytes, decide_False by lia. apply w_keep0; [done|lia|done].
  - intros k Hk Hnin Hb. rewrite Hbytes, decide_False by lia. apply w_fresh0; [done|lia|done].
  - intros b Hb Hne Hu Hno. rewrite Hother; [by apply w_frame0|lia|].
    intros ->. destruct (phys_range f i _ p w_ok0 Hp) as (Hr & _ & _).
    destruct (phys i0 ((off + t) / 4096)) as [q|] eqn:Eq.
    + apply w_find0 in Eq as Eq'. destruct (Hno ((off + t) / 4096)). congruence.
    + pose proof (w_new0 _ _ Hp Eq). destruct Hu; [lia|congruence].
Qed.

(** ** [totfs_write_file_data] *)

Lemma wpe_write_step f0 i0 off data t f i :
  0 ≤ off → off + Z.of_nat (length data) < 2 ^ 43 → bytes data → file_ok f0 i0 →
  wrote f0 i0 off data t f i →
  wpe (write_step off data (t, i)) (λ r f',
    match r with
    | inl (t', i') => wrote f0 i0 off data t' f' i' ∧ t < t'
    | inr (t', i') => wrote f0 i0 off data t' f' i' ∧
        (t' = Z.of_nat (length data) ∨ exhausted f' i')
    end) (λ _, False) f.
Proof.
  intros Hoff Hlen Hdata Hok0 Hwr. unfold write_step.
  pose proof (w_count _ _ _ _ _ _ _ Hwr).
  destruct (Z.ltb_spec t (Z.of_nat (length data))) as [Ht|Ht];
    [|we_steps; split; [done|left; lia]].
  cbv zeta. unfold TOTFS_BLOCK_SIZE. rewrite u64_small by lia.
  assert (0 ≤ (off + t) / 4096 < 2 ^ 31) as Hlb.
  { split; [apply Z.div_pos; lia|apply Z.div_lt_upper_bound; lia]. }
  rewrite u32_small by lia. we_steps.
  apply wpe_get_block; [apply Hwr|lia| |].
  2:{ intros f' Hex Hfull. we_steps. split; [by eapply wrote_extends|by right]. }
  intros p i' f' Hex Hp. pose proof (wrote_extends _ _ _ _ _ _ _ _ _ Hoff Hok0 Hwr Hex) as Hwr'.
  pose proof (w_ok _ _ _ _ _ _ _ Hwr') as Hok'.
  destruct (phys_range f' i' _ p Hok' Hp) as (Hpr & Hpt & _).
  destruct (blk_bytes (sb_total_blocks (sb f')) f' p) as [Hbl Hbb]; [apply Hok'|lia|].
  set (len := Z.of_nat (length data)) in *.
  change (if len - t <? 4096 - (off + t) mod 4096 then _ else _) with (chunk_of (off + t) (len - t)).
  destruct (chunk_range (off + t) (len - t)) as [Hn Hfit]; [lia|].
  set (n := chunk_of (off + t) (len - t)) in *.
  pose proof (Z.mod_pos_bound (off + t) 4096 ltac:(lia)) as Hmod. we_steps.
  apply (wpe_mono _ (λ r s, s = f' ∧ ∃ base, r = Some base ∧ length base = 4096%nat ∧
    bytes base ∧ (base = blk f' p ∨ n = 4096)) _ (λ _, False)); [| |done].
  { destruct (negb _ || _) eqn:Epart.
    - we_steps. apply (wpe_read_block (sb_total_blocks (sb f'))); [apply Hok'|lia|]. eauto 10.
    - apply orb_false_iff in Epart as [E1 E2]. b2p. we_steps. split; [done|].
      destruct zero_block_bytes. exists zero_block. split_and!; try done. right.
      unfold n, chunk_of. rewrite E1. destruct (Z.ltb_spec (len - t) (4096 - 0)); lia. }
  intros r s (-> & base & -> & Hbase & Hbaseb & Hsrc). cbv iota beta. we_steps.
  assert (Z.of_nat (length (slice data (Z.to_nat t) (Z.to_nat n))) = n) as Hd.
  { unfold slice. rewrite length_take, length_drop. lia. }
  apply (wpe_write_block (sb_total_blocks (sb f'))); [apply Hok'|lia| | |].
  { rewrite length_splice; lia. }
  { apply bytes_splice; [done|]. by apply bytes_take, bytes_drop. }
  intros f2 Hw2. cbv iota beta. we_steps. split; [|lia]. by eapply wrote_chunk.
Qed.

(** [(f', i')] is what a write of [data] at [off] that transferred [n] bytes
    leaves. *)
Record write_result f i (inum off : Z) (data : list Z) (n : Z) f' i' : Prop := {
  wr_file : file_ok f' i';
  wr_count : 0 ≤ n ≤ Z.of_nat (length data);
  wr_short : n < Z.of_nat (length data) → exhausted f' i';
  wr_size : i_size i' = Z.max (i_size i) (off + n);
  wr_type : i_type i' = i_type i;
  wr_stored : inode_at f' inum = i';
  wr_others k : 0 ≤ k < sb_total_inodes (sb f) → k ≠ inum → inode_at f' k = inode_at f k;
  wr_data k : off ≤ k < off + n → file_byte f' i' k = data !! Z.to_nat (k - off);
  wr_keep k b : 0 ≤ k → ¬ (off ≤ k < off + n) → file_byte f i k = Some b →
    file_byte f' i' k = Some b;
  wr_fresh k : 0 ≤ k → ¬ (off ≤ k < off + n) → file_byte f i k = None →
    file_byte f' i' k = None ∨ file_byte f' i' k = Some 0;
  wr_frame b : sb_data_start (sb f) ≤ b < max_block f → block_used f b = true →
    (∀ lb, phys i lb ≠ Some b) → blk f' b = blk f b ∧ block_used f' b = true;
  wr_vol : same_volume f f'
}.

Lemma file_byte_set_size f i n k : file_byte f (set_size n i) k = file_byte f i k.
Proof. reflexivity. Qed.

Lemma file_ok_set_size f i n : 0 ≤ n < 2 ^ 64 → file_ok f i → file_ok f (set_size n i).
Proof.
  intros Hn [? [? ? ?] ? ?]. split; try done. split; try done. by apply fits_set_size.
Qed.

(** The last store of the inode, which lies outside the data blocks. *)
Lemma file_ok_stored f f' inum i j :
  file_ok f i → 0 ≤ inum < sb_total_inodes (sb f) → inode_stored f f' inum j →
  file_ok f' i ∧ same_volume f f' ∧
  (∀ b, sb_data_start (sb f) ≤ b < sb_total_blocks (sb f) → blk f' b = blk f b) ∧
  (∀ b, block_used f' b = block_used f b) ∧
  (∀ k, file_byte f' i k = file_byte f i k).
Proof.
  intros Hok Hi [Hwf [d' ->] _ _ Hblk].
  destruct (inode_block_range f inum (fo_wf _ _ Hok) Hi) as (Hr & _ & _).
  pose proof (wf_fs_bounds f (fo_wf _ _ Hok)) as (? & ? & _).
  assert (∀ b, sb_data_start (sb f) ≤ b < sb_total_blocks (sb f) → blk (set_bd d' f) b = blk f b) as Hb.
  { intros b Hb. apply Hblk; lia. }
  split_and!; [by destruct Hok; split|apply same_volume_disk|done|done|].
  intros k. unfold file_byte. destruct (phys i (k / 4096)) as [p|] eqn:Ep; [|done].
  destruct (phys_range f i _ p Hok Ep) as (? & ? & _). rewrite Hb; [done|lia].
Qed.

(** Inodes other than the written one are in the table as before the write. *)
Lemma wrote_inode_at f0 i0 off data t f i k :
  file_ok f0 i0 → wrote f0 i0 off data t f i → 0 ≤ k < sb_total_inodes (sb f0) →
  inode_at f k = inode_at f0 k.
Proof.
  intros Hok [] Hk. pose proof (same_volume_layout _ _ w_vol0) as (_ & _ & _ & _ & _ & L6).
  destruct (inode_block_range f0 k (fo_wf _ _ Hok) Hk) as (Hr & Hne & _).
  pose proof (wf_fs_bounds f0 (fo_wf _ _ Hok)) as (? & ? & _).
  unfold inode_at. replace (inode_block f k) with (inode_block f0 k)
    by (unfold inode_block; by rewrite L6).
  rewrite w_frame0; [done|lia|done|left; lia|].
  intros lb Hlb. destruct (phys_range f0 i0 lb _ Hok Hlb) as (? & _). lia.
Qed.

(** The size update and the store of the inode after the loop. *)
Lemma wpe_write_finish f i inum off data t g j :
  file_ok f i → 0 ≤ inum < sb_total_inodes (sb f) → 0 ≤ off → 0 ≤ i_size i < 2 ^ 64 →
  off + Z.of_nat (length data) < 2 ^ 43 →
  wrote f i off data t g j → t = Z.of_nat (length data) ∨ exhausted g j →
  wpe (let j' := if i_size j <? u64 (off + t) then set_size (u64 (off + t)) j else j in
       ignore (totfs_write_inode inum j');; mret (t, j'))
    (λ '(n, i') f', write_result f i inum off data n f' i') (λ _, False) g.
Proof.
  intros Hok Hinum Hoff Hsize Hlen Hwr Hend. pose proof Hwr as []. rewrite u64_small by lia.
  cbv zeta. set (j' := if _ <? _ then _ else _).
  assert (file_ok g j' ∧ i_size j' = Z.max (i_size i) (off + t) ∧ i_type j' = i_type j ∧
    i_extent_count j' = i_extent_count j ∧ (∀ lb, phys j' lb = phys j lb) ∧
    ∀ k, file_byte g j' k = file_byte g j k) as (Hokj & Hsz & Hty & Hec & Hphys & Hfb).
  { unfold j'. rewrite w_size0.
    destruct (Z.ltb_spec (i_size i) (off + t)); split_and!; try done; simpl; try lia.
    apply file_ok_set_size; [lia|done]. }
  pose proof (same_volume_layout _ _ w_vol0) as (L1 & L2 & L3 & L4 & L5 & L6).
  we_steps. apply wpe_write_inode; [apply Hokj|lia|apply Hokj|]. intros f' Hst. we_steps.
  destruct (file_ok_stored g f' inum j' j' Hokj ltac:(lia) Hst) as (Hok' & Hv & Hb & Hbits & Hfb').
  pose proof (same_volume_layout _ _ Hv) as (M1 & M2 & _ & _ & _ & _).
  pose proof (wf_fs_bounds f (fo_wf _ _ Hok)) as (B1 & B2 & B3 & B4).
  split; [done|done| |done|by rewrite Hty|apply Hst| | | | | |by eapply same_volume_trans].
  - intros Hshort. destruct Hend as [|[Hfull|Hext]]; [lia| |right; by rewrite Hec].
    left. intros b Hbr. rewrite Hbits. apply Hfull. lia.
  - intros k Hk Hne. rewrite (st_other _ _ _ _ Hst) by lia. by eapply wrote_inode_at.
  - intros k Hk. rewrite Hfb', Hfb. by apply w_data0.
  - intros k b Hk Hn Hkb. rewrite Hfb', Hfb. by apply w_keep0.
  - intros k Hk Hn Hkb. rewrite Hfb', Hfb. by apply w_fresh0.
  - intros b Hbr Hu Hno. rewrite Hbits, Hb by lia. split; [|apply w_bits0; [lia|done]].
    apply w_frame0; [lia|lia|by right|done].
Qed.

Lemma wpe_write_file_data f i inum off data :
  file_ok f i → 0 ≤ inum < sb_total_inodes (sb f) → 0 ≤ off → 0 ≤ i_size i < 2 ^ 64 →
  0 < Z.of_nat (length data) → off + Z.of_nat (length data) < 2 ^ 43 → bytes data →
  wpe (totfs_write_file_data i inum off data)
    (λ '(n, i') f', write_result f i inum off data n f' i') (λ _, False) f.
Proof.
  intros Hok Hinum Hoff Hsize Hpos Hlen Hdata. unfold totfs_write_file_data.
  destruct (Z.eqb_spec (Z.of_nat (length data)) 0); [lia|]. we_steps.
  apply (wpe_while _ _ (λ '(t, j) g, wrote f i off data t g j)
    (λ '(t, _) _, Z.of_nat (length data) - t)); [by apply wrote_start|lia|].
  intros [t j] g Hwr. eapply wpe_mono; [by apply wpe_write_step| |done].
  intros [[t' j']|[t' j']] g' [Hwr' Ht].
  - split; [done|]. pose proof (w_count _ _ _ _ _ _ _ Hwr'). lia.
  - by apply wpe_write_finish.
Qed.

(** ** [totfs_read_file_data] *)

(** The bytes [out] read from [off] on: the file's bytes, up to the end of the
    request, of the file or of its mapped blocks. *)
Record read_result f i (off len : Z) (out : list Z) : Prop := {
  rr_data k : off ≤ k < off + Z.of_nat (length out) →
    out !! Z.to_nat (k - off) = file_byte f i k;
  rr_max : Z.of_nat (length out) ≤ Z.max 0 (Z.min len (i_size i - off));
  rr_short : Z.of_nat (length out) < Z.max 0 (Z.min len (i_size i - off)) →
    file_byte f i (off + Z.of_nat (length out)) = None
}.

(** One more chunk of a read. *)
Lemma read_chunk f i off out n p :
  file_ok f i → 0 ≤ off →
  (∀ k, off ≤ k < off + Z.of_nat (length out) → out !! Z.to_nat (k - off) = file_byte f i k) →
  let cur := off + Z.of_nat (length out) in
  phys i (cur / 4096) = Some p → 0 ≤ n → cur mod 4096 + n ≤ 4096 →
  let out' := out ++ slice (blk f p) (Z.to_nat (cur mod 4096)) (Z.to_nat n) in
  Z.of_nat (length out') = Z.of_nat (length out) + n ∧
  ∀ k, off ≤ k < off + Z.of_nat (length out) + n → out' !! Z.to_nat (k - off) = file_byte f i k.
Proof.
  intros Hok Hoff Hdata cur Hp Hn Hfit out'.
  destruct (phys_range f i _ p Hok Hp) as (? & ? & _).
  destruct (blk_bytes (sb_total_blocks (sb f)) f p) as [Hbl _]; [apply Hok|lia|].
  pose proof (Z.mod_pos_bound cur 4096 ltac:(lia)) as Hm.
  split.
  { unfold out', slice. rewrite length_app, length_take, length_drop, Hbl. lia. }
  intros k Hk. unfold out'. destruct (decide (k < cur)) as [Hlt|Hge].
  - rewrite lookup_app_l by lia. apply Hdata. lia.
  - rewrite lookup_app_r by lia. rewrite lookup_slice, decide_True by lia.
    destruct (same_block cur k n) as [Ekd Ekm]; [done|lia|].
    unfold file_byte. rewrite Ekd, Hp, Ekm. f_equal. lia.
Qed.

Lemma wpe_read_file_data f i off len :
  file_ok f i → 0 ≤ off → 0 ≤ len → off + len < 2 ^ 43 → 0 ≤ i_size i < 2 ^ 64 →
  wpe (totfs_read_file_data i off len) (λ out f', f' = f ∧ read_result f i off len out)
    (λ _, False) f.
Proof.
  intros Hok Hoff Hlen Hend Hsize. unfold totfs_read_file_data.
  destruct (Z.leb_spec (i_size i) off) as [Hpast|Hin].
  { we_steps. split; [done|]. split; simpl; [lia|lia|lia]. }
  rewrite u64_small by lia. cbv zeta.
  set (m := if i_size i <? off + len then i_size i - off else len).
  assert (m = Z.max 0 (Z.min len (i_size i - off))) as Em.
  { unfold m. destruct (Z.ltb_spec (i_size i) (off + len)); lia. }
  destruct (Z.eqb_spec m 0) as [Hm0|Hm0].
  { we_steps. split; [done|]. split; simpl; lia. }
  apply (wpe_while _ _ (λ out g, g = f ∧ Z.of_nat (length out) ≤ m ∧
      ∀ k, off ≤ k < off + Z.of_nat (length out) → out !! Z.to_nat (k - off) = file_byte f i k)
    (λ out _, m - Z.of_nat (length out))).
  { split; [done|]. split; simpl; lia. }
  { simpl. lia. }
  intros out g (-> & Hl & Hdata).
  destruct (Z.ltb_spec (Z.of_nat (length out)) m) as [Hlt|Hge].
  2:{ we_steps. split; [done|]. split; [done|lia|lia]. }
  set (cur := off + Z.of_nat (length out)). unfold TOTFS_BLOCK_SIZE. rewrite (u64_small cur) by lia.
  assert (0 ≤ cur / 4096 < 2 ^ 31) as Hlb.
  { split; [apply Z.div_pos; lia|apply Z.div_lt_upper_bound; lia]. }
  rewrite u32_small by lia. destruct (phys i (cur / 4096)) as [p|] eqn:Ep.
  2:{ we_steps. split; [done|]. split; [done|lia|]. intros _. fold cur. unfold file_byte. by rewrite Ep. }
  destruct (phys_range f i _ p Hok Ep) as (? & ? & _). we_steps.
  apply (wpe_read_block (sb_total_blocks (sb f))); [apply Hok|lia|]. cbv iota beta. we_steps.
  change (if m - Z.of_nat (length out) <? 4096 - cur mod 4096 then _ else _)
    with (chunk_of cur (m - Z.of_nat (length out))).
  destruct (chunk_range cur (m - Z.of_nat (length out))) as [Hn Hfit]; [lia|].
  destruct (read_chunk f i off out (chunk_of cur (m - Z.of_nat (length out))) p) as [Hl' Hd'];
    [done|done|done|done|lia|done|]. fold cur in Hl', Hd'.
  rewrite Hl'. split; [|lia]. split; [done|]. split; [lia|]. intros k Hk. apply Hd'. lia.
Qed.
End data.
