(* ===== verification/TotfsProps.v ===== *)
(** * ToTFS: what the file system guarantees

    The claims about [totfs.c]: allocation of blocks, reading and writing
    files through the VFS operations, the inode table, and what extending
    truncation and renaming do. *)

From S2P Require Import Prelude Loops Codec Ring Totfs TotfsDisk TotfsInode TotfsFile TotfsWrite.

(** An open file at position [pos] of a file whose inode is in the table. *)
Record open_file {D} `{BlockDeviceLaws D} (f : totfs_fs D) (file : totfs_file) : Prop := {
  of_inum : 0 ≤ p_inode_num file < sb_total_inodes (sb f);
  of_ok : file_ok f (inode_at f (p_inode_num file));
  of_pos : 0 ≤ p_pos file
}.

Section claims.
Context {D : Type} `{BlockDeviceLaws D}.
Implicit Types (f : totfs_fs D) (file : totfs_file).

(** The bytes of the file with inode number [inum], and its size. *)
Definition content f (inum k : Z) : option Z := file_byte f (inode_at f inum) k.
Definition size_of f (inum : Z) : Z := i_size (inode_at f inum).

Lemma s32_small n : 0 ≤ n < 2 ^ 31 → s32 n = n.
Proof. intros. unfold s32. rewrite u32_small by lia. by destruct (Z.ltb_spec n (2 ^ 31)); [|lia]. Qed.

Lemma size_range f i : file_ok f i → 0 ≤ i_size i < 2 ^ 64.
Proof.
  intros [_ [_ [Hv _ _ _ _] _] _ _]. unfold fits, inode_layout, inode_values in Hv.
  by repeat match goal with
  | H : Forall2 _ (_ :: _) (_ :: _) |- _ => apply Forall2_cons in H as [? H]
  end.
Qed.

Lemma wpe_read_vfs f file len :
  open_file f file → 0 ≤ len < 2 ^ 31 → p_pos file + len < 2 ^ 43 →
  wpe (totfs_read_vfs file len) (λ '(n, out, file') f', f' = f ∧
    n = Z.of_nat (length out) ∧ file' = set_pos (p_pos file + n) file ∧
    read_result f (inode_at f (p_inode_num file)) (p_pos file) len out) (λ _, False) f.
Proof.
  intros [Hi Hok Hpos] Hlen Hend. unfold totfs_read_vfs. we_steps.
  apply wpe_read_inode; [apply Hok|done|]. we_steps.
  eapply wpe_mono; [apply (wpe_read_file_data f); [done|done|lia|done|by eapply size_range]| |done].
  intros out f' [-> Hr]. we_steps. pose proof (rr_max _ _ _ _ _ Hr).
  rewrite s32_small by lia. split; [done|]. split; [done|]. split; [|done].
  destruct (Z.ltb_spec 0 (Z.of_nat (length out))).
  - by rewrite u64_small by lia.
  - replace (Z.of_nat (length out)) with 0 by lia. rewrite Z.add_0_r. by destruct file.
Qed.

Lemma wpe_write_vfs f file data :
  open_file f file → bytes data → 0 < Z.of_nat (length data) < 2 ^ 31 →
  p_pos file + Z.of_nat (length data) < 2 ^ 43 →
  wpe (totfs_write_vfs file data) (λ '(n, file') f', 
    let inum := p_inode_num file in
    write_result f (inode_at f inum) inum (p_pos file) data n f' (inode_at f' inum) ∧
    p_inode_num file' = inum ∧ p_pos file' = p_pos file + n) (λ _, False) f.
Proof.
  intros [Hi Hok Hpos] Hb Hlen Hend. unfold totfs_write_vfs. we_steps.
  apply wpe_read_inode; [apply Hok|done|]. we_steps.
  eapply wpe_mono; [apply (wpe_write_file_data f); try done; [by eapply size_range|lia]| |done].
  intros [n i'] f' Hw. cbv iota beta. we_steps. pose proof (wr_count _ _ _ _ _ _ _ _ Hw).
  rewrite s32_small by lia. rewrite (wr_stored _ _ _ _ _ _ _ _ Hw). split; [done|].
  destruct (Z.ltb_spec 0 n); simpl; (split; [done|]).
  - by rewrite u64_small by lia.
  - lia.
Qed.

(** A file whose blocks the write does not touch keeps its bytes. *)
Lemma other_file_kept f i inum off data n f' i' j :
  file_ok f i → write_result f i inum off data n f' i' →
  0 ≤ j < sb_total_inodes (sb f) → j ≠ inum → file_ok f (inode_at f j) →
  (∀ lb lb' p, phys (inode_at f j) lb = Some p → phys i lb' ≠ Some p) →
  ∀ k, content f' j k = content f j k.
Proof.
  intros Hok Hw Hj Hne Hokj Hdis k. unfold content.
  rewrite (wr_others _ _ _ _ _ _ _ _ Hw) by done. unfold file_byte.
  destruct (phys (inode_at f j) (k / 4096)) as [p|] eqn:Ep; [|done].
  destruct (phys_range f _ _ p Hokj Ep) as (Hr & _ & _).
  destruct (wr_frame _ _ _ _ _ _ _ _ Hw p Hr) as [-> _]; [|by eauto|done].
  by eapply fo_used.
Qed.

(** The loop of an extending truncation. *)
Lemma wpe_extend_loop f i inum len pos :
  file_ok f i → 0 ≤ inum < sb_total_inodes (sb f) → 0 ≤ pos < len → len < 2 ^ 42 →
  i_size i = len →
  wpe (extend_loop inum len i pos) (λ i' f', exhausted f' i' ∧ file_ok f' i' ∧
      same_volume f f' ∧ i_size i' = len)
    (λ f', size_of f' inum = len) f.
Proof.
  intros Hok Hinum Hpos Hlen Hsize. unfold extend_loop.
  apply (wpe_while _ _ (λ '(q, j) g, pos ≤ q ∧ file_ok g j ∧ same_volume f g ∧ i_size j = len ∧
      (pos < q → exhausted g j)) (λ '(q, _) _, Z.max 0 (len - q))).
  { split_and!; try done; [apply same_volume_refl|lia]. }
  { lia. }
  intros [q j] g (Hq & Hokj & Hv & Hsz & Hex).
  pose proof (same_volume_layout _ _ Hv) as (_ & _ & _ & _ & L5 & _).
  destruct (Z.ltb_spec q len) as [Hlt|Hge].
  2:{ we_steps. split_and!; try done. apply Hex. lia. }
  cbv zeta. unfold TOTFS_BLOCK_SIZE. set (c := if len - q <? 4096 then len - q else 4096).
  assert (0 < c ≤ 4096 ∧ c ≤ len - q) as Hc.
  { unfold c. destruct (Z.ltb_spec (len - q) 4096); lia. }
  we_steps. eapply wpe_mono; [apply (wpe_write_file_data g)| |done].
  - done.
  - lia.
  - lia.
  - lia.
  - rewrite length_replicate. lia.
  - rewrite length_replicate. lia.
  - apply bytes_zero.
  - intros [n j'] g' Hw. cbv iota beta. pose proof (wr_count _ _ _ _ _ _ _ _ Hw) as Hn.
    rewrite length_replicate in Hn. rewrite s32_small by lia.
    pose proof (wr_size _ _ _ _ _ _ _ _ Hw) as Hsz'.
    destruct (Z.eqb_spec n 0) as [->|Hn0]; cbn [negb]; cbv iota.
    + we_steps. rewrite u64_small by lia. split; [|lia].
      split_and!; [lia|apply Hw|eapply same_volume_trans; [done|apply Hw]|lia|].
      intros _. apply (wr_short _ _ _ _ _ _ _ _ Hw). rewrite length_replicate. lia.
    + apply wpe_halt. unfold size_of. rewrite (wr_stored _ _ _ _ _ _ _ _ Hw). lia.
Qed.

(** C3: On a volume with a working device, a write through the VFS at any
    position of an open file transfers a prefix of the data of [n] bytes: all
    of it unless the volume has no free block or the file's ten extents are in
    use.  Afterwards the file's bytes in the range are the data, every byte
    outside is as before (or zero where the file had no block), the size is
    the old size or the end of the write, the position has advanced, the inode
    on disk is the new one, and every other file keeps its inode and bytes. *)
Theorem totfs_write_correct f file data :
  open_file f file → bytes data → 0 < Z.of_nat (length data) < 2 ^ 31 →
  p_pos file + Z.of_nat (length data) < 2 ^ 43 →
  wpe (totfs_write_vfs file data) (λ '(n, file') f',
    let inum := p_inode_num file in
    let pos := p_pos file in
    open_file f' file' ∧ 0 ≤ n ≤ Z.of_nat (length data) ∧ p_pos file' = pos + n ∧
    (n < Z.of_nat (length data) → exhausted f' (inode_at f' inum)) ∧
    size_of f' inum = Z.max (size_of f inum) (pos + n) ∧
    (∀ k, pos ≤ k < pos + n → content f' inum k = data !! Z.to_nat (k - pos)) ∧
    (∀ k b, 0 ≤ k → ¬ (pos ≤ k < pos + n) → content f inum k = Some b →
       content f' inum k = Some b) ∧
    (∀ k, 0 ≤ k → ¬ (pos ≤ k < pos + n) → content f inum k = None →
       content f' inum k = None ∨ content f' inum k = Some 0) ∧
    (∀ j, 0 ≤ j < sb_total_inodes (sb f) → j ≠ inum → inode_at f' j = inode_at f j) ∧
    (∀ j, 0 ≤ j < sb_total_inodes (sb f) → j ≠ inum → file_ok f (inode_at f j) →
       (∀ lb lb' p, phys (inode_at f j) lb = Some p → phys (inode_at f inum) lb' ≠ Some p) →
       ∀ k, content f' j k = content f j k)) (λ _, False) f.
Proof.
  intros Hof Hb Hlen Hend. eapply wpe_mono; [exact (wpe_write_vfs f file data Hof Hb Hlen Hend)| |done].
  intros [n file'] f' (Hw & Hinum & Hpos). cbv zeta. pose proof Hof as [Hi Hok Hp0].
  pose proof (wr_count _ _ _ _ _ _ _ _ Hw) as Hn.
  pose proof (same_volume_layout _ _ (wr_vol _ _ _ _ _ _ _ _ Hw)) as (_ & _ & _ & _ & L5 & _).
  split_and!; try done; try apply Hw; try lia.
  - split; rewrite ?Hinum, ?L5; [done|apply Hw|lia].
  - intros j Hj Hne Hokj Hdis.
    exact (other_file_kept _ _ _ _ _ _ _ _ j Hok Hw Hj Hne Hokj Hdis).
Qed.

(** A read through the VFS changes nothing but the position: it returns the
    file's bytes from the position on, as many as asked for and as the size
    allows, stopping early only at a byte whose block is not mapped. *)
Theorem totfs_read_correct f file len :
  open_file f file → 0 ≤ len < 2 ^ 31 → p_pos file + len < 2 ^ 43 →
  wpe (totfs_read_vfs file len) (λ '(n, out, file') f',
    let inum := p_inode_num file in
    let pos := p_pos file in
    let avail := Z.max 0 (Z.min len (size_of f inum - pos)) in
    f' = f ∧ file' = set_pos (pos + n) file ∧ n = Z.of_nat (length out) ∧ n ≤ avail ∧
    (∀ k, pos ≤ k < pos + n → out !! Z.to_nat (k - pos) = content f inum k) ∧
    (n < avail → content f inum (pos + n) = None)) (λ _, False) f.
Proof.
  intros Hof Hlen Hend. eapply wpe_mono; [by apply wpe_read_vfs| |done].
  intros [[n out] file'] f' (-> & -> & -> & [Hd Hm Hs]). cbv zeta. by split_and!.
Qed.

(** Writing data, seeking back to where it was written and reading as many
    bytes as were written returns exactly the bytes written. *)
Theorem totfs_write_read_roundtrip f file data :
  open_file f file → bytes data → 0 < Z.of_nat (length data) < 2 ^ 31 →
  p_pos file + Z.of_nat (length data) < 2 ^ 43 →
  wpe ('(n, file1) ← totfs_write_vfs file data;
       '(_, file2) ← totfs_seek_vfs file1 (p_pos file) 0;
       '(m, out, _) ← totfs_read_vfs file2 n;
       mret (n, m, out))
    (λ '(n, m, out) _, m = n ∧ out = take (Z.to_nat n) data) (λ _, False) f.
Proof.
  intros Hof Hb Hlen Hend. we_steps. eapply wpe_mono; [exact (wpe_write_vfs f file data Hof Hb Hlen Hend)| |done].
  intros [n file1] f1 (Hw & Hinum & Hpos). cbv iota beta. we_steps.
  pose proof Hof as [Hi Hok Hp0]. pose proof (wr_count _ _ _ _ _ _ _ _ Hw) as Hn.
  pose proof (same_volume_layout _ _ (wr_vol _ _ _ _ _ _ _ _ Hw)) as (_ & _ & _ & _ & L5 & _).
  unfold totfs_seek_vfs. we_steps. destruct (Z.ltb_spec (p_pos file) 0); [lia|]. we_steps.
  cbv iota beta. we_steps.
  assert (open_file f1 (set_pos (p_pos file) file1)) as Hof1.
  { split; simpl; rewrite ?Hinum, ?L5; [done|apply Hw|done]. }
  eapply wpe_mono; [apply (wpe_read_vfs f1 _ n Hof1); simpl; lia| |done].
  intros [[m out] file'] f2 (-> & -> & _ & [Hd Hm Hs]). cbv iota beta. we_steps.
  simpl p_pos in *. simpl p_inode_num in *. rewrite Hinum in *.
  rewrite (wr_size _ _ _ _ _ _ _ _ Hw) in *.
  assert (Z.of_nat (length out) = n) as Hout.
  { destruct (decide (Z.of_nat (length out) < n)) as [Hlt|]; [|lia].
    rewrite (wr_data _ _ _ _ _ _ _ _ Hw) in Hs by lia.
    exfalso. assert (data !! Z.to_nat (p_pos file + Z.of_nat (length out) - p_pos file) = None) as Hnone
      by (apply Hs; lia).
    apply lookup_ge_None in Hnone. lia. }
  split; [done|]. apply list_eq. intros k. destruct (decide (k < length out)%nat) as [Hk|Hk].
  - specialize (Hd (p_pos file + Z.of_nat k) ltac:(lia)).
    rewrite (wr_data _ _ _ _ _ _ _ _ Hw) in Hd by lia.
    replace (Z.to_nat (p_pos file + Z.of_nat k - p_pos file)) with k in Hd by lia.
    by rewrite Hd, lookup_take_lt by lia.
  - rewrite (lookup_ge_None_2 out), lookup_take_ge by lia. done.
Qed.

(** Block allocation is first fit: it returns the lowest free data block,
    marks it in the bitmap in memory and on disk, changes no other bit and no
    other block but the superblock, and fails, changing nothing, exactly when
    every data block is in use.  Freeing the block again restores every bit
    and the free count. *)
Theorem totfs_alloc_free_correct f :
  wf_fs f → 0 < sb_free_blocks (sb f) < 2 ^ 64 →
  wpe (b ← totfs_alloc_block; used ← state block_bitmap; totfs_free_block b;; mret (b, used))
    (λ '(b, used) f',
      sb_data_start (sb f) ≤ b < max_block f ∧ block_used f b = false ∧
      (∀ j, sb_data_start (sb f) ≤ j < b → block_used f j = true) ∧
      (∀ j, 0 ≤ j → bit used j = (bool_decide (j = b) || block_used f j)%bool) ∧
      wf_fs f' ∧ bitmap_synced f' ∧ (∀ j, 0 ≤ j → block_used f' j = block_used f j) ∧
      sb_free_blocks (sb f') = sb_free_blocks (sb f) ∧
      ∀ k, 0 < k < sb_total_blocks (sb f) → k ≠ sb_block_bitmap_start (sb f) → blk f' k = blk f k)
    (λ f', f' = f ∧ ∀ j, sb_data_start (sb f) ≤ j < max_block f → block_used f j = true) f.
Proof.
  intros Hwf Hfree. pose proof (wf_fs_bounds f Hwf) as (B1 & B2 & B3 & B4). we_steps.
  apply wpe_alloc_block; [done| |by split].
  intros b f1 Hb Hbf Hlow Hm Hsync Hc. we_steps.
  pose proof (same_volume_layout _ _ (same_volume_marked _ _ _ _ Hm)) as (L1 & L2 & L3 & L4 & _).
  apply wpe_free_block; [apply Hm|lia|]. intros f2 Hm2 Hsync2 Hc2. we_steps.
  split_and!; try done; try lia; [|apply Hm2| | |].
  - intros j Hj. change (bit (block_bitmap f1) j) with (block_used f1 j).
    rewrite (mk_bits _ _ _ _ Hm) by done. case_decide; [by rewrite bool_decide_true|].
    by rewrite bool_decide_false.
  - intros j Hj. rewrite (mk_bits _ _ _ _ Hm2) by done. case_decide as Hd; [congruence|].
    rewrite (mk_bits _ _ _ _ Hm) by done. by rewrite decide_False.
  - rewrite Hc2, Hc. rewrite (u64_small (_ - 1)) by lia. rewrite u64_small; lia.
  - intros k Hk Hne. rewrite (mk_disk _ _ _ _ Hm2) by lia. by apply (mk_disk _ _ _ _ Hm).
Qed.

(** Extending a file with [totfs_truncate_vfs] reports failure on every
    volume that has room: it succeeds only when no block could be written
    (none is free or the extents are in use), and when it returns -1 the file
    on disk already has the new size. *)
Theorem totfs_truncate_extend_fails f file len :
  open_file f file → size_of f (p_inode_num file) < len < 2 ^ 42 →
  wpe (totfs_truncate_vfs file len)
    (λ _ f', exhausted f' (inode_at f' (p_inode_num file)))
    (λ f', size_of f' (p_inode_num file) = len) f.
Proof.
  intros [Hi Hok Hpos] Hlen. unfold totfs_truncate_vfs. we_steps.
  apply wpe_read_inode; [apply Hok|done|]. unfold size_of in Hlen.
  pose proof (size_range _ _ Hok) as Hs. destruct (Z.ltb_spec (i_size (inode_at f (p_inode_num file))) len); [|lia].
  we_steps.
  eapply wpe_mono; [apply (wpe_extend_loop f)| |done].
  - apply file_ok_set_size; [lia|done].
  - done.
  - lia.
  - lia.
  - done.
  - intros i' f' (Hex & Hok' & Hv & Hsz). cbv zeta. we_steps.
    assert (0 ≤ p_inode_num file < sb_total_inodes (sb f')) as Hi'.
    { by destruct (same_volume_layout _ _ Hv) as (_ & _ & _ & _ & -> & _). }
    apply wpe_write_inode; [apply Hok'|done|apply Hok'|]. intros f2 Hst. we_steps.
    rewrite (st_same _ _ _ _ Hst).
    destruct (file_ok_stored f' f2 _ i' i' Hok' Hi' Hst) as (_ & Hv2 & _ & Hbits & _).
    destruct (same_volume_layout _ _ Hv2) as (L1 & L2 & _).
    destruct Hex as [Hfull|Hext]; [left|by right].
    intros b Hb. rewrite Hbits. apply Hfull. lia.
Qed.
End claims.

(** ** A volume of 200 blocks with one empty file

    Superblock, bitmaps, an inode table with the root directory (inode 1,
    which holds the entry [a]) and the file (inode 2), data from block 67. *)

Definition demo_sb : totfs_superblock :=
  Superblock TOTFS_MAGIC 1 4096 12 200 1024 132 1021 1 1 2 1 3 64 67 1 256 (replicate 144 0).
Definition demo_root : totfs_inode :=
  Inode 2 493 2 4096 1 0 0 0 0 1 0 0 (Extent 67 1 0 :: replicate 9 zero_extent) (replicate 32 0).
Definition demo_dir : list Z :=
  default [] (put_dirent zero_block 0 2 4096 1 1 [97]).
Definition demo_bitmap : list Z := replicate 8 255 ++ [15] ++ replicate 4087 0.
Definition demo_table : list Z :=
  splice (splice zero_block 256 (encode_inode demo_root)) 512 (encode_inode (fresh_inode 1)).

Definition demo_disk : ramdisk :=
  Ramdisk 4096 300 (<[67 := demo_dir]> (<[3 := demo_table]> (<[2 := demo_bitmap]>
    (<[1 := 7 :: replicate 4095 0]> (<[0 := sb_block demo_sb]> ∅))))).
Definition demo_fs : totfs_fs ramdisk :=
  TotfsFs demo_disk 0 1 demo_sb (7 :: replicate 4095 0) demo_bitmap.
Definition demo_file : totfs_file := TotfsFile 0 2 1 0 0 0 0 (replicate 5 zero_extent).

Lemma demo_vol : vol_ok 200 demo_fs.
Proof.
  split; simpl; [lia|done|lia|lia|]. intros k Hk. unfold rd_good. simpl. split; [lia|].
  assert (map_Forall (λ _ l, (length l =? 4096)%nat && bytesb l = true) (rd_sectors demo_disk)) as Hall.
  { unfold demo_disk. simpl. repeat (apply map_Forall_insert_2; [vm_compute; reflexivity|]).
    apply map_Forall_empty. }
  destruct (_ !! k) as [l|] eqn:E; [|done].
  pose proof (Hall k l E) as Hl. cbv beta in Hl. apply andb_true_iff in Hl as [H1 H2].
  apply Nat.eqb_eq in H1. split; [exact H1|]. by apply bytesb_bytes.
Qed.

Lemma demo_wf : wf_fs demo_fs.
Proof.
  split.
  - exact demo_vol.
  - split; [vm_compute; reflexivity|]. apply bytesb_bytes. vm_compute. reflexivity.
  - split; [|reflexivity|apply bytes_zero].
    repeat (constructor; [split; vm_compute; [discriminate|reflexivity]|]). constructor.
  - simpl. lia.
  - simpl. unfold demo_sb. simpl. vm_compute. discriminate.
  - simpl. lia.
  - vm_compute. discriminate.
Qed.

Lemma demo_inode : inode_at demo_fs 2 = fresh_inode 1.
Proof. vm_compute. reflexivity. Qed.

Lemma demo_open : open_file demo_fs demo_file.
Proof.
  split; [simpl; lia| |simpl; lia].
  change (p_inode_num demo_file) with 2. rewrite demo_inode.
  split; [exact demo_wf| |intros lb p Hp; discriminate Hp|intros lb lb' p Hp; discriminate Hp].
  split; [simpl; lia| |constructor].
  split; simpl; [|reflexivity| |reflexivity|exact (bytes_zero 32)].
  - repeat (constructor; [split; vm_compute; [discriminate|reflexivity]|]). constructor.
  - repeat (constructor; [unfold extent_fits; simpl; lia|]). constructor.
Qed.

Definition demo_data : list Z := [104; 101; 108; 108; 111].

Lemma totfs_write_correct_witness :
  open_file demo_fs demo_file ∧
  wpe (totfs_write_vfs demo_file demo_data) (λ '(n, file') f',
    (∀ k, 0 ≤ k < n → content f' 2 k = demo_data !! Z.to_nat (k - 0)) ∧ p_pos file' = 0 + n)
    (λ _, False) demo_fs.
Proof.
  split; [exact demo_open|].
  eapply wpe_mono; [apply (totfs_write_correct demo_fs demo_file demo_data demo_open)| |].
  - apply bytesb_bytes. vm_compute. reflexivity.
  - simpl. lia.
  - simpl. lia.
  - intros [n file'] f' (_ & _ & Hp & _ & _ & Hd & _). split; [exact Hd|exact Hp].
  - intros f' [].
Defined.

Lemma totfs_read_correct_witness :
  open_file demo_fs demo_file ∧
  wpe (totfs_read_vfs demo_file 100) (λ '(n, out, _) f', f' = demo_fs ∧ n ≤ 0)
    (λ _, False) demo_fs.
Proof.
  split; [exact demo_open|].
  eapply wpe_mono; [apply (totfs_read_correct demo_fs demo_file 100 demo_open)| |].
  - lia.
  - simpl. lia.
  - intros [[n out] file'] f' (Hf & _ & _ & Hn & _). split; [exact Hf|].
    unfold size_of in Hn. change (p_inode_num demo_file) with 2 in Hn. rewrite demo_inode in Hn.
    simpl in Hn. lia.
  - intros f' [].
Defined.

Lemma totfs_write_read_roundtrip_witness :
  open_file demo_fs demo_file ∧
  wpe ('(n, file1) ← totfs_write_vfs demo_file demo_data;
       '(_, file2) ← totfs_seek_vfs file1 (p_pos demo_file) 0;
       '(m, out, _) ← totfs_read_vfs file2 n;
       mret (n, m, out))
    (λ '(n, m, out) _, m = n ∧ out = take (Z.to_nat n) demo_data) (λ _, False) demo_fs.
Proof.
  split; [exact demo_open|].
  apply (totfs_write_read_roundtrip demo_fs demo_file demo_data demo_open).
  - apply bytesb_bytes. vm_compute. reflexivity.
  - simpl. lia.
  - simpl. lia.
Defined.

Lemma totfs_alloc_free_correct_witness :
  wf_fs demo_fs ∧
  wpe (b ← totfs_alloc_block; used ← state block_bitmap; totfs_free_block b;; mret (b, used))
    (λ '(b, _) f', 67 ≤ b < 200 ∧ block_used demo_fs b = false ∧
       sb_free_blocks (sb f') = 132) (λ f', f' = demo_fs) demo_fs.
Proof.
  split; [exact demo_wf|].
  eapply wpe_mono; [apply (totfs_alloc_free_correct demo_fs demo_wf)| |].
  - simpl. lia.
  - intros [b used] f' (Hb & Hu & _ & _ & _ & _ & _ & Hc & _).
    split; [exact Hb|]. split; [exact Hu|exact Hc].
  - intros f' [Hf _]. exact Hf.
Defined.

Lemma totfs_truncate_extend_fails_witness :
  open_file demo_fs demo_file ∧
  wpe (totfs_truncate_vfs demo_file 4096) (λ _ f', exhausted f' (inode_at f' 2))
    (λ f', size_of f' 2 = 4096) demo_fs.
Proof.
  split; [exact demo_open|].
  apply (totfs_truncate_extend_fails demo_fs demo_file 4096 demo_open).
  unfold size_of. change (p_inode_num demo_file) with 2. rewrite demo_inode. simpl. lia.
Defined.

(** Renaming a file frees the data blocks that the new name refers to: block 68
    holds the file's only data, is marked used before the rename and free
    after it, and is still the file's block. *)
Theorem totfs_rename_frees_data :
  wpe (totfs_write_vfs demo_file demo_data;;
       before ← state (λ f, (phys (inode_at f 2) 0, block_used f 68));
       totfs_rename_vfs [47; 97] [47; 98];;
       file ← totfs_open_vfs [47; 98];
       after ← state (λ f, (phys (inode_at f (p_inode_num file)) 0, block_used f 68));
       mret (before, after))
    (λ r _, r = ((Some 68, true), (Some 68, false))) (λ _, False) demo_fs.
Proof. vm_compute. reflexivity. Qed.
