(* ===== verification/Part.v ===== *)
(** * GPT partition parser

    Translation of [src/src/kernel/fs/part.c] over a block device
    ([BlockDevice]).  The functions only read, so they are functions of the
    device; [None] is the result -1.  [int64_t] sums are taken modulo 2^64.
    The log of [part_init] is its list of partitions. *)

From S2P Require Import Prelude Codec Ring.

Definition GPT_HEADER_MIN_SIZE : Z := 92.
Definition GPT_SCAN_MAX_LBA : Z := 8192.

Record gpt_header := GptHeader {
  h_signature : list Z; h_revision : Z; h_header_size : Z; h_header_crc32 : Z; h_reserved : Z;
  h_current_lba : Z; h_backup_lba : Z; h_first_usable_lba : Z; h_last_usable_lba : Z;
  h_disk_guid : list Z; h_part_entry_lba : Z; h_part_entry_count : Z; h_part_entry_size : Z;
  h_part_array_crc32 : Z
}.

Record gpt_part := GptPart {
  g_type_guid : list Z; g_uniq_guid : list Z; g_first_lba : Z; g_last_lba : Z; g_attrs : Z;
  g_name : list Z
}.

Record gpt_info := GptInfo { gi_part_lba : Z; gi_part_count : Z; gi_part_size : Z }.

Record gpt_loc := GptLoc {
  l_start_lba : Z; l_size_lba : Z; l_type_guid : list Z; l_uniq_guid : list Z
}.

Fixpoint guid_eq_loop (n : nat) (a b : list Z) : bool :=
  match n, a, b with
  | O, _, _ => true
  | S n, x :: a, y :: b => if negb (x =? y) then false else guid_eq_loop n a b
  | S _, _, _ => false
  end.
Definition guid_eq (a b : list Z) : bool := guid_eq_loop 16 a b.

Definition hex_digits : list Z := [48;49;50;51;52;53;54;55;56;57;65;66;67;68;69;70].
Definition guid_hex (g : list Z) : list Z :=
  mjoin ((λ b, [default 0 (hex_digits !! Z.to_nat (Z.land (Z.shiftr b 4) 0xF));
                default 0 (hex_digits !! Z.to_nat (Z.land b 0xF))]) <$> take 16 g).

Definition header_layout1 : list nat := [4; 4; 4; 4; 8; 8; 8; 8]%nat.
Definition header_layout2 : list nat := [8; 4; 4; 4]%nat.

Definition decode_header (l : list Z) : gpt_header :=
  match decode_fields header_layout1 (drop 8 l), decode_fields header_layout2 (drop 72 l) with
  | [a; b; c; d; e; f; g; h], [i; j; k; m] =>
      GptHeader (take 8 l) a b c d e f g h (slice l 56 16) i j k m
  | _, _ => GptHeader [] 0 0 0 0 0 0 0 0 [] 0 0 0 0
  end.

Definition encode_header (h : gpt_header) : list Z :=
  h_signature h ++
  encode_fields header_layout1 [h_revision h; h_header_size h; h_header_crc32 h; h_reserved h;
    h_current_lba h; h_backup_lba h; h_first_usable_lba h; h_last_usable_lba h] ++
  h_disk_guid h ++
  encode_fields header_layout2 [h_part_entry_lba h; h_part_entry_count h; h_part_entry_size h;
    h_part_array_crc32 h].

Definition efi_part : list Z := [69; 70; 73; 32; 80; 65; 82; 84].
Definition sig_ok (s : list Z) : bool :=
  forallb (λ i, match s !! i, efi_part !! i with Some x, Some y => x =? y | _, _ => false end)
    (seq 0 8).

Definition header_sane (h : gpt_header) (sector_size : Z) : bool :=
  if negb (sig_ok (h_signature h)) then false
  else if (h_header_size h <? GPT_HEADER_MIN_SIZE) || (sector_size <? h_header_size h) then false
  else if h_part_entry_count h =? 0 then false
  else if (h_part_entry_size h <? 128) || (sector_size <? h_part_entry_size h) then false
  else negb (sector_size / h_part_entry_size h =? 0).

Definition gpt_info_from_header (h : gpt_header) (found_lba : Z) : option gpt_info :=
  let delta := s64 (s64 found_lba - s64 (h_current_lba h)) in
  let part_lba := s64 (s64 (h_part_entry_lba h) + delta) in
  if part_lba <? 0 then None
  else Some (GptInfo (u64 part_lba) (h_part_entry_count h) (h_part_entry_size h)).

Section part.
Context {D : Type} `{BlockDevice D}.
Implicit Types d : D.

Definition sector_size_ok d : bool :=
  negb ((bd_sector_size d <? 512) || (4096 <? bd_sector_size d)).

Definition gpt_read_header_at d (lba : Z) : option gpt_header :=
  if negb (sector_size_ok d) then None
  else buf ← block_device_read lba d; Some (decode_header buf).

(** A header read at [lba] that passes [header_sane]. *)
Definition sane_header_at d (lba : Z) : option gpt_header :=
  h ← gpt_read_header_at d lba; if header_sane h (bd_sector_size d) then Some h else None.

(** The scan [for (lba = 2; lba < scan_limit; lba++)]. *)
Fixpoint gpt_scan d (lbas : list Z) : option gpt_info :=
  match lbas with
  | [] => None
  | lba :: lbas =>
      match sane_header_at d lba ≫= λ h, gpt_info_from_header h lba with
      | Some info => Some info
      | None => gpt_scan d lbas
      end
  end.

Definition scan_limit d : Z :=
  if negb (bd_total_sectors d =? 0) && (bd_total_sectors d <? GPT_SCAN_MAX_LBA)
  then bd_total_sectors d else GPT_SCAN_MAX_LBA.

Definition gpt_read_header (bd : option D) : option gpt_info :=
  d ← bd;
  if negb (sector_size_ok d) then None
  else
    match sane_header_at d 1 with
    | Some h => gpt_info_from_header h 1
    | None =>
        let backup_lba := bd_total_sectors d - 1 in
        let backup :=
          if (1 <? bd_total_sectors d) && negb (backup_lba =? 1)
          then sane_header_at d backup_lba else None in
        match backup with
        | Some h => gpt_info_from_header h backup_lba
        | None => gpt_scan d (seqZ 2 (scan_limit d - 2))
        end
    end.

Definition decode_part (p : list Z) : gpt_part :=
  GptPart (take 16 p) (slice p 16 16) (le_val (slice p 32 8)) (le_val (slice p 40 8))
    (le_val (slice p 48 8)) (slice p 56 72).

Definition encode_part (p : gpt_part) : list Z :=
  g_type_guid p ++ g_uniq_guid p ++ le_bytes 8 (g_first_lba p) ++ le_bytes 8 (g_last_lba p) ++
  le_bytes 8 (g_attrs p) ++ g_name p.

Definition gpt_read_part (bd : option D) (info : gpt_info) (index : Z) : option gpt_part :=
  d ← bd;
  if (gi_part_count info <=? index) || (gi_part_size info <? 128) ||
     (bd_sector_size d <? gi_part_size info) then None
  else
    let entries_per_lba := bd_sector_size d / gi_part_size info in
    if entries_per_lba =? 0 then None
    else
      let lba := u64 (gi_part_lba info + index / entries_per_lba) in
      let idx_in_lba := u32 (index mod entries_per_lba) in
      if 4096 <? bd_sector_size d then None
      else
        buf ← block_device_read lba d;
        Some (decode_part (drop (Z.to_nat (u32 (idx_in_lba * gi_part_size info))) buf)).

Definition loc_of (p : gpt_part) : gpt_loc :=
  GptLoc (g_first_lba p)
    (if g_first_lba p <=? g_last_lba p then u64 (g_last_lba p - g_first_lba p + 1) else 0)
    (g_type_guid p) (g_uniq_guid p).

Definition gpt_find_by_index (bd : option D) (index : Z) : option gpt_loc :=
  info ← gpt_read_header bd;
  p ← gpt_read_part bd info index;
  Some (loc_of p).

Fixpoint find_type (bd : option D) (info : gpt_info) (idxs : list Z) (type_guid : list Z)
    : option gpt_loc :=
  match idxs with
  | [] => None
  | i :: idxs =>
      match gpt_read_part bd info i with
      | None => find_type bd info idxs type_guid
      | Some p => if guid_eq (g_type_guid p) type_guid then Some (loc_of p)
                  else find_type bd info idxs type_guid
      end
  end.

Definition gpt_find_by_type (bd : option D) (type_guid : list Z) : option gpt_loc :=
  match bd with
  | None => None
  | Some _ =>
      info ← gpt_read_header bd;
      find_type bd info (seqZ 0 (gi_part_count info)) type_guid
  end.

(** What [part_init] prints for each partition: index, start, size, type. *)
Definition part_init (bd : option D) : option (list (Z * Z * Z * list Z)) :=
  match bd with
  | None => None
  | Some _ =>
      info ← gpt_read_header bd;
      Some (omap (λ i,
        match gpt_read_part bd info i with
        | None => None
        | Some p =>
            if (g_first_lba p =? 0) || (g_last_lba p =? 0) then None
            else Some (i, g_first_lba p, u64 (g_last_lba p - g_first_lba p + 1),
                       guid_hex (g_type_guid p))
        end) (seqZ 0 (gi_part_count info)))
  end.
End part.

(** ** Specification: a disk with a GPT *)

Record header_fits (h : gpt_header) : Prop := {
  hf_sig : h_signature h = efi_part;
  hf_guid : length (h_disk_guid h) = 16%nat;
  hf_values : fits header_layout1 [h_revision h; h_header_size h; h_header_crc32 h; h_reserved h;
    h_current_lba h; h_backup_lba h; h_first_usable_lba h; h_last_usable_lba h];
  hf_values2 : fits header_layout2 [h_part_entry_lba h; h_part_entry_count h;
    h_part_entry_size h; h_part_array_crc32 h]
}.

Record part_fits (p : gpt_part) : Prop := {
  pf_type : length (g_type_guid p) = 16%nat;
  pf_uniq : length (g_uniq_guid p) = 16%nat;
  pf_lbas : 0 ≤ g_first_lba p < 2 ^ 64 ∧ 0 ≤ g_last_lba p < 2 ^ 64 ∧ 0 ≤ g_attrs p < 2 ^ 64;
  pf_name : length (g_name p) = 72%nat
}.

(** The device holds a header [h] at its own [current_lba], and the array of
    [parts] it describes, packed into the sectors from [part_entry_lba] on. *)
Record gpt_disk {D} `{BlockDevice D} (d : D) (h : gpt_header) (parts : list gpt_part) : Prop := {
  gd_sector : 512 ≤ bd_sector_size d ≤ 4096;
  gd_fits : header_fits h;
  gd_header : ∃ rest, bd_read (h_current_lba h) d = Some (encode_header h ++ rest);
  gd_size : 92 ≤ h_header_size h ≤ bd_sector_size d;
  gd_entry : 128 ≤ h_part_entry_size h ≤ bd_sector_size d;
  gd_count : h_part_entry_count h = Z.of_nat (length parts) ∧ parts ≠ [];
  gd_lba : 0 ≤ h_current_lba h < 2 ^ 63 ∧
    h_part_entry_lba h + Z.of_nat (length parts) < 2 ^ 63;
  gd_parts i p : parts !! i = Some p → part_fits p ∧
    let epl := bd_sector_size d / h_part_entry_size h in
    ∃ sector, bd_read (h_part_entry_lba h + Z.of_nat i / epl) d = Some sector ∧
      slice sector (Z.to_nat (Z.of_nat i mod epl * h_part_entry_size h)) 128 = encode_part p
}.

(** The header is the primary one, or the backup in the last sector of a disk
    whose primary header cannot be used. *)
Definition header_place {D} `{BlockDevice D} (d : D) (lba : Z) : Prop :=
  lba = 1 ∨ (sane_header_at d 1 = None ∧ lba = bd_total_sectors d - 1 ∧ 1 < lba).

(** ** Lemmas *)

Lemma take_app_exact {A} (l k : list A) n : length l = n → take n (l ++ k) = l.
Proof. intros <-. apply take_app_length. Qed.
Lemma drop_app_exact {A} (l k : list A) n : length l = n → drop n (l ++ k) = k.
Proof. intros <-. apply drop_app_length. Qed.

Lemma decode_encode_header h rest : header_fits h → decode_header (encode_header h ++ rest) = h.
Proof.
  intros [Hs Hg Hv Hv2]. unfold decode_header, encode_header, slice. rewrite <-!app_assoc.
  assert (length (h_signature h) = 8%nat) as Hl by by rewrite Hs.
  rewrite (drop_app_exact _ _ 8) by done. rewrite decode_encode_fields by done.
  set (e1 := encode_fields header_layout1 _). set (e2 := encode_fields header_layout2 _).
  assert (length e1 = 48%nat) as He1 by by (unfold e1; rewrite length_encode_fields).
  replace (drop 72 _) with (e2 ++ rest).
  2:{ change 72%nat with (8 + (48 + 16))%nat. rewrite <-!drop_drop.
      rewrite (drop_app_exact _ _ 8), (drop_app_exact _ _ 48), (drop_app_exact _ _ 16) by done. done. }
  unfold e2. rewrite decode_encode_fields by done. rewrite (take_app_exact _ _ 8) by done.
  change 56%nat with (8 + 48)%nat. rewrite <-drop_drop.
  rewrite (drop_app_exact _ _ 8), (drop_app_exact _ _ 48), (take_app_exact _ _ 16) by done.
  by destruct h.
Qed.

Lemma decode_encode_part p rest : part_fits p → decode_part (encode_part p ++ rest) = p.
Proof.
  intros [Ht Hu (H1 & H2 & H3) Hn]. unfold decode_part.
  set (l := encode_part p ++ rest).
  set (f8 := le_bytes 8 (g_first_lba p)). set (l8 := le_bytes 8 (g_last_lba p)).
  set (a8 := le_bytes 8 (g_attrs p)).
  assert (l = g_type_guid p ++ g_uniq_guid p ++ f8 ++ l8 ++ a8 ++ g_name p ++ rest) as El.
  { unfold l, encode_part. by rewrite <-!app_assoc. }
  assert (length f8 = 8%nat ∧ length l8 = 8%nat ∧ length a8 = 8%nat) as (Hf & Hl & Ha)
    by (split_and!; apply length_le_bytes).
  rewrite (slice_mid l (g_type_guid p) (g_uniq_guid p) _ 16 16 El Ht Hu).
  rewrite (slice_mid l (g_type_guid p ++ g_uniq_guid p) f8 (l8 ++ a8 ++ g_name p ++ rest) 32 8)
    by (rewrite ?El, <-?app_assoc, ?length_app; done || lia).
  rewrite (slice_mid l (g_type_guid p ++ g_uniq_guid p ++ f8) l8 (a8 ++ g_name p ++ rest) 40 8)
    by (rewrite ?El, <-?app_assoc, ?length_app; done || lia).
  rewrite (slice_mid l (g_type_guid p ++ g_uniq_guid p ++ f8 ++ l8) a8 (g_name p ++ rest) 48 8)
    by (rewrite ?El, <-?app_assoc, ?length_app; done || lia).
  rewrite (slice_mid l (g_type_guid p ++ g_uniq_guid p ++ f8 ++ l8 ++ a8) (g_name p) rest 56 72)
    by (rewrite ?El, <-?app_assoc, ?length_app; done || lia).
  rewrite El, (take_app_exact (g_type_guid p)) by done.
  unfold f8, l8, a8. rewrite !le_val_bytes by done. by destruct p.
Qed.

Lemma guid_eq_loop_spec n a b :
  length a = n → length b = n → guid_eq_loop n a b = bool_decide (a = b).
Proof.
  revert a b. induction n as [|n IH]; intros [|x a] [|y b] Ha Hb; simpl in *; try done.
  destruct (Z.eqb_spec x y) as [->|Hne]; simpl.
  - rewrite IH by lia. apply bool_decide_ext. naive_solver.
  - symmetry. apply bool_decide_false. congruence.
Qed.

Section lookup.
Context {D : Type} `{BlockDevice D}.
Implicit Types d : D.

Lemma gpt_disk_sane d h parts :
  gpt_disk d h parts → sane_header_at d (h_current_lba h) = Some h.
Proof.
  intros []. destruct gd_header0 as [rest Hr]. destruct gd_count0 as [Hc Hne].
  unfold sane_header_at, gpt_read_header_at, sector_size_ok, block_device_read.
  destruct (Z.ltb_spec (bd_sector_size d) 512); [lia|].
  destruct (Z.ltb_spec 4096 (bd_sector_size d)); [lia|]. simpl. rewrite Hr. simpl.
  rewrite decode_encode_header by done. unfold header_sane, GPT_HEADER_MIN_SIZE.
  rewrite (hf_sig _ gd_fits0). change (negb (sig_ok efi_part)) with false. cbv iota.
  destruct (Z.ltb_spec (h_header_size h) 92); [lia|].
  destruct (Z.ltb_spec (bd_sector_size d) (h_header_size h)); [lia|]. simpl.
  destruct (Z.eqb_spec (h_part_entry_count h) 0) as [Hz|Hz].
  { destruct parts; simpl in Hc; [done|lia]. }
  destruct (Z.ltb_spec (h_part_entry_size h) 128); [lia|].
  destruct (Z.ltb_spec (bd_sector_size d) (h_part_entry_size h)); [lia|]. simpl.
  destruct (Z.eqb_spec (bd_sector_size d / h_part_entry_size h) 0) as [Hq|]; [|done].
  apply Z.div_small_iff in Hq; lia.
Qed.

Lemma s64_small x : 0 ≤ x < 2 ^ 63 → s64 x = x.
Proof. intros. unfold s64. rewrite u64_small by lia. by destruct (Z.ltb_spec x (2 ^ 63)); [|lia]. Qed.

(** A header found where it says it is gives its own partition array. *)
Lemma info_in_place h :
  0 ≤ h_current_lba h < 2 ^ 63 → 0 ≤ h_part_entry_lba h < 2 ^ 63 →
  gpt_info_from_header h (h_current_lba h) =
    Some (GptInfo (h_part_entry_lba h) (h_part_entry_count h) (h_part_entry_size h)).
Proof.
  intros Hc Hp. unfold gpt_info_from_header. rewrite !(s64_small (h_current_lba h)) by done.
  rewrite Z.sub_diag. change (s64 0) with 0.
  rewrite (s64_small (h_part_entry_lba h)), Z.add_0_r, s64_small by done.
  destruct (Z.ltb_spec (h_part_entry_lba h) 0); [lia|]. by rewrite u64_small by lia.
Qed.

Lemma gpt_read_header_disk d h parts :
  gpt_disk d h parts → header_place d (h_current_lba h) →
  gpt_read_header (Some d) =
    Some (GptInfo (h_part_entry_lba h) (h_part_entry_count h) (h_part_entry_size h)).
Proof.
  intros Hd Hplace. pose proof (gpt_disk_sane _ _ _ Hd) as Hs. pose proof Hd as [].
  destruct gd_lba0 as [Hcur Hend].
  assert (0 ≤ h_part_entry_lba h) as Hp0.
  { destruct gd_fits0 as [_ _ _ Hv]. apply Forall2_cons in Hv as [? _]. lia. }
  pose proof (info_in_place h ltac:(lia) ltac:(lia)) as Hinfo.
  unfold gpt_read_header. simpl. unfold sector_size_ok.
  destruct (Z.ltb_spec (bd_sector_size d) 512); [lia|].
  destruct (Z.ltb_spec 4096 (bd_sector_size d)); [lia|]. simpl.
  destruct Hplace as [E|(Hnone & E & Hgt)].
  - by rewrite <-E, Hs.
  - rewrite Hnone, <-E. destruct (Z.ltb_spec 1 (bd_total_sectors d)); [|lia].
    destruct (Z.eqb_spec (h_current_lba h) 1); [lia|]. simpl. by rewrite Hs.
Qed.

Lemma slice_prefix {A} (l : list A) o n : ∃ k, drop o l = slice l o n ++ k.
Proof. exists (drop n (drop o l)). unfold slice. by rewrite take_drop. Qed.

Lemma gpt_read_part_disk d h parts i :
  gpt_disk d h parts → (0 ≤ i < 2 ^ 32) →
  gpt_read_part (Some d) (GptInfo (h_part_entry_lba h) (h_part_entry_count h) (h_part_entry_size h)) i
    = parts !! Z.to_nat i.
Proof.
  intros [] Hi. destruct gd_count0 as [Hc _]. unfold gpt_read_part. simpl.
  destruct (Z.leb_spec (h_part_entry_count h) i) as [Hge|Hlt]; simpl.
  { symmetry. apply lookup_ge_None. lia. }
  destruct (lookup_lt_is_Some_2 parts (Z.to_nat i)) as [p Hp]; [lia|].
  destruct (gd_parts0 _ _ Hp) as (Hfit & sector & Hr & Hsl). rewrite Z2Nat.id in * by lia.
  destruct (Z.ltb_spec (h_part_entry_size h) 128); [lia|].
  destruct (Z.ltb_spec (bd_sector_size d) (h_part_entry_size h)); [lia|]. simpl.
  set (epl := bd_sector_size d / h_part_entry_size h) in *.
  assert (0 < epl) as Hepl by (apply Z.div_str_pos; lia).
  assert (epl * h_part_entry_size h ≤ bd_sector_size d) as Hfull.
  { rewrite Z.mul_comm. apply Z.mul_div_le. lia. }
  assert (epl ≤ 4096) as Hepl2 by nia.
  destruct (Z.eqb_spec epl 0); [lia|].
  destruct (Z.ltb_spec 4096 (bd_sector_size d)); [lia|].
  assert (0 ≤ i / epl ≤ i) as Hq.
  { split; [apply Z.div_pos; lia|]. apply Z.div_le_upper_bound; nia. }
  assert (0 ≤ h_part_entry_lba h) as Hp0.
  { destruct gd_fits0 as [_ _ _ Hv]. apply Forall2_cons in Hv as [? _]. lia. }
  rewrite u64_small by lia. unfold block_device_read. rewrite Hr. simpl.
  pose proof (Z.mod_pos_bound i epl Hepl) as Hm.
  rewrite (u32_small (i mod epl)) by lia. rewrite u32_small by nia.
  set (o := Z.to_nat (i mod epl * h_part_entry_size h)) in *.
  destruct (slice_prefix sector o 128) as [k Hk].
  rewrite Hk, Hsl, decode_encode_part by done. done.
Qed.

(** The loop of [gpt_find_by_type] from index [a] on. *)
Lemma find_type_disk d h parts g rest a :
  gpt_disk d h parts → length g = 16%nat → Z.of_nat (length parts) < 2 ^ 32 → drop (Z.to_nat a) parts = rest → 0 ≤ a →
  a + Z.of_nat (length rest) = Z.of_nat (length parts) →
  find_type (Some d)
    (GptInfo (h_part_entry_lba h) (h_part_entry_count h) (h_part_entry_size h))
    (seqZ a (Z.of_nat (length rest))) g =
  (loc_of ∘ snd) <$> list_find (λ p, g_type_guid p = g) rest.
Proof.
  intros Hd Hg Hmax. revert a. induction rest as [|p rest IH]; intros a Hdrop Ha Hsum; [done|].
  simpl length. rewrite Nat2Z.inj_succ, seqZ_cons by lia.
  replace (Z.pred (Z.succ (Z.of_nat (length rest)))) with (Z.of_nat (length rest)) by lia.
  cbn [find_type]. simpl length in Hsum. rewrite (gpt_read_part_disk d h parts) by (done || lia).
  assert (parts !! Z.to_nat a = Some p) as Hp.
  { rewrite <-(Nat.add_0_r (Z.to_nat a)), <-lookup_drop, Hdrop. done. }
  rewrite Hp. unfold guid_eq. destruct (gd_parts _ _ _ Hd _ _ Hp) as [Hfit _].
  rewrite guid_eq_loop_spec by (apply Hfit || done). simpl list_find.
  case_bool_decide as Hgt; [by rewrite decide_True|]. rewrite decide_False by done.
  rewrite IH; [|by rewrite <-Z.add_1_r, Z2Nat.inj_add, <-drop_drop, Hdrop by lia|lia|lia].
  destruct (list_find _ rest) as [[]|]; done.
Qed.

(** On a disk with a GPT, whose header is the primary one or the backup in
    the last sector when the primary cannot be used, looking up a partition by
    index gives the location of that entry of the array (and -1 past its end),
    and looking up by type gives the location of the first entry of that type
    (and -1 when there is none). *)
Theorem gpt_lookup_correct d h parts i g :
  gpt_disk d h parts → header_place d (h_current_lba h) → 0 ≤ i < 2 ^ 32 → length g = 16%nat →
  gpt_find_by_index (Some d) i = loc_of <$> parts !! Z.to_nat i ∧
  gpt_find_by_type (Some d) g =
    (loc_of ∘ snd) <$> list_find (λ p, g_type_guid p = g) parts.
Proof.
  intros Hd Hplace Hi Hg. pose proof (gpt_read_header_disk d h parts Hd Hplace) as Hh.
  assert (Z.of_nat (length parts) < 2 ^ 32) as Hmax.
  { destruct Hd as [_ [_ _ _ Hv] _ _ _ [Hc _] _ _]. apply Forall2_cons in Hv as [_ Hv].
    apply Forall2_cons in Hv as [Hv _]. change (8 * Z.of_nat 4) with 32 in Hv. lia. }
  split.
  - unfold gpt_find_by_index. rewrite Hh. cbn [mbind option_bind gi_part_count]. rewrite (gpt_read_part_disk d h parts) by done.
    by destruct (parts !! Z.to_nat i).
  - unfold gpt_find_by_type. rewrite Hh. cbn [mbind option_bind gi_part_count].
    replace (seqZ 0 (h_part_entry_count h)) with (seqZ 0 (Z.of_nat (length parts)))
      by (f_equal; symmetry; apply (gd_count _ _ _ Hd)).
    by apply (find_type_disk d h parts g parts 0).
Qed.
End lookup.

(** ** A disk with two partitions *)

Definition demo_guid (k : Z) : list Z := replicate 16 k.
Definition demo_parts : list gpt_part :=
  [GptPart (demo_guid 1) (demo_guid 7) 34 99 0 (replicate 72 0);
   GptPart (demo_guid 2) (demo_guid 8) 100 100 0 (replicate 72 0)].
Definition demo_header : gpt_header :=
  GptHeader efi_part 65536 92 0 0 1 199 34 190 (demo_guid 9) 2 2 128 0.
Definition demo_gpt : ramdisk :=
  Ramdisk 512 200
    (<[2 := mjoin (encode_part <$> demo_parts) ++ replicate 256 0]>
      (<[1 := encode_header demo_header ++ replicate 420 0]> ∅)).

Lemma demo_gpt_disk : gpt_disk demo_gpt demo_header demo_parts.
Proof.
  split; simpl; [lia| |eexists; vm_compute; reflexivity|lia|lia|split; done|lia|].
  - split; [done|done|..];
      repeat (constructor; [split; vm_compute; [discriminate|reflexivity]|]); constructor.
  - intros [|[|i]] p Hp; simplify_eq/=; (split; [split; simpl; (done || lia)|]);
      eexists; (split; [vm_compute; reflexivity|vm_compute; reflexivity]).
Qed.

Lemma gpt_lookup_correct_witness :
  gpt_disk demo_gpt demo_header demo_parts ∧
  gpt_find_by_index (Some demo_gpt) 0 = Some (GptLoc 34 66 (demo_guid 1) (demo_guid 7)) ∧
  gpt_find_by_type (Some demo_gpt) (demo_guid 2) =
    Some (GptLoc 100 1 (demo_guid 2) (demo_guid 8)).
Proof.
  split; [exact demo_gpt_disk|].
  destruct (gpt_lookup_correct demo_gpt demo_header demo_parts 0 (demo_guid 2)
    demo_gpt_disk (or_introl eq_refl) ltac:(lia) eq_refl) as [-> ->].
  split; vm_compute; reflexivity.
Defined.
