(* ===== verification/Elf.v ===== *)
(** * Program loader

    Translation of [src/src/kernel/proc/elf.c]: the CRC of a container, its
    headers, and [elf_load_fry].  The file system, the page allocator, the
    address spaces and the copied memory are reached by calls; [env] answers
    the n-th call from the history of calls, so a theorem for every [env]
    holds for every behaviour of those components.  The calls are recorded in
    order.  The output pointers of [elf_load_fry] are not NULL. *)

From S2P Require Import Prelude Codec Ring PageAlloc Vmm.

Definition FRY_MAGIC : Z := 0x30595246.
Definition TOT_MAGIC : Z := 0x31544F54.
Definition USER_STACK_TOP : Z := USER_VA_TOP.
Definition USER_STACK_PAGES : Z := 4096.
Definition PT_LOAD : Z := 1.
Definition PF_X : Z := 1.
Definition PF_W : Z := 2.

Definition ELF_LOAD_OK : Z := 0.
Definition ELF_LOAD_ERR_BAD_ARGS : Z := -100.
Definition ELF_LOAD_ERR_OPEN : Z := -101.
Definition ELF_LOAD_ERR_SHORT_HEADER : Z := -102.
Definition ELF_LOAD_ERR_NOMEM : Z := -103.
Definition ELF_LOAD_ERR_READ : Z := -104.
Definition ELF_LOAD_ERR_BAD_MAGIC : Z := -105.
Definition ELF_LOAD_ERR_BOUNDS : Z := -106.
Definition ELF_LOAD_ERR_BAD_CRC : Z := -107.
Definition ELF_LOAD_ERR_BAD_ELF_HEADER : Z := -108.
Definition ELF_LOAD_ERR_BAD_ELF_MAGIC : Z := -109.
Definition ELF_LOAD_ERR_VMM_SPACE : Z := -110.
Definition ELF_LOAD_ERR_SEG_ALLOC : Z := -111.
Definition ELF_LOAD_ERR_SEG_TRANSLATE : Z := -112.
Definition ELF_LOAD_ERR_STACK_ALLOC : Z := -113.

(** ** CRC *)

(** One iteration of the inner loop of [crc32_init]. *)
Definition crc_shift (c : Z) : Z :=
  if negb (Z.land c 1 =? 0) then Z.lxor 0xEDB88320 (Z.shiftr c 1) else Z.shiftr c 1.
Definition crc_entry (i : Z) : Z := Nat.iter 8 crc_shift i.

Definition crc32_table : list Z := crc_entry <$> seqZ 0 256.

Definition crc32_update (c b : Z) : Z :=
  Z.lxor (default 0 (arr_get crc32_table (Z.land (Z.lxor c b) 0xFF))) (Z.shiftr c 8).
Definition crc32_calc (buf : list Z) : Z :=
  Z.lxor (foldl crc32_update 0xFFFFFFFF buf) 0xFFFFFFFF.

(** ** Names *)

Definition ascii_upper (c : Z) : Z := if (97 <=? c) && (c <=? 122) then c - (97 - 65) else c.

Fixpoint basename_from (base path : list Z) : list Z :=
  match path with
  | [] => base
  | c :: p => basename_from (if c =? 47 then p else base) p
  end.
Definition path_basename (path : list Z) : list Z := basename_from path path.

Fixpoint streq_ci (a b : list Z) : bool :=
  match a, b with
  | x :: a, y :: b => if negb (ascii_upper x =? ascii_upper y) then false else streq_ci a b
  | [], [] => true
  | _, _ => false
  end.

(** "SHELL.TOT" *)
Definition shell_tot : list Z := [83; 72; 69; 76; 76; 46; 84; 79; 84].
Definition path_is_shell_tot (path : list Z) : bool := streq_ci (path_basename path) shell_tot.

(** ** Headers *)

Record fry_header := FryHeader {
  fh_magic : Z; fh_version : Z; fh_flags : Z; fh_crc32 : Z; fh_payload_size : Z
}.
Definition decode_fry (l : list Z) : fry_header :=
  match decode_fields [4; 2; 2; 4; 4]%nat l with
  | [a; b; c; d; e] => FryHeader a b c d e
  | _ => FryHeader 0 0 0 0 0
  end.

Record elf64_ehdr := Ehdr {
  e_ident : list Z; e_type : Z; e_machine : Z; e_version : Z; e_entry : Z; e_phoff : Z;
  e_shoff : Z; e_flags : Z; e_ehsize : Z; e_phentsize : Z; e_phnum : Z; e_shentsize : Z;
  e_shnum : Z; e_shstrndx : Z
}.
Definition decode_ehdr (l : list Z) : elf64_ehdr :=
  match decode_fields [2; 2; 4; 8; 8; 8; 4; 2; 2; 2; 2; 2; 2]%nat (drop 16 l) with
  | [a; b; c; d; e; f; g; h; i; j; k; m; n] => Ehdr (take 16 l) a b c d e f g h i j k m n
  | _ => Ehdr [] 0 0 0 0 0 0 0 0 0 0 0 0 0
  end.

Record elf64_phdr := Phdr {
  p_type : Z; p_flags : Z; p_offset : Z; p_vaddr : Z; p_paddr : Z; p_filesz : Z; p_memsz : Z;
  p_align : Z
}.
Definition decode_phdr (l : list Z) : elf64_phdr :=
  match decode_fields [4; 4; 8; 8; 8; 8; 8; 8]%nat l with
  | [a; b; c; d; e; f; g; h] => Phdr a b c d e f g h
  | _ => Phdr 0 0 0 0 0 0 0 0
  end.

(** ** Calls *)

Inductive call :=
  | COpen (path : list Z)                        (* vfs_open *)
  | CRead (size : Z)                             (* vfs_read *)
  | CClose                                       (* vfs_close *)
  | CAllocTmp (pages : Z)                        (* pmm_alloc_pages *)
  | CFreeTmp (phys pages : Z)                    (* pmm_free_pages *)
  | CCreate                                      (* vmm_create_address_space *)
  | CDestroy (pml4 : Z)                          (* vmm_destroy_address_space *)
  | CAllocPage                                   (* pmm_alloc_page *)
  | CMap (pml4 va phys flags : Z)                (* vmm_map_user *)
  | CZero (phys : Z)                             (* mem_zero of the page *)
  | CTranslate (pml4 va : Z)                     (* pml4_virt_to_phys *)
  | CCopy (dst : Z) (src : list Z).              (* mem_copy *)

(** What the file system shows of an open file: [vfs_size], the [int] that
    [vfs_read] returns, and the first [vf_size] bytes of the buffer after it. *)
Record vfs_file := VfsFile { vf_size : Z; vf_read : Z; vf_buf : list Z }.

Record loader := Loader { ld_calls : list call; g_elf_last_error : Z }.

Section elf.
Context (env : list call → call → Z).

Definition do_call (c : call) : M loader Z := λ s,
  Some (env (ld_calls s) c, Loader (ld_calls s ++ [c]) (g_elf_last_error s)).

Definition elf_fail {A} (code : Z) : M loader (Z + A) :=
  modify (λ s, Loader (ld_calls s) code);; mret (inl code).

(** The physical address and the number of pages, or [None] for 0. *)
Definition temp_alloc_pages (size : Z) : M loader (option (Z * Z)) :=
  let pages := (size + 4095) / 4096 in
  let pages := if pages =? 0 then 1 else pages in
  phys ← do_call (CAllocTmp pages);
  mret (if phys =? 0 then None else Some (phys, pages)).

Definition temp_free_pages (phys pages : Z) : M loader unit :=
  if (phys =? 0) || (pages =? 0) then mret tt
  else do_call (CFreeTmp phys pages);; mret tt.

(** The checks on a segment, in order. *)
Definition segment_ok (ph : elf64_phdr) (payload_size : Z) : bool :=
  let vaddr := p_vaddr ph in let memsz := p_memsz ph in let filesz := p_filesz ph in
  let off := p_offset ph in
  negb (USER_VA_TOP <=? vaddr) && negb (memsz <? filesz) &&
  negb ((payload_size <? off) || (payload_size - off <? filesz)) &&
  negb (UINT64_MAX - vaddr <? memsz) && negb (USER_VA_TOP - vaddr <? memsz) &&
  negb (UINT64_MAX - 0xFFF <? u64 (vaddr + memsz)).

Definition segment_flags (ph : elf64_phdr) : Z :=
  let flags := VMM_FLAG_USER in
  let flags := if negb (Z.land (p_flags ph) PF_W =? 0) then Z.lor flags VMM_FLAG_WRITE else flags in
  if Z.land (p_flags ph) PF_X =? 0 then Z.lor flags VMM_FLAG_NO_EXECUTE else flags.

(** Allocate, map and zero one page; [Some err] when there is none. *)
Definition map_page (pml4 va flags err : Z) : M loader (option Z) :=
  phys ← do_call CAllocPage;
  if phys =? 0 then mret (Some err)
  else
    do_call (CMap pml4 va phys flags);;
    do_call (CZero phys);;
    mret None.

(** [for (va = start; va < end; va += 4096)] *)
Definition map_pages (pml4 start end_ flags : Z) : M loader (option Z) :=
  while (2 ^ 64) (λ va,
    if va <? end_ then
      r ← map_page pml4 va flags ELF_LOAD_ERR_SEG_ALLOC;
      mret (match r with Some e => inr (Some e) | None => inl (u64 (va + 4096)) end)
    else mret (inr None)) start.

(** The copy of the file part of a segment. *)
Definition copy_segment (pml4 vaddr : Z) (src : list Z) : M loader (option Z) :=
  while (Z.of_nat (length src) + 1) (λ '(va, src),
    match src with
    | [] => mret (inr None)
    | _ =>
        let remaining := Z.of_nat (length src) in
        phys ← do_call (CTranslate pml4 va);
        if phys =? 0 then mret (inr (Some ELF_LOAD_ERR_SEG_TRANSLATE))
        else
          let page_off := Z.land va 0xFFF in
          let to_copy := 4096 - page_off in
          let to_copy := if remaining <? to_copy then remaining else to_copy in
          do_call (CCopy (u64 (vmm_phys_to_virt phys + page_off)) (take (Z.to_nat to_copy) src));;
          mret (inl (u64 (va + to_copy), drop (Z.to_nat to_copy) src))
    end) (vaddr, src).

(** One program header; [Some err] leaves the loop. *)
Definition load_segment (pml4 : Z) (payload : list Z) (payload_size : Z) (ph : elf64_phdr)
    : M loader (option Z) :=
  if negb (p_type ph =? PT_LOAD) then mret None
  else if negb (segment_ok ph payload_size) then mret (Some ELF_LOAD_ERR_BOUNDS)
  else
    let seg_end := u64 (p_vaddr ph + p_memsz ph) in
    let start := Z.land (p_vaddr ph) (u64 (Z.lnot 0xFFF)) in
    let end_ := Z.land (u64 (seg_end + 0xFFF)) (u64 (Z.lnot 0xFFF)) in
    r ← map_pages pml4 start end_ (segment_flags ph);
    match r with
    | Some e => mret (Some e)
    | None =>
        if 0 <? p_filesz ph
        then copy_segment pml4 (p_vaddr ph)
               (slice payload (Z.to_nat (p_offset ph)) (Z.to_nat (p_filesz ph)))
        else mret None
    end.

Definition map_stack (pml4 : Z) : M loader (option Z) :=
  let stack_base := USER_STACK_TOP - USER_STACK_PAGES * 4096 in
  for_ 0 USER_STACK_PAGES (λ i,
    map_page pml4 (u64 (stack_base + i * 4096))
      (Z.lor (Z.lor VMM_FLAG_WRITE VMM_FLAG_USER) VMM_FLAG_NO_EXECUTE) ELF_LOAD_ERR_STACK_ALLOC).

(** The checks before an address space exists; the error code or the payload. *)
Definition check_container (path buf : list Z) (size : Z) : Z + list Z :=
  let h := decode_fry buf in
  if (fh_magic h =? TOT_MAGIC) && negb (path_is_shell_tot path) then inl ELF_LOAD_ERR_BAD_MAGIC
  else if negb (fh_magic h =? TOT_MAGIC) && negb (fh_magic h =? FRY_MAGIC)
  then inl ELF_LOAD_ERR_BAD_MAGIC
  else if size <? 16 + fh_payload_size h then inl ELF_LOAD_ERR_BOUNDS
  else
    let payload := slice buf 16 (Z.to_nat (fh_payload_size h)) in
    if negb (crc32_calc payload =? fh_crc32 h) then inl ELF_LOAD_ERR_BAD_CRC
    else if fh_payload_size h <? 64 then inl ELF_LOAD_ERR_BAD_ELF_HEADER
    else if negb (bool_decide (take 4 (e_ident (decode_ehdr payload)) = [0x7F; 69; 76; 70]))
    then inl ELF_LOAD_ERR_BAD_ELF_MAGIC
    else inr payload.

(** The checks on the program header table; [Some err] on failure. *)
Definition check_table (eh : elf64_ehdr) (payload_size : Z) : option Z :=
  if negb (e_phentsize eh =? 56) then Some ELF_LOAD_ERR_BAD_ELF_HEADER
  else if payload_size <? e_phoff eh then Some ELF_LOAD_ERR_BOUNDS
  else if payload_size - e_phoff eh <? e_phnum eh * e_phentsize eh
  then Some ELF_LOAD_ERR_BOUNDS
  else None.

(** The loop over the program headers. *)
Definition load_segments (pml4 : Z) (payload : list Z) (eh : elf64_ehdr) : M loader (option Z) :=
  for_ 0 (e_phnum eh) (λ i,
    load_segment pml4 payload (Z.of_nat (length payload))
      (decode_phdr (slice payload (Z.to_nat (e_phoff eh + i * 56)) 56))).

(** Everything after the address space was created; [Some err] means that the
    space and the buffer must be released. *)
Definition build_space (pml4 : Z) (payload : list Z) : M loader (option Z) :=
  let eh := decode_ehdr payload in
  match check_table eh (Z.of_nat (length payload)) with
  | Some e => mret (Some e)
  | None =>
      r ← load_segments pml4 payload eh;
      match r with
      | Some e => mret (Some e)
      | None =>
          if USER_VA_TOP <=? e_entry eh then mret (Some ELF_LOAD_ERR_BOUNDS)
          else map_stack pml4
      end
  end.

(** [path]: [None] is NULL.  [file]: what [vfs_open] finds, [None] being NULL.
    The result is an error code, or CR3, the entry point and the stack
    pointer. *)
Definition elf_load_fry (path : option (list Z)) (file : option vfs_file)
    : M loader (Z + (Z * Z * Z)) :=
  match path with
  | None => elf_fail ELF_LOAD_ERR_BAD_ARGS
  | Some path =>
      modify (λ s, Loader (ld_calls s) ELF_LOAD_OK);;
      do_call (COpen path);;
      match file with
      | None => elf_fail ELF_LOAD_ERR_OPEN
      | Some f =>
          let size := vf_size f in
          if size <? 16 then do_call CClose;; elf_fail ELF_LOAD_ERR_SHORT_HEADER
          else
            t ← temp_alloc_pages size;
            match t with
            | None => do_call CClose;; elf_fail ELF_LOAD_ERR_NOMEM
            | Some (tmp_phys, tmp_pages) =>
                do_call (CRead size);;
                do_call CClose;;
                if negb (u32 (vf_read f) =? size) then
                  temp_free_pages tmp_phys tmp_pages;; elf_fail ELF_LOAD_ERR_READ
                else
                  match check_container path (vf_buf f) size with
                  | inl e => temp_free_pages tmp_phys tmp_pages;; elf_fail e
                  | inr payload =>
                      pml4 ← do_call CCreate;
                      if pml4 =? 0 then
                        temp_free_pages tmp_phys tmp_pages;; elf_fail ELF_LOAD_ERR_VMM_SPACE
                      else
                        r ← build_space pml4 payload;
                        match r with
                        | Some e =>
                            do_call (CDestroy pml4);;
                            temp_free_pages tmp_phys tmp_pages;;
                            elf_fail e
                        | None =>
                            temp_free_pages tmp_phys tmp_pages;;
                            modify (λ s, Loader (ld_calls s) ELF_LOAD_OK);;
                            mret (inr (pml4, e_entry (decode_ehdr payload), USER_STACK_TOP - 8))
                        end
                  end
            end
      end
  end.
End elf.

(** ** The loader's page-table walk *)

Section walk.
Context {P : Type} `{!PageAllocator P} (ks : kernel_syms).

Definition pml4_virt_to_phys (pml4_phys virt : Z) : M (vmm P) Z :=
  let pml4 := vmm_phys_to_virt pml4_phys in
  e4 ← rd_entry ks pml4 (pml4_index virt);
  if negb (has e4 VMM_FLAG_PRESENT) then mret 0
  else
    let pdpt := vmm_phys_to_virt (Z.land e4 ADDR_MASK) in
    pdpe ← rd_entry ks pdpt (pdpt_index virt);
    if negb (has pdpe VMM_FLAG_PRESENT) then mret 0
    else if has pdpe VMM_FLAG_LARGE
    then mret (u64 (Z.land pdpe ADDR_MASK + Z.land virt 0x3FFFFFFF))
    else
      let pd := vmm_phys_to_virt (Z.land pdpe ADDR_MASK) in
      pde ← rd_entry ks pd (pd_index virt);
      if negb (has pde VMM_FLAG_PRESENT) then mret 0
      else if has pde VMM_FLAG_LARGE
      then mret (u64 (Z.land pde ADDR_MASK + Z.land virt 0x1FFFFF))
      else
        let pt := vmm_phys_to_virt (Z.land pde ADDR_MASK) in
        pte ← rd_entry ks pt (pt_index virt);
        if negb (has pte VMM_FLAG_PRESENT) then mret 0
        else mret (u64 (Z.land pte ADDR_MASK + Z.land virt 0xFFF)).
End walk.

(** ** The CRC, bit by bit *)

(** The CRC as a shift register that takes in the bits of each byte. *)
Definition crc32_ref (buf : list Z) : Z :=
  Z.lxor (foldl (λ c b, Nat.iter 8 crc_shift (Z.lxor c b)) 0xFFFFFFFF buf) 0xFFFFFFFF.

Definition w32 (x : Z) : Prop := 0 ≤ x < 2 ^ 32.

Lemma crc_shift_bits c n :
  0 ≤ n → Z.testbit (crc_shift c) n =
    xorb (Z.testbit c (n + 1)) (Z.testbit c 0 && Z.testbit 0xEDB88320 n).
Proof.
  intros Hn. unfold crc_shift. rewrite <-(Z.shiftr_0_r c) at 1.
  change (Z.shiftr c 0) with c. rewrite Z.bit0_odd.
  change 1 with (Z.ones 1) at 1. rewrite Z.land_ones by lia. change (2 ^ 1) with 2.
  rewrite Zmod_odd. destruct (Z.odd c); simpl negb; cbv iota.
  - rewrite Z.lxor_spec, Z.shiftr_spec by lia. simpl. by rewrite xorb_comm.
  - rewrite Z.shiftr_spec by lia. simpl. by rewrite xorb_false_r.
Qed.

Lemma w32_bits x : w32 x ↔ 0 ≤ x ∧ ∀ n, 32 ≤ n → Z.testbit x n = false.
Proof.
  unfold w32. split.
  - intros Hx. split; [lia|]. intros n Hn. rewrite <-(Z.mod_small x (2 ^ 32)) by lia.
    apply Z.mod_pow2_bits_high. lia.
  - intros [Hx Hb]. split; [done|]. assert (x = x mod 2 ^ 32) as ->; [|by apply Z.mod_pos_bound].
    apply Z.bits_inj'. intros n Hn. destruct (decide (n < 32)).
    + by rewrite Z.mod_pow2_bits_low by lia.
    + rewrite Z.mod_pow2_bits_high by lia. apply Hb. lia.
Qed.

Lemma w32_lxor a b : w32 a → w32 b → w32 (Z.lxor a b).
Proof.
  rewrite !w32_bits. intros [Ha Hab] [Hb Hbb]. split; [by apply Z.lxor_nonneg|].
  intros n Hn. by rewrite Z.lxor_spec, Hab, Hbb.
Qed.

Lemma crc_shift_nonneg c : 0 ≤ c → 0 ≤ crc_shift c.
Proof.
  intros Hc. assert (0 ≤ Z.shiftr c 1) by by apply Z.shiftr_nonneg.
  unfold crc_shift. case_match; [|done]. apply Z.lxor_nonneg. split; [done|lia].
Qed.

Lemma crc_shift_w32 c : w32 c → w32 (crc_shift c).
Proof.
  intros Hc. apply w32_bits in Hc as Hb. destruct Hb as [H0 Hb]. apply w32_bits. split.
  - by apply crc_shift_nonneg.
  - intros n Hn. rewrite crc_shift_bits by lia. rewrite Hb by lia.
    assert (w32 0xEDB88320) as Hp by (unfold w32; lia).
    apply w32_bits in Hp as [_ Hp]. rewrite Hp by lia. by destruct (Z.testbit c 0).
Qed.

Lemma crc_shift_lxor a b : 0 ≤ a → 0 ≤ b →
  crc_shift (Z.lxor a b) = Z.lxor (crc_shift a) (crc_shift b).
Proof.
  intros Ha Hb. apply Z.bits_inj'. intros n Hn.
  rewrite Z.lxor_spec, !crc_shift_bits, !Z.lxor_spec by done.
  destruct (Z.testbit a (n + 1)), (Z.testbit b (n + 1)), (Z.testbit a 0), (Z.testbit b 0),
    (Z.testbit 0xEDB88320 n); done.
Qed.

Lemma crc_shift_double x : crc_shift (2 * x) = x.
Proof.
  apply Z.bits_inj'. intros n Hn. rewrite crc_shift_bits by done.
  rewrite Z.testbit_even_0. simpl. rewrite xorb_false_r.
  by rewrite Z.add_1_r, Z.testbit_even_succ.
Qed.

Lemma crc_shift_inj a b : w32 a → w32 b → crc_shift a = crc_shift b → a = b.
Proof.
  intros Ha%w32_bits Hb%w32_bits Heq. destruct Ha as [Ha Hab], Hb as [Hb Hbb].
  assert (Z.testbit a 0 = Z.testbit b 0) as H0.
  { assert (Z.testbit (crc_shift a) 31 = Z.testbit (crc_shift b) 31) as Ht by by rewrite Heq.
    rewrite !crc_shift_bits in Ht by lia. change (31 + 1) with 32 in Ht.
    rewrite Hab, Hbb in Ht by lia. change (Z.testbit 0xEDB88320 31) with true in Ht.
    by rewrite !andb_true_r in Ht. }
  apply Z.bits_inj'. intros n Hn. destruct (decide (n = 0)) as [->|Hne]; [done|].
  assert (Z.testbit (crc_shift a) (n - 1) = Z.testbit (crc_shift b) (n - 1)) as Ht
    by by rewrite Heq.
  rewrite !crc_shift_bits in Ht by lia. rewrite H0 in Ht.
  replace (n - 1 + 1) with n in Ht by lia.
  by destruct (Z.testbit a n), (Z.testbit b n), (Z.testbit b 0 && _).
Qed.

(** The same facts for the eight shifts of a byte. *)
Lemma crc_entry_w32 n c : w32 c → w32 (Nat.iter n crc_shift c).
Proof. intros Hc. induction n as [|n IH]; [done|]. by apply crc_shift_w32. Qed.

Lemma crc_entry_inj n a b :
  w32 a → w32 b → Nat.iter n crc_shift a = Nat.iter n crc_shift b → a = b.
Proof.
  intros Ha Hb. induction n as [|n IH]; [done|]. intros Heq. apply IH.
  apply crc_shift_inj; [by apply crc_entry_w32..|done].
Qed.

Lemma crc_entry_split x : w32 x →
  crc_entry x = Z.lxor (crc_entry (x mod 256)) (x / 256).
Proof.
  intros Hx. unfold w32 in Hx.
  assert (0 ≤ x mod 256) by (apply Z.mod_pos_bound; lia).
  assert (0 ≤ x / 256) by (apply Z.div_pos; lia).
  assert (x = Z.lxor (x mod 256) (256 * (x / 256))) as Es.
  { rewrite <-Z.add_nocarry_lxor.
    - pose proof (Z.div_mod x 256). lia.
    - apply Z.bits_inj'. intros n Hn. rewrite Z.land_spec, Z.bits_0.
      change 256 with (2 ^ 8). destruct (decide (n < 8)).
      + rewrite Z.mul_comm, Z.mul_pow2_bits_low by lia. apply andb_false_r.
      + by rewrite Z.mod_pow2_bits_high by lia. }
  rewrite Es at 1. unfold crc_entry.
  assert (∀ n a b, 0 ≤ a → 0 ≤ b → Nat.iter n crc_shift (Z.lxor a (2 ^ Z.of_nat n * b)) =
    Z.lxor (Nat.iter n crc_shift a) b) as Hit.
  { induction n as [|n IH]; intros a b Ha Hb.
    - simpl Nat.iter. by rewrite Z.mul_1_l.
    - rewrite !Nat.iter_succ_r.
      replace (2 ^ Z.of_nat (S n) * b) with (2 * (2 ^ Z.of_nat n * b))
        by (rewrite Nat2Z.inj_succ, Z.pow_succ_r by lia; ring).
      rewrite crc_shift_lxor by nia. rewrite crc_shift_double.
      apply IH; [by apply crc_shift_nonneg|done]. }
  by rewrite (Hit 8%nat).
Qed.

Lemma crc_table_lookup i : 0 ≤ i < 256 → arr_get crc32_table i = Some (crc_entry i).
Proof.
  intros Hi. unfold arr_get, crc32_table. destruct (Z.leb_spec 0 i); [|lia].
  rewrite list_lookup_fmap, lookup_seqZ_lt by lia. simpl. do 2 f_equal. lia.
Qed.

Lemma crc32_update_ref c b :
  w32 c → is_byte b → crc32_update c b = Nat.iter 8 crc_shift (Z.lxor c b).
Proof.
  intros Hc Hb. unfold crc32_update, is_byte in *.
  assert (w32 (Z.lxor c b)) as Hx by (apply w32_lxor; [done|unfold w32; lia]).
  change 0xFF with (Z.ones 8). rewrite Z.land_ones by lia. change (2 ^ 8) with 256.
  rewrite crc_table_lookup by (apply Z.mod_pos_bound; lia). simpl default.
  fold (crc_entry (Z.lxor c b)). rewrite (crc_entry_split (Z.lxor c b)) by done. f_equal.
  change 256 with (2 ^ 8). rewrite <-!Z.shiftr_div_pow2 by lia.
  rewrite Z.shiftr_lxor, (Z.shiftr_eq_0 b 8), Z.lxor_0_r; [done|lia|].
  destruct (decide (b = 0)) as [->|]; [done|]. apply Z.log2_lt_pow2; lia.
Qed.

Lemma crc_fold c buf :
  w32 c → bytes buf →
  foldl crc32_update c buf = foldl (λ c b, Nat.iter 8 crc_shift (Z.lxor c b)) c buf ∧
  w32 (foldl crc32_update c buf).
Proof.
  intros Hc Hb. revert c Hc. induction Hb as [|b buf Hb _ IH]; intros c Hc; [done|]. simpl.
  rewrite crc32_update_ref by done. apply IH. apply crc_entry_w32, w32_lxor; [done|].
  unfold w32, is_byte in *. lia.
Qed.

Lemma lxor_cancel_r a b k : Z.lxor a k = Z.lxor b k → a = b.
Proof.
  intros Heq. rewrite <-(Z.lxor_0_r a), <-(Z.lxor_0_r b), <-(Z.lxor_nilpotent k).
  by rewrite <-!Z.lxor_assoc, Heq.
Qed.

(** The register after a suffix determines the register before it. *)
Lemma crc_fold_inj c c' buf :
  w32 c → w32 c' → bytes buf → foldl crc32_update c buf = foldl crc32_update c' buf → c = c'.
Proof.
  intros Hc Hc' Hb. revert c c' Hc Hc'. induction Hb as [|b buf Hb _ IH]; intros c c' Hc Hc'; [done|].
  simpl. rewrite !crc32_update_ref by done. intros Heq.
  assert (w32 b) as Hw by (unfold w32, is_byte in *; lia).
  apply IH in Heq; [|by apply crc_entry_w32, w32_lxor..].
  apply crc_entry_inj in Heq; [|by apply w32_lxor..]. by eapply lxor_cancel_r.
Qed.

(** The table-driven CRC of the loader is the bit-serial CRC-32 of the
    reflected polynomial 0xEDB88320, and it detects every change that is
    confined to one byte of the payload. *)
Theorem crc32_correct (pre post : list Z) (a b : Z) :
  bytes pre → bytes post → is_byte a → is_byte b →
  crc32_calc (pre ++ [a] ++ post) = crc32_ref (pre ++ [a] ++ post) ∧
  (a ≠ b → crc32_calc (pre ++ [a] ++ post) ≠ crc32_calc (pre ++ [b] ++ post)).
Proof.
  intros Hpre Hpost Ha Hb. assert (w32 0xFFFFFFFF) as H0 by (unfold w32; lia).
  split.
  - unfold crc32_calc, crc32_ref. f_equal. apply crc_fold; [done|].
    apply bytes_app; [done|]. by constructor.
  - intros Hne Heq. unfold crc32_calc in Heq. apply lxor_cancel_r in Heq.
    rewrite !foldl_app in Heq. destruct (crc_fold 0xFFFFFFFF pre H0 Hpre) as [_ Hc].
    set (c := foldl crc32_update 0xFFFFFFFF pre) in *. simpl in Heq.
    rewrite !crc32_update_ref in Heq by done.
    assert (w32 a ∧ w32 b) as [Hwa Hwb] by (unfold w32, is_byte in *; lia).
    apply crc_fold_inj in Heq; [|by apply crc_entry_w32, w32_lxor..|done].
    apply crc_entry_inj in Heq; [|by apply w32_lxor..].
    rewrite !(Z.lxor_comm c) in Heq. by apply lxor_cancel_r in Heq.
Qed.

(** "123456789" *)
Lemma crc32_correct_witness :
  crc32_calc [49; 50; 51; 52; 53; 54; 55; 56; 57] = 0xCBF43926 ∧
  crc32_calc ([49; 50; 51] ++ [52] ++ [53; 54; 55; 56; 57]) ≠
  crc32_calc ([49; 50; 51] ++ [53] ++ [53; 54; 55; 56; 57]).
Proof.
  split; [vm_compute; reflexivity|].
  apply (crc32_correct [49; 50; 51] [53; 54; 55; 56; 57] 52 53).
  - apply bytesb_bytes. reflexivity.
  - apply bytesb_bytes. reflexivity.
  - unfold is_byte. lia.
  - unfold is_byte. lia.
  - discriminate.
Defined.
