(* ===== verification/ElfLoad.v ===== *)
(** * Program loader: what a load does

    The calls [elf_load_fry] makes, for every behaviour of the components it
    calls: which pages it maps, which bytes it copies where, and that it
    releases what it acquired on every path. *)

From S2P Require Import Prelude Codec Ring PageAlloc Vmm Elf.

(** ** Programs that append calls to the log *)

Definition emits {A} (m : M loader A) (P : A → list call → Prop) : Prop :=
  ∀ s, wp m (λ r s', ∃ l, ld_calls s' = ld_calls s ++ l ∧
    g_elf_last_error s' = g_elf_last_error s ∧ P r l) s.

Lemma emits_ret {A} (a : A) (P : A → list call → Prop) : P a [] → emits (mret a) P.
Proof. intros HP s. apply wp_ret. exists []. by rewrite app_nil_r. Qed.

Lemma emits_bind {A B} (m : M loader A) (f : A → M loader B) P Q :
  emits m P → (∀ a l1, P a l1 → emits (f a) (λ b l2, Q b (l1 ++ l2))) → emits (m ≫= f) Q.
Proof.
  intros Hm Hf s. apply wp_bind. eapply wp_mono; [apply Hm|].
  intros a s1 (l1 & E1 & G1 & HP). eapply wp_mono; [apply (Hf a l1 HP)|].
  intros b s2 (l2 & E2 & G2 & HQ). exists (l1 ++ l2).
  rewrite E2, E1, <-app_assoc. split; [done|]. split; [congruence|done].
Qed.

Lemma emits_mono {A} (m : M loader A) (P Q : A → list call → Prop) :
  emits m P → (∀ a l, P a l → Q a l) → emits m Q.
Proof.
  intros Hm HPQ s. eapply wp_mono; [apply Hm|]. intros a s' (l & ? & ? & ?). exists l. auto.
Qed.

Lemma emits_call env c (P : Z → list call → Prop) :
  (∀ r, P r [c]) → emits (do_call env c) P.
Proof. intros HP s. unfold wp, do_call. exists [c]. by split_and!. Qed.

Lemma emits_while {A R} fuel (body : A → M loader (A + R)) (I : A → list call → Prop)
    (V : A → Z) (Q : R → list call → Prop) a :
  I a [] → 0 ≤ V a < fuel →
  (∀ a l, I a l → emits (body a) (λ r l', match r with
     | inl a' => I a' (l ++ l') ∧ 0 ≤ V a' < V a
     | inr x => Q x (l ++ l')
     end)) →
  emits (while fuel body a) Q.
Proof.
  intros HI HV Hb s.
  apply (wp_while _ _ (λ a s', ∃ l, ld_calls s' = ld_calls s ++ l ∧
    g_elf_last_error s' = g_elf_last_error s ∧ I a l) (λ a _, V a)).
  - exists []. by rewrite app_nil_r.
  - done.
  - intros a1 s1 (l & E & G & HI1). eapply wp_mono; [apply (Hb a1 l HI1)|].
    intros [a'|x] s2 (l' & E2 & G2 & HQ).
    + destruct HQ as [HI2 HV2]. split; [|done]. exists (l ++ l').
      rewrite E2, E, <-app_assoc. split; [done|]. split; [congruence|done].
    + exists (l ++ l'). rewrite E2, E, <-app_assoc. split; [done|]. split; [congruence|done].
Qed.

Lemma emits_for {R} lo hi (body : Z → M loader (option R)) (I : Z → list call → Prop)
    (Q : option R → list call → Prop) :
  lo ≤ hi → I lo [] →
  (∀ i l, lo ≤ i < hi → I i l → emits (body i) (λ r l', match r with
     | Some x => Q (Some x) (l ++ l')
     | None => I (i + 1) (l ++ l')
     end)) →
  (∀ l, I hi l → Q None l) →
  emits (for_ lo hi body) Q.
Proof.
  intros Hle HI Hb Hend. unfold for_.
  apply (emits_while _ _ (λ i l, lo ≤ i ≤ hi ∧ I i l) (λ i, hi - i)); [by split; [lia|]|lia|].
  intros i l [Hi HIi]. destruct (Z.ltb_spec i hi).
  - eapply emits_bind; [apply Hb; [lia|done]|]. intros [x|] l1 H1; apply emits_ret;
      rewrite app_nil_r; [done|]. split; [split; [lia|done]|lia].
  - apply emits_ret. rewrite app_nil_r. apply Hend. by replace hi with i by lia.
Qed.

(** ** What a log shows *)

(** The pages mapped, in order: address space, address and flags. *)
Definition maps (l : list call) : list (Z * Z * Z) :=
  omap (λ c, match c with CMap p va _ flags => Some (p, va, flags) | _ => None end) l.

(** The bytes copied, each with the user address it is meant for: a copy goes
    to the address that was translated last. *)
Fixpoint copied (va : Z) (l : list call) : list (Z * Z) :=
  match l with
  | [] => []
  | CTranslate _ va' :: l => copied va' l
  | CCopy _ bs :: l => imap (λ i b, (va + Z.of_nat i, b)) bs ++ copied va l
  | _ :: l => copied va l
  end.

(** A call that only touches user pages of the address space [pml4]. *)
Definition safe_call (pml4 : Z) (c : call) : Prop :=
  match c with
  | CAllocPage | CZero _ | CCopy _ _ => True
  | CMap p va phys flags =>
      p = pml4 ∧ phys ≠ 0 ∧ 0 ≤ va ∧ va + 4096 ≤ USER_VA_TOP ∧ va mod 4096 = 0 ∧
      Z.land flags VMM_FLAG_USER = VMM_FLAG_USER
  | CTranslate p va => p = pml4 ∧ 0 ≤ va < USER_VA_TOP
  | _ => False
  end.

(** The pages that hold the addresses from [lo] up to [hi]. *)
Definition pages (lo hi : Z) : list Z :=
  (λ k, 4096 * k) <$> seqZ (lo / 4096) ((hi + 4095) / 4096 - lo / 4096).

Definition segment_maps (pml4 : Z) (ph : elf64_phdr) : list (Z * Z * Z) :=
  (λ va, (pml4, va, segment_flags ph)) <$> pages (p_vaddr ph) (p_vaddr ph + p_memsz ph).
Definition segment_bytes (payload : list Z) (ph : elf64_phdr) : list (Z * Z) :=
  imap (λ i b, (p_vaddr ph + Z.of_nat i, b))
    (slice payload (Z.to_nat (p_offset ph)) (Z.to_nat (p_filesz ph))).

Definition STACK_FLAGS : Z :=
  Z.lor (Z.lor VMM_FLAG_WRITE VMM_FLAG_USER) VMM_FLAG_NO_EXECUTE.
Definition stack_maps (pml4 : Z) : list (Z * Z * Z) :=
  (λ va, (pml4, va, STACK_FLAGS)) <$>
    pages (USER_STACK_TOP - USER_STACK_PAGES * 4096) USER_STACK_TOP.

(** The loadable segments of an image. *)
Definition load_headers (payload : list Z) : list elf64_phdr :=
  let eh := decode_ehdr payload in
  filter (λ ph, p_type ph = PT_LOAD)
    ((λ i, decode_phdr (slice payload (Z.to_nat (e_phoff eh + i * 56)) 56)) <$>
       seqZ 0 (e_phnum eh)).

Lemma maps_app l k : maps (l ++ k) = maps l ++ maps k.
Proof. apply omap_app. Qed.

(** A log in which every copy follows a translation: its bytes are the same
    whatever was translated before it. *)
Definition copies (l : list call) (bs : list (Z * Z)) : Prop := ∀ va, copied va l = bs.

Lemma copied_app l k va : ∃ va', copied va (l ++ k) = copied va l ++ copied va' k.
Proof.
  revert va. induction l as [|c l IH]; intros va; [by exists va|].
  destruct c; simpl; try apply IH. destruct (IH va) as [va' ->]. exists va'.
  by rewrite app_assoc.
Qed.

Lemma copies_app l k a b : copies l a → copies k b → copies (l ++ k) (a ++ b).
Proof. intros Ha Hb va. destruct (copied_app l k va) as [va' ->]. by rewrite Ha, Hb. Qed.

(** ** The parts of a load *)

Section load.
Context (env : list call → call → Z) (pml4 : Z).

(** [None] after mapping [ms] and copying [bs], or an error code; either way
    only user pages of the address space were touched. *)
Definition builds (ms : list (Z * Z * Z)) (bs : list (Z * Z)) (r : option Z) (l : list call)
    : Prop :=
  Forall (safe_call pml4) l ∧
  match r with None => maps l = ms ∧ copies l bs | Some e => e < 0 end.

Lemma builds_app m1 b1 m2 b2 l1 r l2 :
  builds m1 b1 None l1 → builds m2 b2 r l2 → builds (m1 ++ m2) (b1 ++ b2) r (l1 ++ l2).
Proof.
  intros [Hs1 [Hm1 Hc1]] [Hs2 H2]. split; [by apply Forall_app|]. destruct r; [done|].
  destruct H2 as [Hm2 Hc2]. rewrite maps_app, Hm1, Hm2. split; [done|]. by apply copies_app.
Qed.

Lemma builds_nil : builds [] [] None [].
Proof. by split_and!. Qed.

Lemma emits_map_page va flags err :
  0 ≤ va → va + 4096 ≤ USER_VA_TOP → va mod 4096 = 0 →
  Z.land flags VMM_FLAG_USER = VMM_FLAG_USER → err < 0 →
  emits (map_page env pml4 va flags err) (builds [(pml4, va, flags)] []).
Proof.
  intros Hva Htop Hal Hu Herr. unfold map_page.
  eapply (emits_bind _ _ (λ _ l, l = [CAllocPage])); [by apply emits_call|]. intros phys l ->.
  destruct (Z.eqb_spec phys 0) as [|Hp].
  { apply emits_ret. split; [by repeat constructor|done]. }
  eapply (emits_bind _ _ (λ _ l, l = [CMap pml4 va phys flags])); [by apply emits_call|]. intros ? l ->.
  eapply (emits_bind _ _ (λ _ l, l = [CZero phys])); [by apply emits_call|]. intros ? l ->.
  apply emits_ret. simpl. split; [|done]. repeat constructor; try done; lia.
Qed.

Lemma segment_flags_user ph : Z.land (segment_flags ph) VMM_FLAG_USER = VMM_FLAG_USER.
Proof. unfold segment_flags. repeat case_match; reflexivity. Qed.

Lemma emits_map_pages a b flags :
  0 ≤ a ≤ b → b * 4096 ≤ USER_VA_TOP → Z.land flags VMM_FLAG_USER = VMM_FLAG_USER →
  emits (map_pages env pml4 (a * 4096) (b * 4096) flags)
    (builds ((λ k, (pml4, 4096 * k, flags)) <$> seqZ a (b - a)) []).
Proof.
  intros Hab Hb Hu. unfold map_pages, USER_VA_TOP in *.
  apply (emits_while _ _
    (λ va l, ∃ k, va = k * 4096 ∧ a ≤ k ≤ b ∧
       builds ((λ k, (pml4, 4096 * k, flags)) <$> seqZ a (k - a)) [] None l)
    (λ va, b * 4096 - va)).
  - exists a. rewrite Z.sub_diag. split; [done|]. split; [lia|]. apply builds_nil.
  - lia.
  - intros va l (k & -> & Hk & Hl). destruct (Z.ltb_spec (k * 4096) (b * 4096)).
    + eapply emits_bind; [apply emits_map_page; [lia|unfold USER_VA_TOP; lia|by rewrite Z.mod_mul|done|done]|].
      intros r l1 H1. apply emits_ret. rewrite app_nil_r.
      assert (builds ((λ k, (pml4, 4096 * k, flags)) <$> seqZ a (k + 1 - a)) [] r (l ++ l1)) as Hnew.
      { replace (k + 1 - a) with ((k - a) + 1) by lia. rewrite seqZ_app by lia.
        rewrite fmap_app. replace (a + (k - a)) with k by lia.
        rewrite (seqZ_cons k 1), (seqZ_nil _ (Z.pred 1)) by lia. apply (builds_app _ [] _ []); [done|].
        cbn. by rewrite (Z.mul_comm 4096 k). }
      destruct r as [e|].
      { destruct Hnew as [? ?]. by split. }
      rewrite u64_small by lia. split; [|lia]. exists (k + 1). split; [lia|]. by split; [lia|].
    + apply emits_ret. rewrite app_nil_r. by replace b with k by lia.
Qed.

Lemma emits_copy_segment vaddr src :
  0 ≤ vaddr → vaddr + Z.of_nat (length src) ≤ USER_VA_TOP →
  emits (copy_segment env pml4 vaddr src)
    (builds [] (imap (λ i b, (vaddr + Z.of_nat i, b)) src)).
Proof.
  intros Hv Hend. unfold copy_segment, USER_VA_TOP in *.
  apply (emits_while _ _
    (λ '(va, rest) l, ∃ n, va = vaddr + Z.of_nat n ∧ (n ≤ length src)%nat ∧ rest = drop n src ∧
       builds [] (imap (λ i b, (vaddr + Z.of_nat i, b)) (take n src)) None l)
    (λ '(va, rest), Z.of_nat (length rest))).
  - exists 0%nat. rewrite take_0. split; [lia|]. split; [lia|]. split; [done|]. apply builds_nil.
  - lia.
  - intros [va rest] l (n & -> & Hn & -> & Hl).
    destruct (drop n src) as [|b rest] eqn:Ed.
    { apply emits_ret. rewrite app_nil_r. assert (length src ≤ n)%nat.
      { apply (f_equal length) in Ed. rewrite length_drop in Ed. simpl in Ed. lia. }
      by rewrite take_ge in Hl. }
    rewrite <-Ed. set (va := vaddr + Z.of_nat n) in *.
    assert (n < length src)%nat as Hlt.
    { apply (f_equal length) in Ed. rewrite length_drop in Ed. simpl in Ed. lia. }
    eapply (emits_bind _ _ (λ _ l, l = [CTranslate pml4 va])); [by apply emits_call|]. intros phys l1 ->.
    assert (safe_call pml4 (CTranslate pml4 va)) as Hst.
    { simpl. unfold USER_VA_TOP. split; [done|]. unfold va. lia. }
    destruct (Z.eqb_spec phys 0).
    { apply emits_ret. split; [|done]. rewrite !app_nil_r. apply Forall_app. split; [apply Hl|].
      by apply Forall_singleton. }
    rewrite length_drop.
    set (c := if Z.of_nat (length src - n) <? 4096 - Z.land va 0xFFF
              then Z.of_nat (length src - n) else 4096 - Z.land va 0xFFF).
    assert (0 < c ≤ Z.of_nat (length src - n)) as Hc.
    { unfold c. change 0xFFF with (Z.ones 12). rewrite Z.land_ones by lia.
      pose proof (Z.mod_pos_bound va (2 ^ 12)). bool_cases; lia. }
    eapply (emits_bind _ _ (λ _ l, ∃ d, l = [CCopy d (take (Z.to_nat c) (drop n src))]));
      [apply emits_call; by eauto|]. intros ? l2 [d ->].
    apply emits_ret. rewrite !app_nil_r. split.
    + exists (n + Z.to_nat c)%nat. split; [rewrite u64_small; unfold va; lia|].
      split; [lia|]. split; [by rewrite drop_drop|].
      rewrite <-(take_take_drop src n (Z.to_nat c)), imap_app.
      apply (builds_app [] _ []); [done|]. split; [by apply Forall_cons; split; [|apply Forall_singleton]|]. split; [done|].
      intros va'. simpl. rewrite app_nil_r. apply imap_ext. intros i x Hi. simpl.
      unfold va. f_equal. rewrite length_take. lia.
    + rewrite !length_drop. lia.
Qed.

Lemma segment_ok_bounds ph size :
  segment_ok ph size = true →
  p_vaddr ph + p_memsz ph ≤ USER_VA_TOP ∧ p_filesz ph ≤ p_memsz ph ∧
  p_offset ph + p_filesz ph ≤ size.
Proof.
  unfold segment_ok. intros Hok.
  repeat (apply andb_true_iff in Hok as [Hok ?]). b2p.
  repeat match goal with H : _ || _ = false |- _ => apply orb_false_iff in H as [? ?] end.
  b2p. lia.
Qed.

Definition phdr_nonneg (ph : elf64_phdr) : Prop :=
  0 ≤ p_vaddr ph ∧ 0 ≤ p_memsz ph ∧ 0 ≤ p_filesz ph ∧ 0 ≤ p_offset ph.

Lemma emits_load_segment payload ph :
  phdr_nonneg ph → p_type ph = PT_LOAD →
  emits (load_segment env pml4 payload (Z.of_nat (length payload)) ph)
    (builds (segment_maps pml4 ph) (segment_bytes payload ph)).
Proof.
  intros (Hv & Hm & Hf & Ho) Ht. unfold load_segment. rewrite Ht. simpl negb. cbv iota.
  destruct (segment_ok _ _) eqn:Hok; simpl negb; cbv iota; [|by apply emits_ret].
  apply segment_ok_bounds in Hok as (Htop & Hfm & Hfo).
  assert (USER_VA_TOP = 2 ^ 47) as EU by done.
  rewrite (u64_small (p_vaddr ph + p_memsz ph)), (u64_small (_ + 0xFFF)) by lia.
  change 0xFFF with (2 ^ 12 - 1). rewrite !land_clear_low by lia.
  change (2 ^ 12) with 4096. change (4096 - 1) with 4095.
  set (a := p_vaddr ph / 4096). set (b := (p_vaddr ph + p_memsz ph + 4095) / 4096).
  assert (0 ≤ a ≤ b ∧ b * 4096 ≤ USER_VA_TOP) as (Hab & Hb).
  { unfold a, b. rewrite EU in *. Z.to_euclidean_division_equations; lia. }
  eapply emits_bind; [apply emits_map_pages; [done|done|apply segment_flags_user]|].
  intros [e|] l H1; [by apply emits_ret; rewrite app_nil_r|].
  unfold segment_maps, pages. rewrite <-list_fmap_compose. fold a b.
  rewrite <-(app_nil_r (_ <$> seqZ _ _)), <-(app_nil_l (segment_bytes _ _)).
  destruct (Z.ltb_spec 0 (p_filesz ph)).
  - eapply emits_mono; [apply emits_copy_segment; [done|]|].
    { unfold slice. rewrite length_take, length_drop. lia. }
    intros r l2 H2. by apply builds_app.
  - apply emits_ret. apply builds_app; [done|]. unfold segment_bytes.
    replace (Z.to_nat (p_filesz ph)) with 0%nat by lia. apply builds_nil.
Qed.

Lemma le_val_nonneg l : bytes l → 0 ≤ le_val l.
Proof. intros Hb. by apply le_val_range. Qed.

Lemma decode_fields_nonneg ws l : bytes l → Forall (λ v, 0 ≤ v) (decode_fields ws l).
Proof.
  revert l. induction ws as [|w ws IH]; intros l Hb; simpl; constructor.
  - by apply le_val_nonneg, bytes_take.
  - by apply IH, bytes_drop.
Qed.

Lemma decode_phdr_nonneg l : bytes l → phdr_nonneg (decode_phdr l).
Proof.
  intros Hb. unfold decode_phdr.
  pose proof (decode_fields_nonneg [4; 4; 8; 8; 8; 8; 8; 8]%nat l Hb) as Hn.
  repeat (case_match; try done). unfold phdr_nonneg. simpl. by decompose_Forall.
Qed.

Lemma decode_ehdr_nonneg l : bytes l → 0 ≤ e_entry (decode_ehdr l) ∧ 0 ≤ e_phnum (decode_ehdr l).
Proof.
  intros Hb. unfold decode_ehdr.
  pose proof (decode_fields_nonneg [2; 2; 4; 8; 8; 8; 4; 2; 2; 2; 2; 2; 2]%nat (drop 16 l)
    (bytes_drop _ _ Hb)) as Hn.
  repeat (case_match; try done). simpl. by decompose_Forall.
Qed.

(** The maps and bytes of a list of program headers. *)
Definition image_maps (phs : list elf64_phdr) : list (Z * Z * Z) :=
  concat (segment_maps pml4 <$> phs).
Definition image_bytes (payload : list Z) (phs : list elf64_phdr) : list (Z * Z) :=
  concat (segment_bytes payload <$> phs).

Lemma emits_load_segments payload :
  bytes payload →
  emits (load_segments env pml4 payload (decode_ehdr payload))
    (builds (image_maps (load_headers payload)) (image_bytes payload (load_headers payload))).
Proof.
  intros Hb. pose proof (decode_ehdr_nonneg _ Hb) as [_ Hn]. unfold load_segments, load_headers.
  set (eh := decode_ehdr payload) in *.
  set (hdr i := decode_phdr (slice payload (Z.to_nat (e_phoff eh + i * 56)) 56)).
  apply (emits_for _ _ _ (λ i l,
    let phs := filter (λ ph, p_type ph = PT_LOAD) (hdr <$> seqZ 0 i) in
    builds (image_maps phs) (image_bytes payload phs) None l)).
  - done.
  - apply builds_nil.
  - intros i l Hi. cbv zeta. intros Hl.
    change (decode_phdr (slice payload (Z.to_nat (e_phoff eh + i * 56)) 56)) with (hdr i).
    assert (phdr_nonneg (hdr i)) as Hnn by (apply decode_phdr_nonneg, bytes_take, bytes_drop, Hb).
    rewrite seqZ_app by lia. rewrite fmap_app, filter_app.
    change (0 + i) with i. rewrite (seqZ_cons i 1), (seqZ_nil _ (Z.pred 1)) by lia.
    rewrite fmap_cons, fmap_nil.
    unfold image_maps, image_bytes in *. rewrite !fmap_app, !concat_app.
    destruct (decide (p_type (hdr i) = PT_LOAD)) as [Ht|Ht].
    + rewrite filter_cons_True, filter_nil by done.
      rewrite !fmap_cons, !fmap_nil. cbn [concat]. rewrite !app_nil_r.
      eapply emits_mono; [by apply emits_load_segment|].
      intros [e|] l2 H2; [|by apply builds_app].
      split; [apply Forall_app; split; [apply Hl|apply H2]|apply H2].
    + rewrite filter_cons_False, filter_nil by done. unfold load_segment.
      destruct (Z.eqb_spec (p_type (hdr i)) PT_LOAD); [done|]. simpl negb. cbv iota.
      apply emits_ret. cbn [fmap list_fmap concat]. by rewrite !app_nil_r.
  - done.
Qed.

Lemma emits_map_stack : emits (map_stack env pml4) (builds (stack_maps pml4) []).
Proof.
  unfold map_stack, stack_maps. fold STACK_FLAGS.
  set (lo := (USER_STACK_TOP - USER_STACK_PAGES * 4096) / 4096).
  apply (emits_for _ _ _ (λ i l,
    builds ((λ va, (pml4, va, STACK_FLAGS)) <$> ((λ k, 4096 * k) <$> seqZ lo i)) [] None l)).
  - done.
  - apply builds_nil.
  - intros i l Hi Hl. unfold USER_STACK_PAGES in Hi.
    assert (USER_STACK_TOP - USER_STACK_PAGES * 4096 + i * 4096 = 4096 * (lo + i)) as ->.
    { change (USER_STACK_TOP - USER_STACK_PAGES * 4096) with (4096 * lo). lia. }
    assert (lo = 34359734272) as Elo by reflexivity.
    rewrite u64_small by lia.
    eapply emits_mono; [apply emits_map_page; [lia|unfold USER_VA_TOP; lia| |reflexivity|done]|].
    { by rewrite Z.mul_comm, Z.mod_mul. }
    intros [e|] l2 H2.
    { split; [apply Forall_app; split; [apply Hl|apply H2]|apply H2]. }
    rewrite seqZ_app, !fmap_app, (seqZ_cons (lo + i) 1), (seqZ_nil _ (Z.pred 1)) by lia.
    by apply (builds_app _ [] _ []).
  - done.
Qed.

Lemma emits_build_space payload :
  bytes payload →
  emits (build_space env pml4 payload)
    (λ r l, builds (image_maps (load_headers payload) ++ stack_maps pml4)
       (image_bytes payload (load_headers payload)) r l ∧
       (r = None → 0 ≤ e_entry (decode_ehdr payload) < USER_VA_TOP)).
Proof.
  intros Hb. unfold build_space.
  assert (∀ e, check_table (decode_ehdr payload) (Z.of_nat (length payload)) = Some e → e < 0) as He.
  { unfold check_table. intros e. repeat case_match; intros [= <-]; done. }
  destruct (check_table _ _) as [e|]; [by apply emits_ret; split; [split; [constructor|auto]|]|].
  eapply emits_bind; [by apply emits_load_segments|].
  intros [e|] l H1; [by apply emits_ret; rewrite app_nil_r; split|].
  destruct (Z.leb_spec USER_VA_TOP (e_entry (decode_ehdr payload))).
  { apply emits_ret. rewrite app_nil_r. split; [|done]. split; [apply H1|done]. }
  eapply emits_mono; [apply emits_map_stack|]. intros r l2 H2. split.
  - rewrite <-(app_nil_r (image_bytes _ _)). by apply builds_app.
  - intros _. split; [by apply decode_ehdr_nonneg|done].
Qed.
End load.

(** ** A whole load *)

Lemma wp_call env c (Q : Z → loader → Prop) s :
  Q (env (ld_calls s) c) (Loader (ld_calls s ++ [c]) (g_elf_last_error s)) →
  wp (do_call env c) Q s.
Proof. done. Qed.

Lemma wp_elf_fail {A} code (Q : Z + A → loader → Prop) s :
  Q (inl code) (Loader (ld_calls s) code) → wp (elf_fail code) Q s.
Proof. done. Qed.

Section whole.
Context (env : list call → call → Z) (path : list Z) (f : vfs_file) (before : list call).

(** The buffer: its size in pages and the address the allocator returns. *)
Definition tmp_pages : Z := (vf_size f + 4095) / 4096.
Definition tmp_phys : Z := env (before ++ [COpen path]) (CAllocTmp tmp_pages).
(** The calls up to the last one before the address space is created, and the
    address space. *)
Definition reading : list call := [COpen path; CAllocTmp tmp_pages; CRead (vf_size f); CClose].
Definition space : Z := env (before ++ reading) CCreate.

(** A failed load has closed the file, freed the buffer if there was one, and
    destroyed the address space if there was one. *)
Definition released (log : list call) : Prop :=
  log = [COpen path; CClose] ∨
  (tmp_phys = 0 ∧ log = [COpen path; CAllocTmp tmp_pages; CClose]) ∨
  (tmp_phys ≠ 0 ∧ ∃ mid, log = reading ++ mid ++ [CFreeTmp tmp_phys tmp_pages] ∧
    (mid = [] ∨ (space = 0 ∧ mid = [CCreate]) ∨
     (space ≠ 0 ∧ ∃ body, mid = [CCreate] ++ body ++ [CDestroy space] ∧
        Forall (safe_call space) body))).

(** A successful load made the address space that the image describes. *)
Definition loaded (cr3 entry rsp : Z) (log : list call) : Prop :=
  ∃ payload body, check_container path (vf_buf f) (vf_size f) = inr payload ∧
    tmp_phys ≠ 0 ∧ cr3 = space ∧ cr3 ≠ 0 ∧
    log = reading ++ [CCreate] ++ body ++ [CFreeTmp tmp_phys tmp_pages] ∧
    Forall (safe_call cr3) body ∧
    maps body = image_maps cr3 (load_headers payload) ++ stack_maps cr3 ∧
    copies body (image_bytes payload (load_headers payload)) ∧
    entry = e_entry (decode_ehdr payload) ∧ 0 ≤ entry < USER_VA_TOP ∧ rsp = USER_VA_TOP - 8.

Lemma check_container_bytes payload :
  bytes (vf_buf f) → check_container path (vf_buf f) (vf_size f) = inr payload → bytes payload.
Proof.
  intros Hb. unfold check_container. repeat case_match; try done. intros [= <-].
  by apply bytes_take, bytes_drop.
Qed.

Lemma check_container_neg e :
  check_container path (vf_buf f) (vf_size f) = inl e → e < 0.
Proof. unfold check_container. intros He. repeat case_match; simplify_eq; done. Qed.

Lemma wp_temp_free (Q : unit → loader → Prop) s :
  tmp_phys ≠ 0 → 16 ≤ vf_size f →
  Q tt (Loader (ld_calls s ++ [CFreeTmp tmp_phys tmp_pages]) (g_elf_last_error s)) →
  wp (temp_free_pages env tmp_phys tmp_pages) Q s.
Proof.
  intros Ht Hs HQ. unfold temp_free_pages.
  assert (tmp_pages ≠ 0) by (unfold tmp_pages; Z.to_euclidean_division_equations; lia).
  by destruct (Z.eqb_spec tmp_phys 0), (Z.eqb_spec tmp_pages 0).
Qed.

Lemma wp_build_and_finish payload err :
  bytes (vf_buf f) → check_container path (vf_buf f) (vf_size f) = inr payload →
  tmp_phys ≠ 0 → space ≠ 0 → 16 ≤ vf_size f →
  wp (r ← build_space env space payload;
      match r with
      | Some e =>
          do_call env (CDestroy space);;
          temp_free_pages env tmp_phys tmp_pages;;
          elf_fail e
      | None =>
          temp_free_pages env tmp_phys tmp_pages;;
          modify (λ s, Loader (ld_calls s) ELF_LOAD_OK);;
          mret (inr (space, e_entry (decode_ehdr payload), USER_STACK_TOP - 8))
      end)
    (λ r s', ∃ log, ld_calls s' = before ++ log ∧ match r with
      | inl e => e < 0 ∧ g_elf_last_error s' = e ∧ released log
      | inr (cr3, entry, rsp) => g_elf_last_error s' = ELF_LOAD_OK ∧ loaded cr3 entry rsp log
      end)
    (Loader (before ++ reading ++ [CCreate]) err).
Proof.
  intros Hb Hc Ht Hsp Hsz. apply wp_bind.
  eapply wp_mono; [apply emits_build_space; by eapply check_container_bytes|].
  intros r s' (body & El & Eg & [Hsafe Hr] & Hentry). cbn [ld_calls] in El.
  destruct r as [e|].
  - apply wp_bind, wp_call, wp_bind, wp_temp_free; [done..|]. apply wp_elf_fail.
    eexists. cbn [ld_calls]. rewrite El, <-!app_assoc. split; [reflexivity|].
    split; [done|]. split; [done|]. right. right. split; [done|].
    exists ([CCreate] ++ body ++ [CDestroy space]). split; [by rewrite <-!app_assoc|]. right. right. split; [done|].
    by exists body.
  - destruct Hr as [Hm Hcp]. apply wp_bind, wp_temp_free; [done..|]. wp_steps.
    eexists. cbn [ld_calls]. rewrite El, <-!app_assoc. split; [reflexivity|]. split; [done|].
    exists payload, body. by split_and!; try done; apply Hentry.
Qed.
End whole.


(** ** A container that loads *)

(** One executable segment of four bytes at 0x400000, two pages long. *)
Definition demo_payload : list Z :=
  [0x7F; 69; 76; 70] ++ replicate 12 0 ++
  encode_fields [2; 2; 4; 8; 8; 8; 4; 2; 2; 2; 2; 2; 2]%nat
    [2; 62; 1; 0x400000; 64; 0; 0; 64; 56; 1; 0; 0; 0] ++
  encode_fields [4; 4; 8; 8; 8; 8; 8; 8]%nat [1; 5; 120; 0x400000; 0; 4; 0x1800; 0x1000] ++
  [0x90; 0x90; 0xEB; 0xFE].
Definition demo_container : list Z :=
  encode_fields [4; 2; 2; 4; 4]%nat [FRY_MAGIC; 1; 0; crc32_calc demo_payload; 124] ++ demo_payload.
Definition demo_fry : vfs_file := VfsFile 140 140 demo_container.
(** Components that always succeed. *)
Definition demo_env (_ : list call) (c : call) : Z :=
  match c with CTranslate _ va => 0x300000 + va mod 4096 | CCreate => 0x200000 | _ => 0x100000 end.

Lemma demo_load_result :
  fst <$> elf_load_fry demo_env (Some [47; 65]) (Some demo_fry) (Loader [] 0) =
  Some (inr (0x200000, 0x400000, USER_VA_TOP - 8)).
Proof. vm_compute. reflexivity. Qed.


(** The walk of the loader is the one of the virtual memory manager. *)
Section walk_eq.
Context {P : Type} `{!PageAllocator P} (ks : kernel_syms).

Lemma bind_rd {A} t i (f g : Z → M (vmm P) A) s :
  (∀ e, f e s = g e s) → (rd_entry ks t i ≫= f) s = (rd_entry ks t i ≫= g) s.
Proof.
  intros Hfg. unfold mbind, M_bind, rd_entry, lift_opt. by destruct (ptr_phys ks s t ≫= _).
Qed.

Lemma bind_gets {A B} (h : vmm P → A) (f : A → M (vmm P) B) s : (gets h ≫= f) s = f (h s) s.
Proof. done. Qed.

Lemma pml4_virt_to_phys_user (s : vmm P) r virt :
  vmm_ready s = true → r ≠ 0 → virt < USER_VA_TOP →
  pml4_virt_to_phys ks r virt s = vmm_virt_to_phys_user ks r virt s.
Proof.
  intros Hr Hne Hv. unfold pml4_virt_to_phys, vmm_virt_to_phys_user, walk_to_phys.
  destruct (Z.eqb_spec r 0); [done|]. destruct (Z.leb_spec USER_VA_TOP virt); [lia|].
  assert (∀ p, phys_to_virt s p = vmm_phys_to_virt p) as Hp
    by (intros p; unfold phys_to_virt; by rewrite Hr).
  rewrite bind_gets, Hp. apply bind_rd. intros e4. destruct (negb _); [done|].
  rewrite bind_gets, Hp. apply bind_rd. intros e3. destruct (negb _); [done|].
  destruct (has e3 _); [done|].
  rewrite bind_gets, Hp. apply bind_rd. intros e2. destruct (negb _); [done|].
  destruct (has e2 _); [done|].
  rewrite bind_gets, Hp. by apply bind_rd.
Qed.
End walk_eq.

(** The walk already adds the offset inside the page and the copy adds it
    again: bytes meant for 0x400010 go to offset 0x20 of the page. *)
Theorem elf_copy_offset_twice :
  copy_segment demo_env 1 0x400010 [1; 2; 3] (Loader [] 0) =
  Some (None, Loader [CTranslate 1 0x400010;
                      CCopy (vmm_phys_to_virt 0x300000 + 0x20) [1; 2; 3]] 0).
Proof. reflexivity. Qed.
