(* ===== verification/Aes.v ===== *)
(** * AES-128

    Translation of the block cipher of [src/src/drivers/net/iwl_crypto.c].  A
    fixed C array is the list of its bytes; the in-place transformations of
    the 16-byte state are functions on such lists.  The S-boxes and the field
    multiplications are checked against their definition in GF(2^8), and
    decryption is shown to undo encryption. *)

From S2P Require Import Prelude Codec.

Definition aes_sbox : list Z :=
  [0x63; 0x7C; 0x77; 0x7B; 0xF2; 0x6B; 0x6F; 0xC5; 0x30; 0x01; 0x67; 0x2B; 0xFE; 0xD7; 0xAB; 0x76;
   0xCA; 0x82; 0xC9; 0x7D; 0xFA; 0x59; 0x47; 0xF0; 0xAD; 0xD4; 0xA2; 0xAF; 0x9C; 0xA4; 0x72; 0xC0;
   0xB7; 0xFD; 0x93; 0x26; 0x36; 0x3F; 0xF7; 0xCC; 0x34; 0xA5; 0xE5; 0xF1; 0x71; 0xD8; 0x31; 0x15;
   0x04; 0xC7; 0x23; 0xC3; 0x18; 0x96; 0x05; 0x9A; 0x07; 0x12; 0x80; 0xE2; 0xEB; 0x27; 0xB2; 0x75;
   0x09; 0x83; 0x2C; 0x1A; 0x1B; 0x6E; 0x5A; 0xA0; 0x52; 0x3B; 0xD6; 0xB3; 0x29; 0xE3; 0x2F; 0x84;
   0x53; 0xD1; 0x00; 0xED; 0x20; 0xFC; 0xB1; 0x5B; 0x6A; 0xCB; 0xBE; 0x39; 0x4A; 0x4C; 0x58; 0xCF;
   0xD0; 0xEF; 0xAA; 0xFB; 0x43; 0x4D; 0x33; 0x85; 0x45; 0xF9; 0x02; 0x7F; 0x50; 0x3C; 0x9F; 0xA8;
   0x51; 0xA3; 0x40; 0x8F; 0x92; 0x9D; 0x38; 0xF5; 0xBC; 0xB6; 0xDA; 0x21; 0x10; 0xFF; 0xF3; 0xD2;
   0xCD; 0x0C; 0x13; 0xEC; 0x5F; 0x97; 0x44; 0x17; 0xC4; 0xA7; 0x7E; 0x3D; 0x64; 0x5D; 0x19; 0x73;
   0x60; 0x81; 0x4F; 0xDC; 0x22; 0x2A; 0x90; 0x88; 0x46; 0xEE; 0xB8; 0x14; 0xDE; 0x5E; 0x0B; 0xDB;
   0xE0; 0x32; 0x3A; 0x0A; 0x49; 0x06; 0x24; 0x5C; 0xC2; 0xD3; 0xAC; 0x62; 0x91; 0x95; 0xE4; 0x79;
   0xE7; 0xC8; 0x37; 0x6D; 0x8D; 0xD5; 0x4E; 0xA9; 0x6C; 0x56; 0xF4; 0xEA; 0x65; 0x7A; 0xAE; 0x08;
   0xBA; 0x78; 0x25; 0x2E; 0x1C; 0xA6; 0xB4; 0xC6; 0xE8; 0xDD; 0x74; 0x1F; 0x4B; 0xBD; 0x8B; 0x8A;
   0x70; 0x3E; 0xB5; 0x66; 0x48; 0x03; 0xF6; 0x0E; 0x61; 0x35; 0x57; 0xB9; 0x86; 0xC1; 0x1D; 0x9E;
   0xE1; 0xF8; 0x98; 0x11; 0x69; 0xD9; 0x8E; 0x94; 0x9B; 0x1E; 0x87; 0xE9; 0xCE; 0x55; 0x28; 0xDF;
   0x8C; 0xA1; 0x89; 0x0D; 0xBF; 0xE6; 0x42; 0x68; 0x41; 0x99; 0x2D; 0x0F; 0xB0; 0x54; 0xBB; 0x16].
Definition aes_inv_sbox : list Z :=
  [0x52; 0x09; 0x6A; 0xD5; 0x30; 0x36; 0xA5; 0x38; 0xBF; 0x40; 0xA3; 0x9E; 0x81; 0xF3; 0xD7; 0xFB;
   0x7C; 0xE3; 0x39; 0x82; 0x9B; 0x2F; 0xFF; 0x87; 0x34; 0x8E; 0x43; 0x44; 0xC4; 0xDE; 0xE9; 0xCB;
   0x54; 0x7B; 0x94; 0x32; 0xA6; 0xC2; 0x23; 0x3D; 0xEE; 0x4C; 0x95; 0x0B; 0x42; 0xFA; 0xC3; 0x4E;
   0x08; 0x2E; 0xA1; 0x66; 0x28; 0xD9; 0x24; 0xB2; 0x76; 0x5B; 0xA2; 0x49; 0x6D; 0x8B; 0xD1; 0x25;
   0x72; 0xF8; 0xF6; 0x64; 0x86; 0x68; 0x98; 0x16; 0xD4; 0xA4; 0x5C; 0xCC; 0x5D; 0x65; 0xB6; 0x92;
   0x6C; 0x70; 0x48; 0x50; 0xFD; 0xED; 0xB9; 0xDA; 0x5E; 0x15; 0x46; 0x57; 0xA7; 0x8D; 0x9D; 0x84;
   0x90; 0xD8; 0xAB; 0x00; 0x8C; 0xBC; 0xD3; 0x0A; 0xF7; 0xE4; 0x58; 0x05; 0xB8; 0xB3; 0x45; 0x06;
   0xD0; 0x2C; 0x1E; 0x8F; 0xCA; 0x3F; 0x0F; 0x02; 0xC1; 0xAF; 0xBD; 0x03; 0x01; 0x13; 0x8A; 0x6B;
   0x3A; 0x91; 0x11; 0x41; 0x4F; 0x67; 0xDC; 0xEA; 0x97; 0xF2; 0xCF; 0xCE; 0xF0; 0xB4; 0xE6; 0x73;
   0x96; 0xAC; 0x74; 0x22; 0xE7; 0xAD; 0x35; 0x85; 0xE2; 0xF9; 0x37; 0xE8; 0x1C; 0x75; 0xDF; 0x6E;
   0x47; 0xF1; 0x1A; 0x71; 0x1D; 0x29; 0xC5; 0x89; 0x6F; 0xB7; 0x62; 0x0E; 0xAA; 0x18; 0xBE; 0x1B;
   0xFC; 0x56; 0x3E; 0x4B; 0xC6; 0xD2; 0x79; 0x20; 0x9A; 0xDB; 0xC0; 0xFE; 0x78; 0xCD; 0x5A; 0xF4;
   0x1F; 0xDD; 0xA8; 0x33; 0x88; 0x07; 0xC7; 0x31; 0xB1; 0x12; 0x10; 0x59; 0x27; 0x80; 0xEC; 0x5F;
   0x60; 0x51; 0x7F; 0xA9; 0x19; 0xB5; 0x4A; 0x0D; 0x2D; 0xE5; 0x7A; 0x9F; 0x93; 0xC9; 0x9C; 0xEF;
   0xA0; 0xE0; 0x3B; 0x4D; 0xAE; 0x2A; 0xF5; 0xB0; 0xC8; 0xEB; 0xBB; 0x3C; 0x83; 0x53; 0x99; 0x61;
   0x17; 0x2B; 0x04; 0x7E; 0xBA; 0x77; 0xD6; 0x26; 0xE1; 0x69; 0x14; 0x63; 0x55; 0x21; 0x0C; 0x7D].
Definition aes_rcon : list Z := [0x01; 0x02; 0x04; 0x08; 0x10; 0x20; 0x40; 0x80; 0x1B; 0x36].

(** ** Field multiplications *)

Definition gf_mul2 (x : Z) : Z := u8 (Z.lxor (Z.shiftl x 1) (Z.shiftr x 7 * 0x1B)).
Definition gf_mul3 (x : Z) : Z := Z.lxor (gf_mul2 x) x.
Definition gf_mul9 (x : Z) : Z := Z.lxor (gf_mul2 (gf_mul2 (gf_mul2 x))) x.
Definition gf_mul11 (x : Z) : Z := Z.lxor (gf_mul2 (Z.lxor (gf_mul2 (gf_mul2 x)) x)) x.
Definition gf_mul13 (x : Z) : Z := Z.lxor (gf_mul2 (gf_mul2 (Z.lxor (gf_mul2 x) x))) x.
Definition gf_mul14 (x : Z) : Z := gf_mul2 (Z.lxor (gf_mul2 (Z.lxor (gf_mul2 x) x)) x).

(** ** The cipher *)

(** [a[i]] of an array that has the index. *)
Definition at_ (a : list Z) (i : nat) : Z := default 0 (a !! i).

Definition sub_byte (box : list Z) (b : Z) : Z := at_ box (Z.to_nat b).

(** One round of the key schedule: the next 16 bytes from the previous ones. *)
Definition expand_round (prev : list Z) (rcon : Z) : list Z :=
  let first :=
    [Z.lxor (Z.lxor (at_ prev 0) (sub_byte aes_sbox (at_ prev 13))) rcon;
     Z.lxor (at_ prev 1) (sub_byte aes_sbox (at_ prev 14));
     Z.lxor (at_ prev 2) (sub_byte aes_sbox (at_ prev 15));
     Z.lxor (at_ prev 3) (sub_byte aes_sbox (at_ prev 12))] in
  foldl (λ next j, next ++ [Z.lxor (at_ prev j) (at_ next (j - 4))]) first (seq 4 12).

(** The round keys: [ctx->round_keys], in rows of 16. *)
Definition aes128_init (key : list Z) : list (list Z) :=
  foldl (λ rks i, rks ++ [expand_round (default [] (rks !! i)) (at_ aes_rcon i)]) [key] (seq 0 10).

Definition add_round_key (rk s : list Z) : list Z := zip_with Z.lxor s rk.
Definition sub_bytes (box s : list Z) : list Z := sub_byte box <$> s.

(** [t = s[a]; s[a] = s[b]; s[b] = s[c]; s[c] = s[d]; s[d] = t] *)
Definition rotate (a b c d : nat) (s : list Z) : list Z :=
  let t := at_ s a in
  let s := <[a := at_ s b]> s in
  let s := <[b := at_ s c]> s in
  let s := <[c := at_ s d]> s in
  <[d := t]> s.
Definition swap (a b : nat) (s : list Z) : list Z :=
  let t := at_ s a in
  let s := <[a := at_ s b]> s in
  <[b := t]> s.

Definition shift_rows (s : list Z) : list Z :=
  rotate 15 11 7 3 (swap 6 14 (swap 2 10 (rotate 1 5 9 13 s))).
Definition inv_shift_rows (s : list Z) : list Z :=
  rotate 3 7 11 15 (swap 6 14 (swap 2 10 (rotate 13 9 5 1 s))).

Definition set_column (c : nat) (v0 v1 v2 v3 : Z) (s : list Z) : list Z :=
  let s := <[(4 * c + 0)%nat := v0]> s in
  let s := <[(4 * c + 1)%nat := v1]> s in
  let s := <[(4 * c + 2)%nat := v2]> s in
  <[(4 * c + 3)%nat := v3]> s.

Definition mix_column (s : list Z) (c : nat) : list Z :=
  let a0 := at_ s (4 * c + 0) in let a1 := at_ s (4 * c + 1) in
  let a2 := at_ s (4 * c + 2) in let a3 := at_ s (4 * c + 3) in
  set_column c
    (Z.lxor (Z.lxor (Z.lxor (gf_mul2 a0) (gf_mul3 a1)) a2) a3)
    (Z.lxor (Z.lxor (Z.lxor a0 (gf_mul2 a1)) (gf_mul3 a2)) a3)
    (Z.lxor (Z.lxor (Z.lxor a0 a1) (gf_mul2 a2)) (gf_mul3 a3))
    (Z.lxor (Z.lxor (Z.lxor (gf_mul3 a0) a1) a2) (gf_mul2 a3)) s.
Definition inv_mix_column (s : list Z) (c : nat) : list Z :=
  let a0 := at_ s (4 * c + 0) in let a1 := at_ s (4 * c + 1) in
  let a2 := at_ s (4 * c + 2) in let a3 := at_ s (4 * c + 3) in
  set_column c
    (Z.lxor (Z.lxor (Z.lxor (gf_mul14 a0) (gf_mul11 a1)) (gf_mul13 a2)) (gf_mul9 a3))
    (Z.lxor (Z.lxor (Z.lxor (gf_mul9 a0) (gf_mul14 a1)) (gf_mul11 a2)) (gf_mul13 a3))
    (Z.lxor (Z.lxor (Z.lxor (gf_mul13 a0) (gf_mul9 a1)) (gf_mul14 a2)) (gf_mul11 a3))
    (Z.lxor (Z.lxor (Z.lxor (gf_mul11 a0) (gf_mul13 a1)) (gf_mul9 a2)) (gf_mul14 a3)) s.

(** [for (c = 0; c < 4; c++)] *)
Definition mix_columns (s : list Z) : list Z := foldl mix_column s (seq 0 4).
Definition inv_mix_columns (s : list Z) : list Z := foldl inv_mix_column s (seq 0 4).

Definition round_key (ctx : list (list Z)) (r : nat) : list Z := default [] (ctx !! r).

(** The loop body of [aes128_encrypt] for round [r]. *)
Definition encrypt_round (ctx : list (list Z)) (s : list Z) (r : nat) : list Z :=
  let s := shift_rows (sub_bytes aes_sbox s) in
  let s := if (r <? 10)%nat then mix_columns s else s in
  add_round_key (round_key ctx r) s.
Definition aes128_encrypt (ctx : list (list Z)) (s : list Z) : list Z :=
  foldl (encrypt_round ctx) (add_round_key (round_key ctx 0) s) (seq 1 10).

(** The loop body of [aes128_decrypt] for round [r], which runs from 9 to 0. *)
Definition decrypt_round (ctx : list (list Z)) (s : list Z) (r : nat) : list Z :=
  let s := sub_bytes aes_inv_sbox (inv_shift_rows s) in
  let s := add_round_key (round_key ctx r) s in
  if (0 <? r)%nat then inv_mix_columns s else s.
Definition aes128_decrypt (ctx : list (list Z)) (s : list Z) : list Z :=
  foldl (decrypt_round ctx) (add_round_key (round_key ctx 10) s) (rev (seq 0 10)).

(** ** The field GF(2^8) *)

(** The product of two polynomials over GF(2), and its remainder modulo
    x^8 + x^4 + x^3 + x + 1. *)
Definition poly_mul (a b : Z) : Z :=
  foldr (λ i acc, if Z.testbit b i then Z.lxor (Z.shiftl a i) acc else acc) 0 (seqZ 0 8).
Definition poly_mod (v : Z) : Z :=
  foldl (λ v i, if Z.testbit v i then Z.lxor v (Z.shiftl 0x11B (i - 8)) else v) v
    [14; 13; 12; 11; 10; 9; 8].
Definition gf_mul (a b : Z) : Z := poly_mod (poly_mul a b).
(** The inverse, as the power 254 (and 0 for 0). *)
Definition gf_inv (x : Z) : Z :=
  let x2 := gf_mul x x in let x3 := gf_mul x2 x in let x6 := gf_mul x3 x3 in
  let x12 := gf_mul x6 x6 in let x15 := gf_mul x12 x3 in let x30 := gf_mul x15 x15 in
  let x60 := gf_mul x30 x30 in let x120 := gf_mul x60 x60 in let x240 := gf_mul x120 x120 in
  gf_mul (gf_mul x240 x12) x2.
(** The affine map of the S-box: each bit is the sum of five bits and a bit of
    0x63. *)
Definition affine (b : Z) : Z :=
  let rot k := u8 (Z.lor (Z.shiftl b k) (Z.shiftr b (8 - k))) in
  Z.lxor (Z.lxor (Z.lxor (Z.lxor (Z.lxor b (rot 1)) (rot 2)) (rot 3)) (rot 4)) 0x63.

(** The multiplication by a constant that a coefficient stands for. *)
Definition gf_by (k : Z) (x : Z) : Z :=
  match k with
  | 2 => gf_mul2 x | 3 => gf_mul3 x | 9 => gf_mul9 x | 11 => gf_mul11 x
  | 13 => gf_mul13 x | 14 => gf_mul14 x | _ => x
  end.

Definition tables_ok (x : Z) : bool :=
  forallb (λ k, gf_by k x =? gf_mul k x) [1; 2; 3; 9; 11; 13; 14] &&
  (sub_byte aes_sbox x =? affine (gf_inv x)) &&
  (sub_byte aes_inv_sbox (sub_byte aes_sbox x) =? x) &&
  (sub_byte aes_sbox (sub_byte aes_inv_sbox x) =? x) &&
  ((x =? 0) || (gf_mul x (gf_inv x) =? 1)) &&
  (0 <=? sub_byte aes_sbox x) && (sub_byte aes_sbox x <? 256) &&
  (0 <=? sub_byte aes_inv_sbox x) && (sub_byte aes_inv_sbox x <? 256).

Lemma byte_check (P : Z → bool) x : forallb P (seqZ 0 256) = true → is_byte x → P x = true.
Proof.
  intros HP Hx. rewrite forallb_forall in HP. apply HP, list_elem_of_In, elem_of_seqZ.
  unfold is_byte in Hx. lia.
Qed.

Lemma all_tables_ok : forallb tables_ok (seqZ 0 256) = true.
Proof. vm_compute. reflexivity. Qed.

(** ** Bytes and exclusive or *)

Lemma is_byte_lxor a b : is_byte a → is_byte b → is_byte (Z.lxor a b).
Proof.
  unfold is_byte. intros Ha Hb. split; [apply Z.lxor_nonneg; lia|].
  destruct (decide (Z.lxor a b = 0)) as [->|Hne]; [lia|].
  apply Z.log2_lt_cancel. change (Z.log2 256) with 8.
  assert (0 < Z.lxor a b) by (pose proof (Z.lxor_nonneg a b); lia).
  pose proof (Z.log2_lxor a b ltac:(lia) ltac:(lia)).
  assert (∀ x, 0 ≤ x < 256 → Z.log2 x < 8) as Hl.
  { intros x Hx. destruct (decide (x = 0)) as [->|]; [done|]. apply Z.log2_lt_pow2; lia. }
  pose proof (Hl a Ha). pose proof (Hl b Hb). lia.
Qed.

Lemma u8_lxor a b : u8 (Z.lxor a b) = Z.lxor (u8 a) (u8 b).
Proof.
  unfold u8. rewrite <-!Z.land_ones by lia. apply Z.bits_inj'. intros n _.
  rewrite Z.land_spec, !Z.lxor_spec, !Z.land_spec. by destruct (Z.testbit a n), (Z.testbit b n), (Z.testbit (Z.ones 8) n).
Qed.

Lemma lxor_swap a b c d : Z.lxor (Z.lxor a b) (Z.lxor c d) = Z.lxor (Z.lxor a c) (Z.lxor b d).
Proof.
  rewrite !Z.lxor_assoc. f_equal. rewrite <-!Z.lxor_assoc. f_equal. apply Z.lxor_comm.
Qed.

Lemma gf_mul2_byte x : is_byte (gf_mul2 x).
Proof. unfold gf_mul2, is_byte. apply u8_range. Qed.

Lemma gf_mul2_lxor a b : is_byte a → is_byte b →
  gf_mul2 (Z.lxor a b) = Z.lxor (gf_mul2 a) (gf_mul2 b).
Proof.
  intros Ha Hb. unfold gf_mul2. rewrite Z.shiftl_lxor, Z.shiftr_lxor, <-u8_lxor, lxor_swap.
  f_equal. f_equal.
  assert (∀ x, is_byte x → Z.shiftr x 7 = 0 ∨ Z.shiftr x 7 = 1) as Hs.
  { intros x Hx. unfold is_byte in Hx. rewrite Z.shiftr_div_pow2 by lia.
    change (2 ^ 7) with 128. Z.to_euclidean_division_equations. lia. }
  destruct (Hs a Ha) as [-> | ->], (Hs b Hb) as [-> | ->]; reflexivity.
Qed.

(** Maps of bytes that commute with exclusive or. *)
Definition linear (f : Z → Z) : Prop :=
  ∀ a b, is_byte a → is_byte b → is_byte (f a) ∧ f (Z.lxor a b) = Z.lxor (f a) (f b).

Lemma linear_id : linear (λ x, x).
Proof. done. Qed.

Lemma linear_mul2 f : linear f → linear (λ x, gf_mul2 (f x)).
Proof.
  intros Hf a b Ha Hb. destruct (Hf a b Ha Hb) as [Hfa E], (Hf b a Hb Ha) as [Hfb _].
  split; [apply gf_mul2_byte|]. by rewrite E, gf_mul2_lxor.
Qed.

Lemma linear_add f : linear f → linear (λ x, Z.lxor (f x) x).
Proof.
  intros Hf a b Ha Hb. destruct (Hf a b Ha Hb) as [Hfa E].
  split; [by apply is_byte_lxor|]. by rewrite E, lxor_swap.
Qed.

Create HintDb linear.
#[export] Hint Resolve linear_id linear_mul2 linear_add : linear.

Lemma linear_gf_by k : linear (gf_by k).
Proof.
  unfold gf_by, gf_mul3, gf_mul9, gf_mul11, gf_mul13, gf_mul14.
  repeat case_match; auto 10 with linear.
Qed.

Lemma gf_by_byte k x : is_byte x → is_byte (gf_by k x).
Proof. intros Hx. by apply (linear_gf_by k x x). Qed.

Lemma gf_by_lxor k a b : is_byte a → is_byte b →
  gf_by k (Z.lxor a b) = Z.lxor (gf_by k a) (gf_by k b).
Proof. intros Ha Hb. by apply linear_gf_by. Qed.

(** ** MixColumns and its inverse *)

Definition mix_rows : list (list Z) := [[2; 3; 1; 1]; [1; 2; 3; 1]; [1; 1; 2; 3]; [3; 1; 1; 2]].
Definition inv_mix_rows : list (list Z) :=
  [[14; 11; 13; 9]; [9; 14; 11; 13]; [13; 9; 14; 11]; [11; 13; 9; 14]].

(** A row of a matrix applied to a column. *)
Definition apply_row (row : list Z) (a0 a1 a2 a3 : Z) : Z :=
  Z.lxor (Z.lxor (Z.lxor (gf_by (at_ row 0) a0) (gf_by (at_ row 1) a1)) (gf_by (at_ row 2) a2))
    (gf_by (at_ row 3) a3).
Definition row (m : list (list Z)) (i : nat) : list Z := default [] (m !! i).

(** Conversion should compare these by their arguments. *)
#[local] Opaque Z.lxor Z.eqb gf_mul2 gf_mul3 gf_mul9 gf_mul11 gf_mul13 gf_mul14.

Definition mix_with (m : list (list Z)) (a0 a1 a2 a3 : Z) : list Z :=
  [apply_row (row m 0) a0 a1 a2 a3; apply_row (row m 1) a0 a1 a2 a3;
   apply_row (row m 2) a0 a1 a2 a3; apply_row (row m 3) a0 a1 a2 a3].

Lemma mix_columns_eq x0 x1 x2 x3 x4 x5 x6 x7 x8 x9 x10 x11 x12 x13 x14 x15 :
  mix_columns [x0; x1; x2; x3; x4; x5; x6; x7; x8; x9; x10; x11; x12; x13; x14; x15] =
  mix_with mix_rows x0 x1 x2 x3 ++ mix_with mix_rows x4 x5 x6 x7 ++
  mix_with mix_rows x8 x9 x10 x11 ++ mix_with mix_rows x12 x13 x14 x15.
Proof. reflexivity. Qed.

Lemma inv_mix_columns_eq x0 x1 x2 x3 x4 x5 x6 x7 x8 x9 x10 x11 x12 x13 x14 x15 :
  inv_mix_columns [x0; x1; x2; x3; x4; x5; x6; x7; x8; x9; x10; x11; x12; x13; x14; x15] =
  mix_with inv_mix_rows x0 x1 x2 x3 ++ mix_with inv_mix_rows x4 x5 x6 x7 ++
  mix_with inv_mix_rows x8 x9 x10 x11 ++ mix_with inv_mix_rows x12 x13 x14 x15.
Proof. reflexivity. Qed.

(** The product of two matrices is the identity, one byte at a time. *)
Definition product_ok (m n : list (list Z)) (x : Z) : bool :=
  forallb (λ r, forallb (λ j,
    Z.lxor (Z.lxor (Z.lxor
      (gf_by (at_ (row m r) 0) (gf_by (at_ (row n 0) j) x))
      (gf_by (at_ (row m r) 1) (gf_by (at_ (row n 1) j) x)))
      (gf_by (at_ (row m r) 2) (gf_by (at_ (row n 2) j) x)))
      (gf_by (at_ (row m r) 3) (gf_by (at_ (row n 3) j) x))
    =? if decide (r = j) then x else 0) (seq 0 4)) (seq 0 4).
Definition inverses (m n : list (list Z)) : Prop := forallb (product_ok m n) (seqZ 0 256) = true.

Lemma inv_mix_inverses : inverses inv_mix_rows mix_rows ∧ inverses mix_rows inv_mix_rows.
Proof. split; vm_compute; reflexivity. Qed.

#[local] Opaque gf_by.

Lemma product_cell m n r j x : inverses m n → (r < 4)%nat → (j < 4)%nat → is_byte x →
  Z.lxor (Z.lxor (Z.lxor
    (gf_by (at_ (row m r) 0) (gf_by (at_ (row n 0) j) x))
    (gf_by (at_ (row m r) 1) (gf_by (at_ (row n 1) j) x)))
    (gf_by (at_ (row m r) 2) (gf_by (at_ (row n 2) j) x)))
    (gf_by (at_ (row m r) 3) (gf_by (at_ (row n 3) j) x))
  = if decide (r = j) then x else 0.
Proof.
  intros Hmn Hr Hj Hx. pose proof (byte_check (product_ok m n) x Hmn Hx) as H.
  unfold product_ok in H.
  assert (∀ k, (k < 4)%nat → In k (seq 0 4)) as Hin by (intros; apply in_seq; lia).
  pose proof (proj1 (forallb_forall _ _) H r (Hin r Hr)) as H1. cbv beta in H1.
  pose proof (proj1 (forallb_forall _ _) H1 j (Hin j Hj)) as H2. cbv beta in H2.
  apply Z.eqb_eq in H2. exact H2.
Qed.

Lemma lxor4_add a b c d e f g h :
  Z.lxor (Z.lxor (Z.lxor (Z.lxor a b) c) d) (Z.lxor (Z.lxor (Z.lxor e f) g) h) =
  Z.lxor (Z.lxor (Z.lxor (Z.lxor a e) (Z.lxor b f)) (Z.lxor c g)) (Z.lxor d h).
Proof. by rewrite (lxor_swap _ d), (lxor_swap _ c), (lxor_swap a b). Qed.

Lemma lxor_transpose a b c d e f g h i j k l m n o p :
  Z.lxor (Z.lxor (Z.lxor (Z.lxor (Z.lxor (Z.lxor a b) c) d) (Z.lxor (Z.lxor (Z.lxor e f) g) h))
    (Z.lxor (Z.lxor (Z.lxor i j) k) l)) (Z.lxor (Z.lxor (Z.lxor m n) o) p) =
  Z.lxor (Z.lxor (Z.lxor (Z.lxor (Z.lxor (Z.lxor a e) i) m) (Z.lxor (Z.lxor (Z.lxor b f) j) n))
    (Z.lxor (Z.lxor (Z.lxor c g) k) o)) (Z.lxor (Z.lxor (Z.lxor d h) l) p).
Proof. by rewrite (lxor4_add a b c d e f g h), (lxor4_add _ _ _ _ i j k l), (lxor4_add _ _ _ _ m n o p). Qed.

Lemma apply_row_byte r a0 a1 a2 a3 :
  is_byte a0 → is_byte a1 → is_byte a2 → is_byte a3 → is_byte (apply_row r a0 a1 a2 a3).
Proof. intros. unfold apply_row. by repeat apply is_byte_lxor; try apply gf_by_byte. Qed.

Lemma inv_mix_row m n r a0 a1 a2 a3 :
  inverses m n → (r < 4)%nat → is_byte a0 → is_byte a1 → is_byte a2 → is_byte a3 →
  apply_row (row m r)
    (apply_row (row n 0) a0 a1 a2 a3) (apply_row (row n 1) a0 a1 a2 a3)
    (apply_row (row n 2) a0 a1 a2 a3) (apply_row (row n 3) a0 a1 a2 a3) =
  default 0 ([a0; a1; a2; a3] !! r).
Proof.
  intros Hmn Hr H0 H1 H2 H3. unfold apply_row at 1.
  assert (∀ k c, gf_by k (apply_row c a0 a1 a2 a3) =
    Z.lxor (Z.lxor (Z.lxor (gf_by k (gf_by (at_ c 0) a0)) (gf_by k (gf_by (at_ c 1) a1)))
      (gf_by k (gf_by (at_ c 2) a2))) (gf_by k (gf_by (at_ c 3) a3))) as Hd.
  { intros k c. unfold apply_row.
    rewrite !gf_by_lxor; try done; repeat apply is_byte_lxor; by apply gf_by_byte. }
  rewrite !Hd, lxor_transpose, !(product_cell m n) by (done || lia).
  destruct r as [|[|[|[|r]]]]; [..|lia]; simpl;
    by rewrite ?Z.lxor_0_r, ?Z.lxor_0_l, ?Z.lxor_0_r.
Qed.

(** ** Blocks *)

Create HintDb block.

(** A property of each element of an explicit list. *)
Ltac forall_list := repeat first [apply Forall_nil_2 | apply Forall_cons_2].

Definition block (s : list Z) : Prop := length s = 16%nat ∧ bytes s.

(** A block as its sixteen bytes. *)
Lemma block_inv s : block s →
  ∃ x0 x1 x2 x3 x4 x5 x6 x7 x8 x9 x10 x11 x12 x13 x14 x15,
    s = [x0; x1; x2; x3; x4; x5; x6; x7; x8; x9; x10; x11; x12; x13; x14; x15] ∧
    (is_byte x0 ∧ is_byte x1 ∧ is_byte x2 ∧ is_byte x3) ∧
    (is_byte x4 ∧ is_byte x5 ∧ is_byte x6 ∧ is_byte x7) ∧
    (is_byte x8 ∧ is_byte x9 ∧ is_byte x10 ∧ is_byte x11) ∧
    (is_byte x12 ∧ is_byte x13 ∧ is_byte x14 ∧ is_byte x15).
Proof.
  intros [Hl Hb]. do 16 (destruct s as [|? s]; [done|]). destruct s; [|done].
  unfold bytes in Hb. decompose_Forall. by do 16 eexists.
Qed.

Lemma mix_with_inv m n a0 a1 a2 a3 :
  inverses m n → is_byte a0 ∧ is_byte a1 ∧ is_byte a2 ∧ is_byte a3 →
  mix_with m
    (apply_row (row n 0) a0 a1 a2 a3) (apply_row (row n 1) a0 a1 a2 a3)
    (apply_row (row n 2) a0 a1 a2 a3) (apply_row (row n 3) a0 a1 a2 a3) =
  [a0; a1; a2; a3].
Proof.
  intros Hmn (H0 & H1 & H2 & H3). unfold mix_with. by rewrite !(inv_mix_row m n) by (done || lia).
Qed.

Lemma inv_mix_mix s : block s →
  inv_mix_columns (mix_columns s) = s ∧ mix_columns (inv_mix_columns s) = s.
Proof.
  intros Hs. destruct inv_mix_inverses as [Hi Hm]. destruct (block_inv s Hs)
    as (x0&x1&x2&x3&x4&x5&x6&x7&x8&x9&x10&x11&x12&x13&x14&x15&->&B0&B1&B2&B3). split.
  - rewrite mix_columns_eq. unfold mix_with at 1 2 3 4. cbn [app].
    rewrite inv_mix_columns_eq. by rewrite !mix_with_inv.
  - rewrite inv_mix_columns_eq. unfold mix_with at 1 2 3 4. cbn [app].
    rewrite mix_columns_eq. by rewrite !mix_with_inv.
Qed.

(** ** The other transformations *)

Lemma tables_byte x : is_byte x →
  is_byte (sub_byte aes_sbox x) ∧ is_byte (sub_byte aes_inv_sbox x) ∧
  sub_byte aes_inv_sbox (sub_byte aes_sbox x) = x ∧
  sub_byte aes_sbox (sub_byte aes_inv_sbox x) = x.
Proof.
  intros Hx. pose proof (byte_check tables_ok x all_tables_ok Hx) as H. unfold tables_ok in H.
  repeat (apply andb_true_iff in H as [H ?]). b2p. unfold is_byte. lia.
Qed.

Lemma sub_sub box box' s : bytes s →
  (∀ x, is_byte x → sub_byte box' (sub_byte box x) = x) → sub_bytes box' (sub_bytes box s) = s.
Proof.
  intros Hs Hinv. unfold sub_bytes. rewrite <-list_fmap_compose.
  transitivity (id <$> s); [|apply list_fmap_id]. apply list_fmap_ext. intros i x Hx. apply Hinv.
  exact (Forall_lookup_1 _ _ _ _ Hs Hx).
Qed.

Lemma inv_sub_sub s : bytes s →
  sub_bytes aes_inv_sbox (sub_bytes aes_sbox s) = s ∧
  sub_bytes aes_sbox (sub_bytes aes_inv_sbox s) = s.
Proof. intros Hs. split; apply sub_sub; try done; intros x Hx; by apply tables_byte. Qed.

Lemma block_sub s : block s → block (sub_bytes aes_sbox s) ∧ block (sub_bytes aes_inv_sbox s).
Proof.
  intros [Hl Hb]. split; (split; [by unfold sub_bytes; rewrite length_fmap|]);
    unfold bytes, sub_bytes; apply Forall_fmap; (eapply Forall_impl; [exact Hb|]);
    intros x Hx; by apply tables_byte.
Qed.

Lemma inv_shift_shift s : block s →
  inv_shift_rows (shift_rows s) = s ∧ shift_rows (inv_shift_rows s) = s.
Proof.
  intros Hs. destruct (block_inv s Hs)
    as (x0&x1&x2&x3&x4&x5&x6&x7&x8&x9&x10&x11&x12&x13&x14&x15&->&_).
  split; reflexivity.
Qed.

Lemma block_shift s : block s → block (shift_rows s) ∧ block (inv_shift_rows s).
Proof.
  intros Hs. destruct (block_inv s Hs)
    as (x0&x1&x2&x3&x4&x5&x6&x7&x8&x9&x10&x11&x12&x13&x14&x15&->&B0&B1&B2&B3).
  split; (split; [reflexivity|]); unfold bytes; cbn; destruct_and!; by forall_list.
Qed.

Lemma block_mix s : block s → block (mix_columns s) ∧ block (inv_mix_columns s).
Proof.
  intros Hs. destruct (block_inv s Hs)
    as (x0&x1&x2&x3&x4&x5&x6&x7&x8&x9&x10&x11&x12&x13&x14&x15&->&B0&B1&B2&B3).
  rewrite mix_columns_eq, inv_mix_columns_eq. split; (split; [reflexivity|]);
    unfold bytes, mix_with; cbn [app]; destruct_and!; forall_list; by apply apply_row_byte.
Qed.

Lemma block_add rk s : block rk → block s → block (add_round_key rk s).
Proof.
  intros [Hl Hb] [Hl' Hb']. unfold add_round_key. split.
  - rewrite length_zip_with. lia.
  - apply Forall_lookup. intros i x Hx. apply lookup_zip_with_Some in Hx as (a & b & -> & Ha & Hb2).
    apply is_byte_lxor; [exact (Forall_lookup_1 _ _ _ _ Hb' Ha)|exact (Forall_lookup_1 _ _ _ _ Hb Hb2)].
Qed.

Lemma add_add rk s : length rk = length s → add_round_key rk (add_round_key rk s) = s.
Proof.
  intros Hl. unfold add_round_key. revert rk Hl. induction s as [|x s IH]; intros [|k rk] Hl; try done.
  simpl. rewrite Z.lxor_assoc, Z.lxor_nilpotent, Z.lxor_0_r. f_equal. apply IH. by injection Hl.
Qed.

#[export] Hint Resolve block_add : block.
#[export] Hint Extern 1 (block (sub_bytes _ _)) => apply block_sub : block.
#[export] Hint Extern 1 (block (shift_rows _)) => apply block_shift : block.
#[export] Hint Extern 1 (block (inv_shift_rows _)) => apply block_shift : block.
#[export] Hint Extern 1 (block (mix_columns _)) => apply block_mix : block.
#[export] Hint Extern 1 (block (inv_mix_columns _)) => apply block_mix : block.

(** ** The key schedule *)

Lemma at_byte l i : bytes l → is_byte (at_ l i).
Proof.
  intros Hb. unfold at_. destruct (l !! i) eqn:E; [|unfold is_byte; simpl; lia].
  exact (Forall_lookup_1 _ _ _ _ Hb E).
Qed.

Lemma block_expand prev c : block prev → is_byte c → block (expand_round prev c).
Proof.
  intros [Hl Hb] Hc. unfold expand_round.
  set (first := [_; _; _; _]).
  assert (bytes first) as Hf.
  { unfold first. forall_list; repeat apply is_byte_lxor; try done;
      try apply tables_byte; by apply at_byte. }
  assert (∀ ns next, bytes next →
    bytes (foldl (λ next j, next ++ [Z.lxor (at_ prev j) (at_ next (j - 4))]) next ns) ∧
    length (foldl (λ next j, next ++ [Z.lxor (at_ prev j) (at_ next (j - 4))]) next ns) =
      (length next + length ns)%nat) as Hfold.
  { induction ns as [|n ns IH]; intros next Hn; [simpl; by split; [|lia]|]. simpl.
    destruct (IH (next ++ [Z.lxor (at_ prev n) (at_ next (n - 4))])) as [H1 H2].
    { apply bytes_app; [done|]. apply Forall_singleton, is_byte_lxor; by apply at_byte. }
    split; [done|]. rewrite H2, length_app. simpl. lia. }
  destruct (Hfold (seq 4 12) first Hf) as [H1 H2]. split; [|done].
  rewrite H2, length_seq. reflexivity.
Qed.

Lemma round_keys_ok key : block key →
  length (aes128_init key) = 11%nat ∧ Forall block (aes128_init key).
Proof.
  intros Hk. unfold aes128_init.
  assert (∀ n, (n ≤ 10)%nat →
    let rks := foldl (λ rks i, rks ++ [expand_round (default [] (rks !! i)) (at_ aes_rcon i)])
                 [key] (seq 0 n) in
    length rks = S n ∧ Forall block rks) as H; [|by apply (H 10%nat)].
  induction n as [|n IH]; intros Hn; [by split; [|apply Forall_singleton]|].
  rewrite seq_S, foldl_app. destruct IH as [Hl Hb]; [lia|]. cbv zeta. simpl foldl at 1 3.
  set (rks := foldl _ _ _) in *. rewrite length_app, Hl. split; [simpl; lia|].
  apply Forall_app. split; [done|]. apply Forall_singleton, block_expand.
  - destruct (lookup_lt_is_Some_2 rks n) as [p Hp]; [lia|]. rewrite Hp. simpl.
    exact (Forall_lookup_1 _ _ _ _ Hb Hp).
  - apply at_byte. apply bytesb_bytes. reflexivity.
Qed.

Lemma round_key_block key r : block key → (r ≤ 10)%nat → block (round_key (aes128_init key) r).
Proof.
  intros Hk Hr. destruct (round_keys_ok key Hk) as [Hl Hb]. unfold round_key.
  destruct (lookup_lt_is_Some_2 (aes128_init key) r) as [p Hp]; [lia|]. rewrite Hp. simpl.
  exact (Forall_lookup_1 _ _ _ _ Hb Hp).
Qed.

(** ** Decryption undoes encryption *)

#[local] Opaque aes128_init round_key sub_bytes shift_rows mix_columns add_round_key
  inv_shift_rows inv_mix_columns.

Section roundtrip.
Context (key s : list Z) (Hkey : block key) (Hs : block s).
#[local] Abbreviation ctx := (aes128_init key).

(** The state after the first [r] rounds of encryption. *)
Definition enc_state (r : nat) : list Z :=
  foldl (encrypt_round ctx) (add_round_key (round_key ctx 0) s) (seq 1 r).

Lemma enc_state_S r :
  enc_state (S r) = encrypt_round ctx (enc_state r) (S r).
Proof. unfold enc_state. by rewrite seq_S, foldl_app. Qed.

Lemma enc_state_block r : (r ≤ 10)%nat → block (enc_state r).
Proof.
  induction r as [|r IH]; intros Hr.
  - apply block_add; [apply round_key_block; [done|lia]|done].
  - rewrite enc_state_S. unfold encrypt_round.
    apply block_add; [by apply round_key_block|].
    assert (block (enc_state r)) by (apply IH; lia).
    case_match; auto with block.
Qed.

Lemma undo_round st : block st →
  sub_bytes aes_inv_sbox (inv_shift_rows (shift_rows (sub_bytes aes_sbox st))) = st.
Proof. intros Hb. rewrite (proj1 (inv_shift_shift _ (proj1 (block_sub _ Hb)))). apply inv_sub_sub, Hb. Qed.

Lemma undo_key r st : (r ≤ 10)%nat → block st →
  add_round_key (round_key ctx r) (add_round_key (round_key ctx r) st) = st.
Proof.
  intros Hr [Hl _]. apply add_add. destruct (round_key_block key r Hkey Hr) as [-> _]. done.
Qed.

(** What decryption still has to undo before its round [r]. *)
Lemma decrypt_rounds r : (r ≤ 9)%nat →
  foldl (decrypt_round ctx) (shift_rows (sub_bytes aes_sbox (enc_state r))) (rev (seq 0 (S r))) = s.
Proof.
  induction r as [|r IH]; intros Hr; rewrite seq_S, rev_app_distr; cbn [rev app foldl];
    unfold decrypt_round at 2; cbv zeta; rewrite undo_round by (apply enc_state_block; lia).
  - unfold enc_state. cbn [seq foldl rev]. apply undo_key; [lia|done].
  - rewrite Nat.add_0_l, enc_state_S. unfold encrypt_round.
    destruct (Nat.ltb_spec (S r) 10); [|lia]. destruct (Nat.ltb_spec 0 (S r)); [|lia].
    assert (block (enc_state r)) by (apply enc_state_block; lia).
    rewrite undo_key by (auto with block; lia).
    rewrite (proj1 (inv_mix_mix (shift_rows (sub_bytes aes_sbox (enc_state r))) ltac:(auto with block))).
    apply IH. lia.
Qed.

Lemma encrypt_eq : aes128_encrypt ctx s = enc_state 10.
Proof. unfold aes128_encrypt, enc_state. reflexivity. Qed.

Lemma decrypt_encrypt : aes128_decrypt ctx (aes128_encrypt ctx s) = s.
Proof.
  rewrite encrypt_eq, enc_state_S. unfold encrypt_round, aes128_decrypt.
  destruct (Nat.ltb_spec 10 10); [lia|].
  rewrite undo_key; [apply decrypt_rounds; lia|lia|].
  apply block_shift, block_sub, enc_state_block. lia.
Qed.
End roundtrip.

Lemma block_encrypt key s : block key → block s → block (aes128_encrypt (aes128_init key) s).
Proof. intros Hk Hs. rewrite encrypt_eq. by apply enc_state_block. Qed.

(** ** Encryption undoes decryption *)

Section converse.
Context (key b : list Z) (Hkey : block key) (Hb : block b).
#[local] Abbreviation ctx := (aes128_init key).

(** The state of decryption before its round [r - 1]. *)
Definition dec_state (r : nat) : list Z :=
  foldl (decrypt_round ctx) (add_round_key (round_key ctx 10) b) (rev (seq r (10 - r))).

Lemma dec_state_S r : (r ≤ 9)%nat → dec_state r = decrypt_round ctx (dec_state (S r)) r.
Proof.
  intros Hr. unfold dec_state. replace (10 - r)%nat with (S (10 - S r)) by lia.
  cbn [seq rev]. by rewrite foldl_app.
Qed.

Lemma dec_state_block r : (r ≤ 10)%nat → block (dec_state r).
Proof.
  intros Hr. replace r with (10 - (10 - r))%nat by lia. generalize (10 - r)%nat. clear r Hr.
  intros d. induction d as [|d IH].
  - apply block_add; [by apply round_key_block|done].
  - destruct (decide (d < 10)%nat); [|by replace (10 - S d)%nat with (10 - d)%nat by lia].
    rewrite dec_state_S by lia. replace (S (10 - S d)) with (10 - d)%nat by lia.
    unfold decrypt_round. cbv zeta. pose proof (round_key_block key (10 - S d) Hkey ltac:(lia)).
    case_match; auto 8 with block.
Qed.

(** Undoing the byte substitution and the shift of a decryption round. *)
Lemma redo_round st : block st →
  shift_rows (sub_bytes aes_sbox (sub_bytes aes_inv_sbox (inv_shift_rows st))) = st.
Proof.
  intros Hst. pose proof (block_shift st Hst) as [_ Hi].
  rewrite (proj2 (inv_sub_sub _ (proj2 Hi))). by apply inv_shift_shift.
Qed.

Lemma encrypt_rounds r : (r ≤ 9)%nat →
  enc_state key (dec_state 0) r = sub_bytes aes_inv_sbox (inv_shift_rows (dec_state (S r))).
Proof.
  induction r as [|r IH]; intros Hr.
  - unfold enc_state. cbn [seq foldl]. rewrite dec_state_S by lia. unfold decrypt_round at 1. cbv zeta.
    simpl (0 <? 0)%nat. cbv iota. apply undo_key; [done|lia|].
    pose proof (dec_state_block 1 ltac:(lia)). auto with block.
  - pose proof (dec_state_block (S r) ltac:(lia)) as Hblk.
    pose proof (dec_state_block (S (S r)) ltac:(lia)) as Hblk2.
    rewrite enc_state_S, IH by lia. unfold encrypt_round. cbv zeta. rewrite redo_round by done.
    destruct (Nat.ltb_spec (S r) 10); [|lia].
    rewrite (dec_state_S (S r)) by lia. unfold decrypt_round. cbv zeta.
    destruct (Nat.ltb_spec 0 (S r)); [|lia].
    pose proof (round_key_block key (S r) Hkey ltac:(lia)).
    rewrite (proj2 (inv_mix_mix (add_round_key (round_key ctx (S r)) (sub_bytes aes_inv_sbox
      (inv_shift_rows (dec_state (S (S r)))))) ltac:(auto 8 with block))).
    apply undo_key; [done|lia|auto with block].
Qed.

Lemma encrypt_decrypt : aes128_encrypt ctx (aes128_decrypt ctx b) = b.
Proof.
  change (aes128_decrypt ctx b) with (dec_state 0).
  rewrite encrypt_eq, enc_state_S, encrypt_rounds by lia. unfold encrypt_round. cbv zeta.
  rewrite redo_round by (apply dec_state_block; lia).
  destruct (Nat.ltb_spec 10 10); [lia|]. by apply undo_key.
Qed.
End converse.

Lemma block_decrypt key b : block key → block b → block (aes128_decrypt (aes128_init key) b).
Proof. intros Hk Hb. apply (dec_state_block key b Hk Hb 0). lia. Qed.

(** C32: AES-128 as implemented: the field multiplications and the S-box are the
    ones of GF(2^8), and for every key encryption and decryption of blocks are
    inverse to each other. *)
Theorem aes128_correct key s x k :
  block key → block s → is_byte x → In k [1; 2; 3; 9; 11; 13; 14] →
  gf_by k x = gf_mul k x ∧ sub_byte aes_sbox x = affine (gf_inv x) ∧
  block (aes128_encrypt (aes128_init key) s) ∧
  aes128_decrypt (aes128_init key) (aes128_encrypt (aes128_init key) s) = s ∧
  aes128_encrypt (aes128_init key) (aes128_decrypt (aes128_init key) s) = s.
Proof.
  intros Hk Hs Hx Hin. pose proof (byte_check tables_ok x all_tables_ok Hx) as H.
  unfold tables_ok in H. do 8 apply andb_true_iff in H as [H ?].
  pose proof (proj1 (forallb_forall _ _) H k Hin) as Hm. cbv beta in Hm.
  repeat match goal with H : (_ =? _) = true |- _ => apply Z.eqb_eq in H end.
  split; [exact Hm|]. split; [assumption|].
  split; [by apply block_encrypt|]. split; [by apply decrypt_encrypt|by apply encrypt_decrypt].
Qed.

(** The example of FIPS 197, appendix B. *)
Definition fips_key : list Z :=
  [0x2b; 0x7e; 0x15; 0x16; 0x28; 0xae; 0xd2; 0xa6; 0xab; 0xf7; 0x15; 0x88; 0x09; 0xcf; 0x4f; 0x3c].
Definition fips_block : list Z :=
  [0x32; 0x43; 0xf6; 0xa8; 0x88; 0x5a; 0x30; 0x8d; 0x31; 0x31; 0x98; 0xa2; 0xe0; 0x37; 0x07; 0x34].
Definition fips_cipher : list Z :=
  [0x39; 0x25; 0x84; 0x1d; 0x02; 0xdc; 0x09; 0xfb; 0xdc; 0x11; 0x85; 0x97; 0x19; 0x6a; 0x0b; 0x32].

Lemma fips_encrypt : aes128_encrypt (aes128_init fips_key) fips_block = fips_cipher.
Proof. vm_compute. reflexivity. Qed.

Lemma block_dec s : ((length s =? 16)%nat && bytesb s)%bool = true → block s.
Proof. intros [H1%Nat.eqb_eq H2%bytesb_bytes]%andb_true_iff. done. Qed.

Lemma aes128_correct_witness :
  aes128_encrypt (aes128_init fips_key) fips_block = fips_cipher ∧
  aes128_decrypt (aes128_init fips_key) fips_cipher = fips_block.
Proof.
  split; [exact fips_encrypt|]. rewrite <-fips_encrypt.
  apply (aes128_correct fips_key fips_block 0 1).
  - apply block_dec. reflexivity.
  - apply block_dec. reflexivity.
  - unfold is_byte. lia.
  - by left.
Defined.
