(* ===== verification/Sha1.v ===== *)
(** * SHA-1, HMAC, PRF and PBKDF2

    Translation of the hash functions of [src/src/drivers/net/iwl_crypto.c],
    which derive the WPA2 keys.  A buffer passed with its length is the list
    of its bytes.  A local [struct sha1_ctx] starts with arbitrary contents;
    writing outside its 64-byte buffer is a fault. *)

From S2P Require Import Prelude Loops Codec Aes.

(** ** SHA-1 *)

Definition sha1_rotl (x : Z) (n : Z) : Z := Z.lor (u32 (Z.shiftl x n)) (Z.shiftr x (32 - n)).

Definition sha1_be32 (p : list Z) : Z :=
  Z.lor (Z.lor (Z.lor (Z.shiftl (at_ p 0) 24) (Z.shiftl (at_ p 1) 16)) (Z.shiftl (at_ p 2) 8))
    (at_ p 3).
Definition sha1_be32_put (v : Z) : list Z :=
  [u8 (Z.shiftr v 24); u8 (Z.shiftr v 16); u8 (Z.shiftr v 8); u8 v].

(** The message schedule [w]. *)
Definition schedule (blk : list Z) : list Z :=
  foldl (λ w i, w ++ [sha1_rotl (Z.lxor (Z.lxor (Z.lxor (at_ w (i - 3)) (at_ w (i - 8)))
                        (at_ w (i - 14))) (at_ w (i - 16))) 1])
    ((λ i, sha1_be32 (slice blk (4 * i) 4)) <$> seq 0 16) (seq 16 64).

(** One of the 80 steps on (a, b, c, d, e). *)
Definition sha1_step (w : list Z) (v : Z * Z * Z * Z * Z) (i : nat) : Z * Z * Z * Z * Z :=
  let '(a, b, c, d, e) := v in
  let '(f, k) :=
    if (i <? 20)%nat then (Z.lor (Z.land b c) (Z.land (u32 (Z.lnot b)) d), 0x5A827999)
    else if (i <? 40)%nat then (Z.lxor (Z.lxor b c) d, 0x6ED9EBA1)
    else if (i <? 60)%nat
    then (Z.lor (Z.lor (Z.land b c) (Z.land b d)) (Z.land c d), 0x8F1BBCDC)
    else (Z.lxor (Z.lxor b c) d, 0xCA62C1D6) in
  let temp := u32 (sha1_rotl a 5 + f + e + k + at_ w i) in
  (temp, a, sha1_rotl b 30, c, d).

(** [sha1_compress] on the five words [h]. *)
Definition sha1_compress (h : list Z) (blk : list Z) : list Z :=
  let w := schedule blk in
  let '(a, b, c, d, e) :=
    foldl (sha1_step w) (at_ h 0, at_ h 1, at_ h 2, at_ h 3, at_ h 4) (seq 0 80) in
  [u32 (at_ h 0 + a); u32 (at_ h 1 + b); u32 (at_ h 2 + c); u32 (at_ h 3 + d); u32 (at_ h 4 + e)].

Record sha1_ctx := Sha1Ctx { ctx_h : list Z; total_len : Z; ctx_buf : list Z; buf_len : Z }.

Definition set_h (h : list Z) (c : sha1_ctx) : sha1_ctx :=
  Sha1Ctx h (total_len c) (ctx_buf c) (buf_len c).
Definition set_buf (b : list Z) (n : Z) (c : sha1_ctx) : sha1_ctx :=
  Sha1Ctx (ctx_h c) (total_len c) b n.

Definition sha1_H0 : list Z := [0x67452301; 0xEFCDAB89; 0x98BADCFE; 0x10325476; 0xC3D2E1F0].
Definition sha1_init : M sha1_ctx unit := modify (λ c, Sha1Ctx sha1_H0 0 (ctx_buf c) 0).

(** [cry_copy(ctx->buf + off, data, ...)], then [buf_len = n]. *)
Definition fill_buf (off : Z) (data : list Z) (n : Z) : M sha1_ctx unit :=
  update_opt (λ c, b ← put_bytes (ctx_buf c) off data; Some (set_buf b n c)).
Definition compress_block (blk : list Z) : M sha1_ctx unit :=
  modify (λ c, set_h (sha1_compress (ctx_h c) blk) c).

Definition sha1_update (data : list Z) : M sha1_ctx unit :=
  let len := Z.of_nat (length data) in
  modify (λ c, Sha1Ctx (ctx_h c) (u64 (total_len c + len)) (ctx_buf c) (buf_len c));;
  n ← gets buf_len;
  r ← (if 0 <? n then
         let need := 64 - n in
         if len <? need then fill_buf n data (u8 (n + u8 len));; mret None
         else
           fill_buf n (take (Z.to_nat need) data) n;;
           b ← gets ctx_buf;
           compress_block b;;
           modify (λ c, set_buf (ctx_buf c) 0 c);;
           mret (Some need)
       else mret (Some 0));
  match r with
  | None => mret tt
  | Some off =>
      off ← while (2 ^ 32) (λ off,
        if u32 (off + 64) <=? len then
          compress_block (slice data (Z.to_nat off) 64);;
          mret (inl (u32 (off + 64)))
        else mret (inr off)) off;
      let rem := u32 (len - off) in
      if 0 <? rem then fill_buf 0 (slice data (Z.to_nat off) (Z.to_nat rem)) (u8 rem)
      else mret tt
  end.

Definition len_be (total_bits : Z) : list Z :=
  [u8 (Z.shiftr total_bits 56); u8 (Z.shiftr total_bits 48); u8 (Z.shiftr total_bits 40);
   u8 (Z.shiftr total_bits 32); u8 (Z.shiftr total_bits 24); u8 (Z.shiftr total_bits 16);
   u8 (Z.shiftr total_bits 8); u8 total_bits].

Definition sha1_final : M sha1_ctx (list Z) :=
  total_bits ← gets (λ c, u64 (total_len c * 8));
  sha1_update [0x80];;
  while 64 (λ _ : unit,
    n ← gets buf_len;
    if negb (n =? 56) then sha1_update [0];; mret (inl tt) else mret (inr tt)) tt;;
  sha1_update (len_be total_bits);;
  gets (λ c, concat ((λ i, sha1_be32_put (at_ (ctx_h c) i)) <$> seq 0 5)).

Section local_ctx.
(** The contents of an uninitialised context. *)
Context (junk : sha1_ctx).

Definition on_ctx {A} (m : M sha1_ctx A) : option A := fst <$> m junk.

Definition sha1 (data : list Z) : option (list Z) :=
  on_ctx (sha1_init;; sha1_update data;; sha1_final).

(** ** HMAC-SHA1 *)

Definition hmac_sha1 (key data : list Z) : option (list Z) :=
  key ← (if (64 <? length key)%nat then sha1 key else Some key);
  k_pad ← put_bytes (replicate 64 0) 0 key;
  inner ← on_ctx (sha1_init;; sha1_update ((λ b, Z.lxor b 0x36) <$> k_pad);;
                  sha1_update data;; sha1_final);
  on_ctx (sha1_init;; sha1_update ((λ b, Z.lxor b 0x5C) <$> k_pad);;
          sha1_update inner;; sha1_final).

(** ** PRF *)

(** The bytes written to [output]; none when the input does not fit. *)
Definition prf (key label data : list Z) (out_len : Z) : option (list Z) :=
  let input_base_len := Z.of_nat (length label) + 1 + Z.of_nat (length data) in
  if 128 <? input_base_len + 1 then Some []
  else
    while_opt (2 ^ 32) (λ '(out, counter),
      let pos := Z.of_nat (length out) in
      if pos <? out_len then
        hmac_out ← hmac_sha1 key (label ++ [0] ++ data ++ [counter]);
        let copy := out_len - pos in
        let copy := if 20 <? copy then 20 else copy in
        Some (inl (out ++ take (Z.to_nat copy) hmac_out, u8 (counter + 1)))
      else Some (inr out)) ([], 0).

(** ** PBKDF2 *)

Definition cry_xor (a b : list Z) : list Z := zip_with Z.lxor a b.

(** [for (j = 1; j < iterations; j++)] on [u] and [t]. *)
Definition pbkdf2_rounds (password u t : list Z) (iterations : Z) : option (list Z) :=
  while_opt (2 ^ 32) (λ '(j, u, t),
    if j <? iterations then
      u_next ← hmac_sha1 password u;
      Some (inl (u32 (j + 1), u_next, cry_xor t u_next))
    else Some (inr t)) (1, u, t).

(** One block of the key: [U1], then the other rounds. *)
Definition pbkdf2_f (password salt : list Z) (iterations blk : Z) : option (list Z) :=
  u ← hmac_sha1 password (salt ++ sha1_be32_put blk);
  pbkdf2_rounds password u u iterations.

Definition pbkdf2_sha1 (password salt : list Z) (iterations dk_len : Z) : option (list Z) :=
  let salt := take 64 salt in
  while_opt (2 ^ 32) (λ '(dk, blk),
    let pos := Z.of_nat (length dk) in
    if pos <? dk_len then
      t ← pbkdf2_f password salt iterations blk;
      let copy := dk_len - pos in
      let copy := if 20 <? copy then 20 else copy in
      Some (inl (dk ++ take (Z.to_nat copy) t, u32 (blk + 1)))
    else Some (inr dk)) ([], 1).
End local_ctx.

(** ** The reference: FIPS 180, RFC 2104, RFC 2898 *)

Definition blocks (n : nat) (m : list Z) : list (list Z) :=
  (λ i, slice m (64 * i) 64) <$> seq 0 n.
(** The hash state after the full blocks of a message. *)
Definition state_of (m : list Z) : list Z :=
  foldl sha1_compress sha1_H0 (blocks (length m / 64) m).
(** 0x80, zeros up to 8 bytes before a multiple of 64, and the bit length. *)
Definition pad_zeros (len : nat) : nat := Z.to_nat ((55 - Z.of_nat len) mod 64).
Definition pad (m : list Z) : list Z :=
  m ++ [0x80] ++ replicate (pad_zeros (length m)) 0 ++ len_be (8 * Z.of_nat (length m)).
Definition digest_of (h : list Z) : list Z :=
  concat ((λ i, sha1_be32_put (at_ h i)) <$> seq 0 5).
Definition sha1_ref (m : list Z) : list Z := digest_of (state_of (pad m)).

(** ** Blocks of a message *)

Lemma blocks_app n m r : length m = (64 * n)%nat → blocks n (m ++ r) = blocks n m.
Proof.
  intros Hl. unfold blocks. apply list_fmap_ext. intros i j Hj.
  apply lookup_seq in Hj as [-> Hj]. simpl. unfold slice.
  rewrite drop_app_le by lia. rewrite take_app_le by (rewrite length_drop; lia). done.
Qed.

Lemma blocks_S n m : blocks (S n) m = blocks n m ++ [slice m (64 * n) 64].
Proof. unfold blocks. by rewrite seq_S, fmap_app. Qed.

Lemma state_of_full n m r :
  length m = (64 * n)%nat → (length r < 64)%nat →
  state_of (m ++ r) = foldl sha1_compress sha1_H0 (blocks n m).
Proof.
  intros Hm Hr. unfold state_of. rewrite length_app, Hm.
  replace ((64 * n + length r) / 64)%nat with n; [by rewrite blocks_app|].
  apply (Nat.div_unique _ _ _ (length r)); lia.
Qed.

Lemma state_of_block n m blk :
  length m = (64 * n)%nat → length blk = 64%nat →
  state_of (m ++ blk) = sha1_compress (state_of m) blk.
Proof.
  intros Hm Hb. rewrite <-(app_nil_r (m ++ blk)).
  rewrite (state_of_full (S n)) by (rewrite ?length_app; simpl; lia).
  rewrite blocks_S, foldl_app, blocks_app by done. simpl. f_equal.
  - rewrite <-(app_nil_r m) at 2. symmetry. apply state_of_full; simpl; lia.
  - unfold slice. rewrite drop_app_length' by lia. rewrite take_ge by lia. done.
Qed.

(** ** Streaming *)

(** The context holds the message [m] so far. *)
Definition holds (c : sha1_ctx) (m : list Z) : Prop :=
  ∃ n full tail, m = full ++ tail ∧ length full = (64 * n)%nat ∧ (length tail < 64)%nat ∧
    ctx_h c = state_of full ∧ total_len c = Z.of_nat (length m) ∧
    buf_len c = Z.of_nat (length tail) ∧ length (ctx_buf c) = 64%nat ∧
    take (length tail) (ctx_buf c) = tail.

Lemma wp_fill_buf off data n (Q : unit → sha1_ctx → Prop) c :
  0 ≤ off → off + Z.of_nat (length data) ≤ 64 → length (ctx_buf c) = 64%nat →
  Q tt (set_buf (splice (ctx_buf c) (Z.to_nat off) data) n c) →
  wp (fill_buf off data n) Q c.
Proof.
  intros Ho Hd Hl HQ. unfold fill_buf. eapply wp_update_opt; [|exact HQ].
  unfold put_bytes. destruct (Z.leb_spec 0 off); [|lia].
  destruct (Z.leb_spec (off + Z.of_nat (length data)) (Z.of_nat (length (ctx_buf c)))); [done|lia].
Qed.

(** The loop over full blocks and the rest, from an empty buffer. *)
Lemma wp_absorb (data full : list Z) n off (Q : unit → sha1_ctx → Prop) c :
  length full = (64 * n)%nat → (off ≤ length data)%nat →
  Z.of_nat (length data) + 64 < 2 ^ 32 → length (ctx_buf c) = 64%nat → buf_len c = 0 →
  ctx_h c = state_of full → total_len c = Z.of_nat (length full + (length data - off)) →
  (∀ c', holds c' (full ++ drop off data) → Q tt c') →
  wp (off ← while (2 ^ 32) (λ off,
        if u32 (off + 64) <=? Z.of_nat (length data) then
          compress_block (slice data (Z.to_nat off) 64);;
          mret (inl (u32 (off + 64)))
        else mret (inr off)) (Z.of_nat off);
      let rem := u32 (Z.of_nat (length data) - off) in
      if 0 <? rem then fill_buf 0 (slice data (Z.to_nat off) (Z.to_nat rem)) (u8 rem)
      else mret tt) Q c.
Proof.
  intros Hfull Hoff Hlen Hbuf Hbl Hh Ht HQ. apply wp_bind.
  apply (wp_while _ _
    (λ z s, ∃ j, z = Z.of_nat (off + 64 * j) ∧ (off + 64 * j ≤ length data)%nat ∧
       s = set_h (state_of (full ++ slice data off (64 * j))) c)
    (λ z _, Z.of_nat (length data) - z)).
  - exists 0%nat. split; [f_equal; lia|]. split; [lia|].
    unfold slice. rewrite take_0, app_nil_r. destruct c; simpl in *. by rewrite Hh.
  - lia.
  - intros z s (j & -> & Hj & ->). rewrite u32_small by lia.
    destruct (Z.leb_spec (Z.of_nat (off + 64 * j) + 64) (Z.of_nat (length data))).
    + apply wp_bind, wp_modify, wp_ret. split; [|lia]. exists (S j). split; [lia|]. split; [lia|].
      assert (length (slice data (off + 64 * j) 64) = 64%nat) as Hb.
      { unfold slice. rewrite length_take, length_drop. lia. }
      assert (length (slice data off (64 * j)) = 64 * j)%nat as Hs.
      { unfold slice. rewrite length_take, length_drop. lia. }
      assert (slice data off (64 * S j) = slice data off (64 * j) ++ slice data (off + 64 * j) 64) as ->.
      { unfold slice. replace (64 * S j)%nat with (64 * j + 64)%nat by lia.
        by rewrite <-take_take_drop, drop_drop. }
      rewrite app_assoc, (state_of_block (n + j) (full ++ slice data off (64 * j))) by (rewrite ?length_app; lia).
      unfold set_h. simpl. rewrite Nat2Z.id. done.
    + apply wp_ret. cbv beta zeta. set (o := (off + 64 * j)%nat) in *.
      assert (length (slice data off (64 * j)) = 64 * j)%nat as Hs.
      { unfold slice. rewrite length_take, length_drop. lia. }
      rewrite u32_small by lia.
      assert (full ++ drop off data = (full ++ slice data off (64 * j)) ++ drop o data) as Em.
      { rewrite <-app_assoc. f_equal. unfold slice, o. rewrite <-drop_drop. by rewrite take_drop. }
      assert (∀ b, length b = 64%nat → take (length data - o) b = drop o data →
        Q tt (Sha1Ctx (state_of (full ++ slice data off (64 * j))) (total_len c) b
               (Z.of_nat (length data - o)))) as Hfin.
      { intros b Hb Htk. apply HQ. rewrite Em.
        exists (n + j)%nat, (full ++ slice data off (64 * j)), (drop o data).
        cbn [ctx_h total_len buf_len ctx_buf].
        split; [done|]. split; [rewrite length_app; lia|]. rewrite length_drop.
        split; [lia|]. split; [done|]. split; [rewrite Ht, !length_app, length_drop; unfold o; lia|]. done. }
      destruct (Z.ltb_spec 0 (Z.of_nat (length data) - Z.of_nat o)).
      * replace (Z.to_nat (Z.of_nat (length data) - Z.of_nat o)) with (length data - o)%nat by lia.
        rewrite Nat2Z.id, u8_small by lia.
        assert (slice data o (length data - o) = drop o data) as ->.
        { unfold slice. apply take_ge. rewrite length_drop. lia. }
        apply wp_fill_buf; [lia|rewrite length_drop; lia|done|].
        unfold set_buf. cbn [ctx_h total_len buf_len ctx_buf set_h].
        replace (Z.of_nat (length data) - Z.of_nat o) with (Z.of_nat (length data - o)) by lia.
        apply Hfin; [rewrite length_splice; rewrite ?length_drop; lia|].
        unfold splice. simpl. apply take_app_length'. rewrite length_drop. lia.
      * apply wp_ret. assert (length data - o = 0)%nat as E0 by lia.
        specialize (Hfin (ctx_buf c) Hbuf). rewrite E0 in Hfin.
        unfold set_h. rewrite Hbl. apply Hfin. rewrite take_0. symmetry. apply nil_length_inv.
        rewrite length_drop. lia.
Qed.

Lemma splice_full (b tail d : list Z) :
  length b = 64%nat → take (length tail) b = tail → (length tail + length d = 64)%nat →
  splice b (length tail) d = tail ++ d.
Proof.
  intros Hb Ht Hl. unfold splice. rewrite Ht, Hl, drop_ge by lia. by rewrite app_nil_r.
Qed.

Lemma wp_sha1_update c m data :
  holds c m → Z.of_nat (length data) + 64 < 2 ^ 32 →
  Z.of_nat (length m + length data) < 2 ^ 64 →
  wp (sha1_update data) (λ _ c', holds c' (m ++ data)) c.
Proof.
  intros (n & full & tail & -> & Hfull & Htail & Hh & Ht & Hbl & Hbuf & Htk) Hlen Hmax.
  rewrite length_app in Ht, Hmax. unfold sha1_update. cbv zeta.
  apply wp_bind, wp_modify, wp_bind, wp_gets. cbn [buf_len]. rewrite Ht, Hbl, u64_small by lia.
  apply wp_bind. destruct (Z.ltb_spec 0 (Z.of_nat (length tail))).
  2: { assert (tail = []) as -> by (apply nil_length_inv; lia). apply wp_ret.
       apply (wp_absorb data full n 0); cbn [ctx_h total_len buf_len ctx_buf]; simpl; try done; try lia.
       intros c' Hc'. by rewrite app_nil_r. }
  destruct (Z.ltb_spec (Z.of_nat (length data)) (64 - Z.of_nat (length tail))).
  - apply wp_bind, wp_fill_buf; cbn [ctx_buf]; [lia|lia|done|]. apply wp_ret, wp_ret.
    rewrite !u8_small by (rewrite ?u8_small; lia). rewrite Nat2Z.id.
    exists n, full, (tail ++ data). cbn. rewrite <-!app_assoc, !length_app.
    split; [done|]. split; [done|]. split; [lia|]. split; [done|]. split; [lia|]. split; [lia|].
    split; [rewrite length_splice; lia|].
    unfold splice. rewrite app_assoc, Htk. by apply take_app_length'; rewrite length_app.
  - set (need := (64 - length tail)%nat).
    replace (64 - Z.of_nat (length tail)) with (Z.of_nat need) by lia. rewrite Nat2Z.id.
    assert (length (take need data) = need) as Hneed by (rewrite length_take; lia).
    apply wp_bind, wp_fill_buf; cbn [ctx_buf]; [lia|lia|done|]. rewrite Nat2Z.id.
    rewrite splice_full by (done || lia).
    apply wp_bind, wp_gets, wp_bind, wp_modify, wp_bind, wp_modify, wp_ret.
    cbn [ctx_h total_len buf_len ctx_buf set_buf set_h].
    apply (wp_absorb data (full ++ tail ++ take need data) (S n) need);
      cbn [ctx_h total_len buf_len ctx_buf set_buf set_h]; rewrite ?length_app; try done; try lia.
    + rewrite (state_of_block n), Hh; rewrite ?length_app; (done || lia).
    + intros c' Hc'. rewrite <-(take_drop need data), !app_assoc. by rewrite !app_assoc in Hc'.
Qed.

(** ** Padding *)

Lemma holds_det c m m' : holds c m → m = m' → holds c m'.
Proof. by intros ? <-. Qed.

Lemma holds_buf_len c m : holds c m → buf_len c = Z.of_nat (length m) mod 64.
Proof.
  intros (n & full & tail & -> & Hf & Htl & _ & _ & -> & _). rewrite length_app.
  apply (Z.mod_unique_pos _ _ (Z.of_nat n)); lia.
Qed.

(** Zeros are added up to offset 56. *)
Lemma wp_zero_fill c m k :
  holds c m → Z.of_nat (length m) < 2 ^ 63 → (k < 64)%nat →
  (Z.of_nat (length m) + Z.of_nat k) mod 64 = 56 →
  wp (while 64 (λ _ : unit,
        n ← gets buf_len;
        if negb (n =? 56) then sha1_update [0];; mret (inl tt) else mret (inr tt)) tt)
    (λ _ c', holds c' (m ++ replicate k 0)) c.
Proof.
  intros Hm Hmax Hk Hmod.
  apply (wp_while_idx _ _ (λ v _ c, ∃ j, (j ≤ k)%nat ∧ v = Z.of_nat (k - j) ∧
    holds c (m ++ replicate j 0)) _ (Z.of_nat k)); [|lia|].
  { exists 0%nat. rewrite app_nil_r. split; [lia|]. split; [f_equal; lia|done]. }
  intros v [] s (j & Hj & -> & Hs). apply wp_bind, wp_gets.
  rewrite (holds_buf_len _ _ Hs), length_app, length_replicate.
  destruct (Z.eqb_spec (Z.of_nat (length m + j) mod 64) 56) as [E|E]; simpl negb; cbv iota.
  - apply wp_ret. assert (j = k) as -> by (Z.to_euclidean_division_equations; lia). done.
  - assert (j < k)%nat.
    { destruct (decide (j = k)) as [->|]; [|lia]. exfalso. apply E. rewrite <-Hmod. f_equal. lia. }
    apply wp_bind. eapply wp_mono; [apply (wp_sha1_update _ _ _ Hs); simpl; rewrite ?length_app, ?length_replicate; lia|].
    intros u s' Hs'. apply wp_ret. exists (Z.of_nat (k - S j)). split; [lia|]. exists (S j).
    split; [lia|]. split; [done|].
    rewrite replicate_S_end, app_assoc. exact Hs'.
Qed.

Lemma holds_aligned c m : holds c m → Z.of_nat (length m) mod 64 = 0 → ctx_h c = state_of m.
Proof.
  intros Hm Hal. pose proof (holds_buf_len _ _ Hm) as Hbl.
  destruct Hm as (n & full & tail & -> & _ & _ & -> & _ & Htl & _).
  rewrite Hal in Hbl. assert (tail = []) as -> by (apply nil_length_inv; lia).
  by rewrite app_nil_r.
Qed.

Lemma wp_sha1_final c m :
  holds c m → Z.of_nat (length m) < 2 ^ 60 →
  wp sha1_final (λ d _, d = sha1_ref m) c.
Proof.
  intros Hm Hmax. unfold sha1_final.
  assert (total_len c = Z.of_nat (length m)) as Ht by (by destruct Hm as (?&?&?&?&?&?&?&?&?)).
  apply wp_bind, wp_gets. rewrite Ht, u64_small by lia.
  apply wp_bind. eapply wp_mono; [apply (wp_sha1_update _ _ _ Hm); simpl; lia|].
  intros u1 c1 H1. apply wp_bind. unfold pad_zeros.
  set (k := pad_zeros (length m)).
  assert (Z.of_nat k = (55 - Z.of_nat (length m)) mod 64) as Hk.
  { unfold k, pad_zeros. rewrite Z2Nat.id; [done|]. apply Z.mod_pos_bound. lia. }
  assert (0 ≤ Z.of_nat k < 64) as Hkr by (rewrite Hk; apply Z.mod_pos_bound; lia).
  eapply wp_mono; [apply (wp_zero_fill _ _ k H1); rewrite ?length_app; simpl; [lia|lia|]|].
  { rewrite Hk. Z.to_euclidean_division_equations. lia. }
  intros u2 c2 H2. apply wp_bind.
  eapply wp_mono; [apply (wp_sha1_update _ _ _ H2); rewrite ?length_app, ?length_replicate; simpl; lia|].
  intros u3 c3 H3. apply wp_gets. unfold sha1_ref.
  assert (((m ++ [0x80]) ++ replicate k 0) ++ len_be (Z.of_nat (length m) * 8) = pad m) as Ep.
  { unfold pad. fold k. by rewrite <-!app_assoc, (Z.mul_comm 8). }
  rewrite Ep in H3. rewrite (holds_aligned _ _ H3); [done|].
  rewrite <-Ep, !length_app, length_replicate. simpl length.
  rewrite !Nat2Z.inj_add, Hk. simpl Z.of_nat. Z.to_euclidean_division_equations. lia.
Qed.

(** A message hashed in pieces. *)
Fixpoint sha1_updates (chunks : list (list Z)) : M sha1_ctx unit :=
  match chunks with [] => mret tt | d :: chunks => sha1_update d;; sha1_updates chunks end.

Lemma wp_sha1_updates c m chunks :
  holds c m → Forall (λ d, Z.of_nat (length d) + 64 < 2 ^ 32) chunks →
  Z.of_nat (length (m ++ concat chunks)) < 2 ^ 60 →
  wp (sha1_updates chunks) (λ _ c', holds c' (m ++ concat chunks)) c.
Proof.
  intros Hm Hc. revert c m Hm. induction Hc as [|d chunks Hd _ IH]; intros c m Hm Hmax; simpl.
  { apply wp_ret. by rewrite app_nil_r. }
  simpl in Hmax. rewrite !length_app in Hmax. apply wp_bind.
  eapply wp_mono; [apply (wp_sha1_update _ _ _ Hm Hd); lia|].
  intros u c1 H1. rewrite app_assoc. apply IH; [done|]. rewrite !length_app. lia.
Qed.

Lemma holds_init c : length (ctx_buf c) = 64%nat → holds (Sha1Ctx sha1_H0 0 (ctx_buf c) 0) [].
Proof. intros Hl. exists 0%nat, [], []. by split_and!; simpl; try lia. Qed.

Definition junk_ok (junk : sha1_ctx) : Prop := length (ctx_buf junk) = 64%nat.

Lemma sha1_stream junk chunks :
  junk_ok junk → Forall (λ d, Z.of_nat (length d) + 64 < 2 ^ 32) chunks →
  Z.of_nat (length (concat chunks)) < 2 ^ 60 →
  on_ctx junk (sha1_init;; sha1_updates chunks;; sha1_final) = Some (sha1_ref (concat chunks)).
Proof.
  intros Hj Hc Hmax. apply wp_value, wp_bind, wp_modify, wp_bind.
  eapply wp_mono; [by apply (wp_sha1_updates _ [] chunks); [apply holds_init|..]|].
  intros u c1 H1. by apply wp_sha1_final.
Qed.

Lemma sha1_eq junk data :
  junk_ok junk → Z.of_nat (length data) + 64 < 2 ^ 32 → sha1 junk data = Some (sha1_ref data).
Proof.
  intros Hj Hd. apply wp_value, wp_bind, wp_modify, wp_bind.
  eapply wp_mono; [apply (wp_sha1_update _ []); [by apply holds_init|done|simpl; lia]|].
  intros u c1 H1. apply wp_sha1_final; [done|lia].
Qed.

Lemma sha1_two junk a b :
  junk_ok junk → Z.of_nat (length a) + 64 < 2 ^ 32 → Z.of_nat (length b) + 64 < 2 ^ 32 →
  on_ctx junk (sha1_init;; sha1_update a;; sha1_update b;; sha1_final) = Some (sha1_ref (a ++ b)).
Proof.
  intros Hj Ha Hb. apply wp_value, wp_bind, wp_modify, wp_bind.
  eapply wp_mono; [apply (wp_sha1_update _ []); [by apply holds_init|done|simpl; lia]|].
  intros u c1 H1. simpl in H1. apply wp_bind.
  eapply wp_mono; [by apply (wp_sha1_update _ _ _ H1); [|lia]|].
  intros u2 c2 H2. apply wp_sha1_final; [done|rewrite length_app; lia].
Qed.

Lemma length_sha1_ref m : length (sha1_ref m) = 20%nat.
Proof. reflexivity. Qed.

(** ** Key derivation *)

Definition hmac_ref (key m : list Z) : list Z :=
  let k := if (64 <? length key)%nat then sha1_ref key else key in
  let k := k ++ replicate (64 - length k) 0 in
  sha1_ref (((λ b, Z.lxor b 0x5C) <$> k) ++ sha1_ref (((λ b, Z.lxor b 0x36) <$> k) ++ m)).

(** The number of 20-byte digests that cover [n] bytes. *)
Definition digests (n : Z) : Z := (n + 19) / 20.

Definition prf_ref (key label data : list Z) (n : Z) : list Z :=
  take (Z.to_nat n) (concat
    ((λ i, hmac_ref key (label ++ [0] ++ data ++ [u8 i])) <$> seqZ 0 (digests n))).

(** U_1, U_2, ... and their exclusive or. *)
Definition pbkdf2_block (password salt : list Z) (c i : Z) : list Z :=
  let u1 := hmac_ref password (salt ++ sha1_be32_put i) in
  foldl cry_xor u1 ((λ j, Nat.iter j (hmac_ref password) u1) <$> seq 1 (Z.to_nat (c - 1))).
Definition pbkdf2_ref (password salt : list Z) (c n : Z) : list Z :=
  take (Z.to_nat n) (concat ((λ i, pbkdf2_block password salt c (i + 1)) <$> seqZ 0 (digests n))).

Lemma length_hmac_ref key m : length (hmac_ref key m) = 20%nat.
Proof. reflexivity. Qed.

Lemma bytes_sha1_ref m : bytes (sha1_ref m).
Proof.
  unfold sha1_ref, digest_of. apply Forall_concat, Forall_fmap, Forall_forall. intros i _.
  cbv beta. unfold compose, sha1_be32_put. repeat (apply Forall_cons; split; [apply u8_range|]).
  by apply Forall_nil.
Qed.

Lemma bytes_hmac_ref key m : bytes (hmac_ref key m).
Proof. apply bytes_sha1_ref. Qed.

(** A hash input that the 32-bit length arithmetic handles. *)
Definition small (l : list Z) : Prop := Z.of_nat (length l) < 2 ^ 32 - 64.

#[local] Opaque sha1_ref sha1_init sha1_update sha1_final.

Lemma pad_key k : (length k ≤ 64)%nat →
  put_bytes (replicate 64 0) 0 k = Some (k ++ replicate (64 - length k) 0) ∧
  length (k ++ replicate (64 - length k) 0) = 64%nat.
Proof.
  intros Hk. rewrite length_app, length_replicate. split; [|lia].
  unfold put_bytes. rewrite length_replicate.
  destruct (Z.leb_spec 0 0); [|lia]. destruct (Z.leb_spec (0 + Z.of_nat (length k)) (Z.of_nat 64)); [|lia].
  cbn [andb]. f_equal. unfold splice. change (Z.to_nat 0) with 0%nat.
  by rewrite take_0, app_nil_l, Nat.add_0_l, drop_replicate.
Qed.

Lemma hmac_sha1_eq junk key data :
  junk_ok junk → small key → small data →
  hmac_sha1 junk key data = Some (hmac_ref key data).
Proof.
  unfold small. intros Hj Hk Hd. unfold hmac_sha1, hmac_ref.
  set (k := if (64 <? length key)%nat then sha1_ref key else key).
  assert (length k ≤ 64)%nat as Hkl.
  { unfold k. destruct (Nat.ltb_spec 64 (length key)); [rewrite length_sha1_ref|]; lia. }
  destruct (pad_key k Hkl) as [Hput Hp].
  eapply (bind_Some _ _ k).
  { unfold k. destruct (64 <? length key)%nat; [apply sha1_eq; [done|lia]|done]. }
  eapply bind_Some; [exact Hput|].
  eapply bind_Some; [apply sha1_two; [done|rewrite length_fmap, Hp; lia|lia]|].
  apply sha1_two; [done|rewrite length_fmap, Hp; lia|rewrite length_sha1_ref; lia].
Qed.

(** Output produced 20 bytes at a time is a prefix of the digests. *)
Lemma take_digests (f : Z → list Z) n i :
  (∀ i, length (f i) = 20%nat) → 0 ≤ i < digests n → 0 ≤ n →
  let copy := if 20 <? n - 20 * i then 20 else n - 20 * i in
  take (Z.to_nat (Z.min n (20 * i))) (concat (f <$> seqZ 0 i)) ++ take (Z.to_nat copy) (f i) =
  take (Z.to_nat (Z.min n (20 * (i + 1)))) (concat (f <$> seqZ 0 (i + 1))).
Proof.
  intros Hf Hi Hn copy. unfold digests in Hi.
  assert (20 * i < n) by (Z.to_euclidean_division_equations; lia).
  assert (∀ k, 0 ≤ k → length (concat (f <$> seqZ 0 k)) = Z.to_nat (20 * k)) as Hc.
  { intros k Hk. revert k Hk. apply natlike_ind; [done|]. intros k Hk IH.
    rewrite <-Z.add_1_r, seqZ_app, fmap_app, concat_app, length_app, IH by lia.
    rewrite (seqZ_cons _ 1), (seqZ_nil _ (Z.pred 1)) by lia. simpl. rewrite app_nil_r, Hf. lia. }
  rewrite seqZ_app, fmap_app, concat_app by lia.
  rewrite (seqZ_cons _ 1), (seqZ_nil _ (Z.pred 1)) by lia. simpl. rewrite app_nil_r.
  rewrite Z.min_r by lia. rewrite take_ge by (rewrite Hc; lia).
  rewrite take_app_ge by (rewrite Hc; lia). rewrite Hc by lia. do 2 f_equal.
  unfold copy. destruct (Z.ltb_spec 20 (n - 20 * i)); lia.
Qed.

Lemma length_cry_xor a b n : length a = n → length b = n → length (cry_xor a b) = n.
Proof. intros. unfold cry_xor. rewrite length_zip_with. lia. Qed.

Lemma length_iter_hmac p u k : length u = 20%nat → length (Nat.iter k (hmac_ref p) u) = 20%nat.
Proof. intros Hu. destruct k; [done|]. apply length_hmac_ref. Qed.

Lemma length_pbkdf2_block p salt c i : length (pbkdf2_block p salt c i) = 20%nat.
Proof.
  unfold pbkdf2_block. generalize (seq 1 (Z.to_nat (c - 1))). intros js.
  set (u1 := hmac_ref _ _).
  assert (∀ t, length t = 20%nat →
    length (foldl cry_xor t ((λ j, Nat.iter j (hmac_ref p) u1) <$> js)) = 20%nat) as H.
  { induction js as [|j js IH]; intros t Ht; simpl; [done|]. apply IH, length_cry_xor; [done|].
    by apply length_iter_hmac. }
  by apply H.
Qed.

Lemma length_concat_digests (f : Z → list Z) k :
  (∀ i, length (f i) = 20%nat) → 0 ≤ k → Z.of_nat (length (concat (f <$> seqZ 0 k))) = 20 * k.
Proof.
  intros Hf Hk. revert k Hk. apply natlike_ind; [done|]. intros k Hk IH.
  rewrite <-Z.add_1_r, seqZ_app, fmap_app, concat_app, length_app by lia.
  rewrite (seqZ_cons _ 1), (seqZ_nil _ (Z.pred 1)) by lia. simpl. rewrite app_nil_r, Hf. lia.
Qed.

Lemma length_prf_ref key label data n : 0 ≤ n → length (prf_ref key label data n) = Z.to_nat n.
Proof.
  intros Hn. unfold prf_ref. rewrite length_take.
  pose proof (length_concat_digests (λ i, hmac_ref key (label ++ [0] ++ data ++ [u8 i])) (digests n)
    (λ i, length_hmac_ref _ _)) as H. unfold digests in *. Z.to_euclidean_division_equations. lia.
Qed.

Lemma length_pbkdf2_ref p salt c n : 0 ≤ n → length (pbkdf2_ref p salt c n) = Z.to_nat n.
Proof.
  intros Hn. unfold pbkdf2_ref. rewrite length_take.
  pose proof (length_concat_digests (λ i, pbkdf2_block p salt c (i + 1)) (digests n)
    (λ i, length_pbkdf2_block _ _ _ _)) as H. unfold digests in *.
  Z.to_euclidean_division_equations. lia.
Qed.

Lemma bytes_prf_ref key label data n : bytes (prf_ref key label data n).
Proof.
  unfold prf_ref. apply bytes_take. apply Forall_concat, Forall_fmap, Forall_forall. intros i _.
  apply bytes_hmac_ref.
Qed.

(** The loop shared by [prf] and [pbkdf2_sha1]: digests are appended until
    [n] bytes are written. *)
Lemma digest_loop (f : Z → list Z) (step : Z → Z) (start : Z) n
    (gen : Z → option (list Z)) :
  (∀ i, length (f i) = 20%nat) → 0 ≤ n < 2 ^ 32 →
  (∀ i, 0 ≤ i < digests n → gen (Nat.iter (Z.to_nat i) step start) = Some (f i)) →
  while_opt (2 ^ 32) (λ '(out, counter),
    let pos := Z.of_nat (length out) in
    if pos <? n then
      d ← gen counter;
      let copy := n - pos in
      let copy := if 20 <? copy then 20 else copy in
      Some (inl (out ++ take (Z.to_nat copy) d, step counter))
    else Some (inr out)) ([], start) =
  Some (take (Z.to_nat n) (concat (f <$> seqZ 0 (digests n)))).
Proof.
  intros Hf Hn Hgen.
  assert (0 ≤ digests n) as Hd0 by (unfold digests; Z.to_euclidean_division_equations; lia).
  apply (while_opt_eq (2 ^ 32) _
    (λ '(out, counter), ∃ i, 0 ≤ i ≤ digests n ∧ counter = Nat.iter (Z.to_nat i) step start ∧
       out = take (Z.to_nat (Z.min n (20 * i))) (concat (f <$> seqZ 0 i)))
    (λ '(out, _), n - Z.of_nat (length out))); [|simpl; lia|].
  { exists 0. split; [lia|]. split; [done|]. rewrite (seqZ_nil 0 0) by lia. cbn [fmap list_fmap concat].
    by rewrite take_nil. }
  intros [out counter] (i & Hi & -> & Eout).
  assert (Z.of_nat (length out) = Z.min n (20 * i)) as Hlen.
  { rewrite Eout, length_take.
    pose proof (length_concat_digests f i Hf ltac:(lia)). lia. }
  cbv zeta. rewrite Hlen. unfold digests in *. destruct (Z.ltb_spec (Z.min n (20 * i)) n).
  - assert (i < (n + 19) / 20) by (Z.to_euclidean_division_equations; lia).
    rewrite Hgen by lia. cbn [mbind option_bind]. rewrite Z.min_r by lia.
    pose proof (take_digests f n i Hf ltac:(unfold digests; lia) ltac:(lia)) as Ht. cbv zeta in Ht.
    split.
    + exists (i + 1). split; [lia|]. split.
      { replace (Z.to_nat (i + 1)) with (S (Z.to_nat i)) by lia. done. }
      rewrite Eout. exact Ht.
    + rewrite length_app, length_take, Hf. destruct (Z.ltb_spec 20 (n - 20 * i)); lia.
  - rewrite Eout. assert (i = (n + 19) / 20) as -> by (Z.to_euclidean_division_equations; lia).
    by rewrite Z.min_l by lia.
Qed.

Lemma iter_u8 i : Nat.iter i (λ c, u8 (c + 1)) 0 = u8 (Z.of_nat i).
Proof.
  induction i as [|i IH]; [done|]. simpl Nat.iter. rewrite IH. unfold u8.
  rewrite Zplus_mod_idemp_l. f_equal. lia.
Qed.

Lemma iter_u32 i : Z.of_nat i + 1 < 2 ^ 32 → Nat.iter i (λ c, u32 (c + 1)) 1 = Z.of_nat i + 1.
Proof.
  induction i as [|i IH]; intros Hi; [done|]. simpl Nat.iter. rewrite IH by lia.
  rewrite u32_small; lia.
Qed.

Lemma prf_eq junk key label data n :
  junk_ok junk → small key → Z.of_nat (length label) + Z.of_nat (length data) + 2 ≤ 128 →
  0 ≤ n < 2 ^ 32 →
  prf junk key label data n = Some (prf_ref key label data n).
Proof.
  intros Hj Hk Hl Hn. unfold prf. cbv zeta.
  destruct (Z.ltb_spec 128 (Z.of_nat (length label) + 1 + Z.of_nat (length data) + 1)); [lia|].
  apply (digest_loop (λ i, hmac_ref key (label ++ [0] ++ data ++ [u8 i])) (λ c, u8 (c + 1)) 0 n
    (λ c, hmac_sha1 junk key (label ++ [0] ++ data ++ [c]))); [|done|].
  - intros i. apply length_hmac_ref.
  - intros i Hi. rewrite iter_u8, Z2Nat.id by lia. apply hmac_sha1_eq; [done|done|].
    unfold small. rewrite !length_app. simpl. lia.
Qed.

Lemma pbkdf2_rounds_eq junk p u c :
  junk_ok junk → small p → length u = 20%nat → 0 < c < 2 ^ 32 →
  pbkdf2_rounds junk p u u c =
  Some (foldl cry_xor u ((λ j, Nat.iter j (hmac_ref p) u) <$> seq 1 (Z.to_nat (c - 1)))).
Proof.
  intros Hj Hp Hu Hc. unfold pbkdf2_rounds.
  apply (while_opt_eq (2 ^ 32) _
    (λ '(j, v, t), 1 ≤ j ≤ c ∧ v = Nat.iter (Z.to_nat (j - 1)) (hmac_ref p) u ∧
       t = foldl cry_xor u ((λ j, Nat.iter j (hmac_ref p) u) <$> seq 1 (Z.to_nat (j - 1))))
    (λ '(j, _, _), c - j)); [|lia|].
  { split; [lia|]. done. }
  intros [[j v] t] (Hjr & Ev & Et). destruct (Z.ltb_spec j c).
  - rewrite hmac_sha1_eq; [|done|done|].
    2: { unfold small. rewrite Ev, length_iter_hmac by done. lia. }
    cbn [mbind option_bind]. rewrite u32_small by lia. split; [|lia]. split; [lia|].
    replace (Z.to_nat (j + 1 - 1)) with (S (Z.to_nat (j - 1))) by lia.
    rewrite seq_S, fmap_app, foldl_app. simpl foldl at 2. rewrite <-Et, Ev.
    split; [done|]. done.
  - by replace j with c in Et by lia.
Qed.

Lemma pbkdf2_eq junk p salt c n :
  junk_ok junk → small p → 0 < c < 2 ^ 32 → 0 ≤ n < 2 ^ 32 →
  pbkdf2_sha1 junk p salt c n = Some (pbkdf2_ref p (take 64 salt) c n).
Proof.
  intros Hj Hp Hc Hn. unfold pbkdf2_sha1. cbv zeta.
  assert (digests n < 2 ^ 32 - 1) as Hd by (unfold digests; Z.to_euclidean_division_equations; lia).
  apply (digest_loop (λ i, pbkdf2_block p (take 64 salt) c (i + 1)) (λ b, u32 (b + 1)) 1 n
    (pbkdf2_f junk p (take 64 salt) c)); [intros; apply length_pbkdf2_block|done|].
  intros i Hi. rewrite iter_u32, Z2Nat.id by lia. unfold pbkdf2_f.
  eapply bind_Some; [apply hmac_sha1_eq; [done|done|]|by apply pbkdf2_rounds_eq].
  unfold small. rewrite length_app, length_take. change (length (sha1_be32_put _)) with 4%nat. lia.
Qed.

(** ** Properties *)

(** Hashing a message in pieces of any sizes gives the SHA-1 of the message:
    the compression function folded over the 64-byte blocks of the padded
    message, whatever the context held before it was initialised. *)
Theorem sha1_streaming junk chunks :
  junk_ok junk → Forall (λ d, Z.of_nat (length d) + 64 < 2 ^ 32) chunks →
  Z.of_nat (length (concat chunks)) < 2 ^ 60 →
  on_ctx junk (sha1_init;; sha1_updates chunks;; sha1_final) = Some (sha1_ref (concat chunks)).
Proof. apply sha1_stream. Qed.

Definition demo_junk : sha1_ctx := Sha1Ctx [1; 2] 7 (replicate 64 0xCC) 9.

(** "abc" hashed as "a" and "bc". *)
Lemma sha1_streaming_witness :
  on_ctx demo_junk (sha1_init;; sha1_updates [[97]; [98; 99]];; sha1_final) =
    Some (sha1_ref [97; 98; 99]) ∧
  sha1_ref [97; 98; 99] =
    [0xa9; 0x99; 0x3e; 0x36; 0x47; 0x06; 0x81; 0x6a; 0xba; 0x3e;
     0x25; 0x71; 0x78; 0x50; 0xc2; 0x6c; 0x9c; 0xd0; 0xd8; 0x9d].
Proof.
  split; [|vm_compute; reflexivity].
  apply (sha1_streaming demo_junk [[97]; [98; 99]]).
  - reflexivity.
  - by forall_list.
  - reflexivity.
Defined.

(** The key derivation of WPA2: the functions compute HMAC (RFC 2104), the
    PRF of IEEE 802.11i (the concatenation of HMACs over a counter, cut to
    size) and PBKDF2 (RFC 2898, on the first 64 bytes of the salt). *)
Theorem wpa_kdf_correct junk key label data c n :
  junk_ok junk → small key → small data → 0 < c < 2 ^ 32 → 0 ≤ n < 2 ^ 32 →
  hmac_sha1 junk key data = Some (hmac_ref key data) ∧
  prf junk key label data n =
    Some (if decide (Z.of_nat (length label) + Z.of_nat (length data) + 2 ≤ 128)
          then prf_ref key label data n else []) ∧
  pbkdf2_sha1 junk key data c n = Some (pbkdf2_ref key (take 64 data) c n).
Proof.
  intros Hj Hk Hd Hc Hn. split; [by apply hmac_sha1_eq|]. split; [|by apply pbkdf2_eq].
  case_decide; [by apply prf_eq|]. unfold prf. cbv zeta.
  destruct (Z.ltb_spec 128 (Z.of_nat (length label) + 1 + Z.of_nat (length data) + 1)); [done|lia].
Qed.

(** The second test vector of RFC 6070: "password", "salt", 2 rounds. *)
Lemma wpa_kdf_correct_witness :
  pbkdf2_sha1 demo_junk [112; 97; 115; 115; 119; 111; 114; 100] [115; 97; 108; 116] 2 20 =
    Some (pbkdf2_ref [112; 97; 115; 115; 119; 111; 114; 100] [115; 97; 108; 116] 2 20).
Proof.
  apply (wpa_kdf_correct demo_junk [112; 97; 115; 115; 119; 111; 114; 100] []
    [115; 97; 108; 116] 2 20); [reflexivity|reflexivity|reflexivity|lia|lia].
Defined.

Lemma pbkdf2_test :
  pbkdf2_sha1 demo_junk [112; 97; 115; 115; 119; 111; 114; 100] [115; 97; 108; 116] 2 20 =
  Some [0xea; 0x6c; 0x01; 0x4d; 0xc7; 0x2d; 0x6f; 0x8c; 0xcd; 0x1e;
        0xd9; 0x2a; 0xce; 0x1d; 0x41; 0xf0; 0xd8; 0xde; 0x89; 0x57].
Proof. vm_compute. reflexivity. Qed.
