(* ===== verification/Ccmp.v ===== *)
(** * CCMP, key unwrapping and the nonce generator

    Translation of the rest of [src/src/drivers/net/iwl_crypto.c]: the frame
    encryption of WPA2 (AES in CCM mode, IEEE 802.11i), the unwrapping of the
    group key (RFC 3394), the constant-time comparison and the generator of
    nonces.  Frame lengths are [uint16_t], as in the code.  The buffer for the
    authenticated header starts with arbitrary contents, [junk]. *)

From S2P Require Import Prelude Loops Codec Aes Sha1.

Definition cry_cmp_step (diff : Z) (p : Z * Z) : Z := Z.lor diff (Z.lxor p.1 p.2).
Definition crypto_memcmp (a b : list Z) : Z := foldl cry_cmp_step 0 (zip a b).

(** ** The blocks of CCM *)

Definition ccmp_build_nonce (priority : Z) (a2 pn : list Z) : list Z :=
  [priority] ++ a2 ++ [at_ pn 5; at_ pn 4; at_ pn 3; at_ pn 2; at_ pn 1; at_ pn 0].

Definition ccmp_build_b0 (nonce : list Z) (payload_len : Z) : list Z :=
  [0x59] ++ nonce ++ [u8 (Z.shiftr payload_len 8); u8 payload_len].

Definition ccmp_build_ctr (nonce : list Z) (counter : Z) : list Z :=
  [0x01] ++ nonce ++ [u8 (Z.shiftr counter 8); u8 counter].

Definition frame_control (hdr : list Z) : Z := Z.lor (at_ hdr 0) (Z.shiftl (at_ hdr 1) 8).
Definition has_a4 (hdr : list Z) : bool :=
  (Z.land (frame_control hdr) 0x0300 =? 0x0300) && (30 <=? length hdr)%nat.
Definition is_qos (hdr : list Z) : bool := negb (Z.land (frame_control hdr) 0x0080 =? 0).

(** The length field: 22, or 28 with a fourth address, and 2 more for QoS. *)
Definition aad_body_len (hdr : list Z) : Z :=
  (if has_a4 hdr then 28 else 22) + (if is_qos hdr then 2 else 0).

(** The buffer [aad] and the length returned; [None] is the length 0. *)
Definition ccmp_build_aad (junk hdr : list Z) : option (list Z * Z) :=
  if (length hdr <? 24)%nat then None
  else
    let n := aad_body_len hdr in
    let fc_masked := Z.lor (at_ hdr 0) (Z.shiftl (Z.land (at_ hdr 1) 0x07) 8) in
    let aad := <[0%nat := u8 (Z.shiftr n 8)]> junk in
    let aad := <[1%nat := u8 n]> aad in
    let aad := <[2%nat := u8 fc_masked]> aad in
    let aad := <[3%nat := u8 (Z.shiftr fc_masked 8)]> aad in
    let aad := splice aad 4 (slice hdr 4 18) in
    let aad := <[22%nat := Z.land (at_ hdr 22) 0x0F]> aad in
    let aad := <[23%nat := 0]> aad in
    let aad := if has_a4 hdr then splice aad 24 (slice hdr 24 6) else aad in
    Some (aad, 2 + n).

(** One step of the CBC-MAC loop: a block, zero padded, into the state. *)
Definition cbc_step (ctx : list (list Z)) (data : list Z) (len : Z) (st : Z * list Z)
    : option ((Z * list Z) + list Z) :=
  let '(pos, cbc) := st in
  if pos <? len then
    let chunk := len - pos in
    let chunk := if 16 <? chunk then 16 else chunk in
    let blk := splice (replicate 16 0) 0 (slice data (Z.to_nat pos) (Z.to_nat chunk)) in
    Some (inl (u16 (pos + 16), aes128_encrypt ctx (cry_xor cbc blk)))
  else Some (inr cbc).
Definition cbc_mac (ctx : list (list Z)) (cbc data : list Z) (len : Z) : option (list Z) :=
  while_opt (2 ^ 16) (cbc_step ctx data len) (0, cbc).

(** The CTR loop; [out] is what was written so far. *)
Definition ctr_crypt (ctx : list (list Z)) (nonce data : list Z) (len : Z) : option (list Z) :=
  while_opt (2 ^ 16) (λ '(pos, ctr_val, out),
    if pos <? len then
      let ctr_block := aes128_encrypt ctx (ccmp_build_ctr nonce ctr_val) in
      let chunk := len - pos in
      let chunk := if 16 <? chunk then 16 else chunk in
      Some (inl (u16 (pos + chunk), u16 (ctr_val + 1),
                 out ++ cry_xor (slice data (Z.to_nat pos) (Z.to_nat chunk)) ctr_block))
    else Some (inr out)) (0, 1, []).

(** The CBC-MAC over [B0], the header and the payload. *)
Definition ccmp_mac (ctx : list (list Z)) (nonce aad : list Z) (aad_len : Z) (payload : list Z)
    : option (list Z) :=
  let pt_len := Z.of_nat (length payload) in
  let cbc := aes128_encrypt ctx (ccmp_build_b0 nonce pt_len) in
  cbc ← cbc_mac ctx cbc aad aad_len;
  cbc_mac ctx cbc payload pt_len.

(** The result and the bytes written to [out]. *)
Definition ccmp_encrypt (junk tk pn a2 : list Z) (priority : Z) (hdr plaintext : list Z)
    : option (Z * list Z) :=
  let ctx := aes128_init tk in
  let nonce := ccmp_build_nonce priority a2 pn in
  match ccmp_build_aad junk hdr with
  | None => Some (-1, [])
  | Some (aad, aad_len) =>
      cbc ← ccmp_mac ctx nonce aad aad_len plaintext;
      let mic := take 8 cbc in
      let s0 := aes128_encrypt ctx (ccmp_build_ctr nonce 0) in
      out ← ctr_crypt ctx nonce plaintext (Z.of_nat (length plaintext));
      Some (0, out ++ cry_xor mic s0)
  end.

Definition ccmp_decrypt (junk tk pn a2 : list Z) (priority : Z) (hdr ciphertext : list Z)
    : option (Z * list Z) :=
  if (length ciphertext <? 8)%nat then Some (-1, [])
  else
    let pt_len := (length ciphertext - 8)%nat in
    let ctx := aes128_init tk in
    let nonce := ccmp_build_nonce priority a2 pn in
    let s0 := aes128_encrypt ctx (ccmp_build_ctr nonce 0) in
    out ← ctr_crypt ctx nonce ciphertext (Z.of_nat pt_len);
    let received_mic := cry_xor (slice ciphertext pt_len 8) s0 in
    match ccmp_build_aad junk hdr with
    | None => Some (-1, out)
    | Some (aad, aad_len) =>
        cbc ← ccmp_mac ctx nonce aad aad_len out;
        if negb (crypto_memcmp (take 8 cbc) received_mic =? 0) then Some (-1, out)
        else Some (0, out)
    end.

(** ** AES key unwrap *)

(** [b[7] ^= ctr; b[6] ^= ctr >> 8; ...] on the eight bytes [a]. *)
Definition xor_counter (ctr : Z) (a : list Z) : list Z :=
  let a := <[7%nat := Z.lxor (at_ a 7) (u8 ctr)]> a in
  let a := <[6%nat := Z.lxor (at_ a 6) (u8 (Z.shiftr ctr 8))]> a in
  let a := <[5%nat := Z.lxor (at_ a 5) (u8 (Z.shiftr ctr 16))]> a in
  <[4%nat := Z.lxor (at_ a 4) (u8 (Z.shiftr ctr 24))]> a.

Definition unwrap_step (ctx : list (list Z)) (n : nat) (st : list Z * list Z) (ji : nat * nat)
    : list Z * list Z :=
  let '(a, output) := st in
  let '(j, i) := ji in
  let ctr := u32 (Z.of_nat (n * j + i)) in
  let b := xor_counter ctr a ++ slice output ((i - 1) * 8) 8 in
  let b := aes128_decrypt ctx b in
  (take 8 b, splice output ((i - 1) * 8) (drop 8 b)).

(** [for (j = 5; j >= 0; j--) for (i = n; i >= 1; i--)] *)
Definition unwrap_order (n : nat) : list (nat * nat) :=
  rev (j ← seq 0 6; i ← seq 1 n; [(j, i)]).

Definition default_iv : list Z := replicate 8 0xA6.

(** The result and the bytes written to [output]. *)
Definition aes_key_unwrap (kek wrapped : list Z) : Z * list Z :=
  let wrapped_len := Z.of_nat (length wrapped) in
  if (wrapped_len <? 16) || negb (wrapped_len mod 8 =? 0) then (-1, [])
  else
    let n := wrapped_len / 8 - 1 in
    if (n =? 0) || (32 <? n) then (-1, [])
    else
      let n := Z.to_nat n in
      let '(a, output) :=
        foldl (unwrap_step (aes128_init kek) n) (take 8 wrapped, slice wrapped 8 (n * 8))
          (unwrap_order n) in
      (if negb (crypto_memcmp a default_iv =? 0) then -1 else 0, output).

(** ** Nonces *)

(** [rdtsc] is a stream of time stamps. *)
Record prng := Prng { prng_state : Z * Z; prng_seeded : bool; tsc : nat → Z; tsc_reads : nat }.
Definition set_prng (p : Z * Z) (s : prng) : prng := Prng p (prng_seeded s) (tsc s) (tsc_reads s).

Definition rdtsc : M prng Z := λ s,
  Some (tsc s (tsc_reads s), Prng (prng_state s) (prng_seeded s) (tsc s) (S (tsc_reads s))).

Definition prng_step (p : Z * Z) : Z * Z :=
  let '(s0, s1) := p in
  let s1 := Z.lxor s1 s0 in
  (Z.lxor (Z.lxor (Z.lor (u64 (Z.shiftl s0 55)) (Z.shiftr s0 9)) s1) (u64 (Z.shiftl s1 14)),
   Z.lor (u64 (Z.shiftl s1 36)) (Z.shiftr s1 28)).
Definition prng_next : M prng Z :=
  r ← gets (λ s, u64 (fst (prng_state s) + snd (prng_state s)));
  modify (λ s, set_prng (prng_step (prng_state s)) s);;
  mret r.

Definition prng_seed : M prng unit :=
  t0 ← rdtsc;
  t1 ← rdtsc;
  modify (set_prng (t0, t1));;
  for_ (R := unit) 0 20 (λ _, prng_next;; mret None);;
  modify (λ s, Prng (prng_state s) true (tsc s) (tsc_reads s)).

(** The bytes written to [buf]. *)
Definition crypto_random (len : Z) : M prng (list Z) :=
  seeded ← gets prng_seeded;
  (if negb seeded then prng_seed else mret tt);;
  while (2 ^ 32) (λ buf,
    let pos := Z.of_nat (length buf) in
    if pos <? len then
      r ← prng_next;
      let chunk := len - pos in
      let chunk := if 8 <? chunk then 8 else chunk in
      mret (inl (buf ++ ((λ i, u8 (Z.shiftr r (Z.of_nat i * 8))) <$> seq 0 (Z.to_nat chunk))))
    else mret (inr buf)) [].

(** ** Comparison *)

Lemma cry_cmp_zero d l : foldl cry_cmp_step d l = 0 ↔ d = 0 ∧ Forall (λ p, p.1 = p.2) l.
Proof.
  revert d. induction l as [|[x y] l IH]; intros d; simpl.
  { split; [intros ->; by split|by intros [? _]]. }
  rewrite IH, Forall_cons. unfold cry_cmp_step. simpl. rewrite Z.lor_eq_0_iff, Z.lxor_eq_0_iff. tauto.
Qed.

Lemma crypto_memcmp_eq a b : length a = length b → (crypto_memcmp a b =? 0) = bool_decide (a = b).
Proof.
  intros Hl. unfold crypto_memcmp.
  assert (Forall (λ p : Z * Z, p.1 = p.2) (zip a b) ↔ a = b) as Hz.
  { revert b Hl. induction a as [|x a IH]; intros [|y b] Hl; try done.
    simpl. rewrite Forall_cons, IH by (by injection Hl). simpl. split; [by intros [-> ->]|by intros [= -> ->]]. }
  apply eq_bool_prop_intro. rewrite Is_true_true, Z.eqb_eq, bool_decide_spec, cry_cmp_zero, Hz. tauto.
Qed.

(** ** Counter mode *)

Lemma cry_xor_app a b c d : length a = length c → cry_xor (a ++ b) (c ++ d) = cry_xor a c ++ cry_xor b d.
Proof. intros. by apply zip_with_app. Qed.

Lemma cry_xor_cancel a k : (length a ≤ length k)%nat → cry_xor (cry_xor a k) k = a.
Proof.
  unfold cry_xor. revert k. induction a as [|x a IH]; intros [|y k] Hl; simpl in *; try done; [lia|].
  rewrite Z.lxor_assoc, Z.lxor_nilpotent, Z.lxor_0_r. f_equal. apply IH. lia.
Qed.

Lemma length_xor_le a k : (length a ≤ length k)%nat → length (cry_xor a k) = length a.
Proof. intros. unfold cry_xor. rewrite length_zip_with. lia. Qed.

Lemma bytes_cry_xor a k : bytes a → bytes k → bytes (cry_xor a k).
Proof.
  intros Ha Hk. apply Forall_lookup. intros i x Hx. unfold cry_xor in Hx.
  apply lookup_zip_with_Some in Hx as (u & v & -> & Hu & Hv).
  apply is_byte_lxor; [exact (Forall_lookup_1 _ _ _ _ Ha Hu)|exact (Forall_lookup_1 _ _ _ _ Hk Hv)].
Qed.

Section ctr.
Context (ctx : list (list Z)) (nonce : list Z).
Context (Henc : ∀ i, length (aes128_encrypt ctx (ccmp_build_ctr nonce i)) = 16%nat).

(** The key stream: the encryptions of the counters 1, 2, ... *)
Definition key_stream (n : Z) : list Z :=
  concat ((λ i, aes128_encrypt ctx (ccmp_build_ctr nonce (i + 1))) <$> seqZ 0 n).

Lemma key_stream_S n : 0 ≤ n →
  key_stream (n + 1) = key_stream n ++ aes128_encrypt ctx (ccmp_build_ctr nonce (n + 1)).
Proof.
  intros Hn. unfold key_stream. rewrite seqZ_app, fmap_app, concat_app by lia.
  rewrite (seqZ_cons _ 1), (seqZ_nil _ (Z.pred 1)) by lia.
  cbn [fmap list_fmap concat]. by rewrite app_nil_r.
Qed.

Lemma length_key_stream n : 0 ≤ n → Z.of_nat (length (key_stream n)) = 16 * n.
Proof.
  revert n. apply natlike_ind; [done|]. intros n Hn IH.
  rewrite <-Z.add_1_r, key_stream_S, length_app, Henc by lia. lia.
Qed.

Lemma ctr_crypt_eq data len :
  0 ≤ len ≤ Z.of_nat (length data) → len < 2 ^ 16 →
  ctr_crypt ctx nonce data len =
    Some (cry_xor (take (Z.to_nat len) data) (key_stream ((len + 15) / 16))).
Proof.
  intros Hlen Hmax. unfold ctr_crypt.
  apply (while_opt_eq _ _
    (λ '(pos, ctr_val, out), ∃ i, 0 ≤ i ≤ (len + 15) / 16 ∧ pos = Z.min len (16 * i) ∧
       ctr_val = i + 1 ∧ out = cry_xor (take (Z.to_nat pos) data) (key_stream i))
    (λ '(pos, _, _), len - pos)).
  - exists 0. split; [Z.to_euclidean_division_equations; lia|]. split; [lia|]. done.
  - lia.
  - intros [[pos c] out] (i & Hi & Epos & -> & Eout). destruct (Z.ltb_spec pos len) as [Hlt|Hge].
    + assert (pos = 16 * i) as -> by lia. cbv zeta.
      set (chunk := if 16 <? len - 16 * i then 16 else len - 16 * i).
      assert (0 < chunk ≤ 16 ∧ 16 * i + chunk = Z.min len (16 * (i + 1))) as [Hc1 Hc2]
        by (unfold chunk; destruct (Z.ltb_spec 16 (len - 16 * i)); lia).
      unfold u16. rewrite !Z.mod_small by (Z.to_euclidean_division_equations; lia).
      split; [|lia]. exists (i + 1). split; [Z.to_euclidean_division_equations; lia|].
      split; [lia|]. split; [lia|]. rewrite Eout, key_stream_S by lia.
      replace (Z.to_nat (16 * i + chunk)) with (Z.to_nat (16 * i) + Z.to_nat chunk)%nat by lia.
      rewrite <-take_take_drop. symmetry. apply cry_xor_app.
      pose proof (length_key_stream i). rewrite length_take. lia.
    + rewrite Eout. assert (i = (len + 15) / 16) as -> by (Z.to_euclidean_division_equations; lia).
      by replace pos with len by lia.
Qed.

(** Counter mode is its own inverse. *)
Lemma ctr_twice data k :
  Z.of_nat (length data) < 2 ^ 16 →
  let ks := key_stream ((Z.of_nat (length data) + 15) / 16) in
  ctr_crypt ctx nonce data (Z.of_nat (length data)) = Some (cry_xor data ks) ∧
  length (cry_xor data ks) = length data ∧
  ctr_crypt ctx nonce (cry_xor data ks ++ k) (Z.of_nat (length data)) = Some data.
Proof.
  intros Hd ks.
  assert (length data ≤ length ks)%nat as Hks.
  { pose proof (length_key_stream ((Z.of_nat (length data) + 15) / 16)) as Hl. fold ks in Hl.
    Z.to_euclidean_division_equations. lia. }
  pose proof (length_xor_le _ _ Hks) as Hx. split; [|split; [done|]].
  - rewrite ctr_crypt_eq by lia. by rewrite Nat2Z.id, take_ge by lia.
  - rewrite ctr_crypt_eq by (rewrite ?length_app; lia). rewrite Nat2Z.id, take_app_length' by lia.
    fold ks. by rewrite cry_xor_cancel.
Qed.
End ctr.

(** ** CBC-MAC *)

Definition pad16 (b : list Z) : list Z := splice (replicate 16 0) 0 b.
Definition cbc_ref (ctx : list (list Z)) (cbc m : list Z) : list Z :=
  foldl (λ c i, aes128_encrypt ctx (cry_xor c (pad16 (slice m (16 * i) 16)))) cbc
    (seq 0 (Z.to_nat ((Z.of_nat (length m) + 15) / 16))).

(** The next chunk of the first [len] bytes. *)
Lemma slice_chunk (data : list Z) len i :
  0 ≤ len → 16 * Z.of_nat i < len →
  slice data (Z.to_nat (16 * Z.of_nat i))
    (Z.to_nat (if 16 <? len - 16 * Z.of_nat i then 16 else len - 16 * Z.of_nat i)) =
  slice (take (Z.to_nat len) data) (16 * i) 16.
Proof.
  intros Hlen Hi. unfold slice. rewrite skipn_firstn_comm, take_take.
  replace (Z.to_nat (16 * Z.of_nat i)) with (16 * i)%nat by lia.
  replace (16 `min` (Z.to_nat len - 16 * i))%nat with
    (Z.to_nat (if 16 <? len - 16 * Z.of_nat i then 16 else len - 16 * Z.of_nat i)); [done|].
  destruct (Z.ltb_spec 16 (len - 16 * Z.of_nat i)); lia.
Qed.

Lemma cbc_mac_eq ctx cbc data len :
  0 ≤ len ≤ 65520 → len ≤ Z.of_nat (length data) →
  cbc_mac ctx cbc data len = Some (cbc_ref ctx cbc (take (Z.to_nat len) data)).
Proof.
  intros Hlen Hd. unfold cbc_mac.
  set (m := take (Z.to_nat len) data).
  set (step c i := aes128_encrypt ctx (cry_xor c (pad16 (slice m (16 * i) 16)))).
  assert (Z.of_nat (length m) = len) as Hm by (unfold m; rewrite length_take; lia).
  unfold cbc_ref. rewrite Hm. fold step.
  apply (while_opt_eq _ _
    (λ '(pos, c), ∃ i, (i ≤ Z.to_nat ((len + 15) / 16))%nat ∧ pos = 16 * Z.of_nat i ∧
       c = foldl step cbc (seq 0 i))
    (λ '(pos, _), len + 15 - pos)).
  - exists 0%nat. split; [lia|]. done.
  - lia.
  - intros [pos c] (i & Hi & -> & ->). unfold cbc_step. cbv zeta.
    destruct (Z.ltb_spec (16 * Z.of_nat i) len) as [Hlt|Hge].
    + unfold u16. rewrite Z.mod_small by lia. split; [|lia]. exists (S i).
      split; [Z.to_euclidean_division_equations; lia|]. split; [lia|].
      rewrite seq_S, foldl_app. cbn [foldl Nat.add]. rewrite slice_chunk by lia. done.
    + do 2 f_equal. Z.to_euclidean_division_equations. lia.
Qed.

#[local] Opaque aes128_encrypt aes128_decrypt aes128_init.

Lemma block_xor a b : block a → block b → block (cry_xor a b).
Proof. intros Ha Hb. by apply (block_add b a). Qed.

Lemma block_pad16 b : bytes b → (length b ≤ 16)%nat → block (pad16 b).
Proof.
  intros Hb Hl. unfold pad16. split.
  - rewrite length_splice; rewrite length_replicate; lia.
  - apply bytes_splice; [apply bytes_zero|done].
Qed.

Lemma block_cbc_ref tk cbc m : block tk → block cbc → bytes m → block (cbc_ref (aes128_init tk) cbc m).
Proof.
  intros Htk Hc Hm. unfold cbc_ref. generalize (seq 0 (Z.to_nat ((Z.of_nat (length m) + 15) / 16))).
  intros l. revert cbc Hc. induction l as [|i l IH]; intros cbc Hc; [done|]. simpl. apply IH.
  apply block_encrypt; [done|]. apply block_xor; [done|]. apply block_pad16.
  - by apply bytes_take, bytes_drop.
  - unfold slice. rewrite length_take. lia.
Qed.

(** ** The authenticated header *)

(** The bytes that [ccmp_build_aad] writes. *)
Definition aad_ref (hdr : list Z) : list Z :=
  let n := aad_body_len hdr in
  let fc_masked := Z.lor (at_ hdr 0) (Z.shiftl (Z.land (at_ hdr 1) 0x07) 8) in
  [u8 (Z.shiftr n 8); u8 n; u8 fc_masked; u8 (Z.shiftr fc_masked 8)] ++ slice hdr 4 18 ++
  [Z.land (at_ hdr 22) 0x0F; 0] ++ (if has_a4 hdr then slice hdr 24 6 else []).

(** The first 24 bytes of the buffer, written around [s]. *)
Lemma write_prefix (junk s : list Z) a0 a1 a2 a3 x y :
  length junk = 48%nat → length s = 18%nat →
  <[23%nat := y]> (<[22%nat := x]> (splice
    (<[3%nat := a3]> (<[2%nat := a2]> (<[1%nat := a1]> (<[0%nat := a0]> junk)))) 4 s)) =
  ([a0; a1; a2; a3] ++ s ++ [x; y]) ++ drop 24 junk.
Proof.
  intros Hj Hs. do 4 (destruct junk as [|? junk]; [done|]). simpl in Hj.
  destruct (drop 18 junk) as [|j0 [|j1 rest]] eqn:E;
    [apply (f_equal length) in E; rewrite length_drop in E; simpl in E; lia..|].
  unfold splice. rewrite Hs.
  transitivity ([a0; a1; a2; a3] ++ <[19%nat := y]> (<[18%nat := x]> (s ++ drop 18 junk)));
    [reflexivity|].
  rewrite E, (insert_app_r_alt s _ 18), (insert_app_r_alt s _ 19) by lia. rewrite Hs.
  change (drop 24 (_ :: _)) with (drop 20 junk). simpl.
  replace (drop 20 junk) with rest; [by rewrite <-app_assoc|].
  replace 20%nat with (18 + 2)%nat by lia. rewrite <-drop_drop, E. done.
Qed.

Lemma build_aad_eq junk hdr :
  length junk = 48%nat → (24 ≤ length hdr)%nat →
  ccmp_build_aad junk hdr =
    Some (aad_ref hdr ++ drop (length (aad_ref hdr)) junk, 2 + aad_body_len hdr) ∧
  length (aad_ref hdr) = if has_a4 hdr then 30%nat else 24%nat.
Proof.
  intros Hj Hh. unfold ccmp_build_aad. destruct (Nat.ltb_spec (length hdr) 24); [lia|]. cbv zeta.
  assert (length (slice hdr 4 18) = 18%nat) as Hs.
  { unfold slice. rewrite length_take, length_drop. lia. }
  assert (has_a4 hdr = true → length (slice hdr 24 6) = 6%nat) as Hs6.
  { unfold has_a4. intros [_ H6%Nat.leb_le]%andb_true_iff. unfold slice.
    rewrite length_take, length_drop. lia. }
  rewrite write_prefix by done. unfold aad_ref. cbv zeta.
  set (pre := [_; _; _; _] ++ slice hdr 4 18 ++ [_; _]).
  assert (length pre = 24%nat) as Hpre by (unfold pre; rewrite !length_app, Hs; done).
  destruct (has_a4 hdr) eqn:E4.
  - rewrite !app_assoc. rewrite <-(app_assoc [_; _; _; _]). fold pre.
    rewrite length_app, Hpre, Hs6 by done. split; [|done]. do 2 f_equal.
    unfold splice. rewrite take_app_length' by lia. rewrite Hs6 by done.
    rewrite drop_app_ge by lia. rewrite Hpre, drop_drop, <-app_assoc. done.
  - rewrite app_nil_r. fold pre. by rewrite Hpre.
Qed.

(** ** Encryption and decryption *)

Definition ccmp_params (tk pn a2 : list Z) (priority : Z) (hdr : list Z) : Prop :=
  block tk ∧ (length pn = 6%nat ∧ bytes pn) ∧ (length a2 = 6%nat ∧ bytes a2) ∧ is_byte priority ∧
  bytes hdr ∧ (24 ≤ length hdr)%nat.

Section ccmp.
Context (tk pn a2 : list Z) (priority : Z) (hdr : list Z).
Context (Hok : ccmp_params tk pn a2 priority hdr) (Hqos : is_qos hdr = false).

#[local] Abbreviation ctx := (aes128_init tk).
#[local] Abbreviation nonce := (ccmp_build_nonce priority a2 pn).

Lemma nonce_ok : length nonce = 13%nat ∧ bytes nonce.
Proof.
  destruct Hok as (_ & [Hl Hb] & [Hl2 Hb2] & Hp & _). unfold ccmp_build_nonce.
  rewrite !length_app, Hl2. split; [done|]. apply bytes_app; [by apply Forall_singleton|].
  apply bytes_app; [done|]. forall_list; by apply at_byte.
Qed.

Lemma block_around b0 x y : is_byte b0 → is_byte x → is_byte y → block ([b0] ++ nonce ++ [x; y]).
Proof.
  intros H0 Hx Hy. destruct nonce_ok as [Hl Hb]. split; [rewrite !length_app, Hl; done|].
  apply bytes_app; [by apply Forall_singleton|]. apply bytes_app; [done|]. by forall_list.
Qed.

Lemma block_ctr i : block (aes128_encrypt ctx (ccmp_build_ctr nonce i)).
Proof.
  apply block_encrypt; [by destruct Hok|].
  apply block_around; [unfold is_byte; lia|apply u8_range|apply u8_range].
Qed.

(** The tag, the mask of the tag and the key stream. *)
Definition mac_ref (payload : list Z) : list Z :=
  cbc_ref ctx (cbc_ref ctx (aes128_encrypt ctx (ccmp_build_b0 nonce (Z.of_nat (length payload))))
    (aad_ref hdr)) payload.
Definition tag (payload : list Z) : list Z := take 8 (mac_ref payload).
Definition mask : list Z := aes128_encrypt ctx (ccmp_build_ctr nonce 0).
Definition stream (len : nat) : list Z := key_stream ctx nonce ((Z.of_nat len + 15) / 16).

Lemma bytes_aad_ref : bytes (aad_ref hdr).
Proof.
  destruct Hok as (_ & _ & _ & _ & Hb & _). unfold aad_ref. cbv zeta.
  assert (∀ a n, bytes (slice hdr a n)) as Hs by (intros; by apply bytes_take, bytes_drop).
  apply bytes_app; [forall_list; apply u8_range|]. apply bytes_app; [apply Hs|].
  apply bytes_app; [|case_match; [apply Hs|constructor]]. forall_list; [|unfold is_byte; lia].
  unfold is_byte. change 0x0F with (Z.ones 4). rewrite Z.land_ones by lia.
  pose proof (Z.mod_pos_bound (at_ hdr 22) (2 ^ 4)). lia.
Qed.

Lemma block_mac payload : bytes payload → block (mac_ref payload).
Proof.
  intros Hp. destruct Hok as (Htk & _). unfold mac_ref.
  apply block_cbc_ref; [done| |done]. apply block_cbc_ref; [done| |apply bytes_aad_ref].
  apply block_encrypt; [done|].
  apply block_around; [unfold is_byte; lia|apply u8_range|apply u8_range].
Qed.

Lemma length_tag payload : bytes payload → length (tag payload) = 8%nat.
Proof. intros Hp. unfold tag. rewrite length_take. destruct (block_mac payload Hp) as [-> _]. done. Qed.

Lemma bytes_stream n : bytes (stream n).
Proof.
  unfold stream, key_stream. apply Forall_concat, Forall_fmap, Forall_forall. intros j _.
  apply block_ctr.
Qed.

Lemma bytes_sealed pt : bytes pt → bytes (cry_xor pt (stream (length pt)) ++ cry_xor (tag pt) mask).
Proof.
  intros Hpt. apply bytes_app; apply bytes_cry_xor; [done|apply bytes_stream| |apply (block_ctr 0)].
  apply bytes_take. by destruct (block_mac pt Hpt).
Qed.

Lemma ccmp_mac_eq junk payload :
  length junk = 48%nat → Z.of_nat (length payload) ≤ 65520 →
  match ccmp_build_aad junk hdr with
  | Some (aad, aad_len) => ccmp_mac ctx nonce aad aad_len payload = Some (mac_ref payload)
  | None => False
  end.
Proof.
  intros Hj Hp. destruct Hok as (_ & _ & _ & _ & _ & Hh).
  destruct (build_aad_eq junk hdr Hj Hh) as [-> Hl].
  assert (2 + aad_body_len hdr = Z.of_nat (length (aad_ref hdr))) as El.
  { rewrite Hl. unfold aad_body_len. rewrite Hqos. by destruct (has_a4 hdr). }
  assert (length (aad_ref hdr) ≤ 30)%nat by (rewrite Hl; destruct (has_a4 hdr); lia).
  unfold ccmp_mac. cbv zeta. rewrite El.
  eapply bind_Some; [apply cbc_mac_eq; [lia|rewrite length_app; lia]|].
  rewrite Nat2Z.id, take_app_length. rewrite cbc_mac_eq by lia.
  by rewrite Nat2Z.id, take_ge by lia.
Qed.

Lemma ccmp_encrypt_eq junk pt :
  length junk = 48%nat → Z.of_nat (length pt) ≤ 65520 →
  ccmp_encrypt junk tk pn a2 priority hdr pt =
    Some (0, cry_xor pt (stream (length pt)) ++ cry_xor (tag pt) mask).
Proof.
  intros Hj Hp. unfold ccmp_encrypt. cbv zeta.
  pose proof (ccmp_mac_eq junk pt Hj Hp) as Hm. destruct (ccmp_build_aad junk hdr) as [[aad n]|]; [|done].
  eapply bind_Some; [exact Hm|].
  eapply bind_Some; [|reflexivity].
  apply (ctr_twice ctx nonce (λ i, proj1 (block_ctr i)) pt []). lia.
Qed.

Lemma ccmp_decrypt_eq junk ct :
  length junk = 48%nat → (8 ≤ length ct)%nat → Z.of_nat (length ct) ≤ 65528 → bytes ct →
  let n := (length ct - 8)%nat in
  let pt := cry_xor (take n ct) (stream n) in
  length pt = n ∧
  ccmp_decrypt junk tk pn a2 priority hdr ct =
    Some (if bool_decide (tag pt = cry_xor (drop n ct) mask) then 0 else -1, pt).
Proof.
  intros Hj H8 Hmax Hb n pt.
  assert (length (take n ct) = n) as Hn by (rewrite length_take; lia).
  assert (n ≤ length (stream n))%nat as Hks.
  { unfold stream. pose proof (length_key_stream ctx nonce (λ i, proj1 (block_ctr i))
      ((Z.of_nat n + 15) / 16)). Z.to_euclidean_division_equations. lia. }
  assert (length pt = n) as Hpt by (unfold pt; rewrite length_xor_le; lia).
  assert (bytes pt) as Hbp
    by (apply bytes_cry_xor; [by apply bytes_take|apply bytes_stream]).
  split; [done|]. unfold ccmp_decrypt. destruct (Nat.ltb_spec (length ct) 8); [lia|]. cbv zeta.
  fold n. eapply bind_Some.
  { apply (ctr_crypt_eq ctx nonce (λ i, proj1 (block_ctr i))); lia. }
  rewrite Nat2Z.id. fold (stream n). fold pt.
  pose proof (ccmp_mac_eq junk pt Hj ltac:(lia)) as Hm.
  destruct (ccmp_build_aad junk hdr) as [[aad m]|]; [|done].
  eapply bind_Some; [exact Hm|]. fold (tag pt). fold mask.
  assert (slice ct n 8 = drop n ct) as -> by (unfold slice; apply take_ge; rewrite length_drop; lia).
  rewrite crypto_memcmp_eq.
  - by destruct (bool_decide (tag pt = cry_xor (drop n ct) mask)).
  - rewrite length_tag by done. rewrite length_xor_le; rewrite length_drop; [lia|].
    destruct (block_ctr 0) as [Hl _]. unfold mask. lia.
Qed.
End ccmp.

(** Decryption ends on every frame, also with a QoS field. *)
Lemma ccmp_decrypt_total tk pn a2 priority hdr junk ct :
  ccmp_params tk pn a2 priority hdr → length junk = 48%nat → Z.of_nat (length ct) ≤ 65528 →
  ∃ rc out, ccmp_decrypt junk tk pn a2 priority hdr ct = Some (rc, out) ∧ (rc = 0 ∨ rc = -1).
Proof.
  intros Hok Hj Hmax. unfold ccmp_decrypt.
  destruct (Nat.ltb_spec (length ct) 8); [by exists (-1), []; auto|]. cbv zeta.
  rewrite (ctr_crypt_eq _ _ (λ i, proj1 (block_ctr tk pn a2 priority hdr Hok i))) by lia. cbn [mbind option_bind].
  destruct Hok as (_ & _ & _ & _ & _ & Hh). destruct (build_aad_eq junk hdr Hj Hh) as [-> Hl].
  unfold ccmp_mac. rewrite cbc_mac_eq.
  2: { unfold aad_body_len. case_match; case_match; lia. }
  2: { rewrite length_app, length_drop, Hj, Hl. unfold aad_body_len. repeat case_match; lia. }
  cbn [mbind option_bind]. rewrite cbc_mac_eq.
  2: { unfold cry_xor. rewrite length_zip_with, length_take. lia. }
  2: done.
  cbn [mbind option_bind].
  match goal with |- context [if ?b then _ else _] => destruct b end;
    eexists _, _; (split; [reflexivity|by auto]).
Qed.

Lemma ccmp_seal_open junk1 junk2 tk pn a2 priority hdr pt ct :
  length junk1 = 48%nat → length junk2 = 48%nat →
  ccmp_params tk pn a2 priority hdr → is_qos hdr = false →
  bytes pt → Z.of_nat (length pt) ≤ 65520 → bytes ct → Z.of_nat (length ct) ≤ 65528 →
  (∃ c, ccmp_encrypt junk1 tk pn a2 priority hdr pt = Some (0, c) ∧
        length c = (length pt + 8)%nat ∧ bytes c) ∧
  (ccmp_decrypt junk2 tk pn a2 priority hdr ct = Some (0, pt) ↔
   ccmp_encrypt junk1 tk pn a2 priority hdr pt = Some (0, ct)).
Proof.
  intros Hj1 Hj2 Hok Hq Hpt Hptl Hct Hctl.
  set (st := stream tk pn a2 priority). set (mk := mask tk pn a2 priority).
  set (tg := tag tk pn a2 priority hdr).
  assert (∀ n, (n ≤ length (st n))%nat) as Hst.
  { intros n. unfold st, stream. pose proof (length_key_stream (aes128_init tk)
      (ccmp_build_nonce priority a2 pn) (λ i, proj1 (block_ctr tk pn a2 priority hdr Hok i))
      ((Z.of_nat n + 15) / 16)). Z.to_euclidean_division_equations. lia. }
  assert (length mk = 16%nat) as Hmk by apply (block_ctr tk pn a2 priority hdr Hok 0).
  assert (length (tg pt) = 8%nat) as Htg by (by apply length_tag).
  rewrite ccmp_encrypt_eq by done. fold st mk tg.
  assert (length (cry_xor pt (st (length pt))) = length pt) as Hx by (by apply length_xor_le).
  assert (length (cry_xor (tg pt) mk) = 8%nat) as Hy by (rewrite length_xor_le; lia).
  split.
  { eexists. split; [done|]. split; [rewrite length_app; lia|]. by apply (bytes_sealed tk pn a2 priority hdr). }
  split.
  - intros Hd. destruct (decide (8 ≤ length ct)%nat) as [H8|H8].
    2: { unfold ccmp_decrypt in Hd. destruct (Nat.ltb_spec (length ct) 8); [done|lia]. }
    destruct (ccmp_decrypt_eq tk pn a2 priority hdr Hok Hq junk2 ct Hj2 H8 Hctl Hct) as [Hl He].
    rewrite He in Hd. fold st mk tg in Hd, Hl. injection Hd as Ht Ep.
    rewrite Ep in Ht, Hl. clear He. case_bool_decide as Hb; [|lia].
    f_equal. f_equal. rewrite Hl, Hb, <-Ep, !cry_xor_cancel.
    + apply take_drop.
    + rewrite length_drop. lia.
    + rewrite length_take. pose proof (Hst (length ct - 8)%nat). lia.
  - intros [= Ect].
    assert (length ct = length pt + 8)%nat as Hlc by (rewrite <-Ect, length_app; lia).
    destruct (ccmp_decrypt_eq tk pn a2 priority hdr Hok Hq junk2 ct Hj2 ltac:(lia) Hctl Hct) as [_ ->].
    fold st mk tg. replace (length ct - 8)%nat with (length pt) by lia.
    rewrite <-Ect, take_app_length', drop_app_length' by lia.
    rewrite !cry_xor_cancel by (done || lia). by rewrite bool_decide_eq_true_2.
Qed.

(** C33: CCMP on frames without a QoS field.  Encryption succeeds and adds eight
    bytes; decryption accepts a frame, with a given plaintext, exactly when it
    is the encryption of that plaintext under the same key, packet number,
    addresses and header. *)
Theorem ccmp_correct junk1 junk2 tk pn a2 priority hdr pt ct :
  length junk1 = 48%nat → length junk2 = 48%nat →
  ccmp_params tk pn a2 priority hdr → is_qos hdr = false →
  bytes pt → Z.of_nat (length pt) ≤ 65520 → bytes ct → Z.of_nat (length ct) ≤ 65528 →
  (∃ c, ccmp_encrypt junk1 tk pn a2 priority hdr pt = Some (0, c) ∧
        length c = (length pt + 8)%nat) ∧
  (ccmp_decrypt junk2 tk pn a2 priority hdr ct = Some (0, pt) ↔
   ccmp_encrypt junk1 tk pn a2 priority hdr pt = Some (0, ct)).
Proof.
  intros Hj1 Hj2 Hok Hq Hpt Hptl Hct Hctl.
  destruct (ccmp_seal_open junk1 junk2 tk pn a2 priority hdr pt ct) as [(c & Hc & Hl & _) Hiff];
    by eauto.
Qed.

(** A data frame with three addresses. *)
Definition demo_hdr (fc0 : Z) : list Z := [fc0; 0x41; 0; 0] ++ replicate 18 0x11 ++ [0x35; 0x12].
Definition demo_pn : list Z := [1; 0; 0; 0; 0; 0].
Definition demo_a2 : list Z := [2; 4; 6; 8; 10; 12].
Definition demo_plain : list Z := [104; 101; 108; 108; 111].
Definition demo_frame (fc0 : Z) : list Z :=
  match ccmp_encrypt (replicate 48 0) fips_key demo_pn demo_a2 0 (demo_hdr fc0) demo_plain with
  | Some (_, c) => c
  | None => []
  end.

Lemma ccmp_correct_witness :
  ccmp_decrypt (replicate 48 0xFF) fips_key demo_pn demo_a2 0 (demo_hdr 0x08) (demo_frame 0x08) =
    Some (0, demo_plain).
Proof.
  apply (ccmp_correct (replicate 48 0) (replicate 48 0xFF) fips_key demo_pn demo_a2 0
    (demo_hdr 0x08) demo_plain (demo_frame 0x08)).
  - reflexivity.
  - reflexivity.
  - split; [apply block_dec; reflexivity|]. split; [split; [reflexivity|by apply bytesb_bytes]|].
    split; [split; [reflexivity|by apply bytesb_bytes]|]. split; [unfold is_byte; lia|].
    split; [by apply bytesb_bytes|]. simpl. lia.
  - reflexivity.
  - by apply bytesb_bytes.
  - simpl. lia.
  - apply bytesb_bytes. vm_compute. reflexivity.
  - vm_compute. discriminate.
  - vm_compute. reflexivity.
Defined.

(** For a QoS frame the length of the authenticated header counts two bytes
    that are never written: a frame is accepted or rejected depending on what
    the stack holds. *)
Theorem ccmp_qos_uninitialised :
  ccmp_encrypt (replicate 48 0) fips_key demo_pn demo_a2 0 (demo_hdr 0x88) demo_plain =
    Some (0, demo_frame 0x88) ∧
  ccmp_decrypt (replicate 48 0) fips_key demo_pn demo_a2 0 (demo_hdr 0x88) (demo_frame 0x88) =
    Some (0, demo_plain) ∧
  ccmp_decrypt (replicate 48 0xFF) fips_key demo_pn demo_a2 0 (demo_hdr 0x88) (demo_frame 0x88) =
    Some (-1, demo_plain).
Proof. split_and!; vm_compute; reflexivity. Qed.

(** The 16-bit position of the MAC loop wraps around: on a payload of more than
    65520 bytes the loop never ends, whatever number of iterations is allowed. *)
Theorem ccmp_long_payload_diverges ctx data len cbc fuel :
  65520 < len < 2 ^ 16 → while_opt fuel (cbc_step ctx data len) (0, cbc) = None.
Proof.
  intros Hlen.
  apply (while_opt_diverges _ _ (λ '(pos, _), 0 ≤ pos ≤ 65520 ∧ pos mod 16 = 0)); [done|].
  intros [pos c] [Hp Hm]. unfold cbc_step. destruct (Z.ltb_spec pos len); [|lia]. cbv zeta.
  eexists. split; [reflexivity|]. unfold u16. Z.to_euclidean_division_equations. lia.
Qed.

(** ** Key wrap *)

(** One step of wrapping (RFC 3394, section 2.2.1). *)
Definition wrap_step (ctx : list (list Z)) (n : nat) (st : list Z * list Z) (ji : nat * nat)
    : list Z * list Z :=
  let '(a, r) := st in
  let '(j, i) := ji in
  let b := aes128_encrypt ctx (a ++ slice r ((i - 1) * 8) 8) in
  (xor_counter (Z.of_nat (n * j + i)) (take 8 b), splice r ((i - 1) * 8) (drop 8 b)).
Definition key_wrap (kek p : list Z) : list Z :=
  let n := (length p / 8)%nat in
  let '(a, r) := foldl (wrap_step (aes128_init kek) n) (default_iv, p)
                   (j ← seq 0 6; i ← seq 1 n; [(j, i)]) in
  a ++ r.

Lemma splice_restore (r d : list Z) o k :
  length d = k → (o + k ≤ length r)%nat → splice (splice r o d) o (slice r o k) = r.
Proof.
  intros Hd Hl.
  assert (length (slice r o k) = k) as Hs by (unfold slice; rewrite length_take, length_drop; lia).
  apply list_eq. intros i. rewrite !lookup_splice, lookup_slice by (rewrite ?length_splice; lia).
  rewrite Hs, Hd. repeat case_decide; try lia; try done. f_equal. lia.
Qed.

Definition half (a : list Z) : Prop := length a = 8%nat ∧ bytes a.

Lemma half_inv a : half a → ∃ x0 x1 x2 x3 x4 x5 x6 x7, a = [x0; x1; x2; x3; x4; x5; x6; x7].
Proof.
  intros [Hl _]. do 8 (destruct a as [|? a]; [done|]). destruct a; [|done]. by do 8 eexists.
Qed.

Lemma xor_counter_eq c x0 x1 x2 x3 x4 x5 x6 x7 :
  xor_counter c [x0; x1; x2; x3; x4; x5; x6; x7] =
  [x0; x1; x2; x3; Z.lxor x4 (u8 (Z.shiftr c 24)); Z.lxor x5 (u8 (Z.shiftr c 16));
   Z.lxor x6 (u8 (Z.shiftr c 8)); Z.lxor x7 (u8 c)].
Proof. reflexivity. Qed.

Lemma xor_counter_twice c a : half a → xor_counter c (xor_counter c a) = a.
Proof.
  intros Ha. destruct (half_inv a Ha) as (x0&x1&x2&x3&x4&x5&x6&x7&->).
  rewrite !xor_counter_eq. by rewrite !Z.lxor_assoc, !Z.lxor_nilpotent, !Z.lxor_0_r.
Qed.

Lemma half_xor_counter c a : half a → half (xor_counter c a).
Proof.
  intros Ha. pose proof Ha as [_ Hb]. destruct (half_inv a Ha) as (x0&x1&x2&x3&x4&x5&x6&x7&->).
  unfold bytes in Hb. decompose_Forall. rewrite xor_counter_eq. split; [reflexivity|].
  unfold bytes. forall_list; try done; (apply is_byte_lxor; [done|apply u8_range]).
Qed.

Lemma block_halves a b : half a → half b → block (a ++ b).
Proof. intros [Ha Hba] [Hb Hbb]. split; [rewrite length_app; lia|by apply bytes_app]. Qed.

Lemma halves_block s : block s → half (take 8 s) ∧ half (drop 8 s).
Proof.
  intros [Hl Hb]. split; split; rewrite ?length_take, ?length_drop; try lia;
    [by apply bytes_take|by apply bytes_drop].
Qed.

Section unwrap.
Context (kek : list Z) (n : nat) (Hkek : block kek).
#[local] Abbreviation ctx := (aes128_init kek).

Definition wrap_ok (st : list Z * list Z) : Prop :=
  half st.1 ∧ length st.2 = (n * 8)%nat ∧ bytes st.2.

Lemma unwrap_wrap_step st j i :
  wrap_ok st → (1 ≤ i ≤ n)%nat → Z.of_nat (n * j + i) < 2 ^ 32 →
  wrap_ok (wrap_step ctx n st (j, i)) ∧
  unwrap_step ctx n (wrap_step ctx n st (j, i)) (j, i) = st.
Proof.
  destruct st as [a r]. intros (Ha & Hl & Hb) Hi Hc. cbn [fst snd] in *.
  assert (half (slice r ((i - 1) * 8) 8)) as Hs.
  { split; [unfold slice; rewrite length_take, length_drop; nia|by apply bytes_take, bytes_drop]. }
  pose proof (block_halves _ _ Ha Hs) as Hblk.
  pose proof (block_encrypt kek _ Hkek Hblk) as He.
  destruct (halves_block _ He) as [H1 H2]. unfold wrap_step, unwrap_step.
  set (b := aes128_encrypt ctx (a ++ slice r ((i - 1) * 8) 8)) in *.
  destruct H2 as [H2l H2b].
  assert (length (splice r ((i - 1) * 8) (drop 8 b)) = length r) as Hsl
    by (apply length_splice; nia).
  split.
  - split; [by apply half_xor_counter|]. cbn [snd]. rewrite Hsl. split; [done|].
    by apply bytes_splice.
  - rewrite u32_small by lia. rewrite xor_counter_twice by done.
    replace (slice (splice r ((i - 1) * 8) (drop 8 b)) ((i - 1) * 8) 8) with (drop 8 b).
    2: { pose proof (slice_splice_eq r (drop 8 b) ((i - 1) * 8)) as E. rewrite H2l in E.
         symmetry. apply E. nia. }
    assert (aes128_decrypt ctx b = a ++ slice r ((i - 1) * 8) 8) as Ed by by apply decrypt_encrypt.
    rewrite take_drop, Ed. destruct Ha as [Hal _].
    rewrite take_app_length', drop_app_length' by lia. f_equal.
    apply splice_restore; [done|nia].
Qed.

(** Unwrapping in the opposite order undoes every wrapping step. *)
Lemma unwrap_all l st :
  wrap_ok st →
  Forall (λ '(j, i), (1 ≤ i ≤ n)%nat ∧ Z.of_nat (n * j + i) < 2 ^ 32) l →
  wrap_ok (foldl (wrap_step ctx n) st l) ∧
  foldl (unwrap_step ctx n) (foldl (wrap_step ctx n) st l) (rev l) = st.
Proof.
  intros Hst Hl. revert st Hst. induction Hl as [|[j i] l [Hi Hc] _ IH]; intros st Hst; [done|].
  cbn [foldl rev]. destruct (unwrap_wrap_step st j i Hst Hi Hc) as [Hok Hun].
  destruct (IH _ Hok) as [Hok2 Hun2]. split; [done|].
  rewrite foldl_app, Hun2. exact Hun.
Qed.

Lemma wrap_unwrap_step st j i :
  wrap_ok st → (1 ≤ i ≤ n)%nat → Z.of_nat (n * j + i) < 2 ^ 32 →
  wrap_ok (unwrap_step ctx n st (j, i)) ∧
  wrap_step ctx n (unwrap_step ctx n st (j, i)) (j, i) = st.
Proof.
  destruct st as [a r]. intros (Ha & Hl & Hb) Hi Hc. cbn [fst snd] in *.
  assert (half (slice r ((i - 1) * 8) 8)) as Hs.
  { split; [unfold slice; rewrite length_take, length_drop; nia|by apply bytes_take, bytes_drop]. }
  unfold wrap_step, unwrap_step. rewrite u32_small by lia.
  set (ctr := Z.of_nat (n * j + i)). pose proof (half_xor_counter ctr a Ha) as Hx.
  pose proof (block_halves _ _ Hx Hs) as Hblk.
  pose proof (block_decrypt kek _ Hkek Hblk) as Hd.
  assert (aes128_encrypt ctx (aes128_decrypt ctx (xor_counter ctr a ++ slice r ((i - 1) * 8) 8)) =
    xor_counter ctr a ++ slice r ((i - 1) * 8) 8) as Ed by by apply encrypt_decrypt.
  set (b := aes128_decrypt ctx (xor_counter ctr a ++ slice r ((i - 1) * 8) 8)) in *.
  destruct (halves_block _ Hd) as [H1 [H2l H2b]].
  assert (length (splice r ((i - 1) * 8) (drop 8 b)) = length r) as Hsl
    by (apply length_splice; nia).
  split.
  - split; [done|]. cbn [snd]. rewrite Hsl. split; [done|]. by apply bytes_splice.
  - replace (slice (splice r ((i - 1) * 8) (drop 8 b)) ((i - 1) * 8) 8) with (drop 8 b).
    2: { pose proof (slice_splice_eq r (drop 8 b) ((i - 1) * 8)) as E. rewrite H2l in E.
         symmetry. apply E. nia. }
    rewrite take_drop, Ed. destruct Hx as [Hxl _].
    rewrite take_app_length', drop_app_length' by lia. rewrite xor_counter_twice by done. f_equal.
    apply splice_restore; [done|nia].
Qed.

(** Wrapping redoes every unwrapping step. *)
Lemma wrap_all l st :
  wrap_ok st →
  Forall (λ '(j, i), (1 ≤ i ≤ n)%nat ∧ Z.of_nat (n * j + i) < 2 ^ 32) l →
  wrap_ok (foldl (unwrap_step ctx n) st (rev l)) ∧
  foldl (wrap_step ctx n) (foldl (unwrap_step ctx n) st (rev l)) l = st.
Proof.
  intros Hst Hl. induction Hl as [|[j i] l [Hi Hc] _ IH]; [done|].
  cbn [rev]. rewrite foldl_app. cbn [foldl]. destruct IH as [Hok Hwr].
  destruct (wrap_unwrap_step _ j i Hok Hi Hc) as [Hok2 Hwr2]. split; [done|].
  by rewrite Hwr2.
Qed.
End unwrap.

Lemma unwrap_order_ok n : (n ≤ 32)%nat →
  Forall (λ '(j, i), (1 ≤ i ≤ n)%nat ∧ Z.of_nat (n * j + i) < 2 ^ 32)
    (j ← seq 0 6; i ← seq 1 n; [(j, i)]).
Proof.
  intros Hn. apply Forall_forall. intros [j i] Hin. apply list_elem_of_bind in Hin as (j' & Hin & Hj).
  apply list_elem_of_bind in Hin as (i' & Hin & Hi). apply list_elem_of_singleton in Hin as [= -> ->].
  apply elem_of_seq in Hj, Hi. split; [lia|]. nia.
Qed.

Lemma key_unwrap_partial kek w :
  Z.of_nat (length w) mod 8 ≠ 0 → aes_key_unwrap kek w = (-1, []).
Proof.
  intros H8. unfold aes_key_unwrap. cbv zeta. destruct (Z.eqb_spec (Z.of_nat (length w) mod 8) 0); [done|].
  by rewrite orb_true_r.
Qed.

(** The guards of [aes_key_unwrap] pass on [n] blocks. *)
Lemma key_unwrap_eq kek (a r : list Z) n :
  half a → length r = (n * 8)%nat → (1 ≤ n ≤ 32)%nat →
  aes_key_unwrap kek (a ++ r) =
    let st := foldl (unwrap_step (aes128_init kek) n) (a, r) (unwrap_order n) in
    (if negb (crypto_memcmp st.1 default_iv =? 0) then -1 else 0, st.2).
Proof.
  intros [Hal _] Hrl Hn. unfold aes_key_unwrap.
  assert (Z.of_nat (length (a ++ r)) = 8 + Z.of_nat n * 8) as -> by (rewrite length_app; lia).
  destruct (Z.ltb_spec (8 + Z.of_nat n * 8) 16); [lia|].
  replace ((8 + Z.of_nat n * 8) mod 8) with 0 by (Z.to_euclidean_division_equations; lia).
  replace ((8 + Z.of_nat n * 8) / 8 - 1) with (Z.of_nat n) by (Z.to_euclidean_division_equations; lia).
  simpl orb. cbv iota. destruct (Z.eqb_spec (Z.of_nat n) 0); [lia|].
  destruct (Z.ltb_spec 32 (Z.of_nat n)); [lia|]. simpl orb. cbv iota zeta. rewrite Nat2Z.id.
  rewrite take_app_length' by lia.
  replace (slice (a ++ r) 8 (n * 8)) with r.
  2: { unfold slice. rewrite drop_app_length' by lia. by rewrite take_ge by lia. }
  by destruct (foldl (unwrap_step (aes128_init kek) n) (a, r) (unwrap_order n)).
Qed.

Lemma unwrap_key_wrap kek p n :
  block kek → bytes p → length p = (n * 8)%nat → (1 ≤ n ≤ 32)%nat →
  length (key_wrap kek p) = (8 + n * 8)%nat ∧
  aes_key_unwrap kek (key_wrap kek p) = (0, p).
Proof.
  intros Hk Hb Hl Hn. unfold key_wrap.
  replace (length p / 8)%nat with n by (rewrite Hl, Nat.div_mul; lia).
  destruct (unwrap_all kek n Hk _ (default_iv, p)
    ltac:(split; [split; [reflexivity|by apply bytesb_bytes]|done]) (unwrap_order_ok n ltac:(lia)))
    as [Hok Hun].
  destruct (foldl (wrap_step (aes128_init kek) n) _ _) as [a r].
  destruct Hok as (Ha & Hrl & _). cbn [fst snd] in *.
  split; [destruct Ha; rewrite length_app; lia|]. rewrite (key_unwrap_eq _ _ _ n) by done.
  cbv zeta. unfold unwrap_order. rewrite Hun. cbn [fst snd]. rewrite crypto_memcmp_eq by done.
  by rewrite bool_decide_eq_true_2.
Qed.

(** The outcome of unwrapping any [n + 1] blocks. *)
Lemma unwrap_any kek w n :
  block kek → bytes w → length w = (8 + n * 8)%nat → (1 ≤ n ≤ 32)%nat →
  ∃ rc p, aes_key_unwrap kek w = (rc, p) ∧ length p = (n * 8)%nat ∧ bytes p ∧
    (rc = -1 ∨ rc = 0 ∧ w = key_wrap kek p).
Proof.
  intros Hk Hb Hl Hn.
  assert (half (take 8 w)) as Ha by (split; [rewrite length_take; lia|by apply bytes_take]).
  assert (length (drop 8 w) = n * 8)%nat as Hr by (rewrite length_drop; lia).
  pose proof (key_unwrap_eq kek _ _ n Ha Hr Hn) as E. rewrite take_drop in E. cbv zeta in E.
  destruct (wrap_all kek n Hk _ (take 8 w, drop 8 w)
    ltac:(split; [done|split; [done|by apply bytes_drop]]) (unwrap_order_ok n ltac:(lia)))
    as [Hok Hwr].
  unfold unwrap_order in E. set (st := foldl (unwrap_step _ n) _ _) in *.
  destruct Hok as (Hsa & Hsl & Hsb). destruct st as [a p]. cbn [fst snd] in *.
  eexists _, p. split; [exact E|]. split; [done|]. split; [done|]. clear E.
  rewrite crypto_memcmp_eq by apply Hsa. destruct (bool_decide_reflect (a = default_iv)) as [->|]; [|by left].
  right. split; [done|]. unfold key_wrap.
  replace (length p / 8)%nat with n by (rewrite Hsl, Nat.div_mul; lia).
  rewrite Hwr. symmetry. apply take_drop.
Qed.

(** Unwrapping accepts exactly what RFC 3394 wraps: for wrapped keys of 1 to 32
    blocks, the result is success with the key [p] if and only if the input is
    the wrapping of [p] under the same key encryption key. *)
Theorem key_unwrap_correct kek w p n :
  block kek → bytes w → length w = (8 + n * 8)%nat → (1 ≤ n ≤ 32)%nat →
  bytes p → length p = (n * 8)%nat →
  aes_key_unwrap kek w = (0, p) ↔ w = key_wrap kek p.
Proof.
  intros Hk Hw Hl Hn Hp Hpl. split; [|intros ->; by apply (unwrap_key_wrap kek p n)].
  intros E. destruct (unwrap_any kek w n Hk Hw Hl Hn) as (rc & p' & E' & _ & _ & H).
  rewrite E in E'. injection E' as <- <-. by destruct H as [H|[_ H]].
Qed.

Lemma key_unwrap_correct_witness :
  aes_key_unwrap fips_key (key_wrap fips_key (fips_block ++ fips_cipher)) =
    (0, fips_block ++ fips_cipher).
Proof.
  apply (key_unwrap_correct fips_key (key_wrap fips_key (fips_block ++ fips_cipher))
    (fips_block ++ fips_cipher) 4).
  - apply block_dec. reflexivity.
  - apply bytesb_bytes. vm_compute. reflexivity.
  - vm_compute. reflexivity.
  - lia.
  - apply bytesb_bytes. reflexivity.
  - reflexivity.
  - reflexivity.
Defined.

(** ** Nonces *)

Lemma wp_prng_next (Q : Z → prng → Prop) s :
  Q (u64 (fst (prng_state s) + snd (prng_state s))) (set_prng (prng_step (prng_state s)) s) →
  wp prng_next Q s.
Proof. done. Qed.

(** [crypto_random] fills the buffer with exactly [len] bytes, and the
    generator is seeded afterwards. *)
Lemma crypto_random_fills len s :
  0 ≤ len < 2 ^ 32 →
  wp (crypto_random len) (λ buf s', Z.of_nat (length buf) = len ∧ bytes buf ∧
    prng_seeded s' = true) s.
Proof.
  intros Hlen. unfold crypto_random. apply wp_bind, wp_gets, wp_bind.
  apply (wp_mono _ (λ _ s', prng_seeded s' = true)).
  - destruct (prng_seeded s) eqn:E; [by apply wp_ret|]. unfold prng_seed. simpl negb. cbv iota.
    do 2 (apply wp_bind; unfold wp at 1, rdtsc). apply wp_bind, wp_modify, wp_bind.
    apply (wp_for _ _ _ (λ _ _, True)); [lia|done| |].
    + intros i s1 _ _. apply wp_bind, wp_prng_next. by apply wp_ret.
    + intros s1 _. by apply wp_modify.
  - intros _ s1 Hs1.
    apply (wp_while _ _ (λ buf s, Z.of_nat (length buf) ≤ len ∧ bytes buf ∧ prng_seeded s = true)
      (λ buf _, len - Z.of_nat (length buf))).
    + split; [simpl; lia|]. split; [constructor|done].
    + simpl. lia.
    + intros buf s2 (Hl & Hb & Hsd). destruct (Z.ltb_spec (Z.of_nat (length buf)) len).
      2: { apply wp_ret. split; [lia|done]. }
      apply wp_bind, wp_prng_next, wp_ret. cbv zeta.
      set (chunk := if 8 <? len - Z.of_nat (length buf) then 8 else len - Z.of_nat (length buf)).
      assert (0 < chunk ≤ len - Z.of_nat (length buf)) as Hc
        by (unfold chunk; destruct (Z.ltb_spec 8 (len - Z.of_nat (length buf))); lia).
      rewrite length_app, length_fmap, length_seq. split; [|lia]. split; [lia|]. split; [|done].
      apply bytes_app; [done|]. apply Forall_fmap, Forall_forall. intros i _. apply u8_range.
Qed.
