(* ===== verification/Wpa2.v ===== *)
(** * WPA2: the four-way handshake and protected data frames

    Translation of [src/src/drivers/net/iwl_wpa2.c] on top of the primitives of
    [Sha1] and [Ccmp], and of the part of [wifi_9260.c] that answers handshake
    frames.  The state is the security context of the connection, the nonce
    generator, the flag that turns encryption on and the EAPOL frames handed to
    the radio.  Buffers the code leaves uninitialised have arbitrary contents:
    [junk] and [junk_aad] are those of the primitives, [junk_mic] that of the
    MIC computed for a received frame. *)

From S2P Require Import Prelude Loops Codec Aes Sha1 Ccmp.

Definition WPA2_KCK_LEN : nat := 16.
Definition WPA2_KEK_LEN : nat := 16.
Definition WPA2_TK_LEN : nat := 16.
Definition WPA2_PTK_LEN : Z := 48.
Definition WPA2_PMK_LEN : Z := 32.
Definition WPA2_NONCE_LEN : nat := 32.
Definition WPA2_GTK_LEN : nat := 16.

Definition EAPOL_VERSION : Z := 2.
Definition EAPOL_TYPE_KEY : Z := 3.
Definition EAPOL_KEY_TYPE_RSN : Z := 2.

Definition WPA2_KEY_INFO_TYPE_HMAC_SHA1 : Z := 0x0002.
Definition WPA2_KEY_INFO_INSTALL : Z := 0x0040.
Definition WPA2_KEY_INFO_ACK : Z := 0x0080.
Definition WPA2_KEY_INFO_MIC : Z := 0x0100.
Definition WPA2_KEY_INFO_SECURE : Z := 0x0200.
Definition WPA2_KEY_INFO_ENC_KEY_DATA : Z := 0x1000.
Definition WPA2_KEY_INFO_PAIRWISE : Z := 0x0008.

Record wpa2_ctx := Wpa2Ctx {
  pmk : list Z; pmk_valid : bool;
  anonce : list Z; snonce : list Z;
  kck : list Z; kek : list Z; tk : list Z; ptk_valid : bool;
  gtk : list Z; gtk_idx : Z; gtk_valid : bool;
  our_mac : list Z; ap_mac : list Z;
  replay_counter : Z; tx_pn : Z; rx_pn : Z; hs_state : Z }.

Record wpa2 := Wpa2 {
  g_wpa2 : wpa2_ctx; rng : prng; g_wpa2_active : bool; eapol_sent : list (list Z) }.

(** ** Byte order and comparison *)

Definition w_be16 (p : list Z) : Z := u16 (Z.lor (Z.shiftl (at_ p 0) 8) (at_ p 1)).
Definition w_put_be16 (v : Z) : list Z := [u8 (Z.shiftr v 8); u8 v].

Definition w_be64 (p : list Z) : Z :=
  foldl (λ v b, Z.lor (u64 (Z.shiftl v 8)) b) 0 (take 8 p).
Definition w_put_be64 (v : Z) : list Z :=
  (foldl (λ '(p, v) (_ : nat), (u8 (Z.land v 0xFF) :: p, Z.shiftr v 8)) ([], v) (seq 0 8)).1.

Fixpoint w_memcmp (a b : list Z) : Z :=
  match a, b with
  | x :: a, y :: b => if x <? y then -1 else if y <? x then 1 else w_memcmp a b
  | _, _ => 0
  end.

(** ** The context *)

(** The bytes written to [buf]; none when it is too small. *)
Definition rsn_ie : list Z :=
  [0x30; 20; 0x01; 0x00; 0x00; 0x0F; 0xAC; 0x04; 0x01; 0x00; 0x00; 0x0F; 0xAC; 0x04;
   0x01; 0x00; 0x00; 0x0F; 0xAC; 0x02; 0x0C; 0x00].
Definition wpa2_build_rsn_ie (max_len : Z) : list Z := if max_len <? 22 then [] else rsn_ie.

Definition wpa2_zero : wpa2_ctx :=
  Wpa2Ctx (replicate 32 0) false (replicate 32 0) (replicate 32 0)
    (replicate 16 0) (replicate 16 0) (replicate 16 0) false
    (replicate 16 0) 0 false (replicate 6 0) (replicate 6 0) 0 0 0 0.

Definition wpa2_init (our ap : list Z) : wpa2_ctx :=
  let c := wpa2_zero in
  Wpa2Ctx (pmk c) (pmk_valid c) (anonce c) (snonce c) (kck c) (kek c) (tk c) (ptk_valid c)
    (gtk c) (gtk_idx c) (gtk_valid c) our ap (replay_counter c) (tx_pn c) (rx_pn c) 1.

Definition wpa2_set_pmk (k : list Z) (c : wpa2_ctx) : wpa2_ctx :=
  Wpa2Ctx k true (anonce c) (snonce c) (kck c) (kek c) (tk c) (ptk_valid c)
    (gtk c) (gtk_idx c) (gtk_valid c) (our_mac c) (ap_mac c)
    (replay_counter c) (tx_pn c) (rx_pn c) (hs_state c).

Definition set_nonces (an sn : list Z) (c : wpa2_ctx) : wpa2_ctx :=
  Wpa2Ctx (pmk c) (pmk_valid c) an sn (kck c) (kek c) (tk c) (ptk_valid c)
    (gtk c) (gtk_idx c) (gtk_valid c) (our_mac c) (ap_mac c)
    (replay_counter c) (tx_pn c) (rx_pn c) (hs_state c).
Definition set_ptk (k : list Z) (c : wpa2_ctx) : wpa2_ctx :=
  Wpa2Ctx (pmk c) (pmk_valid c) (anonce c) (snonce c)
    (take WPA2_KCK_LEN k) (slice k WPA2_KCK_LEN WPA2_KEK_LEN)
    (slice k (WPA2_KCK_LEN + WPA2_KEK_LEN) WPA2_TK_LEN) true
    (gtk c) (gtk_idx c) (gtk_valid c) (our_mac c) (ap_mac c)
    (replay_counter c) (tx_pn c) (rx_pn c) (hs_state c).
Definition set_gtk (i : Z) (k : list Z) (c : wpa2_ctx) : wpa2_ctx :=
  Wpa2Ctx (pmk c) (pmk_valid c) (anonce c) (snonce c) (kck c) (kek c) (tk c) (ptk_valid c)
    k i true (our_mac c) (ap_mac c) (replay_counter c) (tx_pn c) (rx_pn c) (hs_state c).
Definition set_replay (r : Z) (c : wpa2_ctx) : wpa2_ctx :=
  Wpa2Ctx (pmk c) (pmk_valid c) (anonce c) (snonce c) (kck c) (kek c) (tk c) (ptk_valid c)
    (gtk c) (gtk_idx c) (gtk_valid c) (our_mac c) (ap_mac c) r (tx_pn c) (rx_pn c) (hs_state c).
Definition set_pns (tx rx : Z) (c : wpa2_ctx) : wpa2_ctx :=
  Wpa2Ctx (pmk c) (pmk_valid c) (anonce c) (snonce c) (kck c) (kek c) (tk c) (ptk_valid c)
    (gtk c) (gtk_idx c) (gtk_valid c) (our_mac c) (ap_mac c) (replay_counter c) tx rx (hs_state c).
Definition set_hs (h : Z) (c : wpa2_ctx) : wpa2_ctx :=
  Wpa2Ctx (pmk c) (pmk_valid c) (anonce c) (snonce c) (kck c) (kek c) (tk c) (ptk_valid c)
    (gtk c) (gtk_idx c) (gtk_valid c) (our_mac c) (ap_mac c) (replay_counter c)
    (tx_pn c) (rx_pn c) h.

Definition on_wpa2 (f : wpa2_ctx → wpa2_ctx) : M wpa2 unit :=
  modify (λ s, Wpa2 (f (g_wpa2 s)) (rng s) (g_wpa2_active s) (eapol_sent s)).
Definition with_rng {A} (m : M prng A) : M wpa2 A := λ s,
  match m (rng s) with
  | Some (a, r) => Some (a, Wpa2 (g_wpa2 s) r (g_wpa2_active s) (eapol_sent s))
  | None => None
  end.

Section buffers.
Context (junk : sha1_ctx) (junk_aad junk_mic : list Z).

Definition wpa2_set_passphrase (passphrase ssid : list Z) (c : wpa2_ctx) : option wpa2_ctx :=
  k ← pbkdf2_sha1 junk passphrase ssid 4096 WPA2_PMK_LEN;
  Some (wpa2_set_pmk k c).

(** ** Keys *)

Definition min_max (a b : list Z) : list Z := if w_memcmp a b <? 0 then a ++ b else b ++ a.

(** "Pairwise key expansion" *)
Definition expansion_label : list Z :=
  [80; 97; 105; 114; 119; 105; 115; 101; 32; 107; 101; 121; 32;
   101; 120; 112; 97; 110; 115; 105; 111; 110].

Definition wpa2_derive_ptk (c : wpa2_ctx) : option wpa2_ctx :=
  let data := min_max (ap_mac c) (our_mac c) ++ min_max (anonce c) (snonce c) in
  ptk ← prf junk (pmk c) expansion_label data WPA2_PTK_LEN;
  Some (set_ptk ptk c).

(** [mic_out] after the call.  Of [frame_copy], only the copied bytes are
    hashed. *)
Definition wpa2_compute_mic (kck frame mic_out : list Z) : option (list Z) :=
  let mic_offset := (4 + 77)%nat in
  if 512 <? Z.of_nat (length frame) then Some mic_out
  else
    let frame_copy := splice (replicate 512 0) 0 frame in
    let frame_copy := splice frame_copy mic_offset (replicate 16 0) in
    hmac_out ← hmac_sha1 junk kck (take (length frame) frame_copy);
    Some (take 16 hmac_out).

(** ** Messages 2 and 4 *)

(** Offsets in a frame of the fields of [struct eapol_key]. *)
Definition off_type : nat := 4.
Definition off_info : nat := 5.
Definition off_len : nat := 7.
Definition off_replay : nat := 9.
Definition off_nonce : nat := 17.
Definition off_mic : nat := 81.
Definition off_data_len : nat := 97.
Definition off_data : nat := 99.

Definition sizeof_eapol_hdr : Z := 4.
Definition sizeof_eapol_key : Z := 95.

(** The return value and the bytes written to [out]. *)
Definition wpa2_build_msg2 (c : wpa2_ctx) (out_max : Z) : option (Z * list Z) :=
  let rsn := wpa2_build_rsn_ie 22 in
  let rsn_len := Z.of_nat (length rsn) in
  let body_len := u16 (sizeof_eapol_key + rsn_len) in
  let total := u16 (sizeof_eapol_hdr + body_len) in
  if out_max <? total then Some (-1, [])
  else
    let out := replicate (Z.to_nat total) 0 in
    let out := splice out 0 ([EAPOL_VERSION; EAPOL_TYPE_KEY] ++ w_put_be16 body_len) in
    let out := splice out off_type [EAPOL_KEY_TYPE_RSN] in
    let key_info := Z.lor (Z.lor WPA2_KEY_INFO_TYPE_HMAC_SHA1 WPA2_KEY_INFO_PAIRWISE)
                      WPA2_KEY_INFO_MIC in
    let out := splice out off_info (w_put_be16 key_info) in
    let out := splice out off_len (w_put_be16 16) in
    let out := splice out off_replay (w_put_be64 (replay_counter c)) in
    let out := splice out off_nonce (take WPA2_NONCE_LEN (snonce c)) in
    let out := splice out off_data_len (w_put_be16 rsn_len) in
    let out := splice out off_data rsn in
    mic ← wpa2_compute_mic (kck c) out junk_mic;
    Some (total, splice out off_mic (take 16 mic)).

Definition wpa2_build_msg4 (c : wpa2_ctx) (out_max : Z) : option (Z * list Z) :=
  let body_len := u16 sizeof_eapol_key in
  let total := u16 (sizeof_eapol_hdr + body_len) in
  if out_max <? total then Some (-1, [])
  else
    let out := replicate (Z.to_nat total) 0 in
    let out := splice out 0 ([EAPOL_VERSION; EAPOL_TYPE_KEY] ++ w_put_be16 body_len) in
    let out := splice out off_type [EAPOL_KEY_TYPE_RSN] in
    let key_info := Z.lor (Z.lor (Z.lor WPA2_KEY_INFO_TYPE_HMAC_SHA1 WPA2_KEY_INFO_PAIRWISE)
                      WPA2_KEY_INFO_MIC) WPA2_KEY_INFO_SECURE in
    let out := splice out off_info (w_put_be16 key_info) in
    let out := splice out off_len (w_put_be16 16) in
    let out := splice out off_replay (w_put_be64 (replay_counter c)) in
    let out := splice out off_data_len (w_put_be16 0) in
    mic ← wpa2_compute_mic (kck c) out junk_mic;
    Some (total, splice out off_mic (take 16 mic)).

(** ** Received handshake frames *)

(** The search for the GTK in the unwrapped key data: the index and the key,
    or nothing when the loop ends without one. *)
Definition kde_step (unwrapped : list Z) (ud_len pos : Z) : option (Z + option (Z * list Z)) :=
  if pos + 2 <=? ud_len then
    kde_type ← unwrapped !! Z.to_nat pos;
    kde_len ← unwrapped !! Z.to_nat (pos + 1);
    if ud_len <? pos + 2 + kde_len then Some (inr None)
    else
      let at_pos i := at_ unwrapped (Z.to_nat (pos + i)) in
      if (kde_type =? 0xDD) && (6 + Z.of_nat WPA2_GTK_LEN <=? kde_len) &&
         (at_pos 2 =? 0x00) && (at_pos 3 =? 0x0F) && (at_pos 4 =? 0xAC) && (at_pos 5 =? 0x01)
      then Some (inr (Some (Z.land (at_pos 6) 0x03,
                            slice unwrapped (Z.to_nat (pos + 8)) WPA2_GTK_LEN)))
      else Some (inl (u16 (pos + (2 + kde_len))))
  else Some (inr None).
Definition find_gtk (unwrapped : list Z) (ud_len : Z) : option (option (Z * list Z)) :=
  while_opt (2 ^ 16) (kde_step unwrapped ud_len) 0.

Definition flag (key_info bit : Z) : bool := negb (Z.land key_info bit =? 0).

(** Message 1: a new PTK from the nonces. *)
Definition process_msg1 (frame : list Z) (replay : Z) : M wpa2 Z :=
  on_wpa2 (λ c, set_replay replay (set_nonces (slice frame off_nonce WPA2_NONCE_LEN) (snonce c) c));;
  sn ← with_rng (crypto_random (Z.of_nat WPA2_NONCE_LEN));
  on_wpa2 (λ c, set_nonces (anonce c) sn c);;
  c ← gets g_wpa2;
  c ← lift_opt (λ _, wpa2_derive_ptk c);
  on_wpa2 (λ _, set_hs 2 c);;
  mret 0.

(** The key data of message 3; reading beyond the frame is undefined.  The
    result is whether processing goes on. *)
Definition install_gtk (frame : list Z) (key_data_len : Z) : M wpa2 bool :=
  if 64 + 8 <? key_data_len then mret false
  else if Z.of_nat (length frame) <? sizeof_eapol_hdr + sizeof_eapol_key + key_data_len then fault
  else
    c ← gets g_wpa2;
    let '(rc, unwrapped) := aes_key_unwrap (kek c) (slice frame off_data (Z.to_nat key_data_len)) in
    if negb (rc =? 0) then mret false
    else
      found ← lift_opt (λ _, find_gtk unwrapped (u16 (key_data_len - 8)));
      match found with
      | Some (i, k) => on_wpa2 (set_gtk i k);; mret true
      | None => mret true
      end.

Definition process_msg3 (frame : list Z) (replay key_data_len : Z) (has_enc : bool) : M wpa2 Z :=
  c ← gets g_wpa2;
  computed_mic ← lift_opt (λ _, wpa2_compute_mic (kck c) frame junk_mic);
  if negb (crypto_memcmp computed_mic (slice frame off_mic 16) =? 0) then mret (-1)
  else if replay <? replay_counter c then mret (-1)
  else
    on_wpa2 (set_replay replay);;
    if negb (crypto_memcmp (anonce c) (slice frame off_nonce WPA2_NONCE_LEN) =? 0) then mret (-1)
    else
      go_on ← (if has_enc && (24 <=? key_data_len) then install_gtk frame key_data_len
               else mret true);
      if negb go_on then mret (-1)
      else
        on_wpa2 (λ c, set_pns 0 0 (set_hs 3 c));;
        mret 0.

Definition wpa2_process_eapol (frame : list Z) : M wpa2 Z :=
  if Z.of_nat (length frame) <? sizeof_eapol_hdr + sizeof_eapol_key then mret (-1)
  else
    valid ← gets (λ s, pmk_valid (g_wpa2 s));
    if negb valid then mret (-1)
    else if negb (at_ frame 1 =? EAPOL_TYPE_KEY) || negb (at_ frame off_type =? EAPOL_KEY_TYPE_RSN)
    then mret (-1)
    else
      let key_info := w_be16 (slice frame off_info 2) in
      let replay := w_be64 (slice frame off_replay 8) in
      let key_data_len := w_be16 (slice frame off_data_len 2) in
      let has_ack := flag key_info WPA2_KEY_INFO_ACK in
      let has_mic := flag key_info WPA2_KEY_INFO_MIC in
      let has_secure := flag key_info WPA2_KEY_INFO_SECURE in
      let has_enc := flag key_info WPA2_KEY_INFO_ENC_KEY_DATA in
      let is_pairwise := flag key_info WPA2_KEY_INFO_PAIRWISE in
      let has_install := flag key_info WPA2_KEY_INFO_INSTALL in
      if has_ack && is_pairwise && negb has_mic && negb has_secure then process_msg1 frame replay
      else if has_ack && is_pairwise && has_mic && has_secure && has_install
      then process_msg3 frame replay key_data_len has_enc
      else mret (-1).

Definition wpa2_is_connected (c : wpa2_ctx) : bool := (4 <=? hs_state c) && ptk_valid c.

(** The answer of the driver to a received EAPOL frame: message 2 or 4. *)
Definition send_eapol (msg : list Z) : M wpa2 unit :=
  modify (λ s, Wpa2 (g_wpa2 s) (rng s) (g_wpa2_active s) (eapol_sent s ++ [msg])).
Definition iwl_rx_eapol (frame : list Z) : M wpa2 unit :=
  rc ← wpa2_process_eapol frame;
  if negb (rc =? 0) then mret tt
  else
    c ← gets g_wpa2;
    if hs_state c =? 2 then
      '(len, msg2) ← lift_opt (λ _, wpa2_build_msg2 c 256);
      if 0 <? len then send_eapol msg2 else mret tt
    else if hs_state c =? 3 then
      '(len, msg4) ← lift_opt (λ _, wpa2_build_msg4 c 256);
      if 0 <? len then
        send_eapol msg4;;
        modify (λ s, Wpa2 (set_hs 4 (g_wpa2 s)) (rng s) true (eapol_sent s))
      else mret tt
    else mret tt.

(** ** Protected data frames *)

Definition pn_le (pn : Z) : list Z :=
  [u8 pn; u8 (Z.shiftr pn 8); u8 (Z.shiftr pn 16); u8 (Z.shiftr pn 24);
   u8 (Z.shiftr pn 32); u8 (Z.shiftr pn 40)].
Definition ccmp_header (pn_bytes : list Z) : list Z :=
  [at_ pn_bytes 0; at_ pn_bytes 1; 0; 0x20;
   at_ pn_bytes 2; at_ pn_bytes 3; at_ pn_bytes 4; at_ pn_bytes 5].

(** The return value and the bytes written to [out]. *)
Definition wpa2_encrypt_data (hdr payload : list Z) : M wpa2_ctx (Z * list Z) :=
  c ← gets id;
  if negb (ptk_valid c) then mret (-1, [])
  else
    let out := <[1%nat := Z.lor (at_ hdr 1) 0x40]> hdr in
    let pn := tx_pn c in
    modify (λ c, set_pns (u64 (pn + 1)) (rx_pn c) c);;
    let pn_bytes := pn_le pn in
    let out' := out ++ ccmp_header pn_bytes in
    '(rc, ct) ← lift_opt (λ _, ccmp_encrypt junk_aad (tk c) pn_bytes (slice out 10 6) 0 out payload);
    if negb (rc =? 0) then mret (-1, out')
    else mret (Z.of_nat (length hdr) + 8 + Z.of_nat (length payload) + 8, out' ++ ct).

Definition data_hdr_len (frame : list Z) : Z :=
  let fc := frame_control frame in
  let hdr_len := 24 in
  let hdr_len := if Z.land fc 0x0300 =? 0x0300 then 30 else hdr_len in
  if negb (Z.land fc 0x0080 =? 0) then hdr_len + 2 else hdr_len.

Definition pn_of_header (h : list Z) : list Z :=
  [at_ h 0; at_ h 1; at_ h 4; at_ h 5; at_ h 6; at_ h 7].
Definition pn_value (p : list Z) : Z :=
  Z.lor (Z.lor (Z.lor (Z.lor (Z.lor (at_ p 0) (Z.shiftl (at_ p 1) 8)) (Z.shiftl (at_ p 2) 16))
    (Z.shiftl (at_ p 3) 24)) (Z.shiftl (at_ p 4) 32)) (Z.shiftl (at_ p 5) 40).

(** The return value and the bytes written to [out]. *)
Definition wpa2_decrypt_data (frame : list Z) (out_max : Z) : M wpa2_ctx (Z * list Z) :=
  c ← gets id;
  if negb (ptk_valid c) then mret (-1, [])
  else if (length frame <? 2)%nat then fault
  else
    let frame_len := Z.of_nat (length frame) in
    let hdr_len := data_hdr_len frame in
    if frame_len <? hdr_len + 8 + 8 then mret (-1, [])
    else
      let n := Z.to_nat hdr_len in
      let pn_bytes := pn_of_header (slice frame n 8) in
      let pn := pn_value pn_bytes in
      if pn <=? rx_pn c then mret (-1, [])
      else
        let ct_len := u16 (frame_len - hdr_len - 8) in
        let pt_len := u16 (ct_len - 8) in
        if (ct_len <? 8) || (out_max <? pt_len) then mret (-1, [])
        else
          '(rc, out) ← lift_opt (λ _, ccmp_decrypt junk_aad (tk c) pn_bytes (slice frame 10 6) 0
            (take n frame) (slice frame (n + 8) (Z.to_nat ct_len)));
          if negb (rc =? 0) then mret (-1, out)
          else
            modify (set_pns (tx_pn c) pn);;
            mret (pt_len, out).
End buffers.
