(* ===== verification/Wpa2Props.v ===== *)
(** * WPA2: properties of the handshake and of protected frames

    The frames of the handshake as IEEE 802.11i lays them out ([eapol_ref]), the
    pairwise key of both parties ([ptk_of]), the effect of each message on the
    context, and the claims: the handshake ends with the keys of the access
    point, only authentic messages install keys, data frames make the round trip
    once, in increasing order of packet numbers. *)

From Stdlib Require Import Sorted.
From S2P Require Import Prelude Loops Codec Aes Sha1 Ccmp Wpa2.

#[local] Opaque hmac_ref prf_ref sha1_ref aes128_encrypt aes128_decrypt aes128_init key_wrap
  aes_key_unwrap crypto_random hmac_sha1 prf.

(** ** Byte order *)

Lemma be16_put v : 0 ≤ v < 2 ^ 16 → w_be16 (w_put_be16 v) = v.
Proof.
  intros Hv. unfold w_be16, w_put_be16, at_. cbn [lookup list_lookup default from_option id].
  rewrite lor_shiftl_add by (lia || apply u8_range).
  rewrite Z.shiftr_div_pow2 by lia. unfold u8, u16. Z.to_euclidean_division_equations. lia.
Qed.

Lemma length_put_be64 v : length (w_put_be64 v) = 8%nat.
Proof. reflexivity. Qed.

Lemma bytes_put_be64 v : bytes (w_put_be64 v).
Proof. unfold w_put_be64. simpl. forall_list; apply u8_range. Qed.

Lemma be64_step v k j :
  0 ≤ v < 2 ^ 64 → 0 ≤ j → k = j + 8 →
  Z.lor (u64 (Z.shiftl (Z.shiftr v k) 8)) (u8 (Z.land (Z.shiftr v j) 0xFF)) = Z.shiftr v j.
Proof.
  intros Hv Hj ->. change 0xFF with (Z.ones 8). rewrite Z.land_ones by lia.
  rewrite <-Z.shiftr_shiftr by lia.
  assert (0 ≤ Z.shiftr v j < 2 ^ 64) as Hw.
  { rewrite Z.shiftr_div_pow2 by lia. pose proof (pow2_pos j Hj). split; [apply Z.div_pos; lia|].
    apply Z.div_lt_upper_bound; nia. }
  set (w := Z.shiftr v j) in *.
  rewrite u64_small, u8_small, lor_shiftl_add, ?Z.shiftr_div_pow2 by
    (rewrite ?Z.shiftl_mul_pow2, ?Z.shiftr_div_pow2 by lia; Z.to_euclidean_division_equations; lia).
  Z.to_euclidean_division_equations. lia.
Qed.

Lemma be64_put v : 0 ≤ v < 2 ^ 64 → w_be64 (w_put_be64 v) = v.
Proof.
  intros Hv. unfold w_be64, w_put_be64. cbn [seq foldl fst take].
  rewrite !Z.shiftr_shiftr by lia.
  change (8 + 8) with 16. change (8 + 16) with 24. change (8 + 24) with 32.
  change (8 + 32) with 40. change (8 + 40) with 48. change (8 + 48) with 56.
  assert (0 = Z.shiftr v 64) as E.
  { rewrite Z.shiftr_div_pow2, Z.div_small; lia. }
  rewrite E at 1. rewrite <-(Z.shiftr_0_r v) at 9.
  rewrite (be64_step v 64 56), (be64_step v 56 48), (be64_step v 48 40), (be64_step v 40 32),
    (be64_step v 32 24), (be64_step v 24 16), (be64_step v 16 8), (be64_step v 8 0) by lia.
  apply Z.shiftr_0_r.
Qed.

(** ** Frames *)

(** An EAPOL-Key frame of IEEE 802.11i (version 2, key length 16): flags,
    replay counter, nonce, MIC and key data. *)
Definition eapol_ref (info replay : Z) (nonce mic data : list Z) : list Z :=
  ([2; 3] ++ w_put_be16 (95 + Z.of_nat (length data)) ++ [2]) ++
  w_put_be16 info ++ w_put_be16 16 ++ w_put_be64 replay ++ nonce ++ replicate 32 0 ++
  mic ++ w_put_be16 (Z.of_nat (length data)) ++ data.

(** The same frame with the MIC of key [k]. *)
Definition mic_ref (k frame : list Z) : list Z := take 16 (hmac_ref k frame).
Definition sealed (k : list Z) (info replay : Z) (nonce data : list Z) : list Z :=
  eapol_ref info replay nonce
    (mic_ref k (eapol_ref info replay nonce (replicate 16 0) data)) data.

Lemma length_mic_ref k f : length (mic_ref k f) = 16%nat.
Proof. unfold mic_ref. by rewrite length_take, length_hmac_ref. Qed.

Section fields.
Context (info replay : Z) (nonce mic data : list Z).
Context (Hn : length nonce = 32%nat) (Hm : length mic = 16%nat).
#[local] Abbreviation f := (eapol_ref info replay nonce mic data).

Lemma length_eapol_ref : length f = (99 + length data)%nat.
Proof. unfold eapol_ref. rewrite !length_app, length_put_be64, Hn, Hm, length_replicate. simpl. lia. Qed.

Lemma eapol_type : at_ f 1 = 3 ∧ at_ f off_type = 2.
Proof. done. Qed.

Lemma eapol_info : slice f off_info 2 = w_put_be16 info.
Proof. reflexivity. Qed.

Lemma eapol_replay : slice f off_replay 8 = w_put_be64 replay.
Proof. reflexivity. Qed.

(** The fields before the nonce. *)
Definition eapol_head : list Z :=
  ([2; 3] ++ w_put_be16 (95 + Z.of_nat (length data)) ++ [2]) ++
  w_put_be16 info ++ w_put_be16 16 ++ w_put_be64 replay.

Lemma eapol_split : f = eapol_head ++ nonce ++ replicate 32 0 ++ mic ++
  w_put_be16 (Z.of_nat (length data)) ++ data.
Proof. unfold eapol_ref, eapol_head. by rewrite <-!app_assoc. Qed.

Lemma eapol_nonce : slice f off_nonce WPA2_NONCE_LEN = nonce.
Proof. by eapply (slice_mid _ eapol_head); [apply eapol_split| |]. Qed.

Lemma eapol_before_mic : f = (eapol_head ++ nonce ++ replicate 32 0) ++ mic ++
  w_put_be16 (Z.of_nat (length data)) ++ data.
Proof. by rewrite eapol_split, <-!app_assoc. Qed.

Lemma length_before_mic : length (eapol_head ++ nonce ++ replicate 32 0) = off_mic.
Proof. by rewrite !length_app, Hn. Qed.

Lemma eapol_mic : slice f off_mic 16 = mic.
Proof. by eapply slice_mid; [apply eapol_before_mic|apply length_before_mic|]. Qed.

Lemma eapol_data_len : slice f off_data_len 2 = w_put_be16 (Z.of_nat (length data)).
Proof.
  eapply (slice_mid _ ((eapol_head ++ nonce ++ replicate 32 0) ++ mic)); [|
    by rewrite length_app, length_before_mic, Hm|done].
  by rewrite eapol_before_mic, <-!app_assoc.
Qed.

Lemma eapol_data : slice f off_data (length data) = data.
Proof.
  eapply (slice_mid _ (((eapol_head ++ nonce ++ replicate 32 0) ++ mic) ++
    w_put_be16 (Z.of_nat (length data))) _ []); [|
    by rewrite length_app, length_app, length_before_mic, Hm|done].
  by rewrite eapol_before_mic, <-!app_assoc, app_nil_r.
Qed.

(** Writing another MIC. *)
Lemma eapol_set_mic mic' : length mic' = 16%nat →
  splice f off_mic mic' = eapol_ref info replay nonce mic' data.
Proof.
  intros Hm'. rewrite eapol_before_mic at 1. unfold splice.
  rewrite <-length_before_mic at 1. rewrite take_app_length.
  rewrite drop_app_ge by (rewrite length_before_mic; lia).
  replace (off_mic + length mic' - length (eapol_head ++ nonce ++ replicate 32 0%Z))%nat
    with (length mic) by (rewrite length_before_mic, Hm, Hm'; done).
  rewrite drop_app_length. unfold eapol_ref, eapol_head. by rewrite <-!app_assoc.
Qed.
End fields.

(** The MIC over a frame: the HMAC of the frame with its MIC field cleared. *)
Lemma compute_mic_eq junk k frame out :
  junk_ok junk → small k → (97 ≤ length frame)%nat → Z.of_nat (length frame) ≤ 512 →
  wpa2_compute_mic junk k frame out = Some (mic_ref k (splice frame off_mic (replicate 16 0))).
Proof.
  intros Hj Hk Hl Hmax. unfold wpa2_compute_mic. cbv zeta.
  destruct (Z.ltb_spec 512 (Z.of_nat (length frame))); [lia|].
  assert (take (length frame) (splice (splice (replicate 512 0) 0 frame) off_mic (replicate 16 0)) =
    splice frame off_mic (replicate 16 0)) as E.
  { apply list_eq. intros i. change off_mic with 81%nat.
    destruct (decide (i < length frame)%nat) as [Hi|Hi].
    - rewrite lookup_take_lt by done. rewrite lookup_splice.
      2: { rewrite length_splice, !length_replicate; [lia|]. rewrite length_replicate. lia. }
      rewrite (lookup_splice frame) by (rewrite length_replicate; lia).
      rewrite (lookup_splice (replicate 512 0)) by (rewrite length_replicate; lia).
      case_decide; [done|]. rewrite decide_True by lia. f_equal. lia.
    - rewrite !lookup_ge_None_2; [done|rewrite length_splice; rewrite ?length_replicate; lia|].
      rewrite length_take. lia. }
  change (4 + 77)%nat with off_mic. rewrite E.
  eapply bind_Some; [apply hmac_sha1_eq; [done|done|]|done].
  unfold small. rewrite length_splice; rewrite ?length_replicate; change off_mic with 81%nat; lia.
Qed.

Lemma compute_mic_sealed junk k info replay nonce mic data out :
  junk_ok junk → small k → length nonce = 32%nat → length mic = 16%nat →
  Z.of_nat (length data) ≤ 413 →
  wpa2_compute_mic junk k (eapol_ref info replay nonce mic data) out =
    Some (mic_ref k (eapol_ref info replay nonce (replicate 16 0) data)).
Proof.
  intros Hj Hk Hn Hm Hd. pose proof (length_eapol_ref info replay nonce mic data Hn Hm) as Hl.
  rewrite compute_mic_eq by (done || lia). by rewrite eapol_set_mic.
Qed.

(** ** Messages 2 and 4 *)

Ltac list_of_length l n :=
  lazymatch n with
  | O => destruct l; [|discriminate]
  | S ?n => destruct l as [|? l]; [discriminate|]; list_of_length l n
  end.

Definition info_msg1 : Z := 0x008A.
Definition info_msg2 : Z := 0x010A.
Definition info_msg3 : Z := 0x13CA.
Definition info_msg4 : Z := 0x030A.

Lemma build_msg2_eq junk jm c :
  junk_ok junk → small (kck c) → length (snonce c) = 32%nat →
  wpa2_build_msg2 junk jm c 256 =
    Some (121, sealed (kck c) info_msg2 (replay_counter c) (snonce c) rsn_ie).
Proof.
  intros Hj Hk Hs. unfold wpa2_build_msg2. cbv zeta.
  change (wpa2_build_rsn_ie 22) with rsn_ie. change (256 <? _) with false. cbv iota.
  match goal with |- context [wpa2_compute_mic _ _ ?f _] =>
    replace f with (eapol_ref info_msg2 (replay_counter c) (snonce c) (replicate 16 0) rsn_ie) end.
  2: { generalize (snonce c) Hs (replay_counter c). intros sn Hl r. list_of_length sn 32%nat.
       reflexivity. }
  rewrite compute_mic_sealed by done. cbn [mbind option_bind].
  rewrite take_ge by (rewrite length_mic_ref; lia).
  rewrite eapol_set_mic; [reflexivity|done|done|apply length_mic_ref].
Qed.

Lemma build_msg4_eq junk jm c :
  junk_ok junk → small (kck c) →
  wpa2_build_msg4 junk jm c 256 =
    Some (99, sealed (kck c) info_msg4 (replay_counter c) (replicate 32 0) []).
Proof.
  intros Hj Hk. unfold wpa2_build_msg4. cbv zeta. change (256 <? _) with false. cbv iota.
  match goal with |- context [wpa2_compute_mic _ _ ?f _] =>
    replace f with (eapol_ref info_msg4 (replay_counter c) (replicate 32 0) (replicate 16 0) []) end.
  2: { reflexivity. }
  rewrite compute_mic_sealed by done. cbn [mbind option_bind].
  rewrite take_ge by (rewrite length_mic_ref; lia).
  rewrite eapol_set_mic; [reflexivity|done|done|apply length_mic_ref].
Qed.

(** ** The pairwise key *)

Definition ptk_of (pmk aa sa an sn : list Z) : list Z :=
  prf_ref pmk expansion_label (min_max aa sa ++ min_max an sn) 48.

Lemma w_memcmp_refl a : w_memcmp a a = 0.
Proof. induction a as [|x a IH]; simpl; [done|]. by rewrite Z.ltb_irrefl. Qed.

Lemma w_memcmp_anti a b : length a = length b → w_memcmp b a = - w_memcmp a b.
Proof.
  revert b. induction a as [|x a IH]; intros [|y b] Hl; try done. simpl.
  destruct (Z.ltb_spec x y), (Z.ltb_spec y x); try lia. apply IH. by injection Hl.
Qed.

Lemma w_memcmp_0 a b : length a = length b → w_memcmp a b = 0 → a = b.
Proof.
  revert b. induction a as [|x a IH]; intros [|y b] Hl; try done. simpl.
  destruct (Z.ltb_spec x y), (Z.ltb_spec y x); try lia. intros E0. f_equal; [lia|].
  apply IH; [by injection Hl|done].
Qed.

(** Both parties order the addresses and the nonces in the same way. *)
Lemma min_max_comm a b : length a = length b → min_max a b = min_max b a.
Proof.
  intros Hl. unfold min_max. pose proof (w_memcmp_anti a b Hl) as E.
  destruct (Z.ltb_spec (w_memcmp a b) 0), (Z.ltb_spec (w_memcmp b a) 0); try done; try lia.
  by rewrite (w_memcmp_0 a b) by (done || lia).
Qed.

Lemma length_min_max a b : length (min_max a b) = (length a + length b)%nat.
Proof. unfold min_max. case_match; rewrite length_app; lia. Qed.

Lemma length_ptk_of p aa sa an sn : length (ptk_of p aa sa an sn) = 48%nat.
Proof. unfold ptk_of. by rewrite length_prf_ref. Qed.

Lemma bytes_ptk_of p aa sa an sn : bytes (ptk_of p aa sa an sn).
Proof. apply bytes_prf_ref. Qed.

(** A context whose fields have the sizes of the C structure. *)
Definition ctx_ok (c : wpa2_ctx) : Prop :=
  length (pmk c) = 32%nat ∧ length (our_mac c) = 6%nat ∧ length (ap_mac c) = 6%nat ∧
  length (anonce c) = 32%nat ∧ length (snonce c) = 32%nat ∧ block (kck c) ∧ block (kek c).

Lemma small_block k : length k = 16%nat → small k.
Proof. intros Hk. unfold small. lia. Qed.

Lemma small_32 k : length k = 32%nat → small k.
Proof. intros Hk. unfold small. lia. Qed.

Lemma derive_ptk_eq junk c :
  junk_ok junk → ctx_ok c →
  wpa2_derive_ptk junk c =
    Some (set_ptk (ptk_of (pmk c) (ap_mac c) (our_mac c) (anonce c) (snonce c)) c).
Proof.
  intros Hj (Hp & Ho & Ha & Han & Hsn & _). unfold wpa2_derive_ptk.
  eapply bind_Some; [|reflexivity]. apply prf_eq; [done|by apply small_32| |done].
  rewrite length_app, !length_min_max, Ho, Ha, Han, Hsn. simpl. lia.
Qed.

(** The state after message 1 with nonce [an], when the generator gave [sn]. *)
Definition after_msg1 (r : Z) (an sn : list Z) (c : wpa2_ctx) : wpa2_ctx :=
  set_hs 2 (set_ptk (ptk_of (pmk c) (ap_mac c) (our_mac c) an sn)
    (set_nonces an sn (set_replay r c))).

Lemma wp_with_rng {A} (m : M prng A) (Q : A → wpa2 → Prop) s :
  wp m (λ a r, Q a (Wpa2 (g_wpa2 s) r (g_wpa2_active s) (eapol_sent s))) (rng s) →
  wp (with_rng m) Q s.
Proof. unfold wp, with_rng. by destruct (m (rng s)) as [[a r]|]. Qed.

Lemma process_msg1_ok junk s frame r :
  junk_ok junk → ctx_ok (g_wpa2 s) → length (slice frame off_nonce WPA2_NONCE_LEN) = 32%nat →
  wp (process_msg1 junk frame r) (λ rc s', rc = 0 ∧ ∃ sn g,
    length sn = 32%nat ∧ bytes sn ∧
    s' = Wpa2 (after_msg1 r (slice frame off_nonce WPA2_NONCE_LEN) sn (g_wpa2 s)) g
           (g_wpa2_active s) (eapol_sent s)) s.
Proof.
  intros Hj Hc Han. unfold process_msg1, on_wpa2.
  apply wp_bind, wp_modify, wp_bind, wp_with_rng.
  eapply wp_mono; [by apply crypto_random_fills|].
  intros sn g (Hl & Hb & _). assert (length sn = 32%nat) as Hsn by exact (Nat2Z.inj _ _ Hl).
  apply wp_bind, wp_modify, wp_bind, wp_gets, wp_bind.
  eapply wp_lift_opt; [apply derive_ptk_eq; [done|]|].
  { destruct Hc as (? & ? & ? & ? & ? & ? & ?). by split_and!. }
  apply wp_bind, wp_modify, wp_ret. split; [done|]. exists sn, g. by split_and!.
Qed.

(** ** Message 3 *)

(** The key data of message 3: an RSN element, the GTK element with index [i]
    and key [k], and padding. *)
Definition gtk_data (ie : list Z) (i : Z) (k : list Z) : list Z :=
  [0x30; 20] ++ ie ++ [0xDD; 22; 0x00; 0x0F; 0xAC; 0x01; i; 0] ++ k ++ [0xDD; 0].

Lemma find_gtk_data ie i k :
  length ie = 20%nat → length k = 16%nat →
  find_gtk (gtk_data ie i k) 48 = Some (Some (Z.land i 3, k)).
Proof. intros Hie Hk. list_of_length ie 20%nat. list_of_length k 16%nat. reflexivity. Qed.

Definition gtk_ok (ie : list Z) (i : Z) (k : list Z) : Prop :=
  length ie = 20%nat ∧ bytes ie ∧ 0 ≤ i < 4 ∧ length k = 16%nat ∧ bytes k.

Lemma wrapped_gtk kek ie i k :
  block kek → gtk_ok ie i k →
  length (key_wrap kek (gtk_data ie i k)) = 56%nat ∧
  aes_key_unwrap kek (key_wrap kek (gtk_data ie i k)) = (0, gtk_data ie i k).
Proof.
  intros Hk (Hie & Hbi & Hi & Hl & Hb). apply (unwrap_key_wrap kek _ 6); [done| | |lia].
  - unfold gtk_data. repeat apply bytes_app; try done; forall_list; unfold is_byte; lia.
  - unfold gtk_data. rewrite !length_app, Hie, Hl. reflexivity.
Qed.

(** The context after an accepted message 3. *)
Definition after_msg3 (r i : Z) (k : list Z) (c : wpa2_ctx) : wpa2_ctx :=
  set_pns 0 0 (set_hs 3 (set_gtk i k (set_replay r c))).

Section msg3.
Context (junk : sha1_ctx) (jm : list Z) (Hjunk : junk_ok junk).

Lemma process_msg3_ok s r ie i k :
  let c := g_wpa2 s in
  ctx_ok c → replay_counter c ≤ r → gtk_ok ie i k →
  let frame := sealed (kck c) info_msg3 r (anonce c) (key_wrap (kek c) (gtk_data ie i k)) in
  wp (process_msg3 junk jm frame r 56 true) (λ rc s', rc = 0 ∧
    s' = Wpa2 (after_msg3 r i k c) (rng s) (g_wpa2_active s) (eapol_sent s)) s.
Proof.
  intros c (Hp & Ho & Ha & Han & Hsn & Hkck & Hkek) Hr Hg frame.
  destruct (wrapped_gtk (kek c) ie i k Hkek Hg) as [Hwl Hw].
  set (data := key_wrap (kek c) (gtk_data ie i k)) in *.
  pose proof (length_mic_ref (kck c)
    (eapol_ref info_msg3 r (anonce c) (replicate 16 0) data)) as Hml.
  unfold process_msg3. apply wp_bind, wp_gets. fold c. apply wp_bind.
  eapply wp_lift_opt; [unfold frame, sealed; apply compute_mic_sealed; [done|..]|].
  { apply small_block, Hkck. } { done. } { done. } { rewrite Hwl. lia. }
  unfold frame, sealed at 1. rewrite eapol_mic by done.
  rewrite crypto_memcmp_eq by done. rewrite bool_decide_eq_true_2 by done. simpl negb. cbv iota.
  destruct (Z.ltb_spec r (replay_counter c)); [lia|]. unfold on_wpa2. apply wp_bind, wp_modify.
  unfold sealed at 1. rewrite eapol_nonce by done.
  rewrite crypto_memcmp_eq by done. rewrite bool_decide_eq_true_2 by done. simpl negb. cbv iota.
  change (24 <=? 56) with true. simpl andb. cbv iota. apply wp_bind. unfold install_gtk.
  change (64 + 8 <? 56) with false. cbv iota. unfold sealed at 1.
  rewrite length_eapol_ref by done. rewrite Hwl. simpl (_ <? _). cbv iota.
  apply wp_bind, wp_gets. cbn [g_wpa2]. unfold sealed. change (Z.to_nat 56) with 56%nat.
  rewrite <-Hwl, eapol_data by done. change (kek (set_replay r (g_wpa2 s))) with (kek c).
  rewrite Hw. simpl negb. cbv iota. apply wp_bind.
  destruct Hg as (Hie & _ & Hi & Hk & _).
  eapply wp_lift_opt; [apply find_gtk_data; done|]. apply wp_bind, wp_modify, wp_ret.
  simpl negb. cbv iota. apply wp_bind, wp_modify, wp_ret. split; [done|].
  unfold after_msg3. change 3 with (Z.ones 2). rewrite Z.land_ones, Z.mod_small by lia. done.
Qed.

(** What [wpa2_process_eapol] does with a well-formed frame. *)
Lemma process_dispatch s info r nonce mic data :
  pmk_valid (g_wpa2 s) = true → length nonce = 32%nat → length mic = 16%nat →
  0 ≤ info < 2 ^ 16 → 0 ≤ r < 2 ^ 64 → (length data < 512)%nat →
  let frame := eapol_ref info r nonce mic data in
  wpa2_process_eapol junk jm frame s =
    (if flag info WPA2_KEY_INFO_ACK && flag info WPA2_KEY_INFO_PAIRWISE &&
        negb (flag info WPA2_KEY_INFO_MIC) && negb (flag info WPA2_KEY_INFO_SECURE)
     then process_msg1 junk frame r
     else if flag info WPA2_KEY_INFO_ACK && flag info WPA2_KEY_INFO_PAIRWISE &&
        flag info WPA2_KEY_INFO_MIC && flag info WPA2_KEY_INFO_SECURE &&
        flag info WPA2_KEY_INFO_INSTALL
     then process_msg3 junk jm frame r (Z.of_nat (length data))
            (flag info WPA2_KEY_INFO_ENC_KEY_DATA)
     else mret (-1)) s.
Proof.
  intros Hv Hn Hm Hi Hr Hd frame. unfold wpa2_process_eapol.
  assert (length frame = 99 + length data)%nat as Hl by by apply length_eapol_ref.
  destruct (Z.ltb_spec (Z.of_nat (length frame)) (sizeof_eapol_hdr + sizeof_eapol_key)) as [Hlt|_];
    [unfold sizeof_eapol_hdr, sizeof_eapol_key in Hlt; lia|].
  destruct (eapol_type info r nonce mic data) as [Ht Hk].
  assert (w_be16 (slice frame off_info 2) = info) as Ei by (unfold frame; by rewrite eapol_info, be16_put).
  assert (w_be64 (slice frame off_replay 8) = r) as Er by (unfold frame; by rewrite eapol_replay, be64_put).
  assert (w_be16 (slice frame off_data_len 2) = Z.of_nat (length data)) as Ed
    by (unfold frame; rewrite eapol_data_len by done; apply be16_put; lia).
  fold frame in Ht, Hk. rewrite Ht, Hk, Ei, Er, Ed.
  unfold gets, mbind, M_bind. by rewrite Hv.
Qed.

Lemma wp_eq {S A} (m m' : M S A) (Q : A → S → Prop) s : m s = m' s → wp m' Q s → wp m Q s.
Proof. unfold wp. by intros ->. Qed.
End msg3.

Section rx.
Context (junk : sha1_ctx) (jm : list Z) (Hjunk : junk_ok junk).

Lemma block_take_ptk p aa sa an sn :
  block (take WPA2_KCK_LEN (ptk_of p aa sa an sn)) ∧
  block (slice (ptk_of p aa sa an sn) WPA2_KCK_LEN WPA2_KEK_LEN).
Proof.
  pose proof (length_ptk_of p aa sa an sn) as Hl. pose proof (bytes_ptk_of p aa sa an sn) as Hb.
  split; split; [rewrite length_take, Hl; done|by apply bytes_take| |by apply bytes_take, bytes_drop].
  unfold slice. by rewrite length_take, length_drop, Hl.
Qed.

Lemma ctx_ok_after_msg1 c r an sn :
  ctx_ok c → length an = 32%nat → length sn = 32%nat → ctx_ok (after_msg1 r an sn c).
Proof.
  intros (Hp & Ho & Ha & _) Han Hsn.
  destruct (block_take_ptk (pmk c) (ap_mac c) (our_mac c) an sn). by split_and!.
Qed.

Lemma rx_msg1 s r an mic data :
  let c := g_wpa2 s in
  ctx_ok c → pmk_valid c = true → 0 ≤ r < 2 ^ 64 → length an = 32%nat → length mic = 16%nat →
  (length data < 512)%nat →
  wp (iwl_rx_eapol junk jm (eapol_ref info_msg1 r an mic data)) (λ _ s', ∃ sn g,
    length sn = 32%nat ∧ bytes sn ∧
    let c' := after_msg1 r an sn c in
    s' = Wpa2 c' g (g_wpa2_active s)
           (eapol_sent s ++ [sealed (kck c') info_msg2 r sn rsn_ie])) s.
Proof.
  intros c Hc Hv Hr Han Hm Hd. unfold iwl_rx_eapol. apply wp_bind.
  eapply wp_eq; [apply process_dispatch; done|].
  eapply wp_mono; [apply process_msg1_ok; [done|done|by rewrite eapol_nonce]|].
  intros rc s' (-> & sn & g & Hsn & Hb & ->). rewrite eapol_nonce by done. simpl negb. cbv iota.
  apply wp_bind, wp_gets. cbn [g_wpa2]. fold c. change (hs_state (after_msg1 r an sn c) =? 2) with true.
  cbv iota. pose proof (ctx_ok_after_msg1 c r an sn Hc Han Hsn) as Hc'. apply wp_bind.
  eapply wp_lift_opt; [apply build_msg2_eq; [done| |apply Hsn]|].
  { apply small_block, Hc'. }
  simpl (0 <? _). cbv iota. apply wp_modify. exists sn, g. by split_and!.
Qed.

Lemma rx_msg3 s r ie i k :
  let c := g_wpa2 s in
  ctx_ok c → pmk_valid c = true → replay_counter c ≤ r < 2 ^ 64 → 0 ≤ replay_counter c →
  gtk_ok ie i k →
  wp (iwl_rx_eapol junk jm
        (sealed (kck c) info_msg3 r (anonce c) (key_wrap (kek c) (gtk_data ie i k)))) (λ _ s',
    s' = Wpa2 (set_hs 4 (after_msg3 r i k c)) (rng s) true
           (eapol_sent s ++ [sealed (kck c) info_msg4 r (replicate 32 0) []])) s.
Proof.
  intros c Hc Hv Hr Hr0 Hg. unfold iwl_rx_eapol. apply wp_bind.
  pose proof Hc as (_ & _ & _ & Han & _ & Hkck & Hkek).
  destruct (wrapped_gtk (kek c) ie i k Hkek Hg) as [Hwl _].
  eapply wp_eq.
  { unfold sealed. apply process_dispatch; [done|done|apply length_mic_ref|done|lia|rewrite Hwl; lia]. }
  change (_ && _ && negb _ && negb _) with false at 1. cbv iota. rewrite Hwl.
  eapply wp_mono; [apply (process_msg3_ok junk jm Hjunk s r ie i k Hc); [apply Hr|done]|].
  intros rc s' [-> ->]. simpl negb. cbv iota. apply wp_bind, wp_gets. cbn [g_wpa2]. fold c.
  change (hs_state (after_msg3 r i k c)) with 3. simpl (_ =? _). cbv iota. apply wp_bind.
  eapply wp_lift_opt; [apply build_msg4_eq; [done|apply small_block, Hkck]|].
  simpl (0 <? _). cbv iota. apply wp_bind, wp_modify, wp_modify. reflexivity.
Qed.
End rx.

(** ** The handshake *)

Lemma ctx_ok_init our ap k :
  length our = 6%nat → length ap = 6%nat → length k = 32%nat →
  ctx_ok (wpa2_set_pmk k (wpa2_init our ap)).
Proof. intros. split_and!; try done; by apply block_dec. Qed.

Lemma set_passphrase_eq junk passphrase ssid c :
  junk_ok junk → small passphrase →
  wpa2_set_passphrase junk passphrase ssid c =
    Some (wpa2_set_pmk (pbkdf2_ref passphrase (take 64 ssid) 4096 32) c).
Proof. intros Hj Hp. unfold wpa2_set_passphrase. eapply bind_Some; [by apply pbkdf2_eq|done]. Qed.

(** C34: The four-way handshake between the driver and an access point that shares
    the passphrase.  From a fresh context, message 1 is answered by a message 2
    with a new nonce and a valid MIC; a message 3 of the access point, which
    derives its key with the roles exchanged, is answered by message 4 and
    leaves encryption on, with the pairwise and the group key of the access
    point and both packet counters cleared. *)
Theorem wpa2_handshake_correct junk jm passphrase ssid our ap g r1 an mic1 :
  junk_ok junk → small passphrase → length our = 6%nat → length ap = 6%nat →
  0 ≤ r1 < 2 ^ 64 → length an = 32%nat → length mic1 = 16%nat →
  ∃ c0, wpa2_set_passphrase junk passphrase ssid (wpa2_init our ap) = Some c0 ∧
  wp (iwl_rx_eapol junk jm (eapol_ref info_msg1 r1 an mic1 [])) (λ _ s1,
    ∃ sn, length sn = 32%nat ∧
    let ptk := ptk_of (pbkdf2_ref passphrase (take 64 ssid) 4096 32) our ap sn an in
    let msg2 := sealed (take 16 ptk) info_msg2 r1 sn rsn_ie in
    eapol_sent s1 = [msg2] ∧ g_wpa2_active s1 = false ∧
    ∀ r3 ie i k, r1 ≤ r3 < 2 ^ 64 → gtk_ok ie i k →
    wp (iwl_rx_eapol junk jm
          (sealed (take 16 ptk) info_msg3 r3 an (key_wrap (slice ptk 16 16) (gtk_data ie i k))))
      (λ _ s2,
        let c := g_wpa2 s2 in
        wpa2_is_connected c = true ∧ g_wpa2_active s2 = true ∧
        tk c = slice ptk 32 16 ∧ gtk c = k ∧ gtk_idx c = i ∧ gtk_valid c = true ∧
        tx_pn c = 0 ∧ rx_pn c = 0 ∧
        eapol_sent s2 = [msg2; sealed (take 16 ptk) info_msg4 r3 (replicate 32 0) []]) s1)
  (Wpa2 c0 g false []).
Proof.
  intros Hj Hp Ho Ha Hr1 Han Hm. eexists. split; [by apply set_passphrase_eq|].
  set (k := pbkdf2_ref _ _ _ _).
  pose proof (ctx_ok_init our ap k Ho Ha (length_pbkdf2_ref passphrase (take 64 ssid) 4096 32 ltac:(lia))) as Hc.
  set (c0 := wpa2_set_pmk k (wpa2_init our ap)) in *.
  eapply wp_mono; [apply (rx_msg1 junk jm Hj (Wpa2 c0 g false []) r1 an mic1 [] Hc eq_refl Hr1 Han Hm); simpl; lia|].
  intros _ s1 (sn & g1 & Hsn & _ & ->). exists sn. split; [done|].
  pose proof (ctx_ok_after_msg1 c0 r1 an sn Hc Han Hsn) as Hc1. cbv zeta. cbn [g_wpa2 eapol_sent g_wpa2_active].
  assert (ptk_of k our ap sn an = ptk_of (pmk c0) (ap_mac c0) (our_mac c0) an sn) as ->.
  { unfold ptk_of. rewrite (min_max_comm our ap), (min_max_comm sn an); [done|congruence|congruence]. }
  split; [done|]. split; [done|]. intros r3 ie i gk Hr3 Hg.
  eapply wp_mono; [apply (rx_msg3 junk jm Hj (Wpa2 (after_msg1 r1 an sn c0) g1 _ _) r3 ie i gk Hc1);
    [done|apply Hr3|apply Hr1|done]|].
  intros _ s2 ->. cbn [g_wpa2 eapol_sent g_wpa2_active]. by split_and!.
Qed.

Definition demo_rng : prng := Prng (0, 0) false (λ n, 1000 + 7 * Z.of_nat n) 0.
Definition demo_our : list Z := [2; 0; 0; 0; 0; 1].
Definition demo_ap : list Z := [2; 0; 0; 0; 0; 9].

(** The passphrase "password" on the network "IEEE". *)
Lemma wpa2_handshake_correct_witness :
  ∃ c0, wpa2_set_passphrase demo_junk [112; 97; 115; 115; 119; 111; 114; 100] [73; 69; 69; 69]
    (wpa2_init demo_our demo_ap) = Some c0 ∧
  wp (iwl_rx_eapol demo_junk [] (eapol_ref info_msg1 1 (replicate 32 7) (replicate 16 0) []))
    (λ _ s1, length (eapol_sent s1) = 1%nat) (Wpa2 c0 demo_rng false []).
Proof.
  destruct (wpa2_handshake_correct demo_junk [] [112; 97; 115; 115; 119; 111; 114; 100] [73; 69; 69; 69]
    demo_our demo_ap demo_rng 1 (replicate 32 7) (replicate 16 0)
    eq_refl eq_refl eq_refl eq_refl ltac:(lia) eq_refl eq_refl) as (c0 & Hc0 & Hw).
  exists c0. split; [exact Hc0|]. eapply wp_mono; [exact Hw|].
  intros _ s1 (sn & _ & Hsent & _). rewrite Hsent. reflexivity.
Defined.

(** ** Only authentic messages install keys *)

(** The search for the group key ends, within the key data. *)
Lemma find_gtk_total u :
  bytes u → (length u ≤ 64)%nat →
  ∃ o, find_gtk u (Z.of_nat (length u)) = Some o ∧
    ∀ i k, o = Some (i, k) → 0 ≤ i < 4 ∧ length k = 16%nat.
Proof.
  intros Hb Hl. unfold find_gtk.
  apply (while_opt_rule _ _ (λ pos, 0 ≤ pos ≤ Z.of_nat (length u)) (λ pos, Z.of_nat (length u) - pos));
    [lia|lia|].
  intros pos Hp. unfold kde_step. destruct (Z.leb_spec (pos + 2) (Z.of_nat (length u))); [|done].
  destruct (lookup_lt_is_Some_2 u (Z.to_nat pos)) as [ty Hty]; [lia|].
  destruct (lookup_lt_is_Some_2 u (Z.to_nat (pos + 1))) as [len Hlen]; [lia|].
  rewrite Hty, Hlen. cbn [mbind option_bind].
  pose proof (Forall_lookup_1 _ _ _ _ Hb Hlen) as Hlb. unfold is_byte in Hlb.
  destruct (Z.ltb_spec (Z.of_nat (length u)) (pos + 2 + len)); [done|]. cbv zeta.
  match goal with |- context [if ?b then _ else _] => destruct b eqn:E end;
    [|rewrite u16_small; lia].
  repeat (apply andb_true_iff in E as [E ?]). change (Z.of_nat WPA2_GTK_LEN) with 16 in *. b2p.
  intros i k [= <- <-]. split.
  - change 3 with (Z.ones 2). rewrite Z.land_ones by lia. by apply Z.mod_pos_bound.
  - unfold slice. rewrite length_take, length_drop. change WPA2_GTK_LEN with 16%nat. lia.
Qed.

(** Processing installs this context from message 3. *)
Definition msg3_installs (r : Z) (c c' : wpa2_ctx) : Prop :=
  c' = set_pns 0 0 (set_hs 3 (set_replay r c)) ∨
  ∃ i k, c' = after_msg3 r i k c ∧ 0 ≤ i < 4 ∧ length k = 16%nat.

(** The MIC field of a frame is the MIC of key [k] over the rest. *)
Definition mic_valid (k frame : list Z) : Prop :=
  slice frame off_mic 16 = mic_ref k (splice frame off_mic (replicate 16 0)).

Definition with_ctx (s : wpa2) (c : wpa2_ctx) : wpa2 :=
  Wpa2 c (rng s) (g_wpa2_active s) (eapol_sent s).

Section authentic.
Context (junk : sha1_ctx) (jm : list Z) (Hjunk : junk_ok junk).
Context (frame : list Z) (Hbytes : bytes frame) (Hmax : Z.of_nat (length frame) ≤ 512).
Context (Hmin : (99 ≤ length frame)%nat).
Context (Hdata : 99 + w_be16 (slice frame off_data_len 2) ≤ Z.of_nat (length frame)).
#[local] Abbreviation kd_len := (w_be16 (slice frame off_data_len 2)).

Lemma install_gtk_any s :
  block (kek (g_wpa2 s)) → 24 ≤ kd_len →
  wp (install_gtk frame kd_len) (λ go_on s',
    if go_on then g_wpa2 s' = g_wpa2 s ∧ s' = s ∨
      ∃ i k, s' = with_ctx s (set_gtk i k (g_wpa2 s)) ∧ 0 ≤ i < 4 ∧ length k = 16%nat
    else s' = s) s.
Proof.
  revert Hdata. generalize kd_len. intros n Hdata Hkek Hkd. unfold install_gtk. change (64 + 8) with 72.
  destruct (Z.ltb_spec 72 n); [by apply wp_ret|].
  destruct (Z.ltb_spec (Z.of_nat (length frame)) (sizeof_eapol_hdr + sizeof_eapol_key + n)) as [Hb|_].
  { unfold sizeof_eapol_hdr, sizeof_eapol_key in Hb. lia. }
  apply wp_bind, wp_gets. set (w := slice frame off_data (Z.to_nat n)).
  assert (length w = Z.to_nat n) as Hwl.
  { unfold w, slice. rewrite length_take, length_drop. change off_data with 99%nat. lia. }
  destruct (decide (n mod 8 = 0)) as [H8|H8].
  - destruct (unwrap_any (kek (g_wpa2 s)) w (Z.to_nat (n / 8 - 1)) Hkek) as (rc & u & E & Hul & Hub & _).
    { by apply bytes_take, bytes_drop. }
    { rewrite Hwl. Z.to_euclidean_division_equations. lia. }
    { Z.to_euclidean_division_equations. lia. }
    rewrite E. destruct (negb (rc =? 0)); [by apply wp_ret|]. apply wp_bind.
    assert (u16 (n - 8) = Z.of_nat (length u)) as ->.
    { rewrite u16_small, Hul by lia. Z.to_euclidean_division_equations. lia. }
    destruct (find_gtk_total u Hub) as (o & Eo & Ho).
    { rewrite Hul. Z.to_euclidean_division_equations. lia. }
    eapply wp_lift_opt; [exact Eo|]. destruct o as [[i k]|]; [|apply wp_ret; by left].
    apply wp_bind, wp_modify, wp_ret. right. exists i, k. by destruct (Ho i k eq_refl).
  - rewrite key_unwrap_partial by (rewrite Hwl, Z2Nat.id; [done|lia]). by apply wp_ret.
Qed.

Lemma process_msg3_any s r has_enc :
  ctx_ok (g_wpa2 s) →
  wp (process_msg3 junk jm frame r kd_len has_enc) (λ rc s',
    (rc = -1 ∧ (s' = s ∨ mic_valid (kck (g_wpa2 s)) frame ∧
                         s' = with_ctx s (set_replay r (g_wpa2 s)))) ∨
    (rc = 0 ∧ replay_counter (g_wpa2 s) ≤ r ∧ mic_valid (kck (g_wpa2 s)) frame ∧
     slice frame off_nonce WPA2_NONCE_LEN = anonce (g_wpa2 s) ∧
     ∃ c', msg3_installs r (g_wpa2 s) c' ∧ s' = with_ctx s c')) s.
Proof.
  intros (_ & _ & _ & Han & _ & Hkck & Hkek). unfold process_msg3. apply wp_bind, wp_gets, wp_bind.
  eapply wp_lift_opt; [apply compute_mic_eq; [done|apply small_block, Hkck|lia|done]|].
  assert (length (slice frame off_mic 16) = 16%nat) as Hm
    by (unfold slice; rewrite length_take, length_drop; change off_mic with 81%nat; lia).
  assert (length (slice frame off_nonce WPA2_NONCE_LEN) = 32%nat) as Hn.
  { unfold slice. rewrite length_take, length_drop. change off_nonce with 17%nat.
    change WPA2_NONCE_LEN with 32%nat. lia. }
  rewrite crypto_memcmp_eq by (rewrite length_mic_ref; done).
  destruct (bool_decide_reflect (mic_ref (kck (g_wpa2 s)) (splice frame off_mic (replicate 16 0)) =
    slice frame off_mic 16)) as [Emic|]; [|apply wp_ret; by left; auto].
  assert (mic_valid (kck (g_wpa2 s)) frame) as Hmv by by unfold mic_valid.
  simpl negb. cbv iota. destruct (Z.ltb_spec r (replay_counter (g_wpa2 s))); [apply wp_ret; by left; auto|].
  apply wp_bind, wp_modify. rewrite crypto_memcmp_eq by congruence.
  destruct (bool_decide_reflect (anonce (g_wpa2 s) = slice frame off_nonce WPA2_NONCE_LEN)) as [Ean|];
    [|apply wp_ret; left; by auto].
  simpl negb. cbv iota. apply wp_bind.
  eapply wp_mono with (P := λ (go_on : bool) (s' : wpa2), if go_on then
     s' = with_ctx s (set_replay r (g_wpa2 s)) ∨
     ∃ i k, s' = with_ctx s (set_gtk i k (set_replay r (g_wpa2 s))) ∧ 0 ≤ i < 4 ∧ length k = 16%nat
     else s' = with_ctx s (set_replay r (g_wpa2 s))).
  - destruct has_enc; simpl andb; [|apply wp_ret; by left].
    destruct (Z.leb_spec 24 kd_len); [|apply wp_ret; by left].
    eapply wp_mono; [by apply install_gtk_any|]. intros [] s'; [|done].
    intros [[_ ->]|(i & k & -> & Hi & Hk)]; [by left|right; by exists i, k].
  - intros [] s' Hs'; simpl negb; cbv iota; [|apply wp_ret; left; by auto].
    apply wp_bind, wp_modify, wp_ret. right. split; [done|]. split; [lia|]. split; [done|].
    split; [done|]. destruct Hs' as [->|(i & k & -> & Hi & Hk)]; eexists; (split; [|reflexivity]).
    + by left.
    + right. by exists i, k.
Qed.
End authentic.


Definition demo_ctx : wpa2_ctx := wpa2_set_pmk (replicate 32 5) (wpa2_init demo_our demo_ap).
Definition demo_msg1 : list Z := eapol_ref info_msg1 1 (replicate 32 7) (replicate 16 0) [].


(** ** Two weaknesses of the handshake *)

Lemma ctx_ok_after_msg3 c r i k tx rx h :
  ctx_ok c → ctx_ok (set_pns tx rx (set_hs h (after_msg3 r i k c))).
Proof. by intros (? & ? & ? & ? & ? & ? & ?). Qed.

(** A message 3 is accepted again when it is replayed, since its counter only
    has to be at least the last one: the packet number of the next frame sent is
    then 0 again under the same key, whatever number was reached before. *)
Theorem wpa2_message3_replayed junk jm s r ie i k tx rx :
  let c := g_wpa2 s in
  junk_ok junk → ctx_ok c → pmk_valid c = true → 0 ≤ replay_counter c →
  replay_counter c ≤ r < 2 ^ 64 → gtk_ok ie i k →
  let msg3 := sealed (kck c) info_msg3 r (anonce c) (key_wrap (kek c) (gtk_data ie i k)) in
  wp (iwl_rx_eapol junk jm msg3) (λ _ s1,
    wp (iwl_rx_eapol junk jm msg3) (λ _ s2,
      g_wpa2_active s2 = true ∧ tk (g_wpa2 s2) = tk (g_wpa2 s1) ∧ tx_pn (g_wpa2 s2) = 0)
    (with_ctx s1 (set_pns tx rx (g_wpa2 s1)))) s.
Proof.
  intros c Hj Hc Hv Hr0 Hr Hg msg3.
  eapply wp_mono; [apply (rx_msg3 junk jm Hj s r ie i k Hc Hv Hr Hr0 Hg)|]. intros _ s1 ->.
  fold c. unfold with_ctx. cbn [g_wpa2 rng g_wpa2_active eapol_sent].
  eapply wp_mono; [apply (rx_msg3 junk jm Hj (Wpa2 (set_pns tx rx (set_hs 4 (after_msg3 r i k c))) _ _ _) r ie i k)|].
  - by apply ctx_ok_after_msg3.
  - done.
  - cbn. lia.
  - cbn. lia.
  - done.
  - by intros _ s2 ->.
Qed.

Lemma demo_gtk_ok : gtk_ok (replicate 20 3) 1 (replicate 16 9).
Proof. split_and!; try done; by apply bytesb_bytes. Qed.

Lemma wpa2_message3_replayed_witness :
  wp (iwl_rx_eapol demo_junk [] (sealed (kck demo_ctx) info_msg3 2 (anonce demo_ctx)
       (key_wrap (kek demo_ctx) (gtk_data (replicate 20 3) 1 (replicate 16 9))))) (λ _ s1,
    wp (iwl_rx_eapol demo_junk [] (sealed (kck demo_ctx) info_msg3 2 (anonce demo_ctx)
         (key_wrap (kek demo_ctx) (gtk_data (replicate 20 3) 1 (replicate 16 9))))) (λ _ s2,
      g_wpa2_active s2 = true ∧ tk (g_wpa2 s2) = tk (g_wpa2 s1) ∧ tx_pn (g_wpa2 s2) = 0)
    (with_ctx s1 (set_pns 1000 0 (g_wpa2 s1)))) (Wpa2 demo_ctx demo_rng false []).
Proof.
  apply (wpa2_message3_replayed demo_junk [] (Wpa2 demo_ctx demo_rng false []) 2 (replicate 20 3) 1
    (replicate 16 9) 1000 0).
  - reflexivity.
  - apply ctx_ok_init; reflexivity.
  - reflexivity.
  - cbn. lia.
  - cbn. lia.
  - apply demo_gtk_ok.
Defined.

(** On a context that has not seen message 1 the keys are zero, and a message 3
    that anyone can build is accepted: the handshake counts as complete and the
    group key is the one of the frame. *)
Theorem wpa2_forged_message3 junk jm our ap key g ie i k :
  junk_ok junk → length our = 6%nat → length ap = 6%nat → length key = 32%nat → gtk_ok ie i k →
  let zeros := replicate 16 0 in
  let forged := sealed zeros info_msg3 0 (replicate 32 0) (key_wrap zeros (gtk_data ie i k)) in
  wp (iwl_rx_eapol junk jm forged) (λ _ s',
    g_wpa2_active s' = true ∧ gtk (g_wpa2 s') = k ∧ gtk_valid (g_wpa2 s') = true ∧
    ptk_valid (g_wpa2 s') = false)
  (Wpa2 (wpa2_set_pmk key (wpa2_init our ap)) g false []).
Proof.
  intros Hj Ho Ha Hk Hg zeros forged.
  eapply wp_mono; [apply (rx_msg3 junk jm Hj (Wpa2 (wpa2_set_pmk key (wpa2_init our ap)) g false [])
    0 ie i k); [by apply ctx_ok_init|done|cbn; lia|cbn; lia|done]|].
  by intros _ s' ->.
Qed.

(** ** Data frames *)

Lemma pn_step pn k k' : 0 ≤ k → k' = k + 8 →
  Z.lor (pn mod 2 ^ k) (Z.shiftl (u8 (Z.shiftr pn k)) k) = pn mod 2 ^ k'.
Proof.
  intros Hk ->. pose proof (pow2_pos k Hk). rewrite Z.lor_comm, lor_shiftl_add by (auto with lia; by apply Z.mod_pos_bound).
  rewrite Z.shiftr_div_pow2 by lia. unfold u8. rewrite Z.pow_add_r by lia.
  rewrite Z.rem_mul_r by lia. lia.
Qed.

Lemma pn_value_le pn : 0 ≤ pn < 2 ^ 48 → pn_value (pn_le pn) = pn.
Proof.
  intros Hpn. unfold pn_value, pn_le, at_. cbn [lookup list_lookup default from_option id].
  change (u8 pn) with (pn mod 2 ^ 8).
  rewrite (pn_step pn 8 16), (pn_step pn 16 24), (pn_step pn 24 32), (pn_step pn 32 40),
    (pn_step pn 40 48) by lia.
  by apply Z.mod_small.
Qed.

(** The header that is sent: the given one with the Protected bit. *)
Definition protected_hdr (hdr : list Z) : list Z := <[1%nat := Z.lor (at_ hdr 1) 0x40]> hdr.

Lemma frame_control_protected hdr mask :
  (2 ≤ length hdr)%nat → Z.land 0x4000 mask = 0 →
  Z.land (frame_control (protected_hdr hdr)) mask = Z.land (frame_control hdr) mask.
Proof.
  intros Hl Hm. destruct hdr as [|x [|y hdr]]; [simpl in Hl; lia..|].
  unfold frame_control, protected_hdr, at_. cbn [lookup list_lookup insert list_insert default from_option id].
  rewrite Z.shiftl_lor, Z.lor_assoc, Z.land_lor_distr_l.
  change (Z.shiftl 0x40 8) with 0x4000. by rewrite Hm, Z.lor_0_r.
Qed.

(** A data header without QoS field: 24 bytes, or 30 with a fourth address. *)
Definition data_hdr (hdr : list Z) : Prop :=
  bytes hdr ∧ Z.of_nat (length hdr) = data_hdr_len hdr ∧ is_qos hdr = false.

Lemma data_hdr_len_cases hdr : data_hdr hdr → length hdr = 24%nat ∨ length hdr = 30%nat.
Proof.
  intros (_ & Hl & Hq). unfold data_hdr_len, is_qos in *. rewrite Hq in Hl. case_match; lia.
Qed.

Lemma data_hdr_prefix hdr rest : (2 ≤ length hdr)%nat → data_hdr_len (hdr ++ rest) = data_hdr_len hdr.
Proof.
  intros Hl. destruct hdr as [|x [|y hdr]]; [simpl in Hl; lia..|]. done.
Qed.

Lemma data_hdr_protected hdr : data_hdr hdr → data_hdr (protected_hdr hdr).
Proof.
  intros Hd. pose proof (data_hdr_len_cases hdr Hd) as Hc. destruct Hd as (Hb & Hl & Hq).
  assert (2 ≤ length hdr)%nat as H2 by lia. split.
  - unfold protected_hdr, bytes. apply Forall_insert; [done|]. unfold is_byte.
    pose proof (at_byte hdr 1 Hb) as Hx. unfold is_byte in Hx.
    rewrite <-(Z.mod_small (at_ hdr 1) (2 ^ 8)) by lia. change 0x40 with (0x40 mod 2 ^ 8).
    rewrite <-!Z.land_ones, <-Z.land_lor_distr_l, Z.land_ones by lia. by apply Z.mod_pos_bound.
  - unfold data_hdr_len, is_qos in *. rewrite !frame_control_protected by done.
    unfold protected_hdr. by rewrite length_insert.
Qed.

Lemma data_params k hdr pn :
  block k → data_hdr hdr → ccmp_params k (pn_le pn) (slice hdr 10 6) 0 hdr ∧ (24 ≤ length hdr)%nat.
Proof.
  intros Hk Hd. pose proof (data_hdr_len_cases hdr Hd) as Hc. destruct Hd as (Hb & _).
  split; [|lia]. split; [done|]. split; [split; [done|]|].
  { unfold pn_le, bytes. forall_list; apply u8_range. }
  split; [split|].
  - unfold slice. rewrite length_take, length_drop. lia.
  - by apply bytes_take, bytes_drop.
  - split; [unfold is_byte; lia|]. split; [done|lia].
Qed.

Section data.
Context (junk1 junk2 : list Z) (Hj1 : length junk1 = 48%nat) (Hj2 : length junk2 = 48%nat).
Context (hdr payload : list Z) (pn : Z).
Context (Hhdr : data_hdr hdr) (Hpay : bytes payload) (Hlen : Z.of_nat (length payload) ≤ 65480).
Context (Hpn : 0 ≤ pn < 2 ^ 48).
#[local] Abbreviation ph := (protected_hdr hdr).

Lemma encrypt_data_eq c :
  ptk_valid c = true → block (tk c) → tx_pn c = pn →
  ∃ ct, length ct = (length payload + 8)%nat ∧ bytes ct ∧
    ccmp_encrypt junk1 (tk c) (pn_le pn) (slice ph 10 6) 0 ph payload = Some (0, ct) ∧
    wpa2_encrypt_data junk1 hdr payload c =
      Some ((Z.of_nat (length hdr) + 8 + Z.of_nat (length payload) + 8,
             (ph ++ ccmp_header (pn_le pn)) ++ ct), set_pns (pn + 1) (rx_pn c) c).
Proof.
  intros Hv Hk <-. pose proof (data_hdr_protected hdr Hhdr) as Hph.
  destruct (data_params (tk c) ph (tx_pn c) Hk Hph) as [Hp _].
  destruct (ccmp_seal_open junk1 junk1 (tk c) (pn_le (tx_pn c)) (slice ph 10 6) 0 ph payload [])
    as [(ct & Hct & Hl & Hb) _]; try done; [apply Hph|lia|by apply Forall_nil|].
  exists ct. split; [done|]. split; [done|]. split; [done|].
  unfold wpa2_encrypt_data, gets, modify, lift_opt, mbind, M_bind, mret, M_ret. cbv beta. change (id c) with c.
  rewrite Hv. simpl negb. cbv iota zeta beta. fold (protected_hdr hdr). rewrite Hct. simpl negb. cbv iota.
  by rewrite u64_small by lia.
Qed.

Lemma decrypt_data_eq c ct out_max :
  ptk_valid c = true → block (tk c) → bytes ct → length ct = (length payload + 8)%nat →
  Z.of_nat (length payload) ≤ out_max →
  ccmp_encrypt junk1 (tk c) (pn_le pn) (slice ph 10 6) 0 ph payload = Some (0, ct) →
  wpa2_decrypt_data junk2 ((ph ++ ccmp_header (pn_le pn)) ++ ct) out_max c =
    Some (if decide (pn ≤ rx_pn c) then (-1, []) else (Z.of_nat (length payload), payload),
          if decide (pn ≤ rx_pn c) then c else set_pns (tx_pn c) pn c).
Proof.
  intros Hv Hk Hb Hl Hmax Hct. pose proof (data_hdr_protected hdr Hhdr) as Hph.
  destruct (data_params (tk c) ph pn Hk Hph) as [Hp Hh].
  set (frame := (ph ++ ccmp_header (pn_le pn)) ++ ct).
  assert (length ph = length hdr) as Hhl by apply length_insert.
  pose proof (data_hdr_len_cases hdr Hhdr) as Hcases.
  assert (Z.of_nat (length frame) = Z.of_nat (length ph) + 8 + Z.of_nat (length ct)) as Hfl
    by (unfold frame; rewrite !length_app; simpl; lia).
  assert (data_hdr_len frame = Z.of_nat (length ph)) as Hdl.
  { unfold frame. rewrite <-app_assoc, data_hdr_prefix by lia. symmetry. apply Hph. }
  unfold wpa2_decrypt_data, gets, modify, lift_opt, mbind, M_bind, mret, M_ret. cbv beta. change (id c) with c.
  rewrite Hv. simpl negb. cbv iota. destruct (Nat.ltb_spec (length frame) 2); [lia|]. cbv zeta.
  rewrite Hdl, Hfl. destruct (Z.ltb_spec (Z.of_nat (length ph) + 8 + Z.of_nat (length ct))
    (Z.of_nat (length ph) + 8 + 8)); [lia|]. rewrite Nat2Z.id.
  assert (slice frame (length ph) 8 = ccmp_header (pn_le pn)) as ->
    by (eapply (slice_mid _ ph); [symmetry; apply app_assoc|done|done]).
  change (pn_of_header (ccmp_header (pn_le pn))) with (pn_le pn). rewrite pn_value_le by done.
  case_decide as Hr; destruct (Z.leb_spec pn (rx_pn c)) as [Hr'|Hr']; try lia; [done|].
  replace (Z.of_nat (length ph) + 8 + Z.of_nat (length ct) - Z.of_nat (length ph) - 8)
    with (Z.of_nat (length ct)) by lia.
  rewrite (u16_small (Z.of_nat (length ct))) by lia. rewrite u16_small by lia.
  destruct (Z.ltb_spec (Z.of_nat (length ct)) 8); [lia|].
  destruct (Z.ltb_spec out_max (Z.of_nat (length ct) - 8)); [lia|]. simpl orb. cbv iota.
  assert (slice frame 10 6 = slice ph 10 6) as ->.
  { apply list_eq. intros j. rewrite !lookup_slice. case_decide; [|done].
    unfold frame. by rewrite !lookup_app_l by (rewrite ?length_app; lia). }
  assert (take (length ph) frame = ph) as ->
    by (unfold frame; by rewrite <-app_assoc, take_app_length).
  rewrite Nat2Z.id.
  assert (slice frame (length ph + 8) (length ct) = ct) as ->.
  { eapply (slice_mid _ (ph ++ ccmp_header (pn_le pn)) _ []); [by rewrite app_nil_r| |done].
    rewrite length_app. done. }
  destruct (ccmp_seal_open junk1 junk2 (tk c) (pn_le pn) (slice ph 10 6) 0 ph payload ct)
    as [_ Hiff]; try done; [apply Hph|lia|lia|].
  rewrite (proj2 Hiff Hct). simpl negb. cbv iota.
  by replace (Z.of_nat (length ct) - 8) with (Z.of_nat (length payload)) by lia.
Qed.
End data.

(** A data frame from one context to another with the same pairwise key, sent
    with a packet number the receiver has not seen, is opened to its payload;
    delivered a second time it is rejected.  A frame whose number is not above
    the last one received is rejected. *)
Theorem wpa2_data_roundtrip junk1 junk2 hdr payload a b out_max :
  length junk1 = 48%nat → length junk2 = 48%nat → data_hdr hdr →
  bytes payload → Z.of_nat (length payload) ≤ 65480 → Z.of_nat (length payload) ≤ out_max →
  ptk_valid a = true → ptk_valid b = true → tk a = tk b → block (tk a) →
  0 ≤ tx_pn a < 2 ^ 48 →
  ∃ len frame, wpa2_encrypt_data junk1 hdr payload a =
      Some ((len, frame), set_pns (tx_pn a + 1) (rx_pn a) a) ∧ len = Z.of_nat (length frame) ∧
    wpa2_decrypt_data junk2 frame out_max b =
      (if decide (rx_pn b < tx_pn a)
       then Some ((Z.of_nat (length payload), payload), set_pns (tx_pn b) (tx_pn a) b)
       else Some ((-1, []), b)) ∧
    wpa2_decrypt_data junk2 frame out_max (set_pns (tx_pn b) (tx_pn a) b) =
      Some ((-1, []), set_pns (tx_pn b) (tx_pn a) b).
Proof.
  intros Hj1 Hj2 Hh Hp Hl Hmax Hva Hvb Htk Hk Hpn.
  destruct (encrypt_data_eq junk1 junk2 Hj1 Hj2 hdr payload (tx_pn a) Hh Hp Hl Hpn a Hva Hk eq_refl)
    as (ct & Hcl & Hcb & Hct & Henc).
  rewrite Htk in Hct, Hk. eexists _, _. split; [exact Henc|]. split.
  { rewrite !length_app, Hcl. unfold protected_hdr. rewrite length_insert. simpl. lia. }
  split.
  - rewrite (decrypt_data_eq junk1 junk2 Hj1 Hj2 hdr payload (tx_pn a)) by done.
    repeat case_decide; try lia; done.
  - rewrite (decrypt_data_eq junk1 junk2 Hj1 Hj2 hdr payload (tx_pn a)) by done.
    cbn [rx_pn set_pns]. by rewrite !decide_True by lia.
Qed.

Definition keyed_ctx (tx rx : Z) : wpa2_ctx :=
  set_pns tx rx (set_ptk (replicate 32 0 ++ fips_key) demo_ctx).

(** The second frame of a sender to a fresh receiver. *)
Lemma wpa2_data_roundtrip_witness :
  ∃ len frame, wpa2_encrypt_data (replicate 48 0) (demo_hdr 0x08) demo_plain (keyed_ctx 1 0) =
      Some ((len, frame), set_pns 2 0 (keyed_ctx 1 0)) ∧
    wpa2_decrypt_data (replicate 48 1) frame 2048 (keyed_ctx 0 0) =
      Some ((5, demo_plain), set_pns 0 1 (keyed_ctx 0 0)).
Proof.
  destruct (wpa2_data_roundtrip (replicate 48 0) (replicate 48 1) (demo_hdr 0x08) demo_plain
    (keyed_ctx 1 0) (keyed_ctx 0 0) 2048) as (len & frame & Henc & _ & Hdec & _).
  - reflexivity.
  - reflexivity.
  - split; [by apply bytesb_bytes|split; reflexivity].
  - by apply bytesb_bytes.
  - cbn. lia.
  - cbn. lia.
  - reflexivity.
  - reflexivity.
  - reflexivity.
  - by apply block_dec.
  - cbn. lia.
  - exists len, frame. split; [exact Henc|exact Hdec].
Defined.

(** The packet number a frame carries. *)
Definition frame_pn (frame : list Z) : Z :=
  pn_value (pn_of_header (slice frame (Z.to_nat (data_hdr_len frame)) 8)).

(** A sequence of received frames; the result lists the packet numbers and the
    payloads of those that were accepted. *)
Fixpoint receive (junk : list Z) (out_max : Z) (frames : list (list Z))
    : M wpa2_ctx (list (Z * list Z)) :=
  match frames with
  | [] => mret []
  | f :: fs =>
      '(rc, out) ← wpa2_decrypt_data junk f out_max;
      rest ← receive junk out_max fs;
      mret (if 0 <=? rc then (frame_pn f, out) :: rest else rest)
  end.

Lemma decrypt_data_any junk c frame out_max :
  length junk = 48%nat → block (tk c) → bytes frame → (2 ≤ length frame)%nat →
  Z.of_nat (length frame) < 2 ^ 16 →
  wp (wpa2_decrypt_data junk frame out_max) (λ '(rc, out) c',
    if 0 <=? rc then rx_pn c < frame_pn frame ∧ c' = set_pns (tx_pn c) (frame_pn frame) c
    else c' = c) c.
Proof.
  intros Hj Hk Hb H2 Hmax. unfold wpa2_decrypt_data. apply wp_bind, wp_gets. change (id c) with c.
  destruct (ptk_valid c); [|by apply wp_ret]. simpl negb. cbv iota.
  destruct (Nat.ltb_spec (length frame) 2); [lia|]. cbv zeta. fold (frame_pn frame).
  set (h := data_hdr_len frame).
  assert (24 ≤ h ≤ 32) as Hh by (unfold h, data_hdr_len; repeat case_match; lia).
  destruct (Z.ltb_spec (Z.of_nat (length frame)) (h + 8 + 8)); [by apply wp_ret|].
  unfold frame_pn. fold h. set (p := pn_of_header _).
  destruct (Z.leb_spec (pn_value p) (rx_pn c)); [by apply wp_ret|].
  rewrite (u16_small (Z.of_nat (length frame) - h - 8)) by lia.
  set (n := Z.of_nat (length frame) - h - 8). rewrite u16_small by lia.
  destruct (Z.ltb_spec n 8); [by apply wp_ret|]. destruct (out_max <? n - 8); [by apply wp_ret|].
  simpl orb. cbv iota. apply wp_bind.
  assert (∀ o k, bytes (slice frame o k)) as Hs by (intros; by apply bytes_take, bytes_drop).
  assert (ccmp_params (tk c) p (slice frame 10 6) 0 (take (Z.to_nat h) frame)) as Hp.
  { split; [done|]. split; [split; [done|]|].
    { unfold p, pn_of_header, bytes. forall_list; apply at_byte, Hs. }
    split; [split; [unfold slice; rewrite length_take, length_drop; lia|apply Hs]|].
    split; [unfold is_byte; lia|]. split; [by apply bytes_take|]. rewrite length_take. lia. }
  destruct (ccmp_decrypt_total _ _ _ _ _ junk (slice frame (Z.to_nat h + 8) (Z.to_nat n)) Hp Hj)
    as (rc & out & E & Hrc).
  { unfold slice. rewrite length_take, length_drop. lia. }
  eapply wp_lift_opt; [exact E|]. destruct Hrc as [-> | ->]; simpl negb; cbv iota; [|by apply wp_ret].
  apply wp_bind, wp_modify, wp_ret. destruct (Z.leb_spec 0 (n - 8)); [|lia]. by split.
Qed.

(** C36: Replay protection.  Whatever frames arrive, in whatever order and number,
    every one is decided, and the packet numbers of those accepted, after the
    last one accepted before, are strictly increasing. *)
Theorem wpa2_replay_protection junk out_max frames c :
  length junk = 48%nat → block (tk c) →
  Forall (λ f, bytes f ∧ (2 ≤ length f)%nat ∧ Z.of_nat (length f) < 2 ^ 16) frames →
  wp (receive junk out_max frames) (λ accepted c',
    StronglySorted Z.lt (rx_pn c :: (fst <$> accepted)) ∧
    rx_pn c' = default (rx_pn c) (last (fst <$> accepted)) ∧ tk c' = tk c) c.
Proof.
  intros Hj Hk Hf. revert c Hk. induction Hf as [|f fs (Hb & H2 & Hl) _ IH]; intros c Hk.
  { apply wp_ret. split; [repeat constructor|done]. }
  cbn [receive]. apply wp_bind. eapply wp_mono; [by apply (decrypt_data_any junk c f out_max)|].
  intros [rc out] c1 Hc1. apply wp_bind. destruct (0 <=? rc).
  - destruct Hc1 as [Hlt ->].
    eapply wp_mono; [by apply IH|]. intros acc c2 (Hs & Hlast & Htk). apply wp_ret.
    cbn [rx_pn set_pns] in *. rewrite fmap_cons. cbn [fst]. split_and!.
    + constructor; [done|]. apply StronglySorted_inv in Hs as [_ Hall].
      constructor; [done|]. eapply Forall_impl; [exact Hall|]. cbn. lia.
    + rewrite Hlast. destruct (fst <$> acc) as [|x l] eqn:E; [done|].
      rewrite !last_cons. by destruct (last l).
    + done.
  - subst c1. eapply wp_mono; [by apply IH|]. intros acc c2 H. by apply wp_ret.
Qed.

Lemma wpa2_replay_protection_witness :
  wp (receive (replicate 48 0) 2048 [demo_hdr 0x08; demo_hdr 0x88]) (λ accepted c',
    StronglySorted Z.lt (3 :: (fst <$> accepted))) (keyed_ctx 0 3).
Proof.
  eapply wp_mono; [apply (wpa2_replay_protection (replicate 48 0) 2048
    [demo_hdr 0x08; demo_hdr 0x88] (keyed_ctx 0 3))|].
  - reflexivity.
  - by apply block_dec.
  - forall_list; (split; [by apply bytesb_bytes|]); split; cbn; lia.
  - intros acc c' [H _]. exact H.
Defined.
