(* ===== verification/Net.v ===== *)
(** * The network stack: Ethernet, ARP, IPv4, ICMP, UDP, DHCP, TCP, DNS

    Translation of [src/src/drivers/net/netcore.c].  The state [net] holds the
    static variables of the file, one record per protocol, and the network
    interface: the frames each poll delivers and the result of each
    transmission are streams, the frames sent and the datagrams handed to the
    socket layer are logs.  The interface is the e1000; its receive routine does
    not run inside itself, so a poll made while a frame is processed delivers
    nothing.  Functions that can poll while they wait for ARP take the poll as a
    parameter.  Trace output and delays are left out. *)

From S2P Require Import Prelude Loops Codec Ring Aes.

(** ** State *)

Record net_config := NetConfig {
  ip : Z; netmask : Z; gateway : Z; dns_server : Z; mac : list Z; configured : bool }.

Record arp_entry := ArpEntry { a_ip : Z; a_mac : list Z; a_valid : bool; a_pending : bool }.

(** The receive callbacks: the two of the file, or one of another module. *)
Inductive udp_cb := DhcpRx | DnsRx | OtherRx (id : Z).
Record udp_binding := UdpBinding { b_port : Z; b_cb : udp_cb; b_active : bool }.

Record dhcp := Dhcp {
  dhcp_xid : Z; dhcp_offered_ip : Z; dhcp_server_ip : Z; dhcp_state : Z; xid_counter : Z }.

(** The two retransmission fields are never used. *)
Record tcp_conn := TcpConn {
  remote_ip : Z; remote_port : Z; local_port : Z; seq_num : Z; ack_num : Z;
  state_ : Z; active : bool; listen_parent : Z; accepted : bool;
  rx_buf : list Z; rx_head : Z; rx_tail : Z }.

Record dns := Dns {
  dns_result_ip : Z; dns_resolved : bool; dns_txid : Z; dns_cache : list (list Z * Z) }.

Record datagram := Datagram {
  d_cb : option Z; d_dst_port : Z; d_src_ip : Z; d_src_port : Z; d_data : list Z }.

Record nic := Nic {
  rx_frames : nat → list (list Z); rx_polls : nat;
  tx_status : nat → Z; tx_calls : nat; sent : list (list Z); delivered : list datagram }.

Record net := Net {
  g_net : net_config; arp_cache : list arp_entry; g_ip_id : Z;
  udp_bindings : list udp_binding; udp_ephemeral : Z; g_udp_socket_handler : bool;
  n_dhcp : dhcp; tcp_conns : list tcp_conn; tcp_next_port : Z; isn_counter : Z;
  n_dns : dns; n_nic : nic }.

Definition set_cfg (c : net_config) (s : net) : net :=
  Net c (arp_cache s) (g_ip_id s) (udp_bindings s) (udp_ephemeral s) (g_udp_socket_handler s)
    (n_dhcp s) (tcp_conns s) (tcp_next_port s) (isn_counter s) (n_dns s) (n_nic s).
Definition set_arp (a : list arp_entry) (s : net) : net :=
  Net (g_net s) a (g_ip_id s) (udp_bindings s) (udp_ephemeral s) (g_udp_socket_handler s)
    (n_dhcp s) (tcp_conns s) (tcp_next_port s) (isn_counter s) (n_dns s) (n_nic s).
Definition set_ip_id (i : Z) (s : net) : net :=
  Net (g_net s) (arp_cache s) i (udp_bindings s) (udp_ephemeral s) (g_udp_socket_handler s)
    (n_dhcp s) (tcp_conns s) (tcp_next_port s) (isn_counter s) (n_dns s) (n_nic s).
Definition set_udp (b : list udp_binding) (e : Z) (s : net) : net :=
  Net (g_net s) (arp_cache s) (g_ip_id s) b e (g_udp_socket_handler s)
    (n_dhcp s) (tcp_conns s) (tcp_next_port s) (isn_counter s) (n_dns s) (n_nic s).
Definition set_handler (h : bool) (s : net) : net :=
  Net (g_net s) (arp_cache s) (g_ip_id s) (udp_bindings s) (udp_ephemeral s) h
    (n_dhcp s) (tcp_conns s) (tcp_next_port s) (isn_counter s) (n_dns s) (n_nic s).
Definition set_dhcp (d : dhcp) (s : net) : net :=
  Net (g_net s) (arp_cache s) (g_ip_id s) (udp_bindings s) (udp_ephemeral s) (g_udp_socket_handler s)
    d (tcp_conns s) (tcp_next_port s) (isn_counter s) (n_dns s) (n_nic s).
Definition set_tcp (c : list tcp_conn) (p i : Z) (s : net) : net :=
  Net (g_net s) (arp_cache s) (g_ip_id s) (udp_bindings s) (udp_ephemeral s) (g_udp_socket_handler s)
    (n_dhcp s) c p i (n_dns s) (n_nic s).
Definition set_dns (d : dns) (s : net) : net :=
  Net (g_net s) (arp_cache s) (g_ip_id s) (udp_bindings s) (udp_ephemeral s) (g_udp_socket_handler s)
    (n_dhcp s) (tcp_conns s) (tcp_next_port s) (isn_counter s) d (n_nic s).
Definition set_nic (n : nic) (s : net) : net :=
  Net (g_net s) (arp_cache s) (g_ip_id s) (udp_bindings s) (udp_ephemeral s) (g_udp_socket_handler s)
    (n_dhcp s) (tcp_conns s) (tcp_next_port s) (isn_counter s) (n_dns s) n.

(** ** Byte order *)

Definition n_be16 (p : list Z) (o : nat) : Z := Z.lor (Z.shiftl (at_ p o) 8) (at_ p (o + 1)).
Definition n_be32 (p : list Z) (o : nat) : Z :=
  Z.lor (Z.lor (Z.lor (Z.shiftl (at_ p o) 24) (Z.shiftl (at_ p (o + 1)) 16))
    (Z.shiftl (at_ p (o + 2)) 8)) (at_ p (o + 3)).
Definition n_put16 (v : Z) : list Z := [u8 (Z.shiftr v 8); u8 v].
Definition n_put32 (v : Z) : list Z :=
  [u8 (Z.shiftr v 24); u8 (Z.shiftr v 16); u8 (Z.shiftr v 8); u8 v].

Definition htonl (h : Z) : Z :=
  Z.lor (Z.lor (Z.lor (Z.shiftr h 24) (Z.land (Z.shiftr h 8) 0xFF00))
    (Z.land (u32 (Z.shiftl h 8)) 0xFF0000)) (u32 (Z.shiftl h 24)).

Definition net_ip (a b c d : Z) : Z :=
  Z.lor (Z.lor (Z.lor (Z.shiftl a 24) (Z.shiftl b 16)) (Z.shiftl c 8)) d.

(** The text written to [buf], without its terminator. *)
Definition ip_part (v : Z) : list Z :=
  (if 100 <=? v then [48 + v / 100] else []) ++
  (if 10 <=? v then [48 + (v / 10) mod 10] else []) ++ [48 + v mod 10].
Definition net_ip_str (v : Z) : list Z :=
  ip_part (u8 (Z.shiftr v 24)) ++ [46] ++ ip_part (u8 (Z.shiftr v 16)) ++ [46] ++
  ip_part (u8 (Z.shiftr v 8)) ++ [46] ++ ip_part (u8 v).

Definition BROADCAST_MAC : list Z := replicate 6 0xFF.
Definition BROADCAST_IP : Z := 0xFFFFFFFF.

Definition net_set_mac (m : list Z) : M net unit :=
  modify (λ s, let c := g_net s in
    set_cfg (NetConfig (ip c) (netmask c) (gateway c) (dns_server c) m (configured c)) s).
Definition net_reset_config : M net unit :=
  modify (λ s, set_cfg (NetConfig 0 0 0 0 (mac (g_net s)) false) s).

(** ** The Internet checksum *)

Fixpoint sum_words (p : list Z) (sum : Z) : Z :=
  match p with
  | a :: b :: p => sum_words p (u32 (sum + Z.lor (Z.shiftl a 8) b))
  | [a] => u32 (sum + Z.shiftl a 8)
  | [] => sum
  end.

(** [while (sum >> 16) sum = (sum & 0xFFFF) + (sum >> 16)] *)
Definition fold_carries (sum : Z) : option Z :=
  while_opt (2 ^ 32) (λ sum,
    if Z.shiftr sum 16 =? 0 then Some (inr sum)
    else Some (inl (u32 (Z.land sum 0xFFFF + Z.shiftr sum 16)))) sum.

Definition ip_checksum (data : list Z) : option Z :=
  sum ← fold_carries (sum_words data 0);
  Some (u16 (Z.lnot sum)).

(** ** Ethernet *)

Definition e1000_tx_packet (frame : list Z) : M net Z := λ s,
  let n := n_nic s in
  let rc := tx_status n (tx_calls n) in
  Some (rc, set_nic (Nic (rx_frames n) (rx_polls n) (tx_status n) (S (tx_calls n))
    (if rc =? 0 then sent n ++ [frame] else sent n) (delivered n)) s).

Definition eth_send (dst_mac : list Z) (ethertype : Z) (payload : list Z) : M net Z :=
  if 1518 <? 14 + Z.of_nat (length payload) then mret (-1)
  else
    c ← gets g_net;
    e1000_tx_packet (dst_mac ++ mac c ++ n_put16 ethertype ++ payload).

(** ** ARP *)

Definition ARP_CACHE_SIZE : nat := 16.
Definition ARP_OP_REQUEST : Z := 1.
Definition ARP_OP_REPLY : Z := 2.

Definition arp_send (op : Z) (target_mac : list Z) (sender_ip target_ip : Z) : M net Z :=
  c ← gets g_net;
  let pkt := n_put16 0x0001 ++ n_put16 0x0800 ++ [6; 4] ++ n_put16 op ++
    mac c ++ n_put32 sender_ip ++ target_mac ++ n_put32 target_ip in
  let dst := if op =? ARP_OP_REQUEST then BROADCAST_MAC else target_mac in
  eth_send dst 0x0806 pkt.

(** The first valid entry for an address, and the first free one. *)
Definition arp_find (v : Z) (cache : list arp_entry) : option nat :=
  fst <$> list_find (λ e, Is_true (a_valid e && (a_ip e =? v))) cache.
Definition arp_free (cache : list arp_entry) : option nat :=
  fst <$> list_find (λ e, Is_true (negb (a_valid e))) cache.

Definition arp_process (pkt : list Z) : M net unit :=
  if (length pkt <? 28)%nat then mret tt
  else
    let op := n_be16 pkt 6 in
    let sender_ip := n_be32 pkt 14 in
    let sender_mac := slice pkt 8 6 in
    let target_ip := n_be32 pkt 24 in
    cache ← gets arp_cache;
    match arp_find sender_ip cache with
    | Some i =>
        modify (set_arp (alter (λ e, ArpEntry (a_ip e) sender_mac (a_valid e) false) i cache))
    | None =>
        (match arp_free cache with
         | Some i => modify (set_arp (<[i := ArpEntry sender_ip sender_mac true false]> cache))
         | None => mret tt
         end);;
        c ← gets g_net;
        if (op =? ARP_OP_REQUEST) && (target_ip =? ip c) && configured c then
          arp_send ARP_OP_REPLY sender_mac (htonl (ip c)) (htonl sender_ip);; mret tt
        else mret tt
    end.

(** The MAC, or [None] when the result is -1. *)
Definition broadcast_of (c : net_config) : Z := Z.lor (ip c) (u32 (Z.lnot (netmask c))).
Definition arp_resolve (v : Z) : M net (option (list Z)) :=
  c ← gets g_net;
  if (v =? BROADCAST_IP) || (configured c && (v =? broadcast_of c)) then mret (Some BROADCAST_MAC)
  else
    cache ← gets arp_cache;
    match arp_find v cache with
    | Some i => mret (Some (default [] (a_mac <$> cache !! i)))
    | None =>
        arp_send ARP_OP_REQUEST (replicate 6 0) (htonl (ip c)) (htonl v);;
        mret None
    end.

Definition IP_PROTO_ICMP : Z := 1.
Definition IP_PROTO_TCP : Z := 6.
Definition IP_PROTO_UDP : Z := 17.

Definition DHCP_SERVER_PORT : Z := 67.
Definition DHCP_CLIENT_PORT : Z := 68.
Definition DHCP_MAGIC_COOKIE : Z := 0x63825363.
Definition DHCP_DISCOVER : Z := 1.
Definition DHCP_OFFER : Z := 2.
Definition DHCP_REQUEST : Z := 3.
Definition DHCP_ACK : Z := 5.

Definition TCP_MAX_CONNECTIONS : nat := 16.
Definition TCP_RX_BUF_SIZE : Z := 1048576.
Definition TCP_CLOSED : Z := 0.
Definition TCP_SYN_SENT : Z := 1.
Definition TCP_ESTABLISHED : Z := 2.
Definition TCP_FIN_WAIT_1 : Z := 3.
Definition TCP_FIN_WAIT_2 : Z := 4.
Definition TCP_CLOSE_WAIT : Z := 5.
Definition TCP_LAST_ACK : Z := 6.
Definition TCP_LISTEN : Z := 8.
Definition TCP_SYN_RECV : Z := 9.
Definition TCP_FIN : Z := 0x01.
Definition TCP_SYN : Z := 0x02.
Definition TCP_RST : Z := 0x04.
Definition TCP_PSH : Z := 0x08.
Definition TCP_ACK : Z := 0x10.

Definition flag (flags bit : Z) : bool := negb (Z.land flags bit =? 0).

(** ** UDP ports *)

Definition UDP_MAX_BINDS : nat := 8.

Definition udp_set_socket_handler : M net unit := modify (set_handler true).

Definition udp_free (bs : list udp_binding) : option nat :=
  fst <$> list_find (λ b, Is_true (negb (b_active b))) bs.
Definition udp_find (port : Z) (bs : list udp_binding) : option (nat * udp_binding) :=
  list_find (λ b, Is_true (b_active b && (b_port b =? port))) bs.

Definition udp_bind (port : Z) (cb : udp_cb) : M net Z :=
  bs ← gets udp_bindings;
  match udp_free bs with
  | Some i => modify (λ s, set_udp (<[i := UdpBinding port cb true]> bs) (udp_ephemeral s) s);; mret 0
  | None => mret (-1)
  end.
Definition udp_unbind (port : Z) : M net unit :=
  bs ← gets udp_bindings;
  match udp_find port bs with
  | Some (i, b) =>
      modify (λ s, set_udp (<[i := UdpBinding (b_port b) (b_cb b) false]> bs) (udp_ephemeral s) s)
  | None => mret tt
  end.

Definition deliver (d : datagram) : M net unit :=
  modify (λ s, let n := n_nic s in
    set_nic (Nic (rx_frames n) (rx_polls n) (tx_status n) (tx_calls n) (sent n)
      (delivered n ++ [d])) s).

(** ** DNS answers *)

(** The position after a name: labels up to a zero, or a compression pointer.
    Positions are [uint16_t]. *)
Definition skip_name (data : list Z) (len pos : Z) : option Z :=
  while_opt (2 ^ 16) (λ pos,
    if (pos <? len) && negb (at_ data (Z.to_nat pos) =? 0) then
      let b := at_ data (Z.to_nat pos) in
      if Z.land b 0xC0 =? 0xC0 then Some (inr (u16 (pos + 2)))
      else Some (inl (u16 (pos + (1 + b))))
    else Some (inr (u16 (pos + 1)))) pos.

Definition skip_questions (data : list Z) (len qdcount : Z) : option Z :=
  foldl (λ o _, pos ← o; pos ← skip_name data len pos; Some (u16 (pos + 4)))
    (Some 12) (seq 0 (Z.to_nat qdcount)).

(** The answer section: the address of the first A record, if any. *)
Definition answer_step (data : list Z) (len ancount : Z) (st : Z * Z)
    : option ((Z * Z) + option Z) :=
  let '(a, pos) := st in
  if (a <? ancount) && (pos + 12 <=? len) then
    pos ← (if Z.land (at_ data (Z.to_nat pos)) 0xC0 =? 0xC0 then Some (u16 (pos + 2))
           else skip_name data len pos);
    if len <? pos + 10 then Some (inr None)
    else
      let rtype := n_be16 data (Z.to_nat pos) in
      let rdlen := n_be16 data (Z.to_nat (pos + 8)) in
      let pos := u16 (pos + 10) in
      if (rtype =? 1) && (rdlen =? 4) && (pos + 4 <=? len)
      then Some (inr (Some (le_val (slice data (Z.to_nat pos) 4))))
      else Some (inl (u16 (a + 1), u16 (pos + rdlen)))
  else Some (inr None).
Definition find_answer (data : list Z) (len ancount pos : Z) : option (option Z) :=
  while_opt (2 ^ 17) (answer_step data len ancount) (0, pos).

Definition dns_parse (txid : Z) (data : list Z) : option (option Z) :=
  let len := Z.of_nat (length data) in
  if len <? 12 then Some None
  else if negb (n_be16 data 0 =? txid) then Some None
  else
    let flags := n_be16 data 2 in
    if Z.land flags 0x8000 =? 0 then Some None
    else if negb (Z.land flags 0x000F =? 0) then Some None
    else
      let qdcount := n_be16 data 4 in
      let ancount := n_be16 data 6 in
      if ancount =? 0 then Some None
      else
        pos ← skip_questions data len qdcount;
        find_answer data len ancount pos.

Definition dns_rx (data : list Z) : M net unit :=
  d ← gets n_dns;
  found ← lift_opt (λ _, dns_parse (dns_txid d) data);
  match found with
  | Some v => modify (set_dns (Dns v true (dns_txid d) (dns_cache d)))
  | None => mret tt
  end.

(** ** DHCP messages *)

Definition dhcp_build_packet (c : net_config) (d : dhcp) (msg_type : Z) : list Z :=
  let options := [53; 1; msg_type] ++
    (if msg_type =? DHCP_REQUEST
     then [50; 4] ++ n_put32 (dhcp_offered_ip d) ++ [54; 4] ++ n_put32 (dhcp_server_ip d)
     else []) ++ [55; 3; 1; 3; 6; 255] in
  let pkt := replicate 576 0 in
  let pkt := splice pkt 0 [1; 1; 6; 0] in
  let pkt := splice pkt 4 (n_put32 (dhcp_xid d)) in
  let pkt := splice pkt 10 (n_put16 0x8000) in
  let pkt := splice pkt 28 (mac c) in
  let pkt := splice pkt 236 (n_put32 DHCP_MAGIC_COOKIE) in
  let pkt := splice pkt 240 options in
  let out_len := (240 + length options)%nat in
  take (if (out_len <? 300)%nat then 300%nat else out_len) pkt.

Record dhcp_opts := DhcpOpts {
  o_msg_type : Z; o_subnet : Z; o_router : Z; o_dns : Z; o_server_id : Z }.

(** The effect of one option whose value starts at [pos]. *)
Definition dhcp_option (data : list Z) (pos opt opt_len : Z) (o : dhcp_opts) : dhcp_opts :=
  let be := n_be32 data (Z.to_nat pos) in
  match opt with
  | 53 => if 1 <=? opt_len
          then DhcpOpts (at_ data (Z.to_nat pos)) (o_subnet o) (o_router o) (o_dns o) (o_server_id o)
          else o
  | 1 => if 4 <=? opt_len
         then DhcpOpts (o_msg_type o) be (o_router o) (o_dns o) (o_server_id o) else o
  | 3 => if 4 <=? opt_len
         then DhcpOpts (o_msg_type o) (o_subnet o) be (o_dns o) (o_server_id o) else o
  | 6 => if 4 <=? opt_len
         then DhcpOpts (o_msg_type o) (o_subnet o) (o_router o) be (o_server_id o) else o
  | 54 => if 4 <=? opt_len
          then DhcpOpts (o_msg_type o) (o_subnet o) (o_router o) (o_dns o) be else o
  | _ => o
  end.

Definition option_step (data : list Z) (st : Z * dhcp_opts) : option ((Z * dhcp_opts) + dhcp_opts) :=
  let '(pos, o) := st in
  let len := Z.of_nat (length data) in
  if (pos <? len) && negb (at_ data (Z.to_nat pos) =? 255) then
    if at_ data (Z.to_nat pos) =? 0 then Some (inl (u16 (pos + 1), o))
    else
      opt ← data !! Z.to_nat pos;
      let pos := u16 (pos + 1) in
      if len <=? pos then Some (inr o)
      else
        opt_len ← data !! Z.to_nat pos;
        let pos := u16 (pos + 1) in
        if len <? pos + opt_len then Some (inr o)
        else Some (inl (u16 (pos + opt_len), dhcp_option data pos opt opt_len o))
  else Some (inr o).
Definition dhcp_options (data : list Z) : option dhcp_opts :=
  while_opt (2 ^ 17) (option_step data) (240, DhcpOpts 0 0 0 0 0).

(** ** TCP connections *)

Definition tcp_zero : tcp_conn :=
  TcpConn 0 0 0 0 0 TCP_CLOSED false 0 false (replicate (Z.to_nat TCP_RX_BUF_SIZE) 0) 0 0.

Definition set_state (v : Z) (a : bool) (c : tcp_conn) : tcp_conn :=
  TcpConn (remote_ip c) (remote_port c) (local_port c) (seq_num c) (ack_num c) v a
    (listen_parent c) (accepted c) (rx_buf c) (rx_head c) (rx_tail c).
Definition set_seq (v : Z) (c : tcp_conn) : tcp_conn :=
  TcpConn (remote_ip c) (remote_port c) (local_port c) v (ack_num c) (state_ c) (active c)
    (listen_parent c) (accepted c) (rx_buf c) (rx_head c) (rx_tail c).
Definition set_ack (v : Z) (c : tcp_conn) : tcp_conn :=
  TcpConn (remote_ip c) (remote_port c) (local_port c) (seq_num c) v (state_ c) (active c)
    (listen_parent c) (accepted c) (rx_buf c) (rx_head c) (rx_tail c).
Definition set_accepted (c : tcp_conn) : tcp_conn :=
  TcpConn (remote_ip c) (remote_port c) (local_port c) (seq_num c) (ack_num c) (state_ c) (active c)
    (listen_parent c) true (rx_buf c) (rx_head c) (rx_tail c).
Definition set_rx (b : list Z) (h t : Z) (c : tcp_conn) : tcp_conn :=
  TcpConn (remote_ip c) (remote_port c) (local_port c) (seq_num c) (ack_num c) (state_ c) (active c)
    (listen_parent c) (accepted c) b h t.

Definition conn (i : nat) : M net tcp_conn := lift_opt (λ s, tcp_conns s !! i).
Definition on_conn (i : nat) (f : tcp_conn → tcp_conn) : M net unit :=
  modify (λ s, set_tcp (alter f i (tcp_conns s)) (tcp_next_port s) (isn_counter s) s).

Definition tcp_isn : M net Z :=
  i ← gets isn_counter;
  let i := u32 (i + 64000) in
  modify (λ s, set_tcp (tcp_conns s) (tcp_next_port s) i s);;
  mret i.

Definition tcp_free (cs : list tcp_conn) : option nat :=
  fst <$> list_find (λ c, Is_true (negb (active c))) cs.
Definition tcp_match (src_ip src_port dst_port : Z) (cs : list tcp_conn) : option nat :=
  fst <$> list_find (λ c, Is_true (active c && (remote_ip c =? src_ip) &&
    (remote_port c =? src_port) && (local_port c =? dst_port))) cs.
Definition tcp_listener (dst_port : Z) (cs : list tcp_conn) : option nat :=
  fst <$> list_find (λ c, Is_true (active c && (state_ c =? TCP_LISTEN) &&
    (local_port c =? dst_port))) cs.

Definition tcp_available (c : tcp_conn) : Z :=
  if rx_tail c <=? rx_head c then rx_head c - rx_tail c
  else TCP_RX_BUF_SIZE - rx_tail c + rx_head c.

(** Received bytes into the ring, until it is full; the result is how many. *)
Fixpoint tcp_buffer (payload : list Z) (c : tcp_conn) : option (Z * tcp_conn) :=
  match payload with
  | [] => Some (0, c)
  | x :: payload =>
      let next := (rx_head c + 1) mod TCP_RX_BUF_SIZE in
      if next =? rx_tail c then Some (0, c)
      else
        b ← arr_set (rx_buf c) (rx_head c) x;
        '(n, c) ← tcp_buffer payload (set_rx b next (rx_tail c) c);
        Some (1 + n, c)
  end.

(** Bytes out of the ring. *)
Fixpoint tcp_unbuffer (n : nat) (c : tcp_conn) : option (list Z * tcp_conn) :=
  match n with
  | O => Some ([], c)
  | S n =>
      x ← arr_get (rx_buf c) (rx_tail c);
      '(l, c) ← tcp_unbuffer n (set_rx (rx_buf c) (rx_head c) ((rx_tail c + 1) mod TCP_RX_BUF_SIZE) c);
      Some (x :: l, c)
  end.

Section poll.
(** The poll made while a packet waits for an address. *)
Context (poll : M net unit).

(** ** IPv4 *)

(** The header with checksum [cksum]. *)
Definition ip_header (total_len id protocol src dst cksum : Z) : list Z :=
  [0x45; 0x00] ++ n_put16 total_len ++ n_put16 id ++ n_put16 0x4000 ++ [64; protocol] ++
  n_put16 cksum ++ n_put32 src ++ n_put32 dst.

Definition ip_send (dst_ip protocol : Z) (payload : list Z) : M net Z :=
  let total_len := u16 (20 + Z.of_nat (length payload)) in
  if 1500 <? total_len then mret (-1)
  else
    s ← gets id;
    let c := g_net s in
    let id := g_ip_id s in
    modify (set_ip_id (u16 (id + 1)));;
    cksum ← lift_opt (λ _, ip_checksum (ip_header total_len id protocol (ip c) dst_ip 0));
    if 1480 <? Z.of_nat (length payload) then fault
    else
      let pkt := ip_header total_len id protocol (ip c) dst_ip cksum ++ payload in
      let next_hop :=
        if configured c && negb (Z.land dst_ip (netmask c) =? Z.land (ip c) (netmask c))
        then gateway c else dst_ip in
      if dst_ip =? BROADCAST_IP then eth_send BROADCAST_MAC 0x0800 pkt
      else
        m ← arp_resolve next_hop;
        match m with
        | Some dst_mac => eth_send dst_mac 0x0800 pkt
        | None =>
            poll;;
            m ← arp_resolve next_hop;
            eth_send (default BROADCAST_MAC m) 0x0800 pkt
        end.

(** ** ICMP *)

Definition icmp_process (src_ip : Z) (data : list Z) : M net unit :=
  if (length data <? 8)%nat then mret tt
  else
    c ← gets g_net;
    if (at_ data 0 =? 8) && configured c then
      if 1480 <? Z.of_nat (length data) then mret tt
      else
        let reply := splice (<[0%nat := 0]> data) 2 [0; 0] in
        cksum ← lift_opt (λ _, ip_checksum reply);
        ip_send src_ip IP_PROTO_ICMP (splice reply 2 (n_put16 cksum));;
        mret tt
    else mret tt.

(** ** UDP *)

Definition udp_send (dst_ip dst_port src_port : Z) (data : list Z) : M net Z :=
  let udp_len := u16 (8 + Z.of_nat (length data)) in
  if 1480 <? udp_len then mret (-1)
  else if 1472 <? Z.of_nat (length data) then fault
  else
    ip_send dst_ip IP_PROTO_UDP
      (n_put16 src_port ++ n_put16 dst_port ++ n_put16 udp_len ++ n_put16 0 ++ data).

(** ** DHCP replies *)

Definition dhcp_rx (src_ip : Z) (data : list Z) : M net unit :=
  if (length data <? 240)%nat then mret tt
  else if negb (n_be32 data 236 =? DHCP_MAGIC_COOKIE) then mret tt
  else
    d ← gets n_dhcp;
    if negb (n_be32 data 4 =? dhcp_xid d) then mret tt
    else
      o ← lift_opt (λ _, dhcp_options data);
      let your_ip := n_be32 data 16 in
      (if (o_msg_type o =? DHCP_OFFER) && (dhcp_state d =? 1) then
         let server := if negb (o_server_id o =? 0) then o_server_id o else src_ip in
         modify (set_dhcp (Dhcp (dhcp_xid d) your_ip server 2 (xid_counter d)));;
         s ← gets id;
         udp_send BROADCAST_IP DHCP_SERVER_PORT DHCP_CLIENT_PORT
           (dhcp_build_packet (g_net s) (n_dhcp s) DHCP_REQUEST);;
         modify (λ s, let d := n_dhcp s in
           set_dhcp (Dhcp (dhcp_xid d) (dhcp_offered_ip d) (dhcp_server_ip d) 3 (xid_counter d)) s)
       else mret tt);;
      d ← gets n_dhcp;
      if (o_msg_type o =? DHCP_ACK) && (dhcp_state d =? 3) then
        let mask := if negb (o_subnet o =? 0) then o_subnet o else 0xFFFFFF00 in
        modify (λ s, set_cfg (NetConfig your_ip mask (o_router o) (o_dns o) (mac (g_net s)) true) s);;
        modify (set_dhcp (Dhcp (dhcp_xid d) (dhcp_offered_ip d) (dhcp_server_ip d) 4 (xid_counter d)))
      else mret tt.

Definition udp_process (src_ip : Z) (data : list Z) : M net unit :=
  let len := Z.of_nat (length data) in
  if len <? 8 then mret tt
  else
    let src_port := n_be16 data 0 in
    let dst_port := n_be16 data 2 in
    let udp_len := n_be16 data 4 in
    let udp_len := if len <? udp_len then len else udp_len in
    if udp_len <? 8 then mret tt
    else
      let payload := slice data 8 (Z.to_nat (udp_len - 8)) in
      bs ← gets udp_bindings;
      match udp_find dst_port bs with
      | Some (_, b) =>
          match b_cb b with
          | DhcpRx => dhcp_rx src_ip payload
          | DnsRx => dns_rx payload
          | OtherRx id => deliver (Datagram (Some id) dst_port src_ip src_port payload)
          end
      | None =>
          h ← gets g_udp_socket_handler;
          if h : bool then deliver (Datagram None dst_port src_ip src_port payload) else mret tt
      end.

(** ** TCP segments *)

Definition tcp_pseudo (src dst total : Z) : list Z :=
  n_put32 src ++ n_put32 dst ++ [0; IP_PROTO_TCP] ++ n_put16 total.
Definition tcp_header (c : tcp_conn) (flags cksum : Z) : list Z :=
  n_put16 (local_port c) ++ n_put16 (remote_port c) ++ n_put32 (seq_num c) ++ n_put32 (ack_num c) ++
  [u8 (Z.shiftl (20 / 4) 4); flags] ++ n_put16 65535 ++ n_put16 cksum ++ n_put16 0.

Definition tcp_send_segment (c : tcp_conn) (flags : Z) (data : list Z) : M net Z :=
  let total := u16 (20 + Z.of_nat (length data)) in
  if 1480 <? total then mret (-1)
  else if 1460 <? Z.of_nat (length data) then fault
  else
    cfg ← gets g_net;
    let sum := sum_words (tcp_pseudo (ip cfg) (remote_ip c) total) 0 in
    let sum := sum_words (tcp_header c flags 0 ++ data) sum in
    sum ← lift_opt (λ _, fold_carries sum);
    ip_send (remote_ip c) IP_PROTO_TCP (tcp_header c flags (u16 (Z.lnot sum)) ++ data).

(** A segment without data on connection [i]. *)
Definition send_ctl (i : nat) (flags : Z) : M net unit :=
  c ← conn i;
  tcp_send_segment c flags [];;
  mret tt.

Definition bump_seq (i : nat) (n : Z) : M net unit := on_conn i (λ c, set_seq (u32 (seq_num c + n)) c).

(** The loop of [tcp_send]. *)
Definition tcp_send (i : Z) (data : list Z) : M net Z :=
  if (i <? 0) || (Z.of_nat TCP_MAX_CONNECTIONS <=? i) then mret (-1)
  else
    let i := Z.to_nat i in
    c ← conn i;
    if negb (state_ c =? TCP_ESTABLISHED) then mret (-1)
    else
      let len := Z.of_nat (length data) in
      while (2 ^ 16) (λ sent,
        if sent <? len then
          let chunk := len - sent in
          let chunk := if 1400 <? chunk then 1400 else chunk in
          c ← conn i;
          tcp_send_segment c (Z.lor TCP_ACK TCP_PSH) (slice data (Z.to_nat sent) (Z.to_nat chunk));;
          bump_seq i chunk;;
          mret (inl (u16 (sent + chunk)))
        else mret (inr sent)) 0.

Definition tcp_close (i : Z) : M net unit :=
  if (i <? 0) || (Z.of_nat TCP_MAX_CONNECTIONS <=? i) then mret tt
  else
    let i := Z.to_nat i in
    c ← conn i;
    if state_ c =? TCP_ESTABLISHED then
      send_ctl i (Z.lor TCP_FIN TCP_ACK);;
      bump_seq i 1;;
      on_conn i (λ c, set_state TCP_FIN_WAIT_1 (active c) c)
    else on_conn i (set_state TCP_CLOSED false).

(** An incoming SYN for a listener. *)
Definition tcp_spawn (listener : nat) (src_ip src_port dst_port seq : Z) : M net unit :=
  cs ← gets tcp_conns;
  match tcp_free cs with
  | None => mret tt
  | Some slot =>
      i ← tcp_isn;
      on_conn slot (λ _, TcpConn src_ip src_port dst_port i (u32 (seq + 1)) TCP_SYN_RECV true
        (Z.of_nat listener) false (rx_buf tcp_zero) 0 0);;
      send_ctl slot (Z.lor TCP_SYN TCP_ACK);;
      bump_seq slot 1
  end.

(** The other side closes: acknowledge and close as well. *)
Definition tcp_passive_close (i : nat) : M net unit :=
  send_ctl i TCP_ACK;;
  on_conn i (λ c, set_state TCP_CLOSE_WAIT (active c) c);;
  send_ctl i (Z.lor TCP_FIN TCP_ACK);;
  bump_seq i 1;;
  on_conn i (λ c, set_state TCP_LAST_ACK (active c) c).

Definition tcp_established (i : nat) (seq flags : Z) (payload : list Z) : M net unit :=
  c ← conn i;
  if negb (Z.of_nat (length payload) =? 0) then
    if negb (seq =? ack_num c) then send_ctl i TCP_ACK
    else
      '(buffered, c') ← lift_opt (λ _, tcp_buffer payload c);
      on_conn i (λ _, set_ack (u32 (seq + buffered)) c');;
      if flag flags TCP_FIN then
        on_conn i (λ c, set_ack (u32 (ack_num c + 1)) c);;
        tcp_passive_close i
      else send_ctl i TCP_ACK
  else if flag flags TCP_FIN then
    on_conn i (set_ack (u32 (seq + 1)));;
    tcp_passive_close i
  else mret tt.

(** A segment for connection [i]. *)
Definition tcp_segment (i : nat) (seq flags : Z) (payload : list Z) : M net unit :=
  if flag flags TCP_RST then on_conn i (set_state TCP_CLOSED false)
  else
    c ← conn i;
    let st := state_ c in
    if st =? TCP_SYN_RECV then
      if flag flags TCP_ACK then on_conn i (λ c, set_state TCP_ESTABLISHED (active c) c) else mret tt
    else if st =? TCP_SYN_SENT then
      if Z.land flags (Z.lor TCP_SYN TCP_ACK) =? Z.lor TCP_SYN TCP_ACK then
        on_conn i (λ c, set_state TCP_ESTABLISHED (active c) (set_ack (u32 (seq + 1)) c));;
        send_ctl i TCP_ACK
      else mret tt
    else if st =? TCP_ESTABLISHED then tcp_established i seq flags payload
    else if st =? TCP_FIN_WAIT_1 then
      if flag flags TCP_ACK then
        if flag flags TCP_FIN then
          on_conn i (set_ack (u32 (seq + 1)));;
          send_ctl i TCP_ACK;;
          on_conn i (set_state TCP_CLOSED false)
        else on_conn i (λ c, set_state TCP_FIN_WAIT_2 (active c) c)
      else mret tt
    else if st =? TCP_FIN_WAIT_2 then
      if flag flags TCP_FIN then
        on_conn i (set_ack (u32 (seq + 1)));;
        send_ctl i TCP_ACK;;
        on_conn i (set_state TCP_CLOSED false)
      else mret tt
    else if st =? TCP_LAST_ACK then
      if flag flags TCP_ACK then on_conn i (set_state TCP_CLOSED false) else mret tt
    else mret tt.

Definition tcp_process (src_ip : Z) (data : list Z) : M net unit :=
  let len := Z.of_nat (length data) in
  if len <? 20 then mret tt
  else
    let src_port := n_be16 data 0 in
    let dst_port := n_be16 data 2 in
    let seq := n_be32 data 4 in
    let ack := n_be32 data 8 in
    let data_off := u8 (Z.shiftr (at_ data 12) 4 * 4) in
    let flags := at_ data 13 in
    if len <? data_off then mret tt
    else
      let payload := drop (Z.to_nat data_off) data in
      cs ← gets tcp_conns;
      match tcp_match src_ip src_port dst_port cs with
      | Some i => tcp_segment i seq flags payload
      | None =>
          match tcp_listener dst_port cs with
          | Some l =>
              if flag flags TCP_SYN && negb (flag flags TCP_ACK)
              then tcp_spawn l src_ip src_port dst_port seq
              else if negb (flag flags TCP_RST) then
                tcp_send_segment (TcpConn src_ip src_port dst_port ack (u32 (seq + 1)) TCP_CLOSED false
                  0 false (rx_buf tcp_zero) 0 0) (Z.lor TCP_RST TCP_ACK) [];; mret tt
              else mret tt
          | None =>
              if negb (flag flags TCP_RST) then
                tcp_send_segment (TcpConn src_ip src_port dst_port ack (u32 (seq + 1)) TCP_CLOSED false
                  0 false (rx_buf tcp_zero) 0 0) (Z.lor TCP_RST TCP_ACK) [];; mret tt
              else mret tt
          end
      end.

(** ** Received frames *)

Definition ip_process (pkt : list Z) : M net unit :=
  let len := Z.of_nat (length pkt) in
  if len <? 20 then mret tt
  else
    let version := Z.shiftr (at_ pkt 0) 4 in
    let ihl := u8 (Z.land (at_ pkt 0) 0x0F * 4) in
    if negb (version =? 4) || (ihl <? 20) || (len <? ihl) then mret tt
    else
      let total_len := n_be16 pkt 2 in
      let total_len := if len <? total_len then len else total_len in
      if total_len <? ihl then mret tt
      else
        let protocol := at_ pkt 9 in
        let src_ip := n_be32 pkt 12 in
        let dst_ip := n_be32 pkt 16 in
        c ← gets g_net;
        if configured c && negb (dst_ip =? ip c) && negb (dst_ip =? BROADCAST_IP) &&
           negb (dst_ip =? broadcast_of c)
        then mret tt
        else
          let payload := slice pkt (Z.to_nat ihl) (Z.to_nat (total_len - ihl)) in
          if protocol =? IP_PROTO_ICMP then icmp_process src_ip payload
          else if protocol =? IP_PROTO_UDP then udp_process src_ip payload
          else if protocol =? IP_PROTO_TCP then tcp_process src_ip payload
          else mret tt.

(** The gateway's address is learned from the source of any IP frame. *)
Definition learn_gateway (src_mac : list Z) (src_ip : Z) : M net unit :=
  cache ← gets arp_cache;
  match arp_find src_ip cache with
  | Some _ => mret tt
  | None =>
      c ← gets g_net;
      match arp_find (gateway c) cache with
      | Some _ => mret tt
      | None =>
          if negb (gateway c =? 0) then
            match arp_free cache with
            | Some i => modify (set_arp (<[i := ArpEntry (gateway c) src_mac true false]> cache))
            | None => mret tt
            end
          else mret tt
      end
  end.

Definition net_rx (data : list Z) : M net unit :=
  if (length data <? 14)%nat then mret tt
  else
    let ethertype := n_be16 data 12 in
    let payload := drop 14 data in
    (if (ethertype =? 0x0800) && (20 <=? length payload)%nat
     then learn_gateway (slice data 6 6) (n_be32 payload 12) else mret tt);;
    if ethertype =? 0x0806 then arp_process payload
    else if ethertype =? 0x0800 then ip_process payload
    else mret tt.
End poll.

(** ** Polling *)

(** A poll while a frame is processed finds the receive ring locked. *)
Definition nested_poll : M net unit := mret tt.

Definition e1000_rx_poll : M net (list (list Z)) := λ s,
  let n := n_nic s in
  Some (rx_frames n (rx_polls n),
        set_nic (Nic (rx_frames n) (S (rx_polls n)) (tx_status n) (tx_calls n) (sent n)
          (delivered n)) s).

Fixpoint rx_all (frames : list (list Z)) : M net unit :=
  match frames with
  | [] => mret tt
  | f :: fs => net_rx nested_poll f;; rx_all fs
  end.
Definition net_poll : M net unit := frames ← e1000_rx_poll; rx_all frames.

(** Poll until [stop] holds, at most [n] times: a wait with a timeout. *)
Definition poll_until (n : Z) (stop : net → bool) : M net bool :=
  while (2 ^ 32) (λ k,
    if k <? n then
      net_poll;;
      b ← gets stop;
      if b : bool then mret (inr true) else mret (inl (k + 1))
    else mret (inr false)) 0.

(** ** DHCP client *)

Definition set_dhcp_state (v : Z) : M net unit :=
  modify (λ s, let d := n_dhcp s in
    set_dhcp (Dhcp (dhcp_xid d) (dhcp_offered_ip d) (dhcp_server_ip d) v (xid_counter d)) s).

Definition send_discover (pkt : list Z) : M net unit :=
  udp_send net_poll BROADCAST_IP DHCP_SERVER_PORT DHCP_CLIENT_PORT pkt;; mret tt.

Definition dhcp_discover : M net Z :=
  udp_bind DHCP_CLIENT_PORT DhcpRx;;
  modify (λ s, let d := n_dhcp s in
    set_dhcp (Dhcp (xid_counter d) (dhcp_offered_ip d) (dhcp_server_ip d) (dhcp_state d)
      (u32 (xid_counter d + 1))) s);;
  s ← gets id;
  let disc := dhcp_build_packet (g_net s) (n_dhcp s) DHCP_DISCOVER in
  set_dhcp_state 1;;
  send_discover disc;;
  r ← for_ 0 3 (λ _,
    done ← poll_until 300 (λ s, dhcp_state (n_dhcp s) =? 4);
    if done : bool then mret (Some 0)
    else
      s ← gets id;
      if dhcp_state (n_dhcp s) <? 4 then
        set_dhcp_state 1;;
        send_discover (dhcp_build_packet (g_net s) (n_dhcp s) DHCP_DISCOVER);;
        mret None
      else mret None);
  mret (default (-1) r).

(** ** TCP interface *)

Definition tcp_open (c : tcp_conn) : M net (option nat) :=
  cs ← gets tcp_conns;
  match tcp_free cs with
  | None => mret None
  | Some slot => on_conn slot (λ _, c);; mret (Some slot)
  end.

(** [while (elapsed < 5000000 && c->state == TCP_SYN_SENT)], 5 ms a turn. *)
Definition wait_syn_ack (slot : nat) : M net unit :=
  while (2 ^ 32) (λ elapsed,
    c ← conn slot;
    if (elapsed <? 5000000) && (state_ c =? TCP_SYN_SENT) then
      net_poll;; mret (inl (elapsed + 5000))
    else mret (inr tt)) 0.

Definition tcp_connect (dst_ip dst_port : Z) : M net Z :=
  cs ← gets tcp_conns;
  match tcp_free cs with
  | None => mret (-1)
  | Some slot =>
      p ← gets tcp_next_port;
      modify (λ s, set_tcp (tcp_conns s) (u16 (p + 1)) (isn_counter s) s);;
      i ← tcp_isn;
      on_conn slot (λ _, TcpConn dst_ip dst_port p i 0 TCP_SYN_SENT true (-1) true
        (rx_buf tcp_zero) 0 0);;
      send_ctl net_poll slot TCP_SYN;;
      bump_seq slot 1;;
      wait_syn_ack slot;;
      c ← conn slot;
      if state_ c =? TCP_ESTABLISHED then mret (Z.of_nat slot)
      else on_conn slot (set_state TCP_CLOSED false);; mret (-1)
  end.

(** The result and the bytes written to [buf]. *)
Definition tcp_recv (i max_len : Z) : M net (Z * list Z) :=
  if (i <? 0) || (Z.of_nat TCP_MAX_CONNECTIONS <=? i) then mret (-1, [])
  else
    let i := Z.to_nat i in
    c ← conn i;
    let available := tcp_available c in
    if available =? 0 then mret (0, [])
    else
      let to_read := if max_len <? available then max_len else available in
      '(l, c') ← lift_opt (λ _, tcp_unbuffer (Z.to_nat to_read) c);
      on_conn i (λ _, c');;
      mret (to_read, l).

Definition tcp_is_connected (i : Z) : M net bool :=
  if (i <? 0) || (Z.of_nat TCP_MAX_CONNECTIONS <=? i) then mret false
  else c ← conn (Z.to_nat i); mret (state_ c =? TCP_ESTABLISHED).
Definition tcp_get_state (i : Z) : M net Z :=
  if (i <? 0) || (Z.of_nat TCP_MAX_CONNECTIONS <=? i) then mret TCP_CLOSED
  else c ← conn (Z.to_nat i); mret (if active c then state_ c else TCP_CLOSED).
Definition tcp_rx_available (i : Z) : M net Z :=
  if (i <? 0) || (Z.of_nat TCP_MAX_CONNECTIONS <=? i) then mret 0
  else c ← conn (Z.to_nat i); mret (tcp_available c).

Definition tcp_listen (port : Z) : M net Z :=
  r ← tcp_open (TcpConn 0 0 port 0 0 TCP_LISTEN true (-1) true (rx_buf tcp_zero) 0 0);
  mret (match r with Some slot => Z.of_nat slot | None => -1 end).

Definition tcp_accept (h : Z) : M net Z :=
  if (h <? 0) || (Z.of_nat TCP_MAX_CONNECTIONS <=? h) then mret (-1)
  else
    l ← conn (Z.to_nat h);
    if negb (state_ l =? TCP_LISTEN) then mret (-1)
    else
      cs ← gets tcp_conns;
      match list_find (λ c, Is_true (active c && (listen_parent c =? h) &&
              (state_ c =? TCP_ESTABLISHED) && negb (accepted c))) cs with
      | Some (i, _) => on_conn i set_accepted;; mret (Z.of_nat i)
      | None => mret (-1)
      end.

(** ** DNS client *)

Definition DNS_CACHE_SIZE : nat := 8.

(** Names are stored cut to 127 characters; the first match counts. *)
Definition dns_cache_lookup (hostname : list Z) (cache : list (list Z * Z)) : Z :=
  match list_find (λ e, e.1 = hostname) cache with Some (_, e) => e.2 | None => 0 end.
Definition dns_cache_store (hostname : list Z) (v : Z) (cache : list (list Z * Z)) : list (list Z * Z) :=
  take (DNS_CACHE_SIZE - 1) cache ++ [(take 127 hostname, v)].

(** The question: the host name as length-prefixed labels, in a packet of 256
    bytes; a longer name overruns it.  The state is the packet, the position,
    where the length of the current label goes, and that length. *)
Definition encode_step (hlen : nat) (hostname : list Z) (st : list Z * Z * Z * Z) (i : nat)
    : option (list Z * Z * Z * Z) :=
  let '(pkt, pos, label_start, label_len) := st in
  if bool_decide (i = hlen) || (at_ hostname i =? 46) then
    pkt ← arr_set pkt label_start (u8 label_len);
    if (i <? hlen)%nat then Some (pkt, u16 (pos + 1), pos, 0)
    else Some (pkt, pos, label_start, label_len)
  else
    pkt ← arr_set pkt pos (at_ hostname i);
    Some (pkt, u16 (pos + 1), label_start, u32 (label_len + 1)).

Definition dns_query (txid : Z) (hostname : list Z) : option (list Z) :=
  let pkt := splice (replicate 256 0) 0 (n_put16 txid ++ n_put16 0x0100 ++ n_put16 1 ++ n_put16 0) in
  let hlen := length hostname in
  '(pkt, pos, _, _) ← foldl (λ o i, st ← o; encode_step hlen hostname st i)
    (Some (pkt, 13, 12, 0)) (seq 0 (hlen + 1));
  pkt ← arr_set pkt pos 0;
  let pos := u16 (pos + 1) in
  pkt ← put_bytes pkt pos (n_put16 1);
  let pos := u16 (pos + 2) in
  pkt ← put_bytes pkt pos (n_put16 1);
  let pos := u16 (pos + 2) in
  Some (take (Z.to_nat pos) pkt).

(** What [dns_resolve] does once [dns_resolved] is set. *)
Definition dns_finish (dns_port : Z) (hostname : list Z) : M net Z :=
  udp_unbind dns_port;;
  modify (λ s, let d := n_dns s in
    set_dns (Dns (dns_result_ip d) (dns_resolved d) (dns_txid d)
      (dns_cache_store hostname (dns_result_ip d) (dns_cache d))) s);;
  gets (λ s, dns_result_ip (n_dns s)).

Definition dns_resolve (hostname : list Z) : M net Z :=
  s ← gets id;
  let cached := dns_cache_lookup hostname (dns_cache (n_dns s)) in
  if negb (cached =? 0) then mret cached
  else if negb (configured (g_net s)) || (dns_server (g_net s) =? 0) then mret 0
  else
    let dns_port := udp_ephemeral s in
    modify (λ s, set_udp (udp_bindings s) (u16 (dns_port + 1)) s);;
    udp_bind dns_port DnsRx;;
    let txid := u16 (Z.lxor dns_port 0x1234) in
    modify (λ s, set_dns (Dns 0 false txid (dns_cache (n_dns s))) s);;
    pkt ← lift_opt (λ _, dns_query txid hostname);
    let server := dns_server (g_net s) in
    udp_send net_poll server 53 dns_port pkt;;
    r ← for_ 0 3 (λ retry,
      done ← poll_until 400 (λ s, dns_resolved (n_dns s));
      if done : bool then v ← dns_finish dns_port hostname; mret (Some v)
      else
        c ← gets g_net;
        if retry <? 2 then udp_send net_poll (dns_server c) 53 dns_port pkt;; mret None
        else mret None);
    match r with
    | Some v => mret v
    | None => udp_unbind dns_port;; mret 0
    end.

(** ** Initialisation *)

Definition netcore_init : M net unit :=
  modify (λ s, set_tcp (replicate TCP_MAX_CONNECTIONS tcp_zero) (tcp_next_port s) (isn_counter s)
    (set_udp (replicate UDP_MAX_BINDS (UdpBinding 0 (OtherRx 0) false)) (udp_ephemeral s)
      (set_arp (replicate ARP_CACHE_SIZE (ArpEntry 0 (replicate 6 0) false false))
        (set_cfg (NetConfig 0 0 0 0 (replicate 6 0) false) s)))).

Definition netcore_attach_e1000 (nic_mac : list Z) : M net unit := net_set_mac nic_mac.
