(* ===== verification/NetSum.v ===== *)
(** * Network byte order and the Internet checksum

    Reading back what [n_put16] and [n_put32] write, and the checksum of RFC
    1071: the loops of [ip_checksum] end, and a block that contains its own
    checksum sums to zero. *)

From S2P Require Import Prelude Ring Loops Codec Aes Net.

(** ** Byte order *)

Lemma n_be16_eq p o : bytes p → n_be16 p o = at_ p o * 256 + at_ p (o + 1).
Proof.
  intros Hb. unfold n_be16. change 256 with (2 ^ 8). apply lor_shiftl_add; [lia|].
  apply (at_byte p (o + 1) Hb).
Qed.

Lemma n_be32_eq p o : bytes p →
  n_be32 p o = at_ p o * 2 ^ 24 + at_ p (o + 1) * 2 ^ 16 + at_ p (o + 2) * 2 ^ 8 + at_ p (o + 3).
Proof.
  intros Hb. unfold n_be32.
  pose proof (at_byte p o Hb). pose proof (at_byte p (o + 1) Hb).
  pose proof (at_byte p (o + 2) Hb). pose proof (at_byte p (o + 3) Hb). unfold is_byte in *.
  set (a := at_ p o) in *. set (b := at_ p (o + 1)) in *. set (c := at_ p (o + 2)) in *.
  set (d := at_ p (o + 3)) in *. clearbody a b c d.
  rewrite (Z.shiftl_mul_pow2 b), (Z.shiftl_mul_pow2 c) by lia.
  rewrite (lor_shiftl_add a 24) by lia.
  replace (a * 2 ^ 24 + b * 2 ^ 16) with (Z.shiftl (a * 2 ^ 8 + b) 16)
    by (rewrite Z.shiftl_mul_pow2 by lia; lia).
  rewrite (lor_shiftl_add _ 16) by lia.
  replace ((a * 2 ^ 8 + b) * 2 ^ 16 + c * 2 ^ 8) with (Z.shiftl (a * 2 ^ 16 + b * 2 ^ 8 + c) 8)
    by (rewrite Z.shiftl_mul_pow2 by lia; lia).
  rewrite (lor_shiftl_add _ 8) by lia. rewrite !Z.shiftl_mul_pow2 by lia. lia.
Qed.

Lemma bytes_put16 v : bytes (n_put16 v).
Proof. unfold n_put16. forall_list; apply u8_range. Qed.

Lemma bytes_put32 v : bytes (n_put32 v).
Proof. unfold n_put32. forall_list; apply u8_range. Qed.

Lemma at_app_l a b i : (i < length a)%nat → at_ (a ++ b) i = at_ a i.
Proof. intros Hi. unfold at_. by rewrite lookup_app_l. Qed.

Lemma at_app_r a b i : at_ (a ++ b) (length a + i) = at_ b i.
Proof. unfold at_. rewrite lookup_app_r by lia. do 2 f_equal. lia. Qed.

(** A field at its offset: [pre] is what comes before it. *)
Lemma be16_at pre v post o :
  0 ≤ v < 2 ^ 16 → length pre = o → n_be16 (pre ++ n_put16 v ++ post) o = v.
Proof.
  intros Hv <-. unfold n_be16.
  replace (at_ (pre ++ n_put16 v ++ post) (length pre)) with (u8 (Z.shiftr v 8))
    by (rewrite <-(Nat.add_0_r (length pre)) at 1; by rewrite at_app_r).
  rewrite at_app_r. change (at_ (n_put16 v ++ post) 1) with (u8 v).
  rewrite lor_shiftl_add by (lia || apply u8_range). rewrite Z.shiftr_div_pow2 by lia.
  unfold u8. Z.to_euclidean_division_equations. lia.
Qed.

Lemma be32_split v : 0 ≤ v < 2 ^ 32 →
  u8 (Z.shiftr v 24) * 2 ^ 24 + u8 (Z.shiftr v 16) * 2 ^ 16 + u8 (Z.shiftr v 8) * 2 ^ 8 + u8 v = v.
Proof.
  intros Hv. rewrite !Z.shiftr_div_pow2 by lia. unfold u8. Z.to_euclidean_division_equations. lia.
Qed.

Lemma be32_at pre v post o :
  0 ≤ v < 2 ^ 32 → length pre = o → n_be32 (pre ++ n_put32 v ++ post) o = v.
Proof.
  intros Hv <-.
  assert (∀ i, (i < 4)%nat → at_ (pre ++ n_put32 v ++ post) (length pre + i) = at_ (n_put32 v) i) as Ha.
  { intros i Hi. rewrite at_app_r. by rewrite at_app_l. }
  pose proof (n_be32_eq (n_put32 v) 0 (bytes_put32 v)) as E. unfold n_be32 in *.
  rewrite <-(Nat.add_0_r (length pre)) at 1. rewrite !Ha by lia.
  simpl (0 + _)%nat in E. rewrite E. by apply be32_split.
Qed.

Lemma length_put16 v : length (n_put16 v) = 2%nat.
Proof. done. Qed.
Lemma length_put32 v : length (n_put32 v) = 4%nat.
Proof. done. Qed.

(** ** The sum of the 16-bit words *)

Fixpoint wsum (p : list Z) : Z :=
  match p with a :: b :: p => (a * 256 + b) + wsum p | [a] => a * 256 | [] => 0 end.

Lemma list_pair_ind {A} (P : list A → Prop) :
  P [] → (∀ a, P [a]) → (∀ a b l, P l → P (a :: b :: l)) → ∀ l, P l.
Proof.
  intros H0 H1 H2 l. enough (P l ∧ ∀ a, P (a :: l)) by tauto.
  induction l as [|b l [IH1 IH2]]; split; auto.
Qed.

Lemma wsum_app a b : Nat.Even (length a) → wsum (a ++ b) = wsum a + wsum b.
Proof.
  induction a as [|x|x y a IH] using list_pair_ind; intros He; simpl.
  - done.
  - destruct He as [k Hk]. simpl in Hk. lia.
  - rewrite IH; [lia|]. destruct He as [k Hk]. simpl in Hk. exists (k - 1)%nat. lia.
Qed.

Lemma wsum_bound p : bytes p → 0 ≤ wsum p ≤ 32768 * (Z.of_nat (length p) + 1).
Proof.
  induction p as [|x|x y p IH] using list_pair_ind; intros Hb; simpl.
  - lia.
  - inversion_clear Hb as [|?? H]. unfold is_byte in H. lia.
  - inversion_clear Hb as [|?? H Hb']. inversion_clear Hb' as [|?? H' Hb].
    specialize (IH Hb). unfold is_byte in *. lia.
Qed.

(** 32 bits are enough for the blocks the stack sums. *)
Lemma sum_words_eq p s :
  bytes p → 0 ≤ s → s + 32768 * (Z.of_nat (length p) + 1) < 2 ^ 32 → sum_words p s = s + wsum p.
Proof.
  revert s. induction p as [|x|x y p IH] using list_pair_ind; intros s Hb Hs Hl; simpl in *.
  - lia.
  - inversion_clear Hb as [|?? H]. unfold is_byte in H.
    rewrite Z.shiftl_mul_pow2, u32_small by lia. lia.
  - inversion_clear Hb as [|?? H Hb']. inversion_clear Hb' as [|?? H' Hb]. unfold is_byte in *.
    rewrite lor_shiftl_add, u32_small, IH by (lia || done). lia.
Qed.

Lemma fold_carries_spec x : 0 ≤ x < 2 ^ 32 →
  ∃ y, fold_carries x = Some y ∧ 0 ≤ y < 2 ^ 16 ∧ y mod 65535 = x mod 65535 ∧ (y = 0 ↔ x = 0).
Proof.
  intros Hx. apply (while_opt_rule _ _ (λ z, 0 ≤ z < 2 ^ 32 ∧ z mod 65535 = x mod 65535 ∧ (z = 0 ↔ x = 0))
    (λ z, z)); [split_and!; (done || lia)|lia|].
  intros z (Hz & Hm & H0). rewrite Z.shiftr_div_pow2 by lia.
  change 0xFFFF with (Z.ones 16). rewrite Z.land_ones by lia.
  pose proof (Z.div_mod z (2 ^ 16)) as Hd. pose proof (Z.mod_pos_bound z (2 ^ 16)).
  assert (0 ≤ z / 2 ^ 16 < 2 ^ 16) by (split; [apply Z.div_pos|apply Z.div_lt_upper_bound]; lia).
  destruct (Z.eqb_spec (z / 2 ^ 16) 0); [split_and!; (done || lia)|].
  rewrite u32_small by lia. split_and!; [lia|lia| |lia|lia|lia].
  change (Z.ones 16) with 65535. rewrite <-Hm. symmetry.
  replace z with (z mod 2 ^ 16 + z / 2 ^ 16 + z / 2 ^ 16 * 65535) at 1 by lia.
  by apply Z.mod_add.
Qed.

Lemma lnot16 y : 0 ≤ y < 2 ^ 16 → u16 (Z.lnot y) = 65535 - y.
Proof.
  intros Hy. unfold u16, Z.lnot. replace (Z.pred (- y)) with (65535 - y + (-1) * 2 ^ 16) by lia.
  rewrite Z.mod_add, Z.mod_small; lia.
Qed.

(** The checksum is the complement of the one's complement sum. *)
Lemma ip_checksum_spec p : bytes p → Z.of_nat (length p) ≤ 65536 →
  ∃ ck, ip_checksum p = Some ck ∧ 0 ≤ ck < 2 ^ 16 ∧ (wsum p + ck) mod 65535 = 0 ∧
    (ck = 65535 ↔ wsum p = 0).
Proof.
  intros Hb Hl. pose proof (wsum_bound p Hb). unfold ip_checksum.
  rewrite sum_words_eq by (done || lia).
  destruct (fold_carries_spec (0 + wsum p)) as (y & -> & Hy & Hm & H0); [lia|]. simpl.
  exists (65535 - y). split; [by rewrite lnot16|]. split_and!; [lia|lia| |lia].
  replace (wsum p + (65535 - y)) with (0 + wsum p - y + 1 * 65535) by lia.
  rewrite Z.mod_add, Zminus_mod, Hm, Z.sub_diag; [done|lia].
Qed.

Lemma ip_checksum_zero p : bytes p → Z.of_nat (length p) ≤ 65536 →
  ip_checksum p = Some 0 ↔ wsum p mod 65535 = 0 ∧ wsum p ≠ 0.
Proof.
  intros Hb Hl. destruct (ip_checksum_spec p Hb Hl) as (ck & -> & Hr & Hm & H0).
  split.
  - intros [= ->]. rewrite Z.add_0_r in Hm. split; [done|]. intros E. apply H0 in E. done.
  - intros [H1 H2]. f_equal. rewrite Z.add_mod, H1, Z.add_0_l, Z.mod_mod in Hm by lia.
    destruct (decide (ck = 65535)) as [->|]; [by destruct H2; apply H0|].
    rewrite Z.mod_small in Hm; lia.
Qed.

Lemma wsum_put16 v : 0 ≤ v < 2 ^ 16 → wsum (n_put16 v) = v.
Proof.
  intros Hv. pose proof (be16_at [] v [] 0 Hv eq_refl) as E.
  rewrite app_nil_r, app_nil_l, n_be16_eq in E by apply bytes_put16. etransitivity; [|exact E]. apply Z.add_0_r.
Qed.

(** C30: the Internet checksum.  A block of bytes verifies ([ip_checksum] is 0)
    exactly when its 16-bit words sum to a non-zero multiple of 65535; and when
    the checksum of a block with a zero checksum field is computed it exists, is
    16 bits wide, and the block with that value in the field verifies. *)
Theorem ip_checksum_correct pre post :
  bytes pre → bytes post → Nat.Even (length pre) →
  Z.of_nat (length pre) + 2 + Z.of_nat (length post) ≤ 65536 →
  (∃ ck, ip_checksum (pre ++ [0; 0] ++ post) = Some ck ∧ 0 ≤ ck < 2 ^ 16 ∧
     ip_checksum (pre ++ n_put16 ck ++ post) = Some 0) ∧
  (∀ a b, is_byte a → is_byte b → ip_checksum (pre ++ [a; b] ++ post) = Some 0 ↔
     wsum (pre ++ [a; b] ++ post) mod 65535 = 0 ∧ wsum (pre ++ [a; b] ++ post) ≠ 0).
Proof.
  intros Hpre Hpost He Hl.
  assert (∀ m, length m = 2%nat → bytes m →
    bytes (pre ++ m ++ post) ∧ Z.of_nat (length (pre ++ m ++ post)) ≤ 65536) as Hm.
  { intros m H2 Hb. split; [by repeat apply bytes_app|]. rewrite !length_app. lia. }
  split.
  - destruct (Hm [0; 0]) as [Hb0 Hl0]; [done|by apply (bytes_zero 2)|].
    destruct (ip_checksum_spec _ Hb0 Hl0) as (ck & Hck & Hr & Hs & H0). exists ck.
    split_and!; [done|lia|lia|]. destruct (Hm (n_put16 ck)) as [Hb1 Hl1]; [done|apply bytes_put16|].
    apply (ip_checksum_zero _ Hb1 Hl1). rewrite wsum_app in H0, Hs |- * by done. simpl in H0, Hs.
    rewrite wsum_app, wsum_put16 by (done || by exists 1%nat).
    pose proof (wsum_bound pre Hpre). pose proof (wsum_bound post Hpost). split; [|lia].
    rewrite <-Hs. f_equal. lia.
  - intros a b Ha Hb. destruct (Hm [a; b]) as [Hb1 Hl1]; [done|by forall_list|].
    by apply ip_checksum_zero.
Qed.

Lemma ip_checksum_correct_witness :
  (∃ ck, ip_checksum ([0x45; 0; 0; 20] ++ [0; 0] ++ [64; 17; 10]) = Some ck ∧ 0 ≤ ck < 2 ^ 16 ∧
     ip_checksum ([0x45; 0; 0; 20] ++ n_put16 ck ++ [64; 17; 10]) = Some 0) ∧
  (∀ a b, is_byte a → is_byte b → ip_checksum ([0x45; 0; 0; 20] ++ [a; b] ++ [64; 17; 10]) = Some 0 ↔
     wsum ([0x45; 0; 0; 20] ++ [a; b] ++ [64; 17; 10]) mod 65535 = 0 ∧
     wsum ([0x45; 0; 0; 20] ++ [a; b] ++ [64; 17; 10]) ≠ 0).
Proof.
  apply (ip_checksum_correct [0x45; 0; 0; 20] [64; 17; 10]);
    [by apply bytesb_bytes|by apply bytesb_bytes|by exists 2%nat|simpl; lia].
Defined.

(** * Sending: what the stack puts on the wire

    A packet sent while a frame is processed changes nothing but the IP
    identification and the interface ([sends]); a packet to a resolved address
    is one frame with the expected headers; and the receiving side hands its
    payload to the protocol it is for. *)

(** ** Transmission *)

Definition transmit (f : list Z) (s : net) : net :=
  let n := n_nic s in
  set_nic (Nic (rx_frames n) (rx_polls n) (tx_status n) (S (tx_calls n))
    (if tx_status n (tx_calls n) =? 0 then sent n ++ [f] else sent n) (delivered n)) s.

(** [s'] is [s] after some transmissions. *)
Definition sends (s s' : net) : Prop :=
  ∃ i fs k, s' = set_nic (Nic (rx_frames (n_nic s)) (rx_polls (n_nic s)) (tx_status (n_nic s)) k
      (sent (n_nic s) ++ fs) (delivered (n_nic s))) (set_ip_id i s).

Lemma sends_refl s : sends s s.
Proof.
  exists (g_ip_id s), [], (tx_calls (n_nic s)). rewrite app_nil_r. by destruct s as [???????????[]].
Qed.

Lemma sends_trans s1 s2 s3 : sends s1 s2 → sends s2 s3 → sends s1 s3.
Proof.
  intros (i & fs & k & ->) (j & gs & l & ->). exists j, (fs ++ gs), l. simpl.
  by rewrite <-app_assoc.
Qed.

Lemma sends_transmit f s : sends s (transmit f s).
Proof.
  exists (g_ip_id s), (if tx_status (n_nic s) (tx_calls (n_nic s)) =? 0 then [f] else []),
    (S (tx_calls (n_nic s))).
  unfold transmit. destruct (_ =? 0); rewrite ?app_nil_r; by destruct s as [???????????[]].
Qed.

Lemma sends_ip_id i s : sends s (set_ip_id i s).
Proof.
  exists i, [], (tx_calls (n_nic s)). rewrite app_nil_r. by destruct s as [???????????[]].
Qed.

#[export] Hint Resolve sends_refl sends_transmit sends_ip_id : core.

Lemma tx_packet_eq f s : e1000_tx_packet f s = Some (tx_status (n_nic s) (tx_calls (n_nic s)), transmit f s).
Proof. done. Qed.

Definition eth_frame (dst src : list Z) (ethertype : Z) (payload : list Z) : list Z :=
  dst ++ src ++ n_put16 ethertype ++ payload.

Lemma eth_send_eq dst et p s : Z.of_nat (length p) ≤ 1504 →
  eth_send dst et p s = Some (tx_status (n_nic s) (tx_calls (n_nic s)),
    transmit (eth_frame dst (mac (g_net s)) et p) s).
Proof. intros Hp. unfold eth_send. destruct (Z.ltb_spec 1518 (14 + Z.of_nat (length p))); [lia|done]. Qed.

Lemma wp_eth_send dst et p s : wp (eth_send dst et p) (λ _ s', sends s s') s.
Proof.
  unfold eth_send. destruct (1518 <? _); wp_steps; auto. unfold wp. simpl. apply sends_transmit.
Qed.

Lemma wp_arp_resolve v s : wp (arp_resolve v) (λ _ s', sends s s') s.
Proof.
  unfold arp_resolve. wp_steps. destruct (_ || _); wp_steps; [done|].
  destruct (arp_find v (arp_cache s)); wp_steps; [done|]. unfold arp_send. wp_steps.
  eapply wp_mono; [apply wp_eth_send|]. intros ? s' Hs. by wp_steps.
Qed.

(** ** Checksums always exist *)

Lemma sum_words_range p s : 0 ≤ s < 2 ^ 32 → 0 ≤ sum_words p s < 2 ^ 32.
Proof.
  revert s. induction p as [|x|x y p IH] using list_pair_ind; intros s Hs; simpl;
    [done|apply u32_range|apply IH, u32_range].
Qed.

Lemma fold_carries_total p s : 0 ≤ s < 2 ^ 32 →
  ∃ y, fold_carries (sum_words p s) = Some y ∧ 0 ≤ y < 2 ^ 16.
Proof.
  intros Hs. destruct (fold_carries_spec _ (sum_words_range p s Hs)) as (y & Hy & Hr & _). by exists y.
Qed.

Lemma ip_checksum_total p : ∃ ck, ip_checksum p = Some ck ∧ 0 ≤ ck < 2 ^ 16.
Proof.
  destruct (fold_carries_total p 0) as (y & Hy & Hr); [lia|].
  exists (65535 - y). unfold ip_checksum. rewrite Hy. simpl. rewrite lnot16 by done. split; [done|lia].
Qed.

(** ** Sending an IP packet *)

(** While a frame is processed, sending changes only the interface. *)
Lemma wp_ip_send dst proto p s : Z.of_nat (length p) ≤ 1480 →
  wp (ip_send nested_poll dst proto p) (λ _ s', sends s s') s.
Proof.
  intros Hp. unfold ip_send. destruct (1500 <? _); wp_steps; [done|].
  destruct (ip_checksum_total (ip_header (u16 (20 + Z.of_nat (length p))) (g_ip_id s) proto
    (ip (g_net s)) dst 0)) as (ck & Hck & _).
  eapply wp_lift_opt; [exact Hck|]. destruct (Z.ltb_spec 1480 (Z.of_nat (length p))); [lia|].
  set (s1 := set_ip_id _ s). assert (sends s s1) as H1 by apply sends_ip_id. clearbody s1.
  destruct (dst =? BROADCAST_IP).
  { eapply wp_mono; [apply wp_eth_send|]. intros ? s2 H2. exact (sends_trans _ _ _ H1 H2). }
  wp_steps. eapply wp_mono; [apply wp_arp_resolve|]. intros [m|] s2 H2; cbv beta iota.
  - eapply wp_mono; [apply wp_eth_send|]. intros ? s3 H3. exact (sends_trans _ _ _ (sends_trans _ _ _ H1 H2) H3).
  - unfold nested_poll. wp_steps. eapply wp_mono; [apply wp_arp_resolve|]. intros m s3 H3; cbv beta.
    eapply wp_mono; [apply wp_eth_send|]. intros ? s4 H4.
    exact (sends_trans _ _ _ (sends_trans _ _ _ (sends_trans _ _ _ H1 H2) H3) H4).
Qed.

Lemma wp_tcp_send_segment c fl p s : Z.of_nat (length p) ≤ 1460 →
  wp (tcp_send_segment nested_poll c fl p) (λ _ s', sends s s') s.
Proof.
  intros Hp. unfold tcp_send_segment. destruct (1480 <? _); wp_steps; [done|].
  destruct (Z.ltb_spec 1460 (Z.of_nat (length p))); [lia|]. wp_steps.
  edestruct (fold_carries_total (tcp_header c fl 0 ++ p)
    (sum_words (tcp_pseudo (ip (g_net s)) (remote_ip c) (u16 (20 + Z.of_nat (length p)))) 0))
    as (y & Hy & _); [apply sum_words_range; lia|].
  eapply wp_lift_opt; [exact Hy|]. apply wp_ip_send. rewrite length_app. simpl. lia.
Qed.

Lemma wp_udp_send dst dp sp p s :
  Z.of_nat (length p) ≤ 1472 → wp (udp_send nested_poll dst dp sp p) (λ _ s', sends s s') s.
Proof.
  intros Hp. unfold udp_send. destruct (1480 <? _); wp_steps; [done|].
  destruct (Z.ltb_spec 1472 (Z.of_nat (length p))); [lia|].
  apply wp_ip_send. rewrite !length_app. simpl. lia.
Qed.

(** The next hop of a destination, and the hardware address it resolves to
    without a request. *)
Definition next_hop_of (c : net_config) (dst : Z) : Z :=
  if configured c && negb (Z.land dst (netmask c) =? Z.land (ip c) (netmask c))
  then gateway c else dst.
Definition resolved (s : net) (dst : Z) : option (list Z) :=
  let c := g_net s in
  let v := next_hop_of c dst in
  if dst =? BROADCAST_IP then Some BROADCAST_MAC
  else if (v =? BROADCAST_IP) || (configured c && (v =? broadcast_of c)) then Some BROADCAST_MAC
  else i ← arp_find v (arp_cache s); a_mac <$> arp_cache s !! i.

(** The packet for [payload], and the state once it is on its way to [m]. *)
Definition ip_packet (s : net) (dst proto ck : Z) (p : list Z) : list Z :=
  ip_header (20 + Z.of_nat (length p)) (g_ip_id s) proto (ip (g_net s)) dst ck ++ p.

Lemma ip_send_resolved poll dst proto p s m :
  Z.of_nat (length p) ≤ 1480 → resolved s dst = Some m →
  ∃ ck, 0 ≤ ck < 2 ^ 16 ∧
    ip_checksum (ip_header (20 + Z.of_nat (length p)) (g_ip_id s) proto (ip (g_net s)) dst 0) = Some ck ∧
    ip_send poll dst proto p s = Some (tx_status (n_nic s) (tx_calls (n_nic s)),
      transmit (eth_frame m (mac (g_net s)) 0x0800 (ip_packet s dst proto ck p))
        (set_ip_id (u16 (g_ip_id s + 1)) s)).
Proof.
  intros Hp Hm. destruct (ip_checksum_total (ip_header (20 + Z.of_nat (length p)) (g_ip_id s) proto
    (ip (g_net s)) dst 0)) as (ck & Hck & Hr).
  exists ck. split_and!; [lia|lia|done|].
  set (s1 := set_ip_id (u16 (g_ip_id s + 1)) s).
  assert (Z.of_nat (length (ip_packet s dst proto ck p)) ≤ 1504) as Hl.
  { unfold ip_packet. rewrite length_app. simpl. lia. }
  assert (∀ m', eth_send m' 0x0800 (ip_packet s dst proto ck p) s1 =
    Some (tx_status (n_nic s) (tx_calls (n_nic s)),
      transmit (eth_frame m' (mac (g_net s)) 0x0800 (ip_packet s dst proto ck p)) s1)) as He
    by (intros m'; by rewrite eth_send_eq).
  apply wp_exact. unfold ip_send. rewrite (u16_small (20 + _)) by lia.
  destruct (Z.ltb_spec 1500 (20 + Z.of_nat (length p))); [lia|].
  wp_steps. change (id s) with s. eapply wp_lift_opt; [exact Hck|].
  destruct (Z.ltb_spec 1480 (Z.of_nat (length p))); [lia|]. fold s1 (ip_packet s dst proto ck p).
  unfold resolved in Hm. destruct (dst =? BROADCAST_IP).
  { simplify_eq. by apply (wp_known _ _ _ _ _ (He _)). }
  fold (next_hop_of (g_net s) dst). unfold arp_resolve. wp_steps.
  change (g_net s1) with (g_net s). change (arp_cache s1) with (arp_cache s).
  destruct (_ || _); wp_steps.
  { simplify_eq. by apply (wp_known _ _ _ _ _ (He _)). }
  destruct (arp_find _ _) as [i|]; [|done]. simpl in Hm. wp_steps. change (arp_cache s1) with (arp_cache s). rewrite Hm.
  by apply (wp_known _ _ _ _ _ (He _)).
Qed.
