(* ===== verification/NetRecv.v ===== *)
(** * Receiving, and datagrams from end to end

    A frame built by [ip_send] reaches the protocol handler with the payload
    and the addresses of its sender; a datagram sent with [udp_send] is
    delivered once, unchanged, with the sender's address and port. *)

From S2P Require Import Prelude Loops Codec Ring Aes Net NetSum.

Section recv.
Context (poll : M net unit).

Definition ip_dispatch (proto src : Z) (p : list Z) : M net unit :=
  if proto =? IP_PROTO_ICMP then icmp_process poll src p
  else if proto =? IP_PROTO_UDP then udp_process poll src p
  else if proto =? IP_PROTO_TCP then tcp_process poll src p
  else mret tt.

(** The addresses a host takes packets for: any while it has none. *)
Definition accepts (c : net_config) (dst : Z) : bool :=
  negb (configured c) || (dst =? ip c) || (dst =? BROADCAST_IP) || (dst =? broadcast_of c).

Lemma accepts_negb c dst :
  configured c && negb (dst =? ip c) && negb (dst =? BROADCAST_IP) && negb (dst =? broadcast_of c) =
  negb (accepts c dst).
Proof. unfold accepts. by destruct (configured c), (_ =? ip c), (_ =? BROADCAST_IP), (_ =? _). Qed.

Lemma slice_app_drop (h p : list Z) n : length h = n → slice (h ++ p) n (length p) = p.
Proof. intros <-. unfold slice. rewrite drop_app_length. by rewrite take_ge. Qed.

Lemma ip_process_packet id proto src dst ck p s :
  20 + Z.of_nat (length p) < 2 ^ 16 → 0 ≤ src < 2 ^ 32 → 0 ≤ dst < 2 ^ 32 →
  accepts (g_net s) dst = true →
  ip_process poll (ip_header (20 + Z.of_nat (length p)) id proto src dst ck ++ p) s =
  ip_dispatch proto src p s.
Proof.
  intros Hp Hs Hd Ha. unfold ip_process.
  set (h := ip_header _ id proto src dst ck). rewrite length_app.
  change (length h) with 20%nat.
  destruct (Z.ltb_spec (Z.of_nat (20 + length p)) 20); [lia|].
  change (at_ (h ++ p) 0) with 0x45. change (Z.shiftr 0x45 4) with 4.
  change (u8 (Z.land 0x45 0x0F * 4)) with 20. change (4 =? 4) with true. change (20 <? 20) with false.
  destruct (Z.ltb_spec (Z.of_nat (20 + length p)) 20); [lia|].
  replace (n_be16 (h ++ p) 2) with (20 + Z.of_nat (length p))
    by (symmetry; apply (be16_at [0x45; 0] (20 + Z.of_nat (length p)) (drop 4 h ++ p) 2); [lia|done]).
  destruct (Z.ltb_spec (Z.of_nat (20 + length p)) (20 + Z.of_nat (length p))); [lia|].
  destruct (Z.ltb_spec (20 + Z.of_nat (length p)) 20); [lia|].
  change (at_ (h ++ p) 9) with proto.
  replace (n_be32 (h ++ p) 12) with src
    by (symmetry; by apply (be32_at (take 12 h) src (drop 16 h ++ p) 12)).
  replace (n_be32 (h ++ p) 16) with dst by (symmetry; by apply (be32_at (take 16 h) dst p 16)).
  change (negb true || false || false) with false. cbv iota. unfold gets, mbind, M_bind. cbv beta iota. rewrite accepts_negb, Ha. simpl negb. cbv iota.
  replace (Z.to_nat (20 + Z.of_nat (length p) - 20)) with (length p) by lia.
  rewrite (slice_app_drop h p (Z.to_nat 20)) by done. done.
Qed.

Lemma wp_learn_gateway m v s : wp (learn_gateway m v) (λ _ s', ∃ c, s' = set_arp c s) s.
Proof.
  assert (∃ c, s = set_arp c s) as H0 by (exists (arp_cache s); by destruct s).
  unfold learn_gateway. wp_steps. destruct (arp_find v _); wp_steps; [done|].
  destruct (arp_find _ _); wp_steps; [done|]. destruct (negb _); wp_steps; [|done].
  destruct (arp_free _); wp_steps; [|done]. by eexists.
Qed.

Lemma wp_net_rx_ip dm sm pkt (Q : unit → net → Prop) s :
  length dm = 6%nat → length sm = 6%nat →
  (∀ c, wp (ip_process poll pkt) Q (set_arp c s)) →
  wp (net_rx poll (eth_frame dm sm 0x0800 pkt)) Q s.
Proof.
  intros Hd Hs Hw. unfold net_rx.
  assert (length (eth_frame dm sm 0x0800 pkt) = 14 + length pkt)%nat as Hl.
  { unfold eth_frame. rewrite !length_app. simpl. lia. }
  rewrite Hl. destruct (Nat.ltb_spec (14 + length pkt) 14); [lia|].
  replace (n_be16 (eth_frame dm sm 0x0800 pkt) 12) with 0x0800.
  2:{ symmetry. unfold eth_frame. rewrite app_assoc. apply be16_at; [lia|]. rewrite length_app. lia. }
  replace (drop 14 (eth_frame dm sm 0x0800 pkt)) with pkt.
  2:{ unfold eth_frame. rewrite !app_assoc. rewrite drop_app_length'; [done|]. rewrite !length_app. simpl. lia. }
  apply wp_bind. change (0x0800 =? 0x0800) with true. rewrite andb_true_l. destruct (20 <=? length pkt)%nat.
  - eapply wp_mono; [apply wp_learn_gateway|]. intros ? ? [c ->]. apply Hw.
  - apply wp_ret. destruct s. apply (Hw _).
Qed.

(** ** Datagrams *)

Definition udp_packet (sport dport : Z) (data : list Z) : list Z :=
  n_put16 sport ++ n_put16 dport ++ n_put16 (8 + Z.of_nat (length data)) ++ n_put16 0 ++ data.

(** What a datagram for a port does. *)
Definition udp_receive (src sport dport : Z) (data : list Z) : M net unit :=
  bs ← gets udp_bindings;
  match udp_find dport bs with
  | Some (_, b) =>
      match b_cb b with
      | DhcpRx => dhcp_rx poll src data
      | DnsRx => dns_rx data
      | OtherRx id => deliver (Datagram (Some id) dport src sport data)
      end
  | None =>
      h ← gets g_udp_socket_handler;
      if h : bool then deliver (Datagram None dport src sport data) else mret tt
  end.

Lemma udp_process_packet src sport dport data s :
  0 ≤ sport < 2 ^ 16 → 0 ≤ dport < 2 ^ 16 → 8 + Z.of_nat (length data) < 2 ^ 16 →
  udp_process poll src (udp_packet sport dport data) s = udp_receive src sport dport data s.
Proof.
  intros Hsp Hdp Hl. unfold udp_process.
  assert (length (udp_packet sport dport data) = 8 + length data)%nat as ->
    by (unfold udp_packet; rewrite !length_app; simpl; lia).
  destruct (Z.ltb_spec (Z.of_nat (8 + length data)) 8); [lia|].
  replace (n_be16 (udp_packet sport dport data) 0) with sport
    by (symmetry; by apply (be16_at [] sport _ 0)).
  replace (n_be16 (udp_packet sport dport data) 2) with dport
    by (symmetry; by apply (be16_at (n_put16 sport) dport _ 2)).
  replace (n_be16 (udp_packet sport dport data) 4) with (8 + Z.of_nat (length data))
    by (symmetry; apply (be16_at (n_put16 sport ++ n_put16 dport) (8 + Z.of_nat (length data)) _ 4);
        [lia|done]).
  destruct (Z.ltb_spec (Z.of_nat (8 + length data)) (8 + Z.of_nat (length data))); [lia|].
  destruct (Z.ltb_spec (8 + Z.of_nat (length data)) 8); [lia|].
  replace (Z.to_nat (8 + Z.of_nat (length data) - 8)) with (length data) by lia.
  unfold udp_packet. rewrite !app_assoc, (slice_app_drop _ data 8) by done. done.
Qed.
End recv.

(** The callback that takes datagrams for a port, when it is one outside the
    file: a bound one, or the socket layer. *)
Definition taker (s : net) (port : Z) : option (option Z) :=
  match udp_find port (udp_bindings s) with
  | Some (_, UdpBinding _ (OtherRx id) _) => Some (Some id)
  | Some _ => None
  | None => if g_udp_socket_handler s then Some None else None
  end.

Lemma udp_receive_taker poll src sport dport data s t :
  taker s dport = Some t →
  udp_receive poll src sport dport data s = deliver (Datagram t dport src sport data) s.
Proof.
  unfold taker, udp_receive, gets. unfold mbind, M_bind.
  destruct (udp_find dport (udp_bindings s)) as [[i [? [| |id] ?]]|]; simpl; [done|done| |].
  - by intros [= <-].
  - destruct (g_udp_socket_handler s); [|done]. by intros [= <-].
Qed.

(** C28: a datagram from one host to another.  When the sender knows the
    hardware address of the next hop (or broadcasts) and the interface takes the
    frame, [udp_send] returns 0 after putting exactly one frame on the wire; and
    any host that accepts the destination address and has a receiver on the port
    hands that receiver exactly one datagram, with the data, the sender's
    address and both ports unchanged, and changes nothing else but the address
    cache. *)
Theorem udp_end_to_end pollA pollB a b dst dport sport data m t :
  Z.of_nat (length data) ≤ 1472 → 0 ≤ sport < 2 ^ 16 → 0 ≤ dport < 2 ^ 16 →
  0 ≤ dst < 2 ^ 32 → 0 ≤ ip (g_net a) < 2 ^ 32 →
  length (mac (g_net a)) = 6%nat → length m = 6%nat →
  resolved a dst = Some m → tx_status (n_nic a) (tx_calls (n_nic a)) = 0 →
  accepts (g_net b) dst = true → taker b dport = Some t →
  ∃ frame a' cache',
    udp_send pollA dst dport sport data a = Some (0, a') ∧
    sent (n_nic a') = sent (n_nic a) ++ [frame] ∧ sends a a' ∧
    net_rx pollB frame b =
      deliver (Datagram t dport (ip (g_net a)) sport data) (set_arp cache' b).
Proof.
  intros Hl Hsp Hdp Hd Hi Hma Hm Hres Htx Hacc Ht.
  assert (length (udp_packet sport dport data) = 8 + length data)%nat as Hul
    by (unfold udp_packet; rewrite !length_app; simpl; lia).
  destruct (ip_send_resolved pollA dst IP_PROTO_UDP (udp_packet sport dport data) a m)
    as (ck & Hck & _ & Hs); [lia|done|].
  set (f := eth_frame _ _ _ _) in Hs. rewrite Htx in Hs.
  assert (wp (net_rx pollB f) (λ _ b', ∃ cache', Some (tt, b') =
    deliver (Datagram t dport (ip (g_net a)) sport data) (set_arp cache' b)) b) as Hw.
  { apply wp_net_rx_ip; [done..|]. intros c. eapply wp_known; [|by exists c].
    etransitivity; [apply ip_process_packet; (done || lia)|].
    etransitivity; [apply (udp_process_packet pollB); (done || lia)|].
    etransitivity; [by apply udp_receive_taker|reflexivity]. }
  apply wp_run in Hw as ([] & b' & Hb & cache' & Hc).
  exists f. eexists _, cache'. split_and!; [| | |by rewrite Hb].
  - unfold udp_send. rewrite u16_small by lia.
    destruct (Z.ltb_spec 1480 (8 + Z.of_nat (length data))); [lia|].
    destruct (Z.ltb_spec 1472 (Z.of_nat (length data))); [lia|]. exact Hs.
  - unfold transmit. simpl. by rewrite Htx.
  - eapply sends_trans; [apply sends_ip_id|apply sends_transmit].
Qed.

(** A host of the network 10.0.2.0/24 with the hardware address of one other. *)
Definition lan_host (addr peer : Z) (conns : list tcp_conn) : net :=
  Net (NetConfig addr 0xFFFFFF00 0x0A000202 0 (replicate 6 (u8 addr)) true)
    [ArpEntry peer (replicate 6 (u8 peer)) true false] 7 [] 49152 true (Dhcp 0 0 0 0 0) conns 0 0
    (Dns 0 false 0 []) (Nic (λ _, []) 0 (λ _, 0) 0 [] []).

Lemma udp_end_to_end_witness :
  ∃ frame a' cache',
    udp_send nested_poll 0x0A000203 5000 6000 [1; 2; 3] (lan_host 0x0A000204 0x0A000203 []) = Some (0, a') ∧
    sent (n_nic a') = [] ++ [frame] ∧ sends (lan_host 0x0A000204 0x0A000203 []) a' ∧
    net_rx nested_poll frame (lan_host 0x0A000203 0x0A000204 []) =
      deliver (Datagram None 5000 0x0A000204 6000 [1; 2; 3])
        (set_arp cache' (lan_host 0x0A000203 0x0A000204 [])).
Proof.
  apply (udp_end_to_end nested_poll nested_poll (lan_host 0x0A000204 0x0A000203 [])
    (lan_host 0x0A000203 0x0A000204 []) 0x0A000203 5000 6000 [1; 2; 3] (replicate 6 3) None);
    (reflexivity || (simpl; lia)).
Defined.
