(* ===== verification/NetTcp.v ===== *)
(** * TCP: the receiver and the stream

    An abstract receiver takes in-order segments of its peer's byte stream into
    a bounded buffer and hands the bytes out in order.  The receive path of a
    connection refines it for every sequence of segments (in order, duplicated,
    reordered or beyond the buffer) and reads. *)

From S2P Require Import Prelude Loops Codec Ring Aes Net NetSum NetRecv.

#[local] Opaque TCP_RX_BUF_SIZE.

Abbreviation conn_ring c q :=
  (ring_inv TCP_RX_BUF_SIZE (rx_buf c) (rx_head c) (rx_tail c) q).

Lemma rx_size : TCP_RX_BUF_SIZE = 1048576.
Proof. done. Qed.

(** ** The ring of a connection *)

Lemma tcp_buffer_ring p c q :
  conn_ring c q →
  ∃ c', tcp_buffer p c = Some (Z.min (Z.of_nat (length p)) (TCP_RX_BUF_SIZE - 1 - Z.of_nat (length q)), c') ∧
    (∃ b h, c' = set_rx b h (rx_tail c) c) ∧
    conn_ring c' (q ++ take (Z.to_nat (TCP_RX_BUF_SIZE - 1 - Z.of_nat (length q))) p).
Proof.
  revert c q. induction p as [|x p IH]; intros c q Hr; simpl; pose proof (ri_count _ _ _ _ _ Hr).
  - exists c. split_and!; [by rewrite Z.min_l by lia|by exists (rx_buf c), (rx_head c); destruct c|].
    by rewrite take_nil, app_nil_r.
  - rewrite (ring_is_full _ _ _ _ _ Hr). destruct (Z.eqb_spec (Z.of_nat (length q)) (TCP_RX_BUF_SIZE - 1)) as [E|E].
    + exists c. split_and!; [by rewrite Z.min_r, E, Z.sub_diag by lia| |].
      * by exists (rx_buf c), (rx_head c); destruct c.
      * by rewrite E, Z.sub_diag, app_nil_r.
    + destruct (ring_put _ _ _ _ _ x Hr) as (b & Hb & Hr'); [lia|]. rewrite Hb. simpl.
      destruct (IH (set_rx b ((rx_head c + 1) mod TCP_RX_BUF_SIZE) (rx_tail c) c) (q ++ [x]) Hr')
        as (c' & Hc & (b' & h' & ->) & Hr2).
      rewrite Hc. simpl. rewrite length_app in *. simpl in *. eexists. split_and!.
      * do 2 f_equal. lia.
      * by exists b', h'.
      * replace (Z.to_nat (TCP_RX_BUF_SIZE - 1 - Z.of_nat (length q)))
          with (S (Z.to_nat (TCP_RX_BUF_SIZE - 1 - Z.of_nat (length q + 1)))) by lia.
        simpl take. by rewrite <-app_assoc in Hr2.
Qed.

Lemma tcp_unbuffer_ring n c q :
  conn_ring c q → (n ≤ length q)%nat →
  ∃ c', tcp_unbuffer n c = Some (take n q, c') ∧
    (∃ t, c' = set_rx (rx_buf c) (rx_head c) t c) ∧ conn_ring c' (drop n q).
Proof.
  revert c q. induction n as [|n IH]; intros c q Hr Hn; simpl.
  - exists c. split_and!; [done|by exists (rx_tail c); destruct c|done].
  - destruct q as [|x q]; [simpl in Hn; lia|]. destruct (ring_get _ _ _ _ _ _ Hr) as [-> Hr']. simpl.
    destruct (IH (set_rx (rx_buf c) (rx_head c) ((rx_tail c + 1) mod TCP_RX_BUF_SIZE) c) q Hr')
      as (c' & Hc & (t & ->) & Hr2); [simpl in Hn; lia|].
    rewrite Hc. simpl. eexists. split_and!; [done|by exists t|done].
Qed.

Lemma tcp_available_ring c q : conn_ring c q → tcp_available c = Z.of_nat (length q).
Proof.
  intros [Hn Ht Hc Hh _]. unfold tcp_available. rewrite Hh, mod_wrap by lia. bool_cases; lia.
Qed.

(** ** Connections *)

(** A change that keeps the address of connection [i] keeps every look-up. *)
Lemma find_alter {A} (P : A → Prop) `{!∀ x, Decision (P x)} (f : A → A) i l :
  (∀ x, l !! i = Some x → P (f x) ↔ P x) →
  fst <$> list_find P (alter f i l) = fst <$> list_find P l.
Proof.
  revert i. induction l as [|x l IH]; intros [|i] Hf; simpl in *; [done|done| |].
  - specialize (Hf x eq_refl). destruct (decide (P (f x))), (decide (P x)); tauto.
  - destruct (decide (P x)); [done|]. specialize (IH i Hf). change (list_alter f i l) with (alter f i l).
    destruct (list_find P (alter f i l)) as [[]|], (list_find P l) as [[]|]; by simplify_eq/=.
Qed.

Definition same_peer (c c' : tcp_conn) : Prop :=
  active c' = active c ∧ remote_ip c' = remote_ip c ∧ remote_port c' = remote_port c ∧
  local_port c' = local_port c.

Lemma tcp_match_alter ra rp lp (f : tcp_conn → tcp_conn) i cs :
  (∀ c, cs !! i = Some c → same_peer c (f c)) →
  tcp_match ra rp lp (alter f i cs) = tcp_match ra rp lp cs.
Proof.
  intros Hf. apply find_alter. intros c Hc. by destruct (Hf c Hc) as (-> & -> & -> & ->).
Qed.

Lemma tcp_match_lookup ra rp lp i cs : tcp_match ra rp lp cs = Some i →
  ∃ c, cs !! i = Some c ∧ active c = true ∧ remote_ip c = ra ∧ remote_port c = rp ∧ local_port c = lp.
Proof.
  unfold tcp_match. destruct (list_find _ cs) as [[j c]|] eqn:E; [|done]. intros [= <-].
  apply list_find_Some in E as (Hc & HP & _). exists c. split; [done|].
  apply Is_true_true in HP. b2p. done.
Qed.

(** A segment whose connection exists. *)
Lemma tcp_process_segment poll peer fl ck p src s i :
  0 ≤ local_port peer < 2 ^ 16 → 0 ≤ remote_port peer < 2 ^ 16 → 0 ≤ seq_num peer < 2 ^ 32 →
  tcp_match src (local_port peer) (remote_port peer) (tcp_conns s) = Some i →
  tcp_process poll src (tcp_header peer fl ck ++ p) s = tcp_segment poll i (seq_num peer) fl p s.
Proof.
  intros Hlp Hrp Hsq Hm. unfold tcp_process. set (h := tcp_header peer fl ck).
  assert (length (h ++ p) = 20 + length p)%nat as -> by (rewrite length_app; done).
  destruct (Z.ltb_spec (Z.of_nat (20 + length p)) 20); [lia|].
  change (u8 (Z.shiftr (at_ (h ++ p) 12) 4 * 4)) with 20. change (at_ (h ++ p) 13) with fl.
  destruct (Z.ltb_spec (Z.of_nat (20 + length p)) 20); [lia|].
  replace (n_be16 (h ++ p) 0) with (local_port peer)
    by (symmetry; by apply (be16_at [] (local_port peer) (drop 2 h ++ p) 0)).
  replace (n_be16 (h ++ p) 2) with (remote_port peer)
    by (symmetry; by apply (be16_at (take 2 h) (remote_port peer) (drop 4 h ++ p) 2)).
  replace (n_be32 (h ++ p) 4) with (seq_num peer)
    by (symmetry; by apply (be32_at (take 4 h) (seq_num peer) (drop 8 h ++ p) 4)).
  unfold gets, mbind, M_bind. cbv beta iota. rewrite Hm.
  change (drop (Z.to_nat 20) (h ++ p)) with p. done.
Qed.

(** ** The abstract receiver *)

(** How much of the peer's stream was taken in, and how much of that was read. *)
Record stream := Stream { received : nat; consumed : nat }.

(** What happens to a connection: a segment with the bytes [k .. k + n) of the
    stream under header [hdr] arrives, or the owner reads at most [m] bytes. *)
Inductive event :=
  | Segment (hdr : tcp_conn) (fl ck : Z) (k n : nat)
  | Read (m : nat).

Definition room (st : stream) : nat :=
  Z.to_nat (TCP_RX_BUF_SIZE - 1 - Z.of_nat (received st - consumed st)).

Definition stream_step (data : list Z) (st : stream) (e : event) : list Z * stream :=
  match e with
  | Segment _ _ _ k n =>
      ([], if decide (k = received st)
           then Stream (received st + min (length (slice data k n)) (room st)) (consumed st) else st)
  | Read m =>
      let n := min m (received st - consumed st) in
      (slice data (consumed st) n, Stream (received st) (consumed st + n))
  end.
Fixpoint stream_run (data : list Z) (st : stream) (es : list event) : list (list Z) * stream :=
  match es with
  | [] => ([], st)
  | e :: es =>
      let '(out, st) := stream_step data st e in
      let '(outs, st) := stream_run data st es in (out :: outs, st)
  end.

(** The same events on the stack. *)
Definition run_event (data : list Z) (src : Z) (i : nat) (e : event) : M net (list Z) :=
  match e with
  | Segment hdr fl ck k n =>
      tcp_process nested_poll src (tcp_header hdr fl ck ++ slice data k n);; mret []
  | Read m => r ← tcp_recv (Z.of_nat i) (Z.of_nat m); mret r.2
  end.
Fixpoint run_events (data : list Z) (src : Z) (i : nat) (es : list event) : M net (list (list Z)) :=
  match es with
  | [] => mret []
  | e :: es => out ← run_event data src i e; outs ← run_events data src i es; mret (out :: outs)
  end.

Section receiver.
(** The peer's address and ports, its first sequence number, and its stream. *)
Context (cfg : net_config) (ra rp lp isn : Z) (data : list Z) (i : nat).
Context (Hrp : 0 ≤ rp < 2 ^ 16) (Hlp : 0 ≤ lp < 2 ^ 16) (Hdata : Z.of_nat (length data) < 2 ^ 32).

(** A segment of this peer, with its own bytes, that neither resets nor ends
    the connection. *)
Definition event_ok (e : event) : Prop :=
  match e with
  | Segment hdr fl _ k n =>
      local_port hdr = rp ∧ remote_port hdr = lp ∧ seq_num hdr = u32 (isn + Z.of_nat k) ∧
      flag fl TCP_RST = false ∧ flag fl TCP_FIN = false ∧ (k + n ≤ length data)%nat
  | Read _ => True
  end.

Definition tcp_rel (st : stream) (s : net) : Prop :=
  g_net s = cfg ∧ tcp_match ra rp lp (tcp_conns s) = Some i ∧ (i < TCP_MAX_CONNECTIONS)%nat ∧
  (consumed st ≤ received st ≤ length data)%nat ∧
  ∃ c, tcp_conns s !! i = Some c ∧ state_ c = TCP_ESTABLISHED ∧
    ack_num c = u32 (isn + Z.of_nat (received st)) ∧
    conn_ring c (slice data (consumed st) (received st - consumed st)).

Lemma tcp_rel_sends st s s' : tcp_rel st s → sends s s' → tcp_rel st s'.
Proof. intros H (j & fs & k & ->). exact H. Qed.

(** A new value of the connection that keeps the peer and the state. *)
Lemma tcp_rel_update st st' s c c' :
  tcp_rel st s → tcp_conns s !! i = Some c → same_peer c c' → state_ c' = TCP_ESTABLISHED →
  (consumed st' ≤ received st' ≤ length data)%nat →
  ack_num c' = u32 (isn + Z.of_nat (received st')) →
  conn_ring c' (slice data (consumed st') (received st' - consumed st')) →
  tcp_rel st' (set_tcp (alter (λ _, c') i (tcp_conns s)) (tcp_next_port s) (isn_counter s) s).
Proof.
  intros (Hg & Hm & Hi & _) Hc Hp Hs Hr Ha Hq. split_and!; [done| |done|lia|lia|].
  - cbn [tcp_conns set_tcp]. rewrite tcp_match_alter; [done|]. intros c0 H0. by simplify_eq.
  - exists c'. split_and!; [|done..]. cbn [tcp_conns set_tcp].
    by rewrite list_lookup_alter_eq, Hc.
Qed.
End receiver.

Lemma seq_inj isn (k r : nat) :
  Z.of_nat k < 2 ^ 32 → Z.of_nat r < 2 ^ 32 →
  u32 (isn + Z.of_nat k) = u32 (isn + Z.of_nat r) → k = r.
Proof.
  unfold u32. intros Hk Hr E.
  pose proof (Z.div_mod (isn + Z.of_nat k) (2 ^ 32)). pose proof (Z.div_mod (isn + Z.of_nat r) (2 ^ 32)).
  lia.
Qed.

Lemma wp_send_ctl j fl c s :
  tcp_conns s !! j = Some c → wp (send_ctl nested_poll j fl) (λ _ s', sends s s') s.
Proof.
  intros Hc. unfold send_ctl, conn. apply wp_bind. eapply wp_lift_opt; [exact Hc|].
  apply wp_bind. eapply wp_mono; [apply wp_tcp_send_segment; simpl; lia|]. intros ? s' Hs. by apply wp_ret.
Qed.

Lemma length_slice (l : list Z) o n : (o + n ≤ length l)%nat → length (slice l o n) = n.
Proof. intros H. unfold slice. rewrite length_take, length_drop. lia. Qed.

Lemma slice_take (l : list Z) o n m : take m (slice l o n) = slice l o (min m n).
Proof. unfold slice. by rewrite take_take. Qed.

Lemma slice_drop (l : list Z) o n m : drop m (slice l o n) = slice l (o + m) (n - m).
Proof. unfold slice. by rewrite skipn_firstn_comm, drop_drop. Qed.

Lemma slice_add (l : list Z) o n o' m :
  o' = (o + n)%nat → slice l o n ++ slice l o' m = slice l o (n + m).
Proof. intros ->. unfold slice. rewrite <-drop_drop. by rewrite take_take_drop. Qed.

Section refinement.
Context (cfg : net_config) (ra rp lp isn : Z) (data : list Z) (i : nat).
Context (Hrp : 0 ≤ rp < 2 ^ 16) (Hlp : 0 ≤ lp < 2 ^ 16) (Hdata : Z.of_nat (length data) < 2 ^ 32).

Abbreviation rel := (tcp_rel cfg ra rp lp isn data i).

(** A segment in the established state. *)
Lemma wp_established st s fl k n :
  rel st s → flag fl TCP_FIN = false → (k + n ≤ length data)%nat →
  wp (tcp_established nested_poll i (u32 (isn + Z.of_nat k)) fl (slice data k n))
    (λ _ s', rel (stream_step data st (Segment tcp_zero fl 0 k n)).2 s') s.
Proof.
  intros HR Hf Hk. pose proof HR as (Hg & Hm & Hi & Hle & c & Hc & Hst & Ha & Hq).
  unfold tcp_established. apply wp_bind. eapply wp_lift_opt; [exact Hc|].
  cbn [stream_step snd]. rewrite !(length_slice data k n) by done.
  destruct (Z.eqb_spec (Z.of_nat n) 0) as [E|E]; simpl negb; cbv iota.
  { rewrite Hf. apply wp_ret. case_decide; [|done]. replace n with 0%nat by lia. simpl.
    rewrite Nat.add_0_r. by destruct st. }
  rewrite Ha. destruct (Z.eqb_spec (u32 (isn + Z.of_nat k)) (u32 (isn + Z.of_nat (received st)))) as [Es|Es];
    simpl negb; cbv iota.
  - apply seq_inj in Es; [|lia|lia]. subst k. rewrite decide_True by done.
    destruct (tcp_buffer_ring (slice data (received st) n) c _ Hq) as (c' & Hb & (b & h & ->) & Hq').
    rewrite (length_slice data (received st)), (length_slice data (consumed st)) in Hb by lia.
    rewrite (length_slice data (consumed st)), slice_take in Hq' by lia.
    rewrite slice_add in Hq' by lia. fold (room st) in Hq'.
    apply wp_bind. eapply wp_lift_opt; [exact Hb|]. cbv iota. unfold on_conn. wp_steps. rewrite Hf.
    set (w := min n (room st)).
    assert (Z.min (Z.of_nat n) (TCP_RX_BUF_SIZE - 1 - Z.of_nat (received st - consumed st)) = Z.of_nat w) as ->.
    { pose proof (ri_count _ _ _ _ _ Hq) as Hcnt. rewrite length_slice in Hcnt by lia. unfold w, room. lia. }
    eapply wp_mono.
    + eapply wp_send_ctl. cbn [tcp_conns set_tcp]. rewrite list_lookup_alter_eq, Hc. done.
    + intros ? s' Hs. cbv beta. eapply tcp_rel_sends; [|exact Hs].
      assert (w ≤ n)%nat by (unfold w; lia).
      eapply (tcp_rel_update cfg ra rp lp isn data i st (Stream (received st + w) (consumed st)));
        [exact HR|exact Hc|done|exact Hst|simpl; lia| |].
      * cbn [ack_num set_ack received]. unfold u32. rewrite Z.add_mod_idemp_l by lia. f_equal. lia.
      * cbn [received consumed rx_buf rx_head rx_tail set_ack set_rx] in *.
        replace (received st + w - consumed st)%nat with (received st - consumed st + min (room st) n)%nat
          by (unfold w; lia). exact Hq'.
  - rewrite decide_False by (intros ->; done).
    eapply wp_mono; [by eapply wp_send_ctl|]. intros ? s' Hs. by eapply tcp_rel_sends.
Qed.

Lemma wp_tcp_recv st s m :
  rel st s →
  let '(out, st') := stream_step data st (Read m) in
  wp (tcp_recv (Z.of_nat i) (Z.of_nat m))
    (λ r s', r = (Z.of_nat (length out), out) ∧ rel st' s') s.
Proof.
  intros HR. pose proof HR as (Hg & Hm & Hi & Hle & c & Hc & Hst & Ha & Hq).
  cbn [stream_step]. set (q := slice data (consumed st) (received st - consumed st)) in *.
  assert (length q = received st - consumed st)%nat as Hlq by (apply length_slice; lia).
  unfold tcp_recv. destruct (Z.ltb_spec (Z.of_nat i) 0); [lia|].
  destruct (Z.leb_spec (Z.of_nat TCP_MAX_CONNECTIONS) (Z.of_nat i)); [lia|]. simpl orb. cbv iota.
  rewrite Nat2Z.id. apply wp_bind. eapply wp_lift_opt; [exact Hc|].
  rewrite (tcp_available_ring c q Hq), Hlq.
  destruct (Z.eqb_spec (Z.of_nat (received st - consumed st)) 0) as [E|E].
  { wp_steps. replace (received st - consumed st)%nat with 0%nat by lia. rewrite Nat.min_0_r. simpl.
    rewrite Nat.add_0_r. split; [done|]. by destruct st. }
  set (w := min m (received st - consumed st)).
  replace (if Z.of_nat m <? Z.of_nat (received st - consumed st) then Z.of_nat m
    else Z.of_nat (received st - consumed st)) with (Z.of_nat w) by (unfold w; bool_cases; lia).
  rewrite Nat2Z.id. destruct (tcp_unbuffer_ring w c q Hq) as (c' & Hu & (t & ->) & Hq'); [unfold w; lia|].
  apply wp_bind. eapply wp_lift_opt; [exact Hu|]. cbv iota. unfold on_conn. wp_steps.
  assert (w ≤ received st - consumed st)%nat by (unfold w; lia). split.
  - unfold q. rewrite slice_take, length_slice by lia. do 2 f_equal. lia.
  - eapply (tcp_rel_update cfg ra rp lp isn data i st (Stream (received st) (consumed st + w)));
      [exact HR|exact Hc|done|exact Hst|simpl; lia|exact Ha|].
    cbn [received consumed rx_buf rx_head rx_tail set_rx] in *. unfold q in Hq'.
    rewrite slice_drop in Hq'.
    replace (received st - (consumed st + w))%nat with (received st - consumed st - w)%nat by lia.
    exact Hq'.
Qed.

Lemma wp_run_event st s e :
  rel st s → event_ok rp lp isn data e →
  wp (run_event data ra i e) (λ out s', out = (stream_step data st e).1 ∧ rel (stream_step data st e).2 s') s.
Proof.
  intros HR He. pose proof HR as (Hg & Hm & Hi & Hle & c & Hc & Hst & Ha & Hq).
  destruct e as [hdr fl ck k n|m]; unfold run_event; apply wp_bind.
  - destruct He as (E1 & E2 & E3 & Hrst & Hfin & Hk).
    assert (wp (tcp_segment nested_poll i (seq_num hdr) fl (slice data k n))
      (λ _ s', rel (stream_step data st (Segment hdr fl ck k n)).2 s') s) as Hw.
    { unfold tcp_segment. rewrite Hrst, E3. apply wp_bind. eapply wp_lift_opt; [exact Hc|]. rewrite Hst.
      by apply wp_established. }
    apply wp_run in Hw as (r & s' & Hr & HR').
    eapply wp_known; [|by apply wp_ret].
    rewrite <-Hr. apply tcp_process_segment; rewrite ?E1, ?E2, ?E3; try done. apply u32_range.
  - pose proof (wp_tcp_recv st s m HR) as Hw. cbn [stream_step] in *.
    eapply wp_mono; [exact Hw|]. intros r s' [-> HR']. by apply wp_ret.
Qed.

Lemma wp_run_events es st s :
  rel st s → Forall (event_ok rp lp isn data) es →
  wp (run_events data ra i es) (λ outs s', outs = (stream_run data st es).1 ∧ rel (stream_run data st es).2 s') s.
Proof.
  revert st s. induction es as [|e es IH]; intros st s HR Hes; simpl.
  { by wp_steps. }
  inversion_clear Hes as [|?? He Hes']. wp_steps.
  eapply wp_mono; [by apply wp_run_event|]. intros out s1 [-> HR1].
  destruct (stream_step data st e) as [out st1] eqn:E1. cbn [fst snd] in *. wp_steps.
  eapply wp_mono; [by apply IH|]. intros outs s2 [-> HR2]. wp_steps.
  by destruct (stream_run data st1 es).
Qed.
End refinement.

(** The bytes handed out are consecutive bytes of the stream. *)
Lemma stream_run_prefix data es st :
  (consumed st ≤ received st)%nat →
  let '(outs, st') := stream_run data st es in
  (consumed st ≤ consumed st' ≤ received st')%nat ∧ (received st ≤ received st')%nat ∧
  concat outs = slice data (consumed st) (consumed st' - consumed st).
Proof.
  revert st. induction es as [|e es IH]; intros st Hst; simpl.
  { rewrite Nat.sub_diag. split_and!; (done || lia). }
  destruct (stream_step data st e) as [out st1] eqn:E1.
  assert (consumed st ≤ consumed st1 ≤ received st1 ∧ received st ≤ received st1)%nat as [H1 H2].
  { destruct e; simpl in E1; simplify_eq; [case_decide|]; simpl; lia. }
  assert (out = slice data (consumed st) (consumed st1 - consumed st)) as ->.
  { destruct e; simpl in E1; simplify_eq.
    - case_decide; simpl; by rewrite Nat.sub_diag.
    - simpl. f_equal. lia. }
  specialize (IH st1). destruct (stream_run data st1 es) as [outs st2]. destruct IH as (H3 & H4 & H5); [lia|].
  split_and!; [lia..|]. simpl. rewrite H5, slice_add by lia. f_equal. lia.
Qed.


(** A connection as it is when it becomes established. *)
Definition fresh_conn (ra rp lp seq ack : Z) : tcp_conn :=
  TcpConn ra rp lp seq ack TCP_ESTABLISHED true (-1) true (rx_buf tcp_zero) 0 0.

Lemma fresh_ring ra rp lp seq ack : conn_ring (fresh_conn ra rp lp seq ack) [].
Proof.
  apply ring_start; [|rewrite rx_size; cbn [rx_head rx_tail fresh_conn]; lia].
  cbn [fresh_conn rx_buf tcp_zero]. rewrite length_replicate, rx_size. lia.
Qed.

