(* ===== verification/NetStream.v ===== *)
(** * TCP from end to end

    [tcp_send] cuts its data into segments of at most 1400 bytes; the frames it
    puts on the wire, received in order by the other side of the connection,
    give its reader exactly that data, and the two sides agree on the sequence
    number afterwards. *)

From S2P Require Import Prelude Loops Codec Ring Aes Net NetSum NetRecv NetTcp.

#[local] Opaque TCP_RX_BUF_SIZE.

(** [frames] carries the bytes [k .. k') of [data], in order, from the host with
    configuration [ca] and connection [c] to hardware address [m]. *)
Section frames.
Context (ca : net_config) (c : tcp_conn) (m data : list Z).

Definition data_frame (f : list Z) (k n : nat) : Prop :=
  ∃ id ck tck,
    f = eth_frame m (mac ca) 0x0800
      (ip_header (20 + Z.of_nat (20 + n)) id IP_PROTO_TCP (ip ca) (remote_ip c) ck ++
       (tcp_header (set_seq (u32 (seq_num c + Z.of_nat k)) c) (Z.lor TCP_ACK TCP_PSH) tck ++
        slice data k n)).

Inductive carries : list (list Z) → nat → Prop :=
  | carries_nil : carries [] 0
  | carries_snoc fs f k n :
      carries fs k → (k + n ≤ length data)%nat → (n ≤ 1400)%nat → data_frame f k n →
      carries (fs ++ [f]) (k + n).
End frames.

(** ** The sender *)

Section sender.
Context (poll : M net unit) (a : net) (j : nat) (c : tcp_conn) (m data : list Z).
Context (Hc : tcp_conns a !! j = Some c) (Hres : resolved a (remote_ip c) = Some m).
Context (Htx : ∀ n, tx_status (n_nic a) n = 0) (Hseq : 0 ≤ seq_num c < 2 ^ 32).
Context (Hlen : Z.of_nat (length data) < 2 ^ 16).

(** The state once the first [k] bytes are on the wire. *)
Definition sent_upto (k : nat) (s : net) : Prop :=
  g_net s = g_net a ∧ arp_cache s = arp_cache a ∧ tx_status (n_nic s) = tx_status (n_nic a) ∧
  tcp_conns s !! j = Some (set_seq (u32 (seq_num c + Z.of_nat k)) c) ∧
  ∃ fs, sent (n_nic s) = sent (n_nic a) ++ fs ∧ carries (g_net a) c m data fs k.

Lemma sent_upto_start : sent_upto 0 a.
Proof.
  split_and!; [done..| |].
  - rewrite Hc. f_equal. rewrite Z.add_0_r, u32_small by done. by destruct c.
  - exists []. split; [by rewrite app_nil_r|constructor].
Qed.

Lemma wp_send_chunk k n s :
  sent_upto k s → (k + n ≤ length data)%nat → (n ≤ 1400)%nat →
  wp (c ← conn j; tcp_send_segment poll c (Z.lor TCP_ACK TCP_PSH) (slice data k n);;
      bump_seq j (Z.of_nat n)) (λ _ s', sent_upto (k + n) s') s.
Proof.
  intros (Hg & Harp & Hst & Hcs & fs & Hsent & Hcar) Hkn Hn.
  unfold conn. apply wp_bind. eapply wp_lift_opt; [exact Hcs|]. apply wp_bind.
  unfold tcp_send_segment. rewrite !length_slice by done. rewrite (u16_small (20 + _)) by lia.
  destruct (Z.ltb_spec 1480 (20 + Z.of_nat n)); [lia|]. destruct (Z.ltb_spec 1460 (Z.of_nat n)); [lia|].
  wp_steps. set (c1 := set_seq _ c). set (sum := sum_words _ (sum_words _ 0)).
  destruct (fold_carries_spec sum) as (y & Hy & _).
  { unfold sum. apply sum_words_range, sum_words_range. lia. }
  eapply wp_lift_opt; [exact Hy|].
  set (p := tcp_header c1 _ _ ++ slice data k n).
  assert (length p = 20 + n)%nat as Hp by (unfold p; rewrite length_app, length_slice by done; done).
  assert (resolved s (remote_ip c1) = Some m) as Hres'.
  { unfold resolved. rewrite Hg, Harp. exact Hres. }
  destruct (ip_send_resolved poll (remote_ip c1) IP_PROTO_TCP p s m) as (ck & _ & _ & Hs); [lia|done|].
  eapply wp_known; [exact Hs|]. unfold bump_seq, on_conn. wp_steps.
  split_and!; [done..| |].
  - cbn [tcp_conns set_tcp transmit set_nic set_ip_id]. rewrite list_lookup_alter_eq, Hcs. simpl. f_equal.
    unfold c1, set_seq. simpl. f_equal. unfold u32. rewrite Z.add_mod_idemp_l by lia. f_equal. lia.
  - eexists (fs ++ [_]). split.
    + cbn [n_nic set_tcp transmit set_nic set_ip_id sent]. rewrite Hst, Htx, Hsent.
      simpl. rewrite <-app_assoc. reflexivity.
    + apply carries_snoc; [done..|]. exists (g_ip_id s), ck, (u16 (Z.lnot y)).
      unfold ip_packet. rewrite Hg, Hp. reflexivity.
Qed.

Lemma wp_tcp_send :
  (j < TCP_MAX_CONNECTIONS)%nat → state_ c = TCP_ESTABLISHED →
  wp (tcp_send poll (Z.of_nat j) data)
    (λ r s', r = Z.of_nat (length data) ∧ sent_upto (length data) s') a.
Proof.
  intros Hj Hst. unfold tcp_send. destruct (Z.ltb_spec (Z.of_nat j) 0); [lia|].
  destruct (Z.leb_spec (Z.of_nat TCP_MAX_CONNECTIONS) (Z.of_nat j)); [lia|]. simpl orb. cbv iota.
  rewrite Nat2Z.id. unfold conn at 1. apply wp_bind. eapply wp_lift_opt; [exact Hc|]. rewrite Hst.
  change (negb (TCP_ESTABLISHED =? TCP_ESTABLISHED)) with false. cbv iota.
  apply (wp_while _ _ (λ k s, 0 ≤ k ≤ Z.of_nat (length data) ∧ sent_upto (Z.to_nat k) s)
    (λ k _, Z.of_nat (length data) - k)); [split; [lia|apply sent_upto_start]|lia|].
  intros k s [Hk HI]. destruct (Z.ltb_spec k (Z.of_nat (length data))).
  2:{ wp_steps. split; [lia|]. by replace (length data) with (Z.to_nat k) by lia. }
  set (ch := if 1400 <? _ then _ else _).
  assert (0 < ch ≤ 1400 ∧ k + ch ≤ Z.of_nat (length data)) as [Hch Hle].
  { unfold ch. destruct (Z.ltb_spec 1400 (Z.of_nat (length data) - k)); lia. }
  pose proof (wp_send_chunk (Z.to_nat k) (Z.to_nat ch) s HI ltac:(lia) ltac:(lia)) as Hw.
  rewrite Z2Nat.id in Hw by lia. apply wp_bind.
  unfold wp, conn, mret, M_ret, mbind, M_bind in Hw |- *. destruct (lift_opt _ s) as [[c1 s1]|]; [|done].
  destruct (tcp_send_segment poll c1 _ _ s1) as [[r s2]|]; [|done].
  destruct (bump_seq j ch s2) as [[r' s3]|]; [|done]. cbv beta iota.
  rewrite u16_small by lia. split; [|lia]. split; [lia|]. by replace (Z.to_nat (k + ch)) with (Z.to_nat k + Z.to_nat ch)%nat by lia.
Qed.
End sender.

(** ** The receiver of the frames *)

Lemma wp_rx_all_app fs gs (Q : unit → net → Prop) s :
  wp (rx_all fs) (λ _ s', wp (rx_all gs) Q s') s → wp (rx_all (fs ++ gs)) Q s.
Proof.
  revert s. induction fs as [|f fs IH]; intros s; simpl; [done|].
  unfold wp, mbind, M_bind in *. destruct (net_rx _ _ _) as [[r s1]|]; [|done]. apply IH.
Qed.

Section receiver.
Context (ca cb : net_config) (c : tcp_conn) (m data : list Z) (i : nat).
Context (Hlp : 0 ≤ local_port c < 2 ^ 16) (Hrp : 0 ≤ remote_port c < 2 ^ 16).
Context (Hia : 0 ≤ ip ca < 2 ^ 32) (Hib : 0 ≤ remote_ip c < 2 ^ 32).
Context (Hma : length (mac ca) = 6%nat) (Hm : length m = 6%nat).
Context (Hacc : accepts cb (remote_ip c) = true) (Hlen : Z.of_nat (length data) < 2 ^ 16).

Abbreviation rel := (tcp_rel cb (ip ca) (local_port c) (remote_port c) (seq_num c) data i).

Lemma wp_rx_frame f k n s :
  data_frame ca c m data f k n → (k + n ≤ length data)%nat → (n ≤ 1400)%nat → rel (Stream k 0) s →
  wp (net_rx nested_poll f) (λ _ s', rel (Stream (k + n) 0) s') s.
Proof.
  intros (id & ck & tck & ->) Hkn Hn HR. apply wp_net_rx_ip; [done..|]. intros cache.
  assert (rel (Stream k 0) (set_arp cache s)) as HR' by exact HR.
  set (hdr := set_seq (u32 (seq_num c + Z.of_nat k)) c).
  set (fl := Z.lor TCP_ACK TCP_PSH).
  pose proof (wp_run_event cb (ip ca) (local_port c) (remote_port c) (seq_num c) data i Hlp Hrp
    ltac:(lia) (Stream k 0) (set_arp cache s) (Segment hdr fl tck k n) HR') as Hw.
  specialize (Hw ltac:(split_and!; done)). unfold run_event, wp, mbind, M_bind in Hw. unfold wp.
  replace (20 + Z.of_nat (20 + n))
    with (20 + Z.of_nat (length (tcp_header hdr fl tck ++ slice data k n)))
    by (rewrite length_app, length_slice by done; done).
  rewrite ip_process_packet; [|rewrite length_app, length_slice by done; change (length (tcp_header hdr fl tck)) with 20%nat; lia|done|done|].
  2:{ by destruct HR' as [-> _]. }
  change (ip_dispatch nested_poll IP_PROTO_TCP) with (tcp_process nested_poll).
  destruct (tcp_process _ _ _ _) as [[r s']|]; [|done]. destruct Hw as [_ Hw].
  cbn [stream_step snd received consumed] in Hw. rewrite decide_True in Hw by done.
  rewrite length_slice in Hw by done.
  replace (min n (room (Stream k 0))) with n in Hw; [done|].
  unfold room. cbn [received consumed]. rewrite rx_size. lia.
Qed.

Lemma wp_rx_frames fs k s :
  carries ca c m data fs k → rel (Stream 0 0) s → wp (rx_all fs) (λ _ s', rel (Stream k 0) s') s.
Proof.
  intros Hcar HR. induction Hcar as [|fs f k n Hcar IH Hkn Hn Hf]; [by wp_steps|].
  apply wp_rx_all_app. eapply wp_mono; [exact IH|]. intros ? s1 H1. simpl. wp_steps.
  eapply wp_mono; [by apply wp_rx_frame|]. intros ? s2 H2. by wp_steps.
Qed.
End receiver.

(** C27: a TCP transfer from end to end.  Let two hosts have the two ends of an
    established connection, in step (the receiver expects the sender's next
    sequence number and has read everything), the sender knowing the hardware
    address of its next hop and its interface taking every frame.  Then
    [tcp_send] accepts all of [data] (up to 65535 bytes) and puts a sequence of
    frames on the wire; when the receiver's stack has processed those frames,
    [tcp_recv] returns exactly [data], and the receiver acknowledges the
    sender's new sequence number. *)
Theorem tcp_end_to_end poll a b j i c c' m data :
  tcp_conns a !! j = Some c → (j < TCP_MAX_CONNECTIONS)%nat → state_ c = TCP_ESTABLISHED →
  0 ≤ local_port c < 2 ^ 16 → 0 ≤ remote_port c < 2 ^ 16 → 0 ≤ seq_num c < 2 ^ 32 →
  0 ≤ ip (g_net a) < 2 ^ 32 → 0 ≤ remote_ip c < 2 ^ 32 →
  length (mac (g_net a)) = 6%nat → length m = 6%nat →
  resolved a (remote_ip c) = Some m → (∀ n, tx_status (n_nic a) n = 0) →
  accepts (g_net b) (remote_ip c) = true →
  tcp_match (ip (g_net a)) (local_port c) (remote_port c) (tcp_conns b) = Some i →
  (i < TCP_MAX_CONNECTIONS)%nat → tcp_conns b !! i = Some c' → state_ c' = TCP_ESTABLISHED →
  ack_num c' = seq_num c → conn_ring c' [] →
  Z.of_nat (length data) < 2 ^ 16 →
  ∃ a' frames b' b'' c1 c2,
    tcp_send poll (Z.of_nat j) data a = Some (Z.of_nat (length data), a') ∧
    sent (n_nic a') = sent (n_nic a) ++ frames ∧
    rx_all frames b = Some (tt, b') ∧
    tcp_recv (Z.of_nat i) 65535 b' = Some ((Z.of_nat (length data), data), b'') ∧
    tcp_conns a' !! j = Some c1 ∧ tcp_conns b'' !! i = Some c2 ∧ ack_num c2 = seq_num c1.
Proof.
  intros Hc Hj Hst Hlp Hrp Hsq Hia Hib Hma Hm Hres Htx Hacc Hmt Hi Hc' Hst' Hack Hring Hlen.
  pose proof (wp_tcp_send poll a j c m data Hc Hres Htx Hsq Hlen Hj Hst) as Hw.
  apply wp_run in Hw as (r & a' & Hsend & -> & _ & _ & _ & Hca & fs & Hfs & Hcar).
  assert (tcp_rel (g_net b) (ip (g_net a)) (local_port c) (remote_port c) (seq_num c) data i (Stream 0 0) b) as HR.
  { split_and!; [done|done|done|simpl; lia|simpl; lia|]. exists c'. split_and!; [done|done| |done].
    simpl. by rewrite Z.add_0_r, u32_small. }
  pose proof (wp_rx_frames (g_net a) (g_net b) c m data i Hlp Hrp Hia Hib Hma Hm Hacc Hlen fs _ b Hcar HR) as Hw.
  apply wp_run in Hw as ([] & b' & Hrx & HR').
  pose proof (wp_tcp_recv (g_net b) (ip (g_net a)) (local_port c) (remote_port c) (seq_num c) data i
    _ b' (Z.to_nat 65535) HR') as Hw. cbn [stream_step received consumed] in Hw.
  replace (min (Z.to_nat 65535) (length data - 0)) with (length data) in Hw by lia.
  replace (slice data 0 (length data)) with data in Hw by (unfold slice; by rewrite drop_0, take_ge).
  rewrite Z2Nat.id in Hw by lia. apply wp_run in Hw as (out & b'' & Hrd & -> & HR'').
  destruct HR'' as (_ & _ & _ & _ & c2 & Hc2 & _ & Ha2 & _).
  eexists a', fs, b', b'', _, c2. by split_and!; [| | | |exact Hca| |exact Ha2].
Qed.

Lemma tcp_end_to_end_witness :
  ∃ a' frames b' b'' c1 c2,
    tcp_send nested_poll 0 [1; 2; 3] (lan_host 4 5 [fresh_conn 5 80 4000 100 7]) = Some (3, a') ∧
    sent (n_nic a') = [] ++ frames ∧
    rx_all frames (lan_host 5 4 [fresh_conn 4 4000 80 7 100]) = Some (tt, b') ∧
    tcp_recv 0 65535 b' = Some ((3, [1; 2; 3]), b'') ∧
    tcp_conns a' !! 0%nat = Some c1 ∧ tcp_conns b'' !! 0%nat = Some c2 ∧ ack_num c2 = seq_num c1.
Proof.
  apply (tcp_end_to_end nested_poll (lan_host 4 5 [fresh_conn 5 80 4000 100 7])
    (lan_host 5 4 [fresh_conn 4 4000 80 7 100]) 0 0 (fresh_conn 5 80 4000 100 7)
    (fresh_conn 4 4000 80 7 100) (replicate 6 5) [1; 2; 3]);
    try reflexivity; try (simpl; lia); try (unfold TCP_MAX_CONNECTIONS; lia).
  apply fresh_ring.
Defined.
