(* ===== verification/NetDhcp.v ===== *)
(** * DHCP: the client's side of the exchange

    The option parser ends on every datagram and reads back what a server
    encodes; a datagram changes the client only along the exchange
    (offer, request, acknowledgement). *)

From S2P Require Import Prelude Loops Codec Ring Aes Net NetSum NetRecv NetTcp.

(** ** Parsing options *)

Lemma at_lookup l i x : l !! i = Some x → at_ l i = x.
Proof. unfold at_. by intros ->. Qed.

(** Whatever the bytes, the parser ends: positions only grow. *)
Lemma dhcp_options_total data :
  bytes data → Z.of_nat (length data) ≤ 65000 → ∃ o, dhcp_options data = Some o.
Proof.
  intros Hb Hl. destruct (while_opt_rule (2 ^ 17) (option_step data) (λ st, 0 ≤ st.1 < 2 ^ 16)
    (λ st, 2 ^ 16 - st.1) (λ _, True) (240, DhcpOpts 0 0 0 0 0)) as (o & Ho & _);
    [simpl; lia|simpl; lia| |by exists o].
  intros [pos o] Hp. simpl in Hp. unfold option_step.
  destruct (Z.ltb_spec pos (Z.of_nat (length data))); [|done]. rewrite andb_true_l.
  destruct (negb _); [|done]. destruct (_ =? 0).
  { cbn [fst]. rewrite u16_small by lia. lia. }
  destruct (lookup_lt_is_Some_2 data (Z.to_nat pos)) as [x Hx]; [lia|]. rewrite Hx. simpl.
  rewrite !(u16_small (pos + 1)) by lia. destruct (Z.leb_spec (Z.of_nat (length data)) (pos + 1)); [done|].
  destruct (lookup_lt_is_Some_2 data (Z.to_nat (pos + 1))) as [y Hy]; [lia|]. rewrite Hy. simpl.
  pose proof (Forall_lookup_1 _ _ _ _ Hb Hy) as Hyb. unfold is_byte in Hyb.
  rewrite !(u16_small (pos + 1 + 1)) by lia. destruct (_ <? _); [done|]. cbn [fst].
  rewrite u16_small by lia. lia.
Qed.

(** An option as a server writes it. *)
Definition encode_opt (o : Z * list Z) : list Z := o.1 :: Z.of_nat (length o.2) :: o.2.
Definition encode_opts (os : list (Z * list Z)) : list Z := concat (map encode_opt os).
Definition opt_ok (o : Z * list Z) : Prop := 0 < o.1 < 255 ∧ (length o.2 < 256)%nat.
(** What a list of options says; a later one counts. *)
Definition opts_value (os : list (Z * list Z)) : dhcp_opts :=
  foldl (λ acc o, dhcp_option o.2 0 o.1 (Z.of_nat (length o.2)) acc) (DhcpOpts 0 0 0 0 0) os.

Lemma dhcp_option_local d d' p p' opt l o :
  (1 ≤ l → at_ d (Z.to_nat p) = at_ d' (Z.to_nat p')) →
  (4 ≤ l → n_be32 d (Z.to_nat p) = n_be32 d' (Z.to_nat p')) →
  dhcp_option d p opt l o = dhcp_option d' p' opt l o.
Proof.
  intros H1 H4. unfold dhcp_option.
  destruct (Z.leb_spec 1 l) as [L1|L1]; [rewrite H1 by done|];
    destruct (Z.leb_spec 4 l) as [L4|L4]; try rewrite H4 by done; reflexivity.
Qed.

Lemma dhcp_option_at pre v post opt o :
  dhcp_option (pre ++ v ++ post) (Z.of_nat (length pre)) opt (Z.of_nat (length v)) o =
  dhcp_option v 0 opt (Z.of_nat (length v)) o.
Proof.
  assert (∀ i, (i < length v)%nat → at_ (pre ++ v ++ post) (length pre + i) = at_ v i) as Ha.
  { intros i Hi. by rewrite at_app_r, at_app_l. }
  apply dhcp_option_local; intros Hl; rewrite Nat2Z.id.
  - rewrite <-(Nat.add_0_r (length pre)). apply Ha. lia.
  - unfold n_be32. rewrite <-(Nat.add_0_r (length pre)) at 1. rewrite !Ha by lia. done.
Qed.

Section parse.
Context (hdr rest : list Z) (os : list (Z * list Z)).
Context (Hh : length hdr = 240%nat) (Hos : Forall opt_ok os).

Abbreviation data := (hdr ++ encode_opts os ++ 255 :: rest).

Lemma dhcp_options_encoded : Z.of_nat (length data) ≤ 65000 → dhcp_options data = Some (opts_value os).
Proof.
  intros Hl. apply (while_opt_eq _ _ (λ st, ∃ done todo, os = done ++ todo ∧
    st = (240 + Z.of_nat (length (encode_opts done)), opts_value done))
    (λ st, 2 ^ 16 - st.1)); [by exists [], os|simpl; lia|].
  intros st (dn & todo & E & ->).
  assert (data = (hdr ++ encode_opts dn) ++ encode_opts todo ++ 255 :: rest) as Ed.
  { rewrite E. unfold encode_opts. by rewrite map_app, concat_app, <-!app_assoc. }
  set (pre := hdr ++ encode_opts dn) in Ed.
  assert (240 + Z.of_nat (length (encode_opts dn)) = Z.of_nat (length pre)) as ->
    by (unfold pre; rewrite length_app; lia).
  unfold option_step. rewrite Ed in Hl |- *. rewrite !length_app in Hl. simpl in Hl. rewrite Nat2Z.id.
  destruct (Z.ltb_spec (Z.of_nat (length pre)) (Z.of_nat (length (pre ++ encode_opts todo ++ 255 :: rest))));
    [|rewrite !length_app in *; simpl in *; lia].
  rewrite andb_true_l. destruct todo as [|[c v] todo].
  { rewrite (at_lookup _ _ 255); [|by rewrite lookup_app_r, Nat.sub_diag by lia]. simpl.
    by rewrite E, app_nil_r. }
  rewrite E in Hos. apply Forall_app in Hos as [_ Ht]. inversion_clear Ht as [|?? [Hc Hv] Ht']. simpl in Hc, Hv.
  assert (encode_opts ((c, v) :: todo) = c :: Z.of_nat (length v) :: v ++ encode_opts todo) as Ec by done.
  rewrite Ec in *. simpl in Hl. rewrite length_app in Hl.
  set (d := pre ++ _). assert (d !! length pre = Some c) as H0
    by (unfold d; by rewrite lookup_app_r, Nat.sub_diag by lia).
  assert (d !! (length pre + 1)%nat = Some (Z.of_nat (length v))) as H1
    by (unfold d; rewrite lookup_app_r by lia; by replace (length pre + 1 - length pre)%nat with 1%nat by lia).
  assert (length d = length pre + 2 + length v + length (encode_opts todo ++ 255%Z :: rest))%nat as Hd
    by (unfold d; rewrite !length_app; simpl; rewrite !length_app; lia).
  rewrite (at_lookup _ _ _ H0), H0.
  destruct (Z.eqb_spec c 255); [lia|]. destruct (Z.eqb_spec c 0); [lia|]. simpl negb. cbv iota. simpl mbind.
  rewrite !(u16_small (_ + 1)) by lia.
  destruct (Z.leb_spec (Z.of_nat (length d)) (Z.of_nat (length pre) + 1)); [lia|].
  replace (Z.to_nat (Z.of_nat (length pre) + 1)) with (length pre + 1)%nat by lia. rewrite H1. simpl mbind.
  destruct (Z.ltb_spec (Z.of_nat (length d)) (Z.of_nat (length pre) + 1 + 1 + Z.of_nat (length v))); [lia|].
  rewrite u16_small by lia. split; [|cbn [fst]; lia].
  exists (dn ++ [(c, v)]), todo. split; [by rewrite E, <-app_assoc|]. f_equal.
  - unfold encode_opts. rewrite map_app, concat_app, length_app.
    fold (encode_opts dn). unfold pre. rewrite length_app, Hh. simpl. rewrite length_app. simpl. lia.
  - unfold opts_value. rewrite foldl_app. cbn [foldl fst snd].
    replace (Z.of_nat (length pre) + 1 + 1) with (Z.of_nat (length (pre ++ [c; Z.of_nat (length v)])))
      by (rewrite length_app; simpl; lia).
    replace d with ((pre ++ [c; Z.of_nat (length v)]) ++ v ++ (encode_opts todo ++ 255 :: rest))
      by (unfold d; rewrite <-!app_assoc; simpl; by rewrite <-app_assoc).
    apply dhcp_option_at.
Qed.
End parse.

(** ** Messages *)

Lemma length_dhcp_packet c d ty : (length (dhcp_build_packet c d ty) ≤ 300)%nat.
Proof.
  unfold dhcp_build_packet. rewrite length_take.
  assert (∀ (b : bool) (x : list Z), length x = 12%nat →
    (length ([53%Z; 1%Z; ty] ++ (if b then x else []) ++ [55; 3; 1; 3; 6; 255]%Z) ≤ 21)%nat) as Ho
    by (intros [] x Hx; rewrite !length_app, ?Hx; simpl; lia).
  specialize (Ho (ty =? DHCP_REQUEST) ([50; 4] ++ n_put32 (dhcp_offered_ip d) ++ [54; 4] ++
    n_put32 (dhcp_server_ip d)) eq_refl).
  destruct (Nat.ltb_spec (240 + length ([53%Z; 1%Z; ty] ++ (if ty =? DHCP_REQUEST
     then [50; 4] ++ n_put32 (dhcp_offered_ip d) ++ [54; 4] ++ n_put32 (dhcp_server_ip d)
     else []) ++ [55; 3; 1; 3; 6; 255]%Z)) 300); lia.
Qed.

(** The frame that carries message [ty] to every server. *)
Definition dhcp_frame (s : net) (ck ty : Z) : list Z :=
  eth_frame BROADCAST_MAC (mac (g_net s)) 0x0800
    (ip_packet s BROADCAST_IP IP_PROTO_UDP ck
      (udp_packet DHCP_CLIENT_PORT DHCP_SERVER_PORT (dhcp_build_packet (g_net s) (n_dhcp s) ty))).

Lemma dhcp_send poll ty s :
  ∃ ck, 0 ≤ ck < 2 ^ 16 ∧
    udp_send poll BROADCAST_IP DHCP_SERVER_PORT DHCP_CLIENT_PORT
      (dhcp_build_packet (g_net s) (n_dhcp s) ty) s =
    Some (tx_status (n_nic s) (tx_calls (n_nic s)),
      transmit (dhcp_frame s ck ty) (set_ip_id (u16 (g_ip_id s + 1)) s)).
Proof.
  set (p := dhcp_build_packet (g_net s) (n_dhcp s) ty).
  assert (length p ≤ 300)%nat as Hp by apply length_dhcp_packet.
  assert (length (udp_packet DHCP_CLIENT_PORT DHCP_SERVER_PORT p) = 8 + length p)%nat as Hu
    by (unfold udp_packet; rewrite !length_app; done).
  destruct (ip_send_resolved poll BROADCAST_IP IP_PROTO_UDP
    (udp_packet DHCP_CLIENT_PORT DHCP_SERVER_PORT p) s BROADCAST_MAC) as (ck & Hck & _ & Hs); [lia|done|].
  exists ck. split; [done|]. unfold udp_send. rewrite u16_small by lia.
  destruct (Z.ltb_spec 1480 (8 + Z.of_nat (length p))); [lia|].
  destruct (Z.ltb_spec 1472 (Z.of_nat (length p))); [lia|]. exact Hs.
Qed.

(** ** One datagram *)

(** A datagram for the client's exchange. *)
Definition for_exchange (d : dhcp) (data : list Z) : bool :=
  (240 <=? length data)%nat && (n_be32 data 236 =? DHCP_MAGIC_COOKIE) && (n_be32 data 4 =? dhcp_xid d).

Definition with_dhcp_state (v : Z) (d : dhcp) : dhcp :=
  Dhcp (dhcp_xid d) (dhcp_offered_ip d) (dhcp_server_ip d) v (xid_counter d).
Definition offered (src : Z) (data : list Z) (o : dhcp_opts) (d : dhcp) : dhcp :=
  Dhcp (dhcp_xid d) (n_be32 data 16) (if negb (o_server_id o =? 0) then o_server_id o else src) 2
    (xid_counter d).
Definition acked (data : list Z) (o : dhcp_opts) (c : net_config) : net_config :=
  NetConfig (n_be32 data 16) (if negb (o_subnet o =? 0) then o_subnet o else 0xFFFFFF00)
    (o_router o) (o_dns o) (mac c) true.

Section rx.
Context (poll : M net unit) (src : Z) (data : list Z) (o : dhcp_opts) (s : net).
Context (Ho : dhcp_options data = Some o) (He : for_exchange (n_dhcp s) data = true).

Lemma for_exchange_guards :
  (length data <? 240)%nat = false ∧ negb (n_be32 data 236 =? DHCP_MAGIC_COOKIE) = false ∧
  negb (n_be32 data 4 =? dhcp_xid (n_dhcp s)) = false.
Proof.
  unfold for_exchange in He. apply andb_true_iff in He as [[H1 H2]%andb_true_iff H3].
  rewrite H2, H3. split; [|done]. apply Nat.leb_le in H1. by apply Nat.ltb_ge.
Qed.

Lemma dhcp_rx_offer : o_msg_type o = DHCP_OFFER → dhcp_state (n_dhcp s) = 1 →
  let s1 := set_dhcp (offered src data o (n_dhcp s)) s in
  ∃ ck, 0 ≤ ck < 2 ^ 16 ∧
    dhcp_rx poll src data s = Some (tt,
      set_dhcp (with_dhcp_state 3 (n_dhcp s1))
        (transmit (dhcp_frame s1 ck DHCP_REQUEST) (set_ip_id (u16 (g_ip_id s + 1)) s1))).
Proof.
  intros Ht Hs s1. destruct (dhcp_send poll DHCP_REQUEST s1) as (ck & Hck & Hsend).
  exists ck. split; [done|]. apply wp_exact. destruct for_exchange_guards as (G1 & G2 & G3).
  unfold dhcp_rx. rewrite G1, G2. wp_steps. rewrite G3. wp_steps. eapply wp_lift_opt; [exact Ho|].
  rewrite Ht, Hs. change ((DHCP_OFFER =? DHCP_OFFER) && (1 =? 1)) with true.
  change (DHCP_OFFER =? DHCP_ACK) with false. wp_steps. fold (offered src data o (n_dhcp s)). fold s1.
  change (id s1) with s1. eapply wp_known; [exact Hsend|]. wp_steps.
  change (false && (dhcp_state _ =? 3)) with false. by wp_steps.
Qed.

Lemma dhcp_rx_ack : o_msg_type o = DHCP_ACK → dhcp_state (n_dhcp s) = 3 →
  dhcp_rx poll src data s =
    Some (tt, set_dhcp (with_dhcp_state 4 (n_dhcp s)) (set_cfg (acked data o (g_net s)) s)).
Proof.
  intros Ht Hs. apply wp_exact. destruct for_exchange_guards as (G1 & G2 & G3).
  unfold dhcp_rx. rewrite G1, G2. wp_steps. rewrite G3. wp_steps. eapply wp_lift_opt; [exact Ho|].
  rewrite Ht, Hs. change ((DHCP_ACK =? DHCP_OFFER) && (3 =? 1)) with false.
  wp_steps. rewrite Hs. change ((DHCP_ACK =? DHCP_ACK) && (3 =? 3)) with true. by wp_steps.
Qed.

Lemma dhcp_rx_other :
  (o_msg_type o =? DHCP_OFFER) && (dhcp_state (n_dhcp s) =? 1) = false →
  (o_msg_type o =? DHCP_ACK) && (dhcp_state (n_dhcp s) =? 3) = false →
  dhcp_rx poll src data s = Some (tt, s).
Proof.
  intros H1 H2. apply wp_exact. destruct for_exchange_guards as (G1 & G2 & G3).
  unfold dhcp_rx. rewrite G1, G2. wp_steps. rewrite G3. wp_steps. eapply wp_lift_opt; [exact Ho|].
  rewrite H1. wp_steps. rewrite H2. by wp_steps.
Qed.
End rx.

Lemma dhcp_rx_ignored poll src data s :
  for_exchange (n_dhcp s) data = false → dhcp_rx poll src data s = Some (tt, s).
Proof.
  intros He. apply wp_exact. unfold dhcp_rx, for_exchange in *.
  destruct (Nat.ltb_spec (length data) 240) as [H|H]; [by wp_steps|].
  apply Nat.leb_le in H. rewrite H in He.
  destruct (n_be32 data 236 =? DHCP_MAGIC_COOKIE); [|by wp_steps]. simpl negb. cbv iota. wp_steps.
  rewrite !andb_true_l in He. rewrite He. by wp_steps.
Qed.

(** ** The exchange *)


(** A server's reply. *)
Definition reply_header (xid yi : Z) : list Z :=
  [2; 1; 6; 0] ++ n_put32 xid ++ replicate 8 0 ++ n_put32 yi ++ replicate 216 0 ++
  n_put32 DHCP_MAGIC_COOKIE.
Definition reply_options (ty server mask router dns : Z) : list (Z * list Z) :=
  [(53, [ty]); (54, n_put32 server); (1, n_put32 mask); (3, n_put32 router); (6, n_put32 dns)].
Definition dhcp_reply (ty xid yi server mask router dns : Z) : list Z :=
  reply_header xid yi ++ encode_opts (reply_options ty server mask router dns) ++ [255].

Definition is_u32 (v : Z) : Prop := 0 ≤ v < 2 ^ 32.

Lemma dhcp_reply_spec ty xid yi server mask router dns :
  is_u32 xid → is_u32 yi → is_u32 server → is_u32 mask → is_u32 router → is_u32 dns →
  let r := dhcp_reply ty xid yi server mask router dns in
  (length r = 268)%nat ∧ n_be32 r 4 = xid ∧ n_be32 r 16 = yi ∧ n_be32 r 236 = DHCP_MAGIC_COOKIE ∧
  dhcp_options r = Some (DhcpOpts ty mask router dns server).
Proof.
  intros Hx Hy Hs Hm Hr Hd. cbv zeta. split_and!.
  - done.
  - by apply (be32_at [2; 1; 6; 0] xid _ 4).
  - by apply (be32_at ([2; 1; 6; 0] ++ n_put32 xid ++ replicate 8 0) yi _ 16).
  - pose proof (be32_at ([2; 1; 6; 0] ++ n_put32 xid ++ replicate 8 0 ++ n_put32 yi ++ replicate 216 0)
      DHCP_MAGIC_COOKIE (encode_opts (reply_options ty server mask router dns) ++ [255]) 236) as H.
    unfold dhcp_reply, reply_header. rewrite <-!app_assoc in *. by apply H.
  - unfold dhcp_reply. rewrite dhcp_options_encoded; [|done| |done].
    + assert (∀ v, is_u32 v → n_be32 (n_put32 v) 0 = v) as Hv
        by (intros v Hv; by apply (be32_at [] v [] 0)).
      unfold opts_value, reply_options. cbn [foldl fst snd length n_put32].
      unfold dhcp_option. cbn -[n_be32 n_put32]. by rewrite !Hv.
    + unfold reply_options, opt_ok. forall_list; simpl; lia.
Qed.

(** The request: the client's hardware address and transaction number, the
    offered address and the server's identifier. *)
Lemma dhcp_request_content c d :
  length (mac c) = 6%nat →
  let r := dhcp_build_packet c d DHCP_REQUEST in
  length r = 300%nat ∧ n_be32 r 4 = n_be32 (n_put32 (dhcp_xid d)) 0 ∧ slice r 28 6 = mac c ∧
  slice r 240 21 = encode_opts [(53, [DHCP_REQUEST]); (50, n_put32 (dhcp_offered_ip d));
    (54, n_put32 (dhcp_server_ip d)); (55, [1; 3; 6])] ++ [255].
Proof.
  intros Hm. unfold dhcp_build_packet.
  change (DHCP_REQUEST =? DHCP_REQUEST) with true. cbv iota zeta.
  destruct c as [? ? ? ? l ?]. cbn [mac] in *.
  do 6 (destruct l as [|? l]; [discriminate|]). destruct l; [|discriminate]. split_and!; reflexivity.
Qed.

(** the exchange configures the interface.  A client that has sent its
    discovery and gets a server's offer answers with exactly one broadcast
    request that carries its transaction number, its hardware address, the
    offered address and the server's identifier; when the server then
    acknowledges, the interface is configured with the address, mask, gateway
    and name server of the acknowledgement, and the exchange is over. *)
Theorem dhcp_handshake_correct poll src s yi server mask router dns yi' mask' router' dns' :
  is_u32 yi → is_u32 server → is_u32 mask → is_u32 router → is_u32 dns →
  is_u32 yi' → is_u32 mask' → is_u32 router' → is_u32 dns' → server ≠ 0 → mask' ≠ 0 →
  is_u32 (dhcp_xid (n_dhcp s)) → dhcp_state (n_dhcp s) = 1 → length (mac (g_net s)) = 6%nat →
  tx_status (n_nic s) (tx_calls (n_nic s)) = 0 →
  let xid := dhcp_xid (n_dhcp s) in
  ∃ s1 s2 ck request,
    dhcp_rx poll src (dhcp_reply DHCP_OFFER xid yi server mask router dns) s = Some (tt, s1) ∧
    sent (n_nic s1) = sent (n_nic s) ++ [eth_frame BROADCAST_MAC (mac (g_net s)) 0x0800
      (ip_packet s BROADCAST_IP IP_PROTO_UDP ck (udp_packet DHCP_CLIENT_PORT DHCP_SERVER_PORT request))] ∧
    n_be32 request 4 = xid ∧ slice request 28 6 = mac (g_net s) ∧
    slice request 240 21 = encode_opts [(53, [DHCP_REQUEST]); (50, n_put32 yi);
      (54, n_put32 server); (55, [1; 3; 6])] ++ [255] ∧
    g_net s1 = g_net s ∧
    dhcp_rx poll src (dhcp_reply DHCP_ACK xid yi' server mask' router' dns') s1 = Some (tt, s2) ∧
    g_net s2 = NetConfig yi' mask' router' dns' (mac (g_net s)) true ∧ dhcp_state (n_dhcp s2) = 4.
Proof.
  intros Hyi Hsv Hmk Hrt Hdn Hyi' Hmk' Hrt' Hdn' Hsv0 Hmk0 Hx Hst Hmac Htx xid.
  destruct (dhcp_reply_spec DHCP_OFFER xid yi server mask router dns) as (L1 & X1 & Y1 & C1 & O1); [done..|].
  destruct (dhcp_reply_spec DHCP_ACK xid yi' server mask' router' dns') as (L2 & X2 & Y2 & C2 & O2); [done..|].
  set (r1 := dhcp_reply DHCP_OFFER _ _ _ _ _ _) in *. set (r2 := dhcp_reply DHCP_ACK _ _ _ _ _ _) in *.
  clearbody r1 r2.
  assert (for_exchange (n_dhcp s) r1 = true) as E1 by (unfold for_exchange; by rewrite L1, X1, C1, !Z.eqb_refl).
  destruct (dhcp_rx_offer poll src r1 _ s O1 E1) as (ck & _ & Hr); [done..|].
  set (s1 := set_dhcp (offered _ _ _ _) s) in Hr.
  assert (n_dhcp s1 = Dhcp xid yi server 2 (xid_counter (n_dhcp s))) as Hd0.
  { unfold s1, offered. cbn [n_dhcp set_dhcp o_server_id]. rewrite Y1.
    by destruct (Z.eqb_spec server 0). }
  eexists. set (s1' := set_dhcp _ (transmit _ _)) in Hr.
  assert (n_dhcp s1' = Dhcp xid yi server 3 (xid_counter (n_dhcp s))) as Hd1.
  { change (n_dhcp s1') with (with_dhcp_state 3 (n_dhcp s1)). by rewrite Hd0. }
  assert (for_exchange (n_dhcp s1') r2 = true) as E2
    by (unfold for_exchange; by rewrite L2, X2, C2, Hd1, !Z.eqb_refl).
  pose proof (dhcp_rx_ack poll src r2 _ s1' O2 E2) as Ha. rewrite Hd1 in Ha. specialize (Ha eq_refl eq_refl).
  destruct (dhcp_request_content (g_net s1) (n_dhcp s1) Hmac) as (_ & Q1 & Q2 & Q3).
  eexists _, ck, (dhcp_build_packet (g_net s1) (n_dhcp s1) DHCP_REQUEST).
  split_and!; [exact Hr| | |exact Q2| |done|exact Ha| |done].
  - unfold s1'. cbn -[dhcp_frame]. rewrite Htx. done.
  - rewrite Q1, Hd0. by apply (be32_at [] xid [] 0).
  - by rewrite Q3, Hd0.
  - cbn [g_net set_dhcp set_cfg]. unfold acked. cbn [o_subnet o_router o_dns]. rewrite Y2.
    by destruct (Z.eqb_spec mask' 0).
Qed.

(** A client that waits for an offer. *)
Definition dhcp_client (st : Z) : net :=
  Net (NetConfig 0 0 0 0 [2; 0; 0; 0; 0; 1] false) [] 7 [] 49152 true (Dhcp 0x54415445 0 0 st 0x54415446)
    [] 0 0 (Dns 0 false 0 []) (Nic (λ _, []) 0 (λ _, 0) 0 [] []).


Lemma dhcp_handshake_correct_witness :
  ∃ s1 s2,
    dhcp_rx nested_poll 1 (dhcp_reply DHCP_OFFER 0x54415445 0x0A00020F 0x0A000202 0xFFFFFF00 0x0A000202 0x0A000203)
      (dhcp_client 1) = Some (tt, s1) ∧
    dhcp_rx nested_poll 1 (dhcp_reply DHCP_ACK 0x54415445 0x0A00020F 0x0A000202 0xFFFFFF00 0x0A000202 0x0A000203)
      s1 = Some (tt, s2) ∧
    g_net s2 = NetConfig 0x0A00020F 0xFFFFFF00 0x0A000202 0x0A000203 [2; 0; 0; 0; 0; 1] true.
Proof.
  destruct (dhcp_handshake_correct nested_poll 1 (dhcp_client 1) 0x0A00020F 0x0A000202 0xFFFFFF00 0x0A000202
    0x0A000203 0x0A00020F 0xFFFFFF00 0x0A000202 0x0A000203)
    as (s1 & s2 & ck & rq & H1 & _ & _ & _ & _ & _ & H2 & H3 & _);
    [split; lia..|lia|lia|split; simpl; lia|done|done|done|].
  exists s1, s2. split; [exact H1|]. split; [exact H2|exact H3].
Defined.
