(* ===== verification/NetArp.v ===== *)
(** * The address cache

    The cache holds at most one entry per address; what a host learns from a
    packet is what it resolves afterwards. *)

From S2P Require Import Prelude Loops Codec Ring Aes Net NetSum NetRecv.

(** What the cache knows about an address. *)
Definition arp_lookup (cache : list arp_entry) (v : Z) : option (list Z) :=
  i ← arp_find v cache; a_mac <$> cache !! i.

(** At most one valid entry for an address. *)
Definition arp_unique (cache : list arp_entry) : Prop :=
  ∀ i j e e', cache !! i = Some e → cache !! j = Some e' →
    a_valid e = true → a_valid e' = true → a_ip e = a_ip e' → i = j.

Lemma arp_find_Some v cache i : arp_find v cache = Some i →
  ∃ e, cache !! i = Some e ∧ a_valid e = true ∧ a_ip e = v.
Proof.
  unfold arp_find. destruct (list_find _ cache) as [[j e]|] eqn:E; [|done]. intros [= <-].
  apply list_find_Some in E as (He & HP & _). apply Is_true_true in HP. b2p. by exists e.
Qed.

Lemma arp_find_None v cache : arp_find v cache = None →
  ∀ i e, cache !! i = Some e → a_valid e = true → a_ip e ≠ v.
Proof.
  unfold arp_find. destruct (list_find _ cache) as [[j e]|] eqn:E; [done|]. intros _ i e He Hv <-.
  apply list_find_None in E. apply (Forall_lookup_1 _ _ _ _ E He).
  rewrite Hv. by rewrite Z.eqb_refl.
Qed.

Lemma arp_free_Some cache i : arp_free cache = Some i → ∃ e, cache !! i = Some e ∧ a_valid e = false.
Proof.
  unfold arp_free. destruct (list_find _ cache) as [[j e]|] eqn:E; [|done]. intros [= <-].
  apply list_find_Some in E as (He & HP & _). apply Is_true_true in HP. b2p. by exists e.
Qed.

(** In a cache without repetition any valid entry is the one found. *)
Lemma arp_lookup_entry cache i e : arp_unique cache → cache !! i = Some e → a_valid e = true →
  arp_lookup cache (a_ip e) = Some (a_mac e).
Proof.
  intros Hu He Hv. unfold arp_lookup. destruct (arp_find (a_ip e) cache) as [j|] eqn:E.
  - apply arp_find_Some in E as (e' & He' & Hv' & Hip). simpl.
    assert (j = i) as -> by (by apply (Hu j i e' e)). by rewrite He.
  - by destruct (arp_find_None _ _ E i e).
Qed.

Lemma arp_lookup_None cache v :
  (∀ i e, cache !! i = Some e → a_valid e = true → a_ip e ≠ v) → arp_lookup cache v = None.
Proof.
  intros H. unfold arp_lookup. destruct (arp_find v cache) as [j|] eqn:E; [|done].
  apply arp_find_Some in E as (e & He & Hv & Hip). by destruct (H j e).
Qed.

(** Writing a valid entry: its address resolves to it, the others as before. *)
Lemma arp_store cache i e0 e :
  arp_unique cache → cache !! i = Some e0 → a_valid e = true →
  (a_valid e0 = true ∧ a_ip e0 = a_ip e ∨ a_valid e0 = false ∧ arp_find (a_ip e) cache = None) →
  arp_unique (<[i := e]> cache) ∧ arp_lookup (<[i := e]> cache) (a_ip e) = Some (a_mac e) ∧
  ∀ v, v ≠ a_ip e → arp_lookup (<[i := e]> cache) v = arp_lookup cache v.
Proof.
  intros Hu H0 Hv Hcase. assert (i < length cache)%nat as Hi by (by eapply lookup_lt_Some).
  assert (∀ j e', cache !! j = Some e' → a_valid e' = true → a_ip e' = a_ip e → j = i) as Hother.
  { intros j e' He' Hv' Hip. destruct Hcase as [[Hv0 Hip0]|[Hv0 Hn]].
    - apply (Hu j i e' e0); congruence.
    - by destruct (arp_find_None _ _ Hn j e'). }
  assert (arp_unique (<[i := e]> cache)) as Hu'.
  { intros j k e1 e2 H1 H2 V1 V2 E.
    destruct (decide (j = i)) as [->|Hj], (decide (k = i)) as [->|Hk]; [done| | |].
    - rewrite list_lookup_insert_eq in H1 by done. rewrite list_lookup_insert_ne in H2 by done.
      simplify_eq. symmetry. by apply (Hother k e2).
    - rewrite list_lookup_insert_ne in H1 by done. rewrite list_lookup_insert_eq in H2 by done.
      simplify_eq. by apply (Hother j e1).
    - rewrite list_lookup_insert_ne in H1, H2 by done. by apply (Hu j k e1 e2). }
  split; [done|]. split.
  - apply (arp_lookup_entry _ i); [done|by apply list_lookup_insert_eq|done].
  - intros v Hne. destruct (arp_find v cache) as [j|] eqn:E.
    + apply arp_find_Some in E as (e' & He' & Hv' & <-).
      rewrite (arp_lookup_entry _ _ _ Hu He' Hv'). apply (arp_lookup_entry _ j); [done| |done].
      rewrite list_lookup_insert_ne; [done|]. intros <-. simplify_eq. destruct Hcase as [[]|[]]; congruence.
    + rewrite (arp_lookup_None cache v) by by apply arp_find_None.
      apply arp_lookup_None. intros j e' He' Hv'. destruct (decide (j = i)) as [->|Hj].
      * rewrite list_lookup_insert_eq in He' by done. by simplify_eq.
      * rewrite list_lookup_insert_ne in He' by done. by apply (arp_find_None _ _ E j).
Qed.

(** the address cache.  While it has at most one entry per address (as after
    [netcore_init]), any ARP packet keeps it so, and changes the resolution of no
    address but its sender's; the sender's address then resolves to the sender's
    hardware address, whether it was known or not, unless the cache is full of
    others. *)
Theorem arp_learn_correct pkt s :
  (28 ≤ length pkt)%nat → arp_unique (arp_cache s) →
  ∃ s', arp_process pkt s = Some (tt, s') ∧ arp_unique (arp_cache s') ∧
    g_net s' = g_net s ∧ tcp_conns s' = tcp_conns s ∧
    (∀ v, v ≠ n_be32 pkt 14 → arp_lookup (arp_cache s') v = arp_lookup (arp_cache s) v) ∧
    (arp_lookup (arp_cache s') (n_be32 pkt 14) = Some (slice pkt 8 6) ∨
     arp_lookup (arp_cache s) (n_be32 pkt 14) = None ∧ arp_free (arp_cache s) = None ∧
       arp_cache s' = arp_cache s).
Proof.
  intros Hl Hu. set (v := n_be32 pkt 14). set (m := slice pkt 8 6).
  assert (∀ c s', sends (set_arp c s) s' → arp_cache s' = c ∧ g_net s' = g_net s ∧ tcp_conns s' = tcp_conns s)
    as Hsend by (by intros c s' (i & fs & k & ->)).
  assert (wp (arp_process pkt) (λ _ s', ∃ c, sends (set_arp c s) s' ∧ arp_unique c ∧
    (∀ v', v' ≠ v → arp_lookup c v' = arp_lookup (arp_cache s) v') ∧
    (arp_lookup c v = Some m ∨ arp_lookup (arp_cache s) v = None ∧ arp_free (arp_cache s) = None ∧
      c = arp_cache s)) s) as Hw.
  2:{ apply wp_run in Hw as ([] & s' & Hr & c & Hs & Hu' & Ho & Hv). exists s'.
      destruct (Hsend c s' Hs) as (-> & -> & ->). by split_and!. }
  clear Hsend. unfold arp_process. destruct (Nat.ltb_spec (length pkt) 28); [lia|]. wp_steps. fold v m.
  destruct (arp_find v (arp_cache s)) as [i|] eqn:Ef.
  - apply arp_find_Some in Ef as (e & He & Hv & Hip). wp_steps.
    rewrite (alter_insert _ _ _ e He).
    destruct (arp_store (arp_cache s) i e (ArpEntry (a_ip e) m (a_valid e) false)) as (H1 & H2 & H3);
      [done|done|done|by left|]. simpl in *. rewrite Hip in *.
    eexists. split; [apply sends_refl|]. split_and!; [done|done|by left].
  - pose proof (arp_lookup_None (arp_cache s) v (arp_find_None _ _ Ef)) as Hn.
    assert (∀ c, arp_unique c → (∀ v', v' ≠ v → arp_lookup c v' = arp_lookup (arp_cache s) v') →
      (arp_lookup c v = Some m ∨ arp_lookup (arp_cache s) v = None ∧ arp_free (arp_cache s) = None ∧
        c = arp_cache s) →
      wp (cfg ← gets g_net;
        if (n_be16 pkt 6 =? ARP_OP_REQUEST) && (n_be32 pkt 24 =? ip cfg) && configured cfg
        then arp_send ARP_OP_REPLY m (htonl (ip cfg)) (htonl v);; mret tt else mret tt)
      (λ _ s', ∃ c, sends (set_arp c s) s' ∧ arp_unique c ∧
        (∀ v', v' ≠ v → arp_lookup c v' = arp_lookup (arp_cache s) v') ∧
        (arp_lookup c v = Some m ∨ arp_lookup (arp_cache s) v = None ∧ arp_free (arp_cache s) = None ∧
          c = arp_cache s)) (set_arp c s)) as Hreply.
    { intros c H1 H2 H3. wp_steps. destruct (_ && _); [|wp_steps; by exists c].
      wp_steps. unfold arp_send. wp_steps. eapply wp_mono; [apply wp_eth_send|]. intros ? s' Hs.
      wp_steps. by exists c. }
    apply wp_bind. destruct (arp_free (arp_cache s)) as [i|] eqn:Efr; [apply wp_modify|apply wp_ret].
    + apply arp_free_Some in Efr as (e & He & Hv).
      destruct (arp_store (arp_cache s) i e (ArpEntry v m true false)) as (H1 & H2 & H3);
        [done|done|done|by right|]. apply Hreply; [done|done|by left].
    + assert (set_arp (arp_cache s) s = s) as Es by (by destruct s).
      pose proof (Hreply (arp_cache s)) as Hr. rewrite Es in Hr. apply Hr; [done|done|by right].
Qed.

Lemma arp_init_unique : arp_unique (replicate ARP_CACHE_SIZE (ArpEntry 0 (replicate 6 0) false false)).
Proof. intros i j e e' [-> _]%lookup_replicate _ Hv. done. Qed.

(** Two hosts of the network 10.0.2.0/24 that know nothing of each other. *)
Definition new_host (addr : Z) : net :=
  set_arp (replicate ARP_CACHE_SIZE (ArpEntry 0 (replicate 6 0) false false)) (lan_host addr 0 []).

Lemma arp_learn_correct_witness :
  ∃ s', arp_process (n_put16 1 ++ n_put16 0x0800 ++ [6; 4] ++ n_put16 2 ++ [1; 2; 3; 4; 5; 6] ++
      n_put32 0x0A000203 ++ replicate 6 0 ++ n_put32 0) (new_host 0x0A000204) = Some (tt, s') ∧
    arp_lookup (arp_cache s') 0x0A000203 = Some [1; 2; 3; 4; 5; 6].
Proof.
  destruct (arp_learn_correct (n_put16 1 ++ n_put16 0x0800 ++ [6; 4] ++ n_put16 2 ++ [1; 2; 3; 4; 5; 6] ++
    n_put32 0x0A000203 ++ replicate 6 0 ++ n_put32 0) (new_host 0x0A000204))
    as (s' & H1 & _ & _ & _ & _ & [H2|(_ & H2 & _)]).
  - simpl. lia.
  - apply arp_init_unique.
  - by exists s'.
  - discriminate.
Defined.

(** The addresses of an ARP packet are converted to network order twice
    ([htonl], then [n_put32]), so they are on the wire with their bytes
    reversed: a request for 10.0.2.3 asks for 3.2.0.10, and the host 10.0.2.3
    that receives it answers nothing and learns a sender that does not exist. *)
Theorem arp_request_reversed :
  ∃ frame,
    (λ r, sent (n_nic r.2)) <$> arp_resolve 0x0A000203 (new_host 0x0A000204) = Some [frame] ∧
    n_be32 frame 38 = 0x0302000A ∧
    (λ r, (sent (n_nic r.2), arp_lookup (arp_cache r.2) 0x0A000204,
           arp_lookup (arp_cache r.2) 0x0402000A)) <$>
      net_rx nested_poll frame (new_host 0x0A000203) = Some ([], None, Some (replicate 6 4)).
Proof. eexists. split; [vm_compute; reflexivity|]. split; vm_compute; reflexivity. Qed.

(** A request from a host that is already in the cache is not answered. *)
Theorem arp_known_sender_unanswered :
  (λ r, sent (n_nic r.2)) <$> arp_process (n_put16 1 ++ n_put16 0x0800 ++ [6; 4] ++
      n_put16 ARP_OP_REQUEST ++ replicate 6 9 ++ n_put32 0x0A000203 ++ replicate 6 0 ++
      n_put32 0x0A000204) (lan_host 0x0A000204 0x0A000203 []) = Some [].
Proof. vm_compute. reflexivity. Qed.
