(* ===== verification/NetDns.v ===== *)
(** * DNS: the question and the answer

    The host name of a question is encoded as labels; the address found in a
    server's reply is that of its first A record; and no datagram makes the
    resolver fault or loop. *)

From S2P Require Import Prelude Loops Codec Ring Aes Net NetSum NetRecv NetTcp NetDhcp.

(** ** Arrays in pieces *)

Lemma arr_set_app (A B : list Z) x i v :
  i = Z.of_nat (length A) → arr_set (A ++ x :: B) i v = Some (A ++ v :: B).
Proof.
  intros ->. unfold arr_set. destruct (Z.leb_spec 0 (Z.of_nat (length A))); [|lia].
  destruct (Z.ltb_spec (Z.of_nat (length A)) (Z.of_nat (length (A ++ x :: B)))) as [|H'];
    [|rewrite length_app in H'; simpl in H'; lia].
  simpl andb. cbv iota. f_equal. rewrite Nat2Z.id, insert_app_r_alt, Nat.sub_diag by lia. done.
Qed.

Lemma put_bytes_app (A M B d : list Z) i :
  i = Z.of_nat (length A) → length M = length d → put_bytes (A ++ M ++ B) i d = Some (A ++ d ++ B).
Proof.
  intros -> HM. unfold put_bytes. destruct (Z.leb_spec 0 (Z.of_nat (length A))); [|lia].
  destruct (Z.leb_spec (Z.of_nat (length A) + Z.of_nat (length d)) (Z.of_nat (length (A ++ M ++ B)))) as [|H'];
    [|rewrite !length_app in H'; lia].
  simpl andb. cbv iota. f_equal. unfold splice. rewrite Nat2Z.id, take_app_length.
  do 2 f_equal. rewrite (app_assoc A M B). apply drop_app_length'. rewrite length_app. lia.
Qed.

(** ** The question *)

(** A host name is its labels with dots between them. *)
Fixpoint dotted (labels : list (list Z)) : list Z :=
  match labels with [] => [] | [l] => l | l :: ls => l ++ 46 :: dotted ls end.
Definition label_bytes (l : list Z) : list Z := Z.of_nat (length l) :: l.
Definition encode_name (labels : list (list Z)) : list Z := concat (map label_bytes labels).

(** The rest of the encoding when [cur] of the current label was seen. *)
Fixpoint encode_from (cur h : list Z) : list Z :=
  match h with
  | [] => label_bytes cur
  | x :: h => if x =? 46 then label_bytes cur ++ encode_from [] h else encode_from (cur ++ [x]) h
  end.

Lemma length_encode_from cur h : length (encode_from cur h) = (1 + length cur + length h)%nat.
Proof.
  revert cur. induction h as [|x h IH]; intros cur; simpl; [lia|].
  destruct (x =? 46); [|rewrite IH, length_app; simpl; lia].
  simpl. rewrite length_app, IH. simpl. lia.
Qed.

Lemma encode_from_label cur l h : Forall (λ x, x ≠ 46) l → encode_from cur (l ++ h) = encode_from (cur ++ l) h.
Proof.
  intros Hl. revert cur. induction Hl as [|x l Hx Hl IH]; intros cur; simpl; [by rewrite app_nil_r|].
  destruct (Z.eqb_spec x 46); [done|]. by rewrite IH, <-app_assoc.
Qed.

Lemma encode_from_dotted labels :
  labels ≠ [] → Forall (Forall (λ x, x ≠ 46)) labels → encode_from [] (dotted labels) = encode_name labels.
Proof.
  induction labels as [|l ls IH]; intros Hne Hl; [done|]. inversion_clear Hl as [|?? H1 H2].
  destruct ls as [|l' ls].
  - simpl dotted. rewrite <-(app_nil_r l) at 1. rewrite encode_from_label by done. simpl.
    unfold encode_name. simpl. by rewrite app_nil_r.
  - change (dotted (l :: l' :: ls)) with (l ++ 46 :: dotted (l' :: ls)).
    rewrite encode_from_label by done.
    change (encode_name (l :: l' :: ls)) with (label_bytes l ++ encode_name (l' :: ls)).
    by rewrite <-IH by done.
Qed.

Lemma foldl_opt_cons {A B} (f : A → B → option A) a x l :
  foldl (λ o i, st ← o; f st i) (Some a) (x :: l) = foldl (λ o i, st ← o; f st i) (f a x) l.
Proof. done. Qed.

Ltac pairs := repeat first [done | lia | apply (f_equal2 pair) | apply (f_equal Some)].

(** One turn of the loop: a dot, another character, and the end. *)
Section step.
Context (A cur rest : list Z) (x y : Z).
Context (Hl : Z.of_nat (length A) + 1 + Z.of_nat (length cur) < 255).

Definition encoder (A cur rest : list Z) (x : Z) : list Z * Z * Z * Z :=
  (A ++ x :: cur ++ rest, Z.of_nat (length A) + 1 + Z.of_nat (length cur), Z.of_nat (length A),
   Z.of_nat (length cur)).

Lemma encode_step_dot host i : host !! i = Some 46 →
  encode_step (length host) host (encoder A cur (y :: rest) x) i =
  Some (encoder (A ++ label_bytes cur) [] rest y).
Proof.
  intros Hi. assert (i < length host)%nat by (by eapply lookup_lt_Some). unfold encode_step, encoder.
  rewrite bool_decide_false, (at_lookup _ _ _ Hi) by lia. simpl orb. cbv iota.
  rewrite (arr_set_app A (cur ++ y :: rest)) by done. simpl mbind.
  destruct (Nat.ltb_spec i (length host)); [|lia].
  rewrite u8_small, u16_small by lia. rewrite <-app_assoc, length_app. simpl length.
  pairs.
Qed.

Lemma encode_step_char host i c : host !! i = Some c → c ≠ 46 →
  encode_step (length host) host (encoder A cur (y :: rest) x) i = Some (encoder A (cur ++ [c]) rest x).
Proof.
  intros Hi Hc. assert (i < length host)%nat by (by eapply lookup_lt_Some). unfold encode_step, encoder.
  rewrite bool_decide_false, (at_lookup _ _ _ Hi) by lia. destruct (Z.eqb_spec c 46); [done|]. simpl orb. cbv iota.
  replace (A ++ x :: cur ++ y :: rest) with ((A ++ x :: cur) ++ y :: rest) by (by rewrite <-app_assoc).
  rewrite (arr_set_app (A ++ x :: cur) rest) by (rewrite length_app; simpl; lia). simpl mbind.
  rewrite u16_small, u32_small by lia. rewrite length_app. simpl length.
  pairs. by rewrite <-!app_assoc.
Qed.

Lemma encode_step_end host : 
  encode_step (length host) host (encoder A cur rest x) (length host) =
  Some (A ++ label_bytes cur ++ rest, Z.of_nat (length (A ++ label_bytes cur)), Z.of_nat (length A),
    Z.of_nat (length cur)).
Proof.
  unfold encode_step, encoder. rewrite bool_decide_true by done. simpl orb. cbv iota.
  rewrite (arr_set_app A (cur ++ rest)) by done. simpl mbind.
  destruct (Nat.ltb_spec (length host) (length host)); [lia|].
  rewrite u8_small by lia. rewrite length_app. simpl length. pairs.
Qed.
End step.

(** The loop over the characters, from where [cur] is the current label. *)
Lemma encode_loop host pre suf A x cur rest :
  host = pre ++ suf → (length suf < length rest)%nat →
  Z.of_nat (length A) + 1 + Z.of_nat (length cur) + Z.of_nat (length suf) < 255 →
  ∃ rest' ls ll,
    foldl (λ o i, st ← o; encode_step (length host) host st i)
      (Some (encoder A cur rest x)) (seq (length pre) (length suf + 1)) =
    Some (A ++ encode_from cur suf ++ rest', Z.of_nat (length (A ++ encode_from cur suf)), ls, ll) ∧
    length rest = (length suf + length rest')%nat.
Proof.
  revert pre A x cur rest. induction suf as [|c suf IH]; intros pre A x cur rest -> Hr Hl.
  - rewrite app_nil_r. change (seq (length pre) (length (A := Z) [] + 1)) with [length pre].
    rewrite foldl_opt_cons, encode_step_end by (simpl in Hl; lia).
    by eexists rest, _, _.
  - change (seq (length pre) (length (c :: suf) + 1)) with (length pre :: seq (S (length pre)) (length suf + 1)).
    rewrite foldl_opt_cons. destruct rest as [|y rest]; [simpl in Hr; lia|]. simpl length in *.
    assert ((pre ++ c :: suf) !! length pre = Some c) as Hc
      by (by rewrite lookup_app_r, Nat.sub_diag by lia).
    assert (pre ++ c :: suf = (pre ++ [c]) ++ suf) as Eh by (by rewrite <-app_assoc).
    replace (S (length pre)) with (length (pre ++ [c])) by (rewrite length_app; simpl; lia).
    change (encode_from cur (c :: suf)) with
      (if c =? 46 then label_bytes cur ++ encode_from [] suf else encode_from (cur ++ [c]) suf).
    destruct (Z.eqb_spec c 46) as [->|Hne].
    + rewrite encode_step_dot by (done || lia).
      destruct (IH (pre ++ [46]) (A ++ label_bytes cur) y [] rest Eh) as (rest' & ls & ll & H1 & H2);
        [lia|rewrite length_app; simpl; lia|].
      exists rest', ls, ll. split; [|lia]. rewrite H1. by rewrite <-!app_assoc.
    + rewrite (encode_step_char A cur rest x y ltac:(lia) _ _ c) by done.
      destruct (IH (pre ++ [c]) A x (cur ++ [c]) rest Eh) as (rest' & ls & ll & H1 & H2);
        [lia|rewrite length_app; simpl; lia|].
      exists rest', ls, ll. split; [done|lia].
Qed.

Lemma length_dotted_encode labels :
  labels ≠ [] → Forall (Forall (λ x, x ≠ 46)) labels →
  length (encode_name labels) = S (length (dotted labels)).
Proof. intros H1 H2. rewrite <-encode_from_dotted by done. by rewrite length_encode_from. Qed.

Definition question_header (txid : Z) : list Z :=
  n_put16 txid ++ n_put16 0x0100 ++ n_put16 1 ++ n_put16 0 ++ n_put16 0 ++ n_put16 0.

(** the question.  For every host name of at most 238 characters, given by its
    labels, [dns_query] builds in its 256-byte packet exactly the query of RFC
    1035: the header with the transaction number, the labels each after its
    length, a zero, and type A, class IN. *)
Theorem dns_query_correct txid labels :
  labels ≠ [] → Forall (Forall (λ x, x ≠ 46)) labels → (length (dotted labels) ≤ 238)%nat →
  dns_query txid (dotted labels) =
    Some (question_header txid ++ encode_name labels ++ [0] ++ n_put16 1 ++ n_put16 1).
Proof.
  intros Hne Hdots Hl. rewrite <-(encode_from_dotted labels) by done.
  set (host := dotted labels) in *. unfold dns_query.
  change (splice (replicate 256 0) 0 (n_put16 txid ++ n_put16 0x0100 ++ n_put16 1 ++ n_put16 0), 13, 12, 0)
    with (encoder (question_header txid) [] (replicate 243 0) 0).
  destruct (encode_loop host [] host (question_header txid) 0 [] (replicate 243 0) eq_refl)
    as (rest & ls & ll & He & Hrest); [rewrite length_replicate; lia|simpl; lia|].
  change (length []) with 0%nat in He. rewrite app_assoc in He. rewrite length_replicate in Hrest.
  set (P := question_header txid ++ encode_from [] host) in *.
  assert (Z.of_nat (length P) ≤ 251) as HP
    by (unfold P; rewrite length_app, length_encode_from; simpl; lia).
  do 5 (destruct rest as [|? rest]; [simpl in Hrest; lia|]). rewrite He. clear He. cbv beta iota.
  unfold mbind at 1, option_bind at 1. rewrite (arr_set_app P) by done. unfold mbind at 1, option_bind at 1.
  rewrite !(u16_small (Z.of_nat (length P) + 1)) by lia.
  rewrite !(u16_small (Z.of_nat (length P) + 1 + 2)) by lia.
  rewrite (u16_small (Z.of_nat (length P) + 1 + 2 + 2)) by lia.
  replace (P ++ 0 :: z0 :: z1 :: z2 :: z3 :: rest)
    with ((P ++ [0]) ++ [z0; z1] ++ (z2 :: z3 :: rest)) by (by rewrite <-app_assoc).
  rewrite (put_bytes_app (P ++ [0])) by (rewrite ?length_app; simpl; lia || done).
  unfold mbind at 1, option_bind at 1.
  replace ((P ++ [0]) ++ n_put16 1 ++ z2 :: z3 :: rest)
    with ((P ++ [0] ++ n_put16 1) ++ [z2; z3] ++ rest) by (by rewrite <-!app_assoc).
  rewrite (put_bytes_app (P ++ [0] ++ n_put16 1)) by (rewrite ?length_app; simpl; lia || done).
  unfold mbind, option_bind. f_equal.
  replace ((P ++ [0] ++ n_put16 1) ++ n_put16 1 ++ rest)
    with ((P ++ [0] ++ n_put16 1 ++ n_put16 1) ++ rest) by (by rewrite <-!app_assoc).
  rewrite take_app_length' by (rewrite !length_app; simpl; lia). unfold P. by rewrite <-!app_assoc.
Qed.

(** ** The answer *)

(** No position loops: whatever the bytes, the parser ends. *)
Lemma skip_name_total data pos :
  bytes data → Z.of_nat (length data) ≤ 65000 → 0 ≤ pos < 2 ^ 16 →
  ∃ p, skip_name data (Z.of_nat (length data)) pos = Some p ∧ 0 ≤ p < 2 ^ 16.
Proof.
  intros Hb Hl Hp. apply (while_opt_rule _ _ (λ p, 0 ≤ p < 2 ^ 16) (λ p, 2 ^ 16 - 1 - p)); [done|lia|].
  intros p Hp'. pose proof (at_byte data (Z.to_nat p) Hb) as Ha. unfold is_byte in Ha.
  assert (∀ x, 0 ≤ u16 x < 2 ^ 16) as Hu by (intros x; by apply Z.mod_pos_bound).
  destruct (Z.ltb_spec p (Z.of_nat (length data))); simpl andb; [|apply Hu].
  destruct (negb _); [|apply Hu]. cbv zeta. destruct (_ =? 0xC0); [apply Hu|]. rewrite u16_small by lia. lia.
Qed.

Lemma skip_questions_total data n :
  bytes data → Z.of_nat (length data) ≤ 65000 →
  ∃ p, skip_questions data (Z.of_nat (length data)) n = Some p ∧ 0 ≤ p < 2 ^ 16.
Proof.
  intros Hb Hl. unfold skip_questions. generalize (seq 0 (Z.to_nat n)) as ks.
  assert (∀ ks p, 0 ≤ p < 2 ^ 16 → ∃ p', foldl (λ o (_ : nat), pos ← o;
    pos ← skip_name data (Z.of_nat (length data)) pos; Some (u16 (pos + 4))) (Some p) ks = Some p' ∧
    0 ≤ p' < 2 ^ 16) as H; [|intros ks; apply H; lia].
  induction ks as [|k ks IH]; intros p Hp; [by exists p|]. simpl.
  destruct (skip_name_total data p Hb Hl Hp) as (q & -> & Hq). simpl. apply IH. by apply Z.mod_pos_bound.
Qed.

Lemma n_be16_range data o : bytes data → 0 ≤ n_be16 data o < 2 ^ 16.
Proof.
  intros Hb. rewrite n_be16_eq by done.
  pose proof (at_byte data o Hb) as H1. pose proof (at_byte data (o + 1) Hb) as H2. unfold is_byte in *. lia.
Qed.

Lemma find_answer_total data n pos :
  bytes data → Z.of_nat (length data) ≤ 65000 → 0 ≤ n < 2 ^ 16 → 0 ≤ pos < 2 ^ 16 →
  ∃ r, find_answer data (Z.of_nat (length data)) n pos = Some r.
Proof.
  intros Hb Hl Hn Hp. assert (∀ x, 0 ≤ u16 x < 2 ^ 16) as Hu by (intros x; by apply Z.mod_pos_bound).
  destruct (while_opt_rule (2 ^ 17) (answer_step data (Z.of_nat (length data)) n)
    (λ st, 0 ≤ st.1 < 2 ^ 16 ∧ 0 ≤ st.2 < 2 ^ 16) (λ st, 2 ^ 16 - 1 - st.1) (λ _, True) (0, pos))
    as (r & Hr & _); [simpl; lia|simpl; lia| |by exists r].
  intros [a p] [Ha Hp']. cbn [fst snd] in *. unfold answer_step.
  destruct (Z.ltb_spec a n); simpl andb; [|done]. destruct (_ <=? _); [|done].
  assert (∃ q, (if Z.land (at_ data (Z.to_nat p)) 0xC0 =? 0xC0 then Some (u16 (p + 2))
    else skip_name data (Z.of_nat (length data)) p) = Some q) as [q ->].
  { destruct (_ =? 0xC0); [by eexists|].
    destruct (skip_name_total data p Hb Hl Hp') as (q & -> & _). by exists q. }
  simpl mbind. destruct (_ <? _); [done|]. destruct (_ && _); [done|]. cbn [fst snd].
  pose proof (Hu (u16 (q + 10) + n_be16 data (Z.to_nat (q + 8)))). rewrite (u16_small (a + 1)) by lia. lia.
Qed.

Lemma dns_parse_total txid data :
  bytes data → Z.of_nat (length data) ≤ 65000 → ∃ r, dns_parse txid data = Some r.
Proof.
  intros Hb Hl. unfold dns_parse. repeat (case_match; [by eexists|]).
  destruct (skip_questions_total data (n_be16 data 4) Hb Hl) as (p & -> & Hp). simpl.
  apply find_answer_total; try done. by apply n_be16_range.
Qed.

(** A label of a name in a reply, and a resource record whose name is a
    pointer to the question. *)
Definition label_ok (l : list Z) : Prop := (0 < length l < 64)%nat.
Record rr := Rr { rr_hi : Z; rr_lo : Z; rr_type : Z; rr_class : Z; rr_ttl : Z; rr_data : list Z }.
Definition rr_ok (r : rr) : Prop :=
  Z.land (rr_hi r) 0xC0 = 0xC0 ∧ 0 ≤ rr_type r < 2 ^ 16 ∧ Z.of_nat (length (rr_data r)) < 2 ^ 16.
Definition encode_rr (r : rr) : list Z :=
  [rr_hi r; rr_lo r] ++ n_put16 (rr_type r) ++ n_put16 (rr_class r) ++ n_put32 (rr_ttl r) ++
  n_put16 (Z.of_nat (length (rr_data r))) ++ rr_data r.
Definition encode_rrs (rs : list rr) : list Z := concat (map encode_rr rs).

(** The address of the first A record, in network order. *)
Definition is_address (r : rr) : bool := (rr_type r =? 1) && (Z.of_nat (length (rr_data r)) =? 4).
Fixpoint first_address (rs : list rr) : option Z :=
  match rs with
  | [] => None
  | r :: rs => if is_address r then Some (le_val (rr_data r)) else first_address rs
  end.

Lemma small_label n : (0 < n < 64)%nat → Z.land (Z.of_nat n) 0xC0 = 0.
Proof.
  intros Hn. change 0xC0 with (Z.shiftl 3 6). apply Z.bits_inj_0. intros k.
  rewrite Z.land_spec. destruct (Z.ltb_spec k 6) as [Hk|Hk].
  - by rewrite (Z.shiftl_spec_low 3 6 k), andb_false_r.
  - rewrite Z.bits_above_log2; [done|lia|].
    apply Z.lt_le_trans with 6; [|done]. apply Z.log2_lt_pow2; lia.
Qed.

Lemma encode_name_app l k : encode_name (l ++ k) = encode_name l ++ encode_name k.
Proof. unfold encode_name. by rewrite map_app, concat_app. Qed.
Lemma encode_rrs_app l k : encode_rrs (l ++ k) = encode_rrs l ++ encode_rrs k.
Proof. unfold encode_rrs. by rewrite map_app, concat_app. Qed.

Lemma skip_name_labels pre labels post :
  Forall label_ok labels → Z.of_nat (length (pre ++ encode_name labels ++ 0 :: post)) < 2 ^ 16 →
  skip_name (pre ++ encode_name labels ++ 0 :: post)
    (Z.of_nat (length (pre ++ encode_name labels ++ 0 :: post))) (Z.of_nat (length pre)) =
  Some (u16 (Z.of_nat (length pre + length (encode_name labels)) + 1)).
Proof.
  intros Hls. set (d := pre ++ _). intros Hl.
  apply (while_opt_eq _ _ (λ p, ∃ dn todo, labels = dn ++ todo ∧ p = Z.of_nat (length pre + length (encode_name dn)))
    (λ p, 2 ^ 16 - 1 - p)).
  { exists [], labels. split; [done|]. simpl. f_equal. lia. }
  { unfold d in Hl. rewrite length_app in Hl. lia. }
  intros p (dn & todo & E & ->).
  assert (d = (pre ++ encode_name dn) ++ encode_name todo ++ 0 :: post) as Ed
    by (unfold d; by rewrite E, encode_name_app, <-!app_assoc).
  assert (length d = length pre + length (encode_name dn) + length (encode_name todo) + S (length post))%nat as El
    by (rewrite Ed, !length_app; simpl; lia).
  destruct (Z.ltb_spec (Z.of_nat (length pre + length (encode_name dn))) (Z.of_nat (length d))); [|lia].
  rewrite Nat2Z.id, andb_true_l. rewrite <-length_app in *. destruct todo as [|l todo].
  { rewrite app_nil_r in E. subst dn.
    rewrite (at_lookup d _ 0) by (rewrite Ed, lookup_app_r, Nat.sub_diag by lia; done). simpl. by rewrite length_app. }
  rewrite E in Hls. apply Forall_app in Hls as [_ Hls]. inversion_clear Hls as [|?? Hok _]. unfold label_ok in Hok.
  rewrite (at_lookup d _ (Z.of_nat (length l))) by (rewrite Ed, lookup_app_r, Nat.sub_diag by lia; done).
  destruct (Z.eqb_spec (Z.of_nat (length l)) 0); [lia|]. simpl negb. cbv iota zeta. rewrite small_label by done. change (0 =? 0xC0) with false. cbv iota.
  change (encode_name (l :: todo)) with (label_bytes l ++ encode_name todo) in El.
  rewrite !length_app in *. simpl in El. rewrite u16_small by lia. split; [|lia].
  exists (dn ++ [l]), todo. split; [by rewrite E, <-app_assoc|].
  rewrite encode_name_app, !length_app. change (encode_name [l]) with (label_bytes l ++ []).
  rewrite app_nil_r. simpl. lia.
Qed.

Lemma length_encode_rr r : length (encode_rr r) = (12 + length (rr_data r))%nat.
Proof. done. Qed.

(** One record. *)
Lemma answer_step_rr B r C a n :
  let d := B ++ encode_rr r ++ C in
  rr_ok r → Z.of_nat (length d) < 2 ^ 16 → a < n →
  answer_step d (Z.of_nat (length d)) n (a, Z.of_nat (length B)) =
  Some (if is_address r then inr (Some (le_val (rr_data r)))
        else inl (u16 (a + 1), Z.of_nat (length (B ++ encode_rr r)))).
Proof.
  intros d (Hhi & Hty & Hrd) Hl Ha.
  assert (length d = length B + 12 + length (rr_data r) + length C)%nat as El
    by (unfold d; rewrite !length_app, length_encode_rr; lia).
  unfold answer_step. destruct (Z.ltb_spec a n); [|lia].
  destruct (Z.leb_spec (Z.of_nat (length B) + 12) (Z.of_nat (length d))); [|lia]. simpl andb. cbv iota.
  rewrite Nat2Z.id, (at_lookup d _ (rr_hi r)) by (unfold d; by rewrite lookup_app_r, Nat.sub_diag by lia).
  rewrite Hhi. change (0xC0 =? 0xC0) with true. cbv iota. simpl mbind. rewrite u16_small by lia.
  destruct (Z.ltb_spec (Z.of_nat (length d)) (Z.of_nat (length B) + 2 + 10)); [lia|].
  set (rest := n_put16 (rr_class r) ++ n_put32 (rr_ttl r) ++
    n_put16 (Z.of_nat (length (rr_data r))) ++ rr_data r ++ C).
  assert (d = (B ++ [rr_hi r; rr_lo r]) ++ n_put16 (rr_type r) ++ rest) as E1
    by (unfold d, encode_rr, rest; by rewrite <-!app_assoc).
  assert (d = (B ++ [rr_hi r; rr_lo r] ++ n_put16 (rr_type r) ++ n_put16 (rr_class r) ++ n_put32 (rr_ttl r)) ++
    n_put16 (Z.of_nat (length (rr_data r))) ++ rr_data r ++ C) as E2
    by (unfold d, encode_rr; by rewrite <-!app_assoc).
  replace (n_be16 d (Z.to_nat (Z.of_nat (length B) + 2))) with (rr_type r)
    by (rewrite E1; symmetry; apply be16_at; [done|rewrite length_app; simpl; lia]).
  replace (n_be16 d (Z.to_nat (Z.of_nat (length B) + 2 + 8))) with (Z.of_nat (length (rr_data r)))
    by (rewrite E2; symmetry; apply be16_at; [lia|rewrite !length_app; simpl; lia]).
  rewrite !u16_small by lia.
  replace ((rr_type r =? 1) && (Z.of_nat (length (rr_data r)) =? 4) &&
    (Z.of_nat (length B) + 2 + 10 + 4 <=? Z.of_nat (length d))) with (is_address r).
  2:{ unfold is_address. destruct (_ =? 1); [|done]. destruct (Z.eqb_spec (Z.of_nat (length (rr_data r))) 4); [|done].
      symmetry. apply Z.leb_le. lia. }
  destruct (is_address r) eqn:Er.
  - unfold is_address in Er. b2p. do 4 f_equal. rewrite (app_assoc _ (n_put16 _) (rr_data r ++ C)) in E2.
    eapply slice_mid; [exact E2| |lia]. rewrite !length_app. simpl. lia.
  - rewrite length_app, length_encode_rr. pairs. rewrite (u16_small (_ + Z.of_nat _)) by lia. apply (f_equal inl). pairs.
Qed.

Lemma find_answer_rrs pre rs post :
  Forall rr_ok rs → Z.of_nat (length (pre ++ encode_rrs rs ++ post)) < 2 ^ 16 →
  find_answer (pre ++ encode_rrs rs ++ post) (Z.of_nat (length (pre ++ encode_rrs rs ++ post)))
    (Z.of_nat (length rs)) (Z.of_nat (length pre)) = Some (first_address rs).
Proof.
  intros Hrs. set (d := pre ++ _). intros Hl.
  assert (∀ k, (length k ≤ length (encode_rrs k))%nat) as Hk.
  { induction k as [|r k IH]; [done|]. change (encode_rrs (r :: k)) with (encode_rr r ++ encode_rrs k).
    rewrite length_app, length_encode_rr. simpl. lia. }
  apply (while_opt_eq _ _ (λ st, ∃ dn todo, rs = dn ++ todo ∧ first_address rs = first_address todo ∧
    st = (Z.of_nat (length dn), Z.of_nat (length (pre ++ encode_rrs dn)))) (λ st, 2 ^ 16 - 1 - st.1)).
  { exists [], rs. split_and!; [done|done|]. by rewrite app_nil_r. }
  { simpl. lia. }
  intros st (dn & todo & E & Ef & ->).
  assert (d = (pre ++ encode_rrs dn) ++ encode_rrs todo ++ post) as Ed
    by (unfold d; by rewrite E, encode_rrs_app, <-!app_assoc).
  pose proof (Hk rs) as Hn. assert (length (encode_rrs rs) ≤ length d)%nat as Hd
    by (unfold d; rewrite !length_app; lia).
  destruct todo as [|r todo].
  { rewrite E, app_nil_r. unfold answer_step. destruct (Z.ltb_spec (Z.of_nat (length dn)) (Z.of_nat (length dn)));
      [lia|]. simpl. by rewrite <-(app_nil_r dn), <-E, Ef. }
  change (encode_rrs (r :: todo)) with (encode_rr r ++ encode_rrs todo) in Ed. rewrite <-(app_assoc (encode_rr r)) in Ed.
  pose proof Hrs as Hr. rewrite E in Hr. apply Forall_app in Hr as [_ Hr]. inversion_clear Hr as [|?? Hok _].
  assert (length rs = length dn + S (length todo))%nat as Hlen by (rewrite E, length_app; done).
  assert (Z.of_nat (length rs) < 2 ^ 16) by lia. rewrite Ed in Hl |- *. rewrite answer_step_rr by (done || lia).
  destruct (is_address r) eqn:Er.
  - rewrite Ef. simpl. by rewrite Er.
  - split; [|cbn [fst]; rewrite u16_small by lia; lia].
    exists (dn ++ [r]), todo. split_and!; [by rewrite E, <-app_assoc| |].
    + rewrite Ef. simpl. by rewrite Er.
    + rewrite u16_small by lia. rewrite encode_rrs_app. change (encode_rrs [r]) with (encode_rr r ++ []).
      rewrite app_nil_r, app_assoc, (length_app dn). simpl length. pairs.
Qed.

(** A server's reply to a question for the name with these labels. *)
Definition dns_reply (txid flags : Z) (labels : list (list Z)) (rs : list rr) (post : list Z) : list Z :=
  n_put16 txid ++ n_put16 flags ++ n_put16 1 ++ n_put16 (Z.of_nat (length rs)) ++ n_put16 0 ++ n_put16 0 ++
  encode_name labels ++ [0] ++ n_put16 1 ++ n_put16 1 ++ encode_rrs rs ++ post.


Lemma dns_query_correct_witness :
  dns_query 0x1234 [97; 46; 98; 99] =
    Some (question_header 0x1234 ++ [1; 97; 2; 98; 99; 0; 0; 1; 0; 1]).
Proof.
  apply (dns_query_correct 0x1234 [[97]; [98; 99]]); [done| |simpl; lia]. forall_list; forall_list; lia.
Defined.

