(* ===== verification/Sched.v ===== *)
(** * The scheduler

    Translation of [src/src/kernel/proc/sched.c] and of the process-table
    functions of [process.c] it works with.  The run queues are the linked
    lists of the code: [next] fields inside the tasks, and a head, a tail and a
    count per processor.  A pointer to a task is an index: the slots of [procs]
    first, then one boot context per processor.

    The functions of [sched.c] run under the scheduler lock with interrupts
    off, so each is one step; those of [process.c] are modelled as one step
    too.  The processor that calls is an argument ([id], its APIC number).
    The clock is a stream of counter values; a user word read twice by the
    futex code is the pair of values seen.  A context switch is recorded in a
    log; registers, vector state and debug registers are left out, as is trace
    output. *)

From S2P Require Import Prelude Vmm.

Definition PROC_MAX : Z := 256.
Definition MAX_CPUS : Z := 64.

Definition EAGAIN : Z := 11.
Definition ESRCH : Z := 3.
Definition EINTR : Z := 4.
Definition EINVAL : Z := 22.
Definition ETIMEDOUT : Z := 110.

(** ** State *)

Inductive proc_state := PROC_UNUSED | PROC_RUNNING | PROC_WAITING | PROC_ZOMBIE | PROC_DEAD.
#[global] Instance proc_state_eq_dec : EqDecision proc_state.
Proof. solve_decision. Defined.

(** What a task waits for. *)
Record wait := Wait {
  w_pid : Z; w_tid : Z; w_key : Z; w_bitset : Z; w_poll : bool; w_result : Z; w_time : Z }.

(** [shared] is the slot whose [owned_shared] the task uses.  [resumes] says
    whether the saved context was left by a context switch (and so continues
    in [sched_tick]) or prepared by [setup_initial_stack]. *)
Record task := Task {
  pid : Z; tgid : Z; exit_code : Z; state_of : proc_state; cpu : Z; next : option nat; waits : wait;
  is_kernel : bool; is_linux : bool; shared : option nat; sig_pending : Z; sig_blocked : Z;
  cr3 : Z; kernel_stack_top : Z; kernel_stack_phys : Z; kernel_stack_pages : Z; user_fs_base : Z;
  resumes : bool }.

Record runqueue := Runqueue { head : option nat; tail : option nat; count : Z }.

(** The registers of a processor that a switch sets. *)
Record percpu := Percpu { kstack_top : Z; rsp0 : Z; fs_base : Z; active_cr3 : Z }.

(** The machine: processors (APIC number, boot processor, task segment), the
    clock, and what the page allocator returns for kernel stacks. *)
Record machine := Machine {
  apic_ids : list Z; bsp_flag : nat; has_tss : nat → bool;
  hpet_freq : Z; hpet_counter : nat → Z; kernel_pml4 : Z; stack_pages : nat → Z }.

Record sched := Sched {
  mach : machine; tasks : list task; sigact : list (list Z); rq : list runqueue;
  current : list (option nat); idle_task : list (option nat); g_sched_next_cpu : Z;
  g_sched_ready : bool; g_first_context_switch_seen : bool; g_first_user_switch_seen : bool;
  percpus : list percpu; next_pid : Z; g_deferred_kstacks : list (Z * Z);
  clock_reads : nat; stack_allocs : nat; freed_stacks : list (Z * Z);
  switches : list (nat * nat * nat) }.

Definition set_tasks (l : list task) (s : sched) : sched :=
  Sched (mach s) l (sigact s) (rq s) (current s) (idle_task s) (g_sched_next_cpu s) (g_sched_ready s)
    (g_first_context_switch_seen s) (g_first_user_switch_seen s) (percpus s) (next_pid s)
    (g_deferred_kstacks s) (clock_reads s) (stack_allocs s) (freed_stacks s) (switches s).
Definition set_sigact (l : list (list Z)) (s : sched) : sched :=
  Sched (mach s) (tasks s) l (rq s) (current s) (idle_task s) (g_sched_next_cpu s) (g_sched_ready s)
    (g_first_context_switch_seen s) (g_first_user_switch_seen s) (percpus s) (next_pid s)
    (g_deferred_kstacks s) (clock_reads s) (stack_allocs s) (freed_stacks s) (switches s).
Definition set_rq (l : list runqueue) (s : sched) : sched :=
  Sched (mach s) (tasks s) (sigact s) l (current s) (idle_task s) (g_sched_next_cpu s) (g_sched_ready s)
    (g_first_context_switch_seen s) (g_first_user_switch_seen s) (percpus s) (next_pid s)
    (g_deferred_kstacks s) (clock_reads s) (stack_allocs s) (freed_stacks s) (switches s).
Definition set_current (l : list (option nat)) (s : sched) : sched :=
  Sched (mach s) (tasks s) (sigact s) (rq s) l (idle_task s) (g_sched_next_cpu s) (g_sched_ready s)
    (g_first_context_switch_seen s) (g_first_user_switch_seen s) (percpus s) (next_pid s)
    (g_deferred_kstacks s) (clock_reads s) (stack_allocs s) (freed_stacks s) (switches s).
Definition set_idle (l : list (option nat)) (s : sched) : sched :=
  Sched (mach s) (tasks s) (sigact s) (rq s) (current s) l (g_sched_next_cpu s) (g_sched_ready s)
    (g_first_context_switch_seen s) (g_first_user_switch_seen s) (percpus s) (next_pid s)
    (g_deferred_kstacks s) (clock_reads s) (stack_allocs s) (freed_stacks s) (switches s).
Definition set_next_cpu (c : Z) (s : sched) : sched :=
  Sched (mach s) (tasks s) (sigact s) (rq s) (current s) (idle_task s) c (g_sched_ready s)
    (g_first_context_switch_seen s) (g_first_user_switch_seen s) (percpus s) (next_pid s)
    (g_deferred_kstacks s) (clock_reads s) (stack_allocs s) (freed_stacks s) (switches s).
Definition set_flags (ready first user : bool) (s : sched) : sched :=
  Sched (mach s) (tasks s) (sigact s) (rq s) (current s) (idle_task s) (g_sched_next_cpu s) ready
    first user (percpus s) (next_pid s)
    (g_deferred_kstacks s) (clock_reads s) (stack_allocs s) (freed_stacks s) (switches s).
Definition set_percpus (l : list percpu) (s : sched) : sched :=
  Sched (mach s) (tasks s) (sigact s) (rq s) (current s) (idle_task s) (g_sched_next_cpu s) (g_sched_ready s)
    (g_first_context_switch_seen s) (g_first_user_switch_seen s) l (next_pid s)
    (g_deferred_kstacks s) (clock_reads s) (stack_allocs s) (freed_stacks s) (switches s).
Definition set_next_pid (p : Z) (s : sched) : sched :=
  Sched (mach s) (tasks s) (sigact s) (rq s) (current s) (idle_task s) (g_sched_next_cpu s) (g_sched_ready s)
    (g_first_context_switch_seen s) (g_first_user_switch_seen s) (percpus s) p
    (g_deferred_kstacks s) (clock_reads s) (stack_allocs s) (freed_stacks s) (switches s).
Definition set_stacks (deferred freed : list (Z * Z)) (s : sched) : sched :=
  Sched (mach s) (tasks s) (sigact s) (rq s) (current s) (idle_task s) (g_sched_next_cpu s) (g_sched_ready s)
    (g_first_context_switch_seen s) (g_first_user_switch_seen s) (percpus s) (next_pid s)
    deferred (clock_reads s) (stack_allocs s) freed (switches s).
Definition set_streams (clock stacks : nat) (s : sched) : sched :=
  Sched (mach s) (tasks s) (sigact s) (rq s) (current s) (idle_task s) (g_sched_next_cpu s) (g_sched_ready s)
    (g_first_context_switch_seen s) (g_first_user_switch_seen s) (percpus s) (next_pid s)
    (g_deferred_kstacks s) clock stacks (freed_stacks s) (switches s).
Definition set_switches (l : list (nat * nat * nat)) (s : sched) : sched :=
  Sched (mach s) (tasks s) (sigact s) (rq s) (current s) (idle_task s) (g_sched_next_cpu s) (g_sched_ready s)
    (g_first_context_switch_seen s) (g_first_user_switch_seen s) (percpus s) (next_pid s)
    (g_deferred_kstacks s) (clock_reads s) (stack_allocs s) (freed_stacks s) l.

(** ** Fields of a task *)

Definition set_state (v : proc_state) (t : task) : task :=
  Task (pid t) (tgid t) (exit_code t) v (cpu t) (next t) (waits t) (is_kernel t) (is_linux t) (shared t)
    (sig_pending t) (sig_blocked t) (cr3 t) (kernel_stack_top t) (kernel_stack_phys t)
    (kernel_stack_pages t) (user_fs_base t) (resumes t).
Definition set_cpu (v : Z) (t : task) : task :=
  Task (pid t) (tgid t) (exit_code t) (state_of t) v (next t) (waits t) (is_kernel t) (is_linux t) (shared t)
    (sig_pending t) (sig_blocked t) (cr3 t) (kernel_stack_top t) (kernel_stack_phys t)
    (kernel_stack_pages t) (user_fs_base t) (resumes t).
Definition set_next (v : option nat) (t : task) : task :=
  Task (pid t) (tgid t) (exit_code t) (state_of t) (cpu t) v (waits t) (is_kernel t) (is_linux t) (shared t)
    (sig_pending t) (sig_blocked t) (cr3 t) (kernel_stack_top t) (kernel_stack_phys t)
    (kernel_stack_pages t) (user_fs_base t) (resumes t).
Definition set_waits (v : wait) (t : task) : task :=
  Task (pid t) (tgid t) (exit_code t) (state_of t) (cpu t) (next t) v (is_kernel t) (is_linux t) (shared t)
    (sig_pending t) (sig_blocked t) (cr3 t) (kernel_stack_top t) (kernel_stack_phys t)
    (kernel_stack_pages t) (user_fs_base t) (resumes t).
Definition set_resumes (v : bool) (t : task) : task :=
  Task (pid t) (tgid t) (exit_code t) (state_of t) (cpu t) (next t) (waits t) (is_kernel t) (is_linux t)
    (shared t) (sig_pending t) (sig_blocked t) (cr3 t) (kernel_stack_top t) (kernel_stack_phys t)
    (kernel_stack_pages t) (user_fs_base t) v.

Definition task_at (i : nat) : M sched task := lift_opt (λ s, tasks s !! i).
Definition on_task (i : nat) (f : task → task) : M sched unit :=
  update_opt (λ s, t ← tasks s !! i; Some (set_tasks (<[i := f t]> (tasks s)) s)).
Definition queue_at (c : nat) : M sched runqueue := lift_opt (λ s, rq s !! c).
Definition set_queue (c : nat) (q : runqueue) : M sched unit := modify (λ s, set_rq (<[c := q]> (rq s)) s).

(** ** Processors and time *)

Definition smp_cpu_count (m : machine) : Z := Z.of_nat (length (apic_ids m)).
Definition smp_bsp_index (m : machine) : Z :=
  if (bsp_flag m <? length (apic_ids m))%nat then Z.of_nat (bsp_flag m) else 0.
Definition smp_cpu_apic_id (m : machine) (i : nat) : Z := default 0 (apic_ids m !! i).

(** [count] and [bsp] as every function adjusts them. *)
Definition cpu_count (m : machine) : Z := if smp_cpu_count m =? 0 then 1 else smp_cpu_count m.
Definition bsp_of (m : machine) : Z := if cpu_count m <=? smp_bsp_index m then 0 else smp_bsp_index m.

(** The index of the processor with an APIC number, 0 when there is none. *)
Definition cpu_index (m : machine) (id : Z) : nat :=
  match list_find (λ a, a = id) (take (Z.to_nat MAX_CPUS) (apic_ids m)) with Some (i, _) => i | None => 0%nat end.

Definition now_ms : M sched Z :=
  s ← gets id;
  let freq := hpet_freq (mach s) in
  if freq =? 0 then mret 0
  else
    modify (set_streams (S (clock_reads s)) (stack_allocs s));;
    mret (u64 (hpet_counter (mach s) (clock_reads s) * 1000) / freq).

(** ** Run queues *)

Definition rq_push (c p : nat) : M sched unit :=
  on_task p (set_next None);;
  q ← queue_at c;
  (match head q with
   | None => set_queue c (Runqueue (Some p) (Some p) (count q))
   | Some _ =>
       t ← lift_opt (λ _, tail q);
       on_task t (set_next (Some p));;
       set_queue c (Runqueue (head q) (Some p) (count q))
   end);;
  q ← queue_at c;
  set_queue c (Runqueue (head q) (tail q) (u32 (count q + 1))).

Definition rq_pop (c : nat) : M sched (option nat) :=
  q ← queue_at c;
  match head q with
  | None => mret None
  | Some p =>
      t ← task_at p;
      set_queue c (Runqueue (next t) (match next t with None => None | Some _ => tail q end)
        (if count q =? 0 then 0 else count q - 1));;
      on_task p (set_next None);;
      mret (Some p)
  end.

(** The loop of [rq_promote_first_user]; lists are shorter than the bound. *)
Definition promote_loop (c : nat) (prev : nat) (cur : option nat) : M sched unit :=
  while (2 ^ 32) (λ st : nat * option nat,
    let '(prev, cur) := st in
    match cur with
    | None => mret (inr tt)
    | Some x =>
        t ← task_at x;
        if negb (is_kernel t) then
          q ← queue_at c;
          on_task prev (set_next (next t));;
          on_task x (set_next (head q));;
          set_queue c (Runqueue (Some x) (if bool_decide (tail q = Some x) then Some prev else tail q) (count q));;
          mret (inr tt)
        else mret (inl (x, next t))
    end) (prev, cur).

Definition rq_promote_first_user (c : nat) : M sched unit :=
  q ← queue_at c;
  match head q with
  | None => mret tt
  | Some h =>
      t ← task_at h;
      if is_kernel t then promote_loop c h (next t) else mret tt
  end.

(** The search of one queue for a task number; it unlinks what it finds. *)
Definition remove_loop (c : nat) (target : Z) (cur : option nat) : M sched (option nat) :=
  while (2 ^ 32) (λ st : option nat * option nat,
    let '(prev, cur) := st in
    match cur with
    | None => mret (inr None)
    | Some x =>
        t ← task_at x;
        if pid t =? target then
          q ← queue_at c;
          h ← (match prev with
               | Some p => on_task p (set_next (next t));; mret (head q)
               | None => mret (next t)
               end);
          set_queue c (Runqueue h (if bool_decide (tail q = Some x) then prev else tail q)
            (if count q =? 0 then 0 else count q - 1));;
          on_task x (set_next None);;
          mret (inr (Some x))
        else mret (inl (Some x, next t))
    end) (None, cur).

Definition remove_from_runqueue (target : Z) : M sched (option nat) :=
  m ← gets mach;
  for_ 0 (Z.min (cpu_count m) MAX_CPUS) (λ c,
    q ← queue_at (Z.to_nat c);
    remove_loop (Z.to_nat c) target (head q)).

(** ** Signals *)

(** The lowest pending, unblocked signal with a handler, as a bit. *)
Definition sched_deliverable_signal_mask (i : nat) : M sched Z :=
  t ← task_at i;
  match shared t with
  | None => mret 0
  | Some sh =>
      if negb (is_linux t) then mret 0
      else
        let mask := Z.land (sig_pending t) (u64 (Z.lnot (sig_blocked t))) in
        let mask := Z.land mask (u64 (Z.lnot (Z.shiftl 1 (9 - 1)))) in
        let mask := Z.land mask (u64 (Z.lnot (Z.shiftl 1 (19 - 1)))) in
        acts ← lift_opt (λ s, sigact s !! sh);
        r ← for_ 1 64 (λ sig,
          let bit := Z.shiftl 1 (sig - 1) in
          h ← lift_opt (λ _, acts !! Z.to_nat sig);
          mret (if negb (Z.land mask bit =? 0) && negb (h =? 0) then Some bit else None));
        mret (default 0 r)
  end.

(** ** Waking *)

Definition woken (result : Z) (t : task) : task :=
  let w := waits t in
  set_waits (Wait (w_pid w) (w_tid w) (w_key w) (w_bitset w) false result 0) (set_state PROC_RUNNING t).

Definition wake_runnable_locked (p : nat) (result : Z) : M sched unit :=
  m ← gets mach;
  on_task p (woken result);;
  t ← task_at p;
  (if cpu_count m <=? cpu t then on_task p (set_cpu (u8 (bsp_of m))) else mret tt);;
  t ← task_at p;
  rq_push (Z.to_nat (cpu t)) p.

(** The first slot of [procs] with a property. *)
Definition find_proc (P : task → bool) (s : sched) : option nat :=
  fst <$> list_find (λ t, Is_true (P t)) (take (Z.to_nat PROC_MAX) (tasks s)).

(** Clear the futex a task waits for. *)
Definition clear_futex (t : task) : task :=
  let w := waits t in set_waits (Wait (w_pid w) (w_tid w) 0 0 (w_poll w) (w_result w) (w_time w)) t.

Definition is_state (v : proc_state) (t : task) : bool := bool_decide (state_of t = v).

(** ** Blocking and waking by task number *)

Definition sched_current (id : Z) : M sched (option nat) :=
  lift_opt (λ s, current s !! cpu_index (mach s) id).
Definition sched_set_current (id : Z) (p : option nat) : M sched unit :=
  modify (λ s, set_current (<[cpu_index (mach s) id := p]> (current s)) s).

Definition sched_add (target : Z) : M sched unit :=
  s ← gets Datatypes.id;
  match find_proc (λ t, (pid t =? target) && is_state PROC_RUNNING t) s with
  | None => mret tt
  | Some p =>
      t ← task_at p;
      let n := cpu_count (mach s) in
      c ← (if negb (is_kernel t) && (cpu t <? n) then mret (cpu t)
           else
             let c := if n <=? g_sched_next_cpu s then 0 else g_sched_next_cpu s in
             modify (set_next_cpu (if n <=? c + 1 then 0 else c + 1));; mret c);
      on_task p (set_cpu (u8 c));;
      rq_push (Z.to_nat c) p
  end.

Definition sched_remove_with_state (target : Z) (v : proc_state) : M sched unit :=
  r ← remove_from_runqueue target;
  match r with Some p => on_task p (set_state v) | None => mret tt end.
Definition sched_remove (target : Z) : M sched unit := sched_remove_with_state target PROC_DEAD.

Definition sched_sleep (target ms : Z) : M sched unit :=
  now ← now_ms;
  r ← remove_from_runqueue target;
  match r with
  | None => mret tt
  | Some p => on_task p (λ t, set_waits (Wait 0 0 0 0 (w_poll (waits t)) 0 (u64 (now + ms)))
      (set_state PROC_WAITING t))
  end.

Definition sched_block (target : Z) : M sched unit :=
  r ← remove_from_runqueue target;
  match r with
  | None => mret tt
  | Some p => on_task p (λ t, let w := waits t in
      set_waits (Wait (w_pid w) (w_tid w) (w_key w) (w_bitset w) (w_poll w) 0 UINT64_MAX)
        (set_state PROC_WAITING t))
  end.

(** [word] is what the two reads of the user's word see; [None] is NULL. *)
Definition sched_block_futex (target : Z) (word : option (Z * Z)) (expected key wake_time_ms bitset : Z)
    : M sched Z :=
  match word with
  | None => mret (- EAGAIN)
  | Some (first, second) =>
      if negb (first =? expected) then mret (- EAGAIN)
      else
        r ← remove_from_runqueue target;
        s ← gets Datatypes.id;
        let r := match r with
          | Some p => Some p
          | None => find_proc (λ t, (pid t =? target) &&
                      (is_state PROC_RUNNING t || is_state PROC_WAITING t)) s
          end in
        match r with
        | None => mret (- ESRCH)
        | Some p =>
            sig ← sched_deliverable_signal_mask p;
            if negb (sig =? 0) then wake_runnable_locked p 0;; mret (- EINTR)
            else
              on_task p (λ t, set_waits (Wait 0 0 key bitset (w_poll (waits t)) 0 wake_time_ms)
                (set_state PROC_WAITING t));;
              if negb (second =? expected) then
                on_task p (λ t, let w := waits t in
                  set_waits (Wait (w_pid w) (w_tid w) 0 0 (w_poll w) (w_result w) 0)
                    (set_state PROC_RUNNING t));;
                mret (- EAGAIN)
              else mret 0
        end
  end.

Definition sched_wake (target : Z) : M sched unit :=
  s ← gets Datatypes.id;
  match find_proc (λ t, (pid t =? target) && is_state PROC_WAITING t) s with
  | None => mret tt
  | Some p =>
      on_task p (λ t, let w := waits t in
        set_waits (Wait (w_pid w) (w_tid w) (w_key w) 0 (w_poll w) 0 0) (set_state PROC_RUNNING t));;
      wake_runnable_locked p 0
  end.

Definition sched_wake_signal (target : Z) : M sched Z :=
  s ← gets Datatypes.id;
  match find_proc (λ t, pid t =? target) s with
  | None => mret 0
  | Some p =>
      t ← task_at p;
      if negb (is_state PROC_WAITING t) then mret 0
      else
        sig ← sched_deliverable_signal_mask p;
        if sig =? 0 then mret 0
        else on_task p clear_futex;; wake_runnable_locked p (- EINTR);; mret 1
  end.

Definition sched_block_poll (target wake_time_ms : Z) : M sched unit :=
  r ← remove_from_runqueue target;
  match r with
  | None => mret tt
  | Some p => on_task p (λ t, set_waits (Wait 0 0 0 0 true 0 wake_time_ms) (set_state PROC_WAITING t))
  end.

(** ** Waking by what tasks wait for *)

(** [for (i = 0; i < PROC_MAX; i++)] with a counter. *)
Fixpoint each_slot (l : list nat) (body : nat → Z → M sched Z) (n : Z) : M sched Z :=
  match l with
  | [] => mret n
  | i :: l => n ← body i n; each_slot l body n
  end.
Definition for_procs (body : nat → Z → M sched Z) : M sched Z :=
  each_slot (seq 0 (Z.to_nat PROC_MAX)) body 0.

Definition clear_poll (t : task) : task :=
  let w := waits t in set_waits (Wait (w_pid w) (w_tid w) (w_key w) (w_bitset w) false (w_result w) (w_time w)) t.

Definition sched_wake_poll_waiters : M sched Z :=
  for_procs (λ i woke,
    t ← task_at i;
    if is_state PROC_WAITING t && w_poll (waits t) then
      on_task i clear_poll;; wake_runnable_locked i 0;; mret (u32 (woke + 1))
    else mret woke).

Definition sched_wake_futex (key max_wake bitset result : Z) : M sched Z :=
  if (max_wake =? 0) || (key =? 0) then mret 0
  else
    for_procs (λ i woke,
      if woke <? max_wake then
        t ← task_at i;
        if is_state PROC_WAITING t && (w_key (waits t) =? key) &&
           negb (Z.land (w_bitset (waits t)) bitset =? 0) then
          on_task i clear_futex;; wake_runnable_locked i result;; mret (u32 (woke + 1))
        else mret woke
      else mret woke).

Definition requeued (key : Z) (t : task) : task :=
  let w := waits t in set_waits (Wait (w_pid w) (w_tid w) key (w_bitset w) (w_poll w) (w_result w) (w_time w)) t.

Definition sched_requeue_futex (key_from key_to max_requeue : Z) : M sched Z :=
  if (max_requeue =? 0) || (key_from =? 0) || (key_to =? 0) || (key_from =? key_to) then mret 0
  else
    for_procs (λ i moved,
      if moved <? max_requeue then
        t ← task_at i;
        if is_state PROC_WAITING t && (w_key (waits t) =? key_from) then
          on_task i (requeued key_to);; mret (u32 (moved + 1))
        else mret moved
      else mret moved).

(** ** The tick *)

(** The sleepers whose time has come, and the futex waits that time out. *)
Definition wake_sleeper (now : Z) (i : nat) : M sched unit :=
  t ← task_at i;
  if is_state PROC_WAITING t && (w_pid (waits t) =? 0) && (w_time (waits t) <=? now) then
    if negb (w_key (waits t) =? 0) then
      on_task i clear_futex;; wake_runnable_locked i (- ETIMEDOUT)
    else wake_runnable_locked i 0
  else mret tt.
Definition wake_sleepers (now : Z) : M sched unit :=
  for_procs (λ i n, wake_sleeper now i;; mret n);; mret tt.

(** Make the idle task runnable on processor [c]. *)
Definition push_idle (c idle : nat) : M sched unit :=
  on_task idle (λ t, set_cpu (u8 (Z.of_nat c)) (set_state PROC_RUNNING t));;
  rq_push c idle.

Definition process_reap_deferred_stacks : M sched unit :=
  modify (λ s,
    let due := filter (λ d : Z * Z, d.1 ≠ 0 ∧ d.2 ≠ 0) (g_deferred_kstacks s) in
    set_stacks ((λ d : Z * Z, if (d.1 =? 0) || (d.2 =? 0) then d else (0, 0)) <$> g_deferred_kstacks s)
      (freed_stacks s ++ due) s).

(** The switch itself: the processor continues where [to] was; a task that
    was switched away from continues with the end of [sched_tick]. *)
Definition context_switch (c : nat) (from to : nat) : M sched unit :=
  if bool_decide (from = to) then process_reap_deferred_stacks
  else
    on_task from (set_resumes true);;
    modify (λ s, set_switches (switches s ++ [(c, from, to)]) s);;
    t ← task_at to;
    if resumes t then process_reap_deferred_stacks else mret tt.

(** Enter [next] on processor [c] in place of [cur]. *)
Definition switch_to (c : nat) (cur : option nat) (nxt : nat) : M sched unit :=
  s ← gets Datatypes.id;
  t ← task_at nxt;
  let bsp := bool_decide (Z.of_nat c = bsp_of (mach s)) in
  modify (λ s, set_current (<[c := Some nxt]> (current s)) s);;
  modify (λ s, set_percpus (alter (λ p, Percpu (kernel_stack_top t)
    (if has_tss (mach s) c then kernel_stack_top t else rsp0 p) (user_fs_base t) (cr3 t)) c (percpus s)) s);;
  modify (λ s, set_flags (g_sched_ready s) (g_first_context_switch_seen s || bsp)
    (g_first_user_switch_seen s || (bsp && negb (is_kernel t))) s);;
  from ← lift_opt (λ _, cur);
  context_switch c from nxt.

(** Choose the next task of processor [c]: [None] leaves the current one. *)
Definition pick_next (c : nat) (cur : option nat) : M sched (option nat) :=
  q ← queue_at c;
  if bool_decide (head q = None) || bool_decide (head q = cur) then
    running ← (match cur with None => mret false | Some x => t ← task_at x; mret (is_state PROC_RUNNING t) end);
    if running : bool then mret None
    else
      idle ← lift_opt (λ s, idle_task s !! c);
      match idle with
      | None => mret None
      | Some i =>
          if bool_decide (cur = Some i) then mret None
          else
            t ← task_at i;
            remove_from_runqueue (pid t);;
            push_idle c i;;
            q ← queue_at c;
            mret (head q)
      end
  else mret (head q).

(** The start of the tick: an empty queue gets the idle task when the current
    one cannot go on; the result says whether the tick goes on. *)
Definition tick_empty (c : nat) (cur : option nat) : M sched bool :=
  q ← queue_at c;
  match head q with
  | Some _ => mret true
  | None =>
      idle ← lift_opt (λ s, idle_task s !! c);
      match cur, idle with
      | Some x, Some i =>
          t ← task_at x;
          if negb (is_state PROC_RUNNING t) && negb (bool_decide (i = x))
          then push_idle c i;; mret true
          else mret false
      | _, _ => mret false
      end
  end.

Definition sched_tick (id : Z) : M sched unit :=
  s ← gets Datatypes.id;
  let c := cpu_index (mach s) id in
  cur ← lift_opt (λ s, current s !! c);
  go ← tick_empty c cur;
  if negb go then mret tt
  else
    now ← now_ms;
    wake_sleepers now;;
    cur ← lift_opt (λ s, current s !! c);
    (match cur with
     | None => mret tt
     | Some x =>
         t ← task_at x;
         if is_state PROC_RUNNING t then
           p ← rq_pop c;
           p ← lift_opt (λ _, p);
           rq_push c p
         else mret tt
     end);;
    s ← gets Datatypes.id;
    (if bool_decide (Z.of_nat c = bsp_of (mach s)) && negb (g_first_user_switch_seen s)
     then rq_promote_first_user c else mret tt);;
    nxt ← pick_next c cur;
    match nxt with
    | None => mret tt
    | Some x => switch_to c cur x
    end.

Definition sched_yield (id : Z) : M sched unit := sched_tick id.

(** ** The process table *)

Definition KSTACK_SIZE : Z := 32768.

Definition no_wait : wait := Wait 0 0 0 0 false 0 0.
(** A slot cleared by [mem_zero]. *)
Definition zero_task : task :=
  Task 0 0 0 PROC_UNUSED 0 None no_wait false false None 0 0 0 0 0 0 0 false.

Definition no_handlers : list Z := replicate 64 0.

Definition process_init : M sched unit :=
  modify (λ s, set_next_pid 1 (set_sigact (replicate (Z.to_nat PROC_MAX) no_handlers) (set_tasks
    (replicate (Z.to_nat PROC_MAX) zero_task ++ drop (Z.to_nat PROC_MAX) (tasks s)) s))).

Definition proc_alloc : M sched (option nat) :=
  s ← gets Datatypes.id;
  match find_proc (λ t, is_state PROC_UNUSED t || is_state PROC_DEAD t) s with
  | None => mret None
  | Some i =>
      let p := next_pid s in
      modify (λ s, set_next_pid (u32 (p + 1)) (set_sigact (<[i := no_handlers]> (sigact s))
        (set_tasks (<[i := Task p p 0 PROC_RUNNING 0xFF None no_wait false false None 0 0 0 0 0 0 0 false]> (tasks s)) s)));;
      mret (Some i)
  end.

(** [pmm_alloc_pages] for a kernel stack: its result is the next of the stream. *)
Definition pmm_alloc_stack : M sched Z :=
  s ← gets Datatypes.id;
  modify (set_streams (clock_reads s) (S (stack_allocs s)));;
  mret (stack_pages (mach s) (stack_allocs s)).

Definition with_stack (top phys pages : Z) (t : task) : task :=
  Task (pid t) (tgid t) (exit_code t) (state_of t) (cpu t) (next t) (waits t) (is_kernel t) (is_linux t) (shared t)
    (sig_pending t) (sig_blocked t) (cr3 t) top phys pages (user_fs_base t) (resumes t).
Definition alloc_kernel_stack (p : nat) : M sched bool :=
  let pages := KSTACK_SIZE / PAGE_SIZE in
  phys ← pmm_alloc_stack;
  if phys =? 0 then mret false
  else on_task p (with_stack (u64 (vmm_phys_to_virt phys + KSTACK_SIZE)) phys pages);; mret true.

Definition as_kernel (root : Z) (t : task) : task :=
  Task (pid t) (pid t) (exit_code t) (state_of t) (cpu t) (next t) (waits t) true (is_linux t) (shared t)
    (sig_pending t) (sig_blocked t) root (kernel_stack_top t) (kernel_stack_phys t) (kernel_stack_pages t)
    (user_fs_base t) (resumes t).
Definition process_create_kernel : M sched (option nat) :=
  r ← proc_alloc;
  match r with
  | None => mret None
  | Some p =>
      m ← gets mach;
      on_task p (as_kernel (kernel_pml4 m));;
      ok ← alloc_kernel_stack p;
      if negb ok then on_task p (set_state PROC_DEAD);; mret None
      else on_task p (set_resumes false);; mret (Some p)
  end.

(** The model keeps the address space and the shared part of a user process;
    its registers, name and arguments are left out. *)
Definition as_user (i : nat) (root : Z) (t : task) : task :=
  Task (pid t) (pid t) (exit_code t) (state_of t) (cpu t) (next t) (waits t) (is_kernel t) (is_linux t) (Some i)
    (sig_pending t) (sig_blocked t) root (kernel_stack_top t) (kernel_stack_phys t) (kernel_stack_pages t)
    0 (resumes t).
Definition drop_shared (t : task) : task :=
  Task (pid t) (tgid t) (exit_code t) PROC_DEAD (cpu t) (next t) (waits t) (is_kernel t) (is_linux t) None
    (sig_pending t) (sig_blocked t) (cr3 t) (kernel_stack_top t) (kernel_stack_phys t) (kernel_stack_pages t)
    (user_fs_base t) (resumes t).
Definition process_create_user (root : Z) : M sched (option nat) :=
  r ← proc_alloc;
  match r with
  | None => mret None
  | Some p =>
      on_task p (as_user p root);;
      modify (λ s, set_sigact (<[p := no_handlers]> (sigact s)) s);;
      ok ← alloc_kernel_stack p;
      if negb ok then on_task p drop_shared;; mret None
      else on_task p (set_resumes false);; mret (Some p)
  end.

Definition PROCESS_LAUNCH_ERR_CREATE_USER : Z := -200.

(** [loaded] is the result of [elf_load_fry]: an error, or the new address
    space.  The result, the value left in [g_process_last_launch_error], and
    the address space that is destroyed again when no process can be made. *)
Definition process_launch (id : Z) (loaded : Z + Z) : M sched (Z * Z * option Z) :=
  cur ← sched_current id;
  match loaded with
  | inl err => mret (err, err, None)
  | inr root =>
      r ← process_create_user root;
      match r with
      | None => mret (PROCESS_LAUNCH_ERR_CREATE_USER, PROCESS_LAUNCH_ERR_CREATE_USER, Some root)
      | Some p =>
          (match cur with
           | None => mret tt
           | Some c => ct ← task_at c; on_task p (set_cpu (cpu ct))
           end);;
          t ← task_at p;
          sched_add (pid t);;
          mret (s32 (pid t), 0, None)
      end
  end.

(** Tasks that wait for thread [tid] to end. *)
Definition wake_joiner (tid : Z) (i : nat) : M sched unit :=
  t ← task_at i;
  if is_state PROC_WAITING t && (w_tid (waits t) =? tid) then
    on_task i (λ t, let w := waits t in
      set_waits (Wait (w_pid w) 0 (w_key w) (w_bitset w) (w_poll w) (w_result w) (w_time w)) t);;
    sched_wake (pid t)
  else mret tt.
Definition wake_joiners (tid : Z) : M sched unit :=
  for_procs (λ i n, wake_joiner tid i;; mret n);; mret tt.

Definition exited (code : Z) (t : task) : task :=
  let w := waits t in
  Task (pid t) (tgid t) code (state_of t) (cpu t) (next t)
    (Wait 0 0 (w_key w) (w_bitset w) (w_poll w) (w_result w) (w_time w)) (is_kernel t) (is_linux t) (shared t)
    (sig_pending t) (sig_blocked t) (cr3 t) (kernel_stack_top t) (kernel_stack_phys t) (kernel_stack_pages t)
    (user_fs_base t) (resumes t).
Definition process_thread_exit (tid code : Z) : M sched Z :=
  s ← gets Datatypes.id;
  match find_proc (λ t, pid t =? tid) s with
  | None => mret (- ESRCH)
  | Some i =>
      t ← task_at i;
      if is_state PROC_UNUSED t || is_state PROC_DEAD t then mret (- ESRCH)
      else if is_kernel t || (pid t =? tgid t) then mret (- EINVAL)
      else
        on_task i (exited code);;
        sched_remove_with_state tid PROC_ZOMBIE;;
        on_task i (set_state PROC_ZOMBIE);;
        wake_joiners tid;;
        mret 0
  end.

(** The result and the exit code stored. *)
Definition process_wait_status (id : Z) (target : Z) : M sched (Z * option Z) :=
  if target =? 0 then mret (- EINVAL, None)
  else
    cur ← sched_current id;
    match cur with
    | None => mret (- EINVAL, None)
    | Some c =>
        ct ← task_at c;
        if pid ct =? target then mret (- EINVAL, None)
        else
          s ← gets Datatypes.id;
          match find_proc (λ t, (pid t =? target) && negb (is_state PROC_UNUSED t)) s with
          | None => mret (- ESRCH, None)
          | Some i =>
              t ← task_at i;
              if negb (is_kernel t) && negb (pid t =? tgid t) then mret (- EINVAL, None)
              else if is_state PROC_DEAD t then mret (0, Some (exit_code t))
              else
                on_task c (λ t, set_waits (Wait target 0 0 0 (w_poll (waits t)) 0 UINT64_MAX) t);;
                sched_block (pid ct);;
                mret (1, None)
          end
    end.
Definition process_wait (id : Z) (target : Z) : M sched Z :=
  r ← process_wait_status id target; mret r.1.

(** ** Start-up *)

Definition boot_index (c : nat) : nat := (Z.to_nat PROC_MAX + c)%nat.
Definition boot_task (c : nat) (root stack_top : Z) : task :=
  Task 0 0 0 PROC_RUNNING (u8 (Z.of_nat c)) None no_wait true false None 0 0 root stack_top 0 0 0 false.
Definition init_boot_context (c : nat) (stack_top : Z) : M sched unit :=
  m ← gets mach;
  on_task (boot_index c) (λ _, boot_task c (kernel_pml4 m) stack_top).

Definition seed_percpu (c : nat) (v : Z) : M sched unit :=
  modify (λ s, set_percpus (alter (λ p, Percpu v (rsp0 p) (fs_base p) (active_cr3 p)) c (percpus s)) s).

(** [boot_top] is the top of the linker's boot stack, [rsp] the stack pointer. *)
Definition sched_init (boot_top rsp : Z) : M sched unit :=
  m ← gets mach;
  for_ (R := unit) 0 (Z.min (cpu_count m) MAX_CPUS) (λ i,
    let c := Z.to_nat i in
    set_queue c (Runqueue None None 0);;
    modify (λ s, set_current (<[c := None]> (current s)) s);;
    r ← process_create_kernel;
    match r with
    | None => mret None
    | Some idle =>
        on_task idle (set_cpu (u8 i));;
        modify (λ s, set_idle (<[c := Some idle]> (idle_task s)) s);;
        rq_push c idle;;
        modify (λ s, set_current (<[c := Some idle]> (current s)) s);;
        mret None
    end);;
  let bsp := Z.to_nat (bsp_of m) in
  init_boot_context bsp boot_top;;
  modify (λ s, set_current (<[bsp := Some (boot_index bsp)]> (current s)) s);;
  seed_percpu bsp rsp;;
  modify (set_next_cpu 0);;
  modify (λ s, set_flags true (g_first_context_switch_seen s) (g_first_user_switch_seen s) s).

(** The index of the record a processor's entry code uses. *)
Definition sched_percpu_ptr (c : Z) : Z := if MAX_CPUS <=? c then 0 else c.

Definition sched_ap_ready : M sched bool := gets g_sched_ready.

Definition sched_ap_start (id stack_top : Z) : M sched unit :=
  m ← gets mach;
  let c := cpu_index m id in
  init_boot_context c stack_top;;
  modify (λ s, set_current (<[c := Some (boot_index c)]> (current s)) s);;
  seed_percpu c stack_top.
