(* ===== verification/SchedQueue.v ===== *)
(** * Run queues as lists

    A run queue of linked tasks stands for the list of its task indices.
    [rep] relates the queues of a state to those lists; pushing appends,
    popping drops the first, removing deletes, promoting moves to the front. *)

From S2P Require Import Prelude Sched.

(** ** Representation *)

(** The [next] fields follow the list. *)
Definition chain (ts : list task) (l : list nat) : Prop :=
  ∀ k i, l !! k = Some i → next <$> ts !! i = Some (l !! S k).

Definition queue_rep (ts : list task) (q : runqueue) (l : list nat) : Prop :=
  head q = l !! 0%nat ∧ tail q = last l ∧ count q = Z.of_nat (length l) ∧ chain ts l.

Record rep (s : sched) (Q : list (list nat)) : Prop := {
  rep_queues : Forall2 (queue_rep (tasks s)) (rq s) Q;
  rep_nodup : NoDup (concat Q);
  rep_bound : Z.of_nat (length (concat Q)) < 2 ^ 32 - 1
}.

(** The same tasks, whatever their links. *)
Definition same_tasks (ts ts' : list task) : Prop := set_next None <$> ts' = set_next None <$> ts.

(** [s'] is [s] with other queues. *)
Definition requeues (s s' : sched) : Prop :=
  ∃ ts r, s' = set_rq r (set_tasks ts s) ∧ same_tasks (tasks s) ts.

Lemma requeues_refl s : requeues s s.
Proof. exists (tasks s), (rq s). split; [by destruct s|done]. Qed.

Lemma requeues_trans s1 s2 s3 : requeues s1 s2 → requeues s2 s3 → requeues s1 s3.
Proof.
  intros (t1 & r1 & -> & H1) (t2 & r2 & -> & H2). exists t2, r2. split; [done|].
  unfold same_tasks in *. simpl in *. congruence.
Qed.

(** A task after links changed: the same one but for its link. *)
Lemma same_tasks_lookup ts ts' i t : same_tasks ts ts' → ts' !! i = Some t →
  ∃ t0, ts !! i = Some t0 ∧ t = set_next (next t) t0.
Proof.
  intros Hs Ht. pose proof (f_equal (λ l, l !! i) Hs) as E. simpl in E. rewrite !list_lookup_fmap, Ht in E.
  destruct (ts !! i) as [t0|]; [|done]. exists t0. split; [done|]. destruct t, t0. simpl in *. by simplify_eq.
Qed.

Lemma same_tasks_sym ts ts' : same_tasks ts ts' → same_tasks ts' ts.
Proof. by unfold same_tasks. Qed.

Lemma same_tasks_length ts ts' : same_tasks ts ts' → length ts' = length ts.
Proof. intros H. apply (f_equal length) in H. by rewrite !length_fmap in H. Qed.

Lemma same_tasks_next ts i t v : ts !! i = Some t → same_tasks ts (<[i := set_next v t]> ts).
Proof.
  intros Ht. unfold same_tasks. rewrite list_fmap_insert. simpl.
  apply list_insert_id. by rewrite list_lookup_fmap, Ht.
Qed.

Lemma same_tasks_trans t1 t2 t3 : same_tasks t1 t2 → same_tasks t2 t3 → same_tasks t1 t3.
Proof. unfold same_tasks. congruence. Qed.

(** ** Lists of queues *)

Lemma concat_insert (Q : list (list nat)) c l l' :
  Q !! c = Some l → concat (<[c := l']> Q) ++ l ≡ₚ concat Q ++ l'.
Proof.
  intros Hc. apply list_elem_of_split_length in Hc as (Q1 & Q2 & -> & ->).
  rewrite insert_app_r_alt, Nat.sub_diag by lia. simpl. rewrite !concat_app. simpl.
  solve_Permutation.
Qed.

Lemma concat_disjoint (Q : list (list nat)) c c' l l' i :
  NoDup (concat Q) → Q !! c = Some l → Q !! c' = Some l' → c ≠ c' → i ∈ l → i ∉ l'.
Proof.
  intros Hn Hc Hc' Hne Hi Hi'. pose proof (concat_insert Q c l [] Hc) as Hp. rewrite app_nil_r in Hp.
  rewrite <-Hp in Hn. apply NoDup_app in Hn as (_ & Hd & _). apply (Hd i); [|done].
  apply list_elem_of_In, in_concat. exists l'. split; [|by apply list_elem_of_In].
  apply list_elem_of_In, (list_elem_of_lookup_2 _ c'). by rewrite list_lookup_insert_ne.
Qed.

Lemma elem_of_concat (Q : list (list nat)) c l i : Q !! c = Some l → i ∈ l → i ∈ concat Q.
Proof.
  intros Hc Hi. apply list_elem_of_In, in_concat. exists l. split; [|by apply list_elem_of_In].
  by apply list_elem_of_In, (list_elem_of_lookup_2 _ c).
Qed.

Lemma elem_of_concat_inv (Q : list (list nat)) i : i ∈ concat Q → ∃ c l, Q !! c = Some l ∧ i ∈ l.
Proof.
  intros Hi. apply list_elem_of_In, in_concat in Hi as (l & Hl & Hi). apply list_elem_of_In in Hl, Hi.
  apply list_elem_of_lookup_1 in Hl as [c Hc]. by exists c, l.
Qed.

Lemma concat_NoDup_queue (Q : list (list nat)) c l : NoDup (concat Q) → Q !! c = Some l → NoDup l.
Proof.
  intros Hn Hc. pose proof (concat_insert Q c l [] Hc) as Hp. rewrite app_nil_r in Hp.
  rewrite <-Hp in Hn. by apply NoDup_app in Hn as (_ & _ & ?).
Qed.

Lemma chain_ext ts ts' l :
  (∀ i, i ∈ l → next <$> ts' !! i = next <$> ts !! i) → chain ts l → chain ts' l.
Proof. intros He Hc k i Hk. rewrite He; [by apply Hc|]. by eapply list_elem_of_lookup_2. Qed.

Lemma rep_queue s Q c l : rep s Q → Q !! c = Some l → ∃ q, rq s !! c = Some q ∧ queue_rep (tasks s) q l.
Proof.
  intros HR Hc. destruct (Forall2_lookup_r _ _ _ _ _ (rep_queues _ _ HR) Hc) as (q & Hq & Hr). by exists q.
Qed.

Lemma chain_task ts l i : chain ts l → i ∈ l → ∃ t, ts !! i = Some t.
Proof.
  intros Hc [k Hk]%list_elem_of_lookup_1. specialize (Hc k i Hk). destruct (ts !! i) as [t|]; [by exists t|done].
Qed.

(** One queue replaced: the links of the other queues must be as before. *)
Lemma rep_update s Q c l l' q' ts :
  rep s Q → Q !! c = Some l → queue_rep ts q' l' →
  (∀ i, i ∉ l → i ∈ concat Q → next <$> ts !! i = next <$> tasks s !! i) →
  NoDup (concat (<[c := l']> Q)) → Z.of_nat (length (concat (<[c := l']> Q))) < 2 ^ 32 - 1 →
  rep (set_rq (<[c := q']> (rq s)) (set_tasks ts s)) (<[c := l']> Q).
Proof.
  intros HR Hc Hq' Hts Hn Hb. split; [|done|done]. cbn [tasks rq set_rq set_tasks].
  apply Forall2_same_length_lookup_2.
  { rewrite !length_insert. apply (Forall2_length _ _ _ (rep_queues _ _ HR)). }
  intros c' q l0 H1 H2. destruct (decide (c' = c)) as [->|Hne].
  - assert (c < length Q)%nat by (by eapply lookup_lt_Some).
    rewrite list_lookup_insert_eq in H2 by done.
    rewrite list_lookup_insert_eq in H1
      by (rewrite (Forall2_length _ _ _ (rep_queues _ _ HR)); done). by simplify_eq.
  - rewrite list_lookup_insert_ne in H1 by done. rewrite list_lookup_insert_ne in H2 by done.
    destruct (rep_queue _ _ _ _ HR H2) as (q0 & Hq0 & Hh & Ht & Hcnt & Hch). simplify_eq.
    split_and!; [done..|]. eapply chain_ext; [|exact Hch]. intros i Hi. apply Hts; [|by eapply elem_of_concat].
    apply (concat_disjoint Q c' c l0 l i (rep_nodup _ _ HR) H2 Hc); [done|done].
Qed.

(** ** Steps *)

Lemma wp_on_task i f (R : unit → sched → Prop) s t :
  tasks s !! i = Some t → R tt (set_tasks (<[i := f t]> (tasks s)) s) → wp (on_task i f) R s.
Proof. intros Ht HR. unfold on_task, wp, update_opt. by rewrite Ht. Qed.
Lemma wp_task_at i (R : task → sched → Prop) s t : tasks s !! i = Some t → R t s → wp (task_at i) R s.
Proof. intros Ht HR. by eapply wp_lift_opt. Qed.
Lemma wp_queue_at c (R : runqueue → sched → Prop) s q : rq s !! c = Some q → R q s → wp (queue_at c) R s.
Proof. intros Ht HR. by eapply wp_lift_opt. Qed.

(** [rq_push] appends. *)
Lemma wp_rq_push s Q c l p :
  rep s Q → Q !! c = Some l → p ∉ concat Q → (p < length (tasks s))%nat →
  Z.of_nat (length (concat Q)) < 2 ^ 32 - 2 →
  wp (rq_push c p) (λ _ s', rep s' (<[c := l ++ [p]]> Q) ∧ requeues s s') s.
Proof.
  intros HR Hc Hp Hlt Hb. destruct (rep_queue _ _ _ _ HR Hc) as (q & Hq & Hh & Ht & Hcnt & Hch).
  destruct (lookup_lt_is_Some_2 (tasks s) p Hlt) as [tp Htp].
  assert (length (rq s) = length Q) as Hlen by apply (Forall2_length _ _ _ (rep_queues _ _ HR)).
  assert (c < length Q)%nat as Hcl by (by eapply lookup_lt_Some).
  assert (p ∉ l) as Hpl by (intros ?; by apply Hp, (elem_of_concat Q c l)).
  pose proof (concat_insert Q c l (l ++ [p]) Hc) as Hperm.
  assert (concat (<[c := l ++ [p]]> Q) ≡ₚ p :: concat Q) as Hperm'.
  { apply (Permutation_app_inv_r l). rewrite Hperm. solve_Permutation. }
  assert (NoDup (concat (<[c := l ++ [p]]> Q))) as Hn'.
  { rewrite Hperm'. constructor; [done|apply (rep_nodup _ _ HR)]. }
  assert (Z.of_nat (length (concat (<[c := l ++ [p]]> Q))) < 2 ^ 32 - 1) as Hb'
    by (rewrite Hperm'; simpl; lia).
  assert (length l ≤ length (concat Q))%nat as Hll.
  { pose proof (concat_insert Q c l [] Hc) as Hq0. apply Permutation_length in Hq0.
    rewrite !length_app in Hq0. simpl in Hq0. lia. }
  unfold rq_push. apply wp_bind. eapply wp_on_task; [exact Htp|].
  apply wp_bind. eapply wp_queue_at; [exact Hq|]. rewrite Hh.
  set (ts1 := <[p := set_next None tp]> (tasks s)).
  assert (u32 (Z.of_nat (length l) + 1) = Z.of_nat (length (l ++ [p]))) as Hu
    by (rewrite u32_small, length_app by lia; simpl; lia).
  assert (∀ i, i ≠ p → ts1 !! i = tasks s !! i) as Hts1 by (intros i Hi; by apply list_lookup_insert_ne).
  assert (ts1 !! p = Some (set_next None tp)) as Hts1p by (by apply list_lookup_insert_eq).
  destruct (decide (l = [])) as [->|Hl].
  - simpl. wp_steps. unfold set_queue. wp_steps. eapply wp_queue_at;
      [by apply list_lookup_insert_eq; simpl; rewrite Hlen|]. wp_steps. cbn [tail head count].
    simpl rq. rewrite list_insert_insert_eq. split.
    + apply (rep_update s Q c []); [done|done| |  |done|done].
      * split_and!; [done|done|by rewrite Hcnt|]. intros k i Hk. destruct k as [|k]; [|done]. simpl in Hk.
        simplify_eq. by rewrite Hts1p.
      * intros i _ Hi. rewrite Hts1; [done|]. intros ->. done.
    + eexists ts1, _. split; [done|]. by apply same_tasks_next.
  - destruct (exists_last Hl) as (l0 & z & ->). rewrite last_snoc in Ht.
    assert (z ∈ l0 ++ [z]) as Hz by set_solver.
    assert (z ≠ p) as Hzp by (intros ->; done).
    destruct (chain_task _ _ _ Hch Hz) as [tz Htz].
    pose proof (concat_NoDup_queue _ _ _ (rep_nodup _ _ HR) Hc) as Hnl.
    assert ((l0 ++ [z]) !! 0%nat = Some (default z (l0 !! 0%nat))) as H0 by (by destruct l0).
    rewrite H0 in Hh |- *. cbv iota. wp_steps. rewrite Ht. eapply wp_lift_opt; [done|].
    wp_steps. eapply wp_on_task; [simpl; by rewrite Hts1|]. unfold set_queue. wp_steps.
    eapply wp_queue_at; [by apply list_lookup_insert_eq; simpl; rewrite Hlen|]. wp_steps.
    cbn [tail head count]. simpl rq. rewrite list_insert_insert_eq. split.
    + apply (rep_update s Q c (l0 ++ [z])); [done|done| | |done|done].
      * split_and!; [by destruct l0|by rewrite last_snoc|by rewrite Hcnt|].
        intros k i Hk. cbn [tasks set_tasks].
        destruct (decide (k = length (l0 ++ [z]))) as [->|Hk1].
        { rewrite lookup_app_r, Nat.sub_diag in Hk by lia. simpl in Hk. simplify_eq.
          rewrite list_lookup_insert_ne, Hts1p by done. simpl. by rewrite lookup_ge_None_2 by (rewrite length_app; simpl; lia). }
        assert (k < length (l0 ++ [z]))%nat as Hk2
          by (apply lookup_lt_Some in Hk; rewrite length_app in Hk; simpl in Hk; lia).
        rewrite lookup_app_l in Hk by done.
        assert (i ≠ p) by (intros ->; apply Hpl; by eapply list_elem_of_lookup_2).
        destruct (decide (k = length l0)) as [->|Hk3].
        { rewrite lookup_app_r, Nat.sub_diag in Hk by lia. simpl in Hk. simplify_eq.
          rewrite list_lookup_insert_eq by (unfold ts1; rewrite length_insert; by eapply lookup_lt_Some). simpl. f_equal.
          symmetry. rewrite lookup_app_r by (rewrite length_app; simpl; lia).
          by replace (S (length l0) - length (l0 ++ [i]))%nat with 0%nat by (rewrite length_app; simpl; lia). }
        rewrite length_app in Hk2. simpl in Hk2.
        assert (i ≠ z).
        { intros ->. apply Hk3. apply (NoDup_lookup (l0 ++ [z]) k (length l0) z Hnl Hk).
          by rewrite lookup_app_r, Nat.sub_diag by lia. }
        rewrite list_lookup_insert_ne, Hts1 by done. rewrite (Hch k i Hk). f_equal.
        symmetry. apply lookup_app_l. rewrite length_app. simpl. lia.
      * intros i Hi Hi'. cbn [tasks set_tasks]. rewrite list_lookup_insert_ne by (intros ->; done).
        rewrite Hts1; [done|]. intros ->. done.
    + eexists _, _. split; [reflexivity|]. eapply same_tasks_trans; [apply (same_tasks_next _ p tp None Htp)|].
      apply same_tasks_next. simpl. by rewrite Hts1.
Qed.

(** Unlinking [x]: its predecessor points to its successor. *)
Lemma unlink_rep s Q c l1 x l2 q ts :
  rep s Q → Q !! c = Some (l1 ++ x :: l2) → rq s !! c = Some q →
  (∀ i, i ≠ x → last l1 ≠ Some i → next <$> ts !! i = next <$> tasks s !! i) →
  (∀ p, last l1 = Some p → next <$> ts !! p = Some (l2 !! 0%nat)) →
  rep (set_rq (<[c := Runqueue ((l1 ++ l2) !! 0%nat) (last (l1 ++ l2)) (count q - 1)]> (rq s)) (set_tasks ts s))
    (<[c := l1 ++ l2]> Q) ∧ x ∉ concat (<[c := l1 ++ l2]> Q).
Proof.
  intros HR Hc Hq H1 H2. destruct (rep_queue _ _ _ _ HR Hc) as (q0 & Hq0 & _ & _ & Hcnt & Hch).
  rewrite Hq in Hq0. simplify_eq.
  pose proof (concat_NoDup_queue _ _ _ (rep_nodup _ _ HR) Hc) as Hnl.
  assert (x :: concat (<[c := l1 ++ l2]> Q) ≡ₚ concat Q) as Hperm.
  { apply (Permutation_app_inv_r (l1 ++ l2)). rewrite <-(concat_insert Q c _ (l1 ++ l2) Hc). solve_Permutation. }
  pose proof (rep_nodup _ _ HR) as Hn. rewrite <-Hperm in Hn. apply NoDup_cons in Hn as [Hx Hn].
  split; [|done]. apply (rep_update s Q c (l1 ++ x :: l2)); [done|done| | |done|].
  - split_and!; [done|done| |].
    { cbn [count]. rewrite Hcnt, !length_app. simpl. lia. }
    intros k i Hk. destruct (decide (k < length l1)%nat) as [Hlt|Hge].
    + assert ((l1 ++ x :: l2) !! k = Some i) as Hk' by (rewrite lookup_app_l in Hk |- *; done).
      destruct (decide (S k = length l1)) as [E|E].
      * rewrite (H2 i).
        { symmetry. f_equal. rewrite lookup_app_r by lia. f_equal. lia. }
        rewrite last_lookup. rewrite <-E. simpl. by rewrite lookup_app_l in Hk by done.
      * rewrite H1; [rewrite (Hch k i Hk'); rewrite !lookup_app_l by lia; done| |].
        { intros ->. assert (k = length l1) by (apply (NoDup_lookup _ k (length l1) x Hnl Hk');
            by rewrite lookup_app_r, Nat.sub_diag by lia). lia. }
        rewrite last_lookup. intros Hl. assert (k = pred (length l1)); [|lia].
        apply (NoDup_lookup _ k (pred (length l1)) i Hnl Hk'). rewrite lookup_app_l by lia. done.
    + rewrite lookup_app_r in Hk by lia.
      assert ((l1 ++ x :: l2) !! S k = Some i) as Hk'.
      { rewrite lookup_app_r by lia. replace (S k - length l1)%nat with (S (k - length l1)) by lia. done. }
      rewrite H1; [rewrite (Hch _ _ Hk')| |].
      * f_equal. rewrite !lookup_app_r by lia.
        replace (S (S k) - length l1)%nat with (S (S (k - length l1))) by lia.
        by replace (S k - length l1)%nat with (S (k - length l1)) by lia.
      * intros ->. assert (S k = length l1); [|lia]. apply (NoDup_lookup _ _ _ x Hnl Hk').
        by rewrite lookup_app_r, Nat.sub_diag by lia.
      * rewrite last_lookup. intros Hl. assert (S k = pred (length l1)); [|lia].
        apply (NoDup_lookup _ _ _ i Hnl Hk'). rewrite lookup_app_l; [done|]. by eapply lookup_lt_Some.
  - intros i Hi _. apply H1; [set_solver|]. intros Hl. apply Hi. rewrite last_lookup in Hl.
    apply elem_of_app. left. by eapply list_elem_of_lookup_2.
  - pose proof (rep_bound _ _ HR) as Hb. rewrite <-Hperm in Hb. simpl in Hb. lia.
Qed.

Lemma wp_rq_pop s Q c x l :
  rep s Q → Q !! c = Some (x :: l) →
  wp (rq_pop c) (λ r s', r = Some x ∧ rep s' (<[c := l]> Q) ∧ (x ∉ concat (<[c := l]> Q)) ∧ requeues s s') s.
Proof.
  intros HR Hc. destruct (rep_queue _ _ _ _ HR Hc) as (q & Hq & Hh & Ht & Hcnt & Hch).
  destruct (chain_task _ _ x Hch) as [t Htx]; [set_solver|].
  pose proof (Hch 0%nat x eq_refl) as Hnx. rewrite Htx in Hnx. simpl in Hnx. injection Hnx as Hnx.
  unfold rq_pop. wp_steps. eapply wp_queue_at; [exact Hq|]. rewrite Hh. simpl.
  wp_steps. eapply wp_task_at; [exact Htx|]. unfold set_queue. wp_steps. eapply wp_on_task; [exact Htx|].
  wp_steps. split; [done|].
  destruct (unlink_rep s Q c [] x l q (<[x := set_next None t]> (tasks s)) HR Hc Hq) as [H1 H2].
  { intros i Hi _. by rewrite list_lookup_insert_ne. }
  { done. }
  split_and!; [|done|].
  - rewrite Hnx. replace (match l !! 0%nat with Some _ => tail q | None => None end) with (last l).
    2:{ rewrite Ht. by destruct l. }
    replace (if count q =? 0 then 0 else count q - 1) with (count q - 1)
      by (rewrite Hcnt; simpl; destruct (Z.eqb_spec (Z.of_nat (S (length l))) 0); lia).
    exact H1.
  - eexists _, _. split; [reflexivity|]. by apply same_tasks_next.
Qed.

Definition has_pid (s : sched) (v : Z) (i : nat) : Prop := pid <$> tasks s !! i = Some v.

(** What a removal leaves. *)
Definition removed (s : sched) (Q : list (list nat)) (c : nat) (v : Z) (r : option nat) (s' : sched) : Prop :=
  ∃ l1 x l2, Q !! c = Some (l1 ++ x :: l2) ∧ r = Some x ∧ has_pid s v x ∧
    rep s' (<[c := l1 ++ l2]> Q) ∧ (x ∉ concat (<[c := l1 ++ l2]> Q)) ∧ requeues s s'.

Lemma wp_remove_loop s Q c l v :
  rep s Q → Q !! c = Some l →
  wp (remove_loop c v (l !! 0%nat))
    (λ r s', removed s Q c v r s' ∨ r = None ∧ s' = s ∧ Forall (λ i, ¬ has_pid s v i) l) s.
Proof.
  intros HR Hc. destruct (rep_queue _ _ _ _ HR Hc) as (q & Hq & Hh & Ht & Hcnt & Hch).
  assert (length l ≤ length (concat Q))%nat as Hll.
  { pose proof (concat_insert Q c l [] Hc) as Hq0. apply Permutation_length in Hq0.
    rewrite !length_app in Hq0. simpl in Hq0. lia. }
  pose proof (rep_bound _ _ HR) as Hb.
  apply (wp_while_idx _ _ (λ n st s', s' = s ∧ ∃ l1 l2, l = l1 ++ l2 ∧ n = Z.of_nat (length l2) ∧
    Forall (λ i, ¬ has_pid s v i) l1 ∧ st = (last l1, l2 !! 0%nat)) _ (Z.of_nat (length l)));
    [by split; [|exists [], l]|lia|].
  intros n st s' (-> & l1 & l2 & -> & -> & Hl1 & ->).
  destruct l2 as [|x l2].
  { cbn [lookup list_lookup]. wp_steps. right. by rewrite app_nil_r. }
  change ((x :: l2) !! 0%nat) with (Some x). cbv iota beta.
  destruct (chain_task _ _ x Hch) as [t Htx]; [set_solver|].
  assert (next t = l2 !! 0%nat) as Hnx.
  { pose proof (Hch (length l1) x) as E. rewrite lookup_app_r, Nat.sub_diag in E by lia.
    specialize (E eq_refl). rewrite Htx in E. simpl in E. injection E as ->.
    rewrite lookup_app_r by lia. by replace (S (length l1) - length l1)%nat with 1%nat by lia. }
  wp_steps. eapply wp_task_at; [exact Htx|]. destruct (Z.eqb_spec (pid t) v) as [Hv|Hv].
  - apply wp_bind. eapply wp_queue_at; [exact Hq|]. apply wp_bind.
    pose proof (concat_NoDup_queue _ _ _ (rep_nodup _ _ HR) Hc) as Hnl.
    assert (has_pid s v x) as Hpid by (unfold has_pid; rewrite Htx; simpl; by f_equal).
    assert ((if bool_decide (tail q = Some x) then last l1 else tail q) = last (l1 ++ l2)) as Htl.
    { rewrite Ht. destruct (decide (l2 = [])) as [->|Hne].
      - rewrite last_snoc, bool_decide_true by done. by rewrite app_nil_r.
      - destruct (exists_last Hne) as (l3 & z & ->).
        rewrite app_comm_cons, !app_assoc, !last_snoc. rewrite bool_decide_false; [done|].
        intros [= ->]. apply NoDup_app in Hnl as (_ & _ & Hnl). apply NoDup_cons in Hnl as [Hnl _]. set_solver. }
    assert ((if count q =? 0 then 0 else count q - 1) = count q - 1) as Hc1.
    { rewrite Hcnt, length_app. simpl. destruct (Z.eqb_spec (Z.of_nat (length l1 + S (length l2))) 0); lia. }
    assert (last l1 = None ∨ ∃ p tp, last l1 = Some p ∧ p ≠ x ∧ tasks s !! p = Some tp) as [El|(p & tp & El & Hpx & Htp)].
    { destruct (last l1) as [p|] eqn:El; [right|by left]. rewrite last_lookup in El.
      apply list_elem_of_lookup_2 in El. destruct (chain_task _ _ p Hch) as [tp Htp]; [set_solver|].
      exists p, tp. split_and!; [done| |done]. intros ->.
      apply NoDup_app in Hnl as (_ & Hnl & _). apply (Hnl x El). set_solver. }
    + rewrite El in Htl |- *. wp_steps. unfold set_queue. wp_steps. eapply wp_on_task; [exact Htx|]. wp_steps.
      left. exists l1, x, l2. apply last_None in El as ->.
      destruct (unlink_rep s Q c [] x l2 q (<[x := set_next None t]> (tasks s)) HR Hc Hq) as [H1 H2].
      { intros i Hi _. by rewrite list_lookup_insert_ne. }
      { done. }
      split_and!; [done|done|done| |done|].
      * rewrite Hnx, Htl, Hc1. exact H1.
      * eexists _, _. split; [reflexivity|]. by apply same_tasks_next.
    + rewrite El in Htl |- *. wp_steps. eapply wp_on_task; [exact Htp|]. wp_steps. unfold set_queue. wp_steps.
      eapply wp_on_task; [simpl; rewrite list_lookup_insert_ne by done; exact Htx|]. wp_steps.
      left. exists l1, x, l2.
      destruct (unlink_rep s Q c l1 x l2 q (<[x := set_next None t]> (<[p := set_next (next t) tp]> (tasks s)))
        HR Hc Hq) as [H1 H2].
      { intros i Hi Hi'. rewrite El in Hi'. rewrite !list_lookup_insert_ne by congruence. done. }
      { intros p' Hp'. rewrite El in Hp'. simplify_eq. rewrite list_lookup_insert_ne by done.
        rewrite list_lookup_insert_eq by (by eapply lookup_lt_Some). simpl. by rewrite Hnx. }
      split_and!; [done|done|done| |done|].
      * rewrite Htl, Hc1. replace (head q) with ((l1 ++ l2) !! 0%nat); [exact H1|].
        rewrite Hh. destruct l1; [done|]. done.
      * eexists _, _. split; [reflexivity|]. eapply same_tasks_trans; [by apply (same_tasks_next _ p tp)|].
        apply same_tasks_next. cbn [tasks set_tasks set_rq]. by rewrite list_lookup_insert_ne.
  - wp_steps. exists (Z.of_nat (length l2)). split; [simpl; lia|]. split; [done|].
    exists (l1 ++ [x]), l2. split_and!; [by rewrite <-app_assoc|done| |by rewrite last_snoc, Hnx].
    apply Forall_app. split; [done|]. constructor; [|done]. unfold has_pid. rewrite Htx. simpl. congruence.
Qed.

(** All queues are searched: tasks are only put on processors that exist. *)
Lemma wp_remove_from_runqueue s Q v :
  rep s Q → cpu_count (mach s) ≤ Z.of_nat (length Q) → Z.of_nat (length Q) = MAX_CPUS →
  wp (remove_from_runqueue v) (λ r s',
    (∃ c, Z.of_nat c < cpu_count (mach s) ∧ removed s Q c v r s') ∨
    r = None ∧ s' = s ∧ ∀ c l i, Z.of_nat c < cpu_count (mach s) → Q !! c = Some l → i ∈ l → ¬ has_pid s v i) s.
Proof.
  intros HR Hn Hm. unfold remove_from_runqueue. wp_steps.
  assert (1 ≤ cpu_count (mach s)) as H1.
  { unfold cpu_count, smp_cpu_count. destruct (Z.eqb_spec (Z.of_nat (length (apic_ids (mach s)))) 0); lia. }
  rewrite Z.min_l by lia.
  apply (wp_for 0 (cpu_count (mach s)) _ (λ k s', s' = s ∧
    ∀ c l i, Z.of_nat c < k → Q !! c = Some l → i ∈ l → ¬ has_pid s v i)); [lia| | |].
  - split; [done|]. intros c l i Hc. lia.
  - intros k s' Hk [-> Hprev].
    destruct (lookup_lt_is_Some_2 Q (Z.to_nat k)) as [l Hl]; [lia|].
    destruct (rep_queue _ _ _ _ HR Hl) as (q & Hq & Hh & _). wp_steps. eapply wp_queue_at; [exact Hq|].
    rewrite Hh. eapply wp_mono; [by apply wp_remove_loop|].
    intros r s' [Hr|(-> & -> & Hf)].
    + destruct Hr as (l1 & x & l2 & Hr). pose proof Hr as (_ & -> & _). left. exists (Z.to_nat k).
      split; [lia|]. by exists l1, x, l2.
    + split; [done|]. intros c l' i Hc Hc' Hi. destruct (decide (Z.of_nat c < k)) as [Hlt|Hge].
      * by apply (Hprev c l').
      * replace c with (Z.to_nat k) in Hc' by lia. simplify_eq. rewrite Forall_forall in Hf. by apply Hf.
  - intros s' [-> Hall]. right. done.
Qed.

(** Linking a task in front of a queue. *)
Lemma link_front s Q c m x q :
  rep s Q → Q !! c = Some m → rq s !! c = Some q → x ∉ concat Q →
  next <$> tasks s !! x = Some (m !! 0%nat) → Z.of_nat (length (concat Q)) < 2 ^ 32 - 2 →
  rep (set_rq (<[c := Runqueue (Some x) (last (x :: m)) (count q + 1)]> (rq s)) s) (<[c := x :: m]> Q).
Proof.
  intros HR Hc Hq Hx Hnx Hb. destruct (rep_queue _ _ _ _ HR Hc) as (q0 & Hq0 & _ & _ & Hcnt & Hch). simplify_eq.
  assert (concat (<[c := x :: m]> Q) ≡ₚ x :: concat Q) as Hperm.
  { apply (Permutation_app_inv_r m). rewrite (concat_insert Q c m (x :: m) Hc). solve_Permutation. }
  replace (set_rq (<[c := Runqueue (Some x) (last (x :: m)) (count q + 1)]> (rq s)) s)
    with (set_rq (<[c := Runqueue (Some x) (last (x :: m)) (count q + 1)]> (rq s)) (set_tasks (tasks s) s))
    by (by destruct s).
  apply (rep_update s Q c m); [done|done| |done| |].
  - split_and!; [done|done|cbn [count length]; lia|]. intros [|k] i Hk; simpl in Hk; simplify_eq; [done|].
    by apply Hch.
  - rewrite Hperm. constructor; [done|apply (rep_nodup _ _ HR)].
  - rewrite Hperm. simpl. lia.
Qed.

Definition user_task (s : sched) (i : nat) : Prop := is_kernel <$> tasks s !! i = Some false.

Lemma wp_promote s Q c l :
  rep s Q → Q !! c = Some l →
  wp (rq_promote_first_user c) (λ _ s', ∃ l', l' ≡ₚ l ∧ rep s' (<[c := l']> Q) ∧ requeues s s' ∧
    (Exists (user_task s) l → ∃ x, l' !! 0%nat = Some x ∧ user_task s x)) s.
Proof.
  intros HR Hc. destruct (rep_queue _ _ _ _ HR Hc) as (q & Hq & Hh & Ht & Hcnt & Hch).
  assert (<[c := l]> Q = Q) as HQ by (by apply list_insert_id).
  unfold rq_promote_first_user. wp_steps. eapply wp_queue_at; [exact Hq|]. rewrite Hh.
  destruct l as [|h l]; simpl.
  { wp_steps. exists []. rewrite HQ. split_and!; [done|done|apply requeues_refl|]. intros He. inversion He. }
  destruct (chain_task _ _ h Hch) as [th Hth]; [set_solver|]. wp_steps. eapply wp_task_at; [exact Hth|].
  assert (next th = l !! 0%nat) as Hnh.
  { pose proof (Hch 0%nat h eq_refl) as E. rewrite Hth in E. simpl in E. by injection E. }
  destruct (is_kernel th) eqn:Hk.
  2:{ wp_steps. exists (h :: l). rewrite HQ. split_and!; [done|done|apply requeues_refl|]. intros _. exists h.
      split; [done|]. unfold user_task. by rewrite Hth; simpl; rewrite Hk. }
  assert (¬ user_task s h) as Hnu by (unfold user_task; rewrite Hth; simpl; rewrite Hk; congruence).
  assert (length (h :: l) ≤ length (concat Q))%nat as Hll.
  { pose proof (concat_insert Q c _ [] Hc) as Hq0. apply Permutation_length in Hq0.
    rewrite !length_app in Hq0. simpl in Hq0 |- *. lia. }
  pose proof (rep_bound _ _ HR) as Hb. simpl in Hll. rewrite Hnh. unfold promote_loop.
  apply (wp_while_idx _ _ (λ n st s', s' = s ∧ ∃ l1 p l2, h :: l = l1 ++ p :: l2 ∧ n = Z.of_nat (length l2) ∧
    Forall (λ i, ¬ user_task s i) (l1 ++ [p]) ∧ st = (p, l2 !! 0%nat)) _ (Z.of_nat (length l))).
  { split; [done|]. exists [], h, l. split_and!; [done|done|by constructor|done]. }
  { lia. }
  intros n st s' (-> & l1 & p & l2 & E & -> & Hl1 & ->). rewrite E in *. destruct l2 as [|x l2].
  { cbn [lookup list_lookup]. wp_steps. exists (l1 ++ [p]). rewrite HQ.
    split_and!; [done|done|apply requeues_refl|]. intros He. exfalso.
    apply Exists_exists in He as (i & Hi & Hu). rewrite Forall_forall in Hl1. by apply (Hl1 i). }
  change ((x :: l2) !! 0%nat) with (Some x). cbv iota beta.
  destruct (chain_task _ _ x Hch) as [t Htx]; [set_solver|].
  assert (l1 ++ p :: x :: l2 = (l1 ++ [p]) ++ x :: l2) as E2 by (by rewrite <-app_assoc).
  assert (next t = l2 !! 0%nat) as Hnx.
  { pose proof (Hch (length (l1 ++ [p])) x) as E'. rewrite E2, lookup_app_r, Nat.sub_diag in E' by lia.
    specialize (E' eq_refl). rewrite Htx in E'. simpl in E'. injection E' as ->.
    rewrite lookup_app_r by lia.
    by replace (S (length (l1 ++ [p])) - length (l1 ++ [p]))%nat with 1%nat by lia. }
  wp_steps. eapply wp_task_at; [exact Htx|]. destruct (is_kernel t) eqn:Hkx; simpl negb; cbv iota.
  { wp_steps. exists (Z.of_nat (length l2)). split; [simpl; lia|]. split; [done|].
    exists (l1 ++ [p]), x, l2. rewrite E2. split_and!; [done|done| |by rewrite Hnx].
    apply Forall_app. split; [done|]. constructor; [|done]. unfold user_task. rewrite Htx. simpl. congruence. }
  pose proof (concat_NoDup_queue _ _ _ (rep_nodup _ _ HR) Hc) as Hnl. rewrite E2 in Hnl.
  destruct (chain_task _ _ p Hch) as [tp Htp]; [set_solver|].
  assert (x ≠ p) as Hxp.
  { intros ->. apply NoDup_app in Hnl as (_ & Hnl & _). apply (Hnl p); set_solver. }
  apply wp_bind. eapply wp_queue_at; [exact Hq|]. apply wp_bind. eapply wp_on_task; [exact Htp|].
  apply wp_bind. eapply wp_on_task; [cbn [tasks set_tasks]; rewrite list_lookup_insert_ne by done; exact Htx|].
  unfold set_queue. wp_steps. cbn [tasks set_tasks].
  set (ts := <[x := set_next (head q) t]> (<[p := set_next (next t) tp]> (tasks s))).
  destruct (unlink_rep s Q c (l1 ++ [p]) x l2 q ts HR) as [H1 H2]; [by rewrite <-E2|done| | |].
  { intros i Hi Hi'. rewrite last_snoc in Hi'. unfold ts. by rewrite !list_lookup_insert_ne by congruence. }
  { intros p' Hp'. rewrite last_snoc in Hp'. simplify_eq. unfold ts. rewrite list_lookup_insert_ne by done.
    rewrite list_lookup_insert_eq by (by eapply lookup_lt_Some). simpl. by rewrite Hnx. }
  set (m := (l1 ++ [p]) ++ l2) in *. exists (x :: m).
  assert (c < length Q)%nat as Hcl by (by eapply lookup_lt_Some).
  assert (c < length (rq s))%nat as Hcr by (by eapply lookup_lt_Some).
  split_and!.
  - unfold m. rewrite E2. solve_Permutation.
  - eapply (link_front _ _ c m x) in H1; [|by apply list_lookup_insert_eq|by apply list_lookup_insert_eq|done| |].
    + simpl rq in H1. rewrite !list_insert_insert_eq in H1.
      replace (if bool_decide (tail q = Some x) then Some p else tail q) with (last (x :: m)).
      2:{ unfold m. rewrite Ht, E2. destruct (decide (l2 = [])) as [->|Hne].
          - rewrite app_nil_r, last_snoc, bool_decide_true by done. rewrite app_comm_cons. apply last_snoc.
          - destruct (exists_last Hne) as (l3 & z & ->).
            assert (last ((l1 ++ [p]) ++ x :: l3 ++ [z]) = Some z) as ->
              by (rewrite app_comm_cons, app_assoc; apply last_snoc).
            assert (last (x :: (l1 ++ [p]) ++ l3 ++ [z]) = Some z) as ->
              by (rewrite app_assoc, app_comm_cons; apply last_snoc).
            rewrite bool_decide_false; [done|].
            intros [= ->]. apply NoDup_app in Hnl as (_ & _ & Hnl). apply NoDup_cons in Hnl as [Hnl _]. set_solver. }
      replace (count q) with (count q - 1 + 1) at 1 by lia. exact H1.
    + cbn [tasks set_rq set_tasks]. unfold ts. rewrite list_lookup_insert_eq
        by (rewrite length_insert; by eapply lookup_lt_Some).
      simpl. f_equal. rewrite Hh. unfold m. by destruct l1.
    + pose proof (concat_insert Q c _ m Hc) as Hperm. apply Permutation_length in Hperm.
      rewrite E2, !length_app in Hperm. unfold m in *. rewrite !length_app in Hperm. simpl in *. lia.
  - eexists ts, _. split; [reflexivity|]. eapply same_tasks_trans; [by apply (same_tasks_next _ p tp)|].
    apply same_tasks_next. by rewrite list_lookup_insert_ne.
  - intros _. exists x. split; [done|]. unfold user_task. rewrite Htx. simpl. by rewrite Hkx.
Qed.
