(* ===== verification/SchedInv.v ===== *)
(** * The scheduler's invariant

    The queues hold different runnable slots of the process table, each on the
    queue of its own processor; live tasks have different numbers; the idle
    task of a processor belongs to it.  Waking, blocking and removing a task
    keep this, and the loops over the table wake exactly the tasks selected. *)

From S2P Require Import Prelude Vmm Sched SchedQueue.

(** ** The invariant *)

Definition nprocs : nat := Z.to_nat PROC_MAX.
Definition ncpus : nat := Z.to_nat MAX_CPUS.

Definition live (t : task) : Prop := state_of t ≠ PROC_UNUSED ∧ state_of t ≠ PROC_DEAD.

Definition queued_ok (s : sched) (c i : nat) : Prop :=
  Z.of_nat c < cpu_count (mach s) ∧ (i < nprocs)%nat ∧
  ∃ t, tasks s !! i = Some t ∧ state_of t = PROC_RUNNING ∧ cpu t = Z.of_nat c.

Definition idle_ok (s : sched) (c i : nat) : Prop :=
  Z.of_nat c < cpu_count (mach s) ∧ (i < nprocs)%nat ∧
  ∃ t, tasks s !! i = Some t ∧ (state_of t = PROC_RUNNING ∨ state_of t = PROC_WAITING) ∧
    is_kernel t = true ∧ cpu t = Z.of_nat c.

Definition task_ok (t : task) : Prop := 0 ≤ cpu t ∧ ∀ sh, shared t = Some sh → (sh < nprocs)%nat.

Record sizes (s : sched) : Prop := {
  size_cpus : cpu_count (mach s) ≤ MAX_CPUS;
  size_next : 0 ≤ g_sched_next_cpu s;
  size_tasks : length (tasks s) = (nprocs + ncpus)%nat;
  size_current : length (current s) = ncpus;
  size_idle : length (idle_task s) = ncpus;
  size_sigact : length (sigact s) = nprocs;
  size_handlers : Forall (λ h : list Z, length h = 64%nat) (sigact s)
}.

Record inv (s : sched) (Q : list (list nat)) : Prop := {
  inv_rep : rep s Q;
  inv_queues : length Q = ncpus;
  inv_sizes : sizes s;
  inv_current : ∀ c x, current s !! c = Some (Some x) → (x < nprocs + ncpus)%nat;
  inv_tasks : ∀ i t, tasks s !! i = Some t → task_ok t;
  inv_queued : ∀ c l i, Q !! c = Some l → i ∈ l → queued_ok s c i;
  inv_pids : ∀ i j ti tj, tasks s !! i = Some ti → tasks s !! j = Some tj →
    (i < nprocs)%nat → (j < nprocs)%nat → live ti → live tj → pid ti = pid tj → i = j;
  inv_next : 0 < next_pid s;
  inv_fresh : ∀ i t, (i < nprocs)%nat → tasks s !! i = Some t → live t → 0 < pid t < next_pid s;
  inv_idle : ∀ c i, idle_task s !! c = Some (Some i) → idle_ok s c i
}.

(** A queue with one more task at its end. *)
Definition push (c p : nat) (Q : list (list nat)) : list (list nat) := alter (λ l, l ++ [p]) c Q.

Lemma push_insert c p Q l : Q !! c = Some l → push c p Q = <[c := l ++ [p]]> Q.
Proof. apply (alter_insert (λ l, l ++ [p])). Qed.
Lemma length_push c p Q : length (push c p Q) = length Q.
Proof. apply length_alter. Qed.

Lemma concat_push c p Q l : Q !! c = Some l → concat (push c p Q) ≡ₚ p :: concat Q.
Proof.
  intros Hc. rewrite (push_insert _ _ _ _ Hc). apply (Permutation_app_inv_r l).
  rewrite (concat_insert Q c l (l ++ [p]) Hc). solve_Permutation.
Qed.

Lemma cpu_count_pos m : 1 ≤ cpu_count m.
Proof. unfold cpu_count, smp_cpu_count. destruct (Z.eqb_spec (Z.of_nat (length (apic_ids m))) 0); lia. Qed.

Lemma bsp_of_range m : 0 ≤ bsp_of m < cpu_count m.
Proof.
  pose proof (cpu_count_pos m). unfold bsp_of. destruct (Z.leb_spec (cpu_count m) (smp_bsp_index m)); [lia|].
  split; [|lia]. unfold smp_bsp_index. destruct (_ <? _)%nat; lia.
Qed.

Lemma cpu_index_range s id : sizes s → Z.of_nat (cpu_index (mach s) id) < cpu_count (mach s).
Proof.
  intros Hs. pose proof (cpu_count_pos (mach s)). unfold cpu_index.
  destruct (list_find _ _) as [[i a]|] eqn:E; [|lia].
  apply list_find_Some in E as (E & _). apply lookup_take_Some in E as [E _]. apply lookup_lt_Some in E.
  unfold cpu_count, smp_cpu_count. destruct (Z.eqb_spec (Z.of_nat (length (apic_ids (mach s)))) 0); lia.
Qed.

(** The queued tasks are slots of the table. *)
Lemma inv_total s Q : inv s Q → (length (concat Q) ≤ nprocs)%nat.
Proof.
  intros HI. rewrite <-(length_seq nprocs 0). apply submseteq_length, NoDup_submseteq.
  - apply (rep_nodup _ _ (inv_rep _ _ HI)).
  - intros i Hi. apply elem_of_concat_inv in Hi as (c & l & Hc & Hi).
    destruct (inv_queued _ _ HI _ _ _ Hc Hi) as (_ & Hlt & _). apply elem_of_seq. lia.
Qed.

Lemma inv_queue s Q c : inv s Q → Z.of_nat c < cpu_count (mach s) → ∃ l, Q !! c = Some l.
Proof.
  intros HI Hc. apply lookup_lt_is_Some_2. rewrite (inv_queues _ _ HI).
  pose proof (size_cpus _ (inv_sizes _ _ HI)). unfold ncpus. lia.
Qed.

Lemma inv_slot s Q i : inv s Q → (i < nprocs)%nat → ∃ t, tasks s !! i = Some t.
Proof. intros HI Hi. apply lookup_lt_is_Some_2. rewrite (size_tasks _ (inv_sizes _ _ HI)). lia. Qed.

(** A task that is not runnable is on no queue. *)
Lemma not_queued s Q i t : inv s Q → tasks s !! i = Some t → state_of t ≠ PROC_RUNNING → i ∉ concat Q.
Proof.
  intros HI Ht Hst Hi. apply elem_of_concat_inv in Hi as (c & l & Hc & Hi).
  destruct (inv_queued _ _ HI _ _ _ Hc Hi) as (_ & _ & t' & Ht' & Hr & _). simplify_eq.
Qed.

(** ** Preservation *)

(** Changes that the invariant does not see. *)
Ltac inv_frame :=
  lazymatch goal with H : inv ?s ?Q |- inv _ ?Q =>
    destruct H as [[? ? ?] ? [? ? ? ? ? ? ?] ? ? ? ? ? ? ?];
    constructor; [constructor; assumption|assumption|constructor; assumption|assumption..] end.

Lemma same_tasks_insert ts ts' i t t' :
  same_tasks ts ts' → set_next None t' = set_next None t → same_tasks (<[i := t]> ts) (<[i := t']> ts').
Proof. unfold same_tasks. intros H E. rewrite !list_fmap_insert. by rewrite H, E. Qed.

(** Other queues over the same tasks. *)
Lemma inv_requeue s s' Q Q' :
  inv s Q → requeues s s' → rep s' Q' → length Q' = ncpus →
  (∀ c l i, Q' !! c = Some l → i ∈ l → queued_ok s c i) → inv s' Q'.
Proof.
  intros HI (ts & r & -> & Hs) HR Hl Hq.
  assert (∀ i t, ts !! i = Some t → ∃ t0, tasks s !! i = Some t0 ∧ t = set_next (next t) t0) as Hts
    by (intros; by apply (same_tasks_lookup _ _ _ _ Hs)).
  assert (∀ i t0, tasks s !! i = Some t0 → ∃ v, ts !! i = Some (set_next v t0)) as Hst.
  { intros i t0 Ht0. apply (same_tasks_lookup _ _ _ _ (same_tasks_sym _ _ Hs)) in Ht0 as (t1 & Ht1 & E).
    exists (next t1). rewrite Ht1, E. by destruct t1. }
  destruct HI as [_ _ [? ? ? ? ? ? ?] Hc Ht _ Hp Hnp Hf Hi]. constructor; [done|done| |done| | | |done| | ].
  - constructor; simpl; [done|done| |done..]. by rewrite (same_tasks_length _ _ Hs).
  - intros i t (t0 & Ht0 & ->)%Hts. exact (Ht i t0 Ht0).
  - intros c l i Hc1 Hi1. destruct (Hq c l i Hc1 Hi1) as (? & ? & t0 & Ht0 & ? & ?).
    destruct (Hst i t0 Ht0) as [v Hv]. split_and!; [done|done|]. by exists (set_next v t0).
  - intros i j ti tj (ti0 & Hti & ->)%Hts (tj0 & Htj & ->)%Hts. apply (Hp i j ti0 tj0 Hti Htj).
  - intros i t Hlt (t0 & Ht0 & ->)%Hts. exact (Hf i t0 Hlt Ht0).
  - intros c i Hci. destruct (Hi c i Hci) as (? & ? & t0 & Ht0 & ? & ? & ?).
    destruct (Hst i t0 Ht0) as [v Hv]. split_and!; [done|done|]. by exists (set_next v t0).
Qed.

(** One task changed. *)
Lemma inv_update s Q i t t' :
  inv s Q → tasks s !! i = Some t → task_ok t' →
  ((i < nprocs)%nat → live t' → 0 < pid t' < next_pid s ∧
     ∀ j tj, j ≠ i → (j < nprocs)%nat → tasks s !! j = Some tj → live tj → pid tj ≠ pid t') →
  (i ∈ concat Q → next t' = next t ∧ state_of t' = PROC_RUNNING ∧ cpu t' = cpu t) →
  (∀ c, idle_task s !! c = Some (Some i) →
    (state_of t' = PROC_RUNNING ∨ state_of t' = PROC_WAITING) ∧ is_kernel t' = true ∧ cpu t' = cpu t) →
  inv (set_tasks (<[i := t']> (tasks s)) s) Q.
Proof.
  intros HI Ht Hok Hlv Hq Hid.
  assert (i < length (tasks s))%nat as Hlt by (by eapply lookup_lt_Some).
  assert (∀ j tj, <[i := t']> (tasks s) !! j = Some tj → (j = i ∧ tj = t') ∨ (j ≠ i ∧ tasks s !! j = Some tj)) as Hl.
  { intros j tj Hj. destruct (decide (j = i)) as [->|Hne]; [left|right].
    - rewrite list_lookup_insert_eq in Hj by done. by simplify_eq.
    - by rewrite list_lookup_insert_ne in Hj by done. }
  constructor.
  - destruct (inv_rep _ _ HI) as [H1 H2 H3]. split; [|done..]. apply Forall2_same_length_lookup_2.
    { apply (Forall2_length _ _ _ H1). }
    intros c q l Hc Hl'. destruct (Forall2_lookup_lr _ _ _ _ _ _ H1 Hc Hl') as (? & ? & ? & Hch).
    split_and!; [done..|]. eapply chain_ext; [|exact Hch].
    intros j Hj. simpl. destruct (decide (j = i)) as [->|Hne]; [|by rewrite list_lookup_insert_ne].
    rewrite list_lookup_insert_eq, Ht by done. simpl. destruct (Hq (elem_of_concat _ _ _ _ Hl' Hj)) as [-> _]. done.
  - apply (inv_queues _ _ HI).
  - destruct (inv_sizes _ _ HI). constructor; simpl; try done. by rewrite length_insert.
  - apply (inv_current _ _ HI).
  - intros j tj [[-> ->]|[_ Hj]]%Hl; [done|]. by apply (inv_tasks _ _ HI j).
  - intros c l j Hc Hj. destruct (inv_queued _ _ HI c l j Hc Hj) as (H1 & H2 & t0 & Ht0 & Hr & Hcpu).
    split_and!; [done|done|]. simpl. destruct (decide (j = i)) as [->|Hne].
    + rewrite Ht in Ht0. simplify_eq. rewrite list_lookup_insert_eq by done. exists t'. split; [done|].
      destruct (Hq (elem_of_concat _ _ _ _ Hc Hj)) as (_ & -> & ->). done.
    + rewrite list_lookup_insert_ne by done. by exists t0.
  - intros j k tj tk [[-> ->]|[Hj1 Hj2]]%Hl [[-> ->]|[Hk1 Hk2]]%Hl H1 H2 L1 L2 E; [done| | |].
    + destruct (Hlv H1 L1) as [_ E']. by destruct (E' k tk).
    + destruct (Hlv H2 L2) as [_ E']. by destruct (E' j tj).
    + by apply (inv_pids _ _ HI j k tj tk).
  - apply (inv_next _ _ HI).
  - intros j tj Hjn [[-> ->]|[_ Hj]]%Hl L.
    + by apply Hlv.
    + by apply (inv_fresh _ _ HI j tj).
  - intros c j Hc. destruct (inv_idle _ _ HI c j Hc) as (H1 & H2 & t0 & Ht0 & Hr & Hk & Hcpu).
    split_and!; [done|done|]. simpl. destruct (decide (j = i)) as [->|Hne].
    + rewrite Ht in Ht0. simplify_eq. rewrite list_lookup_insert_eq by done. exists t'. split; [done|].
      destruct (Hid c Hc) as (? & ? & ->). done.
    + rewrite list_lookup_insert_ne by done. by exists t0.
Qed.

(** One task changed, its link and its number kept. *)
Lemma inv_task s Q i t t' :
  inv s Q → tasks s !! i = Some t → next t' = next t → task_ok t' →
  ((i < nprocs)%nat → live t' → live t ∧ pid t' = pid t) →
  (i ∈ concat Q → state_of t' = PROC_RUNNING ∧ cpu t' = cpu t) →
  (∀ c, idle_task s !! c = Some (Some i) →
    (state_of t' = PROC_RUNNING ∨ state_of t' = PROC_WAITING) ∧ is_kernel t' = true ∧ cpu t' = cpu t) →
  inv (set_tasks (<[i := t']> (tasks s)) s) Q.
Proof.
  intros HI Ht Hn Hok Hlv Hq Hid. apply (inv_update s Q i t); [done|done|done| |by intros; split; [|apply Hq]|done].
  intros Hi L'. destruct (Hlv Hi L') as [L E]. rewrite E. split; [by apply (inv_fresh _ _ HI i t)|].
  intros j tj Hj Hjn Htj Lj Ep. apply Hj. by apply (inv_pids _ _ HI j i tj t).
Qed.

(** What blocking and waking leave alone. *)
Definition same_id (t t' : task) : Prop :=
  pid t' = pid t ∧ cpu t' = cpu t ∧ is_kernel t' = is_kernel t ∧ shared t' = shared t ∧ next t' = next t.

(** A task on no queue, or one whose state stays, waits differently. *)
Lemma inv_wait s Q i t t' :
  inv s Q → tasks s !! i = Some t → same_id t t' → live t →
  state_of t' = PROC_RUNNING ∨ state_of t' = PROC_WAITING → (i ∉ concat Q) ∨ state_of t' = state_of t →
  inv (set_tasks (<[i := t']> (tasks s)) s) Q.
Proof.
  intros HI Ht (E1 & E2 & E3 & E4 & E5) L Hst Hq. apply (inv_task s Q i t); [done|done|done| | | |].
  - destruct (inv_tasks _ _ HI i t Ht) as [H1 H2]. split; [by rewrite E2|]. by rewrite E4.
  - done.
  - intros Hin. split; [|done]. destruct Hq as [?| ->]; [done|].
    apply elem_of_concat_inv in Hin as (c & l & Hc & Hi).
    destruct (inv_queued _ _ HI c l i Hc Hi) as (_ & _ & t0 & Ht0 & Hr & _). by simplify_eq.
  - intros c Hc. destruct (inv_idle _ _ HI c i Hc) as (_ & _ & t0 & Ht0 & _ & Hk & _). simplify_eq.
    split_and!; [done|congruence|done].
Qed.

(** ** Taking a task off its queue *)

Definition drop_task (x : nat) (Q : list (list nat)) : list (list nat) := filter (λ y, y ≠ x) <$> Q.

Lemma filter_ne_id (x : nat) (l : list nat) : x ∉ l → filter (λ y, y ≠ x) l = l.
Proof.
  induction l as [|y l IH]; [done|]. intros Hx. apply not_elem_of_cons in Hx as [Hy Hx].
  rewrite filter_cons_True by done. by rewrite IH.
Qed.

Lemma concat_drop x Q : concat (drop_task x Q) = filter (λ y, y ≠ x) (concat Q).
Proof. induction Q as [|l Q IH]; [done|]. simpl. by rewrite filter_app, IH. Qed.

Lemma elem_of_drop x Q i : i ∈ concat (drop_task x Q) ↔ i ≠ x ∧ i ∈ concat Q.
Proof. by rewrite concat_drop, (list_elem_of_filter (λ y, y ≠ x)). Qed.

Lemma insert_drop Q c l1 x l2 : NoDup (concat Q) → Q !! c = Some (l1 ++ x :: l2) →
  <[c := l1 ++ l2]> Q = drop_task x Q.
Proof.
  intros Hn Hc. pose proof (concat_NoDup_queue _ _ _ Hn Hc) as Hnl.
  assert (c < length Q)%nat by (by eapply lookup_lt_Some).
  apply list_eq. intros j. unfold drop_task. rewrite list_lookup_fmap.
  destruct (decide (j = c)) as [->|Hj].
  - rewrite list_lookup_insert_eq, Hc by done. simpl. f_equal. rewrite filter_app, filter_cons_False by (intros ?; done).
    apply NoDup_app in Hnl as (_ & H1 & H2). apply NoDup_cons in H2 as [H2 _].
    rewrite !filter_ne_id; [done|done|]. intros Hx. apply (H1 x Hx). set_solver.
  - rewrite list_lookup_insert_ne by done. destruct (Q !! j) as [l|] eqn:E; [|done]. simpl.
    rewrite filter_ne_id; [done|]. apply (concat_disjoint Q c j _ l x Hn Hc E); [done|set_solver].
Qed.

Lemma wp_remove s Q v :
  inv s Q →
  wp (remove_from_runqueue v) (λ r s',
    (∃ x t, r = Some x ∧ (x ∈ concat Q) ∧ tasks s !! x = Some t ∧ pid t = v ∧ state_of t = PROC_RUNNING ∧
       (x < nprocs)%nat ∧ inv s' (drop_task x Q) ∧ requeues s s') ∨
    (r = None ∧ s' = s ∧ ∀ i t, i ∈ concat Q → tasks s !! i = Some t → pid t ≠ v)) s.
Proof.
  intros HI. pose proof (size_cpus _ (inv_sizes _ _ HI)) as Hm. pose proof (inv_queues _ _ HI) as Hl.
  unfold ncpus in Hl.
  eapply wp_mono; [apply wp_remove_from_runqueue; [apply HI|lia|unfold MAX_CPUS in *; lia]|].
  intros r s' [(c & Hc & l1 & x & l2 & HQ & -> & Hp & HR & Hx & Hq)|(-> & -> & Hn)].
  - left. assert (x ∈ l1 ++ x :: l2) as Hin by set_solver.
    destruct (inv_queued _ _ HI c _ x HQ Hin) as (_ & Hlt & t & Ht & Hst & _).
    exists x, t. unfold has_pid in Hp. rewrite Ht in Hp. simpl in Hp. injection Hp as Hp.
    split_and!; [done|by eapply elem_of_concat|done|done|done|done| |done].
    rewrite (insert_drop Q c l1 x l2) in HR; [|apply (rep_nodup _ _ (inv_rep _ _ HI))|done].
    apply (inv_requeue s s' Q); [done|done|done|by unfold drop_task; rewrite length_fmap|].
    intros c' l i Hc' Hi. unfold drop_task in Hc'. rewrite list_lookup_fmap in Hc'.
    destruct (Q !! c') as [l'|] eqn:E; [|done]. simpl in Hc'. simplify_eq.
    apply list_elem_of_filter in Hi as [_ Hi]. by apply (inv_queued _ _ HI c' l').
  - right. split_and!; [done|done|]. intros i t Hi Ht E. apply elem_of_concat_inv in Hi as (c & l & Hc & Hi).
    destruct (inv_queued _ _ HI c l i Hc Hi) as (Hlt & _). apply (Hn c l i Hlt Hc Hi). unfold has_pid. rewrite Ht. simpl. by f_equal.
Qed.

(** [t] but for its link. *)
Lemma requeues_task s s' i t : requeues s s' → tasks s !! i = Some t → ∃ v, tasks s' !! i = Some (set_next v t).
Proof.
  intros (ts & r & -> & Hs) Ht. apply (same_tasks_lookup _ _ _ _ (same_tasks_sym _ _ Hs)) in Ht as (t1 & Ht1 & ->).
  exists (next t1). simpl. rewrite Ht1. by destruct t1.
Qed.

Lemma requeues_task_inv s s' i t : requeues s s' → tasks s' !! i = Some t → ∃ t0, tasks s !! i = Some t0 ∧ t = set_next (next t) t0.
Proof. intros (ts & r & -> & Hs) Ht. by apply (same_tasks_lookup _ _ _ _ Hs). Qed.

Lemma requeues_set s s' i t t' :
  requeues s s' → set_next None t' = set_next None t →
  requeues (set_tasks (<[i := t]> (tasks s)) s) (set_tasks (<[i := t']> (tasks s')) s').
Proof.
  intros (ts & r & -> & Hs) E. exists (<[i := t']> ts), r. split; [done|]. simpl. by apply same_tasks_insert.
Qed.

(** A change of what a task waits for, and of its state. *)
Definition waiting_update (f : task → task) : Prop :=
  ∀ t, same_id t (f t) ∧ ∀ v, f (set_next v t) = set_next v (f t).

Lemma set_next_same v t : set_next None (set_next v t) = set_next None t.
Proof. done. Qed.

(** The removal of a task from its queue and what is then done to it. *)
Lemma wp_remove_with s Q v f :
  inv s Q → waiting_update f → (∀ t, state_of (f t) = PROC_WAITING) →
  wp (r ← remove_from_runqueue v; match r with Some p => on_task p f | None => mret tt end) (λ _ s',
    (∃ x t, (x ∈ concat Q) ∧ tasks s !! x = Some t ∧ pid t = v ∧ inv s' (drop_task x Q) ∧
       requeues (set_tasks (<[x := f t]> (tasks s)) s) s') ∨
    (s' = s ∧ ∀ i t, i ∈ concat Q → tasks s !! i = Some t → pid t ≠ v)) s.
Proof.
  intros HI Hf Hst. apply wp_bind. eapply wp_mono; [by apply wp_remove|].
  intros r s' [(x & t & -> & Hx & Ht & Hp & Hr & Hlt & HI' & Hq)|(-> & -> & Hn)]; [|wp_steps; by right].
  destruct (requeues_task _ _ _ _ Hq Ht) as [nx Htx].
  eapply wp_on_task; [exact Htx|]. left. exists x, t. split_and!; [done|done|done| |].
  - apply (inv_wait s' _ x (set_next nx t)); [done|done|apply (Hf (set_next nx t))|simpl; split; simpl; congruence| |].
    + right. apply Hst.
    + left. rewrite elem_of_drop. intros [? _]. done.
  - apply requeues_set; [done|]. by rewrite (proj2 (Hf t)).
Qed.

(** ** Waking *)

Definition wake_cpu (m : machine) (t : task) : Z := if cpu_count m <=? cpu t then u8 (bsp_of m) else cpu t.
(** A task woken with a result. *)
Definition awake (m : machine) (result : Z) (t : task) : task := set_cpu (wake_cpu m t) (woken result t).

Lemma wake_cpu_range s Q i t : inv s Q → tasks s !! i = Some t →
  0 ≤ wake_cpu (mach s) t < cpu_count (mach s).
Proof.
  intros HI Ht. destruct (inv_tasks _ _ HI i t Ht) as [H0 _]. pose proof (bsp_of_range (mach s)).
  pose proof (size_cpus _ (inv_sizes _ _ HI)) as Hm. unfold MAX_CPUS in Hm.
  unfold wake_cpu. destruct (Z.leb_spec (cpu_count (mach s)) (cpu t)); [|lia].
  rewrite u8_small by lia. lia.
Qed.

(** A push of a task that may be queued. *)
Lemma wp_push s Q c i :
  inv s Q → queued_ok s c i → i ∉ concat Q →
  wp (rq_push c i) (λ _ s', inv s' (push c i Q) ∧ requeues s s') s.
Proof.
  intros HI Hok Hi. pose proof Hok as (Hc & Hlt & _). destruct (inv_queue _ _ _ HI Hc) as [l Hl].
  pose proof (inv_total _ _ HI) as Htot. unfold nprocs, PROC_MAX in Htot.
  eapply wp_mono; [apply (wp_rq_push s Q c l i)|].
  - apply HI.
  - done.
  - done.
  - rewrite (size_tasks _ (inv_sizes _ _ HI)). lia.
  - lia.
  - intros ? s' [HR Hq]. split; [|done]. rewrite (push_insert _ _ _ _ Hl).
    apply (inv_requeue s s' Q); [done|done|done|by rewrite length_insert; apply HI|].
    intros c' l' j Hc' Hj. destruct (decide (c' = c)) as [->|Hne].
    + rewrite list_lookup_insert_eq in Hc' by (by eapply lookup_lt_Some). simplify_eq.
      apply elem_of_app in Hj as [Hj| ->%list_elem_of_singleton]; [by apply (inv_queued _ _ HI c l)|done].
    + rewrite list_lookup_insert_ne in Hc' by done. by apply (inv_queued _ _ HI c' l').
Qed.

Lemma wp_wake s Q p t result :
  inv s Q → tasks s !! p = Some t → live t → (p < nprocs)%nat → p ∉ concat Q →
  wp (wake_runnable_locked p result) (λ _ s',
    inv s' (push (Z.to_nat (wake_cpu (mach s) t)) p Q) ∧
    requeues (set_tasks (<[p := awake (mach s) result t]> (tasks s)) s) s') s.
Proof.
  intros HI Ht L Hlt Hp. pose proof (wake_cpu_range _ _ _ _ HI Ht) as Hw.
  assert (p < length (tasks s))%nat as Hpl by (by eapply lookup_lt_Some).
  unfold wake_runnable_locked. wp_steps. eapply wp_on_task; [exact Ht|]. wp_steps.
  eapply wp_task_at; [by apply list_lookup_insert_eq|]. wp_steps.
  apply (wp_mono _ (λ _ s', s' = set_tasks (<[p := awake (mach s) result t]> (tasks s)) s)).
  { change (cpu (woken result t)) with (cpu t). unfold awake, wake_cpu.
    destruct (Z.leb_spec (cpu_count (mach s)) (cpu t)).
    - eapply wp_on_task; [by apply list_lookup_insert_eq|]. simpl. by rewrite list_insert_insert_eq.
    - wp_steps. by destruct t. }
  intros ? s' ->. wp_steps. eapply wp_task_at; [by apply list_lookup_insert_eq|].
  change (cpu (awake (mach s) result t)) with (wake_cpu (mach s) t).
  eapply wp_mono; [apply wp_push with (Q := Q)|done].
  - apply (inv_task s Q p t); [done|done|done| | |done|].
    + destruct (inv_tasks _ _ HI p t Ht) as [H0 H1]. split; [simpl; lia|done].
    + done.
    + intros c Hc. destruct (inv_idle _ _ HI c p Hc) as (Hcc & _ & t0 & Ht0 & _ & Hk & Hcpu). simplify_eq.
      split_and!; [by left|done|]. unfold awake, wake_cpu. simpl. rewrite Hcpu.
      destruct (Z.leb_spec (cpu_count (mach s)) (Z.of_nat c)); [lia|done].
  - split_and!; [simpl; lia|done|]. exists (awake (mach s) result t). simpl. split_and!; [by apply list_lookup_insert_eq|done|lia].
  - done.
Qed.

(** What a program that wakes slot [i] does: the task becomes [g] of what it
    was, at the end of the queue of its processor. *)
Definition woke (s : sched) (Q : list (list nat)) (i : nat) (t' : task) (s' : sched) : Prop :=
  inv s' (push (Z.to_nat (cpu t')) i Q) ∧ requeues (set_tasks (<[i := t']> (tasks s)) s) s'.

Lemma wp_wake_waiting s Q i t result :
  inv s Q → (i < nprocs)%nat → tasks s !! i = Some t → state_of t = PROC_WAITING →
  wp (wake_runnable_locked i result) (λ _ s', woke s Q i (awake (mach s) result t) s') s.
Proof.
  intros HI Hi Ht Hw. apply (wp_wake s Q i t); [done|done|split; congruence|done|].
  apply (not_queued s Q i t HI Ht). congruence.
Qed.

Lemma wp_wake_after s Q i t f result :
  inv s Q → (i < nprocs)%nat → tasks s !! i = Some t → live t → i ∉ concat Q → waiting_update f →
  state_of (f t) = PROC_RUNNING ∨ state_of (f t) = PROC_WAITING →
  wp (on_task i f;; wake_runnable_locked i result) (λ _ s', woke s Q i (awake (mach s) result (f t)) s') s.
Proof.
  intros HI Hi Ht L Hq Hf Hst. apply wp_bind. eapply wp_on_task; [exact Ht|].
  assert (i < length (tasks s))%nat as Hil by (by eapply lookup_lt_Some).
  eapply wp_mono; [apply (wp_wake _ Q i (f t) result)|].
  - apply (inv_wait s Q i t); [done|done|apply Hf|done|done|by left].
  - by apply list_lookup_insert_eq.
  - destruct Hst as [E|E]; split; congruence.
  - done.
  - done.
  - intros ? s' [H1 H2]. split; [done|]. simpl in H2. by rewrite list_insert_insert_eq in H2.
Qed.

Lemma wp_wake_update s Q i t f result :
  inv s Q → (i < nprocs)%nat → tasks s !! i = Some t → state_of t = PROC_WAITING → waiting_update f →
  state_of (f t) = PROC_RUNNING ∨ state_of (f t) = PROC_WAITING →
  wp (on_task i f;; wake_runnable_locked i result) (λ _ s', woke s Q i (awake (mach s) result (f t)) s') s.
Proof.
  intros HI Hi Ht Hw Hf Hst. apply wp_wake_after; try done; [split; congruence|].
  apply (not_queued s Q i t HI Ht). congruence.
Qed.

(** ** Waking a selection of tasks *)

Definition wakes (g : task → task) (sel : list nat) (ts : list task) : list task :=
  foldl (λ ts i, alter g i ts) ts sel.
Definition home (s : sched) (g : task → task) (i : nat) : nat :=
  match tasks s !! i with Some t => Z.to_nat (cpu (g t)) | None => 0%nat end.
Definition pushes (s : sched) (g : task → task) (sel : list nat) (Q : list (list nat)) : list (list nat) :=
  foldl (λ Q i, push (home s g i) i Q) Q sel.

(** [s'] is [s] with the tasks [sel] woken in that order. *)
Record waked (s : sched) (Q : list (list nat)) (g : task → task) (sel : list nat) (s' : sched) : Prop := {
  waked_inv : inv s' (pushes s g sel Q);
  waked_tasks : requeues (set_tasks (wakes g sel (tasks s)) s) s'
}.

Lemma wakes_other g sel ts i : i ∉ sel → wakes g sel ts !! i = ts !! i.
Proof.
  revert ts. induction sel as [|j sel IH]; intros ts Hi; [done|]. apply not_elem_of_cons in Hi as [Hj Hi].
  simpl. rewrite IH by done. by apply list_lookup_alter_ne.
Qed.

Lemma wakes_selected g sel ts i : NoDup sel → i ∈ sel → wakes g sel ts !! i = g <$> ts !! i.
Proof.
  revert ts. induction sel as [|j sel IH]; intros ts Hn Hi; [set_solver|]. apply NoDup_cons in Hn as [Hj Hn].
  simpl. destruct (decide (i = j)) as [->|Hne].
  - rewrite wakes_other by done. apply list_lookup_alter_eq.
  - rewrite IH; [|done|set_solver]. f_equal. by apply list_lookup_alter_ne.
Qed.

Lemma wakes_snoc g sel ts i : wakes g (sel ++ [i]) ts = alter g i (wakes g sel ts).
Proof. unfold wakes. by rewrite foldl_app. Qed.
Lemma pushes_snoc s g sel Q i : pushes s g (sel ++ [i]) Q = push (home s g i) i (pushes s g sel Q).
Proof. unfold pushes. by rewrite foldl_app. Qed.

Lemma waked_nil s Q g : inv s Q → waked s Q g [] s.
Proof. intros HI. split; [done|]. simpl. destruct s; apply requeues_refl. Qed.

(** A task not selected so far is as at the start. *)
Lemma waked_task s Q g sel s' i t :
  waked s Q g sel s' → i ∉ sel → tasks s !! i = Some t → ∃ v, tasks s' !! i = Some (set_next v t).
Proof. intros [_ Hq] Hi Ht. apply (requeues_task _ _ _ _ Hq). simpl. by rewrite wakes_other. Qed.

Lemma waked_step s Q g sel s1 i t v s2 :
  waked s Q g sel s1 → i ∉ sel → tasks s !! i = Some t → tasks s1 !! i = Some (set_next v t) →
  g (set_next v t) = set_next v (g t) → woke s1 (pushes s g sel Q) i (g (set_next v t)) s2 →
  waked s Q g (sel ++ [i]) s2.
Proof.
  intros [_ Hq] Hi Ht Ht1 Hg [HI2 Hq2]. split.
  - rewrite pushes_snoc. unfold home. rewrite Ht. by rewrite Hg in HI2.
  - eapply requeues_trans; [|exact Hq2]. rewrite wakes_snoc.
    rewrite (alter_insert g _ i t) by (by rewrite wakes_other).
    apply (requeues_set _ _ i (g t) (g (set_next v t))) in Hq; [done|]. by rewrite Hg.
Qed.

(** ** Loops over the process table *)

Lemma wp_each_slot body (I : nat → Z → sched → Prop) R s n k m :
  (∀ j n s, (k ≤ j < k + m)%nat → I j n s → wp (body j n) (λ n' s', I (S j) n' s') s) →
  (∀ n s, I (k + m)%nat n s → R n s) → I k n s → wp (each_slot (seq k m) body n) R s.
Proof.
  revert k n s. induction m as [|m IH]; intros k n s Hb HR HI.
  - simpl. apply wp_ret, HR. by rewrite Nat.add_0_r.
  - simpl. apply wp_bind. eapply wp_mono; [apply Hb; [lia|exact HI]|].
    intros n' s' HI'. apply (IH (S k)); [|by rewrite <-Nat.add_succ_comm in HR|done].
    intros j n0 s0 Hj. apply Hb. lia.
Qed.

Lemma wp_for_procs body (I : nat → Z → sched → Prop) R s :
  I 0%nat 0 s →
  (∀ j n s, (j < nprocs)%nat → I j n s → wp (body j n) (λ n' s', I (S j) n' s') s) →
  (∀ n s, I nprocs n s → R n s) → wp (for_procs body) R s.
Proof.
  intros H0 Hb HR. apply (wp_each_slot _ I); [|done|done].
  intros j n s' Hj. apply Hb. unfold nprocs. lia.
Qed.

(** The slots below [k] with a property. *)
Definition slots (P : task → bool) (s : sched) (k : nat) : list nat :=
  filter (λ i, P <$> tasks s !! i = Some true) (seq 0 k).

Lemma slots_S P s k t : tasks s !! k = Some t →
  slots P s (S k) = slots P s k ++ (if P t then [k] else []).
Proof.
  intros Ht. unfold slots. rewrite seq_S, filter_app. f_equal. simpl.
  destruct (P t) eqn:E.
  - by rewrite filter_cons_True by (by rewrite Ht; simpl; rewrite E).
  - by rewrite filter_cons_False by (rewrite Ht; simpl; rewrite E; congruence).
Qed.

Lemma slots_lt P s k i : i ∈ slots P s k → (i < k)%nat.
Proof. unfold slots. intros [_ Hi]%list_elem_of_filter. apply elem_of_seq in Hi. lia. Qed.

Lemma slots_NoDup P s k : NoDup (slots P s k).
Proof. apply NoDup_filter, NoDup_seq. Qed.

Lemma slots_length P s k : (length (slots P s k) ≤ k)%nat.
Proof. unfold slots. rewrite <-(length_seq k 0) at 2. apply length_filter. Qed.
