(* ===== verification/SchedOps.v ===== *)
(** * Blocking and waking tasks

    Which tasks a wake call wakes, in which order and with which result; what
    a blocked task waits for; and that each call keeps the invariant. *)

From S2P Require Import Prelude Vmm Sched SchedQueue SchedInv.

(** ** Waking by futex, by poll and by time *)

(** Tasks that wait for a futex and share a bit of the set. *)
Definition futex_waiter (key bitset : Z) (t : task) : bool :=
  is_state PROC_WAITING t && (w_key (waits t) =? key) && negb (Z.land (w_bitset (waits t)) bitset =? 0).
Definition poll_waiter (t : task) : bool := is_state PROC_WAITING t && w_poll (waits t).
Definition due (now : Z) (t : task) : bool :=
  is_state PROC_WAITING t && (w_pid (waits t) =? 0) && (w_time (waits t) <=? now).

Definition futex_awake (m : machine) (result : Z) (t : task) : task := awake m result (clear_futex t).
Definition poll_awake (m : machine) (t : task) : task := awake m 0 (clear_poll t).
Definition timed_awake (m : machine) (t : task) : task :=
  if w_key (waits t) =? 0 then awake m 0 t else awake m (- ETIMEDOUT) (clear_futex t).

Lemma waked_mach s Q g sel s' : waked s Q g sel s' → mach s' = mach s.
Proof. intros [_ (ts & r & -> & _)]. done. Qed.

Lemma is_state_spec v t : is_state v t = true ↔ state_of t = v.
Proof. unfold is_state. apply bool_decide_eq_true. Qed.

Lemma clear_futex_update : waiting_update clear_futex.
Proof. by intros []. Qed.
Lemma clear_poll_update : waiting_update clear_poll.
Proof. by intros []. Qed.

(** Sequences associate. *)
Lemma wp_then {A B C} (m : M sched A) (n : M sched B) (k : M sched C) R s :
  wp (m;; n) (λ _ s', wp k R s') s → wp (m;; n;; k) R s.
Proof.
  unfold wp, mbind, M_bind. destruct (m s) as [[a s1]|]; [|done]. by destruct (n s1) as [[b s2]|].
Qed.

(** The slot a loop looks at: not selected before, as it was at the start. *)
Lemma waked_fresh s Q g P k s' :
  waked s Q g (slots P s k) s' → inv s Q → (k < nprocs)%nat →
  ∃ t v, tasks s !! k = Some t ∧ tasks s' !! k = Some (set_next v t) ∧ (k ∉ slots P s k).
Proof.
  intros HW HI Hk. destruct (inv_slot _ _ _ HI Hk) as [t Ht].
  assert (k ∉ slots P s k) as Hn by (intros ?%slots_lt; lia).
  destruct (waked_task _ _ _ _ _ _ _ HW Hn Ht) as [v Hv]. by exists t, v.
Qed.

Lemma waked_fresh_take s Q g P k m s' :
  waked s Q g (take m (slots P s k)) s' → inv s Q → (k < nprocs)%nat →
  ∃ t v, tasks s !! k = Some t ∧ tasks s' !! k = Some (set_next v t) ∧ (k ∉ take m (slots P s k)).
Proof.
  intros HW HI Hk. destruct (inv_slot _ _ _ HI Hk) as [t Ht].
  assert (k ∉ take m (slots P s k)) as Hn.
  { intros [j [Hj _]%lookup_take_Some]%list_elem_of_lookup_1.
    apply list_elem_of_lookup_2 in Hj. apply slots_lt in Hj. lia. }
  destruct (waked_task _ _ _ _ _ _ _ HW Hn Ht) as [v Hv]. by exists t, v.
Qed.

Lemma wp_wake_futex s Q key max_wake bitset result :
  inv s Q → 0 ≤ max_wake → key ≠ 0 →
  wp (sched_wake_futex key max_wake bitset result) (λ n s',
    let sel := take (Z.to_nat max_wake) (slots (futex_waiter key bitset) s nprocs) in
    waked s Q (futex_awake (mach s) result) sel s' ∧ n = Z.of_nat (length sel)) s.
Proof.
  intros HI Hm Hk. unfold sched_wake_futex. destruct (Z.eqb_spec max_wake 0) as [->|Hm0]; simpl.
  { wp_steps. split; [by apply waked_nil|done]. }
  destruct (Z.eqb_spec key 0) as [|_]; [done|].
  set (P := futex_waiter key bitset). set (g := futex_awake (mach s) result).
  apply (wp_for_procs _ (λ k n s', waked s Q g (take (Z.to_nat max_wake) (slots P s k)) s' ∧
    n = Z.of_nat (length (take (Z.to_nat max_wake) (slots P s k))))); [| |done].
  { change (slots P s 0) with (@nil nat). rewrite take_nil. by split; [apply waked_nil|]. }
  intros k n s' Hlt [HW ->].
  destruct (waked_fresh_take _ _ _ _ _ _ _ HW HI Hlt) as (t & v & Ht & Ht' & Hn).
  pose proof (slots_length P s k) as Hsl. unfold nprocs, PROC_MAX in Hlt. rewrite length_take in *.
  rewrite (slots_S P s k t Ht). destruct (Z.ltb_spec (Z.of_nat (Z.to_nat max_wake `min` length (slots P s k))) max_wake).
  - assert (take (Z.to_nat max_wake) (slots P s k) = slots P s k) as E by (apply take_ge; lia).
    rewrite E in HW, Hn. wp_steps. eapply wp_task_at; [exact Ht'|].
    change (is_state PROC_WAITING (set_next v t) && (w_key (waits (set_next v t)) =? key) &&
      negb (Z.land (w_bitset (waits (set_next v t))) bitset =? 0)) with (P t).
    destruct (P t) eqn:EP.
    + assert (state_of t = PROC_WAITING) as Hw.
      { unfold P, futex_waiter in EP. apply andb_prop in EP as [[EP _]%andb_prop _]. by apply is_state_spec. }
      rewrite (take_ge (slots P s k ++ [k])) by (rewrite length_app; simpl; lia).
      apply wp_then. eapply wp_mono; [apply (wp_wake_update s' (pushes s g (slots P s k) Q) k (set_next v t)); try done|].
      { apply HW. }
      { by right. }
      intros ? s2 H2. rewrite (waked_mach _ _ _ _ _ HW) in H2. wp_steps. split; [by apply (waked_step s Q g _ s' k t v)|].
      rewrite length_app. simpl. rewrite u32_small by lia. lia.
    + wp_steps. rewrite app_nil_r, E. split; [done|]. lia.
  - wp_steps. rewrite take_app_le by lia. split; [done|]. rewrite length_take. lia.
Qed.

Lemma wp_wake_poll s Q :
  inv s Q →
  wp sched_wake_poll_waiters (λ n s',
    waked s Q (poll_awake (mach s)) (slots poll_waiter s nprocs) s' ∧
    n = Z.of_nat (length (slots poll_waiter s nprocs))) s.
Proof.
  intros HI. set (g := poll_awake (mach s)).
  apply (wp_for_procs _ (λ k n s', waked s Q g (slots poll_waiter s k) s' ∧
    n = Z.of_nat (length (slots poll_waiter s k)))); [by split; [apply waked_nil|]| |done].
  intros k n s' Hlt [HW ->]. destruct (waked_fresh _ _ _ _ _ _ HW HI Hlt) as (t & v & Ht & Ht' & Hn).
  pose proof (slots_length poll_waiter s k) as Hsl. unfold nprocs, PROC_MAX in Hlt.
  rewrite (slots_S poll_waiter s k t Ht). wp_steps. eapply wp_task_at; [exact Ht'|].
  change (is_state PROC_WAITING (set_next v t) && w_poll (waits (set_next v t))) with (poll_waiter t).
  destruct (poll_waiter t) eqn:EP.
  - assert (state_of t = PROC_WAITING) as Hw by (by apply andb_prop in EP as [EP _]; apply is_state_spec).
    apply wp_then. eapply wp_mono; [apply (wp_wake_update s' (pushes s g (slots poll_waiter s k) Q) k (set_next v t)); try done|].
    { apply HW. }
    { by right. }
    intros ? s2 H2. rewrite (waked_mach _ _ _ _ _ HW) in H2. wp_steps. split; [by apply (waked_step s Q g _ s' k t v)|].
    rewrite length_app. simpl. rewrite u32_small by lia. lia.
  - wp_steps. by rewrite app_nil_r.
Qed.

Lemma wp_wake_sleepers s Q now :
  inv s Q → wp (wake_sleepers now) (λ _ s', waked s Q (timed_awake (mach s)) (slots (due now) s nprocs) s') s.
Proof.
  intros HI. set (g := timed_awake (mach s)). unfold wake_sleepers. apply wp_bind.
  apply (wp_for_procs _ (λ k n s', waked s Q g (slots (due now) s k) s')); [by apply waked_nil| |by intros; wp_steps].
  intros k n s' Hlt HW. destruct (waked_fresh _ _ _ _ _ _ HW HI Hlt) as (t & v & Ht & Ht' & Hn).
  rewrite (slots_S (due now) s k t Ht). unfold wake_sleeper. wp_steps. eapply wp_task_at; [exact Ht'|].
  change (is_state PROC_WAITING (set_next v t) && (w_pid (waits (set_next v t)) =? 0) &&
    (w_time (waits (set_next v t)) <=? now)) with (due now t).
  destruct (due now t) eqn:EP; [|wp_steps; by rewrite app_nil_r].
  assert (state_of t = PROC_WAITING) as Hw.
  { unfold due in EP. apply andb_prop in EP as [[EP _]%andb_prop _]. by apply is_state_spec. }
  assert (∀ v, g (set_next v t) = set_next v (g t)) as Hg
    by (intros v'; unfold g, timed_awake; simpl; by destruct (w_key (waits t) =? 0)).
  pose proof (waked_inv _ _ _ _ _ HW) as HI'.
  destruct (w_key (waits (set_next v t)) =? 0) eqn:Ek; simpl negb; cbv iota.
  - eapply wp_mono; [by apply (wp_wake_waiting s' _ k (set_next v t) 0 HI')|].
    intros ? s2 H2. wp_steps. apply (waked_step s Q g _ s' k t v); try done.
    unfold g, timed_awake. rewrite Ek. by rewrite (waked_mach _ _ _ _ _ HW) in H2.
  - eapply wp_mono; [apply (wp_wake_update s' _ k (set_next v t) clear_futex _ HI'); try done; by right|].
    intros ? s2 H2. wp_steps. apply (waked_step s Q g _ s' k t v); try done.
    unfold g, timed_awake. rewrite Ek. by rewrite (waked_mach _ _ _ _ _ HW) in H2.
Qed.

(** ** Moving waiters to another futex *)

Definition key_waiter (key : Z) (t : task) : bool := is_state PROC_WAITING t && (w_key (waits t) =? key).

Lemma wp_requeue_futex s Q from to n :
  inv s Q → 0 ≤ n → from ≠ 0 → to ≠ 0 → from ≠ to →
  wp (sched_requeue_futex from to n) (λ r s',
    let sel := take (Z.to_nat n) (slots (key_waiter from) s nprocs) in
    inv s' Q ∧ s' = set_tasks (wakes (requeued to) sel (tasks s)) s ∧ r = Z.of_nat (length sel)) s.
Proof.
  intros HI Hn Hf Ht0 Hne. unfold sched_requeue_futex.
  destruct (Z.eqb_spec n 0) as [->|Hn0]; simpl.
  { wp_steps. split_and!; [done|by destruct s|done]. }
  destruct (Z.eqb_spec from 0), (Z.eqb_spec to 0), (Z.eqb_spec from to); try done. simpl.
  set (P := key_waiter from). set (sel k := take (Z.to_nat n) (slots P s k)).
  apply (wp_for_procs _ (λ k m s', inv s' Q ∧ s' = set_tasks (wakes (requeued to) (sel k) (tasks s)) s ∧
    m = Z.of_nat (length (sel k)))); [| |done].
  { unfold sel. change (slots P s 0) with (@nil nat). rewrite take_nil. split_and!; [done|by destruct s|done]. }
  intros k m s' Hlt (HI' & Hs' & ->). unfold sel in *.
  destruct (inv_slot _ _ _ HI Hlt) as [t Ht].
  assert (k ∉ take (Z.to_nat n) (slots P s k)) as Hk.
  { intros [j [Hj _]%lookup_take_Some]%list_elem_of_lookup_1.
    apply list_elem_of_lookup_2 in Hj. apply slots_lt in Hj. lia. }
  assert (tasks s' !! k = Some t) as Ht' by (rewrite Hs'; simpl; by rewrite wakes_other).
  pose proof (slots_length P s k) as Hsl. unfold nprocs, PROC_MAX in Hlt. rewrite length_take in *.
  rewrite (slots_S P s k t Ht). destruct (Z.ltb_spec (Z.of_nat (Z.to_nat n `min` length (slots P s k))) n).
  - assert (take (Z.to_nat n) (slots P s k) = slots P s k) as E by (apply take_ge; lia).
    rewrite E in Hs', Hk. wp_steps. eapply wp_task_at; [exact Ht'|].
    change (is_state PROC_WAITING t && (w_key (waits t) =? from)) with (P t). destruct (P t) eqn:EP.
    + assert (state_of t = PROC_WAITING) as Hw.
      { unfold P, key_waiter in EP. apply andb_prop in EP as [EP _]. by apply is_state_spec. }
      rewrite (take_ge (slots P s k ++ [k])) by (rewrite length_app; simpl; lia).
      wp_steps. eapply wp_on_task; [exact Ht'|]. wp_steps. split_and!.
      * apply (inv_wait s' Q k t); [done|done|done|split; congruence|by right|by right].
      * rewrite wakes_snoc, (alter_insert (requeued to) _ k t) by (by rewrite wakes_other).
        by rewrite Hs'.
      * rewrite length_app. simpl. rewrite u32_small by lia. lia.
    + wp_steps. rewrite app_nil_r, E. split_and!; [done|done|lia].
  - wp_steps. rewrite take_app_le by lia. split_and!; [done|done|]. rewrite length_take. lia.
Qed.

(** ** Searching the process table *)

Lemma find_proc_Some P s Q i : inv s Q → find_proc P s = Some i →
  (i < nprocs)%nat ∧ ∃ t, tasks s !! i = Some t ∧ P t = true.
Proof.
  intros HI H. unfold find_proc in H.
  destruct (list_find _ _) as [[j t]|] eqn:E; [|done]. simpl in H. simplify_eq.
  apply list_find_Some in E as (E & HP & _). apply lookup_take_Some in E as [E Hlt].
  split; [done|]. exists t. split; [done|]. by apply Is_true_true.
Qed.

Lemma find_proc_None P s i t : find_proc P s = None → (i < nprocs)%nat → tasks s !! i = Some t → P t = false.
Proof.
  unfold find_proc. destruct (list_find _ _) as [[j t0]|] eqn:E; [done|]. intros _ Hi Ht.
  apply list_find_None in E. rewrite Forall_forall in E.
  destruct (P t) eqn:EP; [|done]. exfalso. apply (E t); [|by apply Is_true_true].
  apply (list_elem_of_lookup_2 _ i). by apply lookup_take_Some.
Qed.

(** The search finds a task that alone has the property. *)
Lemma find_proc_unique P s Q i t : inv s Q → (i < nprocs)%nat → tasks s !! i = Some t → P t = true →
  (∀ j tj, (j < nprocs)%nat → tasks s !! j = Some tj → P tj = true → j = i) → find_proc P s = Some i.
Proof.
  intros HI Hi Ht HP Hu. destruct (find_proc P s) as [j|] eqn:E.
  - destruct (find_proc_Some _ _ _ _ HI E) as (Hj & tj & Htj & HPj). by rewrite (Hu j tj).
  - by rewrite (find_proc_None _ _ _ _ E Hi Ht) in HP.
Qed.

Lemma wp_deliverable s Q i t :
  inv s Q → tasks s !! i = Some t → wp (sched_deliverable_signal_mask i) (λ _ s', s' = s) s.
Proof.
  intros HI Ht. unfold sched_deliverable_signal_mask. wp_steps. eapply wp_task_at; [exact Ht|].
  destruct (shared t) as [sh|] eqn:Esh; [|by wp_steps]. destruct (is_linux t); simpl; [|by wp_steps].
  destruct (inv_tasks _ _ HI i t Ht) as [_ Hsh]. specialize (Hsh sh Esh).
  destruct (lookup_lt_is_Some_2 (sigact s) sh) as [acts Ha].
  { by rewrite (size_sigact _ (inv_sizes _ _ HI)). }
  assert (length acts = 64%nat) as Hla.
  { pose proof (size_handlers _ (inv_sizes _ _ HI)) as Hf. rewrite Forall_forall in Hf.
    apply Hf. by eapply list_elem_of_lookup_2. }
  cbv zeta. wp_steps. eapply wp_lift_opt; [exact Ha|]. wp_steps.
  apply (wp_for 1 64 _ (λ _ s', s' = s)); [lia|done| |].
  - intros sig s' Hsig ->. wp_steps. destruct (lookup_lt_is_Some_2 acts (Z.to_nat sig)) as [h Hh]; [lia|].
    eapply wp_lift_opt; [exact Hh|]. wp_steps. by destruct (negb _ && negb _).
  - intros s' ->. by wp_steps.
Qed.

(** * The calls of the scheduler keep the invariant

    Blocking, waking, removing, creating and ending tasks; what each call
    does to the task it names. *)

(** The states the invariant describes. *)
Definition consistent (s : sched) : Prop := ∃ Q, inv s Q.

(** No idle task has the number [v]. *)
Definition not_idle (s : sched) (v : Z) : Prop :=
  ∀ c i t, idle_task s !! c = Some (Some i) → tasks s !! i = Some t → pid t ≠ v.

(** ** Blocking *)

Definition slept (now ms : Z) (t : task) : task :=
  set_waits (Wait 0 0 0 0 (w_poll (waits t)) 0 (u64 (now + ms))) (set_state PROC_WAITING t).
Definition blocked (t : task) : task :=
  let w := waits t in
  set_waits (Wait (w_pid w) (w_tid w) (w_key w) (w_bitset w) (w_poll w) 0 UINT64_MAX) (set_state PROC_WAITING t).
Definition polling (wake_time_ms : Z) (t : task) : task :=
  set_waits (Wait 0 0 0 0 true 0 wake_time_ms) (set_state PROC_WAITING t).
Definition futex_wait (key bitset wake_time_ms : Z) (t : task) : task :=
  set_waits (Wait 0 0 key bitset (w_poll (waits t)) 0 wake_time_ms) (set_state PROC_WAITING t).

(** What a call that takes a task off its queue leaves. *)
Definition unqueued (s : sched) (Q : list (list nat)) (v : Z) (f : task → task) (s' : sched) : Prop :=
  (∃ x t, (x ∈ concat Q) ∧ tasks s !! x = Some t ∧ pid t = v ∧ inv s' (drop_task x Q) ∧
     requeues (set_tasks (<[x := f t]> (tasks s)) s) s') ∨
  (s' = s ∧ ∀ i t, i ∈ concat Q → tasks s !! i = Some t → pid t ≠ v).

Lemma wp_now_ms s Q : inv s Q →
  wp now_ms (λ now s', inv s' Q ∧ ∃ k, s' = set_streams k (stack_allocs s) s) s.
Proof.
  intros HI. unfold now_ms. wp_steps. cbv zeta. destruct (hpet_freq (mach (Datatypes.id s)) =? 0); wp_steps.
  - split; [done|]. exists (clock_reads s). by destruct s.
  - split; [inv_frame|by eexists].
Qed.

Lemma wp_block s Q v : inv s Q → wp (sched_block v) (λ _ s', unqueued s Q v blocked s') s.
Proof. intros HI. by apply (wp_remove_with s Q v blocked). Qed.

Lemma wp_block_poll s Q v w : inv s Q → wp (sched_block_poll v w) (λ _ s', unqueued s Q v (polling w) s') s.
Proof. intros HI. by apply (wp_remove_with s Q v (polling w)). Qed.

Lemma wp_sleep s Q v ms : inv s Q →
  wp (sched_sleep v ms) (λ _ s', ∃ now k, unqueued (set_streams k (stack_allocs s) s) Q v (slept now ms) s') s.
Proof.
  intros HI. unfold sched_sleep. apply wp_bind. eapply wp_mono; [by apply wp_now_ms|].
  intros now s1 (HI1 & k & ->). eapply wp_mono; [by apply (wp_remove_with _ Q v (slept now ms))|].
  intros ? s' H. by exists now, k.
Qed.

Lemma unqueued_consistent s Q v f s' : inv s Q → unqueued s Q v f s' → consistent s'.
Proof. intros HI [(x & t & _ & _ & _ & H & _)|[-> _]]; [by exists (drop_task x Q)|by exists Q]. Qed.

(** Ending a task: any state, but not for an idle task. *)
Lemma wp_remove_with_state s Q v st :
  inv s Q → not_idle s v → st = PROC_ZOMBIE ∨ st = PROC_DEAD →
  wp (sched_remove_with_state v st) (λ _ s', unqueued s Q v (set_state st) s') s.
Proof.
  intros HI Hid Hst. unfold sched_remove_with_state. apply wp_bind. eapply wp_mono; [by apply wp_remove|].
  intros r s' [(x & t & -> & Hx & Ht & Hp & Hr & Hlt & HI' & Hq)|(-> & -> & Hn)]; [|wp_steps; by right].
  destruct (requeues_task _ _ _ _ Hq Ht) as [nx Htx]. eapply wp_on_task; [exact Htx|].
  left. exists x, t. split_and!; [done|done|done| |by apply requeues_set].
  apply (inv_task s' _ x (set_next nx t)); [done|done|done| | | |].
  - exact (inv_tasks _ _ HI' x _ Htx).
  - intros _ _. split; [|done]. split; simpl; congruence.
  - rewrite elem_of_drop. by intros [? _].
  - intros c Hc. exfalso. destruct Hq as (ts & r & -> & _). by apply (Hid c x t Hc Ht).
Qed.

(** ** Waking one task *)

Lemma wp_sched_wake s Q v : inv s Q →
  wp (sched_wake v) (λ _ s', consistent s' ∧ mach s' = mach s ∧ current s' = current s ∧
    idle_task s' = idle_task s ∧ next_pid s' = next_pid s) s.
Proof.
  intros HI. unfold sched_wake. wp_steps.
  destruct (find_proc _ _) as [p|] eqn:E; [|wp_steps; split; [by exists Q|done]].
  destruct (find_proc_Some _ _ _ _ HI E) as (Hp & t & Ht & Hb). apply andb_prop in Hb as [_ Hw%is_state_spec].
  eapply wp_mono; [apply (wp_wake_update s Q p t); try done|].
  { by left. }
  intros ? s' [H1 (ts & r & -> & _)]. split; [by eexists|done].
Qed.

Lemma wp_wake_signal s Q v : inv s Q → wp (sched_wake_signal v) (λ _ s', consistent s') s.
Proof.
  intros HI. unfold sched_wake_signal. wp_steps.
  destruct (find_proc _ _) as [p|] eqn:E; [|wp_steps; by exists Q].
  destruct (find_proc_Some _ _ _ _ HI E) as (Hp & t & Ht & _). wp_steps. eapply wp_task_at; [exact Ht|].
  destruct (is_state PROC_WAITING t) eqn:Hw; simpl; [|wp_steps; by exists Q]. apply is_state_spec in Hw.
  wp_steps. eapply wp_mono; [by apply (wp_deliverable s Q p t)|]. intros sig s1 ->.
  destruct (sig =? 0); [wp_steps; by exists Q|].
  apply wp_then. eapply wp_mono; [apply (wp_wake_update s Q p t); try done; by right|].
  intros ? s' [H1 _]. wp_steps. by eexists.
Qed.

(** ** Waiting for a futex *)

Lemma wp_block_futex s Q v word expected key wt bitset :
  inv s Q → wp (sched_block_futex v word expected key wt bitset) (λ _ s', consistent s') s.
Proof.
  intros HI. unfold sched_block_futex. destruct word as [[w1 w2]|]; [|wp_steps; by exists Q].
  destruct (Z.eqb_spec w1 expected) as [_|]; simpl; [|wp_steps; by exists Q].
  apply wp_bind. eapply wp_mono; [by apply wp_remove|]. cbv beta. intros r s1 Hr. wp_steps. cbv zeta.
  assert (∀ p Q1 t, inv s1 Q1 → (p < nprocs)%nat → tasks s1 !! p = Some t → live t → p ∉ concat Q1 →
    wp (sig ← sched_deliverable_signal_mask p;
        if negb (sig =? 0) then wake_runnable_locked p 0;; mret (- EINTR)
        else
          on_task p (futex_wait key bitset wt);;
          if negb (w2 =? expected) then
            on_task p (λ t, let w := waits t in
              set_waits (Wait (w_pid w) (w_tid w) 0 0 (w_poll w) (w_result w) 0) (set_state PROC_RUNNING t));;
            mret (- EAGAIN)
          else mret 0) (λ _ s', consistent s') s1) as Hgo.
  { intros p Q1 t HI1 Hp Ht L Hq. apply wp_bind. eapply wp_mono; [by apply (wp_deliverable s1 Q1 p t)|].
    intros sig s2 ->. assert (p < length (tasks s1))%nat by (by eapply lookup_lt_Some). destruct (sig =? 0); simpl.
    - wp_steps. eapply wp_on_task; [exact Ht|].
      assert (inv (set_tasks (<[p := futex_wait key bitset wt t]> (tasks s1)) s1) Q1) as HI2.
      { apply (inv_wait s1 Q1 p t); [done|done|done|done|by right|by left]. }
      destruct (w2 =? expected); simpl; wp_steps; [by exists Q1|].
      eapply wp_on_task; [by apply list_lookup_insert_eq|]. wp_steps. exists Q1.
      eapply (inv_wait _ Q1 p); [exact HI2|by apply list_lookup_insert_eq|done|done|by left|by left].
    - wp_steps. eapply wp_mono; [by apply (wp_wake s1 Q1 p t)|]. intros ? s2 [H2 _]. wp_steps. by eexists. }
  destruct Hr as [(x & t & -> & Hx & Ht & Hp & Hst & Hlt & HI' & Hq)|(-> & -> & Hn)].
  - destruct (requeues_task _ _ _ _ Hq Ht) as [nx Htx].
    apply (Hgo x (drop_task x Q) (set_next nx t)); [done|done|done|split; simpl; congruence|].
    rewrite elem_of_drop. by intros [? _].
  - destruct (find_proc _ _) as [p|] eqn:E; [|wp_steps; by exists Q].
    destruct (find_proc_Some _ _ _ _ HI E) as (Hp & t & Ht & Hb). apply andb_prop in Hb as [Hpid Hst].
    apply (Hgo p Q t); [done|done|done| |].
    + apply orb_prop in Hst as [Hst|Hst]; apply is_state_spec in Hst; split; congruence.
    + intros Hin. apply (Hn p t Hin Ht). by apply Z.eqb_eq.
Qed.
