(* ===== verification/SchedProc.v ===== *)
(** * The process table and the invariant

    Creating, launching, waiting for and ending tasks. *)

From S2P Require Import Prelude Vmm Sched SchedQueue SchedInv SchedOps.

(** What calls on tasks leave alone. *)
Definition frame (s s' : sched) : Prop :=
  mach s' = mach s ∧ current s' = current s ∧ idle_task s' = idle_task s.

Lemma frame_refl s : frame s s.
Proof. done. Qed.
Lemma frame_trans s1 s2 s3 : frame s1 s2 → frame s2 s3 → frame s1 s3.
Proof. unfold frame. intros (-> & -> & ->) (-> & -> & ->). done. Qed.
Lemma frame_requeues s s' : requeues s s' → frame s s'.
Proof. by intros (ts & r & -> & _). Qed.

(** A task just made: it has the next number, runs, and is on no queue. *)
Record fresh (s : sched) (Q : list (list nat)) (p : nat) (t : task) : Prop := {
  fresh_slot : (p < nprocs)%nat;
  fresh_task : tasks s !! p = Some t;
  fresh_running : state_of t = PROC_RUNNING;
  fresh_unqueued : p ∉ concat Q;
  fresh_idle : ∀ c, idle_task s !! c ≠ Some (Some p)
}.

(** Changes of a fresh task. *)
Lemma fresh_update s Q p t f :
  inv s Q → fresh s Q p t → pid (f t) = pid t → task_ok (f t) → state_of (f t) = PROC_RUNNING →
  inv (set_tasks (<[p := f t]> (tasks s)) s) Q ∧ fresh (set_tasks (<[p := f t]> (tasks s)) s) Q p (f t).
Proof.
  intros HI [Hp Ht Hr Hq Hid] Epid Hok Hst. split.
  - apply (inv_update s Q p t); [done|done|done| | |].
    + intros _ _. rewrite Epid. assert (live t) as L by (split; congruence). split; [by apply (inv_fresh _ _ HI p t)|].
      intros j tj Hj Hjn Htj Lj E. apply Hj. by apply (inv_pids _ _ HI j p tj t).
    + done.
    + intros c Hc. by destruct (Hid c).
  - split; [done| |done|done|done]. simpl. apply list_lookup_insert_eq. by eapply lookup_lt_Some.
Qed.

Lemma wp_fresh s Q p t f (R : unit → sched → Prop) :
  inv s Q → fresh s Q p t → pid (f t) = pid t → task_ok (f t) → state_of (f t) = PROC_RUNNING →
  (∀ s', inv s' Q → fresh s' Q p (f t) → s' = set_tasks (<[p := f t]> (tasks s)) s → R tt s') →
  wp (on_task p f) R s.
Proof.
  intros HI HF E1 E2 E3 HR. eapply wp_on_task; [apply HF|].
  destruct (fresh_update s Q p t f HI HF E1 E2 E3) as [H1 H2]. by apply HR.
Qed.

(** A fresh task that is given up. *)
Lemma wp_fresh_dead s Q p t f (R : unit → sched → Prop) :
  inv s Q → fresh s Q p t → task_ok (f t) → state_of (f t) = PROC_DEAD →
  (∀ s', inv s' Q → s' = set_tasks (<[p := f t]> (tasks s)) s → R tt s') → wp (on_task p f) R s.
Proof.
  intros HI [Hp Ht Hr Hq Hid] Hok Hst HR. eapply wp_on_task; [exact Ht|]. apply HR; [|done].
  apply (inv_update s Q p t); [done|done|done| | |].
  - intros _ [_ ?]. done.
  - done.
  - intros c Hc. by destruct (Hid c).
Qed.

Lemma wp_proc_alloc s Q :
  inv s Q → next_pid s < 2 ^ 32 - 1 →
  wp proc_alloc (λ r s', frame s s' ∧ inv s' Q ∧ next_pid s' ≤ next_pid s + 1 ∧
    match r with
    | None => s' = s
    | Some p => ∃ t, fresh s' Q p t ∧ pid t = next_pid s ∧ cpu t = 255 ∧ is_kernel t = false ∧
        ∃ t0, tasks s !! p = Some t0 ∧ ¬ live t0
    end) s.
Proof.
  intros HI Hn. pose proof (inv_next _ _ HI) as Hpos. unfold proc_alloc. wp_steps.
  destruct (find_proc _ _) as [p|] eqn:E; [|wp_steps; split_and!; [done|done|lia|done]].
  destruct (find_proc_Some _ _ _ _ HI E) as (Hp & t0 & Ht0 & Hb). cbv zeta. wp_steps.
  change (Datatypes.id s) with s. rewrite u32_small by lia.
  assert (¬ live t0) as L0.
  { intros [L1 L2]. apply orb_prop in Hb as [Hb|Hb]; apply is_state_spec in Hb; done. }
  assert (p ∉ concat Q) as Hq.
  { intros Hin. apply elem_of_concat_inv in Hin as (c & l & Hc & Hi).
    destruct (inv_queued _ _ HI c l p Hc Hi) as (_ & _ & t1 & Ht1 & Hr & _). simplify_eq. apply L0. split; congruence. }
  assert (∀ c, idle_task s !! c ≠ Some (Some p)) as Hid.
  { intros c Hc. destruct (inv_idle _ _ HI c p Hc) as (_ & _ & t1 & Ht1 & Hr & _). simplify_eq.
    apply L0. split; destruct Hr; congruence. }
  set (t := Task _ _ _ _ _ _ _ _ _ _ _ _ _ _ _ _ _ _).
  assert (inv (set_sigact (<[p := no_handlers]> (sigact s)) (set_next_pid (next_pid s + 1) s)) Q) as HI1.
  { destruct HI as [[? ? ?] ? [? ? ? ? ? ? Hh] ? ? ? ? ? Hf ?].
    constructor; [constructor; assumption|assumption| |assumption..|simpl; lia| |assumption].
    - constructor; try assumption; simpl; [by rewrite length_insert|by apply Forall_insert].
    - intros i ti Hi Hti L. specialize (Hf i ti Hi Hti L). simpl. lia. }
  pose proof (inv_update _ Q p t0 t HI1 Ht0) as HI2. simpl in HI2. split_and!; [done| |simpl; lia|].
  - apply HI2; [done| |done|by intros c Hc; destruct (Hid c)].
    intros _ _. simpl. split; [lia|]. intros j tj _ Hj Htj Lj Ej.
    pose proof (inv_fresh _ _ HI j tj Hj Htj Lj). simpl in Ej. lia.
  - exists t. split_and!; [|done|done|done|by exists t0]. split; [done| |done|done|done].
    simpl. apply list_lookup_insert_eq. by eapply lookup_lt_Some.
Qed.

(** What creating a process gives. *)
Definition created (s : sched) (Q : list (list nat)) (kernel : bool) (r : option nat) (s' : sched) : Prop :=
  frame s s' ∧ inv s' Q ∧ next_pid s' ≤ next_pid s + 1 ∧
  match r with
  | None => True
  | Some p => ∃ t, fresh s' Q p t ∧ pid t = next_pid s ∧ cpu t = 255 ∧ is_kernel t = kernel
  end.

Lemma wp_alloc_kernel_stack s Q p t :
  inv s Q → fresh s Q p t →
  wp (alloc_kernel_stack p) (λ ok s', frame s s' ∧ inv s' Q ∧ next_pid s' = next_pid s ∧
    ∃ t', fresh s' Q p t' ∧ pid t' = pid t ∧ cpu t' = cpu t ∧ is_kernel t' = is_kernel t ∧ shared t' = shared t) s.
Proof.
  intros HI HF. unfold alloc_kernel_stack, pmm_alloc_stack. cbv zeta. wp_steps.
  assert (inv (set_streams (clock_reads s) (S (stack_allocs s)) s) Q) as HI1 by inv_frame.
  assert (fresh (set_streams (clock_reads s) (S (stack_allocs s)) s) Q p t) as HF1 by (by destruct HF).
  change (Datatypes.id s) with s. destruct (stack_pages (mach s) (stack_allocs s) =? 0); wp_steps.
  - split_and!; [done|done|done|]. by exists t.
  - eapply wp_fresh; [exact HI1|exact HF1|done|exact (inv_tasks _ _ HI1 p t (fresh_task _ _ _ _ HF1))|apply HF1|].
    intros s2 HI2 HF2 ->. wp_steps. split_and!; [done|done|done|]. by eexists.
Qed.

Lemma wp_create_kernel s Q :
  inv s Q → next_pid s < 2 ^ 32 - 1 → wp process_create_kernel (created s Q true) s.
Proof.
  intros HI Hn. unfold process_create_kernel. wp_steps. eapply wp_mono; [by apply wp_proc_alloc|].
  intros [p|] s1 (Hf1 & HI1 & Hn1 & Hp); [|wp_steps; split_and!; try done].
  destruct Hp as (t & HF & Ep & Ec & Ek & _). wp_steps.
  eapply wp_fresh; [exact HI1|exact HF|done|exact (inv_tasks _ _ HI1 p t (fresh_task _ _ _ _ HF))|apply HF|].
  intros s2 HI2 HF2 Es2. wp_steps. eapply wp_mono; [by apply (wp_alloc_kernel_stack _ Q p _ HI2 HF2)|].
  intros ok s3 (Hf3 & HI3 & Hn3 & t3 & HF3 & Ep3 & Ec3 & Ek3 & _). simpl in *.
  assert (frame s s3) as Hf by (eapply frame_trans; [exact Hf1|]; eapply frame_trans; [|exact Hf3]; by rewrite Es2).
  assert (next_pid s3 ≤ next_pid s + 1) as Hn' by (rewrite Hn3, Es2; simpl; lia).
  pose proof (inv_tasks _ _ HI3 p t3 (fresh_task _ _ _ _ HF3)) as Hok3.
  destruct ok; simpl; wp_steps.
  - eapply wp_fresh; [exact HI3|exact HF3|done|done|apply HF3|]. intros s4 HI4 HF4 ->. wp_steps.
    split_and!; [done|done|done|]. eexists. split_and!; [exact HF4|simpl; congruence..].
  - eapply wp_fresh_dead; [exact HI3|exact HF3|done|done|]. intros s4 HI4 ->. wp_steps. by split_and!.
Qed.

Lemma inv_sigact s Q p h : inv s Q → length h = 64%nat → inv (set_sigact (<[p := h]> (sigact s)) s) Q.
Proof.
  intros [[? ? ?] ? [? ? ? ? ? ? Hh] ? ? ? ? ? ? ?] Hl.
  constructor; [constructor; assumption|assumption| |assumption..].
  constructor; try assumption; simpl; [by rewrite length_insert|by apply Forall_insert].
Qed.

Lemma wp_create_user s Q root :
  inv s Q → next_pid s < 2 ^ 32 - 1 → wp (process_create_user root) (created s Q false) s.
Proof.
  intros HI Hn. unfold process_create_user. wp_steps. eapply wp_mono; [by apply wp_proc_alloc|].
  intros [p|] s1 (Hf1 & HI1 & Hn1 & Hp); [|wp_steps; split_and!; try done].
  destruct Hp as (t & HF & Ep & Ec & Ek & _). pose proof (fresh_slot _ _ _ _ HF) as Hlt. wp_steps.
  destruct (inv_tasks _ _ HI1 p t (fresh_task _ _ _ _ HF)) as [Hok _].
  eapply wp_fresh; [exact HI1|exact HF|done|split; [done|]; by intros sh [= <-]|apply HF|].
  intros s2 HI2 HF2 Es2. wp_steps. pose proof (inv_sigact _ _ p no_handlers HI2 eq_refl) as HI2'.
  assert (fresh (set_sigact (<[p := no_handlers]> (sigact s2)) s2) Q p (as_user p root t)) as HF2' by (by destruct HF2).
  eapply wp_mono; [by apply (wp_alloc_kernel_stack _ Q p _ HI2' HF2')|].
  intros ok s3 (Hf3 & HI3 & Hn3 & t3 & HF3 & Ep3 & Ec3 & Ek3 & _). simpl in *.
  assert (frame s s3) as Hf by (eapply frame_trans; [exact Hf1|]; eapply frame_trans; [|exact Hf3]; by rewrite Es2).
  assert (next_pid s3 ≤ next_pid s + 1) as Hn' by (rewrite Hn3, Es2; simpl; lia).
  destruct (inv_tasks _ _ HI3 p t3 (fresh_task _ _ _ _ HF3)) as [Hok3 Hsh3].
  destruct ok; simpl; wp_steps.
  - eapply wp_fresh; [exact HI3|exact HF3|done|done|apply HF3|]. intros s4 HI4 HF4 ->. wp_steps.
    split_and!; [done|done|done|]. eexists. split_and!; [exact HF4|simpl; congruence..].
  - eapply wp_fresh_dead; [exact HI3|exact HF3|done|done|]. intros s4 HI4 ->. wp_steps. by split_and!.
Qed.

(** ** Making a task runnable *)

(** The processor a task is put on. *)
Definition add_cpu (s : sched) (t : task) : Z :=
  let n := cpu_count (mach s) in
  if negb (is_kernel t) && (cpu t <? n) then cpu t
  else if n <=? g_sched_next_cpu s then 0 else g_sched_next_cpu s.

Lemma add_cpu_range s Q t : inv s Q → task_ok t → 0 ≤ add_cpu s t < cpu_count (mach s).
Proof.
  intros HI [H0 _]. pose proof (size_next _ (inv_sizes _ _ HI)). pose proof (cpu_count_pos (mach s)).
  unfold add_cpu. destruct (is_kernel t), (Z.ltb_spec (cpu t) (cpu_count (mach s))); simpl;
    destruct (Z.leb_spec (cpu_count (mach s)) (g_sched_next_cpu s)); lia.
Qed.

Lemma inv_next_cpu s Q k : inv s Q → 0 ≤ k → inv (set_next_cpu k s) Q.
Proof.
  intros [[? ? ?] ? [? ? ? ? ? ? ?] ? ? ? ? ? ? ?] Hk.
  constructor; [constructor; assumption|assumption|constructor; assumption|assumption..].
Qed.

Lemma wp_add s Q p t :
  inv s Q → fresh s Q p t →
  wp (sched_add (pid t)) (λ _ s', frame s s' ∧ next_pid s' = next_pid s ∧
    inv s' (push (Z.to_nat (add_cpu s t)) p Q) ∧
    ∃ k, requeues (set_tasks (<[p := set_cpu (add_cpu s t) t]> (tasks s)) (set_next_cpu k s)) s') s.
Proof.
  intros HI HF. pose proof HF as [Hp Ht Hr Hq Hid].
  pose proof (inv_tasks _ _ HI p t Ht) as Hok. pose proof (add_cpu_range _ _ _ HI Hok) as Hc.
  pose proof (size_cpus _ (inv_sizes _ _ HI)) as Hm. unfold MAX_CPUS in Hm.
  unfold sched_add. wp_steps.
  rewrite (find_proc_unique _ s Q p t HI Hp Ht).
  2:{ rewrite Z.eqb_refl. by apply is_state_spec. }
  2:{ intros j tj Hj Htj Hb. apply andb_prop in Hb as [E%Z.eqb_eq Hst%is_state_spec].
      apply (inv_pids _ _ HI j p tj t); try done; split; congruence. }
  cbv zeta. wp_steps. eapply wp_task_at; [exact Ht|]. wp_steps.
  change (Datatypes.id s) with s.
  apply (wp_mono _ (λ c s', c = add_cpu s t ∧ ∃ k, 0 ≤ k ∧ s' = set_next_cpu k s)).
  { unfold add_cpu. pose proof (cpu_count_pos (mach s)). pose proof (size_next _ (inv_sizes _ _ HI)) as Hsn.
    destruct (negb (is_kernel t) && (cpu t <? cpu_count (mach s))).
    - wp_steps. split; [done|]. exists (g_sched_next_cpu s). split; [done|by destruct s].
    - wp_steps. split; [done|]. eexists. split; [|reflexivity].
      assert (0 ≤ (if cpu_count (mach s) <=? g_sched_next_cpu s then 0 else g_sched_next_cpu s))
        by (by destruct (_ <=? g_sched_next_cpu s)). destruct (cpu_count (mach s) <=? _ + 1); lia. }
  intros c s1 (-> & k & Hk & ->). rewrite u8_small by lia.
  pose proof (inv_next_cpu _ _ k HI Hk) as HI1.
  assert (fresh (set_next_cpu k s) Q p t) as HF1 by (by destruct HF).
  wp_steps. eapply wp_fresh; [exact HI1|exact HF1|done|destruct Hok; split; simpl; [lia|done]|done|].
  intros s2 HI2 HF2 Es2. eapply wp_mono; [apply (wp_push s2 Q (Z.to_nat (add_cpu s t)) p HI2)|].
  - rewrite Es2. split_and!; [simpl; lia|done|]. rewrite <-Es2. eexists. split_and!; [apply HF2|done|simpl; lia].
  - done.
  - intros ? s3 [HI3 Hq3]. split_and!; [|rewrite Es2 in Hq3; by destruct Hq3 as (ts & r & -> & _)|done|].
    + eapply frame_trans; [|by apply frame_requeues]. by rewrite Es2.
    + exists k. by rewrite Es2 in Hq3.
Qed.

(** A kernel thread made and put on a queue. *)
Definition spawn_kernel : M sched (option nat) :=
  r ← process_create_kernel;
  match r with
  | None => mret None
  | Some p => t ← task_at p; sched_add (pid t);; mret (Some p)
  end.

Lemma wp_spawn s Q :
  inv s Q → next_pid s < 2 ^ 32 - 1 →
  wp spawn_kernel (λ r s', frame s s' ∧ match r with
    | None => inv s' Q
    | Some p => ∃ c, Z.of_nat c < cpu_count (mach s) ∧ inv s' (push c p Q)
    end) s.
Proof.
  intros HI Hn. unfold spawn_kernel. wp_steps. eapply wp_mono; [by apply wp_create_kernel|].
  intros [p|] s1 (Hf1 & HI1 & _ & Hp); [|by wp_steps]. destruct Hp as (t & HF & _). wp_steps.
  eapply wp_task_at; [apply HF|]. wp_steps. eapply wp_mono; [by apply (wp_add _ _ _ _ HI1 HF)|].
  intros ? s2 (Hf2 & _ & HI2 & _). wp_steps. split; [by eapply frame_trans|].
  eexists. split; [|exact HI2].
  pose proof (add_cpu_range _ _ _ HI1 (inv_tasks _ _ HI1 p t (fresh_task _ _ _ _ HF))).
  destruct Hf1 as (<- & _). lia.
Qed.

Lemma wp_sched_current s Q id : inv s Q →
  wp (sched_current id) (λ r s', s' = s ∧ ∀ c, r = Some c → ∃ t, tasks s !! c = Some t) s.
Proof.
  intros HI. destruct (lookup_lt_is_Some_2 (current s) (cpu_index (mach s) id)) as [r Hr].
  { rewrite (size_current _ (inv_sizes _ _ HI)). pose proof (cpu_index_range s id (inv_sizes _ _ HI)).
    pose proof (size_cpus _ (inv_sizes _ _ HI)). unfold ncpus. lia. }
  eapply wp_lift_opt; [exact Hr|]. split; [done|]. intros c ->.
  apply lookup_lt_is_Some_2. rewrite (size_tasks _ (inv_sizes _ _ HI)). by apply (inv_current _ _ HI _ _ Hr).
Qed.

Lemma wp_launch s Q id loaded :
  inv s Q → next_pid s < 2 ^ 32 - 1 →
  wp (process_launch id loaded) (λ r s', frame s s' ∧ consistent s') s.
Proof.
  intros HI Hn. unfold process_launch. wp_steps. eapply wp_mono; [by apply (wp_sched_current s Q)|].
  intros cur s1 [-> Hcur]. destruct loaded as [err|root]; [wp_steps; split; [done|by exists Q]|].
  wp_steps. eapply wp_mono; [by apply wp_create_user|].
  intros [p|] s1 (Hf1 & HI1 & _ & Hp); [|wp_steps; split; [done|by exists Q]]. destruct Hp as (t & HF & _). wp_steps.
  apply (wp_mono _ (λ _ s2, frame s1 s2 ∧ inv s2 Q ∧ ∃ t2, fresh s2 Q p t2)).
  { destruct cur as [c|]; [|wp_steps; split_and!; [done|done|by exists t]].
    assert (∃ ct, tasks s1 !! c = Some ct) as [ct Hct].
    { apply lookup_lt_is_Some_2. destruct (Hcur c eq_refl) as [ct0 Hc0]. apply lookup_lt_Some in Hc0.
      by rewrite (size_tasks _ (inv_sizes _ _ HI1)), <-(size_tasks _ (inv_sizes _ _ HI)). }
    wp_steps. eapply wp_task_at; [exact Hct|]. destruct (inv_tasks _ _ HI1 p t (fresh_task _ _ _ _ HF)) as [_ Hsh].
    eapply wp_fresh; [exact HI1|exact HF|done|split; [apply (inv_tasks _ _ HI1 c ct Hct)|done]|apply HF|].
    intros s2 HI2 HF2 ->. split_and!; [done|done|by eexists]. }
  intros ? s2 (Hf2 & HI2 & t2 & HF2). wp_steps. eapply wp_task_at; [apply HF2|]. wp_steps.
  eapply wp_mono; [by apply (wp_add _ _ _ _ HI2 HF2)|]. intros ? s3 (Hf3 & _ & HI3 & _). wp_steps.
  split; [by eapply frame_trans; [|eapply frame_trans]|by eexists].
Qed.

(** ** Waiting and ending *)

Lemma inv_same_state s Q i t t' :
  inv s Q → tasks s !! i = Some t → same_id t t' → state_of t' = state_of t →
  inv (set_tasks (<[i := t']> (tasks s)) s) Q.
Proof.
  intros HI Ht (E1 & E2 & E3 & E4 & E5) Hst. apply (inv_task s Q i t); [done|done|done| | | |].
  - destruct (inv_tasks _ _ HI i t Ht) as [H1 H2]. split; [by rewrite E2|by rewrite E4].
  - intros _ L. split; [|done]. by destruct L; split; congruence.
  - intros Hin. split; [|done]. apply elem_of_concat_inv in Hin as (c & l & Hc & Hi).
    destruct (inv_queued _ _ HI c l i Hc Hi) as (_ & _ & t0 & Ht0 & Hr & _). simplify_eq. congruence.
  - intros c Hc. destruct (inv_idle _ _ HI c i Hc) as (_ & _ & t0 & Ht0 & Hr & Hk & _). simplify_eq.
    split_and!; [by rewrite Hst|congruence|done].
Qed.

Lemma wp_wait_status s Q id target :
  inv s Q → wp (process_wait_status id target) (λ _ s', consistent s') s.
Proof.
  intros HI. unfold process_wait_status. assert (consistent s) as Hcon by (by exists Q).
  destruct (target =? 0); [by wp_steps|]. wp_steps.
  eapply wp_mono; [by apply (wp_sched_current s Q)|]. intros cur s1 [-> Hcur].
  destruct cur as [c|]; [|by wp_steps]. destruct (Hcur c eq_refl) as [ct Hct]. wp_steps.
  eapply wp_task_at; [exact Hct|]. destruct (pid ct =? target); [by wp_steps|]. wp_steps.
  destruct (find_proc _ _) as [i|] eqn:E; [|by wp_steps].
  destruct (find_proc_Some _ _ _ _ HI E) as (Hi & t & Ht & _). wp_steps. eapply wp_task_at; [exact Ht|].
  destruct (_ && _); [by wp_steps|]. destruct (is_state PROC_DEAD t); [by wp_steps|]. wp_steps.
  eapply wp_on_task; [exact Hct|]. wp_steps.
  match goal with |- wp _ _ ?s1 => assert (inv s1 Q) as HI1 by (by apply (inv_same_state s Q c ct)) end.
  eapply wp_mono; [by apply (wp_block _ Q (pid ct) HI1)|]. intros ? s2 H2. wp_steps.
  exact (unqueued_consistent _ _ _ _ _ HI1 H2).
Qed.

Lemma wp_wake_joiners s tid : consistent s → wp (wake_joiners tid) (λ _ s', consistent s') s.
Proof.
  intros Hs. unfold wake_joiners. apply wp_bind.
  apply (wp_for_procs _ (λ _ _ s, consistent s)); [done| |by intros; wp_steps].
  intros k n s1 Hk [Q HI]. destruct (inv_slot _ _ _ HI Hk) as [t Ht].
  unfold wake_joiner. wp_steps. eapply wp_task_at; [exact Ht|].
  destruct (_ && _); wp_steps; [|by exists Q]. eapply wp_on_task; [exact Ht|].
  match goal with |- wp _ _ ?s2 => assert (inv s2 Q) as HI1 by (by apply (inv_same_state s1 Q k t)) end.
  eapply wp_mono; [by apply (wp_sched_wake _ Q)|]. intros ? s3 [H3 _]. by wp_steps.
Qed.

Lemma wp_thread_exit s Q tid code :
  inv s Q → wp (process_thread_exit tid code) (λ _ s', consistent s') s.
Proof.
  intros HI. unfold process_thread_exit. assert (consistent s) as Hcon by (by exists Q). wp_steps.
  destruct (find_proc _ _) as [i|] eqn:E; [|by wp_steps].
  destruct (find_proc_Some _ _ _ _ HI E) as (Hi & t & Ht & Hpid%Z.eqb_eq). wp_steps. eapply wp_task_at; [exact Ht|].
  destruct (is_state PROC_UNUSED t) eqn:Eu; [by wp_steps|].
  destruct (is_state PROC_DEAD t) eqn:Ed; simpl; [by wp_steps|].
  destruct (is_kernel t) eqn:Ek; simpl; [by wp_steps|]. destruct (pid t =? tgid t); [by wp_steps|].
  assert (live t) as L.
  { split; intros Est; by apply is_state_spec in Est; rewrite Est in *. }
  wp_steps. eapply wp_on_task; [exact Ht|].
  match goal with |- wp _ _ ?s1 => assert (inv s1 Q) as HI1 by (by apply (inv_same_state s Q i t)); set (s1' := s1) in * end.
  assert (tasks s1' !! i = Some (exited code t)) as Ht1 by (apply list_lookup_insert_eq; by eapply lookup_lt_Some).
  wp_steps. eapply wp_mono; [apply (wp_remove_with_state s1' Q tid PROC_ZOMBIE HI1); [|by left]|].
  { intros c j tj Hc Htj Ej. destruct (inv_idle _ _ HI1 c j Hc) as (_ & Hj & t0 & Ht0 & Hr & Hk & _).
    assert (tj = t0) as -> by congruence.
    assert (j = i) as ->.
    { apply (inv_pids _ _ HI1 j i t0 (exited code t)); try done; [split; destruct Hr; congruence|simpl; congruence]. }
    rewrite Ht1 in Ht0. injection Ht0 as <-. simpl in Hk. congruence. }
  intros ? s2 Hun. wp_steps.
  assert (∃ Q2 t2, inv s2 Q2 ∧ tasks s2 !! i = Some t2 ∧ (live t2 ∧ i ∉ concat Q2) ∧ is_kernel t2 = false) as (Q2 & t2 & HI2 & Ht2 & [L2 Hq2] & Ek2).
  { destruct Hun as [(x & tx & Hx & Htx & Epx & HI2 & Hq)|[-> Hn]].
    - assert (x = i) as ->.
      { destruct (elem_of_concat_inv _ _ Hx) as (c & l & Hc & Hl).
        destruct (inv_queued _ _ HI1 c l x Hc Hl) as (_ & Hxn & t0 & Ht0 & Hr & _).
        assert (tx = t0) as -> by congruence.
        apply (inv_pids _ _ HI1 x i t0 (exited code t)); try done; [split; congruence|simpl; congruence]. }
      destruct (requeues_task _ _ i (set_state PROC_ZOMBIE tx) Hq) as [v Hv].
      { apply list_lookup_insert_eq. by eapply lookup_lt_Some. }
      assert (tx = exited code t) as -> by congruence.
      exists (drop_task i Q), (set_next v (set_state PROC_ZOMBIE (exited code t))).
      split_and!; [done|done|done|rewrite elem_of_drop; by intros [? _]|done].
    - exists Q, (exited code t). split_and!; [done|done|apply L| |done].
      intros Hin. apply (Hn i _ Hin Ht1). simpl. congruence. }
  eapply wp_on_task; [exact Ht2|].
  match goal with |- wp _ _ ?s3 => assert (inv s3 Q2) as HI3 end.
  { apply (inv_task s2 Q2 i t2); [done|done|done|exact (inv_tasks _ _ HI2 i t2 Ht2)|done|done|].
    intros c Hc. destruct (inv_idle _ _ HI2 c i Hc) as (_ & _ & t0 & Ht0 & _ & Hk & _). simplify_eq. congruence. }
  wp_steps. eapply wp_mono; [by apply wp_wake_joiners; eexists|]. intros ? s4 H4. by wp_steps.
Qed.
