(* ===== verification/SchedTick.v ===== *)
(** * The tick

    What one tick of a processor does to its queue and its current task, and
    what it leaves alone of the other processors. *)

From S2P Require Import Prelude Vmm Sched SchedQueue SchedInv SchedOps SchedProc.

(** ** Stages *)

Lemma wp_rotate s Q c h l :
  inv s Q → Q !! c = Some (h :: l) →
  wp (p ← rq_pop c; p ← lift_opt (λ _, p); rq_push c p) (λ _ s', inv s' (<[c := l ++ [h]]> Q) ∧ requeues s s') s.
Proof.
  intros HI Hc. assert (c < length Q)%nat as Hcl by (by eapply lookup_lt_Some).
  apply wp_bind. eapply wp_mono; [by apply (wp_rq_pop s Q c h l (inv_rep _ _ HI))|].
  intros r s1 (-> & HR & Hh & Hq). wp_steps. eapply wp_lift_opt; [done|].
  assert (queued_ok s c h) as Hok by (apply (inv_queued _ _ HI c (h :: l)); [done|set_solver]).
  assert (inv s1 (<[c := l]> Q)) as HI1.
  { apply (inv_requeue s s1 Q); [done|done|done|by rewrite length_insert; apply HI|].
    intros c' l' i Hc' Hi. destruct (decide (c' = c)) as [->|Hne].
    - rewrite list_lookup_insert_eq in Hc' by done. simplify_eq.
      apply (inv_queued _ _ HI c (h :: l')); [done|set_solver].
    - rewrite list_lookup_insert_ne in Hc' by done. by apply (inv_queued _ _ HI c' l'). }
  assert (queued_ok s1 c h) as Hok1.
  { destruct Hok as (H1 & H2 & t & Ht & Hr & Hcp). destruct (requeues_task _ _ _ _ Hq Ht) as [v Hv].
    split_and!; [destruct Hq as (ts & r & -> & _); done|done|]. by exists (set_next v t). }
  eapply wp_mono; [by apply (wp_push s1 _ c h HI1)|]. intros ? s2 [HI2 Hq2]. split; [|by eapply requeues_trans].
  rewrite (push_insert _ _ _ l) in HI2 by (by apply list_lookup_insert_eq). by rewrite list_insert_insert_eq in HI2.
Qed.

Lemma wp_promote_inv s Q c l :
  inv s Q → Q !! c = Some l →
  wp (rq_promote_first_user c) (λ _ s', ∃ l', l' ≡ₚ l ∧ inv s' (<[c := l']> Q) ∧ requeues s s') s.
Proof.
  intros HI Hc. assert (c < length Q)%nat as Hcl by (by eapply lookup_lt_Some).
  eapply wp_mono; [by apply (wp_promote s Q c l (inv_rep _ _ HI))|].
  intros ? s' (l' & Hp & HR & Hq & _). exists l'. split_and!; [done| |done].
  apply (inv_requeue s s' Q); [done|done|done|by rewrite length_insert; apply HI|].
  intros c' l0 i Hc' Hi. destruct (decide (c' = c)) as [->|Hne].
  - rewrite list_lookup_insert_eq in Hc' by done. simplify_eq. apply (inv_queued _ _ HI c l); [done|]. by rewrite <-Hp.
  - rewrite list_lookup_insert_ne in Hc' by done. by apply (inv_queued _ _ HI c' l0).
Qed.

(** An idle task is on no queue but that of its processor. *)
Lemma idle_queue s Q c i : inv s Q → idle_task s !! c = Some (Some i) → Q !! c = Some [] → i ∉ concat Q.
Proof.
  intros HI Hid Hc Hin. destruct (inv_idle _ _ HI c i Hid) as (_ & _ & t & Ht & _ & _ & Hcpu).
  apply elem_of_concat_inv in Hin as (c' & l & Hc' & Hi).
  destruct (inv_queued _ _ HI c' l i Hc' Hi) as (_ & _ & t' & Ht' & _ & Hcpu'). simplify_eq.
  assert (c' = c) as -> by lia. simplify_eq. set_solver.
Qed.

Lemma wp_push_idle s Q c i :
  inv s Q → idle_task s !! c = Some (Some i) → Q !! c = Some [] →
  wp (push_idle c i) (λ _ s', inv s' (<[c := [i]]> Q) ∧ frame s s' ∧
    (∀ j t, j ≠ i → tasks s !! j = Some t → ∃ v, tasks s' !! j = Some (set_next v t)) ∧
    g_first_user_switch_seen s' = g_first_user_switch_seen s) s.
Proof.
  intros HI Hid Hc. pose proof (idle_queue _ _ _ _ HI Hid Hc) as Hi.
  destruct (inv_idle _ _ HI c i Hid) as (Hcc & Hlt & t & Ht & Hst & Hk & Hcpu).
  assert (i < length (tasks s))%nat by (by eapply lookup_lt_Some).
  pose proof (size_cpus _ (inv_sizes _ _ HI)) as Hm. unfold MAX_CPUS in Hm.
  unfold push_idle. wp_steps. eapply wp_on_task; [exact Ht|]. rewrite u8_small by lia.
  set (t' := set_cpu (Z.of_nat c) (set_state PROC_RUNNING t)).
  match goal with |- wp _ _ ?x => set (s1 := x) end.
  assert (inv s1 Q) as HI1.
  { apply (inv_wait s Q i t); [done|done| |split; destruct Hst; congruence|by left|by left].
    unfold same_id, t'. simpl. by rewrite Hcpu. }
  eapply wp_mono; [apply (wp_push s1 Q c i HI1); [|done]|].
  { split_and!; [done|done|]. exists t'. split_and!; [by apply list_lookup_insert_eq|done|done]. }
  intros ? s2 [HI2 Hq2]. rewrite (push_insert _ _ _ [] Hc) in HI2.
  split_and!; [done|apply (frame_requeues _ _ Hq2)| |by destruct Hq2 as (ts & r & -> & _)].
  intros j tj Hj Htj. apply (requeues_task _ _ _ _ Hq2). simpl. by rewrite list_lookup_insert_ne.
Qed.

(** The start of the tick: it goes on with a queue that is not empty. *)
Lemma wp_tick_empty s Q c x tx l :
  inv s Q → Z.of_nat c < cpu_count (mach s) → tasks s !! x = Some tx → Q !! c = Some l →
  wp (tick_empty c (Some x)) (λ go s',
    if go then frame s s' ∧ (∃ v, tasks s' !! x = Some (set_next v tx)) ∧
      g_first_user_switch_seen s' = g_first_user_switch_seen s ∧
      ∃ l', l' ≠ [] ∧ inv s' (<[c := l']> Q) ∧ (l ≠ [] → l' = l ∧ s' = s)
    else s' = s ∧ l = [] ∧ (state_of tx = PROC_RUNNING ∨ idle_task s !! c = Some None ∨ idle_task s !! c = Some (Some x))) s.
Proof.
  intros HI Hcc Hx Hc. destruct (rep_queue _ _ _ _ (inv_rep _ _ HI) Hc) as (q & Hq & Hh & _).
  unfold tick_empty. wp_steps. eapply wp_queue_at; [exact Hq|]. rewrite Hh. destruct l as [|h l]; simpl.
  - destruct (lookup_lt_is_Some_2 (idle_task s) c) as [idle Hid].
    { rewrite (size_idle _ (inv_sizes _ _ HI)). pose proof (size_cpus _ (inv_sizes _ _ HI)). unfold ncpus. lia. }
    wp_steps. eapply wp_lift_opt; [exact Hid|]. destruct idle as [i|]; [|wp_steps; split_and!; [done|done|by right; left]].
    wp_steps. eapply wp_task_at; [exact Hx|].
    destruct (is_state PROC_RUNNING tx) eqn:Hr; simpl.
    { wp_steps. apply is_state_spec in Hr. by split_and!; [| |left]. }
    case_bool_decide as Hix; simpl.
    { wp_steps. subst i. split_and!; [done|done|by right; right]. }
    wp_steps. eapply wp_mono; [by apply (wp_push_idle s Q c i)|]. intros ? s' (HI' & Hf & Hts & Hu). wp_steps.
    split_and!; [done|by apply Hts|done|]. exists [i]. by split_and!.
  - wp_steps. split_and!; [done|exists (next tx); rewrite Hx; by destruct tx|done|].
    exists (h :: l). split_and!; [done| |done]. by rewrite list_insert_id.
Qed.

(** With a queue that is not empty, the first task of the queue is next. *)
Lemma wp_pick_next s Q c x y l :
  inv s Q → Q !! c = Some (y :: l) →
  wp (pick_next c (Some x)) (λ r s', s' = s ∧ r = if decide (y = x) then None else Some y) s.
Proof.
  intros HI Hc. destruct (rep_queue _ _ _ _ (inv_rep _ _ HI) Hc) as (q & Hq & Hh & _).
  unfold pick_next. wp_steps. eapply wp_queue_at; [exact Hq|]. rewrite Hh. simpl.
  destruct (decide (y = x)) as [->|Hne].
  - rewrite bool_decide_true by done. simpl.
    destruct (inv_queued _ _ HI c _ x Hc) as (_ & _ & t & Ht & Hr & _); [set_solver|].
    wp_steps. eapply wp_task_at; [exact Ht|]. wp_steps. rewrite (proj2 (is_state_spec _ _) Hr). by wp_steps.
  - rewrite bool_decide_false by congruence. by wp_steps.
Qed.

Lemma inv_set_current s Q c x : inv s Q → (x < nprocs + ncpus)%nat →
  inv (set_current (<[c := Some x]> (current s)) s) Q.
Proof.
  intros [[? ? ?] ? [? ? ? ? ? ? ?] Hcur ? ? ? ? ? ?] Hx.
  constructor; [constructor; assumption|assumption| | |assumption..].
  - constructor; try assumption. simpl. by rewrite length_insert.
  - intros c' y Hc'. simpl in Hc'. destruct (decide (c' = c)) as [->|Hne].
    + destruct (decide (c < length (current s))%nat).
      * rewrite list_lookup_insert_eq in Hc' by done. by simplify_eq.
      * rewrite list_insert_ge in Hc' by lia. by apply (Hcur c y).
    + rewrite list_lookup_insert_ne in Hc' by done. by apply (Hcur c' y).
Qed.

(** [m] changes neither queues nor tasks that the invariant sees. *)
Lemma inv_reap s Q : inv s Q →
  wp process_reap_deferred_stacks (λ _ s', inv s' Q ∧ frame s s' ∧ tasks s' = tasks s ∧
    g_first_user_switch_seen s' = g_first_user_switch_seen s) s.
Proof. intros HI. unfold process_reap_deferred_stacks. wp_steps. split_and!; [inv_frame|done|done|done]. Qed.

Lemma wp_switch_to s Q c x y :
  inv s Q → (x < nprocs + ncpus)%nat → (y < nprocs + ncpus)%nat →
  wp (switch_to c (Some x) y) (λ _ s', inv s' Q ∧ mach s' = mach s ∧ idle_task s' = idle_task s ∧
    current s' = <[c := Some y]> (current s) ∧
    (g_first_user_switch_seen s = true → g_first_user_switch_seen s' = true)) s.
Proof.
  intros HI Hx Hy. rewrite <-(size_tasks _ (inv_sizes _ _ HI)) in Hx.
  destruct (lookup_lt_is_Some_2 _ _ Hx) as [tx Htx].
  destruct (lookup_lt_is_Some_2 (tasks s) y) as [ty Hty]; [by rewrite (size_tasks _ (inv_sizes _ _ HI))|].
  unfold switch_to. wp_steps. eapply wp_task_at; [exact Hty|]. cbv zeta. wp_steps.
  eapply wp_lift_opt; [done|]. unfold context_switch.
  match goal with |- wp _ _ ?x => set (s1 := x) end.
  assert (inv s1 Q) as HI1.
  { pose proof (inv_set_current s Q c y HI Hy) as H1. clear -H1. unfold s1.
    destruct H1 as [[? ? ?] ? [? ? ? ? ? ? ?] ? ? ? ? ? ? ?].
    constructor; [constructor; assumption|assumption|constructor; assumption|assumption..]. }
  assert (g_first_user_switch_seen s = true → g_first_user_switch_seen s1 = true) as Hu.
  { intros Hu. unfold s1. simpl. by rewrite Hu. }
  case_bool_decide as Hxy.
  { eapply wp_mono; [by apply (inv_reap s1 Q)|]. intros ? s2 (H1 & (H2 & H3 & H4) & _ & H5).
    split_and!; [done|done|done|done|]. rewrite H5. done. }
  wp_steps. eapply wp_on_task; [exact Htx|]. wp_steps.
  match goal with |- wp _ _ ?x => set (s2 := x) end.
  assert (inv s2 Q) as HI2.
  { assert (inv (set_tasks (<[x := set_resumes true tx]> (tasks s1)) s1) Q) as H2 by (by apply (inv_same_state s1 Q x tx)).
    clear -H2. unfold s2. inv_frame. }
  eapply wp_task_at.
  { unfold s2, s1. simpl. rewrite list_lookup_insert_ne by done. exact Hty. }
  destruct (resumes ty).
  - eapply wp_mono; [by apply (inv_reap s2 Q)|]. intros ? s3 (H1 & (H2 & H3 & H4) & _ & H5).
    split_and!; [done|done|done|done|]. rewrite H5. done.
  - wp_steps. by split_and!.
Qed.

Lemma pushes_lookup s g sel Q c l : Q !! c = Some l → ∃ w, pushes s g sel Q !! c = Some (l ++ w).
Proof.
  revert Q l. induction sel as [|i sel IH]; intros Q l Hc; [exists []; by rewrite app_nil_r|].
  simpl. destruct (decide (home s g i = c)) as [->|Hne].
  - destruct (IH (push c i Q) (l ++ [i])) as [w Hw].
    { rewrite (push_insert _ _ _ _ Hc). apply list_lookup_insert_eq. by eapply lookup_lt_Some. }
    exists (i :: w). by rewrite Hw, <-app_assoc.
  - destruct (IH (push (home s g i) i Q) l) as [w Hw]; [|by exists w].
    unfold push. by rewrite list_lookup_alter_ne.
Qed.

(** ** The whole tick *)

(** What a tick of processor [c] with current task [x] and queue [l] leaves. *)
Record ticked (s : sched) (Q : list (list nat)) (c x : nat) (l : list nat) (s' : sched) (Q' : list (list nat)) : Prop := {
  ticked_inv : inv s' Q';
  ticked_mach : mach s' = mach s;
  ticked_idle : idle_task s' = idle_task s;
  ticked_seen : g_first_user_switch_seen s = true → g_first_user_switch_seen s' = true;
  ticked_others : ∀ c', c' ≠ c → current s' !! c' = current s !! c';
  ticked_queues : ∀ c' l', c' ≠ c → Q !! c' = Some l' → ∃ w, Q' !! c' = Some (l' ++ w);
  ticked_current : ∃ y, current s' !! c = Some (Some y) ∧
    ((∃ l', Q' !! c = Some (y :: l')) ∨
     (s' = s ∧ y = x ∧ l = [] ∧ ∃ tx, tasks s !! x = Some tx ∧ (state_of tx = PROC_RUNNING ∨
        idle_task s !! c = Some None ∨ idle_task s !! c = Some (Some x))));
  ticked_rotated : ∀ l1, l = x :: l1 → Z.of_nat c ≠ bsp_of (mach s) ∨ g_first_user_switch_seen s = true →
    ∃ w, Q' !! c = Some (l1 ++ w ++ [x]) ∧ current s' !! c = Some ((l1 ++ w ++ [x]) !! 0%nat)
}.

(** The end of the tick: from a queue that is not empty, its first task is
    current. *)
Lemma wp_finish s Q c x y l :
  inv s Q → current s !! c = Some (Some x) → Q !! c = Some (y :: l) →
  wp (nxt ← pick_next c (Some x); match nxt with None => mret tt | Some n => switch_to c (Some x) n end)
    (λ _ s', inv s' Q ∧ mach s' = mach s ∧ idle_task s' = idle_task s ∧
      (g_first_user_switch_seen s = true → g_first_user_switch_seen s' = true) ∧
      current s' !! c = Some (Some y) ∧ ∀ c', c' ≠ c → current s' !! c' = current s !! c') s.
Proof.
  intros HI Hcur Hc. wp_steps. eapply wp_mono; [by apply (wp_pick_next s Q c x y l)|]. intros r s' [-> ->].
  destruct (decide (y = x)) as [->|Hne]; [by wp_steps|].
  destruct (inv_queued _ _ HI c (y :: l) y Hc) as (_ & Hy & _); [set_solver|].
  eapply wp_mono; [apply (wp_switch_to s Q c x y HI); [by apply (inv_current _ _ HI c x)|lia]|].
  intros ? s' (H1 & H2 & H3 & H4 & H5). rewrite H4. split_and!; [done..| |].
  - apply list_lookup_insert_eq. by eapply lookup_lt_Some.
  - intros c' Hc'. by apply list_lookup_insert_ne.
Qed.

(** The middle of the tick: rotation and promotion. *)
Lemma wp_arrange s Q c x tx h l :
  inv s Q → tasks s !! x = Some tx → Q !! c = Some (h :: l) → current s !! c = Some (Some x) →
  wp ((t ← task_at x;
       if is_state PROC_RUNNING t then p ← rq_pop c; p ← lift_opt (λ _, p); rq_push c p else mret tt);;
      s ← gets Datatypes.id;
      (if bool_decide (Z.of_nat c = bsp_of (mach s)) && negb (g_first_user_switch_seen s)
       then rq_promote_first_user c else mret tt);;
      nxt ← pick_next c (Some x);
      match nxt with None => mret tt | Some n => switch_to c (Some x) n end)
    (λ _ s', ∃ y l', inv s' (<[c := y :: l']> Q) ∧ mach s' = mach s ∧ idle_task s' = idle_task s ∧
      (g_first_user_switch_seen s = true → g_first_user_switch_seen s' = true) ∧
      current s' !! c = Some (Some y) ∧ (∀ c', c' ≠ c → current s' !! c' = current s !! c') ∧
      (state_of tx = PROC_RUNNING → Z.of_nat c ≠ bsp_of (mach s) ∨ g_first_user_switch_seen s = true →
         y :: l' = l ++ [h])) s.
Proof.
  intros HI Hx Hc Hcur. assert (c < length Q)%nat as Hcl by (by eapply lookup_lt_Some). apply wp_bind.
  apply (wp_mono _ (λ _ s1, ∃ l1, l1 ≠ [] ∧ inv s1 (<[c := l1]> Q) ∧ requeues s s1 ∧
    (state_of tx = PROC_RUNNING → l1 = l ++ [h]))).
  { wp_steps. eapply wp_task_at; [exact Hx|]. destruct (is_state PROC_RUNNING tx) eqn:E.
    - eapply wp_mono; [by apply (wp_rotate s Q c h l)|]. intros ? s1 [H1 H2]. exists (l ++ [h]).
      split_and!; [by destruct l|done|done|done].
    - wp_steps. exists (h :: l). rewrite list_insert_id by done. split_and!; [done|done|apply requeues_refl|].
      intros Hr. apply is_state_spec in Hr. congruence. }
  intros ? s1 (l1 & Hl1 & HI1 & Hq1 & Hr1). wp_steps. change (Datatypes.id s1) with s1.
  apply (wp_mono _ (λ _ s2, ∃ y l2, inv s2 (<[c := y :: l2]> Q) ∧ requeues s s2 ∧
    (state_of tx = PROC_RUNNING → Z.of_nat c ≠ bsp_of (mach s) ∨ g_first_user_switch_seen s = true → y :: l2 = l ++ [h]))).
  { assert (mach s1 = mach s ∧ g_first_user_switch_seen s1 = g_first_user_switch_seen s) as [-> ->]
      by (by destruct Hq1 as (ts & r & -> & _)).
    destruct (bool_decide _ && negb _) eqn:E.
    - eapply wp_mono; [apply (wp_promote_inv s1 _ c l1 HI1); by apply list_lookup_insert_eq|].
      intros ? s2 (l2 & Hp & HI2 & Hq2). rewrite list_insert_insert_eq in HI2.
      destruct l2 as [|y l2]; [by apply Permutation_nil_l in Hp|].
      exists y, l2. split_and!; [done|by eapply requeues_trans|]. intros _ [Hn|Hn].
      + by rewrite bool_decide_false in E.
      + rewrite Hn in E. by destruct (bool_decide _).
    - wp_steps. destruct l1 as [|y l1]; [done|]. exists y, l1. split_and!; [done|done|]. intros Hr _. by apply Hr1. }
  intros ? s2 (y & l2 & HI2 & Hq2 & Hr2).
  assert (current s2 !! c = Some (Some x)) as Hcur2 by (by destruct Hq2 as (ts & r & -> & _)).
  eapply wp_mono; [apply (wp_finish s2 _ c x y l2 HI2 Hcur2); by apply list_lookup_insert_eq|].
  intros ? s3 (H1 & H2 & H3 & H4 & H5 & H6). exists y, l2. destruct Hq2 as (ts & r & -> & _). by split_and!.
Qed.

Lemma wp_tick s Q id x l :
  inv s Q → current s !! cpu_index (mach s) id = Some (Some x) → Q !! cpu_index (mach s) id = Some l →
  wp (sched_tick id) (λ _ s', ∃ Q', ticked s Q (cpu_index (mach s) id) x l s' Q') s.
Proof.
  intros HI Hcur Hc. pose proof (cpu_index_range s id (inv_sizes _ _ HI)) as Hcc.
  unfold sched_tick. wp_steps. cbv zeta. change (Datatypes.id s) with s. set (c := cpu_index (mach s) id) in *.
  assert (c < length Q)%nat as Hcl by (by eapply lookup_lt_Some).
  assert (∃ tx, tasks s !! x = Some tx) as [tx Hx].
  { apply lookup_lt_is_Some_2. rewrite (size_tasks _ (inv_sizes _ _ HI)). by apply (inv_current _ _ HI c). }
  wp_steps. eapply wp_lift_opt; [exact Hcur|]. wp_steps.
  eapply wp_mono; [by apply (wp_tick_empty s Q c x tx l)|]. intros [] s1 H1; simpl.
  2:{ destruct H1 as (-> & -> & Hw). wp_steps. exists Q. split; try done.
      - intros c' l' _ Hl'. exists []. by rewrite app_nil_r.
      - exists x. split; [done|]. right. split_and!; [done|done|done|by exists tx]. }
  destruct H1 as ((Em1 & Ec1 & Ei1) & [v1 Hx1] & Hu1 & l1 & Hl1 & HI1 & Hsame). wp_steps.
  eapply wp_mono; [by apply (wp_now_ms s1 _ HI1)|]. intros now s2 (HI2 & k & Es2). wp_steps.
  eapply wp_mono; [by apply (wp_wake_sleepers s2 _ now HI2)|]. intros ? s3 HW. wp_steps.
  pose proof (waked_inv _ _ _ _ _ HW) as HI3. pose proof (waked_mach _ _ _ _ _ HW) as Em3.
  destruct (waked_tasks _ _ _ _ _ HW) as (ts3 & r3 & Es3 & Hts3).
  destruct (pushes_lookup s2 (timed_awake (mach s2)) (slots (due now) s2 nprocs) _ c l1
    (list_lookup_insert_eq _ _ l1 Hcl)) as [w Hw].
  destruct l1 as [|h l1]; [done|].
  assert (current s3 = current s) as Ec3 by (rewrite Es3, Es2; simpl; by rewrite Ec1).
  eapply wp_lift_opt; [by rewrite Ec3|].
  assert (∃ t3, tasks s3 !! x = Some t3) as [t3 Hx3].
  { apply lookup_lt_is_Some_2. rewrite (size_tasks _ (inv_sizes _ _ HI3)). by apply (inv_current _ _ HI c). }
  eapply wp_mono; [apply (wp_arrange s3 _ c x t3 h (l1 ++ w) HI3 Hx3 Hw); by rewrite Ec3|].
  intros ? s4 (y & l4 & HI4 & Em4 & Ei4 & Hu4 & Hcur4 & Hot4 & Hrot4).
  assert (g_first_user_switch_seen s3 = g_first_user_switch_seen s) as Hu3 by (rewrite Es3, Es2; simpl; done).
  assert (mach s3 = mach s) as Em by (rewrite Em3, Es2; simpl; done).
  eexists. split; [exact HI4|by rewrite Em4| | | | | |].
  - rewrite Ei4, Es3, Es2. simpl. done.
  - intros Hu. apply Hu4. by rewrite Hu3.
  - intros c' Hc'. by rewrite Hot4, Ec3.
  - intros c' l' Hc' Hl'. rewrite list_lookup_insert_ne by done. apply pushes_lookup.
    by rewrite list_lookup_insert_ne.
  - exists y. split; [done|]. left. exists l4. apply list_lookup_insert_eq. by apply lookup_lt_Some in Hw.
  - intros l0 -> Hns. destruct (Hsame ltac:(done)) as [E ->]. injection E as -> ->.
    assert (state_of t3 = PROC_RUNNING) as Hr3.
    { destruct (inv_queued _ _ HI3 c (x :: l0 ++ w) x) as (_ & _ & t & Ht & Hr & _); [done|set_solver|]. by simplify_eq. }
    rewrite Em, Hu3 in Hrot4. specialize (Hrot4 Hr3 Hns). rewrite <-app_assoc in Hrot4. exists w.
    rewrite <-Hrot4. split; [|done]. apply list_lookup_insert_eq. by apply lookup_lt_Some in Hw.
Qed.
