(* ===== verification/SchedProps.v ===== *)
(** * Properties of the scheduler

    Start-up establishes the invariant and every call keeps it without a
    fault; a tick never leaves a blocked task running and serves the queue in
    order; a futex wake wakes exactly the first waiters. *)

From S2P Require Import Prelude Vmm Sched SchedQueue SchedInv SchedOps SchedProc SchedTick.

#[local] Arguments replicate : simpl never.
#[local] Arguments Z.to_nat : simpl never.

(** ** Start-up *)

(** Memory as the loader leaves it: zeroed statics. *)
Definition boot_state (m : machine) : sched :=
  Sched m (replicate (nprocs + ncpus) zero_task) (replicate nprocs no_handlers)
    (replicate ncpus (Runqueue None None 0)) (replicate ncpus None) (replicate ncpus None)
    0 false false false (replicate ncpus (Percpu 0 0 0 0)) 0 [] 0 0 [] [].

Definition start (boot_top rsp : Z) : M sched unit := process_init;; sched_init boot_top rsp.

Definition no_queues : list (list nat) := replicate ncpus [].

Lemma concat_no_queues : concat no_queues = [].
Proof. unfold no_queues. induction ncpus as [|n IH]; [done|done]. Qed.

Lemma inv_blank m s :
  cpu_count m ≤ MAX_CPUS → s = set_next_pid 1 (boot_state m) → inv s no_queues.
Proof.
  intros Hm ->. assert (∀ i t, tasks (boot_state m) !! i = Some t → t = zero_task) as Hz.
  { intros i t Ht. simpl in Ht. by apply lookup_replicate in Ht as [-> _]. }
  constructor; cbn [tasks sigact current idle_task next_pid set_next_pid boot_state].
  - split; [|rewrite concat_no_queues; constructor|rewrite concat_no_queues; simpl; lia].
    cbn [tasks rq set_next_pid boot_state]. unfold no_queues. apply Forall2_replicate. split_and!; [done|done|done|]. by intros k i Hk.
  - apply length_replicate.
  - constructor; [exact Hm|done|apply length_replicate..|]. by apply Forall_replicate.
  - intros c x Hc. by apply lookup_replicate in Hc as [? _].
  - intros i t ->%Hz. split; [done|by intros sh ?].
  - intros c l i Hc Hi. apply lookup_replicate in Hc as [-> _]. set_solver.
  - intros i j ti tj ->%Hz _ _ _ [Hl _]. by destruct Hl.
  - done.
  - intros i t _ ->%Hz [Hl _]. by destruct Hl.
  - intros c i Hc. by apply lookup_replicate in Hc as [? _].
Qed.

Lemma inv_no_current s Q c : inv s Q → inv (set_current (<[c := None]> (current s)) s) Q.
Proof.
  intros [[? ? ?] ? [? ? ? ? ? ? ?] Hcur ? ? ? ? ? ?].
  constructor; [constructor; assumption|assumption| | |assumption..].
  - constructor; try assumption. simpl. by rewrite length_insert.
  - intros c' y Hc'. simpl in Hc'. destruct (decide (c' = c)) as [->|Hne].
    + destruct (decide (c < length (current s))%nat).
      * by rewrite list_lookup_insert_eq in Hc' by done.
      * rewrite list_insert_ge in Hc' by lia. by apply (Hcur c y).
    + rewrite list_lookup_insert_ne in Hc' by done. by apply (Hcur c' y).
Qed.

Lemma inv_set_idle s Q c i : inv s Q → idle_ok s c i → inv (set_idle (<[c := Some i]> (idle_task s)) s) Q.
Proof.
  intros [[? ? ?] ? [? ? ? ? ? ? ?] ? ? ? ? ? ? Hid] Hok.
  constructor; [constructor; assumption|assumption| |assumption..|].
  - constructor; try assumption. simpl. by rewrite length_insert.
  - intros c' j Hc'. simpl in Hc'. destruct (decide (c' = c)) as [->|Hne].
    + destruct (decide (c < length (idle_task s))%nat).
      * rewrite list_lookup_insert_eq in Hc' by done. by simplify_eq.
      * rewrite list_insert_ge in Hc' by lia. by apply (Hid c j).
    + rewrite list_lookup_insert_ne in Hc' by done. by apply (Hid c' j).
Qed.

(** A boot context is no slot of the process table. *)
Lemma wp_init_boot s Q c top :
  inv s Q → (c < ncpus)%nat →
  wp (init_boot_context c top) (λ _ s', inv s' Q ∧ frame s s' ∧ next_pid s' = next_pid s) s.
Proof.
  intros HI Hc. destruct (lookup_lt_is_Some_2 (tasks s) (boot_index c)) as [t Ht].
  { rewrite (size_tasks _ (inv_sizes _ _ HI)). unfold boot_index, nprocs. lia. }
  assert (¬ (boot_index c < nprocs)%nat) as Hb by (unfold boot_index, nprocs; lia).
  unfold init_boot_context. wp_steps. eapply wp_on_task; [exact Ht|]. split_and!; [|done|done].
  apply (inv_update s Q (boot_index c) t); [done|done| |done| |].
  - split; [|done]. simpl. unfold ncpus, MAX_CPUS in Hc. rewrite u8_small by lia. lia.
  - intros Hin. apply elem_of_concat_inv in Hin as (c' & l & Hc' & Hi).
    by destruct (inv_queued _ _ HI c' l _ Hc' Hi) as (_ & ? & _).
  - intros c' Hc'. by destruct (inv_idle _ _ HI c' _ Hc') as (_ & ? & _).
Qed.

(** One processor of [sched_init]. *)
Lemma wp_init_cpu s Q c :
  inv s Q → Z.of_nat c < cpu_count (mach s) → Q !! c = Some [] → next_pid s < 2 ^ 32 - 1 →
  wp (set_queue c (Runqueue None None 0);;
      modify (λ s, set_current (<[c := None]> (current s)) s);;
      r ← process_create_kernel;
      match r with
      | None => mret None
      | Some idle =>
          on_task idle (set_cpu (u8 (Z.of_nat c)));;
          modify (λ s, set_idle (<[c := Some idle]> (idle_task s)) s);;
          rq_push c idle;;
          modify (λ s, set_current (<[c := Some idle]> (current s)) s);;
          mret (None : option unit)
      end)
    (λ r s', r = None ∧ mach s' = mach s ∧ next_pid s' ≤ next_pid s + 1 ∧
      ∃ l, inv s' (<[c := l]> Q)) s.
Proof.
  intros HI Hc HQ Hn. pose proof (size_cpus _ (inv_sizes _ _ HI)) as Hm. unfold MAX_CPUS in Hm.
  unfold set_queue. wp_steps.
  destruct (rep_queue _ _ _ _ (inv_rep _ _ HI) HQ) as (q & Hq & Hh & Ht & Hcnt & _).
  assert (q = Runqueue None None 0) as -> by (destruct q; simpl in *; by simplify_eq).
  replace (set_rq (<[c := Runqueue None None 0]> (rq s)) s) with s
    by (rewrite list_insert_id by done; by destruct s).
  pose proof (inv_no_current _ _ c HI) as HI1. eapply wp_mono; [by apply (wp_create_kernel _ Q HI1)|].
  intros [p|] s2 (Hf2 & HI2 & Hn2 & Hp).
  2:{ wp_steps. split_and!; [done|apply Hf2|done|]. exists []. by rewrite list_insert_id. }
  destruct Hp as (t & HF & _ & _ & Hk). destruct Hf2 as (Em2 & _). simpl in Em2, Hn2.
  destruct (inv_tasks _ _ HI2 p t (fresh_task _ _ _ _ HF)) as [_ Hsh]. wp_steps.
  eapply wp_fresh; [exact HI2|exact HF|done|split; [simpl; rewrite u8_small by lia; lia|done]|apply HF|].
  rewrite u8_small by lia. intros s3 HI3 HF3 Es3. wp_steps.
  assert (mach s3 = mach s) as Em3 by (rewrite Es3; done).
  assert (inv (set_idle (<[c := Some p]> (idle_task s3)) s3) Q) as HI4.
  { apply inv_set_idle; [done|]. split_and!; [by rewrite Em3|apply HF|].
    eexists. split_and!; [apply HF3|left; apply HF|exact Hk|done]. }
  eapply wp_mono; [apply (wp_push _ Q c p HI4); [|apply HF3]|].
  { split_and!; [simpl; by rewrite Em3|apply HF|]. eexists. split_and!; [apply HF3|apply HF|done]. }
  intros ? s5 [HI5 Hq5]. wp_steps. destruct Hq5 as (ts & r & -> & _). split_and!; [done|done|simpl; rewrite Es3; done|].
  exists [p]. rewrite (push_insert _ _ _ _ HQ) in HI5. apply inv_set_current; [done|].
  pose proof (fresh_slot _ _ _ _ HF). lia.
Qed.

Lemma wp_start m boot_top rsp :
  (length (apic_ids m) ≤ ncpus)%nat → wp (start boot_top rsp) (λ _ s', consistent s' ∧ mach s' = m) (boot_state m).
Proof.
  intros Hlen. assert (cpu_count m ≤ MAX_CPUS) as Hm.
  { unfold cpu_count, smp_cpu_count, ncpus in *. destruct (_ =? 0); unfold MAX_CPUS in *; lia. }
  pose proof (cpu_count_pos m) as Hpos. pose proof (bsp_of_range m) as Hbsp.
  unfold start, process_init. wp_steps. unfold sched_init.
  match goal with |- wp _ _ ?x => replace x with (set_next_pid 1 (boot_state m)) end.
  2:{ cbn [boot_state set_next_pid set_sigact set_tasks tasks sigact]. unfold set_tasks, set_sigact, set_next_pid. simpl.
      by f_equal. }
  pose proof (inv_blank m _ Hm eq_refl) as HI0. wp_steps. cbn [mach set_next_pid boot_state].
  rewrite Z.min_l by done.
  apply (wp_for 0 (cpu_count m) _ (λ i s, mach s = m ∧ next_pid s ≤ 1 + i ∧ ∃ Q, inv s Q ∧
    ∀ c, i ≤ Z.of_nat c → (c < ncpus)%nat → Q !! c = Some [])); [lia| | |].
  - split_and!; [done|simpl; lia|]. exists no_queues. split; [done|].
    intros c _ Hc. unfold no_queues. by apply lookup_replicate.
  - intros i s Hi (Em & Hn & Q & HI & HQ). unfold MAX_CPUS in Hm.
    assert (Z.to_nat i < ncpus)%nat as Hlt by (unfold ncpus, MAX_CPUS; lia).
    pose proof (wp_init_cpu s Q (Z.to_nat i) HI) as Hw. rewrite Z2Nat.id in Hw by lia. rewrite Em in Hw.
    eapply wp_mono; [apply Hw; [lia|apply HQ; [lia|done]|lia]|].
    intros r s' (-> & Em' & Hn' & l & HI'). split_and!; [done|lia|]. exists (<[Z.to_nat i := l]> Q). split; [done|].
    intros c Hc1 Hc2. rewrite list_lookup_insert_ne by lia. apply HQ; [lia|done].
  - intros s (Em & Hn & Q & HI & _). cbv zeta. wp_steps.
    assert (Z.to_nat (bsp_of m) < ncpus)%nat as Hlt by (unfold ncpus, MAX_CPUS in *; lia).
    eapply wp_mono; [by apply (wp_init_boot s Q)|]. intros ? s1 (HI1 & (Em1 & _) & _). unfold seed_percpu. wp_steps.
    split; [|simpl; congruence]. exists Q.
    assert (inv (set_current (<[Z.to_nat (bsp_of m) := Some (boot_index (Z.to_nat (bsp_of m)))]> (current s1)) s1) Q) as H2
      by (apply inv_set_current; [done|unfold boot_index, nprocs; lia]).
    apply (inv_next_cpu _ _ 0) in H2; [|done]. clear -H2.
    destruct H2 as [[? ? ?] ? [? ? ? ? ? ? ?] ? ? ? ? ? ? ?].
    constructor; [constructor; assumption|assumption|constructor; assumption|assumption..].
Qed.

(** ** Calls *)

Inductive call :=
  | Spawn | Launch (id : Z) (loaded : Z + Z) | Remove (v : Z) | ThreadExit (tid code : Z)
  | WaitStatus (id target : Z) | Sleep (v ms : Z) | Block (v : Z) | BlockPoll (v wake_time : Z)
  | BlockFutex (v : Z) (word : option (Z * Z)) (expected key wake_time bitset : Z)
  | Wake (v : Z) | WakeSignal (v : Z) | WakePoll | WakeFutex (key max_wake bitset result : Z)
  | Requeue (from to n : Z) | Tick (id : Z) | Yield (id : Z) | ApStart (id stack_top : Z).

Definition call_prog (o : call) : M sched unit :=
  match o with
  | Spawn => spawn_kernel;; mret tt
  | Launch id loaded => process_launch id loaded;; mret tt
  | Remove v => sched_remove v
  | ThreadExit tid code => process_thread_exit tid code;; mret tt
  | WaitStatus id target => process_wait_status id target;; mret tt
  | Sleep v ms => sched_sleep v ms
  | Block v => sched_block v
  | BlockPoll v w => sched_block_poll v w
  | BlockFutex v word expected key w bitset => sched_block_futex v word expected key w bitset;; mret tt
  | Wake v => sched_wake v
  | WakeSignal v => sched_wake_signal v;; mret tt
  | WakePoll => sched_wake_poll_waiters;; mret tt
  | WakeFutex key n bitset result => sched_wake_futex key n bitset result;; mret tt
  | Requeue from to n => sched_requeue_futex from to n;; mret tt
  | Tick id => sched_tick id
  | Yield id => sched_yield id
  | ApStart id top => sched_ap_start id top
  end.

(** A processor that has a current task. *)
Definition started (s : sched) (id : Z) : Prop := ∃ x, current s !! cpu_index (mach s) id = Some (Some x).

(** When a call is made: task numbers are not used up, idle tasks are not
    removed, counts are unsigned, and a processor ticks once it has started. *)
Definition call_pre (s : sched) (o : call) : Prop :=
  match o with
  | Spawn | Launch _ _ => next_pid s < 2 ^ 32 - 1
  | Remove v => not_idle s v
  | WakeFutex _ n _ _ | Requeue _ _ n => 0 ≤ n
  | Tick id | Yield id => started s id
  | _ => True
  end.

Inductive step (s s' : sched) : Prop :=
  | step_call o : call_pre s o → call_prog o s = Some (tt, s') → step s s'.

Lemma wp_tick_started s Q id : inv s Q → started s id →
  wp (sched_tick id) (λ _ s', consistent s') s.
Proof.
  intros HI [x Hx]. destruct (inv_queue s Q (cpu_index (mach s) id) HI) as [l Hl].
  { apply cpu_index_range, HI. }
  eapply wp_mono; [by apply (wp_tick s Q id x l)|]. intros ? s' [Q' HT]. exists Q'. apply HT.
Qed.

Lemma wp_ap_start s Q id top : inv s Q → wp (sched_ap_start id top) (λ _ s', consistent s') s.
Proof.
  intros HI. unfold sched_ap_start. wp_steps. cbv zeta. wp_steps.
  assert (cpu_index (mach s) id < ncpus)%nat as Hc.
  { pose proof (cpu_index_range s id (inv_sizes _ _ HI)). pose proof (size_cpus _ (inv_sizes _ _ HI)). unfold ncpus. lia. }
  eapply wp_mono; [by apply (wp_init_boot s Q)|]. intros ? s1 (HI1 & _ & _). unfold seed_percpu. wp_steps.
  exists Q. assert (inv (set_current (<[cpu_index (mach s) id := Some (boot_index (cpu_index (mach s) id))]> (current s1)) s1) Q) as H2
    by (apply inv_set_current; [done|unfold boot_index, nprocs; lia]).
  clear -H2. inv_frame.
Qed.

Lemma wp_call_prog s o : consistent s → call_pre s o → wp (call_prog o) (λ _ s', consistent s') s.
Proof.
  intros [Q HI] Hpre. assert (consistent s) as Hs by (by exists Q).
  destruct o; simpl in Hpre |- *; wp_steps.
  - eapply wp_mono; [by apply (wp_spawn s Q)|]. intros [p|] s' [_ H]; wp_steps; [|by exists Q].
    destruct H as (c & _ & H). by eexists.
  - eapply wp_mono; [by apply (wp_launch s Q)|]. intros r s' [_ H]. by wp_steps.
  - eapply wp_mono; [by apply (wp_remove_with_state s Q v PROC_DEAD HI Hpre); right|].
    intros ? s' H. by apply (unqueued_consistent _ _ _ _ _ HI H).
  - eapply wp_mono; [by apply (wp_thread_exit s Q)|]. intros r s' H. by wp_steps.
  - eapply wp_mono; [by apply (wp_wait_status s Q)|]. intros r s' H. by wp_steps.
  - eapply wp_mono; [by apply (wp_sleep s Q v ms HI)|]. intros ? s' (now & k & H).
    apply (unqueued_consistent _ _ _ _ _) in H; [done|]. inv_frame.
  - eapply wp_mono; [by apply (wp_block s Q v HI)|]. intros ? s' H. by apply (unqueued_consistent _ _ _ _ _ HI H).
  - eapply wp_mono; [by apply (wp_block_poll s Q v wake_time HI)|].
    intros ? s' H. by apply (unqueued_consistent _ _ _ _ _ HI H).
  - eapply wp_mono; [by apply (wp_block_futex s Q)|]. intros r s' H. by wp_steps.
  - eapply wp_mono; [by apply (wp_sched_wake s Q)|]. by intros ? s' [H _].
  - eapply wp_mono; [by apply (wp_wake_signal s Q)|]. intros r s' H. by wp_steps.
  - eapply wp_mono; [by apply (wp_wake_poll s Q)|]. intros r s' [[H _] _]. wp_steps. by eexists.
  - destruct (Z.eqb_spec key 0) as [->|Hk].
    + unfold sched_wake_futex. rewrite orb_true_r. by wp_steps.
    + eapply wp_mono; [by apply (wp_wake_futex s Q)|]. intros r s' [[H _] _]. wp_steps. by eexists.
  - destruct (decide (from = 0 ∨ to = 0 ∨ from = to)) as [Hd|Hd].
    + unfold sched_requeue_futex. replace (_ || _) with true; [by wp_steps|]. symmetry.
      destruct Hd as [->|[->| ->]]; rewrite ?Z.eqb_refl, ?orb_true_r; simpl; by rewrite ?orb_true_r.
    + eapply wp_mono; [apply (wp_requeue_futex s Q from to n HI Hpre); tauto|]. intros r s' [H _]. wp_steps. by eexists.
  - by apply (wp_tick_started s Q).
  - by apply (wp_tick_started s Q).
  - by apply (wp_ap_start s Q).
Qed.

Lemma reachable_consistent s0 s : consistent s0 → rtc step s0 s → consistent s.
Proof.
  intros H0 Hr. induction Hr as [|s0 s1 s Hs _ IH]; [done|]. apply IH. destruct Hs as [o Hpre Hrun].
  pose proof (wp_call_prog s0 o H0 Hpre) as Hw. unfold wp in Hw. by rewrite Hrun in Hw.
Qed.

(** ** Order of service *)

Fixpoint ticks (ids : list Z) : M sched unit :=
  match ids with [] => mret tt | id :: ids => sched_tick id;; ticks ids end.

Lemma started_ticked s Q c x l s' Q' id : ticked s Q c x l s' Q' → started s id → started s' id.
Proof.
  intros HT [y Hy]. unfold started. rewrite (ticked_mach _ _ _ _ _ _ _ HT).
  destruct (decide (cpu_index (mach s) id = c)) as [->|Hne].
  - destruct (ticked_current _ _ _ _ _ _ _ HT) as (z & Hz & _). by exists z.
  - exists y. by rewrite (ticked_others _ _ _ _ _ _ _ HT _ Hne).
Qed.

Lemma wp_ticks ids : ∀ s Q c l k x,
  inv s Q → Q !! c = Some l → current s !! c = Some (l !! 0%nat) → l !! k = Some x →
  Z.of_nat c ≠ bsp_of (mach s) ∨ g_first_user_switch_seen s = true → Forall (started s) ids →
  length (filter (λ id, cpu_index (mach s) id = c) ids) = k →
  wp (ticks ids) (λ _ s', current s' !! c = Some (Some x)) s.
Proof.
  induction ids as [|id ids IH]; intros s Q c l k x HI Hc Hcur Hk Hns Hst Hcnt.
  { simpl in Hcnt. subst k. simpl. wp_steps. congruence. }
  apply Forall_cons in Hst as [[y Hy] Hst]. simpl. wp_steps.
  destruct (inv_queue s Q (cpu_index (mach s) id) HI) as [l0 Hl0]; [apply cpu_index_range, HI|].
  eapply wp_mono; [by apply (wp_tick s Q id y l0)|]. intros ? s' [Q' HT].
  pose proof (ticked_mach _ _ _ _ _ _ _ HT) as Em.
  assert (Z.of_nat c ≠ bsp_of (mach s') ∨ g_first_user_switch_seen s' = true) as Hns'.
  { rewrite Em. destruct Hns as [?|Hs]; [by left|right]. by apply (ticked_seen _ _ _ _ _ _ _ HT). }
  assert (Forall (started s') ids) as Hst'.
  { eapply Forall_impl; [exact Hst|]. intros id' H'. by eapply started_ticked. }
  destruct (decide (cpu_index (mach s) id = c)) as [<-|Hne].
  - rewrite filter_cons_True in Hcnt by done. simpl in Hcnt. subst k.
    assert (l = l0) as -> by congruence. destruct l0 as [|z l1]; [done|]. simpl in Hcur. assert (z = y) as -> by congruence.
    destruct (ticked_rotated _ _ _ _ _ _ _ HT l1 eq_refl Hns) as (w & HQ' & Hcur').
    apply (IH s' Q' _ (l1 ++ w ++ [y]) (length (filter (λ id0, cpu_index (mach s) id0 = cpu_index (mach s) id) ids)));
      [apply HT|done|done| |done|done|by rewrite Em].
    simpl in Hk. by apply lookup_app_l_Some.
  - rewrite filter_cons_False in Hcnt by done.
    destruct (ticked_queues _ _ _ _ _ _ _ HT c l ltac:(done) Hc) as [w HQ'].
    apply (IH s' Q' c (l ++ w) k); [apply HT|done| |by apply lookup_app_l_Some|done|done|by rewrite Em].
    rewrite (ticked_others _ _ _ _ _ _ _ HT c) by done. rewrite Hcur. f_equal.
    destruct l; [by destruct k|done].
Qed.

(** ** Queues after a wake *)

Lemma pushes_filter s g sel : ∀ Q c l, Q !! c = Some l →
  pushes s g sel Q !! c = Some (l ++ filter (λ i, home s g i = c) sel).
Proof.
  induction sel as [|i sel IH]; intros Q c l Hc; [by rewrite app_nil_r|]. simpl.
  destruct (decide (home s g i = c)) as [E|Hne].
  - rewrite filter_cons_True by done. rewrite (IH _ c (l ++ [i])); [by rewrite <-app_assoc|].
    rewrite E, (push_insert _ _ _ _ Hc). apply list_lookup_insert_eq. by eapply lookup_lt_Some.
  - rewrite filter_cons_False by done. apply IH. unfold push. by rewrite list_lookup_alter_ne.
Qed.

Lemma NoDup_take {A} (l : list A) n : NoDup l → NoDup (take n l).
Proof. intros H. rewrite <-(take_drop n l) in H. by apply NoDup_app in H as (? & _). Qed.

Lemma slots_elem P s k i : i ∈ slots P s k → ∃ t, tasks s !! i = Some t ∧ P t = true.
Proof.
  unfold slots. intros [H _]%list_elem_of_filter. destruct (tasks s !! i) as [t|]; [|done].
  exists t. split; [done|]. simpl in H. by injection H.
Qed.

(** The tasks after a wake: those selected woken, the others as before. *)
Lemma waked_result s Q g sel s' i t : waked s Q g sel s' → NoDup sel → tasks s !! i = Some t →
  ∃ v, tasks s' !! i = Some (set_next v (if decide (i ∈ sel) then g t else t)).
Proof.
  intros HW Hn Ht. apply (requeues_task _ _ _ _ (waked_tasks _ _ _ _ _ HW)). simpl.
  destruct (decide (i ∈ sel)) as [Hi|Hi].
  - rewrite wakes_selected by done. by rewrite Ht.
  - by rewrite wakes_other.
Qed.

(** ** Entering a futex wait *)

Lemma wp_futex_enter s Q x t e w2 key wt bitset :
  inv s Q → x ∈ concat Q → tasks s !! x = Some t → is_linux t = false →
  wp (sched_block_futex (pid t) (Some (e, w2)) e key wt bitset) (λ r s',
    inv s' (drop_task x Q) ∧ mach s' = mach s ∧
    if decide (w2 = e) then r = 0 ∧ ∃ v, tasks s' !! x = Some (set_next v (futex_wait key bitset wt t))
    else r = - EAGAIN ∧ ∃ t', tasks s' !! x = Some t' ∧ state_of t' = PROC_RUNNING ∧ pid t' = pid t) s.
Proof.
  intros HI Hx Ht Hlx. destruct (elem_of_concat_inv _ _ Hx) as (c & l & Hc & Hl).
  destruct (inv_queued _ _ HI c l x Hc Hl) as (_ & Hxn & t0 & Ht0 & Hr & _).
  assert (t0 = t) as -> by congruence.
  unfold sched_block_futex. rewrite Z.eqb_refl. simpl. wp_steps. eapply wp_mono; [by apply wp_remove|].
  intros r s1 [(y & ty & -> & Hy & Hty & Hp & Hst & Hlt & HI' & Hq)|(-> & -> & Hn)]; [|by destruct (Hn x t)].
  assert (y = x) as -> by (apply (inv_pids _ _ HI y x ty t); try done; split; congruence).
  destruct (requeues_task _ _ _ _ Hq Ht) as [nx Htx].
  assert (x < length (tasks s1))%nat by (by eapply lookup_lt_Some).
  assert (x ∉ concat (drop_task x Q)) as Hxq by (rewrite elem_of_drop; by intros [? _]).
  assert (mach s1 = mach s) as Em by (by destruct Hq as (ts & r & -> & _)).
  wp_steps. cbv zeta. unfold sched_deliverable_signal_mask. wp_steps. eapply wp_task_at; [exact Htx|].
  simpl. rewrite Hlx. simpl. apply (wp_mono _ (λ r s', r = 0 ∧ s' = s1)); [by destruct (shared t); wp_steps|].
  intros sig s2 [-> ->]. simpl. wp_steps. eapply wp_on_task; [exact Htx|].
  match goal with |- context [set_tasks (<[x := ?t]> _) _] => set (t1 := t) end.
  assert (inv (set_tasks (<[x := t1]> (tasks s1)) s1) (drop_task x Q)) as HI1.
  { apply (inv_wait s1 _ x (set_next nx t)); [done|done|done|split; simpl; congruence|by right|by left]. }
  destruct (Z.eqb_spec w2 e) as [->|Hne]; simpl.
  - wp_steps. rewrite decide_True by done. split_and!; [done|done|done|]. exists nx.
    simpl. by rewrite list_lookup_insert_eq.
  - wp_steps. eapply wp_on_task; [by apply list_lookup_insert_eq|]. wp_steps. rewrite decide_False by done.
    split_and!; [|done|done|].
    + eapply (inv_wait _ _ x t1); [exact HI1|by apply list_lookup_insert_eq|done|done|by left|by left].
    + eexists. split_and!; [simpl; by rewrite list_lookup_insert_eq by (by rewrite length_insert)|done|done].
Qed.
