(* ===== verification/SchedMain.v ===== *)
(** * Main theorems of the scheduler

    Stated on what the code's own lists hold: [queue_list] reads a run queue
    by following its links. *)

From S2P Require Import Prelude Vmm Sched SchedQueue SchedInv SchedOps SchedProc SchedTick SchedProps.

#[local] Arguments replicate : simpl never.
#[local] Arguments Z.to_nat : simpl never.

(** ** Reading a queue *)

Fixpoint follow (n : nat) (ts : list task) (p : option nat) : list nat :=
  match n, p with
  | S n, Some i => i :: follow n ts (ts !! i ≫= next)
  | _, _ => []
  end.
Definition queue_list (s : sched) (c : nat) : list nat := follow nprocs (tasks s) (rq s !! c ≫= head).

Lemma follow_chain n ts l : chain ts l → (length l ≤ n)%nat → follow n ts (l !! 0%nat) = l.
Proof.
  revert n. induction l as [|i l IH]; intros n Hch Hn; [by destruct n|].
  destruct n as [|n]; simpl in Hn; [lia|]. simpl. f_equal.
  pose proof (Hch 0%nat i eq_refl) as Hi. destruct (ts !! i) as [t|]; [|done]. simpl in *. injection Hi as ->.
  apply IH; [|lia]. intros k j Hk. exact (Hch (S k) j Hk).
Qed.

Lemma queue_list_rep s Q c l : inv s Q → Q !! c = Some l → queue_list s c = l.
Proof.
  intros HI Hc. destruct (rep_queue _ _ _ _ (inv_rep _ _ HI) Hc) as (q & Hq & Hh & _ & _ & Hch).
  unfold queue_list. rewrite Hq. cbn [mbind option_bind]. rewrite Hh. apply follow_chain; [done|].
  pose proof (inv_total _ _ HI). pose proof (concat_insert Q c l [] Hc) as Hp. apply Permutation_length in Hp.
  rewrite !length_app in Hp. simpl in Hp. lia.
Qed.

Lemma queue_list_lookup s Q c : inv s Q → Z.of_nat c < cpu_count (mach s) → Q !! c = Some (queue_list s c).
Proof.
  intros HI Hc. destruct (inv_queue s Q c HI Hc) as [l Hl]. by rewrite (queue_list_rep s Q c l).
Qed.

Lemma queue_list_concat s Q c i : inv s Q → Z.of_nat c < cpu_count (mach s) → i ∈ queue_list s c → i ∈ concat Q.
Proof. intros HI Hc. apply elem_of_concat with (c := c), (queue_list_lookup s Q c HI Hc). Qed.

(** ** Two processors with a task each *)

Definition demo_machine : machine :=
  Machine [0; 1] 0 (λ _, true) 1000 (λ n, Z.of_nat n) 4096 (λ n, 65536 * (Z.of_nat n + 1)).
Definition after {A} (m : M sched A) (s : sched) : sched := match m s with Some (_, s') => s' | None => s end.
Definition demo0 : sched := after (start 0 0) (boot_state demo_machine).
Definition demo : sched := after spawn_kernel (after spawn_kernel demo0).

Lemma after_wp {A} (m : M sched A) (P : sched → Prop) s : wp m (λ _ s', P s') s → P (after m s).
Proof. unfold after, wp. by destruct (m s) as [[a s']|]. Qed.

Lemma demo0_consistent : consistent demo0.
Proof.
  apply (after_wp (start 0 0) consistent). eapply wp_mono; [apply wp_start|].
  - unfold ncpus, MAX_CPUS. simpl. lia.
  - by intros ? s [H _].
Qed.

Lemma after_spawn s : consistent s → next_pid s < 2 ^ 32 - 1 → consistent (after spawn_kernel s).
Proof.
  intros [Q HI] Hn. apply after_wp. eapply wp_mono; [by apply (wp_spawn s Q)|].
  intros [p|] s' [_ H]; [|by exists Q]. destruct H as (c & _ & H). by eexists.
Qed.

Lemma demo_consistent : consistent demo.
Proof. apply after_spawn; [apply after_spawn; [apply demo0_consistent|]|]; vm_compute; reflexivity. Qed.

(** ** Safety *)

(** C23: from start-up on, no sequence of scheduler calls reaches a broken
    state: every task on a run queue is on it once, is runnable and belongs to
    that processor, the queues' links, heads, tails and counts agree, live
    tasks have different numbers; and every call made under its precondition
    returns without touching memory outside the tables. *)
Theorem sched_safe m boot_top rsp :
  (length (apic_ids m) ≤ ncpus)%nat →
  ∃ s0, start boot_top rsp (boot_state m) = Some (tt, s0) ∧
  ∀ s, rtc step s0 s →
    consistent s ∧
    (∀ c i, Z.of_nat c < cpu_count (mach s) → i ∈ queue_list s c →
       ∃ t, tasks s !! i = Some t ∧ state_of t = PROC_RUNNING ∧ cpu t = Z.of_nat c) ∧
    (∀ c, Z.of_nat c < cpu_count (mach s) → NoDup (queue_list s c)) ∧
    ∀ o, call_pre s o → ∃ s', call_prog o s = Some (tt, s').
Proof.
  intros Hm. destruct (proj1 (wp_run _ _ _) (wp_start m boot_top rsp Hm)) as ([] & s0 & H0 & Hcon & _).
  exists s0. split; [done|]. intros s Hr. pose proof (reachable_consistent s0 s Hcon Hr) as Hs.
  split; [done|]. split_and!.
  - destruct Hs as [Q HI]. intros c i Hc Hi. pose proof (queue_list_lookup s Q c HI Hc) as HQ.
    destruct (inv_queued _ _ HI c _ i HQ Hi) as (_ & _ & t & H). by exists t.
  - destruct Hs as [Q HI]. intros c Hc.
    apply (concat_NoDup_queue Q c); [apply (inv_rep _ _ HI)|by apply queue_list_lookup].
  - intros o Hpre. destruct (proj1 (wp_run _ _ _) (wp_call_prog s o Hs Hpre)) as ([] & s' & Hrun & _). by exists s'.
Qed.

Lemma sched_safe_witness :
  ∃ s0, start 0 0 (boot_state demo_machine) = Some (tt, s0) ∧ consistent s0 ∧
    ∃ s', call_prog Spawn s0 = Some (tt, s').
Proof.
  destruct (sched_safe demo_machine 0 0) as (s0 & H0 & Hall); [unfold ncpus, MAX_CPUS; simpl; lia|].
  exists s0. split; [done|]. destruct (Hall s0 (rtc_refl _ _)) as (Hc & _ & _ & Hcall). split; [done|].
  apply (Hcall Spawn). assert (s0 = demo0) as -> by (unfold demo0, after; by rewrite H0).
  vm_compute. reflexivity.
Defined.

(** ** Ticks *)

(** after a tick the processor runs a runnable task, whatever the current
    task did before: a task that blocked itself is never left running, given
    that the processor has an idle task (and is not in it, blocked). *)
Theorem sched_tick_runnable s id x idle :
  let c := cpu_index (mach s) id in
  consistent s → current s !! c = Some (Some x) → idle_task s !! c = Some (Some idle) →
  (idle = x → state_of <$> tasks s !! x = Some PROC_RUNNING) →
  wp (sched_tick id) (λ _ s', ∃ y, current s' !! c = Some (Some y) ∧
    state_of <$> tasks s' !! y = Some PROC_RUNNING) s.
Proof.
  intros c [Q HI] Hx Hid Hidle. destruct (inv_queue s Q c HI) as [l Hl]; [apply cpu_index_range, HI|].
  eapply wp_mono; [by apply (wp_tick s Q id x l)|]. intros ? s' [Q' HT].
  destruct (ticked_current _ _ _ _ _ _ _ HT) as (y & Hy & Hc). exists y. split; [done|].
  destruct Hc as [[l' Hl']|(-> & -> & _ & tx & Htx & Hw)].
  - destruct (inv_queued _ _ (ticked_inv _ _ _ _ _ _ _ HT) _ _ y Hl') as (_ & _ & t & Ht & Hr & _); [set_solver|].
    rewrite Ht. simpl. by rewrite Hr.
  - unfold c in Hid. destruct Hw as [Hr|[Hn|Hn]]; [rewrite Htx; simpl; by rewrite Hr|congruence|].
    apply Hidle. congruence.
Qed.

Lemma sched_tick_runnable_witness :
  wp (sched_tick 0) (λ _ s', ∃ y, current s' !! 0%nat = Some (Some y) ∧
    state_of <$> tasks s' !! y = Some PROC_RUNNING) demo.
Proof.
  apply (sched_tick_runnable demo 0 256 0).
  - apply demo_consistent.
  - vm_compute. reflexivity.
  - vm_compute. reflexivity.
  - discriminate.
Defined.



(** ** Futexes *)

(** C25: a futex wake wakes exactly the first [max_wake] waiters of the key,
    in slot order, whose bit set meets the caller's: each becomes runnable with
    the caller's result and waits for nothing; all other tasks keep everything
    but links; each queue gains its woken tasks at its end, in that order; the
    result is their number. *)
Theorem sched_wake_futex_correct s key max_wake bitset result :
  consistent s → 0 ≤ max_wake → key ≠ 0 →
  let sel := take (Z.to_nat max_wake) (slots (futex_waiter key bitset) s nprocs) in
  wp (sched_wake_futex key max_wake bitset result) (λ n s',
    n = Z.of_nat (length sel) ∧
    (∀ i t, tasks s !! i = Some t → i ∈ sel → ∃ t', tasks s' !! i = Some t' ∧ pid t' = pid t ∧
       state_of t' = PROC_RUNNING ∧ w_result (waits t') = result ∧ w_key (waits t') = 0 ∧ w_time (waits t') = 0 ∧
       i ∈ queue_list s' (Z.to_nat (cpu t'))) ∧
    (∀ i t, tasks s !! i = Some t → i ∉ sel → ∃ v, tasks s' !! i = Some (set_next v t)) ∧
    ∀ c, Z.of_nat c < cpu_count (mach s) → queue_list s' c = queue_list s c ++
      filter (λ i, home s (futex_awake (mach s) result) i = c) sel) s.
Proof.
  intros [Q HI] Hm Hk sel. eapply wp_mono; [by apply (wp_wake_futex s Q)|]. cbv beta zeta. intros n s' [HW ->].
  fold sel in HW. assert (NoDup sel) as Hn by apply NoDup_take, slots_NoDup.
  assert (∀ c, Z.of_nat c < cpu_count (mach s) → queue_list s' c = queue_list s c ++
    filter (λ i, home s (futex_awake (mach s) result) i = c) sel) as Hq.
  { intros c Hc. apply (queue_list_rep s' _ c _ (waked_inv _ _ _ _ _ HW)).
    apply pushes_filter. by apply queue_list_lookup. }
  split_and!; [done| | |done].
  - intros i t Ht Hi. destruct (waked_result _ _ _ _ _ _ _ HW Hn Ht) as [v Hv]. rewrite decide_True in Hv by done.
    eexists. split_and!; [exact Hv|done..|].
    pose proof (wake_cpu_range s Q i t HI Ht) as Hr. cbn [cpu set_next futex_awake awake set_cpu].
    change (wake_cpu (mach s) (clear_futex t)) with (wake_cpu (mach s) t).
    rewrite Hq by lia. apply elem_of_app. right. apply list_elem_of_filter. split; [|done].
    unfold home. by rewrite Ht.
  - intros i t Ht Hi. destruct (waked_result _ _ _ _ _ _ _ HW Hn Ht) as [v Hv]. rewrite decide_False in Hv by done.
    by exists v.
Qed.

Definition demo_waiting : sched := after (sched_block_futex 4 (Some (7, 7)) 7 99 UINT64_MAX 1) demo.
Lemma demo_waiting_consistent : consistent demo_waiting.
Proof.
  apply (after_wp (sched_block_futex 4 (Some (7, 7)) 7 99 UINT64_MAX 1) consistent).
  destruct demo_consistent as [Q HI]. exact (wp_block_futex demo Q _ _ _ _ _ _ HI).
Qed.

Lemma sched_wake_futex_correct_witness :
  wp (sched_wake_futex 99 1 1 0) (λ n s', n = 1 ∧ ∃ t, tasks s' !! 3%nat = Some t ∧ state_of t = PROC_RUNNING) demo_waiting.
Proof.
  eapply wp_mono; [apply (sched_wake_futex_correct demo_waiting 99 1 1 0)|].
  - apply demo_waiting_consistent.
  - lia.
  - done.
  - assert (take (Z.to_nat 1) (slots (futex_waiter 99 1) demo_waiting nprocs) = [3%nat]) as E
      by (vm_compute; reflexivity).
    rewrite E. intros n s' (-> & Hsel & _). split; [reflexivity|].
    assert (is_Some (tasks demo_waiting !! 3%nat)) as [t Et] by (vm_compute; by eexists).
    destruct (Hsel 3%nat t Et) as (t' & Ht' & _ & Hst & _); [by constructor|]. exists t'. split; [exact Ht'|exact Hst].
Defined.

(** no wake-up is lost between waiting and waking: a queued task that
    enters a futex wait (the word still has the expected value) is off its
    queue and, when all waiters of the key are then woken with a bit set that
    meets its own, runnable on the queue of its processor with the waker's
    result. *)
Theorem futex_wait_wake s c x t e key wt bits bits' result :
  consistent s → Z.of_nat c < cpu_count (mach s) → x ∈ queue_list s c → tasks s !! x = Some t →
  is_linux t = false → key ≠ 0 → Z.land bits bits' ≠ 0 →
  wp (r ← sched_block_futex (pid t) (Some (e, e)) e key wt bits;
      n ← sched_wake_futex key PROC_MAX bits' result;
      mret (r, n))
    (λ rn s', rn.1 = 0 ∧ 1 ≤ rn.2 ∧ x ∈ queue_list s' c ∧
      ∃ t', tasks s' !! x = Some t' ∧ pid t' = pid t ∧ state_of t' = PROC_RUNNING ∧ w_result (waits t') = result) s.
Proof.
  intros [Q HI] Hc Hx Ht Hlx Hk Hb. pose proof (queue_list_lookup s Q c HI Hc) as HQ.
  destruct (inv_queued _ _ HI c _ x HQ Hx) as (_ & Hxn & t0 & Ht0 & _ & Hcpu). assert (t0 = t) as -> by congruence.
  wp_steps. eapply wp_mono; [apply (wp_futex_enter s Q x t); try done; by eapply queue_list_concat|].
  intros r s1 (HI1 & Em & H1). rewrite decide_True in H1 by done. destruct H1 as [-> [v Hv]].
  wp_steps. eapply wp_mono; [by apply (wp_wake_futex s1 _ key PROC_MAX bits' result HI1)|].
  cbv beta zeta. intros n s2 [HW ->]. wp_steps. rewrite take_ge in HW |- * by (apply slots_length).
  set (sel := slots (futex_waiter key bits') s1 nprocs) in *.
  assert (x ∈ sel) as Hsel.
  { apply list_elem_of_filter. split; [|apply elem_of_seq; lia]. rewrite Hv. simpl. f_equal.
    unfold futex_waiter. simpl. rewrite Z.eqb_refl. by destruct (Z.eqb_spec (Z.land bits bits') 0). }
  assert (NoDup sel) as Hn by apply slots_NoDup.
  destruct (waked_result _ _ _ _ _ _ _ HW Hn Hv) as [v2 Hv2]. rewrite decide_True in Hv2 by done.
  assert (Z.to_nat (wake_cpu (mach s1) t) = c) as Hw.
  { rewrite Em. unfold wake_cpu. rewrite Hcpu. destruct (Z.leb_spec (cpu_count (mach s)) (Z.of_nat c)); lia. }
  split_and!; [done| | |].
  - simpl. destruct sel; [set_solver|]. simpl. lia.
  - destruct (inv_queue s1 _ c HI1) as [l1 Hl1]; [by rewrite Em|].
    rewrite (queue_list_rep s2 _ c _ (waked_inv _ _ _ _ _ HW) (pushes_filter _ _ _ _ _ _ Hl1)).
    apply elem_of_app. right. apply list_elem_of_filter. split; [|done]. unfold home. by rewrite Hv.
  - eexists. by split_and!; [exact Hv2|..].
Qed.

Lemma futex_wait_wake_witness :
  wp (r ← sched_block_futex 4 (Some (7, 7)) 7 99 UINT64_MAX 1; n ← sched_wake_futex 99 PROC_MAX 1 5; mret (r, n))
    (λ rn s', rn.1 = 0 ∧ 3%nat ∈ queue_list s' 1) demo.
Proof.
  assert (is_Some (tasks demo !! 3%nat)) as [t Et] by (vm_compute; by eexists).
  assert (pid t = 4 ∧ is_linux t = false) as [Hp Hl].
  { assert ((λ t, (pid t, is_linux t)) <$> tasks demo !! 3%nat = Some (4, false)) as H by (vm_compute; reflexivity).
    rewrite Et in H. injection H as H1 H2. split; [exact H1|exact H2]. }
  rewrite <-Hp. eapply wp_mono; [apply (futex_wait_wake demo 1 3 t 7 99 UINT64_MAX 1 1 5)|].
  - apply demo_consistent.
  - vm_compute. reflexivity.
  - assert (queue_list demo 1 = [1; 3]%nat) as -> by (vm_compute; reflexivity). by repeat constructor.
  - exact Et.
  - exact Hl.
  - discriminate.
  - discriminate.
  - intros rn s' (H1 & _ & H2 & _). split; [exact H1|exact H2].
Defined.

(** A futex wait whose second look at the word finds another value returns
    EAGAIN and leaves the task marked runnable but on no run queue: no wake
    call will put it back. *)
Lemma futex_recheck_unqueued s c x t e w key wt bits :
  consistent s → Z.of_nat c < cpu_count (mach s) → x ∈ queue_list s c → tasks s !! x = Some t →
  is_linux t = false → w ≠ e →
  wp (sched_block_futex (pid t) (Some (e, w)) e key wt bits) (λ r s', r = - EAGAIN ∧
    (∃ t', tasks s' !! x = Some t' ∧ pid t' = pid t ∧ state_of t' = PROC_RUNNING) ∧
    ∀ c', Z.of_nat c' < cpu_count (mach s) → x ∉ queue_list s' c') s.
Proof.
  intros [Q HI] Hc Hx Ht Hlx Hw.
  eapply wp_mono; [apply (wp_futex_enter s Q x t); try done; by eapply queue_list_concat|].
  intros r s1 (HI1 & Em & H1). rewrite decide_False in H1 by done. destruct H1 as (-> & t' & Ht' & Hr & Hp).
  split_and!; [done|by exists t'|]. intros c' Hc' Hin. rewrite <-Em in Hc'.
  apply (queue_list_concat s1 _ c' x HI1 Hc') in Hin. by apply elem_of_drop in Hin as [? _].
Qed.
