(* ===== verification/Fat32.v ===== *)
(** * FAT32 file system

    Translation of [src/src/kernel/fs/fat32.c] and [fat32.h]: the boot sector,
    the allocation table with its copies, directories with long names, files,
    and the operations the VFS calls.

    The block device is a parameter ([BlockDevice]) and the state; the mounted
    volume and an open file are arguments, the file returned with its new
    position.  A C function that returns 0 or -1 is a program of [ME]: [fail]
    is [return -1].  A C string is the list of its bytes before the
    terminator.  A sector buffer holds the bytes the device delivered. *)

From S2P Require Import Prelude Loops Codec Ring Part.

Definition FAT32_MAX_SECTOR : Z := 4096.
Definition ATTR_VOLUME : Z := 0x08.
Definition ATTR_DIR : Z := 0x10.
Definition ATTR_ARCHIVE : Z := 0x20.
Definition ATTR_LFN : Z := 0x0F.

(** ** Data *)

(** The fields of [struct fat32_bpb] the code looks at. *)
Record fat32_bpb := Bpb {
  b_bytes_per_sector : Z; b_sectors_per_cluster : Z; b_reserved_sectors : Z; b_fat_count : Z;
  b_total_sectors_16 : Z; b_total_sectors_32 : Z; b_sectors_per_fat_32 : Z; b_root_cluster : Z }.

Definition bpb_of (sector : list Z) : option fat32_bpb :=
  bps ← get_le 2 sector 11;
  spc ← get_le 1 sector 13;
  res ← get_le 2 sector 14;
  fats ← get_le 1 sector 16;
  t16 ← get_le 2 sector 19;
  t32 ← get_le 4 sector 32;
  spf ← get_le 4 sector 36;
  root ← get_le 4 sector 44;
  Some (Bpb bps spc res fats t16 t32 spf root).

Record fat32_fs := Fat32Fs {
  part_lba : Z; bytes_per_sector : Z; sectors_per_cluster : Z; reserved_sectors : Z; fat_count : Z;
  sectors_per_fat : Z; total_sectors : Z; total_clusters : Z; root_cluster : Z; fat_lba : Z; data_lba : Z }.

Record fat32_file := Fat32File {
  first_cluster : Z; size : Z; pos : Z; dir_cluster : Z; dir_offset : Z; attr : Z }.

Definition set_cluster (c : Z) (f : fat32_file) : fat32_file :=
  Fat32File c (size f) (pos f) (dir_cluster f) (dir_offset f) (attr f).
Definition set_size (n : Z) (f : fat32_file) : fat32_file :=
  Fat32File (first_cluster f) n (pos f) (dir_cluster f) (dir_offset f) (attr f).
Definition set_pos (n : Z) (f : fat32_file) : fat32_file :=
  Fat32File (first_cluster f) (size f) n (dir_cluster f) (dir_offset f) (attr f).

Definition fat32_chain_step_limit (fs : fat32_fs) : Z :=
  if total_clusters fs =? 0 then 1
  else if total_clusters fs =? 0xFFFFFFFF then total_clusters fs
  else total_clusters fs + 1.

Definition fat32_cluster_to_lba (fs : fat32_fs) (cluster : Z) : Z :=
  let cluster_index := if 2 <=? cluster then cluster - 2 else 0 in
  u64 (data_lba fs + u64 (cluster_index * sectors_per_cluster fs)).

(** Cluster numbers from here on end a chain. *)
Definition END_OF_CHAIN : Z := 0x0FFFFFF8.
Definition in_chain (cluster : Z) : bool := (2 <=? cluster) && (cluster <? END_OF_CHAIN).
Definition cluster_size (fs : fat32_fs) : Z := u64 (sectors_per_cluster fs * bytes_per_sector fs).

(** ** Boot sector *)

Definition is_fat32_bpb (b : fat32_bpb) : bool :=
  bool_decide (b_bytes_per_sector b ∈ [512; 1024; 2048; 4096]) &&
  negb ((b_sectors_per_cluster b =? 0) ||
        negb (Z.land (b_sectors_per_cluster b) (b_sectors_per_cluster b - 1) =? 0)) &&
  negb (b_reserved_sectors b =? 0) && negb (b_fat_count b =? 0) && negb (b_sectors_per_fat_32 b =? 0) &&
  negb (b_root_cluster b <? 2) && negb ((b_total_sectors_16 b =? 0) && (b_total_sectors_32 b =? 0)).

Definition fat32_boot_sig_ok (sector : list Z) (bps : Z) : option bool :=
  if (bps <? 512) || (FAT32_MAX_SECTOR <? bps) then Some false
  else
    a ← arr_get sector (bps - 2);
    b ← arr_get sector (bps - 1);
    Some ((a =? 0x55) && (b =? 0xAA)).

(** ** Names *)

Definition upper (c : Z) : Z := if (97 <=? c) && (c <=? 122) then c - 32 else c.
Definition lower (c : Z) : Z := if (65 <=? c) && (c <=? 90) then c + 32 else c.
Definition upper_str_n (s : list Z) : list Z := upper <$> s.

(** The characters of [l] up to the first one [stop] holds of. *)
Fixpoint until (stop : Z → bool) (l : list Z) : list Z :=
  match l with [] => [] | c :: l => if stop c then [] else c :: until stop l end.

Definition space : Z := 32.
Definition dot : Z := 46.
Definition slash : Z := 47.

Definition build_83_name (entry : list Z) : option (list Z) :=
  e8 ← arr_get entry 8;
  let base := until (λ c, c =? space) (take 8 entry) in
  Some (if negb (e8 =? space) then base ++ dot :: until (λ c, c =? space) (slice entry 8 3) else base).

Definition lfn_checksum_83 (shortname : list Z) : Z :=
  foldl (λ sum c, u8 ((if Z.odd sum then 0x80 else 0) + Z.shiftr sum 1 + c)) 0 (take 11 shortname).

Record lfn_state := LfnState { l_name : list Z; l_checksum : Z; l_expected_ord : Z; l_valid : Z }.
Definition LFN_NAME : nat := 260.
Definition lfn_reset : lfn_state := LfnState (replicate LFN_NAME 0) 0 0 0.

Definition lfn_offs : list Z := [1; 3; 5; 7; 9; 14; 16; 18; 20; 22; 24; 28; 30].

(** The characters of one long-name entry, stored from [p] on. *)
Fixpoint lfn_chars (offs : list Z) (e : list Z) (p : Z) (name : list Z) : option (list Z) :=
  match offs with
  | [] => Some name
  | o :: offs =>
      if Z.of_nat LFN_NAME - 1 <=? p then Some name
      else
        ch ← get_le 2 e o;
        if (ch =? 0) || (ch =? 0xFFFF) then arr_set name p 0
        else
          name ← arr_set name p (if ch <? 0x80 then ch else 63);
          lfn_chars offs e (p + 1) name
  end.

(** The state after an entry, [None] inside when it is no long-name entry. *)
Definition lfn_consume (st : lfn_state) (e : list Z) : option (option lfn_state) :=
  at_ ← arr_get e 11;
  if negb (at_ =? ATTR_LFN) then Some None
  else
    e0 ← arr_get e 0;
    let ord := Z.land e0 0x1F in
    let is_last := Z.land e0 0x40 in
    if ord =? 0 then Some (Some lfn_reset)
    else
      sum ← arr_get e 13;
      let st := if negb (is_last =? 0) then LfnState (l_name lfn_reset) sum ord 1 else st in
      if l_valid st =? 0 then Some (Some st)
      else if negb (sum =? l_checksum st) then Some (Some lfn_reset)
      else if negb (ord =? l_expected_ord st) then Some (Some lfn_reset)
      else
        let idx := (ord - 1) * 13 in
        if (idx <? 0) || (Z.of_nat LFN_NAME - 1 <=? idx) then Some (Some lfn_reset)
        else
          name ← lfn_chars lfn_offs e idx (l_name st);
          let exp := u8 (l_expected_ord st - 1) in
          Some (Some (LfnState name (l_checksum st) exp (if exp =? 0 then 2 else l_valid st))).

(** A name as the eleven characters of a short entry, cut where too long. *)
Definition short_pattern (name : list Z) : list Z :=
  let base := take 8 (until (λ c, c =? dot) name) in
  let rest := drop (length base) name in
  let ext := match rest with c :: r => if c =? dot then take 3 r else [] | [] => [] end in
  upper_str_n ((base ++ replicate (8 - length base) space) ++ ext ++ replicate (3 - length ext) space).

Definition name_match_83 (entry name : list Z) : bool := bool_decide (take 11 entry = short_pattern name).

(** The string in a buffer. *)
Definition c_string (buf : list Z) : list Z := until (λ c, c =? 0) buf.

Definition name_match_lfn (lfn name : list Z) : bool := bool_decide (lower <$> lfn = lower <$> name).

Definition bad_char (c : Z) : bool := bool_decide (c ∈ [32; 34; 47; 92; 91; 93; 59; 61; 44]).

(** The eleven bytes of the short name, [None] when the name has none. *)
Definition build_short_name (name : list Z) : option (list Z) :=
  let base := until (λ c, c =? dot) name in
  let has_dot := bool_decide (length base ≠ length name) in
  let ext := drop (S (length base)) name in
  if bool_decide (name = []) || bool_decide (12 < length name)%nat then None
  else if bool_decide (8 < length base)%nat || bool_decide (base = []) then None
  else if existsb (λ c, bad_char (upper c)) base then None
  else if has_dot && bool_decide (3 < length ext)%nat then None
  else Some (upper_str_n base ++ replicate (8 - length base) space ++
             (if has_dot then upper_str_n ext else []) ++ replicate (3 - (if has_dot then length ext else 0)) space).

(** ** Paths *)

(** One component of a path (at most 259 characters) and what follows it. *)
Fixpoint component (n : nat) (p : list Z) : list Z * list Z :=
  match n, p with
  | S n, c :: p' => if c =? slash then ([], p) else let '(a, r) := component n p' in (c :: a, r)
  | _, _ => ([], p)
  end.
Definition next_component (p : list Z) : list Z * list Z :=
  let '(name, rest) := component 259 p in
  (name, match rest with c :: r => if c =? slash then r else rest | [] => [] end).

Definition skip_slash (p : list Z) : list Z :=
  match p with c :: r => if c =? slash then r else p | [] => [] end.

(** The position of the last slash. *)
Fixpoint last_slash (p : list Z) : option nat :=
  match p with
  | [] => None
  | c :: p =>
      match last_slash p with
      | Some i => Some (S i)
      | None => if c =? slash then Some 0%nat else None
      end
  end.

(** The parent directory and the name, cut to 259 characters. *)
Definition split_path (path : list Z) : option (list Z * list Z) :=
  let p := skip_slash path in
  if bool_decide (p = []) then None
  else
    match last_slash p with
    | None => Some ([], take 259 p)
    | Some i => if bool_decide (260 ≤ i + 1)%nat then None else Some (take i p, take 259 (drop (S i) p))
    end.

Section fat32.
Context {D : Type} `{BlockDevice D}.

Abbreviation E := (ME D).

(** ** Sectors and the allocation table *)

Definition read_sector (lba : Z) : E (list Z) :=
  r ← state (bd_read lba);
  match r with Some l => mret l | None => fail end.

Definition write_sector (lba : Z) (buf : list Z) : E unit := λ d,
  let '(ok, d') := bd_write lba buf d in Some (if ok : bool then Some tt else None, d').

Definition fat_sector (fs : fat32_fs) (cluster : Z) : Z :=
  u64 (fat_lba fs + cluster * 4 / bytes_per_sector fs).
Definition fat_off (fs : fat32_fs) (cluster : Z) : Z := (cluster * 4) mod bytes_per_sector fs.

Definition read_fat_entry (fs : fat32_fs) (cluster : Z) : E Z :=
  if FAT32_MAX_SECTOR <? bytes_per_sector fs then mret 0x0FFFFFFF
  else
    r ← attempt (read_sector (fat_sector fs cluster));
    match r with
    | None => mret 0x0FFFFFFF
    | Some sector => v ← need (get_le 4 sector (fat_off fs cluster)); mret (Z.land v 0x0FFFFFFF)
    end.

Definition write_fat_entry (fs : fat32_fs) (cluster value : Z) : E unit :=
  if FAT32_MAX_SECTOR <? bytes_per_sector fs then fail
  else
    let lba := fat_sector fs cluster in
    sector ← read_sector lba;
    v ← need (get_le 4 sector (fat_off fs cluster));
    sector ← need (put_le 4 sector (fat_off fs cluster)
      (Z.lor (Z.land v 0xF0000000) (Z.land value 0x0FFFFFFF)));
    write_sector lba sector;;
    for_e 1 (fat_count fs) (λ f, write_sector (u64 (lba + u64 (f * sectors_per_fat fs))) sector).

(** Clear the sectors of a cluster. *)
Definition zero_cluster (fs : fat32_fs) (cluster : Z) : E unit :=
  if FAT32_MAX_SECTOR <? bytes_per_sector fs then fail
  else
    let lba := fat32_cluster_to_lba fs cluster in
    for_e 0 (sectors_per_cluster fs) (λ s,
      write_sector (u64 (lba + s)) (replicate (Z.to_nat (bytes_per_sector fs)) 0)).

(** The first free cluster, marked as an end of chain, linked to [prev] and
    cleared; 0 when there is none or the device fails. *)
Definition alloc_cluster (fs : fat32_fs) (prev : Z) : E Z :=
  if total_clusters fs =? 0 then mret 0
  else
    r ← for_er 2 (total_clusters fs + 2) (λ c64,
      let c := u32 c64 in
      v ← read_fat_entry fs c;
      if v =? 0 then
        ok ← attempt (write_fat_entry fs c 0x0FFFFFFF;;
                      (if prev =? 0 then mret tt else write_fat_entry fs prev c);;
                      zero_cluster fs c);
        mret (Some (match ok with Some _ => c | None => 0 end))
      else mret None);
    mret (default 0 r).

(** ** Mounting *)

Definition boot_sector_ok (sector : list Z) (sector_size : Z) : option (option fat32_bpb) :=
  b ← bpb_of sector;
  if negb (is_fat32_bpb b) then Some None
  else if negb (b_bytes_per_sector b =? sector_size) then Some None
  else
    ok ← fat32_boot_sig_ok sector (b_bytes_per_sector b);
    Some (if ok : bool then Some b else None).

Definition fat32_probe_bpb (lba : Z) : E bool :=
  ss ← state bd_sector_size;
  if (ss <? 512) || (FAT32_MAX_SECTOR <? ss) then mret false
  else
    r ← attempt (read_sector lba);
    match r with
    | None => mret false
    | Some sector => b ← need (boot_sector_ok sector ss); mret (bool_decide (b ≠ None))
    end.

Definition fat32_mount (lba : Z) : E fat32_fs :=
  ss ← state bd_sector_size;
  if (ss <? 512) || (FAT32_MAX_SECTOR <? ss) then fail
  else
    sector ← read_sector lba;
    r ← need (boot_sector_ok sector ss);
    match r with
    | None => fail
    | Some b =>
        let total := if negb (b_total_sectors_32 b =? 0) then b_total_sectors_32 b else b_total_sectors_16 b in
        if total =? 0 then fail
        else
          let fat := u64 (lba + b_reserved_sectors b) in
          let fats := u64 (b_fat_count b * b_sectors_per_fat_32 b) in
          let meta := u64 (b_reserved_sectors b + fats) in
          if total <=? meta then fail
          else
            let clusters := u32 ((total - meta) / b_sectors_per_cluster b) in
            if clusters =? 0 then fail
            else mret (Fat32Fs lba (b_bytes_per_sector b) (b_sectors_per_cluster b) (b_reserved_sectors b)
              (b_fat_count b) (b_sectors_per_fat_32 b) (u32 total) clusters (b_root_cluster b) fat
              (u64 (fat + fats)))
    end.

Definition esp_guid : list Z :=
  [0x28; 0x73; 0x2A; 0xC1; 0x1F; 0xF8; 0xD2; 0x11; 0xBA; 0x4B; 0x00; 0xA0; 0xC9; 0x3E; 0xC9; 0x3B].
Definition raw_candidates : list Z := [2048; 4096; 8192; 16384; 32768; 65536; 0].

Fixpoint probe_first (lbas : list Z) : E (option Z) :=
  match lbas with
  | [] => mret None
  | l :: lbas => ok ← fat32_probe_bpb l; if ok : bool then mret (Some l) else probe_first lbas
  end.

(** The partition [fat32_init] mounts, and the mounted volume. *)
Definition fat32_init : E fat32_fs :=
  d ← state id;
  part ← (match gpt_find_by_type (Some d) esp_guid with
    | Some loc => if negb (l_start_lba loc =? 0) then mret (Some (l_start_lba loc)) else mret None
    | None => mret None
    end);
  part ← (match part with
    | Some l => mret (Some l)
    | None =>
        match gpt_read_header (Some d) with
        | None => probe_first raw_candidates
        | Some info =>
            for_er 0 (gi_part_count info) (λ i,
              match gpt_read_part (Some d) info i with
              | None => mret None
              | Some p =>
                  if (g_first_lba p =? 0) || (g_last_lba p =? 0) then mret None
                  else ok ← fat32_probe_bpb (g_first_lba p); mret (if ok : bool then Some (g_first_lba p) else None)
              end)
        end
    end);
  match part with None => fail | Some l => fat32_mount l end.

(** ** Directories *)

(** The entries of a sector, from offset [off] on; [step] sees the offset and
    the 32 bytes of an entry, and goes on with a new accumulator or returns. *)
Definition each_entry {A R} (fs : fat32_fs) (sector : list Z) (step : A → Z → list Z → option (A + R))
    (a : A) : E (A + R) :=
  while_e 129 (λ st : Z * A,
    let '(off, a) := st in
    if off <? bytes_per_sector fs then
      r ← need (step a off (slice sector (Z.to_nat off) 32));
      mret (match r with inl a => inl (off + 32, a) | inr x => inr (inr x) end)
    else mret (inr (inl a))) (0, a).

(** The sectors of a cluster. *)
Definition each_dir_sector {A R} (fs : fat32_fs) (cluster : Z) (step : A → Z → list Z → option (A + R))
    (a : A) : E (A + R) :=
  let lba := fat32_cluster_to_lba fs cluster in
  while_e 257 (λ st : Z * A,
    let '(s, a) := st in
    if s <? sectors_per_cluster fs then
      sector ← read_sector (u64 (lba + s));
      r ← each_entry fs sector (λ a off, step a (u32 (s * bytes_per_sector fs + off))) a;
      mret (match r with inl a => inl (s + 1, a) | inr x => inr (inr x) end)
    else mret (inr (inl a))) (0, a).

(** The clusters of a directory: a result with its cluster, or the last
    cluster and the accumulator when the directory ended. *)
Definition walk_dir {A R} (fs : fat32_fs) (cluster : Z) (step : A → Z → list Z → option (A + R))
    (a : A) : E (Z * A + Z * R) :=
  if FAT32_MAX_SECTOR <? bytes_per_sector fs then fail
  else
    while_e (2 ^ 32) (λ st : Z * Z * Z * A,
      let '(cl, prev, steps, a) := st in
      if in_chain cl then
        if fat32_chain_step_limit fs <=? steps then fail
        else
          r ← each_dir_sector fs cl step a;
          match r with
          | inr x => mret (inr (inr (cl, x)))
          | inl a => next ← read_fat_entry fs cl; mret (inl (next, cl, u32 (steps + 1), a))
          end
      else mret (inr (inl (prev, a)))) (cluster, 0, 0, a).

Record found := Found { d_cluster : Z; d_size : Z; d_attr : Z; d_off : Z }.

(** What [find_in_dir] does with an entry; [inr None] is the end mark. *)
Definition find_step (name : list Z) (lfn : lfn_state) (off : Z) (e : list Z) : option (lfn_state + option found) :=
  e0 ← arr_get e 0;
  if e0 =? 0x00 then Some (inr None)
  else if e0 =? 0xE5 then Some (inl lfn_reset)
  else
    l ← lfn_consume lfn e;
    match l with
    | Some lfn => Some (inl lfn)
    | None =>
        at_ ← arr_get e 11;
        if negb (Z.land at_ ATTR_VOLUME =? 0) then Some (inl lfn_reset)
        else if ((l_valid lfn =? 2) && (lfn_checksum_83 e =? l_checksum lfn) &&
                 name_match_lfn (c_string (l_name lfn)) name) || name_match_83 e name then
          hi ← get_le 2 e 20;
          lo ← get_le 2 e 26;
          n ← get_le 4 e 28;
          Some (inr (Some (Found (Z.lor (Z.shiftl hi 16) lo) n at_ off)))
        else Some (inl lfn_reset)
    end.

(** The entry of a name and the cluster it is in. *)
Definition find_in_dir (fs : fat32_fs) (cluster : Z) (name : list Z) : E (found * Z) :=
  r ← walk_dir fs cluster (find_step name) lfn_reset;
  match r with
  | inr (cl, Some x) => mret (x, cl)
  | _ => fail
  end.

(** The sector and the offset of a directory entry. *)
Definition entry_lba (fs : fat32_fs) (cluster off : Z) : Z :=
  u64 (fat32_cluster_to_lba fs cluster + off / bytes_per_sector fs).

(** Read a directory sector, change it and write it back. *)
Definition update_sector (fs : fat32_fs) (lba : Z) (f : list Z → option (list Z)) : E unit :=
  if FAT32_MAX_SECTOR <? bytes_per_sector fs then fail
  else
    sector ← read_sector lba;
    sector ← need (f sector);
    write_sector lba sector.

Definition put_cluster (sector : list Z) (off c : Z) : option (list Z) :=
  l ← put_le 2 sector (off + 20) (Z.land (Z.shiftr c 16) 0xFFFF);
  put_le 2 l (off + 26) (Z.land c 0xFFFF).

Definition update_dir_entry_size (fs : fat32_fs) (cluster off n : Z) : E unit :=
  update_sector fs (entry_lba fs cluster off)
    (λ l, put_le 4 l (off mod bytes_per_sector fs + 28) n).

Definition update_dir_entry_cluster (fs : fat32_fs) (cluster off c : Z) : E unit :=
  update_sector fs (entry_lba fs cluster off) (λ l, put_cluster l (off mod bytes_per_sector fs) c).

Definition write_dir_entry (fs : fat32_fs) (cluster off : Z) (entry : list Z) : E unit :=
  update_sector fs (entry_lba fs cluster off) (λ l, put_bytes l (off mod bytes_per_sector fs) entry).

Definition mark_dir_entry_deleted (fs : fat32_fs) (cluster off : Z) : E unit :=
  update_sector fs (entry_lba fs cluster off) (λ l, put_bytes l (off mod bytes_per_sector fs) [0xE5]).

(** ** Opening *)

(** The components of a path, from the root; [inl] is the cluster of the last
    directory, [inr] the entry of the last component. *)
Definition fat32_open (fs : fat32_fs) (path : list Z) : E fat32_file :=
  let p := skip_slash path in
  if bool_decide (p = []) then fail
  else
    while_e (Z.of_nat (length p) + 1) (λ st : list Z * Z,
      let '(p, cur) := st in
      if bool_decide (p = []) then fail
      else
        let '(name, rest) := next_component p in
        r ← find_in_dir fs cur name;
        let '(x, cl) := r in
        if bool_decide (rest = []) then
          mret (inr (Fat32File (d_cluster x) (d_size x) 0 cl (d_off x) (d_attr x)))
        else if Z.land (d_attr x) ATTR_DIR =? 0 then fail
        else mret (inl (rest, d_cluster x))) (p, root_cluster fs).

Definition fat32_stat (fs : fat32_fs) (path : list Z) : E (Z * Z) :=
  f ← fat32_open fs path; mret (size f, attr f).

Definition resolve_dir_cluster (fs : fat32_fs) (path : list Z) : E Z :=
  while_e (Z.of_nat (length path) + 1) (λ st : list Z * Z,
    let '(p, cur) := st in
    if bool_decide (p = []) then mret (inr cur)
    else
      let '(name, rest) := next_component p in
      r ← find_in_dir fs cur name;
      let '(x, _) := r in
      if Z.land (d_attr x) ATTR_DIR =? 0 then fail else mret (inl (rest, d_cluster x))) (path, root_cluster fs).

(** ** Reading *)

(** Go [skip] bytes along a chain: the cluster, the bytes left to skip and the
    steps taken; [inr] is an early return of 0. *)
Definition skip_read (fs : fat32_fs) (cluster skip : Z) : E ((Z * Z * Z) + unit) :=
  while_e (2 ^ 32) (λ st : Z * Z * Z,
    let '(cluster, skip, steps) := st in
    if cluster_size fs <=? skip then
      if fat32_chain_step_limit fs <=? steps then mret (inr (inr tt))
      else
        next ← read_fat_entry fs cluster;
        if END_OF_CHAIN <=? next then mret (inr (inr tt))
        else mret (inl (next, skip - cluster_size fs, u32 (steps + 1)))
    else mret (inr (inl st))) (cluster, skip, 0).

(** The sectors of one cluster: [data] is what has been read so far; [inr] is
    the return after a failed read. *)
Definition read_cluster (fs : fat32_fs) (len cluster skip : Z) (data : list Z) : E (list Z + list Z) :=
  let lba := fat32_cluster_to_lba fs cluster in
  let skip_sectors := u32 (skip / bytes_per_sector fs) in
  let skip_bytes := u32 (skip mod bytes_per_sector fs) in
  while_e 257 (λ st : Z * list Z,
    let '(s, data) := st in
    if s <? sectors_per_cluster fs then
      if s <? skip_sectors then mret (inl (s + 1, data))
      else if FAT32_MAX_SECTOR <? bytes_per_sector fs then mret (inr (inr data))
      else
        r ← attempt (read_sector (u64 (lba + s)));
        match r with
        | None => mret (inr (inr data))
        | Some sector =>
            let off := if s =? skip_sectors then skip_bytes else 0 in
            let avail := u32 (bytes_per_sector fs - off) in
            let remaining := len - Z.of_nat (length data) in
            let n := if remaining <? avail then remaining else avail in
            let data := data ++ slice sector (Z.to_nat off) (Z.to_nat n) in
            if remaining - n =? 0 then mret (inr (inl data)) else mret (inl (s + 1, data))
        end
    else mret (inr (inl data))) (0, data).

(** The bytes read and the file; a failed read leaves the position. *)
Definition fat32_read (fs : fat32_fs) (f : fat32_file) (len : Z) : E (list Z * fat32_file) :=
  if len =? 0 then mret ([], f)
  else if size f <=? pos f then mret ([], f)
  else
    let len := if size f - pos f <? len then size f - pos f else len in
    if first_cluster f <? 2 then fail
    else if cluster_size fs =? 0 then fail
    else
      r ← skip_read fs (first_cluster f) (pos f);
      match r with
      | inr _ => mret ([], f)
      | inl (cluster, skip, steps) =>
          r ← while_e (2 ^ 32) (λ st : Z * Z * Z * list Z,
            let '(cluster, skip, steps, data) := st in
            if (Z.of_nat (length data) <? len) && (cluster <? END_OF_CHAIN) then
              if fat32_chain_step_limit fs <=? steps then mret (inr (inl data))
              else
                r ← read_cluster fs len cluster skip data;
                match r with
                | inr data => mret (inr (inr data))
                | inl data =>
                    if Z.of_nat (length data) =? len then mret (inr (inl data))
                    else next ← read_fat_entry fs cluster; mret (inl (next, 0, u32 (steps + 1), data))
                end
            else mret (inr (inl data))) (cluster, skip, steps, []);
          match r with
          | inl data => mret (data, set_pos (u32 (pos f + Z.of_nat (length data))) f)
          | inr data => mret (data, f)
          end
      end.

(** ** Writing *)

(** [alloc_cluster] with its result tested. *)
Definition alloc_link (fs : fat32_fs) (prev : Z) : E (option Z) :=
  c ← alloc_cluster fs prev; mret (if c =? 0 then None else Some c).

(** Go [skip] bytes along a chain that is extended where it ends; [inr] is an
    early return of 0. *)
Definition skip_write (fs : fat32_fs) (cluster skip : Z) : E ((Z * Z * Z * Z) + unit) :=
  while_e (2 ^ 32) (λ st : Z * Z * Z * Z,
    let '(prev, cluster, skip, steps) := st in
    if cluster_size fs <=? skip then
      if fat32_chain_step_limit fs <=? steps then mret (inr (inr tt))
      else
        next ← read_fat_entry fs cluster;
        next ← (if END_OF_CHAIN <=? next then alloc_link fs cluster else mret (Some next));
        match next with
        | None => mret (inr (inr tt))
        | Some next => mret (inl (cluster, next, skip - cluster_size fs, u32 (steps + 1)))
        end
    else mret (inr (inl st))) (0, cluster, skip, 0).

(** The sectors of one cluster; [done] bytes of [buf] are written so far. *)
Definition write_cluster (fs : fat32_fs) (buf : list Z) (cluster skip done : Z) : E (Z + Z) :=
  let len := Z.of_nat (length buf) in
  let lba := fat32_cluster_to_lba fs cluster in
  let skip_sectors := u32 (skip / bytes_per_sector fs) in
  let skip_bytes := u32 (skip mod bytes_per_sector fs) in
  while_e 257 (λ st : Z * Z,
    let '(s, done) := st in
    if s <? sectors_per_cluster fs then
      if s <? skip_sectors then mret (inl (s + 1, done))
      else if FAT32_MAX_SECTOR <? bytes_per_sector fs then mret (inr (inr done))
      else
        r ← attempt (read_sector (u64 (lba + s)));
        match r with
        | None => mret (inr (inr done))
        | Some sector =>
            let off := if s =? skip_sectors then skip_bytes else 0 in
            let avail := u32 (bytes_per_sector fs - off) in
            let remaining := len - done in
            let n := if remaining <? avail then remaining else avail in
            sector ← need (put_bytes sector off (slice buf (Z.to_nat done) (Z.to_nat n)));
            ok ← attempt (write_sector (u64 (lba + s)) sector);
            match ok with
            | None => mret (inr (inr done))
            | Some _ => if remaining - n =? 0 then mret (inr (inl (done + n))) else mret (inl (s + 1, done + n))
            end
        end
    else mret (inr (inl done))) (0, done).

(** The loop over clusters: the bytes written, and whether it ended with a
    return after a failed transfer ([inr]). *)
Definition write_chain (fs : fat32_fs) (buf : list Z) (prev cluster skip steps : Z) : E (Z + Z) :=
  let len := Z.of_nat (length buf) in
  while_e (2 ^ 32) (λ st : Z * Z * Z * Z * Z,
    let '(prev, cluster, skip, steps, done) := st in
    if done <? len then
      if fat32_chain_step_limit fs <=? steps then mret (inr (inl done))
      else
        target ← (if END_OF_CHAIN <=? cluster then alloc_link fs prev else mret (Some cluster));
        match target with
        | None => mret (inr (inl done))
        | Some cluster =>
            r ← write_cluster fs buf cluster skip done;
            match r with
            | inr done => mret (inr (inr done))
            | inl done =>
                if done =? len then mret (inr (inl done))
                else next ← read_fat_entry fs cluster; mret (inl (cluster, next, 0, u32 (steps + 1), done))
            end
        end
    else mret (inr (inl done))) (prev, cluster, skip, steps, 0).

(** A file without clusters gets its first one. *)
Definition write_first (fs : fat32_fs) (f : fat32_file) : E fat32_file :=
  if first_cluster f <? 2 then
    if negb (pos f =? 0) || negb (size f =? 0) then fail
    else
      newc ← alloc_cluster fs 0;
      if newc =? 0 then fail
      else
        ok ← attempt (update_dir_entry_cluster fs (dir_cluster f) (dir_offset f) newc);
        match ok with
        | None => ignore (write_fat_entry fs newc 0);; fail
        | Some _ => mret (set_cluster newc f)
        end
  else mret f.

(** Write at the position; the number of bytes and the file. *)
Definition write_data (fs : fat32_fs) (f : fat32_file) (buf : list Z) : E (Z * fat32_file) :=
  if cluster_size fs =? 0 then fail
  else
    r ← skip_write fs (first_cluster f) (pos f);
    match r with
    | inr _ => mret (0, f)
    | inl (prev, cluster, skip, steps) =>
        r ← write_chain fs buf prev cluster skip steps;
        match r with
        | inr done => mret (done, f)
        | inl done =>
            let f := set_pos (u32 (pos f + done)) f in
            if size f <? pos f then
              let f := set_size (pos f) f in
              ignore (update_dir_entry_size fs (dir_cluster f) (dir_offset f) (size f));;
              mret (done, f)
            else mret (done, f)
        end
    end.

(** The number of bytes written and the file. *)
Definition fat32_write (fs : fat32_fs) (f : fat32_file) (buf : list Z) : E (Z * fat32_file) :=
  if bool_decide (buf = []) then mret (0, f)
  else if negb (Z.land (attr f) ATTR_DIR =? 0) then fail
  else f ← write_first fs f; write_data fs f buf.

Definition SEEK_SET : Z := 0.
Definition SEEK_CUR : Z := 1.
Definition SEEK_END : Z := 2.

Definition fat32_seek (f : fat32_file) (offset whence : Z) : option (Z * fat32_file) :=
  r ← (if whence =? SEEK_SET then Some offset
       else if whence =? SEEK_CUR then Some (pos f + offset)
       else if whence =? SEEK_END then Some (size f + offset)
       else None);
  if (r <? 0) || (0xFFFFFFFF <? r) then None else Some (r, set_pos r f).

(** ** Chains *)

Definition fat32_free_chain (fs : fat32_fs) (cluster : Z) : E unit :=
  while_e (2 ^ 32) (λ st : Z * Z,
    let '(cluster, steps) := st in
    if in_chain cluster then
      if fat32_chain_step_limit fs <=? steps then mret (inr tt)
      else
        next ← read_fat_entry fs cluster;
        ignore (write_fat_entry fs cluster 0);;
        mret (inl (next, u32 (steps + 1)))
    else mret (inr tt)) (cluster, 0).

(** The cluster [count] steps on, 0 when the chain is shorter. *)
Definition fat32_walk_chain (fs : fat32_fs) (start count : Z) : E Z :=
  while_e (2 ^ 32) (λ st : Z * Z,
    let '(i, cl) := st in
    if i <? count then
      if negb (in_chain cl) then mret (inr 0)
      else if fat32_chain_step_limit fs <=? i then mret (inr 0)
      else next ← read_fat_entry fs cl; mret (inl (i + 1, next))
    else mret (inr cl)) (0, start).

Definition fat32_truncate (fs : fat32_fs) (f : fat32_file) (new_size : Z) : E fat32_file :=
  if negb (Z.land (attr f) ATTR_DIR =? 0) then fail
  else if new_size =? size f then mret f
  else if size f <? new_size then fail
  else if cluster_size fs =? 0 then fail
  else if new_size =? 0 then
    (if 2 <=? first_cluster f then fat32_free_chain fs (first_cluster f) else mret tt);;
    ignore (update_dir_entry_size fs (dir_cluster f) (dir_offset f) 0);;
    ignore (update_dir_entry_cluster fs (dir_cluster f) (dir_offset f) 0);;
    mret (Fat32File 0 0 0 (dir_cluster f) (dir_offset f) (attr f))
  else
    let needed := u32 (u64 (u64 (new_size + cluster_size fs) - 1) / cluster_size fs) in
    let needed := if needed =? 0 then 1 else needed in
    keep ← fat32_walk_chain fs (first_cluster f) (needed - 1);
    if keep <? 2 then fail
    else
      next ← read_fat_entry fs keep;
      (if in_chain next then fat32_free_chain fs next else mret tt);;
      ignore (write_fat_entry fs keep 0x0FFFFFFF);;
      let f := set_size new_size f in
      let f := if new_size <? pos f then set_pos new_size f else f in
      ignore (update_dir_entry_size fs (dir_cluster f) (dir_offset f) new_size);;
      mret f.

(** ** Creating, removing and renaming *)

(** The first entry that is free. *)
Definition free_step (_ : unit) (off : Z) (e : list Z) : option (unit + Z) :=
  e0 ← arr_get e 0;
  Some (if (e0 =? 0x00) || (e0 =? 0xE5) then inr off else inl tt).

Definition find_free_dir_slot (fs : fat32_fs) (cluster : Z) : E (Z * Z) :=
  r ← walk_dir fs cluster free_step tt;
  match r with
  | inr (cl, off) => mret (cl, off)
  | inl (prev, _) =>
      newc ← alloc_cluster fs prev;
      if newc =? 0 then fail else mret (newc, 0)
  end.

(** A 32-byte entry. *)
Definition dir_entry (name : list Z) (at_ cluster n : Z) : list Z :=
  name ++ [at_] ++ replicate 8 0 ++ le_bytes 2 (Z.land (Z.shiftr cluster 16) 0xFFFF) ++
  replicate 4 0 ++ le_bytes 2 (Z.land cluster 0xFFFF) ++ le_bytes 4 n.

Definition dot_name : list Z := dot :: replicate 10 space.
Definition dotdot_name : list Z := dot :: dot :: replicate 9 space.

(** The cluster number stored for a parent directory. *)
Definition parent_cluster (fs : fat32_fs) (cluster : Z) : Z :=
  if cluster =? root_cluster fs then 0 else cluster.

(** Make a new directory cluster; on failure it is freed again. *)
Definition new_directory (fs : fat32_fs) (parent : Z) : E Z :=
  c ← alloc_cluster fs 0;
  if c =? 0 then fail
  else
    ok ← attempt (update_sector fs (fat32_cluster_to_lba fs c) (λ l,
      l ← put_bytes l 0 (dir_entry dot_name ATTR_DIR c 0);
      put_bytes l 32 (dir_entry dotdot_name ATTR_DIR (parent_cluster fs parent) 0)));
    match ok with
    | None => fat32_free_chain fs c;; fail
    | Some _ => mret c
    end.

Definition fat32_create (fs : fat32_fs) (path : list Z) (at_ : Z) : E unit :=
  pn ← (match split_path path with Some pn => mret pn | None => fail end);
  let '(parent, name) := pn in
  dir ← resolve_dir_cluster fs parent;
  old ← attempt (find_in_dir fs dir name);
  match old with
  | Some _ => fail
  | None =>
      short ← (match build_short_name name with Some l => mret l | None => fail end);
      c ← (if negb (Z.land at_ ATTR_DIR =? 0) then new_directory fs dir else mret 0);
      ok ← attempt (slot ← find_free_dir_slot fs dir;
        write_dir_entry fs slot.1 slot.2 (dir_entry short (u8 (Z.lor at_ ATTR_ARCHIVE)) c 0));
      match ok with
      | Some _ => mret tt
      | None => (if negb (c =? 0) then fat32_free_chain fs c else mret tt);; fail
      end
  end.

Definition fat32_mkdir (fs : fat32_fs) (path : list Z) : E unit := fat32_create fs path ATTR_DIR.

Definition fat32_unlink (fs : fat32_fs) (path : list Z) : E unit :=
  f ← fat32_open fs path;
  if negb (Z.land (attr f) ATTR_DIR =? 0) then fail
  else
    (if 2 <=? first_cluster f then fat32_free_chain fs (first_cluster f) else mret tt);;
    mark_dir_entry_deleted fs (dir_cluster f) (dir_offset f).

(** Point the parent entry of a moved directory to its new parent. *)
Definition move_parent (fs : fat32_fs) (old_path : list Z) (f : fat32_file) (new_dir : Z) : E unit :=
  match split_path old_path with
  | None => mret tt
  | Some (parent, _) =>
      old ← attempt (resolve_dir_cluster fs parent);
      match old with
      | None => mret tt
      | Some old_dir =>
          if old_dir =? new_dir then mret tt
          else ignore (update_sector fs (fat32_cluster_to_lba fs (first_cluster f))
            (λ l, put_cluster l 32 (parent_cluster fs new_dir)))
      end
  end.

Definition fat32_rename (fs : fat32_fs) (old_path new_path : list Z) : E unit :=
  f ← fat32_open fs old_path;
  pn ← (match split_path new_path with Some pn => mret pn | None => fail end);
  let '(parent, name) := pn in
  dir ← resolve_dir_cluster fs parent;
  old ← attempt (find_in_dir fs dir name);
  match old with
  | Some _ => fail
  | None =>
      short ← (match build_short_name name with Some l => mret l | None => fail end);
      slot ← find_free_dir_slot fs dir;
      write_dir_entry fs slot.1 slot.2 (dir_entry short (Z.lor (attr f) ATTR_ARCHIVE) (first_cluster f) (size f));;
      ok ← attempt (mark_dir_entry_deleted fs (dir_cluster f) (dir_offset f));
      match ok with
      | None => ignore (mark_dir_entry_deleted fs slot.1 slot.2);; fail
      | Some _ =>
          if negb (Z.land (attr f) ATTR_DIR =? 0) && (2 <=? first_cluster f)
          then move_parent fs old_path f dir else mret tt
      end
  end.

(** ** Listing *)

(** What [fat32_readdir] does with an entry; the callback answers whether to
    stop and has a context of its own. *)
Definition readdir_step {C} (cb : list Z → Z → Z → C → bool * C) (st : lfn_state * C) (off : Z) (e : list Z)
    : option ((lfn_state * C) + C) :=
  let '(lfn, ctx) := st in
  e0 ← arr_get e 0;
  if e0 =? 0x00 then Some (inr ctx)
  else if e0 =? 0xE5 then Some (inl (lfn_reset, ctx))
  else
    l ← lfn_consume lfn e;
    match l with
    | Some lfn => Some (inl (lfn, ctx))
    | None =>
        at_ ← arr_get e 11;
        if negb (Z.land at_ ATTR_VOLUME =? 0) then Some (inl (lfn_reset, ctx))
        else
          name ← (if (l_valid lfn =? 2) && (lfn_checksum_83 e =? l_checksum lfn)
                  then Some (c_string (l_name lfn)) else build_83_name e);
          if bool_decide (c_string name = []) then Some (inl (lfn_reset, ctx))
          else
            n ← get_le 4 e 28;
            let '(stop, ctx) := cb (c_string name) at_ n ctx in
            Some (if stop : bool then inr ctx else inl (lfn_reset, ctx))
    end.

(** The context the calls leave; after an error it is not given. *)
Definition fat32_readdir {C} (fs : fat32_fs) (cluster : Z) (cb : list Z → Z → Z → C → bool * C) (ctx : C) : E C :=
  r ← walk_dir fs cluster (readdir_step cb) (lfn_reset, ctx);
  mret (match r with inl (_, (_, ctx)) => ctx | inr (_, ctx) => ctx end).
End fat32.
