(* ===== verification/FatVol.v ===== *)
(** * FAT32: the volume as an allocation table and data sectors

    On a lawful device with a consistent geometry, the table functions of the
    code read and write an array of 28-bit entries, and the sectors of the
    clusters are an array of byte blocks that the table does not overlap. *)

From S2P Require Import Prelude Ring Loops Codec Part Fat32.

(** Accesses inside a buffer. *)
Lemma get_le_in w l off : 0 ≤ off → off + Z.of_nat w ≤ Z.of_nat (length l) →
  get_le w l off = Some (le_val (slice l (Z.to_nat off) w)).
Proof.
  intros H1 H2. unfold get_le.
  by destruct (Z.leb_spec 0 off), (Z.leb_spec (off + Z.of_nat w) (Z.of_nat (length l))); try lia.
Qed.
Lemma put_bytes_in l off b : 0 ≤ off → off + Z.of_nat (length b) ≤ Z.of_nat (length l) →
  put_bytes l off b = Some (splice l (Z.to_nat off) b).
Proof.
  intros H1 H2. unfold put_bytes.
  by destruct (Z.leb_spec 0 off), (Z.leb_spec (off + Z.of_nat (length b)) (Z.of_nat (length l))); try lia.
Qed.

Section vol.
Context {D : Type} `{BlockDeviceLaws D}.
Context (fs : fat32_fs).
Implicit Types d : D.

Abbreviation bps := (bytes_per_sector fs).
Abbreviation spc := (sectors_per_cluster fs).

(** The numbers of the data clusters. *)
Definition valid (c : Z) : Prop := 2 ≤ c < total_clusters fs + 2.

(** The geometry of a volume on working sectors. *)
Record geom d : Prop := {
  g_bps : bps = bd_sector_size d;
  g_range : 512 ≤ bps ≤ 4096;
  g_align : bps mod 32 = 0;
  g_spc : 1 ≤ spc ≤ 128;
  g_fats : 1 ≤ fat_count fs;
  g_table : (total_clusters fs + 2) * 4 ≤ sectors_per_fat fs * bps;
  g_clusters : 1 ≤ total_clusters fs ≤ END_OF_CHAIN - 2;
  g_lba : 0 ≤ fat_lba fs;
  g_data : data_lba fs = fat_lba fs + fat_count fs * sectors_per_fat fs;
  g_end : data_lba fs + total_clusters fs * spc < 2 ^ 64;
  g_good k : fat_lba fs ≤ k < data_lba fs + total_clusters fs * spc → bd_good d k
}.

Definition on_volume (k : Z) : Prop := fat_lba fs ≤ k < data_lba fs + total_clusters fs * spc.

(** ** Sectors *)

Definition sec d (k : Z) : list Z := default [] (bd_read k d).

Lemma sec_good d k : geom d → on_volume k →
  bd_read k d = Some (sec d k) ∧ Z.of_nat (length (sec d k)) = bps ∧ bytes (sec d k).
Proof.
  intros G Hk. destruct (bd_read_good d k (g_good _ G k Hk)) as (l & Hl & Hlen & Hb).
  unfold sec. rewrite Hl. simpl. by rewrite (g_bps _ G).
Qed.

(** [d'] is [d] with sector [k] replaced. *)
Record sec_step d d' (k : Z) (l : list Z) : Prop := {
  ss_geom : geom d';
  ss_in : sec d' k = l;
  ss_out j : j ≠ k → sec d' j = sec d j
}.

Lemma wpe_read_sec d k (Q : list Z → D → Prop) (R : D → Prop) :
  geom d → on_volume k → Q (sec d k) d → wpe (read_sector k) Q R d.
Proof.
  intros G Hk HQ. destruct (sec_good d k G Hk) as (E & _). unfold read_sector. we_steps. rewrite E. by we_steps.
Qed.

Lemma wpe_write_sec d k l (Q : unit → D → Prop) (R : D → Prop) :
  geom d → on_volume k → Z.of_nat (length l) = bps → bytes l →
  (∀ d', sec_step d d' k l → Q tt d') → wpe (write_sector k l) Q R d.
Proof.
  intros G Hk Hl Hb HQ. rewrite (g_bps _ G) in Hl.
  destruct (bd_write_good d k l (g_good _ G k Hk) Hl Hb) as (d' & E & Hr & Ho & Hg & Hs & _).
  unfold write_sector, wpe, wp. rewrite E. apply HQ. destruct G. split.
  - constructor; try assumption; [congruence|]. intros j Hj. by apply Hg, g_good0.
  - unfold sec. by rewrite Hr.
  - intros j Hj. unfold sec. by rewrite Ho.
Qed.

(** ** The allocation table *)

Definition fat_place (c : Z) : Z := fat_lba fs + c * 4 / bps.
Definition fat d (c : Z) : Z :=
  Z.land (le_val (slice (sec d (fat_place c)) (Z.to_nat (fat_off fs c)) 4)) 0x0FFFFFFF.

Lemma fat_place_range d c : geom d → valid c → fat_lba fs ≤ fat_place c < fat_lba fs + sectors_per_fat fs.
Proof.
  intros G [H1 H2]. destruct G. unfold fat_place. split.
  - pose proof (Z.div_pos (c * 4) bps ltac:(lia) ltac:(lia)). lia.
  - pose proof (Z.div_lt_upper_bound (c * 4) bps (sectors_per_fat fs) ltac:(lia) ltac:(lia)). lia.
Qed.

Lemma fat_on_volume d k : geom d → fat_lba fs ≤ k < fat_lba fs + sectors_per_fat fs → on_volume k ∧ k < data_lba fs.
Proof. intros G Hk. destruct G. unfold on_volume. assert (sectors_per_fat fs ≤ fat_count fs * sectors_per_fat fs) by nia. nia. Qed.

Lemma fat_sector_eq d c : geom d → valid c → fat_sector fs c = fat_place c.
Proof.
  intros G Hc. pose proof (fat_place_range d c G Hc) as Hr. destruct (fat_on_volume d _ G Hr) as [Hv _].
  unfold fat_sector. apply u64_small. destruct G. unfold on_volume, fat_place in *. lia.
Qed.

(** The entries of a sector are four bytes each, side by side. *)
Lemma fat_off_range d c : geom d → 0 ≤ fat_off fs c ∧ fat_off fs c + 4 ≤ bps.
Proof.
  intros G. destruct G. unfold fat_off.
  assert (bps = 4 * (8 * (bps / 32))) as E by (pose proof (Z.div_mod bps 32); lia).
  rewrite E at 1 2. rewrite (Z.mul_comm c 4), Z.mul_mod_distr_l by lia.
  pose proof (Z.mod_pos_bound c (8 * (bps / 32)) ltac:(lia)). lia.
Qed.

Lemma fat_off_apart d c c' : geom d → c ≠ c' → fat_place c = fat_place c' →
  fat_off fs c' + 4 ≤ fat_off fs c ∨ fat_off fs c + 4 ≤ fat_off fs c'.
Proof.
  intros G Hne Hp. destruct G. unfold fat_place, fat_off in *.
  pose proof (Z.div_mod (c * 4) bps). pose proof (Z.div_mod (c' * 4) bps). nia.
Qed.

Lemma wpe_read_fat d c (Q : Z → D → Prop) (R : D → Prop) :
  geom d → valid c → Q (fat d c) d → wpe (read_fat_entry fs c) Q R d.
Proof.
  intros G Hc HQ. pose proof (fat_place_range d c G Hc) as Hr. destruct (fat_on_volume d _ G Hr) as [Hv _].
  destruct (sec_good d _ G Hv) as (_ & Hl & Hb). destruct (fat_off_range d c G) as [Ho1 Ho2].
  unfold read_fat_entry. destruct (Z.ltb_spec FAT32_MAX_SECTOR bps) as [Hlt|_].
  { destruct G. unfold FAT32_MAX_SECTOR in Hlt. lia. }
  rewrite (fat_sector_eq d) by done. we_steps. apply wpe_read_sec; [done|done|]. we_steps.
  eapply wpe_need; [apply get_le_in; lia|].
  by we_steps.
Qed.

(** [d'] is [d] with entry [c] set to [v]. *)
Record fat_step d d' (c v : Z) : Prop := {
  fa_geom : geom d';
  fa_fat x : valid x → fat d' x = if decide (x = c) then v else fat d x;
  fa_data k : data_lba fs ≤ k → sec d' k = sec d k
}.

Lemma mask_entry a b : Z.land (Z.lor (Z.land a 0xF0000000) (Z.land b 0x0FFFFFFF)) 0x0FFFFFFF = Z.land b 0x0FFFFFFF.
Proof.
  apply Z.bits_inj'. intros i Hi. rewrite !Z.land_spec, Z.lor_spec, !Z.land_spec.
  assert (Z.testbit 0xF0000000 i && Z.testbit 0x0FFFFFFF i = false) as E.
  { rewrite <-Z.land_spec. change (Z.land 0xF0000000 0x0FFFFFFF) with 0. apply Z.bits_0. }
  by destruct (Z.testbit a i), (Z.testbit b i), (Z.testbit 0xF0000000 i), (Z.testbit 0x0FFFFFFF i).
Qed.

Lemma entry_range a b : 0 ≤ Z.lor (Z.land a 0xF0000000) (Z.land b 0x0FFFFFFF) < 2 ^ (8 * Z.of_nat 4).
Proof.
  assert (0 ≤ Z.lor (Z.land a 0xF0000000) (Z.land b 0x0FFFFFFF)) as Hn
    by (apply Z.lor_nonneg; split; apply Z.land_nonneg; right; lia).
  split; [done|]. change (2 ^ (8 * Z.of_nat 4)) with (2 ^ 32).
  assert (Z.land (Z.lor (Z.land a 0xF0000000) (Z.land b 0x0FFFFFFF)) (Z.ones 32)
    = Z.lor (Z.land a 0xF0000000) (Z.land b 0x0FFFFFFF)) as <-.
  { rewrite Z.land_lor_distr_l, <-!Z.land_assoc. done. }
  rewrite Z.land_ones by lia. by apply Z.mod_pos_bound.
Qed.

Lemma wpe_write_fat d c v (Q : unit → D → Prop) (R : D → Prop) :
  geom d → valid c → (∀ d', fat_step d d' c (Z.land v 0x0FFFFFFF) → Q tt d') →
  wpe (write_fat_entry fs c v) Q R d.
Proof.
  intros G Hc HQ. pose proof (fat_place_range d c G Hc) as Hr. destruct (fat_on_volume d _ G Hr) as [Hv Hd].
  destruct (sec_good d _ G Hv) as (_ & Hl & Hb). destruct (fat_off_range d c G) as [Ho1 Ho2].
  unfold write_fat_entry. destruct (Z.ltb_spec FAT32_MAX_SECTOR bps) as [Hlt|_].
  { destruct G. unfold FAT32_MAX_SECTOR in Hlt. lia. }
  rewrite (fat_sector_eq d) by done. cbv zeta. we_steps. apply wpe_read_sec; [done|done|]. we_steps.
  eapply wpe_need; [apply get_le_in; lia|].
  set (w := Z.lor _ _). we_steps. eapply wpe_need; [apply put_bytes_in; rewrite ?length_le_bytes; lia|].
  set (l := splice _ _ _). we_steps.
  assert (Z.to_nat (fat_off fs c) + length (le_bytes 4 w) ≤ length (sec d (fat_place c)))%nat as Hfit
    by (rewrite length_le_bytes; lia).
  assert (Z.of_nat (length l) = bps) as Hll by (unfold l; rewrite length_splice by done; done).
  assert (bytes l) as Hlb by (apply bytes_splice; [done|apply bytes_le_bytes]).
  apply wpe_write_sec; [done|done|done|done|]. intros d1 [G1 Hin Hout].
  (* the copies of the table *)
  apply (wpe_for _ _ _ (λ _ d', geom d' ∧ (∀ k, k < fat_lba fs + sectors_per_fat fs ∨ data_lba fs ≤ k → sec d' k = sec d1 k)));
    [destruct G; lia|done| |].
  - intros f d2 Hf [G2 H2]. pose proof (g_data _ G) as Hdl. pose proof (g_end _ G) as He.
    assert (f * sectors_per_fat fs ≤ (fat_count fs - 1) * sectors_per_fat fs) by (destruct G; nia).
    assert (sectors_per_fat fs ≤ f * sectors_per_fat fs) by (destruct G; nia).
    assert (0 ≤ total_clusters fs * spc) by (destruct G; nia).
    rewrite (u64_small (f * _)), u64_small by (destruct G; lia).
    apply wpe_write_sec; [done|unfold on_volume; lia|done|done|].
    intros d3 [G3 Hin3 Hout3]. split; [done|]. intros k Hk. rewrite Hout3 by lia. by apply H2.
  - intros d2 [G2 H2]. apply HQ. split; [done| |].
    + intros x Hx. pose proof (fat_place_range d x G Hx) as Hrx. unfold fat. rewrite H2 by lia.
      destruct (decide (x = c)) as [->|Hne].
      * rewrite Hin. unfold l. rewrite <-(length_le_bytes 4 w) at 2. rewrite slice_splice_eq by done.
        rewrite le_val_bytes by apply entry_range. apply mask_entry.
      * destruct (decide (fat_place x = fat_place c)) as [E|E].
        -- rewrite E, Hin. unfold l. rewrite slice_splice_ne; [done|done|].
           rewrite length_le_bytes. destruct (fat_off_range d x G) as [Hx1 Hx2].
           destruct (fat_off_apart d x c G Hne E); lia.
        -- by rewrite Hout.
    + intros k Hk. rewrite H2 by lia. apply Hout. lia.
Qed.
End vol.

(** * FAT32: clusters and chains

    Allocation takes the first free cluster, links and clears it; a chain is
    followed by the table, has no repetitions, and freeing it frees exactly
    its clusters. *)

(** ** Chains *)

Section chains.
Context (fs : fat32_fs).

(** The clusters from [c] on, followed by the table [F]. *)
Fixpoint chain (F : Z → Z) (c : Z) (l : list Z) : Prop :=
  match l with
  | [] => END_OF_CHAIN ≤ c
  | x :: l => c = x ∧ valid fs x ∧ chain F (F x) l
  end.

Lemma chain_valid F c l x : chain F c l → x ∈ l → valid fs x.
Proof.
  revert c. induction l as [|y l IH]; intros c Hch Hx; [set_solver|].
  destruct Hch as (-> & Hv & Hch). apply elem_of_cons in Hx as [->|Hx]; [done|by eapply IH].
Qed.

Lemma fat_chain_ext F G c l : (∀ x, x ∈ l → G x = F x) → chain F c l → chain G c l.
Proof.
  revert c. induction l as [|x l IH]; intros c HE Hch; [done|]. destruct Hch as (-> & Hv & Hch).
  split; [done|]. split; [done|]. rewrite HE by set_solver. apply IH; [|done]. intros y Hy. apply HE. set_solver.
Qed.

Lemma chain_app F c l1 x l2 : chain F c (l1 ++ x :: l2) → chain F x (x :: l2).
Proof.
  revert c. induction l1 as [|y l1 IH]; intros c Hch.
  - destruct Hch as (-> & Hv & Hch). done.
  - destruct Hch as (_ & _ & Hch). by apply (IH (F y)).
Qed.

(** The link of a cluster in a chain. *)
Lemma chain_at F c l k x : chain F c l → l !! k = Some x →
  valid fs x ∧ match l !! S k with Some y => F x = y ∧ valid fs y | None => END_OF_CHAIN ≤ F x end.
Proof.
  revert c k. induction l as [|z l IH]; intros c k Hch Hk; [done|]. destruct Hch as (-> & Hv & Hch).
  destruct k as [|k]; [|by eapply IH]. simpl in *. simplify_eq. split; [done|].
  destruct l as [|y l]; [done|]. by destruct Hch as (-> & Hv' & _).
Qed.

Context (Hend : total_clusters fs ≤ END_OF_CHAIN - 2).

Lemma valid_end x : valid fs x → x < END_OF_CHAIN.
Proof using Hend. unfold valid. lia. Qed.

Lemma chain_functional F c l l' : chain F c l → chain F c l' → l = l'.
Proof using Hend.
  revert c l'. induction l as [|x l IH]; intros c [|y l'] H1 H2; [done| | |].
  - destruct H2 as (-> & Hv%valid_end & _). simpl in H1. lia.
  - destruct H1 as (-> & Hv%valid_end & _). simpl in H2. lia.
  - destruct H1 as (-> & _ & H1), H2 as (-> & _ & H2). f_equal. by apply (IH (F y)).
Qed.

(** A chain that ends has no repetitions. *)
Lemma chain_NoDup F c l : chain F c l → NoDup l.
Proof using Hend.
  revert c. induction l as [|x l IH]; intros c Hch; [constructor|]. constructor.
  - intros Hin. apply list_elem_of_split in Hin as (l1 & l2 & ->).
    pose proof Hch as (-> & Hv & Hch'). pose proof (chain_app F _ l1 x l2 Hch') as H2.
    pose proof (chain_functional F x _ _ Hch H2) as E. apply (f_equal length) in E. simpl in E.
    rewrite length_app in E. simpl in E. lia.
  - destruct Hch as (_ & _ & Hch). by eapply IH.
Qed.

Lemma chain_length F c l : 0 ≤ total_clusters fs → chain F c l → Z.of_nat (length l) ≤ total_clusters fs.
Proof using Hend.
  intros Hpos Hch. assert (length l ≤ length (seqZ 2 (total_clusters fs)))%nat as Hle.
  { apply submseteq_length, NoDup_submseteq; [by eapply chain_NoDup|].
    intros x Hx. apply elem_of_seqZ. pose proof (chain_valid F c l x Hch Hx) as Hv. unfold valid in Hv. lia. }
  rewrite length_seqZ in Hle. lia.
Qed.

(** Appending a cluster at the end of a chain. *)
Lemma chain_extend F c l last n :
  chain F c (l ++ [last]) → valid fs n → n ∉ l ++ [last] →
  chain (λ x, if decide (x = last) then n else if decide (x = n) then 0x0FFFFFFF else F x) c (l ++ [last; n]).
Proof using Hend.
  intros Hch Hn Hni. pose proof (chain_NoDup _ _ _ Hch) as Hnd. revert c Hch Hni Hnd.
  induction l as [|x l IH]; intros c Hch Hni Hnd; simpl in *.
  - destruct Hch as (-> & Hv & _). split; [done|]. split; [done|]. rewrite decide_True by done.
    split; [done|]. split; [done|]. case_decide; [set_solver|]. rewrite decide_True by done. unfold END_OF_CHAIN. lia.
  - destruct Hch as (-> & Hv & Hch). apply NoDup_cons in Hnd as [Hx Hnd].
    split; [done|]. split; [done|]. rewrite !decide_False by set_solver. apply IH; [done|set_solver|done].
Qed.
End chains.

Section clusters.
Context {D : Type} `{BlockDeviceLaws D}.
Context (fs : fat32_fs).
Implicit Types d : D.

Abbreviation bps := (bytes_per_sector fs).
Abbreviation spc := (sectors_per_cluster fs).

(** ** Data sectors *)

Definition cluster_lba (c : Z) : Z := data_lba fs + (c - 2) * spc.

Lemma cluster_lba_range d c s : geom fs d → valid fs c → 0 ≤ s < spc →
  on_volume fs (cluster_lba c + s) ∧ 0 ≤ data_lba fs ∧ data_lba fs ≤ cluster_lba c + s < 2 ^ 64.
Proof.
  intros G [H1 H2] Hs. destruct G. unfold on_volume, cluster_lba.
  assert (0 ≤ (c - 2) * spc) by nia. assert ((c - 2) * spc + s < total_clusters fs * spc) by nia.
  assert (0 ≤ fat_count fs * sectors_per_fat fs) by nia. lia.
Qed.

Lemma cluster_to_lba_eq d c : geom fs d → valid fs c → fat32_cluster_to_lba fs c = cluster_lba c.
Proof.
  intros G Hc. pose proof (cluster_lba_range d c 0 G Hc ltac:(destruct G; lia)) as [_ Hr].
  unfold fat32_cluster_to_lba, cluster_lba in *. destruct Hc. destruct (Z.leb_spec 2 c); [|lia].
  destruct G. assert (0 ≤ fat_count fs * sectors_per_fat fs) by nia.
  assert (0 ≤ (c - 2) * spc) by nia. rewrite (u64_small ((c - 2) * spc)) by lia. apply u64_small. lia.
Qed.

Lemma cluster_lba_inj c c' s s' : 0 ≤ s < spc → 0 ≤ s' < spc → cluster_lba c + s = cluster_lba c' + s' → c = c' ∧ s = s'.
Proof. unfold cluster_lba. intros. assert (c = c') by nia. subst. lia. Qed.

(** The table does not see data sectors. *)
Lemma sec_step_fat d d' k l x : geom fs d → sec_step fs d d' k l → data_lba fs ≤ k → valid fs x → fat fs d' x = fat fs d x.
Proof.
  intros G [_ _ Hout] Hk Hx. destruct (fat_on_volume fs d _ G (fat_place_range fs d x G Hx)) as [_ Hlt].
  unfold fat. by rewrite Hout by lia.
Qed.

(** ** Clearing a cluster *)

Record cleared d d' (c : Z) : Prop := {
  cl_geom : geom fs d';
  cl_fat x : valid fs x → fat fs d' x = fat fs d x;
  cl_in s : 0 ≤ s < spc → sec d' (cluster_lba c + s) = replicate (Z.to_nat bps) 0;
  cl_out k : data_lba fs ≤ k → (∀ s, 0 ≤ s < spc → k ≠ cluster_lba c + s) → sec d' k = sec d k
}.

Lemma wpe_zero_cluster d c (Q : unit → D → Prop) (R : D → Prop) :
  geom fs d → valid fs c → (∀ d', cleared d d' c → Q tt d') → wpe (zero_cluster fs c) Q R d.
Proof.
  intros G Hc HQ. unfold zero_cluster. destruct (Z.ltb_spec FAT32_MAX_SECTOR bps) as [Hlt|_].
  { destruct G. unfold FAT32_MAX_SECTOR in Hlt. lia. }
  cbv zeta. rewrite (cluster_to_lba_eq d) by done.
  apply (wpe_for _ _ _ (λ i d', geom fs d' ∧ (∀ x, valid fs x → fat fs d' x = fat fs d x) ∧
    (∀ s, 0 ≤ s < i → sec d' (cluster_lba c + s) = replicate (Z.to_nat bps) 0) ∧
    (∀ k, (∀ s, 0 ≤ s < spc → k ≠ cluster_lba c + s) → sec d' k = sec d k))).
  - destruct G; lia.
  - split_and!; [done|done|lia|done].
  - intros i d1 Hi (G1 & Hf1 & Hin1 & Hout1). destruct (cluster_lba_range d1 c i G1 Hc Hi) as [Hv Hr].
    rewrite u64_small by lia.
    apply (wpe_write_sec fs); [done|done|rewrite length_replicate; destruct G; lia|apply bytes_zero|].
    intros d2 Hs. split_and!; [apply Hs| | |].
    + intros x Hx. rewrite (sec_step_fat d1 d2 _ _ x G1 Hs) by (done || lia). by apply Hf1.
    + intros s Hs'. destruct (decide (s = i)) as [->|Hne]; [apply Hs|].
      rewrite (ss_out _ _ _ _ _ Hs) by lia. apply Hin1. lia.
    + intros k Hk. rewrite (ss_out _ _ _ _ _ Hs) by (by apply Hk). by apply Hout1.
  - intros d1 (G1 & Hf1 & Hin1 & Hout1). apply HQ. split; [done|done|done|]. intros k _ Hk. by apply Hout1.
Qed.

(** ** Allocating a cluster *)

(** [d'] is [d] with the free cluster [c] taken and linked to [prev]. *)
Record allocated d d' (prev c : Z) : Prop := {
  al_valid : valid fs c;
  al_free : fat fs d c = 0;
  al_geom : geom fs d';
  al_fat x : valid fs x → fat fs d' x =
    if decide (x = prev) then c else if decide (x = c) then 0x0FFFFFFF else fat fs d x;
  al_in s : 0 ≤ s < spc → sec d' (cluster_lba c + s) = replicate (Z.to_nat bps) 0;
  al_out k : data_lba fs ≤ k → (∀ s, 0 ≤ s < spc → k ≠ cluster_lba c + s) → sec d' k = sec d k
}.

Lemma valid_mask d c : geom fs d → valid fs c → Z.land c 0x0FFFFFFF = c.
Proof.
  intros G Hc. change 0x0FFFFFFF with (Z.ones 28). rewrite Z.land_ones by lia. apply Z.mod_small.
  destruct G. unfold valid, END_OF_CHAIN in *. lia.
Qed.

Lemma wpe_alloc d prev (Q : Z → D → Prop) (R : D → Prop) :
  geom fs d → prev = 0 ∨ (valid fs prev ∧ fat fs d prev ≠ 0) →
  (∀ c d', allocated d d' prev c → (∀ x, valid fs x → x < c → fat fs d x ≠ 0) → Q c d') →
  ((∀ x, valid fs x → fat fs d x ≠ 0) → Q 0 d) →
  wpe (alloc_cluster fs prev) Q R d.
Proof.
  intros G Hp HQ HQ0. unfold alloc_cluster.
  destruct (Z.eqb_spec (total_clusters fs) 0) as [E|_]; [destruct G; lia|]. we_steps.
  apply (wpe_for_er _ _ _ (λ i d', d' = d ∧ ∀ x, valid fs x → x < i → fat fs d x ≠ 0)).
  - destruct G; lia.
  - split; [done|]. unfold valid. lia.
  - intros i d1 Hi [-> Hprev]. assert (valid fs i) as Hv by (unfold valid; lia).
    rewrite u32_small by (destruct G; unfold END_OF_CHAIN in *; lia). we_steps.
    apply (wpe_read_fat fs); [done|done|]. destruct (Z.eqb_spec (fat fs d i) 0) as [Ef|Ef]; we_steps.
    2:{ split; [done|]. intros x Hx Hlt. destruct (decide (x = i)) as [->|]; [done|]. apply Hprev; [done|lia]. }
    apply (wpe_write_fat fs); [done|done|]. intros d1 S1. change (Z.land 0x0FFFFFFF 0x0FFFFFFF) with 0x0FFFFFFF in S1.
    we_steps.
    apply (wpe_mono _ (λ _ d2, geom fs d2 ∧ (∀ x, valid fs x → fat fs d2 x =
        if decide (x = prev) then i else if decide (x = i) then 0x0FFFFFFF else fat fs d x) ∧
        (∀ k, data_lba fs ≤ k → sec d2 k = sec d k)) _ (λ _, False)); [|intros ? d2 (G2 & Hf2 & Hd2)|done].
    { destruct S1 as [G1 Hf1 Hd1]. destruct (Z.eqb_spec prev 0) as [->|Hp0]; we_steps.
      - split_and!; [done| |done]. intros x Hx. rewrite (decide_False (P := x = 0)) by (unfold valid in Hx; lia). by apply Hf1.
      - destruct Hp as [?|[Hpv Hpf]]; [done|]. apply (wpe_write_fat fs); [done|done|]. intros d2 [G2 Hf2 Hd2].
        rewrite (valid_mask d i G Hv) in Hf2. split_and!; [done| |].
        + intros x Hx. rewrite Hf2 by done. case_decide; [done|]. by apply Hf1.
        + intros k Hk. rewrite Hd2 by done. by apply Hd1. }
    apply wpe_zero_cluster; [done|done|]. intros d3 [C1 C2 C3 C4]. we_steps. apply HQ; [|done].
    split; [done|done|done| |done|].
    + intros x Hx. rewrite C2 by done. by apply Hf2.
    + intros k Hk Hk'. rewrite C4 by done. by apply Hd2.
  - intros d1 [-> Hall]. we_steps. apply HQ0. intros x Hx. apply Hall; [done|]. unfold valid in Hx. lia.
Qed.

(** ** Freeing a chain *)

Record freed d d' (l : list Z) : Prop := {
  fr_geom : geom fs d';
  fr_fat x : valid fs x → fat fs d' x = if decide (x ∈ l) then 0 else fat fs d x;
  fr_data k : data_lba fs ≤ k → sec d' k = sec d k
}.

Lemma step_limit d : geom fs d → fat32_chain_step_limit fs = total_clusters fs + 1.
Proof.
  intros G. destruct G. unfold fat32_chain_step_limit, END_OF_CHAIN in *.
  destruct (Z.eqb_spec (total_clusters fs) 0), (Z.eqb_spec (total_clusters fs) 0xFFFFFFFF); lia.
Qed.

Lemma in_chain_valid d c : geom fs d → valid fs c → in_chain c = true.
Proof.
  intros G Hc. destruct G. unfold in_chain, valid in *.
  destruct (Z.leb_spec 2 c), (Z.ltb_spec c END_OF_CHAIN); simpl; [done|lia..].
Qed.

Lemma in_chain_end c : END_OF_CHAIN ≤ c → in_chain c = false.
Proof. intros Hc. unfold in_chain. destruct (Z.ltb_spec c END_OF_CHAIN); [lia|]. by rewrite andb_false_r. Qed.

Lemma wpe_free_chain d c l (Q : unit → D → Prop) (R : D → Prop) :
  geom fs d → chain fs (fat fs d) c l → (∀ d', freed d d' l → Q tt d') →
  wpe (fat32_free_chain fs c) Q R d.
Proof.
  intros G Hch HQ. pose proof (g_clusters _ _ G) as [Hc1 Hc2].
  pose proof (chain_length fs Hc2 _ _ _ ltac:(lia) Hch) as Hlen.
  pose proof (chain_NoDup fs Hc2 _ _ _ Hch) as Hnd.
  unfold fat32_free_chain. rewrite (step_limit d G).
  apply (wpe_while _ _ (λ st d', ∃ l1 l2, l = l1 ++ l2 ∧ freed d d' l1 ∧ chain fs (fat fs d) st.1 l2 ∧
    st.2 = Z.of_nat (length l1)) (λ st _, total_clusters fs - st.2)).
  - exists [], l. split_and!; [done| |done|done]. split; [done|done|done].
  - simpl. unfold END_OF_CHAIN in *. lia.
  - intros [c1 steps] d1 (l1 & l2 & -> & Hfr & Hc & Hst). simpl in Hc, Hst. rewrite length_app in Hlen. destruct l2 as [|x l2].
    { rewrite in_chain_end by done. we_steps. apply HQ. by rewrite app_nil_r. }
    destruct Hc as (-> & Hv & Hc). rewrite (in_chain_valid d) by done. simpl in Hlen.
    destruct (Z.leb_spec (total_clusters fs + 1) steps); [lia|]. destruct Hfr as [G1 Hf1 Hd1]. we_steps.
    apply (wpe_read_fat fs); [done|done|]. we_steps. apply (wpe_write_fat fs); [done|done|].
    intros d2 [G2 Hf2 Hd2]. change (Z.land 0 0x0FFFFFFF) with 0 in Hf2. we_steps.
    apply NoDup_app in Hnd as (Hn1 & Hn2 & Hn3).
    assert (x ∉ l1) as Hx1 by (intros ?; apply (Hn2 x); [done|set_solver]).
    rewrite (u32_small (steps + 1)) by (unfold END_OF_CHAIN in *; lia). split; [|simpl; lia].
    exists (l1 ++ [x]), l2. split_and!; [by rewrite <-app_assoc| | |simpl; rewrite length_app; simpl; lia].
    + split; [done| |].
      * intros y Hy. rewrite Hf2 by done. case_decide as Hyx.
        -- subst y. by rewrite decide_True by set_solver.
        -- rewrite Hf1 by done. repeat case_decide; try done; set_solver.
      * intros k Hk. rewrite Hd2 by done. by apply Hd1.
    + simpl. rewrite Hf1 by done. by rewrite decide_False.
Qed.
End clusters.
