(* ===== verification/FatRead.v ===== *)
(** * FAT32: the bytes of a chain, and reading

    The sectors of a chain, one after the other, are the contents of a file;
    [fat32_read] returns a part of them. *)

From S2P Require Import Prelude Loops Codec Ring Part Fat32 FatVol.

(** ** Parts of lists at integer positions *)

Definition zslice {A} (l : list A) (p n : Z) : list A := slice l (Z.to_nat p) (Z.to_nat n).

Lemma zslice_app {A} (l : list A) p a b : 0 ≤ p → 0 ≤ a → 0 ≤ b →
  zslice l p a ++ zslice l (p + a) b = zslice l p (a + b).
Proof.
  intros Hp Ha Hb. unfold zslice, slice. rewrite (Z2Nat.inj_add p a), (Z2Nat.inj_add a b) by lia.
  rewrite <-drop_drop. by rewrite take_take_drop.
Qed.

Lemma zslice_zslice {A} (l : list A) a m b n : 0 ≤ a → 0 ≤ b → 0 ≤ n → b + n ≤ m →
  zslice (zslice l a m) b n = zslice l (a + b) n.
Proof.
  intros Ha Hb Hn Hm. unfold zslice, slice. apply list_eq. intros i.
  destruct (decide (i < Z.to_nat n)%nat) as [Hi|Hi].
  - rewrite !lookup_take_lt, !lookup_drop by lia. rewrite lookup_take_lt, lookup_drop by lia. f_equal. lia.
  - by rewrite !lookup_take_ge by lia.
Qed.

Lemma length_zslice {A} (l : list A) p n : 0 ≤ p → 0 ≤ n → p + n ≤ Z.of_nat (length l) →
  Z.of_nat (length (zslice l p n)) = n.
Proof. intros Hp Hn Hl. unfold zslice, slice. rewrite length_take, length_drop. lia. Qed.

Lemma zslice_nil {A} (l : list A) p : zslice l p 0 = [].
Proof. done. Qed.

(** ** Blocks of equal length *)

Lemma join_length {A} (ls : list (list A)) n : Forall (λ l, length l = n) ls →
  length (mjoin ls) = (length ls * n)%nat.
Proof.
  induction 1 as [|l ls Hl _ IH]; [done|]. change (mjoin (l :: ls)) with (l ++ mjoin ls).
  rewrite length_app, IH, Hl. simpl. lia.
Qed.

Lemma join_lookup {A} (ls : list (list A)) n k x i : Forall (λ l, length l = n) ls →
  ls !! k = Some x → (i < n)%nat → mjoin ls !! (k * n + i)%nat = x !! i.
Proof.
  intros Hf. revert k. induction Hf as [|l ls Hl _ IH]; intros k Hk Hi; [done|].
  change (mjoin (l :: ls)) with (l ++ mjoin ls). destruct k as [|k].
  - simpl in Hk. simplify_eq. simpl. rewrite lookup_app_l by lia. done.
  - rewrite lookup_app_r by (simpl; lia). rewrite Hl.
    replace (S k * n + i - n)%nat with (k * n + i)%nat by lia. by apply IH.
Qed.

Lemma join_slice {A} (ls : list (list A)) n k x : Forall (λ l, length l = n) ls →
  ls !! k = Some x → slice (mjoin ls) (k * n) n = x.
Proof.
  intros Hf Hk. apply list_eq. intros i. rewrite lookup_slice. case_decide as Hi.
  - by apply (join_lookup ls n).
  - symmetry. apply lookup_ge_None. rewrite Forall_lookup in Hf. rewrite (Hf k x Hk). lia.
Qed.

Section read.
Context {D : Type} `{BlockDeviceLaws D}.
Context (fs : fat32_fs).
Implicit Types d : D.

Abbreviation bps := (bytes_per_sector fs).
Abbreviation spc := (sectors_per_cluster fs).

(** ** The contents of a chain *)

Definition lbas (l : list Z) : list Z := mjoin ((λ c, seqZ (cluster_lba fs c) spc) <$> l).
Definition content d (l : list Z) : list Z := mjoin (sec d <$> lbas l).

Lemma lbas_equal l : Forall (λ x : list Z, length x = Z.to_nat spc) ((λ c, seqZ (cluster_lba fs c) spc) <$> l).
Proof. apply Forall_fmap, Forall_true. intros c. simpl. by rewrite length_seqZ. Qed.

Lemma length_lbas l : length (lbas l) = (length l * Z.to_nat spc)%nat.
Proof. unfold lbas. rewrite (join_length _ _ (lbas_equal l)). by rewrite length_fmap. Qed.

Lemma lbas_lookup l k c s : l !! k = Some c → 0 ≤ s < spc →
  lbas l !! (k * Z.to_nat spc + Z.to_nat s)%nat = Some (cluster_lba fs c + s).
Proof.
  intros Hk Hs. unfold lbas. rewrite (join_lookup _ _ k (seqZ (cluster_lba fs c) spc) (Z.to_nat s) (lbas_equal l)).
  - rewrite lookup_seqZ_lt by lia. f_equal. lia.
  - by rewrite list_lookup_fmap, Hk.
  - lia.
Qed.

Lemma elem_of_lbas l x : x ∈ lbas l ↔ ∃ c s, c ∈ l ∧ 0 ≤ s < spc ∧ x = cluster_lba fs c + s.
Proof.
  unfold lbas. rewrite list_elem_of_join. split.
  - intros (q & Hx & Hq). apply list_elem_of_fmap in Hq as (c & -> & Hc). apply elem_of_seqZ in Hx.
    exists c, (x - cluster_lba fs c). split; [done|]. lia.
  - intros (c & s & Hc & Hs & ->). exists (seqZ (cluster_lba fs c) spc). split; [apply elem_of_seqZ; lia|].
    apply list_elem_of_fmap. by exists c.
Qed.

Definition all_valid (l : list Z) : Prop := Forall (valid fs) l.

Lemma secs_equal d l : geom fs d → all_valid l → Forall (λ x : list Z, length x = Z.to_nat bps) (sec d <$> lbas l).
Proof.
  intros G Hl. apply Forall_forall. intros x Hx. apply list_elem_of_fmap in Hx as (k & -> & Hk).
  apply elem_of_lbas in Hk as (c & s & Hc & Hs & ->). unfold all_valid in Hl. rewrite Forall_forall in Hl.
  destruct (cluster_lba_range fs d c s G (Hl c Hc) Hs) as [Hv _].
  destruct (sec_good fs d _ G Hv) as (_ & Hlen & _). lia.
Qed.

Lemma cluster_size_eq d : geom fs d → cluster_size fs = spc * bps ∧ 0 < spc * bps < 2 ^ 32.
Proof. intros G. destruct G. unfold cluster_size. assert (spc * bps ≤ 128 * 4096) by nia. rewrite u64_small by nia. nia. Qed.

Lemma length_content d l : geom fs d → all_valid l →
  Z.of_nat (length (content d l)) = Z.of_nat (length l) * cluster_size fs.
Proof.
  intros G Hl. unfold content. rewrite (join_length _ _ (secs_equal d l G Hl)), length_fmap, length_lbas.
  destruct (cluster_size_eq d G) as [-> _]. destruct G. nia.
Qed.

(** A sector of the contents. *)
Lemma content_sector d l k c s : geom fs d → all_valid l → l !! k = Some c → 0 ≤ s < spc →
  sec d (cluster_lba fs c + s) = zslice (content d l) ((Z.of_nat k * spc + s) * bps) bps.
Proof.
  intros G Hl Hk Hs. symmetry. unfold zslice, content.
  assert (1 ≤ spc) by (destruct G; lia). assert (512 ≤ bps) by (destruct G; lia).
  replace (Z.to_nat ((Z.of_nat k * spc + s) * bps)) with ((k * Z.to_nat spc + Z.to_nat s) * Z.to_nat bps)%nat by nia.
  apply join_slice; [by apply secs_equal|]. rewrite list_lookup_fmap.
  by rewrite (lbas_lookup l k c s).
Qed.

(** ** Reading one cluster *)

(** What has been read so far. *)
Definition read_so_far d l (p : Z) (data : list Z) : Prop := data = zslice (content d l) p (Z.of_nat (length data)).

Lemma wpe_read_cluster d l k c p len skip data (Q : list Z + list Z → D → Prop) (R : D → Prop) :
  geom fs d → all_valid l → l !! k = Some c → 0 ≤ p → p + len ≤ Z.of_nat (length (content d l)) →
  read_so_far d l p data → Z.of_nat (length data) < len → 0 ≤ skip < cluster_size fs →
  p + Z.of_nat (length data) = Z.of_nat k * cluster_size fs + skip →
  (∀ data', read_so_far d l p data' →
     Z.of_nat (length data') = Z.min len ((Z.of_nat k + 1) * cluster_size fs - p) → Q (inl data') d) →
  wpe (read_cluster fs len c skip data) Q R d.
Proof.
  intros G Hl Hk Hp Hlen Hdata Hdl Hskip Hpos HQ. unfold all_valid in Hl. pose proof Hl as Hl'. rewrite Forall_forall in Hl'.
  assert (valid fs c) as Hc by (apply Hl'; by eapply list_elem_of_lookup_2).
  destruct (cluster_size_eq d G) as [Ecs Hcs]. rewrite Ecs in *.
  assert (512 ≤ bps ≤ 4096) as Hbps by (destruct G; lia). assert (1 ≤ spc ≤ 128) as Hspc by (destruct G; lia).
  unfold read_cluster. cbv zeta. rewrite (cluster_to_lba_eq fs d) by done.
  pose proof (Z.div_mod skip bps ltac:(lia)) as Hdm. pose proof (Z.mod_pos_bound skip bps ltac:(lia)) as Hmb.
  pose proof (Z.div_pos skip bps ltac:(lia) ltac:(lia)) as Hdp.
  assert (skip / bps < spc) as Hss by (apply Z.div_lt_upper_bound; lia).
  rewrite (u32_small (skip / bps)), (u32_small (skip mod bps)) by lia.
  set (ss := skip / bps) in *. set (sb := skip mod bps) in *.
  apply (wpe_while _ _ (λ st d', d' = d ∧ 0 ≤ st.1 ≤ spc ∧ read_so_far d l p st.2 ∧ Z.of_nat (length st.2) < len ∧
    if decide (st.1 ≤ ss) then st.2 = data
    else p + Z.of_nat (length st.2) = (Z.of_nat k * spc + st.1) * bps) (λ st _, spc - st.1)).
  - simpl. split_and!; [done|lia|lia|done|done|]. by rewrite decide_True by lia.
  - simpl. lia.
  - intros [s dt] d' (-> & Hs & Hdt & Hdtl & Hcase). simpl in Hs, Hdt, Hdtl, Hcase.
    destruct (Z.ltb_spec s spc) as [Hlt|Hge].
    2:{ rewrite decide_False in Hcase by lia. assert (s = spc) as -> by lia. we_steps. apply HQ; [done|]. lia. }
    destruct (Z.ltb_spec s ss) as [Hlt'|Hge'].
    { we_steps. split; [|simpl; lia]. split_and!; [done|simpl; lia..|done|done|]. simpl.
      rewrite decide_True in Hcase by lia. by rewrite decide_True by lia. }
    destruct (Z.ltb_spec FAT32_MAX_SECTOR bps) as [Hm|_]; [unfold FAT32_MAX_SECTOR in Hm; lia|].
    destruct (cluster_lba_range fs d c s G Hc ltac:(lia)) as [Hv Hr]. rewrite u64_small by lia.
    we_steps. apply (wpe_read_sec fs); [done|done|]. we_steps.
    set (off := if s =? ss then sb else 0).
    assert (0 ≤ off < bps ∧ p + Z.of_nat (length dt) = (Z.of_nat k * spc + s) * bps + off) as [Hoff Hat].
    { unfold off. destruct (Z.eqb_spec s ss) as [->|Hne].
      - rewrite decide_True in Hcase by lia. subst dt. split; [lia|]. rewrite Hpos. lia.
      - rewrite decide_False in Hcase by lia. lia. }
    rewrite (u32_small (bps - off)) by lia.
    set (n := if len - Z.of_nat (length dt) <? bps - off then len - Z.of_nat (length dt) else bps - off).
    assert (n = Z.min (len - Z.of_nat (length dt)) (bps - off)) as En.
    { unfold n. destruct (Z.ltb_spec (len - Z.of_nat (length dt)) (bps - off)); lia. }
    assert (dt ++ slice (sec d (cluster_lba fs c + s)) (Z.to_nat off) (Z.to_nat n)
      = zslice (content d l) p (Z.of_nat (length dt) + n)) as Edt.
    { rewrite (content_sector d l k c s G Hl Hk) by lia. fold (zslice (zslice (content d l) ((Z.of_nat k * spc + s) * bps) bps) off n).
      rewrite zslice_zslice by lia. rewrite <-Hat. rewrite <-zslice_app by lia. by f_equal. }
    rewrite Edt. assert (Z.of_nat (length (zslice (content d l) p (Z.of_nat (length dt) + n))) = Z.of_nat (length dt) + n) as Hln
      by (apply length_zslice; lia).
    destruct (Z.eqb_spec (len - Z.of_nat (length dt) - n) 0) as [Ez|Ez]; we_steps.
    + apply HQ; [unfold read_so_far; by rewrite Hln|]. rewrite Hln. nia.
    + split; [|simpl; lia]. split_and!; [done|simpl; lia..| | |].
      * unfold read_so_far. simpl. by rewrite Hln.
      * simpl. lia.
      * simpl. rewrite decide_False by lia. lia.
Qed.

(** ** Reading along a chain *)

Lemma wpe_skip_read d c l p (Q : (Z * Z * Z) + unit → D → Prop) (R : D → Prop) :
  geom fs d → chain fs (fat fs d) c l → 0 ≤ p < Z.of_nat (length l) * cluster_size fs →
  (∀ k x skip, l !! k = Some x → 0 ≤ skip < cluster_size fs → p = Z.of_nat k * cluster_size fs + skip →
     Q (inl (x, skip, Z.of_nat k)) d) →
  wpe (skip_read fs c p) Q R d.
Proof.
  intros G Hch Hp HQ. destruct (cluster_size_eq d G) as [Ecs Hcs]. rewrite <-Ecs in Hcs. clear Ecs.
  pose proof (g_clusters _ _ G) as [Hc1 Hc2]. pose proof (chain_length fs Hc2 _ _ _ ltac:(lia) Hch) as Hlen.
  unfold skip_read. rewrite (step_limit fs d G).
  apply (wpe_while _ _ (λ st d', d' = d ∧ ∃ k : nat, l !! k = Some st.1.1 ∧ 0 ≤ st.1.2 ∧
    p = Z.of_nat k * cluster_size fs + st.1.2 ∧ st.2 = Z.of_nat k) (λ st _, total_clusters fs - st.2)).
  - split; [done|]. exists 0%nat. simpl. split_and!; [|lia|lia|done].
    destruct l as [|x l]; simpl in Hp; [lia|]. by destruct Hch as (-> & _).
  - simpl. unfold END_OF_CHAIN in *. lia.
  - intros [[x skip] steps] d' (-> & k & Hk & Hskip & Hpk & Hst). simpl in Hk, Hskip, Hpk, Hst. subst steps.
    destruct (Z.leb_spec (cluster_size fs) skip) as [Hle|Hlt]; [|we_steps; by apply HQ].
    pose proof (lookup_lt_Some _ _ _ Hk) as Hkl. destruct (Z.leb_spec (total_clusters fs + 1) (Z.of_nat k)); [lia|].
    destruct (chain_at fs _ _ _ _ _ Hch Hk) as [Hv Hnext].
    we_steps. apply (wpe_read_fat fs); [done|done|].
    destruct (l !! S k) as [y|] eqn:Hy; [|apply lookup_ge_None in Hy; nia].
    destruct Hnext as [-> Hyv]. pose proof (valid_end fs Hc2 y Hyv).
    destruct (Z.leb_spec END_OF_CHAIN y); [lia|]. rewrite u32_small by (unfold END_OF_CHAIN in *; lia).
    we_steps. split; [|simpl; lia]. split; [done|]. exists (S k). simpl. split_and!; [done|lia|lia|lia].
Qed.

(** A file of [fs] whose clusters are [l]; an empty file may have none. *)
Record file_on d (f : fat32_file) (l : list Z) : Prop := {
  fo_chain : match l with [] => first_cluster f = 0 | _ => chain fs (fat fs d) (first_cluster f) l end;
  fo_size : 0 ≤ size f ≤ Z.of_nat (length l) * cluster_size fs;
  fo_size32 : size f < 2 ^ 32;
  fo_pos : 0 ≤ pos f < 2 ^ 32
}.

(** The bytes of the file. *)
Definition file_bytes d (f : fat32_file) (l : list Z) : list Z := zslice (content d l) 0 (size f).

Lemma chain_all_valid F c l : chain fs F c l → all_valid l.
Proof. intros Hch. apply Forall_forall. intros x Hx. by eapply chain_valid. Qed.

Lemma wpe_read d f l len :
  geom fs d → file_on d f l → 0 ≤ len →
  wpe (fat32_read fs f len) (λ r d', d' = d ∧
    r.1 = zslice (file_bytes d f l) (pos f) (Z.min len (Z.max 0 (size f - pos f))) ∧
    r.2 = set_pos (pos f + Z.of_nat (length r.1)) f ∧
    Z.of_nat (length r.1) = Z.min len (Z.max 0 (size f - pos f))) (λ _, False) d.
Proof.
  intros G [Hch Hsz Hsz32 Hpos] Hlen. destruct (cluster_size_eq d G) as [Ecs Hcs]. rewrite <-Ecs in Hcs. clear Ecs.
  assert (set_pos (pos f + 0) f = f) as Ef by (rewrite Z.add_0_r; by destruct f).
  unfold fat32_read. destruct (Z.eqb_spec len 0) as [->|Hl0].
  { we_steps. rewrite Z.min_l, zslice_nil by lia. done. }
  destruct (Z.leb_spec (size f) (pos f)) as [Hend|Hin].
  { we_steps. rewrite Z.max_l, Z.min_r, zslice_nil by lia. done. }
  rewrite (Z.max_r 0) by lia. cbv zeta. assert (l ≠ []) as Hne by (intros ->; simpl in Hsz; lia).
  assert (chain fs (fat fs d) (first_cluster f) l) as Hch' by (by destruct l). clear Hch. rename Hch' into Hch.
  pose proof (chain_all_valid _ _ _ Hch) as Hall. pose proof (length_content d l G Hall) as Hct.
  pose proof (g_clusters _ _ G) as [Hc1 Hc2]. pose proof (chain_length fs Hc2 _ _ _ ltac:(lia) Hch) as Hll.
  set (n := if size f - pos f <? len then _ else _).
  assert (Z.min len (size f - pos f) = n) as -> by (unfold n; destruct (Z.ltb_spec (size f - pos f) len); lia).
  assert (0 < n ≤ size f - pos f) as Hn by (unfold n; destruct (Z.ltb_spec (size f - pos f) len); lia).
  assert (2 ≤ first_cluster f) as Hfc.
  { destruct l; [done|]. destruct Hch as (-> & Hv & _). unfold valid in Hv. lia. }
  destruct (Z.ltb_spec (first_cluster f) 2); [lia|]. destruct (Z.eqb_spec (cluster_size fs) 0); [lia|].
  we_steps. apply (wpe_skip_read _ _ l); [done|done|lia|]. intros k x skip Hk Hskip Hpk. we_steps.
  rewrite (step_limit fs d G).
  apply (wpe_while _ _ (λ st d', let '(x, skip, steps, data) := st in d' = d ∧ ∃ k : nat, l !! k = Some x ∧
    0 ≤ skip < cluster_size fs ∧ steps = Z.of_nat k ∧ read_so_far d l (pos f) data ∧ Z.of_nat (length data) < n ∧
    pos f + Z.of_nat (length data) = Z.of_nat k * cluster_size fs + skip)
    (λ st _, total_clusters fs - st.1.2)).
  - split; [done|]. exists k. split_and!; [done|lia|lia|done|done|simpl; lia|simpl; lia].
  - simpl. pose proof (lookup_lt_Some _ _ _ Hk). unfold END_OF_CHAIN in *. lia.
  - clear k x skip Hk Hskip Hpk. intros [[[x skip] steps] data] d' (-> & k & Hk & Hskip & -> & Hdt & Hdl & Hpk).
    pose proof (lookup_lt_Some _ _ _ Hk) as Hkl. destruct (chain_at fs _ _ _ _ _ Hch Hk) as [Hv Hnext].
    pose proof (valid_end fs Hc2 x Hv). destruct (Z.ltb_spec (Z.of_nat (length data)) n); [|lia].
    destruct (Z.ltb_spec x END_OF_CHAIN); [|lia]. simpl.
    destruct (Z.leb_spec (total_clusters fs + 1) (Z.of_nat k)); [lia|].
    we_steps. apply (wpe_read_cluster d l k x (pos f) n); [done..|lia|lia|done|done|done|done|].
    intros data' Hdt' Hdl'. we_steps. destruct (Z.eqb_spec (Z.of_nat (length data')) n) as [E|E]; we_steps.
    + simpl. split; [done|]. rewrite u32_small by lia. split_and!; [|done|done].
      unfold read_so_far in Hdt'. unfold file_bytes. rewrite zslice_zslice by lia. rewrite Hdt'. by rewrite E.
    + apply (wpe_read_fat fs); [done|done|].
      destruct (l !! S k) as [y|] eqn:Hy; [|apply lookup_ge_None in Hy; nia]. destruct Hnext as [-> Hyv].
      rewrite u32_small by (unfold END_OF_CHAIN in *; lia). split; [|simpl; lia]. split; [done|].
      exists (S k). split_and!; [done|lia|lia|lia|done|lia|lia].
Qed.
End read.
