(* ===== verification/FatWrite.v ===== *)
(** * FAT32: writing

    A write puts the bytes at the position of the file, over the old ones and
    into new clusters at the end of the chain, and touches nothing else. *)

From S2P Require Import Prelude Ring Loops Codec Part Fat32 FatVol FatRead.

(** ** Replacing parts of lists *)

Lemma splice_nil {A} (l : list A) p : splice l p [] = l.
Proof. unfold splice. simpl. by rewrite Nat.add_0_r, take_drop. Qed.

Lemma splice_app_l {A} (l m b : list A) p : b = [] ∨ (p + length b ≤ length l)%nat →
  splice (l ++ m) p b = splice l p b ++ m.
Proof.
  intros [->|Hb]; [by rewrite !splice_nil|]. unfold splice.
  rewrite take_app_le, drop_app_le by lia. by rewrite <-!app_assoc.
Qed.

Lemma splice_splice {A} (l a b : list A) p : (p + length a + length b ≤ length l)%nat →
  splice (splice l p a) (p + length a) b = splice l p (a ++ b).
Proof.
  intros Hl. apply list_eq. intros i. rewrite !lookup_splice; rewrite ?length_splice, ?length_app by (rewrite ?length_app; lia); [|lia..].
  destruct (decide (p + length a ≤ i < p + length a + length b)%nat) as [H1|H1].
  - rewrite decide_True by lia. rewrite lookup_app_r by lia. f_equal. lia.
  - destruct (decide (p ≤ i < p + length a)%nat) as [H2|H2].
    + rewrite decide_True by lia. by rewrite lookup_app_l by lia.
    + by rewrite decide_False by lia.
Qed.

(** A change inside a part. *)
Lemma splice_slice {A} (l b : list A) o n off : (o + n ≤ length l)%nat → (off + length b ≤ n)%nat →
  splice l o (splice (slice l o n) off b) = splice l (o + off) b.
Proof.
  intros Hl Hb. assert (length (slice l o n) = n) as Hs by (unfold slice; rewrite length_take, length_drop; lia).
  apply list_eq. intros i. rewrite !lookup_splice; rewrite ?length_splice by lia; rewrite ?Hs; [|lia..].
  destruct (decide (o ≤ i < o + n)%nat) as [H1|H1].
  - rewrite lookup_slice. repeat case_decide; try lia; f_equal; lia.
  - by rewrite decide_False by lia.
Qed.

Lemma join_insert {A} (ls : list (list A)) n j x : Forall (λ l, length l = n) ls → length x = n → (j < length ls)%nat →
  mjoin (<[j := x]> ls) = splice (mjoin ls) (j * n) x.
Proof.
  intros Hf Hx. revert j. induction Hf as [|l ls Hl Hf IH]; intros j Hj; [simpl in Hj; lia|].
  change (mjoin (l :: ls)) with (l ++ mjoin ls). destruct j as [|j].
  - change (mjoin (<[0%nat := x]> (l :: ls))) with (x ++ mjoin ls). unfold splice. simpl.
    by rewrite Hx, <-Hl, drop_app_length.
  - change (mjoin (<[S j := x]> (l :: ls))) with (l ++ mjoin (<[j := x]> ls)). simpl in Hj. rewrite IH by lia.
    unfold splice. replace (S j * n)%nat with (length l + j * n)%nat by lia.
    rewrite take_app_add. replace (length l + j * n + length x)%nat with (length l + (j * n + length x))%nat by lia.
    rewrite drop_app_add. by rewrite <-app_assoc.
Qed.

Section write.
Context {D : Type} `{BlockDeviceLaws D}.
Context (fs : fat32_fs).
Implicit Types d : D.

Abbreviation bps := (bytes_per_sector fs).
Abbreviation spc := (sectors_per_cluster fs).
Abbreviation lbas := (lbas fs).
Abbreviation content := (content fs).
Abbreviation cs := (cluster_size fs).

(** ** One sector *)

Lemma lbas_cons c l : lbas (c :: l) = seqZ (cluster_lba fs c) spc ++ lbas l.
Proof. done. Qed.

Lemma lbas_app l m : lbas (l ++ m) = lbas l ++ lbas m.
Proof. unfold FatRead.lbas. by rewrite fmap_app, join_app. Qed.

Lemma NoDup_lbas l : NoDup l → NoDup (lbas l).
Proof.
  induction 1 as [|c l Hc _ IH]; [constructor|]. rewrite lbas_cons. apply NoDup_app. split_and!; [apply NoDup_seqZ| |done].
  intros x Hx (c' & s & Hc' & Hs & E)%elem_of_lbas. apply elem_of_seqZ in Hx.
  destruct (cluster_lba_inj fs c c' (x - cluster_lba fs c) s) as [-> _]; [lia|done|lia|done].
Qed.

Lemma content_update d d' l k c s off b :
  geom fs d → all_valid fs l → NoDup l → l !! k = Some c → 0 ≤ s < spc →
  0 ≤ off → off + Z.of_nat (length b) ≤ bps →
  sec_step fs d d' (cluster_lba fs c + s) (splice (sec d (cluster_lba fs c + s)) (Z.to_nat off) b) →
  content d' l = splice (content d l) (Z.to_nat ((Z.of_nat k * spc + s) * bps + off)) b.
Proof.
  intros G Hl Hnd Hk Hs Ho Hob [_ Hin Hout]. assert (1 ≤ spc ∧ 512 ≤ bps) as [Hspc Hbps] by (destruct G; lia).
  pose proof (secs_equal fs d l G Hl) as Heq. set (j := (k * Z.to_nat spc + Z.to_nat s)%nat).
  pose proof (lbas_lookup fs l k c s Hk Hs) as Hj. fold j in Hj.
  assert (j < length (lbas l))%nat as Hjl by (by eapply lookup_lt_Some).
  assert (sec d' <$> lbas l = <[j := splice (sec d (cluster_lba fs c + s)) (Z.to_nat off) b]> (sec d <$> lbas l)) as E.
  { apply list_eq. intros i. destruct (decide (i = j)) as [->|Hne].
    - rewrite list_lookup_insert_eq by (by rewrite length_fmap). rewrite list_lookup_fmap, Hj. simpl. by rewrite Hin.
    - rewrite list_lookup_insert_ne by done. rewrite !list_lookup_fmap. destruct (lbas l !! i) as [x|] eqn:Hx; [|done].
      simpl. rewrite Hout; [done|]. intros ->. apply Hne. eapply NoDup_lookup; [by apply NoDup_lbas|done|done]. }
  assert ((sec d <$> lbas l) !! j = Some (sec d (cluster_lba fs c + s))) as Hsj by (by rewrite list_lookup_fmap, Hj).
  assert (length (sec d (cluster_lba fs c + s)) = Z.to_nat bps) as Hsl.
  { rewrite Forall_lookup in Heq. by apply (Heq j). }
  unfold FatRead.content. rewrite E, (join_insert _ (Z.to_nat bps)); [|done|rewrite length_splice; lia|by rewrite length_fmap].
  rewrite <-(join_slice _ _ _ _ Heq Hsj).
  rewrite splice_slice; [f_equal; unfold j; nia| |lia].
  rewrite (join_length _ _ Heq), length_fmap. nia.
Qed.

(** ** One cluster *)

Lemma sector_fits k n spc s bps : k < n → 0 ≤ s < spc → 0 ≤ bps → (k * spc + s + 1) * bps ≤ n * (spc * bps).
Proof. intros Hk Hs Hb. rewrite Z.mul_assoc. apply Z.mul_le_mono_nonneg_r; [done|]. nia. Qed.

(** [d'] is [d] with [X] in the clusters [l]. *)
Record filled d d' (l : list Z) (X : list Z) : Prop := {
  fi_geom : geom fs d';
  fi_fat x : valid fs x → fat fs d' x = fat fs d x;
  fi_in : content d' l = X;
  fi_out j : data_lba fs ≤ j → j ∉ lbas l → sec d' j = sec d j
}.

Lemma filled_refl d l : geom fs d → filled d d l (content d l).
Proof. done. Qed.

Lemma wpe_write_cluster d l k c p buf skip done (B : list Z) (Q : Z + Z → D → Prop) (R : D → Prop) :
  geom fs d → all_valid fs l → NoDup l → l !! k = Some c → 0 ≤ p → bytes buf →
  length B = length (content d l) → content d l = splice B (Z.to_nat p) (take (Z.to_nat done) buf) →
  0 ≤ done < Z.of_nat (length buf) → 0 ≤ skip < cs → p + done = Z.of_nat k * cs + skip →
  (∀ d' done', done' = Z.min (Z.of_nat (length buf)) ((Z.of_nat k + 1) * cs - p) →
     filled d d' l (splice B (Z.to_nat p) (take (Z.to_nat done') buf)) → Q (inl done') d') →
  wpe (write_cluster fs buf c skip done) Q R d.
Proof.
  intros G Hl Hnd Hk Hp Hbuf HBl HB Hdn Hskip Hpos HQ. pose proof Hl as Hl'. unfold all_valid in Hl'. rewrite Forall_forall in Hl'.
  assert (valid fs c) as Hc by (apply Hl'; by eapply list_elem_of_lookup_2).
  assert (length B = Z.to_nat (Z.of_nat (length l) * (spc * bps))) as HBn.
  { rewrite HBl. pose proof (length_content fs d l G Hl) as E. destruct (cluster_size_eq fs d G) as [Ecs _].
    rewrite Ecs in E. lia. }
  pose proof (lookup_lt_Some _ _ _ Hk) as Hkl.
  destruct (cluster_size_eq fs d G) as [Ecs Hcs]. rewrite Ecs in *.
  assert (512 ≤ bps ≤ 4096) as Hbps by (destruct G; lia). assert (1 ≤ spc ≤ 128) as Hspc by (destruct G; lia).
  unfold write_cluster. cbv zeta. rewrite (cluster_to_lba_eq fs d) by done.
  pose proof (Z.div_mod skip bps ltac:(lia)) as Hdm. pose proof (Z.mod_pos_bound skip bps ltac:(lia)) as Hmb.
  pose proof (Z.div_pos skip bps ltac:(lia) ltac:(lia)) as Hdp.
  assert (skip / bps < spc) as Hss by (apply Z.div_lt_upper_bound; lia).
  rewrite (u32_small (skip / bps)), (u32_small (skip mod bps)) by lia.
  set (ss := skip / bps) in *. set (sb := skip mod bps) in *. set (len := Z.of_nat (length buf)) in *.
  apply (wpe_while _ _ (λ st d', filled d d' l (splice B (Z.to_nat p) (take (Z.to_nat st.2) buf)) ∧ 0 ≤ st.1 ≤ spc ∧
    0 ≤ st.2 < len ∧ if decide (st.1 ≤ ss) then st.2 = done
    else p + st.2 = (Z.of_nat k * spc + st.1) * bps) (λ st _, spc - st.1)).
  - simpl. split; [rewrite <-HB; by apply filled_refl|]. split_and!; [lia|lia|lia|lia|]. by rewrite decide_True by lia.
  - simpl. lia.
  - intros [s dn] d1 (Hf & Hs & Hdt & Hcase). simpl in Hf, Hs, Hdt, Hcase. pose proof (fi_geom _ _ _ _ Hf) as G1.
    destruct (Z.ltb_spec s spc) as [Hlt|Hge].
    2:{ rewrite decide_False in Hcase by lia. assert (s = spc) as -> by lia. we_steps. apply HQ; [lia|done]. }
    destruct (Z.ltb_spec s ss) as [Hlt'|Hge'].
    { we_steps. split; [|simpl; lia]. split; [done|]. simpl. split; [lia|]. split; [lia|].
      rewrite decide_True in Hcase by lia. by rewrite decide_True by lia. }
    destruct (Z.ltb_spec FAT32_MAX_SECTOR bps) as [Hm|_]; [unfold FAT32_MAX_SECTOR in Hm; lia|].
    destruct (cluster_lba_range fs d1 c s G1 Hc ltac:(lia)) as [Hv Hr]. rewrite u64_small by lia.
    we_steps. apply (wpe_read_sec fs); [done|done|]. destruct (sec_good fs d1 _ G1 Hv) as (_ & Hsl & Hsb). we_steps.
    set (off := if s =? ss then sb else 0).
    assert (0 ≤ off < bps ∧ p + dn = (Z.of_nat k * spc + s) * bps + off) as [Hoff Hat].
    { unfold off. destruct (Z.eqb_spec s ss) as [->|Hne].
      - rewrite decide_True in Hcase by lia. subst dn. split; [lia|]. rewrite Hpos. lia.
      - rewrite decide_False in Hcase by lia. lia. }
    rewrite (u32_small (bps - off)) by lia.
    set (n := if len - dn <? bps - off then len - dn else bps - off).
    assert (n = Z.min (len - dn) (bps - off)) as En.
    { unfold n. destruct (Z.ltb_spec (len - dn) (bps - off)); lia. }
    set (b := slice buf (Z.to_nat dn) (Z.to_nat n)).
    assert (Z.of_nat (length b) = n) as Hbl by (unfold b, slice; rewrite length_take, length_drop; lia).
    assert (bytes b) as Hbb by (by apply bytes_take, bytes_drop).
    eapply wpe_need; [apply put_bytes_in; lia|]. we_steps.
    apply (wpe_write_sec fs); [done|done|rewrite length_splice; lia|by apply bytes_splice|]. intros d2 Hst. we_steps.
    assert (take (Z.to_nat dn) buf ++ b = take (Z.to_nat (dn + n)) buf) as Etk.
    { unfold b, slice. rewrite take_take_drop. f_equal. lia. }
    assert (filled d d2 l (splice B (Z.to_nat p) (take (Z.to_nat (dn + n)) buf))) as Hf2.
    { split; [apply Hst| | |].
      - intros x Hx. rewrite (sec_step_fat fs d1 d2 _ _ x G1 Hst) by (done || lia). by apply Hf.
      - rewrite (content_update d1 d2 l k c s off b G1 Hl Hnd Hk) by (done || lia).
        rewrite (fi_in _ _ _ _ Hf), <-Hat, <-Etk.
        assert (length (take (Z.to_nat dn) buf) = Z.to_nat dn) as Htl by (rewrite length_take; lia).
        rewrite <-splice_splice; [f_equal; lia|]. rewrite Htl, HBn.
        pose proof (sector_fits (Z.of_nat k) (Z.of_nat (length l)) spc s bps ltac:(lia) ltac:(lia) ltac:(lia)). lia.
      - intros j Hj Hjl. rewrite (ss_out _ _ _ _ _ Hst); [by apply Hf|]. intros ->. apply Hjl, elem_of_lbas.
        exists c, s. split; [by eapply list_elem_of_lookup_2|]. split; [lia|done]. }
    destruct (Z.eqb_spec (len - dn - n) 0) as [Ez|Ez]; we_steps.
    + apply HQ; [|done]. pose proof (sector_fits (Z.of_nat k) (Z.of_nat k + 1) spc s bps ltac:(lia) ltac:(lia) ltac:(lia)). lia.
    + split; [|simpl; lia]. split; [done|]. simpl. split; [lia|]. split; [lia|]. rewrite decide_False by lia. lia.
Qed.
End write.

(** * FAT32: writing along a chain that grows

    The loops of [fat32_write]: they follow the chain of the file and append
    clusters where it ends. *)

Section grow.
Context {D : Type} `{BlockDeviceLaws D}.
Context (fs : fat32_fs).
Implicit Types d : D.

Abbreviation bps := (bytes_per_sector fs).
Abbreviation spc := (sectors_per_cluster fs).
Abbreviation lbas := (lbas fs).
Abbreviation content := (content fs).
Abbreviation cs := (cluster_size fs).

(** No cluster is free. *)
Definition full d : Prop := ∀ x, valid fs x → fat fs d x ≠ 0.

(** [d] is [d0] with the chain [l] from [c] grown to [l'] by free clusters and
    the bytes [b] put at [p] of it. *)
Record grown d0 d (c : Z) (l l' : list Z) (p : Z) (b : list Z) : Prop := {
  gw_geom : geom fs d;
  gw_chain : chain fs (fat fs d) c l';
  gw_new : ∃ new, l' = l ++ new ∧ Forall (λ x, valid fs x ∧ fat fs d0 x = 0) new;
  gw_fat x : valid fs x → x ∉ l' → fat fs d x = fat fs d0 x;
  gw_content : content d l' =
    splice (content d0 l ++ replicate ((length l' - length l) * Z.to_nat cs) 0) (Z.to_nat p) b;
  gw_out j : data_lba fs ≤ j → j ∉ lbas l' → sec d j = sec d0 j
}.

Lemma grown_refl d c l p : geom fs d → chain fs (fat fs d) c l → grown d d c l l p [].
Proof.
  intros G Hch. split; [done|done| |done| |done].
  - exists []. by rewrite app_nil_r.
  - by rewrite splice_nil, Nat.sub_diag, app_nil_r.
Qed.

Lemma chain_used d c l x : geom fs d → chain fs (fat fs d) c l → x ∈ l → fat fs d x ≠ 0.
Proof.
  intros G Hch (k & Hk)%list_elem_of_lookup_1. destruct (chain_at fs _ _ _ _ _ Hch Hk) as [_ Hn].
  destruct (l !! S k); [destruct Hn as [-> [??]]; lia|unfold END_OF_CHAIN in Hn; lia].
Qed.

Lemma content_app d l m : content d (l ++ m) = content d l ++ content d m.
Proof. unfold FatRead.content. by rewrite lbas_app, fmap_app, join_app. Qed.

(** The contents depend on the sectors of the clusters alone. *)
Lemma content_ext d d' l : (∀ j, j ∈ lbas l → sec d' j = sec d j) → content d' l = content d l.
Proof. intros E. unfold FatRead.content. f_equal. apply list_fmap_ext. intros i x Hx. apply E. by eapply list_elem_of_lookup_2. Qed.

Lemma lbas_data d l j : geom fs d → all_valid fs l → j ∈ lbas l → data_lba fs ≤ j.
Proof.
  intros G Hl (c & s & Hc & Hs & ->)%elem_of_lbas. unfold all_valid in Hl. rewrite Forall_forall in Hl.
  destruct (cluster_lba_range fs d c s G (Hl c Hc) Hs) as [_ ?]. lia.
Qed.

Lemma join_replicate {A} (x : A) n m : mjoin (replicate n (replicate m x)) = replicate (n * m) x.
Proof.
  induction n as [|n IH]; [done|]. change (replicate m x ++ mjoin (replicate n (replicate m x)) = replicate (S n * m) x).
  rewrite IH, <-replicate_add. done.
Qed.

Lemma content_zero d c : geom fs d → (∀ s, 0 ≤ s < spc → sec d (cluster_lba fs c + s) = replicate (Z.to_nat bps) 0) →
  content d [c] = replicate (Z.to_nat cs) 0.
Proof.
  intros G Hz. assert (1 ≤ spc ∧ 512 ≤ bps) as [Hs Hb] by (destruct G; lia).
  transitivity (mjoin (replicate (Z.to_nat spc) (replicate (Z.to_nat bps) 0))).
  - unfold FatRead.content. f_equal. apply list_eq. intros i. rewrite list_lookup_fmap. unfold FatRead.lbas. simpl.
    rewrite app_nil_r. destruct (decide (i < Z.to_nat spc)%nat) as [Hi|Hi].
    + rewrite lookup_seqZ_lt, lookup_replicate_2 by lia. simpl. rewrite Hz by lia. done.
    + rewrite lookup_seqZ_ge by lia. symmetry. apply lookup_ge_None. rewrite length_replicate. lia.
  - rewrite join_replicate. f_equal. destruct (cluster_size_eq fs d G) as [-> _]. lia.
Qed.

Lemma elem_of_lbas_cluster c s l : 0 ≤ s < spc → cluster_lba fs c + s ∈ lbas l ↔ c ∈ l.
Proof.
  intros Hs. rewrite elem_of_lbas. split.
  - intros (c' & s' & Hc & Hs' & E). by destruct (cluster_lba_inj fs c c' s s') as [-> _].
  - intros Hc. by exists c, s.
Qed.

Lemma grown_alloc d0 d d' c l l' x n p b :
  geom fs d0 → geom fs d → all_valid fs l → grown d0 d c l (l' ++ [x]) p b →
  (b = [] ∨ 0 ≤ p ∧ p + Z.of_nat (length b) ≤ Z.of_nat (length (l' ++ [x])) * cs) →
  allocated fs d d' x n → grown d0 d' c l (l' ++ [x; n]) p b.
Proof.
  intros G0 G Hch0 [_ Hch [new [Enew Hnew]] Hfat Hct Hout] Hb [Hn Hfree G' Hf' Hin' Hout'].
  pose proof (g_clusters _ _ G) as [Hc1 Hc2].
  assert (n ∉ l' ++ [x]) as Hnl by (intros Hin; by apply (chain_used d _ _ n G Hch)).
  assert (all_valid fs (l' ++ [x])) as Hav by (by eapply chain_all_valid).
  assert (l' ++ [x; n] = (l' ++ [x]) ++ [n]) as El by (by rewrite <-app_assoc).
  split; [done| | | | |].
  - eapply fat_chain_ext; [|apply (chain_extend fs Hc2 (fat fs d) c l' x n Hch Hn Hnl)].
    intros y Hy. apply Hf'. rewrite El in Hy. apply elem_of_app in Hy as [Hy|Hy%list_elem_of_singleton]; [|by subst].
    unfold all_valid in Hav. rewrite Forall_forall in Hav. by apply Hav.
  - exists (new ++ [n]). rewrite El, Enew, <-app_assoc. split; [done|]. apply Forall_app. split; [done|].
    constructor; [|constructor]. split; [done|]. by rewrite <-Hfat.
  - intros y Hy Hyl. rewrite Hf' by done. rewrite !decide_False by set_solver. apply Hfat; set_solver.
  - rewrite El, content_app, (content_zero d' n G' Hin').
    rewrite (content_ext d d').
    2:{ intros j Hj. apply Hout'; [by eapply (lbas_data d)|]. intros s Hs ->. by apply Hnl, (elem_of_lbas_cluster n s). }
    rewrite Hct, Enew, !length_app. replace (length l + length new + length [n] - length l)%nat with (length new + 1)%nat by (simpl; lia).
    replace (length l + length new - length l)%nat with (length new) by lia.
    rewrite Nat.mul_add_distr_r, Nat.mul_1_l, replicate_add, app_assoc. symmetry. apply splice_app_l.
    destruct Hb as [->|[Hp Hb]]; [by left|]. right. rewrite length_app, length_replicate.
    pose proof (length_content fs d0 l G0 Hch0) as Hl0. destruct (cluster_size_eq fs d G) as [Ecs Hcs].
    rewrite <-Ecs in Hcs. clear Ecs. rewrite Enew, length_app in Hb. nia.
  - intros j Hj Hjl. rewrite El, lbas_app in Hjl. rewrite Hout'; [apply Hout; set_solver|done|].
    intros s Hs ->. apply Hjl, elem_of_app. right. apply elem_of_lbas_cluster; [done|]. set_solver.
Qed.

Lemma grown_filled d0 d d' c l l' p b b' :
  geom fs d → grown d0 d c l l' p b →
  filled fs d d' l' (splice (content d0 l ++ replicate ((length l' - length l) * Z.to_nat cs) 0) (Z.to_nat p) b') →
  grown d0 d' c l l' p b'.
Proof.
  intros G [_ Hch Hnew Hfat Hct Hout] [G' Hf' Hin' Hout'].
  split; [done| |done| |done|].
  - eapply fat_chain_ext; [|done]. intros x Hx. apply Hf'. by eapply chain_valid.
  - intros x Hx Hxl. rewrite Hf' by done. by apply Hfat.
  - intros j Hj Hjl. rewrite Hout' by done. by apply Hout.
Qed.

(** [alloc_link] at the end of the chain. *)
Lemma wpe_alloc_end d0 d c l l' x p b (Q : option Z → D → Prop) (R : D → Prop) :
  geom fs d0 → all_valid fs l → grown d0 d c l (l' ++ [x]) p b →
  (b = [] ∨ 0 ≤ p ∧ p + Z.of_nat (length b) ≤ Z.of_nat (length (l' ++ [x])) * cs) →
  (∀ n d', grown d0 d' c l (l' ++ [x; n]) p b → Q (Some n) d') →
  (full d → Q None d) →
  wpe (alloc_link fs x) Q R d.
Proof.
  intros G0 Hch0 Hg Hb HQ HQ0. pose proof (gw_geom _ _ _ _ _ _ _ Hg) as G. pose proof (gw_chain _ _ _ _ _ _ _ Hg) as Hch.
  assert (x ∈ l' ++ [x]) as Hx by set_solver.
  unfold alloc_link. we_steps. apply (wpe_alloc fs); [done| | |].
  - right. split; [by eapply chain_valid|by eapply chain_used].
  - intros n d' Ha _. destruct (Z.eqb_spec n 0) as [->|_]; we_steps; [destruct (al_valid _ _ _ _ _ Ha); lia|].
    apply HQ. by eapply grown_alloc.
  - intros Hf. we_steps. by apply HQ0.
Qed.

(** Going to the position. *)
Lemma wpe_skip_write d0 d1 c l l1 p (Q : (Z * Z * Z * Z) + unit → D → Prop) (R : D → Prop) :
  geom fs d0 → all_valid fs l → grown d0 d1 c l l1 p [] → l1 ≠ [] → 0 ≤ p →
  (∀ d l' k x prev skip, grown d0 d c l l' p [] → l' !! k = Some x → 0 ≤ skip < cs →
     p = Z.of_nat k * cs + skip → Q (inl (prev, x, skip, Z.of_nat k)) d) →
  (∀ d l', grown d0 d c l l' p [] → full d → Q (inr tt) d) →
  wpe (skip_write fs c p) Q R d1.
Proof.
  intros G0 Hch0 Hg1 Hne Hp HQ HQ0. destruct (cluster_size_eq fs d0 G0) as [Ecs Hcs]. rewrite <-Ecs in Hcs. clear Ecs.
  pose proof (g_clusters _ _ G0) as [Hc1 Hc2].
  unfold skip_write. rewrite (step_limit fs d0 G0).
  apply (wpe_while _ _ (λ st d, ∃ l' (k : nat), grown d0 d c l l' p [] ∧ l' !! k = Some st.1.1.2 ∧ 0 ≤ st.1.2 ∧
    p = Z.of_nat k * cs + st.1.2 ∧ st.2 = Z.of_nat k) (λ st _, total_clusters fs - st.2)).
  - exists l1, 0%nat. simpl. split_and!; [done| |lia|lia|done]. pose proof (gw_chain _ _ _ _ _ _ _ Hg1) as Hch1.
    destruct l1 as [|x l1]; [done|]. by destruct Hch1 as (-> & _).
  - simpl. unfold END_OF_CHAIN in *. lia.
  - intros [[[prev x] skip] steps] d (l' & k & Hg & Hk & Hskip & Hpk & Hst). simpl in Hk, Hskip, Hpk, Hst. subst steps.
    destruct (Z.leb_spec cs skip) as [Hle|Hlt]; [|we_steps; by eapply HQ].
    pose proof (gw_geom _ _ _ _ _ _ _ Hg) as G. pose proof (gw_chain _ _ _ _ _ _ _ Hg) as Hch.
    pose proof (chain_length fs Hc2 _ _ _ ltac:(lia) Hch) as Hlen.
    pose proof (lookup_lt_Some _ _ _ Hk) as Hkl. destruct (Z.leb_spec (total_clusters fs + 1) (Z.of_nat k)); [lia|].
    destruct (chain_at fs _ _ _ _ _ Hch Hk) as [Hv Hnext].
    rewrite (u32_small (Z.of_nat k + 1)) by (unfold END_OF_CHAIN in *; lia).
    we_steps. apply (wpe_read_fat fs); [done|done|]. destruct (l' !! S k) as [y|] eqn:Hy.
    + destruct Hnext as [-> Hyv]. pose proof (valid_end fs Hc2 y Hyv). destruct (Z.leb_spec END_OF_CHAIN y); [lia|].
      pose proof (lookup_lt_Some _ _ _ Hy). we_steps. split; [|simpl; lia]. exists l', (S k). simpl. split_and!; [done|done|lia|lia|lia].
    + clear l1 Hg1 Hne. destruct (Z.leb_spec END_OF_CHAIN (fat fs d x)); [|lia]. apply lookup_ge_None in Hy.
      assert (∃ l1, l' = l1 ++ [x] ∧ length l1 = k) as (l1 & -> & Hl1).
      { exists (take k l'). split; [|rewrite length_take; lia]. rewrite <-(take_drop_middle l' k x Hk) at 1. by rewrite drop_ge. }
      we_steps. apply (wpe_alloc_end d0 d c l l1 x p []); [done|done|done|by left| |].
      * intros n d' Hg'. pose proof (gw_chain _ _ _ _ _ _ _ Hg') as Hch'.
        pose proof (chain_length fs Hc2 _ _ _ ltac:(lia) Hch') as Hlen'. rewrite length_app in Hlen'. simpl in Hlen'.
        we_steps. split; [|simpl; lia]. exists (l1 ++ [x; n]), (S k). simpl. split_and!; [done| |lia|lia|lia].
        rewrite lookup_app_r by lia. by replace (S k - length l1)%nat with 1%nat by lia.
      * intros Hf. we_steps. by eapply HQ0.
Qed.

(** Writing from there on. *)
Lemma wpe_write_chain d0 d c l l' k x prev skip p buf (Q : Z + Z → D → Prop) (R : D → Prop) :
  geom fs d0 → all_valid fs l → bytes buf → buf ≠ [] → 0 ≤ p →
  grown d0 d c l l' p [] → l' !! k = Some x → 0 ≤ skip < cs → p = Z.of_nat k * cs + skip →
  (∀ d' l2 n, grown d0 d' c l l2 p (take (Z.to_nat n) buf) → 0 < n ≤ Z.of_nat (length buf) →
     p + n ≤ Z.of_nat (length l2) * cs → n = Z.of_nat (length buf) ∨ full d' → Q (inl n) d') →
  wpe (write_chain fs buf prev x skip (Z.of_nat k)) Q R d.
Proof.
  intros G0 Hch0 Hbuf Hne Hp Hg Hk Hskip Hpk HQ. destruct (cluster_size_eq fs d0 G0) as [Ecs Hcs].
  rewrite <-Ecs in Hcs. clear Ecs. pose proof (g_clusters _ _ G0) as [Hc1 Hc2].
  unfold write_chain. cbv zeta. rewrite (step_limit fs d0 G0). set (len := Z.of_nat (length buf)) in *.
  assert (0 < len) as Hlen by (destruct buf; [done|simpl in len; lia]).
  apply (wpe_while _ _ (λ st d, let '(prev, x, skip, steps, n) := st in ∃ l' (k : nat),
    grown d0 d c l l' p (take (Z.to_nat n) buf) ∧ steps = Z.of_nat k ∧ 0 ≤ skip < cs ∧
    0 ≤ n < len ∧ p + n = Z.of_nat k * cs + skip ∧
    (l' !! k = Some x ∨ ∃ l1, l' = l1 ++ [prev] ∧ length l' = k ∧ END_OF_CHAIN ≤ x ∧ skip = 0 ∧ 0 < n))
    (λ st _, total_clusters fs + 1 - st.1.2)).
  - exists l', k. split_and!; [by rewrite take_0|done|lia|lia|lia|lia|lia|by left].
  - simpl. pose proof (lookup_lt_Some _ _ _ Hk).
    pose proof (chain_length fs Hc2 _ _ _ ltac:(lia) (gw_chain _ _ _ _ _ _ _ Hg)). unfold END_OF_CHAIN in *. lia.
  - clear d l' k x prev skip Hg Hk Hskip Hpk.
    intros [[[[prev x] skip] steps] n] d (l' & k & Hg & -> & Hskip & Hn & Hpk & Hcase).
    destruct (Z.ltb_spec n len); [|lia].
    pose proof (gw_geom _ _ _ _ _ _ _ Hg) as G. pose proof (gw_chain _ _ _ _ _ _ _ Hg) as Hch.
    pose proof (chain_length fs Hc2 _ _ _ ltac:(lia) Hch) as Hll.
    assert (k ≤ length l')%nat as Hkl.
    { destruct Hcase as [Hx%lookup_lt_Some|(? & _ & ? & _)]; lia. }
    destruct (Z.leb_spec (total_clusters fs + 1) (Z.of_nat k)); [lia|].
    assert (Z.of_nat (length (take (Z.to_nat n) buf)) = n) as Htk by (rewrite length_take; lia).
    we_steps.
    apply (wpe_mono _ (λ t d1, match t with
      | Some y => ∃ l2, grown d0 d1 c l l2 p (take (Z.to_nat n) buf) ∧ l2 !! k = Some y
      | None => full d1 ∧ d1 = d ∧ 0 < n ∧ p + n ≤ Z.of_nat (length l') * cs end) _ (λ _, False)); [| |done].
    { destruct Hcase as [Hx|(l1 & -> & Hk & Hend & -> & Hn0)].
      - pose proof (valid_end fs Hc2 x (chain_valid fs _ _ _ x Hch ltac:(by eapply list_elem_of_lookup_2))).
        destruct (Z.leb_spec END_OF_CHAIN x); [lia|]. we_steps. by exists l'.
      - destruct (Z.leb_spec END_OF_CHAIN x); [|lia].
        apply (wpe_alloc_end d0 d c l l1 prev p (take (Z.to_nat n) buf)); [done|done|done|right; split; [done|rewrite Htk; lia]| |].
        + intros y d1 Hg1. exists (l1 ++ [prev; y]). split; [done|]. rewrite length_app in Hk. simpl in Hk.
          rewrite lookup_app_r by lia. by replace (k - length l1)%nat with 1%nat by lia.
        + intros Hf. split_and!; [done|done|lia|lia]. }
    intros [y|] d1; [intros (l2 & Hg1 & Hy)|intros (Hf & -> & Hn0 & Hfit); we_steps; apply (HQ _ l'); [done|lia|done|by right]].
    clear Hcase Hkl Hg Hch Hll G. pose proof (gw_geom _ _ _ _ _ _ _ Hg1) as G. pose proof (gw_chain _ _ _ _ _ _ _ Hg1) as Hch.
    pose proof (chain_length fs Hc2 _ _ _ ltac:(lia) Hch) as Hll. pose proof (lookup_lt_Some _ _ _ Hy) as Hkl.
    pose proof (chain_all_valid fs _ _ _ Hch) as Hav. pose proof (chain_NoDup fs Hc2 _ _ _ Hch) as Hnd.
    destruct (gw_new _ _ _ _ _ _ _ Hg1) as (new & Enew & _).
    assert (length (content d0 l ++ replicate ((length l2 - length l) * Z.to_nat cs) 0) = length (content d1 l2)) as HB.
    { pose proof (length_content fs d1 l2 G Hav) as E1.
      pose proof (length_content fs d0 l G0 Hch0) as E0.
      rewrite length_app, length_replicate. rewrite Enew, length_app in E1 |- *. rewrite Nat.add_sub' in *. nia. }
    we_steps. eapply (wpe_write_cluster fs d1 l2 k y p buf skip n); [done|done|done|done|done|done|exact HB|apply Hg1|done|done|done|].
    intros d2 n' Hn' Hf2. pose proof (grown_filled _ _ _ _ _ _ _ _ _ G Hg1 Hf2) as Hg2. we_steps.
    assert (n < n') as Hnn by nia. assert (p + n' ≤ Z.of_nat (length l2) * cs) as Hfit by nia.
    destruct (Z.eqb_spec n' len) as [E|E]; we_steps; [apply (HQ _ l2); [done|lia|done|by left]|].
    destruct (chain_at fs _ _ _ _ _ (gw_chain _ _ _ _ _ _ _ Hg2) Hy) as [Hv Hnext].
    rewrite u32_small by (unfold END_OF_CHAIN in *; lia). apply (wpe_read_fat fs); [apply Hg2|done|].
    split; [|simpl; lia]. exists l2, (S k). split; [done|]. split; [lia|]. split; [lia|]. split; [lia|]. split; [lia|].
    destruct (l2 !! S k) as [z|] eqn:Hz; [left; by destruct Hnext as [-> _]|]. right. apply lookup_ge_None in Hz.
    exists (take k l2). split; [|split; [lia|split; [done|split; [done|lia]]]].
    rewrite <-(take_drop_middle l2 k y Hy) at 1. by rewrite drop_ge.
Qed.
End grow.
