(* ===== verification/FatEntry.v ===== *)
(** * FAT32: the directory entry of a file

    An entry is 32 bytes of a directory cluster; the update functions of the
    code change fields of it and nothing else. *)

From S2P Require Import Prelude Ring Loops Codec Part Fat32 FatVol FatRead FatWrite.

Lemma slice_splice_at {A} (l b : list A) off n : length b = n → (off + n ≤ length l)%nat → slice (splice l off b) off n = b.
Proof. intros <-. apply slice_splice_eq. Qed.

Section entry.
Context {D : Type} `{BlockDeviceLaws D}.
Context (fs : fat32_fs).
Implicit Types d : D.

Abbreviation bps := (bytes_per_sector fs).
Abbreviation spc := (sectors_per_cluster fs).
Abbreviation lbas := (lbas fs).
Abbreviation content := (content fs).
Abbreviation cs := (cluster_size fs).

(** The place of an entry. *)
Record entry_place (dc off : Z) : Prop := {
  ep_valid : valid fs dc;
  ep_off : 0 ≤ off;
  ep_fit : off + 32 ≤ cs;
  ep_align : off mod 32 = 0
}.

Definition entry d (dc off : Z) : list Z := zslice (content d [dc]) off 32.

Definition e_size (e : list Z) : Z := le_val (slice e 28 4).
Definition e_cluster (e : list Z) : Z := Z.lor (Z.shiftl (le_val (slice e 20 2)) 16) (le_val (slice e 26 2)).

(** An entry lies in one sector. *)
Lemma entry_split d dc off : geom fs d → entry_place dc off →
  0 ≤ off / bps < spc ∧ 0 ≤ off mod bps ∧ off mod bps + 32 ≤ bps ∧
  off = (0 * spc + off / bps) * bps + off mod bps.
Proof.
  intros G [Hv Ho Hf Ha]. destruct (cluster_size_eq fs d G) as [Ecs _]. rewrite Ecs in Hf.
  assert (512 ≤ bps ∧ 1 ≤ spc ∧ bps mod 32 = 0) as (Hb & Hs & Hba) by (destruct G; lia).
  pose proof (Z.div_mod off bps ltac:(lia)) as Hdm. pose proof (Z.mod_pos_bound off bps ltac:(lia)) as Hm.
  assert (off / bps < spc) by (apply Z.div_lt_upper_bound; lia).
  pose proof (Z.div_pos off bps Ho ltac:(lia)).
  assert ((off mod bps) mod 32 = 0) as Hmm.
  { rewrite Hdm in Ha. pose proof (Z.div_mod bps 32 ltac:(lia)) as Hd. rewrite Hba in Hd.
    replace (bps * (off / bps) + off mod bps) with (off mod bps + bps / 32 * (off / bps) * 32) in Ha by nia.
    by rewrite Z.mod_add in Ha by lia. }
  assert (off mod bps + 32 ≤ bps).
  { pose proof (Z.div_mod bps 32 ltac:(lia)). pose proof (Z.div_mod (off mod bps) 32 ltac:(lia)). nia. }
  lia.
Qed.

Lemma valid_one c : valid fs c → all_valid fs [c].
Proof. intros Hc. by constructor. Qed.

Lemma length_entry d dc off : geom fs d → entry_place dc off → length (entry d dc off) = 32%nat.
Proof.
  intros G [Hv Ho Hf _]. unfold entry. pose proof (length_content fs d [dc] G (valid_one dc Hv)) as Hl.
  pose proof (length_zslice (content d [dc]) off 32 Ho ltac:(lia)) as Hz. simpl length in Hl. lia.
Qed.

Lemma entry_sector d dc off : geom fs d → entry_place dc off →
  slice (sec d (cluster_lba fs dc + off / bps)) (Z.to_nat (off mod bps)) 32 = entry d dc off.
Proof.
  intros G Hp. destruct (entry_split d dc off G Hp) as (Hs & Hm & Hm32 & Eo). destruct Hp as [Hv Ho Hf _].
  rewrite (content_sector fs d [dc] 0 dc (off / bps) G (valid_one dc Hv) eq_refl Hs). unfold entry.
  change 32%nat with (Z.to_nat 32). fold (zslice (zslice (content d [dc]) ((Z.of_nat 0 * spc + off / bps) * bps) bps) (off mod bps) 32).
  change (Z.of_nat 0) with 0. assert (512 ≤ bps) by (destruct G; lia). rewrite zslice_zslice; [by rewrite <-Eo|nia|lia..].
Qed.

(** [d'] is [d] with the entry replaced by [e]. *)
Definition entry_step d d' (dc off : Z) (e : list Z) : Prop :=
  filled fs d d' [dc] (splice (content d [dc]) (Z.to_nat off) e).

Lemma entry_step_in d d' dc off e : geom fs d → entry_place dc off → length e = 32%nat →
  entry_step d d' dc off e → entry d' dc off = e.
Proof.
  intros G Hp He Hst. destruct Hp as [Hv Ho Hf _]. unfold entry, zslice. rewrite (fi_in _ _ _ _ _ Hst).
  pose proof (length_content fs d [dc] G (valid_one dc Hv)) as Hl. simpl length in Hl.
  apply slice_splice_at; [done|]. change (Z.to_nat 32) with 32%nat. lia.
Qed.

Lemma wpe_update_entry d dc off g e (Q : unit → D → Prop) (R : D → Prop) :
  geom fs d → entry_place dc off → length e = 32%nat → bytes e →
  (∀ l, Z.of_nat (length l) = bps → slice l (Z.to_nat (off mod bps)) 32 = entry d dc off →
     g l = Some (splice l (Z.to_nat (off mod bps)) e)) →
  (∀ d', entry_step d d' dc off e → Q tt d') →
  wpe (update_sector fs (entry_lba fs dc off) g) Q R d.
Proof.
  intros G Hp He Hb Hg HQ. destruct (entry_split d dc off G Hp) as (Hs & Hm & Hm32 & Eo).
  pose proof (ep_valid _ _ Hp) as Hv. destruct (cluster_lba_range fs d dc (off / bps) G Hv Hs) as [Hon Hr].
  destruct (sec_good fs d _ G Hon) as (_ & Hl & Hlb).
  assert (bps ≤ FAT32_MAX_SECTOR) by (destruct G; unfold FAT32_MAX_SECTOR; lia).
  unfold update_sector. destruct (Z.ltb_spec FAT32_MAX_SECTOR bps); [lia|].
  unfold entry_lba. rewrite (cluster_to_lba_eq fs d) by done. rewrite u64_small by lia.
  we_steps. apply (wpe_read_sec fs); [done|done|]. we_steps.
  eapply wpe_need; [apply Hg; [done|by apply entry_sector]|]. we_steps.
  assert (Z.to_nat (off mod bps) + length e ≤ length (sec d (cluster_lba fs dc + off / bps)))%nat as Hfit by lia.
  apply (wpe_write_sec fs); [done|done|rewrite length_splice; done|by apply bytes_splice|].
  intros d' Hst. apply HQ. split; [apply Hst| | |].
  - intros x Hx. apply (sec_step_fat fs d d' _ _ x G Hst); [lia|done].
  - rewrite (content_update fs d d' [dc] 0 dc (off / bps) (off mod bps) e G (valid_one dc Hv) (NoDup_singleton dc) eq_refl) by (done || lia).
    change (Z.of_nat 0) with 0. by rewrite <-Eo.
  - intros j Hj Hjl. apply Hst. intros ->. apply Hjl, elem_of_lbas. exists dc, (off / bps).
    split; [by apply list_elem_of_singleton|done].
Qed.

Lemma bytes_entry d dc off : geom fs d → entry_place dc off → bytes (entry d dc off).
Proof.
  intros G Hp. rewrite <-(entry_sector d dc off G Hp). apply bytes_take, bytes_drop.
  destruct (entry_split d dc off G Hp) as (Hs & _). apply (sec_good fs d); [done|].
  by apply (cluster_lba_range fs d dc _ G (ep_valid _ _ Hp)).
Qed.

(** ** The fields *)

Definition with_size (e : list Z) (n : Z) : list Z := splice e 28 (le_bytes 4 n).
Definition with_cluster (e : list Z) (c : Z) : list Z :=
  splice (splice e 20 (le_bytes 2 (Z.land (Z.shiftr c 16) 0xFFFF))) 26 (le_bytes 2 (Z.land c 0xFFFF)).

Lemma wpe_update_size d dc off n (Q : unit → D → Prop) (R : D → Prop) :
  geom fs d → entry_place dc off →
  (∀ d', entry_step d d' dc off (with_size (entry d dc off) n) → Q tt d') →
  wpe (update_dir_entry_size fs dc off n) Q R d.
Proof.
  intros G Hp HQ. pose proof (length_entry d dc off G Hp) as Hl. destruct (entry_split d dc off G Hp) as (Hs & Hm & Hm32 & _).
  eapply wpe_update_entry; [done|done| | | |exact HQ].
  - unfold with_size. rewrite length_splice; [done|]. rewrite length_le_bytes. lia.
  - apply bytes_splice; [by apply bytes_entry|apply bytes_le_bytes].
  - intros l Hll El. unfold put_le. rewrite put_bytes_in by (rewrite ?length_le_bytes; lia). f_equal.
    unfold with_size. rewrite <-El, splice_slice; [f_equal; lia|lia|rewrite length_le_bytes; lia].
Qed.

Lemma wpe_update_cluster d dc off c (Q : unit → D → Prop) (R : D → Prop) :
  geom fs d → entry_place dc off →
  (∀ d', entry_step d d' dc off (with_cluster (entry d dc off) c) → Q tt d') →
  wpe (update_dir_entry_cluster fs dc off c) Q R d.
Proof.
  intros G Hp HQ. pose proof (length_entry d dc off G Hp) as Hl. destruct (entry_split d dc off G Hp) as (Hs & Hm & Hm32 & _).
  eapply wpe_update_entry; [done|done| | | |exact HQ].
  - unfold with_cluster. rewrite !length_splice; [done|..]; rewrite ?length_splice; rewrite ?length_le_bytes; lia.
  - repeat apply bytes_splice; try apply bytes_le_bytes. by apply bytes_entry.
  - intros l Hll El. unfold put_cluster, put_le. set (b1 := le_bytes 2 (Z.land (Z.shiftr c 16) 0xFFFF)). set (b2 := le_bytes 2 (Z.land c 0xFFFF)).
    assert (length b1 = 2%nat) as Hb1 by apply length_le_bytes. assert (length b2 = 2%nat) as Hb2 by apply length_le_bytes.
    rewrite put_bytes_in by lia. simpl.
    rewrite put_bytes_in by (rewrite ?length_splice; lia). f_equal. unfold with_cluster. fold b1 b2. rewrite <-El.
    set (a := Z.to_nat (off mod bps)) in *. assert (length (slice l a 32) = 32%nat) as Hsl by (by rewrite El).
    assert (length (splice (slice l a 32) 20 b1) = 32%nat) as Hsl1 by (rewrite length_splice; lia).
    apply list_eq. intros i. rewrite !lookup_splice; rewrite ?length_splice; try lia.
    rewrite ?Hsl1, ?Hsl, lookup_slice.
    replace (Z.to_nat (off mod bps + 26)) with (a + 26)%nat by (unfold a; lia).
    replace (Z.to_nat (off mod bps + 20)) with (a + 20)%nat by (unfold a; lia).
    repeat case_decide; try lia; f_equal; lia.
Qed.

Lemma take_splice {A} (l b : list A) off n : (n ≤ off)%nat → (off ≤ length l)%nat → take n (splice l off b) = take n l.
Proof.
  intros Hn Ho. unfold splice. rewrite take_app_le by (rewrite length_take; lia). by rewrite take_take, Nat.min_l.
Qed.
Lemma name_with_size e n : length e = 32%nat → take 20 (with_size e n) = take 20 e.
Proof. intros He. apply take_splice; lia. Qed.
Lemma name_with_cluster e c : length e = 32%nat → take 20 (with_cluster e c) = take 20 e.
Proof.
  intros He. unfold with_cluster. rewrite take_splice; [apply take_splice; lia|lia|].
  rewrite length_splice; rewrite ?length_le_bytes; lia.
Qed.

Lemma size_with_size e n : length e = 32%nat → 0 ≤ n < 2 ^ 32 → e_size (with_size e n) = n.
Proof.
  intros He Hn. unfold e_size, with_size. rewrite slice_splice_at; [by apply le_val_bytes|apply length_le_bytes|lia].
Qed.

Lemma cluster_with_size e n : length e = 32%nat → e_cluster (with_size e n) = e_cluster e.
Proof.
  intros He. unfold e_cluster, with_size. by rewrite !slice_splice_ne by (rewrite length_le_bytes; lia).
Qed.

Lemma size_with_cluster e c : length e = 32%nat → e_size (with_cluster e c) = e_size e.
Proof.
  intros He. unfold e_size, with_cluster.
  rewrite slice_splice_ne; [|rewrite length_splice; rewrite !length_le_bytes; lia|rewrite length_le_bytes; lia].
  by rewrite slice_splice_ne by (rewrite length_le_bytes; lia).
Qed.

Lemma halves c : 0 ≤ c < 2 ^ 32 → Z.lor (Z.shiftl (Z.land (Z.shiftr c 16) 0xFFFF) 16) (Z.land c 0xFFFF) = c.
Proof.
  intros Hc. apply Z.bits_inj'. intros i Hi. rewrite Z.lor_spec, Z.land_spec. change 0xFFFF with (Z.ones 16).
  destruct (decide (i < 16)) as [H16|H16].
  - rewrite Z.shiftl_spec_low by lia. rewrite Z.ones_spec_low by lia. simpl. apply andb_true_r.
  - rewrite Z.shiftl_spec_high by lia. rewrite Z.land_spec, Z.shiftr_spec by lia. replace (i - 16 + 16) with i by lia.
    rewrite (Z.ones_spec_high 16 i) by lia. rewrite andb_false_r, orb_false_r.
    destruct (decide (i < 32)); [by rewrite Z.ones_spec_low, andb_true_r by lia|].
    rewrite Z.ones_spec_high by lia. rewrite andb_false_r. symmetry.
    destruct (decide (c = 0)) as [->|]; [apply Z.bits_0|]. apply Z.bits_above_log2; [lia|].
    apply Z.log2_lt_pow2; [lia|]. pose proof (Z.pow_le_mono_r 2 32 i ltac:(lia) ltac:(lia)). lia.
Qed.

Lemma half_range a : 0 ≤ Z.land a 0xFFFF < 2 ^ (8 * Z.of_nat 2).
Proof. change 0xFFFF with (Z.ones 16). rewrite Z.land_ones by lia. by apply Z.mod_pos_bound. Qed.

Lemma cluster_with_cluster e c : length e = 32%nat → 0 ≤ c < 2 ^ 32 → e_cluster (with_cluster e c) = c.
Proof.
  intros He Hc. unfold e_cluster, with_cluster. set (hi := Z.land (Z.shiftr c 16) 0xFFFF). set (lo := Z.land c 0xFFFF).
  rewrite (slice_splice_ne _ (le_bytes 2 lo) 26 20 2);
    [|rewrite length_splice; rewrite !length_le_bytes; lia|rewrite length_le_bytes; lia].
  rewrite !slice_splice_at by (rewrite ?length_splice; rewrite ?length_le_bytes; lia).
  rewrite !le_val_bytes by apply half_range. by apply halves.
Qed.
End entry.

(** * FAT32: writing a file

    [fat32_write] on a consistent volume: the bytes are at the position, the
    directory entry agrees with the file, new clusters come from the free
    ones, and no other file changes. *)

Lemma splice_self {A} (l : list A) o n : (o + n ≤ length l)%nat → splice l o (slice l o n) = l.
Proof.
  intros Hl. assert (length (slice l o n) = n) as Hs by (unfold slice; rewrite length_take, length_drop; lia).
  apply list_eq. intros i. rewrite lookup_splice by lia. rewrite Hs, lookup_slice. repeat case_decide; try done; try lia.
  f_equal. lia.
Qed.

Lemma splice_over {A} (l a b : list A) o : length a = length b → (o + length b ≤ length l)%nat →
  splice (splice l o a) o b = splice l o b.
Proof.
  intros Hab Hl. apply list_eq. intros i. rewrite !lookup_splice; rewrite ?length_splice by lia; [|lia..].
  repeat case_decide; try done; lia.
Qed.

Section file.
Context {D : Type} `{BlockDeviceLaws D}.
Context (fs : fat32_fs).
Implicit Types d : D.

Abbreviation bps := (bytes_per_sector fs).
Abbreviation spc := (sectors_per_cluster fs).
Abbreviation lbas := (lbas fs).
Abbreviation content := (content fs).
Abbreviation cs := (cluster_size fs).

(** The directory entry of [f] agrees with it and is outside its clusters. *)
Record synced d (f : fat32_file) (l : list Z) : Prop := {
  sy_place : entry_place fs (dir_cluster f) (dir_offset f);
  sy_used : fat fs d (dir_cluster f) ≠ 0;
  sy_apart : dir_cluster f ∉ l;
  sy_size : e_size (entry fs d (dir_cluster f) (dir_offset f)) = size f;
  sy_cluster : e_cluster (entry fs d (dir_cluster f) (dir_offset f)) = first_cluster f
}.

(** [d'] is [d] with the clusters [l] grown to [l'] by free ones, [b] put at
    [p] of them, and the directory entry at [dc], [off] changed. *)
Record written d d' (dc off : Z) (l l' : list Z) (p : Z) (b : list Z) : Prop := {
  wr_geom : geom fs d';
  wr_new : ∃ new, l' = l ++ new ∧ Forall (λ x, valid fs x ∧ fat fs d x = 0) new;
  wr_fat x : valid fs x → x ∉ l' → fat fs d' x = fat fs d x;
  wr_content : content d' l' =
    splice (content d l ++ replicate ((length l' - length l) * Z.to_nat cs) 0) (Z.to_nat p) b;
  wr_dir : content d' [dc] = splice (content d [dc]) (Z.to_nat off) (entry fs d' dc off);
  wr_out j : data_lba fs ≤ j → j ∉ lbas (dc :: l') → sec d' j = sec d j
}.

(** The clusters a file may take are not in use. *)
Lemma new_apart d l l' x : (∃ new, l' = l ++ new ∧ Forall (λ x, valid fs x ∧ fat fs d x = 0) new) →
  fat fs d x ≠ 0 → x ∉ l → x ∉ l'.
Proof.
  intros (new & -> & Hnew) Hx Hl [?|Hin]%elem_of_app; [done|]. rewrite Forall_forall in Hnew.
  by destruct (Hnew x Hin).
Qed.

(** Other chains stay, and so do their contents outside the directory. *)
Lemma written_other d d' dc off l l' p b c2 l2 :
  geom fs d → written d d' dc off l l' p b → chain fs (fat fs d) c2 l2 → (∀ x, x ∈ l2 → x ∉ l) →
  chain fs (fat fs d') c2 l2 ∧ (dc ∉ l2 → content d' l2 = content d l2).
Proof.
  intros G [G' Hnew Hf _ _ Hout] Hch Hap.
  assert (∀ x, x ∈ l2 → x ∉ l') as Hap'.
  { intros x Hx. eapply new_apart; [done|by eapply chain_used|by apply Hap]. }
  split.
  - eapply fat_chain_ext; [|done]. intros x Hx. apply Hf; [by eapply chain_valid|by apply Hap'].
  - intros Hdc. apply content_ext. intros j Hj. apply Hout.
    + eapply lbas_data; [exact G| |exact Hj]. by eapply chain_all_valid.
    + apply elem_of_lbas in Hj as (c & s & Hc & Hs & ->). rewrite elem_of_lbas_cluster by done.
      intros [->|?]%elem_of_cons; [done|]. by apply (Hap' c).
Qed.

Lemma entry_step_other d d' dc off e l : geom fs d → all_valid fs l → entry_step fs d d' dc off e → dc ∉ l →
  content d' l = content d l.
Proof.
  intros G Hl Hst Hdc. apply content_ext. intros j Hj. apply Hst; [by eapply lbas_data|].
  apply elem_of_lbas in Hj as (c & s & Hc & Hs & ->). rewrite elem_of_lbas_cluster by done. set_solver.
Qed.

Lemma entry_self d dc off : geom fs d → entry_place fs dc off →
  splice (content d [dc]) (Z.to_nat off) (entry fs d dc off) = content d [dc].
Proof.
  intros G [Hv Ho Hf _]. unfold entry, zslice. apply splice_self.
  pose proof (length_content fs d [dc] G (valid_one fs dc Hv)) as Hl. simpl length in Hl. lia.
Qed.

(** The directory is outside a grown chain. *)
Lemma grown_dir d d' c l l' p b dc : geom fs d → grown fs d d' c l l' p b → valid fs dc → dc ∉ l' →
  content d' [dc] = content d [dc].
Proof.
  intros G Hg Hv Hdc. apply content_ext. intros j Hj. apply Hg.
  - eapply lbas_data; [exact G| |exact Hj]. by apply valid_one.
  - apply elem_of_lbas in Hj as (x & s & Hx%list_elem_of_singleton & Hs & ->). subst x. by rewrite elem_of_lbas_cluster.
Qed.

Lemma written_grown d d2 d' c l l' p b dc off :
  geom fs d → grown fs d d2 c l l' p b → entry_place fs dc off → dc ∉ l' →
  (d' = d2 ∨ ∃ e, length e = 32%nat ∧ entry_step fs d2 d' dc off e) →
  written d d' dc off l l' p b ∧ chain fs (fat fs d') c l'.
Proof.
  intros G Hg Hp Hdc Hd'. pose proof (grown_dir _ _ _ _ _ _ _ dc G Hg (ep_valid _ _ _ Hp) Hdc) as Hdir.
  pose proof Hg as [G2 Hch Hnew Hfat Hct Hout]. destruct Hd' as [->|(e & He & Hst)].
  - split; [|done]. split; [done|done|done|done| |].
    + rewrite <-Hdir. symmetry. by apply entry_self.
    + intros j Hj Hjl. apply Hout; [done|]. change (dc :: l') with ([dc] ++ l') in Hjl. rewrite lbas_app in Hjl. set_solver.
  - pose proof Hst as [G' Hf' Hin' Hout']. split; [split|].
    + done.
    + done.
    + intros x Hx Hxl. rewrite Hf' by done. by apply Hfat.
    + rewrite (entry_step_other d2 d' dc off e l' G2); [done| |done|done]. by eapply chain_all_valid.
    + rewrite Hin', Hdir, (entry_step_in fs d2 d' dc off e) by done. done.
    + intros j Hj Hjl. change (dc :: l') with ([dc] ++ l') in Hjl. rewrite lbas_app in Hjl.
      rewrite Hout' by set_solver. apply Hout; set_solver.
    + eapply fat_chain_ext; [|done]. intros x Hx. apply Hf'. by eapply chain_valid.
Qed.

(** ** The first cluster of an empty file *)

Lemma written_first d d1 d2 d' dc off c e l' p b :
  geom fs d → geom fs d1 → geom fs d2 → entry_place fs dc off → fat fs d dc ≠ 0 → length e = 32%nat →
  allocated fs d d1 0 c → entry_step fs d1 d2 dc off e → length (entry fs d' dc off) = 32%nat →
  written d2 d' dc off [c] l' p b → written d d' dc off [] l' p b.
Proof.
  intros G G1 G2 Hp Hdc He Ha Hst He' [G' (new & -> & Hnew) Hf Hct Hdir Hout].
  pose proof (al_valid _ _ _ _ _ Ha) as Hc. pose proof (ep_valid _ _ _ Hp) as Hdv.
  assert (dc ≠ c) as Hne by (intros ->; by destruct Ha).
  assert (∀ x, valid fs x → x ≠ c → fat fs d2 x = fat fs d x) as Hf2.
  { intros x Hx Hxc. rewrite (fi_fat _ _ _ _ _ Hst), (al_fat _ _ _ _ _ Ha) by done.
    rewrite !decide_False; [done|done|]. destruct Hx. lia. }
  assert (fat fs d2 c ≠ 0) as Hf2c.
  { rewrite (fi_fat _ _ _ _ _ Hst), (al_fat _ _ _ _ _ Ha) by done. rewrite decide_False by (destruct Hc; lia).
    by rewrite decide_True. }
  split; [done| | | | |].
  - exists (c :: new). split; [done|]. constructor; [split; [done|apply Ha]|].
    eapply Forall_impl; [exact Hnew|]. intros x [Hx Hx0]. split; [done|]. rewrite <-Hf2; [done|done|]. by intros ->.
  - intros x Hx Hxl. rewrite Hf by done. apply Hf2; set_solver.
  - rewrite Hct. f_equal. rewrite (entry_step_other d1 d2 dc off e [c] G1 (valid_one fs c Hc) Hst) by set_solver.
    rewrite (content_zero fs d1 c G1 (al_in _ _ _ _ _ Ha)). change (content d []) with (@nil Z). rewrite app_nil_l, Nat.sub_0_r.
    rewrite <-replicate_add. f_equal. simpl. rewrite Nat.sub_0_r. done.
  - rewrite Hdir, (fi_in _ _ _ _ _ Hst).
    assert (content d1 [dc] = content d [dc]) as ->.
    { apply content_ext. intros j Hj. apply Ha; [eapply lbas_data; [exact G| |exact Hj]; by apply valid_one|].
      apply elem_of_lbas in Hj as (x & s & Hx%list_elem_of_singleton & Hs & ->). subst x.
      intros s' Hs' E. by destruct (cluster_lba_inj fs dc c s s' Hs Hs' E). }
    apply splice_over; [congruence|]. rewrite He'.
    pose proof (length_content fs d [dc] G (valid_one fs dc Hdv)) as Hl. simpl length in Hl. destruct Hp. lia.
  - intros j Hj Hjl. rewrite Hout by done. rewrite lbas_cons in Hjl.
    rewrite (fi_out _ _ _ _ _ Hst); [|done|]. 2:{ rewrite lbas_cons. change (lbas []) with (@nil Z). rewrite app_nil_r. set_solver. }
    apply Ha; [done|]. intros s Hs ->. apply Hjl, elem_of_app. right. apply elem_of_lbas_cluster; set_solver.
Qed.

(** ** Writing *)

(** What a write leaves: [n] bytes of [buf] written, the file is [f']. *)
Record write_post d d' (f : fat32_file) (l : list Z) (buf : list Z) (n : Z) (f' : fat32_file) (l' : list Z) : Prop := {
  wp_count : 0 ≤ n ≤ Z.of_nat (length buf);
  wp_short : n < Z.of_nat (length buf) → full fs d';
  wp_pos : pos f' = pos f + n;
  wp_size : size f' = if n =? 0 then size f else Z.max (size f) (pos f + n);
  wp_dir : dir_cluster f' = dir_cluster f ∧ dir_offset f' = dir_offset f ∧ attr f' = attr f;
  wp_name : take 20 (entry fs d' (dir_cluster f) (dir_offset f)) = take 20 (entry fs d (dir_cluster f) (dir_offset f));
  wp_first : l ≠ [] → first_cluster f' = first_cluster f;
  wp_file : file_on fs d' f' l';
  wp_synced : synced d' f' l';
  wp_written : written d d' (dir_cluster f) (dir_offset f) l l' (pos f) (take (Z.to_nat n) buf)
}.

Lemma wpe_write_data d f l buf (Q : Z * fat32_file → D → Prop) (R : D → Prop) :
  geom fs d → file_on fs d f l → l ≠ [] → synced d f l → bytes buf → buf ≠ [] →
  pos f + Z.of_nat (length buf) < 2 ^ 32 →
  (∀ n f' l' d', write_post d d' f l buf n f' l' → Q (n, f') d') →
  wpe (write_data fs f buf) Q R d.
Proof.
  intros G [Hfc Hsz Hsz32 Hpos] Hne [Hp Hused Hap Hss Hsc] Hbuf Hbne H32 HQ.
  assert (chain fs (fat fs d) (first_cluster f) l) as Hch by (by destruct l). clear Hfc.
  destruct (cluster_size_eq fs d G) as [Ecs Hcs]. rewrite <-Ecs in Hcs. clear Ecs.
  pose proof (chain_all_valid fs _ _ _ Hch) as Hav. set (dc := dir_cluster f) in *. set (off := dir_offset f) in *.
  assert (0 < Z.of_nat (length buf)) as Hbl by (destruct buf; [done|simpl; lia]).
  (* the directory stays when the chain grows *)
  assert (∀ d2 l2 b, grown fs d d2 (first_cluster f) l l2 (pos f) b → (dc ∉ l2) ∧ entry fs d2 dc off = entry fs d dc off ∧
    fat fs d2 dc ≠ 0 ∧ (length l ≤ length l2)%nat ∧ l2 ≠ []) as Hdir.
  { intros d2 l2 b Hg. pose proof (gw_new _ _ _ _ _ _ _ _ Hg) as Hnew. assert (dc ∉ l2) as Hdc by (by eapply new_apart).
    split; [done|]. split; [unfold entry; by rewrite (grown_dir _ _ _ _ _ _ _ dc G Hg (ep_valid _ _ _ Hp))|].
    split; [rewrite (gw_fat _ _ _ _ _ _ _ _ Hg); [done|apply Hp|done]|].
    destruct Hnew as (new & -> & _). rewrite length_app. split; [lia|]. by destruct l. }
  unfold write_data. destruct (Z.eqb_spec cs 0) as [?|_]; [lia|]. we_steps.
  apply (wpe_skip_write fs d d _ l l); [done|done|by apply grown_refl|done|lia| |].
  2:{ intros d2 l2 Hg Hfull. we_steps. destruct (Hdir _ _ _ Hg) as (Hdc & He & Hu & Hll & Hl2).
    destruct (written_grown d d2 d2 _ l l2 (pos f) [] dc off G Hg Hp Hdc (or_introl eq_refl)) as [Hw Hch2].
    apply (HQ 0 f l2). split; [lia|done|lia|done|done|by fold dc off; rewrite He|done| |split; [done|done|done|by fold dc off; rewrite He..]|done].
    split; [by destruct l2|nia|done|done]. }
  intros d2 l2 k x prev skip Hg2 Hk Hskip Hpk. we_steps.
  apply (wpe_write_chain fs d d2 (first_cluster f) l l2 k x prev skip (pos f) buf); [done|done|done|done|lia|exact Hg2|done|done|done|].
  intros d3 l3 n Hg Hn Hfit Hshort. we_steps. destruct (Hdir _ _ _ Hg) as (Hdc & He & Hu & Hll & Hl3).
  pose proof (gw_geom _ _ _ _ _ _ _ _ Hg) as G3.
  rewrite u32_small by lia. cbn [pos size set_pos set_size dir_cluster dir_offset].
  destruct (Z.ltb_spec (size f) (pos f + n)) as [Hgt|Hle].
  - we_steps. apply (wpe_update_size fs); [done|done|]. intros d4 Hst. we_steps.
    pose proof (length_entry fs d3 dc off G3 Hp) as Hel.
    assert (length (with_size (entry fs d3 dc off) (pos f + n)) = 32%nat) as Hel'.
    { unfold with_size. rewrite length_splice; [done|]. rewrite length_le_bytes. lia. }
    destruct (written_grown d d3 d4 _ l l3 (pos f) _ dc off G Hg Hp Hdc) as [Hw Hch4]; [right; by eexists|].
    pose proof (entry_step_in fs d3 d4 dc off _ G3 Hp Hel' Hst) as He4.
    apply (HQ n _ l3). split; try done; [lia| | | | |].
    + intros Hlt y Hy. destruct Hshort as [->|Hfull]; [lia|]. rewrite (fi_fat _ _ _ _ _ Hst) by done. by apply Hfull.
    + simpl. destruct (Z.eqb_spec n 0); lia.
    + fold dc off. by rewrite He4, name_with_size, He.
    + split; simpl; [by destruct l3|lia|lia|lia].
    + split; simpl; fold dc off; [done| |done| |].
      * rewrite (fi_fat _ _ _ _ _ Hst); [done|apply Hp].
      * rewrite He4. apply size_with_size; [done|lia].
      * by rewrite He4, cluster_with_size, He by done.
  - we_steps. destruct (written_grown d d3 d3 _ l l3 (pos f) _ dc off G Hg Hp Hdc (or_introl eq_refl)) as [Hw Hch4].
    apply (HQ n _ l3). split; try done; [lia| | | | |].
    + intros Hlt. destruct Hshort as [->|Hfull]; [lia|done].
    + simpl. destruct (Z.eqb_spec n 0); lia.
    + fold dc off. by rewrite He.
    + split; simpl; [by destruct l3|nia|lia|lia].
    + split; simpl; fold dc off; [done|done|done| |]; by rewrite He.
Qed.

Lemma wpe_write d f l buf :
  geom fs d → file_on fs d f l → synced d f l → bytes buf → buf ≠ [] → Z.land (attr f) ATTR_DIR = 0 →
  pos f + Z.of_nat (length buf) < 2 ^ 32 → (l = [] → pos f = 0) →
  wpe (fat32_write fs f buf) (λ r d', ∃ l', write_post d d' f l buf r.1 r.2 l')
    (λ d', d' = d ∧ l = [] ∧ full fs d) d.
Proof.
  intros G Hf Hs Hbuf Hbne Hat H32 Hempty. destruct (cluster_size_eq fs d G) as [Ecs Hcs]. rewrite <-Ecs in Hcs. clear Ecs.
  unfold fat32_write. rewrite bool_decide_eq_false_2 by done. rewrite Hat. simpl.
  destruct (decide (l = [])) as [->|Hne].
  2:{ assert (2 ≤ first_cluster f) as Hfc.
    { destruct Hf as [Hch _ _ _]. destruct l; [done|]. destruct Hch as (-> & [? _] & _). done. }
    unfold write_first. destruct (Z.ltb_spec (first_cluster f) 2); [lia|]. we_steps.
    apply (wpe_write_data d f l); [done..|]. intros n f' l' d' Hpost. by exists l'. }
  specialize (Hempty eq_refl). pose proof Hf as [Hfc Hsz Hsz32 Hpos]. pose proof Hs as [Hp Hused _ Hss Hsc].
  simpl in Hsz. assert (size f = 0) as Hs0 by lia. clear Hsz. set (dc := dir_cluster f) in *. set (off := dir_offset f) in *.
  unfold write_first. rewrite Hfc, Hempty, Hs0. simpl. we_steps. apply (wpe_alloc fs); [done|by left| |done].
  intros c d1 Ha _. pose proof (al_valid _ _ _ _ _ Ha) as Hc. pose proof (al_geom _ _ _ _ _ Ha) as G1.
  pose proof (g_clusters _ _ G) as [Hc1 Hc2].
  destruct (Z.eqb_spec c 0) as [->|_]; [destruct Hc; lia|]. fold dc off.
  assert (dc ≠ c) as Hdc by (intros ->; by destruct Ha).
  pose proof (length_entry fs d1 dc off G1 Hp) as Hel.
  assert (length (with_cluster (entry fs d1 dc off) c) = 32%nat) as Hel'.
  { unfold with_cluster. rewrite !length_splice; [done|..]; rewrite ?length_splice; rewrite ?length_le_bytes; lia. }
  we_steps. apply (wpe_update_cluster fs); [done|done|]. intros d2 Hst. we_steps. pose proof (fi_geom _ _ _ _ _ Hst) as G2.
  assert (∀ x, valid fs x → x ≠ c → fat fs d2 x = fat fs d x) as Hf2.
  { intros x Hx Hxc. rewrite (fi_fat _ _ _ _ _ Hst), (al_fat _ _ _ _ _ Ha) by done.
    rewrite !decide_False; [done|done|]. destruct Hx. lia. }
  assert (entry fs d1 dc off = entry fs d dc off) as He1.
  { unfold entry. f_equal. apply content_ext. intros j Hj.
    apply Ha; [eapply lbas_data; [exact G| |exact Hj]; apply valid_one, Hp|].
    apply elem_of_lbas in Hj as (x & s & Hx%list_elem_of_singleton & Hs' & ->). subst x.
    intros s' Hs'' E. by destruct (cluster_lba_inj fs dc c s s' Hs' Hs'' E). }
  pose proof (entry_step_in fs d1 d2 dc off _ G1 Hp Hel' Hst) as He2.
  apply (wpe_write_data d2 (set_cluster c f) [c]); [done| | | |done|done|done|].
  - split; simpl; [|lia..]. split; [done|]. split; [done|].
    rewrite (fi_fat _ _ _ _ _ Hst), (al_fat _ _ _ _ _ Ha) by done. rewrite decide_False by (destruct Hc; lia).
    rewrite decide_True by done. done.
  - done.
  - split; simpl; fold dc off; [done| |set_solver| |].
    + rewrite Hf2; [done|apply Hp|done].
    + rewrite He2, size_with_cluster, He1 by done. done.
    + rewrite He2. apply cluster_with_cluster; [done|]. destruct Hc. unfold END_OF_CHAIN in *. lia.
  - intros n f' l' d' [P1 P2 P3 P4 (P5 & P5' & P5'') PN P6 P7 P8 P9]. simpl in *. exists l'. fold dc off in PN, P9.
    split; try done; [fold dc off; by rewrite PN, He2, name_with_cluster, He1|].
    eapply (written_first d d1 d2); try done.
    apply length_entry; [apply P9|done].
Qed.

(** The bytes a write leaves at its position. *)
Lemma written_bytes d d' f l buf n f' l' : geom fs d → all_valid fs l → 0 ≤ pos f → write_post d d' f l buf n f' l' →
  zslice (file_bytes fs d' f' l') (pos f) n = take (Z.to_nat n) buf.
Proof.
  intros G Hav Hpos P. pose proof (wp_count _ _ _ _ _ _ _ _ P) as Hn. destruct (decide (n = 0)) as [->|Hn0]; [done|].
  pose proof (wp_size _ _ _ _ _ _ _ _ P) as Hs. destruct (Z.eqb_spec n 0) as [?|_]; [done|].
  pose proof (wp_file _ _ _ _ _ _ _ _ P) as [Hfc Hsz _ _]. pose proof (wp_written _ _ _ _ _ _ _ _ P) as [G' (new & -> & _) _ Hct _ _].
  unfold file_bytes. rewrite zslice_zslice by lia. rewrite Z.add_0_l. unfold zslice. rewrite Hct.
  destruct (cluster_size_eq fs d G) as [Ecs Hcs]. rewrite <-Ecs in Hcs.
  apply slice_splice_at; [rewrite length_take; lia|]. rewrite length_app, length_replicate.
  pose proof (length_content fs d l G Hav) as Hl0. rewrite length_app in *. nia.
Qed.

(** Clusters in use outside the file and its directory cluster stay. *)
Lemma written_cluster d d' dc off l l' p b x : geom fs d → written d d' dc off l l' p b → valid fs x → fat fs d x ≠ 0 →
  x ∉ l → x ≠ dc → content d' [x] = content d [x].
Proof.
  intros G [G' Hnew Hf _ _ Hout] Hv Hx Hl Hdc. apply content_ext. intros j Hj.
  apply Hout; [eapply lbas_data; [exact G| |exact Hj]; by apply valid_one|].
  apply elem_of_lbas in Hj as (y & s & Hy%list_elem_of_singleton & Hs & ->). subst y. rewrite elem_of_lbas_cluster by done.
  intros [->|Hin]%elem_of_cons; [done|]. by eapply (new_apart d l l' x).
Qed.
End file.
