(* ===== verification/FatName.v ===== *)
(** * FAT32: names and entries

    The short name a file is created with matches the name it is looked up
    by, and the steps of a directory scan never leave their buffers. *)

From S2P Require Import Prelude Ring Loops Codec Part Fat32 FatVol FatRead FatWrite FatEntry.

Lemma arr_get_in {A} (l : list A) i x : 0 ≤ i → l !! Z.to_nat i = Some x → arr_get l i = Some x.
Proof. intros Hi Hx. unfold arr_get. by destruct (Z.leb_spec 0 i); [|lia]. Qed.

Lemma arr_get_some {A} (l : list A) i : 0 ≤ i < Z.of_nat (length l) → ∃ x, arr_get l i = Some x ∧ l !! Z.to_nat i = Some x.
Proof.
  intros Hi. destruct (lookup_lt_is_Some_2 l (Z.to_nat i)) as [x Hx]; [lia|]. exists x. split; [|done].
  by apply arr_get_in; [lia|].
Qed.

Lemma arr_set_in {A} (l : list A) i x : 0 ≤ i < Z.of_nat (length l) → ∃ l', arr_set l i x = Some l' ∧ length l' = length l.
Proof.
  intros Hi. unfold arr_set. eexists. destruct (Z.leb_spec 0 i); [|lia]. destruct (Z.ltb_spec i (Z.of_nat (length l))); [|lia].
  simpl. split; [done|]. apply length_insert.
Qed.

(** ** Short names *)

Lemma until_split p l : ∃ r, l = until p l ++ r ∧ match r with [] => True | c :: _ => p c = true end.
Proof.
  induction l as [|c l (r & E & Hr)]; simpl; [by exists []|]. destruct (p c) eqn:Hc.
  - by exists (c :: l).
  - exists r. split; [simpl; by rewrite <-E|done].
Qed.

Lemma upper_str_app a b : upper_str_n (a ++ b) = upper_str_n a ++ upper_str_n b.
Proof. apply fmap_app. Qed.
Lemma upper_spaces n : upper_str_n (replicate n space) = replicate n space.
Proof. unfold upper_str_n. by rewrite fmap_replicate. Qed.
Lemma length_upper l : length (upper_str_n l) = length l.
Proof. apply length_fmap. Qed.

Lemma build_short_pattern name short : build_short_name name = Some short →
  short = short_pattern name ∧ length short = 11%nat ∧
  ∃ c rest, name = c :: rest ∧ c ≠ dot ∧ short !! 0%nat = Some (upper c).
Proof.
  unfold build_short_name. cbv zeta. set (base := until _ name).
  destruct (until_split (λ c, c =? dot) name) as (r & E & Hr). fold base in E.
  destruct (bool_decide (name = []) || _) eqn:E1; [done|]. apply orb_false_iff in E1 as [E1 _].
  destruct (bool_decide (8 < length base)%nat || _) eqn:E2; [done|].
  apply orb_false_iff in E2 as [E2%bool_decide_eq_false E3%bool_decide_eq_false].
  destruct (existsb _ base); [done|]. destruct (_ && _) eqn:E4; [done|]. intros [= <-].
  assert (length name = length base + length r)%nat as Hl by (rewrite E at 1; by rewrite length_app).
  assert (drop (length base) name = r) as Ed by (rewrite E at 1; apply drop_app_length).
  assert (take 8 base = base) as Et by (apply take_ge; lia).
  split; [|split].
  - unfold short_pattern. fold base. cbv zeta. rewrite Et, Ed. destruct r as [|c ext].
    + rewrite bool_decide_eq_false_2 by (simpl in Hl; lia). rewrite !upper_str_app, !upper_spaces. simpl. by rewrite <-app_assoc.
    + rewrite bool_decide_eq_true_2 by (simpl in Hl; lia). simpl in Hr. rewrite Hr.
      rewrite bool_decide_eq_true_2 in E4 by (simpl in Hl; lia). simpl in E4. apply bool_decide_eq_false in E4.
      assert (drop (S (length base)) name = ext) as Ee by (rewrite <-Nat.add_1_r, <-drop_drop, Ed; done).
      rewrite Ee in *. rewrite (take_ge ext) by lia. rewrite !upper_str_app, !upper_spaces. by rewrite <-app_assoc.
  - rewrite !length_app, !length_replicate, length_upper. case_bool_decide as Hd; simpl in *.
    + apply bool_decide_eq_false in E4. rewrite length_upper. lia.
    + lia.
  - destruct base as [|c b] eqn:Eb; [done|]. exists c, (b ++ r). split; [done|]. split; [|done].
    destruct name as [|c' name]; [done|]. simpl in Eb. unfold base in Eb. simpl in Eb.
    destruct (Z.eqb_spec c' dot); [done|]. by injection Eb as -> _.
Qed.

(** ** Long names *)

Definition lfn_ok (st : lfn_state) : Prop := length (l_name st) = LFN_NAME.

Lemma lfn_reset_ok : lfn_ok lfn_reset.
Proof. apply length_replicate. Qed.

Lemma lfn_chars_total offs e p name : length e = 32%nat → 0 ≤ p → length name = LFN_NAME →
  Forall (λ o, 0 ≤ o ≤ 30) offs → ∃ name', lfn_chars offs e p name = Some name' ∧ length name' = LFN_NAME.
Proof.
  intros He. revert p name. induction offs as [|o offs IH]; intros p name Hp Hn Ho; [by exists name|].
  apply Forall_cons in Ho as [Ho Hos]. cbn [lfn_chars]. destruct (Z.leb_spec (Z.of_nat LFN_NAME - 1) p); [by exists name|].
  rewrite get_le_in by lia. simpl. set (ch := le_val _).
  destruct ((ch =? 0) || (ch =? 0xFFFF)).
  - destruct (arr_set_in name p 0) as (n' & E & Hl); [lia|]. exists n'. split; [done|lia].
  - destruct (arr_set_in name p (if ch <? 0x80 then ch else 63)) as (n' & E & Hl); [lia|]. rewrite E. simpl.
    apply IH; [lia|lia|done].
Qed.

Lemma lfn_offs_ok : Forall (λ o, 0 ≤ o ≤ 30) lfn_offs.
Proof. unfold lfn_offs. repeat constructor; lia. Qed.

#[local] Arguments lfn_chars : simpl never.

Lemma lfn_consume_total st e : lfn_ok st → length e = 32%nat →
  ∃ r, lfn_consume st e = Some r ∧ match r with Some st' => lfn_ok st' | None => arr_get e 11 ≠ Some ATTR_LFN end.
Proof.
  intros Hst He. unfold lfn_consume.
  destruct (arr_get_some e 11) as (at_ & Eat & _); [lia|]. rewrite Eat. simpl.
  destruct (Z.eqb_spec at_ ATTR_LFN) as [->|Hne]; [|eexists; split; [done|congruence]]. simpl.
  destruct (arr_get_some e 0) as (e0 & -> & _); [lia|]. simpl. pose proof lfn_reset_ok as Hr.
  destruct (Z.eqb_spec (Z.land e0 0x1F) 0) as [_|H0]; [by eexists|].
  destruct (arr_get_some e 13) as (sum & -> & _); [lia|]. simpl.
  set (st' := if negb _ then _ else st). assert (lfn_ok st') as Hst' by (unfold st'; by destruct (negb _)).
  destruct (l_valid st' =? 0); [by eexists|]. destruct (negb (sum =? _)); [by eexists|].
  destruct (negb (_ =? l_expected_ord st')); [by eexists|]. destruct (_ || _) eqn:E; [by eexists|].
  apply orb_false_iff in E as [E1%Z.ltb_ge _].
  destruct (lfn_chars_total lfn_offs e ((Z.land e0 0x1F - 1) * 13) (l_name st') He E1 Hst' lfn_offs_ok) as (name & -> & Hn).
  simpl. by eexists.
Qed.

(** ** The steps *)

Lemma find_step_total name lfn off e : lfn_ok lfn → length e = 32%nat →
  ∃ r, find_step name lfn off e = Some r ∧ ∀ lfn', r = inl lfn' → lfn_ok lfn'.
Proof.
  intros Hl He. unfold find_step. pose proof lfn_reset_ok as Hr. destruct (arr_get_some e 0) as (e0 & -> & _); [lia|]. simpl.
  destruct (e0 =? 0); [eexists; split; [done|by intros ? [=]]|].
  destruct (e0 =? 0xE5); [eexists; split; [done|by intros ? [= <-]]|].
  destruct (lfn_consume_total lfn e Hl He) as ([st|] & -> & Hst); simpl; [eexists; split; [done|by intros ? [= <-]]|].
  destruct (arr_get_some e 11) as (at_ & -> & _); [lia|]. simpl.
  destruct (negb _); [eexists; split; [done|by intros ? [= <-]]|].
  destruct (_ || _); [|eexists; split; [done|by intros ? [= <-]]].
  rewrite !get_le_in by lia. simpl. eexists. split; [done|by intros ? [=]].
Qed.

Lemma free_step_total u off e : length e = 32%nat → ∃ r, free_step u off e = Some r.
Proof. intros He. unfold free_step. destruct (arr_get_some e 0) as (e0 & -> & _); [lia|]. by eexists. Qed.

(** An entry that is in use, no long-name part and no volume label. *)
Definition plain_entry (e : list Z) : Prop :=
  ∃ e0 at_, e !! 0%nat = Some e0 ∧ e0 ≠ 0 ∧ e0 ≠ 0xE5 ∧ e !! 11%nat = Some at_ ∧ at_ ≠ ATTR_LFN ∧
    Z.land at_ ATTR_VOLUME = 0.

Definition e_attr (e : list Z) : Z := default 0 (e !! 11%nat).

Lemma find_step_hit name lfn off e : length e = 32%nat → plain_entry e → name_match_83 e name = true →
  find_step name lfn off e = Some (inr (Some (Found (e_cluster e) (e_size e) (e_attr e) off))).
Proof.
  intros He (e0 & at_ & H0 & Hn0 & Hn5 & H11 & Hlfn & Hvol) Hm. unfold find_step.
  rewrite (arr_get_in e 0 e0) by done. simpl. destruct (Z.eqb_spec e0 0); [done|]. destruct (Z.eqb_spec e0 0xE5); [done|].
  assert (arr_get e 11 = Some at_) as E11 by (by apply arr_get_in).
  unfold lfn_consume. rewrite E11. simpl. destruct (Z.eqb_spec at_ ATTR_LFN); [done|]. simpl.
  rewrite Hvol. simpl. rewrite Hm, orb_true_r. rewrite !get_le_in by lia. simpl. unfold e_attr. by rewrite H11.
Qed.

(** A hit is on such an entry, and has its fields. *)
Lemma find_step_found name lfn off e x : length e = 32%nat →
  find_step name lfn off e = Some (inr (Some x)) →
  plain_entry e ∧ x = Found (e_cluster e) (e_size e) (e_attr e) off.
Proof.
  intros He. unfold find_step. destruct (arr_get_some e 0) as (e0 & -> & H0); [lia|]. simpl.
  destruct (Z.eqb_spec e0 0); [done|]. destruct (Z.eqb_spec e0 0xE5); [done|].
  destruct (lfn_consume lfn e) as [[st|]|] eqn:El; simpl; [done| |done].
  destruct (arr_get_some e 11) as (at_ & E11 & H11); [lia|]. rewrite E11. simpl.
  destruct (Z.eqb_spec (Z.land at_ ATTR_VOLUME) 0) as [Hv|]; [|done]. simpl.
  destruct (_ || _); [|done]. rewrite !get_le_in by lia. simpl. intros [= <-].
  change (Z.to_nat 11) with 11%nat in H11. split; [|unfold e_attr; by rewrite H11]. exists e0, at_. split_and!; try done. intros ->.
  unfold lfn_consume in El. rewrite E11 in El. simpl in El. destruct (arr_get e 0); [|done]. simpl in El.
  destruct (_ =? 0); [done|]. destruct (arr_get e 13); [|done]. simpl in El.
  repeat (case_match; simplify_eq; try done).
  all: apply option.bind_Some in El as (? & _ & El); done.
Qed.

(** The step sees the fields after the first twenty bytes in its result only. *)
Lemma find_step_same name lfn off e e' : length e = 32%nat → length e' = 32%nat → take 20 e' = take 20 e →
  plain_entry e → find_step name lfn off e' =
  match find_step name lfn off e with
  | Some (inr (Some _)) => Some (inr (Some (Found (e_cluster e') (e_size e') (e_attr e') off)))
  | r => r
  end.
Proof.
  intros He He' Etk (e0 & at_ & H0 & Hn0 & Hn5 & H11 & Hlfn & Hvol).
  assert (∀ i, (i < 20)%nat → e' !! i = e !! i) as Elk.
  { intros i Hi. rewrite <-(lookup_take_lt e' 20 i), <-(lookup_take_lt e 20 i) by done. by rewrite Etk. }
  assert (take 11 e' = take 11 e) as E11t.
  { replace (take 11 e') with (take 11 (take 20 e')) by (by rewrite take_take).
    rewrite Etk, take_take. done. }
  unfold find_step. rewrite (arr_get_in e 0 e0), (arr_get_in e' 0 e0) by (done || by rewrite Elk by lia). simpl.
  destruct (Z.eqb_spec e0 0); [done|]. destruct (Z.eqb_spec e0 0xE5); [done|].
  assert (arr_get e 11 = Some at_) as E11 by (by apply arr_get_in).
  assert (arr_get e' 11 = Some at_) as E11' by (apply arr_get_in; [lia|by rewrite Elk by (simpl; lia)]).
  unfold lfn_consume. rewrite E11, E11'. simpl. destruct (Z.eqb_spec at_ ATTR_LFN); [done|]. simpl.
  rewrite Hvol. simpl. unfold lfn_checksum_83, name_match_83. rewrite E11t. destruct (_ || _); [|done].
  rewrite !get_le_in by lia. simpl. unfold e_attr. rewrite Elk by lia. by rewrite H11.
Qed.

(** ** A new entry *)

#[local] Ltac lens := repeat (rewrite length_app || rewrite length_le_bytes || cbn [length replicate]); lia.

Lemma dir_entry_fields short at_ c n : length short = 11%nat → is_byte at_ → bytes short →
  0 ≤ c < 2 ^ 32 → 0 ≤ n < 2 ^ 32 →
  let e := dir_entry short at_ c n in
  length e = 32%nat ∧ bytes e ∧ take 11 e = short ∧ e !! 11%nat = Some at_ ∧ e_cluster e = c ∧ e_size e = n.
Proof.
  intros Hs Hat Hsb Hc Hn. unfold dir_entry. set (hi := Z.land (Z.shiftr c 16) 0xFFFF). set (lo := Z.land c 0xFFFF). cbv zeta.
  pose proof (length_le_bytes 2 hi) as L1. pose proof (length_le_bytes 2 lo) as L2. pose proof (length_le_bytes 4 n) as L3.
  split_and!.
  - lens.
  - repeat apply bytes_app; try apply bytes_le_bytes; try apply bytes_zero; [done|by apply Forall_singleton].
  - by apply take_app_length'.
  - rewrite lookup_app_r by lia. by rewrite Hs.
  - unfold e_cluster. set (e := short ++ _).
    assert (slice e 20 2 = le_bytes 2 hi) as ->.
    { eapply (slice_mid _ (short ++ [at_] ++ replicate 8 0)); [unfold e; by rewrite <-!app_assoc|lens|done]. }
    assert (slice e 26 2 = le_bytes 2 lo) as ->.
    { eapply (slice_mid _ (short ++ [at_] ++ replicate 8 0 ++ le_bytes 2 hi ++ replicate 4 0)); [unfold e; by rewrite <-!app_assoc|lens|done]. }
    rewrite !le_val_bytes by apply half_range. by apply halves.
  - unfold e_size. set (e := short ++ _).
    assert (slice e 28 4 = le_bytes 4 n) as ->; [|by apply le_val_bytes].
    eapply (slice_mid _ (short ++ [at_] ++ replicate 8 0 ++ le_bytes 2 hi ++ replicate 4 0 ++ le_bytes 2 lo) _ []);
      [unfold e; by rewrite app_nil_r, <-!app_assoc|lens|done].
Qed.

(** * FAT32: walking a directory

    The three loops of the directory functions are one scan of the entries of
    the directory, in order. *)

(** ** A scan of entries *)

Section scan.
Context {A R : Type} (step : A → Z → list Z → option (A + R)).

(** Each entry comes with its cluster and its offset. *)
Fixpoint scan (a : A) (es : list (Z * Z * list Z)) : option (A + Z * R) :=
  match es with
  | [] => Some (inl a)
  | (cl, off, e) :: es =>
      r ← step a off e;
      match r with inl a => scan a es | inr x => Some (inr (cl, x)) end
  end.

Lemma scan_app a es es' :
  scan a (es ++ es') = r ← scan a es; match r with inl a => scan a es' | inr x => Some (inr x) end.
Proof.
  revert a. induction es as [|[[cl off] e] es IH]; intros a; [done|]. simpl.
  destruct (step a off e) as [[a'|x]|]; simpl; [apply IH|done|done].
Qed.
End scan.

Section dir.
Context {D : Type} `{BlockDeviceLaws D}.
Context (fs : fat32_fs).
Implicit Types d : D.

Abbreviation bps := (bytes_per_sector fs).
Abbreviation spc := (sectors_per_cluster fs).
Abbreviation cs := (cluster_size fs).

(** The entries of a sector, a cluster and a directory. *)
Definition sector_entries d (cl s : Z) : list (Z * Z * list Z) :=
  (λ i, (cl, s * bps + 32 * i, entry fs d cl (s * bps + 32 * i))) <$> seqZ 0 (bps / 32).
Definition cluster_entries d (cl : Z) : list (Z * Z * list Z) := mjoin (sector_entries d cl <$> seqZ 0 spc).
Definition dir_entries d (l : list Z) : list (Z * Z * list Z) := mjoin (cluster_entries d <$> l).

Lemma entry_at d cl s i : geom fs d → valid fs cl → 0 ≤ s < spc → 0 ≤ i < bps / 32 →
  entry_place fs cl (s * bps + 32 * i) ∧
  slice (sec d (cluster_lba fs cl + s)) (Z.to_nat (32 * i)) 32 = entry fs d cl (s * bps + 32 * i) ∧
  s * bps + 32 * i < 2 ^ 32.
Proof.
  intros G Hv Hs Hi. destruct (cluster_size_eq fs d G) as [Ecs Hcs].
  assert (512 ≤ bps ≤ 4096 ∧ bps mod 32 = 0) as (Hb & Hba) by (destruct G; lia).
  assert (bps = 32 * (bps / 32)) as E32 by (pose proof (Z.div_mod bps 32); lia).
  assert (32 * i + 32 ≤ bps) as Hi32 by lia.
  assert (s * bps + bps ≤ spc * bps) as Hfit by nia. assert (0 ≤ s * bps) as Hsb by nia.
  assert (entry_place fs cl (s * bps + 32 * i)) as Hp.
  { split; [done|lia|rewrite Ecs; lia|].
    replace (s * bps + 32 * i) with ((s * (bps / 32) + i) * 32) by (rewrite E32 at 2; ring). by apply Z.mod_mul. }
  split; [done|]. split; [|lia]. rewrite <-(entry_sector fs d cl _ G Hp).
  assert ((s * bps + 32 * i) / bps = s) as -> by (rewrite Z.div_add_l, Z.div_small by lia; lia).
  assert ((s * bps + 32 * i) mod bps = 32 * i) as -> by (rewrite Z.add_comm, Z.mod_add, Z.mod_small by lia; lia).
  done.
Qed.

Section walk.
Context {A R : Type} (step : A → Z → list Z → option (A + R)) (I : A → Prop).
Context (Hstep : ∀ a off e, I a → length e = 32%nat → bytes e →
  ∃ r, step a off e = Some r ∧ ∀ a', r = inl a' → I a').

Lemma scan_total d cl off e es a : geom fs d → entry_place fs cl off → e = entry fs d cl off → I a →
  ∃ r, step a off e = Some r ∧ (∀ a', r = inl a' → I a') ∧
    scan step a ((cl, off, e) :: es) = match r with inl a' => scan step a' es | inr x => Some (inr (cl, x)) end.
Proof using Hstep.
  intros G Hp -> Ha.
  destruct (Hstep a off _ Ha (length_entry fs d cl off G Hp) (bytes_entry fs d cl off G Hp)) as (r & Er & Hr).
  exists r. split; [done|]. split; [done|]. simpl. by rewrite Er.
Qed.

Lemma wpe_each_entry d cl s a (Q : A + R → D → Prop) (R' : D → Prop) :
  geom fs d → valid fs cl → 0 ≤ s < spc → I a →
  (∀ r, scan step a (sector_entries d cl s) = Some (match r with inl a' => inl a' | inr x => inr (cl, x) end) →
     (∀ a', r = inl a' → I a') → Q r d) →
  wpe (each_entry fs (sec d (cluster_lba fs cl + s)) (λ a off, step a (u32 (s * bps + off))) a) Q R' d.
Proof using Hstep.
  intros G Hv Hs Ha HQ. assert (512 ≤ bps ≤ 4096 ∧ bps mod 32 = 0) as (Hb & Hba) by (destruct G; lia).
  assert (bps = 32 * (bps / 32)) as E32 by (pose proof (Z.div_mod bps 32); lia).
  set (m := bps / 32) in *. set (ent := λ i, (cl, s * bps + 32 * i, entry fs d cl (s * bps + 32 * i))).
  unfold each_entry.
  apply (wpe_while _ _ (λ st d', d' = d ∧ I st.2 ∧ ∃ i, st.1 = 32 * i ∧ 0 ≤ i ≤ m ∧
    scan step a (sector_entries d cl s) = scan step st.2 (ent <$> seqZ i (m - i))) (λ st _, m - st.1 / 32)).
  - split; [done|]. split; [done|]. exists 0. split; [done|]. split; [lia|]. by rewrite Z.sub_0_r.
  - simpl. rewrite Zdiv_0_l. lia.
  - intros [off a1] d' (-> & Ha1 & i & Hoff & Hi & Hsc). simpl in Hoff, Ha1, Hsc. subst off.
    destruct (Z.ltb_spec (32 * i) bps) as [Hlt|Hge].
    + destruct (entry_at d cl s i G Hv Hs) as (Hp & Esl & H32); [lia|].
      assert (0 ≤ s * bps) by nia. rewrite seqZ_cons, fmap_cons in Hsc by lia.
      destruct (scan_total d cl (s * bps + 32 * i) _ (ent <$> seqZ (Z.succ i) (Z.pred (m - i))) a1 G Hp eq_refl Ha1)
        as (r & Er & Hr & Esc).
      unfold ent at 1 in Hsc. rewrite Esc in Hsc. we_steps. eapply wpe_need; [rewrite u32_small by lia; rewrite Esl; exact Er|].
      we_steps. destruct r as [a'|x].
      * replace (32 * i + 32) with (32 * (i + 1)) by lia. split.
        -- split; [done|]. split; [by apply Hr|]. exists (i + 1). split; [done|]. split; [lia|]. simpl. rewrite Hsc. f_equal. f_equal. f_equal; lia.
        -- simpl. rewrite !(Z.mul_comm 32), !Z.div_mul by lia. lia.
      * by apply HQ.
    + we_steps. apply HQ; [|by intros ? [= <-]]. rewrite Hsc. by replace (m - i) with 0 by lia.
Qed.

Lemma wpe_each_dir_sector d cl a (Q : A + R → D → Prop) (R' : D → Prop) :
  geom fs d → valid fs cl → I a →
  (∀ r, scan step a (cluster_entries d cl) = Some (match r with inl a' => inl a' | inr x => inr (cl, x) end) →
     (∀ a', r = inl a' → I a') → Q r d) →
  wpe (each_dir_sector fs cl step a) Q R' d.
Proof using Hstep.
  intros G Hv Ha HQ. assert (1 ≤ spc ≤ 128) as Hspc by (destruct G; lia).
  unfold each_dir_sector. cbv zeta. rewrite (cluster_to_lba_eq fs d) by done.
  apply (wpe_while _ _ (λ st d', d' = d ∧ I st.2 ∧ 0 ≤ st.1 ≤ spc ∧
    scan step a (cluster_entries d cl) = scan step st.2 (mjoin (sector_entries d cl <$> seqZ st.1 (spc - st.1))))
    (λ st _, spc - st.1)).
  - split; [done|]. split; [done|]. split; [simpl; lia|]. simpl. by rewrite Z.sub_0_r.
  - simpl. lia.
  - intros [s a1] d' (-> & Ha1 & Hs & Hsc). simpl in Ha1, Hs, Hsc.
    destruct (Z.ltb_spec s spc) as [Hlt|Hge].
    + destruct (cluster_lba_range fs d cl s G Hv ltac:(lia)) as [Hon Hr]. rewrite u64_small by lia.
      rewrite seqZ_cons, fmap_cons in Hsc by lia.
      change (mjoin (sector_entries d cl s :: ?x)) with (sector_entries d cl s ++ mjoin x) in Hsc. rewrite scan_app in Hsc.
      we_steps. apply (wpe_read_sec fs); [done|done|]. we_steps. apply wpe_each_entry; [done|done|lia|done|].
      intros r Er Hr'. rewrite Er in Hsc. simpl in Hsc. we_steps. destruct r as [a'|x].
      * split; [|simpl; lia]. split; [done|]. split; [by apply Hr'|]. simpl. split; [lia|]. rewrite Hsc. f_equal. f_equal. f_equal. f_equal; lia.
      * by apply HQ.
    + we_steps. apply HQ; [|by intros ? [= <-]]. rewrite Hsc. by replace (spc - s) with 0 by lia.
Qed.

Lemma wpe_walk_dir d c l a (Q : Z * A + Z * R → D → Prop) (R' : D → Prop) :
  geom fs d → chain fs (fat fs d) c l → l ≠ [] → I a →
  (∀ r, scan step a (dir_entries d l) = Some (match r with inl (_, a') => inl a' | inr x => inr x end) →
     (∀ p a', r = inl (p, a') → I a' ∧ last l = Some p) → Q r d) →
  wpe (walk_dir fs c step a) Q R' d.
Proof using Hstep.
  intros G Hch Hne Ha HQ. pose proof (g_clusters _ _ G) as [Hc1 Hc2].
  pose proof (chain_length fs Hc2 _ _ _ ltac:(lia) Hch) as Hlen.
  assert (bps ≤ FAT32_MAX_SECTOR) by (destruct G; unfold FAT32_MAX_SECTOR; lia).
  unfold walk_dir. destruct (Z.ltb_spec FAT32_MAX_SECTOR bps); [lia|]. rewrite (step_limit fs d G).
  apply (wpe_while _ _ (λ st d', let '(cl, prev, steps, a1) := st in d' = d ∧ I a1 ∧ ∃ l1 l2, l = l1 ++ l2 ∧
    chain fs (fat fs d) cl l2 ∧ steps = Z.of_nat (length l1) ∧ (l1 ≠ [] → last l1 = Some prev) ∧
    scan step a (dir_entries d l) = scan step a1 (dir_entries d l2)) (λ st _, total_clusters fs - st.1.2)).
  - split; [done|]. split; [done|]. by exists [], l.
  - simpl. unfold END_OF_CHAIN in *. lia.
  - intros [[[cl prev] steps] a1] d' (-> & Ha1 & l1 & l2 & -> & Hc & -> & Hlast & Hsc).
    rewrite length_app in Hlen. destruct l2 as [|x l2].
    { rewrite in_chain_end by done. we_steps. rewrite app_nil_r in *. apply HQ; [done|]. intros p a' [= <- <-]. split; [done|]. by apply Hlast. }
    destruct Hc as (-> & Hv & Hc). rewrite (in_chain_valid fs d) by done. simpl in Hlen.
    destruct (Z.leb_spec (total_clusters fs + 1) (Z.of_nat (length l1))); [lia|].
    change (dir_entries d (x :: l2)) with (cluster_entries d x ++ dir_entries d l2) in Hsc. rewrite scan_app in Hsc.
    we_steps. apply wpe_each_dir_sector; [done|done|done|]. intros r Er Hr. rewrite Er in Hsc. simpl in Hsc. we_steps.
    destruct r as [a'|y].
    + we_steps. apply (wpe_read_fat fs); [done|done|]. rewrite u32_small by (unfold END_OF_CHAIN in *; lia).
      split; [|simpl; lia]. split; [done|]. split; [by apply Hr|]. exists (l1 ++ [x]), l2.
      split; [by rewrite <-app_assoc|]. split; [done|]. split; [rewrite length_app; simpl; lia|]. split; [by rewrite last_snoc|done].
    + we_steps. by apply HQ.
Qed.
End walk.
End dir.
