(* ===== verification/FatCreate.v ===== *)
(** * FAT32: creating and opening files

    A file that is created in the root directory is found there by its name,
    and it is found again after its entry changed. *)

From S2P Require Import Prelude Ring Loops Codec Part Fat32 FatVol FatRead FatWrite FatEntry FatName.

(** ** Scans *)

(** An entry that is neither free nor the end mark. *)
Definition used (e : list Z) : Prop := ∃ e0, arr_get e 0 = Some e0 ∧ e0 ≠ 0 ∧ e0 ≠ 0xE5.

Lemma scan_free_found es cl off :
  scan free_step tt es = Some (inr (cl, off)) →
  ∃ es1 e es2, es = es1 ++ (cl, off, e) :: es2 ∧ Forall (λ x, used x.2) es1 ∧ ¬ used e.
Proof.
  induction es as [|[[c o] e] es IH]; [done|]. cbn [scan].
  intros E. apply option.bind_Some in E as (r & Er & Hr). unfold free_step in Er. destruct (arr_get e 0) as [e0|] eqn:E0; [|done]. simpl in Er.
  destruct ((e0 =? 0) || (e0 =? 0xE5)) eqn:Eu; injection Er as <-.
  - injection Hr as <- <-. exists [], e, es. split; [done|]. split; [constructor|]. intros (x & Ex & H0 & H5).
    assert (x = e0) as -> by congruence. apply orb_true_iff in Eu as [?%Z.eqb_eq|?%Z.eqb_eq]; done.
  - destruct (IH Hr) as (es1 & e' & es2 & -> & Hu & Hn). exists ((c, o, e) :: es1), e', es2. split; [done|]. split; [|done].
    constructor; [|done]. apply orb_false_iff in Eu as [?%Z.eqb_neq ?%Z.eqb_neq]. by exists e0.
Qed.

Lemma scan_free_none es : scan free_step tt es = Some (inl tt) → Forall (λ x, used x.2) es.
Proof.
  induction es as [|[[c o] e] es IH]; [constructor|]. cbn [scan].
  intros E. apply option.bind_Some in E as (r & Er & Hr). unfold free_step in Er. destruct (arr_get e 0) as [e0|] eqn:E0; [|done]. simpl in Er.
  destruct ((e0 =? 0) || (e0 =? 0xE5)) eqn:Eu; injection Er as <-; [done|]. constructor; [|by apply IH].
  apply orb_false_iff in Eu as [?%Z.eqb_neq ?%Z.eqb_neq]. by exists e0.
Qed.

Section find.
Context (name : list Z).

Abbreviation fscan := (scan (find_step name)).

Definition not_found (r : lfn_state + Z * option found) : Prop :=
  match r with inr (_, Some _) => False | _ => True end.

(** A scan that found nothing went past the entries in use. *)
Lemma scan_find_past a es1 es2 r :
  fscan a (es1 ++ es2) = Some r → not_found r → Forall (λ x, used x.2) es1 → ∃ a1, fscan a es1 = Some (inl a1).
Proof.
  rewrite scan_app. intros E Hr Hu. apply option.bind_Some in E as ([a1|[cl x]] & E1 & E2); [by exists a1|].
  assert (x = None) as -> by (injection E2 as <-; by destruct x). exfalso. clear E2 Hr r. revert a E1.
  induction Hu as [|[[c o] e] es1 (e0 & E0 & H0 & H5) _ IH]; intros a E1; [done|]. cbn [scan] in E1.
  apply option.bind_Some in E1 as ([a'|x] & Es & E1); [by eapply IH|]. injection E1 as -> ->.
  unfold find_step in Es. simpl in E0. rewrite E0 in Es. simpl in Es.
  destruct (Z.eqb_spec e0 0); [done|]. destruct (Z.eqb_spec e0 0xE5); [done|].
  apply option.bind_Some in Es as ([st|] & _ & Es); [done|]. apply option.bind_Some in Es as (at_ & _ & Es).
  destruct (negb _); [done|]. destruct (_ || _); [|done].
  apply option.bind_Some in Es as (? & _ & Es). apply option.bind_Some in Es as (? & _ & Es). by apply option.bind_Some in Es as (? & _ & Es).
Qed.

(** The entry that is found. *)
Lemma scan_find_entry a es cl x : Forall (λ y, length y.2 = 32%nat) es → fscan a es = Some (inr (cl, Some x)) →
  ∃ e, (cl, d_off x, e) ∈ es ∧ plain_entry e ∧ x = Found (e_cluster e) (e_size e) (e_attr e) (d_off x).
Proof.
  intros Hl. revert a. induction Hl as [|[[c o] e] es He _ IH]; intros a E; [done|]. cbn [scan] in E.
  apply option.bind_Some in E as ([a'|y] & Es & E).
  - destruct (IH _ E) as (e' & Hin & Hp & Hx). exists e'. split; [by right|done].
  - injection E as -> ->. destruct (find_step_found name a o e x He Es) as [Hp ->]. exists e. simpl.
    split; [left|done].
Qed.

(** ** Changing an entry *)

Definition upd (dc off : Z) (e : list Z) (x : Z * Z * list Z) : Z * Z * list Z :=
  if decide (x.1 = (dc, off)) then (dc, off, e) else x.

Lemma upd_other dc off e (es : list (Z * Z * list Z)) : (∀ x, x ∈ es → x.1 ≠ (dc, off)) → upd dc off e <$> es = es.
Proof.
  intros Hes. induction es as [|x es IH]; [done|]. rewrite fmap_cons, IH; [|intros y Hy; apply Hes; by right].
  f_equal. unfold upd. rewrite decide_False; [done|]. apply Hes. by left.
Qed.

(** A file stays found when fields of its entry change. *)
Lemma scan_find_same a es dc off x e e' :
  Forall (λ y, length y.2 = 32%nat ∧ (y.1 = (dc, off) → y.2 = e)) es →
  length e = 32%nat → length e' = 32%nat → take 20 e' = take 20 e → plain_entry e →
  fscan a es = Some (inr (dc, Some x)) → d_off x = off →
  fscan a (upd dc off e' <$> es) = Some (inr (dc, Some (Found (e_cluster e') (e_size e') (e_attr e') off))).
Proof.
  intros Hes He He' Etk Hp. revert a. induction Hes as [|[[c o] e1] es [H32 Hat] _ IH]; intros a E Hoff; [done|].
  rewrite fmap_cons. cbn [scan] in E. apply option.bind_Some in E as ([a'|y] & Es & E).
  - unfold upd at 1. simpl. destruct (decide ((c, o) = (dc, off))) as [[= -> ->]|Hne]; cbn [scan].
    + simpl in Hat. rewrite (Hat eq_refl) in Es. rewrite (find_step_same name a off e e' He He' Etk Hp), Es. simpl. by apply IH.
    + rewrite Es. simpl. by apply IH.
  - injection E as -> ->. simpl in Hat, H32. destruct (find_step_found name a o e1 x H32 Es) as [_ Hx].
    assert (o = off) as -> by (subst off; by rewrite Hx).
    unfold upd at 1. simpl. rewrite decide_True by done. cbn [scan].
    rewrite (Hat eq_refl) in Es. by rewrite (find_step_same name a off e e' He He' Etk Hp), Es.
Qed.

(** A new entry in the first free place is found. *)
Lemma scan_find_new a es1 es2 r cl off e :
  fscan a (es1 ++ es2) = Some r → not_found r → Forall (λ x, used x.2) es1 →
  length e = 32%nat → plain_entry e → name_match_83 e name = true →
  ∀ es3, fscan a (es1 ++ (cl, off, e) :: es3) =
    Some (inr (cl, Some (Found (e_cluster e) (e_size e) (e_attr e) off))).
Proof.
  intros E Hr Hu He Hp Hm es3. destruct (scan_find_past a es1 es2 r E Hr Hu) as [a1 E1].
  rewrite scan_app, E1. cbn [mbind option_bind scan]. by rewrite (find_step_hit name a1 off e He Hp Hm).
Qed.
End find.

(** ** Root names *)

Definition root_name (path name : list Z) : Prop :=
  skip_slash path = name ∧ slash ∉ name ∧ name ≠ [] ∧ (length name ≤ 259)%nat.

Lemma last_slash_none p : slash ∉ p → last_slash p = None.
Proof.
  induction p as [|c p IH]; intros Hs; [done|]. simpl. rewrite IH by set_solver.
  destruct (Z.eqb_spec c slash); [set_solver|done].
Qed.

Lemma component_all n p : slash ∉ p → (length p ≤ n)%nat → component n p = (p, []).
Proof.
  revert p. induction n as [|n IH]; intros [|c p] Hs Hl; simpl in *; [done|lia|done|].
  destruct (Z.eqb_spec c slash); [set_solver|]. rewrite IH; [done|set_solver|lia].
Qed.

Lemma split_root path name : root_name path name → split_path path = Some ([], name).
Proof.
  intros (E & Hs & Hne & Hl). unfold split_path. rewrite E. rewrite bool_decide_eq_false_2 by done.
  rewrite last_slash_none by done. by rewrite take_ge.
Qed.

Lemma component_root path name : root_name path name → next_component name = (name, []).
Proof. intros (E & Hs & Hne & Hl). unfold next_component. by rewrite component_all. Qed.

(** * FAT32: files of the root directory

    [fat32_create] and [fat32_open] on the root directory of a consistent
    volume. *)

Section root.
Context {D : Type} `{BlockDeviceLaws D}.
Context (fs : fat32_fs).
Implicit Types d : D.

Abbreviation bps := (bytes_per_sector fs).
Abbreviation spc := (sectors_per_cluster fs).
Abbreviation lbas := (lbas fs).
Abbreviation content := (content fs).
Abbreviation cs := (cluster_size fs).
Abbreviation dir_entries := (dir_entries fs).

(** ** The entries of a directory *)

Lemma elem_of_dir_entries d l x : geom fs d → all_valid fs l → x ∈ dir_entries d l →
  x.1.1 ∈ l ∧ entry_place fs x.1.1 x.1.2 ∧ x.2 = entry fs d x.1.1 x.1.2.
Proof.
  intros G Hl Hx. unfold FatName.dir_entries in Hx. apply list_elem_of_join in Hx as (es & Hx & Hes).
  apply list_elem_of_fmap in Hes as (c & -> & Hc). unfold cluster_entries in Hx.
  apply list_elem_of_join in Hx as (es & Hx & Hes). apply list_elem_of_fmap in Hes as (s & -> & Hs).
  apply elem_of_seqZ in Hs. unfold sector_entries in Hx. apply list_elem_of_fmap in Hx as (i & -> & Hi).
  apply elem_of_seqZ in Hi. unfold all_valid in Hl. rewrite Forall_forall in Hl. simpl.
  destruct (entry_at fs d c s i G (Hl c Hc)) as (Hp & _); [lia|lia|done].
Qed.

Lemma fmap_join {A B} (f : A → B) (ls : list (list A)) : f <$> mjoin ls = mjoin (fmap f <$> ls).
Proof.
  induction ls as [|l ls IH]; [done|]. change (mjoin (l :: ls)) with (l ++ mjoin ls). rewrite fmap_app, IH. done.
Qed.

(** The entries after a change of the entries. *)
Lemma dir_entries_map d d' l (g : Z * Z * list Z → Z * Z * list Z) :
  geom fs d → all_valid fs l →
  (∀ c o, c ∈ l → entry_place fs c o → g (c, o, entry fs d c o) = (c, o, entry fs d' c o)) →
  dir_entries d' l = g <$> dir_entries d l.
Proof.
  intros G Hl Hg. unfold all_valid in Hl. rewrite Forall_forall in Hl.
  unfold FatName.dir_entries. rewrite fmap_join, <-list_fmap_compose. f_equal. apply list_fmap_ext.
  intros k c Hk. apply list_elem_of_lookup_2 in Hk. simpl. unfold cluster_entries.
  rewrite fmap_join, <-list_fmap_compose. f_equal. apply list_fmap_ext. intros k' s Hs.
  apply list_elem_of_lookup_2, elem_of_seqZ in Hs. simpl. unfold sector_entries. rewrite <-list_fmap_compose.
  apply list_fmap_ext. intros k'' i Hi. apply list_elem_of_lookup_2, elem_of_seqZ in Hi. simpl. symmetry. apply Hg; [done|].
  destruct (entry_at fs d c s i G (Hl c Hk)) as (Hp & _); [lia|lia|done].
Qed.

Lemma dir_entries_length d l : geom fs d → all_valid fs l → Forall (λ y, length y.2 = 32%nat) (dir_entries d l).
Proof.
  intros G Hl. apply Forall_forall. intros x Hx. destruct (elem_of_dir_entries d l x G Hl Hx) as (_ & Hp & ->).
  by apply length_entry.
Qed.

(** The entries after the entry at [dc], [off] became [e]. *)
Lemma dir_entries_upd d d' l dc off e : geom fs d → all_valid fs l → entry_place fs dc off → length e = 32%nat →
  content d' [dc] = splice (content d [dc]) (Z.to_nat off) e →
  (∀ c, c ∈ l → c ≠ dc → content d' [c] = content d [c]) →
  dir_entries d' l = upd dc off e <$> dir_entries d l.
Proof.
  intros G Hl Hp He Hin Hout. apply dir_entries_map; [done|done|]. intros c o Hc Ho. unfold upd. simpl.
  pose proof (length_content fs d [dc] G (valid_one fs dc (ep_valid _ _ _ Hp))) as Hlen. simpl length in Hlen.
  pose proof Hp as [_ Hp1 Hp2 Hp3]. pose proof Ho as [_ Ho1 Ho2 Ho3].
  destruct (decide ((c, o) = (dc, off))) as [[= -> ->]|Hne].
  - f_equal. symmetry. unfold entry, zslice. rewrite Hin. apply slice_splice_at; [done|]. change (Z.to_nat 32) with 32%nat. lia.
  - f_equal. unfold entry, zslice. destruct (decide (c = dc)) as [->|Hcd]; [|by rewrite Hout].
    rewrite Hin, slice_splice_ne; [done|lia|].
    assert (o ≠ off) by congruence. rewrite He. change (Z.to_nat 32) with 32%nat.
    pose proof (Z.div_mod o 32 ltac:(lia)). pose proof (Z.div_mod off 32 ltac:(lia)). lia.
Qed.

(** The contents of the clusters give the entries. *)
Lemma dir_entries_ext d d' l : geom fs d → all_valid fs l → (∀ c, c ∈ l → content d' [c] = content d [c]) →
  dir_entries d' l = dir_entries d l.
Proof.
  intros G Hl E. rewrite <-(list_fmap_id (dir_entries d l)). apply dir_entries_map; [done|done|]. intros c o Hc _.
  unfold entry. simpl. by rewrite E.
Qed.

Lemma dir_entries_app d l m : dir_entries d (l ++ m) = dir_entries d l ++ dir_entries d m.
Proof. unfold FatName.dir_entries. by rewrite fmap_app, join_app. Qed.

(** A cluster has a first entry. *)
Lemma cluster_first d c : geom fs d → valid fs c →
  entry_place fs c 0 ∧ ∃ es, dir_entries d [c] = (c, 0, entry fs d c 0) :: es.
Proof.
  intros G Hc. assert (512 ≤ bps ∧ 1 ≤ spc) as [Hb Hs] by (destruct G; lia).
  assert (16 ≤ bps / 32) by (apply Z.div_le_lower_bound; lia).
  destruct (entry_at fs d c 0 0 G Hc) as (Hp & _); [lia|lia|]. split; [done|].
  unfold FatName.dir_entries, cluster_entries, sector_entries. rewrite (seqZ_cons 0 spc) by lia. rewrite (seqZ_cons 0 (bps / 32)) by lia.
  eexists. reflexivity.
Qed.

(** ** Finding *)

Lemma wpe_find d c l name (Q : found * Z → D → Prop) (R : D → Prop) :
  geom fs d → chain fs (fat fs d) c l → l ≠ [] →
  (∀ cl x, scan (find_step name) lfn_reset (dir_entries d l) = Some (inr (cl, Some x)) → Q (x, cl) d) →
  (∀ r, scan (find_step name) lfn_reset (dir_entries d l) = Some r → not_found r → R d) →
  wpe (find_in_dir fs c name) Q R d.
Proof.
  intros G Hch Hne HQ HR. unfold find_in_dir. we_steps.
  apply (wpe_walk_dir fs (find_step name) lfn_ok) with (l := l); [|done|done|done|apply lfn_reset_ok|].
  - intros a off e Ha He _. by apply find_step_total.
  - intros [[p a]|[cl [x|]]] E _; we_steps; [by eapply HR|by apply HQ|by eapply HR].
Qed.

(** The outcome of a search is determined. *)
Lemma find_outcome d l name : geom fs d → chain fs (fat fs d) (root_cluster fs) l → l ≠ [] →
  ∃ r, scan (find_step name) lfn_reset (dir_entries d l) = Some r.
Proof.
  intros G Hch Hne. assert (wpe (find_in_dir fs (root_cluster fs) name)
    (λ _ _, ∃ r, scan (find_step name) lfn_reset (dir_entries d l) = Some r)
    (λ _, ∃ r, scan (find_step name) lfn_reset (dir_entries d l) = Some r) d) as Hw.
  { apply (wpe_find _ _ l); [done..| |]; eauto. }
  unfold wpe, wp in Hw. destruct (find_in_dir fs (root_cluster fs) name d) as [[[?|] ?]|]; done.
Qed.

Lemma wpe_open_root d l path name (Q : fat32_file → D → Prop) (R : D → Prop) :
  geom fs d → chain fs (fat fs d) (root_cluster fs) l → l ≠ [] → root_name path name →
  (∀ cl x, scan (find_step name) lfn_reset (dir_entries d l) = Some (inr (cl, Some x)) →
     Q (Fat32File (d_cluster x) (d_size x) 0 cl (d_off x) (d_attr x)) d) →
  (∀ r, scan (find_step name) lfn_reset (dir_entries d l) = Some r → not_found r → R d) →
  wpe (fat32_open fs path) Q R d.
Proof.
  intros G Hch Hne Hrn HQ HR. pose proof Hrn as (Ep & Hs & Hn & Hlen). unfold fat32_open. cbv zeta. rewrite Ep.
  rewrite bool_decide_eq_false_2 by done.
  apply (wpe_while _ _ (λ st d', st = (name, root_cluster fs) ∧ d' = d) (λ _ _, 0)); [done|lia|].
  intros st d' [-> ->]. rewrite bool_decide_eq_false_2 by done. rewrite (component_root path name Hrn).
  we_steps. apply (wpe_find _ _ l); [done..| |done]. intros cl x E. we_steps.
  by apply HQ.
Qed.

(** ** A free place *)

Lemma wpe_free_slot d c l (Q : Z * Z → D → Prop) (R : D → Prop) :
  geom fs d → chain fs (fat fs d) c l → l ≠ [] →
  (∀ cl off, scan free_step tt (dir_entries d l) = Some (inr (cl, off)) → Q (cl, off) d) →
  (∀ l1 p n d', l = l1 ++ [p] → scan free_step tt (dir_entries d l) = Some (inl tt) → allocated fs d d' p n → Q (n, 0) d') →
  (full fs d → R d) →
  wpe (find_free_dir_slot fs c) Q R d.
Proof.
  intros G Hch Hne HQ HQn HR. unfold find_free_dir_slot. we_steps.
  apply (wpe_walk_dir fs free_step (λ _, True)) with (l := l); [|done|done|done|done|].
  { intros a off e _ He _. destruct (free_step_total a off e He) as [r Er]. by exists r. }
  intros [[p []]|[cl off]] E Hl; we_steps; [|by apply HQ].
  destruct (Hl p tt eq_refl) as [_ Hlast]. apply last_Some in Hlast as [l1 ->].
  apply (wpe_alloc fs); [done| | |].
  - right. assert (p ∈ l1 ++ [p]) by set_solver. split; [by eapply chain_valid|by eapply chain_used].
  - intros n d' Ha _. destruct (Z.eqb_spec n 0) as [->|_]; [by destruct (al_valid _ _ _ _ _ Ha); lia|]. we_steps. by eapply HQn.
  - intros Hf. we_steps. by apply HR.
Qed.

(** ** Creating *)

Lemma wpe_write_entry d dc off e (Q : unit → D → Prop) (R : D → Prop) :
  geom fs d → entry_place fs dc off → length e = 32%nat → bytes e →
  (∀ d', entry_step fs d d' dc off e → Q tt d') → wpe (write_dir_entry fs dc off e) Q R d.
Proof.
  intros G Hp He Hb HQ. destruct (entry_split fs d dc off G Hp) as (_ & Hm & Hm32 & _).
  eapply wpe_update_entry; [done|done|done|done| |exact HQ]. intros l Hl _. apply put_bytes_in; lia.
Qed.

(** [d'] is [d] with a new entry [e] of the name in the root directory. *)
Record created d d' (l l' name : list Z) (cl off : Z) (e : list Z) : Prop := {
  cr_geom : geom fs d';
  cr_chain : chain fs (fat fs d') (root_cluster fs) l';
  cr_some : l' ≠ [];
  cr_place : entry_place fs cl off;
  cr_in : cl ∈ l';
  cr_entry : entry fs d' cl off = e;
  cr_found : scan (find_step name) lfn_reset (dir_entries d' l') =
    Some (inr (cl, Some (Found (e_cluster e) (e_size e) (e_attr e) off)));
  cr_names x : x ∈ dir_entries d l → used x.2 → x ∈ dir_entries d' l';
  cr_other c2 l2 : chain fs (fat fs d) c2 l2 → (∀ x, x ∈ l2 → x ∉ l) →
    chain fs (fat fs d') c2 l2 ∧ content d' l2 = content d l2
}.

(** An entry that takes the first free place of the directory. *)
Lemma created_here d d' l name r cl off e : geom fs d → chain fs (fat fs d) (root_cluster fs) l → l ≠ [] →
  scan (find_step name) lfn_reset (dir_entries d l) = Some r → not_found r →
  scan free_step tt (dir_entries d l) = Some (inr (cl, off)) →
  length e = 32%nat → plain_entry e → name_match_83 e name = true →
  entry_place fs cl off → cl ∈ l → entry_step fs d d' cl off e → created d d' l l name cl off e.
Proof.
  intros G Hch Hne Hr Hnf Hfree He Hpl Hm Hp Hcl Hst. pose proof (chain_all_valid fs _ _ _ Hch) as Hav.
  destruct (scan_free_found _ _ _ Hfree) as (es1 & e1 & es2 & Ees & Hu & He1).
  assert (∀ x, x ∈ dir_entries d l → used x.2 → x.1 ≠ (cl, off)) as Hdiff.
  { intros x Hx Hux Ex. apply He1. destruct (elem_of_dir_entries d l (cl, off, e1) G Hav) as (_ & _ & E1).
    { rewrite Ees. set_solver. } destruct (elem_of_dir_entries d l x G Hav Hx) as (_ & _ & E2).
    simpl in E1. rewrite E1. by rewrite E2, Ex in Hux. }
  assert (dir_entries d' l = upd cl off e <$> dir_entries d l) as Eu.
  { apply dir_entries_upd; [done..|apply Hst|]. intros c Hc Hcn. apply (entry_step_other fs d d' cl off e); [done| |done|set_solver].
    apply valid_one. by eapply chain_valid. }
  split; [apply Hst| |done|done|done|by apply (entry_step_in fs d)| | |].
  - eapply fat_chain_ext; [|done]. intros x Hx. apply Hst. by eapply chain_valid.
  - rewrite Eu, Ees, fmap_app, fmap_cons. rewrite upd_other.
    2:{ intros x Hx. apply Hdiff; [rewrite Ees; set_solver|]. rewrite Forall_forall in Hu. by apply (Hu x). }
    assert (upd cl off e (cl, off, e1) = (cl, off, e)) as -> by (unfold upd; by rewrite decide_True). rewrite Ees in Hr.
    by eapply scan_find_new.
  - intros x Hx Hux. rewrite Eu. apply list_elem_of_fmap. exists x. split; [|done]. unfold upd. rewrite decide_False; [done|]. by apply Hdiff.
  - intros c2 l2 Hch2 Hap. split.
    + eapply fat_chain_ext; [|done]. intros x Hx. apply Hst. by eapply chain_valid.
    + apply (entry_step_other fs d d' cl off e); [done|by eapply chain_all_valid|done|]. intros Hin. by apply (Hap cl).
Qed.

(** An entry in a new cluster at the end of the directory. *)
Lemma created_new d d1 d' l1 p n name r e : geom fs d → chain fs (fat fs d) (root_cluster fs) (l1 ++ [p]) →
  scan (find_step name) lfn_reset (dir_entries d (l1 ++ [p])) = Some r → not_found r →
  scan free_step tt (dir_entries d (l1 ++ [p])) = Some (inl tt) →
  length e = 32%nat → plain_entry e → name_match_83 e name = true →
  allocated fs d d1 p n → entry_step fs d1 d' n 0 e → created d d' (l1 ++ [p]) (l1 ++ [p; n]) name n 0 e.
Proof.
  intros G Hch Hr Hnf Hfree He Hpl Hm Ha Hst. pose proof (chain_all_valid fs _ _ _ Hch) as Hav.
  pose proof (al_valid _ _ _ _ _ Ha) as Hn. pose proof (al_geom _ _ _ _ _ Ha) as G1. pose proof (fi_geom _ _ _ _ _ Hst) as G'.
  pose proof (scan_free_none _ Hfree) as Hu. destruct (cluster_first d' n G' Hn) as [Hp (es & Ees)].
  assert (l1 ++ [p; n] = (l1 ++ [p]) ++ [n]) as El by (by rewrite <-app_assoc).
  assert (n ∉ l1 ++ [p]) as Hnl by (intros Hin; apply (chain_used fs d _ _ n G Hch Hin), Ha).
  pose proof (g_clusters _ _ G) as [_ Hc2].
  assert (∀ l2, all_valid fs l2 → n ∉ l2 → content d' l2 = content d l2) as Hct.
  { intros l2 Hv2 Hn2. rewrite (entry_step_other fs d1 d' n 0 e l2 G1 Hv2 Hst Hn2). apply content_ext.
    intros j Hj. apply Ha; [by eapply lbas_data|]. intros s Hs ->. by apply Hn2, (elem_of_lbas_cluster fs n s). }
  assert (dir_entries d' (l1 ++ [p]) = dir_entries d (l1 ++ [p])) as Eold.
  { apply dir_entries_ext; [done|done|]. intros c Hc. apply Hct; [apply valid_one; by eapply chain_valid|]. set_solver. }
  assert (entry fs d' n 0 = e) as Een by (by apply (entry_step_in fs d1)).
  assert (∀ x, valid fs x → fat fs d' x = if decide (x = p) then n else if decide (x = n) then 0x0FFFFFFF else fat fs d x) as Hf.
  { intros x Hx. rewrite (fi_fat _ _ _ _ _ Hst) by done. by apply Ha. }
  split; [done| |by destruct l1|done|set_solver|done| | |].
  - eapply fat_chain_ext; [|apply (chain_extend fs Hc2 (fat fs d) _ l1 p n Hch Hn Hnl)]. intros x Hx. apply Hf.
    rewrite El in Hx. apply elem_of_app in Hx as [Hx|Hx%list_elem_of_singleton]; [by eapply chain_valid|by subst].
  - rewrite El, dir_entries_app, Eold, Ees, Een. rewrite <-(app_nil_r (dir_entries d _)) in Hr. by eapply scan_find_new.
  - intros x Hx _. rewrite El, dir_entries_app, Eold. set_solver.
  - intros c2 l2 Hch2 Hap.
    assert (n ∉ l2) as Hn2 by (intros Hin; apply (chain_used fs d _ _ n G Hch2 Hin), Ha).
    split; [|apply Hct; [by eapply chain_all_valid|done]].
    eapply fat_chain_ext; [|done]. intros x Hx. rewrite Hf by (by eapply chain_valid).
    rewrite !decide_False; [done|by intros ->|]. intros ->. apply (Hap p Hx). set_solver.
Qed.

Lemma attr_ok a : is_byte a → Z.land a (Z.lor ATTR_DIR ATTR_VOLUME) = 0 →
  let a' := u8 (Z.lor a ATTR_ARCHIVE) in
  is_byte a' ∧ a' ≠ ATTR_LFN ∧ Z.land a' ATTR_VOLUME = 0 ∧ Z.land a' ATTR_DIR = 0 ∧ Z.land a ATTR_DIR = 0.
Proof.
  intros Ha Hd a'.
  assert (forallb (λ a, let a' := u8 (Z.lor a ATTR_ARCHIVE) in negb (Z.land a (Z.lor ATTR_DIR ATTR_VOLUME) =? 0) ||
    ((0 <=? a') && (a' <? 256) && negb (a' =? ATTR_LFN) && (Z.land a' ATTR_VOLUME =? 0) && (Z.land a' ATTR_DIR =? 0) &&
     (Z.land a ATTR_DIR =? 0))) (seqZ 0 256) = true) as Hall by (vm_compute; reflexivity).
  rewrite forallb_forall in Hall. specialize (Hall a). cbv zeta in Hall. rewrite Hd in Hall. fold a' in Hall. simpl negb in Hall.
  rewrite orb_false_l in Hall.
  assert (In a (seqZ 0 256)) as Hin by (apply list_elem_of_In, elem_of_seqZ; unfold is_byte in Ha; lia).
  specialize (Hall Hin). rewrite !andb_true_iff, negb_true_iff, !Z.eqb_eq, Z.eqb_neq, Z.leb_le, Z.ltb_lt in Hall.
  unfold is_byte. tauto.
Qed.

(** A name whose entry can be told from a free one. *)
Definition name_ok (name : list Z) : Prop := Forall (λ c, 0 < c < 256) name ∧ head name ≠ Some 0xE5.

Lemma upper_byte c : 0 < c < 256 → is_byte (upper c) ∧ upper c ≠ 0 ∧ (c ≠ 0xE5 → upper c ≠ 0xE5).
Proof. intros Hc. unfold upper, is_byte. destruct (Z.leb_spec 97 c), (Z.leb_spec c 122); simpl; lia. Qed.

Lemma bytes_upper l : Forall (λ c, 0 < c < 256) l → bytes (upper_str_n l).
Proof. intros Hl. apply Forall_fmap. eapply Forall_impl; [exact Hl|]. intros c Hc. by apply upper_byte. Qed.

Lemma bytes_pattern name : Forall (λ c, 0 < c < 256) name → bytes (short_pattern name).
Proof.
  intros Hn. apply bytes_upper. cbv zeta. destruct (until_split (λ c, c =? dot) name) as (r & E & _).
  assert (Forall (λ c, 0 < c < 256) (until (λ c, c =? dot) name)) as Hb by (rewrite E in Hn; by apply Forall_app in Hn as [? _]).
  assert (∀ n, Forall (λ c, 0 < c < 256) (replicate n space)) as Hsp.
  { intros n. apply Forall_replicate. unfold space. lia. }
  set (base := take 8 _). assert (Forall (λ c, 0 < c < 256) (drop (length base) name)) as Hd by (by apply Forall_drop).
  repeat apply Forall_app_2; try apply Hsp; [by apply Forall_take|].
  destruct (drop (length base) name) as [|c ext]; [constructor|]. destruct (c =? dot); [|constructor].
  apply Forall_cons in Hd as [_ Hd]. by apply Forall_take.
Qed.

(** The entry of a new file. *)
Lemma new_entry_ok name short at_ : build_short_name name = Some short → name_ok name → is_byte at_ →
  Z.land at_ (Z.lor ATTR_DIR ATTR_VOLUME) = 0 →
  let e := dir_entry short (u8 (Z.lor at_ ATTR_ARCHIVE)) 0 0 in
  length e = 32%nat ∧ bytes e ∧ plain_entry e ∧ name_match_83 e name = true ∧ e_cluster e = 0 ∧ e_size e = 0 ∧
  e_attr e = u8 (Z.lor at_ ATTR_ARCHIVE).
Proof.
  intros Hb [Hn Hh] Hat Hdir e. destruct (build_short_pattern name short Hb) as (Es & Hl & c & rest & -> & _ & Hs0).
  destruct (attr_ok at_ Hat Hdir) as (Ha & Ha1 & Ha2 & _). pose proof (bytes_pattern _ Hn) as Hsb. rewrite <-Es in Hsb.
  destruct (dir_entry_fields short (u8 (Z.lor at_ ATTR_ARCHIVE)) 0 0 Hl Ha Hsb) as (He & Heb & Ht & H11 & Hec & Hes); [lia|lia|].
  fold e in He, Heb, Ht, H11, Hec, Hes. apply Forall_cons in Hn as [Hc _]. simpl in Hh.
  assert (e !! 0%nat = Some (upper c)) as He0 by (rewrite <-Hs0, <-Ht; by rewrite lookup_take_lt by lia).
  destruct (upper_byte c Hc) as (_ & Hu0 & Hu5).
  split; [done|]. split; [done|]. split.
  - exists (upper c), (u8 (Z.lor at_ ATTR_ARCHIVE)). split_and!; try done. apply Hu5. congruence.
  - split; [apply bool_decide_eq_true; congruence|]. unfold e_attr. by rewrite H11.
Qed.

Lemma wpe_fat_create d l path name at_ :
  geom fs d → chain fs (fat fs d) (root_cluster fs) l → l ≠ [] → root_name path name → name_ok name →
  is_byte at_ → Z.land at_ (Z.lor ATTR_DIR ATTR_VOLUME) = 0 →
  wpe (fat32_create fs path at_) (λ _ d', ∃ l' cl off e, created d d' l l' name cl off e ∧
      e_cluster e = 0 ∧ e_size e = 0 ∧ e_attr e = u8 (Z.lor at_ ATTR_ARCHIVE))
    (λ d', d' = d ∧ (full fs d ∨ build_short_name name = None ∨
      ∃ x, scan (find_step name) lfn_reset (dir_entries d l) = Some (inr x) ∧ x.2 ≠ None)) d.
Proof.
  intros G Hch Hne Hrn Hok Hat Hdir. destruct (attr_ok at_ Hat Hdir) as (_ & _ & _ & _ & Hnd).
  unfold fat32_create. rewrite (split_root path name Hrn). we_steps.
  unfold resolve_dir_cluster. apply (wpe_while _ _ (λ st d', st = ([], root_cluster fs) ∧ d' = d) (λ _ _, 0)); [done|simpl; lia|].
  intros st d' [-> ->]. rewrite bool_decide_eq_true_2 by done. we_steps. apply (wpe_find _ _ l); [done..| |].
  { intros cl x E. we_steps. split; [done|]. right; right. by exists (cl, Some x). }
  intros r Er Hnf. we_steps. destruct (build_short_name name) as [short|] eqn:Hb; we_steps; [|by auto].
  destruct (new_entry_ok name short at_ Hb Hok Hat Hdir) as (He & Heb & Hpl & Hm & Hec & Hes & Hea).
  set (e := dir_entry short _ 0 0) in *. rewrite Hnd. simpl. we_steps.
  apply (wpe_free_slot _ _ l); [done..| | |].
  - intros cl off Hfree. we_steps. simpl. pose proof (chain_all_valid fs _ _ _ Hch) as Hav.
    destruct (scan_free_found _ _ _ Hfree) as (es1 & e1 & es2 & Ees & _ & _).
    destruct (elem_of_dir_entries d l (cl, off, e1) G Hav) as (Hcl & Hp & _); [rewrite Ees; set_solver|]. simpl in Hcl, Hp.
    apply wpe_write_entry; [done..|]. intros d' Hst. we_steps. exists l, cl, off, e. split; [|done]. by eapply created_here.
  - intros l1 p n d1 -> Hfree Ha. we_steps. simpl. destruct (cluster_first d1 n (al_geom _ _ _ _ _ Ha) (al_valid _ _ _ _ _ Ha)) as [Hp _].
    apply wpe_write_entry; [apply Ha|done..|]. intros d' Hst. we_steps. exists (l1 ++ [p; n]), n, 0, e. split; [|done]. by eapply created_new.
  - intros Hf. we_steps. simpl. we_steps. by auto.
Qed.
End root.
