(* ===== verification/FatTrunc.v ===== *)
(** * FAT32: truncating a file

    [fat32_truncate] keeps the clusters the new size needs and frees the
    others. *)

From S2P Require Import Prelude Ring Loops Codec Part Fat32 FatVol FatRead FatWrite FatEntry FatName.

Section trunc.
Context {D : Type} `{BlockDeviceLaws D}.
Context (fs : fat32_fs).
Implicit Types d : D.

Abbreviation content := (content fs).
Abbreviation cs := (cluster_size fs).

(** The chain up to a cluster that becomes its end. *)
Lemma chain_cut F G c l x l2 : chain fs F c (l ++ x :: l2) → (∀ y, y ∈ l → G y = F y) → END_OF_CHAIN ≤ G x →
  chain fs G c (l ++ [x]).
Proof.
  revert c. induction l as [|y l IH]; intros c Hch HG Hx.
  - destruct Hch as (-> & Hv & _). done.
  - destruct Hch as (-> & Hv & Hch). split; [done|]. split; [done|]. rewrite HG by set_solver.
    apply IH; [done| |done]. intros z Hz. apply HG. set_solver.
Qed.

Lemma wpe_walk_chain d c l k x (Q : Z → D → Prop) (R : D → Prop) :
  geom fs d → chain fs (fat fs d) c l → l !! k = Some x → Q x d →
  wpe (fat32_walk_chain fs c (Z.of_nat k)) Q R d.
Proof.
  intros G Hch Hk HQ. pose proof (g_clusters _ _ G) as [Hc1 Hc2].
  pose proof (chain_length fs Hc2 _ _ _ ltac:(lia) Hch) as Hlen. pose proof (lookup_lt_Some _ _ _ Hk) as Hkl.
  unfold fat32_walk_chain. rewrite (step_limit fs d G).
  apply (wpe_while _ _ (λ st d', d' = d ∧ ∃ i : nat, st.1 = Z.of_nat i ∧ (i ≤ k)%nat ∧ l !! i = Some st.2)
    (λ st _, Z.of_nat k - st.1)).
  - split; [done|]. exists 0%nat. split; [done|]. split; [lia|]. destruct l; [done|]. by destruct Hch as (-> & _).
  - simpl. unfold END_OF_CHAIN in *. lia.
  - intros [i y] d' (-> & j & Hj & Hjk & Hy). simpl in Hj, Hy. subst i. destruct (Z.ltb_spec (Z.of_nat j) (Z.of_nat k)) as [Hlt|Hge].
    + destruct (chain_at fs _ _ _ _ _ Hch Hy) as [Hv Hnext]. rewrite (in_chain_valid fs d) by done. simpl.
      destruct (Z.leb_spec (total_clusters fs + 1) (Z.of_nat j)); [lia|]. we_steps. apply (wpe_read_fat fs); [done|done|].
      destruct (l !! S j) as [z|] eqn:Hz; [|apply lookup_ge_None in Hz; lia]. destruct Hnext as [-> _].
      split; [|simpl; lia]. split; [done|]. exists (S j). simpl. split; [lia|]. split; [lia|done].
    + we_steps. assert (j = k) as -> by lia. by assert (y = x) as -> by congruence.
Qed.

(** The clusters [n] bytes need. *)
Definition needed (n : Z) : nat := Z.to_nat ((n + cs - 1) / cs).

Record truncated d d' (f : fat32_file) (l : list Z) (n : Z) (f' : fat32_file) : Prop := {
  tr_geom : geom fs d';
  tr_size : size f' = n;
  tr_pos : pos f' = Z.min (pos f) n;
  tr_dir : dir_cluster f' = dir_cluster f ∧ dir_offset f' = dir_offset f ∧ attr f' = attr f;
  tr_file : file_on fs d' f' (take (needed n) l);
  tr_synced : synced fs d' f' (take (needed n) l);
  tr_bytes : file_bytes fs d' f' (take (needed n) l) = take (Z.to_nat n) (file_bytes fs d f l);
  tr_free x : x ∈ drop (needed n) l → fat fs d' x = 0;
  tr_fat x : valid fs x → x ∉ l → fat fs d' x = fat fs d x;
  tr_other l2 : all_valid fs l2 → dir_cluster f ∉ l2 → content d' l2 = content d l2
}.

Lemma needed_bounds d n m : geom fs d → 0 ≤ n → n < m * cs → Z.of_nat (needed n) ≤ m ∧ n ≤ Z.of_nat (needed n) * cs ∧
  (0 < n → 1 ≤ Z.of_nat (needed n)).
Proof.
  intros G Hn Hm. destruct (cluster_size_eq fs d G) as [Ecs Hcs]. rewrite <-Ecs in Hcs. clear Ecs. unfold needed.
  pose proof (Z.div_pos (n + cs - 1) cs ltac:(lia) ltac:(lia)).
  pose proof (Z.div_mod (n + cs - 1) cs ltac:(lia)). pose proof (Z.mod_pos_bound (n + cs - 1) cs ltac:(lia)).
  rewrite Z2Nat.id by done. split; [nia|]. split; nia.
Qed.

Lemma content_take d l k : all_valid fs l → geom fs d →
  content d (take k l) = take (Z.to_nat (Z.of_nat (length (take k l)) * cs)) (content d l).
Proof.
  intros Hl G. assert (all_valid fs (take k l)) as Ht by (by apply Forall_take).
  pose proof (length_content fs d (take k l) G Ht) as Hlen.
  rewrite <-Hlen, Nat2Z.id. rewrite <-(take_drop k l) at 3. by rewrite content_app, take_app_length.
Qed.

(** The first bytes of the file are in the clusters that stay. *)
Lemma file_bytes_take d d' f f' l n k : geom fs d → all_valid fs l → 0 ≤ n ≤ size f →
  n ≤ Z.of_nat (length (take k l)) * cs → content d' (take k l) = content d (take k l) → size f' = n →
  file_bytes fs d' f' (take k l) = take (Z.to_nat n) (file_bytes fs d f l).
Proof.
  intros G Hl Hn Hk Hc Hs. unfold file_bytes, zslice, slice. rewrite Hc, (content_take d l k Hl G), Hs, !drop_0, !take_take.
  f_equal. lia.
Qed.

(** The entry gets its new size. *)
Lemma wpe_set_size d f n (Q : unit → D → Prop) (R : D → Prop) :
  geom fs d → entry_place fs (dir_cluster f) (dir_offset f) → 0 ≤ n < 2 ^ 32 →
  (∀ d' e, length e = 32%nat → entry_step fs d d' (dir_cluster f) (dir_offset f) e →
     e_size (entry fs d' (dir_cluster f) (dir_offset f)) = n →
     e_cluster (entry fs d' (dir_cluster f) (dir_offset f)) = e_cluster (entry fs d (dir_cluster f) (dir_offset f)) → Q tt d') →
  wpe (update_dir_entry_size fs (dir_cluster f) (dir_offset f) n) Q R d.
Proof.
  intros G Hp Hn HQ. apply (wpe_update_size fs); [done|done|]. intros d' Hst.
  pose proof (length_entry fs d _ _ G Hp) as Hel. set (e := with_size _ n) in Hst.
  assert (length e = 32%nat) as He by (unfold e, with_size; rewrite length_splice; rewrite ?length_le_bytes; lia).
  pose proof (entry_step_in fs d d' _ _ e G Hp He Hst) as Ee. apply (HQ d' e He Hst); rewrite Ee; unfold e.
  - by apply size_with_size.
  - by apply cluster_with_size.
Qed.

Lemma all_valid_file d f l : file_on fs d f l → all_valid fs l.
Proof. intros [Hch _ _ _]. destruct l; [constructor|]. by eapply chain_all_valid. Qed.

(** Cutting to nothing. *)
Lemma wpe_truncate_all d f l :
  geom fs d → file_on fs d f l → synced fs d f l → 0 < size f → Z.land (attr f) ATTR_DIR = 0 →
  wpe (fat32_truncate fs f 0) (λ f' d', truncated d d' f l 0 f') (λ _, False) d.
Proof.
  intros G Hf [Hp Hused Hap Hss Hsc] Hs Hat. pose proof (all_valid_file d f l Hf) as Hav. destruct Hf as [Hch Hsz Hsz32 Hpos].
  destruct (cluster_size_eq fs d G) as [Ecs Hcs]. rewrite <-Ecs in Hcs. clear Ecs.
  assert (needed 0 = 0%nat) as En by (unfold needed; by rewrite Z.div_small by lia).
  assert (l ≠ []) as Hne by (intros ->; simpl in Hsz; lia).
  assert (chain fs (fat fs d) (first_cluster f) l) as Hch' by (by destruct l). clear Hch.
  assert (2 ≤ first_cluster f) as Hfc by (destruct l; [done|]; destruct Hch' as (-> & [? _] & _); done).
  unfold fat32_truncate. rewrite Hat, (Z.eqb_refl 0). cbn [negb]. destruct (Z.eqb_spec 0 (size f)); [lia|]. destruct (Z.ltb_spec (size f) 0); [lia|].
  destruct (Z.eqb_spec cs 0); [lia|]. destruct (Z.leb_spec 2 (first_cluster f)); [|lia]. we_steps.
  apply (wpe_free_chain fs d _ l); [done|done|]. intros d1 [G1 Hf1 Hd1]. we_steps.
  apply wpe_set_size; [done|done|lia|]. intros d2 e2 He2 Hst2 Hz2 Hc2. we_steps. pose proof (fi_geom _ _ _ _ _ Hst2) as G2.
  apply (wpe_update_cluster fs); [done|done|]. intros d3 Hst3. we_steps. pose proof (fi_geom _ _ _ _ _ Hst3) as G3.
  set (dc := dir_cluster f) in *. set (off := dir_offset f) in *.
  pose proof (length_entry fs d2 dc off G2 Hp) as Hel.
  assert (length (with_cluster (entry fs d2 dc off) 0) = 32%nat) as Hel'.
  { unfold with_cluster. rewrite !length_splice; [done|..]; rewrite ?length_splice; rewrite ?length_le_bytes; lia. }
  pose proof (entry_step_in fs d2 d3 dc off _ G2 Hp Hel' Hst3) as He3.
  assert (∀ x, valid fs x → fat fs d3 x = if decide (x ∈ l) then 0 else fat fs d x) as Hf3.
  { intros x Hx. rewrite (fi_fat _ _ _ _ _ Hst3), (fi_fat _ _ _ _ _ Hst2) by done. by apply Hf1. }
  split; rewrite ?En; cbn [size pos dir_cluster dir_offset attr take drop]; [done|done|lia|done|split; simpl; [done|lia..]| |done| | |].
  - split; simpl; fold dc off; [done| |set_solver| |].
    + rewrite Hf3 by apply Hp. by rewrite decide_False.
    + by rewrite He3, size_with_cluster.
    + rewrite He3. apply cluster_with_cluster; [done|lia].
  - intros x Hx. unfold all_valid in Hav. rewrite Forall_forall in Hav. rewrite Hf3 by (by apply Hav). by rewrite decide_True.
  - intros x Hx Hxl. rewrite Hf3 by done. by rewrite decide_False.
  - intros l2 Hv2 Hdc. rewrite (entry_step_other fs d2 d3 dc off _ l2 G2 Hv2 Hst3 Hdc).
    rewrite (entry_step_other fs d1 d2 dc off _ l2 G1 Hv2 Hst2 Hdc). apply content_ext. intros j Hj. apply Hd1. by eapply (lbas_data fs d).
Qed.

(** Cutting to a part. *)
Lemma wpe_truncate_part d f l n :
  geom fs d → file_on fs d f l → synced fs d f l → 0 < n < size f → Z.land (attr f) ATTR_DIR = 0 →
  wpe (fat32_truncate fs f n) (λ f' d', truncated d d' f l n f') (λ _, False) d.
Proof.
  intros G Hf [Hp Hused Hap Hss Hsc] Hs Hat. pose proof (all_valid_file d f l Hf) as Hav. destruct Hf as [Hch Hsz Hsz32 Hpos].
  destruct (cluster_size_eq fs d G) as [Ecs Hcs]. rewrite <-Ecs in Hcs. clear Ecs. pose proof (g_clusters _ _ G) as [Hc1 Hc2].
  destruct (needed_bounds d n (Z.of_nat (length l)) G ltac:(lia) ltac:(lia)) as (Hk1 & Hk2 & Hk3). specialize (Hk3 ltac:(lia)).
  assert (u32 (u64 (u64 (n + cs) - 1) / cs) = Z.of_nat (needed n)) as Ek.
  { rewrite (u64_small (n + cs)), u64_small by lia. unfold needed. pose proof (Z.div_pos (n + cs - 1) cs ltac:(lia) ltac:(lia)).
    rewrite Z2Nat.id by done. apply u32_small. split; [done|]. apply Z.div_lt_upper_bound; nia. }
  set (k := needed n) in *. assert (l ≠ []) as Hne by (intros ->; simpl in Hsz; lia).
  assert (chain fs (fat fs d) (first_cluster f) l) as Hch' by (by destruct l). clear Hch. rename Hch' into Hch.
  pose proof (chain_NoDup fs Hc2 _ _ _ Hch) as Hnd.
  destruct (lookup_lt_is_Some_2 l (k - 1)) as [x Hx]; [lia|].
  assert (l = take (k - 1) l ++ x :: drop k l) as El.
  { rewrite <-(take_drop_middle l (k - 1) x Hx) at 1. by replace (S (k - 1)) with k by lia. }
  set (l1 := take (k - 1) l) in *. set (l2 := drop k l) in *.
  assert (take k l = l1 ++ [x]) as Etk.
  { unfold l1. replace k with (S (k - 1)) at 1 by lia. by apply take_S_r. }
  destruct (chain_at fs _ _ _ _ _ Hch Hx) as [Hxv Hnext]. replace (S (k - 1)) with k in Hnext by lia.
  assert (chain fs (fat fs d) (fat fs d x) l2) as Hch2.
  { rewrite El in Hch. by destruct (chain_app fs _ _ _ _ _ Hch) as (_ & _ & ?). }
  set (dc := dir_cluster f) in *. set (off := dir_offset f) in *.
  unfold fat32_truncate. rewrite Hat. simpl. destruct (Z.eqb_spec n (size f)); [lia|]. destruct (Z.ltb_spec (size f) n); [lia|].
  destruct (Z.eqb_spec cs 0); [lia|]. destruct (Z.eqb_spec n 0); [lia|]. cbv zeta. rewrite Ek.
  destruct (Z.eqb_spec (Z.of_nat k) 0); [lia|]. we_steps. replace (Z.of_nat k - 1) with (Z.of_nat (k - 1)) by lia.
  eapply wpe_walk_chain; [done|done|done|]. destruct (Z.ltb_spec x 2) as [?|_]; [destruct Hxv; lia|]. we_steps.
  apply (wpe_read_fat fs); [done|done|]. we_steps.
  apply (wpe_mono _ (λ _ d1, freed fs d d1 l2) _ (λ _, False)); [|intros [] d1 [G1 Hf1 Hd1]|done].
  { clear Hnext El Etk. clearbody l2. destruct l2 as [|y l2'].
    - rewrite in_chain_end by done. we_steps. split; [done| |done]. intros y _. by rewrite decide_False by set_solver.
    - rewrite (in_chain_valid fs d); [|done|destruct Hch2 as (-> & ? & _); done].
      apply (wpe_free_chain fs d _ (y :: l2')); [done|done|]. done. }
  we_steps. apply (wpe_write_fat fs); [done|done|]. intros d2 [G2 Hf2 Hd2]. change (Z.land 0x0FFFFFFF 0x0FFFFFFF) with 0x0FFFFFFF in Hf2. we_steps.
  set (f1 := if n <? pos f then _ else _).
  assert (first_cluster f1 = first_cluster f ∧ size f1 = n ∧ pos f1 = Z.min (pos f) n ∧ dir_cluster f1 = dc ∧ dir_offset f1 = off ∧ attr f1 = attr f)
    as (F1 & F2 & F3 & F4 & F5 & F6).
  { unfold f1. simpl. destruct (Z.ltb_spec n (pos f)); simpl; split_and!; try done; lia. }
  apply wpe_set_size; [done|by rewrite F4, F5|lia|]. rewrite F4, F5. intros d3 e3 He3 Hst3 Hz3 Hcl3. we_steps. pose proof (fi_geom _ _ _ _ _ Hst3) as G3.
  rewrite El in Hnd. apply NoDup_app in Hnd as (_ & Hnd1 & Hnd2). apply NoDup_cons in Hnd2 as [Hx2 _].
  assert (x ∉ l1) as Hx1 by (intros Hin; apply (Hnd1 x Hin); set_solver).
  assert (∀ y, valid fs y → fat fs d3 y = if decide (y = x) then 0x0FFFFFFF else if decide (y ∈ l2) then 0 else fat fs d y) as Hf3.
  { intros y Hy. rewrite (fi_fat _ _ _ _ _ Hst3), Hf2 by done. case_decide; [done|]. by apply Hf1. }
  assert (∀ m, all_valid fs m → dc ∉ m → content d3 m = content d m) as Hct.
  { intros m Hm Hdc. rewrite (entry_step_other fs d2 d3 dc off e3 m G2 Hm Hst3 Hdc). apply content_ext. intros j Hj.
    pose proof (lbas_data fs d m j G Hm Hj). by rewrite Hd2, Hd1. }
  assert (dc ∉ take k l) as Hdct by (intros Hin; apply Hap; rewrite <-(take_drop k l); set_solver).
  assert (length (take k l) = k) as Hlk by (rewrite length_take; lia).
  split; fold k; [done|done|done|by split| | | | | |done].
  - split; [|rewrite Hlk; lia|lia|lia]. rewrite Etk, F1. assert (chain fs (fat fs d3) (first_cluster f) (l1 ++ [x])) as Hc3.
    { rewrite El in Hch. eapply chain_cut; [exact Hch| |].
      - intros y Hy. rewrite Hf3; [|eapply chain_valid; [exact Hch|set_solver]].
        rewrite decide_False by (by intros ->). rewrite decide_False; [done|]. intros Hy2. apply (Hnd1 y Hy). set_solver.
      - rewrite Hf3 by done. rewrite decide_True by done. unfold END_OF_CHAIN. lia. }
    by destruct l1.
  - split; rewrite ?F4, ?F5, ?F1, ?F2; [done| |done|done|].
    + rewrite Hf3 by apply Hp. case_decide; [done|]. rewrite decide_False; [done|]. intros Hin. apply Hap. rewrite El. set_solver.
    + rewrite Hcl3. rewrite <-Hsc. unfold entry. f_equal. f_equal. apply content_ext. intros j Hj.
      pose proof (lbas_data fs d [dc] j G (valid_one fs dc (ep_valid _ _ _ Hp)) Hj). by rewrite Hd2, Hd1.
  - eapply file_bytes_take; [done|done|lia|rewrite Hlk; lia| |done]. apply Hct; [by apply Forall_take|done].
  - intros y Hy. fold l2 in Hy. rewrite Hf3; [|eapply chain_valid; [exact Hch2|done]].
    rewrite decide_False by (by intros ->). by rewrite decide_True.
  - intros y Hy Hyl. rewrite Hf3 by done. rewrite El in Hyl. rewrite !decide_False by set_solver. done.
Qed.
End trunc.

(** * FAT32: any image

    Mounting, opening and reading end without a fault whatever is on the
    device, and leave it as it is. *)

Section safe.
Context {D : Type} `{BlockDevice D}.
Context (d : D).

(** A read delivers a whole sector of bytes or fails. *)
Definition reads_ok : Prop :=
  ∀ k l, bd_read k d = Some l → Z.of_nat (length l) = bd_sector_size d ∧ bytes l.

(** A program ends with [Q] or an error, and the device is [d] again. *)
Abbreviation keeps m Q := (wpe m (λ r d', d' = d ∧ Q r) (λ d', d' = d) d).

(** What mounting checks. *)
Record mounted (fs : fat32_fs) : Prop := {
  mo_size : bytes_per_sector fs = bd_sector_size d;
  mo_sector : 512 ≤ bytes_per_sector fs ≤ 4096;
  mo_align : bytes_per_sector fs mod 32 = 0;
  mo_cluster : 1 ≤ sectors_per_cluster fs ≤ 255;
  mo_total : 1 ≤ total_clusters fs < 2 ^ 32
}.

Context (Hok : reads_ok).

Lemma keeps_read k (Q : list Z → Prop) :
  (∀ l, Z.of_nat (length l) = bd_sector_size d → bytes l → Q l) → keeps (read_sector k) Q.
Proof using Hok.
  intros HQ. unfold read_sector. we_steps. destruct (bd_read k d) as [l|] eqn:E; we_steps; [|done].
  destruct (Hok k l E). split; [done|]. by apply HQ.
Qed.

(** A step of a program that keeps the device. *)
Lemma keeps_bind {A B} (m : ME D A) (k : A → ME D B) (P : A → Prop) (Q : B → Prop) :
  keeps m P → (∀ a, P a → keeps (k a) Q) → keeps (m ≫= k) Q.
Proof.
  intros Hm Hk. apply wpe_bind. eapply wpe_mono; [exact Hm| |done]. intros a d' [-> Ha]. by apply Hk.
Qed.

Lemma keeps_attempt {A} (m : ME D A) (P : A → Prop) :
  keeps m P → wpe (attempt m) (λ r d', d' = d ∧ ∀ a, r = Some a → P a) (λ _, False) d.
Proof.
  intros Hm. apply wpe_attempt. eapply wpe_mono; [exact Hm| |].
  - intros a d' [-> Ha]. split; [done|]. by intros ? [= <-].
  - intros d' ->. done.
Qed.

(** ** Mounting *)

Lemma le_val_byte l : bytes l → (length l ≤ 1)%nat → 0 ≤ le_val l < 256.
Proof.
  intros Hb Hl. destruct l as [|b [|]]; simpl in *; [lia| |lia]. apply Forall_cons in Hb as [Hb _]. unfold is_byte in Hb. lia.
Qed.

Lemma bpb_total sector : 512 ≤ Z.of_nat (length sector) → bytes sector →
  ∃ b, bpb_of sector = Some b ∧ 0 ≤ b_sectors_per_cluster b < 256.
Proof.
  intros Hl Hb. unfold bpb_of. rewrite !get_le_in by lia. simpl. eexists. split; [done|]. simpl.
  apply le_val_byte; [by apply bytes_take, bytes_drop|]. unfold slice. rewrite length_take. lia.
Qed.

Lemma boot_sector_total sector ss : 512 ≤ ss ≤ 4096 → Z.of_nat (length sector) = ss → bytes sector →
  ∃ r, boot_sector_ok sector ss = Some r ∧ ∀ b, r = Some b →
    b_bytes_per_sector b = ss ∧ 512 ≤ ss ≤ 4096 ∧ ss mod 32 = 0 ∧ 1 ≤ b_sectors_per_cluster b ≤ 255.
Proof.
  intros Hss Hl Hb. destruct (bpb_total sector ltac:(lia) Hb) as (b & Eb & Hspc).
  unfold boot_sector_ok. rewrite Eb. simpl. destruct (is_fat32_bpb b) eqn:Ei; simpl; [|by eexists].
  destruct (Z.eqb_spec (b_bytes_per_sector b) ss) as [E|]; simpl; [|by eexists].
  unfold fat32_boot_sig_ok. rewrite E. destruct (Z.ltb_spec ss 512); [lia|].
  destruct (Z.ltb_spec FAT32_MAX_SECTOR ss) as [Hlt|_]; [unfold FAT32_MAX_SECTOR in Hlt; lia|]. simpl.
  destruct (arr_get_some sector (ss - 2)) as (x & -> & _); [lia|]. destruct (arr_get_some sector (ss - 1)) as (y & -> & _); [lia|].
  simpl. eexists. split; [done|]. intros b'. destruct (_ && _); [|done]. intros [= <-].
  split; [done|]. split; [lia|].
  unfold is_fat32_bpb in Ei. rewrite !andb_true_iff in Ei. destruct Ei as ((((((Ei & Hn) & _) & _) & _) & _) & _).
  apply bool_decide_eq_true in Ei.
  assert (ss mod 32 = 0) as Hm.
  { rewrite E in Ei. repeat (apply elem_of_cons in Ei as [->|Ei]; [done|]). by apply not_elem_of_nil in Ei. }
  split; [done|]. destruct (Z.eqb_spec (b_sectors_per_cluster b) 0) as [E0|]; [|lia].
  by rewrite E0 in Hn.
Qed.

Lemma keeps_mount lba : keeps (fat32_mount lba) mounted.
Proof using Hok.
  unfold fat32_mount. we_steps. destruct (Z.ltb_spec (bd_sector_size d) 512) as [?|Hlo]; simpl; [by we_steps|].
  destruct (Z.ltb_spec FAT32_MAX_SECTOR (bd_sector_size d)) as [?|Hhi]; [by we_steps|]. unfold FAT32_MAX_SECTOR in Hhi.
  eapply keeps_bind; [apply keeps_read; intros l Hl Hb; exact (conj Hl Hb)|]. intros sector [Hl Hb].
  destruct (boot_sector_total sector (bd_sector_size d) (conj Hlo Hhi) Hl Hb) as (r & Er & Hr). eapply wpe_bind, wpe_need; [exact Er|].
  destruct r as [b|]; [|by we_steps]. destruct (Hr b eq_refl) as (Hbps & _ & Hal & Hspc).
  cbv zeta. set (total := if negb (b_total_sectors_32 b =? 0) then _ else _). destruct (total =? 0); [by we_steps|].
  set (meta := u64 (b_reserved_sectors b + _)). destruct (total <=? meta); [by we_steps|].
  set (n := u32 ((total - meta) / _)). destruct (Z.eqb_spec n 0) as [|Hn0]; we_steps; [done|].
  split; [done|]. assert (0 ≤ n < 2 ^ 32) by (unfold n, u32; by apply Z.mod_pos_bound).
  split; cbn [bytes_per_sector sectors_per_cluster total_clusters]; [done|lia|by rewrite Hbps|lia|lia].
Qed.

(** ** Directories *)

Section image.
Context (fs : fat32_fs) (Hm : mounted fs).

Abbreviation bps := (bytes_per_sector fs).
Abbreviation spc := (sectors_per_cluster fs).

Lemma max_sector : (FAT32_MAX_SECTOR <? bps) = false.
Proof using Hm. destruct Hm. unfold FAT32_MAX_SECTOR. destruct (Z.ltb_spec 4096 bps); [lia|done]. Qed.

Lemma keeps_read_fat c : keeps (read_fat_entry fs c) (λ _, True).
Proof using Hok Hm.
  unfold read_fat_entry. rewrite max_sector. apply wpe_bind. eapply wpe_mono; [apply keeps_attempt, keeps_read| |done].
  { intros l Hl Hb. exact (conj Hl Hb). }
  intros r d' [-> Hr]. destruct r as [l|]; we_steps; [|done]. destruct (Hr l eq_refl) as [Hl Hb].
  assert (0 ≤ fat_off fs c ∧ fat_off fs c + 4 ≤ bps) as [Ho1 Ho2].
  { destruct Hm as [_ Hs Ha _ _]. unfold fat_off. assert (bps = 4 * (8 * (bps / 32))) as E by (pose proof (Z.div_mod bps 32); lia).
    rewrite E at 1 2. rewrite (Z.mul_comm c 4), Z.mul_mod_distr_l by lia.
    pose proof (Z.mod_pos_bound c (8 * (bps / 32)) ltac:(lia)). lia. }
  rewrite <-(mo_size _ Hm) in Hl. eapply wpe_need; [apply get_le_in; lia|]. by we_steps.
Qed.

Lemma limit_range : 1 ≤ fat32_chain_step_limit fs < 2 ^ 32.
Proof using Hm.
  destruct Hm as [_ _ _ _ Ht]. unfold fat32_chain_step_limit.
  destruct (Z.eqb_spec (total_clusters fs) 0), (Z.eqb_spec (total_clusters fs) 0xFFFFFFFF); lia.
Qed.

Section walk.
Context {A R : Type} (step : A → Z → list Z → option (A + R)) (I : A → Prop) (J : R → Prop).
Context (Hstep : ∀ a off e, I a → off mod 32 = 0 → length e = 32%nat → bytes e →
  ∃ r, step a off e = Some r ∧ match r with inl a' => I a' | inr x => J x end).

Abbreviation outcome r := (match r with inl a' => I a' | inr x => J x end).

Lemma entry_aligned s i : u32 (s * bps + 32 * i) mod 32 = 0.
Proof using Hm.
  destruct Hm as [_ _ Ha _ _]. unfold u32. rewrite Z.mod_mod_divide by (exists (2 ^ 27); lia).
  rewrite Z.add_mod, Z.mul_mod, Ha by lia. rewrite Z.mul_0_r, (Z.mul_comm 32), Z_mod_mult. done.
Qed.

Lemma keeps_each_dir_sector c a : I a → keeps (each_dir_sector fs c step a) (λ r, outcome r).
Proof using Hok Hm Hstep.
  intros Ha. pose proof Hm as [Hsz Hs Hal Hspc _]. unfold each_dir_sector. cbv zeta.
  apply (wpe_while _ _ (λ st d', d' = d ∧ I st.2 ∧ 0 ≤ st.1 ≤ spc) (λ st _, spc - st.1)); [split; [done|split; [done|simpl; lia]]|simpl; lia|].
  intros [s a1] d' (-> & Ha1 & Hs1). simpl in Ha1, Hs1. destruct (Z.ltb_spec s spc) as [Hlt|Hge].
  2:{ we_steps. done. }
  apply wpe_bind. eapply wpe_mono; [apply keeps_read; intros l Hl Hb; exact (conj Hl Hb)| |].
  2:{ done. }
  intros l d' [-> [Hl Hb]]. rewrite <-Hsz in Hl. we_steps. unfold each_entry.
  apply (wpe_while _ _ (λ st d', d' = d ∧ I st.2 ∧ ∃ i, st.1 = 32 * i ∧ 0 ≤ i ≤ bps / 32) (λ st _, bps / 32 - st.1 / 32)).
  - split; [done|]. split; [done|]. exists 0. split; [done|]. pose proof (Z.div_pos bps 32 ltac:(lia) ltac:(lia)). lia.
  - simpl. rewrite Zdiv_0_l. pose proof (Z.div_le_upper_bound bps 32 128 ltac:(lia) ltac:(lia)).
    pose proof (Z.div_pos bps 32 ltac:(lia) ltac:(lia)). lia.
  - intros [off a2] d' (-> & Ha2 & i & Hoff & Hi). simpl in Ha2, Hoff. subst off. pose proof (Z.div_mod bps 32 ltac:(lia)).
    destruct (Z.ltb_spec (32 * i) bps).
    + destruct (Hstep a2 (u32 (s * bps + 32 * i)) (slice l (Z.to_nat (32 * i)) 32) Ha2) as (r & Er & Hr).
      { apply entry_aligned. }
      { unfold slice. rewrite length_take, length_drop. lia. }
      { by apply bytes_take, bytes_drop. }
      we_steps. eapply wpe_need; [exact Er|]. we_steps. destruct r as [a'|x].
      * split; [split; [done|split; [done|exists (i + 1); simpl; lia]]|]. simpl.
        replace (32 * i + 32) with ((i + 1) * 32) by lia. rewrite (Z.mul_comm 32 i), !Z.div_mul by lia. lia.
      * we_steps. by split.
    + we_steps. split; [|simpl; lia]. split; [done|]. split; [done|]. simpl. lia.
Qed.

Lemma keeps_walk_dir c a : I a → keeps (walk_dir fs c step a) (λ r, match r with inl (_, a') => I a' | inr (_, x) => J x end).
Proof using Hok Hm Hstep.
  intros Ha. pose proof limit_range as Hlim. unfold walk_dir. rewrite max_sector.
  apply (wpe_while _ _ (λ st d', let '(_, _, steps, a1) := st in d' = d ∧ I a1 ∧ 0 ≤ steps ≤ fat32_chain_step_limit fs)
    (λ st _, fat32_chain_step_limit fs - st.1.2)); [split; [done|split; [done|lia]]|simpl; lia|].
  intros [[[cl prev] steps] a1] d' (-> & Ha1 & Hst). destruct (in_chain cl); [|by we_steps].
  destruct (Z.leb_spec (fat32_chain_step_limit fs) steps); [by we_steps|].
  apply wpe_bind. eapply wpe_mono; [by apply keeps_each_dir_sector| |done]. intros [a'|x] d' [-> Hr]; we_steps; [|done].
  eapply wpe_mono; [apply keeps_read_fat| |done]. intros v d' [-> _]. rewrite u32_small by lia.
  split; [|simpl; lia]. split; [done|]. split; [done|lia].
Qed.
End walk.

(** An entry that was found. *)
Definition found_ok (x : found) : Prop := d_off x mod 32 = 0 ∧ is_byte (d_attr x).

Lemma found_step_ok name lfn off e x : find_step name lfn off e = Some (inr (Some x)) → off mod 32 = 0 →
  length e = 32%nat → bytes e → found_ok x.
Proof.
  intros Hx Hoff He Hb. destruct (find_step_found name lfn off e x He Hx) as [_ ->]. split; [done|].
  simpl. unfold e_attr. destruct (e !! 11%nat) as [v|] eqn:Ev; simpl; [by eapply Forall_lookup_1|done].
Qed.

Lemma keeps_find c name : keeps (find_in_dir fs c name) (λ r, found_ok r.1).
Proof using Hok Hm.
  unfold find_in_dir. apply wpe_bind.
  eapply wpe_mono; [apply (keeps_walk_dir (find_step name) lfn_ok (λ o, ∀ x, o = Some x → found_ok x))| |done].
  - intros a off e Ha Hoff He Hb. destruct (find_step_total name a off e Ha He) as (r & Er & Hr). exists r. split; [done|].
    destruct r as [a'|o]; [by apply Hr|]. intros x ->. by eapply found_step_ok.
  - apply lfn_reset_ok.
  - intros [[]|[cl [x|]]] d' [-> Hx]; we_steps; [done|split; [done|by apply Hx]|done].
Qed.

(** ** Opening *)

Lemma component_length n p : let '(a, r) := component n p in (length a + length r = length p)%nat ∧
  (n ≠ 0%nat → a = [] → p ≠ [] → ∃ q, r = slash :: q).
Proof.
  revert p. induction n as [|n IH]; intros p; [done|]. destruct p as [|c p]; [done|]. simpl.
  destruct (Z.eqb_spec c slash) as [->|Hc]; [split; [done|by eauto]|].
  specialize (IH p). destruct (component n p) as [a r]. destruct IH as [IH _]. simpl. split; [lia|done].
Qed.

Lemma next_component_shorter p : p ≠ [] → (length (next_component p).2 < length p)%nat.
Proof.
  intros Hp. unfold next_component. pose proof (component_length 259 p) as Hc. destruct (component 259 p) as [a r].
  destruct Hc as [Hl Hs]. simpl. destruct a as [|x a]; simpl in Hl.
  - destruct (Hs ltac:(lia) eq_refl Hp) as [q ->]. simpl in *. lia.
  - destruct r as [|c r]; simpl in *; [lia|]. destruct (c =? slash); simpl; lia.
Qed.

(** What the code relies on of an open file. *)
Definition open_ok (f : fat32_file) : Prop := dir_offset f mod 32 = 0 ∧ is_byte (attr f) ∧ 0 ≤ pos f.

Lemma keeps_open path : keeps (fat32_open fs path) open_ok.
Proof using Hok Hm.
  unfold fat32_open. cbv zeta. destruct (bool_decide (skip_slash path = [])) eqn:E; [by we_steps|].
  apply (wpe_while _ _ (λ _ d', d' = d) (λ st _, Z.of_nat (length st.1))); [done|simpl; lia|].
  intros [p cur] d' ->. destruct (bool_decide_reflect (p = [])) as [|Hp]; [by we_steps|].
  pose proof (next_component_shorter p Hp) as Hlt. destruct (next_component p) as [name rest]. simpl in Hlt.
  apply wpe_bind. eapply wpe_mono; [apply keeps_find| |done]. intros [x cl] d' [-> Hx].
  destruct (bool_decide (rest = [])); [we_steps; destruct Hx; split_and!; done|]. destruct (Z.land (d_attr x) ATTR_DIR =? 0); we_steps; [done|].
  split; [done|simpl; lia].
Qed.

(** ** Reading *)

Lemma keeps_read_cluster len c skip data : Z.of_nat (length data) ≤ len →
  keeps (read_cluster fs len c skip data) (λ r, match r with inl x | inr x => Z.of_nat (length x) ≤ len end).
Proof using Hok Hm.
  intros Hd. pose proof Hm as [Hsz Hs Hal Hspc _]. unfold read_cluster. cbv zeta.
  apply (wpe_while _ _ (λ st d', d' = d ∧ Z.of_nat (length st.2) ≤ len ∧ 0 ≤ st.1 ≤ spc) (λ st _, spc - st.1));
    [split; [done|split; [done|simpl; lia]]|simpl; lia|].
  intros [s dt] d' (-> & Hdt & Hs1). simpl in Hdt, Hs1. destruct (Z.ltb_spec s spc); [|by we_steps].
  destruct (s <? _); [we_steps; split; [split; [done|split; [done|simpl; lia]]|simpl; lia]|]. rewrite max_sector.
  apply wpe_bind. eapply wpe_mono; [apply (keeps_attempt _ (λ _, True)), keeps_read; done| |done].
  intros r d' [-> _]. destruct r as [l|]; [|by we_steps]. set (off := if s =? _ then _ else 0). set (avail := u32 _).
  set (n := if len - Z.of_nat (length dt) <? avail then len - Z.of_nat (length dt) else avail).
  assert (n ≤ len - Z.of_nat (length dt)) as Hn by (unfold n; destruct (Z.ltb_spec (len - Z.of_nat (length dt)) avail); lia).
  assert (0 ≤ n) as Hn0 by (unfold n; destruct (Z.ltb_spec (len - Z.of_nat (length dt)) avail); [lia|]; unfold avail, u32; by apply Z.mod_pos_bound).
  assert (Z.of_nat (length (dt ++ slice l (Z.to_nat off) (Z.to_nat n))) ≤ len) as Hl
    by (rewrite length_app; unfold slice; rewrite length_take; lia).
  destruct (_ =? 0); we_steps; [by split|]. split; [split; [done|split; [done|simpl; lia]]|simpl; lia].
Qed.

Lemma keeps_read_file f len : 0 ≤ len →
  keeps (fat32_read fs f len) (λ r, Z.of_nat (length r.1) ≤ len ∧ (r.2 = f ∨ ∃ p, r.2 = set_pos (u32 p) f)).
Proof using Hok Hm.
  intros Hlen. pose proof limit_range as Hlim. unfold fat32_read.
  assert (∀ l : list Z, Z.of_nat (length l) ≤ len → keeps (mret (l, f)) (λ r : list Z * fat32_file, Z.of_nat (length r.1) ≤ len ∧ (r.2 = f ∨ ∃ p, r.2 = set_pos (u32 p) f))) as Hret.
  { intros l Hl. we_steps. simpl. auto. }
  destruct (len =? 0); [by apply Hret|]. destruct (Z.leb_spec (size f) (pos f)); [by apply Hret|]. cbv zeta.
  set (n := if size f - pos f <? len then _ else len).
  assert (0 ≤ n ≤ len) as Hn by (unfold n; destruct (Z.ltb_spec (size f - pos f) len); lia).
  destruct (first_cluster f <? 2); [by we_steps|]. destruct (cluster_size fs =? 0); [by we_steps|].
  apply (keeps_bind _ _ (λ r, ∀ c skip steps, r = inl (c, skip, steps) → 0 ≤ steps ≤ fat32_chain_step_limit fs)).
  - unfold skip_read. apply (wpe_while _ _ (λ st d', d' = d ∧ 0 ≤ st.2 ≤ fat32_chain_step_limit fs)
      (λ st _, fat32_chain_step_limit fs - st.2)); [split; [done|simpl; lia]|simpl; lia|].
    intros [[c skip] steps] d' [-> Hst]. simpl in Hst. destruct (_ <=? skip); [|we_steps; split; [done|by intros ??? [= <- <- <-]]].
    destruct (Z.leb_spec (fat32_chain_step_limit fs) steps); [by we_steps|].
    apply wpe_bind. eapply wpe_mono; [apply keeps_read_fat| |done]. intros v d' [-> _].
    destruct (_ <=? v); we_steps; [done|]. rewrite u32_small by lia. split; [split; [done|simpl; lia]|simpl; lia].
  - intros [[[c skip] steps]|[]] Hst; [|by apply Hret]. specialize (Hst c skip steps eq_refl).
    apply (keeps_bind _ _ (λ r, match r with inl x | inr x => Z.of_nat (length x) ≤ n end)).
    2:{ intros [x|x] Hx; [|apply Hret; lia]. we_steps. simpl. split; [done|]. split; [lia|]. right. by eexists. }
    apply (wpe_while _ _ (λ st d', let '(_, _, steps, data) := st in d' = d ∧ 0 ≤ steps ≤ fat32_chain_step_limit fs ∧
      Z.of_nat (length data) ≤ n) (λ st _, fat32_chain_step_limit fs - st.1.2)); [split; [done|split; [done|simpl; lia]]|simpl; lia|].
    clear c skip steps Hst. intros [[[c skip] steps] data] d' (-> & Hst & Hdt).
    destruct (_ && _); [|by we_steps]. destruct (Z.leb_spec (fat32_chain_step_limit fs) steps); [by we_steps|].
    apply wpe_bind. eapply wpe_mono; [by apply keeps_read_cluster| |done]. intros [x|x] d' [-> Hx]; [|by we_steps].
    destruct (_ =? n); [by we_steps|]. apply wpe_bind. eapply wpe_mono; [apply keeps_read_fat| |done]. intros v d' [-> _].
    we_steps. rewrite u32_small by lia. split; [|simpl; lia]. split; [done|]. split; [lia|done].
Qed.
End image.

(** Mount, open a path, read. *)
Definition mount_open_read (lba : Z) (path : list Z) (len : Z) : ME D (list Z) :=
  fs ← fat32_mount lba;
  f ← fat32_open fs path;
  r ← fat32_read fs f len;
  mret r.1.

Lemma keeps_mount_open_read lba path len : 0 ≤ len →
  keeps (mount_open_read lba path len) (λ r, Z.of_nat (length r) ≤ len).
Proof using Hok.
  intros Hlen. unfold mount_open_read. eapply keeps_bind; [apply keeps_mount|]. intros fs Hm.
  eapply keeps_bind; [by apply keeps_open|]. intros f _. eapply keeps_bind; [by apply keeps_read_file|].
  intros r [Hr _]. by we_steps.
Qed.
End safe.
