(* ===== verification/FatTotal.v ===== *)
(** * FAT32: any image, all operations

    Every operation of the file system ends, with a result or an error and
    without an access outside a buffer, whatever is on the device: a corrupt
    table, cyclic chains, directories with arbitrary entries.  A device that
    fails is allowed at each access. *)

From S2P Require Import Prelude Loops Codec Ring Part Fat32 FatVol FatName FatEntry FatCreate FatTrunc.

Section total.
Context {D : Type} `{BlockDeviceSafe D}.
Context (fs : fat32_fs).

Abbreviation bps := (bytes_per_sector fs).
Abbreviation spc := (sectors_per_cluster fs).
Abbreviation limit := (fat32_chain_step_limit fs).

(** A device that answers with whole sectors, mounted. *)
Definition image_ok (d : D) : Prop := bd_ok d ∧ mounted d fs.

(** A program ends from every such device, with [Q] or an error, and leaves
    such a device. *)
Definition safe {A} (m : ME D A) (Q : A → Prop) : Prop :=
  ∀ d, image_ok d → wpe m (λ r d', image_ok d' ∧ Q r) image_ok d.

(** ** Rules *)

Lemma safe_keeps {A} (m : ME D A) (Q : A → Prop) :
  (∀ d, reads_ok d → mounted d fs → wpe m (λ r d', d' = d ∧ Q r) (λ d', d' = d) d) → safe m Q.
Proof.
  intros Hk d [Hb Hm]. eapply wpe_mono; [apply Hk; [|done]| |].
  - intros k l. by apply bd_ok_read.
  - intros r d' [-> Hr]. done.
  - by intros d' ->.
Qed.

Lemma safe_mono {A} (m : ME D A) (P Q : A → Prop) : safe m P → (∀ a, P a → Q a) → safe m Q.
Proof. intros Hm HPQ d Hd. eapply wpe_mono; [by apply Hm| |done]. intros a d' [? ?]. split; [done|by apply HPQ]. Qed.
Lemma safe_any {A} (m : ME D A) (P : A → Prop) : safe m P → safe m (λ _, True).
Proof. intros Hm. by eapply safe_mono. Qed.
Lemma safe_ret {A} (a : A) (Q : A → Prop) : Q a → safe (mret a) Q.
Proof. intros Ha d Hd. by apply wpe_ret. Qed.
Lemma safe_fail {A} (Q : A → Prop) : safe fail Q.
Proof. intros d Hd. by apply wpe_halt. Qed.
Lemma safe_bind {A B} (m : ME D A) (k : A → ME D B) (P : A → Prop) (Q : B → Prop) :
  safe m P → (∀ a, P a → safe (k a) Q) → safe (m ≫= k) Q.
Proof. intros Hm Hk d Hd. apply wpe_bind. eapply wpe_mono; [by apply Hm| |done]. intros a d' [Hd' Ha]. by apply Hk. Qed.
Lemma safe_then {A B} (m : ME D A) (k : A → ME D B) (Q : B → Prop) :
  safe m (λ _, True) → (∀ a, safe (k a) Q) → safe (m ≫= k) Q.
Proof. intros Hm Hk. eapply safe_bind; [exact Hm|]. intros a _. apply Hk. Qed.
Lemma safe_attempt {A} (m : ME D A) (P : A → Prop) (Q : option A → Prop) :
  safe m P → (∀ a, P a → Q (Some a)) → Q None → safe (attempt m) Q.
Proof.
  intros Hm HQ Hn d Hd. apply wpe_attempt. eapply wpe_mono; [by apply Hm| |done]. intros a d' [? ?]. split; [done|by apply HQ].
Qed.
Lemma safe_ignore {A} (m : ME D A) : safe m (λ _, True) → safe (ignore m) (λ _, True).
Proof. intros Hm d Hd. apply wpe_ignore. eapply wpe_mono; [by apply Hm|done|done]. Qed.
Lemma safe_need {A B} (o : option A) (a : A) (k : A → ME D B) (Q : B → Prop) :
  o = Some a → safe (k a) Q → safe (need o ≫= k) Q.
Proof. intros -> Hk d Hd. by apply Hk. Qed.

Lemma safe_while {A R} fuel (body : A → ME D (A + R)) (I : A → Prop) (V : A → Z) (Q : R → Prop) a :
  I a → 0 ≤ V a < fuel →
  (∀ a, I a → safe (body a) (λ r, match r with inl a' => I a' ∧ 0 ≤ V a' < V a | inr x => Q x end)) →
  safe (while_e fuel body a) Q.
Proof.
  intros HI HV Hb d Hd. apply (wpe_while _ _ (λ a d, I a ∧ image_ok d) (λ a _, V a)); [done|done|].
  intros a1 d1 [HI1 Hd1]. eapply wpe_mono; [by apply Hb| |done]. intros [a'|r] d' [Hd' Hr]; [|done]. tauto.
Qed.

Lemma safe_for lo hi (body : Z → ME D unit) : (∀ i, safe (body i) (λ _, True)) → safe (for_e lo hi body) (λ _, True).
Proof.
  intros Hb d Hd. destruct (Z.le_gt_cases lo hi) as [Hle|Hgt].
  - apply (wpe_for _ _ _ (λ _, image_ok)); [done|done| |done]. intros i d' _ Hd'. eapply wpe_mono; [by apply Hb| |done]. by intros ? ? [? _].
  - unfold wpe, wp, for_e, for_. replace (Z.max 0 (hi - lo) + 1) with 1 by lia. simpl.
    rewrite (proj2 (Z.ltb_ge lo hi)) by lia. done.
Qed.

Lemma safe_for_er {R} lo hi (body : Z → ME D (option R)) (Q : option R → Prop) :
  lo ≤ hi → (∀ i, lo ≤ i < hi → safe (body i) (λ r, r ≠ None → Q r)) → Q None → safe (for_er lo hi body) Q.
Proof.
  intros Hle Hb Hn d Hd. apply (wpe_for_er _ _ _ (λ _, image_ok)); [done|done| |done].
  intros i d' Hi Hd'. eapply wpe_mono; [by apply Hb| |done]. intros [x|] d1 [Hd1 Hx]; [|done]. split; [done|]. by apply Hx.
Qed.

(** ** Sectors *)

Lemma safe_read k : safe (read_sector k) (λ l, Z.of_nat (length l) = bps ∧ bytes l).
Proof. apply safe_keeps. intros d Hr Hm. apply keeps_read; [done|]. intros l Hl Hb. by rewrite (mo_size _ _ Hm). Qed.

Lemma safe_write k l : Z.of_nat (length l) = bps → bytes l → safe (write_sector k l) (λ _, True).
Proof.
  intros Hl Hb d [Hd Hm]. unfold wpe, wp, write_sector.
  destruct (bd_ok_write d k l Hd) as [Hd' Hs]; [by rewrite <-(mo_size _ _ Hm)|done|].
  destruct (bd_write k l d) as [ok d']. simpl in *.
  assert (image_ok d') as Hi by (split; [done|destruct Hm; split; congruence]). by destruct ok.
Qed.

Lemma safe_read_fat c : safe (read_fat_entry fs c) (λ _, True).
Proof. apply safe_keeps. intros d Hr Hm. by apply keeps_read_fat. Qed.

(** What mounting fixed. *)
Context (d0 : D) (Hm : mounted d0 fs).

Lemma sector_size : 512 ≤ bps ≤ 4096.
Proof using Hm. apply Hm. Qed.
Lemma sector_max : (FAT32_MAX_SECTOR <? bps) = false.
Proof using Hm. by eapply max_sector. Qed.
Lemma limit_bound : 1 ≤ limit < 2 ^ 32.
Proof using Hm. by eapply limit_range. Qed.

(** A slot of 32 bytes is inside a sector. *)
Lemma slot_in off : off mod 32 = 0 → 0 ≤ off mod bps ∧ off mod bps + 32 ≤ bps.
Proof using Hm.
  intros Hoff. destruct Hm as [_ Hs Ha _ _]. assert (bps = 32 * (bps / 32)) as E by (pose proof (Z.div_mod bps 32); lia).
  assert (off = 32 * (off / 32)) as Eo by (pose proof (Z.div_mod off 32); lia).
  rewrite Eo, E, Z.mul_mod_distr_l by lia. pose proof (Z.mod_pos_bound (off / 32) (bps / 32) ltac:(lia)). lia.
Qed.

Lemma put_total l off b : Z.of_nat (length l) = bps → bytes l → 0 ≤ off → off + Z.of_nat (length b) ≤ bps → bytes b →
  ∃ l', put_bytes l off b = Some l' ∧ Z.of_nat (length l') = bps ∧ bytes l'.
Proof.
  intros Hl Hb H1 H2 Hbb. exists (splice l (Z.to_nat off) b). split; [apply put_bytes_in; [done|by rewrite Hl]|].
  split; [rewrite length_splice by lia; done|by apply bytes_splice].
Qed.

Lemma safe_write_fat c v : safe (write_fat_entry fs c v) (λ _, True).
Proof using Hm.
  unfold write_fat_entry. rewrite sector_max. cbv zeta. eapply safe_bind; [apply safe_read|]. intros l [Hl Hb].
  pose proof sector_size as Hs. assert (0 ≤ fat_off fs c ∧ fat_off fs c + 4 ≤ bps) as [Ho1 Ho2].
  { destruct Hm as [_ _ Ha _ _]. unfold fat_off. assert (bps = 4 * (8 * (bps / 32))) as E by (pose proof (Z.div_mod bps 32); lia).
    rewrite E at 1 2. rewrite (Z.mul_comm c 4), Z.mul_mod_distr_l by lia.
    pose proof (Z.mod_pos_bound c (8 * (bps / 32)) ltac:(lia)). lia. }
  eapply safe_need; [apply get_le_in; lia|]. unfold put_le.
  edestruct (put_total l (fat_off fs c)) as (l' & E & Hl' & Hb'); [done|done|done| |apply bytes_le_bytes|].
  2:{ eapply safe_need; [exact E|]. apply safe_then; [by apply safe_write|]. intros _. apply safe_for. intros i. by apply safe_write. }
  rewrite length_le_bytes. lia.
Qed.

Lemma safe_zero_cluster c : safe (zero_cluster fs c) (λ _, True).
Proof using Hm.
  unfold zero_cluster. rewrite sector_max. pose proof sector_size. apply safe_for. intros i. apply safe_write; [rewrite length_replicate; lia|apply bytes_zero].
Qed.

Lemma safe_alloc prev : safe (alloc_cluster fs prev) (λ _, True).
Proof using Hm.
  unfold alloc_cluster. destruct (_ =? 0); [by apply safe_ret|]. destruct Hm as [_ _ _ _ Ht].
  eapply safe_then; [|intros r; by apply safe_ret]. apply safe_for_er; [lia| |done]. intros i _. cbv zeta.
  apply safe_then; [apply safe_read_fat|]. intros v. destruct (v =? 0); [|by apply safe_ret].
  eapply (safe_bind _ _ (λ _, True)); [apply (safe_attempt _ (λ _, True)); [|done|done]|intros ok _; by apply safe_ret].
  apply safe_then; [by apply safe_write_fat|]. intros _. apply safe_then; [|intros _; by apply safe_zero_cluster].
  destruct (prev =? 0); [by apply safe_ret|by apply safe_write_fat].
Qed.

Lemma safe_alloc_link prev : safe (alloc_link fs prev) (λ _, True).
Proof using Hm. unfold alloc_link. apply safe_then; [by apply safe_alloc|]. intros c. by apply safe_ret. Qed.

(** A loop over a chain counts its steps. *)
Lemma steps_next steps : 0 ≤ steps < limit → u32 (steps + 1) = steps + 1.
Proof using Hm. pose proof limit_bound. intros ?. apply u32_small. lia. Qed.

(** ** Writing *)

Lemma safe_skip_write c skip : 0 ≤ skip →
  safe (skip_write fs c skip) (λ r, ∀ p c' k steps, r = inl (p, c', k, steps) → 0 ≤ k ∧ 0 ≤ steps ≤ limit).
Proof using Hm.
  intros Hskip. pose proof limit_bound as Hlim. unfold skip_write.
  apply (safe_while _ _ (λ st, 0 ≤ st.1.2 ∧ 0 ≤ st.2 ≤ limit) (λ st, limit - st.2)); [simpl; lia|simpl; lia|].
  intros [[[p c'] k] steps] [Hk Hst]. simpl in Hk, Hst. destruct (Z.leb_spec (cluster_size fs) k); [|apply safe_ret; by intros ???? [= <- <- <- <-]].
  destruct (Z.leb_spec limit steps); [by apply safe_ret|].
  apply safe_then; [apply safe_read_fat|]. intros v. apply safe_then.
  { destruct (_ <=? v); [by apply safe_alloc_link|by apply safe_ret]. }
  intros [n|]; apply safe_ret; [|done]. simpl. rewrite steps_next by lia. lia.
Qed.

Lemma safe_write_cluster buf c skip done_ : bytes buf → 0 ≤ skip → 0 ≤ done_ < Z.of_nat (length buf) →
  safe (write_cluster fs buf c skip done_) (λ r, match r with inl n | inr n => done_ ≤ n ≤ Z.of_nat (length buf) end).
Proof using Hm.
  intros Hbuf Hskip Hd. pose proof sector_size as Hs. destruct Hm as [_ _ _ Hspc _]. unfold write_cluster. cbv zeta.
  apply (safe_while _ _ (λ st, 0 ≤ st.1 ≤ spc ∧ done_ ≤ st.2 < Z.of_nat (length buf) ) (λ st, spc - st.1)); [simpl; lia|simpl; lia|].
  intros [s n] [H1 H2]. simpl in H1, H2. destruct (Z.ltb_spec s spc); [|apply safe_ret; lia].
  destruct (s <? _); [apply safe_ret; simpl; lia|]. rewrite sector_max.
  eapply (safe_bind _ _ (λ r, ∀ l, r = Some l → Z.of_nat (length l) = bps ∧ bytes l)).
  { eapply safe_attempt; [apply safe_read| |done]. by intros l Hl ? [= <-]. }
  intros [l|] Hl; [|apply safe_ret; lia]. destruct (Hl l eq_refl) as [Hll Hlb].
  set (off := if s =? _ then _ else 0).
  assert (0 ≤ off < bps) as Hoff.
  { unfold off. destruct (s =? _); [|lia]. pose proof (Z.mod_pos_bound skip bps ltac:(lia)). rewrite u32_small by lia. lia. }
  rewrite (u32_small (bps - off)) by lia. set (k := if Z.of_nat (length buf) - n <? bps - off then _ else _).
  assert (0 < k ∧ k ≤ bps - off ∧ k ≤ Z.of_nat (length buf) - n) as (Hk1 & Hk2 & Hk3).
  { unfold k. destruct (Z.ltb_spec (Z.of_nat (length buf) - n) (bps - off)); lia. }
  edestruct (put_total l off (slice buf (Z.to_nat n) (Z.to_nat k))) as (l' & E & Hl' & Hb'); [done|done|lia| | |].
  3:{ eapply safe_need; [exact E|]. eapply (safe_bind _ _ (λ _, True)).
      { eapply safe_attempt; [by apply safe_write|done|done]. }
      intros [[]|] _; [|apply safe_ret; lia]. destruct (Z.eqb_spec (Z.of_nat (length buf) - n - k) 0); apply safe_ret; simpl; lia. }
  - unfold slice. rewrite length_take. lia.
  - by apply bytes_take, bytes_drop.
Qed.

Lemma safe_write_chain buf prev c skip steps : bytes buf → 0 ≤ skip → 0 ≤ steps ≤ limit →
  safe (write_chain fs buf prev c skip steps) (λ r, match r with inl n | inr n => 0 ≤ n ≤ Z.of_nat (length buf) end).
Proof using Hm.
  intros Hbuf Hskip Hst. pose proof limit_bound as Hlim. unfold write_chain. cbv zeta.
  apply (safe_while _ _ (λ st, 0 ≤ st.1.1.2 ∧ 0 ≤ st.1.2 ≤ limit ∧ 0 ≤ st.2 ≤ Z.of_nat (length buf)) (λ st, limit - st.1.2)); [simpl; lia|simpl; lia|].
  clear prev c skip steps Hskip Hst. intros [[[[prev c] skip] steps] n] (H1 & H2 & H3). simpl in H1, H2, H3.
  destruct (Z.ltb_spec n (Z.of_nat (length buf))); [|apply safe_ret; lia].
  destruct (Z.leb_spec limit steps); [apply safe_ret; lia|]. apply safe_then.
  { destruct (_ <=? c); [by apply safe_alloc_link|by apply safe_ret]. }
  intros [c'|]; [|apply safe_ret; lia]. eapply safe_bind; [apply safe_write_cluster; [done|done|lia]|]. intros [n'|n'] Hn; [|apply safe_ret; lia].
  destruct (n' =? _); [apply safe_ret; lia|]. apply safe_then; [apply safe_read_fat|]. intros v. apply safe_ret.
  simpl. rewrite steps_next by lia. lia.
Qed.

(** A change of one slot of a directory sector. *)
Lemma safe_update lba f :
  (∀ l, Z.of_nat (length l) = bps → bytes l → ∃ l', f l = Some l' ∧ Z.of_nat (length l') = bps ∧ bytes l') →
  safe (update_sector fs lba f) (λ _, True).
Proof using Hm.
  intros Hf. unfold update_sector. rewrite sector_max. eapply safe_bind; [apply safe_read|]. intros l [Hl Hb].
  destruct (Hf l Hl Hb) as (l' & E & Hl' & Hb'). eapply safe_need; [exact E|]. by apply safe_write.
Qed.

Lemma put_cluster_total l off c : Z.of_nat (length l) = bps → bytes l → 0 ≤ off → off + 32 ≤ bps →
  ∃ l', put_cluster l off c = Some l' ∧ Z.of_nat (length l') = bps ∧ bytes l'.
Proof.
  intros Hl Hb H1 H2. unfold put_cluster, put_le.
  edestruct (put_total l (off + 20)) as (l1 & -> & Hl1 & Hb1); [done|done|lia| |apply bytes_le_bytes|]; [rewrite length_le_bytes; lia|].
  apply put_total; [done|done|lia| |apply bytes_le_bytes]. rewrite length_le_bytes. lia.
Qed.

Lemma safe_update_size c off n : off mod 32 = 0 → safe (update_dir_entry_size fs c off n) (λ _, True).
Proof using Hm.
  intros Hoff. destruct (slot_in off Hoff). apply safe_update. intros l Hl Hb.
  apply put_total; [done|done|lia| |apply bytes_le_bytes]. rewrite length_le_bytes. lia.
Qed.

Lemma safe_update_cluster c off v : off mod 32 = 0 → safe (update_dir_entry_cluster fs c off v) (λ _, True).
Proof using Hm.
  intros Hoff. destruct (slot_in off Hoff). apply safe_update. intros l Hl Hb. by apply put_cluster_total.
Qed.

Lemma safe_write_entry c off e : off mod 32 = 0 → (length e ≤ 32)%nat → bytes e → safe (write_dir_entry fs c off e) (λ _, True).
Proof using Hm.
  intros Hoff He Hbe. destruct (slot_in off Hoff). apply safe_update. intros l Hl Hb.
  apply put_total; [done|done|lia|lia|done].
Qed.

Lemma safe_mark_deleted c off : off mod 32 = 0 → safe (mark_dir_entry_deleted fs c off) (λ _, True).
Proof using Hm. intros Hoff. apply safe_write_entry; [done|simpl; lia|by apply bytesb_bytes]. Qed.

Lemma safe_write_first f : open_ok f → safe (write_first fs f) open_ok.
Proof using Hm.
  intros Hf. unfold write_first. destruct (_ <? 2); [|by apply safe_ret]. destruct (_ || _); [apply safe_fail|].
  apply safe_then; [by apply safe_alloc|]. intros c. destruct (c =? 0); [apply safe_fail|].
  eapply (safe_bind _ _ (λ _, True)); [eapply safe_attempt; [by apply safe_update_cluster, Hf|done|done]|].
  intros [u|] _; [by apply safe_ret|]. apply safe_then; [by apply safe_ignore, safe_write_fat|]. intros _. apply safe_fail.
Qed.

Lemma safe_fat_write f buf : open_ok f → bytes buf →
  safe (fat32_write fs f buf) (λ r, open_ok r.2 ∧ 0 ≤ r.1 ≤ Z.of_nat (length buf)).
Proof using Hm.
  intros Hf Hbuf. unfold fat32_write. destruct (bool_decide _); [apply safe_ret; simpl; (split; [done|lia])|].
  destruct (negb _); [apply safe_fail|]. eapply safe_bind; [by apply safe_write_first|].
  clear f Hf. intros f Hf. unfold write_data. destruct (_ =? 0); [apply safe_fail|].
  eapply safe_bind; [apply safe_skip_write, Hf|]. intros [[[[p c] k] steps]|[]] Hs; [|apply safe_ret; simpl; (split; [done|lia])].
  destruct (Hs p c k steps eq_refl) as [Hk Hst].
  eapply safe_bind; [by apply safe_write_chain|]. intros [n|n] Hn; [|by apply safe_ret]. cbv zeta.
  assert (open_ok (set_pos (u32 (pos f + n)) f)) as Hf'.
  { destruct Hf as (Ho & Ha & _). split_and!; [done..|]. simpl. unfold u32. by apply Z.mod_pos_bound. }
  destruct (size _ <? pos _); [|by apply safe_ret]. apply safe_then; [|intros _; by apply safe_ret].
  apply safe_ignore, safe_update_size, Hf.
Qed.

(** ** Chains *)

Lemma safe_free_chain c : safe (fat32_free_chain fs c) (λ _, True).
Proof using Hm.
  pose proof limit_bound as Hlim. unfold fat32_free_chain.
  apply (safe_while _ _ (λ st, 0 ≤ st.2 ≤ limit) (λ st, limit - st.2)); [simpl; lia|simpl; lia|].
  intros [c' steps] Hst. simpl in Hst. destruct (in_chain c'); [|by apply safe_ret]. destruct (Z.leb_spec limit steps); [by apply safe_ret|].
  apply safe_then; [apply safe_read_fat|]. intros v. apply safe_then; [by apply safe_ignore, safe_write_fat|]. intros _.
  apply safe_ret. simpl. rewrite steps_next by lia. lia.
Qed.

Lemma safe_walk_chain c n : safe (fat32_walk_chain fs c n) (λ _, True).
Proof using Hm.
  pose proof limit_bound as Hlim. unfold fat32_walk_chain.
  apply (safe_while _ _ (λ st, 0 ≤ st.1 ≤ limit) (λ st, limit - st.1)); [simpl; lia|simpl; lia|].
  intros [i c'] Hi. simpl in Hi. destruct (i <? n); [|by apply safe_ret]. destruct (negb _); [by apply safe_ret|].
  destruct (Z.leb_spec limit i); [by apply safe_ret|]. apply safe_then; [apply safe_read_fat|]. intros v. apply safe_ret. simpl. lia.
Qed.

Lemma safe_truncate f n : open_ok f → 0 ≤ n → safe (fat32_truncate fs f n) open_ok.
Proof using Hm.
  intros Hf Hn. unfold fat32_truncate. destruct (negb _); [apply safe_fail|]. destruct (_ =? _); [by apply safe_ret|].
  destruct (_ <? _); [apply safe_fail|]. destruct (_ =? 0); [apply safe_fail|]. destruct (n =? 0).
  - apply safe_then; [destruct (_ <=? _); [apply safe_free_chain|by apply safe_ret]|]. intros _.
    apply safe_then; [apply safe_ignore, safe_update_size, Hf|]. intros _.
    apply safe_then; [apply safe_ignore, safe_update_cluster, Hf|]. intros _. apply safe_ret. by destruct Hf as (? & ? & ?).
  - cbv zeta. apply safe_then; [apply safe_walk_chain|]. intros k. destruct (k <? 2); [apply safe_fail|].
    apply safe_then; [apply safe_read_fat|]. intros v. apply safe_then; [destruct (in_chain v); [apply safe_free_chain|by apply safe_ret]|]. intros _.
    apply safe_then; [by apply safe_ignore, safe_write_fat|]. intros _.
    apply safe_then; [apply safe_ignore, safe_update_size; destruct (_ <? _); apply Hf|]. intros _. apply safe_ret.
    destruct Hf as (Ho & Ha & Hp). destruct (_ <? _); by split_and!.
Qed.

Lemma seek_ok f off wh r f' : open_ok f → fat32_seek f off wh = Some (r, f') → open_ok f' ∧ 0 ≤ r.
Proof.
  intros (Ho & Ha & Hp) Hs. unfold fat32_seek in Hs. destruct (if wh =? SEEK_SET then _ else _) as [n|]; [|done]. simpl in Hs.
  destruct (Z.ltb_spec n 0); [done|]. destruct (0xFFFFFFFF <? n); [done|]. injection Hs as <- <-. done.
Qed.

(** ** Names *)

Lemma c_str_until stop p : c_str p → c_str (until stop p).
Proof. intros Hp. destruct (until_split stop p) as (r & E & _). unfold c_str in *. rewrite E in Hp. by apply Forall_app in Hp as [? _]. Qed.

Lemma short_name_ok name short : build_short_name name = Some short → c_str name → length short = 11%nat ∧ bytes short.
Proof.
  intros Hs Hn. unfold build_short_name in Hs. cbv zeta in Hs.
  set (base := until _ name) in *. set (ext := drop _ name) in *.
  assert (bytes (upper_str_n base)) as Hb by (by apply bytes_upper, c_str_until).
  assert (bytes (upper_str_n ext)) as He by (by apply bytes_upper, Forall_drop).
  assert (∀ n, bytes (replicate n space)) as Hsp by (intros n; apply Forall_replicate; done).
  destruct (bool_decide_reflect (name = [])); [done|]. destruct (bool_decide_reflect (12 < length name)%nat); [done|]. simpl in Hs.
  destruct (bool_decide_reflect (8 < length base)%nat); [done|]. simpl in Hs. destruct (bool_decide (base = [])); [done|].
  destruct (existsb _ base); [done|]. destruct (bool_decide (length base ≠ length name)).
  - simpl in Hs. destruct (bool_decide_reflect (3 < length ext)%nat); [done|]. injection Hs as <-. split.
    + rewrite !length_app, !length_replicate. unfold upper_str_n. rewrite !length_fmap. lia.
    + repeat apply bytes_app; done.
  - simpl in Hs. injection Hs as <-. split.
    + rewrite !length_app, !length_replicate. unfold upper_str_n. rewrite length_fmap. simpl. lia.
    + repeat apply bytes_app; (done || by apply bytesb_bytes).
Qed.

Lemma dir_entry_ok name at_ c n : length name = 11%nat → bytes name → is_byte at_ →
  length (dir_entry name at_ c n) = 32%nat ∧ bytes (dir_entry name at_ c n).
Proof.
  intros Hl Hb Ha. unfold dir_entry. split.
  - rewrite !length_app, !length_le_bytes, !length_replicate, Hl. done.
  - repeat apply bytes_app; try done; try apply bytes_le_bytes; try apply bytes_zero. by constructor.
Qed.

Lemma lor_byte a b : is_byte a → is_byte b → is_byte (Z.lor a b).
Proof.
  unfold is_byte. intros Ha Hb. split; [apply Z.lor_nonneg; lia|]. destruct (Z.eq_dec (Z.lor a b) 0) as [->|Hn]; [lia|].
  apply (Z.log2_lt_cancel _ 256). rewrite Z.log2_lor by lia. simpl (Z.log2 256).
  pose proof (Z.log2_le_mono a 255 ltac:(lia)). pose proof (Z.log2_le_mono b 255 ltac:(lia)). simpl (Z.log2 255) in *. lia.
Qed.

(** ** Directories *)

Lemma safe_find c name : safe (find_in_dir fs c name) (λ r, found_ok r.1).
Proof. apply safe_keeps. intros d Hr Hmo. by apply keeps_find. Qed.

Lemma safe_open path : safe (fat32_open fs path) open_ok.
Proof. apply safe_keeps. intros d Hr Hmo. by apply keeps_open. Qed.

Lemma safe_read_file f len : open_ok f → 0 ≤ len →
  safe (fat32_read fs f len) (λ r, open_ok r.2 ∧ Z.of_nat (length r.1) ≤ len).
Proof.
  intros (Ho & Ha & Hp) Hlen. eapply safe_mono; [apply safe_keeps; intros d Hr Hmo; by apply keeps_read_file|].
  intros [l g] [Hl Hg]. split; [|done]. simpl in *. destruct Hg as [->|[p ->]]; [done|]. split_and!; [done..|].
  simpl. unfold u32. by apply Z.mod_pos_bound.
Qed.

Lemma safe_resolve path : safe (resolve_dir_cluster fs path) (λ _, True).
Proof.
  unfold resolve_dir_cluster. apply (safe_while _ _ (λ _, True) (λ st, Z.of_nat (length st.1))); [done|simpl; lia|].
  intros [p cur] _. destruct (bool_decide_reflect (p = [])) as [|Hp]; [by apply safe_ret|].
  pose proof (next_component_shorter p Hp) as Hlt. destruct (next_component p) as [name rest]. simpl in Hlt.
  apply safe_then; [eapply safe_any, safe_find|]. intros [x cl]. destruct (_ =? 0); [apply safe_fail|]. apply safe_ret. simpl. lia.
Qed.

Lemma safe_free_slot c : safe (find_free_dir_slot fs c) (λ r, r.2 mod 32 = 0).
Proof using Hm.
  unfold find_free_dir_slot. eapply safe_bind.
  { apply safe_keeps. intros d Hr Hmo.
    apply (keeps_walk_dir d Hr fs Hmo free_step (λ _, True) (λ off, off mod 32 = 0)); [|done].
    intros a off e _ Hoff He Hb. unfold free_step. destruct (arr_get_some e 0) as (e0 & -> & _); [lia|]. simpl.
    eexists. split; [done|]. by destruct (_ || _). }
  intros [[prev u]|[cl off]] Hr; [|by apply safe_ret]. apply safe_then; [by apply safe_alloc|]. intros c'.
  destruct (c' =? 0); [apply safe_fail|by apply safe_ret].
Qed.

Lemma safe_new_directory parent : safe (new_directory fs parent) (λ _, True).
Proof using Hm.
  pose proof sector_size as Hs. unfold new_directory. apply safe_then; [by apply safe_alloc|]. intros c. destruct (c =? 0); [apply safe_fail|].
  eapply (safe_bind _ _ (λ _, True)).
  - apply (safe_attempt _ (λ _, True)); [|done|done]. apply safe_update. intros l Hl Hb.
    assert (∀ v, length (dir_entry dot_name ATTR_DIR v 0) = 32%nat ∧ bytes (dir_entry dot_name ATTR_DIR v 0)) as H1
      by (intros v; apply dir_entry_ok; [done|by apply bytesb_bytes|done]).
    assert (∀ v, length (dir_entry dotdot_name ATTR_DIR v 0) = 32%nat ∧ bytes (dir_entry dotdot_name ATTR_DIR v 0)) as H2
      by (intros v; apply dir_entry_ok; [done|by apply bytesb_bytes|done]).
    edestruct (put_total l 0 (dir_entry dot_name ATTR_DIR c 0)) as (l1 & -> & Hl1 & Hb1); [done|done|lia| |by apply H1|]; [destruct (H1 c) as [-> _]; lia|].
    cbn [mbind option_bind].
    apply put_total; [done|done|lia| |by apply H2]. destruct (H2 (parent_cluster fs parent)) as [-> _]. lia.
  - intros [u|] _; [by apply safe_ret|]. apply safe_then; [by apply safe_free_chain|]. intros _. apply safe_fail.
Qed.

Lemma split_path_str path p n : c_str path → split_path path = Some (p, n) → c_str n.
Proof.
  intros Hp. unfold split_path. assert (c_str (skip_slash path)) as Hs.
  { unfold skip_slash. destruct path as [|c r]; [done|]. destruct (c =? slash); [|done]. by apply Forall_cons in Hp as [_ ?]. }
  destruct (bool_decide _); [done|]. destruct (last_slash _); [destruct (bool_decide _); [done|]|]; intros [= _ <-].
  - by apply Forall_take, Forall_drop.
  - by apply Forall_take.
Qed.

(** The result of a total function, or an error. *)
Lemma safe_option {A B} (o : option A) (k : A → ME D B) (Q : B → Prop) :
  (∀ a, o = Some a → safe (k a) Q) → safe ((match o with Some a => mret a | None => fail end) ≫= k) Q.
Proof.
  intros Hk. destruct o as [a|]; [eapply (safe_bind _ _ (λ x, x = a)); [by apply safe_ret|intros ? ->; by apply Hk]|].
  eapply (safe_bind _ _ (λ _, False)); [apply safe_fail|done].
Qed.

Lemma safe_create path at_ : c_str path → is_byte at_ → safe (fat32_create fs path at_) (λ _, True).
Proof using Hm.
  intros Hp Ha. unfold fat32_create. apply safe_option. intros [parent name] Es. pose proof (split_path_str path _ _ Hp Es) as Hn.
  apply safe_then; [apply safe_resolve|]. intros dir.
  eapply (safe_bind _ _ (λ _, True)); [eapply safe_attempt; [apply safe_find|done|done]|]. intros [x|] _; [apply safe_fail|].
  apply safe_option. intros short Esh. destruct (short_name_ok name short Esh Hn) as [Hsl Hsb].
  apply safe_then; [destruct (negb _); [by apply safe_new_directory|by apply safe_ret]|]. intros c.
  eapply (safe_bind _ _ (λ _, True)).
  - apply (safe_attempt _ (λ _, True)); [|done|done]. eapply safe_bind; [by apply safe_free_slot|]. intros slot Hslot.
    destruct (dir_entry_ok short (u8 (Z.lor at_ ATTR_ARCHIVE)) c 0 Hsl Hsb) as [Hel Heb]; [unfold u8, is_byte; by apply Z.mod_pos_bound|].
    apply safe_write_entry; [done|lia|done].
  - intros [u|] _; [by apply safe_ret|]. apply safe_then; [destruct (negb _); [by apply safe_free_chain|by apply safe_ret]|].
    intros _. apply safe_fail.
Qed.

Lemma safe_unlink path : safe (fat32_unlink fs path) (λ _, True).
Proof using Hm.
  unfold fat32_unlink. eapply safe_bind; [apply safe_open|]. intros f Hf. destruct (negb _); [apply safe_fail|].
  apply safe_then; [destruct (_ <=? _); [by apply safe_free_chain|by apply safe_ret]|]. intros _. by apply safe_mark_deleted, Hf.
Qed.

Lemma safe_move_parent path f dir : safe (move_parent fs path f dir) (λ _, True).
Proof using Hm.
  pose proof sector_size as Hs. unfold move_parent. destruct (split_path path) as [[parent n]|]; [|by apply safe_ret].
  eapply (safe_bind _ _ (λ _, True)); [eapply safe_attempt; [apply safe_resolve|done|done]|]. intros [old|] _; [|by apply safe_ret].
  destruct (old =? dir); [by apply safe_ret|]. apply safe_ignore, safe_update. intros l Hl Hb. apply put_cluster_total; (done || lia).
Qed.

Lemma safe_rename old_path new_path : c_str new_path → safe (fat32_rename fs old_path new_path) (λ _, True).
Proof using Hm.
  intros Hp. unfold fat32_rename. eapply safe_bind; [apply safe_open|]. intros f Hf.
  apply safe_option. intros [parent name] Es. pose proof (split_path_str new_path _ _ Hp Es) as Hn.
  apply safe_then; [apply safe_resolve|]. intros dir.
  eapply (safe_bind _ _ (λ _, True)); [eapply safe_attempt; [apply safe_find|done|done]|]. intros [x|] _; [apply safe_fail|].
  apply safe_option. intros short Esh. destruct (short_name_ok name short Esh Hn) as [Hsl Hsb].
  eapply safe_bind; [by apply safe_free_slot|]. intros slot Hslot. apply safe_then.
  { destruct (dir_entry_ok short (Z.lor (attr f) ATTR_ARCHIVE) (first_cluster f) (size f) Hsl Hsb) as [Hel Heb];
      [apply lor_byte; [apply Hf|done]|]. apply safe_write_entry; [done|lia|done]. }
  intros _. eapply (safe_bind _ _ (λ _, True)); [eapply safe_attempt; [apply safe_mark_deleted, Hf|done|done]|].
  intros [u|] _; [destruct (_ && _); [by apply safe_move_parent|by apply safe_ret]|].
  apply safe_then; [by apply safe_ignore, safe_mark_deleted|]. intros _. apply safe_fail.
Qed.

(** ** Listing *)

Lemma readdir_step_total {C} (cb : list Z → Z → Z → C → bool * C) st off e : lfn_ok st.1 → length e = 32%nat →
  ∃ r, readdir_step cb st off e = Some r ∧ match r with inl st' => lfn_ok st'.1 | inr _ => True end.
Proof.
  intros Hl He. destruct st as [lfn ctx]. simpl in Hl. unfold readdir_step. pose proof lfn_reset_ok as Hr.
  destruct (arr_get_some e 0) as (e0 & -> & _); [lia|]. simpl.
  destruct (e0 =? 0); [by eexists|]. destruct (e0 =? 0xE5); [by eexists|].
  destruct (lfn_consume_total lfn e Hl He) as ([st|] & -> & Hst); simpl; [by eexists|].
  destruct (arr_get_some e 11) as (at_ & -> & _); [lia|]. simpl. destruct (negb _); [by eexists|].
  assert (∃ nm, (if (l_valid lfn =? 2) && (lfn_checksum_83 e =? l_checksum lfn) then Some (c_string (l_name lfn)) else build_83_name e) = Some nm) as [nm ->].
  { destruct (_ && _); [by eexists|]. unfold build_83_name. destruct (arr_get_some e 8) as (e8 & -> & _); [lia|]. by eexists. }
  simpl. destruct (bool_decide _); [by eexists|]. rewrite get_le_in by lia. simpl. destruct (cb _ _ _ _) as [[|] ctx']; by eexists.
Qed.

Lemma safe_readdir {C} c (cb : list Z → Z → Z → C → bool * C) ctx : safe (fat32_readdir fs c cb ctx) (λ _, True).
Proof using Hm.
  unfold fat32_readdir. apply safe_then; [|intros r; by apply safe_ret]. eapply safe_any, safe_keeps. intros d Hr Hmo.
  apply (keeps_walk_dir d Hr fs Hmo (readdir_step cb) (λ st, lfn_ok st.1) (λ _, True)); [|apply lfn_reset_ok].
  intros a off e Ha _ He _. by apply readdir_step_total.
Qed.
End total.
