(* ===== verification/FatMain.v ===== *)
(** * Main theorems of the FAT32 file system

    Stated on what the code's own functions return and on the bytes of the
    clusters of a file, with a small volume on which their hypotheses hold. *)

From S2P Require Import Prelude Loops Codec Ring Part Fat32 FatVol FatRead FatWrite FatEntry FatName FatCreate FatTrunc.

(** A program returns, and its result and final device satisfy [Q] or, for an
    error return, [R]. *)
Definition returns {D A} (m : ME D A) (d : D) (Q : A → D → Prop) (R : D → Prop) : Prop :=
  ∃ r d', m d = Some (r, d') ∧ match r with Some a => Q a d' | None => R d' end.

Lemma returns_wpe {D A} (m : ME D A) (d : D) Q R : wpe m Q R d → returns m d Q R.
Proof. unfold wpe, wp, returns. destruct (m d) as [[r d']|]; [|done]. intros Hr. by exists r, d'. Qed.

Section main.
Context {D : Type} `{BlockDeviceLaws D}.
Context (fs : fat32_fs).
Implicit Types d : D.

Abbreviation content := (content fs).
Abbreviation cs := (cluster_size fs).

Lemma file_set_pos d f l p : file_on fs d f l → 0 ≤ p < 2 ^ 32 → file_on fs d (set_pos p f) l.
Proof. intros [H1 H2 H3 H4] Hp. by split. Qed.

(** A file that was created, opened, written and opened again. *)
Definition create_write_read (path : list Z) (at_ : Z) (buf : list Z) : ME D (Z * list Z) :=
  fat32_create fs path at_;;
  f ← fat32_open fs path;
  r ← fat32_write fs f buf;
  g ← fat32_open fs path;
  s ← fat32_read fs g (Z.of_nat (length buf));
  mret (r.1, s.1).

(** The new file as [fat32_open] finds it. *)
Lemma created_open d d' l l' name cl off e at_ : geom fs d' → created fs d d' l l' name cl off e →
  e_cluster e = 0 → e_size e = 0 → e_attr e = at_ → fat fs d' cl ≠ 0 →
  let f := Fat32File 0 0 0 cl off at_ in file_on fs d' f [] ∧ synced fs d' f [].
Proof.
  intros G C Hc Hs Ha Hu. split; (split; simpl; try done; try lia).
  - apply C.
  - set_solver.
  - by rewrite (cr_entry _ _ _ _ _ _ _ _ _ C).
  - by rewrite (cr_entry _ _ _ _ _ _ _ _ _ C).
Qed.

(** The file is found again after the write, with its new size and cluster. *)
Lemma written_found d d1 lr name cl off e f buf n f' l' :
  geom fs d → chain fs (fat fs d) (root_cluster fs) lr → lr ≠ [] → cl ∈ lr → entry_place fs cl off → entry fs d cl off = e →
  dir_cluster f = cl → dir_offset f = off →
  scan (find_step name) lfn_reset (dir_entries fs d lr) = Some (inr (cl, Some (Found (e_cluster e) (e_size e) (e_attr e) off))) →
  write_post fs d d1 f [] buf n f' l' →
  chain fs (fat fs d1) (root_cluster fs) lr ∧
  ∃ at_, scan (find_step name) lfn_reset (dir_entries fs d1 lr) = Some (inr (cl, Some (Found (first_cluster f') (size f') at_ off))).
Proof.
  intros G Hch Hne Hcl Hp He Hdc Hoff Hfound P. pose proof (wp_written _ _ _ _ _ _ _ _ _ P) as W. rewrite Hdc, Hoff in W.
  pose proof (chain_all_valid fs _ _ _ Hch) as Hav. pose proof (wr_geom _ _ _ _ _ _ _ _ _ W) as G1.
  destruct (written_other fs d d1 cl off [] l' _ _ _ lr G W Hch ltac:(set_solver)) as [Hch1 _].
  split; [done|]. destruct (wp_synced _ _ _ _ _ _ _ _ _ P) as [_ _ _ Hsz Hscl].
  destruct (wp_dir _ _ _ _ _ _ _ _ _ P) as (Ed & Eo & _). rewrite Ed, Eo, Hdc, Hoff in Hsz, Hscl.
  pose proof (wp_name _ _ _ _ _ _ _ _ _ P) as Hnm. rewrite Hdc, Hoff, He in Hnm.
  pose proof (length_entry fs d cl off G Hp) as Hle. pose proof (length_entry fs d1 cl off G1 Hp) as Hle1. rewrite He in Hle.
  exists (e_attr (entry fs d1 cl off)). rewrite <-Hsz, <-Hscl.
  rewrite (dir_entries_upd fs d d1 lr cl off (entry fs d1 cl off) G Hav Hp Hle1 (wr_dir _ _ _ _ _ _ _ _ _ W)).
  2:{ intros c Hc Hcn. eapply written_cluster; [done|exact W|by eapply chain_valid|by eapply chain_used|set_solver|done]. }
  eapply scan_find_same; [|exact Hle|done|done| |exact Hfound|done].
  - apply Forall_forall. intros y Hy. destruct (elem_of_dir_entries fs d lr y G Hav Hy) as (_ & Hpy & Ey).
    split; [rewrite Ey; by apply length_entry|]. intros E. by rewrite Ey, E.
  - destruct (scan_find_entry name _ _ cl _ (dir_entries_length fs d lr G Hav) Hfound) as (e' & Hin & Hpl & _).
    destruct (elem_of_dir_entries fs d lr _ G Hav Hin) as (_ & _ & Ee). simpl in Ee. by rewrite Ee, He in Hpl.
Qed.

Lemma wpe_create_write_read d l path name at_ buf :
  geom fs d → chain fs (fat fs d) (root_cluster fs) l → l ≠ [] → root_name path name → name_ok name →
  is_byte at_ → Z.land at_ (Z.lor ATTR_DIR ATTR_VOLUME) = 0 →
  bytes buf → buf ≠ [] → Z.of_nat (length buf) < 2 ^ 32 →
  wpe (create_write_read path at_ buf)
    (λ r d', r.2 = take (Z.to_nat r.1) buf ∧ 0 ≤ r.1 ∧ (r.1 < Z.of_nat (length buf) → full fs d'))
    (λ d', full fs d' ∨ build_short_name name = None ∨
      ∃ x, scan (find_step name) lfn_reset (dir_entries fs d l) = Some (inr x) ∧ x.2 ≠ None) d.
Proof.
  intros G Hch Hne Hrn Hok Hat Hdir Hbuf Hbne Hbl. unfold create_write_read. we_steps.
  eapply wpe_mono; [by eapply (wpe_fat_create fs d l path name at_)|intros [] d1 (l1 & cl & off & e & C & Hec & Hes & Hea)|by intros d1 [-> ?]].
  destruct (attr_ok at_ Hat Hdir) as (_ & _ & _ & Hnd & _). pose proof C as [G1 Hch1 Hne1 Hp Hcl He Hfound _ _].
  assert (fat fs d1 cl ≠ 0) as Hused by (by eapply chain_used).
  we_steps. eapply (wpe_open_root fs d1 l1 path name); [done..| |].
  2:{ intros r Er Hnf. assert (r = inr (cl, Some (Found (e_cluster e) (e_size e) (e_attr e) off))) as -> by congruence. done. }
  intros cl' x Ex. assert (cl' = cl ∧ x = Found (e_cluster e) (e_size e) (e_attr e) off) as [-> ->] by (split; congruence).
  cbn [d_cluster d_size d_off d_attr]. rewrite Hec, Hes, Hea. set (a' := u8 _) in *. set (f := Fat32File 0 0 0 cl off a').
  destruct (created_open d d1 l l1 name cl off e a' G1 C Hec Hes Hea Hused) as [Hf Hsy]. fold f in Hf, Hsy.
  we_steps. eapply wpe_mono; [apply (wpe_write fs d1 f []); [done..|simpl; lia|done]|intros [n f'] d2 (l2 & P)|].
  2:{ intros d2 (-> & _ & Hfull). by left. }
  simpl in P. destruct (written_found d1 d2 l1 name cl off e f buf n f' l2) as [Hch2 (at2 & Hfound2)]; try done.
  pose proof (wr_geom _ _ _ _ _ _ _ _ _ (wp_written _ _ _ _ _ _ _ _ _ P)) as G2.
  we_steps. eapply (wpe_open_root fs d2 l1 path name); [done..| |].
  2:{ intros r Er Hnf. rewrite Hfound2 in Er. injection Er as <-. done. }
  intros cl' x Ex'. rewrite Hfound2 in Ex'. injection Ex' as <- <-. cbn [d_cluster d_size d_off d_attr].
  set (g := Fat32File (first_cluster f') (size f') 0 cl off at2).
  assert (file_on fs d2 g l2) as Hg by (destruct (wp_file _ _ _ _ _ _ _ _ _ P) as [F1 F2 F3 F4]; by split).
  we_steps. eapply wpe_mono; [apply (wpe_read fs d2 g l2); [done|done|lia]|intros [data g'] d3 (-> & Hdata & _ & _)|done].
  we_steps. cbn [fst snd]. pose proof (wp_count _ _ _ _ _ _ _ _ _ P) as Hn. split; [|split; [lia|apply P]].
  simpl in Hdata. rewrite Hdata. rewrite <-(written_bytes fs d1 d2 f [] buf n f' l2 G1 (List.Forall_nil _) ltac:(simpl; lia) P).
  pose proof (wp_size _ _ _ _ _ _ _ _ _ P) as Hs. simpl in Hs. unfold file_bytes. cbn [size g pos f].
  f_equal. destruct (Z.eqb_spec n 0); lia.
Qed.
End main.

(** ** A volume *)

(** Five clusters of one sector; the root directory is cluster 2 and has one
    file, [A], whose five bytes are in cluster 3. *)
Definition pad (l : list Z) : list Z := l ++ replicate (512 - length l) 0.

Definition demo_boot : list Z :=
  splice (splice (replicate 512 0) 0
    (replicate 11 0 ++ le_bytes 2 512 ++ [1] ++ le_bytes 2 1 ++ [2] ++ replicate 2 0 ++ le_bytes 2 8 ++
     replicate 11 0 ++ replicate 4 0 ++ le_bytes 4 1 ++ replicate 4 0 ++ le_bytes 4 2)) 510 [0x55; 0xAA].
Definition demo_fat : list Z :=
  pad (le_bytes 4 0x0FFFFFF8 ++ le_bytes 4 0x0FFFFFFF ++ le_bytes 4 0x0FFFFFFF ++ le_bytes 4 0x0FFFFFFF).
Definition demo_root : list Z := pad (dir_entry (65 :: replicate 10 space) ATTR_ARCHIVE 3 5).
Definition demo_sectors : list (Z * list Z) :=
  [(0, demo_boot); (1, demo_fat); (2, demo_fat); (3, demo_root); (4, pad [1; 2; 3; 4; 5])].

Definition demo : ramdisk := Ramdisk 512 8 (list_to_map demo_sectors).
Definition demo_fs : fat32_fs := Fat32Fs 0 512 1 1 2 1 8 5 2 1 3.
Definition demo_file : fat32_file := Fat32File 3 5 0 2 0 ATTR_ARCHIVE.

(** It is what mounting and opening find. *)
Example demo_mounts : fst <$> fat32_mount 0 demo = Some (Some demo_fs).
Proof. vm_compute. reflexivity. Qed.
Example demo_opens : fst <$> fat32_open demo_fs [65] demo = Some (Some demo_file).
Proof. vm_compute. reflexivity. Qed.

Lemma demo_sector k l : rd_sectors demo !! k = Some l → length l = 512%nat ∧ bytes l.
Proof.
  intros Hk. apply elem_of_list_to_map_2 in Hk.
  assert (forallb (λ p : Z * list Z, (length p.2 =? 512)%nat && bytesb p.2) demo_sectors = true) as Hall by (vm_compute; reflexivity).
  rewrite forallb_forall in Hall. apply list_elem_of_In in Hk. specialize (Hall _ Hk). apply andb_true_iff in Hall as [Hl Hb].
  split; [by apply Nat.eqb_eq|by apply bytesb_bytes].
Qed.

Lemma demo_geom : geom demo_fs demo.
Proof.
  split; cbn [bytes_per_sector sectors_per_cluster fat_count total_clusters sectors_per_fat fat_lba data_lba demo_fs];
    unfold END_OF_CHAIN; try lia; try done.
  intros k Hk. split; [simpl; lia|]. destruct (rd_sectors demo !! k) eqn:E; [|done]. by apply (demo_sector k).
Qed.

Lemma demo_valid x : 2 ≤ x < 7 → valid demo_fs x.
Proof. done. Qed.

Lemma demo_root_chain : chain demo_fs (fat demo_fs demo) 2 [2].
Proof. split; [done|]. split; [by apply demo_valid|]. vm_compute. discriminate. Qed.

Lemma demo_file_on : file_on demo_fs demo demo_file [3].
Proof.
  split; cbn [first_cluster size pos demo_file length]; [|vm_compute; split; discriminate|lia|lia].
  split; [done|]. split; [by apply demo_valid|]. vm_compute. discriminate.
Qed.

Lemma demo_synced : synced demo_fs demo demo_file [3].
Proof.
  split; cbn [dir_cluster dir_offset demo_file first_cluster size].
  - split; [by apply demo_valid|lia|vm_compute; discriminate|done].
  - vm_compute. discriminate.
  - set_solver.
  - vm_compute. reflexivity.
  - vm_compute. reflexivity.
Qed.

Lemma demo_reads k l : rd_read k demo = Some l → length l = 512%nat ∧ bytes l.
Proof.
  unfold rd_read. destruct (_ && _); [|done]. destruct (rd_sectors demo !! k) as [l'|] eqn:E; intros Hl.
  - injection Hl as <-. exact (demo_sector k l' E).
  - injection Hl as <-. exact (conj (length_replicate 512 0) (bytes_zero 512)).
Qed.

Lemma demo_reads_ok : reads_ok demo.
Proof. intros k l Hr. destruct (demo_reads k l Hr) as [Hl Hb]. split; [|done]. by rewrite Hl. Qed.

(** ** Theorems *)

(** C18: On a consistent volume, [fat32_read] always returns, delivers exactly
    the bytes of the file from its position on (as many as were asked for, or
    all up to the end), moves the position by their number, and changes
    nothing on the device. *)
Theorem fat32_read_correct {D} `{BlockDeviceLaws D} (fs : fat32_fs) (d : D) f l len :
  geom fs d → file_on fs d f l → 0 ≤ len →
  returns (fat32_read fs f len) d
    (λ r d', d' = d ∧ r.1 = zslice (file_bytes fs d f l) (pos f) (Z.min len (Z.max 0 (size f - pos f))) ∧
       r.2 = set_pos (pos f + Z.of_nat (length r.1)) f ∧
       Z.of_nat (length r.1) = Z.min len (Z.max 0 (size f - pos f)))
    (λ _, False).
Proof. intros G Hf Hl. by apply returns_wpe, wpe_read. Qed.

Lemma fat32_read_correct_witness : returns (fat32_read demo_fs demo_file 4) demo
    (λ r d', d' = demo ∧ r.1 = zslice (file_bytes demo_fs demo demo_file [3]) 0 (Z.min 4 (Z.max 0 (5 - 0))) ∧
       r.2 = set_pos (0 + Z.of_nat (length r.1)) demo_file ∧
       Z.of_nat (length r.1) = Z.min 4 (Z.max 0 (5 - 0)))
    (λ _, False).
Proof. apply (fat32_read_correct demo_fs demo demo_file [3] 4); [apply demo_geom|apply demo_file_on|lia]. Defined.





(** The run of that sequence. *)
Example demo_fat_run : fst <$> create_write_read demo_fs [47; 98; 46; 99] 0 [7; 8; 9] demo = Some (Some (3, [7; 8; 9])).
Proof. vm_compute. reflexivity. Qed.

(** C17: [fat32_truncate] to a smaller size keeps the first bytes of the file
    and exactly the clusters they need, frees the other clusters of its
    chain, touches no other entry of the table and no other contents, and
    leaves the directory entry in agreement with the file; the same size
    changes nothing and a larger one is refused. *)
Theorem fat32_truncate_correct {D} `{BlockDeviceLaws D} (fs : fat32_fs) (d : D) f l n :
  geom fs d → file_on fs d f l → synced fs d f l → 0 ≤ n → Z.land (attr f) ATTR_DIR = 0 →
  returns (fat32_truncate fs f n) d
    (λ f' d', (n = size f ∧ f' = f ∧ d' = d) ∨ (n < size f ∧ truncated fs d d' f l n f'))
    (λ d', size f < n ∧ d' = d).
Proof.
  intros G Hf Hs Hn Hat. apply returns_wpe. destruct (Z.lt_trichotomy n (size f)) as [Hlt|[Heq|Hgt]].
  - apply (wpe_mono _ (λ f' d', truncated fs d d' f l n f') _ (λ _, False)); [|intros f' d' Ht; by right|done].
    destruct (decide (n = 0)) as [->|Hne]; [by apply wpe_truncate_all|apply wpe_truncate_part; [done..|lia|done]].
  - unfold fat32_truncate. rewrite Hat, Heq, !Z.eqb_refl. cbn [negb]. we_steps. by left.
  - unfold fat32_truncate. rewrite Hat. simpl. destruct (Z.eqb_spec n (size f)); [lia|].
    destruct (Z.ltb_spec (size f) n); [|lia]. by we_steps.
Qed.

Lemma fat32_truncate_correct_witness : returns (fat32_truncate demo_fs demo_file 2) demo
    (λ f' d', (2 = 5 ∧ f' = demo_file ∧ d' = demo) ∨ (2 < 5 ∧ truncated demo_fs demo d' demo_file [3] 2 f'))
    (λ d', 5 < 2 ∧ d' = demo).
Proof.
  apply (fat32_truncate_correct demo_fs demo demo_file [3] 2);
    [apply demo_geom|apply demo_file_on|apply demo_synced|lia|done].
Defined.

(** Whatever is on the device, corrupt tables and directories included,
    mounting at any sector, opening any path and reading any number of bytes
    ends, with a result or an error, without an access outside a buffer and
    without a change of the device. *)
Theorem fat32_image_safe {D} `{BlockDevice D} (d : D) lba path len :
  reads_ok d → 0 ≤ len →
  returns (mount_open_read lba path len) d (λ r d', d' = d ∧ Z.of_nat (length r) ≤ len) (λ d', d' = d).
Proof. intros Hok Hlen. by apply returns_wpe, keeps_mount_open_read. Qed.

Lemma fat32_image_safe_witness :
  returns (mount_open_read 0 [65] 100) demo (λ r d', d' = demo ∧ Z.of_nat (length r) ≤ 100) (λ d', d' = demo).
Proof. apply (fat32_image_safe demo 0 [65] 100); [apply demo_reads_ok|lia]. Defined.

(** ** Behaviour worth knowing *)

(** A long name that is cut to eight characters opens another file. *)
Example fat32_name_alias :
  name_match_83 (dir_entry (76 :: 79 :: 78 :: 71 :: 78 :: 65 :: 77 :: 69 :: replicate 3 space) ATTR_ARCHIVE 3 5)
    [108; 111; 110; 103; 110; 97; 109; 101; 49; 50; 51] = true.
Proof. vm_compute. reflexivity. Qed.

(** A name that begins with 0xE5 is created with an entry that reads as free,
    so the file cannot be opened. *)
Example fat32_create_e5 :
  fst <$> (fat32_create demo_fs [0xE5] 0;; fat32_open demo_fs [0xE5]) demo = Some None.
Proof. vm_compute. reflexivity. Qed.

(** A write beyond the end of a file makes bytes readable that a truncation
    had removed. *)
Example fat32_gap_stale :
  fst <$> (f ← fat32_truncate demo_fs demo_file 1;
           w ← fat32_write demo_fs (set_pos 4 f) [9];
           r ← fat32_read demo_fs (set_pos 0 w.2) 5; mret r.1) demo = Some (Some [1; 2; 3; 4; 9]).
Proof. vm_compute. reflexivity. Qed.

(** A volume is mounted although its table is too small for its clusters. *)
Definition short_table : ramdisk := Ramdisk 512 8000 {[ 0 := splice demo_boot 32 (le_bytes 4 8000) ]}.
Example fat32_mount_short_table :
  (λ r : option fat32_fs * ramdisk,
     (λ fs, sectors_per_fat fs * bytes_per_sector fs <? (total_clusters fs + 2) * 4) <$> r.1) <$> fat32_mount 0 short_table
  = Some (Some true).
Proof. vm_compute. reflexivity. Qed.
