(* ===== verification/Vfs.v ===== *)
(** * Virtual file system

    Translation of the core of [src/src/kernel/fs/vfs.c]: the mount list, the
    references that keep an unmounted mount alive, the pool of open files, and
    the calls that go through the table of operations of a mount.

    A file system is a table of operations ([struct fs_ops]) over a world [W]
    that all file systems share (their devices); a null pointer in a table is
    [None].  [FD] is the type of the data of a mounted file system, [P] that of
    the private part of an open file.  The context of a directory callback may
    have any type.  A mount object is named by a number, its address; the list of mounts is
    the list of the addresses linked by [next].  An access to an object that
    was freed is undefined.  Each function is one step: the lock is taken and
    released inside.  The scan of a disk for partitions ([vfs_mount_secondary]),
    which the recovery of a lost mount starts, is a parameter.  Log output is
    left out. *)

From S2P Require Import Prelude Loops.

Definition VFS_OPEN_FILE_POOL_SIZE : nat := 256.
Definition MOUNTPOINT_SIZE : nat := 64.
Definition slash : Z := 47.

Record vfs_stat := VfsStat { st_size : Z; st_attr : Z }.

(** ** Paths *)

(** The number of leading characters two strings share. *)
Fixpoint common (a b : list Z) : nat :=
  match a, b with
  | x :: a, y :: b => if x =? y then S (common a b) else 0
  | _, _ => 0
  end.

(** The test of [find_mount_locked] on one mount point: its length when it is
    a prefix of the path that ends where a component ends. *)
Definition match_len (mp path : list Z) : option nat :=
  let i := common mp path in
  if bool_decide (i = length mp) &&
     (bool_decide (i = length path) || bool_decide (path !! i = Some slash) ||
      (bool_decide (i ≠ 0%nat) && bool_decide (mp !! (i - 1)%nat = Some slash)))
  then Some i else None.

Fixpoint skip_slashes (p : list Z) : list Z :=
  match p with c :: r => if c =? slash then skip_slashes r else p | [] => [] end.
Definition skip_slash (p : list Z) : list Z :=
  match p with c :: r => if c =? slash then r else p | [] => [] end.

Fixpoint skip_digits (p : list Z) : list Z :=
  match p with c :: r => if (48 <=? c) && (c <=? 57) then skip_digits r else p | [] => [] end.

Definition nvme : list Z := [47; 110; 118; 109; 101].
Definition path_is_nvme_prefix (path : list Z) : bool := bool_decide (take 5 path = nvme).
Definition path_is_exact_nvme_mountpoint (path : list Z) : bool :=
  path_is_nvme_prefix path &&
  let rest := drop 5 path in
  bool_decide (rest = []) || bool_decide (skip_digits rest = []) || bool_decide (skip_digits rest = [slash]).

Section vfs.
Context {W FD P : Type}.

(** ** Data *)

(** The part of [struct vfs_file] a file system may change. *)
Definition file : Type := P * Z.

Record fs_ops := FsOps {
  op_open : option (option FD → list Z → M W (option file));
  op_read : option (file → Z → M W (Z * list Z * file));
  op_write : option (file → list Z → M W (Z * file));
  op_close : option (file → M W (Z * file));
  op_readdir : option (∀ C : Type, option FD → list Z → (list Z → Z → Z → C → bool * C) → C → M W (Z * option C));
  op_stat : option (option FD → list Z → M W (Z * vfs_stat));
  op_create : option (option FD → list Z → Z → M W Z);
  op_mkdir : option (option FD → list Z → M W Z);
  op_unlink : option (option FD → list Z → M W Z);
  op_seek : option (file → Z → Z → M W (Z * file));
  op_truncate : option (file → Z → M W (Z * file));
  op_rename : option (option FD → list Z → list Z → M W Z)
}.

Record vfs_mount_obj := Mount {
  mountpoint : list Z; ops : nat; fs_data : option FD; open_refs : Z; active : bool }.

Record vfs_file := VfsFile { f_used : bool; f_mount : option nat; f_file : file }.

Record vfs := Vfs {
  heap : gmap nat vfs_mount_obj; allocs : nat; g_mounts : list nat; pool : list vfs_file;
  released : list FD; g_nvme_recovering : bool; g_storage_bd : bool; world : W }.

Definition on_heap (g : gmap nat vfs_mount_obj → gmap nat vfs_mount_obj) (s : vfs) : vfs :=
  Vfs (g (heap s)) (allocs s) (g_mounts s) (pool s) (released s) (g_nvme_recovering s) (g_storage_bd s) (world s).
Definition set_mounts (l : list nat) (s : vfs) : vfs :=
  Vfs (heap s) (allocs s) l (pool s) (released s) (g_nvme_recovering s) (g_storage_bd s) (world s).
Definition on_pool (g : list vfs_file → list vfs_file) (s : vfs) : vfs :=
  Vfs (heap s) (allocs s) (g_mounts s) (g (pool s)) (released s) (g_nvme_recovering s) (g_storage_bd s) (world s).
Definition set_world (w : W) (s : vfs) : vfs :=
  Vfs (heap s) (allocs s) (g_mounts s) (pool s) (released s) (g_nvme_recovering s) (g_storage_bd s) w.
Definition release (d : FD) (s : vfs) : vfs :=
  Vfs (heap s) (allocs s) (g_mounts s) (pool s) (d :: released s) (g_nvme_recovering s) (g_storage_bd s) (world s).
Definition count_alloc (s : vfs) : vfs :=
  Vfs (heap s) (S (allocs s)) (g_mounts s) (pool s) (released s) (g_nvme_recovering s) (g_storage_bd s) (world s).

Definition set_recovering (b : bool) (s : vfs) : vfs :=
  Vfs (heap s) (allocs s) (g_mounts s) (pool s) (released s) b (g_storage_bd s) (world s).

Definition with_refs (n : Z) (m : vfs_mount_obj) : vfs_mount_obj :=
  Mount (mountpoint m) (ops m) (fs_data m) n (active m).
Definition with_active (b : bool) (m : vfs_mount_obj) : vfs_mount_obj :=
  Mount (mountpoint m) (ops m) (fs_data m) (open_refs m) b.

(** The tables the code fills in, which of them own heap-allocated data
    ([sec_totfs_ops], [sec_fat32_ops], [sec_ntfs_ops]), which allocations
    fail, the cleared private part, and the scan for partitions. *)
Context (table : nat → fs_ops) (owned : nat → bool) (oom : nat → bool) (pzero : P).
Context (vfs_mount_secondary : list Z → M vfs unit).

Abbreviation V := (M vfs).

Definition deref (id : nat) : V vfs_mount_obj := lift_opt (λ s, heap s !! id).
Definition put_obj (id : nat) (m : vfs_mount_obj) : V unit := modify (on_heap (<[id := m]>)).
Definition on_world {A} (m : M W A) : V A := λ s,
  match m (world s) with Some (a, w) => Some (a, set_world w s) | None => None end.

(** ** The pool of open files *)

Definition free_file : vfs_file := VfsFile false None (pzero, 0).

Fixpoint first_free (l : list vfs_file) (i : nat) : option nat :=
  match l with [] => None | f :: l => if f_used f then first_free l (S i) else Some i end.

Definition vfs_file_alloc : V (option nat) :=
  l ← gets pool;
  match first_free l 0 with
  | None => mret None
  | Some i => modify (on_pool (<[i := VfsFile true None (pzero, 0)]>));; mret (Some i)
  end.

Definition vfs_file_free (i : nat) : V unit := modify (on_pool (<[i := free_file]>)).

Definition slot (i : nat) : V vfs_file := lift_opt (λ s, pool s !! i).
Definition set_slot (i : nat) (f : vfs_file) : V unit := modify (on_pool (<[i := f]>)).

(** ** Mounts *)

Definition vfs_free_fs_data (id : nat) : V unit :=
  m ← deref id;
  match fs_data m with
  | None => mret tt
  | Some d =>
      if owned (ops m) then
        modify (release d);; put_obj id (Mount (mountpoint m) (ops m) None (open_refs m) (active m))
      else mret tt
  end.

Definition vfs_mount_try_dispose (id : nat) : V unit :=
  m ← deref id;
  if active m then mret tt
  else if negb (open_refs m =? 0) then mret tt
  else vfs_free_fs_data id;; modify (on_heap (delete id)).

Definition vfs_mount_get_locked (id : nat) : V bool :=
  m ← deref id;
  if open_refs m =? 0xFFFFFFFF then mret false
  else put_obj id (with_refs (open_refs m + 1) m);; mret true.

Definition vfs_mount_put (o : option nat) : V unit :=
  match o with
  | None => mret tt
  | Some id =>
      m ← deref id;
      let n := if 0 <? open_refs m then open_refs m - 1 else open_refs m in
      put_obj id (with_refs n m);;
      if negb (active m) && (n =? 0) then vfs_mount_try_dispose id else mret tt
  end.

(** The first mount of the list with a mount point, with the list without it. *)
Fixpoint find_at (h : gmap nat vfs_mount_obj) (mp : list Z) (l : list nat) : option (option (nat * list nat)) :=
  match l with
  | [] => Some None
  | id :: l =>
      m ← h !! id;
      if bool_decide (mountpoint m = mp) then Some (Some (id, l))
      else
        r ← find_at h mp l;
        Some (match r with Some (x, rest) => Some (x, id :: rest) | None => None end)
  end.

Definition vfs_umount (mp : list Z) : V bool :=
  r ← lift_opt (λ s, find_at (heap s) mp (g_mounts s));
  match r with
  | None => mret false
  | Some (id, rest) =>
      modify (set_mounts rest);;
      m ← deref id;
      put_obj id (with_active false m);;
      (if open_refs m =? 0 then vfs_mount_try_dispose id else mret tt);;
      mret true
  end.

Definition mountpoint_exists_locked (mp : list Z) : V bool :=
  r ← lift_opt (λ s, find_at (heap s) mp (g_mounts s));
  mret (bool_decide (r ≠ None)).

Definition vfs_mount (mp : list Z) (o : nat) (d : option FD) : V bool :=
  while (2 ^ 64) (λ _ : unit,
    while (2 ^ 64) (λ _ : unit, b ← vfs_umount mp; mret (if b : bool then inl tt else inr tt)) tt;;
    n ← gets allocs;
    modify count_alloc;;
    if oom n then mret (inr false)
    else
      ex ← mountpoint_exists_locked mp;
      if ex : bool then mret (inl tt)
      else
        l ← gets g_mounts;
        put_obj n (Mount (take (MOUNTPOINT_SIZE - 1) mp) o d 0 true);;
        modify (set_mounts (n :: l));;
        mret (inr true)) tt.

(** ** Recovery of a lost mount *)

Definition mountpoint_exists (mp : list Z) : V bool := mountpoint_exists_locked mp.

Fixpoint find_exact (mp : list Z) (l : list nat) : V (option nat) :=
  match l with
  | [] => mret None
  | id :: l =>
      m ← deref id;
      if bool_decide (mountpoint m = mp) then
        g ← vfs_mount_get_locked id;
        if g : bool then mret (Some id) else find_exact mp l
      else find_exact mp l
  end.
Definition find_mount_exact_ref (mp : list Z) : V (option nat) := l ← gets g_mounts; find_exact mp l.

Definition sec_probe_readdir_cb (name : list Z) (size attr : Z) (ctx : unit) : bool * unit := (true, ctx).

Definition sec_probe_root (o : fs_ops) (d : option FD) : M W bool :=
  match op_stat o, op_readdir o with
  | Some st, Some rdir =>
      r ← st d [];
      if negb (r.1 =? 0) then mret false
      else if Z.land (st_attr r.2) 0x10 =? 0 then mret false
      else
        q ← rdir unit d [] sec_probe_readdir_cb tt;
        mret (q.1 =? 0)
  | _, _ => mret false
  end.

Definition mountpoint_healthy (mp : list Z) : V bool :=
  r ← find_mount_exact_ref mp;
  match r with
  | None => mret false
  | Some id =>
      m ← deref id;
      ok ← on_world (sec_probe_root (table (ops m)) (fs_data m));
      vfs_mount_put (Some id);;
      mret ok
  end.

Definition vfs_try_recover_mount (path : list Z) : V bool :=
  if negb (path_is_exact_nvme_mountpoint path) then mret false
  else
    have_nvme ← mountpoint_exists nvme;
    healthy ← (if have_nvme : bool then mountpoint_healthy nvme else mret false);
    if healthy : bool then mret false
    else
      rec ← gets g_nvme_recovering;
      if rec : bool then mret false
      else
        modify (set_recovering true);;
        bd ← gets g_storage_bd;
        (if have_nvme : bool then vfs_umount nvme;; mret tt else mret tt);;
        (if bd : bool then vfs_mount_secondary nvme else mret tt);;
        modify (set_recovering false);;
        mret true.

(** ** Looking up a path *)

(** The mount with the longest matching mount point. *)
Fixpoint best_mount (h : gmap nat vfs_mount_obj) (path : list Z) (l : list nat) (best : option nat) (best_len : nat)
    : option (option nat * nat) :=
  match l with
  | [] => Some (best, best_len)
  | id :: l =>
      m ← h !! id;
      match match_len (mountpoint m) path with
      | Some i => if bool_decide (best_len < i)%nat then best_mount h path l (Some id) i
                  else best_mount h path l best best_len
      | None => best_mount h path l best best_len
      end
  end.
Definition find_mount_locked (path : list Z) : V (option nat * nat) :=
  lift_opt (λ s, best_mount (heap s) path (g_mounts s) None 0).

(** The mount of a path, with a reference, and the rest of the path.  Where
    the recovery is tried no mount is held. *)
Definition find_mount_ref (path : list Z) : V (option (nat * list Z)) :=
  while 3 (λ retried : bool,
    b ← find_mount_locked path;
    got ← (match b.1 with Some id => vfs_mount_get_locked id | None => mret false end);
    match b.1, got : bool with
    | Some id, true => mret (inr (Some (id, skip_slash (drop b.2 path))))
    | _, _ =>
        if negb retried && path_is_exact_nvme_mountpoint path then
          ok ← vfs_try_recover_mount path;
          mret (if ok : bool then inl true else inr None)
        else mret (inr None)
    end) false.

(** ** Calls on paths *)

(** [find_mount_ref], the test of the table entry, the call, [vfs_mount_put].
    Where the entry is null the function returns with the reference. *)
Definition with_mount {X A} (path : list Z) (sel : fs_ops → option X) (k : X → option FD → list Z → M W A) (err : A) : V A :=
  r ← find_mount_ref path;
  match r with
  | None => mret err
  | Some (id, rel) =>
      m ← deref id;
      match sel (table (ops m)) with
      | None => mret err
      | Some op => a ← on_world (k op (fs_data m) rel); vfs_mount_put (Some id);; mret a
      end
  end.

Definition vfs_readdir_ex {C : Type} (path : list Z) (cb : list Z → Z → Z → C → bool * C) (ctx : C) : V (Z * option C) :=
  with_mount path op_readdir (λ op fd rel, op C fd rel cb ctx) (-1, Some ctx).
Definition vfs_readdir {C : Type} (path : list Z) (cb : list Z → C → bool * C) (ctx : C) : V (Z * option C) :=
  vfs_readdir_ex path (λ name _ _, cb name) ctx.
Definition vfs_stat_path (path : list Z) (out : vfs_stat) : V (Z * vfs_stat) :=
  with_mount path op_stat (λ op fd rel, op fd rel) (-1, out).
Definition vfs_create (path : list Z) (type : Z) : V Z :=
  with_mount path op_create (λ op fd rel, op fd rel type) (-1).
Definition vfs_mkdir (path : list Z) : V Z := with_mount path op_mkdir (λ op fd rel, op fd rel) (-1).
Definition vfs_unlink (path : list Z) : V Z := with_mount path op_unlink (λ op fd rel, op fd rel) (-1).

Definition vfs_rename (old_path new_path : list Z) : V Z :=
  r ← find_mount_ref old_path;
  match r with
  | None => mret (-1)
  | Some (id, old_rel) =>
      m ← deref id;
      match op_rename (table (ops m)) with
      | None => mret (-1)
      | Some op =>
          m2 ← find_mount_locked new_path;
          if negb (bool_decide (m2.1 = Some id)) then vfs_mount_put (Some id);; mret (-1)
          else
            rc ← on_world (op (fs_data m) old_rel (skip_slashes (drop (length (mountpoint m)) new_path)));
            vfs_mount_put (Some id);;
            mret rc
      end
  end.

(** ** Calls on files *)

Definition vfs_open (path : list Z) : V (option nat) :=
  if bool_decide (path = []) then mret None
  else
    r ← find_mount_ref path;
    match r with
    | None => mret None
    | Some (id, rel) =>
        m ← deref id;
        match op_open (table (ops m)) with
        | None => mret None
        | Some op =>
            f ← vfs_file_alloc;
            match f with
            | None => vfs_mount_put (Some id);; mret None
            | Some i =>
                set_slot i (VfsFile true (Some id) (pzero, 0));;
                r ← on_world (op (fs_data m) rel);
                match r with
                | None => vfs_mount_put (Some id);; vfs_file_free i;; mret None
                | Some g => set_slot i (VfsFile true (Some id) g);; mret (Some i)
                end
            end
        end
    end.

(** A call through the table of the mount of a file. *)
Definition with_file {X A} (i : nat) (sel : fs_ops → option X) (k : X → file → M W (A * file)) (err : A) : V A :=
  f ← slot i;
  match f_mount f with
  | None => mret err
  | Some id =>
      m ← deref id;
      match sel (table (ops m)) with
      | None => mret err
      | Some op =>
          r ← on_world (k op (f_file f));
          set_slot i (VfsFile (f_used f) (f_mount f) r.2);;
          mret r.1
      end
  end.

Definition vfs_read (i : nat) (len : Z) : V (Z * list Z) := with_file i op_read (λ op f, op f len) (-1, []).
Definition vfs_write (i : nat) (buf : list Z) : V Z := with_file i op_write (λ op f, op f buf) (-1).
Definition vfs_seek (i : nat) (offset whence : Z) : V Z := with_file i op_seek (λ op f, op f offset whence) (-1).
Definition vfs_truncate (i : nat) (n : Z) : V Z := with_file i op_truncate (λ op f, op f n) (-1).

Definition vfs_close (i : nat) : V Z :=
  rc ← with_file i op_close (λ op f, op f) 0;
  f ← slot i;
  vfs_mount_put (f_mount f);;
  vfs_file_free i;;
  mret rc.

Definition vfs_size (i : nat) : V Z := f ← slot i; mret (u32 (f_file f).2).
End vfs.
