(* ===== verification/VfsInv.v ===== *)
(** * Virtual file system: the invariant

    References count the open files of a mount: a mount object lives as long
    as it is mounted or a file is open on it, and no longer. *)

From S2P Require Import Prelude Loops Codec Vfs.

Section inv.
Context {W FD P : Type}.
Context (table : nat → fs_ops (W := W) (FD := FD) (P := P)) (owned : nat → bool) (pzero : P).
(** What the tables of operations keep: a condition on the world, one on the
    data a table is mounted with, and one on its open files. *)
Context (WI : W → Prop) (DO : nat → option FD → Prop) (FO : nat → option FD → P * Z → Prop).

Abbreviation vfs := (vfs (W := W) (FD := FD) (P := P)).
Abbreviation obj := (vfs_mount_obj (FD := FD)).
Abbreviation ofile := (vfs_file (P := P)).
Implicit Types s : vfs.
Implicit Types m : obj.

(** All entries of a table are there. *)
Definition complete (o : fs_ops (W := W) (FD := FD) (P := P)) : Prop :=
  op_open o ≠ None ∧ op_readdir o ≠ None ∧ op_stat o ≠ None ∧ op_create o ≠ None ∧ op_mkdir o ≠ None ∧
  op_unlink o ≠ None ∧ op_rename o ≠ None.

(** ** Counting *)

Definition on_id (id : nat) (f : ofile) : bool := f_used f && bool_decide (f_mount f = Some id).
Definition files_on (l : list ofile) (id : nat) : Z := Z.of_nat (length (List.filter (on_id id) l)).
Definition cnt (l : list nat) (id : nat) : Z := Z.of_nat (length (List.filter (Nat.eqb id) l)).

Definition b2z (b : bool) : Z := if b then 1 else 0.

Lemma files_on_cons f l id : files_on (f :: l) id = b2z (on_id id f) + files_on l id.
Proof. unfold files_on. simpl. destruct (on_id id f); simpl; lia. Qed.

Lemma files_on_insert l i f g id : l !! i = Some f →
  files_on (<[i := g]> l) id = files_on l id - b2z (on_id id f) + b2z (on_id id g).
Proof.
  revert i. induction l as [|x l IH]; intros i Hi; [done|]. destruct i as [|i]; simpl in *.
  - injection Hi as ->. rewrite !files_on_cons. lia.
  - rewrite !files_on_cons, (IH i Hi). lia.
Qed.

Lemma files_on_nonneg l id : 0 ≤ files_on l id.
Proof. unfold files_on. lia. Qed.

Lemma files_on_pos l id i f : l !! i = Some f → on_id id f = true → 1 ≤ files_on l id.
Proof.
  revert i. induction l as [|x l IH]; intros i Hi Hf; [done|]. rewrite files_on_cons. destruct i as [|i]; simpl in *.
  - injection Hi as ->. rewrite Hf. pose proof (files_on_nonneg l id). simpl. lia.
  - pose proof (IH i Hi Hf). destruct (on_id id x); simpl; lia.
Qed.

Lemma cnt_cons x l id : cnt (x :: l) id = b2z (id =? x)%nat + cnt l id.
Proof. unfold cnt. simpl. destruct (id =? x)%nat; simpl; lia. Qed.

Lemma cnt_nonneg l id : 0 ≤ cnt l id.
Proof. unfold cnt. lia. Qed.

Lemma files_on_zero l id : (∀ i f, l !! i = Some f → on_id id f = true → False) → files_on l id = 0.
Proof.
  induction l as [|x l IH]; intros Hl; [done|]. rewrite files_on_cons, IH; [|intros i f; apply (Hl (S i))].
  destruct (on_id id x) eqn:E; [|done]. by destruct (Hl 0%nat x eq_refl E).
Qed.

Lemma cnt_zero l id : id ∉ l → cnt l id = 0.
Proof.
  induction l as [|x l IH]; intros Hl; [done|]. rewrite cnt_cons, IH by set_solver.
  destruct (Nat.eqb_spec id x) as [->|]; [set_solver|done].
Qed.

Lemma cnt_pos l id : id ∈ l → 1 ≤ cnt l id.
Proof.
  induction l as [|x l IH]; intros Hl; [by apply not_elem_of_nil in Hl|]. rewrite cnt_cons.
  destruct (Nat.eqb_spec id x) as [->|Hne]; [pose proof (cnt_nonneg l x); simpl; lia|].
  apply elem_of_cons in Hl as [?|Hl]; [done|]. simpl. by apply IH.
Qed.

(** ** The invariant *)

Definition file_ok (h : gmap nat obj) (f : ofile) : Prop :=
  if f_used f then ∃ id m, f_mount f = Some id ∧ h !! id = Some m ∧ FO (ops m) (fs_data m) (f_file f)
  else f = free_file pzero.

(** [pend]: the references held by calls that are under way. *)
Record vinv s (pend : list nat) : Prop := {
  vi_list : NoDup (g_mounts s);
  vi_live id : id ∈ g_mounts s ↔ ∃ m, heap s !! id = Some m ∧ active m = true;
  vi_names id id' m m' : id ∈ g_mounts s → id' ∈ g_mounts s → heap s !! id = Some m → heap s !! id' = Some m' →
    mountpoint m = mountpoint m' → id = id';
  vi_refs id m : heap s !! id = Some m → files_on (pool s) id + cnt pend id ≤ open_refs m ≤ 0xFFFFFFFF;
  vi_exact id m : (∀ k, complete (table k)) → heap s !! id = Some m → files_on (pool s) id + cnt pend id = open_refs m;
  vi_gone id m : heap s !! id = Some m → active m = false → open_refs m ≠ 0;
  vi_fresh id m : heap s !! id = Some m → (id < allocs s)%nat;
  vi_pend id : id ∈ pend → is_Some (heap s !! id);
  vi_files i f : pool s !! i = Some f → file_ok (heap s) f;
  vi_pool : length (pool s) = VFS_OPEN_FILE_POOL_SIZE;
  vi_data id m : heap s !! id = Some m → DO (ops m) (fs_data m);
  vi_owner id id' m m' d : heap s !! id = Some m → heap s !! id' = Some m' → owned (ops m) = true → owned (ops m') = true →
    fs_data m = Some d → fs_data m' = Some d → id = id';
  vi_unreleased id m d : heap s !! id = Some m → owned (ops m) = true → fs_data m = Some d → d ∉ released s;
  vi_once : NoDup (released s);
  vi_world : WI (world s)
}.

(** Two versions of a mount object with the same file system. *)
Definition same m m' : Prop := mountpoint m' = mountpoint m ∧ ops m' = ops m ∧ fs_data m' = fs_data m.

(** ** Changes of one object *)

(** What one object that changes or goes away leaves to be shown. *)
Record change_ok s (pend : list nat) (id : nat) m (o : option obj) s' (pend' : list nat) : Prop := {
  ch_heap : heap s' = partial_alter (λ _, o) id (heap s);
  ch_same m' : o = Some m' → same m m';
  ch_list : NoDup (g_mounts s');
  ch_other x : x ≠ id → (x ∈ g_mounts s' ↔ x ∈ g_mounts s);
  ch_this : id ∈ g_mounts s' ↔ ∃ m', o = Some m' ∧ active m' = true;
  ch_keep : id ∈ g_mounts s' → id ∈ g_mounts s;
  ch_count x : x ≠ id → files_on (pool s') x + cnt pend' x = files_on (pool s) x + cnt pend x;
  ch_refs m' : o = Some m' → files_on (pool s') id + cnt pend' id ≤ open_refs m' ≤ 0xFFFFFFFF;
  ch_exact m' : o = Some m' → files_on (pool s) id + cnt pend id = open_refs m → files_on (pool s') id + cnt pend' id = open_refs m';
  ch_gone m' : o = Some m' → active m' = false → open_refs m' ≠ 0;
  ch_zero : o = None → files_on (pool s') id = 0 ∧ id ∉ pend';
  ch_pend x : x ∈ pend' → is_Some (heap s !! x);
  ch_files i f : pool s' !! i = Some f → file_ok (heap s) f;
  ch_pool : length (pool s') = length (pool s);
  ch_allocs : allocs s' = allocs s;
  ch_released : released s' = released s ∨
    ∃ d, released s' = d :: released s ∧ o = None ∧ owned (ops m) = true ∧ fs_data m = Some d;
  ch_world : WI (world s')
}.

Lemma vinv_change s pend id m o s' pend' :
  vinv s pend → heap s !! id = Some m → change_ok s pend id m o s' pend' → vinv s' pend'.
Proof.
  intros I Hm C.
  assert (∀ x m', heap s' !! x = Some m' → (x = id ∧ o = Some m') ∨ (x ≠ id ∧ heap s !! x = Some m')) as Hl.
  { intros x m'. rewrite (ch_heap _ _ _ _ _ _ _ C). destruct (decide (x = id)) as [->|Hne].
    - rewrite lookup_partial_alter_eq. by left.
    - rewrite lookup_partial_alter_ne by done. by right. }
  assert (∀ x m', heap s' !! x = Some m' → ∃ m0, heap s !! x = Some m0 ∧ same m0 m') as Hsame.
  { intros x m' Hx. destruct (Hl x m' Hx) as [[-> E]|[_ E]]; [exists m; split; [done|by eapply ch_same]|by exists m']. }
  assert (∀ x m0, heap s !! x = Some m0 → (x = id → o ≠ None) → ∃ m', heap s' !! x = Some m' ∧ same m0 m') as Hkeep.
  { intros x m0 Hx Ho. rewrite (ch_heap _ _ _ _ _ _ _ C). destruct (decide (x = id)) as [->|Hne].
    - rewrite lookup_partial_alter_eq. destruct o as [m'|]; [|by destruct (Ho eq_refl)]. assert (m0 = m) as -> by congruence.
      exists m'. split; [done|by eapply ch_same].
    - rewrite lookup_partial_alter_ne by done. by exists m0. }
  split.
  - apply C.
  - intros x. destruct (decide (x = id)) as [->|Hne].
    + rewrite (ch_this _ _ _ _ _ _ _ C), (ch_heap _ _ _ _ _ _ _ C), lookup_partial_alter_eq. done.
    + rewrite (ch_other _ _ _ _ _ _ _ C x Hne), (ch_heap _ _ _ _ _ _ _ C), lookup_partial_alter_ne by done. apply (vi_live _ _ I).
  - assert (∀ x, x ∈ g_mounts s' → x ∈ g_mounts s) as Hin.
    { intros x Hx. destruct (decide (x = id)) as [->|Hne]; [by apply (ch_keep _ _ _ _ _ _ _ C)|by apply (ch_other _ _ _ _ _ _ _ C x Hne)]. }
    intros x y m1 m2 Hx Hy H1 H2 E. destruct (Hsame x m1 H1) as (n1 & E1 & S1 & _). destruct (Hsame y m2 H2) as (n2 & E2 & S2 & _).
    apply (vi_names _ _ I x y n1 n2); [by apply Hin..|done|done|congruence].
  - intros x m' Hx. destruct (Hl x m' Hx) as [[-> E]|[Hne E]]; [by apply (ch_refs _ _ _ _ _ _ _ C)|].
    rewrite (ch_count _ _ _ _ _ _ _ C x Hne). by apply (vi_refs _ _ I).
  - intros x m' Hc Hx. destruct (Hl x m' Hx) as [[-> E]|[Hne E]].
    + apply (ch_exact _ _ _ _ _ _ _ C m' E). by apply (vi_exact _ _ I).
    + rewrite (ch_count _ _ _ _ _ _ _ C x Hne). by apply (vi_exact _ _ I).
  - intros x m' Hx. destruct (Hl x m' Hx) as [[-> E]|[Hne E]]; [by apply (ch_gone _ _ _ _ _ _ _ C)|by apply (vi_gone _ _ I x)].
  - intros x m' Hx. rewrite (ch_allocs _ _ _ _ _ _ _ C). destruct (Hsame x m' Hx) as (m0 & E & _). by eapply (vi_fresh _ _ I).
  - intros x Hx. destruct (ch_pend _ _ _ _ _ _ _ C x Hx) as [m0 Hm0]. destruct (Hkeep x m0 Hm0) as (m' & ? & _); [|by exists m'].
    intros -> Ho. by apply (ch_zero _ _ _ _ _ _ _ C Ho).
  - intros i f Hf. pose proof (ch_files _ _ _ _ _ _ _ C i f Hf) as Hok. unfold file_ok in *. destruct (f_used f) eqn:Hu; [|done].
    destruct Hok as (x & m0 & E & Hx & HF). destruct (Hkeep x m0 Hx) as (m' & Hm' & _ & Eo & Ed).
    + intros -> Ho. destruct (ch_zero _ _ _ _ _ _ _ C Ho) as [Hz _].
      pose proof (files_on_pos (pool s') id i f Hf) as Hp. unfold on_id in Hp. rewrite Hu, E, bool_decide_eq_true_2 in Hp by done.
      specialize (Hp eq_refl). lia.
    + exists x, m'. by rewrite Eo, Ed.
  - rewrite (ch_pool _ _ _ _ _ _ _ C). apply I.
  - intros x m' Hx. destruct (Hsame x m' Hx) as (m0 & E & _ & -> & ->). by eapply (vi_data _ _ I).
  - intros x y m1 m2 d H1 H2. destruct (Hsame x m1 H1) as (n1 & E1 & _ & -> & ->). destruct (Hsame y m2 H2) as (n2 & E2 & _ & -> & ->).
    by eapply (vi_owner _ _ I).
  - intros x m' d Hx Ho Hd. destruct (Hsame x m' Hx) as (m0 & E & _ & Eo & Ed). rewrite Eo in Ho. rewrite Ed in Hd.
    pose proof (vi_unreleased _ _ I x m0 d E Ho Hd) as Hn.
    destruct (ch_released _ _ _ _ _ _ _ C) as [->|(d' & -> & -> & Ho' & Hd')]; [done|].
    intros [->|?]%elem_of_cons; [|done]. destruct (Hl x m' Hx) as [[_ ?]|[Hne _]]; [done|].
    apply Hne. by eapply (vi_owner _ _ I).
  - destruct (ch_released _ _ _ _ _ _ _ C) as [->|(d' & -> & _ & Ho' & Hd')]; [apply I|].
    constructor; [|apply I]. by eapply (vi_unreleased _ _ I).
  - apply C.
Qed.

(** A new object. *)
Lemma vinv_add s pend mp o d :
  vinv s pend → (∀ id m, id ∈ g_mounts s → heap s !! id = Some m → mountpoint m ≠ mp) → DO o d →
  (owned o = true → ∀ x, d = Some x → x ∉ released s ∧ ∀ id m, heap s !! id = Some m → owned (ops m) = true → fs_data m ≠ Some x) →
  vinv (Vfs (<[allocs s := Mount mp o d 0 true]> (heap s)) (S (allocs s)) (allocs s :: g_mounts s) (pool s) (released s)
    (g_nvme_recovering s) (g_storage_bd s) (world s)) pend.
Proof.
  intros I Hmp HD Hd. assert (heap s !! allocs s = None) as Hn.
  { destruct (heap s !! allocs s) as [m|] eqn:E; [|done]. pose proof (vi_fresh _ _ I _ _ E). lia. }
  assert (files_on (pool s) (allocs s) = 0) as Hf.
  { apply files_on_zero. intros i f Hi Hon. pose proof (vi_files _ _ I i f Hi) as Hok. unfold file_ok, on_id in *.
    destruct (f_used f); [|done]. simpl in Hon. apply bool_decide_eq_true in Hon. destruct Hok as (x & m & E & Hx & _). congruence. }
  assert (cnt pend (allocs s) = 0) as Hc.
  { apply cnt_zero. intros Hin. destruct (vi_pend _ _ I _ Hin) as [m Hm]. congruence. }
  assert (allocs s ∉ g_mounts s) as Hni by (intros (m & Hm & _)%(vi_live _ _ I); congruence).
  assert (∀ x m, <[allocs s := Mount mp o d 0 true]> (heap s) !! x = Some m →
    (x = allocs s ∧ m = Mount mp o d 0 true) ∨ (x ≠ allocs s ∧ heap s !! x = Some m)) as Hl.
  { intros x m [[<- <-]|[? ?]]%lookup_insert_Some; [by left|right; by split]. }
  split; cbn [heap allocs g_mounts pool released world].
  - constructor; [done|apply I].
  - intros x. rewrite elem_of_cons, (vi_live _ _ I). split.
    + intros [->|(m & Hm & Ha)]; [exists (Mount mp o d 0 true); by rewrite lookup_insert_eq|]. exists m.
      rewrite lookup_insert_ne by congruence. done.
    + intros (m & [[-> _]|[_ Hm]]%Hl & Ha); [by left|right; by exists m].
  - intros x y m1 m2 Hx Hy [[-> ->]|[Hxn H1]]%Hl [[-> ->]|[Hyn H2]]%Hl E; simpl in *.
    + done.
    + apply elem_of_cons in Hy as [?|Hy]; [done|]. by destruct (Hmp y m2 Hy H2).
    + apply elem_of_cons in Hx as [?|Hx]; [done|]. by destruct (Hmp x m1 Hx H1).
    + apply elem_of_cons in Hx as [?|Hx]; [done|]. apply elem_of_cons in Hy as [?|Hy]; [done|]. by eapply (vi_names _ _ I).
  - intros x m [[-> ->]|[_ Hx]]%Hl; [simpl; lia|by apply (vi_refs _ _ I)].
  - intros x m Hcm [[-> ->]|[_ Hx]]%Hl; [simpl; lia|by apply (vi_exact _ _ I)].
  - intros x m [[-> ->]|[_ Hx]]%Hl; [done|by eapply (vi_gone _ _ I)].
  - intros x m [[-> ->]|[_ Hx]]%Hl; [lia|]. pose proof (vi_fresh _ _ I _ _ Hx). lia.
  - intros x Hx. destruct (vi_pend _ _ I x Hx) as [m Hm]. exists m. rewrite lookup_insert_ne by congruence. done.
  - intros i f Hi. pose proof (vi_files _ _ I i f Hi) as Hok. unfold file_ok in *. destruct (f_used f); [|done].
    destruct Hok as (x & m & E & Hx & HF). exists x, m. rewrite lookup_insert_ne by congruence. done.
  - apply I.
  - intros x m [[-> ->]|[_ Hx]]%Hl; [done|by eapply (vi_data _ _ I)].
  - intros x y m1 m2 d' [[-> ->]|[Hxn H1]]%Hl [[-> ->]|[Hyn H2]]%Hl O1 O2 D1 D2; simpl in *.
    + done.
    + by destruct (proj2 (Hd O1 d' D1) y m2 H2 O2).
    + by destruct (proj2 (Hd O2 d' D2) x m1 H1 O1).
    + by eapply (vi_owner _ _ I).
  - intros x m d' [[-> ->]|[_ Hx]]%Hl O1 D1; [by apply Hd|by eapply (vi_unreleased _ _ I)].
  - apply I.
  - apply I.
Qed.

(** ** The list *)

Lemma find_at_total s pend mp : vinv s pend → ∃ r, find_at (heap s) mp (g_mounts s) = Some r ∧
  match r with
  | None => ∀ id m, id ∈ g_mounts s → heap s !! id = Some m → mountpoint m ≠ mp
  | Some (id, rest) => ∃ l1 l2 m, g_mounts s = l1 ++ id :: l2 ∧ rest = l1 ++ l2 ∧ heap s !! id = Some m ∧ mountpoint m = mp
  end.
Proof.
  intros I. assert (∀ id, id ∈ g_mounts s → is_Some (heap s !! id)) as Hl.
  { intros id Hid. apply (vi_live _ _ I) in Hid as (m & Hm & _). by exists m. }
  clear I. induction (g_mounts s) as [|x l IH]; [exists None; split; [done|]; set_solver|].
  destruct (Hl x ltac:(set_solver)) as [m Hm]. cbn [find_at]. rewrite Hm. cbn [mbind option_bind].
  case_bool_decide as E.
  - exists (Some (x, l)). split; [done|]. by exists [], l, m.
  - destruct IH as (r & -> & Hr); [intros id Hid; apply Hl; set_solver|]. simpl. destruct r as [[y rest]|]; eexists; (split; [done|]).
    + destruct Hr as (l1 & l2 & m' & -> & -> & Hm' & Emp). by exists (x :: l1), l2, m'.
    + intros id m' [->|Hid]%elem_of_cons Hm'; [congruence|by eapply Hr].
Qed.

Lemma best_mount_total s pend path : vinv s pend →
  ∃ r, best_mount (heap s) path (g_mounts s) None 0 = Some r ∧ (∀ id, r.1 = Some id → id ∈ g_mounts s).
Proof.
  intros I. assert (∀ id, id ∈ g_mounts s → is_Some (heap s !! id)) as Hl.
  { intros id Hid. apply (vi_live _ _ I) in Hid as (m & Hm & _). by exists m. }
  clear I. assert (∀ l b n, (∀ id, id ∈ l → is_Some (heap s !! id)) →
    ∃ r, best_mount (heap s) path l b n = Some r ∧ (∀ id, r.1 = Some id → b = Some id ∨ id ∈ l)) as Hgen.
  { clear Hl. intros l. induction l as [|x l IH]; intros b n Hl; [exists (b, n); split; [done|by left]|].
    destruct (Hl x ltac:(set_solver)) as [m Hm]. cbn [best_mount]. rewrite Hm. cbn [mbind option_bind].
    assert (∀ id, id ∈ l → is_Some (heap s !! id)) as Hl' by (intros id Hid; apply Hl; set_solver).
    destruct (match_len (mountpoint m) path) as [i|]; [case_bool_decide|].
    - destruct (IH (Some x) i Hl') as (r & -> & Hr). exists r. split; [done|]. intros id Hid.
      destruct (Hr id Hid) as [[= ->]|?]; set_solver.
    - destruct (IH b n Hl') as (r & -> & Hr). exists r. split; [done|]. intros id Hid. destruct (Hr id Hid); set_solver.
    - destruct (IH b n Hl') as (r & -> & Hr). exists r. split; [done|]. intros id Hid. destruct (Hr id Hid); set_solver. }
  destruct (Hgen (g_mounts s) None 0%nat Hl) as (r & E & Hr). exists r. split; [done|]. intros id Hid. by destruct (Hr id Hid).
Qed.
End inv.

(** * Virtual file system: the operations keep the invariant

    What each call promises, for tables of operations that keep their own
    conditions: it returns, and the invariant of the references holds
    again. *)

(** The promises of the tables of operations to the virtual file system. *)
Class Lawful {W FD P} (table : nat → fs_ops (W := W) (FD := FD) (P := P)) (pzero : P)
    (WI : W → Prop) (DO : nat → option FD → Prop) (FO : nat → option FD → P * Z → Prop) : Prop := {
  lw_open k op d path w : op_open (table k) = Some op → WI w → DO k d → c_str path →
    wp (op d path) (λ r w', WI w' ∧ ∀ f, r = Some f → FO k d f) w;
  lw_read k op d f len w : op_read (table k) = Some op → WI w → DO k d → FO k d f → 0 ≤ len < 2 ^ 32 →
    wp (op f len) (λ r w', WI w' ∧ FO k d r.2) w;
  lw_write k op d f buf w : op_write (table k) = Some op → WI w → DO k d → FO k d f →
    bytes buf → Z.of_nat (length buf) < 2 ^ 32 → wp (op f buf) (λ r w', WI w' ∧ FO k d r.2) w;
  lw_close k op d f w : op_close (table k) = Some op → WI w → DO k d → FO k d f →
    wp (op f) (λ r w', WI w' ∧ FO k d r.2) w;
  lw_readdir k op C d path cb (ctx : C) w : op_readdir (table k) = Some op → WI w → DO k d → c_str path →
    wp (op C d path cb ctx) (λ _ w', WI w') w;
  lw_stat k op d path w : op_stat (table k) = Some op → WI w → DO k d → c_str path →
    wp (op d path) (λ _ w', WI w') w;
  lw_create k op d path type w : op_create (table k) = Some op → WI w → DO k d → c_str path → 0 ≤ type < 2 ^ 16 →
    wp (op d path type) (λ _ w', WI w') w;
  lw_mkdir k op d path w : op_mkdir (table k) = Some op → WI w → DO k d → c_str path →
    wp (op d path) (λ _ w', WI w') w;
  lw_unlink k op d path w : op_unlink (table k) = Some op → WI w → DO k d → c_str path →
    wp (op d path) (λ _ w', WI w') w;
  lw_seek k op d f off wh w : op_seek (table k) = Some op → WI w → DO k d → FO k d f → - 2 ^ 63 ≤ off < 2 ^ 63 →
    wp (op f off wh) (λ r w', WI w' ∧ FO k d r.2) w;
  lw_truncate k op d f n w : op_truncate (table k) = Some op → WI w → DO k d → FO k d f → 0 ≤ n < 2 ^ 64 →
    wp (op f n) (λ r w', WI w' ∧ FO k d r.2) w;
  lw_rename k op d old new w : op_rename (table k) = Some op → WI w → DO k d → c_str old → c_str new →
    wp (op d old new) (λ _ w', WI w') w
}.

Section ops.
Context {W FD P : Type}.
Context (table : nat → fs_ops (W := W) (FD := FD) (P := P)) (owned : nat → bool) (pzero : P).
Context (WI : W → Prop) (DO : nat → option FD → Prop) (FO : nat → option FD → P * Z → Prop).

Abbreviation vfs := (vfs (W := W) (FD := FD) (P := P)).
Abbreviation obj := (vfs_mount_obj (FD := FD)).
Abbreviation vinv := (vinv table owned pzero WI DO FO).
Abbreviation change_ok := (change_ok owned pzero WI FO).
Implicit Types s : vfs.
Implicit Types m : obj.

(** ** The references of a mount *)

Definition freed m s : list FD :=
  match fs_data m with Some d => if owned (ops m) then d :: released s else released s | None => released s end.
Definition dispose_state (id : nat) m s : vfs :=
  Vfs (delete id (heap s)) (allocs s) (g_mounts s) (pool s) (freed m s) (g_nvme_recovering s) (g_storage_bd s) (world s).
Definition put_state (id : nat) m s : vfs :=
  let n := if 0 <? open_refs m then open_refs m - 1 else open_refs m in
  if negb (active m) && (n =? 0) then dispose_state id m s else on_heap (<[id := with_refs n m]>) s.
Definition umount_state (id : nat) m (rest : list nat) s : vfs :=
  if open_refs m =? 0 then dispose_state id m (set_mounts rest s)
  else on_heap (<[id := with_active false m]>) (set_mounts rest s).

Lemma dispose_eq id m s : heap s !! id = Some m → active m = false → open_refs m = 0 →
  vfs_mount_try_dispose owned id s = Some (tt, dispose_state id m s).
Proof.
  intros Hm Ha Hr. unfold vfs_mount_try_dispose. apply wp_exact. apply wp_bind. eapply wp_lift_opt; [exact Hm|].
  rewrite Ha, Hr. simpl. apply wp_bind. unfold vfs_free_fs_data, put_obj. apply wp_bind. eapply wp_lift_opt; [exact Hm|].
  unfold dispose_state, freed. destruct (fs_data m) as [d|]; [destruct (owned (ops m))|]; wp_steps; split; try done.
  unfold on_heap, release. simpl. by rewrite delete_insert_eq.
Qed.

Lemma put_eq id m s : heap s !! id = Some m → vfs_mount_put owned (Some id) s = Some (tt, put_state id m s).
Proof.
  intros Hm. unfold vfs_mount_put, put_state, put_obj. apply wp_exact. apply wp_bind. eapply wp_lift_opt; [exact Hm|].
  set (n := if 0 <? open_refs m then _ else _). wp_steps. destruct (negb (active m) && (n =? 0)) eqn:E; [|wp_steps; done].
  apply andb_true_iff in E as [Ea En]. apply negb_true_iff in Ea. apply Z.eqb_eq in En.
  eapply wp_known; [apply (dispose_eq id (with_refs n m)); [simpl; apply lookup_insert_eq|done|done]|].
  split; [done|]. unfold dispose_state, freed. simpl. by rewrite delete_insert_eq.
Qed.

Lemma put_none s : vfs_mount_put owned None s = Some (tt, s).
Proof. done. Qed.

(** A reference is dropped, by a call ([pend]) or with a file (the pool). *)
Lemma vinv_put s pend pend' pool' id m :
  vinv s pend → heap s !! id = Some m →
  (∀ x, x ≠ id → files_on pool' x + cnt pend' x = files_on (pool s) x + cnt pend x) →
  files_on pool' id + cnt pend' id = files_on (pool s) id + cnt pend id - 1 →
  (∀ x, x ∈ pend' → x ∈ pend) → (∀ i f, pool' !! i = Some f → file_ok pzero FO (heap s) f) → length pool' = length (pool s) →
  vinv (on_pool (λ _, pool') (put_state id m s)) pend'.
Proof.
  intros I Hm Hx Hid Hsub Hfiles Hlen. pose proof (vi_refs _ _ _ _ _ _ _ _ I id m Hm) as Hr.
  pose proof (files_on_nonneg pool' id) as Hn1. pose proof (cnt_nonneg pend' id) as Hn2.
  unfold put_state. rewrite (proj2 (Z.ltb_lt 0 (open_refs m))) by lia. cbv zeta.
  assert (∀ x, x ∈ pend' → is_Some (heap s !! x)) as Hp by (intros x ?; by eapply (vi_pend _ _ _ _ _ _ _ _ I), Hsub).
  pose proof (vi_live _ _ _ _ _ _ _ _ I id) as Hlive.
  destruct (negb (active m) && (open_refs m - 1 =? 0)) eqn:E.
  - apply andb_true_iff in E as [Ea En]. apply negb_true_iff in Ea. apply Z.eqb_eq in En.
    assert (id ∉ g_mounts s) as Hni by (rewrite Hlive; intros (m' & E & Ha); congruence).
    apply (vinv_change _ _ _ _ _ _ s pend id m None); [done|done|]. split; cbn [heap g_mounts pool allocs released world on_pool dispose_state]; try done.
    + apply I.
    + split; [done|]. by intros (m' & ? & _).
    + intros _. split; [lia|]. intros Hin. pose proof (cnt_pos pend' id Hin). lia.
    + unfold freed. destruct (fs_data m) as [d|] eqn:Ed; [|by left]. destruct (owned (ops m)) eqn:Eo; [|by left].
      right. by exists d.
    + apply I.
  - apply (vinv_change _ _ _ _ _ _ s pend id m (Some (with_refs (open_refs m - 1) m))); [done|done|].
    split; cbn [heap g_mounts pool allocs released world on_pool on_heap]; try done.
    + by intros m' [= <-].
    + apply I.
    + rewrite Hlive. split; intros (m' & E' & Ha); [|injection E' as <-; by exists m].
      exists (with_refs (open_refs m - 1) m). split; [done|]. simpl. congruence.
    + intros m' [= <-]. simpl. lia.
    + intros m' [= <-] He. simpl. lia.
    + intros m' [= <-] Ha He. simpl in *. rewrite Ha, He in E. done.
    + by left.
    + apply I.
Qed.

(** A reference is taken. *)
Lemma vinv_get s pend id m :
  vinv s pend → heap s !! id = Some m → open_refs m ≠ 0xFFFFFFFF →
  vinv (on_heap (<[id := with_refs (open_refs m + 1) m]>) s) (id :: pend).
Proof.
  intros I Hm Hmax. pose proof (vi_refs _ _ _ _ _ _ _ _ I id m Hm) as Hr.
  pose proof (files_on_nonneg (pool s) id) as Hn1. pose proof (cnt_nonneg pend id) as Hn2.
  apply (vinv_change _ _ _ _ _ _ s pend id m (Some (with_refs (open_refs m + 1) m))); [done|done|].
  split; cbn [heap g_mounts pool allocs released world on_heap]; try done.
  - by intros m' [= <-].
  - apply I.
  - rewrite (vi_live _ _ _ _ _ _ _ _ I). split; intros (m' & E' & Ha); [|injection E' as <-; by exists m].
    exists (with_refs (open_refs m + 1) m). split; [done|]. simpl. congruence.
  - intros x Hx. rewrite cnt_cons. apply Nat.eqb_neq in Hx. rewrite Hx. simpl. lia.
  - intros m' [= <-]. rewrite cnt_cons, Nat.eqb_refl. simpl. lia.
  - intros m' [= <-] He. rewrite cnt_cons, Nat.eqb_refl. simpl. lia.
  - intros m' [= <-] Ha. simpl. lia.
  - intros x [->|Hx]%elem_of_cons; [by exists m|by eapply (vi_pend _ _ _ _ _ _ _ _ I)].
  - apply I.
  - by left.
  - apply I.
Qed.

(** A file changes hands: from a call to the pool, or its private part. *)
Lemma vinv_files s pend pend' pool' id m :
  vinv s pend → heap s !! id = Some m →
  (∀ x, files_on pool' x + cnt pend' x = files_on (pool s) x + cnt pend x) →
  (∀ x, x ∈ pend' → x ∈ pend) → (∀ i f, pool' !! i = Some f → file_ok pzero FO (heap s) f) → length pool' = length (pool s) →
  vinv (on_pool (λ _, pool') s) pend'.
Proof.
  intros I Hm Hx Hsub Hfiles Hlen.
  apply (vinv_change _ _ _ _ _ _ s pend id m (Some m)); [done|done|].
  split; cbn [heap g_mounts pool allocs released world on_pool]; try done.
  - apply map_eq. intros x. destruct (decide (x = id)) as [->|Hne];
      [by rewrite lookup_partial_alter_eq|by rewrite lookup_partial_alter_ne].
  - by intros m' [= <-].
  - apply I.
  - rewrite (vi_live _ _ _ _ _ _ _ _ I). split; intros (m' & E' & Ha); exists m; split; congruence.
  - intros m' [= <-]. rewrite Hx. by eapply (vi_refs _ _ _ _ _ _ _ _ I).
  - intros m' [= <-] He. rewrite Hx. done.
  - intros m' [= <-] Ha. by eapply (vi_gone _ _ _ _ _ _ _ _ I).
  - intros x Hxp. by eapply (vi_pend _ _ _ _ _ _ _ _ I), Hsub.
  - by left.
  - apply I.
Qed.

Lemma vinv_world s pend w : vinv s pend → WI w → vinv (set_world w s) pend.
Proof. intros [] Hw. by split. Qed.
Lemma vinv_recovering s pend b : vinv s pend → vinv (set_recovering b s) pend.
Proof. by intros []. Qed.
Lemma vinv_alloc s pend : vinv s pend → vinv (count_alloc s) pend.
Proof. intros [I1 I2 I3 I4 I5 I6 I7 I8 I9]. split; try done. simpl. intros id m Hm. pose proof (I7 id m Hm). lia. Qed.

(** A call that returns with its reference leaves a count that is too high;
    the code does so where a table lacks an operation. *)
Lemma vinv_leak s pend id : vinv s (id :: pend) → ((∀ k, complete (table k)) → False) → vinv s pend.
Proof.
  intros [I1 I2 I3 I4 I5 I6 I7 I8 I9] Hc. split; try done.
  - intros x m Hx. pose proof (I4 x m Hx) as Hr. rewrite cnt_cons in Hr. destruct (x =? id)%nat; simpl in Hr; lia.
  - intros x Hx. apply I8. set_solver.
Qed.

(** ** Mounting and unmounting *)

(** No mount has the mount point. *)
Definition unmounted (mp : list Z) s : Prop := ∀ id m, id ∈ g_mounts s → heap s !! id = Some m → mountpoint m ≠ mp.

Lemma vinv_umount s pend id m l1 l2 :
  vinv s pend → g_mounts s = l1 ++ id :: l2 → heap s !! id = Some m → vinv (umount_state id m (l1 ++ l2) s) pend.
Proof.
  intros I Hl Hm. pose proof (vi_refs _ _ _ _ _ _ _ _ I id m Hm) as Hr. pose proof (vi_list _ _ _ _ _ _ _ _ I) as Hnd.
  pose proof (files_on_nonneg (pool s) id) as Hn1. pose proof (cnt_nonneg pend id) as Hn2. rewrite Hl in Hnd.
  assert (NoDup (l1 ++ l2) ∧ id ∉ l1 ++ l2) as [Hnd' Hni].
  { apply NoDup_app in Hnd as (? & Hd & [? ?]%NoDup_cons). split.
    - apply NoDup_app. split; [done|]. split; [|done]. intros x Hx. specialize (Hd x Hx). set_solver.
    - intros [Hx|?]%elem_of_app; [|done]. specialize (Hd id Hx). set_solver. }
  assert (∀ x, x ≠ id → x ∈ l1 ++ l2 ↔ x ∈ g_mounts s) as Hother by (intros x Hx; rewrite Hl; set_solver).
  unfold umount_state. destruct (Z.eqb_spec (open_refs m) 0) as [E|E].
  - apply (vinv_change _ _ _ _ _ _ s pend id m None); [done|done|].
    split; cbn [heap g_mounts pool allocs released world set_mounts dispose_state]; try done.
    + split; [done|]. by intros (m' & ? & _).
    + intros _. split; [lia|]. intros Hin. pose proof (cnt_pos pend id Hin). lia.
    + by apply (vi_pend _ _ _ _ _ _ _ _ I).
    + by apply (vi_files _ _ _ _ _ _ _ _ I).
    + unfold freed. simpl. destruct (fs_data m) as [d|] eqn:Ed; [|by left]. destruct (owned (ops m)) eqn:Eo; [|by left].
      right. by exists d.
    + apply I.
  - apply (vinv_change _ _ _ _ _ _ s pend id m (Some (with_active false m))); [done|done|].
    split; cbn [heap g_mounts pool allocs released world set_mounts on_heap]; try done.
    + by intros m' [= <-].
    + split; [done|]. by intros (m' & [= <-] & ?).
    + by intros m' [= <-].
    + intros m' [= <-] He. done.
    + by intros m' [= <-] _.
    + by apply (vi_pend _ _ _ _ _ _ _ _ I).
    + by apply (vi_files _ _ _ _ _ _ _ _ I).
    + by left.
    + apply I.
Qed.
End ops.
