(* ===== verification/VfsFat.v ===== *)
(** * Virtual file system: FAT32

    The adapters of [src/src/kernel/fs/vfs.c] that fill a table of operations
    with the functions of the FAT32 file system.  The data of a mount is the
    address of its [struct fat32_fs] with its contents, which mounting fixes;
    the private part of an open file is the file system and the
    [struct fat32_file]; cleared memory is [None], and using it is
    undefined. *)

From S2P Require Import Prelude Loops Codec Ring Part Fat32 FatVol FatName FatEntry FatTrunc FatTotal Vfs VfsInv.

Section fat.
Context {D : Type} `{BlockDevice D}.

Definition fat_data : Type := nat * fat32_fs.
Definition fat_private : Type := option (fat32_fs * fat32_file).
Abbreviation ffile := (file (P := fat_private)).
Abbreviation table_t := (fs_ops (W := D) (FD := fat_data) (P := fat_private)).

(** The result of a call, [None] being its error. *)
Definition result {A B} (m : ME D A) (k : option A → B) : M D B := λ d,
  match m d with Some (r, d') => Some (k r, d') | None => None end.

Definition undefined {B} : M D B := λ _, None.

Definition code (r : option unit) : Z := match r with Some _ => 0 | None => -1 end.

Definition fat32_open_vfs (d : option fat_data) (path : list Z) : M D (option ffile) :=
  match d with
  | None => mret None
  | Some (_, fs) => result (fat32_open fs path) (λ r, match r with Some g => Some (Some (fs, g), size g) | None => None end)
  end.

Definition fat32_read_vfs (f : ffile) (len : Z) : M D (Z * list Z * ffile) :=
  match f.1 with
  | None => undefined
  | Some (fs, g) => result (fat32_read fs g len) (λ r,
      match r with Some (data, g) => (Z.of_nat (length data), data, (Some (fs, g), f.2)) | None => (-1, [], f) end)
  end.

Definition fat32_write_vfs (f : ffile) (buf : list Z) : M D (Z * ffile) :=
  match f.1 with
  | None => undefined
  | Some (fs, g) => result (fat32_write fs g buf) (λ r,
      match r with Some (n, g) => (n, (Some (fs, g), f.2)) | None => (-1, f) end)
  end.

Definition fat32_close_vfs (f : ffile) : M D (Z * ffile) := mret (0, f).

(** The callback gets size and attribute in the other order. *)
Definition fat32_readdir_wrap_cb {C} (cb : list Z → Z → Z → C → bool * C) (name : list Z) (at_ n : Z) : C → bool * C :=
  cb name n at_.

Definition fat32_readdir_vfs (C : Type) (d : option fat_data) (path : list Z) (cb : list Z → Z → Z → C → bool * C) (ctx : C)
    : M D (Z * option C) :=
  match d with
  | None => mret (-1, None)
  | Some (_, fs) =>
      result (cl ← (if bool_decide (path = []) then mret (root_cluster fs)
                    else f ← fat32_open fs path; if Z.land (attr f) ATTR_DIR =? 0 then fail else mret (first_cluster f));
              fat32_readdir fs cl (fat32_readdir_wrap_cb cb) ctx)
        (λ r, (match r with Some _ => 0 | None => -1 end, r))
  end.

Definition fat32_stat_vfs (d : option fat_data) (path : list Z) : M D (Z * vfs_stat) :=
  if bool_decide (path = []) then mret (0, VfsStat 0 ATTR_DIR)
  else
    match d with
    | None => mret (-1, VfsStat 0 0)
    | Some (_, fs) => result (fat32_stat fs path) (λ r,
        match r with Some (n, at_) => (0, VfsStat n at_) | None => (-1, VfsStat 0 0) end)
    end.

Definition fat32_seek_vfs (f : ffile) (offset whence : Z) : M D (Z * ffile) :=
  match f.1 with
  | None => undefined
  | Some (fs, g) =>
      mret (match fat32_seek g offset whence with Some (r, g) => (r, (Some (fs, g), f.2)) | None => (-1, f) end)
  end.

Definition fat32_truncate_vfs (f : ffile) (len : Z) : M D (Z * ffile) :=
  if 0xFFFFFFFF <? len then mret (-1, f)
  else
    match f.1 with
    | None => undefined
    | Some (fs, g) => result (fat32_truncate fs g len) (λ r,
        match r with Some g => (0, (Some (fs, g), len)) | None => (-1, f) end)
    end.

Definition fat32_create_vfs (d : option fat_data) (path : list Z) (type : Z) : M D Z :=
  match d with
  | None => mret (-1)
  | Some (_, fs) => result (fat32_create fs path (if type =? 0 then ATTR_DIR else 0)) code
  end.
Definition fat32_mkdir_vfs (d : option fat_data) (path : list Z) : M D Z :=
  match d with None => mret (-1) | Some (_, fs) => result (fat32_mkdir fs path) code end.
Definition fat32_unlink_vfs (d : option fat_data) (path : list Z) : M D Z :=
  match d with None => mret (-1) | Some (_, fs) => result (fat32_unlink fs path) code end.
Definition fat32_rename_vfs (d : option fat_data) (old_path new_path : list Z) : M D Z :=
  match d with None => mret (-1) | Some (_, fs) => result (fat32_rename fs old_path new_path) code end.

(** [fat32_ops] and [sec_fat32_ops]. *)
Definition fat32_ops : table_t :=
  FsOps (Some fat32_open_vfs) (Some fat32_read_vfs) (Some fat32_write_vfs) (Some fat32_close_vfs) (Some fat32_readdir_vfs)
    (Some fat32_stat_vfs) (Some fat32_create_vfs) (Some fat32_mkdir_vfs) (Some fat32_unlink_vfs) (Some fat32_seek_vfs)
    (Some fat32_truncate_vfs) (Some fat32_rename_vfs).
End fat.

(** ** The promises to the virtual file system *)

Section laws.
Context {D : Type} `{BlockDeviceSafe D}.
Context (ss : Z).

(** Whatever the sectors hold, the device answers with whole sectors. *)
Definition fat_world (d : D) : Prop := bd_ok d ∧ bd_sector_size d = ss.
Definition fat_fs_ok (fs : fat32_fs) : Prop := ∃ d : D, bd_sector_size d = ss ∧ mounted d fs.
Definition fat_data_ok (k : nat) (d : option fat_data) : Prop := ∃ a fs, d = Some (a, fs) ∧ fat_fs_ok fs.
Definition fat_open_ok (k : nat) (d : option fat_data) (f : fat_private * Z) : Prop :=
  ∃ a fs g, d = Some (a, fs) ∧ f.1 = Some (fs, g) ∧ open_ok g.

Lemma wp_safe {A B} fs (m : ME D A) (k : option A → B) (Q : A → Prop) (R : B → D → Prop) d :
  safe fs m Q → fat_world d → fat_fs_ok fs → (∀ r d', fat_world d' → (∀ a, r = Some a → Q a) → R (k r) d') → wp (result m k) R d.
Proof.
  intros Hs [Hd Hss] (d0 & Hss0 & Hm) HR.
  assert (image_ok fs d) as Hi by (split; [done|destruct Hm; split; congruence]).
  pose proof (Hs d Hi) as Hw. unfold wpe, wp, result in *. destruct (m d) as [[r d']|]; [|done].
  assert (∀ x : D, image_ok fs x → fat_world x) as Hf.
  { intros x [Hx Hmx]. split; [done|]. rewrite <-(mo_size _ _ Hmx), (mo_size _ _ Hm). done. }
  destruct r as [a|]; [destruct Hw as [Hw HQ]|]; apply HR; try (by apply Hf); [|done]. by intros ? [= <-].
Qed.

(** The file of an operation, open on the file system of its mount. *)
Lemma open_file k d f : fat_data_ok k d → fat_open_ok k d f →
  ∃ a fs g, d = Some (a, fs) ∧ fat_fs_ok fs ∧ f.1 = Some (fs, g) ∧ open_ok g.
Proof.
  intros (a & fs & -> & Hfs) (a' & fs' & g & [= <- <-] & Ef & Hg). by exists a, fs, g.
Qed.

Lemma fat_open_new k a fs g n : open_ok g → fat_open_ok k (Some (a, fs)) (Some (fs, g), n).
Proof. intros Hg. by exists a, fs, g. Qed.

#[global] Instance fat32_lawful : Lawful (λ _, fat32_ops (D := D)) None fat_world fat_data_ok fat_open_ok.
Proof.
  split.
  - intros k op d path w [= <-] HW (a & fs & -> & Hfs) _.
    eapply wp_safe; [apply safe_open|done|done|]. intros r d' Hd' Hr. split; [done|].
    destruct r as [g|]; [|done]. intros f [= <-]. apply fat_open_new. by apply Hr.
  - intros k op d f len w [= <-] HW HD HF Hlen. destruct (open_file k d f HD HF) as (a & fs & g & -> & (d0 & Hs0 & Hm) & Ef & Hg).
    unfold fat32_read_vfs. rewrite Ef. eapply wp_safe; [apply safe_read_file; [done|apply Hlen]|done|by exists d0|].
    intros [[l g']|] d' Hd' Hr; (split; [done|]); [|done]. apply fat_open_new. exact (proj1 (Hr (l, g') eq_refl)).
  - intros k op d f buf w [= <-] HW HD HF Hb Hlen. destruct (open_file k d f HD HF) as (a & fs & g & -> & (d0 & Hs0 & Hm) & Ef & Hg).
    unfold fat32_write_vfs. rewrite Ef. eapply wp_safe; [by eapply safe_fat_write|done|by exists d0|].
    intros [[n g']|] d' Hd' Hr; (split; [done|]); [|done]. apply fat_open_new. exact (proj1 (Hr (n, g') eq_refl)).
  - intros k op d f w [= <-] HW HD HF. by apply wp_ret.
  - intros k op C d path cb ctx w [= <-] HW (a & fs & -> & d0 & Hs0 & Hm) _. unfold fat32_readdir_vfs.
    eapply (wp_safe _ _ _ (λ _, True)); [|done|by exists d0|done].
    apply safe_then; [|intros cl; by eapply safe_readdir]. case_bool_decide; [by apply safe_ret|].
    apply safe_then; [eapply safe_any, safe_open|]. intros f. destruct (_ =? 0); [apply safe_fail|by apply safe_ret].
  - intros k op d path w [= <-] HW (a & fs & -> & Hfs) _. unfold fat32_stat_vfs. case_bool_decide; [by apply wp_ret|].
    eapply (wp_safe _ _ _ (λ _, True)); [|done|done|by intros [[]|]].
    unfold fat32_stat. apply safe_then; [eapply safe_any, safe_open|]. intros f. by apply safe_ret.
  - intros k op d path type w [= <-] HW (a & fs & -> & d0 & Hs0 & Hm) Hp _. unfold fat32_create_vfs.
    eapply wp_safe; [|done|by exists d0|done]. eapply safe_create; [done|done|]. by destruct (type =? 0).
  - intros k op d path w [= <-] HW (a & fs & -> & d0 & Hs0 & Hm) Hp. unfold fat32_mkdir_vfs.
    eapply wp_safe; [|done|by exists d0|done]. by eapply safe_create.
  - intros k op d path w [= <-] HW (a & fs & -> & d0 & Hs0 & Hm) Hp. unfold fat32_unlink_vfs.
    eapply wp_safe; [|done|by exists d0|done]. by eapply safe_unlink.
  - intros k op d f off wh w [= <-] HW HD HF _. destruct (open_file k d f HD HF) as (a & fs & g & -> & Hfs & Ef & Hg).
    unfold fat32_seek_vfs. rewrite Ef. apply wp_ret. split; [done|]. destruct (fat32_seek g off wh) as [[r g']|] eqn:Es; [|done].
    apply fat_open_new. by eapply seek_ok.
  - intros k op d f n w [= <-] HW HD HF Hn. destruct (open_file k d f HD HF) as (a & fs & g & -> & (d0 & Hs0 & Hm) & Ef & Hg).
    unfold fat32_truncate_vfs. destruct (0xFFFFFFFF <? n); [by apply wp_ret|]. rewrite Ef.
    eapply wp_safe; [eapply safe_truncate; [done|done|apply Hn]|done|by exists d0|].
    intros [g'|] d' Hd' Hr; (split; [done|]); [|done]. apply fat_open_new. by apply Hr.
  - intros k op d old new w [= <-] HW (a & fs & -> & d0 & Hs0 & Hm) _ Hp. unfold fat32_rename_vfs.
    eapply wp_safe; [|done|by exists d0|done]. by eapply safe_rename.
Qed.
End laws.
