(* ===== verification/VfsCalls.v ===== *)
(** * Virtual file system: the calls

    Each call of the interface returns from every state in which the invariant
    of the references holds, whatever files are open and whichever of their
    mounts are gone already, and leaves a state in which it holds. *)

From S2P Require Import Prelude Ring Loops Codec Part Fat32 FatVol FatRead FatWrite FatEntry FatName FatCreate FatTrunc FatTotal FatMain Vfs VfsInv VfsFat.

Section calls.
Context {W FD P : Type}.
Context (table : nat → fs_ops (W := W) (FD := FD) (P := P)) (owned : nat → bool) (pzero : P).
Context (vfs_mount_secondary : list Z → M (vfs (W := W) (FD := FD) (P := P)) unit).
Context (WI : W → Prop) (DO : nat → option FD → Prop) (FO : nat → option FD → P * Z → Prop).
Context `{!Lawful table pzero WI DO FO}.

Abbreviation vfs := (vfs (W := W) (FD := FD) (P := P)).
Abbreviation obj := (vfs_mount_obj (FD := FD)).
Abbreviation vinv := (vinv table owned pzero WI DO FO).
Implicit Types s : vfs.
Implicit Types m : obj.

(** The scan for partitions keeps the invariant and opens no files. *)
Definition scan_ok : Prop := ∀ s pend, vinv s pend →
  wp (vfs_mount_secondary nvme) (λ _ s', vinv s' pend ∧ pool s' = pool s) s.

(** ** Mounting and unmounting *)

Lemma umount_eq mp s pend : vinv s pend →
  (vfs_umount owned mp s = Some (false, s) ∧ unmounted mp s) ∨
  ∃ id m l1 l2, g_mounts s = l1 ++ id :: l2 ∧ heap s !! id = Some m ∧ mountpoint m = mp ∧
    vfs_umount owned mp s = Some (true, umount_state owned id m (l1 ++ l2) s).
Proof.
  intros I. destruct (find_at_total _ _ _ _ _ _ s pend mp I) as (r & Hr & Hspec). destruct r as [[id rest]|]; [right|left].
  - destruct Hspec as (l1 & l2 & m & Hl & -> & Hm & Hmp). exists id, m, l1, l2. repeat (split; [done|]).
    unfold vfs_umount. apply wp_exact. apply wp_bind. eapply wp_lift_opt; [exact Hr|]. cbv beta iota. wp_steps.
    eapply wp_lift_opt; [exact Hm|]. unfold put_obj. wp_steps. unfold umount_state. destruct (Z.eqb_spec (open_refs m) 0) as [E|E].
    + eapply wp_known; [apply (dispose_eq owned id (with_active false m)); [simpl; apply lookup_insert_eq|done|done]|].
      wp_steps. split; [done|]. unfold dispose_state, freed. simpl. by rewrite delete_insert_eq.
    + wp_steps. done.
  - split; [|done]. unfold vfs_umount. apply wp_exact. apply wp_bind. eapply wp_lift_opt; [exact Hr|]. cbv beta iota. wp_steps. done.
Qed.

(** The data a mount brings is not in use. *)
Definition fresh (o : nat) (d : option FD) s : Prop :=
  owned o = true → ∀ x, d = Some x → (x ∉ released s) ∧ ∀ id m, heap s !! id = Some m → owned (ops m) = true → fs_data m ≠ Some x.

Lemma umount_state_other id m l s x m' : heap s !! id = Some m → x ≠ id →
  heap (umount_state owned id m l s) !! x = Some m' → heap s !! x = Some m'.
Proof.
  intros Hm Hne. unfold umount_state. destruct (_ =? _); simpl; [by rewrite lookup_delete_ne|by rewrite lookup_insert_ne].
Qed.

Lemma fresh_umount o d s id m l : fresh o d s → heap s !! id = Some m → fresh o d (umount_state owned id m l s).
Proof.
  intros Hf Hm Ho x ->. destruct (Hf Ho x eq_refl) as [Hr Hh]. split.
  - unfold umount_state. destruct (_ =? _); simpl; [|done]. unfold freed. simpl. pose proof (Hh id m Hm) as Hi.
    destruct (fs_data m) as [d|]; [|done]. destruct (owned (ops m)); [|done]. intros [->|?]%elem_of_cons; [|done]. by apply Hi.
  - intros y m' Hy. destruct (decide (y = id)) as [->|Hne]; [|by eapply Hh, umount_state_other].
    revert Hy. unfold umount_state. destruct (_ =? _); simpl; [by rewrite lookup_delete_eq|]. rewrite lookup_insert_eq.
    intros [= <-]. by apply (Hh id m).
Qed.

Lemma wp_umount mp s pend : vinv s pend →
  wp (vfs_umount owned mp) (λ b s', vinv s' pend ∧ pool s' = pool s ∧ allocs s' = allocs s ∧ unmounted mp s' ∧
    (b = false → s' = s) ∧ ∀ o d, fresh o d s → fresh o d s') s.
Proof.
  intros I. destruct (umount_eq mp s pend I) as [[E Hu]|(id & m & l1 & l2 & Hl & Hm & Hmp & E)]; (eapply wp_known; [exact E|]); [done|].
  assert (pool (umount_state owned id m (l1 ++ l2) s) = pool s ∧ allocs (umount_state owned id m (l1 ++ l2) s) = allocs s ∧
    g_mounts (umount_state owned id m (l1 ++ l2) s) = l1 ++ l2) as (Ep & Ea & Eg).
  { unfold umount_state. by destruct (_ =? _). }
  split_and!; [by apply vinv_umount|done|done| |done|].
  - intros x m' Hx Hx'. rewrite Eg in Hx. pose proof (vi_list _ _ _ _ _ _ _ _ I) as Hnd. rewrite Hl in Hnd.
    assert (x ≠ id) as Hne.
    { intros ->. apply NoDup_app in Hnd as (_ & Hd & [? _]%NoDup_cons). apply elem_of_app in Hx as [Hx|?]; [|done].
      specialize (Hd id Hx). set_solver. }
    apply umount_state_other in Hx'; [|done|done]. intros Emp. apply Hne.
    apply (vi_names _ _ _ _ _ _ _ _ I x id m' m); [rewrite Hl; set_solver|rewrite Hl; set_solver|done|done|congruence].
  - intros o d Hf. by apply fresh_umount.
Qed.

Lemma wp_exists mp s pend (Q : bool → vfs → Prop) : vinv s pend → (∀ b, (b = false ↔ unmounted mp s) → Q b s) →
  wp (mountpoint_exists_locked mp) Q s.
Proof.
  intros I HQ. destruct (find_at_total _ _ _ _ _ _ s pend mp I) as (r & Hr & Hspec).
  unfold mountpoint_exists_locked. apply wp_bind. eapply wp_lift_opt; [exact Hr|]. cbv beta iota. wp_steps. apply HQ.
  rewrite bool_decide_eq_false. destruct r as [[id rest]|].
  - split; [by intros []|]. intros Hu. destruct Hspec as (l1 & l2 & m & Hl & _ & Hm & Hmp). by destruct (Hu id m ltac:(rewrite Hl; set_solver) Hm).
  - split; [done|]. by intros _ ?.
Qed.

(** How often the loop of [vfs_mount] can still unmount. *)
Definition mounted_at (mp : list Z) s : Z :=
  match find_at (heap s) mp (g_mounts s) with Some (Some _) => 1 | _ => 0 end.

Lemma mounted_at_unmounted mp s pend : vinv s pend → unmounted mp s → mounted_at mp s = 0.
Proof.
  intros I Hu. destruct (find_at_total _ _ _ _ _ _ s pend mp I) as (r & Hr & Hspec). unfold mounted_at. rewrite Hr.
  destruct r as [[id rest]|]; [|done]. destruct Hspec as (l1 & l2 & m & Hl & _ & Hm & Hmp).
  by destruct (Hu id m ltac:(rewrite Hl; set_solver) Hm).
Qed.

Lemma mounted_at_bound mp s : 0 ≤ mounted_at mp s ≤ 1.
Proof. unfold mounted_at. by destruct (find_at _ _ _) as [[|]|]. Qed.

Lemma wp_umount_all mp o d s pend : vinv s pend → fresh o d s →
  wp (while (2 ^ 64) (λ _ : unit, b ← vfs_umount owned mp; mret (if b : bool then inl tt else inr tt)) tt)
    (λ _ s', vinv s' pend ∧ pool s' = pool s ∧ unmounted mp s' ∧ fresh o d s') s.
Proof.
  intros I Hf. apply (wp_while _ _ (λ _ s', vinv s' pend ∧ pool s' = pool s ∧ fresh o d s') (λ _, mounted_at mp)); [done| |].
  { pose proof (mounted_at_bound mp s). lia. }
  intros _ s1 (I1 & Hp1 & Hf1). apply wp_bind.
  destruct (umount_eq mp s1 pend I1) as [[E Hu]|(id & m & l1 & l2 & Hl & Hm & Hmp & E)].
  - eapply wp_known; [exact E|]. wp_steps. done.
  - assert (mounted_at mp s1 = 1) as E1.
    { destruct (find_at_total _ _ _ _ _ _ s1 pend mp I1) as (r & Hr & Hspec). unfold mounted_at. rewrite Hr.
      destruct r as [[x rest]|]; [done|]. by destruct (Hspec id m ltac:(rewrite Hl; set_solver) Hm). }
    pose proof (wp_umount mp s1 pend I1) as Hw. unfold wp in Hw. rewrite E in Hw. destruct Hw as (I2 & Hp2 & _ & Hu & _ & Hf2).
    eapply wp_known; [exact E|]. wp_steps. rewrite (mounted_at_unmounted mp _ pend I2 Hu), E1.
    split; [|lia]. split; [done|]. split; [by rewrite Hp2|by apply Hf2].
Qed.

Lemma wp_mount oom mp o d s pend : vinv s pend → fresh o d s → DO o d → (length mp < MOUNTPOINT_SIZE)%nat →
  wp (vfs_mount owned oom mp o d) (λ _ s', vinv s' pend ∧ pool s' = pool s) s.
Proof.
  intros I Hf HD Hlen. unfold vfs_mount.
  apply (wp_while _ _ (λ _ s', vinv s' pend ∧ pool s' = pool s ∧ fresh o d s') (λ _ _, 0)); [done|lia|].
  intros _ s0 (I0 & Hp0 & Hf0). apply wp_bind. eapply wp_mono; [by apply (wp_umount_all mp o d s0 pend)|].
  intros [] s1 (I1 & Hp1 & Hu1 & Hf1). wp_steps. pose proof (vinv_alloc _ _ _ _ _ _ s1 pend I1) as I2.
  destruct (oom (allocs s1)); [wp_steps; split; [done|simpl; congruence]|]. apply wp_bind.
  eapply wp_exists; [exact I2|]. intros b Hb. assert (b = false) as -> by (by apply Hb). wp_steps. unfold put_obj. wp_steps.
  split; [|simpl; congruence]. rewrite take_ge by (unfold MOUNTPOINT_SIZE in *; lia).
  exact (vinv_add _ _ _ _ _ _ s1 pend mp o d I1 Hu1 HD Hf1).
Qed.

(** ** Looking up a path *)

Lemma get_eq id m s : heap s !! id = Some m →
  vfs_mount_get_locked id s =
    if open_refs m =? 0xFFFFFFFF then Some (false, s)
    else Some (true, on_heap (<[id := with_refs (open_refs m + 1) m]>) s).
Proof.
  intros Hm. unfold vfs_mount_get_locked, put_obj. destruct (open_refs m =? _) eqn:E; apply wp_exact; apply wp_bind;
    (eapply wp_lift_opt; [exact Hm|]); rewrite E; wp_steps; done.
Qed.

Lemma wp_get id m s pend (Q : bool → vfs → Prop) : vinv s pend → heap s !! id = Some m →
  (∀ s' m', vinv s' (id :: pend) → heap s' !! id = Some m' → same m m' → pool s' = pool s → Q true s') → Q false s →
  wp (vfs_mount_get_locked id) Q s.
Proof.
  intros I Hm HQ Hq. pose proof (get_eq id m s Hm) as E. destruct (Z.eqb_spec (open_refs m) 0xFFFFFFFF) as [Er|Er];
    (eapply wp_known; [exact E|]); [done|].
  eapply HQ; [by apply vinv_get|simpl; apply lookup_insert_eq|done|done].
Qed.

Lemma wp_put id s pend : vinv s (id :: pend) → wp (vfs_mount_put owned (Some id)) (λ _ s', vinv s' pend ∧ pool s' = pool s) s.
Proof.
  intros I. destruct (vi_pend _ _ _ _ _ _ _ _ I id) as [m Hm]; [set_solver|].
  eapply wp_known; [by apply put_eq|].
  assert (pool (put_state owned id m s) = pool s) as Ep by (unfold put_state; by destruct (_ && _)).
  split; [|done]. replace (put_state owned id m s) with (on_pool (λ _, pool s) (put_state owned id m s)).
  2:{ rewrite <-Ep. by destruct (put_state owned id m s). }
  eapply (vinv_put table owned pzero WI DO FO s (id :: pend) pend (pool s) id m); [done|done| | | |apply I|done].
  - intros x Hx. rewrite cnt_cons. apply Nat.eqb_neq in Hx. rewrite Hx. simpl. lia.
  - rewrite cnt_cons, Nat.eqb_refl. simpl. lia.
  - set_solver.
Qed.

(** An operation of a table runs on the world only. *)
Lemma wp_on_world {A} (op : M W A) (R : A → W → Prop) (Q : A → vfs → Prop) s :
  wp op R (world s) → (∀ a w, R a w → Q a (set_world w s)) → wp (on_world op) Q s.
Proof. unfold wp, on_world. destruct (op (world s)) as [[a w]|]; [|done]. intros HR HQ. by apply HQ. Qed.

Lemma wp_deref id m s (Q : obj → vfs → Prop) : heap s !! id = Some m → Q m s → wp (deref id) Q s.
Proof. intros Hm HQ. by eapply wp_lift_opt. Qed.

Lemma wp_find_exact mp s pend l : vinv s pend → (∀ x, x ∈ l → is_Some (heap s !! x)) →
  wp (find_exact mp l) (λ r s', pool s' = pool s ∧ match r with Some id => vinv s' (id :: pend) | None => s' = s end) s.
Proof.
  intros I. induction l as [|x l IH]; intros Hl; cbn [find_exact]; [wp_steps; done|].
  destruct (Hl x ltac:(set_solver)) as [m Hm]. assert (∀ y, y ∈ l → is_Some (heap s !! y)) as Hl' by (intros y ?; apply Hl; set_solver).
  apply wp_bind. eapply wp_deref; [exact Hm|]. case_bool_decide; [|by apply IH]. apply wp_bind.
  eapply wp_get; [exact I|exact Hm| |by apply IH]. intros s' m' I' _ _ Hp. wp_steps. done.
Qed.

Lemma wp_probe_root k d w : WI w → DO k d → wp (sec_probe_root (table k) d) (λ _ w', WI w') w.
Proof.
  intros HW HD. unfold sec_probe_root. destruct (op_stat (table k)) as [st|] eqn:Est; [|wp_steps; done].
  destruct (op_readdir (table k)) as [rdir|] eqn:Erd; [|wp_steps; done]. apply wp_bind.
  eapply wp_mono; [apply (lw_stat (table := table) k st d [] w); [done..|by constructor]|]. intros r w1 HW1.
  destruct (negb _); [wp_steps; done|]. destruct (_ =? 0); [wp_steps; done|]. apply wp_bind.
  eapply wp_mono; [apply (lw_readdir (table := table) k rdir unit d [] sec_probe_readdir_cb tt w1); [done..|by constructor]|]. intros q w2 HW2. wp_steps. done.
Qed.

Lemma wp_healthy mp s pend : vinv s pend →
  wp (mountpoint_healthy table owned mp) (λ _ s', vinv s' pend ∧ pool s' = pool s) s.
Proof.
  intros I. unfold mountpoint_healthy, find_mount_exact_ref. wp_steps.
  eapply wp_mono; [apply (wp_find_exact mp s pend); [done|]|].
  { intros x (m & Hm & _)%(vi_live _ _ _ _ _ _ _ _ I). by exists m. }
  intros [id|] s1 [Hp1 I1]; [|wp_steps; subst; done]. destruct (vi_pend _ _ _ _ _ _ _ _ I1 id) as [m Hm]; [set_solver|].
  wp_steps. eapply wp_deref; [exact Hm|]. wp_steps.
  eapply wp_on_world; [apply wp_probe_root; [apply I1|by eapply (vi_data _ _ _ _ _ _ _ _ I1)]|]. intros b w HW. wp_steps.
  eapply wp_mono; [apply wp_put; by apply vinv_world|]. intros [] s2 [I2 Hp2]. wp_steps. split; [done|]. simpl in Hp2. congruence.
Qed.

Lemma wp_recover path s pend : scan_ok → vinv s pend →
  wp (vfs_try_recover_mount table owned vfs_mount_secondary path) (λ _ s', vinv s' pend ∧ pool s' = pool s) s.
Proof.
  intros Hscan I. unfold vfs_try_recover_mount, mountpoint_exists. destruct (negb _); [wp_steps; done|].
  apply wp_bind. eapply wp_exists; [exact I|]. intros have _. apply wp_bind.
  apply (wp_mono _ (λ _ s', vinv s' pend ∧ pool s' = pool s)); [destruct have; [by apply wp_healthy|wp_steps; done]|].
  intros healthy s1 [I1 Hp1]. destruct healthy; [wp_steps; done|]. wp_steps. destruct (g_nvme_recovering s1); [wp_steps; done|].
  wp_steps. apply (wp_mono _ (λ _ s', vinv s' pend ∧ pool s' = pool s)).
  { pose proof (vinv_recovering _ _ _ _ _ _ s1 pend true I1) as I2. destruct have; [|wp_steps; done].
    wp_steps. eapply wp_mono; [by apply wp_umount|]. intros b s3 (I3 & Hp3 & _). wp_steps. split; [done|]. simpl in Hp3. congruence. }
  intros [] s3 [I3 Hp3]. wp_steps. apply (wp_mono _ (λ _ s', vinv s' pend ∧ pool s' = pool s)).
  { destruct (g_storage_bd _); [|wp_steps; done]. eapply wp_mono; [by apply Hscan|]. intros [] s4 [I4 Hp4]. split; [done|congruence]. }
  intros [] s4 [I4 Hp4]. wp_steps. split; [by apply vinv_recovering|done].
Qed.

Lemma c_str_drop n p : c_str p → c_str (drop n p).
Proof. apply Forall_drop. Qed.
Lemma c_str_skip p : c_str p → c_str (skip_slash p).
Proof.
  unfold c_str. intros Hp. destruct p as [|c r]; simpl; [done|]. destruct (c =? slash); [|done]. by apply Forall_cons in Hp as [_ ?].
Qed.
Lemma c_str_skips p : c_str p → c_str (skip_slashes p).
Proof.
  unfold c_str. induction 1 as [|c p Hc Hp IH]; simpl; [by constructor|]. destruct (c =? slash); [exact IH|by constructor].
Qed.

(** The mount of a path, if it was found, is held by a reference. *)
Lemma wp_find_mount_ref path s pend : scan_ok → c_str path → vinv s pend →
  wp (find_mount_ref table owned vfs_mount_secondary path)
    (λ r s', pool s' = pool s ∧ match r with Some (id, rel) => vinv s' (id :: pend) ∧ c_str rel | None => vinv s' pend end) s.
Proof.
  intros Hscan Hstr I. unfold find_mount_ref.
  apply (wp_while _ _ (λ _ s', vinv s' pend ∧ pool s' = pool s) (λ r _, if r : bool then 0 else 1)); [done|lia|].
  intros retried s1 [I1 Hp1]. destruct (best_mount_total _ _ _ _ _ _ s1 pend path I1) as (r & Hr & Hin).
  unfold find_mount_locked. apply wp_bind. eapply wp_lift_opt; [exact Hr|]. apply wp_bind.
  assert (wp (if negb retried && path_is_exact_nvme_mountpoint path
     then ok ← vfs_try_recover_mount table owned vfs_mount_secondary path; mret (if ok : bool then inl true else inr None)
     else mret (inr (None : option (nat * list Z))))
    (λ r s', match r with
     | inl a' => (vinv s' pend ∧ pool s' = pool s) ∧ 0 ≤ (if a' : bool then 0 else 1) < (if retried then 0 else 1)
     | inr x => pool s' = pool s ∧ match x with Some (id, rel) => vinv s' (id :: pend) ∧ c_str rel | None => vinv s' pend end
     end) s1) as Hrec.
  { destruct retried; simpl; [wp_steps; done|]. destruct (path_is_exact_nvme_mountpoint path); [|wp_steps; done].
    apply wp_bind. eapply wp_mono; [by apply wp_recover|]. intros ok s2 [I2 Hp2]. wp_steps.
    destruct ok; (split; [|try lia]); try done; [split; [done|]|]; congruence. }
  destruct r as [[id|] len]; cbn [fst snd] in *; [|wp_steps; done].
  pose proof (Hin id eq_refl) as (m & Hm & _)%(vi_live _ _ _ _ _ _ _ _ I1).
  eapply wp_get; [exact I1|exact Hm| |exact Hrec]. intros s2 m' I2 _ _ Hp2. wp_steps. split; [congruence|].
  split; [done|]. by apply c_str_skip, c_str_drop.
Qed.

(** ** Calls on paths *)

(** A path call is safe when the operation it selects keeps the world. *)
Lemma wp_with_mount {X A} path (sel : fs_ops → option X) (k : X → option FD → list Z → M W A) err s pend :
  scan_ok → c_str path → vinv s pend →
  (∀ o, complete o → sel o ≠ None) →
  (∀ n op d rel w, sel (table n) = Some op → WI w → DO n d → c_str rel → wp (k op d rel) (λ _ w', WI w') w) →
  wp (with_mount table owned vfs_mount_secondary path sel k err) (λ _ s', vinv s' pend ∧ pool s' = pool s) s.
Proof.
  intros Hscan Hstr I Hc Hk. unfold with_mount. apply wp_bind. eapply wp_mono; [by apply wp_find_mount_ref|].
  intros [[id rel]|] s1 [Hp1 HI]; [|wp_steps; done]. destruct HI as [I1 Hrel]. destruct (vi_pend _ _ _ _ _ _ _ _ I1 id) as [m Hm]; [set_solver|].
  apply wp_bind. eapply wp_deref; [exact Hm|]. destruct (sel (table (ops m))) as [op|] eqn:Es.
  - apply wp_bind. eapply wp_on_world; [apply (Hk (ops m)); [done|apply I1|by eapply (vi_data _ _ _ _ _ _ _ _ I1)|done]|].
    intros a w HW. apply wp_bind. eapply wp_mono; [apply wp_put; by apply vinv_world|]. intros [] s2 [I2 Hp2]. wp_steps.
    split; [done|]. simpl in Hp2. congruence.
  - wp_steps. split; [|done]. eapply vinv_leak; [exact I1|]. intros Hall. by apply (Hc (table (ops m)) (Hall _)).
Qed.

Lemma wp_rename old new s pend : scan_ok → c_str old → c_str new → vinv s pend →
  wp (vfs_rename table owned vfs_mount_secondary old new) (λ _ s', vinv s' pend ∧ pool s' = pool s) s.
Proof.
  intros Hscan Hold Hnew I. unfold vfs_rename. apply wp_bind. eapply wp_mono; [by apply wp_find_mount_ref|].
  intros [[id rel]|] s1 [Hp1 HI]; [|wp_steps; done]. destruct HI as [I1 Hrel]. destruct (vi_pend _ _ _ _ _ _ _ _ I1 id) as [m Hm]; [set_solver|].
  apply wp_bind. eapply wp_deref; [exact Hm|]. destruct (op_rename (table (ops m))) as [op|] eqn:Es.
  - destruct (best_mount_total _ _ _ _ _ _ s1 _ new I1) as (r & Hr & _).
    unfold find_mount_locked. apply wp_bind. eapply wp_lift_opt; [exact Hr|]. destruct (negb _).
    + apply wp_bind. eapply wp_mono; [by apply wp_put|]. intros [] s2 [I2 Hp2]. wp_steps. split; [done|congruence].
    + apply wp_bind. eapply wp_on_world; [eapply (lw_rename (table := table)); [exact Es|apply I1|by eapply (vi_data _ _ _ _ _ _ _ _ I1)|done|by apply c_str_skips, c_str_drop]|].
      intros a w HW. apply wp_bind. eapply wp_mono; [apply wp_put; by apply vinv_world|]. intros [] s2 [I2 Hp2]. wp_steps.
      split; [done|]. simpl in Hp2. congruence.
  - wp_steps. split; [|done]. eapply vinv_leak; [exact I1|]. intros Hall. by apply (Hall (ops m)).
Qed.

(** ** Calls on files *)

Lemma first_free_spec l i r : first_free (P := P) l i = r →
  match r with Some j => ∃ f, (i ≤ j)%nat ∧ l !! (j - i)%nat = Some f ∧ f_used f = false | None => Forall (λ f, f_used f = true) l end.
Proof.
  intros <-. revert i. induction l as [|f l IH]; intros i; simpl; [done|]. destruct (f_used f) eqn:E.
  - specialize (IH (S i)). destruct (first_free l (S i)) as [j|].
    + destruct IH as (g & Hj & Hg & Hu). exists g. split; [lia|]. split; [|done]. by replace (j - i)%nat with (S (j - S i)) by lia.
    + by constructor.
  - exists f. by rewrite Nat.sub_diag.
Qed.

Lemma files_ok_insert h (l : list (vfs_file (P := P))) i f :
  (∀ j g, l !! j = Some g → file_ok pzero FO h g) → file_ok pzero FO h f → ∀ j g, <[i := f]> l !! j = Some g → file_ok pzero FO h g.
Proof. intros Hl Hf j g [(<- & -> & _)|[_ ?]]%list_lookup_insert_Some; [done|by eapply Hl]. Qed.

Lemma on_id_free id : on_id id (free_file pzero) = false.
Proof. done. Qed.

(** A file system that opens a file gives the reference of the call to it. *)
Lemma vinv_open s pend id m i f g :
  vinv s (id :: pend) → heap s !! id = Some m → pool s !! i = Some f → f_used f = false → FO (ops m) (fs_data m) g →
  vinv (on_pool (λ _, <[i := VfsFile true (Some id) g]> (pool s)) s) pend.
Proof.
  intros I Hm Hi Hu HF. eapply (vinv_files _ _ _ _ _ _ s (id :: pend) pend); [done|exact Hm| | | |by rewrite length_insert].
  - intros x. rewrite (files_on_insert _ _ f) by done. rewrite cnt_cons. unfold on_id. rewrite Hu. simpl.
    destruct (Nat.eqb_spec x id) as [->|Hne]; [rewrite bool_decide_eq_true_2 by done|rewrite bool_decide_eq_false_2 by congruence]; simpl; lia.
  - set_solver.
  - apply files_ok_insert; [apply I|]. unfold file_ok. simpl. by exists id, m.
Qed.

Lemma list_insert_free (l : list (vfs_file (P := P))) i f : l !! i = Some f → f = free_file pzero → <[i := free_file pzero]> l = l.
Proof. intros Hi ->. by apply list_insert_id. Qed.

Lemma wp_open path s pend : scan_ok → c_str path → vinv s pend →
  wp (vfs_open table owned pzero vfs_mount_secondary path)
    (λ r s', vinv s' pend ∧ ∀ i, r = Some i → ∃ id f, pool s' !! i = Some (VfsFile true (Some id) f)) s.
Proof.
  intros Hscan Hstr I. unfold vfs_open. case_bool_decide; [wp_steps; done|]. apply wp_bind. eapply wp_mono; [by apply wp_find_mount_ref|].
  intros [[id rel]|] s1 [Hp1 HI]; [|wp_steps; done]. destruct HI as [I1 Hrel]. destruct (vi_pend _ _ _ _ _ _ _ _ I1 id) as [m Hm]; [set_solver|].
  apply wp_bind. eapply wp_deref; [exact Hm|]. destruct (op_open (table (ops m))) as [op|] eqn:Es.
  2:{ wp_steps. split; [|done]. eapply vinv_leak; [exact I1|]. intros Hall. by destruct (Hall (ops m)) as [Ho _]. }
  unfold vfs_file_alloc. wp_steps. pose proof (first_free_spec (pool s1) 0 _ eq_refl) as Hfree.
  destruct (first_free (pool s1) 0) as [i|].
  2:{ wp_steps. eapply wp_mono; [by apply wp_put|]. intros [] s2 [I2 Hp2]. wp_steps. done. }
  destruct Hfree as (f & _ & Hi & Hu). rewrite Nat.sub_0_r in Hi. unfold set_slot, vfs_file_free. wp_steps.
  pose proof (vi_files _ _ _ _ _ _ _ _ I1 i f Hi) as Hfo. unfold file_ok in Hfo. rewrite Hu in Hfo.
  eapply wp_on_world; [eapply (lw_open (table := table)); [exact Es|apply I1|by eapply (vi_data _ _ _ _ _ _ _ _ I1)|done..]|].
  intros r w [HW HF]. pose proof (vinv_world _ _ _ _ _ _ _ _ w I1 HW) as I2. destruct r as [g|]; wp_steps.
  - assert (on_pool (<[i := VfsFile true (Some id) g]>) (set_world w
        (on_pool (<[i := VfsFile true (Some id) (pzero, 0)]>) (on_pool (<[i := VfsFile true None (pzero, 0)]>) s1))) =
      on_pool (λ _, <[i := VfsFile true (Some id) g]> (pool s1)) (set_world w s1)) as ->.
    { unfold on_pool, set_world. simpl. by rewrite !list_insert_insert_eq. }
    split; [by eapply (vinv_open (set_world w s1)); [..|apply HF]|]. intros j [= <-]. exists id, g. simpl.
    by rewrite list_lookup_insert_eq by (by eapply lookup_lt_Some).
  - set (s2 := set_world w _). eapply wp_known; [by apply (put_eq owned id m s2)|]. wp_steps.
    assert (on_pool (<[i := free_file pzero]>) (put_state owned id m s2) = put_state owned id m (set_world w s1)) as ->.
    { unfold put_state, s2, on_pool, set_world, dispose_state, on_heap, freed. destruct (_ && _); simpl;
          rewrite !list_insert_insert_eq, (list_insert_free _ _ f Hi Hfo); reflexivity. }
    split; [|done]. assert (wp (vfs_mount_put owned (Some id)) (λ _ s', vinv s' pend ∧ pool s' = pool (set_world w s1)) (set_world w s1)) as Hw
      by (by apply wp_put). unfold wp in Hw. rewrite (put_eq owned id m) in Hw by done. apply Hw.
Qed.

(** A call on a file is safe, also on one that is closed, when the operation
    it selects keeps the file. *)
Lemma wp_with_file {X A} i (sel : fs_ops → option X) (k : X → P * Z → M W (A * (P * Z))) err s pend :
  vinv s pend → (i < VFS_OPEN_FILE_POOL_SIZE)%nat →
  (∀ n op d f w, sel (table n) = Some op → WI w → DO n d → FO n d f → wp (k op f) (λ r w', WI w' ∧ FO n d r.2) w) →
  wp (with_file table i sel k err) (λ _ s', vinv s' pend ∧ heap s' = heap s ∧
    ∃ f g, pool s !! i = Some f ∧ pool s' !! i = Some (VfsFile (f_used f) (f_mount f) g)) s.
Proof.
  intros I Hi Hk. rewrite <-(vi_pool _ _ _ _ _ _ _ _ I) in Hi. apply lookup_lt_is_Some_2 in Hi as [f Hf].
  assert (∃ g, pool s !! i = Some (VfsFile (f_used f) (f_mount f) g)) as Hsame by (exists (f_file f); by destruct f).
  unfold with_file, slot. apply wp_bind. eapply wp_lift_opt; [exact Hf|].
  destruct (f_mount f) as [id|] eqn:Em; [|wp_steps; split; [done|split; [done|exists f; rewrite Em; by destruct Hsame as [g0 Hg0]; exists g0]]].
  pose proof (vi_files _ _ _ _ _ _ _ _ I i f Hf) as Hok. unfold file_ok in Hok. destruct (f_used f) eqn:Hu; [|by subst f].
  destruct Hok as (id' & m & E & Hm & HF). assert (id' = id) as -> by congruence.
  apply wp_bind. eapply wp_deref; [exact Hm|].
  destruct (sel (table (ops m))) as [op|] eqn:Es; [|wp_steps; split; [done|split; [done|exists f; rewrite Hu, Em; naive_solver]]].
  apply wp_bind. eapply wp_on_world; [eapply (Hk (ops m)); [done|apply I|by eapply (vi_data _ _ _ _ _ _ _ _ I)|done]|].
  intros [a g] w [HW HG]. unfold set_slot. wp_steps. cbn [fst snd] in *. split; [|split; [done|]].
  - eapply (vinv_files _ _ _ _ _ _ (set_world w s) pend pend); [by apply vinv_world|exact Hm| |done| |by rewrite length_insert].
    + intros x. simpl. rewrite (files_on_insert _ _ f) by done. unfold on_id. rewrite Hu, Em. simpl. lia.
    + apply files_ok_insert; [apply I|]. unfold file_ok. simpl. by exists id, m.
  - exists f, g. rewrite Hu, Em. split; [done|]. simpl. by rewrite list_lookup_insert_eq by (by eapply lookup_lt_Some).
Qed.

Lemma wp_close i s pend : vinv s pend → (i < VFS_OPEN_FILE_POOL_SIZE)%nat →
  wp (vfs_close table owned pzero i) (λ _ s', vinv s' pend ∧ pool s' !! i = Some (free_file pzero)) s.
Proof.
  intros I Hi. unfold vfs_close. apply wp_bind.
  eapply wp_mono; [apply (wp_with_file i op_close); [done|done|]|].
  { intros n op d f w E HW HD HF. by eapply (lw_close (table := table)). }
  intros rc s1 (I1 & _ & f0 & g & Hf0 & Hf). apply wp_bind. unfold slot. eapply wp_lift_opt; [exact Hf|]. cbn [f_mount].
  assert (i < length (pool s1))%nat as Hlt by (by eapply lookup_lt_Some).
  pose proof (vi_files _ _ _ _ _ _ _ _ I1 i _ Hf) as Hok. unfold file_ok in Hok. cbn [f_used f_mount f_file] in Hok.
  destruct (f_used f0) eqn:Hu.
  - destruct Hok as (id & m & E & Hm & HF). rewrite E. apply wp_bind. eapply wp_known; [by apply put_eq|].
    unfold vfs_file_free. wp_steps.
    assert (pool (put_state owned id m s1) = pool s1) as Ep by (unfold put_state; by destruct (_ && _)).
    split; [|simpl; rewrite Ep; by apply list_lookup_insert_eq].
    replace (on_pool (<[i := free_file pzero]>) (put_state owned id m s1)) with
      (on_pool (λ _, <[i := free_file pzero]> (pool s1)) (put_state owned id m s1)) by (unfold on_pool; by rewrite Ep).
    eapply (vinv_put _ _ _ _ _ _ s1 pend pend); [done|done| | |done| |by rewrite length_insert].
    + intros x Hx. rewrite (files_on_insert _ _ _ _ _ Hf). unfold on_id. cbn [f_used f_mount free_file]. rewrite E.
      rewrite bool_decide_eq_false_2 by congruence. simpl. lia.
    + rewrite (files_on_insert _ _ _ _ _ Hf). unfold on_id. cbn [f_used f_mount free_file]. rewrite E.
      rewrite bool_decide_eq_true_2 by done. simpl. lia.
    + apply files_ok_insert; [apply I1|done].
  - injection Hok as E1 E2. rewrite E1. apply wp_bind. eapply wp_known; [apply put_none|]. unfold vfs_file_free. wp_steps.
    split; [|simpl; by apply list_lookup_insert_eq].
    replace (on_pool (<[i := free_file pzero]>) s1) with s1; [done|].
    unfold on_pool. rewrite (list_insert_free _ _ _ Hf) by (unfold free_file; congruence). by destruct s1.
Qed.
End calls.

(** * Virtual file system: one file, from open to close

    On a path that a mount holds, a call of the interface is the operation of
    its file system, and the references and slots that it takes are given back.
    A file that is created, written and read through the interface of a FAT32
    volume is the same file as below it. *)

Section file.
Context {W FD P : Type}.
Context (table : nat → fs_ops (W := W) (FD := FD) (P := P)) (owned : nat → bool) (pzero : P).
Context (vfs_mount_secondary : list Z → M (vfs (W := W) (FD := FD) (P := P)) unit).

Abbreviation vfs := (vfs (W := W) (FD := FD) (P := P)).
Implicit Types s : vfs.

(** The lookup of a path ends at a mount that is in use. *)
Record resolves s (path : list Z) (id : nat) (m : vfs_mount_obj (FD := FD)) (rel : list Z) : Prop := {
  rs_best : ∃ n, best_mount (heap s) path (g_mounts s) None 0 = Some (Some id, n) ∧ rel = skip_slash (drop n path);
  rs_obj : heap s !! id = Some m;
  rs_active : active m = true;
  rs_refs : 0 ≤ open_refs m < 0xFFFFFFFF
}.

(** The slot that [vfs_file_alloc] hands out. *)
Definition free_slot s (i : nat) : Prop := first_free (pool s) 0 = Some i ∧ pool s !! i = Some (free_file pzero).

(** The state with a file open, and nothing else changed. *)
Definition opened (id : nat) (m : vfs_mount_obj (FD := FD)) (i : nat) (g : P * Z) (w : W) s : vfs :=
  on_heap (<[id := with_refs (open_refs m + 1) m]>) (on_pool (<[i := VfsFile true (Some id) g]>) (set_world w s)).

Lemma find_mount_ref_hit s path id m rel : resolves s path id m rel →
  find_mount_ref table owned vfs_mount_secondary path s =
    Some (Some (id, rel), on_heap (<[id := with_refs (open_refs m + 1) m]>) s).
Proof.
  intros [(n & Hb & ->) Hm Ha Hr]. unfold find_mount_ref. apply wp_exact.
  apply (wp_while _ _ (λ _ s', s' = s) (λ _ _, 0)); [done|lia|]. intros retried ? ->.
  unfold find_mount_locked. apply wp_bind. eapply wp_lift_opt; [exact Hb|]. apply wp_bind. cbn [fst snd].
  eapply wp_known; [rewrite (get_eq id m s Hm); rewrite (proj2 (Z.eqb_neq _ _)) by lia; done|]. by wp_steps.
Qed.

(** The reference is given back. *)
Lemma put_back id m s : active m = true → 0 ≤ open_refs m →
  vfs_mount_put owned (Some id) (on_heap (<[id := with_refs (open_refs m + 1) m]>) s) = Some (tt, on_heap (<[id := m]>) s).
Proof.
  intros Ha Hr. rewrite (put_eq owned id (with_refs (open_refs m + 1) m)) by (simpl; apply lookup_insert_eq).
  unfold put_state, with_refs. cbn [open_refs active]. rewrite (proj2 (Z.ltb_lt _ _)), Ha by lia. cbn [negb andb].
  unfold on_heap. simpl. rewrite insert_insert_eq. replace (open_refs m + 1 - 1) with (open_refs m) by lia. by destruct m; simpl in *; subst.
Qed.

Lemma on_heap_same id m s : heap s !! id = Some m → on_heap (<[id := m]>) s = s.
Proof. intros Hm. unfold on_heap. rewrite insert_id by done. by destruct s. Qed.

(** A call on a path is the operation of the file system. *)
Lemma with_mount_hit {X A} s path id m rel (sel : fs_ops → option X) (k : X → option FD → list Z → M W A) err op :
  resolves s path id m rel → sel (table (ops m)) = Some op →
  with_mount table owned vfs_mount_secondary path sel k err s =
    match k op (fs_data m) rel (world s) with Some (a, w) => Some (a, set_world w s) | None => None end.
Proof.
  intros R Hop. pose proof R as [_ Hm Ha Hr]. unfold with_mount, mbind, M_bind. rewrite (find_mount_ref_hit _ _ _ _ _ R).
  unfold deref, lift_opt. cbn [heap on_heap]. rewrite lookup_insert_eq. cbn [ops fs_data with_refs]. rewrite Hop.
  unfold on_world. cbn [world on_heap]. destruct (k op (fs_data m) rel (world s)) as [[a w]|]; [|done].
  change (set_world w (on_heap ?g s)) with (on_heap g (set_world w s)). rewrite put_back by (done || lia).
  rewrite on_heap_same by done. done.
Qed.

Lemma open_hit s path id m rel i op : resolves s path id m rel → path ≠ [] → free_slot s i → op_open (table (ops m)) = Some op →
  vfs_open table owned pzero vfs_mount_secondary path s =
    match op (fs_data m) rel (world s) with
    | Some (Some g, w) => Some (Some i, opened id m i g w s)
    | Some (None, w) => Some (None, set_world w s)
    | None => None
    end.
Proof.
  intros R Hp [Hfree Hi] Hop. pose proof R as [_ Hm Ha Hr]. unfold vfs_open. rewrite bool_decide_eq_false_2 by done.
  unfold mbind, M_bind. rewrite (find_mount_ref_hit _ _ _ _ _ R).
  unfold deref, lift_opt. cbn [heap on_heap]. rewrite lookup_insert_eq. cbn [ops fs_data with_refs]. rewrite Hop.
  unfold vfs_file_alloc, gets, modify, set_slot, vfs_file_free, mbind, M_bind. cbn [pool on_heap]. rewrite Hfree.
  unfold mret, M_ret, on_world, modify. cbn [world on_pool on_heap]. destruct (op (fs_data m) rel (world s)) as [[[g|] w]|]; [| |done].
  - unfold opened, on_pool, on_heap, set_world. simpl. by rewrite !list_insert_insert_eq.
  - change (set_world w (on_pool ?f (on_pool ?g (on_heap ?h s)))) with (on_heap h (on_pool f (on_pool g (set_world w s)))).
    rewrite put_back by (done || lia). rewrite on_heap_same by done. unfold on_pool, set_world. simpl.
    rewrite !list_insert_insert_eq, list_insert_id by done. done.
Qed.

(** A call on the open file is the operation of the file system. *)
Lemma file_hit {X A} s id m i g w (sel : fs_ops → option X) (k : X → P * Z → M W (A * (P * Z))) err op :
  (i < length (pool s))%nat → sel (table (ops m)) = Some op →
  with_file table i sel k err (opened id m i g w s) =
    match k op g w with Some ((a, g'), w') => Some (a, opened id m i g' w' s) | None => None end.
Proof.
  intros Hi Hop. unfold with_file, slot, deref, lift_opt, mbind, M_bind. unfold opened at 1. cbn [pool on_heap on_pool set_world].
  rewrite list_lookup_insert_eq by done. cbn [f_mount]. unfold opened at 1. cbn [heap on_heap]. rewrite lookup_insert_eq.
  cbn [ops with_refs]. rewrite Hop. unfold on_world. cbn [world opened on_heap on_pool set_world f_file].
  destruct (k op g w) as [[[a g'] w']|]; [|done]. unfold set_slot, modify. cbn [fst snd]. unfold mret, M_ret.
  unfold opened, on_heap, on_pool, set_world. simpl. by rewrite list_insert_insert_eq.
Qed.

(** Closing gives everything back. *)
Lemma close_hit s path id m rel i g w op : resolves s path id m rel → free_slot s i → op_close (table (ops m)) = Some op →
  vfs_close table owned pzero i (opened id m i g w s) =
    match op g w with Some ((rc, _), w') => Some (rc, set_world w' s) | None => None end.
Proof.
  intros R [_ Hi] Hop. pose proof R as [_ Hm Ha Hr]. assert (i < length (pool s))%nat as Hl by (by eapply lookup_lt_Some).
  unfold vfs_close. unfold mbind at 1, M_bind at 1. rewrite (file_hit s id m i g w op_close _ _ op) by done.
  destruct (op g w) as [[[rc g'] w']|]; [|done].
  unfold slot, lift_opt, mbind, M_bind. unfold opened at 1. cbn [pool on_heap on_pool set_world].
  rewrite list_lookup_insert_eq by done. cbn [f_mount]. unfold opened. rewrite put_back by (done || lia).
  unfold vfs_file_free, modify, mret, M_ret. do 2 f_equal. unfold on_pool, on_heap, set_world. simpl.
  rewrite list_insert_insert_eq, list_insert_id, insert_id by done. done.
Qed.

Lemma resolves_world s path id m rel w : resolves s path id m rel → resolves (set_world w s) path id m rel.
Proof. by intros []. Qed.
End file.

(** ** A file on a FAT32 volume *)

Section session.
Context {D : Type} `{BlockDeviceSafe D}.
Context (table : nat → fs_ops (W := D) (FD := fat_data) (P := fat_private)) (owned : nat → bool).
Context (vfs_mount_secondary : list Z → M (vfs (W := D) (FD := fat_data) (P := fat_private)) unit).

Abbreviation vstate := (vfs (W := D) (FD := fat_data) (P := fat_private)).

(** Create a file, write it, close it, open it again and read it: the number
    of bytes written and the bytes read, [None] when a call failed. *)
Definition session (path buf : list Z) : M vstate (option (Z * list Z)) :=
  rc ← vfs_create table owned vfs_mount_secondary path 1;
  if negb (rc =? 0) then mret None
  else
    o ← vfs_open table owned None vfs_mount_secondary path;
    match o with
    | None => mret None
    | Some i =>
        n ← vfs_write table i buf;
        vfs_close table owned None i;;
        if n <? 0 then mret None
        else
          o ← vfs_open table owned None vfs_mount_secondary path;
          match o with
          | None => mret None
          | Some j =>
              r ← vfs_read table j (Z.of_nat (length buf));
              vfs_close table owned None j;;
              mret (if r.1 <? 0 then None else Some (n, r.2))
          end
    end.

Lemma safe_result {A} fs (m : ME D A) (Q : A → Prop) d r d' :
  safe fs m Q → image_ok fs d → m d = Some (r, d') → image_ok fs d' ∧ ∀ a, r = Some a → Q a.
Proof.
  intros Hs Hd E. pose proof (Hs d Hd) as Hw. unfold wpe, wp in Hw. rewrite E in Hw.
  destruct r as [a|]; [|done]. destruct Hw as [? ?]. split; [done|]. by intros ? [= <-].
Qed.

Section eq.
Context (s : vstate) (path : list Z) (id : nat) (m : vfs_mount_obj (FD := fat_data)) (rel : list Z) (i a : nat) (fs : fat32_fs).
Context (R : resolves s path id m rel) (Hp : path ≠ []) (Hfree : free_slot None s i).
Context (Hdata : fs_data m = Some (a, fs)) (Htable : table (ops m) = fat32_ops).
Context (Hrel : c_str rel).

Lemma len_pool : (i < length (pool s))%nat.
Proof using Hfree. destruct Hfree as [_ Hi]. by eapply lookup_lt_Some. Qed.

Abbreviation at_ d := (set_world d s).

Lemma create_at d : vfs_create table owned vfs_mount_secondary path 1 (at_ d) =
  match fat32_create fs rel 0 d with Some (r, d') => Some (code r, at_ d') | None => None end.
Proof using R Hdata Htable.
  unfold vfs_create. rewrite (with_mount_hit table owned vfs_mount_secondary (at_ d) path id m rel op_create _ _ fat32_create_vfs);
    [|by apply resolves_world|by rewrite Htable].
  cbn [world set_world]. rewrite Hdata. unfold fat32_create_vfs, result. by destruct (fat32_create fs rel _ d) as [[r d']|].
Qed.

Lemma open_at d : vfs_open table owned None vfs_mount_secondary path (at_ d) =
  match fat32_open fs rel d with
  | Some (Some g, d') => Some (Some i, opened id m i (Some (fs, g), size g) d' s)
  | Some (None, d') => Some (None, at_ d')
  | None => None
  end.
Proof using R Hdata Htable Hp Hfree.
  rewrite (open_hit table owned None vfs_mount_secondary (at_ d) path id m rel i fat32_open_vfs);
    [|by apply resolves_world|done|done|by rewrite Htable].
  cbn [world set_world]. rewrite Hdata. unfold fat32_open_vfs, result. by destruct (fat32_open fs rel d) as [[[g|] d']|].
Qed.

Lemma close_at g d : vfs_close table owned None i (opened id m i g d s) = Some (0, at_ d).
Proof using R Htable Hfree.
  by rewrite (close_hit table owned None s path id m rel i g d fat32_close_vfs) by (done || by rewrite Htable).
Qed.

Lemma write_at g n d buf : vfs_write table i buf (opened id m i (Some (fs, g), n) d s) =
  match fat32_write fs g buf d with
  | Some (Some (k, g'), d') => Some (k, opened id m i (Some (fs, g'), n) d' s)
  | Some (None, d') => Some (-1, opened id m i (Some (fs, g), n) d' s)
  | None => None
  end.
Proof using Hfree Htable.
  unfold vfs_write. rewrite (file_hit table s id m i _ d op_write _ _ fat32_write_vfs) by (apply len_pool || by rewrite Htable).
  unfold fat32_write_vfs, result. cbn [fst snd]. by destruct (fat32_write fs g buf d) as [[[[k g']|] d']|].
Qed.

Lemma read_at g n d len : vfs_read table i len (opened id m i (Some (fs, g), n) d s) =
  match fat32_read fs g len d with
  | Some (Some (l, g'), d') => Some ((Z.of_nat (length l), l), opened id m i (Some (fs, g'), n) d' s)
  | Some (None, d') => Some ((-1, []), opened id m i (Some (fs, g), n) d' s)
  | None => None
  end.
Proof using Hfree Htable.
  unfold vfs_read. rewrite (file_hit table s id m i _ d op_read _ _ fat32_read_vfs) by (apply len_pool || by rewrite Htable).
  unfold fat32_read_vfs, result. cbn [fst snd]. by destruct (fat32_read fs g len d) as [[[[l g']|] d']|].
Qed.

(** The interface adds nothing to the file system and takes nothing away. *)
Lemma session_eq buf : image_ok fs (world s) → bytes buf →
  session path buf s = match create_write_read fs rel 0 buf (world s) with Some (r, d') => Some (r, at_ d') | None => None end.
Proof using R Hdata Htable Hp Hfree Hrel.
  intros Hi Hbuf. replace (session path buf s) with (session path buf (at_ (world s))) by (by destruct s).
  assert (∃ d0 : D, mounted d0 fs) as [d0 Hmo] by (exists (world s); apply Hi).
  unfold session, create_write_read, mbind, M_bind, ME_bind, mret, M_ret, ME_ret. rewrite create_at.
  destruct (fat32_create fs rel 0 (world s)) as [[r1 d1]|] eqn:E1; [|done].
  destruct (safe_result fs _ _ _ _ _ (safe_create fs d0 Hmo rel 0 Hrel ltac:(done)) Hi E1) as [Hi1 _].
  destruct r1 as [[]|]; cbn [code Z.eqb negb]; [|done]. rewrite open_at.
  destruct (fat32_open fs rel d1) as [[r2 d2]|] eqn:E2; [|done].
  destruct (safe_result fs _ _ _ _ _ (safe_open fs rel) Hi1 E2) as [Hi2 Hf]. destruct r2 as [f|]; [|done].
  rewrite write_at. destruct (fat32_write fs f buf d2) as [[r3 d3]|] eqn:E3; [|done].
  destruct (safe_result fs _ _ _ _ _ (safe_fat_write fs d0 Hmo f buf (Hf f eq_refl) Hbuf) Hi2 E3) as [Hi3 Hn].
  destruct r3 as [[n f']|]; rewrite close_at; [|done]. destruct (Hn _ eq_refl) as [_ Hn']. cbn [fst] in Hn'.
  rewrite (proj2 (Z.ltb_ge n 0)), open_at by lia. destruct (fat32_open fs rel d3) as [[[g|] d4]|] eqn:E4; [|done|done].
  rewrite read_at. destruct (fat32_read fs g _ d4) as [[[[l g']|] d5]|] eqn:E5; [| |done]; rewrite close_at; [|done].
  cbn [fst snd]. by rewrite (proj2 (Z.ltb_ge _ 0)) by lia.
Qed.
End eq.
End session.
