(* ===== verification/VfsMain.v ===== *)
(** * Virtual file system: the main theorems

    Sequences of calls from the state at boot, with any file systems that keep
    their promises; the path lookup; unmounting under open files; and a file
    on a FAT32 volume, from the calls of the interface down to the sectors. *)

From S2P Require Import Prelude Loops Codec Ring Part Fat32 FatVol FatName FatEntry FatRead FatWrite FatCreate FatTrunc FatTotal FatMain Vfs VfsInv VfsFat VfsCalls.

Section main.
Context {W FD P : Type}.
Context (table : nat → fs_ops (W := W) (FD := FD) (P := P)) (owned : nat → bool) (oom : nat → bool) (pzero : P).
Context (vfs_mount_secondary : list Z → M (vfs (W := W) (FD := FD) (P := P)) unit).
Context (WI : W → Prop) (DO : nat → option FD → Prop) (FO : nat → option FD → P * Z → Prop).

Abbreviation vfs := (vfs (W := W) (FD := FD) (P := P)).
Abbreviation vinv := (vinv table owned pzero WI DO FO).
Implicit Types s : vfs.

(** ** Calls *)

(** A call of the interface with its arguments. *)
Inductive call : Type :=
| CMount (mp : list Z) (o : nat) (d : option FD)
| CUmount (mp : list Z)
| COpen (path : list Z)
| CRead (i : nat) (len : Z)
| CWrite (i : nat) (buf : list Z)
| CSeek (i : nat) (offset whence : Z)
| CTruncate (i : nat) (len : Z)
| CSize (i : nat)
| CClose (i : nat)
| CReaddir (C : Type) (path : list Z) (cb : list Z → Z → Z → C → bool * C) (ctx : C)
| CStat (path : list Z) (out : vfs_stat)
| CCreate (path : list Z) (type : Z)
| CMkdir (path : list Z)
| CUnlink (path : list Z)
| CRename (old new : list Z).

Definition drop_result {A} (m : M vfs A) : M vfs unit := m;; mret tt.

Definition run_call (c : call) : M vfs unit :=
  match c with
  | CMount mp o d => drop_result (Vfs.vfs_mount owned oom mp o d)
  | CUmount mp => drop_result (vfs_umount owned mp)
  | COpen path => drop_result (vfs_open table owned pzero vfs_mount_secondary path)
  | CRead i len => drop_result (vfs_read table i len)
  | CWrite i buf => drop_result (vfs_write table i buf)
  | CSeek i offset whence => drop_result (vfs_seek table i offset whence)
  | CTruncate i len => drop_result (vfs_truncate table i len)
  | CSize i => drop_result (vfs_size i)
  | CClose i => drop_result (vfs_close table owned pzero i)
  | CReaddir C path cb ctx => drop_result (vfs_readdir_ex table owned vfs_mount_secondary path cb ctx)
  | CStat path out => drop_result (vfs_stat_path table owned vfs_mount_secondary path out)
  | CCreate path type => drop_result (vfs_create table owned vfs_mount_secondary path type)
  | CMkdir path => drop_result (vfs_mkdir table owned vfs_mount_secondary path)
  | CUnlink path => drop_result (vfs_unlink table owned vfs_mount_secondary path)
  | CRename old new => drop_result (vfs_rename table owned vfs_mount_secondary old new)
  end.

(** What the caller guarantees: C strings, values of their C types, handles of
    the pool (closed ones included), and data that is not in use. *)
Definition enabled (c : call) s : Prop :=
  match c with
  | CMount mp o d => (length mp < MOUNTPOINT_SIZE)%nat ∧ DO o d ∧ fresh owned o d s
  | CUmount mp => True
  | COpen path | CReaddir _ path _ _ | CStat path _ | CMkdir path | CUnlink path => c_str path
  | CCreate path type => c_str path ∧ 0 ≤ type < 2 ^ 16
  | CRename old new => c_str old ∧ c_str new
  | CRead i len => (i < VFS_OPEN_FILE_POOL_SIZE)%nat ∧ 0 ≤ len < 2 ^ 32
  | CWrite i buf => (i < VFS_OPEN_FILE_POOL_SIZE)%nat ∧ bytes buf ∧ Z.of_nat (length buf) < 2 ^ 32
  | CSeek i offset whence => (i < VFS_OPEN_FILE_POOL_SIZE)%nat ∧ - 2 ^ 63 ≤ offset < 2 ^ 63
  | CTruncate i len => (i < VFS_OPEN_FILE_POOL_SIZE)%nat ∧ 0 ≤ len < 2 ^ 64
  | CSize i | CClose i => (i < VFS_OPEN_FILE_POOL_SIZE)%nat
  end.

(** The state at boot. *)
Definition vfs_boot (w : W) (bd : bool) : vfs :=
  Vfs ∅ 0 [] (replicate VFS_OPEN_FILE_POOL_SIZE (free_file pzero)) [] false bd w.

Inductive reach : vfs → Prop :=
| reach_boot w bd : WI w → reach (vfs_boot w bd)
| reach_call s c s' : reach s → enabled c s → run_call c s = Some (tt, s') → reach s'.

Lemma vinv_boot w bd : WI w → vinv (vfs_boot w bd) [].
Proof.
  intros HW. split; cbn [heap allocs g_mounts pool released world vfs_boot]; try done.
  - constructor.
  - intros id. split; [by intros ?%not_elem_of_nil|]. by intros (m & ? & _).
  - by intros id ?%not_elem_of_nil.
  - intros i f Hi. apply lookup_replicate in Hi as [-> _]. done.
  - constructor.
Qed.

Context `{!Lawful table pzero WI DO FO}.
Context (Hscan : scan_ok table owned pzero vfs_mount_secondary WI DO FO).

Lemma wp_drop {A} (m : M vfs A) (Q : vfs → Prop) s : wp m (λ _, Q) s → wp (drop_result m) (λ _, Q) s.
Proof. intros Hm. unfold drop_result. apply wp_bind. eapply wp_mono; [exact Hm|]. intros a s' Hs'. by apply wp_ret. Qed.

Lemma wp_run_call c s : vinv s [] → enabled c s → wp (run_call c) (λ _ s', vinv s' []) s.
Proof using Hscan Lawful0.
  intros I He. destruct c; simpl in He; simpl run_call; apply wp_drop.
  - destruct He as (Hl & HD & Hf). eapply wp_mono; [by eapply (wp_mount table)|]. by intros ? ? [? ?].
  - eapply wp_mono; [by eapply (wp_umount table)|]. by intros ? ? [? ?].
  - eapply wp_mono; [by apply (wp_open table owned pzero vfs_mount_secondary WI DO FO)|]. by intros ? ? [? ?].
  - destruct He as [Hi Hl]. eapply wp_mono; [apply (wp_with_file table owned pzero WI DO FO); [done|done|]|by intros ? ? [? ?]].
    intros n op d f w E HW HD HF. by eapply (lw_read (table := table)).
  - destruct He as (Hi & Hb & Hl). eapply wp_mono; [apply (wp_with_file table owned pzero WI DO FO); [done|done|]|by intros ? ? [? ?]].
    intros n op d f w E HW HD HF. by eapply (lw_write (table := table)).
  - destruct He as [Hi Hl]. eapply wp_mono; [apply (wp_with_file table owned pzero WI DO FO); [done|done|]|by intros ? ? [? ?]].
    intros n op d f w E HW HD HF. by eapply (lw_seek (table := table)).
  - destruct He as [Hi Hl]. eapply wp_mono; [apply (wp_with_file table owned pzero WI DO FO); [done|done|]|by intros ? ? [? ?]].
    intros n op d f w E HW HD HF. by eapply (lw_truncate (table := table)).
  - rewrite <-(vi_pool _ _ _ _ _ _ _ _ I) in He. apply lookup_lt_is_Some_2 in He as [f Hf].
    unfold vfs_size, slot. apply wp_bind. eapply wp_lift_opt; [exact Hf|]. by apply wp_ret.
  - eapply wp_mono; [by apply (wp_close table owned pzero WI DO FO)|]. by intros ? ? [? ?].
  - eapply wp_mono; [by apply (wp_with_mount table owned pzero vfs_mount_secondary WI DO FO); [..|intros o Ho; apply Ho|
      intros n op d rel w E HW HD Hr; by apply (lw_readdir (table := table) n)]|]. by intros ? ? [? ?].
  - eapply wp_mono; [by apply (wp_with_mount table owned pzero vfs_mount_secondary WI DO FO); [..|intros o Ho; apply Ho|
      intros n op d rel w E HW HD Hr; by apply (lw_stat (table := table) n)]|]. by intros ? ? [? ?].
  - destruct He as [Hp Ht].
    eapply wp_mono; [by apply (wp_with_mount table owned pzero vfs_mount_secondary WI DO FO); [..|intros o Ho; apply Ho|
      intros n op d rel w E HW HD Hr; by apply (lw_create (table := table) n)]|]. by intros ? ? [? ?].
  - eapply wp_mono; [by apply (wp_with_mount table owned pzero vfs_mount_secondary WI DO FO); [..|intros o Ho; apply Ho|
      intros n op d rel w E HW HD Hr; by apply (lw_mkdir (table := table) n)]|]. by intros ? ? [? ?].
  - eapply wp_mono; [by apply (wp_with_mount table owned pzero vfs_mount_secondary WI DO FO); [..|intros o Ho; apply Ho|
      intros n op d rel w E HW HD Hr; by apply (lw_unlink (table := table) n)]|]. by intros ? ? [? ?].
  - destruct He as [Ho Hn]. eapply wp_mono; [by apply (wp_rename table owned pzero vfs_mount_secondary WI DO FO)|]. by intros ? ? [? ?].
Qed.

Lemma vinv_reach s : reach s → vinv s [].
Proof using Hscan Lawful0.
  induction 1 as [w bd HW|s c s' _ IH He Hc]; [by apply vinv_boot|].
  pose proof (wp_run_call c s IH He) as Hw. unfold wp in Hw. rewrite Hc in Hw. exact Hw.
Qed.

(** ** Looking up a path *)

(** A mount point covers a path: it is a prefix that ends where a component
    of the path ends. *)
Definition covers (mp path : list Z) : Prop :=
  ∃ rest, path = mp ++ rest ∧ (rest = [] ∨ head rest = Some slash ∨ last mp = Some slash).

Lemma common_spec a b : ∃ p x y, a = p ++ x ∧ b = p ++ y ∧ length p = common a b ∧
  match x, y with u :: _, v :: _ => u ≠ v | _, _ => True end.
Proof.
  revert b. induction a as [|u a IH]; intros b; [by exists [], [], b|]. destruct b as [|v b]; [by exists [], (u :: a), []|].
  simpl. destruct (Z.eqb_spec u v) as [->|Hne]; [|by exists [], (u :: a), (v :: b)].
  destruct (IH b) as (p & x & y & -> & -> & Hp & Hx). exists (v :: p), x, y. split_and!; [done..|simpl; by f_equal|done].
Qed.

Lemma match_len_spec mp path : match_len mp path = Some (length mp) ∧ covers mp path ∨ match_len mp path = None ∧ ¬ covers mp path.
Proof.
  unfold match_len. destruct (common_spec mp path) as (p & x & y & -> & -> & <- & Hx). rewrite !length_app. destruct x as [|u x].
  - rewrite app_nil_r, Nat.add_0_r, bool_decide_eq_true_2 by done. cbn [andb].
    assert ((p ++ y) !! length p = head y) as Eh by (rewrite lookup_app_r, Nat.sub_diag by lia; by destruct y).
    assert (p !! (length p - 1)%nat = last p) as El by (by rewrite last_lookup, Nat.sub_1_r).
    assert (covers p (p ++ y) ↔ y = [] ∨ head y = Some slash ∨ last p = Some slash) as Hc.
    { split; [|by exists y]. intros (r & E & Hr). by apply app_inv_head in E as ->. }
    rewrite Eh, El. destruct (bool_decide_reflect (length p = (length p + length y)%nat)) as [E1|E1]; simpl.
    { left. split; [done|]. apply Hc. left. destruct y; [done|simpl in E1; lia]. }
    destruct (bool_decide_reflect (head y = Some slash)); simpl; [left; split; [done|tauto]|].
    destruct (bool_decide_reflect (last p = Some slash)) as [E3|E3].
    + rewrite bool_decide_eq_true_2; [left; split; [done|tauto]|]. by destruct p.
    + rewrite andb_false_r. right. split; [done|]. intros [->|[?|?]]%Hc; [simpl in E1; lia|done..].
  - rewrite bool_decide_eq_false_2 by (simpl; lia). right. split; [done|]. intros (r & E & _). rewrite <-app_assoc in E.
    apply app_inv_head in E as ->. done.
Qed.

(** Two mount points of one length that cover a path are the same. *)
Lemma covers_length a b path : covers a path → covers b path → length a = length b → a = b.
Proof. intros (x & -> & _) (y & E & _) Hl. by apply app_inj_1 in E as [-> _]. Qed.

Lemma best_mount_spec (h : gmap nat (vfs_mount_obj (FD := FD))) path l b n r :
  best_mount h path l b n = Some r →
  (r = (b, n) ∨ ∃ m, r.1 = Some m.1 ∧ m.1 ∈ l ∧ h !! m.1 = Some m.2 ∧ covers (mountpoint m.2) path ∧
     r.2 = length (mountpoint m.2) ∧ (n < r.2)%nat) ∧ (n ≤ r.2)%nat ∧
  (∀ id m, id ∈ l → h !! id = Some m → covers (mountpoint m) path → (length (mountpoint m) ≤ r.2)%nat).
Proof.
  revert b n. induction l as [|x l IH]; intros b n Hr; cbn [best_mount] in Hr.
  { injection Hr as <-. split; [by left|]. split; [done|]. by intros id m ?%not_elem_of_nil. }
  destruct (h !! x) as [m|] eqn:Hm; [|done]. cbn [mbind option_bind] in Hr.
  destruct (match_len_spec (mountpoint m) path) as [[E Hc]|[E Hc]]; rewrite E in Hr; [case_bool_decide as Hlt|].
  - destruct (IH _ _ Hr) as (H1 & H2 & H3). split; [|split; [lia|]].
    + right. destruct H1 as [->|(m' & E1 & E2 & E3 & E4 & E5 & E6)].
      * exists (x, m). split_and!; [done|by left|done..].
      * exists m'. split_and!; [done|by right|done..|lia].
    + intros id m' [->|Hin]%elem_of_cons Hm' Hc'; [|by eapply H3]. assert (m' = m) as -> by congruence. lia.
  - destruct (IH _ _ Hr) as (H1 & H2 & H3). split; [|split; [lia|]].
    + destruct H1 as [->|(m' & E1 & E2 & E3 & E4)]; [by left|]. right. exists m'. split_and!; [done|by right|done|apply E4..].
    + intros id m' [->|Hin]%elem_of_cons Hm' Hc'; [|by eapply H3]. assert (m' = m) as -> by congruence. lia.
  - destruct (IH _ _ Hr) as (H1 & H2 & H3). split; [|split; [lia|]].
    + destruct H1 as [->|(m' & E1 & E2 & E3 & E4)]; [by left|]. right. exists m'. split_and!; [done|by right|done|apply E4..].
    + intros id m' [->|Hin]%elem_of_cons Hm' Hc'; [|by eapply H3]. assert (m' = m) as -> by congruence. done.
Qed.

(** ** Counting the references *)

Lemma files_on_file (l : list (vfs_file (P := P))) id : files_on l id ≠ 0 →
  ∃ i f, l !! i = Some f ∧ f_used f = true ∧ f_mount f = Some id.
Proof.
  induction l as [|f l IH]; intros Hl; [done|]. rewrite files_on_cons in Hl. destruct (on_id id f) eqn:E.
  - unfold on_id in E. apply andb_true_iff in E as [Hu Hd]. apply bool_decide_eq_true in Hd. by exists 0%nat, f.
  - destruct IH as (i & g & Hi & Hg); [simpl in Hl; lia|]. by exists (S i), g.
Qed.

(** ** Unmounting under open files *)

(** A call gives the same result and does the same to files and devices in
    both states. *)
Definition agrees {A} (m : M vfs A) s s' : Prop :=
  ∀ a t, m s = Some (a, t) → ∃ t', m s' = Some (a, t') ∧ pool t' = pool t ∧ world t' = world t.

Lemma with_file_agrees {X A} i (sel : fs_ops → option X) (k : X → P * Z → M W (A * (P * Z))) err s s' :
  pool s' = pool s → world s' = world s →
  (∀ f id m, pool s !! i = Some f → f_mount f = Some id → heap s !! id = Some m → ∃ m', heap s' !! id = Some m' ∧ ops m' = ops m) →
  agrees (with_file table i sel k err) s s'.
Proof.
  intros Hp Hw Hh a t E. unfold with_file, slot, deref, lift_opt, mbind, M_bind in *. rewrite Hp.
  destruct (pool s !! i) as [f|] eqn:Hf; [|done]. simpl in *. destruct (f_mount f) as [id|] eqn:Em.
  2:{ injection E as <- <-. by exists s'. }
  destruct (heap s !! id) as [m|] eqn:Hm; [|done]. destruct (Hh f id m eq_refl Em Hm) as (m' & -> & ->). simpl in *.
  destruct (sel (table (ops m))) as [op|]; [|injection E as <- <-; by exists s'].
  unfold on_world in *. rewrite Hw. destruct (k op (f_file f) (world s)) as [[r w]|]; [|done]. simpl in *.
  unfold set_slot, modify in *. simpl in *. injection E as <- <-. eexists. split; [done|]. simpl. by rewrite Hp.
Qed.

Lemma umount_keeps s mp b s' : vinv s [] → vfs_umount owned mp s = Some (b, s') →
  pool s' = pool s ∧ world s' = world s ∧ unmounted mp s' ∧
  ∀ i f id m, pool s !! i = Some f → f_mount f = Some id → heap s !! id = Some m → ∃ m', heap s' !! id = Some m' ∧ ops m' = ops m.
Proof.
  intros I E. pose proof (wp_umount table owned pzero WI DO FO mp s [] I) as Hw. unfold wp in Hw. rewrite E in Hw.
  destruct Hw as (_ & Hp & _ & Hu & _). split; [done|].
  destruct (umount_eq table owned pzero WI DO FO mp s [] I) as [[E' _]|(x & m0 & l1 & l2 & Hl & Hm0 & Hmp & E')]; rewrite E' in E; injection E as <- <-.
  { split; [done|]. split; [done|]. intros i f id m _ _ Hm. by exists m. }
  split; [unfold umount_state; by destruct (_ =? 0)|]. split; [done|]. intros i f id m Hf Hmf Hm.
  pose proof (vi_files _ _ _ _ _ _ _ _ I i f Hf) as Hok. unfold file_ok in Hok.
  destruct (f_used f) eqn:Hused; [|subst f; done]. unfold umount_state. destruct (Z.eqb_spec (open_refs m0) 0) as [E0|E0]; simpl.
  - exists m. split; [|done]. rewrite lookup_delete_ne; [done|]. intros ->. assert (m0 = m) as -> by congruence.
    pose proof (vi_refs _ _ _ _ _ _ _ _ I id m Hm) as [Hr _].
    pose proof (files_on_pos (pool s) id i f Hf) as Hpos. unfold on_id in Hpos.
    rewrite Hused, Hmf, bool_decide_eq_true_2 in Hpos by done. specialize (Hpos eq_refl). pose proof (cnt_nonneg [] id). lia.
  - destruct (decide (id = x)) as [->|Hne]; [|exists m; by rewrite lookup_insert_ne].
    rewrite lookup_insert_eq. exists (with_active false m0). split; [done|]. simpl. congruence.
Qed.
End main.

(** ** A small system *)

(** The volume of the FAT32 theorems; disks are mounted from it when a lost
    mount is recovered. *)
Definition demo_table : nat → fs_ops (W := ramdisk) (FD := fat_data) (P := fat_private) := λ _, fat32_ops.
Definition demo_owned (k : nat) : bool := (k =? 1)%nat.
Definition demo_oom (n : nat) : bool := false.
Definition demo_scan (mp : list Z) : M (vfs (W := ramdisk) (FD := fat_data) (P := fat_private)) unit :=
  vfs_mount demo_owned demo_oom mp 0 (Some (0%nat, demo_fs));; mret tt.

#[local] Instance demo_lawful : Lawful demo_table None (fat_world 512) (fat_data_ok (D := ramdisk) 512) fat_open_ok :=
  fat32_lawful 512.

Abbreviation demo_inv := (vinv demo_table demo_owned None (fat_world 512) (fat_data_ok (D := ramdisk) 512) fat_open_ok).
Abbreviation demo_run := (run_call demo_table demo_owned demo_oom None demo_scan).
Abbreviation demo_enabled := (enabled demo_owned (fat_data_ok (D := ramdisk) 512)).
Abbreviation demo_reach := (reach demo_table demo_owned demo_oom None demo_scan (fat_world 512) (fat_data_ok (D := ramdisk) 512)).

Lemma demo_bd_ok : fat_world 512 demo.
Proof. split; [|done]. intros k l. apply demo_sector. Qed.

Lemma demo_mounted : mounted demo demo_fs.
Proof. by split. Qed.

Lemma demo_data_ok k a : fat_data_ok (D := ramdisk) 512 k (Some (a, demo_fs)).
Proof. exists a, demo_fs. split; [done|]. exists demo. split; [done|apply demo_mounted]. Qed.

Lemma demo_scan_ok : scan_ok demo_table demo_owned None demo_scan (fat_world 512) (fat_data_ok (D := ramdisk) 512) fat_open_ok.
Proof.
  intros s pend I. unfold demo_scan. apply wp_bind. eapply wp_mono; [apply (wp_mount demo_table demo_owned None (fat_world 512) (fat_data_ok (D := ramdisk) 512) fat_open_ok); [exact I|done|apply demo_data_ok|vm_compute; lia]|].
  intros b s' Hs. by apply wp_ret.
Qed.

(** The state after a call, for calls that return. *)
Definition after (s : vfs (W := ramdisk) (FD := fat_data) (P := fat_private)) (c : call (FD := fat_data)) :=
  match demo_run c s with Some (_, s') => s' | None => s end.

Lemma reach_after s c : demo_reach s → demo_enabled c s →
  match demo_run c s with Some _ => true | None => false end = true → demo_reach (after s c).
Proof.
  intros Hs He Hc. eapply reach_call; [exact Hs|exact He|]. unfold after. by destruct (demo_run c s) as [[[] s']|].
Qed.

(** A volume is mounted at the root, its file is opened, and the volume is
    unmounted. *)
Definition demo_path : list Z := [47; 65].
Definition demo_s0 := vfs_boot (FD := fat_data) (P := fat_private) None demo true.
Definition demo_s1 := after demo_s0 (CMount [47] 1 (Some (1%nat, demo_fs))).
Definition demo_s2 := after demo_s1 (COpen demo_path).
Definition demo_s3 := after demo_s2 (CUmount [47]).

Lemma demo_reach1 : demo_reach demo_s1.
Proof.
  apply reach_after; [apply reach_boot, demo_bd_ok| |vm_compute; reflexivity].
  split; [vm_compute; lia|]. split; [apply demo_data_ok|]. intros _ x [= <-]. split; [by intros ?%not_elem_of_nil|]. by intros id m Hm.
Qed.
Lemma demo_reach2 : demo_reach demo_s2.
Proof. apply reach_after; [apply demo_reach1|repeat constructor; lia|vm_compute; reflexivity]. Qed.
Lemma demo_reach3 : demo_reach demo_s3.
Proof. apply reach_after; [apply demo_reach2|done|vm_compute; reflexivity]. Qed.

(** ** Theorems *)

(** C10: Whatever sequence of calls has run since boot, with file systems that
    keep their promises: every further call returns, on handles that are open,
    closed or reused alike; the mount of every open file is still there, also
    when it was unmounted meanwhile, with data that was not freed; and no data
    is freed twice. *)
Theorem vfs_safe {W FD P} table owned oom (pzero : P) scan (WI : W → Prop) (DO : nat → option FD → Prop) FO
    `{!Lawful table pzero WI DO FO} s :
  scan_ok table owned pzero scan WI DO FO → reach table owned oom pzero scan WI DO s →
  (∀ c, enabled owned DO c s → ∃ s', run_call table owned oom pzero scan c s = Some (tt, s')) ∧
  (∀ i f, pool s !! i = Some f → f_used f = true →
     ∃ id m, f_mount f = Some id ∧ heap s !! id = Some m ∧ (owned (ops m) = true → ∀ d, fs_data m = Some d → d ∉ released s)) ∧
  NoDup (released s).
Proof.
  intros Hscan Hs. pose proof (vinv_reach table owned oom pzero scan WI DO FO Hscan s Hs) as I. split; [|split].
  - intros c Hc. pose proof (wp_run_call table owned oom pzero scan WI DO FO Hscan c s I Hc) as Hw. unfold wp in Hw.
    destruct (run_call _ _ _ _ _ c s) as [[[] s']|]; [by exists s'|done].
  - intros i f Hi Hu. pose proof (vi_files _ _ _ _ _ _ _ _ I i f Hi) as Hok. unfold file_ok in Hok. rewrite Hu in Hok.
    destruct Hok as (id & m & Em & Hm & _). exists id, m. split; [done|]. split; [done|]. intros Ho d Hd.
    by eapply (vi_unreleased _ _ _ _ _ _ _ _ I).
  - apply I.
Qed.

Lemma vfs_safe_witness :
  g_mounts demo_s3 = [] ∧
  (∀ c, demo_enabled c demo_s3 → ∃ s', demo_run c demo_s3 = Some (tt, s')) ∧
  (∀ i f, pool demo_s3 !! i = Some f → f_used f = true →
     ∃ id m, f_mount f = Some id ∧ heap demo_s3 !! id = Some m ∧
       (demo_owned (ops m) = true → ∀ d, fs_data m = Some d → d ∉ released demo_s3)) ∧
  NoDup (released demo_s3).
Proof.
  split; [vm_compute; reflexivity|].
  apply (vfs_safe demo_table demo_owned demo_oom None demo_scan (fat_world 512) (fat_data_ok 512) fat_open_ok demo_s3 demo_scan_ok demo_reach3).
Defined.

(** C14: When the tables of operations are complete, the count of a mount is
    exactly the number of open files on it, and a mount that was unmounted
    stays only as long as a file is open on it: nothing is leaked. *)
Theorem vfs_no_leak {W FD P} table owned oom (pzero : P) scan (WI : W → Prop) (DO : nat → option FD → Prop) FO
    `{!Lawful table pzero WI DO FO} s :
  (∀ k, complete (table k)) → scan_ok table owned pzero scan WI DO FO → reach table owned oom pzero scan WI DO s →
  ∀ id m, heap s !! id = Some m →
    open_refs m = files_on (pool s) id ∧
    (id ∉ g_mounts s → ∃ i f, pool s !! i = Some f ∧ f_used f = true ∧ f_mount f = Some id).
Proof.
  intros Hc Hscan Hs id m Hm. pose proof (vinv_reach table owned oom pzero scan WI DO FO Hscan s Hs) as I.
  pose proof (vi_exact _ _ _ _ _ _ _ _ I id m Hc Hm) as He. rewrite Z.add_0_r in He. split; [done|]. intros Hn.
  apply files_on_file. rewrite He. apply (vi_gone _ _ _ _ _ _ _ _ I id m Hm). destruct (active m) eqn:Ea; [|done].
  exfalso. apply Hn, (vi_live _ _ _ _ _ _ _ _ I). by exists m.
Qed.

Lemma demo_complete k : complete (demo_table k).
Proof. by split_and!. Qed.

Lemma vfs_no_leak_witness : stdpp.base.size (heap demo_s3) = 1%nat ∧ ∀ id m, heap demo_s3 !! id = Some m →
    open_refs m = files_on (pool demo_s3) id ∧
    (id ∉ g_mounts demo_s3 → ∃ i f, pool demo_s3 !! i = Some f ∧ f_used f = true ∧ f_mount f = Some id).
Proof.
  split; [vm_compute; reflexivity|].
  apply (vfs_no_leak demo_table demo_owned demo_oom None demo_scan (fat_world 512) (fat_data_ok 512) fat_open_ok demo_s3
    demo_complete demo_scan_ok demo_reach3).
Defined.

(** The lookup of a path finds the mount whose mount point is the longest
    one that covers the path and ends at the end of a component, and there is
    only one such mount; it finds none only when no mount point covers it. *)
Theorem vfs_lookup_longest {W FD P} table owned oom (pzero : P) scan (WI : W → Prop) (DO : nat → option FD → Prop) FO
    `{!Lawful table pzero WI DO FO} s path :
  scan_ok table owned pzero scan WI DO FO → reach table owned oom pzero scan WI DO s →
  ∃ best n, find_mount_locked path s = Some ((best, n), s) ∧
  match best with
  | Some id => ∃ m, id ∈ g_mounts s ∧ heap s !! id = Some m ∧ covers (mountpoint m) path ∧ n = length (mountpoint m) ∧
      ∀ id' m', id' ∈ g_mounts s → heap s !! id' = Some m' → covers (mountpoint m') path →
        (length (mountpoint m') ≤ n)%nat ∧ (length (mountpoint m') = n → id' = id)
  | None => ∀ id m, id ∈ g_mounts s → heap s !! id = Some m → covers (mountpoint m) path → mountpoint m = []
  end.
Proof.
  intros Hscan Hs. pose proof (vinv_reach table owned oom pzero scan WI DO FO Hscan s Hs) as I.
  destruct (best_mount_total _ _ _ _ _ _ s [] path I) as ([best n] & Hr & _). exists best, n.
  split; [unfold find_mount_locked, lift_opt; by rewrite Hr|].
  destruct (best_mount_spec _ _ _ _ _ _ Hr) as (H1 & _ & H3). simpl in H1, H3. destruct best as [id|].
  - destruct H1 as [|([x m] & E1 & Hin & Hm & Hc & -> & _)]; [done|]. simpl in *. injection E1 as ->.
    exists m. split_and!; [done..|]. intros id' m' Hin' Hm' Hc'. split; [by eapply H3|]. intros El.
    apply (vi_names _ _ _ _ _ _ _ _ I id' x m' m); [done..|]. by eapply covers_length.
  - destruct H1 as [[= ->]|(? & ? & _)]; [|done]. intros id m Hin Hm Hc. apply nil_length_inv.
    pose proof (H3 id m Hin Hm Hc). lia.
Qed.

Lemma vfs_lookup_longest_witness : ∃ best n, find_mount_locked demo_path demo_s1 = Some ((best, n), demo_s1) ∧
  match best with
  | Some id => ∃ m, id ∈ g_mounts demo_s1 ∧ heap demo_s1 !! id = Some m ∧ covers (mountpoint m) demo_path ∧ n = length (mountpoint m) ∧
      ∀ id' m', id' ∈ g_mounts demo_s1 → heap demo_s1 !! id' = Some m' → covers (mountpoint m') demo_path →
        (length (mountpoint m') ≤ n)%nat ∧ (length (mountpoint m') = n → id' = id)
  | None => ∀ id m, id ∈ g_mounts demo_s1 → heap demo_s1 !! id = Some m → covers (mountpoint m) demo_path → mountpoint m = []
  end.
Proof.
  apply (vfs_lookup_longest demo_table demo_owned demo_oom None demo_scan (fat_world 512) (fat_data_ok 512) fat_open_ok demo_s1 demo_path
    demo_scan_ok demo_reach1).
Defined.

(** C13: Unmounting takes the mount point away at once, and does not disturb
    open files: reading, writing, seeking and truncating a file give the same
    results and the same files and devices as if it had not happened. *)
Theorem vfs_umount_keeps_files {W FD P} table owned oom (pzero : P) scan (WI : W → Prop) (DO : nat → option FD → Prop) FO
    `{!Lawful table pzero WI DO FO} s mp b s' i :
  scan_ok table owned pzero scan WI DO FO → reach table owned oom pzero scan WI DO s → vfs_umount owned mp s = Some (b, s') →
  unmounted mp s' ∧ pool s' = pool s ∧ world s' = world s ∧
  (∀ len, agrees (vfs_read table i len) s s') ∧ (∀ buf, agrees (vfs_write table i buf) s s') ∧
  (∀ off wh, agrees (vfs_seek table i off wh) s s') ∧ (∀ n, agrees (vfs_truncate table i n) s s').
Proof.
  intros Hscan Hs E. pose proof (vinv_reach table owned oom pzero scan WI DO FO Hscan s Hs) as I.
  destruct (umount_keeps table owned pzero WI DO FO s mp b s' I E) as (Hp & Hw & Hu & Hh). split_and!; [done..| | | |];
    intros; apply with_file_agrees; try done; intros f id m; apply Hh.
Qed.

Lemma vfs_umount_keeps_files_witness :
  (fst <$> vfs_read demo_table 0 9 demo_s3) = Some (5, [1; 2; 3; 4; 5]) ∧
  unmounted [47] demo_s3 ∧ pool demo_s3 = pool demo_s2 ∧ world demo_s3 = world demo_s2 ∧
  (∀ len, agrees (vfs_read demo_table 0 len) demo_s2 demo_s3) ∧ (∀ buf, agrees (vfs_write demo_table 0 buf) demo_s2 demo_s3) ∧
  (∀ off wh, agrees (vfs_seek demo_table 0 off wh) demo_s2 demo_s3) ∧ (∀ n, agrees (vfs_truncate demo_table 0 n) demo_s2 demo_s3).
Proof.
  split; [vm_compute; reflexivity|].
  apply (vfs_umount_keeps_files demo_table demo_owned demo_oom None demo_scan (fat_world 512) (fat_data_ok 512) fat_open_ok demo_s2 [47] true demo_s3 0
    demo_scan_ok demo_reach2). vm_compute. reflexivity.
Defined.


(** The volume mounted at the root, with every slot free. *)
Definition demo_mount : vfs_mount_obj (FD := fat_data) := Mount [47] 1 (Some (1%nat, demo_fs)) 0 true.
Definition demo_name_path : list Z := [47; 98; 46; 99].

Lemma demo_resolves : resolves demo_s1 demo_name_path 0 demo_mount [98; 46; 99].
Proof.
  split; [exists 1%nat; split; vm_compute; reflexivity|vm_compute; reflexivity|done|simpl; lia].
Qed.



(** A directory of random entries: the root cluster of the demo volume is its
    own successor. *)
Definition loop_image : ramdisk :=
  Ramdisk 512 8 (<[1 := pad (le_bytes 4 0x0FFFFFF8 ++ le_bytes 4 0x0FFFFFFF ++ le_bytes 4 2)]>
    (<[3 := concat (replicate 32 (replicate 16 0x21))]> (rd_sectors demo))).

Lemma loop_world : fat_world 512 loop_image.
Proof.
  split; [|done]. intros k l Hk. unfold loop_image in Hk. cbn [rd_sectors rd_sector_size] in *.
  apply lookup_insert_Some in Hk as [[_ <-]|[_ Hk]]; [split; [done|by apply bytesb_bytes]|].
  apply lookup_insert_Some in Hk as [[_ <-]|[_ Hk]]; [split; [done|by apply bytesb_bytes]|]. by apply (demo_sector k).
Qed.

Definition loop_boot := vfs_boot (FD := fat_data) (P := fat_private) None loop_image true.
Definition loop_s1 := after loop_boot (CMount [47] 1 (Some (1%nat, demo_fs))).

Lemma loop_reach : demo_reach loop_s1.
Proof.
  apply reach_after; [apply reach_boot, loop_world| |vm_compute; reflexivity].
  split; [vm_compute; lia|]. split; [apply demo_data_ok|]. intros _ x [= <-]. split; [by intros ?%not_elem_of_nil|]. by intros id m Hm.
Qed.


(** ** Behaviour worth knowing *)

(** The table of a read-only file system has no [rename]. *)
Definition no_rename_ops : fs_ops (W := ramdisk) (FD := fat_data) (P := fat_private) :=
  FsOps (Some fat32_open_vfs) (Some fat32_read_vfs) None (Some fat32_close_vfs) (Some fat32_readdir_vfs)
    (Some fat32_stat_vfs) None None None None None None.

(** A call that finds no entry in the table returns with the reference it
    took: the mount is never freed. *)
Example vfs_null_entry_leak :
  (λ r, (r.1, open_refs <$> heap r.2 !! 0%nat, g_mounts r.2)) <$>
    (vfs_mount demo_owned demo_oom [47] 1 (Some (1%nat, demo_fs));;
     rc ← vfs_rename (λ _, no_rename_ops) demo_owned demo_scan [47; 65] [47; 66];
     vfs_umount demo_owned [47];; mret rc) (vfs_boot None demo true) = Some (-1, Some 1, []).
Proof. vm_compute. reflexivity. Qed.

(** A mount point of 64 characters is stored cut and compared in full: it is
    mounted twice. *)
Example vfs_long_mountpoint_twice :
  (λ r, length (g_mounts r.2)) <$>
    (vfs_mount demo_owned demo_oom (47 :: replicate 63 65) 0 (Some (1%nat, demo_fs));;
     vfs_mount demo_owned demo_oom (47 :: replicate 63 65) 0 (Some (1%nat, demo_fs)))
      (vfs_boot (W := ramdisk) (P := fat_private) None demo true) = Some 2%nat.
Proof. vm_compute. reflexivity. Qed.

(** [vfs_size] after a write is the size when the file was opened. *)
Example vfs_size_stale :
  fst <$> (i ← vfs_open demo_table demo_owned None demo_scan demo_path;
           vfs_seek demo_table (default 0%nat i) 5 0;;
           n ← vfs_write demo_table (default 0%nat i) [6; 7; 8];
           m ← vfs_size (default 0%nat i); mret (n, m)) demo_s1 = Some (3, 5).
Proof. vm_compute. reflexivity. Qed.

(** [vfs_create] of a directory ([TOTFS_TYPE_DIR], 2) makes a file on FAT32. *)
Example vfs_create_dir_type :
  fst <$> (vfs_create demo_table demo_owned demo_scan [47; 68] 2;;
           r ← vfs_stat_path demo_table demo_owned demo_scan [47; 68] (VfsStat 0 0); mret (r.1, st_attr r.2)) demo_s1 = Some (0, ATTR_ARCHIVE).
Proof. vm_compute. reflexivity. Qed.
