(* ===== verification/VmRegion.v ===== *)
(** * User mappings: the table of regions and the calls on it

    Translation of the region code of [src/src/kernel/proc/syscall.c]
    ([vm_region_alloc_slot] to [syscall_vm_process_exit]) and of the cases
    [SYS_MMAP], [SYS_MUNMAP] and [SYS_MPROTECT], over an interface to the
    page tables, the page allocator and the kernel heap ([UserSpace]).  The
    calling process exists and has its shared state, so the null tests of
    both are left out; trace output is not modelled. *)

From S2P Require Import Prelude Loops PageAlloc Vmm.

(** ** Data *)

Definition PROC_VMREG_MAX : Z := 2048.
Definition FRY_VM_SHARED_MAX : Z := 128.
Definition VM_USER_BASE : Z := 0x0000100000000000.
Definition VM_USER_LIMIT : Z := 0x00007FFF00000000.
Definition VM_BACKING_NONE : Z := 2 ^ 32 - 1.

Definition FRY_PROT_READ : Z := 0x01.
Definition FRY_PROT_WRITE : Z := 0x02.
Definition FRY_PROT_EXEC : Z := 0x04.
Definition FRY_MAP_SHARED : Z := 0x01.
Definition FRY_MAP_PRIVATE : Z := 0x02.
Definition FRY_MAP_FIXED : Z := 0x10.
Definition FRY_MAP_ANON : Z := 0x20.
Definition FRY_MAP_FILE : Z := 0x40.
Definition FRY_MAP_RESERVE : Z := 0x80.
Definition FRY_MAP_GUARD : Z := 0x100.

Definition EINVAL : Z := 22.
Definition ENOMEM : Z := 12.

Inductive fry_vm_region_kind :=
  | FRY_VM_REGION_NONE
  | FRY_VM_REGION_ANON_PRIVATE
  | FRY_VM_REGION_ANON_SHARED
  | FRY_VM_REGION_FILE_PRIVATE
  | FRY_VM_REGION_GUARD.
#[global] Instance kind_eq_dec : EqDecision fry_vm_region_kind.
Proof. solve_decision. Defined.

Record fry_vm_region := VmRegion {
  r_base : Z; r_length : Z; r_prot : Z; r_flags : Z;
  r_backing_id : Z; r_backing_page_start : Z;
  r_kind : fry_vm_region_kind; r_used : bool; r_committed : bool
}.

(** [pages] and [page_refs] are heap arrays: the pointer, and the elements. *)
Record vm_shared_object := SharedObject {
  so_pages_ptr : Z; so_pages : list Z;
  so_refs_ptr : Z; so_page_refs : list Z;
  so_page_count : Z; so_used : bool
}.

(** What the region code calls: [vmm_virt_to_phys_user], [vmm_map_user],
    [vmm_unmap_user], [vmm_protect_user], [pmm_alloc_page], [pmm_free_page],
    the loop of [vm_zero_page] on the physical map, [kmalloc] and [kfree]. *)
Class UserSpace (S : Type) := {
  us_virt_to_phys : Z → Z → ME S Z;
  us_map_user : Z → Z → Z → Z → ME S unit;
  us_unmap_user : Z → Z → ME S unit;
  us_protect_user : Z → Z → Z → ME S Z;
  us_alloc_page : ME S Z;
  us_free_page : Z → ME S unit;
  us_zero_page : Z → ME S unit;
  us_kmalloc : Z → ME S Z;
  us_kfree : Z → ME S unit
}.

(** The region table of the process, the shared objects, and the machine. *)
Record vm (S : Type) := Vm {
  vm_regions : list fry_vm_region;
  vm_shared_objects : list vm_shared_object;
  vm_machine : S
}.
Arguments Vm {S} _ _ _.
Arguments vm_regions {S} _.
Arguments vm_shared_objects {S} _.
Arguments vm_machine {S} _.

(** ** Regions *)

Definition vm_region_clear : fry_vm_region :=
  VmRegion 0 0 0 0 VM_BACKING_NONE 0 FRY_VM_REGION_NONE false false.

Definition vm_region_fill (base length prot flags : Z) (kind : fry_vm_region_kind)
    (backing_id backing_page_start : Z) (committed : bool) : fry_vm_region :=
  VmRegion base length prot flags backing_id backing_page_start kind true committed.

Definition vm_region_page_start_at (r : fry_vm_region) (base : Z) : Z :=
  if base <? r_base r then 0
  else u32 (r_backing_page_start r + u32 ((base - r_base r) / PAGE_SIZE)).

Definition vm_region_fill_span_from_parent (src : fry_vm_region)
    (base length prot flags : Z) (committed : bool) : fry_vm_region :=
  vm_region_fill base length prot flags (r_kind src) (r_backing_id src)
    (vm_region_page_start_at src base) committed.

Definition r_end (r : fry_vm_region) : Z := u64 (r_base r + r_length r).

Definition vm_regions_can_merge (a b : fry_vm_region) : bool :=
  r_used a && r_used b &&
  (r_end a =? r_base b) &&
  (r_prot a =? r_prot b) && (r_flags a =? r_flags b) &&
  bool_decide (r_kind a = r_kind b) && eqb (r_committed a) (r_committed b) &&
  (negb (bool_decide (r_kind a = FRY_VM_REGION_ANON_SHARED)) ||
   (r_backing_id a =? r_backing_id b) &&
   (u32 (r_backing_page_start a + u32 (r_length a / PAGE_SIZE)) =? r_backing_page_start b)).

(** The first index from [i] on whose element satisfies [f]. *)
Fixpoint find_from {A} (f : nat → A → bool) (i : nat) (l : list A) : option nat :=
  match l with
  | [] => None
  | x :: l => if f i x then Some i else find_from f (S i) l
  end.

Definition vm_region_alloc_slot (l : list fry_vm_region) : option nat :=
  find_from (λ _ r, negb (r_used r)) 0 l.

(** [slot2] is null when [two] is false. *)
Fixpoint alloc_slots_from (two : bool) (i : nat) (l : list fry_vm_region) (needed : Z)
    (slot1 slot2 : option nat) : option (option nat * option nat) :=
  match l with
  | [] => None
  | r :: l =>
      if r_used r then alloc_slots_from two (S i) l needed slot1 slot2
      else
        let '(needed, slot1, slot2) :=
          match slot1, slot2 with
          | None, _ => (needed - 1, Some i, slot2)
          | _, None => if two then (needed - 1, slot1, Some i) else (needed, slot1, slot2)
          | _, _ => (needed, slot1, slot2)
          end in
        if needed =? 0 then Some (slot1, slot2)
        else alloc_slots_from two (S i) l needed slot1 slot2
  end.
Definition vm_region_alloc_slots (l : list fry_vm_region) (needed : Z) (two : bool)
    : option (option nat * option nat) :=
  if needed <=? 0 then Some (None, None) else alloc_slots_from two 0 l needed None None.

(** The pair of neighbours [a], [b] of the two regions, in address order. *)
Definition mergeable (r r' : fry_vm_region) : bool :=
  if r_base r' <? r_base r then vm_regions_can_merge r' r else vm_regions_can_merge r r'.

(** The loops over [i] and [j]: the first pair that can be merged. *)
Fixpoint merge_find_from (l : list fry_vm_region) (i : nat) (rest : list fry_vm_region)
    : option (nat * nat) :=
  match rest with
  | [] => None
  | r :: rest =>
      match (if r_used r
             then find_from (λ j r', negb (j =? i)%nat && r_used r' && mergeable r r') 0 l
             else None) with
      | Some j => Some (i, j)
      | None => merge_find_from l (S i) rest
      end
  end.

Definition merge_pair (l : list fry_vm_region) (i j : nat) : list fry_vm_region :=
  match l !! i, l !! j with
  | Some r, Some r' =>
      let '(a, ra, b, rb) := if r_base r' <? r_base r then (j, r', i, r) else (i, r, j, r') in
      let ra' := VmRegion (r_base ra) (u64 (r_length ra + r_length rb)) (r_prot ra) (r_flags ra)
                   (r_backing_id ra) (r_backing_page_start ra) (r_kind ra) (r_used ra)
                   (r_committed ra) in
      <[b := vm_region_clear]> (<[a := ra']> l)
  | _, _ => l
  end.

(** [while (merged)]; a merge frees a slot, so one pass per slot is enough. *)
Fixpoint merge_loop (fuel : nat) (l : list fry_vm_region) : option (list fry_vm_region) :=
  match fuel with
  | O => None
  | S fuel =>
      match merge_find_from l 0 l with
      | Some (i, j) => merge_loop fuel (merge_pair l i j)
      | None => Some l
      end
  end.
Definition vm_region_merge_neighbors (l : list fry_vm_region) : option (list fry_vm_region) :=
  merge_loop (S (length l)) l.

Definition vm_region_overlaps (r : fry_vm_region) (base end_ : Z) : bool :=
  r_used r && negb (r_end r <? r_base r) && negb ((end_ <=? r_base r) || (r_end r <=? base)).

Definition vm_any_region_overlap (l : list fry_vm_region) (base length : Z) : bool :=
  if length =? 0 then false
  else if u64 (base + length) <? base then true
  else existsb (λ r, vm_region_overlaps r base (u64 (base + length))) l.

Definition vm_region_find_containing (l : list fry_vm_region) (base length : Z) : option nat :=
  if length =? 0 then None
  else if u64 (base + length) <? base then None
  else find_from (λ _ r, r_used r && negb (r_end r <? r_base r) &&
         (r_base r <=? base) && (u64 (base + length) <=? r_end r)) 0 l.

(** The slot that holds the address [cursor], and the end of its region. *)
Definition covering_slot (l : list fry_vm_region) (cursor : Z) : option nat :=
  find_from (λ _ r, r_used r && negb (r_end r <? r_base r) &&
    negb ((cursor <? r_base r) || (r_end r <=? cursor))) 0 l.

(** [while (cursor < end)]: at most [fuel] slots are collected. *)
Fixpoint collect_slots (fuel : nat) (l : list fry_vm_region) (cursor end_ : Z)
    : option (list nat) :=
  if cursor <? end_ then
    slot ← covering_slot l cursor;
    match fuel with
    | O => None
    | S fuel =>
        r ← l !! slot;
        slots ← collect_slots fuel l (if r_end r <? end_ then r_end r else end_) end_;
        Some (slot :: slots)
    end
  else Some [].
Definition vm_region_collect_covering_slots (l : list fry_vm_region) (base length : Z)
    (max_slots : nat) : option (list nat) :=
  if (max_slots =? 0)%nat || (length =? 0) then None
  else if u64 (base + length) <? base then None
  else collect_slots max_slots l base (u64 (base + length)).

(** ** Protection and flags *)

(** [x & ~m] *)
Definition clear_bits (x m : Z) : Z := Z.land x (u32 (Z.lnot m)).

Definition vm_prot_supported (prot : Z) : bool :=
  if negb (clear_bits prot (Z.lor (Z.lor FRY_PROT_READ FRY_PROT_WRITE) FRY_PROT_EXEC) =? 0)
  then false
  else if prot =? 0 then true
  else if negb (has prot FRY_PROT_READ) then false
  else negb (Z.land prot (Z.lor FRY_PROT_WRITE FRY_PROT_EXEC) =?
             Z.lor FRY_PROT_WRITE FRY_PROT_EXEC).

Definition MAP_KNOWN : Z :=
  Z.lor (Z.lor (Z.lor (Z.lor (Z.lor (Z.lor FRY_MAP_SHARED FRY_MAP_PRIVATE) FRY_MAP_FIXED)
    FRY_MAP_ANON) FRY_MAP_FILE) FRY_MAP_RESERVE) FRY_MAP_GUARD.

Definition vm_flags_supported (flags : Z) : bool :=
  let both a b := Z.land flags (Z.lor a b) =? Z.lor a b in
  let none a b := Z.land flags (Z.lor a b) =? 0 in
  if negb (clear_bits flags MAP_KNOWN =? 0) then false
  else if has flags FRY_MAP_GUARD then
    if negb (clear_bits flags (Z.lor (Z.lor (Z.lor FRY_MAP_GUARD FRY_MAP_PRIVATE)
               FRY_MAP_ANON) FRY_MAP_FIXED) =? 0) then false
    else both FRY_MAP_PRIVATE FRY_MAP_ANON
  else if none FRY_MAP_SHARED FRY_MAP_PRIVATE then false
  else if both FRY_MAP_SHARED FRY_MAP_PRIVATE then false
  else if none FRY_MAP_ANON FRY_MAP_FILE then false
  else if both FRY_MAP_ANON FRY_MAP_FILE then false
  else if has flags FRY_MAP_FILE && has flags FRY_MAP_SHARED then false
  else if has flags FRY_MAP_RESERVE && has flags FRY_MAP_FILE then false
  else negb (has flags FRY_MAP_RESERVE && has flags FRY_MAP_SHARED).

Definition vm_prot_to_pte_flags (prot : Z) : Z :=
  let flags := if negb (prot =? 0) then VMM_FLAG_USER else 0 in
  let flags := if has prot FRY_PROT_WRITE then Z.lor flags VMM_FLAG_WRITE else flags in
  if negb (has prot FRY_PROT_EXEC) then Z.lor flags VMM_FLAG_NO_EXECUTE else flags.

(** ** The operations *)

Section vm_ops.
Context {S : Type} `{!UserSpace S} (cr3 : Z).

Definition on_machine {A} (m : ME S A) : ME (vm S) A := λ s,
  match m (vm_machine s) with
  | Some (a, m') => Some (a, Vm (vm_regions s) (vm_shared_objects s) m')
  | None => None
  end.
Definition set_regions (l : list fry_vm_region) (s : vm S) : vm S :=
  Vm l (vm_shared_objects s) (vm_machine s).
Definition set_objects (l : list vm_shared_object) (s : vm S) : vm S :=
  Vm (vm_regions s) l (vm_machine s).

(** [PROC_VMREGS(p)[slot]] and the assignment of a slot. *)
Definition region_at (slot : nat) : ME (vm S) fry_vm_region :=
  run (lift_opt (λ s, vm_regions s !! slot)).
Definition put_region (slot : nat) (r : fry_vm_region) : ME (vm S) unit :=
  run (update_opt (λ s, _ ← vm_regions s !! slot; Some (set_regions (<[slot := r]> (vm_regions s)) s))).
Definition merge_neighbors : ME (vm S) unit :=
  run (update_opt (λ s, l ← vm_region_merge_neighbors (vm_regions s); Some (set_regions l s))).

Definition virt_to_phys (va : Z) : ME (vm S) Z := on_machine (us_virt_to_phys cr3 va).
Definition map_user (va pa flags : Z) : ME (vm S) unit := on_machine (us_map_user cr3 va pa flags).
Definition unmap_user (va : Z) : ME (vm S) unit := on_machine (us_unmap_user cr3 va).
Definition protect_user (va flags : Z) : ME (vm S) Z := on_machine (us_protect_user cr3 va flags).
Definition pmm_alloc_page : ME (vm S) Z := on_machine us_alloc_page.
Definition pmm_free_page (pa : Z) : ME (vm S) unit := on_machine (us_free_page pa).
Definition vm_zero_page (pa : Z) : ME (vm S) unit := on_machine (us_zero_page pa).
Definition kmalloc (n : Z) : ME (vm S) Z := on_machine (us_kmalloc n).
Definition kfree (ptr : Z) : ME (vm S) unit := on_machine (us_kfree ptr).

(** [for (va = base; va < base + length; va += PAGE_SIZE)]; the body also
    receives the number of pages before [va]. *)
Definition page_steps (base length : Z) : Z :=
  (Z.max 0 (u64 (base + length) - base) + (PAGE_SIZE - 1)) / PAGE_SIZE.
Definition for_pages {R} (base length : Z) (body : Z → Z → ME (vm S) (option R))
    : ME (vm S) (option R) :=
  for_er 0 (page_steps base length) (λ i, body i (base + i * PAGE_SIZE)).

Definition vm_range_mapped (base length : Z) : ME (vm S) bool :=
  if length =? 0 then mret false
  else
    r ← for_pages base length (λ _ va,
      pa ← virt_to_phys va; mret (if pa =? 0 then Some false else None));
    mret (default true r).

Definition vm_range_available (base length : Z) : ME (vm S) bool :=
  if (cr3 =? 0) || (length =? 0) then mret false
  else if base <? VM_USER_BASE then mret false
  else if u64 (base + length) <? base then mret false
  else if VM_USER_LIMIT <? u64 (base + length) then mret false
  else
    l ← state vm_regions;
    if vm_any_region_overlap l base length then mret false
    else
      r ← for_pages base length (λ _ va,
        pa ← virt_to_phys va; mret (if negb (pa =? 0) then Some false else None));
      mret (default true r).

Definition vm_find_free_range (length : Z) : ME (vm S) Z :=
  if length =? 0 then mret 0
  else if VM_USER_LIMIT <=? VM_USER_BASE then mret 0
  else if VM_USER_LIMIT - VM_USER_BASE <? length then mret 0
  else
    let max_start := VM_USER_LIMIT - length in
    r ← for_er 0 ((max_start - VM_USER_BASE) / PAGE_SIZE + 1) (λ i,
      let base := VM_USER_BASE + i * PAGE_SIZE in
      ok ← vm_range_available base length;
      mret (if ok : bool then Some base else None));
    mret (default 0 r).

Definition vm_unmap_pages_only (base length : Z) : ME (vm S) unit :=
  for_pages (R := unit) base length (λ _ va,
    pa ← virt_to_phys va;
    if pa =? 0 then mret None else unmap_user va;; mret None);;
  mret tt.

Definition vm_release_private_pages (base length : Z) : ME (vm S) unit :=
  for_pages (R := unit) base length (λ _ va,
    pa ← virt_to_phys va;
    if pa =? 0 then mret None
    else unmap_user va;; pmm_free_page (Z.land pa ADDR_MASK);; mret None);;
  mret tt.

(** [mapped] is [i * PAGE_SIZE] at the iteration of page [i]. *)
Definition vm_commit_private_pages (base length prot : Z) : ME (vm S) Z :=
  if (cr3 =? 0) || (length =? 0) then mret (-1)
  else
    let pte_flags := vm_prot_to_pte_flags prot in
    r ← for_pages base length (λ i va,
      pa ← pmm_alloc_page;
      if pa =? 0 then
        vm_release_private_pages base (i * PAGE_SIZE);; mret (Some (-1))
      else
        map_user va pa pte_flags;;
        verify ← virt_to_phys va;
        if negb (Z.land verify ADDR_MASK =? pa) then
          unmap_user va;;
          pmm_free_page pa;;
          vm_release_private_pages base (i * PAGE_SIZE);;
          mret (Some (-1))
        else vm_zero_page pa;; mret None);
    mret (default 0 r).

(** ** Shared objects *)

Definition vm_shared_reset : vm_shared_object := SharedObject 0 [] 0 [] 0 false.

Definition vm_shared_alloc_slot (l : list vm_shared_object) : option nat :=
  find_from (λ _ o, negb (so_used o)) 0 l.

Definition object_at (id : nat) : ME (vm S) vm_shared_object :=
  run (lift_opt (λ s, vm_shared_objects s !! id)).
Definition put_object (id : nat) (o : vm_shared_object) : ME (vm S) unit :=
  run (update_opt (λ s,
    _ ← vm_shared_objects s !! id; Some (set_objects (<[id := o]> (vm_shared_objects s)) s))).

Definition set_page (o : vm_shared_object) (i : nat) (pa refs : Z) : vm_shared_object :=
  SharedObject (so_pages_ptr o) (<[i := pa]> (so_pages o)) (so_refs_ptr o)
    (<[i := refs]> (so_page_refs o)) (so_page_count o) (so_used o).

Definition vm_shared_all_released (o : vm_shared_object) : bool :=
  if negb (so_used o) then true
  else forallb (λ n, n =? 0) (take (Z.to_nat (so_page_count o)) (so_page_refs o)).

Definition vm_shared_destroy (id : nat) : ME (vm S) unit :=
  o ← object_at id;
  if negb (so_used o) then mret tt
  else
    (if so_pages_ptr o =? 0 then mret None
     else for_er (R := unit) 0 (so_page_count o) (λ i,
       o ← object_at id;
       pa ← need (so_pages o !! Z.to_nat i);
       if pa =? 0 then mret None
       else
         pmm_free_page pa;;
         n ← need (so_page_refs o !! Z.to_nat i);
         put_object id (set_page o (Z.to_nat i) 0 n);; mret None));;
    (if so_pages_ptr o =? 0 then mret tt else kfree (so_pages_ptr o));;
    (if so_refs_ptr o =? 0 then mret tt else kfree (so_refs_ptr o));;
    put_object id vm_shared_reset.

Definition vm_shared_create (page_count : Z) : ME (vm S) (option nat) :=
  l ← state vm_shared_objects;
  match vm_shared_alloc_slot l with
  | None => mret None
  | Some id =>
      put_object id vm_shared_reset;;
      pages ← kmalloc (u64 (page_count * 8));
      if pages =? 0 then mret None
      else
        refs ← kmalloc (u64 (page_count * 4));
        if refs =? 0 then kfree pages;; mret None
        else
          let n := Z.to_nat page_count in
          put_object id (SharedObject pages (replicate n 0) refs (replicate n 0) page_count true);;
          r ← for_er 0 page_count (λ i,
            pa ← pmm_alloc_page;
            if pa =? 0 then vm_shared_destroy id;; mret (Some tt)
            else
              vm_zero_page pa;;
              o ← object_at id;
              put_object id (set_page o (Z.to_nat i) pa 1);; mret None);
          mret (match r with Some _ => None | None => Some id end)
  end.

Definition vm_shared_release_range (id page_start page_count : Z) : ME (vm S) unit :=
  if FRY_VM_SHARED_MAX <=? id then mret tt
  else
    let id := Z.to_nat id in
    o ← object_at id;
    if negb (so_used o) || (so_page_count o <? page_start) then mret tt
    else if so_page_count o - page_start <? page_count then mret tt
    else
      for_er (R := unit) 0 page_count (λ i,
        let idx := Z.to_nat (u32 (page_start + i)) in
        o ← object_at id;
        refs ← need (so_page_refs o !! idx);
        if refs =? 0 then mret None
        else
          pa ← need (so_pages o !! idx);
          if (refs - 1 =? 0) && negb (pa =? 0) then
            pmm_free_page pa;; put_object id (set_page o idx 0 0);; mret None
          else put_object id (set_page o idx pa (refs - 1));; mret None);;
      o ← object_at id;
      if vm_shared_all_released o then vm_shared_destroy id else mret tt.

Definition vm_map_shared_pages (base length prot backing_id page_start : Z) : ME (vm S) Z :=
  if FRY_VM_SHARED_MAX <=? backing_id then mret (-1)
  else
    o ← object_at (Z.to_nat backing_id);
    let page_count := u32 (length / PAGE_SIZE) in
    if negb (so_used o) then mret (-1)
    else if so_page_count o <? page_start then mret (-1)
    else if so_page_count o - page_start <? page_count then mret (-1)
    else
      let pte_flags := Z.lor (vm_prot_to_pte_flags prot) VMM_FLAG_NOFREE in
      r ← for_er 0 page_count (λ i,
        pa ← need (so_pages o !! Z.to_nat (u32 (page_start + i)));
        if pa =? 0 then vm_unmap_pages_only base (i * PAGE_SIZE);; mret (Some (-1))
        else
          let va := u64 (base + i * PAGE_SIZE) in
          map_user va pa pte_flags;;
          verify ← virt_to_phys va;
          if negb (Z.land verify ADDR_MASK =? pa) then
            unmap_user va;; vm_unmap_pages_only base (i * PAGE_SIZE);; mret (Some (-1))
          else mret None);
      mret (default 0 r).

(** ** Mapping *)

Definition vm_map_anon_private_region (base length prot flags : Z) : ME (vm S) Z :=
  if (cr3 =? 0) || (length =? 0) then mret (-1)
  else
    ok ← vm_range_available base length;
    if negb ok then mret (-1)
    else
      let reserve := has flags FRY_MAP_RESERVE in
      c ← (if reserve then mret 0 else vm_commit_private_pages base length prot);
      if negb (c =? 0) then mret (-1)
      else
        l ← state vm_regions;
        match vm_region_alloc_slot l with
        | None =>
            (if reserve then mret tt else vm_release_private_pages base length);;
            mret (-1)
        | Some slot =>
            put_region slot (vm_region_fill base length (if reserve then 0 else prot) flags
              FRY_VM_REGION_ANON_PRIVATE VM_BACKING_NONE 0 (negb reserve));;
            mret 0
        end.

Definition vm_map_guard_region (base length flags : Z) : ME (vm S) Z :=
  if (cr3 =? 0) || (length =? 0) then mret (-1)
  else
    ok ← vm_range_available base length;
    if negb ok then mret (-1)
    else
      l ← state vm_regions;
      match vm_region_alloc_slot l with
      | None => mret (-1)
      | Some slot =>
          put_region slot (vm_region_fill base length 0 flags FRY_VM_REGION_GUARD
            VM_BACKING_NONE 0 false);;
          mret 0
      end.

Definition vm_map_anon_shared_region (base length prot flags : Z) : ME (vm S) Z :=
  if (cr3 =? 0) || (length =? 0) then mret (-1)
  else
    ok ← vm_range_available base length;
    if negb ok then mret (-1)
    else
      backing ← vm_shared_create (u32 (length / PAGE_SIZE));
      match backing with
      | None => mret (-1)
      | Some id =>
          m ← vm_map_shared_pages base length prot (Z.of_nat id) 0;
          if negb (m =? 0) then vm_shared_destroy id;; mret (-1)
          else
            l ← state vm_regions;
            match vm_region_alloc_slot l with
            | None => vm_unmap_pages_only base length;; vm_shared_destroy id;; mret (-1)
            | Some slot =>
                put_region slot (vm_region_fill base length prot flags
                  FRY_VM_REGION_ANON_SHARED (Z.of_nat id) 0 true);;
                mret 0
            end
      end.

(** ** Unmapping *)

Definition vm_release_region_pages (r : fry_vm_region) (base length : Z) : ME (vm S) Z :=
  if length =? 0 then mret (-1)
  else if negb (r_committed r) then mret 0
  else
    ok ← vm_range_mapped base length;
    if negb ok then mret (-1)
    else
      match r_kind r with
      | FRY_VM_REGION_ANON_SHARED =>
          vm_unmap_pages_only base length;;
          vm_shared_release_range (r_backing_id r) (vm_region_page_start_at r base)
            (u32 (length / PAGE_SIZE));;
          mret 0
      | FRY_VM_REGION_ANON_PRIVATE | FRY_VM_REGION_FILE_PRIVATE =>
          vm_release_private_pages base length;; mret 0
      | _ => mret (-1)
      end.

(** The part of region [r] inside [[base, end)], and its release. *)
Fixpoint release_slots (slots : list nat) (base end_ : Z) : ME (vm S) Z :=
  match slots with
  | [] => mret 0
  | slot :: slots =>
      r ← region_at slot;
      let overlap_base := if r_base r <? base then base else r_base r in
      let overlap_end := if end_ <? r_end r then end_ else r_end r in
      if overlap_end <=? overlap_base then mret (-1)
      else
        c ← vm_release_region_pages r overlap_base (overlap_end - overlap_base);
        if negb (c =? 0) then mret (-1) else release_slots slots base end_
  end.

(** What is left of a region outside [[base, end)]. *)
Definition left_part (r : fry_vm_region) (base : Z) : fry_vm_region :=
  vm_region_fill_span_from_parent r (r_base r) (base - r_base r) (r_prot r) (r_flags r) (r_committed r).
Definition right_part (r : fry_vm_region) (end_ : Z) : fry_vm_region :=
  vm_region_fill_span_from_parent r end_ (r_end r - end_) (r_prot r) (r_flags r) (r_committed r).

Fixpoint clear_slots (slots : list nat) : ME (vm S) unit :=
  match slots with
  | [] => mret tt
  | slot :: slots => put_region slot vm_region_clear;; clear_slots slots
  end.

(** The table after an unmapping inside one region. *)
Definition unmap_one (slot : nat) (spill : option nat) (base end_ : Z) : ME (vm S) unit :=
  r ← region_at slot;
  if (base =? r_base r) && (end_ =? r_end r) then put_region slot vm_region_clear
  else if base =? r_base r then put_region slot (right_part r end_)
  else if end_ =? r_end r then put_region slot (left_part r base)
  else
    put_region slot (left_part r base);;
    spill_slot ← need spill;
    put_region spill_slot (right_part r end_).

(** The table after an unmapping over several regions. *)
Definition unmap_many (first_slot : nat) (middle : list nat) (last_slot : nat) (base end_ : Z)
    : ME (vm S) unit :=
  first ← region_at first_slot;
  last ← region_at last_slot;
  put_region first_slot (if r_base first <? base then left_part first base else vm_region_clear);;
  clear_slots middle;;
  put_region last_slot (if end_ <? r_end last then right_part last end_ else vm_region_clear).

(** One covered region is split when the range lies strictly inside it. *)
Definition spill_for (l : list fry_vm_region) (slots : list nat) (base end_ : Z)
    : option (option nat) :=
  match slots with
  | [slot] =>
      r ← l !! slot;
      if (r_base r <? base) && (end_ <? r_end r)
      then p ← vm_region_alloc_slots l 1 false; Some p.1 else Some None
  | _ => Some None
  end.

Definition vm_unmap_region_range (base length : Z) : ME (vm S) Z :=
  let end_ := u64 (base + length) in
  l ← state vm_regions;
  match vm_region_collect_covering_slots l base length (Z.to_nat PROC_VMREG_MAX) with
  | None => mret (-1)
  | Some slots =>
      match spill_for l slots base end_ with
      | None => mret (-1)
      | Some spill =>
          c ← release_slots slots base end_;
          if negb (c =? 0) then mret (-1)
          else
            match slots with
            | [] => fault
            | [slot] => unmap_one slot spill base end_
            | first :: rest => unmap_many first (removelast rest) (List.last rest first) base end_
            end;;
            merge_neighbors;;
            mret 0
      end
  end.

(** ** Protection *)

(** The table after [[base, base + length)], which lies in the region [r] at
    [slot], becomes the region [mid] and the rest of [r] keeps the kind of [r]
    with [prot], [flags] and [committed]. *)
Definition split_region (slot : nat) (slots : option nat * option nat) (r mid : fry_vm_region)
    (base end_ prot : Z) (committed : bool) : ME (vm S) unit :=
  let lpart := vm_region_fill_span_from_parent r (r_base r) (base - r_base r) prot (r_flags r) committed in
  let rpart := vm_region_fill_span_from_parent r end_ (r_end r - end_) prot (r_flags r) committed in
  if (base =? r_base r) && (end_ =? r_end r) then put_region slot mid
  else if base =? r_base r then
    slot1 ← need slots.1;
    put_region slot mid;; put_region slot1 rpart
  else if end_ =? r_end r then
    slot1 ← need slots.1;
    put_region slot lpart;; put_region slot1 mid
  else
    slot1 ← need slots.1;
    slot2 ← need slots.2;
    put_region slot lpart;; put_region slot1 mid;; put_region slot2 rpart.

Definition split_slots (l : list fry_vm_region) (r : fry_vm_region) (base end_ : Z)
    : option (option nat * option nat) :=
  if (base =? r_base r) && (end_ =? r_end r) then Some (None, None)
  else if (base =? r_base r) || (end_ =? r_end r) then vm_region_alloc_slots l 1 false
  else vm_region_alloc_slots l 2 true.

Definition vm_mprotect_region_range (base length prot : Z) : ME (vm S) Z :=
  l ← state vm_regions;
  match vm_region_find_containing l base length with
  | None => mret (-1)
  | Some slot =>
      r ← region_at slot;
      let end_ := u64 (base + length) in
      match split_slots l r base end_ with
      | None => mret (-1)
      | Some slots =>
          let mid prot flags committed :=
            vm_region_fill base length prot flags (r_kind r) (r_backing_id r)
              (vm_region_page_start_at r base) committed in
          if negb (r_committed r) then
            if negb (bool_decide (r_kind r = FRY_VM_REGION_ANON_PRIVATE)) &&
               negb (bool_decide (r_kind r = FRY_VM_REGION_GUARD)) then mret (-1)
            else if prot =? 0 then
              split_region slot slots r (mid 0 (r_flags r) false) base end_ (r_prot r) false;;
              merge_neighbors;; mret 0
            else if bool_decide (r_kind r = FRY_VM_REGION_GUARD) then mret (-1)
            else
              c ← vm_commit_private_pages base length prot;
              if negb (c =? 0) then mret (-1)
              else
                split_region slot slots r (mid prot (clear_bits (r_flags r) FRY_MAP_RESERVE) true)
                  base end_ 0 false;;
                merge_neighbors;; mret 0
          else
            ok ← vm_range_mapped base length;
            if negb ok then mret (-1)
            else
              let pte_flags := vm_prot_to_pte_flags prot in
              e ← for_pages base length (λ _ va,
                c ← protect_user va pte_flags;
                mret (if negb (c =? 0) then Some tt else None));
              match e with
              | Some _ => mret (-1)
              | None =>
                  split_region slot slots r (mid prot (r_flags r) true) base end_ (r_prot r) true;;
                  merge_neighbors;; mret 0
              end
      end
  end.

Definition syscall_vm_process_exit : ME (vm S) unit :=
  for_e 0 PROC_VMREG_MAX (λ i,
    r ← region_at (Z.to_nat i);
    if negb (r_used r) then mret tt
    else
      (if r_committed r && bool_decide (r_kind r = FRY_VM_REGION_ANON_SHARED)
       then vm_shared_release_range (r_backing_id r) (r_backing_page_start r)
              (u32 (r_length r / PAGE_SIZE))
       else mret tt);;
      put_region (Z.to_nat i) vm_region_clear).

(** ** System calls *)

(** [(length + PAGE_SIZE - 1) & ~(PAGE_SIZE - 1)], or [None] for [-EINVAL]. *)
Definition page_length (length : Z) : option Z :=
  if (length =? 0) || (UINT64_MAX - (PAGE_SIZE - 1) <? length) then None
  else
    let length := align_up length PAGE_SIZE in
    if length =? 0 then None else Some length.

Definition page_aligned (a : Z) : bool := Z.land a (PAGE_SIZE - 1) =? 0.

(** The choice of the base address; zero is a failure. *)
Definition mmap_base (hint length flags : Z) : ME (vm S) Z :=
  if has flags FRY_MAP_FIXED then
    ok ← vm_range_available hint length;
    mret (if ok : bool then hint else 0)
  else
    ok ← (if negb (hint =? 0) then vm_range_available hint length else mret false);
    if ok : bool then mret hint else vm_find_free_range length.

(** The mapping at [base], by the kind of memory.  [map_fd] stands for the
    branch of mappings with a file descriptor, [vm_map_memfd_region] and
    [vm_map_file_region], as a function of the base, the length, the
    protection and the flags; it gives the result of the call. *)
Definition mmap_at (map_fd : Z → Z → Z → Z → ME (vm S) Z) (base length prot flags : Z)
    : ME (vm S) Z :=
  let answer c := if negb (c =? 0) then u64 (- ENOMEM) else base in
  if has flags FRY_MAP_GUARD then
    c ← vm_map_guard_region base length flags; mret (answer c)
  else if has flags FRY_MAP_ANON then
    if has flags FRY_MAP_SHARED then
      c ← vm_map_anon_shared_region base length prot flags; mret (answer c)
    else
      c ← vm_map_anon_private_region base length prot flags; mret (answer c)
  else map_fd base length prot flags.

(** The case [SYS_MMAP]. *)
Definition sys_mmap (map_fd : Z → Z → Z → Z → ME (vm S) Z) (hint length a3 a4 : Z)
    : ME (vm S) Z :=
  let prot := u32 a3 in
  let flags := u32 a4 in
  match page_length length with
  | None => mret (u64 (- EINVAL))
  | Some length =>
      if negb (vm_prot_supported prot) || negb (vm_flags_supported flags) then mret (u64 (- EINVAL))
      else if has flags FRY_MAP_RESERVE && negb (prot =? 0) then mret (u64 (- EINVAL))
      else if has flags FRY_MAP_GUARD && negb (prot =? 0) then mret (u64 (- EINVAL))
      else if negb (hint =? 0) && negb (page_aligned hint) then mret (u64 (- EINVAL))
      else
        base ← mmap_base hint length flags;
        if base =? 0 then mret (u64 (- ENOMEM))
        else mmap_at map_fd base length prot flags
  end.

Definition sys_munmap (base length : Z) : ME (vm S) Z :=
  if negb (page_aligned base) then mret (u64 (- EINVAL))
  else
    match page_length length with
    | None => mret (u64 (- EINVAL))
    | Some length => r ← vm_unmap_region_range base length; mret (u64 r)
    end.

Definition sys_mprotect (base length a3 : Z) : ME (vm S) Z :=
  let prot := u32 a3 in
  if negb (page_aligned base) then mret (u64 (- EINVAL))
  else
    match page_length length with
    | None => mret (u64 (- EINVAL))
    | Some length =>
        if negb (vm_prot_supported prot) then mret (u64 (- EINVAL))
        else r ← vm_mprotect_region_range base length prot; mret (u64 r)
    end.
End vm_ops.
