(* ===== verification/VmTable.v ===== *)
(** * User mappings: the region table as a map of pages

    The pages described by a table of regions, and the effect on them of
    assigning a slot, of cutting a range out and of merging neighbours. *)

From S2P Require Import Prelude Loops PageAlloc Vmm VmRegion.

(** ** Searching *)

Lemma find_from_Some {A} (f : nat → A → bool) i l k :
  find_from f i l = Some k →
  ∃ j x, k = (i + j)%nat ∧ l !! j = Some x ∧ f k x = true ∧
    ∀ j' x', (j' < j)%nat → l !! j' = Some x' → f (i + j')%nat x' = false.
Proof.
  revert i. induction l as [|x l IH]; intros i; [done|]. simpl.
  destruct (f i x) eqn:Hf.
  - intros [= <-]. exists 0%nat, x. rewrite Nat.add_0_r. split_and!; try done. intros; lia.
  - intros (j & y & -> & Hl & Hfy & Hmin)%IH. exists (S j), y.
    split_and!; [lia|done|done|]. intros [|j'] x' Hj Hx.
    + injection Hx as <-. by rewrite Nat.add_0_r.
    + replace (i + S j')%nat with (S i + j')%nat by lia. apply Hmin; [lia|done].
Qed.

Lemma find_from_None {A} (f : nat → A → bool) i l :
  find_from f i l = None → ∀ j x, l !! j = Some x → f (i + j)%nat x = false.
Proof.
  revert i. induction l as [|x l IH]; intros i; [done|]. simpl.
  destruct (f i x) eqn:Hf; [done|]. intros Hn [|j] y Hl.
  - injection Hl as <-. by rewrite Nat.add_0_r.
  - replace (i + S j)%nat with (S i + j)%nat by lia. by apply (IH (S i)).
Qed.

Lemma find_0_Some {A} (f : A → bool) l k :
  find_from (λ _ x, f x) 0 l = Some k → ∃ x, l !! k = Some x ∧ f x = true.
Proof. intros (j & x & -> & Hl & Hf & _)%find_from_Some. eauto. Qed.

Lemma find_0_None {A} (f : A → bool) l :
  find_from (λ _ x, f x) 0 l = None ↔ ∀ k x, l !! k = Some x → f x = false.
Proof.
  split; [intros Hn k x; apply (find_from_None _ _ _ Hn)|]. intros Hf.
  destruct (find_from _ _ _) as [k|] eqn:E; [|done].
  apply find_0_Some in E as (x & Hl & Hx). by rewrite (Hf k x Hl) in Hx.
Qed.

(** ** Well-formed tables *)

Abbreviation region := fry_vm_region.
Abbreviation regions := (list fry_vm_region).
Implicit Types (r x : region) (l : regions) (va : Z).

(** The first address after a region. *)
Definition r_top r : Z := r_base r + r_length r.

Record region_wf r : Prop := {
  rw_base : (PAGE_SIZE | r_base r);
  rw_length : (PAGE_SIZE | r_length r);
  rw_pos : 0 < r_length r;
  rw_low : VM_USER_BASE ≤ r_base r;
  rw_high : r_top r ≤ VM_USER_LIMIT;
  rw_shared : r_kind r = FRY_VM_REGION_ANON_SHARED →
    0 ≤ r_backing_id r < FRY_VM_SHARED_MAX ∧
    0 ≤ r_backing_page_start r ∧ r_backing_page_start r + r_length r / PAGE_SIZE < 2 ^ 32
}.

Definition disjoint_regions r x : Prop := r_top r ≤ r_base x ∨ r_top x ≤ r_base r.

Record regs_ok l : Prop := {
  ro_length : length l = Z.to_nat PROC_VMREG_MAX;
  ro_wf : ∀ i r, l !! i = Some r → r_used r = true → region_wf r;
  ro_disj : ∀ i j r x, l !! i = Some r → l !! j = Some x → i ≠ j →
    r_used r = true → r_used x = true → disjoint_regions r x
}.

Lemma r_end_top r : region_wf r → r_end r = r_top r ∧ r_base r < r_top r < 2 ^ 63.
Proof.
  intros []. unfold r_end, r_top, VM_USER_BASE, VM_USER_LIMIT in *.
  rewrite u64_small by lia. lia.
Qed.

(** ** Pages *)

(** What the table says of one page: [pg_back] is the object and the page of
    it that backs a shared page. *)
Record page := Page {
  pg_prot : Z; pg_flags : Z; pg_kind : fry_vm_region_kind; pg_committed : bool;
  pg_back : option (Z * Z)
}.

Definition page_of r va : page :=
  Page (r_prot r) (r_flags r) (r_kind r) (r_committed r)
    (if bool_decide (r_kind r = FRY_VM_REGION_ANON_SHARED)
     then Some (r_backing_id r, r_backing_page_start r + (va - r_base r) / PAGE_SIZE) else None).

Definition in_region r va : Prop := r_used r = true ∧ r_base r ≤ va < r_top r.
#[global] Instance in_region_dec r va : Decision (in_region r va).
Proof. unfold in_region. apply _. Defined.

(** The page of address [va]. *)
Definition view l va : option page :=
  i ← covering_slot l va; (λ r, page_of r va) <$> l !! i.

Lemma covering_test r va :
  (r_used r = true → region_wf r) →
  r_used r && negb (r_end r <? r_base r) && negb ((va <? r_base r) || (r_end r <=? va)) = true ↔
  in_region r va.
Proof.
  intros Hwf. unfold in_region. destruct (r_used r); [|naive_solver].
  destruct (r_end_top r (Hwf eq_refl)) as [-> ?]. bool_cases; simpl; naive_solver lia.
Qed.

Lemma in_region_inj l i j r x va :
  regs_ok l → l !! i = Some r → l !! j = Some x → in_region r va → in_region x va → i = j.
Proof.
  intros Hok Hi Hj [? ?] [? ?]. destruct (decide (i = j)); [done|].
  destruct (ro_disj _ Hok i j r x) as [?|?]; [done..|lia|lia].
Qed.

Lemma covering_slot_Some l va i :
  regs_ok l → covering_slot l va = Some i ↔ ∃ r, l !! i = Some r ∧ in_region r va.
Proof.
  intros Hok. split.
  - intros (r & Hl & Ht)%find_0_Some. exists r. split; [done|].
    apply covering_test; [|done]. by apply (ro_wf _ Hok i).
  - intros (r & Hl & Hin). destruct (covering_slot l va) as [j|] eqn:E.
    + apply find_0_Some in E as (x & Hj & Ht). apply covering_test in Ht; [|by apply (ro_wf _ Hok j)].
      f_equal. by eapply in_region_inj.
    + unfold covering_slot in E. rewrite find_0_None in E. specialize (E i r Hl).
      rewrite (proj2 (covering_test r va (ro_wf _ Hok i r Hl)) Hin) in E. done.
Qed.

Lemma view_in l va i r : regs_ok l → l !! i = Some r → in_region r va → view l va = Some (page_of r va).
Proof.
  intros Hok Hl Hin. unfold view. rewrite (proj2 (covering_slot_Some l va i Hok)) by eauto.
  simpl. by rewrite Hl.
Qed.

Lemma view_Some l va a :
  regs_ok l → view l va = Some a ↔ ∃ i r, l !! i = Some r ∧ in_region r va ∧ a = page_of r va.
Proof.
  intros Hok. split.
  - unfold view. destruct (covering_slot l va) as [i|] eqn:E; [|done]. simpl.
    apply covering_slot_Some in E as (r & Hl & Hin); [|done]. rewrite Hl. intros [= <-]. by exists i, r.
  - intros (i & r & Hl & Hin & ->). by apply (view_in l va i).
Qed.

Lemma view_None l va :
  regs_ok l → view l va = None ↔ ∀ i r, l !! i = Some r → ¬ in_region r va.
Proof.
  intros Hok. split.
  - intros Hn i r Hl Hin. by rewrite (view_in l va i r) in Hn.
  - intros Hn. destruct (view l va) as [a|] eqn:E; [|done].
    apply view_Some in E as (i & r & Hl & Hin & _); [|done]. by destruct (Hn i r).
Qed.

(** Pages exist only in the user area. *)
Lemma view_area l va a : regs_ok l → view l va = Some a → VM_USER_BASE ≤ va < VM_USER_LIMIT.
Proof.
  intros Hok (i & r & Hl & [Hu Hr] & _)%view_Some; [|done].
  destruct (ro_wf _ Hok i r Hl Hu). lia.
Qed.

(** ** Assigning a slot *)

(** [x] may be stored in slot [i]: it meets no region of another slot. *)
Definition fits l (i : nat) x : Prop :=
  r_used x = true → region_wf x ∧
    ∀ j r, j ≠ i → l !! j = Some r → r_used r = true → disjoint_regions x r.

Lemma put_ok l i x : regs_ok l → fits l i x → regs_ok (<[i := x]> l).
Proof.
  intros Hok Hf.
  assert (∀ j r, <[i := x]> l !! j = Some r → (j = i ∧ r = x) ∨ (j ≠ i ∧ l !! j = Some r)) as Hc.
  { intros j r [(-> & <- & _)|[? ?]]%list_lookup_insert_Some; auto. }
  split.
  - rewrite length_insert. apply Hok.
  - intros j r [[-> ->]|[_ Hj]]%Hc Hu; [by apply Hf|by apply (ro_wf _ Hok j)].
  - intros j k r y [[-> ->]|[Hj Hlj]]%Hc [[-> ->]|[Hk Hlk]]%Hc Hne Hu Hu'; [done|..].
    + by apply (Hf Hu) with k.
    + destruct (proj2 (Hf Hu') j r Hj Hlj Hu); [by right|by left].
    + by apply (ro_disj _ Hok j k).
Qed.

Lemma put_view l i r x va :
  regs_ok l → fits l i x → l !! i = Some r →
  view (<[i := x]> l) va =
    if decide (in_region x va) then Some (page_of x va)
    else if decide (in_region r va) then None else view l va.
Proof.
  intros Hok Hf Hl. pose proof (put_ok l i x Hok Hf) as Hok'.
  assert (<[i := x]> l !! i = Some x) as Hx by (apply list_lookup_insert_eq; by eapply lookup_lt_Some).
  destruct (decide (in_region x va)) as [Hin|Hnx]; [by apply (view_in _ va i)|].
  assert (∀ j y, j ≠ i → <[i := x]> l !! j = Some y ↔ l !! j = Some y) as Hne.
  { intros j y Hj. by rewrite list_lookup_insert_ne. }
  destruct (decide (in_region r va)) as [Hin|Hnr].
  - apply view_None; [done|]. intros j y Hj Hy. destruct (decide (j = i)) as [->|Hji].
    + rewrite Hx in Hj. by injection Hj as <-.
    + apply Hji. apply Hne in Hj; [|done]. by eapply (in_region_inj l j i).
  - destruct (view l va) as [a|] eqn:E.
    + apply view_Some in E as (j & y & Hj & Hy & ->); [|done].
      destruct (decide (j = i)) as [->|Hji]; [congruence|].
      apply (view_in _ va j); [done| |done]. by apply Hne.
    + rewrite view_None in E |- * by done. intros j y Hj. destruct (decide (j = i)) as [->|Hji].
      * rewrite Hx in Hj. by injection Hj as <-.
      * apply (E j). by apply Hne.
Qed.

(** A region that is not used takes no place. *)
Lemma fits_clear l i : fits l i vm_region_clear.
Proof. done. Qed.

(** A part of the region of a slot fits in the slot. *)
Lemma fits_part l i r x :
  regs_ok l → l !! i = Some r → r_used r = true → region_wf x →
  r_base r ≤ r_base x → r_top x ≤ r_top r → fits l i x.
Proof.
  intros Hok Hl Hu Hwf Hb Ht _. split; [done|]. intros j y Hj Hlj Huy.
  destruct (ro_disj _ Hok i j r y) as [?|?]; [done..|by left; lia|by right; lia].
Qed.

(** A region on pages that are free fits in any slot. *)
Lemma fits_free l i x :
  regs_ok l → region_wf x → (∀ va, (PAGE_SIZE | va) → r_base x ≤ va < r_top x → view l va = None) → fits l i x.
Proof.
  intros Hok Hwf Hfree _. split; [done|]. intros j y _ Hlj Huy. unfold disjoint_regions.
  destruct (decide (r_top x ≤ r_base y)); [by left|]. destruct (decide (r_top y ≤ r_base x)); [by right|].
  exfalso. pose proof (ro_wf _ Hok j y Hlj Huy) as Hwy.
  pose proof (rw_pos _ Hwy). pose proof (rw_pos _ Hwf). unfold r_top in *.
  set (va := Z.max (r_base x) (r_base y)).
  assert (view l va = None) as Hn.
  { apply Hfree; [|unfold va; lia]. unfold va. destruct (Z.max_spec (r_base x) (r_base y)) as [[_ ->]|[_ ->]];
      [apply Hwy|apply Hwf]. }
  rewrite view_None in Hn by done. apply (Hn j y Hlj). split; [done|]. unfold va.
  unfold r_top. lia.
Qed.

(** ** Merging neighbours *)

Definition merged ra rb : region :=
  VmRegion (r_base ra) (u64 (r_length ra + r_length rb)) (r_prot ra) (r_flags ra)
    (r_backing_id ra) (r_backing_page_start ra) (r_kind ra) (r_used ra) (r_committed ra).

Lemma can_merge_inv ra rb :
  region_wf ra → region_wf rb → vm_regions_can_merge ra rb = true →
  r_used ra = true ∧ r_used rb = true ∧ r_top ra = r_base rb ∧
  r_prot ra = r_prot rb ∧ r_flags ra = r_flags rb ∧ r_kind ra = r_kind rb ∧
  r_committed ra = r_committed rb ∧
  (r_kind ra = FRY_VM_REGION_ANON_SHARED → r_backing_id ra = r_backing_id rb ∧
     r_backing_page_start ra + r_length ra / PAGE_SIZE = r_backing_page_start rb).
Proof.
  intros Ha Hb Hm. unfold vm_regions_can_merge in Hm. b2p.
  destruct (r_end_top ra Ha) as [Ee ?]. rewrite Ee in *.
  repeat match goal with H : bool_decide _ = true |- _ => apply bool_decide_eq_true in H end.
  repeat match goal with H : eqb _ _ = true |- _ => apply eqb_prop in H end.
  split_and!; try done. intros Hs. destruct (rw_shared _ Ha Hs) as (_ & ? & ?).
  match goal with H : _ ∨ _ |- _ => destruct H as [H|H] end; b2p.
  - match goal with H : bool_decide _ = false |- _ => by apply bool_decide_eq_false in H end.
  - split; [done|]. match goal with H : u32 _ = _ |- _ => rewrite <-H end.
    pose proof (rw_pos _ Ha). assert (0 ≤ r_length ra / PAGE_SIZE) by (apply Z.div_pos; [lia|done]).
    rewrite (u32_small (r_length ra / PAGE_SIZE)), u32_small by lia. done.
Qed.

Lemma merged_wf ra rb :
  region_wf ra → region_wf rb → vm_regions_can_merge ra rb = true →
  region_wf (merged ra rb) ∧ r_top (merged ra rb) = r_top rb.
Proof.
  intros Ha Hb (Hua & Hub & Et & _ & _ & Ek & _ & Hsh)%can_merge_inv; [|done..].
  assert (u64 (r_length ra + r_length rb) = r_length ra + r_length rb) as El.
  { apply u64_small. destruct (r_end_top ra Ha), (r_end_top rb Hb), Ha, Hb.
    unfold r_top, VM_USER_BASE, VM_USER_LIMIT in *. lia. }
  assert (r_top (merged ra rb) = r_top rb) as Etop.
  { unfold r_top in *. simpl. rewrite El. lia. }
  split; [|done]. split; simpl; rewrite ?El.
  - apply Ha.
  - apply Z.divide_add_r; [apply Ha|apply Hb].
  - destruct Ha, Hb. lia.
  - apply Ha.
  - rewrite Etop. apply Hb.
  - intros Hs. destruct (Hsh Hs) as [Ei Es]. destruct (rw_shared _ Ha Hs) as (? & ? & _).
    destruct (rw_shared _ Hb) as (_ & _ & ?); [congruence|]. split_and!; [lia|lia|done|].
    destruct (rw_length _ Ha) as [na Ena]. rewrite Ena, (Z.add_comm (na * _)), Z.div_add by done.
    rewrite Ena, Z.div_mul in Es by done. lia.
Qed.

Lemma merged_page ra rb va :
  region_wf ra → region_wf rb → vm_regions_can_merge ra rb = true →
  in_region (merged ra rb) va ↔ in_region ra va ∨ in_region rb va.
Proof.
  intros Ha Hb Hm. destruct (merged_wf ra rb Ha Hb Hm) as [_ Et].
  apply can_merge_inv in Hm as (Hua & Hub & E & _); [|done..].
  destruct (r_end_top ra Ha) as [_ ?], (r_end_top rb Hb) as [_ ?].
  unfold in_region. rewrite Et, Hua, Hub. simpl. rewrite Hua. split; [|naive_solver lia].
  intros [_ Hv]. destruct (decide (va < r_top ra)); [left|right]; split; lia || done.
Qed.

Lemma merged_page_of ra rb va :
  region_wf ra → region_wf rb → vm_regions_can_merge ra rb = true →
  page_of (merged ra rb) va = page_of ra va ∧
  (r_base rb ≤ va → page_of (merged ra rb) va = page_of rb va).
Proof.
  intros Ha Hb (_ & _ & Et & Ep & Ef & Ek & Ec & Hsh)%can_merge_inv; [|done..].
  split; [done|]. intros Hv. unfold page_of. simpl. rewrite <-Ep, <-Ef, <-Ek, <-Ec. f_equal.
  destruct (bool_decide_reflect (r_kind ra = FRY_VM_REGION_ANON_SHARED)) as [Hs|]; [|done].
  destruct (Hsh Hs) as [-> <-]. do 2 f_equal.
  destruct (rw_length _ Ha) as [na Ena]. unfold r_top in Et.
  replace (va - r_base ra) with (va - r_base rb + na * PAGE_SIZE) by lia.
  rewrite Ena, Z.div_mul, Z.div_add by done. lia.
Qed.

Section merge.
Context l (a b : nat) ra rb (Hok : regs_ok l) (Hab : a ≠ b) (Ha : l !! a = Some ra)
  (Hb : l !! b = Some rb) (Hm : vm_regions_can_merge ra rb = true).

Let l' := <[b := vm_region_clear]> (<[a := merged ra rb]> l).

Lemma merge_used : r_used ra = true ∧ r_used rb = true.
Proof using Hm. clear l'. unfold vm_regions_can_merge in Hm. b2p. done. Qed.

Lemma merge_wf : region_wf ra ∧ region_wf rb.
Proof using Ha Hb Hok Hm.
  destruct merge_used. split; [by apply (ro_wf _ Hok a)|by apply (ro_wf _ Hok b)].
Qed.

Lemma merge_fits : fits (<[b := vm_region_clear]> l) a (merged ra rb).
Proof using Ha Hb Hok Hm Hab.
  destruct merge_used, merge_wf as [Hwa Hwb]. destruct (merged_wf ra rb Hwa Hwb Hm) as [Hw Et].
  intros _. split; [done|]. intros j y Hj [(-> & <- & _)|[Hjb Hy]]%list_lookup_insert_Some Hu; [done|].
  destruct (r_end_top _ Hwa) as [_ ?], (r_end_top _ Hwb) as [_ ?].
  unfold disjoint_regions. rewrite Et. simpl.
  pose proof (ro_disj _ Hok a j ra y Ha Hy ltac:(done) ltac:(done) Hu) as Hda.
  pose proof (ro_disj _ Hok b j rb y Hb Hy ltac:(done) ltac:(done) Hu) as Hdb.
  apply can_merge_inv in Hm as (_ & _ & E & _); [|done..].
  pose proof (rw_pos _ (ro_wf _ Hok j y Hy Hu)). unfold disjoint_regions, r_top in *. lia.
Qed.

Lemma merge_two : regs_ok l' ∧ ∀ va, view l' va = view l va.
Proof using Ha Hb Hok Hm Hab.
  unfold l'. rewrite list_insert_insert_ne by done.
  pose proof (put_ok l b _ Hok (fits_clear l b)) as Hok1.
  split; [by apply put_ok, merge_fits|]. intros va.
  assert (<[b := vm_region_clear]> l !! a = Some ra) as Ha' by (by rewrite list_lookup_insert_ne).
  rewrite (put_view _ a ra _ va Hok1 merge_fits Ha'), (put_view l b rb _ va Hok (fits_clear l b) Hb).
  destruct merge_wf as [Hwa Hwb]. destruct (merged_page_of ra rb va Hwa Hwb Hm) as [Ea Eb].
  pose proof (merged_page ra rb va Hwa Hwb Hm) as Hin.
  rewrite (decide_False (P := in_region vm_region_clear va)) by (by intros [? _]).
  destruct (decide (in_region (merged ra rb) va)) as [Hi|Hni].
  - apply Hin in Hi as [Hi|Hi].
    + rewrite Ea. symmetry. by apply (view_in l va a).
    + rewrite Eb by apply Hi. symmetry. by apply (view_in l va b).
  - rewrite decide_False by tauto. by rewrite decide_False by tauto.
Qed.
End merge.

(** The number of regions. *)
Definition used_count l : nat := length (filter (λ r, r_used r = true) l).

Lemma used_count_put l i r x :
  l !! i = Some r →
  (used_count (<[i := x]> l) + Nat.b2n (r_used r) = used_count l + Nat.b2n (r_used x))%nat.
Proof.
  unfold used_count. revert i. induction l as [|y l IH]; intros [|i] Hl; simplify_eq/=.
  - rewrite !filter_cons. destruct (r_used r), (r_used x); simpl; lia.
  - specialize (IH i Hl). rewrite !filter_cons. destruct (decide (r_used y = true)); simpl; lia.
Qed.

Lemma merge_find_Some l i0 rest i j :
  (∀ k, rest !! k = l !! (i0 + k)%nat) → merge_find_from l i0 rest = Some (i, j) →
  i ≠ j ∧ ∃ r x, l !! i = Some r ∧ l !! j = Some x ∧ r_used r = true ∧ r_used x = true ∧
    mergeable r x = true.
Proof.
  revert i0. induction rest as [|r rest IH]; intros i0 Hr; [done|]. simpl.
  pose proof (Hr 0%nat) as Hl. rewrite Nat.add_0_r in Hl. simpl in Hl.
  destruct (if r_used r then _ else _) as [k|] eqn:E.
  - intros [= -> ->]. destruct (r_used r) eqn:Hu; [|done].
    apply find_from_Some in E as (k & x & -> & Hx & Ht & _). simpl in *. b2p.
    rewrite Nat.eqb_neq in *. split; [done|]. by exists r, x.
  - apply IH. intros k. specialize (Hr (S k)). simpl in Hr. rewrite Hr. f_equal. lia.
Qed.

Lemma merge_find_None l i0 rest :
  (∀ k, rest !! k = l !! (i0 + k)%nat) → merge_find_from l i0 rest = None →
  ∀ i j r x, (i0 ≤ i)%nat → i ≠ j → l !! i = Some r → l !! j = Some x → r_used r = true →
    r_used x = true → mergeable r x = false.
Proof.
  revert i0. induction rest as [|r0 rest IH]; intros i0 Hr; simpl.
  - intros _ i j r x Hi _ Hl. specialize (Hr (i - i0)%nat).
    replace (i0 + (i - i0))%nat with i in Hr by lia. by rewrite Hl in Hr.
  - pose proof (Hr 0%nat) as Hl0. rewrite Nat.add_0_r in Hl0. simpl in Hl0.
    destruct (if r_used r0 then _ else _) as [k|] eqn:E; [done|].
    intros Hn i j r x Hi Hij Hl Hx Hu Hux. destruct (decide (i = i0)) as [->|].
    + rewrite Hl in Hl0. injection Hl0 as ->. rewrite Hu in E.
      pose proof (find_from_None _ _ _ E j x Hx) as Hf. simpl in Hf.
      rewrite Hux, (proj2 (Nat.eqb_neq j i0)) in Hf by done. done.
    + apply (IH (S i0)) with i j; try done; [|lia].
      intros k. specialize (Hr (S k)). simpl in Hr. rewrite Hr. f_equal. lia.
Qed.

Lemma merge_pair_ok l i j r x :
  regs_ok l → i ≠ j → l !! i = Some r → l !! j = Some x → mergeable r x = true →
  regs_ok (merge_pair l i j) ∧ (∀ va, view (merge_pair l i j) va = view l va) ∧
  (used_count (merge_pair l i j) < used_count l)%nat.
Proof.
  intros Hok Hij Hi Hj Hm. unfold merge_pair, mergeable in *. rewrite Hi, Hj.
  assert (∀ a b ra rb, a ≠ b → l !! a = Some ra → l !! b = Some rb → vm_regions_can_merge ra rb = true →
    regs_ok (<[b := vm_region_clear]> (<[a := merged ra rb]> l)) ∧
    (∀ va, view (<[b := vm_region_clear]> (<[a := merged ra rb]> l)) va = view l va) ∧
    (used_count (<[b := vm_region_clear]> (<[a := merged ra rb]> l)) < used_count l)%nat) as H.
  { intros a b ra rb Hab Ha Hb Hc. destruct (merge_two l a b ra rb) as [? ?]; [done..|].
    split; [done|]. split; [done|]. destruct (merge_used ra rb Hc) as [Hua Hub].
    pose proof (used_count_put l a ra (merged ra rb) Ha) as E1.
    pose proof (used_count_put (<[a := merged ra rb]> l) b rb vm_region_clear
      ltac:(by rewrite list_lookup_insert_ne)) as E2.
    simpl in E1, E2. rewrite Hua, Hub in *. simpl in *. lia. }
  destruct (r_base x <? r_base r); by apply H.
Qed.

(** No two neighbours are left that could be merged. *)
Definition compact l : Prop :=
  ∀ i j r x, i ≠ j → l !! i = Some r → l !! j = Some x → r_used r = true → r_used x = true →
    mergeable r x = false.

Lemma merge_loop_ok fuel l :
  regs_ok l → (used_count l < fuel)%nat →
  ∃ l', merge_loop fuel l = Some l' ∧ regs_ok l' ∧ (∀ va, view l' va = view l va) ∧ compact l'.
Proof.
  revert l. induction fuel as [|fuel IH]; intros l Hok Hc; [lia|]. simpl.
  destruct (merge_find_from l 0 l) as [[i j]|] eqn:E.
  - apply merge_find_Some in E as (Hij & r & x & Hi & Hj & _ & _ & Hm); [|done].
    destruct (merge_pair_ok l i j r x) as (Hok' & Hv & Hlt); [done..|].
    destruct (IH (merge_pair l i j) Hok' ltac:(lia)) as (l' & El & Hl' & Hv' & Hcp).
    exists l'. split; [done|]. split; [done|]. split; [|done]. intros va. by rewrite Hv', Hv.
  - exists l. split; [done|]. split; [done|]. split; [done|].
    intros i j r x. eapply (merge_find_None l 0 l); [done|done|lia].
Qed.

(** [vm_region_merge_neighbors] ends, describes the same pages, and leaves no
    two regions that could be merged. *)
Lemma merge_neighbors_ok l :
  regs_ok l →
  ∃ l', vm_region_merge_neighbors l = Some l' ∧ regs_ok l' ∧ (∀ va, view l' va = view l va) ∧ compact l'.
Proof.
  intros Hok. apply merge_loop_ok; [done|]. unfold used_count.
  pose proof (length_filter (λ r, r_used r = true) l). lia.
Qed.

(** ** Free slots *)

Definition free_count l : nat := length (filter (λ r, r_used r = false) l).

(** Slot [i] is free. *)
Definition is_free l (i : nat) : Prop := ∃ r, l !! i = Some r ∧ r_used r = false.

Lemma free_count_cons r l :
  free_count (r :: l) = ((if r_used r then 0 else 1) + free_count l)%nat.
Proof. unfold free_count. rewrite filter_cons. by destruct (r_used r). Qed.

Lemma alloc_one two i l k :
  let res := alloc_slots_from two i l 1 in
  match res None None with
  | Some p => ∃ j, p = (Some (i + j)%nat, None) ∧ is_free l j
  | None => free_count l = 0%nat
  end ∧
  (two = true → match res (Some k) None with
   | Some p => ∃ j, p = (Some k, Some (i + j)%nat) ∧ is_free l j
   | None => free_count l = 0%nat
   end).
Proof.
  intros res. subst res. revert i. induction l as [|r l IH]; intros i; [done|].
  rewrite free_count_cons. simpl. destruct (r_used r) eqn:Hu.
  - destruct (IH (S i)) as [H1 H2]. split; [|intros Ht; specialize (H2 Ht)].
    + destruct (alloc_slots_from _ _ _ _ None _); [|done]. destruct H1 as (j & -> & r' & ? & ?).
      exists (S j). split; [by rewrite Nat.add_succ_r|]. by exists r'.
    + destruct (alloc_slots_from _ _ _ _ (Some _) _); [|done]. destruct H2 as (j & -> & r' & ? & ?).
      exists (S j). split; [by rewrite Nat.add_succ_r|]. by exists r'.
  - split; [|intros ->]; (exists 0%nat; rewrite Nat.add_0_r; split; [done|]; by exists r).
Qed.

Lemma alloc_two i l :
  match alloc_slots_from true i l 2 None None with
  | Some p => ∃ j k, p = (Some (i + j)%nat, Some (i + k)%nat) ∧ j ≠ k ∧ is_free l j ∧ is_free l k
  | None => (free_count l < 2)%nat
  end.
Proof.
  revert i. induction l as [|r l IH]; intros i; [unfold free_count; simpl; lia|].
  rewrite free_count_cons. simpl. destruct (r_used r) eqn:Hu.
  - specialize (IH (S i)). destruct (alloc_slots_from _ _ _ _ _ _); [|simpl; lia].
    destruct IH as (j & k & -> & ? & (r1 & ? & ?) & (r2 & ? & ?)). exists (S j), (S k).
    split; [by rewrite !Nat.add_succ_r|]. split; [lia|]. split; [by exists r1|by exists r2].
  - destruct (alloc_one true (S i) l i) as [_ H]. specialize (H eq_refl). change (2 - 1) with 1.
    destruct (alloc_slots_from _ _ _ _ _ _); [|simpl; lia].
    destruct H as (j & -> & r' & ? & ?). exists 0%nat, (S j).
    split; [by rewrite Nat.add_succ_r, Nat.add_0_r|]. split; [done|]. split; [by exists r|by exists r'].
Qed.

(** [vm_region_alloc_slot] and [vm_region_alloc_slots] find free slots, and
    fail only when there are not enough. *)
Lemma alloc_slot_spec l :
  match vm_region_alloc_slot l with Some i => is_free l i | None => free_count l = 0%nat end.
Proof.
  destruct (vm_region_alloc_slot l) as [i|] eqn:E; unfold vm_region_alloc_slot in E.
  - apply find_0_Some in E as (r & Hl & Hu%negb_true_iff). by exists r.
  - rewrite find_0_None in E. unfold free_count. destruct (filter _ l) as [|r l'] eqn:Ef; [done|].
    assert (r ∈ filter (λ r, r_used r = false) l) as [Hu Hin]%list_elem_of_filter by (rewrite Ef; left).
    apply list_elem_of_lookup in Hin as [k Hk]. specialize (E k r Hk). by rewrite Hu in E.
Qed.

Lemma alloc_slots_spec1 l :
  match vm_region_alloc_slots l 1 false with
  | Some p => ∃ i, p = (Some i, None) ∧ is_free l i
  | None => free_count l = 0%nat
  end.
Proof. unfold vm_region_alloc_slots. simpl. apply (alloc_one false 0 l 0). Qed.

Lemma alloc_slots_spec2 l :
  match vm_region_alloc_slots l 2 true with
  | Some p => ∃ i j, p = (Some i, Some j) ∧ i ≠ j ∧ is_free l i ∧ is_free l j
  | None => (free_count l < 2)%nat
  end.
Proof. unfold vm_region_alloc_slots. simpl. apply (alloc_two 0 l). Qed.

(** ** The regions that cover a range *)

(** The regions at [slots] cover [[cursor, end)] one after the other. *)
Inductive covers l (end_ : Z) : Z → list nat → Prop :=
  | covers_end cursor : end_ ≤ cursor → covers l end_ cursor []
  | covers_step cursor slot slots r :
      cursor < end_ → l !! slot = Some r → in_region r cursor →
      covers l end_ (Z.min (r_top r) end_) slots → covers l end_ cursor (slot :: slots).

Lemma r_end_min r end_ :
  region_wf r → (if r_end r <? end_ then r_end r else end_) = Z.min (r_top r) end_.
Proof. intros Hwf. destruct (r_end_top r Hwf) as [-> _]. bool_cases; lia. Qed.

(** The regions that end after an address. *)
Definition above l (c : Z) : nat := length (filter (λ r, r_used r = true ∧ c < r_top r) l).

Lemma above_le l c d : c ≤ d → (above l d ≤ above l c)%nat.
Proof.
  intros Hcd. unfold above. induction l as [|y l IH]; [done|]. rewrite !filter_cons.
  repeat destruct (decide _); simpl; try lia. naive_solver lia.
Qed.

Lemma above_step l slot r c d :
  l !! slot = Some r → in_region r c → r_top r ≤ d → (above l d < above l c)%nat.
Proof.
  intros Hl [Hu Hr] Hd. revert slot Hl. induction l as [|y l IH]; intros [|slot] Hl; simplify_eq/=.
  - pose proof (above_le l c d ltac:(lia)). unfold above in *. rewrite !filter_cons.
    rewrite decide_False by lia. rewrite decide_True by (split; [done|lia]). simpl. lia.
  - specialize (IH slot Hl). unfold above in *. rewrite !filter_cons.
    repeat destruct (decide _); simpl; try lia. naive_solver lia.
Qed.

Lemma collect_covers fuel l cursor end_ slots :
  regs_ok l → collect_slots fuel l cursor end_ = Some slots → covers l end_ cursor slots.
Proof.
  intros Hok. revert cursor slots. induction fuel as [|fuel IH]; intros cursor slots; simpl;
    (destruct (Z.ltb_spec cursor end_); [|by intros [= <-]; constructor]);
    (destruct (covering_slot l cursor) as [slot|] eqn:E; [|done]); [done|]; simpl.
  apply covering_slot_Some in E as (r & Hl & Hin); [|done]. rewrite Hl. simpl.
  rewrite r_end_min by (apply (ro_wf _ Hok slot r Hl), Hin).
  destruct (collect_slots _ _ _ _) as [rest|] eqn:E; [|done]. intros [= <-].
  econstructor; [done|done|done|]. by apply IH.
Qed.

Lemma collect_done fuel l end_ : collect_slots fuel l end_ end_ = Some [].
Proof. destruct fuel; simpl; by rewrite Z.ltb_irrefl. Qed.

Lemma collect_complete fuel l cursor end_ :
  regs_ok l → (above l cursor ≤ fuel)%nat → (∀ va, cursor ≤ va < end_ → is_Some (view l va)) →
  is_Some (collect_slots fuel l cursor end_).
Proof.
  intros Hok. revert cursor. induction fuel as [|fuel IH]; intros cursor Hf Hv; simpl;
    (destruct (Z.ltb_spec cursor end_); [|by eexists]);
    (destruct (Hv cursor ltac:(lia)) as [a (slot & r & Hl & Hin & _)%view_Some]; [|done]);
    pose proof (above_step l slot r cursor (r_top r) Hl Hin ltac:(lia)); [lia|].
  rewrite (proj2 (covering_slot_Some l cursor slot Hok)) by eauto. simpl. rewrite Hl. simpl.
  rewrite r_end_min by (apply (ro_wf _ Hok slot r Hl), Hin).
  destruct (Z.min_spec (r_top r) end_) as [[_ ->]|[_ ->]]; [|by rewrite collect_done; eexists].
  destruct (IH (r_top r)) as [rest ->]; [lia| |by eexists]. intros va Hva. apply Hv. destruct Hin. lia.
Qed.

(** Every address of the range is in one of the regions. *)
Lemma covers_view l end_ c slots va :
  covers l end_ c slots → c ≤ va < end_ → ∃ s r, s ∈ slots ∧ l !! s = Some r ∧ in_region r va.
Proof.
  induction 1 as [c ?|c s slots r Hc Hl Hin Hcov IH]; intros Hva; [lia|].
  destruct (decide (va < r_top r)) as [Hlt|Hge].
  - exists s, r. split; [left|]. split; [done|]. destruct Hin. split; [done|lia].
  - destruct IH as (s' & r' & Hs & ? & ?); [lia|]. exists s', r'. split; [by right|done].
Qed.

Lemma covers_lt l end_ c slots s : covers l end_ c slots → s ∈ slots → c < end_.
Proof. destruct 1; [by intros ?%not_elem_of_nil|done]. Qed.

(** All but the first region start after the range does, and all but the last
    end before it does. *)
Lemma covers_slots l end_ c slots :
  regs_ok l → covers l end_ c slots →
  NoDup slots ∧ ∀ s, s ∈ slots → ∃ r, l !! s = Some r ∧ r_used r = true ∧
    c < r_top r ∧ r_base r < end_ ∧ (r_base r ≤ c → head slots = Some s) ∧
    (end_ ≤ r_top r → last slots = Some s).
Proof.
  intros Hok. induction 1 as [c ?|c s slots r Hc Hl [Hu Hr] Hcov IH].
  { split; [constructor|]. intros s Hs. by apply not_elem_of_nil in Hs. }
  destruct IH as [Hnd Hs]. split.
  - constructor; [|done]. intros Hin. destruct (Hs s Hin) as (r' & Hl' & _ & ? & ? & _).
    pose proof (covers_lt _ _ _ _ _ Hcov Hin). rewrite Hl in Hl'. injection Hl' as <-. lia.
  - intros s' [->|Hin]%elem_of_cons.
    + exists r. split_and!; try done; try lia. intros He.
      inversion Hcov as [? ?|? s2 ? r2]; simplify_eq; [done|lia].
    + destruct (Hs s' Hin) as (r' & Hl' & Hu' & ? & ? & _ & Hlast). exists r'.
      pose proof (covers_lt _ _ _ _ _ Hcov Hin).
      assert (s ≠ s') as Hne.
      { intros <-. rewrite Hl in Hl'. injection Hl' as <-. lia. }
      assert (r_top r ≤ r_base r').
      { destruct (ro_disj _ Hok s s' r r') as [?|?]; [done..|done|]. lia. }
      split_and!; try done; try lia. intros He. specialize (Hlast He).
      destruct slots; [by apply not_elem_of_nil in Hin|]. done.
Qed.

(** [vm_region_collect_covering_slots] succeeds exactly when every page of
    the range is mapped. *)
Lemma collect_covering_spec l base length :
  regs_ok l → 0 ≤ base → 0 < length → base + length < 2 ^ 64 →
  match vm_region_collect_covering_slots l base length (Z.to_nat PROC_VMREG_MAX) with
  | Some slots => covers l (base + length) base slots
  | None => ∃ va, base ≤ va < base + length ∧ view l va = None
  end.
Proof.
  intros Hok Hb Hlen Hr. unfold vm_region_collect_covering_slots. rewrite u64_small by lia.
  rewrite (proj2 (Z.eqb_neq length 0)), (proj2 (Z.ltb_ge (base + length) base)) by lia. simpl orb.
  change (Z.to_nat PROC_VMREG_MAX =? 0)%nat with false. cbv iota.
  destruct (collect_slots _ _ _ _) as [slots|] eqn:E; [by eapply collect_covers|].
  destruct (decide (Exists (λ va, view l va = None) (seqZ base length))) as [He|Hne].
  - apply Exists_exists in He as (va & Hva%elem_of_seqZ & Hn). exists va. by split; [lia|].
  - exfalso. destruct (collect_complete (Z.to_nat PROC_VMREG_MAX) l base (base + length)) as [slots Es]; [done| | |].
    + rewrite <-(ro_length _ Hok). apply length_filter.
    + intros va Hva. destruct (view l va) eqn:Ev; [by eexists|]. exfalso. apply Hne, Exists_exists.
      exists va. split; [apply elem_of_seqZ; lia|done].
    + by rewrite Es in E.
Qed.

(** ** Parts of a region *)

Lemma divide_top r : region_wf r → (PAGE_SIZE | r_top r).
Proof. intros Hwf. apply Z.divide_add_r; apply Hwf. Qed.

(** The page index of an address of a shared region. *)
Lemma page_start_at_ok r base :
  region_wf r → r_base r ≤ base ≤ r_top r → r_kind r = FRY_VM_REGION_ANON_SHARED →
  vm_region_page_start_at r base = r_backing_page_start r + (base - r_base r) / PAGE_SIZE.
Proof.
  intros Hwf Hb Hs. unfold vm_region_page_start_at. rewrite (proj2 (Z.ltb_ge base (r_base r))) by lia.
  destruct (rw_shared _ Hwf Hs) as (_ & ? & ?). unfold r_top in *.
  assert (0 ≤ (base - r_base r) / PAGE_SIZE ≤ r_length r / PAGE_SIZE).
  { split; [apply Z.div_pos; [lia|done]|apply Z.div_le_mono; [done|lia]]. }
  rewrite (u32_small (_ / _)), u32_small by lia. done.
Qed.

Definition span r (base end_ prot flags : Z) (committed : bool) : region :=
  vm_region_fill_span_from_parent r base (end_ - base) prot flags committed.

Section span.
Context r (base end_ prot flags : Z) (committed : bool) (Hwf : region_wf r).
Context (Hb : (PAGE_SIZE | base)) (He : (PAGE_SIZE | end_)).
Context (Hrange : r_base r ≤ base ∧ base < end_ ∧ end_ ≤ r_top r).

Lemma span_top : r_top (span r base end_ prot flags committed) = end_.
Proof using. unfold r_top. simpl. lia. Qed.

Lemma span_page va :
  base ≤ va → page_of (span r base end_ prot flags committed) va =
    Page prot flags (r_kind r) committed (pg_back (page_of r va)).
Proof using All.
  intros Hva. unfold page_of. simpl. f_equal.
  destruct (bool_decide_reflect (r_kind r = FRY_VM_REGION_ANON_SHARED)) as [Hs|]; [|done].
  rewrite page_start_at_ok by (done || lia). do 2 f_equal.
  assert ((PAGE_SIZE | base - r_base r)) as [k Ek] by (apply Z.divide_sub_r; [done|apply Hwf]).
  replace (va - r_base r) with (va - base + k * PAGE_SIZE) by lia.
  rewrite Ek, Z.div_mul, Z.div_add by done. lia.
Qed.

Lemma span_wf : region_wf (span r base end_ prot flags committed).
Proof using All.
  split; simpl; [done|by apply Z.divide_sub_r|lia|pose proof (rw_low _ Hwf); lia| |].
  - rewrite span_top. pose proof (rw_high _ Hwf). lia.
  - intros Hs. rewrite page_start_at_ok by (done || lia).
    destruct (rw_shared _ Hwf Hs) as (? & ? & ?). split; [done|].
    split; [pose proof (Z.div_pos (base - r_base r) PAGE_SIZE); unfold PAGE_SIZE in *; lia|].
    assert ((PAGE_SIZE | base - r_base r)) as [k Ek] by (apply Z.divide_sub_r; [done|apply Hwf]).
    assert ((base - r_base r) / PAGE_SIZE + (end_ - base) / PAGE_SIZE ≤ r_length r / PAGE_SIZE); [|lia].
    rewrite Ek, Z.div_mul by done. replace (end_ - base) with (end_ - r_base r + (- k) * PAGE_SIZE) by lia.
    rewrite Z.div_add by done.
    assert ((end_ - r_base r) / PAGE_SIZE ≤ r_length r / PAGE_SIZE) by (apply Z.div_le_mono; [done|unfold r_top in *; lia]).
    lia.
Qed.
End span.

(** A part of a region keeps the pages of the region. *)
Lemma page_of_eta r va :
  page_of r va = Page (r_prot r) (r_flags r) (r_kind r) (r_committed r) (pg_back (page_of r va)).
Proof. done. Qed.

(** ** Cutting a range out *)

Definition cut r (base end_ : Z) : region :=
  if r_base r <? base then left_part r base
  else if end_ <? r_end r then right_part r end_ else vm_region_clear.

Lemma left_part_span r base : left_part r base = span r (r_base r) base (r_prot r) (r_flags r) (r_committed r).
Proof. done. Qed.
Lemma right_part_span r end_ :
  region_wf r → right_part r end_ = span r end_ (r_top r) (r_prot r) (r_flags r) (r_committed r).
Proof. intros Hwf. unfold right_part, span. by rewrite (proj1 (r_end_top r Hwf)). Qed.

(** Replacing a region by a part of it that keeps its attributes. *)
Lemma put_part l s r b e :
  regs_ok l → l !! s = Some r → r_used r = true → (PAGE_SIZE | b) → (PAGE_SIZE | e) →
  r_base r ≤ b < e → e ≤ r_top r →
  let x := span r b e (r_prot r) (r_flags r) (r_committed r) in
  regs_ok (<[s := x]> l) ∧
  ∀ va, view (<[s := x]> l) va = if decide (in_region r va ∧ ¬ b ≤ va < e) then None else view l va.
Proof.
  intros Hok Hl Hu Hb He Hbe Het x. pose proof (ro_wf _ Hok s r Hl Hu) as Hwf.
  assert (region_wf x) as Hwx by (apply span_wf; done || lia).
  assert (r_top x = e) as Ht by apply span_top.
  assert (fits l s x) as Hf by (apply (fits_part l s r x); try done; rewrite ?Ht; simpl; lia).
  split; [by apply put_ok|]. intros va. rewrite (put_view l s r x va Hok Hf Hl).
  destruct (decide (in_region x va)) as [[_ Hin]|Hnx]; rewrite ?Ht in *; simpl in *.
  - rewrite decide_False by (intros [_ ?]; lia). unfold x. rewrite span_page by (done || lia).
    rewrite <-page_of_eta. symmetry. apply (view_in l va s); [done|done|]. split; [done|lia].
  - destruct (decide (in_region r va)) as [Hin|Hnr].
    + rewrite decide_True; [done|]. split; [done|]. intros ?. apply Hnx. split; [done|]. by rewrite Ht.
    + by rewrite decide_False by tauto.
Qed.

Lemma cut_ok l s r base end_ :
  regs_ok l → l !! s = Some r → r_used r = true → (PAGE_SIZE | base) → (PAGE_SIZE | end_) →
  r_base r < end_ → base < r_top r → base ≤ r_base r ∨ r_top r ≤ end_ →
  regs_ok (<[s := cut r base end_]> l) ∧
  ∀ va, view (<[s := cut r base end_]> l) va =
    if decide (in_region r va ∧ base ≤ va < end_) then None else view l va.
Proof.
  intros Hok Hl Hu Hb He Hbe Het Hor. pose proof (ro_wf _ Hok s r Hl Hu) as Hwf. unfold cut.
  assert (∀ (P Q : Prop) `{!Decision P, !Decision Q} (y z : option page), (P ↔ Q) →
    (if decide P then y else z) = (if decide Q then y else z)) as Hdec.
  { intros P Q ?? y z HPQ. destruct (decide P), (decide Q); tauto. }
  destruct (r_end_top r Hwf) as [Ee ?].
  destruct (Z.ltb_spec (r_base r) base); [|rewrite Ee; destruct (Z.ltb_spec end_ (r_top r))].
  - rewrite left_part_span. destruct (put_part l s r (r_base r) base) as [? Hv]; try done; [apply Hwf|lia..|].
    split; [done|]. intros va. rewrite Hv. apply Hdec. unfold in_region.
    split; intros [[? ?] ?]; (split; [split; [done|lia]|lia]).
  - rewrite right_part_span by done.
    destruct (put_part l s r end_ (r_top r)) as [? Hv]; try done; [by apply divide_top|lia..|].
    split; [done|]. intros va. rewrite Hv. apply Hdec. unfold in_region.
    split; intros [[? ?] ?]; (split; [split; [done|lia]|lia]).
  - split; [by apply put_ok|]. intros va. rewrite (put_view l s r) by done.
    rewrite decide_False by (by intros [? _]). apply Hdec. unfold in_region.
    split; [intros [? ?]; (split; [split; [done|lia]|lia])|tauto].
Qed.

Fixpoint cut_slots l (slots : list nat) (base end_ : Z) : regions :=
  match slots with
  | [] => l
  | s :: slots =>
      cut_slots (<[s := cut (default vm_region_clear (l !! s)) base end_]> l) slots base end_
  end.

(** A slot whose region overlaps the range and does not reach over both ends. *)
Definition cuttable l (base end_ : Z) (s : nat) : Prop :=
  ∃ r, l !! s = Some r ∧ r_used r = true ∧ r_base r < end_ ∧ base < r_top r ∧
    (base ≤ r_base r ∨ r_top r ≤ end_).

Lemma cut_slots_ok l slots base end_ :
  regs_ok l → (PAGE_SIZE | base) → (PAGE_SIZE | end_) → NoDup slots →
  (∀ s, s ∈ slots → cuttable l base end_ s) →
  regs_ok (cut_slots l slots base end_) ∧
  ∀ va, view (cut_slots l slots base end_) va =
    if decide (base ≤ va < end_ ∧ Exists (λ s, in_region (default vm_region_clear (l !! s)) va) slots)
    then None else view l va.
Proof.
  intros Hok Hb He. revert l Hok. induction slots as [|s slots IH]; intros l Hok Hnd Hs.
  { split; [done|]. intros va. rewrite decide_False; [done|]. intros [_ ?]. by apply Exists_nil in H. }
  apply NoDup_cons in Hnd as [Hns Hnd]. simpl.
  destruct (Hs s ltac:(left)) as (r & Hl & Hu & ? & ? & Hor). rewrite Hl. simpl.
  destruct (cut_ok l s r base end_) as [Hok' Hv]; [done..|]. set (l1 := <[s := _]> l) in *.
  assert (∀ s', s' ∈ slots → l1 !! s' = l !! s') as Hl1.
  { intros s' Hs'. apply list_lookup_insert_ne. by intros ->. }
  destruct (IH l1 Hok' Hnd) as [Hok'' Hv'].
  { intros s' Hs'. unfold cuttable. rewrite Hl1 by done. apply Hs. by right. }
  split; [done|]. intros va. rewrite Hv', Hv.
  assert (Exists (λ s, in_region (default vm_region_clear (l1 !! s)) va) slots ↔
    Exists (λ s, in_region (default vm_region_clear (l !! s)) va) slots) as HE.
  { rewrite !Exists_exists. split; intros (s' & Hs' & Hin); exists s'; (split; [done|]).
    - by rewrite <-Hl1. - by rewrite Hl1. }
  destruct (decide (base ≤ va < end_ ∧ Exists _ slots)) as [[? Hex]|Hn1].
  - rewrite decide_True; [done|]. split; [done|]. apply Exists_cons. right. by apply HE.
  - destruct (decide (in_region r va ∧ base ≤ va < end_)) as [[? ?]|Hn2].
    + rewrite decide_True; [done|]. split; [done|]. apply Exists_cons. left. by rewrite Hl.
    + rewrite decide_False; [done|]. intros [? [Hex|Hex]%Exists_cons].
      * rewrite Hl in Hex. tauto.
      * apply HE in Hex. tauto.
Qed.

(** The whole range is cut out. *)
Lemma cut_covers l slots base end_ :
  regs_ok l → (PAGE_SIZE | base) → (PAGE_SIZE | end_) → covers l end_ base slots →
  (∀ s, s ∈ slots → cuttable l base end_ s) →
  regs_ok (cut_slots l slots base end_) ∧
  ∀ va, view (cut_slots l slots base end_) va =
    if decide (base ≤ va < end_) then None else view l va.
Proof.
  intros Hok Hb He Hc Hs. destruct (covers_slots l end_ base slots Hok Hc) as [Hnd _].
  destruct (cut_slots_ok l slots base end_) as [Hok' Hv]; [done..|]. split; [done|].
  intros va. rewrite Hv. destruct (decide (base ≤ va < end_)) as [Hva|Hn].
  - rewrite decide_True; [done|]. split; [done|].
    destruct (covers_view l end_ base slots va Hc Hva) as (s & r & Hin & Hl & Hr).
    apply Exists_exists. exists s. split; [done|]. by rewrite Hl.
  - by rewrite decide_False by tauto.
Qed.

(** ** Splitting a region *)

(** Filling a free slot with a region on free pages. *)
Lemma put_free l i x :
  regs_ok l → is_free l i → r_used x = true → region_wf x →
  (∀ va, (PAGE_SIZE | va) → r_base x ≤ va < r_top x → view l va = None) →
  regs_ok (<[i := x]> l) ∧
  ∀ va, view (<[i := x]> l) va = if decide (r_base x ≤ va < r_top x) then Some (page_of x va) else view l va.
Proof.
  intros Hok (r & Hl & Hu) Hux Hwf Hfree. pose proof (fits_free l i x Hok Hwf Hfree) as Hf.
  split; [by apply put_ok|]. intros va. rewrite (put_view l i r x va Hok Hf Hl).
  destruct (decide (r_base x ≤ va < r_top x)) as [Hv|Hn].
  - by rewrite decide_True.
  - rewrite decide_False by (intros [_ ?]; tauto). rewrite decide_False; [done|].
    intros [? _]. congruence.
Qed.
