(* ===== verification/VmSpace.v ===== *)
(** * User mappings: what the machine promises, and the loops over pages

    The laws of the interface [UserSpace]: a translation of the pages of one
    address space, the set of page frames in the hands of the region code, and
    the contents of those frames.  Then the effect of releasing, committing
    and protecting a range of pages. *)

From S2P Require Import Prelude PageAlloc Vmm VmmInv Loops VmRegion VmTable.

(** The translation of a page: its frame number, the protection bits of its
    entry, and whether the frame belongs to someone else. *)
Record xlate := Xlate { x_frame : Z; x_prot : Z; x_nofree : bool }.

Definition upage (va : Z) : Prop := (PAGE_SIZE | va) ∧ 0 ≤ va < USER_VA_TOP.
#[global] Instance page_divide_dec x : Decision (PAGE_SIZE | x).
Proof.
  refine (cast_if (decide (x mod PAGE_SIZE = 0))); abstract (rewrite <-Z.mod_divide by done; done).
Defined.
#[global] Instance upage_dec va : Decision (upage va).
Proof. unfold upage. apply _. Defined.

(** The [n] pages from [base] on. *)
Definition pin (base n va : Z) : Prop := (PAGE_SIZE | va) ∧ base ≤ va < base + n * PAGE_SIZE.
#[global] Instance pin_dec base n va : Decision (pin base n va).
Proof. unfold pin. apply _. Defined.

Definition same_map {S} (x : S → Z → option xlate) (m m' : S) : Prop :=
  ∀ va, upage va → x m' va = x m va.
Definition map_set {S} (x : S → Z → option xlate) (m m' : S) (va : Z) (o : option xlate) : Prop :=
  x m' va = o ∧ ∀ va', upage va' → va' ≠ va → x m' va' = x m va'.

(** [us_inv m F]: the machine is well formed and the frames [F] belong to the
    region code.  A call that does not return has stopped the machine. *)
Class UserSpaceLaws (S : Type) `{!UserSpace S} (cr3 : Z) := {
  us_inv : S → gset Z → Prop;
  us_xlat : S → Z → option xlate;
  us_byte : S → Z → Z;
  us_cr3_ok m F : us_inv m F → cr3 ≠ 0;
  us_frame_ok m F p : us_inv m F → p ∈ F → 1 ≤ p < 2 ^ 52;
  us_xlat_ok m F va x : us_inv m F → upage va → us_xlat m va = Some x → 0 ≤ x_frame x < 2 ^ 40;
  us_virt_to_phys_ok m F va (Q : Z → S → Prop) :
    us_inv m F → upage va →
    Q (match us_xlat m va with Some x => x_frame x * PAGE_SIZE | None => 0 end) m →
    wpe (us_virt_to_phys cr3 va) Q (λ _, True) m;
  us_map_ok m F va p flags (Q : unit → S → Prop) :
    us_inv m F → upage va → 1 ≤ p < 2 ^ 52 →
    (∀ m', us_inv m' F → us_byte m' = us_byte m →
       map_set us_xlat m m' va
         (Some (Xlate (p mod 2 ^ 40) (Z.land flags PROT_BITS) (has flags VMM_FLAG_NOFREE))) →
       Q tt m') →
    wpe (us_map_user cr3 va (p * PAGE_SIZE) flags) Q (λ _, True) m;
  us_unmap_ok m F va (Q : unit → S → Prop) :
    us_inv m F → upage va →
    (∀ m', us_inv m' F → us_byte m' = us_byte m → map_set us_xlat m m' va None → Q tt m') →
    wpe (us_unmap_user cr3 va) Q (λ _, True) m;
  us_protect_ok m F va x flags (Q : Z → S → Prop) :
    us_inv m F → upage va → us_xlat m va = Some x →
    (∀ m', us_inv m' F → us_byte m' = us_byte m →
       map_set us_xlat m m' va (Some (Xlate (x_frame x) (Z.land flags PROT_BITS) (x_nofree x))) →
       Q 0 m') →
    wpe (us_protect_user cr3 va flags) Q (λ _, True) m;
  us_alloc_ok m F (Q : Z → S → Prop) :
    us_inv m F → Q 0 m →
    (∀ p m', p ∉ F → 1 ≤ p < 2 ^ 52 → us_inv m' ({[p]} ∪ F) → us_byte m' = us_byte m →
       same_map us_xlat m m' → Q (p * PAGE_SIZE) m') →
    wpe us_alloc_page Q (λ _, True) m;
  us_free_ok m F p (Q : unit → S → Prop) :
    us_inv m F → p ∈ F →
    (∀ m', us_inv m' (F ∖ {[p]}) → us_byte m' = us_byte m → same_map us_xlat m m' → Q tt m') →
    wpe (us_free_page (p * PAGE_SIZE)) Q (λ _, True) m;
  us_zero_ok m F p (Q : unit → S → Prop) :
    us_inv m F → p ∈ F →
    (∀ m', us_inv m' F → same_map us_xlat m m' →
       (∀ a, us_byte m' a = if decide (p * PAGE_SIZE ≤ a < (p + 1) * PAGE_SIZE) then 0 else us_byte m a) →
       Q tt m') →
    wpe (us_zero_page (p * PAGE_SIZE)) Q (λ _, True) m;
  us_kmalloc_ok m F n (Q : Z → S → Prop) :
    us_inv m F →
    (∀ ptr m', us_inv m' F → us_byte m' = us_byte m → same_map us_xlat m m' → Q ptr m') →
    wpe (us_kmalloc n) Q (λ _, True) m;
  us_kfree_ok m F ptr (Q : unit → S → Prop) :
    us_inv m F →
    (∀ m', us_inv m' F → us_byte m' = us_byte m → same_map us_xlat m m' → Q tt m') →
    wpe (us_kfree ptr) Q (λ _, True) m
}.

(** The contents of the frames [F] are the same. *)
Definition same_bytes {S} `{!UserSpace S} {cr3 : Z} `{!UserSpaceLaws S cr3} (F : gset Z) (m m' : S) : Prop :=
  ∀ p a, p ∈ F → p * PAGE_SIZE ≤ a < (p + 1) * PAGE_SIZE → us_byte m' a = us_byte m a.

(** Frame [p] holds zeros. *)
Definition zeroed {S} `{!UserSpace S} {cr3 : Z} `{!UserSpaceLaws S cr3} (m : S) (p : Z) : Prop :=
  ∀ a, p * PAGE_SIZE ≤ a < (p + 1) * PAGE_SIZE → us_byte m a = 0.

Lemma page_step base i : (PAGE_SIZE | base) → (PAGE_SIZE | base + i * PAGE_SIZE).
Proof. intros. apply Z.divide_add_r; [done|]. by exists i. Qed.

Lemma pin_step base i va :
  (PAGE_SIZE | base) → 0 ≤ i → pin base (i + 1) va ↔ pin base i va ∨ va = base + i * PAGE_SIZE.
Proof.
  intros [k ->] Hi. unfold pin. split.
  - intros [[j ->] Hr]. destruct (decide (j = k + i)); [right; lia|left]. split; [by exists j|].
    unfold PAGE_SIZE in *. lia.
  - intros [[? ?]| ->]; (split; [try done; apply page_step; by exists k|]); unfold PAGE_SIZE in *; lia.
Qed.

Lemma pin_0 base va : ¬ pin base 0 va.
Proof. intros [_ ?]. lia. Qed.

Lemma page_steps_ok base length :
  0 ≤ base → 0 ≤ length → base + length < 2 ^ 64 → (PAGE_SIZE | length) →
  page_steps base length = length / PAGE_SIZE.
Proof.
  intros ? ? ? [k ->]. unfold page_steps. rewrite u64_small by lia.
  rewrite Z.max_r by lia. rewrite Z.div_mul by done.
  replace (base + k * PAGE_SIZE - base + (PAGE_SIZE - 1)) with (PAGE_SIZE - 1 + k * PAGE_SIZE) by lia.
  by rewrite Z.div_add.
Qed.

(** A range of pages of the user area. *)
Definition user_range (base n : Z) : Prop :=
  (PAGE_SIZE | base) ∧ 0 ≤ n ∧ VM_USER_BASE ≤ base ∧ base + n * PAGE_SIZE ≤ VM_USER_LIMIT.

Lemma user_range_page base n va : user_range base n → pin base n va → upage va.
Proof.
  intros (_ & _ & ? & ?) [? ?]. split; [done|]. unfold VM_USER_BASE, VM_USER_LIMIT, USER_VA_TOP in *. lia.
Qed.

Lemma user_range_steps base n : user_range base n → page_steps base (n * PAGE_SIZE) = n.
Proof.
  intros (_ & ? & ? & ?). unfold VM_USER_BASE, VM_USER_LIMIT in *. rewrite page_steps_ok; [|lia|unfold PAGE_SIZE; lia|lia|by exists n].
  by apply Z.div_mul.
Qed.

Lemma user_range_prefix base n i : user_range base n → 0 ≤ i ≤ n → user_range base i.
Proof. intros (? & ? & ? & ?) ?. split_and!; try done; unfold PAGE_SIZE in *; lia. Qed.

Section pages.
Context {S : Type} `{!UserSpace S} {cr3 : Z} `{!UserSpaceLaws S cr3}.
Implicit Types (m : S) (s : vm S) (F : gset Z).

Abbreviation wpv m Q s := (wpe m Q (λ _, True) s).

Definition with_machine (m : S) s : vm S := Vm (vm_regions s) (vm_shared_objects s) m.

Lemma with_machine_id s : with_machine (vm_machine s) s = s.
Proof using. by destruct s. Qed.

(** ** Single steps *)

Lemma wpv_on_machine {A} (f : ME S A) (Q : A → vm S → Prop) s :
  wpe f (λ a m', Q a (with_machine m' s)) (λ _, True) (vm_machine s) → wpv (on_machine f) Q s.
Proof using.
  unfold wpe, wp, on_machine. destruct (f (vm_machine s)) as [[[a|] m']|]; done.
Qed.

Lemma wpv_virt_to_phys s F va (Q : Z → vm S → Prop) :
  us_inv (vm_machine s) F → upage va →
  Q (match us_xlat (vm_machine s) va with Some x => x_frame x * PAGE_SIZE | None => 0 end) s →
  wpv (virt_to_phys cr3 va) Q s.
Proof using.
  intros Hi Hv HQ. apply wpv_on_machine. eapply us_virt_to_phys_ok; [done..|].
  by rewrite with_machine_id.
Qed.

(** The frames of the [n] pages from [base] on. *)
Definition frames_of m (base n : Z) : gset Z :=
  list_to_set (omap (λ i, x_frame <$> us_xlat m (base + i * PAGE_SIZE)) (seqZ 0 n)).

Lemma elem_frames_of m base n p :
  (PAGE_SIZE | base) →
  p ∈ frames_of m base n ↔ ∃ va x, pin base n va ∧ us_xlat m va = Some x ∧ x_frame x = p.
Proof using.
  intros [k ->]. unfold frames_of. rewrite elem_of_list_to_set, list_elem_of_omap. split.
  - intros (i & Hi%elem_of_seqZ & Hx%fmap_Some). destruct Hx as (x & Hx & ->).
    exists (k * PAGE_SIZE + i * PAGE_SIZE), x. split_and!; [|done|done].
    split; [apply page_step; by exists k|]. unfold PAGE_SIZE. lia.
  - intros (va & x & [[j ->] Hr] & Hx & <-). exists (j - k). split; [apply elem_of_seqZ; unfold PAGE_SIZE in *; lia|].
    replace (k * PAGE_SIZE + (j - k) * PAGE_SIZE) with (j * PAGE_SIZE) by lia. by rewrite Hx.
Qed.

Lemma frames_of_step m base i :
  0 ≤ i → frames_of m base (i + 1) =
    frames_of m base i ∪ list_to_set (option_list (x_frame <$> us_xlat m (base + i * PAGE_SIZE))).
Proof using.
  intros Hi. unfold frames_of. rewrite seqZ_app by lia. rewrite omap_app, list_to_set_app_L. f_equal.
Qed.

(** ** Unmapping a range *)

(** Every page from [base] on that is mapped has a real frame. *)
Definition real_frames m (base n : Z) : Prop :=
  ∀ va x, pin base n va → us_xlat m va = Some x → 1 ≤ x_frame x.

(** [m'] is [m] without the translations of the [n] pages from [base] on. *)
Definition unmapped m m' (base n : Z) : Prop :=
  us_byte m' = us_byte m ∧
  ∀ va, upage va → us_xlat m' va = if decide (pin base n va) then None else us_xlat m va.

Lemma unmapped_0 m base : unmapped m m base 0.
Proof using. split; [done|]. intros va _. rewrite decide_False; [done|]. apply pin_0. Qed.

(** One more page, which was mapped in [m] or not. *)
Lemma unmapped_step m m1 m2 base i :
  (PAGE_SIZE | base) → 0 ≤ i → unmapped m m1 base i →
  us_byte m2 = us_byte m1 → map_set us_xlat m1 m2 (base + i * PAGE_SIZE) None →
  unmapped m m2 base (i + 1).
Proof using.
  intros Hb Hi [Eb Hx] Eb2 [Hs Ho]. split; [congruence|]. intros va Hva.
  destruct (decide (va = base + i * PAGE_SIZE)) as [->|Hne].
  - rewrite Hs. rewrite decide_True; [done|]. apply pin_step; auto.
  - rewrite Ho, Hx by done. destruct (decide (pin base i va)).
    + rewrite decide_True; [done|]. apply pin_step; auto.
    + rewrite decide_False; [done|]. intros [?|?]%pin_step; done.
Qed.

Lemma unmapped_skip m m1 base i :
  (PAGE_SIZE | base) → 0 ≤ i → unmapped m m1 base i → us_xlat m (base + i * PAGE_SIZE) = None →
  unmapped m m1 base (i + 1).
Proof using.
  intros Hb Hi [Eb Hx] Hn. split; [done|]. intros va Hva. rewrite Hx by done.
  destruct (decide (pin base i va)).
  - rewrite decide_True; [done|]. apply pin_step; auto.
  - destruct (decide (pin base (i + 1) va)) as [[?| ->]%pin_step|]; done.
Qed.

Section unmap_loop.
Context (base n : Z) (s : vm S) (F : gset Z) (Hr : user_range base n)
  (Hi : us_inv (vm_machine s) F) (Hf : real_frames (vm_machine s) base n).

Lemma not_yet i m : unmapped (vm_machine s) m base i → 0 ≤ i < n →
  upage (base + i * PAGE_SIZE) ∧
  us_xlat m (base + i * PAGE_SIZE) = us_xlat (vm_machine s) (base + i * PAGE_SIZE).
Proof using Hr.
  intros [_ Hx] Hin.
  assert (upage (base + i * PAGE_SIZE)) as Hu.
  { apply (user_range_page base n); [done|]. destruct Hr. apply page_step with (i := i) in H. split; [done|].
    unfold PAGE_SIZE. lia. }
  split; [done|]. rewrite Hx by done. rewrite decide_False; [done|]. intros [_ ?]. lia.
Qed.

(** [vm_unmap_pages_only] *)
Lemma wpv_unmap_pages (Q : unit → vm S → Prop) :
  (∀ m', us_inv m' F → unmapped (vm_machine s) m' base n → Q tt (with_machine m' s)) →
  wpv (vm_unmap_pages_only cr3 base (n * PAGE_SIZE)) Q s.
Proof using Hr Hi Hf.
  intros HQ. unfold vm_unmap_pages_only, for_pages. rewrite user_range_steps by done. apply wpe_bind.
  apply (wpe_for_er _ _ _ (λ i s', ∃ m', s' = with_machine m' s ∧ us_inv m' F ∧
    unmapped (vm_machine s) m' base i)).
  - apply Hr.
  - exists (vm_machine s). rewrite with_machine_id. split_and!; [done|done|]. apply unmapped_0.
  - intros i s' Hin (m' & -> & Hi' & Hu). destruct (not_yet i m' Hu Hin) as [Hup Ex].
    apply wpe_bind. eapply wpv_virt_to_phys; [done..|]. simpl. rewrite Ex.
    destruct (us_xlat (vm_machine s) _) as [x|] eqn:E.
    + pose proof (Hf (base + i * PAGE_SIZE) x) as Hx1. rewrite (proj2 (Z.eqb_neq (x_frame x * PAGE_SIZE) 0)).
      2: { assert (pin base n (base + i * PAGE_SIZE)) as Hp by (split; [apply Hup|unfold PAGE_SIZE; lia]).
           specialize (Hx1 Hp E). unfold PAGE_SIZE. lia. }
      apply wpe_bind, wpv_on_machine. eapply us_unmap_ok; [done..|]. intros m2 Hi2 Eb2 Hs2.
      apply wpe_ret. exists m2. split_and!; [done|done|]. eapply unmapped_step; try done; [apply Hr|lia].
    + apply wpe_ret. exists m'. split_and!; [done|done|]. apply unmapped_skip; try done; [apply Hr|lia].
  - intros s' (m' & -> & Hi' & Hu). apply wpe_ret. by apply HQ.
Qed.

(** Distinct pages of the range have distinct frames. *)
Definition frames_inj m (base n : Z) : Prop :=
  ∀ va va' x x', pin base n va → pin base n va' → us_xlat m va = Some x → us_xlat m va' = Some x' →
    x_frame x = x_frame x' → va = va'.

(** [vm_release_private_pages] *)
Lemma wpv_release_private (Q : unit → vm S → Prop) :
  frames_of (vm_machine s) base n ⊆ F → frames_inj (vm_machine s) base n →
  (∀ m', us_inv m' (F ∖ frames_of (vm_machine s) base n) → unmapped (vm_machine s) m' base n →
     Q tt (with_machine m' s)) →
  wpv (vm_release_private_pages cr3 base (n * PAGE_SIZE)) Q s.
Proof using Hr Hi Hf.
  intros HF Hinj HQ. unfold vm_release_private_pages, for_pages. rewrite user_range_steps by done.
  apply wpe_bind. set (m := vm_machine s) in *. destruct Hr as (Hb & Hn & _).
  apply (wpe_for_er _ _ _ (λ i s', ∃ m', s' = with_machine m' s ∧ us_inv m' (F ∖ frames_of m base i) ∧
    unmapped m m' base i)).
  - done.
  - exists m. split_and!; [by destruct s| |apply unmapped_0].
    replace (F ∖ frames_of m base 0) with F; [done|]. unfold frames_of. simpl. set_solver.
  - intros i s' Hin (m' & -> & Hi' & Hu). destruct (not_yet i m' Hu Hin) as [Hup Ex]. fold m in Ex.
    assert (pin base n (base + i * PAGE_SIZE)) as Hp by (split; [apply Hup|unfold PAGE_SIZE; lia]).
    apply wpe_bind. eapply wpv_virt_to_phys; [done..|]. simpl. rewrite Ex.
    pose proof (frames_of_step m base i ltac:(lia)) as Efr.
    destruct (us_xlat m (base + i * PAGE_SIZE)) as [x|] eqn:E.
    + pose proof (Hf _ x Hp E) as Hx1. rewrite (proj2 (Z.eqb_neq (x_frame x * PAGE_SIZE) 0)) by (unfold PAGE_SIZE; lia).
      pose proof (us_xlat_ok m F _ x Hi Hup E) as Hxr.
      apply wpe_bind, wpv_on_machine. eapply us_unmap_ok; [done..|]. intros m2 Hi2 Eb2 Hs2.
      apply wpe_bind, wpv_on_machine. rewrite land_page_addr by lia.
      assert (x_frame x ∈ F ∖ frames_of m base i) as Hxf.
      { apply elem_of_difference. split.
        - apply HF. apply elem_frames_of; [done|]. eauto.
        - rewrite elem_frames_of by done. intros (va & x' & Hva & Hx' & Eq).
          assert (va = base + i * PAGE_SIZE) as ->; [|destruct Hva as [_ ?]; lia].
          apply (Hinj va _ x' x); try done. destruct Hva. split; [done|]. unfold PAGE_SIZE in *. lia. }
      eapply us_free_ok; [done..|]. intros m3 Hi3 Eb3 Hs3. apply wpe_ret. exists m3. split_and!; [done| |].
      * rewrite Efr. simpl. replace (F ∖ _) with (F ∖ frames_of m base i ∖ {[x_frame x]}) by set_solver. done.
      * apply (unmapped_step m m' m3); try done; [lia|by simpl in Eb2, Eb3; rewrite Eb3, Eb2|]. destruct Hs2 as [Hs2 Ho2].
        split; [by rewrite Hs3|]. intros va' Hva' Hne. by rewrite Hs3, Ho2.
    + apply wpe_ret. exists m'. split_and!; [done| |apply unmapped_skip; done || lia].
      rewrite Efr. simpl. by rewrite (right_id_L ∅ (∪)).
  - intros s' (m' & -> & Hi' & Hu). apply wpe_ret. by apply HQ.
Qed.
End unmap_loop.

(** ** Testing a range *)

Lemma wpv_range_mapped base n s F (Q : bool → vm S → Prop) :
  us_inv (vm_machine s) F → user_range base n → 0 < n →
  (∀ va, pin base n va → ∃ x, us_xlat (vm_machine s) va = Some x ∧ 1 ≤ x_frame x) →
  Q true s → wpv (vm_range_mapped cr3 base (n * PAGE_SIZE)) Q s.
Proof using.
  intros Hi Hr Hn Hm HQ. unfold vm_range_mapped, for_pages.
  rewrite (proj2 (Z.eqb_neq (n * PAGE_SIZE) 0)) by (unfold PAGE_SIZE; lia).
  rewrite user_range_steps by done. apply wpe_bind.
  apply (wpe_for_er _ _ _ (λ _ s', s' = s)); [lia|done| |].
  - intros i s' Hin ->.
    assert (pin base n (base + i * PAGE_SIZE)) as Hp.
    { split; [by apply page_step, Hr|unfold PAGE_SIZE; lia]. }
    destruct (Hm _ Hp) as (x & Ex & Hx). apply wpe_bind.
    eapply wpv_virt_to_phys; [done|by eapply user_range_page|]. rewrite Ex. apply wpe_ret.
    by rewrite (proj2 (Z.eqb_neq (x_frame x * PAGE_SIZE) 0)) by (unfold PAGE_SIZE; lia).
  - intros s' ->. by apply wpe_ret.
Qed.
(** ** Free ranges *)

(** The [n] pages from [base] on are in the user area and not mapped. *)
Definition available (l : regions) (base n : Z) : Prop :=
  user_range base n ∧ ∀ va, pin base n va → view l va = None.

(** The pages that the table does not describe are not mapped. *)
Definition untracked_free s : Prop :=
  ∀ va, upage va → VM_USER_BASE ≤ va < VM_USER_LIMIT → view (vm_regions s) va = None →
    us_xlat (vm_machine s) va = None.

Lemma overlap_spec l base n :
  regs_ok l → user_range base n → 0 < n →
  vm_any_region_overlap l base (n * PAGE_SIZE) = false ↔ ∀ va, pin base n va → view l va = None.
Proof using.
  intros Hok Hr Hn. pose proof Hr as (Hb & _ & Hlo & Hhi). unfold VM_USER_LIMIT, VM_USER_BASE in Hlo, Hhi.
  unfold vm_any_region_overlap. rewrite u64_small by (unfold PAGE_SIZE in *; lia).
  rewrite (proj2 (Z.eqb_neq (n * PAGE_SIZE) 0)), (proj2 (Z.ltb_ge (base + n * PAGE_SIZE) base)) by (unfold PAGE_SIZE; lia).
  assert (∀ i r, l !! i = Some r → vm_region_overlaps r base (base + n * PAGE_SIZE) = true ↔
    r_used r = true ∧ r_base r < base + n * PAGE_SIZE ∧ base < r_top r) as Hov.
  { intros i r Hl. unfold vm_region_overlaps. destruct (r_used r) eqn:Hu; [|naive_solver].
    destruct (r_end_top r (ro_wf _ Hok i r Hl Hu)) as [-> ?]. bool_cases; simpl; naive_solver lia. }
  rewrite <-not_true_iff_false, existsb_exists. split.
  - intros Hno va [Hal Hva]. apply view_None; [done|]. intros i r Hl [Hu Hin]. apply Hno. exists r.
    split; [apply list_elem_of_In, list_elem_of_lookup; eauto|]. apply (Hov i r Hl). split; [done|lia].
  - intros Hv (r & Hin & Ht). apply list_elem_of_In, list_elem_of_lookup in Hin as [i Hl].
    apply (Hov i r Hl) in Ht as (Hu & H1 & H2). pose proof (ro_wf _ Hok i r Hl Hu) as Hwf.
    destruct (r_end_top r Hwf) as [_ ?]. set (va := Z.max base (r_base r)).
    assert (pin base n va) as Hp.
    { split; [|unfold va, PAGE_SIZE in *; lia]. unfold va.
      destruct (Z.max_spec base (r_base r)) as [[_ ->]|[_ ->]]; [apply Hwf|done]. }
    specialize (Hv va Hp). rewrite view_None in Hv by done. apply (Hv i r Hl). split; [done|]. unfold va. lia.
Qed.

(** [vm_range_available] *)
Lemma wpv_range_available base n s F (Q : bool → vm S → Prop) :
  us_inv (vm_machine s) F → regs_ok (vm_regions s) → untracked_free s →
  (PAGE_SIZE | base) → 0 ≤ base < 2 ^ 64 → 0 < n → n * PAGE_SIZE < 2 ^ 64 →
  (available (vm_regions s) base n → Q true s) →
  (¬ available (vm_regions s) base n → Q false s) →
  wpv (vm_range_available cr3 base (n * PAGE_SIZE)) Q s.
Proof using.
  intros Hi Hok Hfree Hb Hb0 Hn Hn2 Ht Hf. unfold vm_range_available.
  rewrite (proj2 (Z.eqb_neq cr3 0)) by (by eapply us_cr3_ok).
  rewrite (proj2 (Z.eqb_neq (n * PAGE_SIZE) 0)) by (unfold PAGE_SIZE; lia). simpl orb.
  destruct (Z.ltb_spec base VM_USER_BASE).
  { apply wpe_ret, Hf. intros [(_ & _ & ? & _) _]. lia. }
  destruct (Z.ltb_spec (u64 (base + n * PAGE_SIZE)) base).
  { apply wpe_ret, Hf. intros [(_ & _ & _ & Hhi) _]. unfold VM_USER_LIMIT, PAGE_SIZE in *.
    rewrite u64_small in * by lia. lia. }
  assert (base + n * PAGE_SIZE < 2 ^ 64) as Hnw.
  { destruct (decide (base + n * PAGE_SIZE < 2 ^ 64)); [done|]. exfalso. unfold u64 in *.
    rewrite <-(Z.mod_add _ (-1)), Z.mod_small in * by lia. lia. }
  rewrite u64_small in * by (unfold PAGE_SIZE in *; lia).
  destruct (Z.ltb_spec VM_USER_LIMIT (base + n * PAGE_SIZE)).
  { apply wpe_ret, Hf. intros [(_ & _ & _ & ?) _]. lia. }
  assert (user_range base n) as Hr by (split_and!; done || lia).
  apply wpe_bind, wpe_state. pose proof (overlap_spec _ base n Hok Hr Hn) as Hov.
  destruct (vm_any_region_overlap _ _ _).
  { apply wpe_ret, Hf. intros [_ Hv]. by apply Hov in Hv. }
  pose proof (proj1 Hov eq_refl) as Hv. apply wpe_bind. unfold for_pages. rewrite user_range_steps by done.
  apply (wpe_for_er _ _ _ (λ _ s', s' = s)); [lia|done| |].
  - intros i s' Hin ->. apply wpe_bind.
    assert (pin base n (base + i * PAGE_SIZE)) as Hp.
    { split; [by apply page_step|unfold PAGE_SIZE; lia]. }
    pose proof (user_range_page _ _ _ Hr Hp) as Hu. eapply wpv_virt_to_phys; [done|done|].
    rewrite Hfree; [by apply wpe_ret|done| |by apply Hv]. destruct Hp as [_ ?]. lia.
  - intros s' ->. by apply wpe_ret, Ht.
Qed.

(** [vm_find_free_range] finds the lowest free range. *)
Lemma wpv_find_free n s F (Q : Z → vm S → Prop) :
  us_inv (vm_machine s) F → regs_ok (vm_regions s) → untracked_free s → 0 < n → n * PAGE_SIZE < 2 ^ 64 →
  (∀ base, available (vm_regions s) base n →
     (∀ b, b < base → ¬ available (vm_regions s) b n) → Q base s) →
  ((∀ b, ¬ available (vm_regions s) b n) → Q 0 s) →
  wpv (vm_find_free_range cr3 (n * PAGE_SIZE)) Q s.
Proof using.
  intros Hi Hok Hfree Hn Hn2 Ht Hf. unfold vm_find_free_range.
  rewrite (proj2 (Z.eqb_neq (n * PAGE_SIZE) 0)) by (unfold PAGE_SIZE; lia).
  change (VM_USER_LIMIT <=? VM_USER_BASE) with false. cbv iota.
  destruct (Z.ltb_spec (VM_USER_LIMIT - VM_USER_BASE) (n * PAGE_SIZE)).
  { apply wpe_ret, Hf. intros b [(_ & _ & ? & ?) _]. lia. }
  set (m := (VM_USER_LIMIT - n * PAGE_SIZE - VM_USER_BASE) / PAGE_SIZE).
  assert (VM_USER_BASE + m * PAGE_SIZE = VM_USER_LIMIT - n * PAGE_SIZE) as Em.
  { unfold m, VM_USER_LIMIT, VM_USER_BASE, PAGE_SIZE. Z.to_euclidean_division_equations. lia. }
  assert (0 ≤ m) by (unfold m, PAGE_SIZE in *; Z.to_euclidean_division_equations; lia).
  apply wpe_bind, (wpe_for_er _ _ _ (λ i s', s' = s ∧ ∀ b, b < VM_USER_BASE + i * PAGE_SIZE →
    ¬ available (vm_regions s) b n)); [lia| | |].
  - split; [done|]. intros b Hb [(_ & _ & ? & _) _]. lia.
  - intros i s' Hin [-> Hno]. apply wpe_bind. unfold VM_USER_LIMIT, VM_USER_BASE in *.
    eapply wpv_range_available; try done; [apply page_step; by exists 0x100000000|unfold PAGE_SIZE in *; lia|..].
    + intros Hav. apply wpe_ret. simpl. apply wpe_ret, Ht; [done|done].
    + intros Hna. apply wpe_ret. split; [done|]. intros b Hb Hav.
      destruct (decide (b = 0x0000100000000000 + i * PAGE_SIZE)) as [->|]; [done|].
      apply (Hno b); [|done]. destruct Hav as [([k ->] & _) _]. unfold PAGE_SIZE in *. lia.
  - intros s' [-> Hno]. apply wpe_ret, Hf. intros b Hav. apply (Hno b); [|done].
    destruct Hav as [(_ & _ & _ & ?) _]. unfold PAGE_SIZE in *. lia.
Qed.
(** ** Committing pages *)

Lemma frames_of_ext m m' base n :
  (PAGE_SIZE | base) → (∀ va, pin base n va → us_xlat m' va = us_xlat m va) →
  frames_of m' base n = frames_of m base n.
Proof using.
  intros Hb He. apply set_eq. intros p. rewrite !elem_frames_of by done.
  split; intros (va & x & Hp & Hx & E); exists va, x; (split; [done|]); [rewrite <-He|rewrite He]; done.
Qed.

(** The [n] pages from [base] on have new frames, all different, full of
    zeros; everything else is as in [m]. *)
Record mapped_new m m' F (base n pr : Z) (nofree : bool) : Prop := {
  mn_in : ∀ va, pin base n va →
    ∃ p, us_xlat m' va = Some (Xlate p pr nofree) ∧ (p ∉ F) ∧ 1 ≤ p ∧ zeroed m' p;
  mn_inj : frames_inj m' base n;
  mn_out : ∀ va, upage va → ¬ pin base n va → us_xlat m' va = us_xlat m va;
  mn_bytes : same_bytes F m m'
}.

(** Nothing that concerns the region code has changed. *)
Definition same_machine m m' F : Prop :=
  us_inv m' F ∧ same_map us_xlat m m' ∧ same_bytes F m m'.

Lemma same_bytes_eq F m m' : us_byte m' = us_byte m → same_bytes F m m'.
Proof using. intros E p a _ _. by rewrite E. Qed.

Lemma same_bytes_trans F F' m1 m2 m3 :
  F ⊆ F' → same_bytes F m1 m2 → same_bytes F' m2 m3 → same_bytes F m1 m3.
Proof using. intros HF H1 H2 p a Hp Ha. rewrite (H2 p a), (H1 p a); auto. Qed.

Lemma mapped_new_frames m m' F base n pr nf p :
  (PAGE_SIZE | base) → mapped_new m m' F base n pr nf → p ∈ frames_of m' base n → (p ∉ F) ∧ 1 ≤ p.
Proof using.
  intros Hb Hm (va & x & Hp & Hx & <-)%elem_frames_of; [|done].
  destruct (mn_in _ _ _ _ _ _ _ Hm va Hp) as (q & Hq & ? & ? & _). rewrite Hx in Hq. by injection Hq as ->.
Qed.

(** Taking the new pages back. *)
Lemma wpv_release_new m s F base n pr nf (Q : unit → vm S → Prop) :
  user_range base n → (∀ va, pin base n va → us_xlat m va = None) →
  mapped_new m (vm_machine s) F base n pr nf → us_inv (vm_machine s) (frames_of (vm_machine s) base n ∪ F) →
  (∀ m', same_machine m m' F → Q tt (with_machine m' s)) →
  wpv (vm_release_private_pages cr3 base (n * PAGE_SIZE)) Q s.
Proof using.
  intros Hr Hnone Hnew Hi HQ. pose proof Hr as [Hb _]. eapply wpv_release_private; [done|done| |set_solver|apply Hnew|].
  - intros va x Hp Hx. apply (mapped_new_frames m (vm_machine s) F base n pr nf); [done|done|].
    apply elem_frames_of; eauto.
  - intros m' Hi' [Eb Hx']. apply HQ. split_and!.
    + replace F with ((frames_of (vm_machine s) base n ∪ F) ∖ frames_of (vm_machine s) base n); [done|].
      apply set_eq. intros p. rewrite elem_of_difference, elem_of_union. split; [tauto|]. intros Hp.
      split; [by right|]. intros Hpf. by destruct (mapped_new_frames m (vm_machine s) F base n pr nf p).
    + intros va Hva. rewrite Hx' by done. destruct (decide (pin base n va)) as [Hp|Hp].
      * by rewrite Hnone.
      * by apply (mn_out _ _ _ _ _ _ _ Hnew).
    + intros p a Hp Ha. rewrite Eb. by apply (mn_bytes _ _ _ _ _ _ _ Hnew p).
Qed.

(** One more new page: the frame [p] was allocated, mapped and cleared. *)
Lemma mapped_new_step m m1 m2 F base i p pr nf :
  (PAGE_SIZE | base) → 0 ≤ i → upage (base + i * PAGE_SIZE) → mapped_new m m1 F base i pr nf →
  p ∉ frames_of m1 base i ∪ F → 1 ≤ p → map_set us_xlat m1 m2 (base + i * PAGE_SIZE) (Some (Xlate p pr nf)) →
  (∀ a, us_byte m2 a = if decide (p * PAGE_SIZE ≤ a < (p + 1) * PAGE_SIZE) then 0 else us_byte m1 a) →
  (∀ va, pin base i va → upage va) →
  mapped_new m m2 F base (i + 1) pr nf ∧ frames_of m2 base (i + 1) = {[p]} ∪ frames_of m1 base i.
Proof using.
  intros Hb Hi Hu Hn Hp Hp1 [Hs Ho] Hz Hup. set (va0 := base + i * PAGE_SIZE) in *.
  assert (∀ va, pin base i va → us_xlat m2 va = us_xlat m1 va) as Hold.
  { intros va Hva. apply Ho; [by apply Hup|]. destruct Hva as [_ ?]. unfold va0. lia. }
  assert (∀ q a, q ≠ p → q * PAGE_SIZE ≤ a < (q + 1) * PAGE_SIZE → us_byte m2 a = us_byte m1 a) as Hby.
  { intros q a Hq Ha. rewrite Hz, decide_False; [done|]. unfold PAGE_SIZE in *. lia. }
  assert (frames_of m2 base (i + 1) = {[p]} ∪ frames_of m1 base i) as Efr.
  { rewrite frames_of_step by done. fold va0. rewrite Hs. simpl.
    rewrite (frames_of_ext m1 m2) by done. set_solver. }
  split; [|done]. split.
  - intros va [Hva| ->]%pin_step; [..|done|done].
    + destruct (mn_in _ _ _ _ _ _ _ Hn va Hva) as (q & Hq & HqF & Hq1 & Hqz).
      exists q. rewrite Hold by done. split_and!; try done. intros a Ha. rewrite (Hby q); [by apply Hqz| |done].
      intros ->. apply Hp, elem_of_union. left. apply elem_frames_of; [done|]. eauto.
    + exists p. split_and!; [done|set_solver|done|]. intros a Ha. by rewrite Hz, decide_True.
  - assert (∀ va x, pin base i va → us_xlat m1 va = Some x → x_frame x ≠ p) as Hne.
    { intros va x Hva Hx <-. apply Hp, elem_of_union. left. apply elem_frames_of; [done|]. eauto. }
    intros va va' x x' [H1| ->]%pin_step [H2| ->]%pin_step E1 E2 E; try done.
    + rewrite Hold in E1, E2 by done. by apply (mn_inj _ _ _ _ _ _ _ Hn va va' x x').
    + fold va0 in E2. rewrite Hs in E2. injection E2 as <-. rewrite Hold in E1 by done.
      by destruct (Hne va x H1 E1).
    + fold va0 in E1. rewrite Hs in E1. injection E1 as <-. rewrite Hold in E2 by done.
      by destruct (Hne va' x' H2 E2).
  - intros va Hva Hnp. rewrite Ho; [apply (mn_out _ _ _ _ _ _ _ Hn); [done|]|done|].
    + intros ?. apply Hnp, pin_step; auto.
    + intros ->. apply Hnp, pin_step; auto.
  - intros q a Hq Ha. rewrite (Hby q a); [by apply (mn_bytes _ _ _ _ _ _ _ Hn q)| |done].
    intros ->. set_solver.
Qed.

Lemma frames_of_0 m base : frames_of m base 0 = ∅.
Proof using. done. Qed.

Lemma mapped_new_0 m F base pr nf : mapped_new m m F base 0 pr nf.
Proof using.
  split; [by intros va ?%pin_0|by intros va va' x x' ?%pin_0|done|by apply same_bytes_eq].
Qed.
Lemma mapped_new_same m m1 m2 F base n pr nf :
  user_range base n → mapped_new m m1 F base n pr nf → same_map us_xlat m1 m2 → us_byte m2 = us_byte m1 →
  mapped_new m m2 F base n pr nf ∧ frames_of m2 base n = frames_of m1 base n.
Proof using.
  intros Hr [Hin Hinj Hout Hby] Hs Eb.
  assert (∀ va, pin base n va → us_xlat m2 va = us_xlat m1 va) as Hp.
  { intros va Hva. by apply Hs, (user_range_page base n). }
  split; [|apply frames_of_ext; [apply Hr|done]]. split.
  - intros va Hva. rewrite Hp by done. destruct (Hin va Hva) as (p & ? & ? & ? & Hz). exists p.
    split_and!; try done. intros a Ha. rewrite Eb. by apply Hz.
  - intros va va' x x' H1 H2. rewrite !Hp by done. by apply Hinj.
  - intros va Hva Hn. rewrite Hs by done. by apply Hout.
  - intros p a Hpf Ha. rewrite Eb. by apply (Hby p).
Qed.

(** [vm_commit_private_pages] *)
Lemma wpv_commit base n prot s F (Q : Z → vm S → Prop) :
  us_inv (vm_machine s) F → user_range base n → 0 < n →
  (∀ va, pin base n va → us_xlat (vm_machine s) va = None) →
  (∀ m', us_inv m' (frames_of m' base n ∪ F) →
     mapped_new (vm_machine s) m' F base n (Z.land (vm_prot_to_pte_flags prot) PROT_BITS)
       (has (vm_prot_to_pte_flags prot) VMM_FLAG_NOFREE) → Q 0 (with_machine m' s)) →
  (∀ m', same_machine (vm_machine s) m' F → Q (-1) (with_machine m' s)) →
  wpv (vm_commit_private_pages cr3 base (n * PAGE_SIZE) prot) Q s.
Proof using.
  intros Hi Hr Hn Hnone Hok Hfail. unfold vm_commit_private_pages. set (m := vm_machine s) in *.
  rewrite (proj2 (Z.eqb_neq cr3 0)) by (by eapply us_cr3_ok).
  rewrite (proj2 (Z.eqb_neq (n * PAGE_SIZE) 0)) by (unfold PAGE_SIZE; lia). simpl orb. cbv iota zeta.
  set (fl := vm_prot_to_pte_flags prot) in *. apply wpe_bind. unfold for_pages. rewrite user_range_steps by done.
  pose proof Hr as [Hb _].
  apply (wpe_for_er _ _ _ (λ i s', ∃ m', s' = with_machine m' s ∧ us_inv m' (frames_of m' base i ∪ F) ∧
    mapped_new m m' F base i (Z.land fl PROT_BITS) (has fl VMM_FLAG_NOFREE))); [lia| | |].
  { exists m. split_and!; [by destruct s| |apply mapped_new_0]. by rewrite frames_of_0, (left_id_L ∅ (∪)). }
  2: { intros s' (m' & -> & Hi' & Hnew). apply wpe_ret. by apply Hok. }
  intros i s' Hin (m1 & -> & Hi1 & Hnew). pose proof (user_range_prefix base n i Hr ltac:(lia)) as Hri.
  assert (upage (base + i * PAGE_SIZE)) as Hu.
  { apply (user_range_page base n); [done|]. split; [by apply page_step|unfold PAGE_SIZE; lia]. }
  assert (pin base n (base + i * PAGE_SIZE)) as Hpn by (split; [apply Hu|unfold PAGE_SIZE; lia]).
  assert (∀ va, pin base i va → us_xlat m va = None) as Hnone'.
  { intros va [? ?]. apply Hnone. split; [done|unfold PAGE_SIZE in *; lia]. }
  assert (∀ m2, us_inv m2 (frames_of m1 base i ∪ F) → same_map us_xlat m1 m2 → us_byte m2 = us_byte m1 →
    wpv (vm_release_private_pages cr3 base (i * PAGE_SIZE);; mret (Some (-1)))
      (λ r s', match r with Some x => wpv (mret (default 0 (Some x))) Q s' | None => False end)
      (with_machine m2 s)) as Hundo.
  { intros m2 Hi2 Hs2 Eb2. destruct (mapped_new_same m m1 m2 F base i _ _ Hri Hnew Hs2 Eb2) as [Hnew2 Efr].
    apply wpe_bind. eapply (wpv_release_new m); [done|done|exact Hnew2|by simpl; rewrite Efr|].
    intros m' Hsame. apply wpe_ret, wpe_ret. simpl. by apply Hfail. }
  apply wpe_bind, wpv_on_machine. simpl. eapply us_alloc_ok; [done|..].
  { simpl. eapply wpe_mono; [apply (Hundo m1); done| |done]. by intros [x|] s'. }
  intros p m2 Hp Hpr Hi2 Eb2 Hs2. rewrite (proj2 (Z.eqb_neq (p * PAGE_SIZE) 0)) by (unfold PAGE_SIZE; lia).
  apply wpe_bind, wpv_on_machine. simpl. eapply us_map_ok; [done..|]. intros m3 Hi3 Eb3 [Hs3 Ho3].
  apply wpe_bind. eapply wpv_virt_to_phys; [done..|]. simpl. rewrite Hs3. simpl.
  rewrite land_page_addr by (by apply Z.mod_pos_bound).
  assert (∀ va', upage va' → va' ≠ base + i * PAGE_SIZE → us_xlat m3 va' = us_xlat m1 va') as Ho3'.
  { intros va' Hva' Hne. rewrite Ho3, Hs2 by done. done. }
  destruct (Z.eqb_spec (p mod 2 ^ 40 * PAGE_SIZE) (p * PAGE_SIZE)) as [E|Hne]; simpl negb; cbv iota.
  - assert (p mod 2 ^ 40 = p) as Ep by (unfold PAGE_SIZE in E; lia). rewrite Ep in Hs3.
    apply wpe_bind, wpv_on_machine. simpl. eapply us_zero_ok; [done|set_solver|].
    intros m4 Hi4 Hs4 Hz4. apply wpe_ret. exists m4.
    destruct (mapped_new_step m m1 m4 F base i p (Z.land fl PROT_BITS) (has fl VMM_FLAG_NOFREE)) as [Hnew' Efr];
      try done; [lia|lia|..].
    + split; [by rewrite Hs4|]. intros va' Hva' Hne. rewrite Hs4 by done. by apply Ho3'.
    + intros a. rewrite Hz4. destruct (decide _); [done|]. by rewrite Eb3, Eb2.
    + intros va Hva. by apply (user_range_page base i).
    + split_and!; [done| |done]. rewrite Efr. by rewrite <-(assoc_L (∪)).
  - apply wpe_bind, wpv_on_machine. simpl. eapply us_unmap_ok; [done..|]. intros m4 Hi4 Eb4 [Hs4 Ho4].
    apply wpe_bind, wpv_on_machine. simpl. eapply us_free_ok; [done|set_solver|].
    intros m5 Hi5 Eb5 Hs5. eapply wpe_mono; [apply (Hundo m5)| |done].
    + replace (frames_of m1 base i ∪ F) with (({[p]} ∪ (frames_of m1 base i ∪ F)) ∖ {[p]}) by set_solver. done.
    + intros va Hva. rewrite Hs5 by done. destruct (decide (va = base + i * PAGE_SIZE)) as [->|Hva'].
      * rewrite Hs4, (mn_out _ _ _ _ _ _ _ Hnew); [by rewrite Hnone|done|]. intros [_ ?]. lia.
      * rewrite Ho4 by done. by apply Ho3'.
    + by rewrite Eb5, Eb4, Eb3, Eb2.
    + by intros [x|] s'.
Qed.

(** ** Protecting pages *)

(** [m'] is [m] with the protection [pr] on the [n] pages from [base] on. *)
Definition protected m m' (base n pr : Z) : Prop :=
  us_byte m' = us_byte m ∧
  ∀ va, upage va → us_xlat m' va =
    if decide (pin base n va) then (λ x, Xlate (x_frame x) pr (x_nofree x)) <$> us_xlat m va
    else us_xlat m va.

(** The loop of [vm_mprotect_region_range]. *)
Lemma wpv_protect_loop base n fl s F (Q : option unit → vm S → Prop) :
  us_inv (vm_machine s) F → user_range base n →
  (∀ va, pin base n va → is_Some (us_xlat (vm_machine s) va)) →
  (∀ m', us_inv m' F → protected (vm_machine s) m' base n (Z.land fl PROT_BITS) → Q None (with_machine m' s)) →
  wpv (for_pages base (n * PAGE_SIZE) (λ _ va,
    c ← protect_user cr3 va fl; mret (if negb (c =? 0) then Some tt else None))) Q s.
Proof using.
  intros Hi Hr Hm HQ. unfold for_pages. rewrite user_range_steps by done. set (m := vm_machine s) in *.
  pose proof Hr as (Hb & Hn & _).
  apply (wpe_for_er _ _ _ (λ i s', ∃ m', s' = with_machine m' s ∧ us_inv m' F ∧
    protected m m' base i (Z.land fl PROT_BITS))); [done| | |].
  - exists m. split_and!; [by destruct s|done|]. split; [done|]. intros va _. rewrite decide_False; [done|apply pin_0].
  - intros i s' Hin (m1 & -> & Hi1 & Eb1 & Hx1).
    assert (pin base n (base + i * PAGE_SIZE)) as Hp by (split; [by apply page_step|unfold PAGE_SIZE; lia]).
    pose proof (user_range_page _ _ _ Hr Hp) as Hu. destruct (Hm _ Hp) as [x Ex].
    assert (us_xlat m1 (base + i * PAGE_SIZE) = Some x) as Ex1.
    { rewrite Hx1 by done. rewrite decide_False; [done|]. intros [_ ?]. lia. }
    apply wpe_bind, wpv_on_machine. simpl. eapply us_protect_ok; [done..|]. intros m2 Hi2 Eb2 [Hs2 Ho2].
    apply wpe_ret. simpl. exists m2. split_and!; [done|done|]. split; [by rewrite Eb2|]. intros va Hva.
    destruct (decide (va = base + i * PAGE_SIZE)) as [->|Hne].
    + rewrite Hs2, Ex. rewrite decide_True; [done|]. apply pin_step; auto. lia.
    + rewrite Ho2, Hx1 by done. destruct (decide (pin base i va)) as [Hpi|Hpi].
      * rewrite decide_True; [done|]. apply pin_step; auto. lia.
      * rewrite decide_False; [done|]. intros [?|?]%pin_step; try done. lia.
  - intros s' (m' & -> & Hi' & Hpr). by apply HQ.
Qed.
End pages.

(** * User mappings: shared objects

    The pages of the shared objects, and the effect of creating, mapping,
    releasing and destroying an object. *)

Abbreviation objects := (list vm_shared_object).
Implicit Types (o : vm_shared_object) (objs : objects) (id idx : Z).

(** The frame of page [idx] of object [id]. *)
Definition frame_in o idx : option Z :=
  if so_used o && (0 <=? idx) then
    pa ← so_pages o !! Z.to_nat idx; if pa =? 0 then None else Some (pa / PAGE_SIZE)
  else None.
Definition obj_page objs id idx : option Z :=
  if 0 <=? id then o ← objs !! Z.to_nat id; frame_in o idx else None.

(** A page has one reference and a frame, or none of them. *)
Record object_wf o : Prop := {
  ow_pages : length (so_pages o) = Z.to_nat (so_page_count o);
  ow_refs : length (so_page_refs o) = Z.to_nat (so_page_count o);
  ow_count : 0 ≤ so_page_count o < 2 ^ 32;
  ow_ptr : so_pages_ptr o ≠ 0;
  ow_page : ∀ i pa n, so_pages o !! i = Some pa → so_page_refs o !! i = Some n →
    (pa = 0 ∧ n = 0) ∨ (n = 1 ∧ ∃ p, 1 ≤ p ∧ pa = p * PAGE_SIZE)
}.

(** The objects, whose frames are all different and belong to [F]. *)
Record objs_ok objs (F : gset Z) : Prop := {
  oo_length : length objs = Z.to_nat FRY_VM_SHARED_MAX;
  oo_wf : ∀ i o, objs !! i = Some o → so_used o = true → object_wf o;
  oo_frames : ∀ id idx p, obj_page objs id idx = Some p → p ∈ F;
  oo_inj : ∀ id idx id' idx' p,
    obj_page objs id idx = Some p → obj_page objs id' idx' = Some p → id = id' ∧ idx = idx'
}.

Lemma obj_page_Some objs id idx p :
  obj_page objs id idx = Some p ↔
  0 ≤ id ∧ 0 ≤ idx ∧ ∃ o pa, objs !! Z.to_nat id = Some o ∧ so_used o = true ∧
    so_pages o !! Z.to_nat idx = Some pa ∧ pa ≠ 0 ∧ p = pa / PAGE_SIZE.
Proof.
  unfold obj_page, frame_in. split.
  - destruct (Z.leb_spec 0 id); [|done]. destruct (objs !! Z.to_nat id) as [o|]; [|done]. simpl.
    destruct (so_used o) eqn:Hu; [|done]. destruct (Z.leb_spec 0 idx); [|done]. simpl.
    destruct (so_pages o !! Z.to_nat idx) as [pa|] eqn:E; [|done]. simpl.
    destruct (Z.eqb_spec pa 0); [done|]. intros [= <-]. split_and!; [done..|]. by exists o, pa.
  - intros (? & ? & o & pa & -> & Hu & E & Hne & ->).
    rewrite (proj2 (Z.leb_le 0 id)), (proj2 (Z.leb_le 0 idx)) by done. simpl. rewrite Hu, E. simpl.
    by rewrite (proj2 (Z.eqb_neq pa 0)).
Qed.

(** Assigning an object changes the pages of that object only. *)
Lemma obj_page_put objs i o id idx :
  (i < length objs)%nat →
  obj_page (<[i := o]> objs) id idx = if decide (id = Z.of_nat i) then frame_in o idx else obj_page objs id idx.
Proof.
  intros Hi. unfold obj_page. destruct (decide (id = Z.of_nat i)) as [->|Hne].
  - rewrite (proj2 (Z.leb_le 0 (Z.of_nat i))) by lia. rewrite Nat2Z.id, list_lookup_insert_eq by done. done.
  - destruct (Z.leb_spec 0 id); [|done]. rewrite list_lookup_insert_ne by lia. done.
Qed.

Lemma frame_in_unused o idx : so_used o = false → frame_in o idx = None.
Proof. intros E. unfold frame_in. by rewrite E. Qed.

(** The frame of a page whose entry is replaced. *)
Lemma frame_in_set o i pa n idx :
  (i < length (so_pages o))%nat → so_used o = true →
  frame_in (set_page o i pa n) idx =
    if decide (idx = Z.of_nat i) then (if pa =? 0 then None else Some (pa / PAGE_SIZE)) else frame_in o idx.
Proof.
  intros Hi Hu. unfold frame_in. simpl. rewrite Hu. simpl. destruct (decide (idx = Z.of_nat i)) as [->|Hne].
  - rewrite (proj2 (Z.leb_le 0 (Z.of_nat i))) by lia. rewrite Nat2Z.id, list_lookup_insert_eq by done. done.
  - destruct (Z.leb_spec 0 idx); [|done]. by rewrite list_lookup_insert_ne by lia.
Qed.

Lemma set_page_wf o i pa n :
  object_wf o → ((pa = 0 ∧ n = 0) ∨ (n = 1 ∧ ∃ p, 1 ≤ p ∧ pa = p * PAGE_SIZE)) →
  object_wf (set_page o i pa n).
Proof.
  intros [H1 H2 H3 H4 H5] Hp. split; simpl; rewrite ?length_insert; try done.
  intros j pa' n' [(-> & <- & _)|[Hj E1]]%list_lookup_insert_Some
    [(? & <- & _)|[Hj' E2]]%list_lookup_insert_Some; try done. by apply (H5 j).
Qed.

(** The frames of [n] pages of an object. *)
Definition back_frames objs id start n : gset Z :=
  list_to_set (omap (λ i, obj_page objs id (start + i)) (seqZ 0 n)).

Lemma elem_back_frames objs id start n p :
  p ∈ back_frames objs id start n ↔ ∃ idx, start ≤ idx < start + n ∧ obj_page objs id idx = Some p.
Proof.
  unfold back_frames. rewrite elem_of_list_to_set, list_elem_of_omap. split.
  - intros (i & Hi%elem_of_seqZ & Hp). exists (start + i). split; [lia|done].
  - intros (idx & Hi & Hp). exists (idx - start). split; [apply elem_of_seqZ; lia|].
    by replace (start + (idx - start)) with idx by lia.
Qed.

(** Objects without the pages [start, start + n) of object [id]. *)
Definition dropped objs objs' id start n : Prop :=
  ∀ id' idx, obj_page objs' id' idx =
    if decide (id' = id ∧ start ≤ idx < start + n) then None else obj_page objs id' idx.

Lemma dropped_ok objs objs' F id start n :
  objs_ok objs F → length objs' = length objs →
  (∀ i o, objs' !! i = Some o → so_used o = true → object_wf o) → dropped objs objs' id start n →
  objs_ok objs' (F ∖ back_frames objs id start n).
Proof.
  intros [Hl Hw Hf Hinj] El Hwf Hd.
  assert (∀ id' idx p, obj_page objs' id' idx = Some p →
    obj_page objs id' idx = Some p ∧ ¬ (id' = id ∧ start ≤ idx < start + n)) as Hold.
  { intros id' idx p Hp. rewrite Hd in Hp. by destruct (decide _). }
  split; [congruence|done| |].
  - intros id' idx p [Hp Hn]%Hold. apply elem_of_difference. split; [by eapply Hf|].
    intros (idx2 & Hr & Hp2)%elem_back_frames. destruct (Hinj _ _ _ _ _ Hp Hp2) as [-> ->]. tauto.
  - intros id1 idx1 id2 idx2 p [Hp1 _]%Hold [Hp2 _]%Hold. by eapply Hinj.
Qed.

Lemma dropped_0 objs id start : dropped objs objs id start 0.
Proof. intros id' idx. rewrite decide_False; [done|]. lia. Qed.

Lemma back_frames_step objs id start k :
  0 ≤ k → back_frames objs id start (k + 1) =
    back_frames objs id start k ∪ list_to_set (option_list (obj_page objs id (start + k))).
Proof.
  intros Hk. unfold back_frames. rewrite seqZ_app by lia. rewrite omap_app, list_to_set_app_L. f_equal.
Qed.

(** The next frame of a run has not been met before. *)
Lemma back_frames_fresh objs F id start k p :
  objs_ok objs F → obj_page objs id (start + k) = Some p → p ∈ F ∖ back_frames objs id start k.
Proof.
  intros Hok Hp. apply elem_of_difference. split; [by eapply (oo_frames _ _ Hok)|].
  intros (idx & Hi & Hp2)%elem_back_frames. destruct (oo_inj _ _ Hok _ _ _ _ _ Hp Hp2). lia.
Qed.

(** The entry of a page, as stored and as a frame. *)
Lemma page_entry objs F i o idx :
  objs_ok objs F → objs !! i = Some o → so_used o = true → 0 ≤ idx < so_page_count o →
  ∃ pa n, so_pages o !! Z.to_nat idx = Some pa ∧ so_page_refs o !! Z.to_nat idx = Some n ∧
    ((pa = 0 ∧ n = 0 ∧ obj_page objs (Z.of_nat i) idx = None) ∨
     (n = 1 ∧ ∃ p, 1 ≤ p ∧ pa = p * PAGE_SIZE ∧ obj_page objs (Z.of_nat i) idx = Some p)).
Proof.
  intros Hok Hl Hu Hi. destruct (oo_wf _ _ Hok i o Hl Hu) as [H1 H2 H3 H4 H5].
  destruct (lookup_lt_is_Some_2 (so_pages o) (Z.to_nat idx)) as [pa Epa]; [lia|].
  destruct (lookup_lt_is_Some_2 (so_page_refs o) (Z.to_nat idx)) as [n En]; [lia|].
  exists pa, n. split_and!; [done..|]. unfold obj_page, frame_in.
  rewrite (proj2 (Z.leb_le 0 (Z.of_nat i))), Nat2Z.id, Hl by lia. simpl.
  rewrite Hu, (proj2 (Z.leb_le 0 idx)) by lia. simpl. rewrite Epa. simpl.
  destruct (H5 _ _ _ Epa En) as [[-> ->]|(-> & p & Hp & ->)]; [by left|right].
  split; [done|]. exists p. split_and!; [done..|].
  rewrite (proj2 (Z.eqb_neq (p * PAGE_SIZE) 0)) by (unfold PAGE_SIZE; lia). by rewrite Z.div_mul.
Qed.

(** An object of [n] pages of which the first ones have the frames [ps]. *)
Definition obj_with (pp rp : Z) (n : nat) (ps : list Z) : vm_shared_object :=
  SharedObject pp (((λ p, p * PAGE_SIZE) <$> ps) ++ replicate (n - length ps) 0)
    rp (replicate (length ps) 1 ++ replicate (n - length ps) 0) (Z.of_nat n) true.

Lemma obj_with_snoc pp rp n ps p :
  (length ps < n)%nat →
  set_page (obj_with pp rp n ps) (length ps) (p * PAGE_SIZE) 1 = obj_with pp rp n (ps ++ [p]).
Proof.
  intros Hn. unfold set_page, obj_with. simpl. rewrite length_app. simpl.
  replace (n - length ps)%nat with (S (n - (length ps + 1))) by lia. simpl. f_equal.
  - rewrite insert_app_r_alt by (rewrite length_fmap; lia). rewrite length_fmap, Nat.sub_diag. simpl.
    by rewrite fmap_app, <-app_assoc.
  - rewrite insert_app_r_alt by (rewrite length_replicate; lia). rewrite length_replicate, Nat.sub_diag. simpl.
    by rewrite replicate_add, <-app_assoc.
Qed.

Lemma obj_with_frame pp rp n ps idx :
  Forall (λ p, 1 ≤ p) ps →
  frame_in (obj_with pp rp n ps) idx = if 0 <=? idx then ps !! Z.to_nat idx else None.
Proof.
  intros Hps. unfold frame_in. simpl. destruct (0 <=? idx); [|done]. simpl.
  destruct (decide (Z.to_nat idx < length ps)%nat) as [Hlt|Hge].
  - rewrite lookup_app_l by (by rewrite length_fmap). rewrite list_lookup_fmap.
    apply lookup_lt_is_Some_2 in Hlt as [p Hp]. rewrite Hp. simpl.
    rewrite Forall_lookup in Hps. specialize (Hps _ _ Hp).
    rewrite (proj2 (Z.eqb_neq (p * PAGE_SIZE) 0)) by (unfold PAGE_SIZE; lia). by rewrite Z.div_mul.
  - rewrite (lookup_ge_None_2 ps) by lia. rewrite lookup_app_r by (rewrite length_fmap; lia).
    destruct (replicate _ _ !! _) as [x|] eqn:E; [|done]. apply lookup_replicate in E as [-> _]. done.
Qed.

Lemma obj_with_wf pp rp n ps :
  (length ps ≤ n)%nat → Z.of_nat n < 2 ^ 32 → pp ≠ 0 → Forall (λ p, 1 ≤ p) ps →
  object_wf (obj_with pp rp n ps).
Proof.
  intros Hn Hn2 Hpp Hps. split; simpl; rewrite ?length_app, ?length_fmap, ?length_replicate; try lia.
  intros i pa k. destruct (decide (i < length ps)%nat) as [Hlt|Hge].
  - rewrite !lookup_app_l by (rewrite ?length_fmap, ?length_replicate; done).
    rewrite list_lookup_fmap. intros Hp%fmap_Some [-> _]%lookup_replicate. destruct Hp as (p & Hp & ->).
    right. split; [done|]. exists p. rewrite Forall_lookup in Hps. by split; [apply (Hps i)|].
  - rewrite !lookup_app_r by (rewrite ?length_fmap, ?length_replicate; lia).
    intros [-> _]%lookup_replicate [-> _]%lookup_replicate. by left.
Qed.

(** A free slot of the table of objects. *)
Definition unused_slot objs (i : nat) : Prop := ∃ o, objs !! i = Some o ∧ so_used o = false.

Lemma unused_page objs i idx : unused_slot objs i → obj_page objs (Z.of_nat i) idx = None.
Proof.
  intros (o & Hl & Hu). unfold obj_page. rewrite (proj2 (Z.leb_le 0 (Z.of_nat i))), Nat2Z.id, Hl by lia.
  by apply frame_in_unused.
Qed.

Lemma unused_reset objs F i :
  objs_ok objs F → unused_slot objs i →
  objs_ok (<[i := vm_shared_reset]> objs) F ∧
  ∀ id idx, obj_page (<[i := vm_shared_reset]> objs) id idx = obj_page objs id idx.
Proof.
  intros Hok Hun. pose proof Hun as (o & Hl & Hu). pose proof (lookup_lt_Some _ _ _ Hl) as Hlt.
  assert (∀ id idx, obj_page (<[i := vm_shared_reset]> objs) id idx = obj_page objs id idx) as Hp.
  { intros id idx. rewrite obj_page_put by done. destruct (decide (id = Z.of_nat i)) as [->|]; [|done].
    by rewrite unused_page. }
  split; [|done]. destruct Hok as [H1 H2 H3 H4]. split.
  - by rewrite length_insert.
  - intros j x [(-> & <- & _)|[? ?]]%list_lookup_insert_Some Hux; [done|by eapply H2].
  - intros id idx p. rewrite Hp. apply H3.
  - intros id idx id' idx' p. rewrite !Hp. apply H4.
Qed.

Section new_object.
Context objs (F : gset Z) (i : nat) (pp rp : Z) (n : nat) (ps : list Z).
Context (Hok : objs_ok objs F) (Hun : unused_slot objs i) (Hn : (length ps ≤ n)%nat)
  (Hn2 : Z.of_nat n < 2 ^ 32) (Hpp : pp ≠ 0) (Hps : Forall (λ p, 1 ≤ p) ps) (Hnd : NoDup ps)
  (Hdis : Forall (λ p, p ∉ F) ps).

Let objs' := <[i := obj_with pp rp n ps]> objs.

Lemma new_object_page id idx :
  obj_page objs' id idx =
    if decide (id = Z.of_nat i) then (if 0 <=? idx then ps !! Z.to_nat idx else None) else obj_page objs id idx.
Proof using Hun Hps.
  destruct Hun as (o & Hl & _). unfold objs'. rewrite obj_page_put by (by eapply lookup_lt_Some).
  by rewrite obj_with_frame.
Qed.

Lemma new_object_ok : objs_ok objs' (list_to_set ps ∪ F).
Proof using All.
  assert (∀ id idx p, obj_page objs' id idx = Some p →
    (id = Z.of_nat i ∧ 0 ≤ idx ∧ ps !! Z.to_nat idx = Some p ∧ p ∉ F) ∨
    (id ≠ Z.of_nat i ∧ obj_page objs id idx = Some p ∧ p ∈ F)) as Hc.
  { intros id idx p. rewrite new_object_page. destruct (decide _) as [->|Hne].
    - destruct (Z.leb_spec 0 idx); [|done]. intros Hp. left. split_and!; try done.
      rewrite Forall_lookup in Hdis. by apply (Hdis (Z.to_nat idx)).
    - intros Hp. right. split_and!; try done. by apply (oo_frames _ _ Hok id idx). }
  split.
  - unfold objs'. rewrite length_insert. apply Hok.
  - intros j x [(-> & <- & _)|[? ?]]%list_lookup_insert_Some Hux; [by apply obj_with_wf|by eapply (oo_wf _ _ Hok)].
  - intros id idx p [(_ & _ & Hp & _)|(_ & _ & Hp)]%Hc; apply elem_of_union; [left|by right].
    apply elem_of_list_to_set. by eapply list_elem_of_lookup_2.
  - intros id idx id' idx' p [(-> & ? & Hp & HF)|(? & Hp & HF)]%Hc [(-> & ? & Hp' & HF')|(? & Hp' & HF')]%Hc;
      [|done|done|by eapply (oo_inj _ _ Hok)].
    split; [done|]. apply Z2Nat.inj; [done..|]. by eapply NoDup_lookup.
Qed.

Lemma new_object_frames : length ps = n → back_frames objs' (Z.of_nat i) 0 (Z.of_nat n) = list_to_set ps.
Proof using Hun Hps Hn.
  intros El. apply set_eq. intros p. rewrite elem_back_frames, elem_of_list_to_set. split.
  - intros (idx & Hr & Hp). rewrite new_object_page, decide_True in Hp by done.
    destruct (0 <=? idx); [|done]. by eapply list_elem_of_lookup_2.
  - intros (k & Hk)%list_elem_of_lookup. exists (Z.of_nat k). pose proof (lookup_lt_Some _ _ _ Hk).
    split; [lia|]. rewrite new_object_page, decide_True by done.
    by rewrite (proj2 (Z.leb_le 0 (Z.of_nat k))), Nat2Z.id by lia.
Qed.

(** Destroying the object gives its frames back, whether it is complete or not. *)
Lemma new_object_undo :
  (list_to_set ps ∪ F) ∖ back_frames objs' (Z.of_nat i) 0 (Z.of_nat n) = F.
Proof using All.
  apply set_eq. intros p. rewrite elem_of_difference, elem_of_union, elem_of_list_to_set, elem_back_frames. split.
  - intros [[Hp|Hp] Hno]; [|done]. exfalso. apply list_elem_of_lookup in Hp as [k Hk]. apply Hno.
    pose proof (lookup_lt_Some _ _ _ Hk). exists (Z.of_nat k). split; [lia|].
    rewrite new_object_page, decide_True by done.
    by rewrite (proj2 (Z.leb_le 0 (Z.of_nat k))), Nat2Z.id by lia.
  - intros Hp. split; [by right|]. intros (idx & Hr & Hx). rewrite new_object_page, decide_True in Hx by done.
    destruct (0 <=? idx); [|done]. rewrite Forall_lookup in Hdis. by apply (Hdis _ _ Hx).
Qed.
End new_object.

Section shared.
Context {S : Type} `{!UserSpace S} {cr3 : Z} `{!UserSpaceLaws S cr3}.
Implicit Types (m : S) (s : vm S) (F : gset Z).

Abbreviation wpv m Q s := (wpe m Q (λ _, True) s).

Definition with_objects (objs : objects) (m : S) s : vm S := Vm (vm_regions s) objs m.

Lemma wpv_object_at s i o (Q : vm_shared_object → vm S → Prop) :
  vm_shared_objects s !! i = Some o → Q o s → wpv (object_at i) Q s.
Proof using. intros Hl HQ. apply wpe_run. by eapply wp_lift_opt. Qed.

Lemma wpv_put_object s i o (Q : unit → vm S → Prop) :
  (i < length (vm_shared_objects s))%nat →
  Q tt (with_objects (<[i := o]> (vm_shared_objects s)) (vm_machine s) s) → wpv (put_object i o) Q s.
Proof using.
  intros Hi HQ. apply lookup_lt_is_Some_2 in Hi as [x Hx]. apply wpe_run.
  eapply wp_update_opt; [by rewrite Hx|done].
Qed.

(** The machine after frames were given back. *)
Definition same_but m m' : Prop := us_byte m' = us_byte m ∧ same_map us_xlat m m'.

Lemma same_but_refl m : same_but m m.
Proof using. by split. Qed.
Lemma same_but_trans m1 m2 m3 : same_but m1 m2 → same_but m2 m3 → same_but m1 m3.
Proof using.
  intros [E1 H1] [E2 H2]. split; [congruence|]. intros va Hva. rewrite H2, H1 by done. done.
Qed.

(** [vm_shared_destroy] of an object in use. *)
Lemma wpv_shared_destroy s F i o (Q : unit → vm S → Prop) :
  us_inv (vm_machine s) F → objs_ok (vm_shared_objects s) F →
  vm_shared_objects s !! i = Some o → so_used o = true →
  (∀ m', us_inv m' (F ∖ back_frames (vm_shared_objects s) (Z.of_nat i) 0 (so_page_count o)) →
     same_but (vm_machine s) m' →
     Q tt (with_objects (<[i := vm_shared_reset]> (vm_shared_objects s)) m' s)) →
  wpv (vm_shared_destroy i) Q s.
Proof using.
  intros Hi Hok Hl Hu HQ. set (objs := vm_shared_objects s) in *. set (m := vm_machine s) in *.
  pose proof (oo_wf _ _ Hok i o Hl Hu) as Hwf. pose proof (lookup_lt_Some _ _ _ Hl) as Hlt.
  unfold vm_shared_destroy. apply wpe_bind. eapply wpv_object_at; [done|]. rewrite Hu. simpl.
  rewrite (proj2 (Z.eqb_neq (so_pages_ptr o) 0)) by apply Hwf.
  set (I := λ k s', ∃ m' o', s' = with_objects (<[i := o']> objs) m' s ∧
    us_inv m' (F ∖ back_frames objs (Z.of_nat i) 0 k) ∧ same_but m m' ∧
    so_page_refs o' = so_page_refs o ∧
    (∀ j, k ≤ Z.of_nat j → so_pages o' !! j = so_pages o !! j)).
  apply wpe_bind, (wpe_for_er _ _ _ I); [apply Hwf| | |].
  - exists m, o. rewrite list_insert_id by done. split_and!; [by destruct s| |apply same_but_refl|done|done].
    replace (F ∖ _) with F; [done|]. unfold back_frames. simpl. set_solver.
  - intros k s' Hk (m1 & o1 & -> & Hi1 & Hs1 & Er & Ep).
    apply wpe_bind. eapply wpv_object_at; [by apply list_lookup_insert_eq|].
    destruct (page_entry objs F i o k Hok Hl Hu Hk) as (pa & n & Epa & En & Hcase).
    apply wpe_bind. eapply wpe_need; [by rewrite Ep by lia|].
    pose proof (back_frames_step objs (Z.of_nat i) 0 k ltac:(lia)) as Ebf. rewrite Z.add_0_l in Ebf.
    destruct Hcase as [(-> & _ & Eop)|(-> & p & Hp & -> & Eop)]; rewrite Eop in Ebf; simpl in Ebf.
    + simpl. apply wpe_ret. exists m1, o1. rewrite Ebf, (right_id_L ∅ (∪)). split_and!; try done.
      intros j Hj. apply Ep. lia.
    + rewrite (proj2 (Z.eqb_neq (p * PAGE_SIZE) 0)) by (unfold PAGE_SIZE; lia).
      apply wpe_bind, wpv_on_machine. simpl.
      pose proof (back_frames_fresh objs F (Z.of_nat i) 0 k p Hok Eop) as Hpf.
      eapply us_free_ok; [done..|]. intros m2 Hi2 Eb2 Hs2. apply wpe_bind.
      eapply wpe_need; [by rewrite Er|]. apply wpe_bind, wpv_put_object; [by simpl; rewrite length_insert|].
      apply wpe_ret. exists m2, (set_page o1 (Z.to_nat k) 0 1). split_and!.
      * unfold with_objects, with_machine. simpl. by rewrite list_insert_insert_eq.
      * rewrite Ebf. replace (F ∖ _) with (F ∖ back_frames objs (Z.of_nat i) 0 k ∖ {[p]}) by set_solver. done.
      * by eapply same_but_trans.
      * simpl. rewrite Er. by apply list_insert_id.
      * intros j Hj. simpl. rewrite list_lookup_insert_ne by lia. apply Ep. lia.
  - intros s' (m1 & o1 & -> & Hi1 & Hs1 & _ & _).
    apply wpe_bind, wpv_on_machine. eapply us_kfree_ok; [done|]. intros m2 Hi2 Eb2 Hs2.
    apply wpe_bind.
    assert (∀ m3, us_inv m3 (F ∖ back_frames objs (Z.of_nat i) 0 (so_page_count o)) → same_but m m3 →
      wpv (put_object i vm_shared_reset) Q (with_machine m3 (with_objects (<[i := o1]> objs) m1 s))) as Hend.
    { intros m3 Hi3 Hs3. apply wpv_put_object; [by simpl; rewrite length_insert|]. simpl.
      rewrite list_insert_insert_eq. by apply HQ. }
    assert (same_but m m2) as Hs by (by eapply same_but_trans).
    destruct (so_refs_ptr o =? 0); [by apply wpe_ret, Hend|]. apply wpv_on_machine.
    eapply us_kfree_ok; [done|]. intros m3 Hi3 Eb3 Hs3. apply (Hend m3); [done|]. by eapply same_but_trans.
Qed.
(** [vm_shared_create]: an object of [n] new frames full of zeros, or nothing. *)
Record new_frames m m' F (ps : list Z) : Prop := {
  nf_inv : us_inv m' (list_to_set ps ∪ F);
  nf_pos : Forall (λ p, 1 ≤ p) ps;
  nf_nodup : NoDup ps;
  nf_new : Forall (λ p, p ∉ F) ps;
  nf_zero : Forall (zeroed m') ps;
  nf_map : same_map us_xlat m m';
  nf_bytes : same_bytes F m m'
}.

Lemma new_frames_snoc m m1 m2 m3 F ps p :
  new_frames m m1 F ps → p ∉ (list_to_set ps ∪ F : gset Z) → 1 ≤ p → same_but m1 m2 →
  us_inv m3 ({[p]} ∪ (list_to_set ps ∪ F)) → same_map us_xlat m2 m3 →
  (∀ a, us_byte m3 a = if decide (p * PAGE_SIZE ≤ a < (p + 1) * PAGE_SIZE) then 0 else us_byte m2 a) →
  new_frames m m3 F (ps ++ [p]).
Proof using.
  intros [H1 H2 H3 H4 H5 H6 H7] Hp Hp1 [Eb Hs] Hi Hs3 Hz.
  apply not_elem_of_union in Hp as [Hpp HpF]. rewrite elem_of_list_to_set in Hpp.
  assert (∀ q a, q ≠ p → q * PAGE_SIZE ≤ a < (q + 1) * PAGE_SIZE → us_byte m3 a = us_byte m1 a) as Hby.
  { intros q a Hq Ha. rewrite Hz, decide_False, Eb; [done|]. unfold PAGE_SIZE in *. lia. }
  split.
  - replace (list_to_set (ps ++ [p]) ∪ F : gset Z) with ({[p]} ∪ (list_to_set ps ∪ F) : gset Z) by set_solver. done.
  - by apply Forall_app_2; [|constructor].
  - apply NoDup_app. split; [done|]. split; [|apply NoDup_singleton]. intros q Hq ->%list_elem_of_singleton. done.
  - by apply Forall_app_2; [|constructor].
  - apply Forall_app_2; [|constructor; [|done]].
    + rewrite Forall_forall in H5 |- *. intros q Hq a Ha. rewrite (Hby q); [by apply (H5 q)| |done].
      by intros ->.
    + intros a Ha. by rewrite Hz, decide_True.
  - intros va Hva. rewrite Hs3, Hs, H6 by done. done.
  - intros q a Hq Ha. rewrite (Hby q a); [by apply (H7 q)| |done]. by intros ->.
Qed.

Lemma wpv_shared_create s F n (Q : option nat → vm S → Prop) :
  us_inv (vm_machine s) F → objs_ok (vm_shared_objects s) F → Z.of_nat n < 2 ^ 32 →
  (∀ i pp rp ps m', unused_slot (vm_shared_objects s) i → pp ≠ 0 → length ps = n →
     new_frames (vm_machine s) m' F ps →
     Q (Some i) (with_objects (<[i := obj_with pp rp n ps]> (vm_shared_objects s)) m' s)) →
  (∀ objs' m', objs_ok objs' F →
     (∀ id idx, obj_page objs' id idx = obj_page (vm_shared_objects s) id idx) →
     same_machine (vm_machine s) m' F → Q None (with_objects objs' m' s)) →
  wpv (vm_shared_create (Z.of_nat n)) Q s.
Proof using.
  intros Hi Hok Hn Hyes Hno. set (objs := vm_shared_objects s) in *. set (m := vm_machine s) in *.
  unfold vm_shared_create. apply wpe_bind, wpe_state. fold objs.
  destruct (vm_shared_alloc_slot objs) as [i|] eqn:Es.
  2: { apply wpe_ret. replace s with (with_objects objs m s) by (by destruct s).
       apply Hno; [done|done|]. split_and!; [done|done|by apply same_bytes_eq]. }
  assert (unused_slot objs i) as Hun.
  { apply find_0_Some in Es as (o & Hl & Hu%negb_true_iff). by exists o. }
  assert (i < length objs)%nat as Hlt by (destruct Hun as (o & Hl & _); by eapply lookup_lt_Some).
  destruct (unused_reset objs F i Hok Hun) as [Hokr Hpr].
  apply wpe_bind, wpv_put_object; [done|]. fold objs m.
  apply wpe_bind, wpv_on_machine. eapply us_kmalloc_ok; [done|]. intros pp m1 Hi1 Eb1 Hs1. simpl.
  destruct (Z.eqb_spec pp 0) as [->|Hpp].
  { apply wpe_ret. apply Hno; [done|done|]. split_and!; [done|done|by apply same_bytes_eq]. }
  apply wpe_bind, wpv_on_machine. eapply us_kmalloc_ok; [done|]. intros rp m2 Hi2 Eb2 Hs2. simpl.
  assert (same_but m m2) as Hs02 by (by apply (same_but_trans m m1 m2)).
  destruct (Z.eqb_spec rp 0) as [->|Hrp].
  { apply wpe_bind, wpv_on_machine. eapply us_kfree_ok; [done|]. intros m3 Hi3 Eb3 Hs3. apply wpe_ret.
    apply Hno; [done|done|]. destruct (same_but_trans m m2 m3 Hs02 (conj Eb3 Hs3)).
    split_and!; [done|done|by apply same_bytes_eq]. }
  cbv zeta. rewrite Nat2Z.id. apply wpe_bind, wpv_put_object; [by simpl; rewrite length_insert|]. simpl.
  rewrite list_insert_insert_eq.
  set (I := λ k s', ∃ ps m', s' = with_objects (<[i := obj_with pp rp n ps]> objs) m' s ∧
    Z.of_nat (length ps) = k ∧ new_frames m m' F ps).
  apply wpe_bind, (wpe_for_er _ _ _ I); [lia| | |].
  - exists [], m2. split_and!; [by unfold obj_with; simpl; rewrite Nat.sub_0_r|done|].
    destruct Hs02 as [Eb02 Hs02]. split; try done; try constructor; [|by apply same_bytes_eq].
    simpl. by rewrite (left_id_L ∅ (∪)).
  - intros k s' Hk (ps & m3 & -> & El & Hnf).
    pose proof (new_object_ok objs F i pp rp n ps Hok Hun ltac:(lia) Hn Hpp (nf_pos _ _ _ _ Hnf)
      (nf_nodup _ _ _ _ Hnf) (nf_new _ _ _ _ Hnf)) as Hok3.
    apply wpe_bind, wpv_on_machine. eapply us_alloc_ok; [apply Hnf|..].
    + simpl. apply wpe_bind. eapply (wpv_shared_destroy _ (list_to_set ps ∪ F)).
      * apply Hnf. * exact Hok3. * by apply list_lookup_insert_eq. * done.
      * simpl. intros m4 Hi4 Hs4. apply wpe_ret. rewrite list_insert_insert_eq. apply wpe_ret.
        rewrite new_object_undo in Hi4; [|done|done|lia|done|done|apply Hnf|apply Hnf|apply Hnf].
        apply Hno; [done|done|]. destruct Hs4 as [Eb4 Hs4]. split_and!; [done| |].
        -- intros va Hva. by rewrite Hs4, (nf_map _ _ _ _ Hnf).
        -- intros p a Hp Ha. rewrite Eb4. by apply (nf_bytes _ _ _ _ Hnf p).
    + intros p m4 Hp Hpr4 Hi4 Eb4 Hs4. simpl.
      rewrite (proj2 (Z.eqb_neq (p * PAGE_SIZE) 0)) by (unfold PAGE_SIZE; lia).
      apply wpe_bind, wpv_on_machine. simpl. eapply us_zero_ok; [done|set_solver|].
      intros m5 Hi5 Hs5 Hz5. apply wpe_bind. eapply wpv_object_at; [by apply list_lookup_insert_eq|].
      apply wpe_bind, wpv_put_object; [by simpl; rewrite length_insert|]. apply wpe_ret.
      exists (ps ++ [p]), m5. split_and!.
      * unfold with_objects. simpl. rewrite list_insert_insert_eq. replace (Z.to_nat k) with (length ps) by lia.
        by rewrite obj_with_snoc by lia.
      * rewrite length_app. simpl. lia.
      * apply (new_frames_snoc m m3 m4 m5 F ps p); try done. lia.
  - intros s' (ps & m3 & -> & El & Hnf). apply wpe_ret. apply Hyes; try done. lia.
Qed.
(** ** Releasing pages of an object *)

Lemma all_released_pages objs F i o :
  objs_ok objs F → objs !! i = Some o → so_used o = true → vm_shared_all_released o = true →
  ∀ idx, obj_page objs (Z.of_nat i) idx = None.
Proof using.
  intros Hok Hl Hu Hr idx. destruct (obj_page objs (Z.of_nat i) idx) as [p|] eqn:Ep; [|done]. exfalso.
  pose proof (oo_wf _ _ Hok i o Hl Hu) as Hwf.
  assert (0 ≤ idx < so_page_count o) as Hidx.
  { apply obj_page_Some in Ep as (_ & ? & o' & pa & Hl' & _ & Hpa & _). rewrite Nat2Z.id, Hl in Hl'.
    injection Hl' as <-. apply lookup_lt_Some in Hpa. rewrite (ow_pages _ Hwf) in Hpa. lia. }
  destruct (page_entry objs F i o idx Hok Hl Hu Hidx) as (pa & n & _ & En & [(_ & _ & E)|(-> & _)]);
    [congruence|].
  unfold vm_shared_all_released in Hr. rewrite Hu in Hr. simpl in Hr.
  rewrite take_ge in Hr by (rewrite (ow_refs _ Hwf); lia). rewrite forallb_forall in Hr.
  specialize (Hr 1). rewrite <-list_elem_of_In in Hr. by apply list_elem_of_lookup_2, Hr in En.
Qed.

(** [vm_shared_release_range] on pages of an object in use. *)
Lemma wpv_shared_release s F i o start cnt (Q : unit → vm S → Prop) :
  us_inv (vm_machine s) F → objs_ok (vm_shared_objects s) F →
  vm_shared_objects s !! i = Some o → so_used o = true →
  0 ≤ start → 0 ≤ cnt → start + cnt ≤ so_page_count o →
  (∀ objs' m', us_inv m' (F ∖ back_frames (vm_shared_objects s) (Z.of_nat i) start cnt) →
     objs_ok objs' (F ∖ back_frames (vm_shared_objects s) (Z.of_nat i) start cnt) →
     dropped (vm_shared_objects s) objs' (Z.of_nat i) start cnt → same_but (vm_machine s) m' →
     Q tt (with_objects objs' m' s)) →
  wpv (vm_shared_release_range (Z.of_nat i) start cnt) Q s.
Proof using.
  intros Hi Hok Hl Hu Hst Hcnt Hle HQ. set (objs := vm_shared_objects s) in *. set (m := vm_machine s) in *.
  pose proof (lookup_lt_Some _ _ _ Hl) as Hlt. pose proof (oo_wf _ _ Hok i o Hl Hu) as Hwf.
  pose proof (ow_count _ Hwf) as Hcount.
  unfold vm_shared_release_range. rewrite (proj2 (Z.leb_gt FRY_VM_SHARED_MAX (Z.of_nat i))).
  2: { rewrite (oo_length _ _ Hok) in Hlt. unfold FRY_VM_SHARED_MAX in *. lia. }
  cbv zeta. rewrite Nat2Z.id. apply wpe_bind. eapply wpv_object_at; [done|]. rewrite Hu.
  rewrite (proj2 (Z.ltb_ge (so_page_count o) start)), (proj2 (Z.ltb_ge (so_page_count o - start) cnt)) by lia.
  simpl orb. cbv iota.
  set (bf := back_frames objs (Z.of_nat i) start).
  set (I := λ k s', ∃ o1 m1, s' = with_objects (<[i := o1]> objs) m1 s ∧ us_inv m1 (F ∖ bf k) ∧
    same_but m m1 ∧ so_used o1 = true ∧ so_page_count o1 = so_page_count o ∧ object_wf o1 ∧
    dropped objs (<[i := o1]> objs) (Z.of_nat i) start k).
  assert (∀ o1 k, object_wf o1 → dropped objs (<[i := o1]> objs) (Z.of_nat i) start k →
    objs_ok (<[i := o1]> objs) (F ∖ bf k)) as Hokk.
  { intros o1 k Hw1 Hd. apply dropped_ok; try done; [by rewrite length_insert|].
    intros j x [(-> & <- & _)|[? ?]]%list_lookup_insert_Some Hux; [done|by eapply (oo_wf _ _ Hok)]. }
  apply wpe_bind, (wpe_for_er _ _ _ I); [done| | |].
  - exists o, m. rewrite list_insert_id by done. split_and!; try done; [by destruct s| |apply dropped_0].
    unfold bf, back_frames. simpl. by rewrite difference_empty_L.
  - intros k s' Hk (o1 & m1 & -> & Hi1 & Hs1 & Hu1 & Ec1 & Hw1 & Hd1).
    pose proof (Hokk o1 k Hw1 Hd1) as Hok1. rewrite u32_small by lia.
    assert (<[i := o1]> objs !! i = Some o1) as Hl1 by (by apply list_lookup_insert_eq).
    destruct (page_entry _ _ i o1 (start + k) Hok1 Hl1 Hu1 ltac:(lia)) as (pa & n & Epa & En & Hcase).
    assert (obj_page (<[i := o1]> objs) (Z.of_nat i) (start + k) = obj_page objs (Z.of_nat i) (start + k)) as Eop.
    { rewrite Hd1, decide_False by lia. done. }
    pose proof (back_frames_step objs (Z.of_nat i) start k ltac:(lia)) as Ebf. fold bf in Ebf.
    apply wpe_bind. eapply wpv_object_at; [exact Hl1|]. apply wpe_bind. eapply wpe_need; [exact En|].
    destruct Hcase as [(-> & -> & E)|(-> & p & Hp & -> & E)]; rewrite Eop in E; rewrite E in Ebf; simpl in Ebf.
    + simpl. apply wpe_ret. exists o1, m1. rewrite Ebf, (right_id_L ∅ (∪)). split_and!; try done.
      intros id' idx. rewrite Hd1. destruct (decide (id' = Z.of_nat i ∧ start ≤ idx < start + k)) as [?|Hn1].
      * rewrite decide_True; [done|lia].
      * destruct (decide (id' = Z.of_nat i ∧ start ≤ idx < start + (k + 1))) as [[-> ?]|]; [|done].
        by replace idx with (start + k) by lia.
    + simpl. apply wpe_bind. eapply wpe_need; [exact Epa|].
      rewrite (proj2 (Z.eqb_neq (p * PAGE_SIZE) 0)) by (unfold PAGE_SIZE; lia). simpl.
      pose proof (back_frames_fresh objs F (Z.of_nat i) start k p Hok E) as Hpf.
      apply wpe_bind, wpv_on_machine. simpl. eapply us_free_ok; [done|exact Hpf|]. intros m2 Hi2 Eb2 Hs2.
      apply wpe_bind, wpv_put_object; [by simpl; rewrite length_insert|]. apply wpe_ret.
      exists (set_page o1 (Z.to_nat (start + k)) 0 0), m2. split_and!; try done.
      * unfold with_objects, with_machine. simpl. by rewrite list_insert_insert_eq.
      * rewrite Ebf. replace (F ∖ _) with (F ∖ bf k ∖ {[p]}) by set_solver. done.
      * by apply (same_but_trans m m1 m2).
      * by apply set_page_wf; [|left].
      * intros id' idx. rewrite obj_page_put by done.
        rewrite frame_in_set by (rewrite ?(ow_pages _ Hw1); done || lia). simpl. specialize (Hd1 id' idx).
        rewrite obj_page_put in Hd1 by done. rewrite Z2Nat.id by lia.
        destruct (decide (id' = Z.of_nat i)) as [->|Hne].
        -- destruct (decide (idx = start + k)) as [->|Hne]; [by rewrite decide_True by lia|].
           rewrite Hd1. destruct (decide (Z.of_nat i = Z.of_nat i ∧ start ≤ idx < start + k)).
           ++ rewrite decide_True; [done|lia].
           ++ rewrite decide_False; [done|lia].
        -- rewrite decide_False by tauto. done.
  - intros s' (o1 & m1 & -> & Hi1 & Hs1 & Hu1 & Ec1 & Hw1 & Hd1).
    pose proof (Hokk o1 cnt Hw1 Hd1) as Hok1.
    assert (<[i := o1]> objs !! i = Some o1) as Hl1 by (by apply list_lookup_insert_eq).
    apply wpe_bind. eapply wpv_object_at; [exact Hl1|].
    destruct (vm_shared_all_released o1) eqn:Er; [|apply wpe_ret; by apply HQ].
    pose proof (all_released_pages _ _ i o1 Hok1 Hl1 Hu1 Er) as Hnone.
    eapply (wpv_shared_destroy _ (F ∖ bf cnt)); [done|done|exact Hl1|done|]. simpl.
    rewrite list_insert_insert_eq. intros m2 Hi2 Hs2.
    assert (back_frames (<[i := o1]> objs) (Z.of_nat i) 0 (so_page_count o1) = ∅) as Ebf.
    { apply set_eq. intros p. rewrite elem_back_frames. split; [|set_solver].
      intros (idx & _ & Hp). by rewrite Hnone in Hp. }
    rewrite Ebf, difference_empty_L in Hi2.
    assert (dropped objs (<[i := vm_shared_reset]> objs) (Z.of_nat i) start cnt) as Hd2.
    { intros id' idx. rewrite obj_page_put by done. specialize (Hd1 id' idx).
      destruct (decide (id' = Z.of_nat i)) as [->|Hne].
      - rewrite Hnone in Hd1. rewrite frame_in_unused by done. done.
      - by rewrite decide_False by tauto. }
    apply HQ; [done| |done|by apply (same_but_trans m m1 m2)].
    apply dropped_ok; try done; [by rewrite length_insert|].
    intros j x [(-> & <- & _)|[? ?]]%list_lookup_insert_Some Hux; [done|by eapply (oo_wf _ _ Hok)].
Qed.

(** ** Mapping the pages of an object *)

(** The [n] pages from [base] on show the pages of object [id]. *)
Definition maps_object objs m m' id (base n pr : Z) : Prop :=
  us_byte m' = us_byte m ∧
  ∀ va, upage va → us_xlat m' va =
    if decide (pin base n va) then (λ p, Xlate p pr true) <$> obj_page objs id ((va - base) / PAGE_SIZE)
    else us_xlat m va.

Lemma wpv_map_shared s F i o base n prot (Q : Z → vm S → Prop) :
  us_inv (vm_machine s) F → objs_ok (vm_shared_objects s) F →
  vm_shared_objects s !! i = Some o → so_used o = true → so_page_count o = n →
  (∀ idx, 0 ≤ idx < n → is_Some (obj_page (vm_shared_objects s) (Z.of_nat i) idx)) →
  user_range base n → (∀ va, pin base n va → us_xlat (vm_machine s) va = None) →
  (∀ m', us_inv m' F →
     maps_object (vm_shared_objects s) (vm_machine s) m' (Z.of_nat i) base n
       (Z.land (Z.lor (vm_prot_to_pte_flags prot) VMM_FLAG_NOFREE) PROT_BITS) →
     Q 0 (with_machine m' s)) →
  (∀ m', us_inv m' F → same_but (vm_machine s) m' → Q (-1) (with_machine m' s)) →
  wpv (vm_map_shared_pages cr3 base (n * PAGE_SIZE) prot (Z.of_nat i) 0) Q s.
Proof using.
  intros Hi Hok Hl Hu Hn Hpg Hr Hnone Hyes Hno. set (objs := vm_shared_objects s) in *. set (m := vm_machine s) in *.
  pose proof (lookup_lt_Some _ _ _ Hl) as Hlt. pose proof (oo_wf _ _ Hok i o Hl Hu) as Hwf.
  pose proof (ow_count _ Hwf) as Hcount. pose proof Hr as (Hb & Hn0 & Hlo & Hhi).
  unfold vm_map_shared_pages. rewrite (proj2 (Z.leb_gt FRY_VM_SHARED_MAX (Z.of_nat i))).
  2: { rewrite (oo_length _ _ Hok) in Hlt. unfold FRY_VM_SHARED_MAX in *. lia. }
  rewrite Nat2Z.id. apply wpe_bind. eapply wpv_object_at; [done|]. cbv zeta. rewrite Hu.
  rewrite Z.div_mul, u32_small by (done || lia).
  rewrite (proj2 (Z.ltb_ge (so_page_count o) 0)), (proj2 (Z.ltb_ge (so_page_count o - 0) n)) by lia.
  simpl negb. cbv iota. set (fl := Z.lor (vm_prot_to_pte_flags prot) VMM_FLAG_NOFREE) in *.
  assert (has fl VMM_FLAG_NOFREE = true) as Hnf.
  { unfold has, fl. rewrite land_lor_mask. change (Z.land VMM_FLAG_NOFREE VMM_FLAG_NOFREE) with (2 ^ 9).
    apply negb_true_iff, Z.eqb_neq. intros E. apply (f_equal (λ z, Z.testbit z 9)) in E.
    rewrite Z.lor_spec in E. simpl in E. by rewrite orb_true_r in E. }
  set (I := λ k s', ∃ m1, s' = with_machine m1 s ∧ us_inv m1 F ∧
    maps_object objs m m1 (Z.of_nat i) base k (Z.land fl PROT_BITS)).
  apply wpe_bind, (wpe_for_er _ _ _ I); [done| | |].
  { exists m. split_and!; [by destruct s|done|]. split; [done|]. intros va _. rewrite decide_False; [done|apply pin_0]. }
  2: { intros s' (m1 & -> & Hi1 & Hm1). apply wpe_ret. by apply Hyes. }
  intros k s' Hk (m1 & -> & Hi1 & Eb1 & Hx1). set (va := base + k * PAGE_SIZE).
  assert (pin base n va) as Hp by (split; [by apply page_step|unfold va, PAGE_SIZE; lia]).
  pose proof (user_range_page _ _ _ Hr Hp) as Hup.
  destruct (page_entry objs F i o k Hok Hl Hu ltac:(lia)) as (pa & c & Epa & _ & Hcase).
  destruct (Hpg k ltac:(lia)) as [p Ep]. destruct Hcase as [(_ & _ & E)|(_ & p' & Hp1 & -> & E)]; [congruence|].
  rewrite E in Ep. injection Ep as ->.
  assert (1 ≤ p < 2 ^ 52) as Hpr by (eapply us_frame_ok; [exact Hi|]; by apply (oo_frames _ _ Hok (Z.of_nat i) k)).
  rewrite Z.add_0_l, u32_small by lia. apply wpe_bind. eapply wpe_need; [exact Epa|].
  rewrite (proj2 (Z.eqb_neq (p * PAGE_SIZE) 0)) by (unfold PAGE_SIZE; lia).
  rewrite u64_small by (unfold va, VM_USER_LIMIT, VM_USER_BASE, PAGE_SIZE in *; lia). fold va.
  apply wpe_bind, wpv_on_machine. simpl. eapply us_map_ok; [done..|]. intros m2 Hi2 Eb2 [Hs2 Ho2]. rewrite Hnf in Hs2.
  apply wpe_bind. eapply wpv_virt_to_phys; [done..|]. simpl. rewrite Hs2. simpl.
  rewrite land_page_addr by (by apply Z.mod_pos_bound).
  destruct (Z.eqb_spec (p mod 2 ^ 40 * PAGE_SIZE) (p * PAGE_SIZE)) as [E40|Hne]; simpl negb; cbv iota.
  - assert (p mod 2 ^ 40 = p) as Ep40 by (unfold PAGE_SIZE in E40; lia). rewrite Ep40 in Hs2.
    apply wpe_ret. exists m2. split_and!; [done|done|]. split; [by rewrite Eb2|].
    intros va' Hva'. destruct (decide (va' = va)) as [->|Hva].
    + rewrite Hs2, decide_True by (apply pin_step; auto; lia). unfold va.
      replace (base + k * PAGE_SIZE - base) with (k * PAGE_SIZE) by lia. by rewrite Z.div_mul, E.
    + rewrite Ho2, Hx1 by done. destruct (decide (pin base k va')).
      * rewrite decide_True; [done|]. apply pin_step; auto. lia.
      * rewrite decide_False; [done|]. intros [?|?]%pin_step; try done. lia.
  - apply wpe_bind, wpv_on_machine. simpl. eapply us_unmap_ok; [done..|]. intros m3 Hi3 Eb3 [Hs3 Ho3].
    apply wpe_bind. pose proof (user_range_prefix base n k Hr ltac:(lia)) as Hrk.
    assert (∀ va', upage va' → va' ≠ va → us_xlat m3 va' = us_xlat m1 va') as Ho31.
    { intros va' Hva' Hne'. by rewrite Ho3, Ho2. }
    eapply (wpv_unmap_pages base k _ F Hrk); [exact Hi3|..].
    + intros va' x Hva' Hx. simpl in Hx.
      rewrite Ho31, Hx1, decide_True in Hx; try done; try (by apply (user_range_page base k)).
      * apply fmap_Some in Hx as (q & Eq & ->). simpl.
        apply (us_frame_ok m F); [done|]. by eapply (oo_frames _ _ Hok).
      * intros ->. destruct Hva' as [_ ?]. unfold va in *. lia.
    + simpl. intros m4 Hi4 [Eb4 Hx4]. apply wpe_ret, wpe_ret. simpl. apply Hno; [done|].
      split; [by simpl in *; rewrite Eb4, Eb3, Eb2|]. intros va' Hva'. rewrite Hx4 by done.
      destruct (decide (pin base k va')) as [[Ha Hb']|Hnp].
      * rewrite Hnone; [done|]. split; [done|]. unfold PAGE_SIZE in *. lia.
      * destruct (decide (va' = va)) as [->|Hva]; [by rewrite Hs3, Hnone|].
        rewrite Ho31, Hx1, decide_False by done. done.
Qed.
End shared.
