(* ===== verification/VmInvariant.v ===== *)
(** * User mappings: the invariant

    What connects the pages the table describes, the translations of the
    address space, the shared objects and the frames in the hands of the
    region code; and that it is kept when pages are added, removed or
    protected. *)

From S2P Require Import Prelude PageAlloc Vmm VmmInv Loops VmRegion VmTable VmSpace.

(** A page of the user area. *)
Definition apage (va : Z) : Prop := upage va ∧ VM_USER_BASE ≤ va < VM_USER_LIMIT.

Lemma pin_apage base n va : user_range base n → pin base n va → apage va.
Proof.
  intros Hr Hp. split; [by eapply user_range_page|]. destruct Hr as (_ & _ & ? & ?), Hp as [_ ?]. lia.
Qed.

(** A map of pages without, and with other pages in, a range. *)
Definition vcut (V : Z → option page) (base n va : Z) : option page :=
  if decide (base ≤ va < base + n * PAGE_SIZE) then None else V va.
Definition vset (V : Z → option page) (base n : Z) (f : Z → page) (va : Z) : option page :=
  if decide (base ≤ va < base + n * PAGE_SIZE) then Some (f va) else V va.

Lemma pin_in base n va : (PAGE_SIZE | va) → base ≤ va < base + n * PAGE_SIZE ↔ pin base n va.
Proof. unfold pin. tauto. Qed.

Lemma vcut_page V base n va :
  upage va → vcut V base n va = if decide (pin base n va) then None else V va.
Proof.
  intros [Hd _]. unfold vcut. destruct (decide (pin base n va)) as [Hp|Hp]; rewrite <-pin_in in Hp by done.
  - by rewrite decide_True.
  - by rewrite decide_False.
Qed.
Lemma vset_page V base n f va :
  upage va → vset V base n f va = if decide (pin base n va) then Some (f va) else V va.
Proof.
  intros [Hd _]. unfold vset. destruct (decide (pin base n va)) as [Hp|Hp]; rewrite <-pin_in in Hp by done.
  - by rewrite decide_True.
  - by rewrite decide_False.
Qed.

(** The protection bits of the entry of a page. *)
Definition pte_prot (prot : Z) : Z := Z.land (vm_prot_to_pte_flags prot) PROT_BITS.

Lemma pte_prot_shared prot :
  Z.land (Z.lor (vm_prot_to_pte_flags prot) VMM_FLAG_NOFREE) PROT_BITS = pte_prot prot.
Proof. unfold pte_prot. rewrite land_lor_mask. by rewrite Z.lor_0_r. Qed.

Lemma pte_flags_nofree prot : has (vm_prot_to_pte_flags prot) VMM_FLAG_NOFREE = false.
Proof.
  unfold vm_prot_to_pte_flags. destruct (negb (prot =? 0)), (has prot FRY_PROT_WRITE), (negb (has prot FRY_PROT_EXEC));
    vm_compute; done.
Qed.

Definition is_shared (a : page) : bool := match pg_back a with Some _ => true | None => false end.

(** The frame behind a committed page: a page of the object for a shared
    page, a frame of no object for a private one. *)
Definition backed (objs : objects) (a : page) (p : Z) : Prop :=
  match pg_back a with
  | Some (id, idx) => obj_page objs id idx = Some p
  | None => ∀ id idx, obj_page objs id idx ≠ Some p
  end.

Definition committed_kind (k : fry_vm_region_kind) : Prop :=
  k = FRY_VM_REGION_ANON_PRIVATE ∨ k = FRY_VM_REGION_FILE_PRIVATE ∨ k = FRY_VM_REGION_ANON_SHARED.
Definition reserved_kind (k : fry_vm_region_kind) : Prop :=
  k = FRY_VM_REGION_ANON_PRIVATE ∨ k = FRY_VM_REGION_GUARD.

Section inv.
Context {S : Type} `{!UserSpace S} {cr3 : Z} `{!UserSpaceLaws S cr3}.
Implicit Types (m : S) (s : vm S) (F : gset Z) (V : Z → option page).

Record page_mapped objs m F (a : page) (va : Z) (x : xlate) : Prop := {
  pm_xlat : us_xlat m va = Some x;
  pm_prot : x_prot x = pte_prot (pg_prot a);
  pm_nofree : x_nofree x = is_shared a;
  pm_frame : x_frame x ∈ F;
  pm_back : backed objs a (x_frame x);
  pm_kind : committed_kind (pg_kind a)
}.

Definition page_inv objs m F (o : option page) (va : Z) : Prop :=
  match o with
  | Some a =>
      if pg_committed a then ∃ x, page_mapped objs m F a va x
      else us_xlat m va = None ∧ pg_prot a = 0 ∧ reserved_kind (pg_kind a)
  | None => us_xlat m va = None
  end.

Record space_inv V objs m F : Prop := {
  si_space : us_inv m F;
  si_objs : objs_ok objs F;
  si_page : ∀ va, apage va → page_inv objs m F (V va) va;
  si_inj : ∀ va va' x x', apage va → apage va' → us_xlat m va = Some x → us_xlat m va' = Some x' →
    x_frame x = x_frame x' → va = va';
  si_all : ∀ p, p ∈ F → (∃ id idx, obj_page objs id idx = Some p) ∨
    ∃ va x a, apage va ∧ us_xlat m va = Some x ∧ x_frame x = p ∧ V va = Some a ∧ pg_back a = None
}.

Definition vm_inv s F : Prop :=
  regs_ok (vm_regions s) ∧ space_inv (view (vm_regions s)) (vm_shared_objects s) (vm_machine s) F.

(** ** General facts *)

Lemma space_inv_ext V V' objs m F :
  (∀ va, apage va → V' va = V va) → space_inv V objs m F → space_inv V' objs m F.
Proof using.
  intros He [H1 H2 H3 H4 H5]. split; try done.
  - intros va Hva. rewrite He by done. by apply H3.
  - intros p Hp. destruct (H5 p Hp) as [?|(va & x & a & Hva & ? & ? & ? & ?)]; [by left|right].
    exists va, x, a. by rewrite He.
Qed.

(** A page with a translation is a committed page of the map. *)
Lemma xlat_tracked V objs m F va x :
  space_inv V objs m F → apage va → us_xlat m va = Some x →
  ∃ a, V va = Some a ∧ pg_committed a = true ∧ page_mapped objs m F a va x.
Proof using.
  intros Hs Hva Hx. pose proof (si_page _ _ _ _ Hs va Hva) as Hp. unfold page_inv in Hp.
  destruct (V va) as [a|]; [|congruence]. exists a. split; [done|].
  destruct (pg_committed a); [|destruct Hp; congruence]. split; [done|].
  destruct Hp as [x' Hp]. pose proof (pm_xlat _ _ _ _ _ _ Hp) as E. rewrite Hx in E. by injection E as ->.
Qed.

Lemma untracked s F : vm_inv s F → untracked_free s.
Proof using.
  intros [_ Hs] va Hu Ha Hv. pose proof (si_page _ _ _ _ Hs va (conj Hu Ha)) as Hp. by rewrite Hv in Hp.
Qed.

(** An unchanged page keeps its invariant when its frame and its object page
    are kept. *)
Lemma page_inv_keep objs objs' m m' F F' o va :
  us_xlat m' va = us_xlat m va →
  (∀ x a, o = Some a → us_xlat m va = Some x → x_frame x ∈ F → x_frame x ∈ F') →
  (∀ x a, o = Some a → us_xlat m va = Some x → x_frame x ∈ F → backed objs a (x_frame x) → backed objs' a (x_frame x)) →
  page_inv objs m F o va → page_inv objs' m' F' o va.
Proof using.
  intros Ex HF Hb. unfold page_inv. destruct o as [a|]; [|by rewrite Ex].
  destruct (pg_committed a); [|by rewrite Ex]. intros [x Hx]. exists x. destruct Hx as [H1 H2 H3 H4 H5 H6].
  split; try done; [by rewrite Ex|by eapply HF|by eapply Hb].
Qed.

(** Only the contents of frames and the heap changed. *)
Lemma space_inv_same V objs m m' F :
  space_inv V objs m F → us_inv m' F → same_map us_xlat m m' → space_inv V objs m' F.
Proof using.
  intros [H1 H2 H3 H4 H5] Hi Hs. split; try done.
  - intros va Hva. eapply page_inv_keep; [apply Hs, Hva|done..|by apply H3].
  - intros va va' x x' Hva Hva'. rewrite !Hs by (apply Hva || apply Hva'). by apply H4.
  - intros p Hp. destruct (H5 p Hp) as [?|(va & x & a & Hva & Hx & ?)]; [by left|right].
    exists va, x, a. split; [done|]. split; [|done]. rewrite Hs; [done|apply Hva].
Qed.

(** The objects show the same pages. *)
Lemma space_inv_objs V objs objs' m F :
  space_inv V objs m F → objs_ok objs' F → (∀ id idx, obj_page objs' id idx = obj_page objs id idx) →
  space_inv V objs' m F.
Proof using.
  intros [H1 H2 H3 H4 H5] Hok He. split; try done.
  - intros va Hva. eapply page_inv_keep; [done|done| |by apply H3].
    intros x a _ _ _. unfold backed. destruct (pg_back a) as [[id idx]|].
    + by rewrite He.
    + intros Hn id idx. by rewrite He.
  - intros p Hp. destruct (H5 p Hp) as [(id & idx & E)|?]; [left|by right]. exists id, idx. by rewrite He.
Qed.

(** ** Adding pages *)

(** Pages that are reserved only. *)
Lemma space_reserve V objs m F base n f :
  space_inv V objs m F → user_range base n → (∀ va, pin base n va → us_xlat m va = None) →
  (∀ va, pg_committed (f va) = false ∧ pg_prot (f va) = 0 ∧ reserved_kind (pg_kind (f va))) →
  space_inv (vset V base n f) objs m F.
Proof using.
  intros Hs Hr Hnone Hf. pose proof Hs as [H1 H2 H3 H4 H5]. split; try done.
  - intros va Hva. rewrite vset_page by apply Hva. destruct (decide (pin base n va)) as [Hp|]; [|by apply H3].
    destruct (Hf va) as (E & ? & ?). unfold page_inv. rewrite E. by rewrite Hnone.
  - intros p Hp. destruct (H5 p Hp) as [?|(va & x & a & Hva & Hx & ?)]; [by left|right].
    exists va, x, a. rewrite vset_page by apply Hva.
    rewrite decide_False; [done|]. intros Hpin. by rewrite Hnone in Hx.
Qed.

(** Committed private pages. *)
Lemma space_add_private V objs m m' F base n prot f :
  space_inv V objs m F → user_range base n → (∀ va, pin base n va → us_xlat m va = None) →
  us_inv m' (frames_of m' base n ∪ F) → mapped_new m m' F base n (pte_prot prot) false →
  (∀ va, pg_committed (f va) = true ∧ pg_prot (f va) = prot ∧ pg_back (f va) = None ∧
     committed_kind (pg_kind (f va))) →
  space_inv (vset V base n f) objs m' (frames_of m' base n ∪ F).
Proof using.
  intros [H1 H2 H3 H4 H5] Hr Hnone Hi Hnew Hf. pose proof Hr as [Hb _].
  assert (∀ va x, pin base n va → us_xlat m' va = Some x → x_frame x ∈ frames_of m' base n) as Hfr.
  { intros va x Hp Hx. apply elem_frames_of; eauto. }
  assert (∀ va x, apage va → ¬ pin base n va → us_xlat m' va = Some x →
    us_xlat m va = Some x ∧ x_frame x ∈ F) as Hold.
  { intros va x Hva Hp Hx. rewrite (mn_out _ _ _ _ _ _ _ Hnew) in Hx by (done || apply Hva). split; [done|].
    destruct (xlat_tracked V objs m F va x) as (a & _ & _ & Hpm); [by split|done..|]. apply Hpm. }
  assert (∀ p, p ∈ frames_of m' base n → p ∉ F) as Hdisj.
  { intros p Hp. by eapply mapped_new_frames. }
  split; [done| | | |].
  - destruct H2 as [K1 K2 K3 K4]. split; try done. intros id idx p Hp. apply elem_of_union. right. by eapply K3.
  - intros va Hva. rewrite vset_page by apply Hva. destruct (decide (pin base n va)) as [Hp|Hp].
    + destruct (Hf va) as (E & Epr & Ebk & Hk). unfold page_inv. rewrite E.
      destruct (mn_in _ _ _ _ _ _ _ Hnew va Hp) as (p & Hx & HpF & _ & _). exists (Xlate p (pte_prot prot) false).
      split; simpl; [done|by rewrite Epr|by unfold is_shared; rewrite Ebk| | |done].
      * apply elem_of_union. left. by apply (Hfr va _ Hp Hx).
      * unfold backed. rewrite Ebk. intros id idx Ho. by apply HpF, (oo_frames _ _ H2 id idx).
    + eapply page_inv_keep; [by apply (mn_out _ _ _ _ _ _ _ Hnew), Hp; apply Hva| |done|by apply H3].
      intros x a _ _ ?. apply elem_of_union. by right.
  - intros va va' x x' Hva Hva' Hx Hx' E.
    destruct (decide (pin base n va)) as [Hp|Hp], (decide (pin base n va')) as [Hp'|Hp'].
    + by apply (mn_inj _ _ _ _ _ _ _ Hnew va va' x x').
    + exfalso. apply (Hdisj (x_frame x)); [by eapply Hfr|]. rewrite E. by apply (Hold va' x').
    + exfalso. apply (Hdisj (x_frame x')); [by eapply Hfr|]. rewrite <-E. by apply (Hold va x).
    + apply (H4 va va' x x'); try done; [by apply Hold|by apply Hold].
  - intros p [Hp|Hp]%elem_of_union.
    + apply elem_frames_of in Hp as (va & x & Hpin & Hx & <-); [|done]. right.
      pose proof (pin_apage _ _ _ Hr Hpin) as Hva. exists va, x, (f va). rewrite vset_page by apply Hva.
      rewrite decide_True by done. split_and!; try done. apply Hf.
    + destruct (H5 p Hp) as [?|(va & x & a & Hva & Hx & ? & ? & ?)]; [by left|right].
      assert (¬ pin base n va) as Hnp by (intros ?; by rewrite Hnone in Hx).
      exists va, x, a. rewrite vset_page by apply Hva. rewrite decide_False by done.
      split_and!; try done. by rewrite (mn_out _ _ _ _ _ _ _ Hnew) by (done || apply Hva).
Qed.
(** A new object that is not mapped yet. *)
Lemma space_new_object V objs m m' F i pp rp n ps :
  space_inv V objs m F → unused_slot objs i → length ps = n → Z.of_nat n < 2 ^ 32 → pp ≠ 0 →
  new_frames m m' F ps →
  space_inv V (<[i := obj_with pp rp n ps]> objs) m' (list_to_set ps ∪ F).
Proof using.
  intros Hs Hun El Hn Hpp Hnf. pose proof Hs as [H1 H2 H3 H4 H5]. destruct Hnf as [N1 N2 N3 N4 N5 N6 N7].
  pose proof (λ id idx, new_object_page objs i pp rp n ps Hun N2 id idx) as Hpg.
  assert (∀ id idx p, p ∈ F → obj_page (<[i := obj_with pp rp n ps]> objs) id idx = Some p →
    obj_page objs id idx = Some p) as Hback.
  { intros id idx p HpF. rewrite Hpg. destruct (decide _) as [->|]; [|done].
    destruct (0 <=? idx); [|done]. intros Hp. rewrite Forall_lookup in N4. by destruct (N4 _ _ Hp). }
  assert (∀ id idx p, obj_page objs id idx = Some p →
    obj_page (<[i := obj_with pp rp n ps]> objs) id idx = Some p) as Hfwd.
  { intros id idx p Hp. rewrite Hpg. destruct (decide _) as [->|]; [|done]. by rewrite unused_page in Hp. }
  split; [done| | | |].
  - apply new_object_ok; try done. lia.
  - intros va Hva. eapply page_inv_keep; [apply N6, Hva| | |by apply H3].
    + intros x a _ _ ?. apply elem_of_union. by right.
    + intros x a _ _ HxF. unfold backed. destruct (pg_back a) as [[id idx]|]; [apply Hfwd|].
      intros Hno id idx Hp. by apply (Hno id idx), Hback.
  - intros va va' x x' Hva Hva'. rewrite !N6 by (apply Hva || apply Hva'). by apply H4.
  - intros p [Hp|Hp]%elem_of_union.
    + left. apply elem_of_list_to_set, list_elem_of_lookup in Hp as [k Hk]. exists (Z.of_nat i), (Z.of_nat k).
      rewrite Hpg, decide_True by done. by rewrite (proj2 (Z.leb_le 0 (Z.of_nat k))), Nat2Z.id by lia.
    + destruct (H5 p Hp) as [(id & idx & E)|(va & x & a & Hva & Hx & ?)]; [left|right].
      * exists id, idx. by apply Hfwd.
      * exists va, x, a. split; [done|]. split; [|done]. rewrite N6; [done|apply Hva].
Qed.

(** Mapping an object that no page shows. *)
Lemma space_map_object V objs m m' F id base n prot f :
  space_inv V objs m F → user_range base n → (∀ va, pin base n va → us_xlat m va = None) →
  (∀ idx, 0 ≤ idx < n → is_Some (obj_page objs id idx)) →
  (∀ va x idx, apage va → us_xlat m va = Some x → obj_page objs id idx ≠ Some (x_frame x)) →
  us_inv m' F → maps_object objs m m' id base n (pte_prot prot) →
  (∀ va, pg_committed (f va) = true ∧ pg_prot (f va) = prot ∧
     pg_back (f va) = Some (id, (va - base) / PAGE_SIZE) ∧ committed_kind (pg_kind (f va))) →
  space_inv (vset V base n f) objs m' F.
Proof using.
  intros [H1 H2 H3 H4 H5] Hr Hnone Hpg Hnew Hi [Eb Hx] Hf. pose proof Hr as [Hb _].
  assert (∀ va, pin base n va → ∃ p, obj_page objs id ((va - base) / PAGE_SIZE) = Some p ∧
    us_xlat m' va = Some (Xlate p (pte_prot prot) true)) as Hin.
  { intros va Hp. destruct (Hpg ((va - base) / PAGE_SIZE)) as [p Ep].
    { destruct Hp as [_ ?]. split; [apply Z.div_pos; [lia|done]|]. apply Z.div_lt_upper_bound; [done|lia]. }
    exists p. split; [done|]. rewrite Hx by (eapply pin_apage; done). by rewrite decide_True, Ep. }
  assert (∀ va, apage va → ¬ pin base n va → us_xlat m' va = us_xlat m va) as Hout.
  { intros va Hva Hp. rewrite Hx by apply Hva. by rewrite decide_False. }
  split; try done.
  - intros va Hva. rewrite vset_page by apply Hva. destruct (decide (pin base n va)) as [Hp|Hp].
    + destruct (Hf va) as (E & Epr & Ebk & Hk). unfold page_inv. rewrite E. destruct (Hin va Hp) as (p & Ep & Exl).
      exists (Xlate p (pte_prot prot) true). split; simpl; [done|by rewrite Epr|by unfold is_shared; rewrite Ebk| | |done].
      * by eapply (oo_frames _ _ H2).
      * unfold backed. by rewrite Ebk.
    + eapply page_inv_keep; [by apply Hout|done|done|by apply H3].
  - intros va va' x x' Hva Hva' Ex Ex' E.
    destruct (decide (pin base n va)) as [Hp|Hp], (decide (pin base n va')) as [Hp'|Hp'].
    + destruct (Hin va Hp) as (p & Ep & E1), (Hin va' Hp') as (p' & Ep' & E2).
      rewrite Ex in E1. rewrite Ex' in E2. injection E1 as ->. injection E2 as ->. simpl in E. subst p'.
      destruct (oo_inj _ _ H2 _ _ _ _ _ Ep Ep') as [_ Ei].
      destruct Hp as [[k ->] ?], Hp' as [[k' ->] ?], Hb as [kb ->]. unfold PAGE_SIZE in *.
      replace (k * 4096 - kb * 4096) with ((k - kb) * 4096) in Ei by lia.
      replace (k' * 4096 - kb * 4096) with ((k' - kb) * 4096) in Ei by lia.
      rewrite !Z.div_mul in Ei by done. lia.
    + exfalso. destruct (Hin va Hp) as (p & Ep & E1). rewrite Ex in E1. injection E1 as ->.
      rewrite Hout in Ex' by done. simpl in E. subst p.
      by apply (Hnew va' x' _ Hva' Ex') in Ep.
    + exfalso. destruct (Hin va' Hp') as (p & Ep & E1). rewrite Ex' in E1. injection E1 as ->.
      rewrite Hout in Ex by done. simpl in E. subst p. by apply (Hnew va x _ Hva Ex) in Ep.
    + rewrite Hout in Ex, Ex' by done. by apply (H4 va va' x x').
  - intros p Hp. destruct (H5 p Hp) as [?|(va & x & a & Hva & Ex & ? & ? & ?)]; [by left|right].
    assert (¬ pin base n va) as Hnp by (intros ?; by rewrite Hnone in Ex).
    exists va, x, a. rewrite vset_page by apply Hva. rewrite decide_False by done. by rewrite Hout.
Qed.

(** ** Removing pages *)

(** Pages without a translation. *)
Lemma space_cut_reserved V objs m F base n :
  space_inv V objs m F → (∀ va, pin base n va → us_xlat m va = None) →
  space_inv (vcut V base n) objs m F.
Proof using.
  intros [H1 H2 H3 H4 H5] Hnone. split; try done.
  - intros va Hva. rewrite vcut_page by apply Hva. destruct (decide (pin base n va)); [by apply Hnone|by apply H3].
  - intros p Hp. destruct (H5 p Hp) as [?|(va & x & a & Hva & Ex & ? & ? & ?)]; [by left|right].
    exists va, x, a. rewrite vcut_page by apply Hva. rewrite decide_False; [done|].
    intros ?. by rewrite Hnone in Ex.
Qed.

(** Private pages, whose frames are given back. *)
Lemma space_cut_private V objs m m' F base n :
  space_inv V objs m F → user_range base n →
  (∀ va, pin base n va → ∃ a, V va = Some a ∧ pg_back a = None) →
  us_inv m' (F ∖ frames_of m base n) → unmapped m m' base n →
  space_inv (vcut V base n) objs m' (F ∖ frames_of m base n).
Proof using.
  intros Hs Hr Hpriv Hi [Eb Hx]. pose proof Hs as [H1 H2 H3 H4 H5]. pose proof Hr as [Hb _].
  assert (∀ va x, apage va → ¬ pin base n va → us_xlat m va = Some x → x_frame x ∉ frames_of m base n) as Hnf.
  { intros va x Hva Hp Ex (va' & x' & Hp' & Ex' & E)%elem_frames_of; [|done].
    apply Hp. rewrite (H4 va va' x x'); try done. by eapply pin_apage. }
  assert (∀ id idx p, obj_page objs id idx = Some p → p ∉ frames_of m base n) as Hno.
  { intros id idx p Hp (va & x & Hpin & Ex & <-)%elem_frames_of; [|done].
    destruct (Hpriv va Hpin) as (a & Ea & Ebk). pose proof (pin_apage _ _ _ Hr Hpin) as Hva.
    destruct (xlat_tracked V objs m F va x Hs Hva Ex) as (a' & Ea' & _ & Hpm).
    rewrite Ea in Ea'. injection Ea' as <-. pose proof (pm_back _ _ _ _ _ _ Hpm) as Hbk. unfold backed in Hbk.
    rewrite Ebk in Hbk. by apply (Hbk id idx). }
  assert (∀ va, apage va → ¬ pin base n va → us_xlat m' va = us_xlat m va) as Hout.
  { intros va Hva Hp. rewrite Hx by apply Hva. by rewrite decide_False. }
  split; [done| | | |].
  - destruct H2 as [K1 K2 K3 K4]. split; try done. intros id idx p Hp. apply elem_of_difference. eauto.
  - intros va Hva. rewrite vcut_page by apply Hva. destruct (decide (pin base n va)) as [Hp|Hp].
    + simpl. rewrite Hx by apply Hva. by rewrite decide_True.
    + eapply page_inv_keep; [by apply Hout| |done|by apply H3].
      intros x a _ Ex ?. apply elem_of_difference. split; [done|]. by eapply Hnf.
  - intros va va' x x' Hva Hva' Ex Ex' E. rewrite Hx in Ex, Ex' by (apply Hva || apply Hva').
    destruct (decide (pin base n va)); [done|]. destruct (decide (pin base n va')); [done|].
    by apply (H4 va va' x x').
  - intros p [Hp Hpf]%elem_of_difference.
    destruct (H5 p Hp) as [?|(va & x & a & Hva & Ex & E & ? & ?)]; [by left|right].
    assert (¬ pin base n va) as Hnp.
    { intros Hpin. apply Hpf, elem_frames_of; [done|]. eauto. }
    exists va, x, a. rewrite vcut_page by apply Hva. rewrite decide_False by done. by rewrite Hout.
Qed.

(** Shared pages, whose object pages are released. *)
Lemma space_cut_shared V objs objs' m m1 m2 F id start base n :
  space_inv V objs m F → user_range base n →
  (∀ va, pin base n va → ∃ a, V va = Some a ∧ pg_committed a = true ∧
     pg_back a = Some (id, start + (va - base) / PAGE_SIZE)) →
  unmapped m m1 base n → same_but m1 m2 → us_inv m2 (F ∖ back_frames objs id start n) →
  objs_ok objs' (F ∖ back_frames objs id start n) → dropped objs objs' id start n →
  space_inv (vcut V base n) objs' m2 (F ∖ back_frames objs id start n).
Proof using.
  intros Hs Hr Hsh [Eb Hx] [Eb2 Hx2] Hi Hok Hd. pose proof Hs as [H1 H2 H3 H4 H5]. pose proof Hr as [Hb _].
  assert (∀ va x, apage va → ¬ pin base n va → us_xlat m va = Some x → x_frame x ∉ back_frames objs id start n) as Hnf.
  { intros va x Hva Hp Ex (idx & Hir & Ep)%elem_back_frames. set (va' := base + (idx - start) * PAGE_SIZE).
    assert (pin base n va') as Hp' by (split; [by apply page_step|unfold va', PAGE_SIZE; lia]).
    destruct (Hsh va' Hp') as (a & Ea & Ec & Ebk). pose proof (pin_apage _ _ _ Hr Hp') as Hva'.
    pose proof (H3 va' Hva') as Hpi. unfold page_inv in Hpi. rewrite Ea, Ec in Hpi. destruct Hpi as [x' Hpm].
    pose proof (pm_back _ _ _ _ _ _ Hpm) as Hbk. unfold backed in Hbk. rewrite Ebk in Hbk. unfold va' in Hbk.
    replace (base + (idx - start) * PAGE_SIZE - base) with ((idx - start) * PAGE_SIZE) in Hbk by lia.
    rewrite Z.div_mul in Hbk by done. replace (start + (idx - start)) with idx in Hbk by lia.
    rewrite Ep in Hbk. injection Hbk as E. apply Hp. rewrite (H4 va va' x x'); try done. apply Hpm. }
  assert (∀ va, apage va → ¬ pin base n va → us_xlat m2 va = us_xlat m va) as Hout.
  { intros va Hva Hp. rewrite Hx2, Hx by apply Hva. by rewrite decide_False. }
  split; [done|done| | |].
  - intros va Hva. rewrite vcut_page by apply Hva. destruct (decide (pin base n va)) as [Hp|Hp].
    + simpl. rewrite Hx2, Hx by apply Hva. by rewrite decide_True.
    + eapply page_inv_keep; [by apply Hout| | |by apply H3].
      * intros x a _ Ex ?. apply elem_of_difference. split; [done|]. by eapply Hnf.
      * intros x a _ Ex _. unfold backed. destruct (pg_back a) as [[id' idx']|].
        -- intros Ho. rewrite Hd, decide_False; [done|]. intros [-> Hir]. apply (Hnf va x Hva Hp Ex).
           apply elem_back_frames. eauto.
        -- intros Ho id' idx' Hq. apply (Ho id' idx'). rewrite Hd in Hq. by destruct (decide _).
  - intros va va' x x' Hva Hva' Ex Ex' E. rewrite Hx2, Hx in Ex, Ex' by (apply Hva || apply Hva').
    destruct (decide (pin base n va)); [done|]. destruct (decide (pin base n va')); [done|].
    by apply (H4 va va' x x').
  - intros p [Hp Hpf]%elem_of_difference.
    destruct (H5 p Hp) as [(id' & idx' & Ep)|(va & x & a & Hva & Ex & E & Ev & Ebk)]; [left|right].
    + exists id', idx'. rewrite Hd, decide_False; [done|]. intros [-> Hir]. apply Hpf, elem_back_frames. eauto.
    + assert (¬ pin base n va) as Hnp.
      { intros Hpin. destruct (Hsh va Hpin) as (a' & Ea' & _ & Ebk'). congruence. }
      exists va, x, a. rewrite vcut_page by apply Hva. rewrite decide_False by done. by rewrite Hout.
Qed.

(** ** Protecting pages *)

Lemma space_protect V objs m m' F base n prot f :
  space_inv V objs m F → user_range base n → us_inv m' F → protected m m' base n (pte_prot prot) →
  (∀ va, pin base n va → ∃ a, V va = Some a ∧ pg_committed a = true ∧
     f va = Page prot (pg_flags a) (pg_kind a) true (pg_back a)) →
  space_inv (vset V base n f) objs m' F.
Proof using.
  intros Hs Hr Hi [Eb Hx] Hf. pose proof Hs as [H1 H2 H3 H4 H5].
  assert (∀ va x, apage va → us_xlat m' va = Some x →
    ∃ x0, us_xlat m va = Some x0 ∧ x_frame x0 = x_frame x) as Hfr.
  { intros va x Hva. rewrite Hx by apply Hva. destruct (decide (pin base n va)); [|by eauto].
    intros (x0 & E0 & ->)%fmap_Some. by exists x0. }
  split; [done|done| | |].
  - intros va Hva. rewrite vset_page by apply Hva. destruct (decide (pin base n va)) as [Hp|Hp].
    + destruct (Hf va Hp) as (a & Ea & Ec & ->). pose proof (H3 va Hva) as Hpi. unfold page_inv in *.
      rewrite Ea, Ec in Hpi. simpl. destruct Hpi as [x [P1 P2 P3 P4 P5 P6]].
      exists (Xlate (x_frame x) (pte_prot prot) (x_nofree x)). split; simpl; try done.
      rewrite Hx by apply Hva. by rewrite decide_True, P1.
    + eapply page_inv_keep; [|done|done|by apply H3]. rewrite Hx by apply Hva. by rewrite decide_False.
  - intros va va' x x' Hva Hva' Ex Ex' E.
    destruct (Hfr va x Hva Ex) as (y & Ey & Efy), (Hfr va' x' Hva' Ex') as (y' & Ey' & Efy').
    apply (H4 va va' y y'); try done. congruence.
  - intros p Hp. destruct (H5 p Hp) as [?|(va & x & a & Hva & Ex & E & Ev & Ebk)]; [by left|right].
    destruct (decide (pin base n va)) as [Hpin|Hpin].
    + destruct (Hf va Hpin) as (a' & Ea' & _ & Efv).
      exists va, (Xlate (x_frame x) (pte_prot prot) (x_nofree x)), (f va).
      rewrite vset_page by apply Hva. rewrite decide_True by done.
      split_and!; try done; [rewrite Hx by apply Hva; by rewrite decide_True, Ex|].
      rewrite Efv. simpl. congruence.
    + exists va, x, a. rewrite vset_page by apply Hva. rewrite decide_False by done.
      split_and!; try done. rewrite Hx by apply Hva. by rewrite decide_False.
Qed.
End inv.

(** * User mappings: the lemma of each call

    Mapping, unmapping and protecting keep the invariant and change the map
    of pages as intended, or change nothing. *)

Section calls.
Context {S : Type} `{!UserSpace S} {cr3 : Z} `{!UserSpaceLaws S cr3}.
Implicit Types (m : S) (s : vm S) (F : gset Z) (V : Z → option page).

Abbreviation wpv m Q s := (wpe m Q (λ _, True) s).
Abbreviation pages s := (view (vm_regions s)).

Lemma wpv_region_at s i r (Q : region → vm S → Prop) :
  vm_regions s !! i = Some r → Q r s → wpv (region_at i) Q s.
Proof using. intros Hl HQ. apply wpe_run. by eapply wp_lift_opt. Qed.

Lemma wpv_put_region s i r x (Q : unit → vm S → Prop) :
  vm_regions s !! i = Some r → Q tt (set_regions (<[i := x]> (vm_regions s)) s) → wpv (put_region i x) Q s.
Proof using. intros Hl HQ. apply wpe_run. eapply wp_update_opt; [by rewrite Hl|done]. Qed.

Lemma wpv_merge s (Q : unit → vm S → Prop) :
  regs_ok (vm_regions s) →
  (∀ l', regs_ok l' → (∀ va, view l' va = pages s va) → compact l' → Q tt (set_regions l' s)) →
  wpv merge_neighbors Q s.
Proof using.
  intros Hok HQ. destruct (merge_neighbors_ok _ Hok) as (l' & E & Hok' & Hv & Hc).
  apply wpe_run. eapply wp_update_opt; [by rewrite E|]. by apply HQ.
Qed.

(** ** Mapping *)

(** The [n] free pages from [base] on were given the attributes [f]. *)
Record mapping s s' F F' (base n : Z) (f : Z → page) : Prop := {
  mp_avail : available (vm_regions s) base n;
  mp_inv : vm_inv s' F';
  mp_view : ∀ va, pages s' va = vset (pages s) base n f va;
  mp_keep : F ⊆ F';
  mp_new : ∀ va, pin base n va → pg_committed (f va) = true →
    ∃ x, us_xlat (vm_machine s') va = Some x ∧ (x_frame x ∉ F) ∧ zeroed (vm_machine s') (x_frame x);
  mp_out : ∀ va, upage va → ¬ pin base n va →
    us_xlat (vm_machine s') va = us_xlat (vm_machine s) va;
  mp_bytes : same_bytes F (vm_machine s) (vm_machine s')
}.

(** Nothing changed: neither the pages, nor the translations, nor the frames
    that are owned, nor their contents. *)
Record unchanged s s' F : Prop := {
  un_inv : vm_inv s' F;
  un_regions : vm_regions s' = vm_regions s;
  un_map : same_map us_xlat (vm_machine s) (vm_machine s');
  un_bytes : same_bytes F (vm_machine s) (vm_machine s')
}.

Lemma unchanged_refl s F : vm_inv s F → unchanged s s F.
Proof using. intros Hi. split; try done. Qed.

Lemma unchanged_machine s F m' :
  vm_inv s F → same_machine (vm_machine s) m' F → unchanged s (with_machine m' s) F.
Proof using.
  intros [Hr Hs] (Hi & Hm & Hb). split; try done. split; [done|]. by eapply space_inv_same.
Qed.

(** The translations of available pages. *)
Lemma available_none s F base n va :
  vm_inv s F → available (vm_regions s) base n → pin base n va → us_xlat (vm_machine s) va = None.
Proof using.
  intros Hi [Hr Hv] Hp. destruct (pin_apage _ _ _ Hr Hp) as [Hu Ha]. apply (untracked s F Hi); auto.
Qed.

(** Storing a region on available pages. *)
Lemma put_available l slot base n x :
  regs_ok l → available l base n → 0 < n → is_free l slot → r_used x = true → r_base x = base →
  r_length x = n * PAGE_SIZE →
  (r_kind x = FRY_VM_REGION_ANON_SHARED → 0 ≤ r_backing_id x < FRY_VM_SHARED_MAX ∧
     0 ≤ r_backing_page_start x ∧ r_backing_page_start x + n < 2 ^ 32) →
  regs_ok (<[slot := x]> l) ∧ ∀ va, view (<[slot := x]> l) va = vset (view l) base n (page_of x) va.
Proof using.
  intros Hok [(Hb & _ & Hlo & Hhi) Hv] Hn Hfree Hu Eb El Hsh.
  assert (r_top x = base + n * PAGE_SIZE) as Et by (unfold r_top; congruence).
  destruct (put_free l slot x) as [Hok' Hv']; try done.
  - split; rewrite ?Eb, ?El, ?Et; try done; [by exists n|unfold PAGE_SIZE; lia|].
    by rewrite Z.div_mul.
  - intros va Hd Hr. rewrite Eb, Et in Hr. by apply Hv.
  - split; [done|]. intros va. rewrite Hv'. unfold vset. by rewrite Eb, Et.
Qed.

Lemma wpv_map_private s F base n prot flags (Q : Z → vm S → Prop) :
  vm_inv s F → (PAGE_SIZE | base) → 0 ≤ base < 2 ^ 64 → 0 < n → n * PAGE_SIZE < 2 ^ 64 →
  (∀ s' F', mapping s s' F F' base n (λ _, Page (if has flags FRY_MAP_RESERVE then 0 else prot) flags
      FRY_VM_REGION_ANON_PRIVATE (negb (has flags FRY_MAP_RESERVE)) None) → Q 0 s') →
  (∀ s', unchanged s s' F → Q (-1) s') →
  wpv (vm_map_anon_private_region cr3 base (n * PAGE_SIZE) prot flags) Q s.
Proof using.
  intros Hinv Hb Hb0 Hn Hn2 Hyes Hno. pose proof Hinv as [Hok Hs]. pose proof (si_space _ _ _ _ Hs) as Hi.
  unfold vm_map_anon_private_region. rewrite (proj2 (Z.eqb_neq cr3 0)) by (by eapply us_cr3_ok).
  rewrite (proj2 (Z.eqb_neq (n * PAGE_SIZE) 0)) by (unfold PAGE_SIZE; lia). simpl orb. cbv iota zeta.
  apply wpe_bind. eapply wpv_range_available; [done|done|by eapply untracked|done..| |];
    [|intros _; apply wpe_ret, Hno; by apply unchanged_refl].
  intros Hav. simpl negb. cbv iota. pose proof Hav as [Hr _].
  assert (∀ va, pin base n va → us_xlat (vm_machine s) va = None) as Hnone.
  { intros va. by eapply available_none. }
  set (x := vm_region_fill base (n * PAGE_SIZE) (if has flags FRY_MAP_RESERVE then 0 else prot) flags
    FRY_VM_REGION_ANON_PRIVATE VM_BACKING_NONE 0 (negb (has flags FRY_MAP_RESERVE))).
  assert (∀ slot, is_free (vm_regions s) slot → regs_ok (<[slot := x]> (vm_regions s)) ∧
    ∀ va, view (<[slot := x]> (vm_regions s)) va = vset (pages s) base n (page_of x) va) as Hput.
  { intros slot Hfree. apply put_available; done. }
  pose proof (alloc_slot_spec (vm_regions s)) as Hslot. apply wpe_bind.
  destruct (has flags FRY_MAP_RESERVE) eqn:Eres; simpl in *.
  - apply wpe_ret. simpl. apply wpe_bind, wpe_state.
    destruct (vm_region_alloc_slot (vm_regions s)) as [slot|].
    + pose proof Hslot as (r & Hl & _). destruct (Hput slot Hslot) as [Hok' Hv'].
      apply wpe_bind. eapply wpv_put_region; [done|]. apply wpe_ret.
      apply (Hyes _ F). split; try done. split; [done|]. simpl.
      eapply space_inv_ext; [intros va _; apply Hv'|]. apply space_reserve; try done.
      intros va. split_and!; try done. by left.
    + apply wpe_bind, wpe_ret, wpe_ret. apply Hno. by apply unchanged_refl.
  - eapply wpv_commit; [done|done|done|done| |].
    + rewrite pte_flags_nofree. intros m' Hi' Hnew. fold (pte_prot prot) in Hnew. simpl.
      apply wpe_bind, wpe_state. simpl. destruct (vm_region_alloc_slot (vm_regions s)) as [slot|].
      * pose proof Hslot as (r & Hl & _). destruct (Hput slot Hslot) as [Hok' Hv'].
        apply wpe_bind. eapply wpv_put_region; [done|]. apply wpe_ret.
        apply (Hyes _ (frames_of m' base n ∪ F)). split; simpl; try done.
        -- split; [done|]. simpl. eapply space_inv_ext; [intros va _; apply Hv'|].
           eapply space_add_private; try done. intros va. split_and!; try done. by left.
        -- set_solver.
        -- intros va Hp _. destruct (mn_in _ _ _ _ _ _ _ Hnew va Hp) as (p & Ex & ? & _ & ?).
           by exists (Xlate p (pte_prot prot) false).
        -- apply Hnew.
        -- apply Hnew.
      * apply wpe_bind. eapply (wpv_release_new (vm_machine s)); [done|done|exact Hnew|exact Hi'|].
        intros m2 Hsm. apply wpe_ret. apply Hno. by apply (unchanged_machine s F m2).
    + intros m' Hsm. simpl. apply wpe_ret, Hno. by apply unchanged_machine.
Qed.

Lemma wpv_map_guard s F base n flags (Q : Z → vm S → Prop) :
  vm_inv s F → (PAGE_SIZE | base) → 0 ≤ base < 2 ^ 64 → 0 < n → n * PAGE_SIZE < 2 ^ 64 →
  (∀ s' F', mapping s s' F F' base n (λ _, Page 0 flags FRY_VM_REGION_GUARD false None) → Q 0 s') →
  (∀ s', unchanged s s' F → Q (-1) s') →
  wpv (vm_map_guard_region cr3 base (n * PAGE_SIZE) flags) Q s.
Proof using.
  intros Hinv Hb Hb0 Hn Hn2 Hyes Hno. pose proof Hinv as [Hok Hs]. pose proof (si_space _ _ _ _ Hs) as Hi.
  unfold vm_map_guard_region. rewrite (proj2 (Z.eqb_neq cr3 0)) by (by eapply us_cr3_ok).
  rewrite (proj2 (Z.eqb_neq (n * PAGE_SIZE) 0)) by (unfold PAGE_SIZE; lia). simpl orb. cbv iota zeta.
  apply wpe_bind. eapply wpv_range_available; [done|done|by eapply untracked|done..| |];
    [|intros _; apply wpe_ret, Hno; by apply unchanged_refl].
  intros Hav. simpl negb. cbv iota. apply wpe_bind, wpe_state. pose proof (alloc_slot_spec (vm_regions s)) as Hslot.
  destruct (vm_region_alloc_slot (vm_regions s)) as [slot|]; [|apply wpe_ret, Hno; by apply unchanged_refl].
  pose proof Hslot as (r & Hl & _).
  destruct (put_available (vm_regions s) slot base n
    (vm_region_fill base (n * PAGE_SIZE) 0 flags FRY_VM_REGION_GUARD VM_BACKING_NONE 0 false)) as [Hok' Hv']; try done.
  apply wpe_bind. eapply wpv_put_region; [done|]. apply wpe_ret. apply (Hyes _ F). split; try done.
  split; [done|]. simpl. eapply space_inv_ext; [intros va _; apply Hv'|].
  apply space_reserve; try done; [apply Hav|intros va; by eapply available_none|].
  intros va. split_and!; try done. by right.
Qed.
(** Giving up a new object. *)
Lemma wpv_undo_object s F i pp rp n ps m1 m2 (Q : Z → vm S → Prop) :
  vm_inv s F → unused_slot (vm_shared_objects s) i → length ps = n → Z.of_nat n < 2 ^ 32 → pp ≠ 0 →
  new_frames (vm_machine s) m1 F ps → us_inv m2 (list_to_set ps ∪ F) → us_byte m2 = us_byte m1 →
  same_map us_xlat m1 m2 →
  (∀ s', unchanged s s' F → Q (-1) s') →
  wpv (vm_shared_destroy i;; mret (-1)) Q
    (with_objects (<[i := obj_with pp rp n ps]> (vm_shared_objects s)) m2 s).
Proof using.
  intros [Hok Hs] Hun El Hn Hpp Hnf Hi2 Eb2 Hs2 Hno. set (objs := vm_shared_objects s) in *.
  pose proof (si_objs _ _ _ _ Hs) as Hoo. fold objs in Hoo.
  assert (i < length objs)%nat as Hlt by (destruct Hun as (o & Hl & _); by eapply lookup_lt_Some).
  apply wpe_bind. eapply (wpv_shared_destroy _ (list_to_set ps ∪ F)); [exact Hi2| |by apply list_lookup_insert_eq|done|].
  { simpl. apply new_object_ok; try apply Hnf; done || lia. }
  simpl. rewrite list_insert_insert_eq. intros m3 Hi3 [Eb3 Hs3]. apply wpe_ret. apply Hno.
  rewrite new_object_undo in Hi3; try apply Hnf; try done; [|lia].
  destruct (unused_reset objs F i Hoo Hun) as [Hokr Hpr].
  assert (same_map us_xlat (vm_machine s) m3) as Hsm.
  { intros va Hva. rewrite Hs3 by done. simpl. by rewrite Hs2, (nf_map _ _ _ _ Hnf). }
  split; simpl; try done.
  - split; [done|]. simpl. eapply space_inv_objs; [|done|done]. by eapply space_inv_same.
  - intros p a Hp Ha. simpl in Eb3. rewrite Eb3, Eb2. by apply (nf_bytes _ _ _ _ Hnf p).
Qed.

Lemma wpv_map_shared_region s F base n prot flags (Q : Z → vm S → Prop) :
  vm_inv s F → (PAGE_SIZE | base) → 0 ≤ base < 2 ^ 64 → 0 < n < 2 ^ 32 →
  (∀ s' F' id, 0 ≤ id < FRY_VM_SHARED_MAX →
     mapping s s' F F' base n (λ va, Page prot flags FRY_VM_REGION_ANON_SHARED true
       (Some (id, (va - base) / PAGE_SIZE))) → Q 0 s') →
  (∀ s', unchanged s s' F → Q (-1) s') →
  wpv (vm_map_anon_shared_region cr3 base (n * PAGE_SIZE) prot flags) Q s.
Proof using.
  intros Hinv Hb Hb0 Hn Hyes Hno. pose proof Hinv as [Hok Hs]. pose proof (si_space _ _ _ _ Hs) as Hi.
  unfold vm_map_anon_shared_region. rewrite (proj2 (Z.eqb_neq cr3 0)) by (by eapply us_cr3_ok).
  rewrite (proj2 (Z.eqb_neq (n * PAGE_SIZE) 0)) by (unfold PAGE_SIZE; lia). simpl orb. cbv iota zeta.
  apply wpe_bind. eapply wpv_range_available; [done|done|by eapply untracked|done|done|lia|unfold PAGE_SIZE; lia| |];
    [|intros _; apply wpe_ret, Hno; by apply unchanged_refl].
  intros Hav. simpl negb. cbv iota. pose proof Hav as [Hr _]. rewrite Z.div_mul, u32_small by (done || lia).
  assert (∀ va, pin base n va → us_xlat (vm_machine s) va = None) as Hnone.
  { intros va. by eapply available_none. }
  set (objs := vm_shared_objects s) in *. pose proof (si_objs _ _ _ _ Hs) as Hoo.
  replace n with (Z.of_nat (Z.to_nat n)) at 1 by lia. apply wpe_bind.
  eapply wpv_shared_create; [done|done|lia| |].
  2: { intros objs' m' Hok' Hpg (Hi' & Hm' & Hb'). apply wpe_ret. apply Hno. split; try done.
       split; [done|]. simpl. eapply space_inv_objs; [|done|done]. by eapply space_inv_same. }
  intros i pp rp ps m1 Hun Hpp El Hnf. fold objs in Hun. fold objs.
  set (objs1 := <[i := obj_with pp rp (Z.to_nat n) ps]> objs). set (F1 := list_to_set ps ∪ F : gset Z).
  assert (i < length objs)%nat as Hlt by (destruct Hun as (o & Hl & _); by eapply lookup_lt_Some).
  pose proof (space_new_object _ _ _ m1 F i pp rp (Z.to_nat n) ps Hs Hun El ltac:(lia) Hpp Hnf) as Hs1.
  fold objs in Hs1. fold objs1 in Hs1. fold F1 in Hs1.
  pose proof (λ id idx, new_object_page objs i pp rp (Z.to_nat n) ps Hun (nf_pos _ _ _ _ Hnf) id idx) as Hpg.
  fold objs1 in Hpg.
  assert (∀ idx, 0 ≤ idx < n → is_Some (obj_page objs1 (Z.of_nat i) idx)) as Hall.
  { intros idx Hidx. rewrite Hpg, decide_True by done. rewrite (proj2 (Z.leb_le 0 idx)) by lia.
    apply lookup_lt_is_Some_2. lia. }
  assert (∀ idx p, obj_page objs1 (Z.of_nat i) idx = Some p → p ∈ ps) as Hps.
  { intros idx p. rewrite Hpg, decide_True by done. destruct (0 <=? idx); [|done]. apply list_elem_of_lookup_2. }
  assert (∀ va, pin base n va → us_xlat m1 va = None) as Hnone1.
  { intros va Hp. rewrite (nf_map _ _ _ _ Hnf); [by apply Hnone|]. by eapply user_range_page. }
  apply wpe_bind. eapply (wpv_map_shared _ F1 i (obj_with pp rp (Z.to_nat n) ps) base n).
  - apply Hs1.
  - apply Hs1.
  - by apply list_lookup_insert_eq.
  - done.
  - simpl. lia.
  - exact Hall.
  - done.
  - exact Hnone1.
  - simpl. rewrite pte_prot_shared. intros m2 Hi2 Hmo. apply wpe_bind, wpe_state. simpl.
    pose proof (alloc_slot_spec (vm_regions s)) as Hslot.
    destruct (vm_region_alloc_slot (vm_regions s)) as [slot|].
    + pose proof Hslot as (r & Hl & _).
      assert (0 ≤ Z.of_nat i < FRY_VM_SHARED_MAX) as Hid.
      { rewrite (oo_length _ _ Hoo) in Hlt. unfold FRY_VM_SHARED_MAX in *. lia. }
      destruct (put_available (vm_regions s) slot base n
        (vm_region_fill base (n * PAGE_SIZE) prot flags FRY_VM_REGION_ANON_SHARED (Z.of_nat i) 0 true))
        as [Hok' Hv']; try done; [lia|simpl; lia|].
      apply wpe_bind. eapply wpv_put_region; [done|]. apply wpe_ret.
      assert (∀ va, page_of (vm_region_fill base (n * PAGE_SIZE) prot flags FRY_VM_REGION_ANON_SHARED (Z.of_nat i) 0 true) va
        = Page prot flags FRY_VM_REGION_ANON_SHARED true (Some (Z.of_nat i, (va - base) / PAGE_SIZE))) as Epg.
      { done. }
      apply (Hyes _ F1 (Z.of_nat i)); [done|]. pose proof Hmo as [Eb Hx]. split; simpl; try done.
      * split; [done|]. simpl. eapply space_inv_ext; [intros va _; apply Hv'|].
        eapply (space_map_object _ _ m1 _ _ (Z.of_nat i)); try done.
        -- intros va x idx Hva Ex Ep. apply Hps in Ep.
           rewrite (nf_map _ _ _ _ Hnf) in Ex by apply Hva.
           destruct (xlat_tracked _ _ _ _ va x Hs Hva Ex) as (a & _ & _ & Hpm).
           pose proof (nf_new _ _ _ _ Hnf) as Hnew. rewrite Forall_forall in Hnew.
           by apply (Hnew _ Ep), Hpm.
        -- intros va. split_and!; try done. right. by right.
      * unfold F1. set_solver.
      * intros va Hp _. pose proof (user_range_page _ _ _ Hr Hp) as Hu. rewrite Hx by done. rewrite decide_True by done.
        destruct (Hall ((va - base) / PAGE_SIZE)) as [p Ep].
        { destruct Hp as [_ ?]. split; [apply Z.div_pos; [lia|done]|]. apply Z.div_lt_upper_bound; [done|lia]. }
        rewrite Ep. simpl. eexists. split; [done|]. simpl. pose proof (Hps _ _ Ep) as Hin.
        pose proof (nf_new _ _ _ _ Hnf) as Hnew. rewrite Forall_forall in Hnew. split; [by apply Hnew|].
        pose proof (nf_zero _ _ _ _ Hnf) as Hz. rewrite Forall_forall in Hz. intros a Ha. rewrite Eb. by apply (Hz p).
      * intros va Hva Hp. rewrite Hx by done. rewrite decide_False by done. by apply (nf_map _ _ _ _ Hnf).
      * intros p a Hp Ha. rewrite Eb. by apply (nf_bytes _ _ _ _ Hnf p).
    + destruct Hmo as [Eb Hx]. apply wpe_bind. eapply (wpv_unmap_pages base n _ F1); [done|exact Hi2| |].
      * intros va x Hp Ex. simpl in Ex. rewrite Hx in Ex by (by eapply user_range_page).
        rewrite decide_True in Ex by done. apply fmap_Some in Ex as (p & Ep & ->). simpl.
        apply Hps in Ep. pose proof (nf_pos _ _ _ _ Hnf) as Hpos. rewrite Forall_forall in Hpos. by apply Hpos.
      * simpl. intros m3 Hi3 [Eb3 Hx3].
        eapply (wpv_undo_object s F i pp rp (Z.to_nat n) ps m1 m3); try done; [lia|by rewrite Eb3, Eb|].
        intros va Hva. rewrite Hx3, Hx by done. destruct (decide (pin base n va)); [|done]. by rewrite Hnone1.
  - simpl. intros m2 Hi2 [Eb Hx].
    eapply (wpv_undo_object s F i pp rp (Z.to_nat n) ps m1 m2); try done. lia.
Qed.
End calls.
