(* ===== verification/VmUnmap.v ===== *)
(** * User mappings: unmapping a range *)

From S2P Require Import Prelude PageAlloc Vmm VmmInv Loops VmRegion VmTable VmSpace VmInvariant.

(** ** The table *)

Lemma cut_slots_app l a b base end_ :
  cut_slots l (a ++ b) base end_ = cut_slots (cut_slots l a base end_) b base end_.
Proof. revert l. induction a as [|s a IH]; intros l; [done|]. simpl. by rewrite IH. Qed.

Lemma cut_slots_other l slots base end_ s : s ∉ slots → cut_slots l slots base end_ !! s = l !! s.
Proof.
  revert l. induction slots as [|s' slots IH]; intros l Hs; [done|]. simpl.
  apply not_elem_of_cons in Hs as [Hne Hs]. rewrite IH by done. by rewrite list_lookup_insert_ne.
Qed.

Section table.
Context {S : Type} `{!UserSpace S}.
Implicit Types s : vm S.
Abbreviation wpv m Q s := (wpe m Q (λ _, True) s).

(** Clearing the slots of regions inside the range cuts the range out of them. *)
Lemma wpv_clear_slots slots s base end_ (Q : unit → vm S → Prop) :
  NoDup slots → (∀ i, i ∈ slots → ∃ r, vm_regions s !! i = Some r ∧ cut r base end_ = vm_region_clear) →
  Q tt (set_regions (cut_slots (vm_regions s) slots base end_) s) → wpv (clear_slots slots) Q s.
Proof.
  revert s. induction slots as [|i slots IH]; intros s Hnd Hr HQ.
  { apply wpe_ret. by destruct s. }
  apply NoDup_cons in Hnd as [Hi Hnd]. destruct (Hr i ltac:(left)) as (r & Hl & Ec).
  simpl. apply wpe_bind. eapply wpv_put_region; [done|]. apply IH; [done| |].
  - intros j Hj. destruct (Hr j ltac:(by right)) as (x & Hx & Ex). exists x. simpl.
    rewrite list_lookup_insert_ne; [done|]. by intros ->.
  - simpl in HQ. rewrite Hl in HQ. simpl in HQ. by rewrite Ec in HQ.
Qed.

(** A region that holds one end of the range only, or none. *)
Lemma cut_left r base end_ :
  region_wf r → r_top r ≤ end_ →
  cut r base end_ = if r_base r <? base then left_part r base else vm_region_clear.
Proof.
  intros Hwf Ht. unfold cut. destruct (r_base r <? base); [done|].
  destruct (r_end_top r Hwf) as [-> _]. by rewrite (proj2 (Z.ltb_ge end_ (r_top r))).
Qed.
Lemma cut_right r base end_ :
  base ≤ r_base r → cut r base end_ = if end_ <? r_end r then right_part r end_ else vm_region_clear.
Proof. intros Hb. unfold cut. by rewrite (proj2 (Z.ltb_ge (r_base r) base)). Qed.

(** Several regions. *)
Lemma wpv_unmap_many s first rest base end_ (Q : unit → vm S → Prop) :
  regs_ok (vm_regions s) → (PAGE_SIZE | base) → (PAGE_SIZE | end_) →
  covers (vm_regions s) end_ base (first :: rest) → rest ≠ [] →
  (∀ l', regs_ok l' → (∀ va, view l' va = if decide (base ≤ va < end_) then None else view (vm_regions s) va) →
     Q tt (set_regions l' s)) →
  wpv (unmap_many first (removelast rest) (List.last rest first) base end_) Q s.
Proof.
  intros Hok Hb He Hc Hne HQ. destruct (exists_last Hne) as (mid & lst & ->).
  rewrite removelast_last, last_last. destruct (covers_slots _ _ _ _ Hok Hc) as [Hnd Hs].
  set (l := vm_regions s) in *. apply NoDup_cons in Hnd as [Hf Hnd]. apply not_elem_of_app in Hf as [Hfm Hfl].
  apply NoDup_app in Hnd as (Hnm & Hml & _).
  assert (lst ∉ mid) as Hlm by (intros Hin; apply (Hml lst Hin); left).
  assert (first ≠ lst) as Hfne by (intros ->; apply Hfl; left).
  destruct (Hs first ltac:(left)) as (rf & Elf & Huf & Htf & Hbf & _ & Hlastf).
  destruct (Hs lst) as (rl & Ell & Hul & Htl & Hbl & Hheadl & _); [right; apply elem_of_app; right; left|].
  assert (r_top rf < end_).
  { destruct (decide (r_top rf < end_)); [done|]. rewrite last_cons, last_snoc in Hlastf.
    specialize (Hlastf ltac:(lia)). congruence. }
  assert (base < r_base rl).
  { destruct (decide (base < r_base rl)); [done|]. specialize (Hheadl ltac:(lia)). simpl in Hheadl. congruence. }
  assert (∀ i, i ∈ mid → ∃ r, l !! i = Some r ∧ base < r_base r ∧ r_top r < end_) as Hmid.
  { intros i Hi. destruct (Hs i) as (r & El & Hu & ? & ? & Hh & Hlt); [right; apply elem_of_app; by left|].
    exists r. split; [done|]. split.
    - destruct (decide (base < r_base r)); [done|]. specialize (Hh ltac:(lia)). simpl in Hh. congruence.
    - destruct (decide (r_top r < end_)); [done|]. rewrite last_cons, last_snoc in Hlt.
      specialize (Hlt ltac:(lia)). congruence. }
  pose proof (ro_wf _ Hok first rf Elf Huf) as Hwf.
  destruct (cut_covers l (first :: mid ++ [lst]) base end_) as [Hok' Hv']; try done.
  { intros i Hi. destruct (Hs i Hi) as (r & El & Hu & ? & ? & Hh & Hlt). exists r. split_and!; try done.
    destruct (decide (base ≤ r_base r)); [by left|right].
    destruct (decide (r_top r ≤ end_)); [done|]. specialize (Hh ltac:(lia)). specialize (Hlt ltac:(lia)).
    rewrite last_cons, last_snoc in Hlt. simpl in Hh. congruence. }
  unfold unmap_many. apply wpe_bind. eapply wpv_region_at; [exact Elf|]. apply wpe_bind.
  eapply wpv_region_at; [exact Ell|]. rewrite <-(cut_left rf base end_) by (done || lia).
  apply wpe_bind. eapply wpv_put_region; [exact Elf|]. apply wpe_bind.
  eapply (wpv_clear_slots _ _ base end_); [done| |].
  { intros i Hi. destruct (Hmid i Hi) as (r & El & ? & ?). exists r. simpl. split.
    - rewrite list_lookup_insert_ne; [done|]. by intros ->.
    - rewrite cut_right by lia. destruct (Hs i) as (r' & El' & Hu & _); [right; apply elem_of_app; by left|].
      rewrite El in El'. injection El' as <-. destruct (r_end_top r (ro_wf _ Hok i r El Hu)) as [-> _].
      by rewrite (proj2 (Z.ltb_ge end_ (r_top r))) by lia. }
  simpl. rewrite <-(cut_right rl base end_) by lia.
  eapply (wpv_put_region _ _ rl).
  { simpl. rewrite cut_slots_other by done. by rewrite list_lookup_insert_ne. }
  simpl. apply HQ in Hok'; [|exact Hv'].
  cbn [cut_slots] in Hok'. rewrite Elf, cut_slots_app in Hok'. cbn [cut_slots default from_option id] in Hok'.
  rewrite cut_slots_other, list_lookup_insert_ne, Ell in Hok' by done. exact Hok'.
Qed.

(** One region. *)
Lemma wpv_unmap_one s slot base end_ spill (Q : unit → vm S → Prop) :
  regs_ok (vm_regions s) → (PAGE_SIZE | base) → (PAGE_SIZE | end_) → base < end_ →
  covers (vm_regions s) end_ base [slot] → spill_for (vm_regions s) [slot] base end_ = Some spill →
  (∀ l', regs_ok l' → (∀ va, view l' va = if decide (base ≤ va < end_) then None else view (vm_regions s) va) →
     Q tt (set_regions l' s)) →
  wpv (unmap_one slot spill base end_) Q s.
Proof.
  intros Hok Hb He Hbe Hc Hsp HQ. inversion Hc as [|? ? ? r _ Hl [Hu Hin] Hrest]; simplify_eq.
  assert (end_ ≤ r_top r) as Ht by (inversion Hrest; lia). clear Hrest.
  pose proof (ro_wf _ Hok slot r Hl Hu) as Hwf. destruct (r_end_top r Hwf) as [Ee ?].
  set (l := vm_regions s) in *. unfold unmap_one. apply wpe_bind. eapply wpv_region_at; [exact Hl|]. rewrite Ee.
  destruct (decide (r_base r < base ∧ end_ < r_top r)) as [[H1 H2]|Hn].
  - simpl in Hsp. rewrite Hl in Hsp. simpl in Hsp. rewrite Ee in Hsp.
    rewrite (proj2 (Z.ltb_lt (r_base r) base)), (proj2 (Z.ltb_lt end_ (r_top r))) in Hsp by done. simpl in Hsp.
    pose proof (alloc_slots_spec1 l) as Ha. destruct (vm_region_alloc_slots l 1 false) as [p|]; [|done].
    destruct Ha as (k & -> & Hfree). simpl in Hsp. injection Hsp as <-.
    rewrite (proj2 (Z.eqb_neq base (r_base r))), (proj2 (Z.eqb_neq end_ (r_top r))) by lia. simpl.
    destruct (put_part l slot r (r_base r) base) as [Hok1 Hv1]; try done; [apply Hwf|lia|].
    rewrite left_part_span, right_part_span by done.
    apply wpe_bind. eapply wpv_put_region; [exact Hl|]. fold l. set (l1 := <[slot := _]> l) in *.
    assert (k ≠ slot) as Hks by (intros ->; destruct Hfree as (? & ? & ?); congruence).
    assert (is_free l1 k) as Hfree1.
    { destruct Hfree as (x & ? & ?). exists x. split; [|done]. unfold l1. by rewrite list_lookup_insert_ne. }
    set (rp := span r end_ (r_top r) (r_prot r) (r_flags r) (r_committed r)).
    assert (r_top rp = r_top r) as Etp by apply span_top.
    assert (∀ va, end_ ≤ va < r_top r → in_region r va) as Hinr by (intros va ?; split; [done|lia]).
    destruct (put_free l1 k rp) as [Hok2 Hv2]; try done.
    { apply span_wf; try done; [by apply divide_top|lia]. }
    { intros va _ Hva. rewrite Etp in Hva. simpl in Hva. rewrite Hv1, decide_True; [done|]. split; [by apply Hinr|lia]. }
    apply wpe_bind. eapply wpe_need; [done|]. destruct Hfree1 as (x & Hx & _).
    eapply wpv_put_region; [exact Hx|]. simpl. apply (HQ _ Hok2). intros va. rewrite Hv2, Etp. simpl.
    destruct (decide (end_ ≤ va < r_top r)) as [Hva|Hva].
    + rewrite decide_False by lia. unfold rp. rewrite span_page by (done || (by apply divide_top) || lia).
      rewrite <-page_of_eta. symmetry. by apply (view_in l va slot); [| |apply Hinr].
    + rewrite Hv1. destruct (decide (base ≤ va < end_)) as [Hr|Hr].
      * rewrite decide_True; [done|]. split; [split; [done|lia]|lia].
      * rewrite decide_False; [done|]. intros [[_ ?] ?]. lia.
  - destruct (cut_ok l slot r base end_) as [Hok' Hv']; try done; [lia|lia|lia|].
    assert (wpv (put_region slot (cut r base end_)) Q s) as Hput.
    { eapply wpv_put_region; [exact Hl|]. apply HQ; [done|]. intros va. rewrite Hv'.
      destruct (decide (base ≤ va < end_)); [rewrite decide_True; [done|split; [split; [done|lia]|done]]|].
      by rewrite decide_False by tauto. }
    unfold cut in Hput. rewrite Ee in Hput.
    destruct (Z.eqb_spec base (r_base r)) as [->|Hne].
    + rewrite Z.ltb_irrefl in Hput. destruct (Z.eqb_spec end_ (r_top r)) as [->|]; simpl.
      * by rewrite Z.ltb_irrefl in Hput.
      * by rewrite (proj2 (Z.ltb_lt end_ (r_top r))) in Hput by lia.
    + simpl. rewrite (proj2 (Z.ltb_lt (r_base r) base)) in Hput by lia.
      destruct (Z.eqb_spec end_ (r_top r)); [done|lia].
Qed.
End table.

(** ** The pages *)

Section release.
Context {S : Type} `{!UserSpace S} {cr3 : Z} `{!UserSpaceLaws S cr3}.
Implicit Types (m : S) (s : vm S) (F : gset Z) (V : Z → option page).
Abbreviation wpv m Q s := (wpe m Q (λ _, True) s).

Lemma unmapped_same_but m m1 m2 base n :
  unmapped m m1 base n → same_but m1 m2 → unmapped m m2 base n.
Proof using.
  intros [E1 H1] [E2 H2]. split; [congruence|]. intros va Hva. by rewrite H2, H1.
Qed.

(** The part of a region from [b] on, of [n] pages. *)
Section region.
Context (s : vm S) (F : gset Z) (V : Z → option page) (r : region) (b n : Z).
Context (Hs : space_inv V (vm_shared_objects s) (vm_machine s) F) (Hwf : region_wf r)
  (Hb : (PAGE_SIZE | b)) (Hn : 0 < n) (Hrange : r_base r ≤ b ∧ b + n * PAGE_SIZE ≤ r_top r)
  (HV : ∀ va, pin b n va → V va = Some (page_of r va)).

Lemma part_range : user_range b n.
Proof using Hwf Hb Hn Hrange.
  pose proof (rw_low _ Hwf). pose proof (rw_high _ Hwf). split_and!; done || lia.
Qed.

Lemma part_pages va : pin b n va → page_inv (vm_shared_objects s) (vm_machine s) F (Some (page_of r va)) va.
Proof using Hs Hwf Hb Hn Hrange HV.
  intros Hp. rewrite <-HV by done. apply Hs. by apply (pin_apage b n), Hp; apply part_range.
Qed.

Lemma part_mapped va :
  r_committed r = true → pin b n va →
  ∃ x, page_mapped (vm_shared_objects s) (vm_machine s) F (page_of r va) va x ∧ 1 ≤ x_frame x.
Proof using Hs Hwf Hb Hn Hrange HV.
  intros Hc Hp. pose proof (part_pages va Hp) as Hpi. unfold page_inv in Hpi. simpl in Hpi.
  rewrite Hc in Hpi. destruct Hpi as [x Hx]. exists x. split; [done|].
  apply (us_frame_ok (vm_machine s) F); [apply Hs|apply Hx].
Qed.

Lemma part_frames : r_committed r = true → frames_of (vm_machine s) b n ⊆ F.
Proof using Hs Hwf Hb Hn Hrange HV.
  intros Hc p (va & x & Hp & Ex & <-)%elem_frames_of; [|done].
  destruct (part_mapped va Hc Hp) as (x' & Hx & _). pose proof (pm_xlat _ _ _ _ _ _ Hx) as E.
  rewrite Ex in E. injection E as ->. apply Hx.
Qed.

(** The pages of a shared part in their object. *)
Lemma part_shared va :
  r_kind r = FRY_VM_REGION_ANON_SHARED → pin b n va →
  pg_back (page_of r va) =
    Some (r_backing_id r, vm_region_page_start_at r b + (va - b) / PAGE_SIZE).
Proof using Hwf Hb Hn Hrange.
  intros Hk [_ Hva]. rewrite page_start_at_ok by (done || (unfold PAGE_SIZE in *; lia)).
  unfold page_of. simpl. rewrite bool_decide_true by done. do 2 f_equal.
  assert ((PAGE_SIZE | b - r_base r)) as [k Ek] by (apply Z.divide_sub_r; [done|apply Hwf]).
  replace (va - r_base r) with (va - b + k * PAGE_SIZE) by lia.
  rewrite Ek, Z.div_mul, Z.div_add by done. lia.
Qed.

Lemma part_back_frames :
  r_committed r = true → r_kind r = FRY_VM_REGION_ANON_SHARED →
  back_frames (vm_shared_objects s) (r_backing_id r) (vm_region_page_start_at r b) n =
    frames_of (vm_machine s) b n.
Proof using Hs Hwf Hb Hn Hrange HV.
  intros Hc Hk.
  assert (∀ va x, pin b n va → us_xlat (vm_machine s) va = Some x →
    obj_page (vm_shared_objects s) (r_backing_id r) (vm_region_page_start_at r b + (va - b) / PAGE_SIZE) =
      Some (x_frame x)) as Hbk.
  { intros va x Hp Ex. destruct (part_mapped va Hc Hp) as (x' & Hx & _).
    pose proof (pm_xlat _ _ _ _ _ _ Hx) as E. rewrite Ex in E. injection E as <-.
    pose proof (pm_back _ _ _ _ _ _ Hx) as Hbk. unfold backed in Hbk. by rewrite part_shared in Hbk. }
  apply set_eq. intros p. rewrite elem_back_frames, elem_frames_of by done. split.
  - intros (idx & Hi & Ep). set (va := b + (idx - vm_region_page_start_at r b) * PAGE_SIZE).
    assert (pin b n va) as Hp by (split; [by apply page_step|unfold va, PAGE_SIZE; lia]).
    destruct (part_mapped va Hc Hp) as (x & Hx & _). pose proof (pm_xlat _ _ _ _ _ _ Hx) as E.
    exists va, x. split_and!; try done. pose proof (Hbk va x Hp E) as Eo. unfold va in Eo.
    rewrite Z.add_simpl_l, Z.div_mul in Eo by done.
    replace (vm_region_page_start_at r b + (idx - vm_region_page_start_at r b)) with idx in Eo by lia. congruence.
  - intros (va & x & Hp & Ex & <-). eexists. split; [|by apply Hbk].
    destruct Hp as [_ ?]. split; [pose proof (Z.div_pos (va - b) PAGE_SIZE); unfold PAGE_SIZE in *; lia|].
    assert ((va - b) / PAGE_SIZE < n); [|lia]. apply Z.div_lt_upper_bound; [done|lia].
Qed.

(** [vm_release_region_pages] *)
Lemma wpv_release_region (Q : Z → vm S → Prop) :
  (∀ objs' m', space_inv (vcut V b n) objs' m' (F ∖ frames_of (vm_machine s) b n) →
     unmapped (vm_machine s) m' b n → Q 0 (with_objects objs' m' s)) →
  wpv (vm_release_region_pages cr3 r b (n * PAGE_SIZE)) Q s.
Proof using Hs Hwf Hb Hn Hrange HV.
  intros HQ. pose proof part_range as Hr. pose proof (si_space _ _ _ _ Hs) as Hi.
  unfold vm_release_region_pages. rewrite (proj2 (Z.eqb_neq (n * PAGE_SIZE) 0)) by (unfold PAGE_SIZE; lia).
  destruct (r_committed r) eqn:Hc; simpl negb; cbv iota.
  2: { assert (∀ va, pin b n va → us_xlat (vm_machine s) va = None) as Hnone.
       { intros va Hp. pose proof (part_pages va Hp) as Hpi. unfold page_inv in Hpi. simpl in Hpi.
         rewrite Hc in Hpi. apply Hpi. }
       apply wpe_ret. replace s with (with_objects (vm_shared_objects s) (vm_machine s) s) at 1 by (by destruct s).
       assert (frames_of (vm_machine s) b n = ∅) as Ef.
       { apply set_eq. intros p. rewrite elem_frames_of by done. split; [|set_solver].
         intros (va & x & Hp & Ex & _). by rewrite Hnone in Ex. }
       apply HQ.
       - rewrite Ef, difference_empty_L. by apply space_cut_reserved.
       - split; [done|]. intros va Hva. destruct (decide (pin b n va)); [by apply Hnone|done]. }
  apply wpe_bind. eapply wpv_range_mapped; [done|done|done| |].
  { intros va Hp. destruct (part_mapped va Hc Hp) as (x & Hx & ?). exists x. split; [apply Hx|done]. }
  simpl negb. cbv iota.
  assert (real_frames (vm_machine s) b n) as Hreal.
  { intros va x Hp Ex. destruct (part_mapped va Hc Hp) as (x' & Hx & ?).
    pose proof (pm_xlat _ _ _ _ _ _ Hx) as E. rewrite Ex in E. by injection E as ->. }
  assert (r_kind r ≠ FRY_VM_REGION_ANON_SHARED →
    wpv (vm_release_private_pages cr3 b (n * PAGE_SIZE);; mret 0) Q s) as Hpriv.
  { intros Hk. apply wpe_bind. eapply (wpv_release_private b n s F); try done; [by apply part_frames| |].
    - intros va va' x x' Hp Hp'. apply (si_inj _ _ _ _ Hs); by apply (pin_apage b n).
    - intros m' Hi' Hu. apply wpe_ret. apply (HQ (vm_shared_objects s)); [|done].
      eapply space_cut_private; try done. intros va Hp. rewrite HV by done. eexists. split; [done|].
      simpl. by rewrite bool_decide_false. }
  assert (pin b n b) as Hpb by (split; [done|unfold PAGE_SIZE; lia]).
  destruct (part_mapped b Hc Hpb) as (xb & Hxb & _). pose proof (pm_kind _ _ _ _ _ _ Hxb) as Hk. simpl in Hk.
  destruct (r_kind r) eqn:Ek; try (by apply Hpriv); try (by destruct Hk as [?|[?|?]]).
  destruct (rw_shared _ Hwf Ek) as (Hid & Hst & Hst2).
  apply wpe_bind. eapply (wpv_unmap_pages b n s F); try done. intros m1 Hi1 Hu1.
  (* the object in use *)
  pose proof (pm_back _ _ _ _ _ _ Hxb) as Hbk. unfold backed in Hbk. rewrite part_shared in Hbk by done.
  apply obj_page_Some in Hbk as (_ & _ & o & _ & Ho & Huo & _).
  set (start := vm_region_page_start_at r b) in *.
  assert (0 ≤ start) as Hstart.
  { unfold start. rewrite page_start_at_ok by (done || (unfold PAGE_SIZE in *; lia)).
    pose proof (Z.div_pos (b - r_base r) PAGE_SIZE). unfold PAGE_SIZE in *. lia. }
  assert (start + n ≤ so_page_count o) as Hcount.
  { assert (pin b n (b + (n - 1) * PAGE_SIZE)) as Hpl by (split; [by apply page_step|unfold PAGE_SIZE; lia]).
    destruct (part_mapped _ Hc Hpl) as (xl & Hxl & _). pose proof (pm_back _ _ _ _ _ _ Hxl) as Hbl.
    unfold backed in Hbl. rewrite part_shared in Hbl by done.
    rewrite Z.add_simpl_l, Z.div_mul in Hbl by done.
    apply obj_page_Some in Hbl as (_ & _ & o' & pa & Ho' & _ & Hpa & _). rewrite Ho in Ho'. injection Ho' as <-.
    apply lookup_lt_Some in Hpa. rewrite (ow_pages o) in Hpa; [unfold start in *; lia|].
    by eapply (oo_wf _ _ (si_objs _ _ _ _ Hs)). }
  rewrite Z.div_mul by done.
  assert (so_page_count o < 2 ^ 32) as Hc32 by (apply (ow_count o); by eapply (oo_wf _ _ (si_objs _ _ _ _ Hs))).
  rewrite u32_small by lia. apply wpe_bind.
  replace (r_backing_id r) with (Z.of_nat (Z.to_nat (r_backing_id r))) by lia.
  eapply (wpv_shared_release _ F (Z.to_nat (r_backing_id r)) o); try done.
  { apply Hs. } { lia. }
  simpl. rewrite Z2Nat.id by lia. unfold start. rewrite part_back_frames by done.
  intros objs' m2 Hi2 Hoo Hd Hsb. apply wpe_ret. apply HQ; [|by eapply unmapped_same_but].
  rewrite <-part_back_frames in * by done.
  eapply (space_cut_shared V (vm_shared_objects s) objs' (vm_machine s) m1 m2); try done.
  intros va Hp. exists (page_of r va). split; [by apply HV|]. split; [done|]. by apply part_shared.
Qed.
End region.
(** ** Two ranges that follow each other *)

Lemma pin_split base k j va :
  (PAGE_SIZE | base) → 0 ≤ k → 0 ≤ j →
  pin base (k + j) va ↔ pin base k va ∨ pin (base + k * PAGE_SIZE) j va.
Proof using.
  intros Hb Hk Hj. unfold pin. split.
  - intros [Hd Hv]. destruct (decide (va < base + k * PAGE_SIZE)); [left|right]; (split; [done|unfold PAGE_SIZE in *; lia]).
  - intros [[Hd Hv]|[Hd Hv]]; (split; [done|unfold PAGE_SIZE in *; lia]).
Qed.

Lemma unmapped_app m m1 m2 base k j :
  (PAGE_SIZE | base) → 0 ≤ k → 0 ≤ j → unmapped m m1 base k → unmapped m1 m2 (base + k * PAGE_SIZE) j →
  unmapped m m2 base (k + j).
Proof using.
  intros Hb Hk Hj [E1 H1] [E2 H2]. split; [congruence|]. intros va Hva. rewrite H2, H1 by done.
  destruct (decide (pin (base + k * PAGE_SIZE) j va)) as [Hp|Hp].
  - rewrite decide_True; [done|]. apply pin_split; auto.
  - destruct (decide (pin base k va)) as [Hq|Hq].
    + rewrite decide_True; [done|]. apply pin_split; auto.
    + rewrite decide_False; [done|]. rewrite pin_split by done. tauto.
Qed.

Lemma frames_app m m1 base k j F :
  (PAGE_SIZE | base) → 0 ≤ k → 0 ≤ j → user_range base (k + j) → unmapped m m1 base k →
  F ∖ frames_of m base k ∖ frames_of m1 (base + k * PAGE_SIZE) j = F ∖ frames_of m base (k + j).
Proof using.
  intros Hb Hk Hj Hr [_ H1]. pose proof (page_step base k Hb) as Hb'.
  assert (∀ va, pin (base + k * PAGE_SIZE) j va → us_xlat m1 va = us_xlat m va) as Hx.
  { intros va Hp. rewrite H1; [|apply (user_range_page base (k + j)); [done|]; by apply pin_split; auto].
    rewrite decide_False; [done|]. intros [_ ?]. destruct Hp as [_ ?]. lia. }
  rewrite (frames_of_ext m m1) by done. apply set_eq. intros p.
  rewrite !elem_of_difference, !elem_frames_of by done. split.
  - intros [[HF H2] H3]. split; [done|]. intros (va & x & [Hp|Hp]%pin_split & Ex & E); [|..|done|done|done].
    + apply H2. eauto.
    + apply H3. eauto.
  - intros [HF Hn]. split; [split; [done|]|]; intros (va & x & Hp & Ex & E); apply Hn; exists va, x;
      (split; [|done]); apply pin_split; auto.
Qed.

Lemma vcut_app V base k j va :
  0 ≤ k → 0 ≤ j → vcut V base (k + j) va = vcut (vcut V base k) (base + k * PAGE_SIZE) j va.
Proof using.
  intros Hk Hj. unfold vcut.
  destruct (decide (base + k * PAGE_SIZE ≤ va < base + k * PAGE_SIZE + j * PAGE_SIZE)).
  - rewrite decide_True; [done|]. unfold PAGE_SIZE in *. lia.
  - destruct (decide (base ≤ va < base + k * PAGE_SIZE)).
    + rewrite decide_True; [done|]. unfold PAGE_SIZE in *. lia.
    + rewrite decide_False; [done|]. unfold PAGE_SIZE in *. lia.
Qed.

(** ** All the regions of a range *)

(** The first [k] pages of the range have been released. *)
Record released (l : regions) m0 F0 (base k : Z) s : Prop := {
  rl_regions : vm_regions s = l;
  rl_space : space_inv (vcut (view l) base k) (vm_shared_objects s) (vm_machine s) (F0 ∖ frames_of m0 base k);
  rl_map : unmapped m0 (vm_machine s) base k
}.

(** The next region starts where the last one ended. *)
Definition starts_at (l : regions) (base e c : Z) : Prop :=
  c = base ∨ e ≤ c ∨ ∀ i r, l !! i = Some r → in_region r c → r_base r = c.

Lemma wpv_release_slots l m0 F0 base n slots k s (Q : Z → vm S → Prop) :
  regs_ok l → user_range base n → 0 ≤ k ≤ n → starts_at l base (base + n * PAGE_SIZE) (base + k * PAGE_SIZE) →
  covers l (base + n * PAGE_SIZE) (base + k * PAGE_SIZE) slots → released l m0 F0 base k s →
  (∀ s', released l m0 F0 base n s' → Q 0 s') →
  wpv (release_slots cr3 slots base (base + n * PAGE_SIZE)) Q s.
Proof using.
  intros Hok Hr. revert k s. induction slots as [|slot slots IH]; intros k s Hk Hst Hc Hrel HQ.
  { inversion Hc as [? Hle|]; simplify_eq. apply wpe_ret, HQ.
    assert (k = n) as -> by (unfold PAGE_SIZE in Hle; lia). done. }
  inversion Hc as [|? ? ? r Hlt Hl Hin Hrest]; simplify_eq. set (c := base + k * PAGE_SIZE) in *.
  set (e := base + n * PAGE_SIZE) in *. pose proof Hin as [Hu Hcr].
  pose proof (ro_wf _ Hok slot r Hl Hu) as Hwf. destruct (r_end_top r Hwf) as [Ee _].
  pose proof Hr as (Hb & _ & Hlo & Hhi). pose proof Hrel as [Er Hs Hm].
  simpl. apply wpe_bind. eapply wpv_region_at; [by rewrite Er|]. rewrite Ee.
  assert ((if r_base r <? base then base else r_base r) = c) as ->.
  { destruct Hst as [Ec|[?|Hst]]; [|lia|].
    - unfold c in Ec |- *. assert (k = 0) as -> by (unfold PAGE_SIZE in Ec; lia).
      destruct (Z.ltb_spec (r_base r) base); unfold c in *; lia.
    - specialize (Hst slot r Hl Hin). destruct (Z.ltb_spec (r_base r) base); unfold c, PAGE_SIZE in *; lia. }
  assert ((if e <? r_top r then e else r_top r) = Z.min (r_top r) e) as -> by (bool_cases; lia).
  set (e' := Z.min (r_top r) e) in *.
  assert ((PAGE_SIZE | c)) as Hdc by (by apply page_step).
  assert ((PAGE_SIZE | e')) as Hde.
  { unfold e'. destruct (Z.min_spec (r_top r) e) as [[_ ->]|[_ ->]]; [by apply divide_top|by apply page_step]. }
  assert ((PAGE_SIZE | e' - c)) as [j Ej] by (by apply Z.divide_sub_r).
  assert (c < e') as Hce by (unfold e'; lia). rewrite (proj2 (Z.leb_gt e' c)) by done. rewrite Ej.
  assert (0 < j) as Hj by (unfold PAGE_SIZE in *; lia).
  assert (e' ≤ e) as Hee by (unfold e'; lia).
  assert (k + j ≤ n) as Hkj by (unfold c, e, PAGE_SIZE in *; lia).
  assert (user_range base (k + j)) as Hrk by (apply (user_range_prefix base n); [done|lia]).
  apply wpe_bind. eapply (wpv_release_region s _ _ r c j); [exact Hs|done|done|done| | |].
  - split; [lia|]. unfold e', PAGE_SIZE in *. lia.
  - intros va [_ Hva]. unfold vcut. rewrite decide_False by (unfold c in *; lia).
    apply (view_in l va slot); [done|done|]. split; [done|]. unfold e', PAGE_SIZE in *. lia.
  - intros objs' m' Hs' Hm'. simpl.
    assert (released l m0 F0 base (k + j) (with_objects objs' m' s)) as Hrel'.
    { split; simpl; [done| |].
      - eapply space_inv_ext; [intros va _; apply vcut_app; lia|].
        rewrite <-(frames_app m0 (vm_machine s) base k j) by (done || lia). exact Hs'.
      - eapply unmapped_app; try done; lia. }
    assert (base + (k + j) * PAGE_SIZE = e') as Ee' by (unfold c, PAGE_SIZE in *; lia).
    apply (IH (k + j)); [lia| | |done|done].
    + rewrite Ee'. right. destruct (decide (e ≤ e')) as [|Hlt']; [by left|right]. intros i x Hi [Hux Hx].
      assert (e' = r_top r) as Et by (unfold e' in *; lia).
      destruct (decide (i = slot)) as [->|Hne].
      * rewrite Hl in Hi. injection Hi as <-. lia.
      * destruct (ro_disj _ Hok slot i r x) as [?|?]; try done; lia.
    + by rewrite Ee'.
Qed.
(** ** [vm_unmap_region_range] *)

Record unmapping s s' F (base n : Z) : Prop := {
  ump_covered : ∀ va, base ≤ va < base + n * PAGE_SIZE → is_Some (view (vm_regions s) va);
  ump_inv : vm_inv s' (F ∖ frames_of (vm_machine s) base n);
  ump_view : ∀ va, view (vm_regions s') va = vcut (view (vm_regions s)) base n va;
  ump_map : unmapped (vm_machine s) (vm_machine s') base n;
  ump_compact : compact (vm_regions s')
}.

(** Why nothing is unmapped: a page of the range is not mapped, or a region
    has to be split and the table is full. *)
Definition unmap_refused (l : regions) (base n : Z) : Prop :=
  (∃ va, base ≤ va < base + n * PAGE_SIZE ∧ view l va = None) ∨
  (free_count l = 0%nat ∧ ∃ i r, l !! i = Some r ∧ r_used r = true ∧ r_base r < base ∧
     base + n * PAGE_SIZE < r_top r).

Lemma spill_spec l slots base end_ :
  regs_ok l → covers l end_ base slots → base < end_ →
  match spill_for l slots base end_ with
  | Some _ => True
  | None => free_count l = 0%nat ∧ ∃ i r, l !! i = Some r ∧ r_used r = true ∧ r_base r < base ∧ end_ < r_top r
  end.
Proof using.
  intros Hok Hc Hbe. destruct slots as [|slot [|]]; simpl; try done.
  inversion Hc as [|? ? ? r _ Hl [Hu _] _]; simplify_eq. rewrite Hl. simpl.
  destruct (r_end_top r (ro_wf _ Hok slot r Hl Hu)) as [-> _].
  destruct ((r_base r <? base) && (end_ <? r_top r)) eqn:E; [|done]. b2p.
  pose proof (alloc_slots_spec1 l) as Ha. destruct (vm_region_alloc_slots l 1 false); [done|].
  simpl. split; [done|]. by exists slot, r.
Qed.

Lemma wpv_unmap_range s F base n (Q : Z → vm S → Prop) :
  vm_inv s F → (PAGE_SIZE | base) → 0 ≤ base < 2 ^ 64 → 0 < n → n * PAGE_SIZE < 2 ^ 64 →
  (∀ s', unmapping s s' F base n → Q 0 s') →
  (unmap_refused (vm_regions s) base n → Q (-1) s) →
  wpv (vm_unmap_region_range cr3 base (n * PAGE_SIZE)) Q s.
Proof using.
  intros [Hok Hs] Hb Hb0 Hn Hn2 Hyes Hno. set (l := vm_regions s) in *. set (e := base + n * PAGE_SIZE).
  unfold vm_unmap_region_range. apply wpe_bind, wpe_state. fold l.
  destruct (decide (e < 2 ^ 64)) as [Hw|Hw].
  2: { unfold vm_region_collect_covering_slots. change (Z.to_nat PROC_VMREG_MAX =? 0)%nat with false.
       rewrite (proj2 (Z.eqb_neq (n * PAGE_SIZE) 0)) by (unfold PAGE_SIZE; lia). simpl orb. cbv iota.
       rewrite (proj2 (Z.ltb_lt _ base)).
       2: { fold e. unfold u64. rewrite <-(Z.mod_add _ (-1)), Z.mod_small by (unfold e in *; lia). unfold e. lia. }
       apply wpe_ret, Hno. left. exists (e - 1). split; [unfold e, PAGE_SIZE in *; lia|].
       destruct (view l (e - 1)) eqn:Ev; [|done]. apply view_area in Ev; [|done]. unfold VM_USER_LIMIT in Ev. lia. }
  pose proof (collect_covering_spec l base (n * PAGE_SIZE) Hok ltac:(lia) ltac:(unfold PAGE_SIZE; lia) Hw) as Hcol.
  fold e in Hcol |- *. rewrite u64_small by (unfold e, PAGE_SIZE in *; lia).
  destruct (vm_region_collect_covering_slots _ _ _ _) as [slots|]; [|apply wpe_ret, Hno; by left].
  assert (base < e) as Hbe by (unfold e, PAGE_SIZE in *; lia).
  pose proof (spill_spec l slots base e Hok Hcol Hbe) as Hsp.
  destruct (spill_for l slots base e) as [spill|] eqn:Esp; [|apply wpe_ret, Hno; by right].
  assert (∀ va, base ≤ va < e → is_Some (view l va)) as Hcov.
  { intros va Hva. destruct (covers_view l e base slots va Hcol Hva) as (i & r & _ & Hl & Hin).
    rewrite (view_in l va i r) by done. by eexists. }
  assert (user_range base n) as Hr.
  { destruct (Hcov base ltac:(lia)) as [a Ha%view_area]; [|done].
    destruct (Hcov (e - 1) ltac:(lia)) as [a' Ha'%view_area]; [|done]. split_and!; try done; unfold e in *; lia. }
  assert ((PAGE_SIZE | e)) as Hde by (by apply page_step).
  apply wpe_bind. eapply (wpv_release_slots l (vm_machine s) F base n slots 0).
  - done.
  - done.
  - lia.
  - left. lia.
  - by rewrite Z.mul_0_l, Z.add_0_r.
  - split; [done| |apply unmapped_0]. rewrite frames_of_0, difference_empty_L.
    eapply space_inv_ext; [|exact Hs]. intros va _. unfold vcut. rewrite decide_False by lia. done.
  - intros s1 [El Hs1 Hm1]. simpl.
    assert (∀ l', regs_ok l' → (∀ va, view l' va = if decide (base ≤ va < e) then None else view l va) →
      wpv (merge_neighbors;; mret 0) Q (set_regions l' s1)) as Hend.
    { intros l' Hok' Hv'. apply wpe_bind. eapply wpv_merge; [done|]. simpl. intros l2 Hok2 Hv2 Hcp.
      apply wpe_ret, Hyes. split; try done; [|intros va; by rewrite Hv2, Hv'].
      split; [done|]. simpl. eapply space_inv_ext; [|exact Hs1]. intros va _. by rewrite Hv2, Hv'. }
    destruct slots as [|first [|second rest]].
    + inversion Hcol; lia.
    + apply wpe_bind. rewrite <-El in *. eapply wpv_unmap_one; try done.
    + apply wpe_bind. rewrite <-El in *. eapply wpv_unmap_many; try done.
Qed.
End release.

(** * User mappings: the end of a process

    [syscall_vm_process_exit] gives back the pages of shared objects that the
    process maps and clears its table; the private pages stay mapped for the
    destruction of the address space. *)

(** Page [idx] of object [id] is mapped by the region. *)
Definition owns (r : region) (id idx : Z) : Prop :=
  r_used r = true ∧ r_committed r = true ∧ r_kind r = FRY_VM_REGION_ANON_SHARED ∧
  id = r_backing_id r ∧
  r_backing_page_start r ≤ idx < r_backing_page_start r + r_length r / PAGE_SIZE.

Section exit.
Context {S : Type} `{!UserSpace S} {cr3 : Z} `{!UserSpaceLaws S cr3}.
Implicit Types (m : S) (s : vm S) (F : gset Z).
Abbreviation wpv m Q s := (wpe m Q (λ _, True) s).

(** The pages the process shares. *)
Definition shared_frame m (p : Z) : Prop :=
  ∃ va x, apage va ∧ us_xlat m va = Some x ∧ x_nofree x = true ∧ x_frame x = p.

Section process.
Context (s : vm S) (F : gset Z) (Hinv : vm_inv s F).

(** Where a shared page is mapped. *)
Lemma owns_mapped i r id idx :
  vm_regions s !! i = Some r → owns r id idx →
  let va := r_base r + (idx - r_backing_page_start r) * PAGE_SIZE in
  in_region r va ∧ apage va ∧ ∃ x, us_xlat (vm_machine s) va = Some x ∧ x_nofree x = true ∧
    obj_page (vm_shared_objects s) id idx = Some (x_frame x).
Proof using Hinv.
  intros Hl (Hu & Hc & Hk & -> & Hidx) va. destruct Hinv as [Hok Hs].
  destruct (ro_wf _ Hok i r Hl Hu) as [[b Eb] [n En] Hpos Hlow Hhigh _]. unfold r_top in Hhigh.
  rewrite En, Z.div_mul in Hidx by done.
  assert (in_region r va) as Hin by (split; [done|unfold va, r_top, PAGE_SIZE in *; lia]).
  assert (apage va) as Hva.
  { unfold va in *. destruct Hin as [_ ?]. unfold r_top in *. split; [|lia]. split.
    - apply Z.divide_add_r; [by exists b|by eexists].
    - unfold VM_USER_BASE, VM_USER_LIMIT, USER_VA_TOP in *. lia. }
  split; [done|]. split; [done|]. pose proof (si_page _ _ _ _ Hs va Hva) as Hp.
  rewrite (view_in _ va i r Hok Hl Hin) in Hp. simpl in Hp. rewrite Hc in Hp. destruct Hp as [x Hx].
  exists x. destruct Hx as [Ex _ Hnf _ Hbk _]. unfold is_shared, backed in *. simpl in *.
  rewrite bool_decide_true in Hnf, Hbk by done. split_and!; try done. rewrite <-Hbk. f_equal.
  unfold va. rewrite Z.add_simpl_l, Z.div_mul by done. lia.
Qed.

Lemma owns_disjoint i j r x id idx :
  vm_regions s !! i = Some r → vm_regions s !! j = Some x → owns r id idx → owns x id idx → i = j.
Proof using Hinv.
  intros Hi Hj Hr Hx. destruct (decide (i = j)) as [|Hne]; [done|exfalso].
  destruct (owns_mapped i r id idx Hi Hr) as ([_ H1] & Ha & e & Ee & _ & Op).
  destruct (owns_mapped j x id idx Hj Hx) as ([_ H2] & Hb & f & Ef & _ & Oq).
  rewrite Op in Oq. injection Oq as Efr. destruct Hinv as [Hok Hs].
  pose proof (si_inj _ _ _ _ Hs _ _ _ _ Ha Hb Ee Ef Efr) as E.
  destruct (ro_disj _ Hok i j r x Hi Hj Hne) as [?|?]; [apply Hr|apply Hx|lia..].
Qed.

Lemma shared_owned p :
  shared_frame (vm_machine s) p ↔
  ∃ i r id idx, vm_regions s !! i = Some r ∧ owns r id idx ∧ obj_page (vm_shared_objects s) id idx = Some p.
Proof using Hinv.
  split.
  - intros (va & x & Hva & Ex & Hn & <-). destruct Hinv as [Hok Hs].
    destruct (xlat_tracked _ _ _ _ va x Hs Hva Ex) as (a & Ha & Hc & [_ _ Hnf _ Hbk _]).
    apply view_Some in Ha as (i & r & Hl & [Hu Hin] & ->); [|done].
    unfold is_shared, backed in *. simpl in *. case_bool_decide as Hk; [|congruence].
    eexists i, r, _, _. split; [done|]. split; [|exact Hbk]. split_and!; try done.
    + assert (0 ≤ (va - r_base r) / PAGE_SIZE) by (apply Z.div_pos; [lia|done]). lia.
    + assert ((va - r_base r) / PAGE_SIZE < r_length r / PAGE_SIZE); [|lia].
      destruct (ro_wf _ Hok i r Hl Hu) as [_ [n En] _ _ _ _]. rewrite En, Z.div_mul by done.
      unfold r_top in Hin. apply Z.div_lt_upper_bound; [done|]. lia.
  - intros (i & r & id & idx & Hl & Ho & Ep). destruct (owns_mapped i r id idx Hl Ho) as (_ & Hva & x & Ex & Hn & Eo).
    eexists _, x. split_and!; try done. congruence.
Qed.

(** The slots before [i] have been visited. *)
Definition visited (i : Z) (id idx : Z) : Prop :=
  ∃ j r, Z.of_nat j < i ∧ vm_regions s !! j = Some r ∧ owns r id idx.

Record exiting (i : Z) (s' : vm S) (F' : gset Z) : Prop := {
  ex_done : ∀ j r, vm_regions s' !! j = Some r → Z.of_nat j < i → r_used r = false;
  ex_rest : ∀ j, i ≤ Z.of_nat j → vm_regions s' !! j = vm_regions s !! j;
  ex_len : length (vm_regions s') = length (vm_regions s);
  ex_inv : us_inv (vm_machine s') F';
  ex_objs : objs_ok (vm_shared_objects s') F';
  ex_same : same_but (vm_machine s) (vm_machine s');
  ex_gone : ∀ id idx, visited i id idx → obj_page (vm_shared_objects s') id idx = None;
  ex_kept : ∀ id idx, ¬ visited i id idx →
    obj_page (vm_shared_objects s') id idx = obj_page (vm_shared_objects s) id idx;
  ex_frames : ∀ p, p ∈ F' ↔ p ∈ F ∧
    ¬ ∃ id idx, visited i id idx ∧ obj_page (vm_shared_objects s) id idx = Some p
}.

Lemma visited_next i r id idx :
  vm_regions s !! i = Some r →
  visited (Z.of_nat i + 1) id idx ↔ visited (Z.of_nat i) id idx ∨ owns r id idx.
Proof using.
  intros Hl. split.
  - intros (j & x & Hj & Hx & Ho). destruct (decide (j = i)) as [->|]; [right; congruence|left].
    exists j, x. split; [lia|done].
  - intros [(j & x & Hj & Hx & Ho)|Ho]; [exists j, x|exists i, r]; (split; [lia|done]).
Qed.

Lemma visited_not i r id idx : vm_regions s !! i = Some r → owns r id idx → ¬ visited (Z.of_nat i) id idx.
Proof using Hinv.
  intros Hl Ho (j & x & Hj & Hx & Hox). pose proof (owns_disjoint i j r x id idx Hl Hx Ho Hox). lia.
Qed.

(** Releasing the pages of a slot and clearing it. *)
Lemma exiting_step i r x s1 F1 objs' m' F2 :
  r_used x = false → vm_regions s !! i = Some r → exiting (Z.of_nat i) s1 F1 →
  us_inv m' F2 → objs_ok objs' F2 → same_but (vm_machine s1) m' →
  (∀ id idx, owns r id idx → obj_page objs' id idx = None) →
  (∀ id idx, ¬ owns r id idx → obj_page objs' id idx = obj_page (vm_shared_objects s1) id idx) →
  (∀ p, p ∈ F2 ↔ p ∈ F1 ∧ ¬ ∃ id idx, owns r id idx ∧ obj_page (vm_shared_objects s1) id idx = Some p) →
  exiting (Z.of_nat i + 1) (Vm (<[i := x]> (vm_regions s1)) objs' m') F2.
Proof using Hinv.
  intros Hux Hl [H1 H2 H3 H4 H5 H6 H7 H8 H9] Hi Hoo Hsb Hgone Hkept HF.
  assert (∀ id idx, owns r id idx →
    obj_page (vm_shared_objects s1) id idx = obj_page (vm_shared_objects s) id idx) as Hown.
  { intros id idx Ho. apply H8. by apply (visited_not i r). }
  split; simpl; try done.
  - intros j y Hj Hlt. destruct (decide (j = i)) as [->|Hne].
    + by apply list_lookup_insert_Some in Hj as [(_ & -> & _)|[? _]].
    + rewrite list_lookup_insert_ne in Hj by done. eapply H1; [done|lia].
  - intros j Hj. rewrite list_lookup_insert_ne by lia. apply H2. lia.
  - by rewrite length_insert.
  - by eapply same_but_trans.
  - intros id idx [Hv|Ho]%(visited_next i r); [|by apply Hgone|done].
    destruct (obj_page objs' id idx) as [p|] eqn:E; [|done]. rewrite Hkept, H7 in E; [done|done|].
    intros Ho. by apply (visited_not i r id idx).
  - intros id idx Hn. rewrite (visited_next i r) in Hn by done. rewrite Hkept by tauto. apply H8. tauto.
  - intros p. rewrite HF, H9. setoid_rewrite (visited_next i r); [|done]. split.
    + intros [[Hp Hn] Hn']. split; [done|]. intros (id & idx & [Hv|Ho] & Ep); [by apply Hn; exists id, idx|].
      apply Hn'. exists id, idx. by rewrite Hown.
    + intros [Hp Hn]. split_and!; [done| |].
      * intros (id & idx & Hv & Ep). apply Hn. exists id, idx. auto.
      * intros (id & idx & Ho & Ep). apply Hn. exists id, idx. rewrite <-Hown by done. auto.
Qed.

(** The release of the pages of a shared region. *)
Lemma wpv_exit_shared i r s1 F1 (Q : unit → vm S → Prop) :
  vm_regions s !! i = Some r → exiting (Z.of_nat i) s1 F1 → r_used r = true → r_committed r = true →
  r_kind r = FRY_VM_REGION_ANON_SHARED →
  (∀ objs' m' F2, exiting (Z.of_nat i + 1) (Vm (<[i := vm_region_clear]> (vm_regions s1)) objs' m') F2 →
     Q tt (with_objects objs' m' s1)) →
  wpv (vm_shared_release_range (r_backing_id r) (r_backing_page_start r) (u32 (r_length r / PAGE_SIZE))) Q s1.
Proof using Hinv.
  intros Hl He Hu Hc Hk HQ. destruct (ro_wf _ (proj1 Hinv) i r Hl Hu) as [_ [n En] Hpos _ _ Hsh].
  destruct (Hsh Hk) as (Hid & Hst & Hst2). rewrite En, Z.div_mul in * by done.
  assert (0 < n) by (unfold PAGE_SIZE in *; lia). rewrite u32_small by lia.
  assert (∀ id idx, owns r id idx ↔ id = r_backing_id r ∧ r_backing_page_start r ≤ idx < r_backing_page_start r + n) as Ho.
  { intros. unfold owns. rewrite En, Z.div_mul by done. tauto. }
  assert (∀ idx, r_backing_page_start r ≤ idx < r_backing_page_start r + n →
    ∃ p, obj_page (vm_shared_objects s1) (r_backing_id r) idx = Some p) as Hall.
  { intros idx Hidx. assert (owns r (r_backing_id r) idx) as Hr by (by apply Ho).
    rewrite (ex_kept _ _ _ He) by (by apply (visited_not i r)).
    destruct (owns_mapped i r _ idx Hl Hr) as (_ & _ & x & _ & _ & E). by exists (x_frame x). }
  destruct (Hall (r_backing_page_start r) ltac:(lia)) as [p Ep].
  apply obj_page_Some in Ep as (_ & _ & o & pa & Hlo & Huo & _).
  pose proof (oo_wf _ _ (ex_objs _ _ _ He) _ o Hlo Huo) as Hwf.
  assert (r_backing_page_start r + n ≤ so_page_count o) as Hcnt.
  { destruct (Hall (r_backing_page_start r + n - 1) ltac:(lia)) as [q Eq].
    apply obj_page_Some in Eq as (_ & _ & o' & pa' & Hlo' & _ & Hpa & _). rewrite Hlo in Hlo'. injection Hlo' as <-.
    apply lookup_lt_Some in Hpa. rewrite (ow_pages o Hwf) in Hpa. lia. }
  replace (r_backing_id r) with (Z.of_nat (Z.to_nat (r_backing_id r))) by lia.
  eapply wpv_shared_release; [apply He|apply He|done|done|done|lia|done|]. rewrite Z2Nat.id by lia.
  intros objs' m' Hi Hoo Hd Hsb. eapply HQ. eapply (exiting_step i r); try done.
  - intros id idx [-> Hr]%Ho. rewrite Hd. by rewrite decide_True.
  - intros id idx Hr. rewrite Hd. rewrite decide_False; [done|]. by rewrite <-Ho.
  - intros q. rewrite elem_of_difference, elem_back_frames. setoid_rewrite Ho. split; intros [? Hn]; (split; [done|]).
    + intros (id & idx & [-> ?] & E). apply Hn. by exists idx.
    + intros (idx & ? & E). apply Hn. by exists (r_backing_id r), idx.
Qed.

Lemma exiting_unshared i r x s1 F1 :
  r_used x = false → vm_regions s !! i = Some r → exiting (Z.of_nat i) s1 F1 → (∀ id idx, ¬ owns r id idx) →
  exiting (Z.of_nat i + 1) (set_regions (<[i := x]> (vm_regions s1)) s1) F1.
Proof using Hinv.
  intros Hux Hl He Hno. eapply (exiting_step i r); try done; try apply He.
  - intros id idx Ho. by apply Hno in Ho.
  - intros p. split; [|by intros [? _]]. intros Hp. split; [done|]. intros (id & idx & Ho & _). by apply Hno in Ho.
Qed.

Lemma wpv_process_exit (Q : unit → vm S → Prop) :
  (∀ s' F', exiting PROC_VMREG_MAX s' F' → Q tt s') → wpv syscall_vm_process_exit Q s.
Proof using Hinv.
  intros HQ. pose proof Hinv as [Hok Hs]. unfold syscall_vm_process_exit.
  apply (wpe_for 0 PROC_VMREG_MAX _ (λ i s', ∃ F', exiting i s' F')); [done| | |].
  - exists F. split; [intros; lia|done|done|apply Hs|apply Hs|by split| |done|].
    { intros id idx (j & r & Hj & _). lia. }
    intros p. split; [|by intros [? _]]. intros Hp. split; [done|]. intros (id & idx & (j & r & Hj & _) & _). lia.
  - intros i s1 Hi [F1 He]. replace i with (Z.of_nat (Z.to_nat i)) in He |- * by lia. set (k := Z.to_nat i) in *.
    destruct (lookup_lt_is_Some_2 (vm_regions s) k) as [r Hl].
    { rewrite (ro_length _ Hok). unfold PROC_VMREG_MAX in *. lia. }
    assert (vm_regions s1 !! k = Some r) as Hl1 by (by rewrite (ex_rest _ _ _ He)).
    rewrite Nat2Z.id. apply wpe_bind. eapply wpv_region_at; [done|].
    destruct (r_used r) eqn:Hu; simpl.
    2: { apply wpe_ret. exists F1. replace s1 with (set_regions (<[k := r]> (vm_regions s1)) s1).
         - eapply exiting_unshared; [done..|]. intros id idx [Hn _]. congruence.
         - rewrite list_insert_id by done. by destruct s1. }
    destruct (r_committed r && bool_decide (r_kind r = FRY_VM_REGION_ANON_SHARED)) eqn:Esh.
    + apply andb_true_iff in Esh as [Hc Hk%bool_decide_eq_true]. apply wpe_bind.
      eapply wpv_exit_shared; [done..|]. intros objs' m' F2 He2.
      eapply wpv_put_region; [done|]. by exists F2.
    + apply wpe_bind, wpe_ret. eapply wpv_put_region; [done|]. exists F1.
      eapply exiting_unshared; [done..|]. intros id idx (_ & Hc & Hk & _). rewrite Hc, bool_decide_true in Esh; done.
  - intros s' [F' He]. by eapply HQ.
Qed.
End process.

(** What is left of a process: no region is in use; the frames it shared, and
    no others, are free and no page of an object; the rest is as it was. *)
Record exited s s' F F' : Prop := {
  xt_regions : ∀ i r, vm_regions s' !! i = Some r → r_used r = false;
  xt_inv : us_inv (vm_machine s') F';
  xt_objs : objs_ok (vm_shared_objects s') F';
  xt_machine : same_but (vm_machine s) (vm_machine s');
  xt_frames : ∀ p, p ∈ F' ↔ p ∈ F ∧ ¬ shared_frame (vm_machine s) p;
  xt_pages : ∀ id idx p, obj_page (vm_shared_objects s') id idx = Some p ↔
    obj_page (vm_shared_objects s) id idx = Some p ∧ ¬ shared_frame (vm_machine s) p
}.

Lemma exiting_exited s F s' F' : vm_inv s F → exiting s F PROC_VMREG_MAX s' F' → exited s s' F F'.
Proof using.
  intros Hinv [H1 H2 H3 H4 H5 H6 H7 H8 H9]. pose proof Hinv as [Hok Hs].
  assert (∀ i r, vm_regions s !! i = Some r → Z.of_nat i < PROC_VMREG_MAX) as Hlt.
  { intros i r Hl%lookup_lt_Some. rewrite (ro_length _ Hok) in Hl. unfold PROC_VMREG_MAX in *. lia. }
  assert (∀ p, shared_frame (vm_machine s) p ↔ ∃ id idx, visited s PROC_VMREG_MAX id idx ∧
    obj_page (vm_shared_objects s) id idx = Some p) as Hsf.
  { intros p. rewrite (shared_owned s F Hinv). split.
    - intros (i & r & id & idx & Hl & Ho & E). exists id, idx. split; [|done]. exists i, r. eauto.
    - intros (id & idx & (i & r & _ & Hl & Ho) & E). by exists i, r, id, idx. }
  split; try done.
  - intros i r Hl. apply (H1 i r Hl). apply lookup_lt_Some in Hl. rewrite H3, (ro_length _ Hok) in Hl.
    unfold PROC_VMREG_MAX in *. lia.
  - intros p. by rewrite H9, Hsf.
  - intros id idx p. rewrite Hsf. split.
    + intros E. assert (¬ visited s PROC_VMREG_MAX id idx) as Hn by (intros Hv%H7; congruence).
      rewrite H8 in E by done. split; [done|]. intros (id' & idx' & Hv & E').
      destruct (oo_inj _ _ (si_objs _ _ _ _ Hs) _ _ _ _ _ E E') as [-> ->]. done.
    + intros [E Hn]. rewrite H8; [done|]. intros Hv. apply Hn. by exists id, idx.
Qed.
End exit.
