(* ===== verification/VmProtect.v ===== *)
(** * User mappings: protecting a range *)

From S2P Require Import Prelude Loops PageAlloc Vmm VmmInv VmRegion VmTable VmSpace VmInvariant.

Section protect.
Context {S : Type} `{!UserSpace S} {cr3 : Z} `{!UserSpaceLaws S cr3}.
Implicit Types (m : S) (s : vm S) (F : gset Z).
Abbreviation wpv m Q s := (wpe m Q (λ _, True) s).

Lemma is_free_put l i j x : is_free l j → j ≠ i → is_free (<[i := x]> l) j.
Proof using. intros (r & Hl & Hu) Hne. exists r. by rewrite list_lookup_insert_ne. Qed.

Lemma is_free_ne l i j r : l !! i = Some r → r_used r = true → is_free l j → j ≠ i.
Proof using. intros Hl Hu (x & Hx & Hux) ->. congruence. Qed.

(** ** The table after a region was split in up to three *)

Section split.
Context (l : regions) (slot : nat) (r mid : region) (base end_ : Z).
Context (Hok : regs_ok l) (Hl : l !! slot = Some r) (Hu : r_used r = true)
  (Hb : (PAGE_SIZE | base)) (He : (PAGE_SIZE | end_))
  (Hrange : r_base r ≤ base ∧ base < end_ ∧ end_ ≤ r_top r)
  (Hum : r_used mid = true) (Hwm : region_wf mid) (Ebm : r_base mid = base) (Etm : r_top mid = end_).

(** The pages of the range become those of [mid]. *)
Definition split_done (l' : regions) : Prop :=
  regs_ok l' ∧ ∀ va, view l' va = if decide (base ≤ va < end_) then Some (page_of mid va) else view l va.

Lemma put_mid :
  regs_ok (<[slot := mid]> l) ∧
  ∀ va, view (<[slot := mid]> l) va =
    if decide (base ≤ va < end_) then Some (page_of mid va)
    else if decide (in_region r va) then None else view l va.
Proof using Hok Hl Hu Hrange Hum Hwm Ebm Etm.
  assert (fits l slot mid) as Hf by (apply (fits_part l slot r mid); try done; rewrite ?Ebm, ?Etm; lia).
  split; [by apply put_ok|]. intros va. rewrite (put_view l slot r) by done.
  destruct (decide (in_region mid va)) as [[_ Hin]|Hn]; rewrite ?Ebm, ?Etm in *.
  - by rewrite decide_True.
  - rewrite (decide_False (P := base ≤ va < end_)); [done|]. intros ?. apply Hn. split; [done|]. by rewrite Ebm, Etm.
Qed.

(** Adding [mid] to a table in which its range is free. *)
Lemma add_mid l1 i :
  regs_ok l1 → is_free l1 i → (∀ va, base ≤ va < end_ → view l1 va = None) →
  regs_ok (<[i := mid]> l1) ∧
  ∀ va, view (<[i := mid]> l1) va = if decide (base ≤ va < end_) then Some (page_of mid va) else view l1 va.
Proof using Hum Hwm Ebm Etm.
  intros Hok1 Hfree Hn. destruct (put_free l1 i mid) as [? Hv]; try done.
  - intros va _. rewrite Ebm, Etm. apply Hn.
  - split; [done|]. intros va. by rewrite Hv, Ebm, Etm.
Qed.

(** Adding the part of [r] after the range. *)
Lemma add_right l1 i :
  regs_ok l1 → is_free l1 i → end_ < r_top r → (∀ va, end_ ≤ va < r_top r → view l1 va = None) →
  let x := span r end_ (r_top r) (r_prot r) (r_flags r) (r_committed r) in
  regs_ok (<[i := x]> l1) ∧
  ∀ va, view (<[i := x]> l1) va = if decide (end_ ≤ va < r_top r) then view l va else view l1 va.
Proof using Hok Hl Hu Hb He Hrange.
  intros Hok1 Hfree Hlt Hn x. pose proof (ro_wf _ Hok slot r Hl Hu) as Hwf. pose proof (divide_top r Hwf) as Hdt.
  assert (r_top x = r_top r) as Et by apply span_top.
  destruct (put_free l1 i x) as [? Hv]; try done.
  - apply span_wf; done || lia.
  - intros va _. rewrite Et. simpl. apply Hn.
  - split; [done|]. intros va. rewrite Hv, Et. simpl. destruct (decide (end_ ≤ va < r_top r)) as [Hva|]; [|done].
    unfold x. rewrite span_page by (done || lia). rewrite <-page_of_eta. symmetry.
    apply (view_in l va slot); [done|done|]. split; [done|lia].
Qed.

Lemma wpv_split_region s slots (Q : unit → vm S → Prop) :
  vm_regions s = l → split_slots l r base end_ = Some slots →
  (∀ l', split_done l' → Q tt (set_regions l' s)) →
  wpv (split_region slot slots r mid base end_ (r_prot r) (r_committed r)) Q s.
Proof using Hok Hl Hu Hb He Hrange Hum Hwm Ebm Etm.
  intros El Hsl HQ. pose proof (ro_wf _ Hok slot r Hl Hu) as Hwf. destruct (r_end_top r Hwf) as [Ee _].
  unfold split_region, split_slots in *. rewrite Ee in *. fold (span r (r_base r) base (r_prot r) (r_flags r) (r_committed r)).
  fold (span r end_ (r_top r) (r_prot r) (r_flags r) (r_committed r)).
  set (lp := span r (r_base r) base (r_prot r) (r_flags r) (r_committed r)).
  set (rp := span r end_ (r_top r) (r_prot r) (r_flags r) (r_committed r)).
  assert (∀ va, in_region r va ↔ r_base r ≤ va < r_top r) as Hin by (intros va; unfold in_region; tauto).
  destruct put_mid as [Hokm Hvm].
  destruct (Z.eqb_spec base (r_base r)) as [E1|N1], (Z.eqb_spec end_ (r_top r)) as [E2|N2]; simpl in Hsl |- *.
  - eapply wpv_put_region; [by rewrite El|]. rewrite El. apply HQ. split; [done|]. intros va. rewrite Hvm.
    destruct (decide (base ≤ va < end_)) as [|Hn]; [done|]. by rewrite decide_False by (rewrite Hin; lia).
  - pose proof (alloc_slots_spec1 l) as Ha. rewrite Hsl in Ha. destruct Ha as (i & -> & Hfree).
    pose proof (is_free_ne _ _ _ _ Hl Hu Hfree) as Hne. pose proof (is_free_put l slot i mid Hfree Hne) as Hfree1.
    destruct (add_right (<[slot := mid]> l) i) as [Hok2 Hv2]; try done; [lia| |].
    { intros va Hva. rewrite Hvm, decide_False, decide_True by (rewrite ?Hin; lia). done. }
    apply wpe_bind. eapply wpe_need; [done|]. apply wpe_bind. eapply wpv_put_region; [by rewrite El|].
    destruct Hfree1 as (y & Hy & _). eapply wpv_put_region; [simpl; rewrite El; exact Hy|]. simpl. rewrite El.
    apply HQ. split; [done|]. intros va. rewrite Hv2, Hvm.
    destruct (decide (end_ ≤ va < r_top r)) as [Hva|Hva]; [by rewrite decide_False by lia|].
    destruct (decide (base ≤ va < end_)); [done|]. by rewrite decide_False by (rewrite Hin; lia).
  - pose proof (alloc_slots_spec1 l) as Ha. rewrite Hsl in Ha. destruct Ha as (i & -> & Hfree).
    pose proof (is_free_ne _ _ _ _ Hl Hu Hfree) as Hne.
    destruct (put_part l slot r (r_base r) base) as [Hok1 Hv1]; try done; [apply Hwf|lia|lia|]. fold lp in Hok1, Hv1.
    pose proof (is_free_put l slot i lp Hfree Hne) as Hfree1.
    destruct (add_mid (<[slot := lp]> l) i) as [Hok2 Hv2]; try done.
    { intros va Hva. rewrite Hv1, decide_True; [done|]. rewrite Hin. lia. }
    apply wpe_bind. eapply wpe_need; [done|]. apply wpe_bind. eapply wpv_put_region; [by rewrite El|].
    destruct Hfree1 as (y & Hy & _). eapply wpv_put_region; [simpl; rewrite El; exact Hy|]. simpl. rewrite El.
    apply HQ. split; [done|]. intros va. rewrite Hv2, Hv1. destruct (decide (base ≤ va < end_)); [done|].
    rewrite decide_False; [done|]. rewrite Hin. lia.
  - pose proof (alloc_slots_spec2 l) as Ha. rewrite Hsl in Ha. destruct Ha as (i & j & -> & Hij & Hfi & Hfj).
    pose proof (is_free_ne _ _ _ _ Hl Hu Hfi) as Hni. pose proof (is_free_ne _ _ _ _ Hl Hu Hfj) as Hnj.
    destruct (put_part l slot r (r_base r) base) as [Hok1 Hv1]; try done; [apply Hwf|lia|lia|]. fold lp in Hok1, Hv1.
    pose proof (is_free_put l slot i lp Hfi Hni) as Hfi1. pose proof (is_free_put l slot j lp Hfj Hnj) as Hfj1.
    destruct (add_mid (<[slot := lp]> l) i) as [Hok2 Hv2]; try done.
    { intros va Hva. rewrite Hv1, decide_True; [done|]. rewrite Hin. lia. }
    pose proof (is_free_put _ i j mid Hfj1 (not_eq_sym Hij)) as Hfj2.
    destruct (add_right (<[i := mid]> (<[slot := lp]> l)) j) as [Hok3 Hv3]; try done; [lia| |].
    { intros va Hva. rewrite Hv2, Hv1, decide_False, decide_True; [done| |lia]. rewrite Hin. lia. }
    apply wpe_bind. eapply wpe_need; [done|]. apply wpe_bind. eapply wpe_need; [done|].
    apply wpe_bind. eapply wpv_put_region; [by rewrite El|]. apply wpe_bind.
    destruct Hfi1 as (y & Hy & _). eapply wpv_put_region; [simpl; rewrite El; exact Hy|].
    destruct Hfj2 as (z & Hz & _). eapply wpv_put_region; [simpl; rewrite El; exact Hz|]. simpl. rewrite El.
    apply HQ. split; [done|]. intros va. rewrite Hv3, Hv2, Hv1.
    destruct (decide (end_ ≤ va < r_top r)) as [Hva|Hva]; [by rewrite decide_False by lia|].
    destruct (decide (base ≤ va < end_)); [done|]. rewrite decide_False; [done|]. rewrite Hin. lia.
Qed.
End split.
(** ** [vm_mprotect_region_range] *)

(** A region that holds the whole range. *)
Definition holds_range (l : regions) (base n : Z) (i : nat) (r : region) : Prop :=
  l !! i = Some r ∧ r_used r = true ∧ r_base r ≤ base ∧ base + n * PAGE_SIZE ≤ r_top r.

Lemma find_containing_spec l base n :
  regs_ok l → 0 ≤ base < 2 ^ 64 → 0 < n → n * PAGE_SIZE < 2 ^ 64 →
  match vm_region_find_containing l base (n * PAGE_SIZE) with
  | Some i => ∃ r, holds_range l base n i r
  | None => ∀ i r, ¬ holds_range l base n i r
  end.
Proof using.
  intros Hok Hb Hn Hn2. unfold vm_region_find_containing.
  rewrite (proj2 (Z.eqb_neq (n * PAGE_SIZE) 0)) by (unfold PAGE_SIZE; lia).
  assert (∀ i r, holds_range l base n i r → base + n * PAGE_SIZE < 2 ^ 64) as Hh.
  { intros i r (Hl & Hu & _ & Ht). pose proof (rw_high _ (ro_wf _ Hok i r Hl Hu)). unfold VM_USER_LIMIT in *. lia. }
  destruct (Z.ltb_spec (u64 (base + n * PAGE_SIZE)) base) as [Hw|Hw].
  { intros i r Hr. specialize (Hh i r Hr). rewrite u64_small in Hw by (unfold PAGE_SIZE in *; lia). unfold PAGE_SIZE in *. lia. }
  assert (base + n * PAGE_SIZE < 2 ^ 64) as Hnw.
  { destruct (decide (base + n * PAGE_SIZE < 2 ^ 64)); [done|]. exfalso. unfold u64 in Hw.
    rewrite <-(Z.mod_add _ (-1)), Z.mod_small in Hw by lia. lia. }
  rewrite u64_small by (unfold PAGE_SIZE in *; lia).
  assert (∀ i r, l !! i = Some r → r_used r && negb (r_end r <? r_base r) && (r_base r <=? base) &&
    (base + n * PAGE_SIZE <=? r_end r) = true ↔ holds_range l base n i r) as Ht.
  { intros i r Hl. unfold holds_range. destruct (r_used r) eqn:Hu; [|naive_solver].
    destruct (r_end_top r (ro_wf _ Hok i r Hl Hu)) as [-> ?]. bool_cases; simpl; naive_solver lia. }
  destruct (find_from _ _ _) as [i|] eqn:E.
  - apply find_0_Some in E as (r & Hl & Hr). exists r. by apply Ht.
  - intros i r Hr. rewrite find_0_None in E. pose proof Hr as [Hl _]. specialize (E i r Hl).
    apply (Ht i r Hl) in Hr. congruence.
Qed.

Lemma split_slots_spec l r base end_ :
  match split_slots l r base end_ with Some _ => True | None => (free_count l < 2)%nat end.
Proof using.
  unfold split_slots. destruct ((base =? r_base r) && (end_ =? r_end r)); [done|].
  destruct ((base =? r_base r) || (end_ =? r_end r)).
  - pose proof (alloc_slots_spec1 l) as Ha. destruct (vm_region_alloc_slots l 1 false); [done|lia].
  - pose proof (alloc_slots_spec2 l) as Ha. by destruct (vm_region_alloc_slots l 2 true).
Qed.

(** What becomes of a page. *)
Definition protect_page (prot : Z) (a : page) : page :=
  if pg_committed a then Page prot (pg_flags a) (pg_kind a) true (pg_back a)
  else if prot =? 0 then a
  else Page prot (clear_bits (pg_flags a) FRY_MAP_RESERVE) (pg_kind a) true (pg_back a).

Record protecting s s' F F' (base n prot : Z) : Prop := {
  ptc_range : ∃ i r, holds_range (vm_regions s) base n i r;
  ptc_inv : vm_inv s' F';
  ptc_view : ∀ va, view (vm_regions s') va =
    if decide (base ≤ va < base + n * PAGE_SIZE) then protect_page prot <$> view (vm_regions s) va
    else view (vm_regions s) va;
  ptc_keep : F ⊆ F';
  ptc_frame : ∀ va x, pin base n va → us_xlat (vm_machine s) va = Some x →
    us_xlat (vm_machine s') va = Some (Xlate (x_frame x) (pte_prot prot) (x_nofree x));
  ptc_new : ∀ va x, pin base n va → us_xlat (vm_machine s) va = None → us_xlat (vm_machine s') va = Some x →
    (x_frame x ∉ F) ∧ zeroed (vm_machine s') (x_frame x);
  ptc_out : ∀ va, upage va → ¬ pin base n va → us_xlat (vm_machine s') va = us_xlat (vm_machine s) va;
  ptc_bytes : same_bytes F (vm_machine s) (vm_machine s');
  ptc_compact : compact (vm_regions s')
}.

(** Why nothing is changed: no region holds the range, or a region has to be
    split and there is no room in the table, or pages that are only reserved
    would have to become accessible. *)
Definition protect_refused (l : regions) (base n prot : Z) : Prop :=
  (∀ i r, ¬ holds_range l base n i r) ∨ (free_count l < 2)%nat ∨
  (prot ≠ 0 ∧ ∃ i r, holds_range l base n i r ∧ r_committed r = false).

Section body.
Context (s : vm S) (F : gset Z) (base n prot : Z) (slot : nat) (r : region) (Q : Z → vm S → Prop).
Context (Hinv : vm_inv s F) (Hb : (PAGE_SIZE | base)) (Hn : 0 < n)
  (Hhold : holds_range (vm_regions s) base n slot r)
  (Hyes : ∀ s' F', protecting s s' F F' base n prot → Q 0 s')
  (Hno : ∀ s', unchanged s s' F → protect_refused (vm_regions s) base n prot → Q (-1) s').

Lemma body_range : user_range base n ∧ region_wf r.
Proof using Hinv Hb Hn Hhold.
  destruct Hinv as [Hok _], Hhold as (Hl & Hu & H1 & H2). pose proof (ro_wf _ Hok slot r Hl Hu) as Hwf.
  split; [|done]. pose proof (rw_low _ Hwf). pose proof (rw_high _ Hwf). split_and!; done || lia.
Qed.

Lemma body_view va : base ≤ va < base + n * PAGE_SIZE → view (vm_regions s) va = Some (page_of r va).
Proof using Hinv Hhold.
  intros Hva. destruct Hinv as [Hok _], Hhold as (Hl & Hu & H1 & H2).
  apply (view_in _ va slot); [done|done|]. split; [done|lia].
Qed.

(** The end of every successful branch: the region is split around [mid] and
    neighbours are merged. *)
Lemma wpv_finish s1 F1 slots prot' flags' committed' :
  vm_regions s1 = vm_regions s →
  split_slots (vm_regions s) r base (base + n * PAGE_SIZE) = Some slots →
  (∀ va, protect_page prot (page_of r va) = Page prot' flags' (r_kind r) committed' (pg_back (page_of r va))) →
  space_inv (vset (view (vm_regions s)) base n
    (λ va, Page prot' flags' (r_kind r) committed' (pg_back (page_of r va))))
    (vm_shared_objects s1) (vm_machine s1) F1 →
  F ⊆ F1 →
  (∀ va x, pin base n va → us_xlat (vm_machine s) va = Some x →
     us_xlat (vm_machine s1) va = Some (Xlate (x_frame x) (pte_prot prot) (x_nofree x))) →
  (∀ va x, pin base n va → us_xlat (vm_machine s) va = None → us_xlat (vm_machine s1) va = Some x →
     (x_frame x ∉ F) ∧ zeroed (vm_machine s1) (x_frame x)) →
  (∀ va, upage va → ¬ pin base n va → us_xlat (vm_machine s1) va = us_xlat (vm_machine s) va) →
  same_bytes F (vm_machine s) (vm_machine s1) →
  wpv (split_region slot slots r
         (vm_region_fill base (n * PAGE_SIZE) prot' flags' (r_kind r) (r_backing_id r)
            (vm_region_page_start_at r base) committed')
         base (base + n * PAGE_SIZE) (r_prot r) (r_committed r);;
       merge_neighbors;; mret 0) Q s1.
Proof using Hinv Hb Hn Hhold Hyes.
  intros El Hsl Hpp Hs1 HF Hfr Hnew Hout Hby. destruct body_range as [Hr Hwf].
  pose proof Hinv as [Hok _]. pose proof Hhold as (Hl & Hu & H1 & H2). set (e := base + n * PAGE_SIZE) in *.
  assert ((PAGE_SIZE | e)) as He by (by apply page_step).
  assert (base < e) as Hbe by (unfold e, PAGE_SIZE; lia).
  set (mid := vm_region_fill _ _ _ _ _ _ _ _).
  assert (mid = span r base e prot' flags' committed') as Em.
  { unfold mid, span, vm_region_fill_span_from_parent, e. by rewrite Z.add_simpl_l. }
  apply wpe_bind. eapply (wpv_split_region (vm_regions s) slot r mid base e); try done.
  - rewrite Em. apply span_wf; done || lia.
  - intros l' [Hok' Hv']. apply wpe_bind. eapply wpv_merge; [done|]. simpl. intros l2 Hok2 Hv2 Hcp.
    apply wpe_ret. apply (Hyes _ F1).
    assert (∀ va, view l2 va = if decide (base ≤ va < e) then
      Some (Page prot' flags' (r_kind r) committed' (pg_back (page_of r va))) else view (vm_regions s) va) as Hv.
    { intros va. rewrite Hv2, Hv'. destruct (decide (base ≤ va < e)); [|done].
      rewrite Em, span_page by (done || lia). done. }
    split; simpl; try done.
    + by exists slot, r.
    + split; [done|]. simpl. eapply space_inv_ext; [|exact Hs1]. intros va _. rewrite Hv. unfold vset. by fold e.
    + intros va. rewrite Hv. fold e. destruct (decide (base ≤ va < e)); [|done].
      rewrite body_view by done. simpl. by rewrite Hpp.
Qed.

(** The translations of the range when the pages are only reserved. *)
Lemma body_none va : r_committed r = false → pin base n va → us_xlat (vm_machine s) va = None.
Proof using Hinv Hb Hn Hhold.
  intros Hc Hp. destruct body_range as [Hr _]. pose proof (pin_apage _ _ _ Hr Hp) as Hva.
  pose proof (si_page _ _ _ _ (proj2 Hinv) va Hva) as Hpi. destruct Hp as [_ ?].
  rewrite body_view in Hpi by done. unfold page_inv in Hpi. simpl in Hpi. rewrite Hc in Hpi. apply Hpi.
Qed.

(** The attributes of a reserved region. *)
Lemma body_reserved : r_committed r = false → r_prot r = 0 ∧ reserved_kind (r_kind r).
Proof using Hinv Hb Hn Hhold.
  intros Hc. destruct body_range as [Hr _]. assert (pin base n base) as Hp by (split; [done|unfold PAGE_SIZE; lia]).
  pose proof (si_page _ _ _ _ (proj2 Hinv) base (pin_apage _ _ _ Hr Hp)) as Hpi. destruct Hp as [_ ?].
  rewrite body_view in Hpi by done. unfold page_inv in Hpi. simpl in Hpi. rewrite Hc in Hpi. apply Hpi.
Qed.
End body.
(** Pages that are only reserved: they stay so, or are committed. *)
Lemma wpv_protect_reserved s F base n prot slot r slots (Q : Z → vm S → Prop) :
  vm_inv s F → (PAGE_SIZE | base) → 0 < n → holds_range (vm_regions s) base n slot r →
  split_slots (vm_regions s) r base (base + n * PAGE_SIZE) = Some slots → r_committed r = false →
  (∀ s' F', protecting s s' F F' base n prot → Q 0 s') →
  (∀ s', unchanged s s' F → protect_refused (vm_regions s) base n prot → Q (-1) s') →
  let mid prot flags committed :=
    vm_region_fill base (n * PAGE_SIZE) prot flags (r_kind r) (r_backing_id r)
      (vm_region_page_start_at r base) committed in
  wpv (if negb (bool_decide (r_kind r = FRY_VM_REGION_ANON_PRIVATE)) &&
          negb (bool_decide (r_kind r = FRY_VM_REGION_GUARD)) then mret (-1)
       else if prot =? 0 then
         split_region slot slots r (mid 0 (r_flags r) false) base (base + n * PAGE_SIZE) (r_prot r) false;;
         merge_neighbors;; mret 0
       else if bool_decide (r_kind r = FRY_VM_REGION_GUARD) then mret (-1)
       else
         c ← vm_commit_private_pages cr3 base (n * PAGE_SIZE) prot;
         if negb (c =? 0) then mret (-1)
         else
           split_region slot slots r (mid prot (clear_bits (r_flags r) FRY_MAP_RESERVE) true)
             base (base + n * PAGE_SIZE) 0 false;;
           merge_neighbors;; mret 0) Q s.
Proof using.
  intros Hinv Hb Hn Hhold Hsl Hc Hyes Hno mid. subst mid.
  destruct (body_range s F base n slot r Hinv Hb Hn Hhold) as [Hr Hwf].
  destruct (body_reserved s F base n slot r Hinv Hb Hn Hhold Hc) as [Hp0 Hk].
  pose proof (λ va, body_none s F base n slot r Hinv Hb Hn Hhold va Hc) as Hnone.
  pose proof (λ va, body_view s F base n slot r Hinv Hhold va) as Hview.
  pose proof Hinv as [Hok Hs].
  assert (negb (bool_decide (r_kind r = FRY_VM_REGION_ANON_PRIVATE)) &&
    negb (bool_decide (r_kind r = FRY_VM_REGION_GUARD)) = false) as -> by (by destruct Hk as [-> | ->]).
  destruct (Z.eqb_spec prot 0) as [->|Hpr].
  - rewrite <-Hc at 2. eapply (wpv_finish s F base n 0 slot r Q Hinv Hb Hn Hhold Hyes s F); try done.
    + intros va. unfold protect_page. simpl. rewrite Hc. simpl. by rewrite page_of_eta, Hp0, Hc.
    + apply space_reserve; try done.
    + intros va x Hp Ex. by rewrite Hnone in Ex.
    + intros va x Hp Ex Ex'. congruence.
  - destruct (bool_decide_reflect (r_kind r = FRY_VM_REGION_GUARD)) as [Hg|Hg].
    { apply wpe_ret, Hno; [by apply unchanged_refl|]. right. right. split; [done|]. by exists slot, r. }
    assert (r_kind r = FRY_VM_REGION_ANON_PRIVATE) as Hka by (by destruct Hk).
    apply wpe_bind. eapply wpv_commit; [apply Hs|done|done|done| |].
    + rewrite pte_flags_nofree. intros m' Hi' Hnew. fold (pte_prot prot) in Hnew. simpl.
      enough (wpv (split_region slot slots r
        (vm_region_fill base (n * PAGE_SIZE) prot (clear_bits (r_flags r) FRY_MAP_RESERVE) (r_kind r)
           (r_backing_id r) (vm_region_page_start_at r base) true) base (base + n * PAGE_SIZE)
        (r_prot r) (r_committed r);; merge_neighbors;; mret 0) Q (with_machine m' s)) as Hfin
        by (by rewrite Hp0, Hc in Hfin).
      eapply (wpv_finish s F base n prot slot r Q Hinv Hb Hn Hhold Hyes _ (frames_of m' base n ∪ F)); try done.
      * intros va. unfold protect_page. simpl. rewrite Hc, (proj2 (Z.eqb_neq prot 0)) by done. done.
      * eapply space_add_private; try done. intros va. simpl. rewrite bool_decide_false by congruence.
        split_and!; try done. by left.
      * set_solver.
      * intros va x Hp Ex. by rewrite Hnone in Ex.
      * intros va x Hp _ Ex. destruct (mn_in _ _ _ _ _ _ _ Hnew va Hp) as (p & E & ? & _ & ?).
        simpl in Ex. rewrite Ex in E. by injection E as ->.
      * apply Hnew.
      * apply Hnew.
    + intros m' Hsm. simpl. apply wpe_ret, Hno; [by apply unchanged_machine|].
      right. right. split; [done|]. by exists slot, r.
Qed.

Lemma wpv_protect_range s F base n prot (Q : Z → vm S → Prop) :
  vm_inv s F → (PAGE_SIZE | base) → 0 ≤ base < 2 ^ 64 → 0 < n → n * PAGE_SIZE < 2 ^ 64 →
  (∀ s' F', protecting s s' F F' base n prot → Q 0 s') →
  (∀ s', unchanged s s' F → protect_refused (vm_regions s) base n prot → Q (-1) s') →
  wpv (vm_mprotect_region_range cr3 base (n * PAGE_SIZE) prot) Q s.
Proof using.
  intros Hinv Hb Hb0 Hn Hn2 Hyes Hno. pose proof Hinv as [Hok Hs]. unfold vm_mprotect_region_range.
  apply wpe_bind, wpe_state. pose proof (find_containing_spec _ base n Hok Hb0 Hn Hn2) as Hfc.
  destruct (vm_region_find_containing _ _ _) as [slot|].
  2: { apply wpe_ret, Hno; [by apply unchanged_refl|]. by left. }
  destruct Hfc as [r Hhold]. pose proof Hhold as (Hl & Hu & H1 & H2).
  destruct (body_range s F base n slot r Hinv Hb Hn Hhold) as [Hr Hwf].
  pose proof (λ va, body_view s F base n slot r Hinv Hhold va) as Hview.
  apply wpe_bind. eapply wpv_region_at; [exact Hl|]. cbv zeta.
  rewrite u64_small by (destruct Hr as (_ & _ & ? & ?); unfold VM_USER_BASE, VM_USER_LIMIT, PAGE_SIZE in *; lia).
  pose proof (split_slots_spec (vm_regions s) r base (base + n * PAGE_SIZE)) as Hss.
  destruct (split_slots _ _ _ _) as [slots|] eqn:Hsl.
  2: { apply wpe_ret, Hno; [by apply unchanged_refl|]. right. by left. }
  destruct (r_committed r) eqn:Hc; simpl negb; cbv iota.
  2: { by eapply wpv_protect_reserved. }
  assert (∀ va, pin base n va → ∃ x, page_mapped (vm_shared_objects s) (vm_machine s) F (page_of r va) va x) as Hm.
  { intros va Hp. pose proof (si_page _ _ _ _ Hs va (pin_apage _ _ _ Hr Hp)) as Hpi. destruct Hp as [_ ?].
    rewrite Hview in Hpi by done. unfold page_inv in Hpi. simpl in Hpi. by rewrite Hc in Hpi. }
  apply wpe_bind. eapply wpv_range_mapped; [apply Hs|done|done| |].
  { intros va Hp. destruct (Hm va Hp) as [x Hx]. exists x. split; [apply Hx|].
    apply (us_frame_ok (vm_machine s) F); [apply Hs|apply Hx]. }
  simpl negb. cbv iota. apply wpe_bind. eapply wpv_protect_loop; [apply Hs|done| |].
  { intros va Hp. destruct (Hm va Hp) as [x Hx]. exists x. apply Hx. }
  fold (pte_prot prot). intros m' Hi' Hpr. rewrite <-Hc at 2. pose proof Hpr as [Eb Hx].
  eapply (wpv_finish s F base n prot slot r Q Hinv Hb Hn Hhold Hyes _ F); try done.
  - intros va. unfold protect_page. simpl. by rewrite Hc.
  - eapply space_protect; try done. intros va [_ Hp]. exists (page_of r va). by rewrite Hview.
  - intros va x Hp Ex. simpl. rewrite Hx by (by eapply user_range_page). by rewrite decide_True, Ex.
  - intros va x Hp Ex. destruct (Hm va Hp) as [x' Hx']. pose proof (pm_xlat _ _ _ _ _ _ Hx'). congruence.
  - intros va Hva Hp. simpl. rewrite Hx by done. by rewrite decide_False.
  - by apply same_bytes_eq.
Qed.
End protect.
