(* ===== verification/VmMachine.v ===== *)
(** * User mappings: the machine

    The virtual memory manager of [Vmm], over any page allocator, provides
    the interface of the region code for the address space of a root. *)

From S2P Require Import Prelude Loops PageAlloc Vmm VmmInv VmmMap VmmSpec VmRegion VmTable VmSpace.

(** The virtual memory manager, the results of the coming calls of [kmalloc],
    and the contents of the frames that are not tables, by physical address. *)
Record machine (P : Type) := Machine {
  mc_vmm : vmm P;
  mc_heap : list Z;
  mc_data : Z → Z
}.
Arguments Machine {P} _ _ _.
Arguments mc_vmm {P} _.
Arguments mc_heap {P} _.
Arguments mc_data {P} _.

Section machine.
Context {P : Type} `{!PageAllocator P} (ks : kernel_syms).

Definition on_vmm {A} (m : ME (vmm P) A) : ME (machine P) A := λ c,
  match m (mc_vmm c) with
  | Some (a, v) => Some (a, Machine v (mc_heap c) (mc_data c))
  | None => None
  end.

(** [vm_zero_page]: the page is reached through the physical map. *)
Definition mc_zero_page (phys : Z) : ME (machine P) unit :=
  run (update_opt (λ c,
    p ← ptr_phys ks (mc_vmm c) (vmm_phys_to_virt phys);
    Some (Machine (mc_vmm c) (mc_heap c)
      (λ a, if (p <=? a) && (a <? p + PAGE_SIZE) then 0 else mc_data c a)))).

Definition mc_kmalloc (_ : Z) : ME (machine P) Z := λ c,
  match mc_heap c with
  | [] => Some (Some 0, c)
  | ptr :: heap => Some (Some ptr, Machine (mc_vmm c) heap (mc_data c))
  end.

(** [pmm_alloc_page] is [pmm_alloc_page_below] without a bound. *)
Definition machine_space : UserSpace (machine P) := {|
  us_virt_to_phys r va := on_vmm (run (vmm_virt_to_phys_user ks r va));
  us_map_user r va pa flags := on_vmm (vmm_map_user ks r va pa flags);
  us_unmap_user r va := on_vmm (run (vmm_unmap_user ks r va));
  us_protect_user r va flags := on_vmm (run (vmm_protect_user ks r va flags));
  us_alloc_page := on_vmm (run (with_pmm (pa_alloc_page_below UINT64_MAX)));
  us_free_page pa := on_vmm (run (with_pmm (pa_free_pages pa 1)));
  us_zero_page := mc_zero_page;
  us_kmalloc := mc_kmalloc;
  us_kfree _ := mret tt
|}.
End machine.

(** ** Entries *)

Lemma addr_frame e : 0 ≤ Z.land e ADDR_MASK / PAGE_SIZE < 2 ^ 40 ∧
  Z.land e ADDR_MASK / PAGE_SIZE * PAGE_SIZE = Z.land e ADDR_MASK.
Proof.
  change ADDR_MASK with (Z.shiftl (Z.ones 40) 12). change PAGE_SIZE with (2 ^ 12).
  assert (Z.land e (Z.shiftl (Z.ones 40) 12) = Z.shiftl (Z.land (Z.shiftr e 12) (Z.ones 40)) 12) as ->.
  { apply Z.bits_inj'. intros n Hn. rewrite Z.land_spec, !Z.shiftl_spec by lia.
    destruct (decide (12 ≤ n)).
    - rewrite Z.land_spec, Z.shiftr_spec by lia. by replace (n - 12 + 12) with n by lia.
    - rewrite !(Z.testbit_neg_r _ (n - 12)) by lia. by rewrite andb_false_r. }
  rewrite Z.shiftl_mul_pow2, Z.div_mul, Z.land_ones by lia. split; [by apply Z.mod_pos_bound|done].
Qed.

(** What an entry says of a page. *)
Definition xlate_of (e : Z) : xlate :=
  Xlate (Z.land e ADDR_MASK / PAGE_SIZE) (Z.land e PROT_BITS) (has e VMM_FLAG_NOFREE).

Lemma xlate_user p flags :
  0 ≤ p → xlate_of (user_pte (p * PAGE_SIZE) flags) =
    Xlate (p mod 2 ^ 40) (Z.land flags PROT_BITS) (has flags VMM_FLAG_NOFREE).
Proof.
  intros Hp. unfold xlate_of. destruct (user_pte_bits (p * PAGE_SIZE) flags) as (_ & -> & _). f_equal.
  - change ADDR_MASK with (Z.shiftl (Z.ones 40) 12). change PAGE_SIZE with (2 ^ 12).
    rewrite <-Z.shiftl_mul_pow2, <-Z.shiftl_land, Z.land_ones by lia.
    rewrite Z.shiftl_mul_pow2, Z.div_mul by lia. done.
  - unfold user_pte. rewrite !land_lor_mask, (land_const_mask _ ADDR_MASK PROT_BITS 0),
      (land_const_mask _ VMM_PTE_FLAG_MASK PROT_BITS PROT_BITS) by done.
    change (Z.land VMM_FLAG_PRESENT PROT_BITS) with 0. by rewrite Z.land_0_r, Z.lor_0_l, Z.lor_0_r.
  - unfold has, user_pte. rewrite !land_lor_mask, (land_const_mask _ ADDR_MASK VMM_FLAG_NOFREE 0),
      (land_const_mask _ VMM_PTE_FLAG_MASK VMM_FLAG_NOFREE VMM_FLAG_NOFREE) by done.
    change (Z.land VMM_FLAG_PRESENT VMM_FLAG_NOFREE) with 0. by rewrite Z.land_0_r, Z.lor_0_l, Z.lor_0_r.
Qed.

Lemma xlate_protect e flags :
  xlate_of (protect_pte e flags) =
    Xlate (x_frame (xlate_of e)) (Z.land flags PROT_BITS) (x_nofree (xlate_of e)).
Proof.
  unfold xlate_of, protect_pte. simpl. f_equal.
  - rewrite !land_lor_mask, (land_const_mask _ (u64 (Z.lnot PROT_BITS)) ADDR_MASK ADDR_MASK),
      (land_const_mask _ PROT_BITS ADDR_MASK 0) by done.
    change (Z.land VMM_FLAG_PRESENT ADDR_MASK) with 0. by rewrite Z.land_0_r, !Z.lor_0_r.
  - rewrite !land_lor_mask, (land_const_mask _ (u64 (Z.lnot PROT_BITS)) PROT_BITS 0),
      (land_const_mask _ PROT_BITS PROT_BITS PROT_BITS) by done.
    change (Z.land VMM_FLAG_PRESENT PROT_BITS) with 0. by rewrite Z.land_0_r.
  - unfold has. rewrite !land_lor_mask,
      (land_const_mask _ (u64 (Z.lnot PROT_BITS)) VMM_FLAG_NOFREE VMM_FLAG_NOFREE),
      (land_const_mask _ PROT_BITS VMM_FLAG_NOFREE 0) by done.
    change (Z.land VMM_FLAG_PRESENT VMM_FLAG_NOFREE) with 0. by rewrite Z.land_0_r, !Z.lor_0_r.
Qed.

Section laws.
Context {P : Type} `{!PageAllocator P, !PageAllocatorLaws P} (ks : kernel_syms) (r : Z).
Context (Hks : KERNEL_VMA_BASE ≤ ks_kernel_start ks).
Implicit Types (c : machine P) (F : gset Z).

(** The frames [F] are single pages of the allocator and no tables. *)
Definition frames_held (v : vmm P) (own : owners) F : Prop :=
  ∀ p, p ∈ F → 1 ≤ p < pa_pages (vm_pmm v) ∧ pa_single (vm_pmm v) p ∧ own !! (p * PAGE_SIZE) = None.

Definition physmap_fits (v : vmm P) : Prop :=
  pa_pages (vm_pmm v) * PAGE_SIZE ≤ KERNEL_VMA_BASE - VMM_PHYSMAP_BASE.

Definition mc_inv c F : Prop :=
  physmap_fits (mc_vmm c) ∧ ∃ own, pt_inv (mc_vmm c) own ∧ user_space (mc_vmm c) own r ∧ frames_held (mc_vmm c) own F.

Definition mc_xlat c (va : Z) : option xlate :=
  match translate (mc_vmm c) r va with Some (Leaf e _) => Some (xlate_of e) | _ => None end.

Lemma wpe_on_vmm {A} (m : ME (vmm P) A) (Q : A → machine P → Prop) c :
  wpe m (λ a v, Q a (Machine v (mc_heap c) (mc_data c))) (λ _, True) (mc_vmm c) →
  wpe (on_vmm m) Q (λ _, True) c.
Proof using.
  unfold wpe, wp, on_vmm. destruct (m (mc_vmm c)) as [[[a|] v]|]; done.
Qed.

Lemma upage_offset va : upage va → Z.land va 0xFFF = 0.
Proof using.
  intros [[k ->] _]. change 0xFFF with (Z.ones 12). change PAGE_SIZE with (2 ^ 12).
  rewrite Z.land_ones by lia. by apply Z.mod_mul.
Qed.

(** The translation of a user page is a page of 4 KiB or nothing. *)
Lemma mc_translate c own va :
  pt_inv (mc_vmm c) own → user_space (mc_vmm c) own r → upage va →
  translate (mc_vmm c) r va = Some NotMapped ∧ mc_xlat c va = None ∨
  ∃ e, translate (mc_vmm c) r va = Some (Leaf e 0xFFF) ∧ mc_xlat c va = Some (xlate_of e).
Proof using.
  intros Hi [Hr Hsm] [_ Hva]. unfold mc_xlat.
  destruct (descent_total (mc_vmm c) own r va Hi Hr (or_introl (user_index va Hva))) as (x & Ex & _).
  rewrite Ex. destruct x as [|e m]; [by left|right]. exists e. split; [|done].
  by rewrite (Hsm va Hva e m Ex).
Qed.

Lemma upage_ne va va' : upage va → upage va' → va' ≠ va → va' / PAGE_SIZE ≠ va / PAGE_SIZE.
Proof using. intros [[k ->] _] [[k' ->] _] Hne. rewrite !Z.div_mul by done. intros ->. done. Qed.

(** A change of one page, as a change of the translation. *)
Lemma remapped_set c v own own' va x F :
  physmap_fits (mc_vmm c) → pt_inv (mc_vmm c) own → user_space (mc_vmm c) own r →
  frames_held (mc_vmm c) own F → upage va → remapped (mc_vmm c) own v own' r va x → (∀ e m, x = Leaf e m → m = 0xFFF) →
  let c' := Machine v (mc_heap c) (mc_data c) in
  mc_inv c' F ∧
  map_set mc_xlat c c' va (match x with Leaf e _ => Some (xlate_of e) | NotMapped => None end).
Proof using.
  intros Hfit Hi Hu HF Hva Hre Hx c'.
  pose proof Hre as (Hi' & (Ho & Hs & Hn & Hpg) & Ht & _ & _ & Hoth).
  pose proof Hu as [Hr _]. split.
  - split; [unfold physmap_fits in *; simpl; by rewrite Hpg|]. exists own'. split; [done|]. split.
    + destruct x as [|e m].
      * eapply (remapped_space (mc_vmm c) own v own' r va 0); [by right|done|apply Hva].
      * rewrite (Hx e m eq_refl) in Hre. eapply (remapped_space (mc_vmm c) own v own' r va e); [by left|done|apply Hva].
    + intros p Hp. destruct (HF p Hp) as (? & Hsp & Hop). simpl. rewrite Hpg.
      split; [done|]. split; [by apply Hs|]. apply Hn; [by apply pa_single_held|done].
  - split.
    + unfold mc_xlat. simpl. rewrite Ht. by destruct x.
    + intros va' Hva' Hne. unfold mc_xlat. simpl. rewrite Hoth; [done|done|apply Hva'|].
      intros _. by apply upage_ne.
Qed.

(** A change of the allocator only. *)
Lemma pmm_changed c own F F' pm :
  physmap_fits (mc_vmm c) → pt_inv (mc_vmm c) own → user_space (mc_vmm c) own r → pa_inv pm →
  pa_pages pm = pa_pages (vm_pmm (mc_vmm c)) →
  (∀ t o, own !! t = Some o → ∃ q, t = q * PAGE_SIZE ∧ pa_held pm q) →
  (∀ p, p ∈ F' → 1 ≤ p < pa_pages pm ∧ pa_single pm p ∧ own !! (p * PAGE_SIZE) = None) →
  let c' := Machine (set_vpmm pm (mc_vmm c)) (mc_heap c) (mc_data c) in
  mc_inv c' F' ∧ same_map mc_xlat c c'.
Proof using.
  intros Hfit [H1 H2 H3 H4 H5] Hu Hpm Hpg Hown HF c'. split; [|done].
  split; [unfold physmap_fits in *; simpl; by rewrite Hpg|]. exists own. split; [|by split].
  split; simpl; try done. intros t r0 pre Ht. destruct (H3 t r0 pre Ht) as (q & -> & ? & ? & _ & ?).
  exists q. split_and!; try done. destruct (Hown _ _ Ht) as (q' & E & Hq').
  assert (q' = q) as -> by (unfold PAGE_SIZE in E; lia). done.
Qed.

(** A physical address of the machine, reached through the physical map. *)
Lemma ptr_phys_physmap v p :
  physmap_fits v → vmm_ready v = true → 1 ≤ p < pa_pages (vm_pmm v) →
  ptr_phys ks v (vmm_phys_to_virt (p * PAGE_SIZE)) = Some (p * PAGE_SIZE).
Proof using Hks.
  unfold physmap_fits, ptr_phys, vmm_phys_to_virt, KERNEL_VMA_BASE, VMM_PHYSMAP_BASE, PAGE_SIZE in *.
  intros Hfit -> Hp. rewrite u64_small by lia.
  rewrite (proj2 (Z.leb_gt _ _)), (proj2 (Z.leb_le _ _)) by lia. f_equal. lia.
Qed.

Lemma pages_bound v : physmap_fits v → pa_pages (vm_pmm v) < 2 ^ 40.
Proof using. unfold physmap_fits, KERNEL_VMA_BASE, VMM_PHYSMAP_BASE, PAGE_SIZE. lia. Qed.

Lemma own_held v own t o : pt_inv v own → own !! t = Some o → ∃ q, t = q * PAGE_SIZE ∧ pa_held (vm_pmm v) q.
Proof using.
  intros Hi Ht. destruct o as [r0 pre]. destruct (pi_range _ _ Hi _ _ _ Ht) as (q & -> & _ & _ & Hq & _).
  by exists q.
Qed.

Lemma machine_id c : Machine (mc_vmm c) (mc_heap c) (mc_data c) = c.
Proof using. by destruct c. Qed.

#[global, refine] Instance machine_laws : @UserSpaceLaws (machine P) (machine_space ks) r := {
  us_inv := mc_inv;
  us_xlat := mc_xlat;
  us_byte := mc_data
}.
Proof using Hks PageAllocatorLaws0.
  - intros c F (_ & own & Hi & [Hr _] & _). pose proof (own_phys _ _ _ _ Hi Hr). lia.
  - intros c F p (Hfit & own & _ & _ & HF) Hp. destruct (HF p Hp) as [? _].
    pose proof (pages_bound _ Hfit). lia.
  - intros c F va x (_ & own & Hi & Hu & _) Hva Hx.
    destruct (mc_translate c own va Hi Hu Hva) as [[_ E]|(e & _ & E)]; rewrite E in Hx; [done|].
    injection Hx as <-. apply addr_frame.
  - intros c F va Q (_ & own & Hi & Hu & HF) Hva HQ. apply wpe_on_vmm, wpe_run. destruct Hu as [Hr Hsm].
    eapply wp_virt_to_phys_user; [done|done|done|apply Hva|]. intros x Ex. rewrite machine_id.
    destruct (mc_translate c own va Hi (conj Hr Hsm) Hva) as [[E1 E2]|(e & E1 & E2)];
      rewrite E2 in HQ; rewrite E1 in Ex; injection Ex as <-; simpl; [done|].
    rewrite upage_offset, Z.add_0_r by done. destruct (addr_frame e) as [Hf Ef]. simpl in HQ. rewrite Ef in HQ.
    rewrite u64_small by (rewrite <-Ef; unfold PAGE_SIZE in *; lia). done.
  - intros c F va p flags Q (Hfit & own & Hi & Hu & HF) Hva Hp HQ. apply wpe_on_vmm.
    eapply wpe_map_user; [done|done|done|apply Hva|done|]. intros v own' Hre.
    destruct (remapped_set c v own own' va _ F Hfit Hi Hu HF Hva Hre) as [Hi' Hs]; [by intros e m [= _ <-]|].
    rewrite xlate_user in Hs by lia. by apply HQ.
  - intros c F va Q (Hfit & own & Hi & Hu & HF) Hva HQ. apply wpe_on_vmm, wpe_run.
    eapply wp_unmap_user; [done|done|done|apply Hva| |].
    + intros v e _ Hre _. destruct (remapped_set c v own own va _ F Hfit Hi Hu HF Hva Hre) as [Hi' Hs]; [done|]. by apply HQ.
    + intros E. rewrite machine_id. apply HQ; [by split; [|exists own]|done|]. split; [|done].
      unfold mc_xlat. by rewrite E.
  - intros c F va x flags Q (Hfit & own & Hi & Hu & HF) Hva Hx HQ. apply wpe_on_vmm, wpe_run.
    destruct (mc_translate c own va Hi Hu Hva) as [[_ E]|(e & Et & E)]; rewrite E in Hx; [done|]. injection Hx as <-.
    eapply wp_protect_user; [done|done|apply Hu|apply Hva| |].
    + intros v e' Et' Hre _. rewrite Et in Et'. injection Et' as <-.
      destruct (remapped_set c v own own va _ F Hfit Hi Hu HF Hva Hre) as [Hi' Hs]; [by intros e' m [= _ <-]|].
      rewrite xlate_protect in Hs. by apply HQ.
    + intros Hn. by destruct (Hn e).
  - intros c F Q (Hfit & own & Hi & Hu & HF) H0 HQ. apply wpe_on_vmm, wpe_run, wp_with_pmm.
    apply pa_alloc_below_ok; [apply Hi|done| |].
    + by rewrite set_vpmm_id, machine_id.
    + intros p pm Hp _ Hnh Hpm [_ Hpg] Hheld Hsing.
      destruct (pmm_changed c own F ({[p]} ∪ F) pm Hfit Hi Hu Hpm Hpg) as [Hi' Hs].
      * intros t o Ht. destruct (own_held _ _ _ _ Hi Ht) as (q & -> & Hq).
        exists q. split; [done|]. apply Hheld. by left.
      * rewrite Hpg. intros q [->%elem_of_singleton|Hq]%elem_of_union.
        -- split; [done|]. split; [apply Hsing; by right|].
           destruct (own !! (p * PAGE_SIZE)) as [o|] eqn:E; [|done].
           destruct (own_held _ _ _ _ Hi E) as (q & Eq & Hq).
           assert (q = p) as -> by (unfold PAGE_SIZE in Eq; lia). done.
        -- destruct (HF q Hq) as (? & ? & ?). split; [done|]. split; [apply Hsing; by left|done].
      * pose proof (pages_bound _ Hfit). apply HQ; try done; [|lia].
        intros HpF. destruct (HF p HpF) as (_ & Hsp & _). by apply Hnh, pa_single_held.
  - intros c F p Q (Hfit & own & Hi & Hu & HF) HpF HQ. apply wpe_on_vmm, wpe_run, wp_with_pmm.
    destruct (HF p HpF) as (Hp & Hsp & Hop). apply pa_free_ok; [apply Hi|done|].
    intros pm Hpm [_ Hpg] Hheld Hsing.
    destruct (pmm_changed c own F (F ∖ {[p]}) pm Hfit Hi Hu Hpm Hpg) as [Hi' Hs].
    + intros t o Ht. destruct (own_held _ _ _ _ Hi Ht) as (q & -> & Hq).
      exists q. split; [done|]. apply Hheld. split; [done|]. intros ->. by rewrite Hop in Ht.
    + rewrite Hpg. intros q [Hq Hne%not_elem_of_singleton]%elem_of_difference. destruct (HF q Hq) as (? & ? & ?).
      split; [done|]. split; [by apply Hsing|done].
    + by apply HQ.
  - intros c F p Q (Hfit & own & Hi & Hu & HF) HpF HQ. destruct (HF p HpF) as (Hp & _ & _).
    apply wpe_run. eapply wp_update_opt.
    { rewrite ptr_phys_physmap; [reflexivity|done|apply Hi|done]. }
    apply HQ; [by split; [|exists own]|done|]. intros a. simpl. case_decide as Ha.
    + by rewrite (proj2 (Z.leb_le _ _)), (proj2 (Z.ltb_lt _ _)) by (unfold PAGE_SIZE in *; lia).
    + destruct (Z.leb_spec (p * PAGE_SIZE) a); [|done].
      by rewrite (proj2 (Z.ltb_ge _ _)) by (unfold PAGE_SIZE in *; lia).
  - intros c F n Q Hi HQ. unfold us_kmalloc, machine_space, mc_kmalloc, wpe, wp.
    destruct (mc_heap c) as [|ptr heap] eqn:E; apply HQ; done.
  - intros c F ptr Q Hi HQ. apply wpe_ret. by apply HQ.
Defined.
End laws.
