(* ===== verification/VmMain.v ===== *)
(** * User mappings: the system calls

    What [mmap], [munmap] and [mprotect] do to the pages of a process, for
    any machine that keeps the laws of [UserSpace]; that every sequence of
    these calls refines operations on a map of pages; and the calls on the
    machine of [VmMachine]. *)

From S2P Require Import Prelude Loops PageAlloc Vmm VmmInv VmRegion VmTable VmSpace VmInvariant VmUnmap VmProtect Pmm PmmIface VmmMap VmmSpec VmmProps VmMachine.

(** ** Arguments *)

(** The number of pages of a request. *)
Definition pages_of (length : Z) : Z := (length + PAGE_SIZE - 1) / PAGE_SIZE.
Definition length_valid (length : Z) : Prop := 0 < length ≤ 2 ^ 64 - PAGE_SIZE.

Lemma page_length_spec length :
  0 ≤ length < 2 ^ 64 →
  match page_length length with
  | Some l => length_valid length ∧ l = pages_of length * PAGE_SIZE ∧ 0 < pages_of length ∧ l < 2 ^ 64
  | None => ¬ length_valid length
  end.
Proof.
  intros Hl. unfold page_length, length_valid, UINT64_MAX.
  destruct (Z.eqb_spec length 0); simpl; [lia|].
  destruct (Z.ltb_spec (2 ^ 64 - 1 - (PAGE_SIZE - 1)) length); [lia|].
  assert (align_up length PAGE_SIZE = pages_of length * PAGE_SIZE) as ->.
  { change PAGE_SIZE with (2 ^ 12) in *. rewrite align_up_pow2 by lia. done. }
  assert (pages_of length * PAGE_SIZE < length + PAGE_SIZE ∧ length ≤ pages_of length * PAGE_SIZE) as [? ?].
  { unfold pages_of. pose proof (Z.div_mod (length + PAGE_SIZE - 1) PAGE_SIZE ltac:(done)).
    pose proof (Z.mod_pos_bound (length + PAGE_SIZE - 1) PAGE_SIZE ltac:(done)). unfold PAGE_SIZE in *. lia. }
  destruct (Z.eqb_spec (pages_of length * PAGE_SIZE) 0); [lia|]. unfold PAGE_SIZE in *. lia.
Qed.

Lemma page_aligned_spec a : page_aligned a = true ↔ (PAGE_SIZE | a).
Proof.
  unfold page_aligned. rewrite Z.eqb_eq. change (PAGE_SIZE - 1) with (Z.ones 12). change PAGE_SIZE with (2 ^ 12).
  by rewrite Z.land_ones, Z.mod_divide by lia.
Qed.

(** Readable, writable or executable, but never both of the latter. *)
Definition prot_valid (prot : Z) : Prop :=
  prot ∈ [0; FRY_PROT_READ; Z.lor FRY_PROT_READ FRY_PROT_WRITE; Z.lor FRY_PROT_READ FRY_PROT_EXEC].

Lemma known_bits x m k :
  0 ≤ x < 2 ^ 32 → 0 ≤ k < 32 → 0 ≤ m < 2 ^ k → clear_bits x m = 0 → x < 2 ^ k.
Proof.
  intros Hx Hk Hm Hc. destruct (decide (x < 2 ^ k)) as [|Hge]; [done|]. exfalso.
  assert (0 < x) by (pose proof (Z.pow_pos_nonneg 2 k); lia).
  assert (k ≤ Z.log2 x) as Hlog by (apply Z.log2_le_pow2; lia).
  assert (Z.log2 x < 32) as Hlog2 by (apply Z.log2_lt_pow2; lia).
  assert (Z.testbit m (Z.log2 x) = false) as Hmb.
  { apply Z.testbit_false; [lia|]. rewrite Z.div_small; [done|].
    pose proof (Z.pow_le_mono_r 2 k (Z.log2 x)). lia. }
  assert (Z.testbit (clear_bits x m) (Z.log2 x) = true) as Ht.
  { unfold clear_bits, u32. rewrite Z.land_spec, Z.bit_log2 by lia.
    rewrite Z.mod_pow2_bits_low, Z.lnot_spec, Hmb by lia. done. }
  by rewrite Hc, Z.bits_0 in Ht.
Qed.

(** A test of a number whose bits outside of [m] are clear is a test of a
    finite range. *)
Lemma small_test (f : Z → bool) (l : list Z) m k x :
  (∀ y, f y = true → clear_bits y m = 0) → 0 ≤ k < 32 → 0 ≤ m < 2 ^ k →
  forallb (λ i, eqb (f i) (bool_decide (i ∈ l))) (seqZ 0 (2 ^ k)) = true →
  Forall (λ i, 0 ≤ i < 2 ^ k) l →
  0 ≤ x < 2 ^ 32 → f x = true ↔ x ∈ l.
Proof.
  intros Hf Hk Hm Hall Hl Hx.
  assert (∀ i, 0 ≤ i < 2 ^ k → f i = true ↔ i ∈ l) as Hsmall.
  { intros i Hi. pose proof (forall_range _ _ Hall i Hi) as E. apply eqb_prop in E.
    by rewrite E, bool_decide_eq_true. }
  split; intros H.
  - apply Hsmall; [|done]. split; [lia|]. by apply (known_bits x m k); [..|apply Hf].
  - rewrite Forall_forall in Hl. apply Hsmall; [by apply Hl|done].
Qed.

Lemma prot_supported_spec prot : 0 ≤ prot < 2 ^ 32 → vm_prot_supported prot = true ↔ prot_valid prot.
Proof.
  apply (small_test _ _ (Z.lor (Z.lor FRY_PROT_READ FRY_PROT_WRITE) FRY_PROT_EXEC) 3).
  - intros y. unfold vm_prot_supported. by case (Z.eqb_spec (clear_bits y _) 0).
  - lia.
  - done.
  - vm_compute. reflexivity.
  - repeat constructor; done.
Qed.

(** The flags of a mapping without a file: private memory, which may be only
    reserved or a guard, or shared memory; at any or at a given address. *)
Definition anon_flags (flags : Z) : Prop :=
  flags ∈ [0x22; 0x32; 0xA2; 0xB2; 0x122; 0x132; 0x21; 0x31].

Lemma flags_supported_spec flags :
  0 ≤ flags < 2 ^ 32 → vm_flags_supported flags && negb (has flags FRY_MAP_FILE) = true ↔ anon_flags flags.
Proof.
  apply (small_test (λ flags, vm_flags_supported flags && negb (has flags FRY_MAP_FILE)) _ MAP_KNOWN 9).
  - intros y. unfold vm_flags_supported. by case (Z.eqb_spec (clear_bits y MAP_KNOWN) 0).
  - lia.
  - done.
  - vm_compute. reflexivity.
  - repeat constructor; done.
Qed.

(** ** The calls *)

Section main.
Context {S : Type} `{!UserSpace S} {cr3 : Z} `{!UserSpaceLaws S cr3}.
Implicit Types (s : vm S) (F : gset Z).

Abbreviation wpv m Q s := (wpe m Q (λ _, True) s).

(** What the pages of a new mapping are. *)
Definition mmap_pages (base prot flags : Z) (f : Z → page) : Prop :=
  if has flags FRY_MAP_GUARD then ∀ va, f va = Page 0 flags FRY_VM_REGION_GUARD false None
  else if has flags FRY_MAP_SHARED then
    ∃ id, 0 ≤ id < FRY_VM_SHARED_MAX ∧
      ∀ va, f va = Page prot flags FRY_VM_REGION_ANON_SHARED true (Some (id, (va - base) / PAGE_SIZE))
  else
    ∀ va, f va = Page prot flags FRY_VM_REGION_ANON_PRIVATE (negb (has flags FRY_MAP_RESERVE)) None.

(** Where a mapping of [n] pages goes: to the hint when the pages there are
    available, and otherwise to the lowest place, unless the address is fixed. *)
Definition placed (l : regions) (hint flags n base : Z) : Prop :=
  available l base n ∧
  (base = hint ∨ has flags FRY_MAP_FIXED = false ∧ ¬ available l hint n ∧
     ∀ b, b < base → ¬ available l b n).

Definition mmap_valid (hint length prot flags : Z) : Prop :=
  length_valid length ∧ prot_valid prot ∧ anon_flags flags ∧
  (has flags FRY_MAP_RESERVE = true ∨ has flags FRY_MAP_GUARD = true → prot = 0) ∧
  (PAGE_SIZE | hint).

Inductive mmap_result s F (hint length prot flags : Z) : Z → vm S → Prop :=
  | mmap_invalid :
      ¬ mmap_valid hint length prot flags →
      mmap_result s F hint length prot flags (u64 (- EINVAL)) s
  | mmap_no_memory s' :
      mmap_valid hint length prot flags → unchanged s s' F →
      mmap_result s F hint length prot flags (u64 (- ENOMEM)) s'
  | mmap_mapped base s' F' f :
      mmap_valid hint length prot flags →
      placed (vm_regions s) hint flags (pages_of length) base →
      mmap_pages base prot flags f →
      mapping s s' F F' base (pages_of length) f →
      mmap_result s F hint length prot flags base s'.

Lemma has_none flags : anon_flags flags → has flags FRY_MAP_ANON = true.
Proof using. intros H. repeat (apply elem_of_cons in H as [->|H]; [done|]). by apply elem_of_nil in H. Qed.

Lemma available_pos l base n : available l base n → 0 < base < 2 ^ 64.
Proof using.
  intros [(_ & ? & ? & ?) _]. unfold VM_USER_BASE, VM_USER_LIMIT, PAGE_SIZE in *. lia.
Qed.

(** The choice of the place. *)
Lemma wpv_place s F hint n flags (Q : Z → vm S → Prop) :
  vm_inv s F → (PAGE_SIZE | hint) → 0 ≤ hint < 2 ^ 64 → 0 < n → n * PAGE_SIZE < 2 ^ 64 →
  (∀ base, placed (vm_regions s) hint flags n base → Q base s) → Q 0 s →
  wpv (mmap_base cr3 hint (n * PAGE_SIZE) flags) Q s.
Proof using.
  intros Hinv Hd Hh Hn Hn2 Hyes Hno. pose proof Hinv as [Hok Hs]. pose proof (si_space _ _ _ _ Hs) as Hi.
  assert (untracked_free s) as Hfree by (by eapply untracked). unfold mmap_base.
  destruct (has flags FRY_MAP_FIXED) eqn:Ef; apply wpe_bind.
  - eapply wpv_range_available; [done..| |].
    + intros Hav. apply wpe_ret, Hyes. split; [done|by left].
    + intros _. by apply wpe_ret.
  - assert (¬ available (vm_regions s) hint n →
      wpv (vm_find_free_range cr3 (n * PAGE_SIZE)) Q s) as Hfind.
    { intros Hna. eapply wpv_find_free; [done..| |done]. intros base Hav Hmin. apply Hyes.
      split; [done|]. right. done. }
    destruct (Z.eqb_spec hint 0) as [->|]; simpl.
    + apply wpe_ret, Hfind. intros Hav%available_pos. lia.
    + eapply wpv_range_available; [done..| |].
      * intros Hav. apply wpe_ret, Hyes. split; [done|by left].
      * intros Hna. by apply Hfind.
Qed.

(** The mapping at a place that was found. *)
Lemma wpv_mmap_at map_fd s F hint length prot flags base :
  vm_inv s F → mmap_valid hint length prot flags →
  placed (vm_regions s) hint flags (pages_of length) base →
  (has flags FRY_MAP_SHARED = true → pages_of length < 2 ^ 32) →
  wpv (mmap_at cr3 map_fd base (pages_of length * PAGE_SIZE) prot flags)
    (mmap_result s F hint length prot flags) s.
Proof using.
  intros Hinv Hv Hpl Hsh. pose proof Hpl as [Hav _]. pose proof (available_pos _ _ _ Hav) as Hb.
  pose proof Hav as [(Hd & _ & _ & Htop) _]. pose proof Hv as (Hlv & _ & Hfl & Hpz & _).
  pose proof (page_length_spec length) as Hlen. unfold length_valid in Hlv.
  assert (0 < pages_of length ∧ pages_of length * PAGE_SIZE < 2 ^ 64) as [Hn Hn2].
  { specialize (Hlen ltac:(unfold PAGE_SIZE in *; lia)). destruct (page_length length); [lia|]. by destruct Hlen. }
  assert (∀ s', unchanged s s' F → mmap_result s F hint length prot flags (u64 (- ENOMEM)) s') as Hno.
  { intros. by apply mmap_no_memory. }
  unfold mmap_at. destruct (has flags FRY_MAP_GUARD) eqn:Eg.
  - apply wpe_bind. eapply wpv_map_guard; [done|done|lia|done|done| |]; intros s'; [intros F' Hm|intros Hu]; apply wpe_ret; simpl;
      [|by apply Hno].
    eapply mmap_mapped; try done. unfold mmap_pages. by rewrite Eg.
  - rewrite (has_none flags Hfl). destruct (has flags FRY_MAP_SHARED) eqn:Es; apply wpe_bind.
    + eapply wpv_map_shared_region; [done|done|lia|split; [done|by apply Hsh]| |]; intros s'; [intros F' id Hid Hm|intros Hu];
        apply wpe_ret; simpl; [|by apply Hno].
      eapply mmap_mapped; try done. unfold mmap_pages. rewrite Eg, Es. by exists id.
    + eapply wpv_map_private; [done|done|lia|done|done| |]; intros s'; [intros F' Hm|intros Hu]; apply wpe_ret; simpl;
        [|by apply Hno].
      eapply mmap_mapped; try done. unfold mmap_pages. rewrite Eg, Es. intros va.
      destruct (has flags FRY_MAP_RESERVE) eqn:Er; [|done]. by rewrite Hpz by auto.
Qed.

Lemma vm_mmap_wp map_fd s F hint length a3 a4 :
  vm_inv s F → 0 ≤ hint < 2 ^ 64 → 0 ≤ length < 2 ^ 64 →
  has (u32 a4) FRY_MAP_FILE = false →
  (has (u32 a4) FRY_MAP_SHARED = true → pages_of length < 2 ^ 32) →
  wpe (sys_mmap cr3 map_fd hint length a3 a4)
    (mmap_result s F hint length (u32 a3) (u32 a4)) (λ _, True) s.
Proof using.
  intros Hinv Hh Hl Hfile Hsh. unfold sys_mmap.
  set (prot := u32 a3). set (flags := u32 a4) in *.
  assert (0 ≤ prot < 2 ^ 32 ∧ 0 ≤ flags < 2 ^ 32) as [Hp Hf] by (split; by apply Z.mod_pos_bound).
  pose proof (page_length_spec length Hl) as Hlen. pose proof (prot_supported_spec prot Hp) as Hps.
  pose proof (flags_supported_spec flags Hf) as Hfs. rewrite Hfile, andb_true_r in Hfs.
  assert (¬ mmap_valid hint length prot flags →
    wpv (mret (u64 (- EINVAL))) (mmap_result s F hint length prot flags) s) as Hbad.
  { intros. apply wpe_ret. by constructor. }
  destruct (page_length length) as [l|]; [destruct Hlen as (Hlv & -> & Hn & Hn2)|apply Hbad; by intros [? _]].
  destruct (vm_prot_supported prot); [simpl|apply Hbad; intros (_ & ?%Hps & _); done].
  destruct (vm_flags_supported flags); [simpl|apply Hbad; intros (_ & _ & ?%Hfs & _); done].
  destruct (has flags FRY_MAP_RESERVE && negb (prot =? 0)) eqn:E1.
  { apply Hbad. intros (_ & _ & _ & H & _). b2p. tauto. }
  destruct (has flags FRY_MAP_GUARD && negb (prot =? 0)) eqn:E2.
  { apply Hbad. intros (_ & _ & _ & H & _). b2p. tauto. }
  destruct (negb (hint =? 0) && negb (page_aligned hint)) eqn:E3.
  { apply Hbad. intros (_ & _ & _ & _ & H%page_aligned_spec). rewrite H, andb_false_r in E3. done. }
  assert ((PAGE_SIZE | hint)) as Hd.
  { apply andb_false_iff in E3 as [E3|E3]; b2p; [subst; apply Z.divide_0_r|by apply page_aligned_spec]. }
  assert (mmap_valid hint length prot flags) as Hv.
  { split_and!; [done|by apply Hps|by apply Hfs| |done].
    intros [H|H]; rewrite H in *; simpl in *; b2p; done. }
  apply wpe_bind. eapply wpv_place; [done..| |].
  2: { apply wpe_ret. apply mmap_no_memory; [done|]. by apply unchanged_refl. }
  intros base Hpl. rewrite (proj2 (Z.eqb_neq base 0)) by (pose proof (available_pos _ _ _ (proj1 Hpl)); lia).
  by apply wpv_mmap_at.
Qed.


Inductive munmap_result s F (base length : Z) : Z → vm S → Prop :=
  | munmap_invalid :
      ¬ ((PAGE_SIZE | base) ∧ length_valid length) →
      munmap_result s F base length (u64 (- EINVAL)) s
  | munmap_refused :
      (PAGE_SIZE | base) → length_valid length →
      unmap_refused (vm_regions s) base (pages_of length) →
      munmap_result s F base length (u64 (-1)) s
  | munmap_done s' :
      (PAGE_SIZE | base) → length_valid length →
      unmapping s s' F base (pages_of length) →
      munmap_result s F base length 0 s'.

Lemma vm_munmap_wp s F base length :
  vm_inv s F → 0 ≤ base < 2 ^ 64 → 0 ≤ length < 2 ^ 64 →
  wpe (sys_munmap cr3 base length) (munmap_result s F base length) (λ _, True) s.
Proof using.
  intros Hinv Hb Hl. unfold sys_munmap. pose proof (page_aligned_spec base) as Hd.
  destruct (page_aligned base); simpl; [|apply wpe_ret; constructor; intros [?%Hd _]; done].
  pose proof (page_length_spec length Hl) as Hlen.
  destruct (page_length length) as [l|]; [|apply wpe_ret; constructor; tauto].
  destruct Hlen as (Hlv & -> & Hn & Hn2). apply wpe_bind. assert ((PAGE_SIZE | base)) by tauto.
  eapply wpv_unmap_range; [done..| |].
  - intros s' Hu. apply wpe_ret. by apply munmap_done.
  - intros Hr. apply wpe_ret. by apply munmap_refused.
Qed.

(** C6: [munmap] of a page range refuses an unaligned base or an empty or
    overlong range with [-EINVAL], and answers [-1] when a page of the range
    belongs to no mapping or a mapping has to be split and the table is full,
    in both cases with the state as it was.  Otherwise it removes exactly the
    pages of the range, however many mappings they belong to, gives exactly
    their frames back, keeps every other page, and leaves no two mappings
    that could be merged. *)
Theorem vm_munmap_correct s F base length :
  vm_inv s F → 0 ≤ base < 2 ^ 64 → 0 ≤ length < 2 ^ 64 →
  wpe (sys_munmap cr3 base length) (munmap_result s F base length) (λ _, True) s.
Proof using. apply vm_munmap_wp. Qed.

Inductive mprotect_result s F (base length prot : Z) : Z → vm S → Prop :=
  | mprotect_invalid :
      ¬ ((PAGE_SIZE | base) ∧ length_valid length ∧ prot_valid prot) →
      mprotect_result s F base length prot (u64 (- EINVAL)) s
  | mprotect_refused s' :
      (PAGE_SIZE | base) → length_valid length → prot_valid prot →
      unchanged s s' F → protect_refused (vm_regions s) base (pages_of length) prot →
      mprotect_result s F base length prot (u64 (-1)) s'
  | mprotect_done s' F' :
      (PAGE_SIZE | base) → length_valid length → prot_valid prot →
      protecting s s' F F' base (pages_of length) prot →
      mprotect_result s F base length prot 0 s'.

Lemma vm_mprotect_wp s F base length a3 :
  vm_inv s F → 0 ≤ base < 2 ^ 64 → 0 ≤ length < 2 ^ 64 →
  wpe (sys_mprotect cr3 base length a3) (mprotect_result s F base length (u32 a3)) (λ _, True) s.
Proof using.
  intros Hinv Hb Hl. unfold sys_mprotect. pose proof (page_aligned_spec base) as Hd.
  destruct (page_aligned base); simpl; [|apply wpe_ret; constructor; intros [?%Hd _]; done].
  pose proof (page_length_spec length Hl) as Hlen. pose proof (prot_supported_spec (u32 a3)) as Hp.
  destruct (page_length length) as [l|]; [|apply wpe_ret; constructor; tauto].
  destruct Hlen as (Hlv & -> & Hn & Hn2). assert ((PAGE_SIZE | base)) by tauto.
  specialize (Hp ltac:(by apply Z.mod_pos_bound)).
  destruct (vm_prot_supported (u32 a3)); simpl; [|apply wpe_ret; constructor; intros (_ & _ & ?%Hp); done].
  assert (prot_valid (u32 a3)) by tauto. apply wpe_bind.
  eapply wpv_protect_range; [done..| |].
  - intros s' F' Hu. apply wpe_ret. by eapply mprotect_done.
  - intros s' Hu Hr. apply wpe_ret. by eapply mprotect_refused.
Qed.

(** C7: [mprotect] refuses invalid arguments with [-EINVAL], and answers [-1]
    without an effect when the range does not lie in one mapping, a mapping
    has to be split and the table has no room, or reserved pages could not
    be backed.  Otherwise the pages of the range keep their frames and get
    the protection, reserved pages get zeroed frames of their own, and no
    other page, frame or byte changes. *)
Theorem vm_mprotect_correct s F base length a3 :
  vm_inv s F → 0 ≤ base < 2 ^ 64 → 0 ≤ length < 2 ^ 64 →
  wpe (sys_mprotect cr3 base length a3) (mprotect_result s F base length (u32 a3)) (λ _, True) s.
Proof using. apply vm_mprotect_wp. Qed.

(** ** Sequences of calls *)

Inductive vm_call :=
  | Mmap (hint length prot flags : Z)
  | Munmap (base length : Z)
  | Mprotect (base length prot : Z).

Definition do_call (map_fd : Z → Z → Z → Z → ME (vm S) Z) (c : vm_call) : ME (vm S) Z :=
  match c with
  | Mmap hint length prot flags => sys_mmap cr3 map_fd hint length prot flags
  | Munmap base length => sys_munmap cr3 base length
  | Mprotect base length prot => sys_mprotect cr3 base length prot
  end.

(** The calls with 64-bit arguments whose mappings have no file. *)
Definition call_ok (c : vm_call) : Prop :=
  match c with
  | Mmap hint length prot flags =>
      0 ≤ hint < 2 ^ 64 ∧ 0 ≤ length < 2 ^ 64 ∧ has (u32 flags) FRY_MAP_FILE = false ∧
      (has (u32 flags) FRY_MAP_SHARED = true → pages_of length < 2 ^ 32)
  | Munmap base length | Mprotect base length _ => 0 ≤ base < 2 ^ 64 ∧ 0 ≤ length < 2 ^ 64
  end.

Fixpoint do_calls (map_fd : Z → Z → Z → Z → ME (vm S) Z) (cs : list vm_call) : ME (vm S) (list Z) :=
  match cs with
  | [] => mret []
  | c :: cs => r ← do_call map_fd c; rs ← do_calls map_fd cs; mret (r :: rs)
  end.

(** The abstract machine: a map from addresses to pages, and what a call may
    do to it. *)
Inductive abs_step (V : Z → option page) : vm_call → Z → (Z → option page) → Prop :=
  | step_error c e V' :
      e ∈ [u64 (- EINVAL); u64 (- ENOMEM); u64 (-1)] → (∀ va, V' va = V va) → abs_step V c e V'
  | step_mmap hint length a3 a4 base f V' :
      mmap_valid hint length (u32 a3) (u32 a4) →
      (∀ va, pin base (pages_of length) va → apage va ∧ V va = None) →
      mmap_pages base (u32 a3) (u32 a4) f →
      (∀ va, V' va = vset V base (pages_of length) f va) →
      abs_step V (Mmap hint length a3 a4) base V'
  | step_munmap base length V' :
      (∀ va, base ≤ va < base + pages_of length * PAGE_SIZE → is_Some (V va)) →
      (∀ va, V' va = vcut V base (pages_of length) va) →
      abs_step V (Munmap base length) 0 V'
  | step_mprotect base length a3 V' :
      prot_valid (u32 a3) →
      (∀ va, base ≤ va < base + pages_of length * PAGE_SIZE → is_Some (V va)) →
      (∀ va, V' va = if decide (base ≤ va < base + pages_of length * PAGE_SIZE)
                     then protect_page (u32 a3) <$> V va else V va) →
      abs_step V (Mprotect base length a3) 0 V'.

Inductive abs_steps : (Z → option page) → list vm_call → list Z → (Z → option page) → Prop :=
  | steps_nil V V' : (∀ va, V' va = V va) → abs_steps V [] [] V'
  | steps_cons V c r V1 cs rs V2 :
      abs_step V c r V1 → abs_steps V1 cs rs V2 → abs_steps V (c :: cs) (r :: rs) V2.

Lemma abs_steps_ext V W cs rs V' : (∀ va, V va = W va) → abs_steps V cs rs V' → abs_steps W cs rs V'.
Proof using.
  intros HE. inversion 1 as [? ? HV|? ? ? V1 ? ? ? Hs Hr]; subst.
  - constructor. intros va. by rewrite HV.
  - econstructor; [|exact Hr]. destruct Hs as [? ? ? ? HV|? ? ? ? ? ? ? ? Hn ? HV|? ? ? Hn HV|? ? ? ? ? Hn HV].
    + apply step_error; [done|]. intros va. by rewrite HV.
    + eapply step_mmap; try done; [intros va Hp; by rewrite <-HE; apply Hn|].
      intros va. rewrite HV. unfold vset. by rewrite HE.
    + apply step_munmap; [intros va Hp; by rewrite <-HE; apply Hn|]. intros va. rewrite HV. unfold vcut. by rewrite HE.
    + apply step_mprotect; [done|intros va Hp; by rewrite <-HE; apply Hn|]. intros va. rewrite HV. by rewrite HE.
Qed.

Lemma wpv_do_call map_fd c s F :
  vm_inv s F → call_ok c →
  wpv (do_call map_fd c) (λ r s', (∃ F', vm_inv s' F') ∧
    abs_step (view (vm_regions s)) c r (view (vm_regions s'))) s.
Proof using.
  intros Hinv Hok. assert (∀ s', unchanged s s' F → ∃ F', vm_inv s' F') as Hun by (intros s' []; by exists F).
  destruct c as [hint length a3 a4|base length|base length a3]; simpl in Hok |- *.
  - destruct Hok as (? & ? & ? & ?). eapply wpe_mono; [by apply (vm_mmap_wp map_fd s F)| |done].
    intros r s' [Hbad|s1 _ Hu|b s1 F' f Hv [[Hr Hno] _] Hf Hm].
    + split; [by exists F|]. by apply step_error; [set_solver|].
    + split; [by apply Hun|]. apply step_error; [set_solver|]. by rewrite (un_regions _ _ _ Hu).
    + split; [exists F'; apply Hm|]. eapply step_mmap; [done| |done|apply Hm].
      intros va Hp. split; [by eapply pin_apage|by apply Hno].
  - eapply wpe_mono; [apply (vm_munmap_wp s F); [done|apply Hok..]| |done].
    intros r s' [Hbad|_ _ _|s1 _ _ Hu].
    + split; [by exists F|]. by apply step_error; [set_solver|].
    + split; [by exists F|]. by apply step_error; [set_solver|].
    + split; [eexists; apply Hu|]. apply step_munmap; apply Hu.
  - eapply wpe_mono; [apply (vm_mprotect_wp s F); [done|apply Hok..]| |done].
    intros r s' [Hbad|s1 _ _ _ Hu _|s1 F' _ _ Hp Hu].
    + split; [by exists F|]. by apply step_error; [set_solver|].
    + split; [by apply Hun|]. apply step_error; [set_solver|]. by rewrite (un_regions _ _ _ Hu).
    + split; [eexists; apply Hu|]. apply step_mprotect; [done| |apply Hu].
      destruct (ptc_range _ _ _ _ _ _ _ Hu) as (i & x & Hh). intros va Hva.
      rewrite (body_view s F base (pages_of length) i x Hinv Hh va Hva). by eexists.
Qed.

Lemma wpv_do_calls map_fd cs s F :
  vm_inv s F → Forall call_ok cs →
  wpv (do_calls map_fd cs) (λ rs s', (∃ F', vm_inv s' F') ∧
    abs_steps (view (vm_regions s)) cs rs (view (vm_regions s'))) s.
Proof using.
  intros Hinv Hok. revert s F Hinv. induction Hok as [|c cs Hc _ IH]; intros s F Hinv; simpl.
  - apply wpe_ret. split; [by exists F|]. by constructor.
  - apply wpe_bind. eapply wpe_mono; [by apply (wpv_do_call map_fd c s F)| |done].
    intros r s1 [[F1 Hi1] Hs1]. apply wpe_bind. eapply wpe_mono; [by apply (IH s1 F1)| |done].
    intros rs s2 [Hi2 Hs2]. apply wpe_ret. split; [done|]. by econstructor.
Qed.

(** The protection of every page is a valid one. *)
Definition prots_valid (V : Z → option page) : Prop := ∀ va a, V va = Some a → prot_valid (pg_prot a).

Lemma abs_step_prots V c r V' : abs_step V c r V' → prots_valid V → prots_valid V'.
Proof using.
  assert (prot_valid 0) as Hz by (by left).
  intros [? ? ? _ HV|hint length a3 a4 base f ? (_ & Hp & _) _ Hf HV|? ? ? _ HV|? ? a3 ? Hp _ HV] Hok va a;
    rewrite HV; [by apply Hok| | |].
  - unfold vset. case_decide; [|by apply Hok]. intros [= <-]. unfold mmap_pages in Hf.
    destruct (has _ FRY_MAP_GUARD); [by rewrite Hf|]. destruct (has _ FRY_MAP_SHARED); [|by rewrite Hf].
    destruct Hf as (id & _ & ->). done.
  - unfold vcut. case_decide; [done|]. by apply Hok.
  - case_decide; [|by apply Hok]. intros (b & Hb & ->)%fmap_Some. unfold protect_page.
    destruct (pg_committed b); [done|]. destruct (u32 a3 =? 0); [by eapply Hok|done].
Qed.

Lemma abs_steps_prots V cs rs V' : abs_steps V cs rs V' → prots_valid V → prots_valid V'.
Proof using.
  induction 1 as [V V' HV|]; [|by eauto using abs_step_prots]. intros Hok va a. rewrite HV. by apply Hok.
Qed.

Lemma pte_prot_wx prot :
  prot_valid prot → has (pte_prot prot) VMM_FLAG_WRITE = true → has (pte_prot prot) VMM_FLAG_NO_EXECUTE = true.
Proof using. intros H. repeat (apply elem_of_cons in H as [->|H]; [done|]). by apply elem_of_nil in H. Qed.

(** ** The end of a process *)

(** C9: the end of a process: after [syscall_vm_process_exit] its table is
    empty, the frames of the shared pages it maps are given back and no page
    of an object any more, and nothing else has changed: its private frames
    stay mapped, for the destruction of the address space to free. *)
Theorem vm_process_exit_correct s F :
  vm_inv s F →
  wpe syscall_vm_process_exit (λ _ s', ∃ F', exited s s' F F') (λ _, True) s.
Proof using.
  intros Hinv. apply (wpv_process_exit s F Hinv). intros s' F' He. exists F'. by apply exiting_exited.
Qed.
End main.

(** ** A new process *)

Definition fresh_process {S} (m : S) : vm S :=
  Vm (replicate (Z.to_nat PROC_VMREG_MAX) vm_region_clear)
     (replicate (Z.to_nat FRY_VM_SHARED_MAX) vm_shared_reset) m.

Lemma fresh_regions {S} (m : S) : regs_ok (vm_regions (fresh_process m)).
Proof.
  split; [apply length_replicate|..].
  - by intros i r [-> _]%lookup_replicate.
  - by intros i j r x [-> _]%lookup_replicate.
Qed.

Lemma fresh_view {S} (m : S) va : view (vm_regions (fresh_process m)) va = None.
Proof.
  apply view_None; [apply fresh_regions|]. by intros i r [-> _]%lookup_replicate [Hu _].
Qed.

Lemma fresh_objects {S} (m : S) id idx : obj_page (vm_shared_objects (fresh_process m)) id idx = None.
Proof.
  destruct (obj_page _ _ _) as [p|] eqn:E; [|done].
  apply obj_page_Some in E as (_ & _ & o & pa & [-> _]%lookup_replicate & Hu & _). done.
Qed.

Lemma fresh_inv {S} `{!UserSpace S} {cr3 : Z} `{!UserSpaceLaws S cr3} (m : S) :
  us_inv m ∅ → (∀ va, apage va → us_xlat m va = None) → vm_inv (fresh_process m) ∅.
Proof.
  intros Hi Hx. split.
  - apply fresh_regions.
  - split; [done| | | |done].
    + split; [apply length_replicate|..].
      * by intros i o [-> _]%lookup_replicate.
      * intros *. by rewrite fresh_objects.
      * intros *. by rewrite fresh_objects.
    + intros va Hva. rewrite fresh_view. by apply Hx.
    + intros va va' x x' Hva _. by rewrite Hx.
Qed.

(** In a new address space of the virtual memory manager. *)
Section process.
Context {P : Type} `{!PageAllocator P, !PageAllocatorLaws P} (ks : kernel_syms).
Context (Hks : KERNEL_VMA_BASE ≤ ks_kernel_start ks).

Lemma created_inv v own v' own' r heap data :
  physmap_fits v → created v own v' own' r →
  @vm_inv _ (machine_space ks) r (machine_laws ks r Hks) (fresh_process (Machine v' heap data)) ∅.
Proof using.
  intros Hfit ([Hi (_ & _ & _ & Hpg) _ _ _ _] & Hu & _ & Hn & _).
  unshelve eapply fresh_inv; simpl.
  - split; [unfold physmap_fits in *; simpl; by rewrite Hpg|]. exists own'. by split_and!.
  - intros va [[_ Hva] _]. unfold mc_xlat. simpl. by rewrite Hn.
Qed.

End process.

(** ** A concrete process *)

(** The buddy allocator and the virtual memory manager of the running kernel. *)
#[local] Instance demo_space : UserSpace (machine pmm) := machine_space demo_ks.
#[local] Instance demo_laws r : UserSpaceLaws (machine pmm) r := machine_laws demo_ks r demo_ks_ok.

Definition demo_process (v : vmm pmm) : vm (machine pmm) :=
  fresh_process (Machine v [0x1000; 0x2000] (λ _, 0xCC)).

Lemma demo_fits : physmap_fits demo_vmm.
Proof.
  unfold physmap_fits. change (pa_pages (vm_pmm demo_vmm)) with (pmm_total_pages (vm_pmm demo_vmm)).
  apply Z.leb_le. vm_compute. reflexivity.
Qed.

(** A new process on the concrete machine. *)
Lemma demo_created :
  wpe (vmm_create_address_space demo_ks) (λ r v, vm_inv (cr3 := r) (demo_process v) ∅) (λ _, True) demo_vmm.
Proof.
  destruct demo_vmm_started as (own & Hi & Hk). eapply wpe_create; [exact demo_ks_ok|done..|].
  intros v own' r Hc. by apply (created_inv demo_ks demo_ks_ok demo_vmm own v own'), Hc; apply demo_fits.
Qed.

Definition no_files (_ _ _ _ : Z) : ME (vm (machine pmm)) Z := mret (u64 (- EINVAL)).

(** Three pages, of which the second becomes read-only and the third is
    given back. *)
Definition demo_calls : list vm_call :=
  [Mmap VM_USER_BASE 10000 3 0x32; Mprotect (VM_USER_BASE + PAGE_SIZE) PAGE_SIZE 1;
   Munmap (VM_USER_BASE + 2 * PAGE_SIZE) PAGE_SIZE; Mmap VM_USER_BASE PAGE_SIZE 3 0x32;
   Mmap (VM_USER_BASE + 2 * PAGE_SIZE) 1 1 0x31; Munmap VM_USER_BASE 10000].

Lemma demo_calls_ok : Forall call_ok demo_calls.
Proof. repeat (constructor; [by split_and!|]). constructor. Qed.

Example demo_calls_run :
  match vmm_create_address_space demo_ks demo_vmm with
  | Some (Some r, v) =>
      match do_calls (cr3 := r) no_files demo_calls (demo_process v) with
      | Some (Some rs, s) => Some rs
      | _ => None
      end
  | _ => None
  end = Some [VM_USER_BASE; 0; 0; u64 (- ENOMEM); VM_USER_BASE + 2 * PAGE_SIZE; 0].
Proof. vm_compute. reflexivity. Qed.


(** After the first calls of the process. *)
Lemma vm_munmap_correct_witness :
  wpe (vmm_create_address_space demo_ks)
    (λ r v, wpe (do_calls (cr3 := r) no_files (take 2 demo_calls))
       (λ _ s, ∃ F, wpe (sys_munmap r VM_USER_BASE 10000)
          (munmap_result (cr3 := r) s F VM_USER_BASE 10000) (λ _, True) s)
       (λ _, True) (demo_process v))
    (λ _, True) demo_vmm.
Proof.
  eapply wpe_mono; [exact demo_created| |done]. intros r v Hinv. eapply wpe_mono.
  - apply (wpv_do_calls (cr3 := r) no_files (take 2 demo_calls) _ ∅ Hinv), Forall_take, demo_calls_ok.
  - intros rs s [[F HF] _]. exists F. by apply (vm_munmap_correct (cr3 := r) s F VM_USER_BASE 10000 HF).
  - done.
Defined.

Lemma vm_mprotect_correct_witness :
  wpe (vmm_create_address_space demo_ks)
    (λ r v, wpe (do_calls (cr3 := r) no_files (take 2 demo_calls))
       (λ _ s, ∃ F, wpe (sys_mprotect r VM_USER_BASE PAGE_SIZE 1)
          (mprotect_result (cr3 := r) s F VM_USER_BASE PAGE_SIZE 1) (λ _, True) s)
       (λ _, True) (demo_process v))
    (λ _, True) demo_vmm.
Proof.
  eapply wpe_mono; [exact demo_created| |done]. intros r v Hinv. eapply wpe_mono.
  - apply (wpv_do_calls (cr3 := r) no_files (take 2 demo_calls) _ ∅ Hinv), Forall_take, demo_calls_ok.
  - intros rs s [[F HF] _]. exists F. by apply (vm_mprotect_correct (cr3 := r) s F VM_USER_BASE PAGE_SIZE 1 HF).
  - done.
Defined.

Lemma vm_process_exit_correct_witness :
  wpe (vmm_create_address_space demo_ks)
    (λ r v, wpe (do_calls (cr3 := r) no_files (take 5 demo_calls))
       (λ _ s, ∃ F, wpe syscall_vm_process_exit (λ _ s', ∃ F', exited (cr3 := r) s s' F F') (λ _, True) s)
       (λ _, True) (demo_process v))
    (λ _, True) demo_vmm.
Proof.
  eapply wpe_mono; [exact demo_created| |done]. intros r v Hinv. eapply wpe_mono.
  - apply (wpv_do_calls (cr3 := r) no_files (take 5 demo_calls) _ ∅ Hinv), Forall_take, demo_calls_ok.
  - intros rs s [[F HF] _]. exists F. by apply (vm_process_exit_correct (cr3 := r) s F HF).
  - done.
Defined.


